(* ===== verification/_CoqProject ===== *)
-Q . S2P
Prelude.v
Core.v
Crypto.v
Cursor.v
Writer.v
Varint.v
Locality.v
QuicError.v
PacketNumber.v
Stream.v
Congestion.v
ConnectionId.v
CryptoStream.v
Datagram.v
Frame.v
PnSpace.v
Loss.v
AckProcessing.v
Close.v
Http3Frame.v
Http3Settings.v
Http3Control.v
Capsule.v
Framing.v
Buffered.v
Session.v
Packet.v
Protection.v
PacketIo.v
RetryToken.v
ServerRetry.v
TransportParameters.v
TlsExtension.v
Update.v
Connection.v
ConnectionKeys.v
ConnectionSend.v
ConnectionLoss.v
ConnectionStream.v
ConnectionRetry.v
ConnectionReceive.v
Recovery.v
ConnectionSample.v
ConnectionRefinement.v
ConnectionDelivery.v
ConnectionEdges.v
Handshake.v
HandshakeSample.v
HandshakeReads.v
HandshakeResend.v
HandshakeEdges.v
QpackHuffman.v
QpackPrimitives.v
QpackStatic.v
QpackDynamic.v
QpackStreams.v
QpackField.v
QpackEncoder.v
Http3Message.v
Http3Endpoint.v
Protocol.v
SessionRequest.v
Driver.v
DriverStream.v
DriverRoute.v
DriverSend.v
DriverQuic.v
DriverFrames.v
DriverEdges.v
