(* ===== verification/Prelude.v ===== *)
(** * A verification development for the C99 WebTransport stack

    The repository holds a WebTransport stack: QUIC, HTTP/3 with QPACK, and
    WebTransport sessions over them, written in C99 (under [src/C99] of the
    repository; the paths below are relative to it) and again in Swift.  This
    library models the C99 implementation.

    ** The program and this library

    The code is layered: bytes and bounded buffers ([src/core]); the QUIC
    transport ([src/quic]) over a crypto binding ([src/crypto]) and a TLS machine
    ([src/tls]); HTTP/3 and QPACK ([src/http3]); WebTransport
    ([src/webtransport]).  A file here models the C files its first lines name,
    a definition has the name of the C function it translates, and a record has a
    field for each field of the C structure that decides behaviour.  The
    connection owns the packet-level parts and calls the layer above for frames and
    losses; that layer is the handshake for CRYPTO frames and the HTTP/3 driver for
    streams; the driver feeds the HTTP/3 endpoint and hands messages up.

    - Bytes and buffers.  [Core]: checked arithmetic, big-endian loads and stores,
      deadlines.  [Update]: update of record fields.  [Cursor]: the read cursor, on which every decoder is a [parser].
      [Writer]: the bounded writer, in its writing and its measuring mode.
      [Varint]: QUIC's variable-length integers.  [Locality]: what a decoder sees.
    - QUIC.  [QuicError], [PacketNumber], [Packet] (packet headers), [Frame] (the
      frame codec), [TransportParameters]; [Stream] (streams, their table and flow
      control), [CryptoStream], [Datagram], [ConnectionId], [PnSpace] (packet number
      spaces, ACK ranges, round-trip time), [Loss], [AckProcessing], [Congestion],
      [Close].
    - Packets.  [Crypto]: the binding as a class of operations and one of laws, with
      HKDF defined; [Protection] (keys, nonces, header protection), [PacketIo] (one
      packet out, one in), [RetryToken] and [ServerRetry] (a Retry's server half).
    - The connection.  [Connection] (its state), [ConnectionKeys], [ConnectionSend],
      [ConnectionLoss], [ConnectionStream], [ConnectionRetry], [ConnectionReceive]:
      one file per C file, every operation that changes state.  [Recovery] is the
      abstract transition system of loss recovery, [ConnectionRefinement] shows that
      the connection refines it, [ConnectionDelivery] that what one end sends the
      other reads, [ConnectionEdges] where it does something else.
      [ConnectionSample] has two ends to evaluate.
    - The handshake.  [Handshake] ([src/quic/handshake.c]) joins a connection and a
      TLS machine, which is behind the classes [TlsClient] and [TlsServer];
      [HandshakeReads] and [HandshakeResend] hold what it promises in the two
      directions, [HandshakeEdges] where it stops short, [HandshakeSample] machines
      to evaluate with.  [TlsExtension]: the extensions of TLS messages.
    - HTTP/3.  [Http3Frame], [Http3Settings], [Http3Control] (control stream, frame
      placement, GOAWAY); QPACK in [QpackHuffman], [QpackPrimitives], [QpackStatic],
      [QpackDynamic], [QpackStreams], [QpackField], [QpackEncoder]; [Http3Message]
      (header rules, messages, request streams); [Http3Endpoint] composes them.
    - The HTTP/3 driver.  [Driver] (its tables), [DriverStream] (bytes to frames),
      [DriverRoute], [DriverSend], [DriverQuic] (the binding to a connection);
      [DriverFrames] shows that the frames a peer sends are the frames delivered,
      [DriverEdges] where they are not.
    - WebTransport.  [Capsule], [Framing], [Buffered] (what arrives before its
      session), [Session], [Protocol] (application protocol negotiation),
      [SessionRequest] (the request that opens a session).

    ** How the C is modelled

    Integers are [Z]; where the C type can wrap the wrap is written ([u64], [u32],
    [u16]), and [size_t] has 64 bits.  A pointer and a length are a list of bytes
    (an optional list where NULL is told apart); pointers the API requires are the
    objects they point to, so the NULL-argument guards are not in the model.
    A stateful function takes its state and returns it, on error paths too.  A
    status and an error code are returned as the C returns them: [outcome] is the
    value or [Fail status code].  What a failed decoder leaves in its output
    parameters is not modelled.  Callbacks are arguments of the definitions, and so
    are the socket and the random source; an object the C reaches through a pointer
    kept for a callback (the layer above a connection) is a field of the state.
    Where C has pointers into a buffer that moves (the arena of the QPACK dynamic
    table) the model has the buffer, the offsets and the moves.

    Loops that are not structural run on fuel; the theorems say how much is enough.
    Decoding loops consume at least one byte per step, so the length of the input
    plus one is enough ([frames_decode_total], [message_decode_terminates],
    [encoder_loop_reads]); a loop over a table of fixed size has the size as fuel.
    The message loop of the handshake and its send loop have the size of the CRYPTO
    window, since a turn takes at least a byte of it.  The one recursion without a
    bound in the C, sending that detects losses that sends, takes a number of levels
    and counts in the state when they run out.  No result is stated only for runs
    that return.

    ** What the theorems show

    - Delivery and reading in order: what one end of a connection sends is what the
      other reads ([connection_delivery]), nothing is half sent
      ([send_packet_all_or_nothing]), a stream's frames are delivered once and in
      order however its bytes are cut ([stream_delivers_frames],
      [stream_bytes_in_pieces]), the TLS machine is handed the messages of the byte
      stream however CRYPTO frames arrive ([handshake_reads_in_order]), and a CRYPTO
      range that is lost goes out again ([lost_crypto_is_resent]).
    - Refinement of loss recovery: [connection_refines_recovery],
      [connection_wire_invariant].
    - Decoders on arbitrary bytes: the cursor stays in its block and an answer is a
      well-formed value or a refusal with a code of that layer
      ([frame_decode_arbitrary_bytes], [long_header_decode_arbitrary_bytes],
      [section_next_safe], [h3_frame_decode_arbitrary_bytes]).
    - Round trips of the codecs ([frame_roundtrip], [long_packet_roundtrip],
      [transport_parameters_roundtrip], [packet_number_roundtrip],
      [settings_roundtrip], [field_section_roundtrip], [request_roundtrip],
      [extension_block_exact], [packet_protection_roundtrip] and others).
    - Equivalence with a reference: the UTF-8 check, the Huffman decoder, the header
      validator, the parameter table, the SETTINGS parser ([utf8_check_exact],
      [huffman_decoder_exact], [header_section_exact], [transport_parameter_lookup_exact],
      [settings_parse_exact]).
    - Independence of how a stream is cut into pieces ([capsule_stream_split_invariant],
      [settings_split_invariant], [encoder_stream_chunks]), from [parser_local].
    - Refinement of an abstract state: received bytes, byte queues, maps and windows
      ([crypto_reassembly], [datagram_queue_is_fifo], [ack_build_describes_received],
      [buffered_streams_whole_or_rejected], [dynamic_table_refines_history],
      [outstanding_sections_tracked]).
    - Invariants over every sequence of calls: flow-control accounting, loss
      accounting, connection IDs, congestion windows, session and endpoint state
      ([connection_credit_conserved], [loss_accounts_balance], [connection_id_limits],
      [congestion_window_bounds], [session_lifecycle], [endpoint_invariant]).
    - Where the code does not do what it or its comments say, the statement that
      holds of the code ([own_ack_misread], [only_first_headers_read],
      [evictable_entries_are_referenced], [early_drain_forgotten] and others).

    ** Not modelled

    The TLS machines beyond what is named above: their messages, key schedule,
    state machines and certificate checks ([src/tls]); the theorems on the handshake
    hold of any machine behind the two classes.  OpenSSL's primitives, which are
    operations of [Crypto] with documented laws.  Sockets, the event loop, the
    session that composes them ([src/runtime/udp.c], [src/runtime/session.c]) and the
    clock; the allocator and the log; the public facade ([src/api]), which forwards;
    the command-line tools and example programs; the Swift implementation. *)

From stdpp Require Export prelude.
From Stdlib Require Export ZArith Lia Sorted.

#[global] Open Scope Z_scope.

(** ** Automation *)

Create HintDb wt.
Create Rewrite HintDb zlist.

(** Case analysis on the first match or conditional of the goal or of [H]. *)
Ltac case_goal :=
  match goal with
  | |- context [match ?e with _ => _ end] => destruct e eqn:?
  end.

Ltac case_hyp H :=
  match type of H with
  | context [match ?e with _ => _ end] => destruct e eqn:?
  end.

(** Turn boolean tests into the propositions they decide. *)
Ltac reflect_bools :=
  repeat match goal with
  | H : context [?a && ?b = true] |- _ => rewrite andb_true_iff in H; destruct H
  | H : context [negb ?a = true] |- _ => rewrite negb_true_iff in H
  | H : context [negb ?a = false] |- _ => rewrite negb_false_iff in H
  | H : (_ <=? _) = true |- _ => apply Z.leb_le in H
  | H : (_ <=? _) = false |- _ => apply Z.leb_gt in H
  | H : (_ <? _) = true |- _ => apply Z.ltb_lt in H
  | H : (_ <? _) = false |- _ => apply Z.ltb_ge in H
  | H : (_ >=? _) = true |- _ => rewrite Z.geb_leb in H
  | H : (_ >=? _) = false |- _ => rewrite Z.geb_leb in H
  | H : (_ >? _) = true |- _ => rewrite Z.gtb_ltb in H
  | H : (_ >? _) = false |- _ => rewrite Z.gtb_ltb in H
  | H : (_ =? _) = true |- _ => apply Z.eqb_eq in H
  | H : (_ =? _) = false |- _ => apply Z.eqb_neq in H
  | H : (_ || _) = false |- _ => apply orb_false_iff in H; destruct H
  | H : (_ || _) = true |- _ => apply orb_true_iff in H
  end.

(** Decide the arithmetic test a branch turns on, when [lia] knows the answer. *)
Ltac ztest_step :=
  match goal with
  | |- context [?a <? ?b] =>
      first [ rewrite (proj2 (Z.ltb_lt a b)) by lia
            | rewrite (proj2 (Z.ltb_ge a b)) by lia ]
  | |- context [?a <=? ?b] =>
      first [ rewrite (proj2 (Z.leb_le a b)) by lia
            | rewrite (proj2 (Z.leb_gt a b)) by lia ]
  | |- context [?a =? ?b] =>
      first [ rewrite (proj2 (Z.eqb_eq a b)) by lia
            | rewrite (proj2 (Z.eqb_neq a b)) by lia ]
  end.
Ltac ztest := repeat (ztest_step; cbn [andb orb negb]).

(** Evaluate the decisions whose answer is known. *)
Ltac decide_bools :=
  repeat match goal with
  | |- context [bool_decide ?P] =>
      first [ rewrite (bool_decide_true P) by done | rewrite (bool_decide_false P) by done ]
  end.

(** [lia] on goals with constant divisors. *)
Ltac zdm := Z.div_mod_to_equations; lia.

(** ** Machine words *)

Definition U8_MAX : Z := 2 ^ 8 - 1.
Definition U32_MAX : Z := 2 ^ 32 - 1.
Definition U64_MAX : Z := 2 ^ 64 - 1.
(** [size_t] on the LP64 and LLP64 targets the library is built for. *)
Definition SIZE_MAX : Z := U64_MAX.

(** Unsigned conversion (the C cast, and the wrap of unsigned arithmetic). *)
Definition u8 (z : Z) : Z := z mod 2 ^ 8.
Definition u16 (z : Z) : Z := z mod 2 ^ 16.
Definition u32 (z : Z) : Z := z mod 2 ^ 32.
Definition u64 (z : Z) : Z := z mod 2 ^ 64.

Definition is_u8 (z : Z) : Prop := 0 <= z < 2 ^ 8.
Definition is_u32 (z : Z) : Prop := 0 <= z < 2 ^ 32.
Definition is_u64 (z : Z) : Prop := 0 <= z < 2 ^ 64.

Definition bytes_ok (l : list Z) : Prop := Forall is_u8 l.

(** The same, decided. *)
Definition bytes_okb (l : list Z) : bool := forallb (fun b => (0 <=? b) && (b <? 2 ^ 8)) l.

Lemma bytes_okb_spec l : bytes_okb l = true -> bytes_ok l.
Proof.
  unfold bytes_okb, bytes_ok. rewrite forallb_forall, Forall_forall. intros H b Hb.
  specialize (H b (proj1 (list_elem_of_In _ _) Hb)). rewrite andb_true_iff, Z.leb_le, Z.ltb_lt in H.
  exact H.
Qed.

Lemma u64_small z : is_u64 z -> u64 z = z.
Proof. unfold u64, is_u64. apply Z.mod_small. Qed.

Lemma u64_is_u64 z : is_u64 (u64 z).
Proof. unfold u64, is_u64. apply Z.mod_pos_bound. lia. Qed.

Lemma u32_small z : is_u32 z -> u32 z = z.
Proof. unfold u32, is_u32. apply Z.mod_small. Qed.

Lemma u8_small z : is_u8 z -> u8 z = z.
Proof. unfold u8, is_u8. apply Z.mod_small. Qed.

#[export] Hint Resolve u64_is_u64 : wt.

(** A property of bytes, by looking at each of them. *)
Lemma byte_forall (P : Z -> bool) :
  forallb (fun n => P (Z.of_nat n)) (seq 0 256) = true -> forall b, is_u8 b -> P b = true.
Proof.
  rewrite forallb_forall. intros H b Hb. rewrite <- (Z2Nat.id b) by (unfold is_u8 in Hb; lia).
  apply H, in_seq. unfold is_u8 in Hb. lia.
Qed.

Ltac by_bytes b :=
  match goal with
  | H : is_u8 b |- ?P =>
      pattern b; match goal with |- ?Q b =>
        cut (bool_decide (Q b) = true); [apply bool_decide_eq_true_1|];
        revert b H; apply (byte_forall (fun b => bool_decide (Q b))); vm_compute; reflexivity
      end
  end.

(** Split a goal that a concatenation consists of bytes. *)
Ltac split_bytes_ok :=
  unfold bytes_ok in *;
  repeat match goal with
  | |- Forall _ (_ ++ _) => apply Forall_app; split
  | |- Forall _ (if ?b then _ else _) => destruct b
  | |- Forall _ (_ :: _) => constructor; [try (unfold is_u8; lia)|]
  | |- Forall _ [] => constructor
  end.

(** Discharge a wrap that cannot happen: [u64 e] becomes [e] when [lia] can bound [e]. *)
Ltac no_wrap :=
  repeat match goal with
  | |- context [u64 ?e] => rewrite (u64_small e) by (unfold is_u64 in *; lia)
  end.
Ltac no_wrap_in H :=
  repeat match type of H with
  | context [u64 ?e] => rewrite (u64_small e) in H by (unfold is_u64 in *; lia)
  end.

(** ** Bit operations as arithmetic *)

(** An [or] of disjoint bits is a sum. *)
Lemma lor_disjoint a b n :
  0 <= n -> 0 <= b < 2 ^ n -> a mod 2 ^ n = 0 -> Z.lor a b = a + b.
Proof.
  intros Hn Hb Ha.
  rewrite <- (Z.add_lor_land a b).
  enough (Z.land a b = 0) by lia.
  apply Z.bits_inj'. intros i Hi. rewrite Z.land_spec, Z.bits_0.
  destruct (Z.lt_ge_cases i n) as [Hlt|Hge].
  - replace (Z.testbit a i) with (Z.testbit (a mod 2 ^ n) i).
    + by rewrite Ha, Z.bits_0.
    + by rewrite Z.mod_pow2_bits_low by lia.
  - replace (Z.testbit b i) with false; [apply andb_false_r|].
    symmetry. rewrite <- (Z.mod_small b (2 ^ n)) by lia.
    by rewrite Z.mod_pow2_bits_high by lia.
Qed.

Lemma lor_shiftl a b n :
  0 <= n -> 0 <= b < 2 ^ n -> Z.lor (Z.shiftl a n) b = a * 2 ^ n + b.
Proof.
  intros Hn Hb. rewrite Z.shiftl_mul_pow2 by lia.
  apply lor_disjoint with n; [lia|lia|]. by apply Z_mod_mult.
Qed.

(** [x & (2^n - 1)]. *)
Lemma land_mask x n : 0 <= n -> Z.land x (2 ^ n - 1) = x mod 2 ^ n.
Proof.
  intros Hn. rewrite <- Z.land_ones by lia. f_equal.
  rewrite Z.ones_equiv. lia.
Qed.

(** ** Lists indexed by machine sizes *)

Definition zlen {A} (l : list A) : Z := Z.of_nat (length l).
Definition ztake {A} (n : Z) (l : list A) : list A := take (Z.to_nat n) l.
Definition zdrop {A} (n : Z) (l : list A) : list A := drop (Z.to_nat n) l.
(** [n] elements of [l] from index [off]. *)
Definition zslice {A} (off n : Z) (l : list A) : list A := ztake n (zdrop off l).
Definition zget {A} (l : list A) (i : Z) : option A :=
  if i <? 0 then None else l !! Z.to_nat i.
(** [memcpy (d + off, bs)] into a block that has the room. *)
Definition write_at {A} (d : list A) (off : Z) (bs : list A) : list A :=
  ztake off d ++ bs ++ zdrop (off + zlen bs) d.

#[global] Arguments zlen : simpl never.
#[global] Arguments ztake : simpl never.
#[global] Arguments zdrop : simpl never.
#[global] Arguments zslice : simpl never.
#[global] Arguments write_at : simpl never.
#[global] Arguments u8 : simpl never.
#[global] Arguments u16 : simpl never.
#[global] Arguments u32 : simpl never.
#[global] Arguments u64 : simpl never.

Section ZLists.
Context {A : Type}.
Implicit Types l k : list A.

Lemma zlen_nonneg l : 0 <= zlen l.
Proof. unfold zlen. lia. Qed.
Lemma zlen_nil : zlen (@nil A) = 0.
Proof. done. Qed.
Lemma zlen_cons x l : zlen (x :: l) = 1 + zlen l.
Proof. unfold zlen. cbn [length]. lia. Qed.
Lemma zlen_app l k : zlen (l ++ k) = zlen l + zlen k.
Proof. unfold zlen. rewrite length_app. lia. Qed.
Lemma zlen_ztake n l : 0 <= n <= zlen l -> zlen (ztake n l) = n.
Proof. unfold zlen, ztake. intros. rewrite length_take. lia. Qed.
Lemma zlen_zdrop n l : 0 <= n <= zlen l -> zlen (zdrop n l) = zlen l - n.
Proof. unfold zlen, zdrop. intros. rewrite length_drop. lia. Qed.
Lemma zlen_zslice off n l :
  0 <= off -> 0 <= n -> off + n <= zlen l -> zlen (zslice off n l) = n.
Proof. intros. unfold zslice. apply zlen_ztake. rewrite zlen_zdrop; lia. Qed.
Lemma zlen_0_nil l : zlen l = 0 -> l = [].
Proof. destruct l; [done|]. rewrite zlen_cons. pose proof (zlen_nonneg l). lia. Qed.

Lemma ztake_app_exact l k n : n = zlen l -> ztake n (l ++ k) = l.
Proof. intros ->. unfold ztake, zlen. rewrite Nat2Z.id. apply take_app_length. Qed.
Lemma zdrop_app_exact l k n : n = zlen l -> zdrop n (l ++ k) = k.
Proof. intros ->. unfold zdrop, zlen. rewrite Nat2Z.id. apply drop_app_length. Qed.
Lemma ztake_zdrop n l : ztake n l ++ zdrop n l = l.
Proof. apply take_drop. Qed.
Lemma zdrop_zdrop n m l : 0 <= n -> 0 <= m -> zdrop n (zdrop m l) = zdrop (m + n) l.
Proof.
  intros. unfold zdrop. rewrite drop_drop. f_equal. lia.
Qed.
Lemma ztake_all n l : zlen l <= n -> ztake n l = l.
Proof. unfold ztake, zlen. intros. apply take_ge. lia. Qed.
Lemma zdrop_all n l : zlen l <= n -> zdrop n l = [].
Proof. unfold zdrop, zlen. intros. apply drop_ge. lia. Qed.
Lemma ztake_ztake n m l : n <= m -> ztake n (ztake m l) = ztake n l.
Proof. intros. unfold ztake. rewrite take_take. f_equal. lia. Qed.
Lemma zslice_ztake off n m l : 0 <= off -> off + n <= m -> zslice off n (ztake m l) = zslice off n l.
Proof.
  intros. unfold zslice, ztake, zdrop. rewrite skipn_firstn_comm, take_take. f_equal. lia.
Qed.
Lemma ztake_0 l : ztake 0 l = [].
Proof. done. Qed.
Lemma zdrop_0 l : zdrop 0 l = l.
Proof. done. Qed.
Lemma zlen_write_at d off (bs : list A) :
  0 <= off -> off + zlen bs <= zlen d -> zlen (write_at d off bs) = zlen d.
Proof.
  intros. unfold write_at. pose proof (zlen_nonneg bs).
  rewrite !zlen_app, zlen_ztake, zlen_zdrop; lia.
Qed.
Lemma ztake_write_at d off (bs : list A) :
  0 <= off -> off + zlen bs <= zlen d ->
  ztake (off + zlen bs) (write_at d off bs) = ztake off d ++ bs.
Proof.
  intros. unfold write_at. rewrite app_assoc. apply ztake_app_exact.
  pose proof (zlen_nonneg bs). rewrite zlen_app, zlen_ztake; lia.
Qed.
Lemma zdrop_write_at d off (bs : list A) m :
  0 <= off -> 0 <= m -> off + zlen bs <= zlen d ->
  zdrop (off + zlen bs + m) (write_at d off bs) = zdrop (off + zlen bs + m) d.
Proof.
  intros. pose proof (zlen_nonneg bs). rewrite <- !(zdrop_zdrop m) by lia. f_equal.
  unfold write_at. rewrite app_assoc. apply zdrop_app_exact.
  rewrite zlen_app, zlen_ztake; lia.
Qed.
Lemma write_at_app d off (a b : list A) :
  0 <= off -> off + zlen a + zlen b <= zlen d ->
  write_at (write_at d off a) (off + zlen a) b = write_at d off (a ++ b).
Proof.
  intros. pose proof (zlen_nonneg a). pose proof (zlen_nonneg b).
  unfold write_at at 1. rewrite ztake_write_at, zdrop_write_at by lia.
  unfold write_at. by rewrite zlen_app, <- !app_assoc, Z.add_assoc.
Qed.
Lemma Forall_ztake (P : A -> Prop) n l : Forall P l -> Forall P (ztake n l).
Proof. apply Forall_take. Qed.
Lemma Forall_zdrop (P : A -> Prop) n l : Forall P l -> Forall P (zdrop n l).
Proof. apply Forall_drop. Qed.
End ZLists.

#[export] Hint Resolve zlen_nonneg Forall_ztake Forall_zdrop : wt.
#[export] Hint Rewrite @zlen_nil @zlen_cons @zlen_app : zlist.

(** Normalise the lengths of concatenations, with every length known non-negative. *)
Ltac zlen_facts :=
  repeat match goal with
  | |- context [zlen ?l] =>
      lazymatch goal with
      | _ : 0 <= zlen l |- _ => fail
      | _ => pose proof (zlen_nonneg l)
      end
  | H : context [zlen ?l] |- _ =>
      lazymatch goal with
      | _ : 0 <= zlen l |- _ => fail
      | _ => pose proof (zlen_nonneg l)
      end
  end.
Ltac zlia := autorewrite with zlist in *; zlen_facts; lia.


(** ** Bounded searches

    The source's [for (i = 0; i < n; i++) if (p(a[i])) return i;]. *)

Fixpoint first_index {A} (p : A -> bool) (l : list A) : option nat :=
  match l with
  | [] => None
  | x :: l => if p x then Some O else S <$> first_index p l
  end.

Section FirstIndex.
Context {A : Type} (p : A -> bool).
Implicit Types l : list A.

Lemma first_index_Some l i :
  first_index p l = Some i ->
  (exists x, l !! i = Some x /\ p x = true) /\
  forall j y, (j < i)%nat -> l !! j = Some y -> p y = false.
Proof.
  revert i. induction l as [|x l IH]; intros i; cbn; [done|].
  destruct (p x) eqn:Hx.
  - intros [= <-]. split; [by exists x|]. lia.
  - destruct (first_index p l) as [k|] eqn:E; cbn; [|done]. intros [= <-].
    destruct (IH k eq_refl) as [[y [Hy Hp]] Hmin]. split; [by exists y|].
    intros [|j] z Hj Hz; cbn in Hz; [by simplify_eq|]. eapply Hmin; [|done]. lia.
Qed.

Lemma first_index_None l : first_index p l = None <-> Forall (fun x => p x = false) l.
Proof.
  induction l as [|x l IH]; cbn; [by split; [constructor|]|].
  destruct (p x) eqn:Hx; [split; [done|]; intros H; inversion H; congruence|].
  destruct (first_index p l); cbn.
  - split; [done|]. intros H. inversion H as [|? ? _ Hl]; subst. by apply IH in Hl.
  - split; [|done]. intros _. constructor; [done|]. by apply IH.
Qed.

Lemma first_index_lt l i : first_index p l = Some i -> (i < length l)%nat.
Proof.
  intros H. apply first_index_Some in H as [[x [Hx _]] _]. by apply lookup_lt_Some in Hx.
Qed.
End FirstIndex.

(** ** Sums over lists *)

Definition zsum {A} (f : A -> Z) (l : list A) : Z := foldr (fun x acc => f x + acc) 0 l.

#[global] Arguments zsum : simpl never.

Section ZSum.
Context {A : Type} (f : A -> Z).
Implicit Types l k : list A.

Lemma zsum_nil : zsum f [] = 0.
Proof. done. Qed.
Lemma zsum_cons x l : zsum f (x :: l) = f x + zsum f l.
Proof. done. Qed.
Lemma zsum_app l k : zsum f (l ++ k) = zsum f l + zsum f k.
Proof.
  induction l as [|x l IH]; [done|]. cbn [app]. rewrite !zsum_cons, IH. lia.
Qed.
Lemma zsum_insert l i x y : l !! i = Some x -> zsum f (<[i := y]> l) = zsum f l + f y - f x.
Proof.
  revert i. induction l as [|z l IH]; intros [|i] Hi; cbn in Hi; simplify_eq.
  - change (<[0%nat := y]> (x :: l)) with (y :: l). rewrite !zsum_cons. lia.
  - change (<[S i := y]> (z :: l)) with (z :: <[i := y]> l). rewrite !zsum_cons, (IH _ Hi). lia.
Qed.
Lemma zsum_nonneg l : Forall (fun x => 0 <= f x) l -> 0 <= zsum f l.
Proof. induction 1; [done|]. rewrite zsum_cons. lia. Qed.
Lemma zsum_le_len l : Forall (fun x => f x <= 1) l -> zsum f l <= zlen l.
Proof. induction 1; [done|]. rewrite zsum_cons, zlen_cons. lia. Qed.
Lemma zsum_replicate n x : zsum f (replicate n x) = Z.of_nat n * f x.
Proof. induction n; [done|]. cbn [replicate]. rewrite zsum_cons, IHn. lia. Qed.
End ZSum.

(** A sorted list grows at its end. *)
Lemma StronglySorted_snoc {A} (R : A -> A -> Prop) l x :
  StronglySorted R (l ++ [x]) <-> StronglySorted R l /\ Forall (fun y => R y x) l.
Proof.
  induction l as [|y l IH]; cbn.
  { split; [intros _; split; constructor|intros _; repeat constructor]. }
  split.
  - intros [Hs Hf]%StronglySorted_inv. apply Forall_app in Hf as [Hf Hx]. apply IH in Hs as [Hs Hl].
    split; [by constructor|]. constructor; [|done]. by apply Forall_inv in Hx.
  - intros [[Hs Hf]%StronglySorted_inv [Hy Hl]%Forall_cons]. constructor; [by apply IH|]. apply Forall_app. split; [done|by apply Forall_singleton].
Qed.

#[export] Hint Rewrite @zsum_nil @zsum_cons @zsum_app : zlist.
