(* ===== verification/Core.v ===== *)
(** * Core utilities: [src/core]

    The status model ([include/webtransport/status.h]), checked arithmetic
    ([src/core/checked.c]), big-endian load and store ([src/core/endian.c]) and
    the deadline arithmetic ([src/core/time.c]).  The specification the byte
    orders are proved against is the positional value [be_value] and its
    inverse [be_bytes], which every wire format above this file uses. *)

From Stdlib Require String Ascii.
From S2P Require Export Prelude.

(** ** Status codes *)

Inductive wt_status :=
  | WT_OK
  | WT_ERR_INVALID_ARGUMENT
  | WT_ERR_OUT_OF_MEMORY
  | WT_ERR_TIMEOUT
  | WT_ERR_PROTOCOL
  | WT_ERR_TLS
  | WT_ERR_CLOSED
  | WT_ERR_AGAIN
  | WT_ERR_TRUNCATED
  | WT_ERR_LIMIT
  | WT_ERR_OVERFLOW
  | WT_ERR_STATE
  | WT_ERR_TRUST
  | WT_ERR_UNSUPPORTED
  | WT_ERR_AUTHENTICATION
  | WT_ERR_IO.

#[export] Instance wt_status_eq_dec : EqDecision wt_status.
Proof. solve_decision. Defined.

(** What a function with an out-parameter hands back: the value, or the status
    it refused with together with the wire error code it stored, if any. *)
Inductive outcome (A : Type) :=
  | Ok (a : A)
  | Fail (s : wt_status) (code : option Z).
Arguments Ok {A} a.
Arguments Fail {A} s code.

Definition outcome_status {A} (o : outcome A) : wt_status :=
  match o with Ok _ => WT_OK | Fail s _ => s end.

(** The bytes of a C string literal, without its terminator. *)
Definition literal (s : String.string) : list Z :=
  (fun a => Z.of_nat (Ascii.nat_of_ascii a)) <$> String.list_ascii_of_string s.

(** ** Checked arithmetic *)

Definition wt_checked_add_size (a b : Z) : outcome Z :=
  if SIZE_MAX - a <? b then Fail WT_ERR_OVERFLOW None else Ok (u64 (a + b)).
Definition wt_checked_add_u64 (a b : Z) : outcome Z :=
  if U64_MAX - a <? b then Fail WT_ERR_OVERFLOW None else Ok (u64 (a + b)).
Definition wt_checked_sub_size (a b : Z) : outcome Z :=
  if a <? b then Fail WT_ERR_OVERFLOW None else Ok (u64 (a - b)).
Definition wt_checked_sub_u64 (a b : Z) : outcome Z :=
  if a <? b then Fail WT_ERR_OVERFLOW None else Ok (u64 (a - b)).
Definition wt_checked_mul_size (a b : Z) : outcome Z :=
  if negb (a =? 0) && (SIZE_MAX / a <? b) then Fail WT_ERR_OVERFLOW None
  else Ok (u64 (a * b)).
Definition wt_checked_mul_u64 (a b : Z) : outcome Z :=
  if negb (a =? 0) && (U64_MAX / a <? b) then Fail WT_ERR_OVERFLOW None
  else Ok (u64 (a * b)).
Definition wt_checked_narrow_u64_to_u32 (v : Z) : outcome Z :=
  if U32_MAX <? v then Fail WT_ERR_OVERFLOW None else Ok (u32 v).
Definition wt_checked_narrow_u64_to_size (v : Z) : outcome Z :=
  if SIZE_MAX <? v then Fail WT_ERR_OVERFLOW None else Ok (u64 v).
Definition wt_checked_narrow_size_to_u32 (v : Z) : outcome Z :=
  if U32_MAX <? v then Fail WT_ERR_OVERFLOW None else Ok (u32 v).

(** The contract a checked operation implements: the exact result when it is
    representable, the overflow status otherwise, never a wrapped value. *)
Definition exact_or_overflow (hi exact : Z) (o : outcome Z) : Prop :=
  o = if (0 <=? exact) && (exact <=? hi) then Ok exact else Fail WT_ERR_OVERFLOW None.

(** ** Big-endian load and store *)

(** [p[i]] of a block the caller has checked. *)
Definition byte_at (p : list Z) (i : nat) : Z := default 0 (p !! i).

Definition wt_load_be16 (p : list Z) : Z :=
  u16 (Z.lor (Z.shiftl (byte_at p 0) 8) (byte_at p 1)).
Definition wt_load_be24 (p : list Z) : Z :=
  Z.lor (Z.lor (Z.shiftl (byte_at p 0) 16) (Z.shiftl (byte_at p 1) 8)) (byte_at p 2).
Definition wt_load_be32 (p : list Z) : Z :=
  Z.lor (Z.lor (Z.lor (Z.shiftl (byte_at p 0) 24) (Z.shiftl (byte_at p 1) 16))
           (Z.shiftl (byte_at p 2) 8)) (byte_at p 3).
Definition wt_load_be64 (p : list Z) : Z :=
  Z.lor (Z.lor (Z.lor (Z.lor (Z.lor (Z.lor (Z.lor
    (Z.shiftl (byte_at p 0) 56) (Z.shiftl (byte_at p 1) 48)) (Z.shiftl (byte_at p 2) 40))
    (Z.shiftl (byte_at p 3) 32)) (Z.shiftl (byte_at p 4) 24)) (Z.shiftl (byte_at p 5) 16))
    (Z.shiftl (byte_at p 6) 8)) (byte_at p 7).

(** The bytes a store writes, in order. *)
Definition store_byte (v shift : Z) : Z := u8 (Z.land (Z.shiftr v shift) 255).
Definition wt_store_be16 (v : Z) : list Z := [store_byte v 8; store_byte v 0].
Definition wt_store_be24 (v : Z) : list Z :=
  [store_byte v 16; store_byte v 8; store_byte v 0].
Definition wt_store_be32 (v : Z) : list Z :=
  [store_byte v 24; store_byte v 16; store_byte v 8; store_byte v 0].
Definition wt_store_be64 (v : Z) : list Z :=
  [store_byte v 56; store_byte v 48; store_byte v 40; store_byte v 32;
   store_byte v 24; store_byte v 16; store_byte v 8; store_byte v 0].

(** The specification: positional value, most significant byte first. *)
Definition be_value (bs : list Z) : Z := fold_left (fun acc b => acc * 256 + b) bs 0.
Fixpoint be_bytes (n : nat) (v : Z) : list Z :=
  match n with
  | O => []
  | S n => be_bytes n (v / 256) ++ [v mod 256]
  end.

#[global] Arguments be_value : simpl never.

(** ** Time *)

Definition wt_time_counter_to_micros (counter frequency : Z) : Z :=
  if frequency =? 0 then 0
  else u64 (u64 (counter / frequency * 1000000) +
            u64 (counter mod frequency * 1000000) / frequency).

Definition wt_deadline_passed (start_micros interval_micros now_micros : Z) : bool :=
  interval_micros <=? u64 (now_micros - start_micros).

Definition wt_deadline_remaining (start_micros interval_micros now_micros : Z) : Z :=
  let elapsed := u64 (now_micros - start_micros) in
  if interval_micros <=? elapsed then 0 else u64 (interval_micros - elapsed).

(** ** Lemmas: positional values *)

Lemma be_value_snoc bs b : be_value (bs ++ [b]) = be_value bs * 256 + b.
Proof. unfold be_value. by rewrite fold_left_app. Qed.

Lemma fold_be_acc bs acc :
  fold_left (fun acc b => acc * 256 + b) bs acc = acc * 256 ^ zlen bs + be_value bs.
Proof.
  unfold be_value. revert acc. induction bs as [|b bs IH]; intros acc; cbn [fold_left].
  - change (zlen (@nil Z)) with 0. rewrite Z.pow_0_r. lia.
  - rewrite IH, (IH (0 * 256 + b)), zlen_cons.
    pose proof (zlen_nonneg bs). rewrite Z.pow_add_r by lia. ring.
Qed.

Lemma be_value_cons b bs : be_value (b :: bs) = b * 256 ^ zlen bs + be_value bs.
Proof. unfold be_value at 1. cbn [fold_left]. rewrite fold_be_acc. lia. Qed.

Lemma be_value_bound bs : bytes_ok bs -> 0 <= be_value bs < 256 ^ zlen bs.
Proof.
  induction 1 as [|b bs Hb Hbs IH].
  - change (0 <= 0 < 1). lia.
  - rewrite be_value_cons, zlen_cons. pose proof (zlen_nonneg bs).
    rewrite Z.pow_add_r, Z.pow_1_r by lia. unfold is_u8 in Hb. nia.
Qed.

Lemma be_bytes_length n v : length (be_bytes n v) = n.
Proof. revert v. induction n; intros; cbn; [done|]. rewrite length_app, IHn. cbn. lia. Qed.

Lemma zlen_be_bytes n v : zlen (be_bytes n v) = Z.of_nat n.
Proof. unfold zlen. by rewrite be_bytes_length. Qed.

Lemma be_bytes_ok n v : bytes_ok (be_bytes n v).
Proof.
  revert v. induction n; intros; cbn; [constructor|].
  apply Forall_app. split; [apply IHn|]. repeat constructor; unfold is_u8; zdm.
Qed.

Lemma be_value_bytes n v : 0 <= v < 256 ^ Z.of_nat n -> be_value (be_bytes n v) = v.
Proof.
  revert v. induction n; intros v Hv; cbn [be_bytes].
  - change (0 <= v < 1) in Hv. change (0 = v). lia.
  - rewrite be_value_snoc, IHn; [zdm|].
    rewrite Nat2Z.inj_succ, Z.pow_succ_r in Hv by lia. zdm.
Qed.

Lemma be_bytes_value bs : bytes_ok bs -> be_bytes (length bs) (be_value bs) = bs.
Proof.
  induction bs as [|b bs IH] using rev_ind; intros Hok; [done|].
  apply Forall_app in Hok as [Hbs Hb]. inversion Hb as [|? ? Hb8 _]; subst.
  rewrite length_app, be_value_snoc. replace (length bs + length [b])%nat with (S (length bs))
    by (cbn; lia). cbn [be_bytes]. unfold is_u8 in Hb8.
  replace ((be_value bs * 256 + b) / 256) with (be_value bs) by zdm.
  replace ((be_value bs * 256 + b) mod 256) with b by zdm.
  by rewrite IH.
Qed.

Lemma be_bytes_cons n v : be_bytes (S n) v = v / 256 ^ Z.of_nat n mod 256 :: be_bytes n v.
Proof.
  revert v. induction n as [|n IH]; intros v.
  - cbn [be_bytes app]. change (256 ^ Z.of_nat 0) with 1. by rewrite Z.div_1_r.
  - change (be_bytes (S (S n)) v) with (be_bytes (S n) (v / 256) ++ [v mod 256]).
    rewrite IH. cbn [app]. f_equal.
    rewrite Nat2Z.inj_succ, Z.pow_succ_r, Z.div_div by lia. done.
Qed.

Lemma be_bytes_mod n v : be_bytes n (v mod 256 ^ Z.of_nat n) = be_bytes n v.
Proof.
  revert v. induction n as [|n IH]; intros v; [done|]. cbn [be_bytes].
  rewrite Nat2Z.inj_succ, Z.pow_succ_r by lia.
  pose proof (Z.pow_pos_nonneg 256 (Z.of_nat n) ltac:(lia) ltac:(lia)).
  rewrite Z.rem_mul_r by lia. f_equal.
  - replace ((v mod 256 + 256 * ((v / 256) mod 256 ^ Z.of_nat n)) / 256)
      with ((v / 256) mod 256 ^ Z.of_nat n) by zdm.
    apply IH.
  - f_equal. zdm.
Qed.

#[export] Hint Rewrite zlen_be_bytes : zlist.
#[export] Hint Resolve be_bytes_ok : wt.

Lemma store_byte_eq v n : 0 <= n -> store_byte v n = v / 2 ^ n mod 256.
Proof.
  intros. unfold store_byte. change 255 with (2 ^ 8 - 1).
  rewrite land_mask, Z.shiftr_div_pow2 by lia.
  rewrite u8_small; [done|]. unfold is_u8. zdm.
Qed.

Lemma store_byte_0 v : store_byte v 0 = v mod 256.
Proof. rewrite store_byte_eq by lia. by rewrite Z.div_1_r. Qed.

Lemma store_be16_spec v : wt_store_be16 v = be_bytes 2 v.
Proof. unfold wt_store_be16. rewrite store_byte_0, !store_byte_eq by lia. done. Qed.
Lemma store_be24_spec v : wt_store_be24 v = be_bytes 3 v.
Proof.
  unfold wt_store_be24. rewrite store_byte_0, !store_byte_eq by lia. cbn [be_bytes app].
  by rewrite !Z.div_div by lia.
Qed.
Lemma store_be32_spec v : wt_store_be32 v = be_bytes 4 v.
Proof.
  unfold wt_store_be32. rewrite store_byte_0, !store_byte_eq by lia. cbn [be_bytes app].
  by rewrite !Z.div_div by lia.
Qed.
Lemma store_be64_spec v : wt_store_be64 v = be_bytes 8 v.
Proof.
  unfold wt_store_be64. rewrite store_byte_0, !store_byte_eq by lia. cbn [be_bytes app].
  by rewrite !Z.div_div by lia.
Qed.

(** Each shifted-or ladder of the loads is one Horner step per byte. *)
Lemma shift_or_step a b n :
  0 <= n -> 0 <= b < 256 ->
  Z.lor (Z.shiftl a (n + 8)) (Z.shiftl b n) = Z.shiftl (a * 256 + b) n.
Proof.
  intros. rewrite (Z.add_comm n 8), <- (Z.shiftl_shiftl a 8 n), <- Z.shiftl_lor by lia.
  f_equal. by rewrite lor_shiftl by lia.
Qed.

Ltac load_ladder :=
  repeat match goal with
  | |- context [Z.lor (Z.shiftl ?a ?m) (Z.shiftl ?b ?n)] =>
      replace (Z.lor (Z.shiftl a m) (Z.shiftl b n)) with (Z.shiftl (a * 256 + b) n)
        by (symmetry; apply (shift_or_step a b n); lia)
  end;
  rewrite lor_shiftl by lia.

Ltac split_bytes :=
  repeat match goal with
  | H : Forall _ (_ :: _) |- _ => apply Forall_cons in H as [? ?]
  end; unfold is_u8 in *.

Lemma load_be16_spec a b : bytes_ok [a; b] -> wt_load_be16 [a; b] = be_value [a; b].
Proof.
  unfold bytes_ok. intros. split_bytes. unfold wt_load_be16, byte_at, be_value; cbn. load_ladder.
  unfold u16. zdm.
Qed.
Lemma load_be32_spec a b c d :
  bytes_ok [a; b; c; d] -> wt_load_be32 [a; b; c; d] = be_value [a; b; c; d].
Proof.
  unfold bytes_ok. intros. split_bytes. unfold wt_load_be32, byte_at, be_value; cbn. load_ladder. lia.
Qed.
Lemma load_be24_spec a b c :
  bytes_ok [a; b; c] -> wt_load_be24 [a; b; c] = be_value [a; b; c].
Proof.
  unfold bytes_ok. intros. split_bytes. unfold wt_load_be24, byte_at, be_value; cbn. load_ladder. lia.
Qed.
Lemma load_be64_spec a b c d e f g h :
  bytes_ok [a; b; c; d; e; f; g; h] ->
  wt_load_be64 [a; b; c; d; e; f; g; h] = be_value [a; b; c; d; e; f; g; h].
Proof.
  unfold bytes_ok. intros. split_bytes. unfold wt_load_be64, byte_at, be_value; cbn. load_ladder. lia.
Qed.

(** ** Theorems *)

(** Every checked addition, subtraction, multiplication and narrowing returns the exact mathematical result when it is representable and the overflow status otherwise. *)
Lemma checked_arithmetic_exact a b :
  is_u64 a -> is_u64 b ->
  exact_or_overflow SIZE_MAX (a + b) (wt_checked_add_size a b) /\
  exact_or_overflow U64_MAX (a + b) (wt_checked_add_u64 a b) /\
  exact_or_overflow SIZE_MAX (a - b) (wt_checked_sub_size a b) /\
  exact_or_overflow U64_MAX (a - b) (wt_checked_sub_u64 a b) /\
  exact_or_overflow SIZE_MAX (a * b) (wt_checked_mul_size a b) /\
  exact_or_overflow U64_MAX (a * b) (wt_checked_mul_u64 a b) /\
  exact_or_overflow U32_MAX a (wt_checked_narrow_u64_to_u32 a) /\
  exact_or_overflow SIZE_MAX a (wt_checked_narrow_u64_to_size a) /\
  exact_or_overflow U32_MAX a (wt_checked_narrow_size_to_u32 a).
Proof.
  intros Ha Hb.
  assert (Hmul : forall x y, is_u64 x -> is_u64 y ->
            exact_or_overflow U64_MAX (x * y) (wt_checked_mul_u64 x y)).
  { intros x y Hx Hy. unfold exact_or_overflow, wt_checked_mul_u64, U64_MAX, is_u64 in *.
    destruct (Z.eq_dec x 0) as [->|Hx0]; [by rewrite Z.mul_0_l|].
    rewrite (proj2 (Z.eqb_neq x 0)) by done. cbn [negb andb].
    rewrite (proj2 (Z.leb_le 0 (x * y))) by nia. cbn [andb].
    destruct (Z.ltb_spec ((2 ^ 64 - 1) / x) y) as [Hlt|Hge].
    - rewrite (proj2 (Z.leb_gt _ _)); [done|].
      pose proof (Z.mul_succ_div_gt (2 ^ 64 - 1) x). nia.
    - pose proof (Z.mul_div_le (2 ^ 64 - 1) x).
      rewrite (proj2 (Z.leb_le (x * y) _)) by nia. rewrite u64_small; [done|].
      unfold is_u64. nia. }
  split_and!; try apply Hmul; try done;
    unfold exact_or_overflow, wt_checked_add_size, wt_checked_add_u64, wt_checked_sub_size,
      wt_checked_sub_u64, wt_checked_narrow_u64_to_u32, wt_checked_narrow_u64_to_size,
      wt_checked_narrow_size_to_u32, SIZE_MAX, U64_MAX, U32_MAX, is_u64 in *;
    match goal with |- (if ?c then _ else _) = _ => destruct c eqn:Hc end;
    reflect_bools; ztest; try done; try (exfalso; lia); f_equal; try (apply u64_small; unfold is_u64; lia);
    apply u32_small; unfold is_u32; lia.
Qed.

Lemma checked_arithmetic_exact_witness :
  exact_or_overflow U64_MAX (U64_MAX + 1) (wt_checked_add_u64 U64_MAX 1) /\
  wt_checked_add_u64 U64_MAX 1 = Fail WT_ERR_OVERFLOW None /\
  wt_checked_add_u64 7 1 = Ok 8.
Proof.
  split; [|split; reflexivity].
  refine (proj1 (proj2 (checked_arithmetic_exact U64_MAX 1 _ _))); unfold is_u64, U64_MAX; lia.
Defined.

(** The conversion of a counter to microseconds is the exact quotient whenever the quotient is representable and the frequency leaves room for the remainder. *)
Lemma counter_to_micros_exact counter frequency :
  is_u64 counter -> 0 < frequency <= U64_MAX / 1000000 ->
  counter * 1000000 / frequency <= U64_MAX ->
  wt_time_counter_to_micros counter frequency = counter * 1000000 / frequency.
Proof.
  intros Hc Hf Hfit. unfold wt_time_counter_to_micros, is_u64, U64_MAX in *.
  rewrite (proj2 (Z.eqb_neq _ _)) by lia.
  assert (Hsplit : counter * 1000000 / frequency =
            counter / frequency * 1000000 + (counter mod frequency * 1000000) / frequency).
  { rewrite (Z.div_mod counter frequency) at 1 by lia.
    replace ((frequency * (counter / frequency) + counter mod frequency) * 1000000)
      with (counter / frequency * 1000000 * frequency + counter mod frequency * 1000000) by ring.
    by rewrite Z.div_add_l by lia. }
  pose proof (Z.mod_pos_bound counter frequency ltac:(lia)).
  pose proof (Z.div_pos counter frequency ltac:(lia) ltac:(lia)).
  pose proof (Z.div_pos (counter mod frequency * 1000000) frequency ltac:(lia) ltac:(lia)).
  assert (counter mod frequency * 1000000 < 2 ^ 64) by zdm.
  rewrite Hsplit in *. by no_wrap.
Qed.

Lemma counter_to_micros_exact_witness :
  wt_time_counter_to_micros (2 ^ 60) 10000000 = 2 ^ 60 * 1000000 / 10000000 /\
  wt_time_counter_to_micros 25 10 = 2500000.
Proof.
  split; [|reflexivity].
  refine (counter_to_micros_exact (2 ^ 60) 10000000 _ _ _); unfold is_u64, U64_MAX; zdm.
Defined.

(** A deadline has passed exactly when no time remains, and both agree with the exact sum even where it does not fit 64 bits. *)
Lemma deadline_agreement start interval now :
  is_u64 start -> is_u64 interval -> is_u64 now -> start <= now ->
  wt_deadline_passed start interval now = (start + interval <=? now) /\
  wt_deadline_remaining start interval now = Z.max 0 (start + interval - now) /\
  (wt_deadline_passed start interval now = true <->
   wt_deadline_remaining start interval now = 0).
Proof.
  intros. unfold wt_deadline_passed, wt_deadline_remaining, is_u64 in *. cbn zeta. no_wrap.
  destruct (Z.leb_spec interval (now - start)); no_wrap; ztest; split_and!; try lia; done.
Qed.

Lemma deadline_agreement_witness :
  wt_deadline_passed 100 50 149 = (100 + 50 <=? 149) /\ wt_deadline_remaining 100 50 149 = 1.
Proof.
  split; [|reflexivity].
  refine (proj1 (deadline_agreement 100 50 149 _ _ _ _)); unfold is_u64; lia.
Defined.
