(* ===== verification/Crypto.v ===== *)
(** The crypto binding ([src/crypto/crypto_openssl.c], [crypto.h]): what the
    library asks of OpenSSL is the class [Crypto] and what it relies on the class
    [CryptoLaws]; HKDF, the label encoding and the comparison, which the C writes
    itself, are definitions.  [toy_crypto] is an instance to evaluate with. *)

From stdpp Require Import strings.
From S2P Require Import Prelude Core.

Inductive wt_aead := WT_AEAD_AES_128_GCM | WT_AEAD_CHACHA20_POLY1305.

#[export] Instance wt_aead_eq_dec : EqDecision wt_aead.
Proof. solve_decision. Defined.

Definition WT_SHA256_LEN : Z := 32.
Definition WT_AEAD_MAX_KEY_LEN : Z := 32.
Definition WT_AEAD_IV_LEN : Z := 12.
Definition WT_AEAD_TAG_LEN : Z := 16.

Definition wt_aead_key_len (aead : wt_aead) : Z :=
  match aead with WT_AEAD_AES_128_GCM => 16 | WT_AEAD_CHACHA20_POLY1305 => 32 end.

(** Both have the same. *)
Definition wt_aead_iv_len (aead : wt_aead) : Z := WT_AEAD_IV_LEN.

(** The operations of the binding. *)
Class Crypto := {
  (* key, message: the code *)
  hmac_sha256 : list Z -> list Z -> outcome (list Z);
  (* AEAD, key, nonce, associated data, plaintext: ciphertext and tag *)
  aead_seal : wt_aead -> list Z -> list Z -> list Z -> list Z -> outcome (list Z * list Z);
  (* AEAD, key, nonce, associated data, ciphertext, tag: plaintext *)
  aead_open : wt_aead -> list Z -> list Z -> list Z -> list Z -> list Z -> outcome (list Z);
  (* key, block *)
  aes128_ecb_encrypt_block : list Z -> list Z -> outcome (list Z);
  (* key, nonce, counter, input *)
  chacha20_xor : list Z -> list Z -> Z -> list Z -> outcome (list Z) }.

(** What [crypto.h] documents of them. *)
Class CryptoLaws (C : Crypto) : Prop := {
  hmac_ok k m mac : hmac_sha256 k m = Ok mac -> zlen mac = WT_SHA256_LEN /\ bytes_ok mac;
  seal_ok a k n aad p c t : bytes_ok p -> aead_seal a k n aad p = Ok (c, t) ->
    zlen c = zlen p /\ bytes_ok c /\ zlen t = WT_AEAD_TAG_LEN /\ bytes_ok t;
  open_seal a k n aad p c t : bytes_ok p -> aead_seal a k n aad p = Ok (c, t) -> aead_open a k n aad c t = Ok p;
  open_status a k n aad c t s e : aead_open a k n aad c t = Fail s e -> s <> WT_ERR_PROTOCOL;
  open_ok a k n aad c t p : bytes_ok c -> aead_open a k n aad c t = Ok p -> zlen p = zlen c /\ bytes_ok p;
  aes_ok k b o : aes128_ecb_encrypt_block k b = Ok o -> zlen o = 16 /\ bytes_ok o;
  chacha_ok k n i b o : bytes_ok b -> chacha20_xor k n i b = Ok o -> zlen o = zlen b /\ bytes_ok o;
  (* what fails says so *)
  seal_fail a k n aad p s e : aead_seal a k n aad p = Fail s e -> s <> WT_OK;
  aes_fail k b s e : aes128_ecb_encrypt_block k b = Fail s e -> s <> WT_OK;
  chacha_fail k n i b s e : chacha20_xor k n i b = Fail s e -> s <> WT_OK }.

(** ** Comparison *)

(** [difference |= a[i] ^ b[i]] over the whole of both. *)
Definition wt_ct_equal (a b : list Z) : bool :=
  foldl (fun difference ab => u8 (Z.lor difference (Z.lxor ab.1 ab.2))) 0 (zip a b) =? 0.

(** ** HKDF *)

Section Hkdf.
Context `{C : Crypto}.

Definition wt_hkdf_extract_sha256 (salt : option (list Z)) (ikm : list Z) : outcome (list Z) :=
  hmac_sha256 (default (replicate 32 0) salt) ikm.

(** The loop that appends T(n); [left] is [out_len - done], and every round
    takes at least a byte of it, so [out_len] rounds are enough. *)
Fixpoint expand_loop (fuel : nat) (prk info : list Z) (counter : Z) (block : list Z) (left : Z) : outcome (list Z) :=
  if left <=? 0 then Ok []
  else match fuel with
  | O => Ok []
  | S fuel =>
      match hmac_sha256 prk ((if counter =? 1 then [] else block) ++ info ++ [u8 counter]) with
      | Fail s e => Fail s e
      | Ok block =>
          let take := if WT_SHA256_LEN <? left then WT_SHA256_LEN else left in
          match expand_loop fuel prk info (u32 (counter + 1)) block (left - take) with
          | Fail s e => Fail s e
          | Ok rest => Ok (ztake take block ++ rest)
          end
      end
  end.

Definition wt_hkdf_expand_sha256 (prk info : list Z) (out_len : Z) : outcome (list Z) :=
  if zlen prk =? 0 then Fail WT_ERR_INVALID_ARGUMENT None
  else if 255 * WT_SHA256_LEN <? out_len then Fail WT_ERR_INVALID_ARGUMENT None
  else expand_loop (Z.to_nat out_len) prk info 1 (replicate 32 0) out_len.

(** The [HkdfLabel] structure. *)
Definition hkdf_label (label : string) (context : list Z) (out_len : Z) : list Z :=
  [u8 (Z.land (Z.shiftr out_len 8) 0xff); u8 (Z.land out_len 0xff); u8 (6 + zlen (literal label))] ++
  literal "tls13 " ++ literal label ++ [u8 (zlen context)] ++ context.

Definition wt_hkdf_expand_label_sha256 (secret : list Z) (label : string) (context : list Z) (out_len : Z)
    : outcome (list Z) :=
  if 65535 <? out_len then Fail WT_ERR_INVALID_ARGUMENT None
  else if 249 <? zlen (literal label) then Fail WT_ERR_INVALID_ARGUMENT None
  else if 255 <? zlen context then Fail WT_ERR_INVALID_ARGUMENT None
  else wt_hkdf_expand_sha256 secret (hkdf_label label context out_len) out_len.
End Hkdf.

(** ** An instance *)

Lemma lxor_u8 a b : is_u8 a -> is_u8 b -> is_u8 (Z.lxor a b).
Proof.
  unfold is_u8. intros Ha Hb. split; [by apply Z.lxor_nonneg; lia|].
  destruct (decide (Z.lxor a b = 0)) as [->|Hne]; [lia|].
  pose proof (proj2 (Z.lxor_nonneg a b) ltac:(lia)). apply Z.log2_lt_pow2; [lia|].
  pose proof (Z.log2_lxor a b ltac:(lia) ltac:(lia)).
  assert (forall x, 0 <= x < 2 ^ 8 -> Z.log2 x < 8) as Hl; [|pose proof (Hl a Ha); pose proof (Hl b Hb); lia].
  intros x Hx. destruct (decide (x = 0)) as [->|]; [done|]. apply Z.log2_lt_pow2; lia.
Qed.

Definition toy_sum (l : list Z) : Z := foldl (fun acc b => (acc * 31 + b + 7) mod 2 ^ 128) 1 l.
Definition toy_code (n : nat) (l : list Z) : list Z := be_bytes n (toy_sum l).
#[global] Arguments toy_code : simpl never.
Definition toy_mix (l : list Z) (m : list Z) : list Z := (fun b => Z.lxor (u8 b) (u8 (toy_sum l))) <$> m.

#[export] Instance toy_crypto : Crypto := {|
  hmac_sha256 k m := Ok (toy_code 32 (k ++ m));
  aead_seal a k n aad p := Ok (toy_mix (k ++ n) p, toy_code 16 (k ++ n ++ aad ++ p));
  aead_open a k n aad c t :=
    let p := toy_mix (k ++ n) c in
    if bool_decide (t = toy_code 16 (k ++ n ++ aad ++ p)) then Ok p else Fail WT_ERR_AUTHENTICATION None;
  aes128_ecb_encrypt_block k b := Ok (toy_code 16 (k ++ b));
  chacha20_xor k n i b := Ok (toy_mix (k ++ n ++ be_bytes 4 i) b) |}.

Lemma toy_mix_ok l m : zlen (toy_mix l m) = zlen m /\ bytes_ok (toy_mix l m).
Proof.
  unfold toy_mix, zlen. rewrite length_fmap. split; [done|]. apply Forall_fmap, Forall_true. intros b. cbn.
  apply lxor_u8; unfold is_u8, u8; by apply Z.mod_pos_bound.
Qed.

Lemma toy_code_ok n l : zlen (toy_code n l) = Z.of_nat n /\ bytes_ok (toy_code n l).
Proof. split; [apply zlen_be_bytes|apply be_bytes_ok]. Qed.

#[export] Instance toy_crypto_laws : CryptoLaws toy_crypto.
Proof.
  split; unfold hmac_sha256, aead_seal, aead_open, aes128_ecb_encrypt_block, chacha20_xor, toy_crypto.
  - intros k m mac [= <-]. apply toy_code_ok.
  - intros a k n aad p c t _ [= <- <-]. destruct (toy_mix_ok (k ++ n) p). split_and!; try done; apply (toy_code_ok 16).
  - intros a k n aad p c t Hp [= <- <-]. assert (Hm : toy_mix (k ++ n) (toy_mix (k ++ n) p) = p).
    { unfold toy_mix. rewrite <- list_fmap_compose. rewrite <- (list_fmap_id p) at 2. apply list_fmap_ext. intros i b Hb. cbn.
      assert (is_u8 b) by (by eapply Forall_lookup_1 in Hb; [|done]). rewrite (u8_small b) by done.
      rewrite u8_small by (apply lxor_u8; [done|unfold is_u8, u8; by apply Z.mod_pos_bound]).
      by rewrite Z.lxor_assoc, Z.lxor_nilpotent, Z.lxor_0_r. }
    rewrite Hm, bool_decide_true by done. done.
  - intros a k n aad c t s e. cbv zeta. destruct (bool_decide _); [done|]. by intros [= <- _].
  - intros a k n aad c t p _. cbv zeta. destruct (bool_decide _); [|done]. intros [= <-]. apply toy_mix_ok.
  - intros k b o [= <-]. apply toy_code_ok.
  - intros k n i b o _ [= <-]. apply toy_mix_ok.
  - done.
  - done.
  - done.
Qed.

(** ** Lemmas *)

Lemma u8_lor_lxor d a b : is_u8 d -> is_u8 a -> is_u8 b -> u8 (Z.lor d (Z.lxor a b)) = 0 <-> d = 0 /\ a = b.
Proof.
  intros Hd Ha Hb. pose proof (lxor_u8 a b Ha Hb) as Hx. unfold is_u8, u8 in *.
  assert (Hl : 0 <= Z.lor d (Z.lxor a b) < 2 ^ 8).
  { split; [apply Z.lor_nonneg; lia|]. destruct (decide (Z.lor d (Z.lxor a b) = 0)) as [->|Hne]; [lia|].
    assert (0 <= Z.lor d (Z.lxor a b)) by (apply Z.lor_nonneg; lia).
    apply Z.log2_lt_pow2; [lia|]. rewrite Z.log2_lor by lia. apply Z.max_lub_lt.
    - destruct (decide (d = 0)) as [->|]; [done|]. apply Z.log2_lt_pow2; lia.
    - destruct (decide (Z.lxor a b = 0)) as [->|]; [done|]. apply Z.log2_lt_pow2; lia. }
  rewrite Z.mod_small by done. rewrite Z.lor_eq_0_iff, Z.lxor_eq_0_iff. done.
Qed.

Lemma ct_equal_fold a b d :
  is_u8 d -> bytes_ok a -> bytes_ok b -> length a = length b ->
  foldl (fun difference ab => u8 (Z.lor difference (Z.lxor ab.1 ab.2))) d (zip a b) = 0 <-> d = 0 /\ a = b.
Proof.
  intros Hd Ha. revert b d Hd. induction Ha as [|x a Hx Ha IH]; intros [|y b] d Hd Hb Hl; try done; cbn.
  - naive_solver.
  - apply Forall_cons in Hb as [Hy Hb]. rewrite IH; [|unfold is_u8, u8; by apply Z.mod_pos_bound|done|by injection Hl].
    rewrite u8_lor_lxor by done. naive_solver.
Qed.

(** The comparison without early exit is equality. *)
Lemma ct_equal_spec a b : bytes_ok a -> bytes_ok b -> zlen a = zlen b -> wt_ct_equal a b = true <-> a = b.
Proof.
  intros Ha Hb Hl. unfold wt_ct_equal. rewrite Z.eqb_eq, ct_equal_fold; [naive_solver|by unfold is_u8|done|done|unfold zlen in Hl; lia].
Qed.

Section HkdfLemmas.
Context {C : Crypto} {L : CryptoLaws C}.

(** RFC 5869, section 2.3: T(i+1) | ... | T(i+n), where T(i+1) = HMAC(PRK, T(i) | info | i+1). *)
Fixpoint hkdf_blocks (prk info : list Z) (i : nat) (t : list Z) (n : nat) : outcome (list Z) :=
  match n with
  | O => Ok []
  | S n =>
      match hmac_sha256 prk (t ++ info ++ [Z.of_nat (S i)]) with
      | Fail s e => Fail s e
      | Ok t => match hkdf_blocks prk info (S i) t n with Fail s e => Fail s e | Ok rest => Ok (t ++ rest) end
      end
  end.

Lemma expand_loop_blocks prk info n : forall fuel i t block left,
  Z.of_nat n = (left + 31) / 32 -> 0 <= left -> (Z.to_nat left <= fuel)%nat -> (i + n <= 255)%nat ->
  (if Z.of_nat i + 1 =? 1 then [] else block) = t ->
  expand_loop fuel prk info (Z.of_nat i + 1) block left =
  match hkdf_blocks prk info i t n with Fail s e => Fail s e | Ok okm => Ok (ztake left okm) end.
Proof.
  induction n as [|n IH]; intros fuel i t block left Hn Hl Hf Hi Ht.
  - assert (left = 0) as -> by zdm. by destruct fuel.
  - assert (0 < left) by zdm. destruct fuel as [|fuel]; [lia|]. cbn [expand_loop hkdf_blocks].
    rewrite (proj2 (Z.leb_gt _ _)), Ht by lia. rewrite (u8_small (_ + 1)) by (unfold is_u8; lia).
    replace (Z.of_nat i + 1) with (Z.of_nat (S i)) by lia.
    destruct (hmac_sha256 prk _) as [t'|s e] eqn:Eh; [|done]. destruct (hmac_ok _ _ _ Eh) as [Hz _]. unfold WT_SHA256_LEN in *.
    rewrite (u32_small (_ + 1)) by (unfold is_u32; lia).
    assert (Hnext : (if Z.of_nat (S i) + 1 =? 1 then [] else t') = t') by by rewrite (proj2 (Z.eqb_neq _ _)) by lia.
    assert (Htake : (if 32 <? left then 32 else left) = Z.min 32 left) by (destruct (Z.ltb_spec 32 left); lia).
    rewrite Htake, (IH fuel (S i) t' t' (left - Z.min 32 left)); [|zdm|lia|lia|lia|done].
    destruct (hkdf_blocks prk info (S i) t' n) as [rest|s e] eqn:Er; [|done]. f_equal.
    unfold ztake. rewrite take_app. unfold zlen in Hz. f_equal.
    + destruct (Z.le_gt_cases 32 left); [by rewrite !take_ge by lia|by rewrite Z.min_r by lia].
    + f_equal. lia.
Qed.

(** HKDF-Expand is the RFC's: the first [out_len] bytes of T(1) | T(2) | ... *)
Lemma hkdf_expand_exact prk info out_len :
  prk <> [] -> 0 <= out_len <= 255 * 32 ->
  wt_hkdf_expand_sha256 prk info out_len =
  match hkdf_blocks prk info 0 [] (Z.to_nat ((out_len + 31) / 32)) with Fail s e => Fail s e | Ok okm => Ok (ztake out_len okm) end.
Proof.
  intros Hp Hn. unfold wt_hkdf_expand_sha256, WT_SHA256_LEN.
  rewrite (proj2 (Z.eqb_neq _ _)) by (intros E; by apply zlen_0_nil in E). rewrite (proj2 (Z.ltb_ge _ _)) by lia.
  apply (expand_loop_blocks prk info _ _ 0%nat); [zdm|lia|lia|zdm|done].
Qed.

Lemma hkdf_blocks_ok prk info n : forall i t okm,
  hkdf_blocks prk info i t n = Ok okm -> zlen okm = 32 * Z.of_nat n /\ bytes_ok okm.
Proof.
  induction n as [|n IH]; intros i t okm; cbn [hkdf_blocks].
  - intros [= <-]. split; [done|constructor].
  - destruct (hmac_sha256 prk _) as [t'|] eqn:Eh; [|done]. destruct (hkdf_blocks prk info (S i) t' n) as [rest|] eqn:Er; [|done].
    intros [= <-]. destruct (hmac_ok _ _ _ Eh) as [Hz Ht]. destruct (IH _ _ _ Er). unfold WT_SHA256_LEN in Hz.
    split; [rewrite zlen_app; lia|by apply Forall_app].
Qed.

Lemma expand_label_ok secret label context out_len okm :
  0 <= out_len -> wt_hkdf_expand_label_sha256 secret label context out_len = Ok okm -> zlen okm = out_len /\ bytes_ok okm.
Proof.
  intros Hn. unfold wt_hkdf_expand_label_sha256. destruct (65535 <? out_len), (249 <? zlen (literal label)), (255 <? zlen context); try done.
  intros H. assert (secret <> [] /\ out_len <= 255 * 32) as [Hs Hm].
  { unfold wt_hkdf_expand_sha256, WT_SHA256_LEN in H. destruct (Z.eqb_spec (zlen secret) 0); [done|].
    destruct (Z.ltb_spec (255 * 32) out_len); [done|]. split; [by intros ->|lia]. }
  rewrite hkdf_expand_exact in H by done. destruct (hkdf_blocks _ _ _ _ _) as [l|] eqn:E; [|done].
  apply hkdf_blocks_ok in E as [Hz Hb]. simplify_eq. split; [rewrite zlen_ztake; zdm|by apply Forall_ztake].
Qed.
End HkdfLemmas.
