(* ===== verification/Cursor.v ===== *)
(** * The read cursor: [src/core/cursor.c]

    The cursor of the source, a block, its length, an offset and a sticky
    failure, with every reader.  A decoder of the layers above is a function
    from a cursor to an [outcome] and the cursor it leaves behind; [parser]
    names that type and [pbind] the "return the first failure" sequencing the
    source writes as [if (status != WT_OK) return status].

    Two program logics are derived from the one function that moves the offset,
    [wt_cursor_take]: [parser_safe], which holds on every cursor whatever the
    bytes are, and [decodes], which says which bytes give which value. *)

From S2P Require Export Core.

(** ** The cursor *)

Record wt_cursor := mk_cursor {
  cur_data : option (list Z);  (** [None] is the NULL block *)
  cur_len : Z;
  cur_offset : Z;
  cur_failed : bool }.

Definition wt_cursor_init (data : option (list Z)) (len : Z) : wt_cursor :=
  mk_cursor data (match data with None => 0 | Some _ => len end) 0 false.

Definition wt_cursor_remaining (c : wt_cursor) : Z :=
  if cur_failed c then 0 else u64 (cur_len c - cur_offset c).

Definition wt_cursor_at_end (c : wt_cursor) : bool :=
  if cur_failed c then false else cur_offset c =? cur_len c.

Definition wt_cursor_failed (c : wt_cursor) : bool := cur_failed c.

(** [c->data + c->offset], seen as the [n] bytes a caller may read through it;
    [None] is the NULL pointer. *)
Definition cursor_ptr (c : wt_cursor) (n : Z) : option (list Z) :=
  match cur_data c with None => None | Some d => Some (zslice (cur_offset c) n d) end.

Definition wt_cursor_take (n : Z) (c : wt_cursor) : option (list Z) * wt_cursor :=
  if cur_failed c then (None, c)
  else if u64 (cur_len c - cur_offset c) <? n then
    (None, mk_cursor (cur_data c) (cur_len c) (cur_offset c) true)
  else (cursor_ptr c n,
        mk_cursor (cur_data c) (cur_len c) (u64 (cur_offset c + n)) (cur_failed c)).

Definition take_load (n : Z) (load : list Z -> Z) (c : wt_cursor) : Z * wt_cursor :=
  let '(p, c') := wt_cursor_take n c in
  (match p with None => 0 | Some bs => load bs end, c').

Definition wt_cursor_u8 : wt_cursor -> Z * wt_cursor := take_load 1 (fun p => byte_at p 0).
Definition wt_cursor_u16 : wt_cursor -> Z * wt_cursor := take_load 2 wt_load_be16.
Definition wt_cursor_u24 : wt_cursor -> Z * wt_cursor := take_load 3 wt_load_be24.
Definition wt_cursor_u32 : wt_cursor -> Z * wt_cursor := take_load 4 wt_load_be32.
Definition wt_cursor_u64 : wt_cursor -> Z * wt_cursor := take_load 8 wt_load_be64.

Definition wt_cursor_bytes : Z -> wt_cursor -> option (list Z) * wt_cursor := wt_cursor_take.

Definition wt_cursor_skip (n : Z) (c : wt_cursor) : wt_status * wt_cursor :=
  let '(p, c') := wt_cursor_take n c in
  (match p with None => WT_ERR_TRUNCATED | Some _ => WT_OK end, c').

(** The pointer and the length it stores through [out_len]. *)
Definition wt_cursor_rest (c : wt_cursor) : option (list Z) * Z :=
  if cur_failed c then (None, 0)
  else let len := u64 (cur_len c - cur_offset c) in (cursor_ptr c len, len).

(** ** Parsers *)

Definition parser (A : Type) : Type := wt_cursor -> outcome A * wt_cursor.

Definition pret {A} (a : A) : parser A := fun c => (Ok a, c).
Definition pfail {A} (s : wt_status) (e : option Z) : parser A := fun c => (Fail s e, c).
Definition pbind {A B} (p : parser A) (k : A -> parser B) : parser B := fun c =>
  match p c with
  | (Ok a, c') => k a c'
  | (Fail s e, c') => (Fail s e, c')
  end.

Declare Scope parser_scope.
Delimit Scope parser_scope with parser.
Notation "x <- p ;; k" := (pbind p (fun x => k))
  (at level 60, p at next level, right associativity) : parser_scope.
#[global] Open Scope parser_scope.

(** [const uint8_t *p = wt_cursor_bytes(c, n); if (p == NULL) return TRUNCATED;] *)
Definition take_or_truncated (n : Z) (e : option Z) : parser (list Z) := fun c =>
  match wt_cursor_bytes n c with
  | (None, c') => (Fail WT_ERR_TRUNCATED e, c')
  | (Some bs, c') => (Ok bs, c')
  end.

(** A failure of [p] reported as the status and code the layer above gives it. *)
Definition failing_as {A} (s : wt_status) (e : option Z) (p : parser A) : parser A := fun c =>
  match p c with
  | (Fail _ _, c') => (Fail s e, c')
  | ok => ok
  end.

(** [p = wt_cursor_bytes(c, n); if (p == NULL && n != 0)] fail. *)
Definition bytes_or_truncated (n : Z) (e : option Z) : parser (list Z) := fun c =>
  match wt_cursor_bytes n c with
  | (Some bs, c') => (Ok bs, c')
  | (None, c') => if n =? 0 then (Ok [], c') else (Fail WT_ERR_TRUNCATED e, c')
  end.

(** [first = wt_cursor_u8(c); if (wt_cursor_failed(c)) return TRUNCATED;] *)
Definition read_first : parser Z := fun c =>
  let '(first, c') := wt_cursor_u8 c in
  if wt_cursor_failed c' then (Fail WT_ERR_TRUNCATED None, c') else (Ok first, c').

(** [rest = wt_cursor_rest(c, &available); if (rest == NULL || available == 0)] nothing;
    otherwise [rest[0]]. *)
Definition peek_first (c : wt_cursor) : option Z :=
  match wt_cursor_rest c with
  | (Some rest, available) => if available =? 0 then None else Some (byte_at rest 0)
  | (None, _) => None
  end.

(** Look at the first byte, or report that there is none, and go on. *)
Definition with_peek {A} (e : option Z) (k : Z -> parser A) : parser A := fun c =>
  match peek_first c with
  | None => (Fail WT_ERR_TRUNCATED e, c)
  | Some first => k first c
  end.

(** ** The invariant and the abstract view *)

Definition cursor_inv (c : wt_cursor) : Prop :=
  0 <= cur_offset c <= cur_len c /\ cur_len c < 2 ^ 64 /\
  match cur_data c with
  | None => cur_len c = 0
  | Some d => cur_len c = zlen d /\ bytes_ok d
  end.

(** The bytes not yet read. *)
Definition cursor_view (c : wt_cursor) : list Z :=
  match cur_data c with None => [] | Some d => zdrop (cur_offset c) d end.

(** A cursor over a real block that has not failed. *)
Definition cursor_live (c : wt_cursor) : Prop :=
  cursor_inv c /\ cur_failed c = false /\ cur_data c <> None.

Definition cursor_advance (c : wt_cursor) (n : Z) : wt_cursor :=
  mk_cursor (cur_data c) (cur_len c) (cur_offset c + n) (cur_failed c).

Lemma cursor_init_inv d : zlen d < 2 ^ 64 -> bytes_ok d -> cursor_inv (wt_cursor_init (Some d) (zlen d)).
Proof. intros. pose proof (zlen_nonneg d). repeat split; cbn; auto; lia. Qed.

Lemma cursor_init_live d : zlen d < 2 ^ 64 -> bytes_ok d -> cursor_live (wt_cursor_init (Some d) (zlen d)).
Proof. intros. split_and!; [by apply cursor_init_inv|done|done]. Qed.

Lemma cursor_init_view d : cursor_view (wt_cursor_init (Some d) (zlen d)) = d.
Proof. done. Qed.

Lemma cursor_view_len c : cursor_inv c -> zlen (cursor_view c) = cur_len c - cur_offset c.
Proof.
  intros (Ho & Hl & Hd). unfold cursor_view. destruct (cur_data c) as [d|].
  - destruct Hd as [Hd _]. rewrite zlen_zdrop by lia. lia.
  - rewrite zlen_nil. lia.
Qed.

Lemma cursor_view_ok c : cursor_inv c -> bytes_ok (cursor_view c).
Proof.
  intros (_ & _ & Hd). unfold cursor_view. destruct (cur_data c) as [d|]; [|constructor].
  apply Forall_zdrop, Hd.
Qed.

Lemma cursor_remaining_view c :
  cursor_inv c -> cur_failed c = false -> wt_cursor_remaining c = zlen (cursor_view c).
Proof.
  intros Hi Hf. rewrite cursor_view_len by done. unfold wt_cursor_remaining. rewrite Hf.
  destruct Hi as (? & ? & _). by no_wrap.
Qed.

Lemma cursor_advance_inv c n :
  cursor_inv c -> 0 <= n <= zlen (cursor_view c) -> cursor_inv (cursor_advance c n).
Proof.
  intros Hi Hn. rewrite cursor_view_len in Hn by done. destruct Hi as (? & ? & ?).
  repeat split; cbn; auto; lia.
Qed.

Lemma cursor_advance_live c n :
  cursor_live c -> 0 <= n <= zlen (cursor_view c) -> cursor_live (cursor_advance c n).
Proof. intros (Hi & Hf & Hd) Hn. split_and!; [by apply cursor_advance_inv|done|done]. Qed.

Lemma cursor_advance_view c n bs tl :
  cursor_inv c -> cursor_view c = bs ++ tl -> n = zlen bs -> cursor_view (cursor_advance c n) = tl.
Proof.
  intros Hi Hv ->. unfold cursor_view in *. cbn. destruct (cur_data c) as [d|].
  - pose proof (zlen_nonneg bs). destruct Hi as (? & _).
    rewrite <- zdrop_zdrop by lia. rewrite Hv. by apply zdrop_app_exact.
  - by destruct bs, tl.
Qed.

Lemma cursor_advance_0 c : cursor_advance c 0 = c.
Proof. destruct c. unfold cursor_advance; cbn. by rewrite Z.add_0_r. Qed.

Lemma cursor_advance_add c n m : cursor_advance (cursor_advance c n) m = cursor_advance c (n + m).
Proof. unfold cursor_advance; cbn. f_equal. lia. Qed.

(** A block a cursor can be put over. *)
Definition block_ok (bytes : list Z) : Prop := bytes_ok bytes /\ zlen bytes < 2 ^ 64.

Lemma block_ok_live bytes : block_ok bytes -> cursor_live (wt_cursor_init (Some bytes) (zlen bytes)).
Proof. intros []. by apply cursor_init_live. Qed.

Lemma block_ok_suffix pre rest : block_ok (pre ++ rest) -> block_ok rest.
Proof.
  intros [Hok Hz]. apply Forall_app in Hok as [_ ?]. rewrite zlen_app in Hz. pose proof (zlen_nonneg pre).
  split; [done|lia].
Qed.

Lemma live_block_ok c : cursor_live c -> block_ok (cursor_view c).
Proof.
  intros [Hi _]. split; [by apply cursor_view_ok|]. rewrite cursor_view_len by done.
  destruct Hi as (? & ? & _). lia.
Qed.

(** ** The one function that moves the offset *)

Lemma cursor_take_live c n bs tl :
  cursor_live c -> cursor_view c = bs ++ tl -> n = zlen bs ->
  wt_cursor_take n c = (Some bs, cursor_advance c n).
Proof.
  intros (Hi & Hf & Hd) Hv ->. pose proof (cursor_view_len c Hi) as Hlen.
  rewrite Hv, zlen_app in Hlen. pose proof (zlen_nonneg bs). pose proof (zlen_nonneg tl).
  unfold wt_cursor_take. rewrite Hf. destruct Hi as (Ho & Hl & _). no_wrap. ztest.
  unfold cursor_ptr, cursor_view in *. destruct (cur_data c) as [d|] eqn:E; [|done].
  unfold zslice. rewrite Hv, ztake_app_exact by done.
  unfold cursor_advance. by rewrite E, Hf.
Qed.

(** What a take does on any cursor: nothing, a failure mark, or [n] bytes that
    lie inside the block. *)
Lemma cursor_take_safe n c :
  cursor_inv c -> 0 <= n ->
  let '(p, c') := wt_cursor_take n c in
  cursor_inv c' /\ cur_data c' = cur_data c /\ cur_len c' = cur_len c /\
  match p with
  | None => cur_offset c <= cur_offset c'
  | Some bs => zlen bs = n /\ bytes_ok bs /\ cursor_view c = bs ++ cursor_view c' /\
               cur_offset c' = cur_offset c + n /\ cur_failed c' = false
  end.
Proof.
  intros Hi Hn. pose proof (cursor_view_len c Hi) as Hlen. unfold wt_cursor_take.
  destruct (cur_failed c) eqn:Hf; [split_and!; auto; lia|].
  destruct Hi as (Ho & Hl & Hd). no_wrap.
  destruct (Z.ltb_spec (cur_len c - cur_offset c) n); [repeat split; cbn; auto; lia|].
  no_wrap. unfold cursor_ptr. destruct (cur_data c) as [d|] eqn:E.
  - destruct Hd as [Hd Hok]. split_and!; try (repeat split; cbn; rewrite ?E; auto; lia).
    + unfold zslice. rewrite zlen_ztake; [done|]. rewrite zlen_zdrop; lia.
    + unfold zslice, bytes_ok. auto with wt.
    + unfold cursor_view; cbn. rewrite E. unfold zslice.
      rewrite <- zdrop_zdrop by lia. by rewrite ztake_zdrop.
  - repeat split; cbn; rewrite ?E; auto; lia.
Qed.

(** ** Safety on arbitrary input *)

(** [p] keeps the cursor inside its block, never moves backwards, and a value it
    returns satisfies [Q]. *)
Definition parser_safe {A} (Q : A -> Prop) (p : parser A) : Prop :=
  forall c, cursor_inv c ->
  cursor_inv (p c).2 /\ cur_data (p c).2 = cur_data c /\ cur_len (p c).2 = cur_len c /\
  cur_offset c <= cur_offset (p c).2 /\
  match (p c).1 with Ok a => Q a | Fail _ _ => True end.

(** A value costs at least one byte. *)
Definition parser_consumes {A} (p : parser A) : Prop :=
  forall c, cursor_inv c ->
  match (p c).1 with Ok _ => cur_offset c < cur_offset (p c).2 | Fail _ _ => True end.

Lemma parser_safe_weaken {A} (Q Q' : A -> Prop) p :
  parser_safe Q p -> (forall a, Q a -> Q' a) -> parser_safe Q' p.
Proof.
  intros Hp HQ c Hi. destruct (Hp c Hi) as (? & ? & ? & ? & HQa).
  split_and!; auto. destruct (p c).1; auto.
Qed.

Lemma parser_safe_ret {A} (Q : A -> Prop) a : Q a -> parser_safe Q (pret a).
Proof. intros HQ c Hi. cbn. split_and!; auto; lia. Qed.

Lemma parser_safe_fail {A} (Q : A -> Prop) s e : parser_safe Q (pfail s e).
Proof. intros c Hi. cbn. split_and!; auto; lia. Qed.

Lemma parser_safe_bind {A B} (Q : A -> Prop) (R : B -> Prop) p k :
  parser_safe Q p -> (forall a, Q a -> parser_safe R (k a)) -> parser_safe R (pbind p k).
Proof.
  intros Hp Hk c Hi. unfold pbind. destruct (Hp c Hi) as (Hi' & Hd & Hl & Ho & HQ).
  destruct (p c) as [[a|s e] c']; cbn in *; [|split_and!; auto].
  destruct (Hk a HQ c' Hi') as (? & ? & ? & ? & ?). split_and!; auto; try congruence; lia.
Qed.

Lemma parser_consumes_bind {A B} (Q : A -> Prop) (R : B -> Prop) p k :
  parser_safe Q p -> parser_consumes p -> (forall a, Q a -> parser_safe R (k a)) ->
  parser_consumes (pbind p k).
Proof.
  intros Hp Hpc Hk c Hi. unfold pbind. specialize (Hpc c Hi).
  destruct (Hp c Hi) as (Hi' & _ & _ & _ & HQ).
  destruct (p c) as [[a|s e] c']; cbn in *; [|done].
  destruct (Hk a HQ c' Hi') as (_ & _ & _ & ? & _). destruct (k a c').1; [lia|done].
Qed.

Lemma take_or_truncated_safe n e :
  0 <= n -> parser_safe (fun bs => zlen bs = n /\ bytes_ok bs) (take_or_truncated n e).
Proof.
  intros Hn c Hi. pose proof (cursor_take_safe n c Hi Hn) as Hs.
  unfold take_or_truncated, wt_cursor_bytes.
  destruct (wt_cursor_take n c) as [[bs|] c'];
    destruct Hs as (? & ? & ? & Hs); cbn; [destruct Hs as (? & ? & ? & ? & ?)|];
    split_and!; auto; lia.
Qed.

(** The ways a parser may fail. *)
Definition parser_fails {A} (E : wt_status -> option Z -> Prop) (p : parser A) : Prop :=
  forall c, cursor_inv c -> match (p c).1 with Ok _ => True | Fail s e => E s e end.

Lemma parser_fails_ret {A} E (a : A) : parser_fails E (pret a).
Proof. by intros c _. Qed.

Lemma parser_fails_bind {A B} E (Q : A -> Prop) (p : parser A) (k : A -> parser B) :
  parser_safe Q p -> parser_fails E p -> (forall a, Q a -> parser_fails E (k a)) ->
  parser_fails E (pbind p k).
Proof.
  intros Hp Hf Hk c Hi. unfold pbind. specialize (Hf c Hi).
  destruct (Hp c Hi) as (Hi' & _ & _ & _ & HQ).
  destruct (p c) as [[a|s e] c']; cbn in *; [by apply Hk|done].
Qed.

Lemma take_or_truncated_fails (E : wt_status -> option Z -> Prop) n e :
  E WT_ERR_TRUNCATED e -> parser_fails E (take_or_truncated n e).
Proof. intros HE c _. unfold take_or_truncated. destruct (wt_cursor_bytes n c) as [[|] ?]; done. Qed.

Lemma failing_as_safe {A} (Q : A -> Prop) s e p : parser_safe Q p -> parser_safe Q (failing_as s e p).
Proof.
  intros Hp c Hi. specialize (Hp c Hi). unfold failing_as. by destruct (p c) as [[a|s' e'] c'].
Qed.

Lemma failing_as_consumes {A} s e (p : parser A) : parser_consumes p -> parser_consumes (failing_as s e p).
Proof. intros Hp c Hi. specialize (Hp c Hi). unfold failing_as. by destruct (p c) as [[a|s' e'] c']. Qed.

Lemma failing_as_fails {A} (E : wt_status -> option Z -> Prop) s e (p : parser A) :
  E s e -> parser_fails E (failing_as s e p).
Proof. intros HE c _. unfold failing_as. by destruct (p c) as [[a|s' e'] c']. Qed.

Lemma bytes_or_truncated_safe n e :
  0 <= n -> parser_safe (fun bs => zlen bs = n /\ bytes_ok bs) (bytes_or_truncated n e).
Proof.
  intros Hn c Hi. pose proof (cursor_take_safe n c Hi Hn) as Hs.
  unfold bytes_or_truncated, wt_cursor_bytes. destruct (wt_cursor_take n c) as [[bs|] c'].
  - destruct Hs as (? & ? & ? & ? & ? & ? & ? & ?). cbn. split_and!; auto; lia.
  - destruct Hs as (? & ? & ? & ?). destruct (Z.eqb_spec n 0); cbn; split_and!; auto. constructor.
Qed.

Lemma bytes_or_truncated_fails (E : wt_status -> option Z -> Prop) n e :
  E WT_ERR_TRUNCATED e -> parser_fails E (bytes_or_truncated n e).
Proof.
  intros HE c _. unfold bytes_or_truncated. destruct (wt_cursor_bytes n c) as [[|] ?]; [done|].
  by destruct (n =? 0).
Qed.

Lemma parser_fails_fail {A} (E : wt_status -> option Z -> Prop) s e :
  E s e -> parser_fails E (@pfail A s e).
Proof. by intros HE c _. Qed.

#[export] Hint Resolve parser_safe_ret parser_safe_fail : wt.

(** ** Functional correctness on well-formed input *)

(** On any live cursor whose unread bytes start with [bs], [p] returns [a] and
    has consumed exactly [bs]. *)
Definition decodes {A} (p : parser A) (bs : list Z) (a : A) : Prop :=
  forall c tl, cursor_live c -> cursor_view c = bs ++ tl ->
  p c = (Ok a, cursor_advance c (zlen bs)).

Lemma decodes_ret {A} (a : A) : decodes (pret a) [] a.
Proof. intros c tl _ _. rewrite zlen_nil, cursor_advance_0. done. Qed.

Lemma decodes_bind {A B} (p : parser A) (k : A -> parser B) bs1 bs2 a b :
  decodes p bs1 a -> decodes (k a) bs2 b -> decodes (pbind p k) (bs1 ++ bs2) b.
Proof.
  intros Hp Hk c tl Hl Hv. rewrite <- app_assoc in Hv. unfold pbind.
  rewrite (Hp c (bs2 ++ tl)) by done. rewrite (Hk _ tl).
  - by rewrite cursor_advance_add, zlen_app.
  - apply cursor_advance_live; [done|]. rewrite Hv, zlen_app.
    pose proof (zlen_nonneg bs1). pose proof (zlen_nonneg (bs2 ++ tl)). lia.
  - eapply cursor_advance_view; [apply Hl|exact Hv|done].
Qed.

Lemma decodes_take bs n e : n = zlen bs -> decodes (take_or_truncated n e) bs bs.
Proof.
  intros -> c tl Hl Hv. unfold take_or_truncated, wt_cursor_bytes.
  by rewrite (cursor_take_live c (zlen bs) bs tl).
Qed.

Lemma decodes_failing_as {A} s e (p : parser A) bs a :
  decodes p bs a -> decodes (failing_as s e p) bs a.
Proof. intros Hp c tl Hl Hv. unfold failing_as. by rewrite (Hp c tl). Qed.

Lemma decodes_bytes_or_truncated bs n e : n = zlen bs -> decodes (bytes_or_truncated n e) bs bs.
Proof.
  intros -> c tl Hl Hv. unfold bytes_or_truncated, wt_cursor_bytes.
  by rewrite (cursor_take_live c (zlen bs) bs tl).
Qed.

(** Decoding a whole block: the value and a cursor at the end. *)
Lemma decodes_whole {A} (p : parser A) bs a :
  decodes p bs a -> zlen bs < 2 ^ 64 -> bytes_ok bs ->
  p (wt_cursor_init (Some bs) (zlen bs)) =
    (Ok a, cursor_advance (wt_cursor_init (Some bs) (zlen bs)) (zlen bs)).
Proof.
  intros Hp Hl Hok. apply (Hp _ []); [by apply cursor_init_live|].
  by rewrite app_nil_r.
Qed.

Lemma decodes_map {A B} (p : parser A) (f : A -> B) bs a :
  decodes p bs a -> decodes (x <- p;; pret (f x)) bs (f a).
Proof.
  intros Hp. rewrite <- (app_nil_r bs). eapply decodes_bind; [exact Hp|apply decodes_ret].
Qed.

Lemma decodes_bind_nil {A B} (p : parser A) (k : A -> parser B) bs a b :
  decodes p bs a -> decodes (k a) [] b -> decodes (pbind p k) bs b.
Proof. intros Hp Hk. rewrite <- (app_nil_r bs). by eapply decodes_bind. Qed.

(** The same for a decoder that runs to the end of its block. *)
Definition decodes_end {A} (p : parser A) (bs : list Z) (a : A) : Prop :=
  forall c, cursor_live c -> cursor_view c = bs -> p c = (Ok a, cursor_advance c (zlen bs)).

Lemma decodes_to_end {A} (p : parser A) bs a : decodes p bs a -> decodes_end p bs a.
Proof. intros Hp c Hl Hv. apply (Hp c []); [done|]. by rewrite app_nil_r. Qed.

Lemma decodes_bind_end {A B} (p : parser A) (k : A -> parser B) bs1 bs2 a b :
  decodes p bs1 a -> decodes_end (k a) bs2 b -> decodes_end (pbind p k) (bs1 ++ bs2) b.
Proof.
  intros Hp Hk c Hl Hv. unfold pbind. rewrite (Hp c bs2) by done. rewrite (Hk _).
  - by rewrite cursor_advance_add, zlen_app.
  - apply cursor_advance_live; [done|]. rewrite Hv, zlen_app.
    pose proof (zlen_nonneg bs1). pose proof (zlen_nonneg bs2). lia.
  - eapply cursor_advance_view; [apply Hl|exact Hv|done].
Qed.

Lemma decodes_end_map {A B} (p : parser A) (f : A -> B) bs a :
  decodes_end p bs a -> decodes_end (x <- p;; pret (f x)) bs (f a).
Proof. intros Hp c Hl Hv. unfold pbind. by rewrite (Hp c). Qed.

(** Run a decoder over the concatenation it was built for: one bind per field,
    leaves by the hints. *)
Ltac decodes_step :=
  lazymatch goal with
  | |- decodes (pbind _ (fun x => pret _)) (_ ++ _) _ => eapply decodes_bind
  | |- decodes (pbind _ (fun x => pret (@?f x))) _ _ => apply (decodes_map _ f)
  | |- decodes (pbind _ _) (_ ++ _) _ => eapply decodes_bind
  | |- decodes (pret _) [] _ => apply decodes_ret
  end.
Ltac decodes_run := repeat (decodes_step; cbn beta); auto with wt.

#[export] Hint Resolve decodes_ret : wt.

(** ** One byte read, and one byte looked at *)

Lemma cursor_u8_live c b tl :
  cursor_live c -> cursor_view c = b :: tl -> wt_cursor_u8 c = (b, cursor_advance c 1).
Proof.
  intros Hl Hv. unfold wt_cursor_u8, take_load.
  by rewrite (cursor_take_live c 1 [b] tl) by done.
Qed.

Lemma decodes_read_first b : decodes read_first [b] b.
Proof.
  intros c tl Hl Hv. unfold read_first. rewrite (cursor_u8_live c b tl Hl Hv).
  unfold wt_cursor_failed, cursor_advance; cbn. by rewrite (proj1 (proj2 Hl)).
Qed.

Lemma read_first_safe : parser_safe is_u8 read_first.
Proof.
  intros c Hi. unfold read_first, wt_cursor_u8, take_load, wt_cursor_failed.
  pose proof (cursor_take_safe 1 c Hi ltac:(lia)) as Hs. destruct (wt_cursor_take 1 c) as [[bs|] c'].
  - destruct Hs as (? & ? & ? & Hz & Hok & _ & ? & Hf). rewrite Hf. cbn. split_and!; auto; [lia|].
    destruct bs as [|b [|? ?]]; rewrite ?zlen_nil, ?zlen_cons in Hz; try (zlen_facts; lia). by apply Forall_cons in Hok as [? _].
  - destruct Hs as (? & ? & ? & ?). destruct (cur_failed c'); cbn; split_and!; auto. unfold is_u8. lia.
Qed.

Lemma cursor_rest_live c :
  cursor_live c -> wt_cursor_rest c = (Some (cursor_view c), zlen (cursor_view c)).
Proof.
  intros (Hi & Hf & Hd). unfold wt_cursor_rest. rewrite Hf. pose proof (cursor_view_len c Hi) as Hlen.
  destruct Hi as (? & ? & Hdata). cbn zeta. no_wrap. rewrite <- Hlen.
  unfold cursor_ptr, cursor_view in *. destruct (cur_data c) as [d|]; [|done].
  unfold zslice. rewrite ztake_all; [done|]. lia.
Qed.

Lemma peek_first_live c b tl : cursor_live c -> cursor_view c = b :: tl -> peek_first c = Some b.
Proof.
  intros Hl Hv. unfold peek_first. rewrite cursor_rest_live, Hv by done. rewrite zlen_cons.
  pose proof (zlen_nonneg tl). by ztest.
Qed.

Lemma peek_first_end c : cursor_live c -> cursor_view c = [] -> peek_first c = None.
Proof. intros Hl Hv. unfold peek_first. by rewrite cursor_rest_live, Hv by done. Qed.

Lemma read_first_fails (E : wt_status -> option Z -> Prop) : E WT_ERR_TRUNCATED None -> parser_fails E read_first.
Proof. intros HE c _. unfold read_first. destruct (wt_cursor_u8 c). by destruct (wt_cursor_failed _). Qed.

Lemma peek_first_u8 c b : cursor_inv c -> peek_first c = Some b -> is_u8 b.
Proof.
  intros (Ho & Hl & Hd). unfold peek_first, wt_cursor_rest, cursor_ptr.
  destruct (cur_failed c); [done|]. destruct (cur_data c) as [d|]; [|done]. destruct Hd as [_ Hok].
  destruct (_ =? 0); [done|]. intros [= <-]. unfold byte_at.
  destruct (zslice (cur_offset c) (u64 (cur_len c - cur_offset c)) d !! 0%nat) as [x|] eqn:E; cbn; [|unfold is_u8; lia].
  assert (Hs : bytes_ok (zslice (cur_offset c) (u64 (cur_len c - cur_offset c)) d))
    by (unfold zslice, bytes_ok in *; auto with wt).
  exact (Forall_lookup_1 _ _ _ _ Hs E).
Qed.

Lemma with_peek_safe {A} (Q : A -> Prop) e k :
  (forall b, is_u8 b -> parser_safe Q (k b)) -> parser_safe Q (with_peek e k).
Proof.
  intros Hk c Hi. unfold with_peek. destruct (peek_first c) as [b|] eqn:E.
  - apply Hk; [|done]. by eapply peek_first_u8.
  - cbn. split_and!; auto; lia.
Qed.

Lemma with_peek_fails {A} (E : wt_status -> option Z -> Prop) e (k : Z -> parser A) :
  E WT_ERR_TRUNCATED e -> (forall b, is_u8 b -> parser_fails E (k b)) -> parser_fails E (with_peek e k).
Proof.
  intros HE Hk c Hi. unfold with_peek. destruct (peek_first c) as [b|] eqn:Ep; [|done].
  apply Hk; [|done]. by eapply peek_first_u8.
Qed.

Lemma with_peek_consumes {A} e (k : Z -> parser A) :
  (forall b, parser_consumes (k b)) -> parser_consumes (with_peek e k).
Proof. intros Hk c Hi. unfold with_peek. destruct (peek_first c); [by apply Hk|done]. Qed.

Lemma decodes_with_peek {A} e (k : Z -> parser A) b bs a :
  decodes (k b) (b :: bs) a -> decodes (with_peek e k) (b :: bs) a.
Proof.
  intros Hk c tl Hl Hv. unfold with_peek. rewrite (peek_first_live c b (bs ++ tl)) by done. by apply (Hk c tl).
Qed.

Lemma read_first_consumes : parser_consumes read_first.
Proof.
  intros c Hi. unfold read_first, wt_cursor_u8, take_load, wt_cursor_failed.
  pose proof (cursor_take_safe 1 c Hi ltac:(lia)) as Hs. destruct (wt_cursor_take 1 c) as [[bs|] c'] eqn:E.
  - destruct Hs as (_ & _ & _ & _ & _ & _ & ? & ->). cbn. lia.
  - unfold wt_cursor_take in E. destruct (cur_failed c) eqn:Hf; [injection E as <-; by rewrite Hf|].
    destruct (u64 (cur_len c - cur_offset c) <? 1) eqn:Hlt; [injection E as <-; done|].
    destruct Hi as (Ho & Hl & Hd). unfold cursor_ptr in E. destruct (cur_data c); [done|].
    rewrite Hd in *. assert (cur_offset c = 0) as Hz by lia. rewrite Hz in Hlt. done.
Qed.
