(* ===== verification/Writer.v ===== *)
(** * The two-pass writer: [src/core/writer.c]

    A writer either fills a block of a known capacity or only measures.  Both
    move the same offset, and the sticky overflow flag is the one failure an
    encoder reports.  [appends] is the logic the encoders above are proved in:
    an encoder that appends [bs] either leaves exactly those bytes behind, when
    there is room, or marks the writer. *)

From S2P Require Export Core.

Record wt_writer := mk_writer {
  w_data : list Z;   (** the destination block; empty when measuring *)
  w_cap : Z;
  w_offset : Z;
  w_copy : bool;
  w_overflow : bool }.

Definition WT_WRITER_MEASURE_CAPACITY : Z := 2 ^ 20.

(** [data = None] is a NULL destination. *)
Definition wt_writer_init (data : option (list Z)) (cap : Z) : wt_writer :=
  match data with
  | Some d => mk_writer d cap 0 true false
  | None => mk_writer [] 0 0 false (negb (cap =? 0))
  end.

Definition wt_writer_measure : wt_writer :=
  mk_writer [] WT_WRITER_MEASURE_CAPACITY 0 false false.

Definition wt_writer_ok (w : wt_writer) : bool := negb (w_overflow w).
Definition wt_writer_is_measuring (w : wt_writer) : bool := negb (w_copy w).

Definition set_overflow (w : wt_writer) : wt_writer :=
  mk_writer (w_data w) (w_cap w) (w_offset w) (w_copy w) true.

Definition wt_writer_put (bs : list Z) (w : wt_writer) : wt_writer :=
  if w_overflow w then w
  else if u64 (w_cap w - w_offset w) <? zlen bs then set_overflow w
  else mk_writer (if w_copy w then write_at (w_data w) (w_offset w) bs else w_data w)
                 (w_cap w) (u64 (w_offset w + zlen bs)) (w_copy w) (w_overflow w).

Definition wt_writer_u8 (v : Z) : wt_writer -> wt_writer := wt_writer_put [v].
Definition wt_writer_u16 (v : Z) : wt_writer -> wt_writer := wt_writer_put (wt_store_be16 v).
Definition wt_writer_u24 (v : Z) : wt_writer -> wt_writer := wt_writer_put (wt_store_be24 v).
Definition wt_writer_u32 (v : Z) : wt_writer -> wt_writer := wt_writer_put (wt_store_be32 v).
Definition wt_writer_u64 (v : Z) : wt_writer -> wt_writer := wt_writer_put (wt_store_be64 v).
Definition wt_writer_bytes (bs : list Z) : wt_writer -> wt_writer := wt_writer_put bs.

(** The offset of the reserved region, [None] when there is no storage. *)
Definition wt_writer_reserve (n : Z) (w : wt_writer) : option Z * wt_writer :=
  if w_overflow w then (None, w)
  else if u64 (w_cap w - w_offset w) <? n then (None, set_overflow w)
  else
    let w' := mk_writer (w_data w) (w_cap w) (u64 (w_offset w + n)) (w_copy w) (w_overflow w) in
    if negb (w_copy w) then (None, w') else (Some (w_offset w), w').

Definition wt_writer_patch (offset : Z) (bs : list Z) (w : wt_writer) : wt_status * wt_writer :=
  if w_overflow w then (WT_ERR_LIMIT, w)
  else if negb (w_copy w) then (WT_ERR_LIMIT, w)
  else if (w_offset w <? offset) || (u64 (w_offset w - offset) <? zlen bs)
  then (WT_ERR_INVALID_ARGUMENT, w)
  else (WT_OK, mk_writer (write_at (w_data w) offset bs) (w_cap w) (w_offset w)
                         (w_copy w) (w_overflow w)).

(** Sequencing of writes, in the order of the source's statements. *)
Declare Scope writer_scope.
Notation "w |> f" := (f w) (at level 50, left associativity, only parsing) : writer_scope.
#[global] Open Scope writer_scope.

(** [return wt_writer_ok(w) ? WT_OK : WT_ERR_LIMIT;] *)
Definition writer_status (w : wt_writer) : wt_status * wt_writer :=
  (if wt_writer_ok w then WT_OK else WT_ERR_LIMIT, w).

(** ** The invariant and the abstract view *)

Definition writer_inv (w : wt_writer) : Prop :=
  0 <= w_offset w <= w_cap w /\ w_cap w < 2 ^ 64 /\
  (w_copy w = true -> zlen (w_data w) = w_cap w).

(** The bytes written so far. *)
Definition writer_bytes (w : wt_writer) : list Z := ztake (w_offset w) (w_data w).
Definition writer_room (w : wt_writer) : Z := w_cap w - w_offset w.

Lemma writer_put_inv bs w : writer_inv w -> writer_inv (wt_writer_put bs w).
Proof.
  intros (Ho & Hc & Hd). unfold wt_writer_put. destruct (w_overflow w); [done|].
  no_wrap. destruct (Z.ltb_spec (w_cap w - w_offset w) (zlen bs)).
  - repeat split; cbn; auto; lia.
  - pose proof (zlen_nonneg bs). no_wrap. repeat split; cbn; auto; try lia.
    intros E. specialize (Hd E). rewrite E, zlen_write_at by lia. done.
Qed.

Lemma writer_put_overflow bs w : w_overflow w = true -> wt_writer_put bs w = w.
Proof. intros H. unfold wt_writer_put. by rewrite H. Qed.

Lemma writer_put_room bs w :
  writer_inv w -> w_overflow w = false ->
  if zlen bs <=? writer_room w
  then w_overflow (wt_writer_put bs w) = false /\
       w_offset (wt_writer_put bs w) = w_offset w + zlen bs /\
       w_cap (wt_writer_put bs w) = w_cap w /\
       (w_copy w = true -> writer_bytes (wt_writer_put bs w) = writer_bytes w ++ bs)
  else wt_writer_put bs w = set_overflow w.
Proof.
  intros (Ho & Hc & Hd) Hov. unfold writer_room, wt_writer_put. rewrite Hov. no_wrap.
  pose proof (zlen_nonneg bs).
  destruct (Z.leb_spec (zlen bs) (w_cap w - w_offset w)); ztest; [|done].
  no_wrap. split_and!; cbn; try done. intros E. unfold writer_bytes; cbn. rewrite E.
  specialize (Hd E). by rewrite ztake_write_at by lia.
Qed.

Lemma writer_put_nil w : writer_inv w -> wt_writer_put [] w = w.
Proof.
  intros (Ho & Hc & Hd). unfold wt_writer_put. destruct (w_overflow w) eqn:E; [done|].
  rewrite zlen_nil. no_wrap. ztest. rewrite Z.add_0_r. no_wrap.
  destruct w as [d cap off cp ov]; cbn in *. f_equal; [|done].
  destruct cp; [|done]. unfold write_at. rewrite zlen_nil, Z.add_0_r.
  by rewrite app_nil_l, ztake_zdrop.
Qed.

Lemma writer_put_app a b w :
  writer_inv w -> zlen a + zlen b <= writer_room w ->
  wt_writer_put b (wt_writer_put a w) = wt_writer_put (a ++ b) w.
Proof.
  intros Hi Hr. destruct (w_overflow w) eqn:E; [by rewrite !(writer_put_overflow _ w)|].
  destruct Hi as (Ho & Hc & Hd). unfold writer_room in Hr.
  pose proof (zlen_nonneg a). pose proof (zlen_nonneg b).
  unfold wt_writer_put at 2 3. rewrite E, zlen_app. no_wrap. ztest. no_wrap.
  unfold wt_writer_put; cbn. no_wrap. ztest. no_wrap. f_equal; [|lia].
  destruct (w_copy w); [|done]. specialize (Hd eq_refl).
  apply write_at_app; lia.
Qed.

(** ** The logic of encoders *)

(** [e] appends exactly [bs]: with room it is one put of [bs]; without, the
    writer overflows; an overflowed writer stays so. *)
Definition appends (e : wt_writer -> wt_writer) (bs : list Z) : Prop :=
  forall w, writer_inv w ->
  writer_inv (e w) /\
  (w_overflow w = true -> w_overflow (e w) = true) /\
  (w_overflow w = false ->
   if zlen bs <=? writer_room w then e w = wt_writer_put bs w
   else w_overflow (e w) = true).

Lemma appends_put bs : appends (wt_writer_put bs) bs.
Proof.
  intros w Hi. split_and!; [by apply writer_put_inv| |].
  - intros H. by rewrite writer_put_overflow.
  - intros H. pose proof (writer_put_room bs w Hi H) as Hr.
    destruct (zlen bs <=? writer_room w); [done|]. by rewrite Hr.
Qed.

Lemma appends_id : appends (fun w => w) [].
Proof.
  intros w Hi. split_and!; [done|done|]. intros _. destruct Hi as (? & ? & ?).
  unfold writer_room. rewrite zlen_nil. ztest. rewrite writer_put_nil; [done|by repeat split; try lia].
Qed.

Lemma appends_seq e1 e2 bs1 bs2 :
  appends e1 bs1 -> appends e2 bs2 -> appends (fun w => e2 (e1 w)) (bs1 ++ bs2).
Proof.
  intros H1 H2 w Hi. destruct (H1 w Hi) as (Hi1 & Ho1 & Hr1).
  destruct (H2 (e1 w) Hi1) as (Hi2 & Ho2 & Hr2). split_and!; [done|auto|].
  intros Hov. specialize (Hr1 Hov). pose proof (zlen_nonneg bs1). pose proof (zlen_nonneg bs2).
  rewrite zlen_app.
  destruct (Z.leb_spec (zlen bs1) (writer_room w)) as [Hle|Hgt].
  - pose proof (writer_put_room bs1 w Hi Hov) as Hp. rewrite (proj2 (Z.leb_le _ _)) in Hp by lia.
    destruct Hp as (Hpo & Hpf & Hpc & _). rewrite <- Hr1 in Hpo, Hpf, Hpc.
    specialize (Hr2 Hpo). unfold writer_room in *. rewrite Hpf, Hpc in Hr2.
    destruct (Z.leb_spec (zlen bs2) (w_cap w - (w_offset w + zlen bs1))); ztest; [|done].
    rewrite Hr2, Hr1. apply writer_put_app; [done|]. unfold writer_room. lia.
  - ztest. auto.
Qed.

Lemma appends_ext e e' bs : (forall w, e w = e' w) -> appends e bs -> appends e' bs.
Proof. intros He H w Hi. rewrite <- He. by apply H. Qed.

(** The state an encoder leaves when its bytes fit. *)
Lemma appends_run e bs w :
  appends e bs -> writer_inv w -> w_overflow w = false -> zlen bs <= writer_room w ->
  writer_inv (e w) /\ w_overflow (e w) = false /\ w_offset (e w) = w_offset w + zlen bs /\
  w_cap (e w) = w_cap w /\ w_copy (e w) = w_copy w /\
  (w_copy w = true -> writer_bytes (e w) = writer_bytes w ++ bs).
Proof.
  intros He Hi Hov Hle. destruct (He w Hi) as (Hie & _ & Hr). specialize (Hr Hov).
  pose proof (writer_put_room bs w Hi Hov) as Hp.
  rewrite (proj2 (Z.leb_le _ _)) in Hr, Hp by lia.
  assert (Hc : w_copy (wt_writer_put bs w) = w_copy w) by (unfold wt_writer_put; by repeat case_match).
  rewrite <- Hr in Hp, Hc. destruct Hp as (? & ? & ? & ?). by split_and!.
Qed.

(** An encoder with a status: success exactly when the bytes fit. *)
Definition encodes (e : wt_writer -> wt_status * wt_writer) (bs : list Z) : Prop :=
  forall w, writer_inv w -> w_overflow w = false ->
  if zlen bs <=? writer_room w then e w = (WT_OK, wt_writer_put bs w)
  else (e w).1 = WT_ERR_LIMIT /\ w_overflow (e w).2 = true.

Lemma encodes_status e bs : appends e bs -> encodes (fun w => writer_status (e w)) bs.
Proof.
  intros H w Hi Hov. destruct (H w Hi) as (_ & _ & Hr). specialize (Hr Hov).
  pose proof (writer_put_room bs w Hi Hov) as Hp.
  destruct (zlen bs <=? writer_room w).
  - destruct Hp as (Hp & _). unfold writer_status, wt_writer_ok. by rewrite Hr, Hp.
  - unfold writer_status, wt_writer_ok. cbn. by rewrite Hr.
Qed.

Lemma encodes_ext e e' bs : (forall w, e w = e' w) -> encodes e' bs -> encodes e bs.
Proof. intros He H w Hi Ho. rewrite He. by apply H. Qed.

(** What a caller finds in the block after a successful encode. *)
Lemma encodes_bytes e bs w :
  encodes e bs -> writer_inv w -> w_overflow w = false -> w_copy w = true ->
  zlen bs <= writer_room w ->
  (e w).1 = WT_OK /\ writer_bytes (e w).2 = writer_bytes w ++ bs.
Proof.
  intros He Hi Hov Hc Hr. specialize (He w Hi Hov). rewrite (proj2 (Z.leb_le _ _)) in He by done.
  rewrite He. split; [done|]. pose proof (writer_put_room bs w Hi Hov) as Hp.
  rewrite (proj2 (Z.leb_le _ _)) in Hp by done. by apply Hp.
Qed.

Lemma writer_init_inv d : zlen d < 2 ^ 64 -> writer_inv (wt_writer_init (Some d) (zlen d)).
Proof. intros. pose proof (zlen_nonneg d). repeat split; cbn; auto; lia. Qed.

#[export] Hint Resolve writer_put_inv writer_init_inv : wt.

(** ** Theorems *)

Definition writer_puts (bss : list (list Z)) (w : wt_writer) : wt_writer :=
  fold_left (fun w bs => wt_writer_put bs w) bss w.

Lemma appends_puts bss : appends (writer_puts bss) (concat bss).
Proof.
  induction bss as [|bs bss IH]; [apply appends_id|].
  apply (appends_ext (fun w => writer_puts bss (wt_writer_put bs w))); [done|].
  apply appends_seq; [apply appends_put|done].
Qed.

(** Measuring a sequence of writes and then performing it into a buffer of exactly the measured size does not overflow, fills the buffer and leaves there the concatenation of what was written. *)
Lemma measure_then_write bss d :
  w_overflow (writer_puts bss wt_writer_measure) = false ->
  zlen d = w_offset (writer_puts bss wt_writer_measure) ->
  let w := writer_puts bss (wt_writer_init (Some d) (zlen d)) in
  w_overflow w = false /\ w_offset w = zlen (concat bss) /\ w_data w = concat bss.
Proof.
  intros Hov Hlen w.
  assert (Hm : writer_inv wt_writer_measure)
    by (repeat split; unfold WT_WRITER_MEASURE_CAPACITY; cbn; try done; lia).
  assert (Hfit : zlen (concat bss) <= 2 ^ 20).
  { destruct (appends_puts bss _ Hm) as (_ & _ & Hr). specialize (Hr eq_refl).
    destruct (Z.leb_spec (zlen (concat bss)) (writer_room wt_writer_measure)); [|congruence].
    by unfold writer_room in *. }
  destruct (appends_run _ _ _ (appends_puts bss) Hm eq_refl Hfit) as (_ & _ & Hoff & _).
  rewrite Hoff in Hlen. cbn [w_offset wt_writer_measure] in Hlen.
  assert (Hi : writer_inv (wt_writer_init (Some d) (zlen d))) by (apply writer_init_inv; lia).
  assert (Hroom : zlen (concat bss) <= writer_room (wt_writer_init (Some d) (zlen d)))
    by (unfold writer_room; cbn [w_cap w_offset wt_writer_init]; lia).
  destruct (appends_run _ _ _ (appends_puts bss) Hi eq_refl Hroom)
    as ((_ & _ & Hd) & Hov' & Hoff' & Hcap & Hcopy & Hb). 
  fold w in Hd, Hov', Hoff', Hcap, Hcopy, Hb. split_and!; [done|done|]. specialize (Hb eq_refl). specialize (Hd Hcopy).
  unfold writer_bytes in Hb. cbn [wt_writer_init w_offset w_data w_cap] in *. rewrite ztake_0 in Hb.
  rewrite ztake_all in Hb by lia. done.
Qed.

Lemma measure_then_write_witness :
  let w := writer_puts [[1; 2]; [3]] (wt_writer_init (Some [0; 0; 0]) 3) in
  w_overflow w = false /\ w_offset w = 3 /\ w_data w = [1; 2; 3].
Proof. exact (measure_then_write [[1; 2]; [3]] [0; 0; 0] eq_refl eq_refl). Defined.

(** Run an encoder: one step per write, leaves by the hints. *)
Ltac appends_step :=
  lazymatch goal with
  | |- appends (fun w => w) _ => apply appends_id
  | |- appends (fun w => ?f (@?g w)) _ => eapply (appends_seq g f)
  end.
Lemma appends_bytes bs : appends (wt_writer_bytes bs) bs.
Proof. apply appends_put. Qed.
Lemma appends_u8 v : appends (wt_writer_u8 v) [v].
Proof. apply appends_put. Qed.

Lemma appends_eq e bs bs' : appends e bs -> bs = bs' -> appends e bs'.
Proof. by intros ? <-. Qed.

(** The leaves a writer of this file leaves behind. *)
Ltac appends_leaf :=
  lazymatch goal with
  | |- appends (wt_writer_bytes _) _ => apply appends_bytes
  | |- appends (wt_writer_u8 _) _ => apply appends_u8
  | |- appends (wt_writer_put _) _ => apply appends_put
  | |- _ => eassumption
  end.
