(* ===== verification/Varint.v ===== *)
(** * QUIC variable-length integers: [src/quic/varint.c] *)

From S2P Require Export Cursor Writer.

(** ** The code *)

Definition WT_QUIC_VARINT_MAX : Z := 2 ^ 62 - 1.

Definition wt_quic_varint_size (value : Z) : Z :=
  if value <? 64 then 1
  else if value <? 16384 then 2
  else if value <? 1073741824 then 4
  else if value <=? WT_QUIC_VARINT_MAX then 8
  else 0.

(** The size and the bytes stored in [out]; size 0 is the refusal. *)
Definition wt_quic_varint_encode (value capacity : Z) : Z * list Z :=
  let size := wt_quic_varint_size value in
  if (size =? 0) || (capacity <? size) then (0, [])
  else if size =? 1 then (size, [u8 (Z.land value 0x3F)])
  else if size =? 2 then (size, wt_store_be16 (u16 (Z.lor value 0x4000)))
  else if size =? 4 then (size, wt_store_be32 (u32 (Z.lor value 0x80000000)))
  else (size, wt_store_be64 (Z.lor value 0xC000000000000000)).

Definition wt_quic_writer_varint (value : Z) (w : wt_writer) : Z * wt_writer :=
  let '(size, bytes) := wt_quic_varint_encode value 8 in
  if size =? 0 then (0, set_overflow w) else (size, wt_writer_bytes bytes w).

(** [(void)wt_quic_writer_varint(w, v)]. *)
Definition writer_varint (value : Z) (w : wt_writer) : wt_writer :=
  (wt_quic_writer_varint value w).2.

Definition varint_accumulate (rest : list Z) (value : Z) : Z :=
  fold_left (fun v b => Z.lor (u64 (Z.shiftl v 8)) b) rest value.

Definition wt_quic_varint_decode_sized : parser (Z * Z) := fun c =>
  if wt_cursor_remaining c =? 0 then (Fail WT_ERR_TRUNCATED None, c)
  else
    let '(first, c1) := wt_cursor_u8 c in
    let size := Z.shiftl 1 (Z.shiftr first 6) in
    let value := Z.land first 0x3F in
    if 1 <? size then
      match wt_cursor_bytes (size - 1) c1 with
      | (None, c2) => (Fail WT_ERR_TRUNCATED None, c2)
      | (Some rest, c2) => (Ok (varint_accumulate rest value, size), c2)
      end
    else (Ok (value, size), c1).

Definition wt_quic_varint_decode : parser Z :=
  v <- wt_quic_varint_decode_sized;; pret v.1.

Definition wt_quic_varint_is_minimal (value size : Z) : bool :=
  wt_quic_varint_size value =? size.

(** ** The wire format (RFC 9000 section 16) *)

(** [v] in [2^k] bytes: the two-bit prefix [k], then the value, big-endian. *)
Definition varint_bits (k : nat) : Z := 8 * 2 ^ Z.of_nat k - 2.
Definition varint_wire (k : nat) (v : Z) : list Z :=
  be_bytes (2 ^ k) (Z.of_nat k * 2 ^ varint_bits k + v).

Definition varint_class (v : Z) : nat :=
  if v <? 64 then 0 else if v <? 16384 then 1 else if v <? 1073741824 then 2 else 3.

Definition varint_ok (v : Z) : Prop := 0 <= v <= WT_QUIC_VARINT_MAX.

(** The shortest form, which is what the encoder writes. *)
Definition varint_bytes (v : Z) : list Z := varint_wire (varint_class v) v.

(** ** Encoding *)

Lemma varint_class_fits v : varint_ok v -> 0 <= v < 2 ^ varint_bits (varint_class v).
Proof.
  unfold varint_ok, WT_QUIC_VARINT_MAX, varint_class. intros.
  destruct (Z.ltb_spec v 64); [change (2 ^ varint_bits 0) with 64; lia|].
  destruct (Z.ltb_spec v 16384); [change (2 ^ varint_bits 1) with 16384; lia|].
  destruct (Z.ltb_spec v 1073741824).
  - change (2 ^ varint_bits 2) with 1073741824. lia.
  - change (2 ^ varint_bits 3) with (2 ^ 62). lia.
Qed.

Lemma varint_encode_spec v capacity :
  varint_ok v -> wt_quic_varint_size v <= capacity ->
  wt_quic_varint_encode v capacity = (zlen (varint_bytes v), varint_bytes v).
Proof.
  unfold varint_ok, WT_QUIC_VARINT_MAX. intros Hv Hc.
  unfold wt_quic_varint_encode, wt_quic_varint_size, varint_bytes, varint_class,
    WT_QUIC_VARINT_MAX in *.
  destruct (Z.ltb_spec v 64); [|destruct (Z.ltb_spec v 16384); [|
    destruct (Z.ltb_spec v 1073741824); [|rewrite (proj2 (Z.leb_le _ _)) in * by lia]]];
    rewrite (proj2 (Z.ltb_ge _ _)) by lia; cbn -[Z.lor Z.land u16 u32 wt_store_be16
      wt_store_be32 wt_store_be64 be_bytes];
    unfold varint_wire; rewrite zlen_be_bytes; f_equal.
  - change 0x3F with (2 ^ 6 - 1). rewrite land_mask by lia.
    change ([u8 (v mod 2 ^ 6)] = [v mod 256]). unfold u8. f_equal. zdm.
  - rewrite Z.lor_comm, (lor_disjoint _ _ 14) by (done || lia).
    rewrite store_be16_spec. unfold u16. rewrite Z.mod_small by lia. done.
  - rewrite Z.lor_comm, (lor_disjoint _ _ 30) by (done || lia).
    rewrite store_be32_spec. unfold u32. rewrite Z.mod_small by lia. done.
  - rewrite Z.lor_comm, (lor_disjoint _ _ 62) by (done || lia).
    by rewrite store_be64_spec.
Qed.

Lemma varint_size_le v : wt_quic_varint_size v <= 8.
Proof. unfold wt_quic_varint_size. repeat case_match; lia. Qed.

Lemma varint_size_bytes v : varint_ok v -> wt_quic_varint_size v = zlen (varint_bytes v).
Proof.
  intros Hv. pose proof (varint_encode_spec v 8 Hv (varint_size_le v)) as He.
  unfold wt_quic_varint_encode in He. cbn zeta in He.
  destruct ((wt_quic_varint_size v =? 0) || _) eqn:E.
  - exfalso. unfold varint_ok in Hv. unfold wt_quic_varint_size in E.
    repeat case_match; reflect_bools; cbn in E; try discriminate; lia.
  - repeat case_match; by injection He.
Qed.

Lemma appends_varint v : varint_ok v -> appends (writer_varint v) (varint_bytes v).
Proof.
  intros Hv. eapply appends_ext; [|apply appends_put]. intros w.
  unfold writer_varint, wt_quic_writer_varint.
  rewrite varint_encode_spec by (done || apply varint_size_le).
  rewrite <- varint_size_bytes by done.
  destruct (Z.eqb_spec (wt_quic_varint_size v) 0) as [E|]; [|done].
  exfalso. unfold varint_ok in Hv. unfold wt_quic_varint_size in E. repeat case_match; reflect_bools; lia.
Qed.

(** An unencodable value overflows the writer. *)
Lemma writer_varint_unencodable v w :
  WT_QUIC_VARINT_MAX < v -> writer_varint v w = set_overflow w.
Proof.
  intros. unfold writer_varint, wt_quic_writer_varint, wt_quic_varint_encode.
  replace (wt_quic_varint_size v) with 0; [done|].
  unfold wt_quic_varint_size, WT_QUIC_VARINT_MAX in *. by ztest.
Qed.

(** ** Decoding *)

Lemma varint_accumulate_spec rest acc :
  bytes_ok rest -> 0 <= acc -> acc * 256 ^ zlen rest + be_value rest < 2 ^ 64 ->
  varint_accumulate rest acc = acc * 256 ^ zlen rest + be_value rest.
Proof.
  intros Hok. revert acc. induction Hok as [|b rest Hb Hok IH]; intros acc Ha Hlt.
  - change (acc = acc * 1 + 0). lia.
  - unfold varint_accumulate in *. cbn [fold_left].
    rewrite be_value_cons, zlen_cons in *. pose proof (zlen_nonneg rest).
    pose proof (be_value_bound rest Hok). rewrite Z.pow_add_r, Z.pow_1_r in * by lia.
    unfold is_u8 in Hb. rewrite Z.shiftl_mul_pow2 by lia.
    rewrite u64_small by (unfold is_u64; nia).
    rewrite (lor_disjoint _ _ 8) by (try lia; apply Z_mod_mult).
    rewrite IH; nia.
Qed.

Lemma varint_bits_max k : (k <= 3)%nat -> 2 ^ varint_bits k <= 2 ^ 62.
Proof. intros. do 4 (destruct k as [|k]; [by vm_compute|]). lia. Qed.

(** The first byte and the rest of a wire form. *)
Lemma varint_wire_cons k v :
  (k <= 3)%nat -> 0 <= v < 2 ^ varint_bits k ->
  let n := (2 ^ k - 1)%nat in
  varint_wire k v = (Z.of_nat k * 64 + v / 256 ^ Z.of_nat n) :: be_bytes n v /\
  0 <= v / 256 ^ Z.of_nat n < 64.
Proof.
  intros Hk Hv n. unfold varint_wire.
  assert (Hbits : 2 ^ varint_bits k = 64 * 256 ^ Z.of_nat n)
    by (do 4 (destruct k as [|k]; [done|]); lia).
  replace (2 ^ k)%nat with (S n) by (subst n; do 4 (destruct k as [|k]; [done|]); lia).
  pose proof (Z.pow_pos_nonneg 256 (Z.of_nat n) ltac:(lia) ltac:(lia)) as Hp.
  assert (Hq : 0 <= v / 256 ^ Z.of_nat n < 64).
  { split; [apply Z.div_pos; lia|]. apply Z.div_lt_upper_bound; lia. }
  split; [|done]. rewrite be_bytes_cons, Hbits.
  replace (Z.of_nat k * (64 * 256 ^ Z.of_nat n) + v)
    with (v + Z.of_nat k * 64 * 256 ^ Z.of_nat n) by ring.
  f_equal.
  - rewrite Z.div_add by lia. rewrite Z.mod_small by lia. lia.
  - rewrite <- (be_bytes_mod n (v + _)), Z_mod_plus_full. apply be_bytes_mod.
Qed.

Lemma first_byte_fields k q :
  (k <= 3)%nat -> 0 <= q < 64 ->
  Z.shiftl 1 (Z.shiftr (Z.of_nat k * 64 + q) 6) = 2 ^ Z.of_nat k /\
  Z.land (Z.of_nat k * 64 + q) 0x3F = q.
Proof.
  intros. change 0x3F with (2 ^ 6 - 1). rewrite land_mask, Z.shiftr_div_pow2 by lia.
  rewrite Z.shiftl_1_l. split; [f_equal|]; zdm.
Qed.

Lemma decodes_varint_sized k v :
  (k <= 3)%nat -> 0 <= v < 2 ^ varint_bits k ->
  decodes wt_quic_varint_decode_sized (varint_wire k v) (v, 2 ^ Z.of_nat k).
Proof.
  intros Hk Hv c tl Hl Hview.
  destruct (varint_wire_cons k v Hk Hv) as [Hw Hq]. set (n := (2 ^ k - 1)%nat) in *.
  set (q := v / 256 ^ Z.of_nat n) in *.
  assert (Hlen : zlen (varint_wire k v) = 1 + Z.of_nat n) by (rewrite Hw, zlen_cons, zlen_be_bytes; done).
  assert (Hpow : 2 ^ Z.of_nat k = 1 + Z.of_nat n) by (subst n; do 4 (destruct k as [|k]; [done|]); lia).
  destruct (first_byte_fields k q Hk Hq) as [Hsize Hval].
  rewrite Hlen. rewrite Hw in Hview. cbn [app] in Hview.
  unfold wt_quic_varint_decode_sized.
  rewrite cursor_remaining_view by apply Hl. rewrite Hview, zlen_cons.
  rewrite zlen_app, zlen_be_bytes. pose proof (zlen_nonneg tl). ztest.
  rewrite (cursor_u8_live c _ _ Hl Hview). cbn zeta. rewrite Hsize, Hval, Hpow.
  assert (Hl1 : cursor_live (cursor_advance c 1)).
  { apply cursor_advance_live; [done|]. rewrite Hview, zlen_cons, zlen_app, zlen_be_bytes. lia. }
  assert (Hv1 : cursor_view (cursor_advance c 1) = be_bytes n v ++ tl).
  { apply (cursor_advance_view c 1 [Z.of_nat k * 64 + q]); [apply Hl|exact Hview|done]. }
  assert (Hvq : v = q * 256 ^ Z.of_nat n + v mod 256 ^ Z.of_nat n).
  { subst q. pose proof (Z.pow_pos_nonneg 256 (Z.of_nat n) ltac:(lia) ltac:(lia)).
    rewrite Z.mul_comm. apply Z.div_mod. lia. }
  destruct (Z.ltb_spec 1 (1 + Z.of_nat n)) as [Hn|Hn].
  - unfold wt_cursor_bytes.
    rewrite (cursor_take_live _ _ (be_bytes n v) tl Hl1 Hv1) by (rewrite zlen_be_bytes; lia).
    rewrite cursor_advance_add. replace (1 + (1 + Z.of_nat n - 1)) with (1 + Z.of_nat n) by lia.
    do 3 f_equal. pose proof (Z.mod_pos_bound v (256 ^ Z.of_nat n)
      (Z.pow_pos_nonneg 256 (Z.of_nat n) ltac:(lia) ltac:(lia))).
    rewrite <- (be_bytes_mod n v).
    rewrite varint_accumulate_spec; rewrite ?zlen_be_bytes, ?be_value_bytes; auto with wt; try lia.
    rewrite <- Hvq. pose proof (varint_bits_max k Hk). lia.
  - replace n with 0%nat in * by lia. change (256 ^ Z.of_nat 0) with 1 in *.
    rewrite Z.mod_1_r in Hvq. replace q with v by lia. done.
Qed.

Lemma varint_class_le v : (varint_class v <= 3)%nat.
Proof. unfold varint_class. repeat case_match; lia. Qed.

Lemma decodes_varint v : varint_ok v -> decodes wt_quic_varint_decode (varint_bytes v) v.
Proof.
  intros Hv. unfold wt_quic_varint_decode. rewrite <- (app_nil_r (varint_bytes v)).
  apply (decodes_bind _ _ _ _ (v, 2 ^ Z.of_nat (varint_class v))); [|cbn; apply decodes_ret].
  apply decodes_varint_sized; [apply varint_class_le|by apply varint_class_fits].
Qed.

Lemma decodes_varint_min v :
  varint_ok v ->
  decodes wt_quic_varint_decode_sized (varint_bytes v) (v, wt_quic_varint_size v).
Proof.
  intros Hv. rewrite varint_size_bytes by done. unfold varint_bytes at 2, varint_wire.
  rewrite zlen_be_bytes, Nat2Z.inj_pow.
  apply decodes_varint_sized; [apply varint_class_le|by apply varint_class_fits].
Qed.

(** ** Decoding arbitrary bytes *)

Lemma varint_wire_of_parts k q rest :
  (k <= 3)%nat -> 0 <= q < 64 -> bytes_ok rest -> length rest = (2 ^ k - 1)%nat ->
  let v := q * 256 ^ zlen rest + be_value rest in
  0 <= v < 2 ^ varint_bits k /\ varint_wire k v = (Z.of_nat k * 64 + q) :: rest.
Proof.
  intros Hk Hq Hok Hlen v. pose proof (be_value_bound rest Hok) as Hb.
  assert (Hz : zlen rest = Z.of_nat (2 ^ k - 1)) by (unfold zlen; by rewrite Hlen).
  assert (Hbits : 2 ^ varint_bits k = 64 * 256 ^ zlen rest)
    by (rewrite Hz; do 4 (destruct k as [|k]; [done|]); lia).
  assert (Hp : 0 < 256 ^ zlen rest) by lia.
  assert (Hv : 0 <= v < 2 ^ varint_bits k) by (rewrite Hbits; subst v; nia).
  split; [done|]. destruct (varint_wire_cons k v Hk Hv) as [Hw _]. rewrite Hw, <- Hz.
  f_equal.
  - f_equal. subst v. rewrite Z.div_add_l by lia. rewrite Z.div_small by lia. lia.
  - rewrite <- be_bytes_mod, <- Hz. subst v.
    rewrite Z.add_comm, Z_mod_plus_full, Z.mod_small by lia.
    rewrite <- Hlen. by apply be_bytes_value.
Qed.

(** Every successful decode read one of the four wire forms of its value. *)
Lemma varint_decode_sized_inv c v size c' :
  cursor_inv c -> wt_quic_varint_decode_sized c = (Ok (v, size), c') ->
  exists k, (k <= 3)%nat /\ 0 <= v < 2 ^ varint_bits k /\ size = 2 ^ Z.of_nat k /\
    cursor_view c = varint_wire k v ++ cursor_view c' /\
    cursor_inv c' /\ cur_failed c' = false /\ cur_offset c' = cur_offset c + size.
Proof.
  intros Hi. unfold wt_quic_varint_decode_sized.
  destruct (wt_cursor_remaining c =? 0) eqn:Er; [discriminate|]. reflect_bools.
  unfold wt_cursor_u8, take_load.
  pose proof (cursor_take_safe 1 c Hi ltac:(lia)) as Hs. pose proof (cursor_view_len c Hi) as Hlen.
  unfold wt_cursor_take in *. unfold wt_cursor_remaining in Er.
  destruct (cur_failed c) eqn:Hf; [done|].
  assert (Hrem : u64 (cur_len c - cur_offset c) = cur_len c - cur_offset c)
    by (destruct Hi as (? & ? & _); by no_wrap).
  rewrite Hrem in *. destruct Hi as (Ho & Hl & Hd).
  rewrite (proj2 (Z.ltb_ge _ _)) in * by lia.
  set (c1 := mk_cursor _ _ _ _) in *. destruct Hs as (Hi1 & Hd1 & _ & Hs).
  unfold cursor_ptr in *. destruct (cur_data c) as [d|]; [|lia].
  destruct Hs as (Hz & Hbok & Hv & Hoff & Hf1).
  destruct (zslice (cur_offset c) 1 d) as [|b [|? ?]]; rewrite ?zlen_nil, ?zlen_cons in Hz;
    [lia| |zlen_facts; lia]. clear Hz.
  apply Forall_cons in Hbok as [Hb _].
  change (byte_at [b] 0) with b.
  set (k := Z.to_nat (b / 64)). set (q := b mod 64). unfold is_u8 in Hb.
  assert (Hk : (k <= 3)%nat) by (subst k; zdm).
  assert (Hq : 0 <= q < 64) by (subst q; zdm).
  assert (Hbk : b = Z.of_nat k * 64 + q) by (subst k q; zdm).
  destruct (first_byte_fields k q Hk Hq) as [Hsize Hval]. rewrite Hbk, Hsize, Hval.
  assert (Hpow : 2 ^ Z.of_nat k = 1 + Z.of_nat (2 ^ k - 1))
    by (do 4 (destruct k as [|k]; [done|]); lia).
  destruct (Z.ltb_spec 1 (2 ^ Z.of_nat k)) as [Hn|Hn].
  - unfold wt_cursor_bytes. 
    pose proof (cursor_take_safe (2 ^ Z.of_nat k - 1) c1 Hi1 ltac:(lia)) as Hs2.
    destruct (wt_cursor_take (2 ^ Z.of_nat k - 1) c1) as [[rest|] c2]; [|discriminate].
    destruct Hs2 as (Hi2 & _ & _ & Hz2 & Hok2 & Hv2 & Hoff2 & Hf2).
    intros [= <- <- <-]. exists k.
    destruct (varint_wire_of_parts k q rest Hk Hq Hok2) as [Hvb Hw].
    { unfold zlen in Hz2. lia. }
    rewrite varint_accumulate_spec; [|done|lia|].
    2: { pose proof (varint_bits_max k Hk). lia. }
    split_and!; try done; try lia. rewrite Hw, Hv, Hv2, Hbk. done.
  - intros [= <- <- <-]. exists k.
    destruct (varint_wire_of_parts k q [] Hk Hq) as [Hvb Hw]; [constructor|cbn; lia|].
    change (256 ^ zlen []) with 1 in *. change (be_value []) with 0 in *.
    rewrite Z.mul_1_r, Z.add_0_r in *. split_and!; try done; try lia.
    rewrite Hw, Hv, Hbk. done.
Qed.

Lemma varint_decode_sized_fail c s e c' :
  cursor_inv c -> wt_quic_varint_decode_sized c = (Fail s e, c') ->
  s = WT_ERR_TRUNCATED /\ e = None /\ cursor_inv c' /\ cur_data c' = cur_data c /\
  cur_len c' = cur_len c /\ cur_offset c <= cur_offset c'.
Proof.
  intros Hi. unfold wt_quic_varint_decode_sized.
  destruct (wt_cursor_remaining c =? 0); [intros [= <- <- <-]; split_and!; auto; lia|].
  unfold wt_cursor_u8, take_load. pose proof (cursor_take_safe 1 c Hi ltac:(lia)) as Hs.
  destruct (wt_cursor_take 1 c) as [p c1]. destruct Hs as (Hi1 & Hd1 & Hl1 & Hs).
  assert (Ho1 : cur_offset c <= cur_offset c1) by (destruct p; [destruct Hs as (_ & _ & _ & ? & _)|]; lia).
  set (first := match p with None => 0 | Some bs => byte_at bs 0 end).
  destruct (Z.ltb_spec 1 (Z.shiftl 1 (Z.shiftr first 6))) as [Hn|Hn]; [|discriminate].
  unfold wt_cursor_bytes.
  pose proof (cursor_take_safe (Z.shiftl 1 (Z.shiftr first 6) - 1) c1 Hi1 ltac:(lia)) as Hs2.
  destruct (wt_cursor_take _ c1) as [[rest|] c2]; [discriminate|].
  destruct Hs2 as (? & ? & ? & ?). intros [= <- <- <-]. split_and!; auto; try congruence; lia.
Qed.

Definition varint_result_ok (r : Z * Z) : Prop := varint_ok r.1 /\ 1 <= r.2 <= 8.

Lemma varint_decode_sized_data c :
  cursor_inv c -> cur_data (wt_quic_varint_decode_sized c).2 = cur_data c /\
                  cur_len (wt_quic_varint_decode_sized c).2 = cur_len c.
Proof.
  intros Hi. unfold wt_quic_varint_decode_sized, wt_cursor_u8, take_load, wt_cursor_bytes, wt_cursor_take.
  repeat case_match; cbn; simplify_eq; cbn; auto.
Qed.

Lemma varint_decode_sized_safe : parser_safe varint_result_ok wt_quic_varint_decode_sized.
Proof.
  intros c Hi. destruct (varint_decode_sized_data c Hi) as [Hd Hl].
  destruct (wt_quic_varint_decode_sized c) as [[[v size]|s e] c'] eqn:E; cbn in *.
  - destruct (varint_decode_sized_inv _ _ _ _ Hi E) as (k & Hk & Hv & -> & _ & Hi' & _ & Ho).
    pose proof (varint_bits_max k Hk). unfold varint_result_ok, varint_ok, WT_QUIC_VARINT_MAX; cbn.
    assert (1 <= 2 ^ Z.of_nat k <= 8) by (do 4 (destruct k as [|k]; [done|]); lia).
    split_and!; auto; lia.
  - destruct (varint_decode_sized_fail _ _ _ _ Hi E) as (_ & _ & ? & _ & _ & ?). by split_and!.
Qed.

Lemma varint_decode_sized_consumes : parser_consumes wt_quic_varint_decode_sized.
Proof.
  intros c Hi. destruct (wt_quic_varint_decode_sized c) as [[[v size]|s e] c'] eqn:E; cbn; [|done].
  destruct (varint_decode_sized_inv _ _ _ _ Hi E) as (k & Hk & _ & -> & _ & _ & _ & Ho).
  pose proof (Z.pow_pos_nonneg 2 (Z.of_nat k)). lia.
Qed.

Lemma varint_decode_safe : parser_safe varint_ok wt_quic_varint_decode.
Proof.
  eapply parser_safe_bind; [apply varint_decode_sized_safe|]. intros r [Hr _]. by apply parser_safe_ret.
Qed.

Lemma varint_decode_consumes : parser_consumes wt_quic_varint_decode.
Proof.
  eapply parser_consumes_bind; [apply varint_decode_sized_safe|apply varint_decode_sized_consumes|].
  intros r [Hr _]. by apply (parser_safe_ret varint_ok).
Qed.

#[export] Hint Resolve varint_decode_safe varint_decode_consumes varint_decode_sized_safe
  varint_decode_sized_consumes decodes_varint decodes_varint_min : wt.

Lemma varint_bytes_pos v : varint_ok v -> 1 <= zlen (varint_bytes v).
Proof.
  intros Hv. rewrite <- varint_size_bytes by done. unfold varint_ok in Hv. unfold wt_quic_varint_size.
  repeat case_match; reflect_bools; lia.
Qed.

Lemma varint_bytes_ok v : bytes_ok (varint_bytes v).
Proof. unfold varint_bytes, varint_wire. auto with wt. Qed.

(** The leaves of an encoder built from varints and byte runs. *)
Ltac varint_leaf :=
  lazymatch goal with
  | |- appends (writer_varint _) _ => apply appends_varint; try done; try lia
  | |- _ => appends_leaf
  end.
Ltac appends_run_tac :=
  eapply appends_eq;
  [repeat appends_step; varint_leaf|rewrite ?app_nil_l, <- ?app_assoc; try reflexivity].

(** ** Theorems *)

(** Every value below 2^62 is encoded in its minimal size, and decoding those bytes followed by anything returns the value and the size and stops right after them. *)
Lemma varint_roundtrip v tl :
  varint_ok v -> bytes_ok tl -> zlen tl < 2 ^ 63 ->
  let '(size, bs) := wt_quic_varint_encode v 8 in
  size = wt_quic_varint_size v /\ zlen bs = size /\
  wt_quic_varint_is_minimal v size = true /\
  wt_quic_varint_decode_sized (wt_cursor_init (Some (bs ++ tl)) (zlen (bs ++ tl))) =
    (Ok (v, size), mk_cursor (Some (bs ++ tl)) (zlen (bs ++ tl)) size false).
Proof.
  intros Hv Htl Hlen. rewrite varint_encode_spec by (done || apply varint_size_le).
  pose proof (varint_size_bytes v Hv) as Hs. pose proof (varint_size_le v).
  unfold wt_quic_varint_is_minimal. rewrite Hs, Z.eqb_refl. split_and!; try done.
  rewrite (decodes_varint_min v Hv _ tl), Hs.
  - done.
  - apply cursor_init_live; [rewrite zlen_app; lia|].
    apply Forall_app; split; [apply be_bytes_ok|done].
  - done.
Qed.

Lemma varint_roundtrip_witness :
  let '(size, bs) := wt_quic_varint_encode 15293 8 in
  size = wt_quic_varint_size 15293 /\ zlen bs = size /\
  wt_quic_varint_is_minimal 15293 size = true /\
  wt_quic_varint_decode_sized (wt_cursor_init (Some (bs ++ [7])) (zlen (bs ++ [7]))) =
    (Ok (15293, size), mk_cursor (Some (bs ++ [7])) (zlen (bs ++ [7])) size false).
Proof.
  apply (varint_roundtrip 15293 [7]); [unfold varint_ok, WT_QUIC_VARINT_MAX; lia| |done].
  repeat constructor; lia.
Defined.

(** A variable-length integer decoded from any bytes is below 2^62, its reported size is one of 1, 2, 4, 8 and at least the minimal one, and when it is minimal the bytes consumed are exactly the ones the encoder writes for the value. *)
Lemma varint_decode_canonical c v size c' :
  cursor_inv c -> wt_quic_varint_decode_sized c = (Ok (v, size), c') ->
  varint_ok v /\ size ∈ [1; 2; 4; 8] /\ wt_quic_varint_size v <= size /\
  (wt_quic_varint_is_minimal v size = true ->
   cursor_view c = (wt_quic_varint_encode v 8).2 ++ cursor_view c').
Proof.
  intros Hi E. destruct (varint_decode_sized_inv _ _ _ _ Hi E) as (k & Hk & Hv & -> & Hview & _).
  pose proof (varint_bits_max k Hk).
  assert (Hok : varint_ok v) by (unfold varint_ok, WT_QUIC_VARINT_MAX; lia).
  pose proof (varint_size_bytes v Hok) as Hsz. unfold varint_bytes, varint_wire in Hsz.
  rewrite zlen_be_bytes, Nat2Z.inj_pow in Hsz.
  split_and!; [done| | |].
  - do 4 (destruct k as [|k]; [set_solver|]). lia.
  - rewrite Hsz. apply Z.pow_le_mono_r; [lia|]. apply Nat2Z.inj_le.
    unfold varint_class, varint_bits in *. repeat case_match; reflect_bools; try lia;
      do 4 (destruct k as [|k]; [cbn in *; lia|]); lia.
  - unfold wt_quic_varint_is_minimal. intros Hm. reflect_bools. rewrite Hsz in Hm.
    apply Z.pow_inj_r in Hm; [|lia..]. apply Nat2Z.inj in Hm.
    rewrite varint_encode_spec by (done || apply varint_size_le). cbn [snd].
    unfold varint_bytes. by rewrite Hm.
Qed.

Lemma varint_decode_canonical_witness :
  let c := wt_cursor_init (Some [0x40; 0x25; 9]) 3 in
  varint_ok 37 /\ 2 ∈ [1; 2; 4; 8] /\ wt_quic_varint_size 37 <= 2 /\
  (wt_quic_varint_is_minimal 37 2 = true ->
   cursor_view c = (wt_quic_varint_encode 37 8).2 ++ [9]).
Proof.
  apply (varint_decode_canonical _ 37 2 (mk_cursor (Some [0x40; 0x25; 9]) 3 2 false)).
  - apply (cursor_init_inv [0x40; 0x25; 9]); [done|]. repeat constructor; lia.
  - reflexivity.
Defined.
