(* ===== verification/Locality.v ===== *)
(** * Decoders see only the bytes in front of them

    A decoder of this library is [parser_local] when its answer on a live cursor
    is a function of the unread bytes, a success having read a prefix of them
    that would be read the same way whatever follows.  This is what makes a
    stream that arrives in pieces parse like one that arrives whole. *)

From S2P Require Export Varint.
#[local] Open Scope Z_scope.

Definition parser_local {A} (p : parser A) : Prop :=
  forall c, cursor_live c ->
  match p c with
  | (Ok a, c') => exists bs, cursor_view c = bs ++ cursor_view c' /\
                    c' = cursor_advance c (zlen bs) /\ decodes p bs a
  | (Fail s e, _) => forall c2, cursor_live c2 ->
      cursor_view c2 = cursor_view c \/ s <> WT_ERR_TRUNCATED /\ cursor_view c `prefix_of` cursor_view c2 ->
      (p c2).1 = Fail s e
  end.

(** The rest of a live cursor after a prefix has been read. *)
Lemma cursor_advance_prefix c bs tl :
  cursor_live c -> cursor_view c = bs ++ tl ->
  cursor_live (cursor_advance c (zlen bs)) /\ cursor_view (cursor_advance c (zlen bs)) = tl.
Proof.
  intros Hl Hv. split.
  - apply cursor_advance_live; [done|]. rewrite Hv, zlen_app. pose proof (zlen_nonneg bs). pose proof (zlen_nonneg tl). lia.
  - eapply cursor_advance_view; [apply Hl|exact Hv|done].
Qed.

Lemma parser_local_ok {A} (p : parser A) c a c' :
  parser_local p -> cursor_live c -> p c = (Ok a, c') ->
  exists bs, cursor_view c = bs ++ cursor_view c' /\ c' = cursor_advance c (zlen bs) /\ decodes p bs a /\ cursor_live c'.
Proof.
  intros Hp Hl E. specialize (Hp c Hl). rewrite E in Hp. destruct Hp as (bs & Hv & Hc & Hd).
  exists bs. split_and!; try done. rewrite Hc. by apply (cursor_advance_prefix c bs (cursor_view c')).
Qed.

Lemma parser_local_ret {A} (a : A) : parser_local (pret a).
Proof.
  intros c Hl. cbn. exists []. split_and!; [done|by rewrite zlen_nil, cursor_advance_0|apply decodes_ret].
Qed.

Lemma parser_local_fail {A} s e : parser_local (@pfail A s e).
Proof. by intros c Hl. Qed.

Lemma parser_local_bind {A B} (Q : A -> Prop) (p : parser A) (k : A -> parser B) :
  parser_safe Q p -> parser_local p -> (forall a, Q a -> parser_local (k a)) -> parser_local (pbind p k).
Proof.
  intros HQ Hp Hk c Hl. unfold pbind. pose proof (Hp c Hl) as Hpc.
  destruct (HQ c (proj1 Hl)) as (_ & _ & _ & _ & HQa). destruct (p c) as [[a|s e] c1] eqn:E; cbn in HQa.
  - destruct (parser_local_ok p c a c1 Hp Hl E) as (bs1 & Hv1 & Hc1 & Hd1 & Hl1).
    pose proof (Hk a HQa c1 Hl1) as Hkc. destruct (k a c1) as [[b|s e] c2] eqn:E2.
    + destruct Hkc as (bs2 & Hv2 & Hc2 & Hd2). exists (bs1 ++ bs2). split_and!.
      * by rewrite <- app_assoc, <- Hv2.
      * by rewrite Hc2, Hc1, cursor_advance_add, zlen_app.
      * by eapply decodes_bind.
    + intros c3 Hl3 Hv3. rewrite Hv1 in Hv3.
      assert (exists v, cursor_view c3 = bs1 ++ v /\
                (v = cursor_view c1 \/ s <> WT_ERR_TRUNCATED /\ cursor_view c1 `prefix_of` v)) as (v & Hv & Hor).
      { destruct Hv3 as [Hv3|[Hs [tl Htl]]]; [by exists (cursor_view c1); auto|].
        exists (cursor_view c1 ++ tl). rewrite Htl, <- app_assoc. split; [done|]. right. split; [done|by eexists]. }
      rewrite (Hd1 c3 _ Hl3 Hv). destruct (cursor_advance_prefix c3 bs1 _ Hl3 Hv) as [Hl3' Hv3'].
      apply Hkc; [done|]. by rewrite Hv3'.
  - intros c2 Hl2 Hv2. specialize (Hpc c2 Hl2 Hv2). destruct (p c2) as [[] ?]; cbn in *; congruence.
Qed.

Lemma parser_local_failing_as {A} s e (p : parser A) :
  (forall c, cursor_live c -> match (p c).1 with Fail s' _ => s' = s | Ok _ => True end) ->
  parser_local p -> parser_local (failing_as s e p).
Proof.
  intros Hs Hp c Hl. specialize (Hp c Hl). specialize (Hs c Hl). unfold failing_as.
  destruct (p c) as [[a|s' e'] c']; cbn in Hs.
  - destruct Hp as (bs & ? & ? & ?). exists bs. split_and!; try done. by apply decodes_failing_as.
  - subst s'. intros c2 Hl2 Hv2. specialize (Hp c2 Hl2 Hv2). destruct (p c2) as [[] ?]; cbn in *; congruence.
Qed.

(** A take from a live cursor, decided by how much is left. *)
Lemma cursor_take_cases n c :
  cursor_live c -> 0 <= n ->
  if n <=? zlen (cursor_view c)
  then exists bs, zlen bs = n /\ cursor_view c = bs ++ cursor_view (cursor_advance c n) /\
         wt_cursor_take n c = (Some bs, cursor_advance c n)
  else (wt_cursor_take n c).1 = None.
Proof.
  intros Hl Hn. destruct (Z.leb_spec n (zlen (cursor_view c))) as [Hle|Hgt].
  - exists (ztake n (cursor_view c)). assert (Hz : zlen (ztake n (cursor_view c)) = n) by (apply zlen_ztake; lia).
    assert (Hv : cursor_view c = ztake n (cursor_view c) ++ zdrop n (cursor_view c)) by by rewrite ztake_zdrop.
    split; [done|]. split; [|by eapply cursor_take_live].
    rewrite (cursor_advance_view c n _ _ (proj1 Hl) Hv (eq_sym Hz)). done.
  - rewrite cursor_view_len in Hgt by apply Hl. destruct Hl as ((Ho & Hb & _) & Hf & _).
    unfold wt_cursor_take. rewrite Hf. no_wrap. by rewrite (proj2 (Z.ltb_lt _ _) Hgt).
Qed.

Lemma parser_local_bytes n e : 0 <= n -> parser_local (bytes_or_truncated n e).
Proof.
  intros Hn c Hl. pose proof (cursor_take_cases n c Hl Hn) as Hc.
  unfold bytes_or_truncated at 1, wt_cursor_bytes. destruct (Z.leb_spec n (zlen (cursor_view c))) as [Hle|Hgt].
  - destruct Hc as (bs & Hz & Hv & ->). exists bs. rewrite Hz. split_and!; [done|done|].
    by apply decodes_bytes_or_truncated.
  - destruct (wt_cursor_take n c) as [p c']; cbn in Hc; subst p. pose proof (zlen_nonneg (cursor_view c)).
    rewrite (proj2 (Z.eqb_neq n 0)) by lia. intros c2 Hl2 [Hv2|[? _]]; [|done].
    pose proof (cursor_take_cases n c2 Hl2 Hn) as Hc2. rewrite Hv2, (proj2 (Z.leb_gt _ _) Hgt) in Hc2.
    unfold bytes_or_truncated, wt_cursor_bytes. destruct (wt_cursor_take n c2) as [p c2']; cbn in Hc2; subst p.
    by rewrite (proj2 (Z.eqb_neq n 0)) by lia.
Qed.

Lemma parser_local_varint_sized : parser_local wt_quic_varint_decode_sized.
Proof.
  intros c Hl. destruct (wt_quic_varint_decode_sized c) as [[[v size]|s e] c'] eqn:E.
  - destruct (varint_decode_sized_inv c v size c' (proj1 Hl) E) as (k & Hk & Hv & -> & Hview & _).
    exists (varint_wire k v). split; [done|]. pose proof (decodes_varint_sized k v Hk Hv) as Hd.
    split; [|done]. rewrite (Hd c _ Hl Hview) in E. by injection E.
  - destruct (varint_decode_sized_fail c s e c' (proj1 Hl) E) as (-> & -> & _). intros c2 Hl2 [Hv2|[? _]]; [|done].
    destruct (wt_quic_varint_decode_sized c2) as [[[v size]|s e] c2'] eqn:E2; cbn.
    + destruct (varint_decode_sized_inv c2 v size c2' (proj1 Hl2) E2) as (k & Hk & Hv & -> & Hview & _).
      rewrite Hv2 in Hview. by rewrite (decodes_varint_sized k v Hk Hv c _ Hl Hview) in E.
    + by destruct (varint_decode_sized_fail c2 s e c2' (proj1 Hl2) E2) as (-> & -> & _).
Qed.

Lemma parser_local_varint : parser_local wt_quic_varint_decode.
Proof.
  eapply parser_local_bind; [apply varint_decode_sized_safe|apply parser_local_varint_sized|].
  intros [v size] _. apply parser_local_ret.
Qed.

Lemma varint_decode_truncated c :
  cursor_inv c -> match (wt_quic_varint_decode c).1 with Fail s _ => s = WT_ERR_TRUNCATED | Ok _ => True end.
Proof.
  intros Hi. unfold wt_quic_varint_decode, pbind.
  destruct (wt_quic_varint_decode_sized c) as [[[v size]|s e] c'] eqn:E; cbn; [done|].
  by destruct (varint_decode_sized_fail c s e c' Hi E) as (-> & _).
Qed.

#[export] Hint Resolve @parser_local_ret @parser_local_fail parser_local_varint : wt.

Lemma parser_local_with_peek {A} e (k : Z -> parser A) :
  (forall b, parser_consumes (k b)) -> (forall b, parser_local (k b)) -> parser_local (with_peek e k).
Proof.
  intros Hc Hk c Hl. destruct (cursor_view c) as [|b tl] eqn:Hv.
  - unfold with_peek at 1. rewrite peek_first_end by done. intros c2 Hl2 [Hv2|[? _]]; [|done].
    unfold with_peek. rewrite peek_first_end by (done || congruence). done.
  - assert (Hp : forall c2, cursor_live c2 -> [b] `prefix_of` cursor_view c2 -> with_peek e k c2 = k b c2).
    { intros c2 Hl2 [tl2 Hv2]. unfold with_peek. by rewrite (peek_first_live c2 b tl2). }
    rewrite Hp by (done || rewrite Hv; by exists tl). specialize (Hk b c Hl). specialize (Hc b c (proj1 Hl)).
    destruct (k b c) as [[a|s e'] c'] eqn:E; cbn in Hc.
    + destruct Hk as (bs & Hview & Hcur & Hd). exists bs. rewrite <- Hv. split_and!; [done|done|].
      destruct bs as [|b' bs].
      { rewrite Hcur, zlen_nil in Hc. cbn in Hc. lia. }
      rewrite Hv in Hview. injection Hview as <- _. by apply decodes_with_peek.
    + intros c2 Hl2 Hv2. rewrite Hp.
      * apply Hk; [done|]. by rewrite Hv in *.
      * done.
      * destruct Hv2 as [->|[_ [tl2 ->]]]; [by exists tl|]. exists (tl ++ tl2). done.
Qed.
