(* ===== verification/QuicError.v ===== *)
(** * QUIC transport error codes: [include/webtransport/quic/error.h], [src/quic/error.c] *)

From S2P Require Export Core.
From stdpp Require Import strings.
#[local] Open Scope Z_scope.

Definition WT_QUIC_NO_ERROR : Z := 0x00.
Definition WT_QUIC_INTERNAL_ERROR : Z := 0x01.
Definition WT_QUIC_CONNECTION_REFUSED : Z := 0x02.
Definition WT_QUIC_FLOW_CONTROL_ERROR : Z := 0x03.
Definition WT_QUIC_STREAM_LIMIT_ERROR : Z := 0x04.
Definition WT_QUIC_STREAM_STATE_ERROR : Z := 0x05.
Definition WT_QUIC_FINAL_SIZE_ERROR : Z := 0x06.
Definition WT_QUIC_FRAME_ENCODING_ERROR : Z := 0x07.
Definition WT_QUIC_TRANSPORT_PARAMETER_ERROR : Z := 0x08.
Definition WT_QUIC_CONNECTION_ID_LIMIT_ERROR : Z := 0x09.
Definition WT_QUIC_PROTOCOL_VIOLATION : Z := 0x0a.
Definition WT_QUIC_INVALID_TOKEN : Z := 0x0b.
Definition WT_QUIC_APPLICATION_ERROR : Z := 0x0c.
Definition WT_QUIC_CRYPTO_BUFFER_EXCEEDED : Z := 0x0d.
Definition WT_QUIC_KEY_UPDATE_ERROR : Z := 0x0e.
Definition WT_QUIC_AEAD_LIMIT_REACHED : Z := 0x0f.
Definition WT_QUIC_NO_VIABLE_PATH : Z := 0x10.
Definition WT_QUIC_CRYPTO_ERROR_BASE : Z := 0x0100.
Definition WT_QUIC_CRYPTO_ERROR_LAST : Z := 0x01ff.

(** The longest connection ID, of [include/webtransport/quic/connection_id.h]. *)
Definition WT_QUIC_MAX_CONNECTION_ID_LENGTH : Z := 20.

Definition wt_quic_crypto_error (tls_alert : Z) : outcome Z :=
  Ok (Z.lor WT_QUIC_CRYPTO_ERROR_BASE tls_alert).

Definition wt_quic_error_is_crypto (error : Z) : bool :=
  (WT_QUIC_CRYPTO_ERROR_BASE <=? error) && (error <=? WT_QUIC_CRYPTO_ERROR_LAST).

(** The names of the codes, as [(code, name)] pairs in the order of the [switch]. *)
Definition error_names : list (Z * string) :=
  [(WT_QUIC_NO_ERROR, "no-error"%string);
   (WT_QUIC_INTERNAL_ERROR, "internal-error"%string);
   (WT_QUIC_CONNECTION_REFUSED, "connection-refused"%string);
   (WT_QUIC_FLOW_CONTROL_ERROR, "flow-control-error"%string);
   (WT_QUIC_STREAM_LIMIT_ERROR, "stream-limit-error"%string);
   (WT_QUIC_STREAM_STATE_ERROR, "stream-state-error"%string);
   (WT_QUIC_FINAL_SIZE_ERROR, "final-size-error"%string);
   (WT_QUIC_FRAME_ENCODING_ERROR, "frame-encoding-error"%string);
   (WT_QUIC_TRANSPORT_PARAMETER_ERROR, "transport-parameter-error"%string);
   (WT_QUIC_CONNECTION_ID_LIMIT_ERROR, "connection-id-limit-error"%string);
   (WT_QUIC_PROTOCOL_VIOLATION, "protocol-violation"%string);
   (WT_QUIC_INVALID_TOKEN, "invalid-token"%string);
   (WT_QUIC_APPLICATION_ERROR, "application-error"%string);
   (WT_QUIC_CRYPTO_BUFFER_EXCEEDED, "crypto-buffer-exceeded"%string);
   (WT_QUIC_KEY_UPDATE_ERROR, "key-update-error"%string);
   (WT_QUIC_AEAD_LIMIT_REACHED, "aead-limit-reached"%string);
   (WT_QUIC_NO_VIABLE_PATH, "no-viable-path"%string)].

Definition wt_quic_error_name (error : Z) : string :=
  match find (fun p => p.1 =? error) error_names with
  | Some p => p.2
  | None => if wt_quic_error_is_crypto error then "crypto"%string else "unknown"%string
  end.

(** ** Lemmas *)

Lemma crypto_error_range alert :
  is_u8 alert -> exists code, wt_quic_crypto_error alert = Ok code /\
    code = 0x100 + alert /\ wt_quic_error_is_crypto code = true.
Proof.
  unfold is_u8. intros Ha. exists (0x100 + alert). split_and!; [|done|].
  - unfold wt_quic_crypto_error, WT_QUIC_CRYPTO_ERROR_BASE. f_equal.
    change 256 with (Z.shiftl 1 8) at 1. rewrite lor_shiftl; lia.
  - unfold wt_quic_error_is_crypto, WT_QUIC_CRYPTO_ERROR_BASE, WT_QUIC_CRYPTO_ERROR_LAST. by ztest.
Qed.

(** Every code of the transport has a name of its own. *)
Lemma error_names_distinct : NoDup (error_names.*1) /\ NoDup (error_names.*2).
Proof. split; apply (bool_decide_unpack _); vm_compute; exact I. Qed.
