(* ===== verification/PacketNumber.v ===== *)
(** * QUIC packet numbers: [src/quic/packet_number.c]

    Truncation to one to four bytes on send and reconstruction around the
    receiver's expectation (RFC 9000 section 17.1 and appendix A). *)

From S2P Require Export Core.

(** ** The code *)

Definition WT_QUIC_PACKET_NUMBER_MAX : Z := 2 ^ 62 - 1.

Definition wt_quic_packet_number_window (byte_count : Z) : Z :=
  if (byte_count =? 0) || (4 <? byte_count) then 0 else Z.shiftl 1 (byte_count * 8).

(** The [for] loop over one to three bytes, then the four-byte case. *)
Definition wt_quic_packet_number_size (packet_number largest_acknowledged : Z) : Z :=
  if packet_number <=? largest_acknowledged then 0
  else
    let delta := u64 (packet_number - u64 (largest_acknowledged + 1)) in
    if delta <? wt_quic_packet_number_window 1 / 2 then 1
    else if delta <? wt_quic_packet_number_window 2 / 2 then 2
    else if delta <? wt_quic_packet_number_window 3 / 2 then 3
    else if delta <? wt_quic_packet_number_window 4 / 2 then 4
    else 0.

(** The size and the bytes stored in [out]. *)
Definition wt_quic_packet_number_encode (packet_number byte_count : Z) : Z * list Z :=
  if (byte_count =? 0) || (4 <? byte_count) then (0, [])
  else if byte_count =? 1 then (byte_count, [u8 (Z.land packet_number 0xFF)])
  else if byte_count =? 2 then (byte_count, wt_store_be16 (u16 (Z.land packet_number 0xFFFF)))
  else if byte_count =? 3 then (byte_count, wt_store_be24 (u32 (Z.land packet_number 0xFFFFFF)))
  else (byte_count, wt_store_be32 (u32 (Z.land packet_number 0xFFFFFFFF))).

Definition wt_quic_packet_number_decode (truncated byte_count largest_received : Z) : Z :=
  if (byte_count =? 0) || (4 <? byte_count) then 0
  else
    let expected := u64 (largest_received + 1) in
    let window := wt_quic_packet_number_window byte_count in
    let half := window / 2 in
    let mask := u64 (window - 1) in
    if mask <? truncated then 0
    else
      let candidate := Z.lor (Z.land expected (U64_MAX - mask)) truncated in
      if (u64 (candidate + half) <=? expected) &&
         (candidate <? u64 (Z.shiftl 1 62 - window)) then u64 (candidate + window)
      else if (u64 (expected + half) <? candidate) && (window <=? candidate)
      then u64 (candidate - window)
      else candidate.

(** ** Arithmetic of the window *)

Lemma window_pow n : 1 <= n <= 4 -> wt_quic_packet_number_window n = 2 ^ (8 * n).
Proof.
  intros. unfold wt_quic_packet_number_window. ztest. rewrite Z.shiftl_1_l. f_equal. lia.
Qed.

(** [x & ~(2^m - 1)] on 64 bits clears the low [m] bits. *)
Lemma land_not_mask x m :
  is_u64 x -> 0 <= m <= 64 -> Z.land x (U64_MAX - (2 ^ m - 1)) = x / 2 ^ m * 2 ^ m.
Proof.
  intros Hx Hm. unfold is_u64, U64_MAX in *.
  assert (Hp : 2 ^ m <= 2 ^ 64) by (apply Z.pow_le_mono_r; lia).
  assert (Hp0 : 0 < 2 ^ m) by (apply Z.pow_pos_nonneg; lia).
  replace (2 ^ 64 - 1 - (2 ^ m - 1)) with (Z.land (Z.lnot (Z.ones m)) (Z.ones 64)).
  - rewrite Z.land_assoc, <- Z.ldiff_land, Z.ldiff_ones_r by lia.
    rewrite Z.shiftl_mul_pow2, Z.shiftr_div_pow2 by lia.
    rewrite Z.land_ones by lia. apply Z.mod_small.
    pose proof (Z.mul_div_le x (2 ^ m) Hp0). pose proof (Z.div_pos x (2 ^ m) ltac:(lia) Hp0). nia.
  - rewrite Z.land_ones by lia. rewrite Z.ones_equiv. unfold Z.lnot.
    symmetry. apply Z.mod_unique_pos with (-1); lia.
Qed.

Lemma encode_value pn n :
  0 <= pn -> 1 <= n <= 4 ->
  (wt_quic_packet_number_encode pn n).1 = n /\
  zlen (wt_quic_packet_number_encode pn n).2 = n /\
  bytes_ok (wt_quic_packet_number_encode pn n).2 /\
  be_value (wt_quic_packet_number_encode pn n).2 = pn mod 2 ^ (8 * n).
Proof.
  intros Hp Hn. unfold wt_quic_packet_number_encode. ztest.
  change 0xFF with (2 ^ 8 - 1). change 0xFFFF with (2 ^ 16 - 1).
  change 0xFFFFFF with (2 ^ 24 - 1). change 0xFFFFFFFF with (2 ^ 32 - 1).
  rewrite !land_mask by lia. unfold u8, u16, u32.
  destruct (Z.eqb_spec n 1) as [->|]; [|destruct (Z.eqb_spec n 2) as [->|];
    [|destruct (Z.eqb_spec n 3) as [->|]; [|replace n with 4 by lia]]]; cbn [fst snd].
  - split_and!; try done; [repeat constructor; zdm|].
    change (0 * 256 + pn mod 2 ^ 8 mod 2 ^ 8 = pn mod 2 ^ 8). zdm.
  - rewrite store_be16_spec. split_and!; try done; [apply be_bytes_ok|].
    rewrite be_value_bytes; zdm.
  - rewrite store_be24_spec. split_and!; try done; [apply be_bytes_ok|].
    rewrite be_value_bytes; zdm.
  - rewrite store_be32_spec. split_and!; try done; [apply be_bytes_ok|].
    rewrite be_value_bytes; zdm.
Qed.

(** The nearest number to the expectation with the given low bits. *)
Lemma decode_window pn n lr :
  1 <= n <= 4 -> 0 <= pn <= WT_QUIC_PACKET_NUMBER_MAX -> 0 <= lr <= WT_QUIC_PACKET_NUMBER_MAX ->
  let half := 2 ^ (8 * n) / 2 in
  lr + 1 - half < pn <= lr + 1 + half ->
  wt_quic_packet_number_decode (pn mod 2 ^ (8 * n)) n lr = pn.
Proof.
  intros Hn Hpn Hlr half Hwin. unfold WT_QUIC_PACKET_NUMBER_MAX in *.
  unfold wt_quic_packet_number_decode. ztest. rewrite window_pow by done.
  set (w := 2 ^ (8 * n)) in *.
  assert (Hw : 2 ^ 8 <= w <= 2 ^ 32) by (subst w; split; apply Z.pow_le_mono_r; lia).
  assert (Heven : w = 2 * half).
  { subst half w. replace (8 * n) with (Z.succ (8 * n - 1)) by lia.
    rewrite Z.pow_succ_r by lia. rewrite (Z.mul_comm 2), Z.div_mul; lia. }
  change (w / 2) with half. cbn zeta. no_wrap.
  pose proof (Z.mod_pos_bound pn w ltac:(lia)). ztest.
  pose proof (land_not_mask (lr + 1) (8 * n) ltac:(unfold is_u64; lia) ltac:(lia)) as Hmask.
  fold w in Hmask. rewrite Hmask.
  set (e := lr + 1) in *.
  rewrite (lor_disjoint _ _ (8 * n)); fold w; [|lia|done|apply Z_mod_mult].
  set (cand := e / w * w + pn mod w).
  assert (Hc : exists j, pn = cand + j * w /\ -1 <= j <= 1).
  { exists (pn / w - e / w). subst cand. split; [pose proof (Z.div_mod pn w ltac:(lia)); lia|].
    pose proof (Z.div_mod pn w ltac:(lia)). pose proof (Z.div_mod e w ltac:(lia)).
    pose proof (Z.mod_pos_bound e w ltac:(lia)). nia. }
  destruct Hc as (j & Hj & Hjb).
  assert (0 <= cand < 2 ^ 63).
  { subst cand. pose proof (Z.div_mod e w ltac:(lia)). pose proof (Z.mod_pos_bound e w ltac:(lia)).
    pose proof (Z.div_pos e w ltac:(lia) ltac:(lia)). nia. }
  rewrite Z.shiftl_1_l. no_wrap.
  assert (j = -1 \/ j = 0 \/ j = 1) as [-> | [-> | ->]] by lia; ztest; no_wrap; lia.
Qed.

(** The width the sender picks: it covers the distance with half a window, and
    no smaller width does. *)
Lemma size_window pn la n :
  0 <= la -> pn <= WT_QUIC_PACKET_NUMBER_MAX -> wt_quic_packet_number_size pn la = n -> n <> 0 ->
  1 <= n <= 4 /\ la < pn /\ pn - (la + 1) < 2 ^ (8 * n) / 2 /\
  (1 < n -> 2 ^ (8 * (n - 1)) / 2 <= pn - (la + 1)).
Proof.
  unfold WT_QUIC_PACKET_NUMBER_MAX, wt_quic_packet_number_size. intros Hla Hpn.
  destruct (Z.leb_spec pn la); [lia|]. no_wrap. rewrite !window_pow by lia.
  destruct (Z.ltb_spec (pn - (la + 1)) (2 ^ (8 * 1) / 2)); [intros <- _; split_and!; lia|].
  destruct (Z.ltb_spec (pn - (la + 1)) (2 ^ (8 * 2) / 2));
    [intros <- _; split_and!; try lia; intros _; change (2 - 1) with 1; lia|].
  destruct (Z.ltb_spec (pn - (la + 1)) (2 ^ (8 * 3) / 2));
    [intros <- _; split_and!; try lia; intros _; change (3 - 1) with 2; lia|].
  destruct (Z.ltb_spec (pn - (la + 1)) (2 ^ (8 * 4) / 2));
    [intros <- _; split_and!; try lia; intros _; change (4 - 1) with 3; lia|].
  lia.
Qed.

(** ** Theorems *)

(** A packet number truncated to the size chosen from the largest acknowledged number is recovered exactly by a receiver whose largest received number is at least that and less than half the window ahead. *)
Lemma packet_number_roundtrip pn la lr n :
  0 <= la -> pn <= WT_QUIC_PACKET_NUMBER_MAX ->
  wt_quic_packet_number_size pn la = n -> n <> 0 ->
  la <= lr <= WT_QUIC_PACKET_NUMBER_MAX -> lr + 1 < pn + 2 ^ (8 * n) / 2 ->
  let '(size, bs) := wt_quic_packet_number_encode pn n in
  size = n /\ zlen bs = n /\
  wt_quic_packet_number_decode (be_value bs) n lr = pn.
Proof.
  intros Hla Hpn Hn Hn0 Hlr Hahead.
  destruct (size_window pn la n Hla Hpn Hn Hn0) as (Hb & Hgt & Hhalf & _).
  destruct (encode_value pn n ltac:(lia) Hb) as (H1 & H2 & _ & Hv).
  destruct (wt_quic_packet_number_encode pn n) as [size bs]; cbn in *. subst size.
  split_and!; try done. rewrite Hv. apply decode_window; try done; lia.
Qed.

Lemma packet_number_roundtrip_witness :
  let '(size, bs) := wt_quic_packet_number_encode 0xac5c02 2 in
  size = 2 /\ zlen bs = 2 /\ wt_quic_packet_number_decode (be_value bs) 2 0xabe8b3 = 0xac5c02.
Proof.
  apply (packet_number_roundtrip 0xac5c02 0xabe8b3 0xabe8b3 2);
    unfold WT_QUIC_PACKET_NUMBER_MAX; first [done | lia].
Defined.
