(* ===== verification/Stream.v ===== *)
(** * Streams and flow control: [src/quic/stream.c]

    The connection's flow control, the two state machines of a stream and the
    bounded table of streams.  The fields of [wt_quic_stream_t] are kept in the
    two groups its declaration names ("Sending.", "Receiving."). *)

From S2P Require Export Core.

(** ** Connection flow control *)

Record wt_quic_flow := mk_flow {
  fl_peer_max_data : Z;
  fl_data_sent : Z;
  fl_max_data : Z;
  fl_data_received : Z;
  fl_window : Z }.

Definition wt_quic_flow_init (initial_max_data peer_initial_max_data : Z) : wt_quic_flow :=
  mk_flow peer_initial_max_data 0 initial_max_data 0 (initial_max_data / 2).

Definition wt_quic_flow_send_allowance (f : wt_quic_flow) : Z :=
  if fl_peer_max_data f <=? fl_data_sent f then 0
  else u64 (fl_peer_max_data f - fl_data_sent f).

Definition wt_quic_flow_can_send (f : wt_quic_flow) (length : Z) : bool :=
  length <=? wt_quic_flow_send_allowance f.

Definition wt_quic_flow_on_sent (f : wt_quic_flow) (length : Z) : wt_status * wt_quic_flow :=
  if negb (wt_quic_flow_can_send f length) then (WT_ERR_STATE, f)
  else (WT_OK, mk_flow (fl_peer_max_data f) (u64 (fl_data_sent f + length)) (fl_max_data f)
                       (fl_data_received f) (fl_window f)).

Definition wt_quic_flow_on_max_data (f : wt_quic_flow) (new_max : Z) : wt_status * wt_quic_flow :=
  if new_max <? fl_peer_max_data f then (WT_ERR_PROTOCOL, f)
  else (WT_OK, mk_flow new_max (fl_data_sent f) (fl_max_data f) (fl_data_received f) (fl_window f)).

Definition wt_quic_flow_on_received (f : wt_quic_flow) (length : Z) : wt_status * wt_quic_flow :=
  if u64 (fl_max_data f - fl_data_received f) <? length then (WT_ERR_PROTOCOL, f)
  else (WT_OK, mk_flow (fl_peer_max_data f) (fl_data_sent f) (fl_max_data f)
                       (u64 (fl_data_received f + length)) (fl_window f)).

Definition wt_quic_flow_should_extend (f : wt_quic_flow) : bool :=
  fl_max_data f <=? fl_data_received f.

Definition wt_quic_flow_next_max_data (f : wt_quic_flow) : Z :=
  u64 (fl_data_received f + fl_window f).

Definition wt_quic_flow_on_max_data_sent (f : wt_quic_flow) (new_max : Z) : wt_quic_flow :=
  if fl_max_data f <? new_max
  then mk_flow (fl_peer_max_data f) (fl_data_sent f) new_max (fl_data_received f) (fl_window f)
  else f.

(** ** The stream *)

Inductive wt_quic_send_state :=
  | SEND_READY | SEND_SEND | SEND_DATA_SENT | SEND_DATA_RECVD | SEND_RESET_SENT | SEND_RESET_RECVD.

Inductive wt_quic_recv_state :=
  | RECV_RECV | RECV_SIZE_KNOWN | RECV_DATA_RECVD | RECV_DATA_READ | RECV_RESET_RECVD | RECV_RESET_READ.

#[export] Instance send_state_eq_dec : EqDecision wt_quic_send_state.
Proof. solve_decision. Defined.
#[export] Instance recv_state_eq_dec : EqDecision wt_quic_recv_state.
Proof. solve_decision. Defined.

Record wt_quic_sending := mk_sending {
  send_state : wt_quic_send_state;
  send_offset : Z;
  send_acked : Z;
  final_size : Z;
  has_final_size : bool;
  fin_sent : bool;
  peer_max_stream_data : Z }.

Record wt_quic_receiving := mk_receiving {
  recv_state : wt_quic_recv_state;
  recv_offset : Z;
  recv_highest : Z;
  recv_final_size : Z;
  has_recv_final_size : bool;
  max_stream_data : Z;
  window : Z;
  sent_stop_sending : bool;
  peer_reset : bool;
  peer_error_code : Z;
  peer_reliable_size : Z;
  peer_reset_at : bool }.

Record wt_quic_stream := mk_stream {
  st_id : Z;
  initiated_by_us : bool;
  bidirectional : bool;
  tx : wt_quic_sending;
  rx : wt_quic_receiving }.

Definition with_tx (s : wt_quic_stream) (t : wt_quic_sending) : wt_quic_stream :=
  mk_stream (st_id s) (initiated_by_us s) (bidirectional s) t (rx s).
Definition with_rx (s : wt_quic_stream) (r : wt_quic_receiving) : wt_quic_stream :=
  mk_stream (st_id s) (initiated_by_us s) (bidirectional s) (tx s) r.

Definition wt_quic_stream_init (id : Z) (by_us bidi : bool) (max peer_max : Z) : wt_quic_stream :=
  mk_stream id by_us bidi
    (mk_sending SEND_READY 0 0 0 false false peer_max)
    (mk_receiving RECV_RECV 0 0 0 false max (max / 2) false false 0 0 false).

Definition send_finished_state (t : wt_quic_send_state) : bool :=
  match t with
  | SEND_DATA_SENT | SEND_DATA_RECVD | SEND_RESET_SENT | SEND_RESET_RECVD => true
  | SEND_READY | SEND_SEND => false
  end.
Definition wt_quic_stream_send_finished (s : wt_quic_stream) : bool :=
  send_finished_state (send_state (tx s)).
Definition wt_quic_stream_recv_finished (s : wt_quic_stream) : bool :=
  bool_decide (recv_state (rx s) = RECV_DATA_READ) || bool_decide (recv_state (rx s) = RECV_RESET_READ).
Definition wt_quic_stream_complete (s : wt_quic_stream) : bool :=
  wt_quic_stream_send_finished s && wt_quic_stream_recv_finished s.

(** *** The sending half *)

Definition wt_quic_stream_on_data_sent (s : wt_quic_stream) (length : Z) : wt_status * wt_quic_stream :=
  if wt_quic_stream_send_finished s then (WT_ERR_STATE, s)
  else
    let t := tx s in
    let st := if bool_decide (send_state t = SEND_READY) && negb (length =? 0)
              then SEND_SEND else send_state t in
    (WT_OK, with_tx s (mk_sending st (u64 (send_offset t + length)) (send_acked t) (final_size t)
                                  (has_final_size t) (fin_sent t) (peer_max_stream_data t))).

Definition wt_quic_stream_on_fin_sent (s : wt_quic_stream) : wt_status * wt_quic_stream :=
  if fin_sent (tx s) || wt_quic_stream_send_finished s then (WT_ERR_STATE, s)
  else
    let t := tx s in
    (WT_OK, with_tx s (mk_sending SEND_DATA_SENT (send_offset t) (send_acked t) (send_offset t)
                                  true true (peer_max_stream_data t))).

Definition wt_quic_stream_on_ack (s : wt_quic_stream) (acknowledged : Z) : wt_status * wt_quic_stream :=
  let t := tx s in
  let acked := if send_acked t <? acknowledged then acknowledged else send_acked t in
  let st1 := if bool_decide (send_state t = SEND_DATA_SENT) && has_final_size t &&
                (final_size t <=? acked)
             then SEND_DATA_RECVD else send_state t in
  let st2 := if bool_decide (st1 = SEND_RESET_SENT) && (final_size t <=? acked)
             then SEND_RESET_RECVD else st1 in
  (WT_OK, with_tx s (mk_sending st2 (send_offset t) acked (final_size t) (has_final_size t)
                                (fin_sent t) (peer_max_stream_data t))).

Definition send_reset (t : wt_quic_sending) : wt_quic_sending :=
  mk_sending SEND_RESET_SENT (send_offset t) (send_acked t) (send_offset t) true (fin_sent t)
             (peer_max_stream_data t).

Definition wt_quic_stream_on_reset_sent (s : wt_quic_stream) (error_code : Z) : wt_status * wt_quic_stream :=
  if wt_quic_stream_send_finished s then (WT_ERR_STATE, s)
  else (WT_OK, with_tx s (send_reset (tx s))).

Definition wt_quic_stream_on_stop_sending (s : wt_quic_stream) (error_code : Z) : wt_status * wt_quic_stream :=
  let r := rx s in
  let s1 := with_rx s (mk_receiving (recv_state r) (recv_offset r) (recv_highest r)
              (recv_final_size r) (has_recv_final_size r) (max_stream_data r) (window r) true
              (peer_reset r) (peer_error_code r) (peer_reliable_size r) (peer_reset_at r)) in
  if negb (wt_quic_stream_send_finished s1) then (WT_OK, with_tx s1 (send_reset (tx s1)))
  else (WT_OK, s1).

Definition wt_quic_stream_on_max_stream_data (s : wt_quic_stream) (new_max : Z) : wt_status * wt_quic_stream :=
  let t := tx s in
  if new_max <? peer_max_stream_data t then (WT_ERR_PROTOCOL, s)
  else (WT_OK, with_tx s (mk_sending (send_state t) (send_offset t) (send_acked t) (final_size t)
                                     (has_final_size t) (fin_sent t) new_max)).

Definition wt_quic_stream_send_allowance (s : wt_quic_stream) (f : wt_quic_flow) : Z :=
  if wt_quic_stream_send_finished s then 0
  else
    let t := tx s in
    let stream_allowance := if peer_max_stream_data t <=? send_offset t then 0
                            else u64 (peer_max_stream_data t - send_offset t) in
    let connection_allowance := wt_quic_flow_send_allowance f in
    if stream_allowance <? connection_allowance then stream_allowance else connection_allowance.

Definition wt_quic_stream_can_send (s : wt_quic_stream) (f : wt_quic_flow) (length : Z) : bool :=
  length <=? wt_quic_stream_send_allowance s f.

(** *** The receiving half *)

Definition check_final_size (r : wt_quic_receiving) (size : Z) : wt_status * wt_quic_receiving :=
  if has_recv_final_size r && negb (recv_final_size r =? size) then (WT_ERR_PROTOCOL, r)
  else if size <? recv_highest r then (WT_ERR_PROTOCOL, r)
  else
    let st := if bool_decide (recv_state r = RECV_RECV)
              then if size <=? recv_offset r then RECV_DATA_RECVD else RECV_SIZE_KNOWN
              else recv_state r in
    (WT_OK, mk_receiving st (recv_offset r) (recv_highest r) size true (max_stream_data r)
              (window r) (sent_stop_sending r) (peer_reset r) (peer_error_code r)
              (peer_reliable_size r) (peer_reset_at r)).

(** The fields a RESET_STREAM (or RESET_STREAM_AT) settles. *)
Definition set_reset (r : wt_quic_receiving) (code reliable : Z) (at' : bool) : wt_quic_receiving :=
  mk_receiving RECV_RESET_RECVD (recv_offset r) (recv_highest r) (recv_final_size r)
    (has_recv_final_size r) (max_stream_data r) (window r) (sent_stop_sending r) true code
    reliable at'.

Definition wt_quic_stream_on_reset_received (s : wt_quic_stream) (error_code size : Z)
    : wt_status * wt_quic_stream :=
  match check_final_size (rx s) size with
  | (WT_OK, r) =>
      (WT_OK, with_rx s (set_reset r error_code (peer_reliable_size r) (peer_reset_at r)))
  | (e, r) => (e, with_rx s r)
  end.

Definition set_reliable (r : wt_quic_receiving) (reliable : Z) : wt_quic_receiving :=
  mk_receiving (recv_state r) (recv_offset r) (recv_highest r) (recv_final_size r)
    (has_recv_final_size r) (max_stream_data r) (window r) (sent_stop_sending r) (peer_reset r)
    (peer_error_code r) reliable (peer_reset_at r).

Definition wt_quic_stream_on_reset_at_received (s : wt_quic_stream)
    (error_code size reliable_size : Z) : wt_status * wt_quic_stream :=
  if size <? reliable_size then (WT_ERR_PROTOCOL, s)
  else if peer_reset (rx s) && negb (peer_reset_at (rx s)) then (WT_ERR_STATE, s)
  else match check_final_size (rx s) size with
  | (WT_OK, r) =>
      if peer_reset_at r then
        if negb (peer_error_code r =? error_code) then (WT_ERR_PROTOCOL, with_rx s r)
        else if peer_reliable_size r <=? reliable_size then (WT_OK, with_rx s r)
        else (WT_OK, with_rx s (set_reliable r reliable_size))
      else (WT_OK, with_rx s (set_reset r error_code reliable_size true))
  | (e, r) => (e, with_rx s r)
  end.

Definition set_recv_state (r : wt_quic_receiving) (st : wt_quic_recv_state) : wt_quic_receiving :=
  mk_receiving st (recv_offset r) (recv_highest r) (recv_final_size r)
    (has_recv_final_size r) (max_stream_data r) (window r) (sent_stop_sending r) (peer_reset r)
    (peer_error_code r) (peer_reliable_size r) (peer_reset_at r).
Definition set_recv_highest (r : wt_quic_receiving) (h : Z) : wt_quic_receiving :=
  mk_receiving (recv_state r) (recv_offset r) h (recv_final_size r)
    (has_recv_final_size r) (max_stream_data r) (window r) (sent_stop_sending r) (peer_reset r)
    (peer_error_code r) (peer_reliable_size r) (peer_reset_at r).
Definition set_recv_offset (r : wt_quic_receiving) (o : Z) : wt_quic_receiving :=
  mk_receiving (recv_state r) o (recv_highest r) (recv_final_size r)
    (has_recv_final_size r) (max_stream_data r) (window r) (sent_stop_sending r) (peer_reset r)
    (peer_error_code r) (peer_reliable_size r) (peer_reset_at r).

(** The status, the two out-parameters, and both objects after the call. *)
Record on_data_result := mk_on_data {
  od_status : wt_status;
  od_credit : Z;
  od_in_order : bool;
  od_stream : wt_quic_stream;
  od_flow : wt_quic_flow }.

(** The tail of [wt_quic_stream_on_data], once the credit has been charged. *)
Definition recv_completed (r : wt_quic_receiving) : wt_quic_receiving :=
  if has_recv_final_size r && (recv_final_size r <=? recv_highest r) &&
     bool_decide (recv_state r = RECV_SIZE_KNOWN)
  then set_recv_state r RECV_DATA_RECVD else r.

Definition wt_quic_stream_on_data (s : wt_quic_stream) (f : wt_quic_flow)
    (offset length : Z) (fin : bool) : on_data_result :=
  let r := rx s in
  let refuse e := mk_on_data e 0 false s f in
  if wt_quic_stream_recv_finished s && (negb (length =? 0) || fin) then refuse WT_ERR_STATE
  else if U64_MAX - length <? offset then refuse WT_ERR_PROTOCOL
  else
    let end_ := u64 (offset + length) in
    if has_recv_final_size r && (recv_final_size r <? end_) then refuse WT_ERR_PROTOCOL
    else if has_recv_final_size r && (fin && negb (end_ =? recv_final_size r))
    then refuse WT_ERR_PROTOCOL
    else
      let credit := if recv_highest r <? end_ then u64 (end_ - recv_highest r) else 0 in
      let total := u64 (recv_highest r + credit) in
      if max_stream_data r <? total then refuse WT_ERR_PROTOCOL
      else match wt_quic_flow_on_received f credit with
      | (WT_OK, f') =>
          let r1 := if recv_highest r <? end_ then set_recv_highest r end_ else r in
          let in_order := offset =? recv_offset r1 in
          match (if fin then check_final_size r1 end_ else (WT_OK, r1)) with
          | (WT_OK, r2) => mk_on_data WT_OK credit in_order (with_rx s (recv_completed r2)) f'
          | (e, r2) => mk_on_data e credit in_order (with_rx s r2) f'
          end
      | (e, f') => mk_on_data e 0 false s f'
      end.

Definition wt_quic_stream_on_data_read (s : wt_quic_stream) (length : Z) : wt_status * wt_quic_stream :=
  let r := rx s in
  if bool_decide (recv_state r = RECV_RESET_RECVD) || bool_decide (recv_state r = RECV_RESET_READ)
  then (WT_ERR_STATE, s)
  else if u64 (recv_highest r - recv_offset r) <? length then (WT_ERR_INVALID_ARGUMENT, s)
  else
    let r1 := set_recv_offset r (u64 (recv_offset r + length)) in
    let r2 := if bool_decide (recv_state r1 = RECV_DATA_RECVD) &&
                 (recv_final_size r1 <=? recv_offset r1)
              then set_recv_state r1 RECV_DATA_READ else r1 in
    (WT_OK, with_rx s r2).

Definition wt_quic_stream_on_reset_read (s : wt_quic_stream) : wt_status * wt_quic_stream :=
  if negb (bool_decide (recv_state (rx s) = RECV_RESET_RECVD)) then (WT_ERR_STATE, s)
  else (WT_OK, with_rx s (set_recv_state (rx s) RECV_RESET_READ)).

Definition wt_quic_stream_should_extend (s : wt_quic_stream) : bool :=
  max_stream_data (rx s) <=? recv_highest (rx s).
Definition wt_quic_stream_next_max_stream_data (s : wt_quic_stream) : Z :=
  u64 (recv_highest (rx s) + window (rx s)).
Definition set_max_stream_data (r : wt_quic_receiving) (m : Z) : wt_quic_receiving :=
  mk_receiving (recv_state r) (recv_offset r) (recv_highest r) (recv_final_size r)
    (has_recv_final_size r) m (window r) (sent_stop_sending r) (peer_reset r)
    (peer_error_code r) (peer_reliable_size r) (peer_reset_at r).
Definition wt_quic_stream_on_max_stream_data_sent (s : wt_quic_stream) (new_max : Z) : wt_quic_stream :=
  if max_stream_data (rx s) <? new_max then with_rx s (set_max_stream_data (rx s) new_max) else s.

(** ** Stream numbers *)

Definition wt_quic_stream_id_index (id : Z) : Z := Z.shiftr id 2.
Definition wt_quic_stream_id_from_client (id : Z) : bool := Z.land id 1 =? 0.
Definition wt_quic_stream_id_is_bidirectional (id : Z) : bool := Z.land id 2 =? 0.
Definition wt_quic_stream_id_make (from_client bidi : bool) (index : Z) : Z :=
  let id := u64 (Z.shiftl index 2) in
  let id := if from_client then id else Z.lor id 1 in
  if bidi then id else Z.lor id 2.

(** ** The stream table *)

Definition WT_QUIC_STREAM_TABLE_MAX : nat := 32.

Record table_entry := mk_entry { e_used : bool; e_stream : wt_quic_stream }.

Record wt_quic_stream_table := mk_table {
  tb_slots : list table_entry;
  tb_count : Z;
  opened_by_us_bidi : Z;
  opened_by_us_uni : Z;
  opened_by_peer_bidi : Z;
  opened_by_peer_uni : Z }.

(** The all-zero slot [memset] leaves. *)
Definition empty_entry : table_entry :=
  mk_entry false (wt_quic_stream_init 0 false false 0 0).

Definition wt_quic_stream_table_init : wt_quic_stream_table :=
  mk_table (replicate WT_QUIC_STREAM_TABLE_MAX empty_entry) 0 0 0 0 0.

Definition entry_is (id : Z) (e : table_entry) : bool := e_used e && (st_id (e_stream e) =? id).
Definition entry_free (e : table_entry) : bool := negb (e_used e).

Definition table_slot (t : wt_quic_stream_table) (id : Z) : option nat :=
  first_index (entry_is id) (tb_slots t).

Definition table_opened (t : wt_quic_stream_table) (by_us bidi : bool) : Z :=
  match by_us, bidi with
  | true, true => opened_by_us_bidi t
  | true, false => opened_by_us_uni t
  | false, true => opened_by_peer_bidi t
  | false, false => opened_by_peer_uni t
  end.

(** The increment of the class's opened counter. *)
Definition bump_opened (by_us bidi : bool) (t : wt_quic_stream_table) : wt_quic_stream_table :=
  let b u v := if eqb by_us u && eqb bidi v then u64 (table_opened t u v + 1)
               else table_opened t u v in
  mk_table (tb_slots t) (tb_count t) (b true true) (b true false) (b false true) (b false false).

(** The reclaim loop's body, and the loop: sweep every slot, keep the first freed. *)
Definition reclaimable (e : table_entry) : bool := e_used e && wt_quic_stream_complete (e_stream e).
Definition free_entry (e : table_entry) : table_entry := mk_entry false (e_stream e).

Fixpoint reclaim_loop (l : list table_entry) (i : nat) (count : Z) (slot : option nat)
    : list table_entry * Z * option nat :=
  match l with
  | [] => ([], count, slot)
  | e :: l =>
      if reclaimable e then
        let '(l', c', s') := reclaim_loop l (S i) (u64 (count - 1))
                               (match slot with None => Some i | Some _ => slot end) in
        (free_entry e :: l', c', s')
      else
        let '(l', c', s') := reclaim_loop l (S i) count slot in (e :: l', c', s')
  end.

Definition set_slots (t : wt_quic_stream_table) (l : list table_entry) (count : Z)
    : wt_quic_stream_table :=
  mk_table l count (opened_by_us_bidi t) (opened_by_us_uni t) (opened_by_peer_bidi t)
           (opened_by_peer_uni t).

Definition table_place (t : wt_quic_stream_table) (slot : nat) (id : Z) (by_us bidi : bool)
    : wt_quic_stream_table :=
  let l := <[slot := mk_entry true (wt_quic_stream_init id by_us bidi 0 0)]> (tb_slots t) in
  let t1 := bump_opened by_us bidi (set_slots t l (tb_count t)) in
  set_slots t1 (tb_slots t1) (u64 (tb_count t1 + 1)).

Definition wt_quic_stream_table_open (t : wt_quic_stream_table) (id : Z) (by_us : bool) (limit : Z)
    : wt_status * wt_quic_stream_table :=
  match table_slot t id with
  | Some _ => (WT_ERR_STATE, t)
  | None =>
      let bidi := wt_quic_stream_id_is_bidirectional id in
      if limit <=? table_opened t by_us bidi then (WT_ERR_LIMIT, t)
      else match first_index entry_free (tb_slots t) with
      | Some slot => (WT_OK, table_place t slot id by_us bidi)
      | None =>
          let '(l, c, slot) := reclaim_loop (tb_slots t) 0 (tb_count t) None in
          let t1 := set_slots t l c in
          match slot with
          | None => (WT_ERR_LIMIT, t1)
          | Some slot => (WT_OK, table_place t1 slot id by_us bidi)
          end
      end
  end.

Definition slot_stream (t : wt_quic_stream_table) (i : nat) : option wt_quic_stream :=
  e_stream <$> (tb_slots t !! i).

Definition wt_quic_stream_table_find (t : wt_quic_stream_table) (id : Z) : option wt_quic_stream :=
  match table_slot t id with None => None | Some i => slot_stream t i end.

Definition wt_quic_stream_table_close (t : wt_quic_stream_table) (id : Z)
    : wt_status * wt_quic_stream_table :=
  match table_slot t id with
  | None => (WT_ERR_STATE, t)
  | Some i =>
      match tb_slots t !! i with
      | None => (WT_ERR_STATE, t)   (* not reached: the slot was just found *)
      | Some e =>
          if negb (wt_quic_stream_complete (e_stream e)) then (WT_ERR_STATE, t)
          else (WT_OK, set_slots t (<[i := free_entry e]> (tb_slots t)) (u64 (tb_count t - 1)))
      end
  end.

Definition wt_quic_stream_table_at (t : wt_quic_stream_table) (index : Z) : option wt_quic_stream :=
  if Z.of_nat WT_QUIC_STREAM_TABLE_MAX <=? index then None
  else match tb_slots t !! Z.to_nat index with
       | Some e => if e_used e then Some (e_stream e) else None
       | None => None
       end.

Definition wt_quic_stream_table_count (t : wt_quic_stream_table) : Z := tb_count t.
Definition wt_quic_stream_table_opened_by_us (t : wt_quic_stream_table) (bidi : bool) : Z :=
  table_opened t true bidi.
Definition wt_quic_stream_table_opened_by_peer (t : wt_quic_stream_table) (bidi : bool) : Z :=
  table_opened t false bidi.

(** ** The receive half's invariant *)

Definition flow_inv (f : wt_quic_flow) : Prop :=
  0 <= fl_data_received f <= fl_max_data f /\ fl_max_data f < 2 ^ 64 /\
  0 <= fl_data_sent f < 2 ^ 64 /\ 0 <= fl_peer_max_data f < 2 ^ 64 /\ 0 <= fl_window f < 2 ^ 64.

(** Delivered within arrived, arrived within advertised, arrived within the
    final size; and what each state says about the three. *)
Record recv_inv (r : wt_quic_receiving) : Prop := {
  ri_order : 0 <= recv_offset r <= recv_highest r;
  ri_limit : recv_highest r <= max_stream_data r;
  ri_max : max_stream_data r < 2 ^ 64;
  ri_final : has_recv_final_size r = true -> recv_highest r <= recv_final_size r < 2 ^ 64;
  ri_recv : recv_state r = RECV_RECV -> has_recv_final_size r = false;
  ri_known : recv_state r = RECV_SIZE_KNOWN ->
    has_recv_final_size r = true /\ recv_highest r < recv_final_size r;
  ri_recvd : recv_state r = RECV_DATA_RECVD ->
    has_recv_final_size r = true /\ recv_highest r = recv_final_size r;
  ri_read : recv_state r = RECV_DATA_READ ->
    has_recv_final_size r = true /\ recv_offset r = recv_final_size r;
  ri_reset : recv_state r = RECV_RESET_RECVD \/ recv_state r = RECV_RESET_READ ->
    has_recv_final_size r = true /\ peer_reset r = true;
  ri_reliable : peer_reset_at r = true ->
    peer_reset r = true /\ has_recv_final_size r = true /\
    0 <= peer_reliable_size r <= recv_final_size r }.

(** The state [check_final_size] moves to. *)
Definition final_size_state (r : wt_quic_receiving) (size : Z) : wt_quic_recv_state :=
  match recv_state r with
  | RECV_RECV => if size <=? recv_offset r then RECV_DATA_RECVD else RECV_SIZE_KNOWN
  | st => st
  end.

Lemma check_final_size_cases r size :
  (check_final_size r size = (WT_ERR_PROTOCOL, r)) \/
  ((has_recv_final_size r = true -> recv_final_size r = size) /\ recv_highest r <= size /\
   check_final_size r size =
     (WT_OK, mk_receiving (final_size_state r size) (recv_offset r) (recv_highest r) size true
               (max_stream_data r) (window r) (sent_stop_sending r) (peer_reset r)
               (peer_error_code r) (peer_reliable_size r) (peer_reset_at r))).
Proof.
  unfold check_final_size, final_size_state.
  destruct (has_recv_final_size r && negb (recv_final_size r =? size)) eqn:E1; [by left|].
  destruct (Z.ltb_spec size (recv_highest r)); [by left|]. right. split_and!; [|done|].
  - intros Hh. rewrite Hh in E1. cbn in E1. reflect_bools. done.
  - by destruct (recv_state r).
Qed.

(** Solves the fields of [recv_inv] once the record is concrete. *)
Ltac recv_inv_tac :=
  constructor; cbn in *; intros; subst;
  repeat match goal with
  | H : _ \/ _ |- _ => destruct H; try discriminate; subst
  | H : ?x = ?x -> _ |- _ => specialize (H eq_refl)
  | H : ?x = ?x \/ _ -> _ |- _ => specialize (H (or_introl eq_refl))
  | H : _ \/ ?x = ?x -> _ |- _ => specialize (H (or_intror eq_refl))
  | H : _ /\ _ |- _ => destruct H
  end; try discriminate; subst; split_and?; try done; try lia; auto; try congruence.

Lemma set_reset_inv r code size reliable at' :
  recv_inv r -> is_u64 size -> recv_highest r <= size ->
  (has_recv_final_size r = true -> recv_final_size r = size) ->
  (at' = true -> 0 <= reliable <= size) ->
  recv_inv (set_reset (mk_receiving (final_size_state r size) (recv_offset r) (recv_highest r) size
    true (max_stream_data r) (window r) (sent_stop_sending r) (peer_reset r)
    (peer_error_code r) (peer_reliable_size r) (peer_reset_at r)) code reliable at').
Proof. intros [] Hs Hh Hf Hr. unfold is_u64 in Hs. recv_inv_tac. Qed.

Lemma recv_final_inv r size :
  recv_inv r -> is_u64 size -> recv_highest r <= size ->
  (has_recv_final_size r = true -> recv_final_size r = size) ->
  recv_inv (recv_completed (mk_receiving (final_size_state r size) (recv_offset r) (recv_highest r)
    size true (max_stream_data r) (window r) (sent_stop_sending r) (peer_reset r)
    (peer_error_code r) (peer_reliable_size r) (peer_reset_at r))).
Proof.
  intros [] Hs Hh Hf. unfold is_u64 in Hs. unfold recv_completed, final_size_state; cbn.
  destruct r as [st off hi fs hf mx wn ss pr pe prl pra]; cbn in *.
  destruct (Z.leb_spec size hi), st, (Z.leb_spec size off); cbn;
    try rewrite bool_decide_true by done; try rewrite bool_decide_false by done; recv_inv_tac.
Qed.

(** *** Data *)

(** The tests [wt_quic_stream_on_data] makes, as one condition. *)
Definition data_acceptable (s : wt_quic_stream) (f : wt_quic_flow) (offset length : Z) (fin : bool)
    : bool :=
  let r := rx s in
  let e := offset + length in
  negb (wt_quic_stream_recv_finished s && (negb (length =? 0) || fin)) &&
  (e <=? U64_MAX) &&
  (if has_recv_final_size r then if fin then e =? recv_final_size r else e <=? recv_final_size r
   else negb fin || (recv_highest r <=? e)) &&
  (e <=? max_stream_data r) &&
  (Z.max 0 (e - recv_highest r) <=? fl_max_data f - fl_data_received f).

Definition charge (f : wt_quic_flow) (n : Z) : wt_quic_flow :=
  mk_flow (fl_peer_max_data f) (fl_data_sent f) (fl_max_data f) (fl_data_received f + n) (fl_window f).

Lemma flow_on_received_spec f n :
  flow_inv f -> 0 <= n ->
  wt_quic_flow_on_received f n =
    if n <=? fl_max_data f - fl_data_received f then (WT_OK, charge f n) else (WT_ERR_PROTOCOL, f).
Proof.
  intros (Hr & Hm & _) Hn. unfold wt_quic_flow_on_received, charge. no_wrap.
  destruct (Z.leb_spec n (fl_max_data f - fl_data_received f)); ztest; [|done]. by no_wrap.
Qed.

Lemma charge_0 f : charge f 0 = f.
Proof. destruct f. unfold charge; cbn. by rewrite Z.add_0_r. Qed.

(** The receive half an accepted frame leaves. *)
Definition arrived (r : wt_quic_receiving) (e : Z) : wt_quic_receiving :=
  set_recv_highest r (Z.max (recv_highest r) e).
Definition with_final (r : wt_quic_receiving) (size : Z) : wt_quic_receiving :=
  mk_receiving (final_size_state r size) (recv_offset r) (recv_highest r) size true
    (max_stream_data r) (window r) (sent_stop_sending r) (peer_reset r)
    (peer_error_code r) (peer_reliable_size r) (peer_reset_at r).
Definition data_accepted (r : wt_quic_receiving) (e : Z) (fin : bool) : wt_quic_receiving :=
  recv_completed (if fin then with_final (arrived r e) e else arrived r e).

Definition data_credit (r : wt_quic_receiving) (e : Z) : Z := Z.max 0 (e - recv_highest r).

Lemma set_recv_highest_same r : set_recv_highest r (recv_highest r) = r.
Proof. by destruct r. Qed.
Lemma with_rx_same s : with_rx s (rx s) = s.
Proof. by destruct s. Qed.
Lemma with_tx_same s : with_tx s (tx s) = s.
Proof. by destruct s. Qed.

Lemma arrived_eq r e : arrived r e = if recv_highest r <? e then set_recv_highest r e else r.
Proof.
  unfold arrived. destruct (Z.ltb_spec (recv_highest r) e).
  - by rewrite Z.max_r by lia.
  - rewrite Z.max_l by lia. apply set_recv_highest_same.
Qed.

(** A FIN that passes the tests passes [check_final_size] as well; one that does
    not is refused by it, and then the frame had no credit to charge. *)
Lemma check_arrived r e :
  recv_inv r ->
  (if has_recv_final_size r then e = recv_final_size r else recv_highest r <= e) ->
  check_final_size (arrived r e) e = (WT_OK, with_final (arrived r e) e).
Proof.
  intros [] He. destruct (check_final_size_cases (arrived r e) e) as [Hc|(_ & _ & Hc)]; [|done].
  exfalso. unfold check_final_size in Hc. cbn [arrived set_recv_highest has_recv_final_size
    recv_highest recv_final_size] in Hc.
  destruct (has_recv_final_size r); cbn [andb] in Hc; [specialize (ri_final0 eq_refl); subst e;
    rewrite Z.eqb_refl in Hc; cbn [negb] in Hc|];
  rewrite (proj2 (Z.ltb_ge _ _)) in Hc by lia; by inversion Hc.
Qed.

Lemma check_late_fin r e :
  e < recv_highest r -> check_final_size (arrived r e) e = (WT_ERR_PROTOCOL, r).
Proof.
  intros He. rewrite arrived_eq, (proj2 (Z.ltb_ge _ _)) by lia.
  destruct (check_final_size_cases r e) as [Hc|(_ & Hbad & _)]; [done|lia].
Qed.

Lemma credit_eq r e :
  recv_inv r -> is_u64 e ->
  (if recv_highest r <? e then u64 (e - recv_highest r) else 0) = data_credit r e /\
  (max_stream_data r <? u64 (recv_highest r + data_credit r e)) = negb (e <=? max_stream_data r).
Proof.
  intros [] He. unfold is_u64, data_credit in *.
  rewrite (u64_small (_ + _)) by (unfold is_u64; lia). split.
  - destruct (Z.ltb_spec (recv_highest r) e); no_wrap; lia.
  - rewrite <- Z.ltb_antisym. apply eq_true_iff_eq. rewrite !Z.ltb_lt. lia.
Qed.

Ltac refused := eexists _, _; split; [|reflexivity]; done.
Ltac limits :=
  match goal with |- context [negb (?a <=? ?b)] => destruct (a <=? b) end; cbn [negb andb];
  try match goal with |- context [if ?a <=? ?b then (WT_OK, _) else _] => destruct (a <=? b) end;
  first [done | refused].

Lemma on_data_spec s f offset length fin :
  recv_inv (rx s) -> flow_inv f -> is_u64 offset -> is_u64 length ->
  let r := rx s in let e := offset + length in
  if data_acceptable s f offset length fin
  then wt_quic_stream_on_data s f offset length fin =
         mk_on_data WT_OK (data_credit r e) (offset =? recv_offset r)
           (with_rx s (data_accepted r e fin)) (charge f (data_credit r e))
  else exists st io, st <> WT_OK /\
         wt_quic_stream_on_data s f offset length fin = mk_on_data st 0 io s f.
Proof.
  intros Hr Hf Ho Hl. unfold is_u64 in *. cbn zeta.
  unfold data_acceptable, wt_quic_stream_on_data, U64_MAX. cbn zeta.
  destruct (wt_quic_stream_recv_finished s && _); cbn [negb andb]; [refused|].
  destruct (Z.ltb_spec (2 ^ 64 - 1 - length) offset); ztest; [refused|].
  rewrite (u64_small (offset + length)) by (unfold is_u64; lia).
  assert (He64 : is_u64 (offset + length)) by (unfold is_u64; lia).
  revert He64. generalize (offset + length). clear Ho Hl. intros e He64.
  destruct (credit_eq (rx s) e Hr He64) as [-> ->]. fold (data_credit (rx s) e).
  rewrite <- arrived_eq, flow_on_received_spec by (done || (unfold data_credit; lia)).
  pose proof Hr as []. unfold data_accepted.
  pose proof (check_arrived (rx s) e Hr) as Hca.
  destruct (has_recv_final_size (rx s)); cbn [andb].
  - specialize (ri_final0 eq_refl). destruct (Z.ltb_spec (recv_final_size (rx s)) e).
    + destruct fin; ztest; refused.
    + ztest. destruct fin; cbn [andb].
      * destruct (Z.eqb_spec e (recv_final_size (rx s))) as [He|]; cbn [negb andb]; [|refused].
        rewrite (Hca He). limits.
      * limits.
  - destruct fin; cbn [negb orb andb].
    + destruct (Z.leb_spec (recv_highest (rx s)) e) as [Hle|Hlt]; cbn [andb].
      * rewrite (Hca Hle). limits.
      * rewrite check_late_fin by done. replace (data_credit (rx s) e) with 0 by (unfold data_credit; lia).
        rewrite charge_0, with_rx_same. limits.
    + limits.
Qed.


Lemma recv_highest_accepted r e fin :
  recv_highest (data_accepted r e fin) = recv_highest r + data_credit r e.
Proof.
  unfold data_accepted, recv_completed, data_credit. destruct fin; case_match; cbn; lia.
Qed.

Lemma data_accepted_inv r e (fin : bool) :
  recv_inv r -> is_u64 e -> e <= max_stream_data r ->
  (if has_recv_final_size r then if fin then e = recv_final_size r else e <= recv_final_size r
   else fin = false \/ recv_highest r <= e) ->
  recv_inv (data_accepted r e fin).
Proof.
  intros [] He Hm Hf. unfold is_u64 in He.
  unfold data_accepted, recv_completed, arrived, with_final, final_size_state, set_recv_highest.
  destruct r as [st off hi fs hf mx wn ss pr pe prl pra]; cbn in *.
  destruct fin, hf; cbn [has_recv_final_size recv_final_size recv_highest recv_state andb];
    repeat match goal with |- context [?a <=? ?b] => destruct (Z.leb_spec a b) end;
    destruct st; cbn [andb has_recv_final_size recv_final_size recv_highest recv_state set_recv_state];
    try rewrite bool_decide_true by done; try rewrite bool_decide_false by done; recv_inv_tac.
Qed.

Lemma acceptable_inv s f offset length fin :
  recv_inv (rx s) -> flow_inv f -> is_u64 offset -> is_u64 length ->
  data_acceptable s f offset length fin = true ->
  recv_inv (data_accepted (rx s) (offset + length) fin) /\
  flow_inv (charge f (data_credit (rx s) (offset + length))).
Proof.
  unfold data_acceptable, U64_MAX, is_u64. cbn zeta. intros Hr Hf Ho Hl Ha.
  rewrite !andb_true_iff, !Z.leb_le in Ha. destruct Ha as [[[[_ He] Hs] Hm] Hc]. split.
  - apply data_accepted_inv; [done|unfold is_u64; lia|done|].
    destruct (has_recv_final_size (rx s)), fin; cbn in Hs; reflect_bools; auto.
  - unfold flow_inv, charge, data_credit in *; cbn. lia.
Qed.

Lemma stream_init_inv id by_us bidi m p : is_u64 m -> recv_inv (rx (wt_quic_stream_init id by_us bidi m p)).
Proof. unfold is_u64. intros. recv_inv_tac. Qed.

Lemma flow_init_inv m p : is_u64 m -> is_u64 p -> flow_inv (wt_quic_flow_init m p).
Proof. unfold is_u64, flow_inv, wt_quic_flow_init; cbn. intros. zdm. Qed.

(** ** The events of a stream *)

(** Everything that happens to one stream: frames received, calls made by the
    sender, reads by the application, limits advertised. *)
Inductive stream_event :=
  | EvData (offset length : Z) (fin : bool)
  | EvReset (code size : Z)
  | EvResetAt (code size reliable : Z)
  | EvStopSending (code : Z)
  | EvMaxStreamData (m : Z)
  | EvDataRead (n : Z)
  | EvResetRead
  | EvMaxStreamDataSent (m : Z)
  | EvMaxDataSent (m : Z)
  | EvDataSent (n : Z)
  | EvFlowSent (n : Z)
  | EvMaxData (m : Z)
  | EvFinSent
  | EvAck (n : Z)
  | EvResetSent (code : Z).

Definition on_stream (p : wt_status * wt_quic_stream) (f : wt_quic_flow)
    : wt_status * wt_quic_stream * wt_quic_flow := (p.1, p.2, f).

Definition stream_step (ev : stream_event) (s : wt_quic_stream) (f : wt_quic_flow)
    : wt_status * wt_quic_stream * wt_quic_flow :=
  match ev with
  | EvData offset length fin =>
      let r := wt_quic_stream_on_data s f offset length fin in
      (od_status r, od_stream r, od_flow r)
  | EvReset code size => on_stream (wt_quic_stream_on_reset_received s code size) f
  | EvResetAt code size reliable =>
      on_stream (wt_quic_stream_on_reset_at_received s code size reliable) f
  | EvStopSending code => on_stream (wt_quic_stream_on_stop_sending s code) f
  | EvMaxStreamData m => on_stream (wt_quic_stream_on_max_stream_data s m) f
  | EvDataRead n => on_stream (wt_quic_stream_on_data_read s n) f
  | EvResetRead => on_stream (wt_quic_stream_on_reset_read s) f
  | EvMaxStreamDataSent m => (WT_OK, wt_quic_stream_on_max_stream_data_sent s m, f)
  | EvMaxDataSent m => (WT_OK, s, wt_quic_flow_on_max_data_sent f m)
  | EvDataSent n => on_stream (wt_quic_stream_on_data_sent s n) f
  | EvFlowSent n => let '(st, f') := wt_quic_flow_on_sent f n in (st, s, f')
  | EvMaxData m => let '(st, f') := wt_quic_flow_on_max_data f m in (st, s, f')
  | EvFinSent => on_stream (wt_quic_stream_on_fin_sent s) f
  | EvAck n => on_stream (wt_quic_stream_on_ack s n) f
  | EvResetSent code => on_stream (wt_quic_stream_on_reset_sent s code) f
  end.

(** Arguments are 64-bit integers. *)
Definition event_ok (ev : stream_event) : Prop :=
  match ev with
  | EvData a b _ | EvReset a b => is_u64 a /\ is_u64 b
  | EvResetAt a b c => is_u64 a /\ is_u64 b /\ is_u64 c
  | EvStopSending a | EvMaxStreamData a | EvDataRead a | EvMaxStreamDataSent a
  | EvMaxDataSent a | EvDataSent a | EvFlowSent a | EvMaxData a | EvAck a | EvResetSent a => is_u64 a
  | EvResetRead | EvFinSent => True
  end.

(** What one event may do to the receive half and to the connection's account. *)
Record step_good (s : wt_quic_stream) (f : wt_quic_flow)
    (res : wt_status * wt_quic_stream * wt_quic_flow) : Prop := {
  sg_recv : recv_inv (rx res.1.2);
  sg_flow : flow_inv res.2;
  sg_credit : fl_data_received res.2 - fl_data_received f =
              recv_highest (rx res.1.2) - recv_highest (rx s);
  sg_mono : recv_highest (rx s) <= recv_highest (rx res.1.2) /\
            recv_offset (rx s) <= recv_offset (rx res.1.2);
  sg_final : has_recv_final_size (rx s) = true ->
             has_recv_final_size (rx res.1.2) = true /\
             recv_final_size (rx res.1.2) = recv_final_size (rx s);
  sg_refused : res.1.1 <> WT_OK -> res.1.2 = s /\ res.2 = f }.

Lemma step_good_same s f st : recv_inv (rx s) -> flow_inv f -> step_good s f (st, s, f).
Proof. intros. constructor; cbn; auto; lia. Qed.

(** An event that leaves the offsets and the flow alone. *)
Lemma step_good_rx s f s' :
  recv_inv (rx s') -> flow_inv f ->
  recv_highest (rx s') = recv_highest (rx s) -> recv_offset (rx s) <= recv_offset (rx s') ->
  (has_recv_final_size (rx s) = true ->
   has_recv_final_size (rx s') = true /\ recv_final_size (rx s') = recv_final_size (rx s)) ->
  step_good s f (WT_OK, s', f).
Proof. intros ? ? Hh ? ?. constructor; cbn; rewrite ?Hh; auto; try lia; done. Qed.

Lemma step_good_data s f offset length fin :
  is_u64 offset -> is_u64 length -> recv_inv (rx s) -> flow_inv f ->
  step_good s f (stream_step (EvData offset length fin) s f).
Proof.
  intros Ho Hl Hr Hf. pose proof (on_data_spec s f offset length fin Hr Hf Ho Hl) as H.
  cbn [stream_step]. destruct (data_acceptable s f offset length fin) eqn:Ha; cbn zeta in H.
  - rewrite H. pose proof (acceptable_inv _ _ _ _ _ Hr Hf Ho Hl Ha) as [Hr' Hf'].
    constructor; cbn [fst snd od_status od_stream od_flow with_rx rx]; [done|done| | | |done].
    + rewrite recv_highest_accepted. cbn. lia.
    + rewrite recv_highest_accepted. unfold data_credit, data_accepted, recv_completed.
      split; [lia|]. destruct fin; case_match; cbn; lia.
    + unfold data_acceptable in Ha. intros Hh. rewrite Hh in Ha. cbn zeta in Ha.
      rewrite !andb_true_iff in Ha. destruct Ha as [[[_ Hs] _] _].
      unfold data_accepted, recv_completed. destruct fin; case_match; cbn; reflect_bools; auto.
  - destruct H as (st & io & _ & ->). by apply step_good_same.
Qed.

Lemma step_good_reset s f code size :
  is_u64 code -> is_u64 size -> recv_inv (rx s) -> flow_inv f ->
  step_good s f (stream_step (EvReset code size) s f).
Proof.
  intros Hc Hs Hr Hf. cbn [stream_step]. unfold wt_quic_stream_on_reset_received, on_stream.
  destruct (check_final_size_cases (rx s) size) as [->|(Hfin & Hle & ->)]; cbn [fst snd].
  - rewrite with_rx_same. by apply step_good_same.
  - apply step_good_rx; cbn; [|done|done|lia|intros Hh; by rewrite (Hfin Hh)].
    apply (set_reset_inv (rx s)); auto. intros Ha. pose proof Hr as [].
    destruct (ri_reliable0 Ha) as (_ & Hh & Hrel). by rewrite (Hfin Hh) in Hrel.
Qed.

Lemma step_good_reset_at s f code size reliable :
  is_u64 code -> is_u64 size -> is_u64 reliable -> recv_inv (rx s) -> flow_inv f ->
  step_good s f (stream_step (EvResetAt code size reliable) s f).
Proof.
  intros Hc Hs Hrel Hr Hf. cbn [stream_step]. unfold wt_quic_stream_on_reset_at_received, on_stream.
  destruct (Z.ltb_spec size reliable); [by apply step_good_same|].
  destruct (peer_reset (rx s) && negb (peer_reset_at (rx s))); [by apply step_good_same|].
  destruct (check_final_size_cases (rx s) size) as [->|(Hfin & Hle & ->)]; cbn [fst snd].
  { rewrite with_rx_same. by apply step_good_same. }
  pose proof Hr as []. cbn [peer_reset_at peer_error_code peer_reliable_size].
  destruct (peer_reset_at (rx s)) eqn:Hat.
  - (** the final size was known, so re-checking it changed nothing *)
    destruct (ri_reliable0 eq_refl) as (_ & Hh & Hb). specialize (Hfin Hh). subst size.
    replace (mk_receiving _ _ _ _ true _ _ _ _ _ _ true) with (rx s).
    2:{ destruct (rx s) as [[] ? ? ? []]; cbn in *; subst; try done. by specialize (ri_recv0 eq_refl). }
    rewrite with_rx_same. destruct (negb _); [by apply step_good_same|].
    destruct (Z.leb_spec (peer_reliable_size (rx s)) reliable); [by apply step_good_same|].
    apply step_good_rx; cbn; [|done|done|lia|auto].
    unfold is_u64 in Hrel. clear Hr. destruct (rx s); recv_inv_tac.
  - apply step_good_rx; cbn; [|done|done|lia|].
    + apply (set_reset_inv (rx s)); auto. unfold is_u64 in Hrel. lia.
    + intros Hh. by rewrite (Hfin Hh).
Qed.

Lemma step_good_data_read s f n :
  is_u64 n -> recv_inv (rx s) -> flow_inv f -> step_good s f (stream_step (EvDataRead n) s f).
Proof.
  intros Hn Hr Hf. cbn [stream_step]. unfold wt_quic_stream_on_data_read, on_stream.
  pose proof Hr as []. unfold is_u64 in Hn. no_wrap.
  destruct (_ || _); [by apply step_good_same|].
  destruct (Z.ltb_spec (recv_highest (rx s) - recv_offset (rx s)) n); [by apply step_good_same|].
  no_wrap. clear Hr. destruct s as [id us bidi t [st off hi fs hf mx wn ss pr pe prl pra]]; cbn in *.
  apply step_good_rx; cbn; [|done|..].
  - destruct st; cbn; try rewrite bool_decide_true by done; try rewrite bool_decide_false by done; cbn;
      try destruct (Z.leb_spec fs (off + n)); recv_inv_tac.
  - by case_match.
  - case_match; cbn; lia.
  - intros ->. by case_match.
Qed.

Lemma step_good_flow s f f' :
  recv_inv (rx s) -> flow_inv f' -> fl_data_received f' = fl_data_received f ->
  step_good s f (WT_OK, s, f').
Proof. intros ? ? Hd. constructor; cbn; auto; try lia. done. Qed.

Lemma flow_allowance_spec f :
  flow_inv f -> wt_quic_flow_send_allowance f = Z.max 0 (fl_peer_max_data f - fl_data_sent f).
Proof.
  intros (_ & _ & Hs & Hp & _). unfold wt_quic_flow_send_allowance.
  destruct (Z.leb_spec (fl_peer_max_data f) (fl_data_sent f)); no_wrap; lia.
Qed.

Lemma step_good_flow_sent s f n :
  is_u64 n -> recv_inv (rx s) -> flow_inv f -> step_good s f (stream_step (EvFlowSent n) s f).
Proof.
  intros Hn Hr Hf. cbn [stream_step]. unfold wt_quic_flow_on_sent, wt_quic_flow_can_send.
  rewrite flow_allowance_spec by done. unfold is_u64 in Hn. pose proof Hf as (? & ? & Hs & ? & ?).
  destruct (Z.leb_spec n (Z.max 0 (fl_peer_max_data f - fl_data_sent f))); cbn [negb];
    [|by apply step_good_same].
  apply step_good_flow; [done| |done]. unfold flow_inv; cbn.
  pose proof (u64_is_u64 (fl_data_sent f + n)) as Hu. unfold is_u64 in Hu. lia.
Qed.

Lemma step_good_reset_read s f :
  recv_inv (rx s) -> flow_inv f -> step_good s f (stream_step EvResetRead s f).
Proof.
  intros Hr Hf. cbn [stream_step]. unfold on_stream, wt_quic_stream_on_reset_read.
  case_bool_decide as Hst; cbn [negb fst snd]; [|by apply step_good_same].
  apply step_good_rx; cbn; [|done|done|lia|by auto].
  pose proof Hr as []. clear Hr. destruct s as [? ? ? ? []]; cbn in *; recv_inv_tac.
Qed.

(** The events that touch neither the offsets nor the final size. *)
Lemma step_good_other ev s f :
  match ev with
  | EvData _ _ _ | EvReset _ _ | EvResetAt _ _ _ | EvDataRead _ | EvResetRead | EvFlowSent _ => False
  | _ => True
  end ->
  event_ok ev -> recv_inv (rx s) -> flow_inv f -> step_good s f (stream_step ev s f).
Proof.
  intros He Hok Hr Hf. destruct ev; try done; cbn in Hok; unfold is_u64 in Hok;
    cbn [stream_step]; unfold on_stream, wt_quic_stream_on_stop_sending,
      wt_quic_stream_on_max_stream_data, wt_quic_stream_on_reset_read,
      wt_quic_stream_on_max_stream_data_sent, wt_quic_flow_on_max_data_sent,
      wt_quic_stream_on_data_sent, wt_quic_flow_on_sent, wt_quic_flow_on_max_data,
      wt_quic_stream_on_fin_sent, wt_quic_stream_on_ack, wt_quic_stream_on_reset_sent,
      wt_quic_flow_can_send, wt_quic_flow_send_allowance;
    repeat case_match; cbn [fst snd] in *; simplify_eq; try (by apply step_good_same);
    try (apply step_good_rx; cbn; try done; try lia; intros; try (split; done);
         pose proof Hr as []; clear Hr; destruct s as [? ? ? ? []]; recv_inv_tac; fail).
  all: try (apply step_good_flow; [done| |done]; unfold flow_inv in *; cbn; reflect_bools; no_wrap; lia).
Qed.

Lemma receive_step_good ev s f :
  event_ok ev -> recv_inv (rx s) -> flow_inv f -> step_good s f (stream_step ev s f).
Proof.
  intros Hok Hr Hf. destruct ev; cbn [event_ok] in Hok; destruct_and?;
    auto using step_good_data, step_good_reset, step_good_reset_at, step_good_data_read,
      step_good_reset_read, step_good_flow_sent; by apply step_good_other.
Qed.

(** Every operation on a stream keeps the receive half well-formed and the connection window within its credit, charges the window exactly by what the highest received offset grew, never moves an offset backwards, never changes a final size once known, and changes nothing at all when it returns an error. *)
Lemma receive_half_invariant ev s f :
  event_ok ev -> recv_inv (rx s) -> flow_inv f ->
  let '(st, s', f') := stream_step ev s f in
  recv_inv (rx s') /\ flow_inv f' /\
  fl_data_received f' - fl_data_received f = recv_highest (rx s') - recv_highest (rx s) /\
  recv_highest (rx s) <= recv_highest (rx s') /\ recv_offset (rx s) <= recv_offset (rx s') /\
  (has_recv_final_size (rx s) = true ->
   has_recv_final_size (rx s') = true /\ recv_final_size (rx s') = recv_final_size (rx s)) /\
  (st <> WT_OK -> s' = s /\ f' = f).
Proof.
  intros Hok Hr Hf. pose proof (receive_step_good ev s f Hok Hr Hf) as [].
  destruct (stream_step ev s f) as [[st s'] f']; cbn in *. destruct sg_mono0. by split_and!.
Qed.

Lemma receive_half_invariant_witness :
  let s := wt_quic_stream_init 1 false true 100 0 in
  let f := wt_quic_flow_init 100 0 in
  recv_inv (rx (stream_step (EvData 10 5 true) s f).1.2).
Proof.
  intros s f. refine (proj1 (receive_half_invariant (EvData 10 5 true) s f _ _ _)).
  - split; unfold is_u64; lia.
  - apply stream_init_inv. unfold is_u64; lia.
  - apply flow_init_inv; unfold is_u64; lia.
Defined.



(** ** The connection's account over all its streams *)

Record stream_system := mk_system { sys_streams : list wt_quic_stream; sys_flow : wt_quic_flow }.

Inductive system_action :=
  | ActOpen (id : Z) (by_us bidi : bool) (max peer_max : Z)
  | ActEvent (i : nat) (ev : stream_event).

Definition action_ok (a : system_action) : Prop :=
  match a with
  | ActOpen _ _ _ max peer_max => is_u64 max /\ is_u64 peer_max
  | ActEvent _ ev => event_ok ev
  end.

Definition system_step (y : stream_system) (a : system_action) : stream_system :=
  match a with
  | ActOpen id by_us bidi max peer_max =>
      mk_system (sys_streams y ++ [wt_quic_stream_init id by_us bidi max peer_max]) (sys_flow y)
  | ActEvent i ev =>
      match sys_streams y !! i with
      | None => y
      | Some s =>
          let '(_, s', f') := stream_step ev s (sys_flow y) in
          mk_system (<[i := s']> (sys_streams y)) f'
      end
  end.
Definition system_run (y : stream_system) (l : list system_action) : stream_system :=
  fold_left system_step l y.

Definition highest_total (l : list wt_quic_stream) : Z := zsum (fun s => recv_highest (rx s)) l.

Definition system_inv (y : stream_system) : Prop :=
  Forall (fun s => recv_inv (rx s)) (sys_streams y) /\ flow_inv (sys_flow y) /\
  highest_total (sys_streams y) = fl_data_received (sys_flow y).

Lemma system_step_inv y a : action_ok a -> system_inv y -> system_inv (system_step y a).
Proof.
  intros Ha (Hs & Hf & Ht). destruct a as [id us bidi m p|i ev]; cbn [action_ok system_step] in *.
  - destruct Ha. split_and!; [|done|].
    + apply Forall_app. split; [done|]. constructor; [by apply stream_init_inv|constructor].
    + cbn [sys_streams sys_flow]. unfold highest_total in *. rewrite zsum_app, zsum_cons, zsum_nil. cbn. lia.
  - destruct (sys_streams y !! i) as [s|] eqn:Hi; [|by split_and!].
    pose proof (receive_step_good ev s (sys_flow y) Ha (Forall_lookup_1 _ _ _ _ Hs Hi) Hf) as [].
    destruct (stream_step ev s (sys_flow y)) as [[st s'] f']; cbn [fst snd] in *. split_and!.
    + by apply Forall_insert.
    + done.
    + cbn [sys_streams sys_flow]. unfold highest_total in *. rewrite (zsum_insert _ _ _ s) by done. lia.
Qed.

Lemma system_run_inv l y : Forall action_ok l -> system_inv y -> system_inv (system_run y l).
Proof.
  intros Hl. revert y. induction Hl as [|a l Ha Hl IH]; intros y Hy; [done|].
  apply IH. by apply system_step_inv.
Qed.

(** C9. Receive-side flow control of a whole connection. After any sequence of stream
    openings and of well-formed events on any stream, the connection window has been charged
    exactly the sum over the streams of the highest offset each has received; that sum is
    within the credit advertised; and on every stream the in-order offset is at most the
    highest offset, which is within the credit the stream was given and within its final
    size when that is known. *)
Theorem connection_credit_conserved imax pmax actions :
  is_u64 imax -> is_u64 pmax -> Forall action_ok actions ->
  let y := system_run (mk_system [] (wt_quic_flow_init imax pmax)) actions in
  highest_total (sys_streams y) = fl_data_received (sys_flow y) /\
  fl_data_received (sys_flow y) <= fl_max_data (sys_flow y) /\
  Forall (fun s => recv_offset (rx s) <= recv_highest (rx s) <= max_stream_data (rx s) /\
            (has_recv_final_size (rx s) = true -> recv_highest (rx s) <= recv_final_size (rx s)))
         (sys_streams y).
Proof.
  intros Hi Hp Ha y.
  destruct (system_run_inv actions (mk_system [] (wt_quic_flow_init imax pmax)) Ha)
    as (Hs & ((_ & Hf) & _) & Ht).
  { split_and!; [constructor|by apply flow_init_inv|done]. }
  fold y in Hs, Hf, Ht. split_and!; [done|lia|].
  eapply Forall_impl; [exact Hs|]. intros s []. split; [lia|]. intros Hh. by apply ri_final0.
Qed.

Lemma connection_credit_conserved_witness :
  let y := system_run (mk_system [] (wt_quic_flow_init 1000 1000))
    [ActOpen 1 false true 500 0; ActEvent 0 (EvData 10 5 false); ActEvent 0 (EvData 0 10 false);
     ActEvent 0 (EvDataRead 15)] in
  highest_total (sys_streams y) = fl_data_received (sys_flow y) /\ fl_data_received (sys_flow y) = 15.
Proof.
  intros y. split; [|reflexivity].
  refine (proj1 (connection_credit_conserved 1000 1000 _ _ _ _)); repeat constructor; unfold is_u64; lia.
Defined.

(** ** The send half *)

(** The edges of RFC 9000 section 3.1 the code takes, with staying put. *)
Definition send_edge (a b : wt_quic_send_state) : bool :=
  match a, b with
  | SEND_READY, (SEND_READY | SEND_SEND | SEND_DATA_SENT | SEND_RESET_SENT)
  | SEND_SEND, (SEND_SEND | SEND_DATA_SENT | SEND_RESET_SENT)
  | SEND_DATA_SENT, (SEND_DATA_SENT | SEND_DATA_RECVD)
  | SEND_RESET_SENT, (SEND_RESET_SENT | SEND_RESET_RECVD)
  | SEND_DATA_RECVD, SEND_DATA_RECVD
  | SEND_RESET_RECVD, SEND_RESET_RECVD => true
  | _, _ => false
  end.

Record send_inv (t : wt_quic_sending) : Prop := {
  si_final : has_final_size t = send_finished_state (send_state t);
  si_size : has_final_size t = true -> final_size t = send_offset t;
  si_fin : fin_sent t = true -> send_state t = SEND_DATA_SENT \/ send_state t = SEND_DATA_RECVD;
  si_ready : send_state t = SEND_READY -> send_offset t = 0;
  si_acked : send_state t = SEND_DATA_RECVD \/ send_state t = SEND_RESET_RECVD ->
             final_size t <= send_acked t }.

Lemma send_init_inv id by_us bidi m p : send_inv (tx (wt_quic_stream_init id by_us bidi m p)).
Proof. constructor; cbn; intros; try done; by destruct_or?. Qed.

Lemma send_edge_refl a : send_edge a a = true.
Proof. by destruct a. Qed.

(** The events of the receive half and of the connection's account. *)
Definition receives (ev : stream_event) : bool :=
  match ev with
  | EvData _ _ _ | EvReset _ _ | EvResetAt _ _ _ | EvDataRead _ | EvResetRead
  | EvMaxStreamDataSent _ | EvMaxDataSent _ | EvFlowSent _ | EvMaxData _ => true
  | _ => false
  end.

Lemma receive_keeps_tx ev s f : receives ev = true -> tx (stream_step ev s f).1.2 = tx s.
Proof.
  destruct ev; try done; intros _; cbn [stream_step]; unfold on_stream, wt_quic_stream_on_data,
    wt_quic_stream_on_reset_received, wt_quic_stream_on_reset_at_received,
    wt_quic_stream_on_data_read, wt_quic_stream_on_reset_read,
    wt_quic_stream_on_max_stream_data_sent; by repeat (case_match; cbn).
Qed.

Ltac send_tac :=
  split_and!; try (constructor; cbn); intros; cbn in *; simplify_eq;
  repeat match goal with
  | H : _ \/ _ |- _ => destruct H; try discriminate
  | H : ?x = ?x -> _ |- _ => specialize (H eq_refl)
  | H : ?x = ?x \/ _ -> _ |- _ => specialize (H (or_introl eq_refl))
  | H : _ \/ ?x = ?x -> _ |- _ => specialize (H (or_intror eq_refl))
  end; subst; try done; try lia; auto.

(** Every operation moves the send half only along the edges of its state machine, keeps its invariant, never lowers the acknowledged offset or the peer credit, and once the half is finished neither its offset nor its final size changes. *)
Lemma send_half_machine ev s f :
  event_ok ev -> send_inv (tx s) ->
  let s' := (stream_step ev s f).1.2 in
  send_inv (tx s') /\ send_edge (send_state (tx s)) (send_state (tx s')) = true /\
  (wt_quic_stream_send_finished s = true ->
   wt_quic_stream_send_finished s' = true /\ send_offset (tx s') = send_offset (tx s) /\
   final_size (tx s') = final_size (tx s)) /\
  send_acked (tx s) <= send_acked (tx s') /\
  peer_max_stream_data (tx s) <= peer_max_stream_data (tx s').
Proof.
  intros Hok Hi. cbn zeta. destruct (receives ev) eqn:Hrec.
  - unfold wt_quic_stream_send_finished. rewrite (receive_keeps_tx ev s f Hrec).
    split_and!; auto using send_edge_refl; lia.
  - destruct Hi as []. unfold wt_quic_stream_send_finished.
    destruct s as [id us bidi [st off ak fs hf fin pm] r]; cbn in *. subst hf.
    destruct ev; try discriminate; cbn in Hok |- *; unfold is_u64 in Hok;
      unfold on_stream, wt_quic_stream_on_data_sent, wt_quic_stream_on_fin_sent,
        wt_quic_stream_on_ack, wt_quic_stream_on_reset_sent, wt_quic_stream_on_stop_sending,
        wt_quic_stream_on_max_stream_data, wt_quic_stream_send_finished; cbn;
      destruct st, fin; cbn; decide_bools; cbn; repeat (case_match; decide_bools; cbn);
      reflect_bools; send_tac.
Qed.

Lemma send_half_machine_witness :
  let s := wt_quic_stream_init 0 true true 0 100 in
  send_inv (tx (stream_step EvFinSent s (wt_quic_flow_init 0 100)).1.2).
Proof. intros s. refine (proj1 (send_half_machine EvFinSent s _ I _)). apply send_init_inv. Defined.

(** When the stream says it can send n bytes, recording them on the stream and on the connection both succeed and leave each within the limit the peer advertised. *)
Lemma sender_within_limits s f n :
  flow_inv f -> 0 < n -> 0 <= send_offset (tx s) -> peer_max_stream_data (tx s) < 2 ^ 64 ->
  wt_quic_stream_can_send s f n = true ->
  exists s' f', wt_quic_stream_on_data_sent s n = (WT_OK, s') /\
    wt_quic_flow_on_sent f n = (WT_OK, f') /\
    send_offset (tx s') = send_offset (tx s) + n /\ send_offset (tx s') <= peer_max_stream_data (tx s') /\
    fl_data_sent f' = fl_data_sent f + n /\ fl_data_sent f' <= fl_peer_max_data f' /\ flow_inv f'.
Proof.
  intros Hf Hn Ho Hp. unfold wt_quic_stream_can_send, wt_quic_stream_send_allowance.
  rewrite flow_allowance_spec by done. unfold wt_quic_stream_on_data_sent.
  destruct (wt_quic_stream_send_finished s); [intros; reflect_bools; lia|]. cbn zeta.
  destruct (Z.leb_spec (peer_max_stream_data (tx s)) (send_offset (tx s))).
  { intros Ha. exfalso. case_match; reflect_bools; lia. }
  no_wrap. intros Ha.
  assert (n <= peer_max_stream_data (tx s) - send_offset (tx s) /\
          n <= fl_peer_max_data f - fl_data_sent f) as [? ?]
    by (case_match; reflect_bools; lia).
  pose proof Hf as (? & ? & ? & ? & ?).
  unfold wt_quic_flow_on_sent, wt_quic_flow_can_send. rewrite flow_allowance_spec by done.
  ztest. cbn [negb]. no_wrap. eexists _, _. split_and!; [done|done|..]; cbn; try lia.
  unfold flow_inv; cbn. lia.
Qed.

Lemma sender_within_limits_witness :
  exists s' f', wt_quic_stream_on_data_sent (wt_quic_stream_init 0 true true 0 100) 40 = (WT_OK, s') /\
    wt_quic_flow_on_sent (wt_quic_flow_init 0 50) 40 = (WT_OK, f') /\ send_offset (tx s') = 40.
Proof.
  destruct (sender_within_limits (wt_quic_stream_init 0 true true 0 100) (wt_quic_flow_init 0 50) 40)
    as (s' & f' & H1 & H2 & H3 & _); try (cbn; lia); try reflexivity.
  - apply flow_init_inv; unfold is_u64; lia.
  - exists s', f'. split; [exact H1|split; [exact H2|exact H3]].
Defined.

(** ** The table's invariant *)

Definition live_entry (t : wt_quic_stream_table) (i : nat) (s : wt_quic_stream) : Prop :=
  tb_slots t !! i = Some (mk_entry true s).

Definition used_count (l : list table_entry) : Z := zsum (fun e => if e_used e then 1 else 0) l.

Record table_inv (t : wt_quic_stream_table) : Prop := {
  ti_len : length (tb_slots t) = WT_QUIC_STREAM_TABLE_MAX;
  ti_count : tb_count t = used_count (tb_slots t);
  ti_unique : forall i j s s', live_entry t i s -> live_entry t j s' -> st_id s = st_id s' -> i = j;
  ti_opened : forall u b, is_u64 (table_opened t u b) }.

Lemma used_count_bound l : 0 <= used_count l <= zlen l.
Proof.
  split; [apply zsum_nonneg|apply zsum_le_len]; apply Forall_forall; intros; case_match; lia.
Qed.

Lemma entry_is_spec id e :
  entry_is id e = true <-> exists s, e = mk_entry true s /\ st_id s = id.
Proof.
  destruct e as [u s]; unfold entry_is; cbn. rewrite andb_true_iff, Z.eqb_eq. split.
  - intros [-> <-]. by exists s.
  - intros (s' & [= -> ->] & <-). done.
Qed.

Lemma table_find_spec t id s :
  table_inv t ->
  wt_quic_stream_table_find t id = Some s <-> st_id s = id /\ exists i, live_entry t i s.
Proof.
  intros []. unfold wt_quic_stream_table_find, table_slot, slot_stream. split.
  - destruct (first_index _ _) as [i|] eqn:Hi; [|done].
    apply first_index_Some in Hi as [(e & He & Hp) _]. apply entry_is_spec in Hp as (s' & -> & Hid).
    rewrite He. cbn. intros [= <-]. split; [done|]. by exists i.
  - intros (Hid & i & Hl). destruct (first_index _ _) as [j|] eqn:Hj.
    + apply first_index_Some in Hj as [(e & He & Hp) _]. apply entry_is_spec in Hp as (s' & -> & Hid').
      assert (i = j) as -> by (eapply ti_unique0; [exact Hl|exact He|congruence]).
      unfold live_entry in Hl. rewrite Hl. done.
    + apply first_index_None in Hj. rewrite Forall_lookup in Hj. specialize (Hj _ _ Hl).
      unfold entry_is in Hj; cbn in Hj. by rewrite (proj2 (Z.eqb_eq _ _) Hid) in Hj.
Qed.

Lemma table_find_none t id :
  table_slot t id = None <-> forall i s, live_entry t i s -> st_id s <> id.
Proof.
  unfold table_slot. rewrite first_index_None, Forall_lookup. split.
  - intros H i s Hl Hid. specialize (H _ _ Hl). unfold entry_is in H; cbn in H.
    by rewrite (proj2 (Z.eqb_eq _ _) Hid) in H.
  - intros H i e He. destruct (entry_is id e) eqn:Hp; [|done].
    apply entry_is_spec in Hp as (s & -> & Hid). by destruct (H i s He).
Qed.

(** *** The reclaim sweep *)

Definition sweep (e : table_entry) : table_entry := if reclaimable e then free_entry e else e.

Lemma reclaim_loop_spec l i c slot :
  used_count l <= c < 2 ^ 64 ->
  reclaim_loop l i c slot =
    (sweep <$> l, c - used_count l + used_count (sweep <$> l),
     match slot with
     | Some k => Some k
     | None => (fun j => (i + j)%nat) <$> first_index reclaimable l
     end).
Proof.
  unfold used_count. revert i c slot.
  induction l as [|e l IH]; intros i c slot Hc; cbn [reclaim_loop fmap list_fmap first_index].
  - rewrite !zsum_nil. f_equal; [f_equal; lia|]. by destruct slot.
  - rewrite zsum_cons in *. rewrite zsum_cons.
    pose proof (proj1 (used_count_bound l)) as Hl. unfold used_count in Hl.
    destruct (reclaimable e) eqn:He.
    + assert (Hs : sweep e = free_entry e) by (unfold sweep; by rewrite He). rewrite Hs.
      assert (Hu : e_used e = true) by (unfold reclaimable in He; by destruct (e_used e)).
      rewrite Hu in Hc |- *. no_wrap. rewrite IH by lia.
      cbn [free_entry e_used].
      f_equal; [f_equal; lia|]. destruct slot; cbn; [done|]. f_equal. lia.
    + assert (Hs : sweep e = e) by (unfold sweep; by rewrite He). rewrite Hs.
      rewrite IH by (case_match; lia).
      f_equal; [f_equal; lia|]. destruct slot; [done|].
      destruct (first_index reclaimable l); cbn; [|done]. f_equal. lia.
Qed.

(** Placing a new stream in a free slot of a table without its number. *)
Lemma table_place_inv t k e id by_us :
  table_inv t -> tb_slots t !! k = Some e -> e_used e = false ->
  (forall i s, live_entry t i s -> st_id s <> id) ->
  let bidi := wt_quic_stream_id_is_bidirectional id in
  let t' := table_place t k id by_us bidi in
  table_inv t' /\
  (forall u b, table_opened t' u b =
    if eqb by_us u && eqb bidi b then u64 (table_opened t u b + 1) else table_opened t u b) /\
  (forall s, (exists i, live_entry t' i s) <->
     s = wt_quic_stream_init id by_us bidi 0 0 \/ exists i, live_entry t i s).
Proof.
  intros Hinv Hk He Hno bidi t'. pose proof Hinv as [].
  assert (Hop : forall u b, table_opened t' u b =
    if eqb by_us u && eqb bidi b then u64 (table_opened t u b + 1) else table_opened t u b)
    by (intros [] []; reflexivity).
  set (s0 := wt_quic_stream_init id by_us bidi 0 0).
  assert (Hslots : tb_slots t' = <[k := mk_entry true s0]> (tb_slots t)) by done.
  assert (Hlt : (k < length (tb_slots t))%nat) by (by eapply lookup_lt_Some).
  assert (Hlive : forall i s, live_entry t' i s <-> (i = k /\ s = s0) \/ (i <> k /\ live_entry t i s)).
  { intros i s. unfold live_entry. rewrite Hslots. destruct (decide (i = k)) as [->|Hne].
    - rewrite list_lookup_insert_eq by done. split; [intros [=]; by left|intros [[_ ->]|[]]; done].
    - rewrite list_lookup_insert_ne by done. split; [by right|intros [[]|[]]; done]. }
  assert (Hnk : forall s, ~ live_entry t k s) by (intros s Hl; unfold live_entry in Hl; simplify_eq).
  split_and!; [|done|].
  - constructor.
    + by rewrite Hslots, length_insert.
    + change (tb_count t') with (u64 (tb_count t + 1)). rewrite Hslots.
      unfold used_count. rewrite (zsum_insert _ _ _ e) by done. rewrite He; cbn [e_used].
      pose proof (used_count_bound (tb_slots t)) as Hb. unfold zlen in Hb. rewrite ti_len0 in Hb.
      fold (used_count (tb_slots t)). change (Z.of_nat WT_QUIC_STREAM_TABLE_MAX) with 32 in Hb.
      rewrite ti_count0. no_wrap. lia.
    + intros i j s s' Hi Hj Hid. apply Hlive in Hi, Hj.
      destruct Hi as [[-> ->]|[Hi1 Hi]], Hj as [[-> ->]|[Hj1 Hj]]; [done|..].
      * exfalso. by apply (Hno j s').
      * exfalso. by apply (Hno i s).
      * by eapply ti_unique0.
    + intros u b. rewrite Hop. case_match; auto with wt.
  - intros s. split.
    + intros [i Hi]. apply Hlive in Hi as [[_ ->]|[_ Hi]]; [by left|right; by exists i].
    + intros [->|[i Hi]]; [exists k; apply Hlive; by left|].
      exists i. apply Hlive. right. split; [|done]. intros ->. by apply (Hnk s).
Qed.

Lemma sweep_live t i s :
  live_entry (set_slots t (sweep <$> tb_slots t) (used_count (sweep <$> tb_slots t))) i s <->
  live_entry t i s /\ wt_quic_stream_complete s = false.
Proof.
  unfold live_entry; cbn. rewrite list_lookup_fmap.
  destruct (tb_slots t !! i) as [[u s']|]; cbn; [|by split; [|intros []]].
  unfold sweep, reclaimable; cbn. destruct u, (wt_quic_stream_complete s') eqn:E; cbn;
    (split; [intros H|intros [H ?]]); simplify_eq; try done; congruence.
Qed.

Lemma sweep_inv t :
  table_inv t -> table_inv (set_slots t (sweep <$> tb_slots t) (used_count (sweep <$> tb_slots t))).
Proof.
  intros []. constructor.
  - cbn. by rewrite length_fmap.
  - done.
  - intros i j s s' Hi Hj. apply sweep_live in Hi as [Hi _], Hj as [Hj _]. by apply ti_unique0.
  - intros u b. apply (ti_opened0 u b).
Qed.

Lemma sweep_count l : used_count (sweep <$> l) <= used_count l.
Proof.
  unfold used_count. induction l as [|e l IH]; [done|]. cbn [fmap list_fmap]. rewrite !zsum_cons.
  unfold sweep at 1, reclaimable, free_entry. destruct (e_used e) eqn:E; cbn.
  - destruct (wt_quic_stream_complete _); cbn; rewrite ?E; lia.
  - rewrite E. lia.
Qed.

Lemma sweep_nothing l : first_index reclaimable l = None -> sweep <$> l = l.
Proof.
  rewrite first_index_None. induction 1 as [|e l He _ IH]; [done|].
  cbn [fmap list_fmap]. unfold sweep at 1. by rewrite He, IH.
Qed.

Lemma first_index_free_None t :
  table_inv t -> first_index entry_free (tb_slots t) = None ->
  forall i e, tb_slots t !! i = Some e -> e_used e = true.
Proof.
  intros _ H i e He. apply first_index_None in H. rewrite Forall_lookup in H.
  specialize (H _ _ He). unfold entry_free in H. by apply negb_false_iff in H.
Qed.

Lemma find_None t id :
  table_inv t -> wt_quic_stream_table_find t id = None <-> forall i s, live_entry t i s -> st_id s <> id.
Proof.
  intros Hi. rewrite <- table_find_none. unfold wt_quic_stream_table_find, slot_stream, table_slot.
  destruct (first_index _ _) as [i|] eqn:E; [|done].
  apply first_index_Some in E as [(e & He & _) _]. by rewrite He.
Qed.

(** Two tables that hold the same live streams but for the numbers in [P] answer
    alike outside [P]. *)
Lemma find_ext t t' id :
  table_inv t -> table_inv t' ->
  (forall s, st_id s = id -> (exists i, live_entry t' i s) <-> (exists i, live_entry t i s)) ->
  wt_quic_stream_table_find t' id = wt_quic_stream_table_find t id.
Proof.
  intros Ht Ht' H. apply option_eq. intros s. rewrite !table_find_spec by done.
  split; intros [Hid Hl]; (split; [done|]); by apply (H s Hid).
Qed.

Definition forgotten (t t' : wt_quic_stream_table) (id : Z) : Prop :=
  wt_quic_stream_table_find t' id = None /\
  exists s, wt_quic_stream_table_find t id = Some s /\ wt_quic_stream_complete s = true.

Lemma sweep_find t id :
  table_inv t ->
  let t' := set_slots t (sweep <$> tb_slots t) (used_count (sweep <$> tb_slots t)) in
  wt_quic_stream_table_find t' id = wt_quic_stream_table_find t id \/ forgotten t t' id.
Proof.
  intros Ht t'. pose proof (sweep_inv t Ht) as Ht'. fold t' in Ht'.
  destruct (wt_quic_stream_table_find t id) as [s|] eqn:Hs.
  - pose proof Hs as Hs'. apply table_find_spec in Hs' as [Hid [i Hi]]; [|done].
    destruct (wt_quic_stream_complete s) eqn:Hc.
    + right. split; [|by exists s]. apply find_None; [done|]. intros j s' Hj Hid'.
      apply sweep_live in Hj as [Hj Hnc]. destruct Ht.
      assert (j = i) as -> by (eapply ti_unique0; [exact Hj|exact Hi|congruence]).
      unfold live_entry in *. simplify_eq. congruence.
    + left. apply table_find_spec; [done|]. split; [done|]. exists i. by apply sweep_live.
  - left. apply find_None; [done|]. intros j s' Hj. apply sweep_live in Hj as [Hj _].
    by eapply find_None in Hs.
Qed.

Lemma place_find t k e id by_us :
  table_inv t -> tb_slots t !! k = Some e -> e_used e = false ->
  (forall i s, live_entry t i s -> st_id s <> id) ->
  let bidi := wt_quic_stream_id_is_bidirectional id in
  let t' := table_place t k id by_us bidi in
  wt_quic_stream_table_find t' id = Some (wt_quic_stream_init id by_us bidi 0 0) /\
  forall id', id' <> id -> wt_quic_stream_table_find t' id' = wt_quic_stream_table_find t id'.
Proof.
  intros Ht Hk He Hno bidi t'.
  destruct (table_place_inv t k e id by_us Ht Hk He Hno) as (Ht' & _ & Hl). fold bidi t' in Ht', Hl.
  split.
  - apply table_find_spec; [done|]. split; [done|]. apply Hl. by left.
  - intros id' Hne. apply find_ext; [done|done|]. intros s Hid. rewrite Hl. split; [|by right].
    intros [->|?]; [|done]. by destruct Hne.
Qed.

Lemma bump_exact t t1 limit by_us bidi u b :
  table_inv t -> is_u64 limit -> table_opened t by_us bidi < limit ->
  (forall u b, table_opened t1 u b = table_opened t u b) ->
  (if eqb by_us u && eqb bidi b then u64 (table_opened t1 u b + 1) else table_opened t1 u b) =
  table_opened t u b + (if eqb by_us u && eqb bidi b then 1 else 0).
Proof.
  intros Ht Hlim Hlt Heq. rewrite Heq. destruct Ht. pose proof (ti_opened0 u b). unfold is_u64 in *.
  destruct (eqb_spec by_us u) as [<-|], (eqb_spec bidi b) as [<-|]; cbn [andb]; no_wrap; lia.
Qed.

Lemma table_open_spec t id by_us limit :
  table_inv t -> is_u64 limit ->
  let '(st, t') := wt_quic_stream_table_open t id by_us limit in
  let bidi := wt_quic_stream_id_is_bidirectional id in
  table_inv t' /\
  match st with
  | WT_OK =>
      wt_quic_stream_table_find t id = None /\ table_opened t by_us bidi < limit /\
      wt_quic_stream_table_find t' id = Some (wt_quic_stream_init id by_us bidi 0 0) /\
      (forall id', id' <> id ->
         wt_quic_stream_table_find t' id' = wt_quic_stream_table_find t id' \/ forgotten t t' id') /\
      (forall u b, table_opened t' u b =
         table_opened t u b + (if eqb by_us u && eqb bidi b then 1 else 0))
  | WT_ERR_STATE => t' = t /\ is_Some (wt_quic_stream_table_find t id)
  | WT_ERR_LIMIT => t' = t /\
      (limit <= table_opened t by_us bidi \/
       forall i e, tb_slots t !! i = Some e -> e_used e = true /\ wt_quic_stream_complete (e_stream e) = false)
  | _ => False
  end.
Proof.
  intros Ht Hlim. unfold wt_quic_stream_table_open.
  destruct (table_slot t id) as [i|] eqn:Hslot.
  { split; [done|]. split; [done|]. unfold wt_quic_stream_table_find, slot_stream. rewrite Hslot.
    apply first_index_Some in Hslot as [(e & He & _) _]. rewrite He. by eexists. }
  assert (Hnone : wt_quic_stream_table_find t id = None)
    by (unfold wt_quic_stream_table_find; by rewrite Hslot).
  pose proof (proj1 (table_find_none t id) Hslot) as Hno. cbn zeta.
  set (bidi := wt_quic_stream_id_is_bidirectional id).
  destruct (Z.leb_spec limit (table_opened t by_us bidi)); [by auto|].
  destruct (first_index entry_free (tb_slots t)) as [k|] eqn:Hk.
  - apply first_index_Some in Hk as [(e & He & Hf) _]. apply negb_true_iff in Hf.
    destruct (table_place_inv t k e id by_us Ht He Hf Hno) as (Ht' & Hop & _).
    destruct (place_find t k e id by_us Ht He Hf Hno) as [Hf1 Hf2].
    split_and!; auto. intros u b. rewrite Hop. by apply (bump_exact t t limit).
  - pose proof Ht as []. rewrite ti_count0.
    pose proof (used_count_bound (tb_slots t)) as Hb. unfold zlen in Hb. rewrite ti_len0 in Hb.
    rewrite reclaim_loop_spec by (unfold WT_QUIC_STREAM_TABLE_MAX in Hb; lia).
    rewrite Z.sub_diag, Z.add_0_l.
    destruct (first_index reclaimable (tb_slots t)) as [k|] eqn:Hr; cbn [fmap option_fmap option_map].
    + apply first_index_Some in Hr as [(e & He & Hp) _].
      set (t1 := set_slots _ _ _). assert (Ht1 : table_inv t1) by by apply sweep_inv.
      assert (He1 : tb_slots t1 !! k = Some (free_entry e))
        by (cbn; rewrite list_lookup_fmap, He; cbn; unfold sweep; by rewrite Hp).
      assert (Hno1 : forall i s, live_entry t1 i s -> st_id s <> id)
        by (intros i s Hi; apply sweep_live in Hi as [Hi _]; by eapply Hno).
      destruct (table_place_inv t1 k _ id by_us Ht1 He1 eq_refl Hno1) as (Ht' & Hop & _).
      destruct (place_find t1 k _ id by_us Ht1 He1 eq_refl Hno1) as [Hf1 Hf2].
      split_and!; auto.
      * intros id' Hne. cbn [Nat.add]. fold bidi in Hf2. unfold forgotten. rewrite (Hf2 id' Hne). by apply sweep_find.
      * intros u b. rewrite Hop. by apply (bump_exact t t1 limit).
    + rewrite sweep_nothing by done. 
      assert (set_slots t (tb_slots t) (used_count (tb_slots t)) = t) as ->
        by (unfold set_slots; rewrite <- ti_count0; by destruct t).
      split; [done|]. split; [done|]. right. intros i e He.
      pose proof (first_index_free_None t Ht Hk i e He) as Hu. split; [done|].
      apply first_index_None in Hr. rewrite Forall_lookup in Hr. specialize (Hr _ _ He).
      unfold reclaimable in Hr. by rewrite Hu in Hr.
Qed.

(** Opening a stream keeps the table well-formed. It succeeds only for an identifier not in the table and within the cumulative limit, then the table finds the fresh stream, loses at most completed streams and counts one more opened stream of that class; it fails as a state error only for a duplicate and as a limit error only when the limit is reached or all the slots hold incomplete streams, and then changes nothing. *)
Lemma stream_table_open_spec t id by_us limit :
  table_inv t -> is_u64 limit ->
  let '(st, t') := wt_quic_stream_table_open t id by_us limit in
  let bidi := wt_quic_stream_id_is_bidirectional id in
  table_inv t' /\
  match st with
  | WT_OK =>
      wt_quic_stream_table_find t id = None /\ table_opened t by_us bidi < limit /\
      wt_quic_stream_table_find t' id = Some (wt_quic_stream_init id by_us bidi 0 0) /\
      (forall id', id' <> id ->
         wt_quic_stream_table_find t' id' = wt_quic_stream_table_find t id' \/ forgotten t t' id') /\
      (forall u b, table_opened t' u b =
         table_opened t u b + (if eqb by_us u && eqb bidi b then 1 else 0))
  | WT_ERR_STATE => t' = t /\ is_Some (wt_quic_stream_table_find t id)
  | WT_ERR_LIMIT => t' = t /\
      (limit <= table_opened t by_us bidi \/
       forall i e, tb_slots t !! i = Some e -> e_used e = true /\ wt_quic_stream_complete (e_stream e) = false)
  | _ => False
  end.
Proof. apply table_open_spec. Qed.

Lemma table_init_inv : table_inv wt_quic_stream_table_init.
Proof.
  constructor.
  - done.
  - unfold used_count. cbn [wt_quic_stream_table_init tb_slots tb_count]. by rewrite zsum_replicate.
  - intros i j s s' Hi. unfold live_entry in Hi; cbn [wt_quic_stream_table_init tb_slots] in Hi.
    by apply lookup_replicate_1 in Hi as [[=] _].
  - by intros [] [].
Qed.

Lemma stream_table_open_spec_witness :
  let '(st, t) := wt_quic_stream_table_open wt_quic_stream_table_init 4 true 10 in
  let bidi := wt_quic_stream_id_is_bidirectional 4 in
  table_inv t /\ st = WT_OK.
Proof.
  pose proof (stream_table_open_spec wt_quic_stream_table_init 4 true 10 table_init_inv) as H.
  split; [|reflexivity]. refine (proj1 (H _)). unfold is_u64. lia.
Defined.

(** ** Stream numbers and their reuse *)

Lemma stream_id_make_spec client bidi index :
  0 <= index < 2 ^ 62 ->
  wt_quic_stream_id_make client bidi index =
    4 * index + (if client then 0 else 1) + (if bidi then 0 else 2).
Proof.
  intros Hi. unfold wt_quic_stream_id_make. rewrite Z.shiftl_mul_pow2 by lia. no_wrap.
  assert (H1 : Z.lor (index * 2 ^ 2) 1 = index * 2 ^ 2 + 1)
    by (apply (lor_disjoint _ _ 2); [lia|lia|by apply Z_mod_mult]).
  assert (H2 : forall c, c = 0 \/ c = 1 -> Z.lor (index * 2 ^ 2 + c) 2 = index * 2 ^ 2 + c + 2).
  { intros c Hc. replace (index * 2 ^ 2 + c) with (Z.lor (index * 2 ^ 2) c)
      by (apply (lor_disjoint _ _ 2); [lia|lia|by apply Z_mod_mult]).
    rewrite <- Z.lor_assoc.
    assert (Z.lor c 2 = c + 2) as -> by (destruct Hc; by subst).
    rewrite !(lor_disjoint _ _ 2) by (lia || by apply Z_mod_mult). lia. }
  pose proof (H2 0 (or_introl eq_refl)) as H3. rewrite Z.add_0_r in H3.
  destruct client, bidi; cbn zeta; rewrite ?H1, ?H2, ?H3 by auto; lia.
Qed.

Lemma stream_id_fields client bidi index :
  0 <= index < 2 ^ 62 ->
  let id := wt_quic_stream_id_make client bidi index in
  is_u64 id /\ wt_quic_stream_id_index id = index /\
  wt_quic_stream_id_from_client id = client /\ wt_quic_stream_id_is_bidirectional id = bidi.
Proof.
  intros Hi. cbn zeta. rewrite stream_id_make_spec by done.
  unfold wt_quic_stream_id_index, wt_quic_stream_id_from_client, wt_quic_stream_id_is_bidirectional.
  set (c := (if client then 0 else 1) + (if bidi then 0 else 2)).
  replace (4 * index + (if client then 0 else 1) + (if bidi then 0 else 2)) with (4 * index + c)
    by (unfold c; lia).
  assert (Hc : 0 <= c < 4) by (unfold c; destruct client, bidi; lia).
  assert (Hlow : forall k, Z.land 3 k = k -> Z.land (4 * index + c) k = Z.land c k).
  { intros k Hk. rewrite <- Hk, !Z.land_assoc. change 3 with (2 ^ 2 - 1).
    rewrite !land_mask by lia. f_equal. zdm. }
  rewrite Z.shiftr_div_pow2, !Hlow by (done || lia).
  split_and!; [unfold is_u64; lia|zdm|..]; unfold c; by destruct client, bidi.
Qed.

(** A stream identifier gives back the initiator, the direction and the index it was made from. *)
Lemma stream_id_roundtrip client bidi index :
  0 <= index < 2 ^ 62 ->
  let id := wt_quic_stream_id_make client bidi index in
  is_u64 id /\ wt_quic_stream_id_index id = index /\
  wt_quic_stream_id_from_client id = client /\ wt_quic_stream_id_is_bidirectional id = bidi.
Proof. intros Hi. by apply stream_id_fields. Qed.

Lemma stream_id_roundtrip_witness :
  wt_quic_stream_id_make false false 7 = 31 /\ wt_quic_stream_id_index 31 = 7.
Proof.
  split; [reflexivity|]. refine (proj1 (proj2 (stream_id_roundtrip false false 7 _))). lia.
Defined.

(** What happens to the table of one endpoint: it opens the next of its own
    streams ([wt_quic_connection_open_stream]: the number comes from the opened
    counter), the peer opens one of its numbers, a stream is closed, or a stream
    in the table moves through its state machine. *)
Inductive table_action :=
  | TaOpenOwn (bidi : bool) (limit : Z)
  | TaOpenPeer (id limit : Z)
  | TaClose (id : Z)
  | TaEvent (id : Z) (ev : stream_event) (f : wt_quic_flow).

(** [wt_quic_connection_open_stream] up to the two limits it then sets. *)
Definition open_next_own (client : bool) (t : wt_quic_stream_table) (bidi : bool) (limit : Z)
    : wt_status * Z * wt_quic_stream_table :=
  let index := wt_quic_stream_table_opened_by_us t bidi in
  let id := wt_quic_stream_id_make client bidi index in
  let '(st, t') := wt_quic_stream_table_open t id true limit in (st, id, t').

(** A call through the pointer [wt_quic_stream_table_find] hands out. *)
Definition table_update (t : wt_quic_stream_table) (id : Z)
    (g : wt_quic_stream -> wt_quic_stream) : wt_quic_stream_table :=
  match table_slot t id with
  | None => t
  | Some i => match tb_slots t !! i with
      | None => t
      | Some e => set_slots t (<[i := mk_entry (e_used e) (g (e_stream e))]> (tb_slots t)) (tb_count t)
      end
  end.

(** The table and the numbers this endpoint has opened, latest first. *)
Definition table_step (client : bool) (y : wt_quic_stream_table * list Z) (a : table_action)
    : wt_quic_stream_table * list Z :=
  let '(t, opened) := y in
  match a with
  | TaOpenOwn bidi limit =>
      match open_next_own client t bidi limit with
      | (WT_OK, id, t') => (t', id :: opened)
      | (_, _, t') => (t', opened)
      end
  | TaOpenPeer id limit => ((wt_quic_stream_table_open t id false limit).2, opened)
  | TaClose id => ((wt_quic_stream_table_close t id).2, opened)
  | TaEvent id ev f => (table_update t id (fun s => (stream_step ev s f).1.2), opened)
  end.

Definition table_action_ok (a : table_action) : Prop :=
  match a with
  | TaOpenOwn _ limit => 0 <= limit <= 2 ^ 60
  | TaOpenPeer _ limit => is_u64 limit
  | _ => True
  end.

Lemma table_update_find t id g :
  table_inv t -> (forall s, st_id (g s) = st_id s) ->
  table_inv (table_update t id g) /\
  forall u b, table_opened (table_update t id g) u b = table_opened t u b.
Proof.
  intros Ht Hg. unfold table_update. destruct (table_slot t id) as [k|] eqn:Hs; [|done].
  destruct (tb_slots t !! k) as [e|] eqn:He; [|done]. split; [|by intros [] []].
  destruct Ht as []. set (e' := mk_entry (e_used e) (g (e_stream e))).
  assert (Hlive : forall i s, live_entry (set_slots t (<[k := e']> (tb_slots t)) (tb_count t)) i s ->
            exists s0, live_entry t i s0 /\ st_id s = st_id s0).
  { intros i s. unfold live_entry; cbn [set_slots tb_slots]. destruct (decide (i = k)) as [->|].
    - rewrite list_lookup_insert_eq by (by eapply lookup_lt_Some). intros [= Hu <-].
      exists (e_stream e). rewrite He. destruct e; cbn in *; subst. by rewrite Hg.
    - rewrite list_lookup_insert_ne by done. intros. by exists s. }
  constructor.
  - cbn [set_slots tb_slots]. by rewrite length_insert.
  - cbn [set_slots tb_slots tb_count]. unfold used_count.
    rewrite (zsum_insert _ _ _ e) by done. cbn [e_used e']. fold (used_count (tb_slots t)). lia.
  - intros i j s s' Hi Hj Hid. apply Hlive in Hi as (s0 & Hi & E0), Hj as (s1 & Hj & E1).
    eapply ti_unique0; [done|done|congruence].
  - done.
Qed.

Lemma table_close_inv t id :
  table_inv t ->
  table_inv (wt_quic_stream_table_close t id).2 /\
  forall u b, table_opened (wt_quic_stream_table_close t id).2 u b = table_opened t u b.
Proof.
  intros Ht. unfold wt_quic_stream_table_close.
  destruct (table_slot t id) as [k|] eqn:Hs; [|done].
  destruct (tb_slots t !! k) as [e|] eqn:He; [|done].
  destruct (negb _); [done|]. split; [|by intros [] []]. cbn [snd]. destruct Ht as [].
  assert (Hu : e_used e = true).
  { apply first_index_Some in Hs as [(e0 & He0 & Hp) _].
    assert (e0 = e) as -> by congruence. unfold entry_is in Hp. by destruct (e_used e). }
  assert (Hlive : forall i s, live_entry (set_slots t (<[k := free_entry e]> (tb_slots t))
            (u64 (tb_count t - 1))) i s -> live_entry t i s).
  { intros i s. unfold live_entry; cbn [set_slots tb_slots]. destruct (decide (i = k)) as [->|].
    - rewrite list_lookup_insert_eq by (by eapply lookup_lt_Some). intros [=].
    - by rewrite list_lookup_insert_ne by done. }
  constructor.
  - cbn [set_slots tb_slots]. by rewrite length_insert.
  - cbn [set_slots tb_slots tb_count]. rewrite ti_count0. unfold used_count.
    rewrite (zsum_insert _ _ _ e) by done. cbn [e_used free_entry]. rewrite Hu.
    pose proof (used_count_bound (<[k := free_entry e]> (tb_slots t))) as Hb.
    unfold used_count, zlen in Hb. rewrite (zsum_insert _ _ _ e), length_insert, ti_len0 in Hb by done.
    cbn [e_used free_entry] in Hb. rewrite Hu in Hb. unfold WT_QUIC_STREAM_TABLE_MAX in Hb.
    no_wrap. lia.
  - intros i j s s' Hi Hj. apply Hlive in Hi, Hj. by apply ti_unique0.
  - done.
Qed.

Lemma stream_step_id ev s f : st_id (stream_step ev s f).1.2 = st_id s.
Proof.
  destruct ev; cbn [stream_step]; unfold on_stream, wt_quic_stream_on_data,
    wt_quic_stream_on_reset_received, wt_quic_stream_on_reset_at_received,
    wt_quic_stream_on_data_read, wt_quic_stream_on_reset_read,
    wt_quic_stream_on_max_stream_data_sent, wt_quic_stream_on_data_sent, wt_quic_stream_on_fin_sent,
    wt_quic_stream_on_ack, wt_quic_stream_on_reset_sent, wt_quic_stream_on_stop_sending,
    wt_quic_stream_on_max_stream_data; by repeat (case_match; cbn).
Qed.

(** Every number handed out lies below its class's counter. *)
Definition numbers_inv (client : bool) (y : wt_quic_stream_table * list Z) : Prop :=
  table_inv y.1 /\ NoDup y.2 /\ (forall b, table_opened y.1 true b <= 2 ^ 60) /\
  Forall (fun id => exists b i, 0 <= i < table_opened y.1 true b /\
                     id = wt_quic_stream_id_make client b i) y.2.

Lemma numbers_inv_mono client t t' l :
  numbers_inv client (t, l) -> table_inv t' ->
  (forall b, table_opened t' true b = table_opened t true b) -> numbers_inv client (t', l).
Proof.
  intros (Ht & Hnd & Hle & Hall) Ht' Heq. split_and!; [done|done|..].
  - intros b. cbn [fst]. rewrite Heq. apply Hle.
  - eapply Forall_impl; [exact Hall|]. intros id (b & i & Hi & ->). exists b, i. cbn [fst].
    by rewrite Heq.
Qed.

Lemma open_facts t id by_us limit :
  table_inv t -> is_u64 limit ->
  let '(st, t') := wt_quic_stream_table_open t id by_us limit in
  table_inv t' /\
  (st = WT_OK -> table_opened t by_us (wt_quic_stream_id_is_bidirectional id) < limit) /\
  (forall u b, table_opened t' u b = table_opened t u b +
     (if bool_decide (st = WT_OK) then
        if eqb by_us u && eqb (wt_quic_stream_id_is_bidirectional id) b then 1 else 0 else 0)).
Proof.
  intros Ht Hl. pose proof (table_open_spec t id by_us limit Ht Hl) as H.
  destruct (wt_quic_stream_table_open t id by_us limit) as [st t'].
  destruct H as [Ht' H]. split; [done|].
  destruct st; try done; decide_bools; destruct_and?; subst; split; intros; try done; auto; lia.
Qed.

Lemma table_step_inv client y a :
  table_action_ok a -> numbers_inv client y -> numbers_inv client (table_step client y a).
Proof.
  destruct y as [t l]. intros Ha Hy. pose proof Hy as (Ht & Hnd & Hle & Hall); cbn [fst snd] in *.
  destruct a as [bidi limit|id limit|id|id ev f]; cbn [table_step table_action_ok] in *.
  - unfold open_next_own, wt_quic_stream_table_opened_by_us.
    pose proof (ti_opened t Ht true bidi) as Hop. unfold is_u64 in Hop. pose proof (Hle bidi).
    set (i := table_opened t true bidi) in *. set (id := wt_quic_stream_id_make client bidi i).
    destruct (stream_id_fields client bidi i ltac:(lia)) as (_ & Hidx & _ & Hb). fold id in Hidx, Hb.
    pose proof (open_facts t id true limit Ht ltac:(unfold is_u64; lia)) as Hf.
    destruct (wt_quic_stream_table_open t id true limit) as [st t'].
    destruct Hf as (Ht' & Hlt & Hop'). rewrite Hb in *.
    destruct (decide (st = WT_OK)) as [->|Hne].
    2: { assert (numbers_inv client (t', l)); [|by destruct st].
         apply (numbers_inv_mono client t); [done|done|]. intros b. rewrite Hop', bool_decide_false by done.
         lia. }
    specialize (Hlt eq_refl). fold i in Hlt. split_and!; cbn [fst snd]; [done|..].
    + constructor; [|done]. intros Hin. rewrite Forall_forall in Hall.
      destruct (Hall id Hin) as (b & j & Hj & Hid). pose proof (Hle b).
      destruct (stream_id_fields client b j ltac:(lia)) as (_ & Hidx' & _ & Hb').
      rewrite <- Hid in Hidx', Hb'. assert (b = bidi) as -> by congruence. fold i in Hj. lia.
    + intros b. rewrite Hop'. decide_bools. pose proof (Hle b).
      destruct (eqb_spec bidi b) as [<-|]; cbn [eqb andb]; lia.
    + constructor.
      * exists bidi, i. rewrite Hop'. decide_bools. rewrite !eqb_reflx. cbn [eqb andb].
        fold i. split; [lia|done].
      * eapply Forall_impl; [exact Hall|]. intros x (b & j & Hj & ->). exists b, j. rewrite Hop'.
        split; [|done]. decide_bools. destruct (eqb true true && eqb bidi b); lia.
  - pose proof (open_facts t id false limit Ht Ha) as Hf.
    destruct (wt_quic_stream_table_open t id false limit) as [st t']. destruct Hf as (Ht' & _ & Hop').
    apply (numbers_inv_mono client t); [done|done|]. intros b. cbn [snd]. rewrite Hop'. cbn [eqb andb].
    destruct (bool_decide _); lia.
  - destruct (table_close_inv t id Ht) as [Ht' Hop]. by apply (numbers_inv_mono client t).
  - destruct (table_update_find t id (fun s => (stream_step ev s f).1.2) Ht) as [Ht' Hop].
    { intros s. apply stream_step_id. }
    by apply (numbers_inv_mono client t).
Qed.

(** An endpoint that numbers its streams from the opened count never opens the same stream number twice, whatever it opens, closes, reclaims or updates in between, and the table never counts more streams than it has slots. *)
Lemma own_stream_numbers_never_reused client actions :
  Forall table_action_ok actions ->
  let '(t, opened) := fold_left (table_step client) actions (wt_quic_stream_table_init, []) in
  NoDup opened /\ table_inv t /\
  Z.of_nat WT_QUIC_STREAM_TABLE_MAX >= wt_quic_stream_table_count t.
Proof.
  intros Ha.
  assert (Hrun : forall y, numbers_inv client y ->
            numbers_inv client (fold_left (table_step client) actions y)).
  { induction Ha as [|a l Ha Hl IH]; intros y Hy; [done|]. apply IH. by apply table_step_inv. }
  specialize (Hrun (wt_quic_stream_table_init, [])).
  destruct (fold_left _ _ _) as [t opened]. destruct Hrun as (Ht & Hnd & _).
  { split_and!; [apply table_init_inv|constructor|by intros []|constructor]. }
  cbn [fst snd] in *. split_and!; [done|done|]. destruct Ht.
  unfold wt_quic_stream_table_count. rewrite ti_count0.
  pose proof (used_count_bound (tb_slots t)) as Hb. unfold zlen in Hb. rewrite ti_len0 in Hb. lia.
Qed.

Lemma own_stream_numbers_never_reused_witness :
  let '(t, opened) := fold_left (table_step true)
     [TaOpenOwn true 10; TaEvent 0 EvFinSent (wt_quic_flow_init 0 0);
      TaEvent 0 (EvData 0 0 true) (wt_quic_flow_init 0 0);
      TaEvent 0 (EvDataRead 0) (wt_quic_flow_init 0 0); TaClose 0; TaOpenOwn true 10]
     (wt_quic_stream_table_init, []) in
  NoDup opened /\ opened = [4; 0].
Proof.
  split; [|vm_compute; reflexivity].
  refine (proj1 (own_stream_numbers_never_reused true
     [TaOpenOwn true 10; TaEvent 0 EvFinSent (wt_quic_flow_init 0 0);
      TaEvent 0 (EvData 0 0 true) (wt_quic_flow_init 0 0);
      TaEvent 0 (EvDataRead 0) (wt_quic_flow_init 0 0); TaClose 0; TaOpenOwn true 10] _)).
  repeat constructor; lia.
Defined.
