(* ===== verification/Congestion.v ===== *)
(** * Congestion control: [src/quic/congestion.c]

    The NewReno window of RFC 9002.  [cong_inv] is the invariant the arithmetic
    relies on: the window never falls below the minimum, which is positive, so
    the division of the avoidance phase is never by zero. *)

From S2P Require Export Core.

Definition WT_QUIC_INITIAL_WINDOW_PACKETS : Z := 10.
Definition WT_QUIC_MINIMUM_WINDOW_PACKETS : Z := 2.
Definition WT_QUIC_INITIAL_WINDOW_MAX : Z := 14720.
Definition WT_QUIC_LOSS_REDUCTION_DENOMINATOR : Z := 2.

Record wt_quic_congestion := mk_congestion {
  cwnd : Z;
  max_datagram_size : Z;
  ssthresh : Z;
  recovery_start_time : Z;
  in_recovery : bool }.

Definition wt_quic_congestion_initial_window (mds : Z) : Z :=
  let ten_packets := u64 (WT_QUIC_INITIAL_WINDOW_PACKETS * mds) in
  let floor := u64 (WT_QUIC_MINIMUM_WINDOW_PACKETS * mds) in
  let bound := if WT_QUIC_INITIAL_WINDOW_MAX <? floor then floor else WT_QUIC_INITIAL_WINDOW_MAX in
  if ten_packets <? bound then ten_packets else bound.

Definition wt_quic_congestion_minimum_window (mds : Z) : Z :=
  u64 (WT_QUIC_MINIMUM_WINDOW_PACKETS * mds).

Definition wt_quic_congestion_init (mds : Z) : wt_quic_congestion :=
  let m := if mds =? 0 then 1200 else mds in
  mk_congestion (wt_quic_congestion_initial_window m) m U64_MAX 0 false.

Definition wt_quic_congestion_window (c : wt_quic_congestion) : Z := cwnd c.
Definition wt_quic_congestion_ssthresh (c : wt_quic_congestion) : Z := ssthresh c.
Definition wt_quic_congestion_in_recovery (c : wt_quic_congestion) : bool := in_recovery c.
Definition wt_quic_congestion_in_slow_start (c : wt_quic_congestion) : bool := cwnd c <? ssthresh c.

Definition wt_quic_congestion_in_recovery_at (c : wt_quic_congestion) (time_sent : Z) : bool :=
  if negb (in_recovery c) then false else time_sent <=? recovery_start_time c.

Definition set_cwnd (c : wt_quic_congestion) (w : Z) : wt_quic_congestion :=
  mk_congestion w (max_datagram_size c) (ssthresh c) (recovery_start_time c) (in_recovery c).

Definition wt_quic_congestion_on_ack (c : wt_quic_congestion) (bytes_acked time_sent : Z)
    : wt_status * wt_quic_congestion :=
  if wt_quic_congestion_in_recovery_at c time_sent then (WT_OK, c)
  else if cwnd c <? ssthresh c then (WT_OK, set_cwnd c (u64 (cwnd c + bytes_acked)))
  else
    let increase := u64 (max_datagram_size c * bytes_acked) / cwnd c in
    let increase := if bytes_acked <? increase then bytes_acked else increase in
    (WT_OK, set_cwnd c (u64 (cwnd c + increase))).

Definition wt_quic_congestion_on_loss (c : wt_quic_congestion) (time_sent now : Z)
    : wt_status * wt_quic_congestion :=
  if wt_quic_congestion_in_recovery_at c time_sent then (WT_OK, c)
  else
    let half := cwnd c / WT_QUIC_LOSS_REDUCTION_DENOMINATOR in
    let floor := wt_quic_congestion_minimum_window (max_datagram_size c) in
    let reduced := if half <? floor then floor else half in
    let w := if reduced <? cwnd c then reduced else cwnd c in
    (WT_OK, mk_congestion w (max_datagram_size c) half now true).

Definition wt_quic_congestion_on_persistent_congestion (c : wt_quic_congestion) (now : Z)
    : wt_status * wt_quic_congestion :=
  let w := wt_quic_congestion_minimum_window (max_datagram_size c) in
  (WT_OK, mk_congestion w (max_datagram_size c) w now true).

Definition wt_quic_congestion_can_send (c : wt_quic_congestion) (bytes_in_flight : Z) : bool :=
  bytes_in_flight <? cwnd c.

(** ** The window as a transition system *)

Inductive cong_event :=
  | CeAck (bytes time_sent : Z)
  | CeLoss (time_sent now : Z)
  | CePersistent (now : Z).

Definition cong_step (c : wt_quic_congestion) (ev : cong_event) : wt_quic_congestion :=
  match ev with
  | CeAck b t => (wt_quic_congestion_on_ack c b t).2
  | CeLoss t now => (wt_quic_congestion_on_loss c t now).2
  | CePersistent now => (wt_quic_congestion_on_persistent_congestion c now).2
  end.

(** The datagram sizes a UDP path has: no multiplication of the file wraps. *)
Definition mds_ok (mds : Z) : Prop := 1 <= mds <= 65535.

(** The bound [b] on the window is what the acknowledged bytes add up to. *)
Record cong_inv (b : Z) (c : wt_quic_congestion) : Prop := {
  ci_mds : mds_ok (max_datagram_size c);
  ci_floor : 2 * max_datagram_size c <= cwnd c;
  ci_bound : cwnd c <= b }.

Definition event_bytes (ev : cong_event) : Z := match ev with CeAck b _ => b | _ => 0 end.
Definition cong_event_ok (ev : cong_event) : Prop :=
  match ev with CeAck b _ => 0 <= b < 2 ^ 48 | _ => True end.

Lemma minimum_window_eq mds : mds_ok mds -> wt_quic_congestion_minimum_window mds = 2 * mds.
Proof.
  unfold mds_ok, wt_quic_congestion_minimum_window, WT_QUIC_MINIMUM_WINDOW_PACKETS. intros.
  by no_wrap.
Qed.

Lemma initial_window_spec mds :
  mds_ok mds ->
  wt_quic_congestion_initial_window mds = Z.min (10 * mds) (Z.max (2 * mds) 14720).
Proof.
  unfold mds_ok, wt_quic_congestion_initial_window, WT_QUIC_MINIMUM_WINDOW_PACKETS,
    WT_QUIC_INITIAL_WINDOW_PACKETS, WT_QUIC_INITIAL_WINDOW_MAX. intros. cbn zeta. no_wrap.
  repeat case_match; reflect_bools; lia.
Qed.

Lemma cong_init_inv mds : mds_ok mds -> cong_inv 655350 (wt_quic_congestion_init mds).
Proof.
  intros H. unfold wt_quic_congestion_init. unfold mds_ok in H. ztest. cbn zeta.
  constructor; cbn [cwnd max_datagram_size]; rewrite ?initial_window_spec by done;
    unfold mds_ok; lia.
Qed.

Lemma avoidance_increase_bound mds b w :
  mds_ok mds -> 0 <= b < 2 ^ 48 -> 0 < w -> 0 <= u64 (mds * b) / w.
Proof.
  unfold mds_ok. intros. assert (0 <= mds * b < 2 ^ 64) by nia. no_wrap. apply Z.div_pos; lia.
Qed.

Lemma cong_step_inv b c ev :
  cong_inv b c -> cong_event_ok ev -> b + event_bytes ev < 2 ^ 64 ->
  cong_inv (b + event_bytes ev) (cong_step c ev).
Proof.
  intros [Hm Hf Hb] Hev Hmax. pose proof Hm as Hm'. unfold mds_ok in Hm'.
  destruct ev as [n t|t now|now]; cbn [cong_step event_bytes cong_event_ok] in *.
  - unfold wt_quic_congestion_on_ack. case_match; [constructor; cbn; auto; lia|].
    pose proof (avoidance_increase_bound _ n (cwnd c) Hm Hev ltac:(lia)).
    case_match; cbn zeta; [|case_match; reflect_bools];
      constructor; cbn [snd set_cwnd cwnd max_datagram_size]; try done; no_wrap; lia.
  - unfold wt_quic_congestion_on_loss. case_match; [constructor; cbn; auto; lia|]. cbn zeta.
    rewrite minimum_window_eq by done. unfold WT_QUIC_LOSS_REDUCTION_DENOMINATOR.
    constructor; cbn [snd cwnd max_datagram_size]; [done|..];
      repeat case_match; reflect_bools; zdm.
  - constructor; cbn [wt_quic_congestion_on_persistent_congestion snd cwnd max_datagram_size];
      rewrite ?minimum_window_eq by done; [done|lia|lia].
Qed.

(** ** Theorems *)



(** A loss outside recovery halves the window once (not below the minimum) and sets the threshold to half the window; until packets sent after that moment are acknowledged or lost, no further acknowledgement or loss changes anything. *)
Lemma one_reduction_per_recovery_period b c t now events :
  cong_inv b c -> wt_quic_congestion_in_recovery_at c t = false ->
  Forall (fun ev => match ev with
                    | CeAck _ s | CeLoss s _ => s <= now
                    | CePersistent _ => False end) events ->
  let c1 := cong_step c (CeLoss t now) in
  fold_left cong_step events c1 = c1 /\
  wt_quic_congestion_ssthresh c1 = wt_quic_congestion_window c / 2 /\
  wt_quic_congestion_window c1 =
    Z.max (wt_quic_congestion_window c / 2) (wt_quic_congestion_minimum_window (max_datagram_size c)) /\
  wt_quic_congestion_in_slow_start c1 = false.
Proof.
  intros [Hm Hf Hb] Hrec Hev c1.
  assert (Hc1 : c1 = mk_congestion (Z.max (cwnd c / 2) (2 * max_datagram_size c))
                       (max_datagram_size c) (cwnd c / 2) now true).
  { unfold c1; cbn [cong_step]. unfold wt_quic_congestion_on_loss. rewrite Hrec. cbn zeta.
    rewrite minimum_window_eq by done. unfold WT_QUIC_LOSS_REDUCTION_DENOMINATOR. cbn [snd].
    f_equal. unfold mds_ok in Hm. repeat case_match; reflect_bools; zdm. }
  split_and!.
  - rewrite Hc1. induction Hev as [|ev l Hev _ IH]; [done|]. cbn [fold_left].
    assert (Hsame : forall s, s <= now ->
      wt_quic_congestion_in_recovery_at (mk_congestion (Z.max (cwnd c / 2) (2 * max_datagram_size c))
                       (max_datagram_size c) (cwnd c / 2) now true) s = true)
      by (intros; unfold wt_quic_congestion_in_recovery_at; cbn; by apply Z.leb_le).
    destruct ev as [n s|s now'|]; [| |done]; cbn [cong_step];
      unfold wt_quic_congestion_on_ack, wt_quic_congestion_on_loss; rewrite Hsame by done; exact IH.
  - by rewrite Hc1.
  - rewrite Hc1, minimum_window_eq by done. done.
  - rewrite Hc1. unfold wt_quic_congestion_in_slow_start; cbn. apply Z.ltb_ge. lia.
Qed.

Lemma one_reduction_per_recovery_period_witness :
  let c := wt_quic_congestion_init 1200 in
  let c1 := cong_step c (CeLoss 3 10) in
  fold_left cong_step [CeLoss 4 11; CeAck 1200 5] c1 = c1.
Proof.
  refine (proj1 (one_reduction_per_recovery_period 655350 (wt_quic_congestion_init 1200) 3 10
            [CeLoss 4 11; CeAck 1200 5] _ _ _)).
  - apply cong_init_inv. unfold mds_ok; lia.
  - reflexivity.
  - repeat constructor; lia.
Defined.
