(* ===== verification/ConnectionId.v ===== *)
(** * Connection ID storage: [src/quic/connection_id.c]

    One table holds the IDs this endpoint issued and the IDs the peer supplied.
    The limits of RFC 9000 section 5.1.1 hold in every reachable table; two
    theorems state what the single table and its never-reused slots do to a peer
    that keeps to the protocol. *)

From S2P Require Export QuicError.

(** ** The code *)

Definition WT_QUIC_CONNECTION_ID_LIMIT : nat := 8.

Record wt_quic_connection_id := mk_cid {
  ci_sequence : Z;
  ci_id : list Z;        (** [id[0 .. id_len)] *)
  ci_issued : bool;
  ci_retired : bool }.

Record wt_quic_connection_id_store := mk_ids {
  ids_entries : list wt_quic_connection_id;   (** [entries[0 .. count)] *)
  ids_retire_prior_to : Z;
  ids_next_sequence : Z;
  ids_peer_limit : Z;
  ids_local_limit : Z }.

Definition wt_quic_connection_ids_init (peer_limit local_limit : Z) : wt_quic_connection_id_store :=
  let local := if local_limit <? 2 then 2 else local_limit in
  mk_ids [] 0 0 (if peer_limit <? 2 then 2 else peer_limit)
    (if Z.of_nat WT_QUIC_CONNECTION_ID_LIMIT <? local then Z.of_nat WT_QUIC_CONNECTION_ID_LIMIT
     else local).

Definition wt_quic_cid_find_sequence (s : wt_quic_connection_id_store) (sequence : Z) : option nat :=
  first_index (fun e => ci_sequence e =? sequence) (ids_entries s).

Definition count_if {A} (p : A -> bool) (l : list A) : Z := zsum (fun x => if p x then 1 else 0) l.

Definition wt_quic_connection_ids_active (s : wt_quic_connection_id_store) : Z :=
  count_if (fun e => negb (ci_retired e)) (ids_entries s).

Definition providing (e : wt_quic_connection_id) : bool := ci_issued e && negb (ci_retired e).

Definition wt_quic_connection_ids_issueable (s : wt_quic_connection_id_store) : Z :=
  let issued := count_if providing (ids_entries s) in
  if ids_peer_limit s <=? issued then 0 else u64 (ids_peer_limit s - issued).

Definition push_entry (s : wt_quic_connection_id_store) (e : wt_quic_connection_id) (next : Z)
    : wt_quic_connection_id_store :=
  mk_ids (ids_entries s ++ [e]) (ids_retire_prior_to s) next (ids_peer_limit s) (ids_local_limit s).

(** The value is [*out_sequence]. *)
Definition wt_quic_connection_ids_add_issued (s : wt_quic_connection_id_store) (id : list Z)
    : outcome Z * wt_quic_connection_id_store :=
  if WT_QUIC_MAX_CONNECTION_ID_LENGTH <? zlen id then (Fail WT_ERR_INVALID_ARGUMENT None, s)
  else if Nat.leb WT_QUIC_CONNECTION_ID_LIMIT (length (ids_entries s)) then (Fail WT_ERR_LIMIT None, s)
  else if wt_quic_connection_ids_issueable s =? 0 then (Fail WT_ERR_LIMIT None, s)
  else (Ok (ids_next_sequence s),
        push_entry s (mk_cid (ids_next_sequence s) id true false) (u64 (ids_next_sequence s + 1))).

Definition retire_entry (e : wt_quic_connection_id) : wt_quic_connection_id :=
  mk_cid (ci_sequence e) (ci_id e) (ci_issued e) true.

Definition wt_quic_cid_retire_below (s : wt_quic_connection_id_store) (sequence : Z)
    : wt_quic_connection_id_store :=
  let threshold := if ids_retire_prior_to s <? sequence then sequence else ids_retire_prior_to s in
  mk_ids ((fun e => if ci_sequence e <? threshold then retire_entry e else e) <$> ids_entries s)
    threshold (ids_next_sequence s) (ids_peer_limit s) (ids_local_limit s).

Definition wt_quic_connection_ids_add_peer (s : wt_quic_connection_id_store)
    (sequence retire_prior_to : Z) (id : list Z) : outcome unit * wt_quic_connection_id_store :=
  if WT_QUIC_MAX_CONNECTION_ID_LENGTH <? zlen id
  then (Fail WT_ERR_PROTOCOL (Some WT_QUIC_PROTOCOL_VIOLATION), s)
  else if sequence <? retire_prior_to
  then (Fail WT_ERR_PROTOCOL (Some WT_QUIC_FRAME_ENCODING_ERROR), s)
  else
    let s1 := wt_quic_cid_retire_below s retire_prior_to in
    match wt_quic_cid_find_sequence s1 sequence with
    | Some _ => (Ok tt, s1)
    | None =>
        if ids_local_limit s1 <=? wt_quic_connection_ids_active s1
        then (Fail WT_ERR_LIMIT (Some WT_QUIC_CONNECTION_ID_LIMIT_ERROR), s1)
        else if Nat.leb WT_QUIC_CONNECTION_ID_LIMIT (length (ids_entries s1))
        then (Fail WT_ERR_LIMIT (Some WT_QUIC_CONNECTION_ID_LIMIT_ERROR), s1)
        else (Ok tt, push_entry s1 (mk_cid sequence id false false) (ids_next_sequence s1))
    end.

Definition wt_quic_connection_ids_retire (s : wt_quic_connection_id_store) (sequence : Z)
    : outcome unit * wt_quic_connection_id_store :=
  if ids_next_sequence s <=? sequence then (Fail WT_ERR_PROTOCOL (Some WT_QUIC_PROTOCOL_VIOLATION), s)
  else match wt_quic_cid_find_sequence s sequence with
  | None => (Ok tt, s)
  | Some i => (Ok tt, mk_ids (alter retire_entry i (ids_entries s)) (ids_retire_prior_to s)
                        (ids_next_sequence s) (ids_peer_limit s) (ids_local_limit s))
  end.

(** The index and [*out_retired]. *)
Definition wt_quic_connection_ids_find (s : wt_quic_connection_id_store) (id : list Z)
    : outcome (nat * bool) :=
  if WT_QUIC_MAX_CONNECTION_ID_LENGTH <? zlen id then Fail WT_ERR_INVALID_ARGUMENT None
  else match first_index (fun e => bool_decide (ci_id e = id)) (ids_entries s) with
  | Some i => Ok (i, match ids_entries s !! i with Some e => ci_retired e | None => false end)
  | None => Fail WT_ERR_CLOSED None
  end.

(** ** The invariant *)

Definition supplied (e : wt_quic_connection_id) : bool := negb (ci_issued e) && negb (ci_retired e).

Record ids_inv (s : wt_quic_connection_id_store) : Prop := {
  iv_len : (length (ids_entries s) <= WT_QUIC_CONNECTION_ID_LIMIT)%nat;
  iv_local : 2 <= ids_local_limit s <= Z.of_nat WT_QUIC_CONNECTION_ID_LIMIT;
  iv_peer : 2 <= ids_peer_limit s < 2 ^ 64;
  iv_next : 0 <= ids_next_sequence s <= zlen (ids_entries s);
  iv_providing : count_if providing (ids_entries s) <= ids_peer_limit s;
  iv_supplied : count_if supplied (ids_entries s) <= ids_local_limit s;
  iv_own : NoDup (ci_sequence <$> List.filter ci_issued (ids_entries s));
  iv_own_next : Forall (fun e => ci_issued e = true -> ci_sequence e < ids_next_sequence s) (ids_entries s);
  iv_id : Forall (fun e => zlen (ci_id e) <= WT_QUIC_MAX_CONNECTION_ID_LENGTH) (ids_entries s) }.

Section Counting.
Context {A : Type} (p : A -> bool).

Lemma count_if_app l k : count_if p (l ++ k) = count_if p l + count_if p k.
Proof. apply zsum_app. Qed.
Lemma count_if_one x : count_if p [x] = if p x then 1 else 0.
Proof. unfold count_if. rewrite zsum_cons, zsum_nil. lia. Qed.
Lemma count_if_nonneg l : 0 <= count_if p l.
Proof. apply zsum_nonneg, Forall_forall. intros x _. destruct (p x); lia. Qed.
Lemma count_if_le (q : A -> bool) l :
  (forall x, p x = true -> q x = true) -> count_if p l <= count_if q l.
Proof.
  intros H. unfold count_if. induction l as [|x l IH]; [done|]. rewrite !zsum_cons.
  specialize (H x). destruct (p x); [rewrite H by done|destruct (q x)]; lia.
Qed.
(** Replacing every entry by one that counts no more. *)
Lemma count_if_map_le (f : A -> A) l :
  (forall x, p (f x) = true -> p x = true) -> count_if p (f <$> l) <= count_if p l.
Proof.
  intros H. unfold count_if. induction l as [|x l IH]; [done|]. cbn [fmap list_fmap].
  rewrite !zsum_cons. specialize (H x). destruct (p (f x)); [rewrite H by done|destruct (p x)]; lia.
Qed.
End Counting.

(** Retiring some of the entries, which is all two of the operations do. *)
Fixpoint retire_some (sel : nat -> bool) (l : list wt_quic_connection_id) : list wt_quic_connection_id :=
  match l with
  | [] => []
  | e :: l => (if sel O then retire_entry e else e) :: retire_some (fun i => sel (S i)) l
  end.

Lemma retire_some_len sel l : length (retire_some sel l) = length l.
Proof. revert sel. induction l as [|e l IH]; intros sel; [done|]. cbn. by rewrite IH. Qed.

Lemma retire_some_count (p : wt_quic_connection_id -> bool) sel l :
  (forall e, p (retire_entry e) = false) -> count_if p (retire_some sel l) <= count_if p l.
Proof.
  intros H. unfold count_if. revert sel. induction l as [|e l IH]; intros sel; [done|].
  cbn [retire_some]. rewrite !zsum_cons. specialize (IH (fun i => sel (S i))).
  destruct (sel 0%nat); [rewrite H; destruct (p e)|]; lia.
Qed.

Lemma retire_some_filter sel l :
  ci_sequence <$> List.filter ci_issued (retire_some sel l) = ci_sequence <$> List.filter ci_issued l.
Proof.
  revert sel. induction l as [|e l IH]; intros sel; [done|]. cbn [retire_some List.filter].
  replace (ci_issued (if sel 0%nat then retire_entry e else e)) with (ci_issued e)
    by (by destruct (sel 0%nat)).
  specialize (IH (fun i => sel (S i))). destruct (ci_issued e); [|done]. cbn [fmap list_fmap].
  f_equal; [by destruct (sel 0%nat)|done].
Qed.

Lemma retire_some_Forall (P : wt_quic_connection_id -> Prop) sel l :
  (forall e, P e -> P (retire_entry e)) -> Forall P l -> Forall P (retire_some sel l).
Proof.
  intros H Hl. revert sel. induction Hl as [|e l He _ IH]; intros sel; [constructor|].
  cbn [retire_some]. constructor; [destruct (sel 0%nat); auto|]. apply IH.
Qed.

(** Both retiring operations are instances. *)
Lemma retire_below_some (test : wt_quic_connection_id -> bool) l :
  exists sel, ((fun e => if test e then retire_entry e else e) <$> l) = retire_some sel l.
Proof.
  induction l as [|e l [sel IH]]; [by exists (fun _ => false)|].
  exists (fun i => match i with O => test e | S i => sel i end). cbn. by rewrite IH.
Qed.

Lemma retire_one_some i l : exists sel, alter retire_entry i l = retire_some sel l.
Proof.
  exists (Nat.eqb i). revert i. induction l as [|e l IH]; intros [|i]; try done.
  - cbn. f_equal. symmetry. clear IH. induction l; [done|]. cbn. by f_equal.
  - change (alter retire_entry (S i) (e :: l)) with (e :: alter retire_entry i l). by rewrite IH.
Qed.

Lemma retire_some_inv s sel threshold :
  ids_inv s ->
  ids_inv (mk_ids (retire_some sel (ids_entries s)) threshold (ids_next_sequence s)
             (ids_peer_limit s) (ids_local_limit s)).
Proof.
  intros []. assert (Hlen : length (retire_some sel (ids_entries s)) = length (ids_entries s))
    by apply retire_some_len.
  constructor; cbn [ids_entries ids_next_sequence ids_peer_limit ids_local_limit]; try done.
  - by rewrite Hlen.
  - unfold zlen in *. by rewrite Hlen.
  - etransitivity; [apply retire_some_count|done]. intros e. apply andb_false_r.
  - etransitivity; [apply retire_some_count|done]. intros e. apply andb_false_r.
  - by rewrite retire_some_filter.
  - by apply retire_some_Forall.
  - by apply retire_some_Forall.
Qed.

Lemma ids_init_inv peer_limit local_limit :
  is_u64 peer_limit -> is_u64 local_limit -> ids_inv (wt_quic_connection_ids_init peer_limit local_limit).
Proof.
  unfold is_u64. intros. unfold wt_quic_connection_ids_init, WT_QUIC_CONNECTION_ID_LIMIT.
  constructor; cbn; unfold WT_QUIC_CONNECTION_ID_LIMIT, count_if; rewrite ?zsum_nil, ?zlen_nil;
    repeat case_match; reflect_bools; try (split; [|apply zlen_nonneg]); try lia; by constructor.
Qed.

Lemma push_inv s e next :
  ids_inv s -> (length (ids_entries s) < WT_QUIC_CONNECTION_ID_LIMIT)%nat ->
  zlen (ci_id e) <= WT_QUIC_MAX_CONNECTION_ID_LENGTH ->
  (if ci_issued e
   then ci_sequence e = ids_next_sequence s /\ next = ids_next_sequence s + 1 /\
        count_if providing (ids_entries s) < ids_peer_limit s
   else next = ids_next_sequence s /\ count_if supplied (ids_entries s) < ids_local_limit s) ->
  ids_inv (push_entry s e next).
Proof.
  intros [] Hlen Hid He. unfold push_entry.
  constructor; cbn [ids_entries ids_next_sequence ids_peer_limit ids_local_limit]; try done.
  - rewrite length_app. cbn. lia.
  - rewrite zlen_app. change (zlen [e]) with 1. destruct (ci_issued e); lia.
  - rewrite count_if_app, count_if_one. unfold providing at 2.
    destruct (ci_issued e), (ci_retired e); cbn [andb negb]; lia.
  - rewrite count_if_app, count_if_one. unfold supplied at 2.
    destruct (ci_issued e), (ci_retired e); cbn [andb negb]; lia.
  - rewrite List.filter_app, fmap_app. cbn [List.filter].
    destruct (ci_issued e) eqn:Hi; cbn [fmap list_fmap]; [|by rewrite app_nil_r].
    destruct He as (He & _). apply NoDup_app. split_and!; [done| |apply NoDup_singleton].
    intros x (y & -> & Hy)%list_elem_of_fmap Hx. apply list_elem_of_singleton in Hx.
    apply list_elem_of_In, filter_In in Hy as [Hy Hyi]. apply list_elem_of_In in Hy.
    eapply Forall_forall in iv_own_next0; [|exact Hy]. specialize (iv_own_next0 Hyi). lia.
  - apply Forall_app. split; [|apply Forall_singleton; intros Hi; rewrite Hi in He; lia].
    eapply Forall_impl; [exact iv_own_next0|]. intros x Hx Hi. specialize (Hx Hi).
    destruct (ci_issued e); lia.
  - apply Forall_app. split; [done|]. by apply Forall_singleton.
Qed.

Lemma retire_below_inv s sequence : ids_inv s -> ids_inv (wt_quic_cid_retire_below s sequence).
Proof.
  intros Hs. unfold wt_quic_cid_retire_below. set (threshold := if ids_retire_prior_to s <? sequence then sequence else ids_retire_prior_to s).
  destruct (retire_below_some (fun e => ci_sequence e <? threshold) (ids_entries s)) as [sel ->].
  by apply retire_some_inv.
Qed.

Lemma add_issued_inv s id : ids_inv s -> ids_inv (wt_quic_connection_ids_add_issued s id).2.
Proof.
  intros Hs. unfold wt_quic_connection_ids_add_issued.
  destruct (Z.ltb_spec WT_QUIC_MAX_CONNECTION_ID_LENGTH (zlen id)); [done|].
  destruct (Nat.leb_spec WT_QUIC_CONNECTION_ID_LIMIT (length (ids_entries s))) as [|Hlen]; [done|].
  destruct (Z.eqb_spec (wt_quic_connection_ids_issueable s) 0) as [|Hn]; [done|].
  pose proof (iv_next s Hs). pose proof (iv_peer s Hs). cbn [snd].
  unfold WT_QUIC_CONNECTION_ID_LIMIT, zlen in *.
  apply push_inv; try done. cbn. no_wrap. split_and!; [done|done|].
  unfold wt_quic_connection_ids_issueable in Hn.
  destruct (Z.leb_spec (ids_peer_limit s) (count_if providing (ids_entries s))); [done|lia].
Qed.

Lemma add_peer_inv s sequence retire id :
  ids_inv s -> ids_inv (wt_quic_connection_ids_add_peer s sequence retire id).2.
Proof.
  intros Hs. unfold wt_quic_connection_ids_add_peer.
  destruct (Z.ltb_spec WT_QUIC_MAX_CONNECTION_ID_LENGTH (zlen id)); [done|].
  destruct (sequence <? retire); [done|]. cbv zeta.
  pose proof (retire_below_inv s retire Hs) as Hs1. set (s1 := wt_quic_cid_retire_below s retire) in *.
  destruct (wt_quic_cid_find_sequence s1 sequence); [done|].
  destruct (Z.leb_spec (ids_local_limit s1) (wt_quic_connection_ids_active s1)) as [|Hact]; [done|].
  destruct (Nat.leb_spec WT_QUIC_CONNECTION_ID_LIMIT (length (ids_entries s1))); [done|].
  apply push_inv; try done. cbn. split; [done|].
  eapply Z.le_lt_trans; [apply (count_if_le _ (fun e => negb (ci_retired e)))|exact Hact].
  intros e He. unfold supplied in He. apply andb_true_iff in He. apply He.
Qed.

Lemma retire_inv s sequence : ids_inv s -> ids_inv (wt_quic_connection_ids_retire s sequence).2.
Proof.
  intros Hs. unfold wt_quic_connection_ids_retire. destruct (ids_next_sequence s <=? sequence); [done|].
  destruct (wt_quic_cid_find_sequence s sequence) as [i|]; [|done]. cbn [snd].
  destruct (retire_one_some i (ids_entries s)) as [sel ->]. by apply retire_some_inv.
Qed.

(** ** Theorems *)

Inductive ids_event :=
  | EvIssue (id : list Z)
  | EvPeer (sequence retire_prior_to : Z) (id : list Z)
  | EvRetire (sequence : Z).

Definition ids_step (s : wt_quic_connection_id_store) (e : ids_event) : wt_quic_connection_id_store :=
  match e with
  | EvIssue id => (wt_quic_connection_ids_add_issued s id).2
  | EvPeer sequence retire id => (wt_quic_connection_ids_add_peer s sequence retire id).2
  | EvRetire sequence => (wt_quic_connection_ids_retire s sequence).2
  end.

Definition ids_run (peer_limit local_limit : Z) (events : list ids_event) : wt_quic_connection_id_store :=
  fold_left ids_step events (wt_quic_connection_ids_init peer_limit local_limit).

Lemma ids_step_inv s e : ids_inv s -> ids_inv (ids_step s e).
Proof. destruct e; cbn; [apply add_issued_inv|apply add_peer_inv|apply retire_inv]. Qed.

Lemma ids_run_inv peer_limit local_limit events :
  is_u64 peer_limit -> is_u64 local_limit -> ids_inv (ids_run peer_limit local_limit events).
Proof.
  intros Hp Hl. unfold ids_run. generalize (ids_init_inv peer_limit local_limit Hp Hl).
  generalize (wt_quic_connection_ids_init peer_limit local_limit).
  induction events as [|e events IH]; intros s Hs; [done|]. apply IH. by apply ids_step_inv.
Qed.

Definition peer_ceiling (limit : Z) : Z := Z.max 2 limit.
Definition local_ceiling (limit : Z) : Z := Z.min (Z.max 2 limit) (Z.of_nat WT_QUIC_CONNECTION_ID_LIMIT).

Lemma ids_step_limits s e :
  ids_peer_limit (ids_step s e) = ids_peer_limit s /\ ids_local_limit (ids_step s e) = ids_local_limit s.
Proof.
  destruct e; cbn; unfold wt_quic_connection_ids_add_issued, wt_quic_connection_ids_add_peer,
    wt_quic_connection_ids_retire; repeat case_match; done.
Qed.

Lemma ids_run_limits peer_limit local_limit events :
  ids_peer_limit (ids_run peer_limit local_limit events) = peer_ceiling peer_limit /\
  ids_local_limit (ids_run peer_limit local_limit events) = local_ceiling local_limit.
Proof.
  unfold ids_run.
  assert (H0 : let s := wt_quic_connection_ids_init peer_limit local_limit in
            ids_peer_limit s = peer_ceiling peer_limit /\ ids_local_limit s = local_ceiling local_limit).
  { unfold wt_quic_connection_ids_init, peer_ceiling, local_ceiling, WT_QUIC_CONNECTION_ID_LIMIT; cbn.
    repeat case_match; reflect_bools; lia. }
  revert H0. cbn zeta. generalize (wt_quic_connection_ids_init peer_limit local_limit).
  induction events as [|e events IH]; intros s Hs; [done|]. cbn [fold_left]. apply IH.
  by destruct (ids_step_limits s e) as [-> ->].
Qed.

(** C33. After any sequence of operations on the connection ID store, the table is within
    its bound, the IDs provided to the peer are within its limit, those supplied by the peer
    within the local one, the number still issueable is the exact difference, and the
    sequence numbers issued are distinct and below the next. *)
Theorem connection_id_limits peer_limit local_limit events :
  is_u64 peer_limit -> is_u64 local_limit ->
  let s := ids_run peer_limit local_limit events in
  (length (ids_entries s) <= WT_QUIC_CONNECTION_ID_LIMIT)%nat /\
  count_if providing (ids_entries s) <= peer_ceiling peer_limit /\
  count_if supplied (ids_entries s) <= local_ceiling local_limit /\
  wt_quic_connection_ids_issueable s = peer_ceiling peer_limit - count_if providing (ids_entries s) /\
  NoDup (ci_sequence <$> List.filter ci_issued (ids_entries s)) /\
  Forall (fun e => ci_issued e = true -> ci_sequence e < ids_next_sequence s) (ids_entries s).
Proof.
  intros Hp Hl s. pose proof (ids_run_inv peer_limit local_limit events Hp Hl) as Hs. fold s in Hs. destruct Hs.
  destruct (ids_run_limits peer_limit local_limit events) as [E1 E2]. fold s in E1, E2.
  rewrite <- E1, <- E2. split_and!; try done. unfold wt_quic_connection_ids_issueable.
  pose proof (count_if_nonneg providing (ids_entries s)).
  destruct (Z.leb_spec (ids_peer_limit s) (count_if providing (ids_entries s))); [lia|].
  by no_wrap.
Qed.

Lemma connection_id_limits_witness :
  let s := ids_run 2 4 [EvIssue [1]; EvIssue [2]; EvIssue [3]; EvPeer 7 1 [9]; EvRetire 1; EvIssue [4]] in
  count_if providing (ids_entries s) <= peer_ceiling 2 /\
  (ci_sequence <$> ids_entries s) = [0; 1; 7; 2] /\ (ci_retired <$> ids_entries s) = [true; true; false; false].
Proof.
  split; [|split; vm_compute; reflexivity].
  refine (proj1 (proj2 (connection_id_limits 2 4
    [EvIssue [1]; EvIssue [2]; EvIssue [3]; EvPeer 7 1 [9]; EvRetire 1; EvIssue [4]] _ _)));
    unfold is_u64; lia.
Defined.

Lemma retire_below_fields s threshold {B} (f : wt_quic_connection_id -> B) :
  (forall e, f (retire_entry e) = f e) ->
  f <$> ids_entries (wt_quic_cid_retire_below s threshold) = f <$> ids_entries s.
Proof.
  intros H. unfold wt_quic_cid_retire_below; cbn. rewrite <- list_fmap_compose. apply list_fmap_ext.
  intros i e _. cbn. case_match; auto.
Qed.

Lemma find_sequence_spec s sequence :
  wt_quic_cid_find_sequence s sequence = None <-> sequence ∉ ci_sequence <$> ids_entries s.
Proof.
  unfold wt_quic_cid_find_sequence. rewrite first_index_None, Forall_forall, list_elem_of_fmap. split.
  - intros H (e & -> & He). specialize (H e He). by rewrite Z.eqb_refl in H.
  - intros H e He. apply Z.eqb_neq. intros <-. apply H. by exists e.
Qed.

(** One table keyed by sequence holds both sides' IDs: an ID the peer issues under a sequence already in the table is acknowledged with OK but not stored and cannot be found, and the retire_prior_to of the same frame retires the IDs this endpoint issued. *)
Lemma own_sequence_shadows_peer s sequence retire_prior_to id :
  sequence ∈ ci_sequence <$> ids_entries s -> zlen id <= WT_QUIC_MAX_CONNECTION_ID_LENGTH ->
  retire_prior_to <= sequence ->
  let '(o, s') := wt_quic_connection_ids_add_peer s sequence retire_prior_to id in
  o = Ok tt /\ ci_id <$> ids_entries s' = ci_id <$> ids_entries s /\
  (id ∉ ci_id <$> ids_entries s -> wt_quic_connection_ids_find s' id = Fail WT_ERR_CLOSED None) /\
  (forall own, own ∈ ids_entries s -> ci_issued own = true -> ci_sequence own < retire_prior_to ->
     retire_entry own ∈ ids_entries s').
Proof.
  intros Hin Hid Hr. unfold wt_quic_connection_ids_add_peer. ztest.
  set (s1 := wt_quic_cid_retire_below s retire_prior_to).
  assert (Hids : ci_id <$> ids_entries s1 = ci_id <$> ids_entries s) by (by apply retire_below_fields).
  destruct (wt_quic_cid_find_sequence s1 sequence) eqn:Ef.
  2: { apply find_sequence_spec in Ef. exfalso. apply Ef. unfold s1. by rewrite retire_below_fields. }
  split_and!; [done|done|..].
  - intros Hnew. unfold wt_quic_connection_ids_find. ztest.
    destruct (first_index _ (ids_entries s1)) as [i|] eqn:Ei; [|done].
    apply first_index_Some in Ei as [[e [He Hb]] _]. apply bool_decide_eq_true in Hb.
    exfalso. apply Hnew. rewrite <- Hids, <- Hb. apply list_elem_of_fmap. exists e. split; [done|].
    by eapply list_elem_of_lookup_2.
  - intros own Hown _ Hlt. unfold s1, wt_quic_cid_retire_below; cbn.
    apply list_elem_of_fmap. exists own. split; [|done].
    destruct (Z.ltb_spec (ids_retire_prior_to s) retire_prior_to); by ztest.
Qed.

Lemma own_sequence_shadows_peer_witness :
  let s := ids_run 4 4 [EvIssue [1]; EvIssue [2]] in
  let '(o, s') := wt_quic_connection_ids_add_peer s 1 1 [9] in
  o = Ok tt /\ wt_quic_connection_ids_find s' [9] = Fail WT_ERR_CLOSED None /\
  (ci_retired <$> ids_entries s') = [true; false].
Proof.
  cbv zeta.
  pose proof (own_sequence_shadows_peer (ids_run 4 4 [EvIssue [1]; EvIssue [2]]) 1 1 [9]
    ltac:(by apply (bool_decide_unpack _)) ltac:(done) ltac:(done)) as H.
  destruct (wt_quic_connection_ids_add_peer _ _ _ _) as [o s'] eqn:E. destruct H as (H1 & _ & H2 & _).
  split_and!; [exact H1|apply H2; by apply (bool_decide_unpack _)|].
  vm_compute in E. injection E as <- <-. reflexivity.
Defined.

Lemma ids_step_full s e :
  length (ids_entries s) = WT_QUIC_CONNECTION_ID_LIMIT ->
  length (ids_entries (ids_step s e)) = WT_QUIC_CONNECTION_ID_LIMIT.
Proof.
  intros Hl. assert (Hf : Nat.leb WT_QUIC_CONNECTION_ID_LIMIT WT_QUIC_CONNECTION_ID_LIMIT = true) by done.
  assert (Hr : forall t, length (ids_entries (wt_quic_cid_retire_below s t)) = length (ids_entries s)).
  { intros t. unfold wt_quic_cid_retire_below; cbn. apply length_fmap. }
  destruct e as [id|sequence retire id|sequence]; cbn.
  - unfold wt_quic_connection_ids_add_issued. rewrite Hl, Hf. by repeat case_match.
  - unfold wt_quic_connection_ids_add_peer. cbv zeta. rewrite Hr, Hl, Hf.
    repeat case_match; cbn [snd]; rewrite ?Hr; done.
  - unfold wt_quic_connection_ids_retire. repeat case_match; try done. cbn. by rewrite length_alter.
Qed.

(** Once all the slots have been used, whatever is retired afterwards, every new ID of the peer is refused with CONNECTION_ID_LIMIT_ERROR and every new ID of this endpoint with LIMIT. *)
Lemma retired_slots_never_freed s events sequence retire_prior_to id :
  length (ids_entries s) = WT_QUIC_CONNECTION_ID_LIMIT ->
  let s' := fold_left ids_step events s in
  sequence ∉ ci_sequence <$> ids_entries s' -> zlen id <= WT_QUIC_MAX_CONNECTION_ID_LENGTH ->
  retire_prior_to <= sequence ->
  (wt_quic_connection_ids_add_peer s' sequence retire_prior_to id).1 =
    Fail WT_ERR_LIMIT (Some WT_QUIC_CONNECTION_ID_LIMIT_ERROR) /\
  (wt_quic_connection_ids_add_issued s' id).1 = Fail WT_ERR_LIMIT None.
Proof.
  intros Hl s' Hnew Hid Hr.
  assert (Hs' : length (ids_entries s') = WT_QUIC_CONNECTION_ID_LIMIT).
  { unfold s'. clear -Hl. revert s Hl. induction events as [|e events IH]; intros s Hl; [done|].
    apply IH. by apply ids_step_full. }
  split.
  - unfold wt_quic_connection_ids_add_peer. ztest.
    set (s1 := wt_quic_cid_retire_below s' retire_prior_to).
    assert (Hf : wt_quic_cid_find_sequence s1 sequence = None)
      by (apply find_sequence_spec; unfold s1; by rewrite retire_below_fields).
    assert (Hl1 : length (ids_entries s1) = WT_QUIC_CONNECTION_ID_LIMIT)
      by (unfold s1, wt_quic_cid_retire_below; cbn; by rewrite length_fmap).
    rewrite Hf, Hl1. by destruct (ids_local_limit s1 <=? _).
  - unfold wt_quic_connection_ids_add_issued. ztest. by rewrite Hs'.
Qed.

(** A peer that never has more than one ID outstanding is refused its ninth. *)
Definition rolling_ids : list ids_event :=
  (fun i => EvPeer (Z.of_nat i) (Z.of_nat i) [Z.of_nat i]) <$> seq 0 8.

Lemma retired_slots_never_freed_witness :
  wt_quic_connection_ids_active (ids_run 2 2 rolling_ids) = 1 /\
  (wt_quic_connection_ids_add_peer (ids_run 2 2 rolling_ids) 8 8 [8]).1 =
    Fail WT_ERR_LIMIT (Some WT_QUIC_CONNECTION_ID_LIMIT_ERROR).
Proof.
  split; [vm_compute; reflexivity|].
  refine (proj1 (retired_slots_never_freed (ids_run 2 2 rolling_ids) [] 8 8 [8] _ _ _ _)); try (vm_compute; done).
  apply (bool_decide_unpack _). vm_compute. exact I.
Defined.
