(* ===== verification/CryptoStream.v ===== *)
(** * The CRYPTO stream: [src/quic/crypto_stream.c]

    The receive half is a window of bytes from the read offset with a bitmap of
    those that have arrived; the send half keeps every byte it was given.  The
    abstract state of the receive half is [held], the partial map from absolute
    offsets to bytes. *)

From S2P Require Export Core.

(** ** The code *)

Definition WT_QUIC_CRYPTO_BUFFER_MAX : nat := 4096.
Definition WT_QUIC_CRYPTO_BUFFER_WORDS : nat := 512.
Definition WT_QUIC_CRYPTO_MAX_OFFSET : Z := 2 ^ 62 - 1.

Record wt_quic_crypto_recv := mk_crecv {
  cr_read_offset : Z;
  cr_length : nat;
  cr_has_received : bool;
  cr_data : list Z;        (** [WT_QUIC_CRYPTO_BUFFER_MAX] bytes *)
  cr_arrived : list Z }.   (** the bitmap's bytes *)

Record wt_quic_crypto_send := mk_csend {
  cs_next_offset : Z;
  cs_base_offset : Z;
  cs_held : list Z }.      (** [data[0 .. length)] *)

(** [1U << (index % 8U)] as a byte. *)
Definition bit_mask (index : nat) : Z := u8 (Z.shiftl 1 (Z.of_nat (index mod 8))).

Definition byte_arrived (arrived : list Z) (index : nat) : bool :=
  negb (Z.land (byte_at arrived (index / 8)) (bit_mask index) =? 0).

Definition mark_arrived (arrived : list Z) (index : nat) : list Z :=
  <[(index / 8)%nat := u8 (Z.lor (byte_at arrived (index / 8)) (bit_mask index))]> arrived.

Definition wt_quic_crypto_recv_init : wt_quic_crypto_recv :=
  mk_crecv 0 0 false (replicate WT_QUIC_CRYPTO_BUFFER_MAX 0) (replicate WT_QUIC_CRYPTO_BUFFER_WORDS 0).

Definition wt_quic_crypto_send_init : wt_quic_crypto_send := mk_csend 0 0 [].

(** The copying loop: each byte and its mark. *)
Fixpoint insert_loop (at' : nat) (bytes data arrived : list Z) : list Z * list Z :=
  match bytes with
  | [] => (data, arrived)
  | b :: bytes => insert_loop (S at') bytes (<[at' := b]> data) (mark_arrived arrived at')
  end.

Definition wt_quic_crypto_recv_insert (r : wt_quic_crypto_recv) (offset : Z) (data : list Z)
    : wt_status * wt_quic_crypto_recv :=
  let length := zlen data in
  if length =? 0 then (WT_OK, r)
  else if u64 (WT_QUIC_CRYPTO_MAX_OFFSET - length) <? offset then (WT_ERR_OVERFLOW, r)
  else if u64 (offset + length) <=? cr_read_offset r then (WT_OK, r)
  else
    let behind := offset <? cr_read_offset r in
    let skip := u64 (cr_read_offset r - offset) in
    let offset' := if behind then cr_read_offset r else offset in
    let data' := if behind then zdrop skip data else data in
    let length' := if behind then u64 (length - skip) else length in
    if Z.of_nat WT_QUIC_CRYPTO_BUFFER_MAX <=? u64 (offset' - cr_read_offset r) then (WT_ERR_LIMIT, r)
    else
      let start := u64 (offset' - cr_read_offset r) in
      if u64 (Z.of_nat WT_QUIC_CRYPTO_BUFFER_MAX - start) <? length' then (WT_ERR_LIMIT, r)
      else
        let '(bytes, arrived) := insert_loop (Z.to_nat start) data' (cr_data r) (cr_arrived r) in
        let reach := Z.to_nat (u64 (start + length')) in
        (WT_OK, mk_crecv (cr_read_offset r)
                  (if Nat.ltb (cr_length r) reach then reach else cr_length r) true bytes arrived).

(** [while (available < length && byte_arrived(recv, available)) available++]; [remaining]
    is [length - available]. *)
Fixpoint available_loop (remaining available : nat) (arrived : list Z) : nat :=
  match remaining with
  | O => available
  | S remaining => if byte_arrived arrived available then available_loop remaining (S available) arrived
              else available
  end.

(** The length reported; the bytes are the first that many of [cr_data]. *)
Definition wt_quic_crypto_recv_available (r : wt_quic_crypto_recv) : nat :=
  available_loop (cr_length r) 0 (cr_arrived r).

(** The bit-by-bit shift of the bitmap; [remaining] is [recv->length - bit]. *)
Fixpoint shift_loop (remaining bit length : nat) (arrived shifted : list Z) : list Z :=
  match remaining with
  | O => shifted
  | S remaining =>
      shift_loop remaining (S bit) length arrived
        (if byte_arrived arrived bit then mark_arrived shifted (bit - length) else shifted)
  end.

Definition wt_quic_crypto_recv_consume (r : wt_quic_crypto_recv) (length : nat)
    : wt_status * wt_quic_crypto_recv :=
  if Nat.ltb (cr_length r) length then (WT_ERR_INVALID_ARGUMENT, r)
  else if Nat.eqb length 0 then (WT_OK, r)
  else
    let rest := (cr_length r - length)%nat in
    (WT_OK, mk_crecv (u64 (cr_read_offset r + Z.of_nat length)) rest (cr_has_received r)
              (take rest (drop length (cr_data r)) ++ drop rest (cr_data r))
              (shift_loop rest length length (cr_arrived r) (replicate WT_QUIC_CRYPTO_BUFFER_WORDS 0))).

Definition wt_quic_crypto_recv_has_gap (r : wt_quic_crypto_recv) : bool :=
  Nat.ltb (wt_quic_crypto_recv_available r) (cr_length r).

Definition wt_quic_crypto_recv_read_offset (r : wt_quic_crypto_recv) : Z := cr_read_offset r.

Definition wt_quic_crypto_send_append (s : wt_quic_crypto_send) (data : list Z)
    : wt_status * wt_quic_crypto_send :=
  if zlen data =? 0 then (WT_OK, s)
  else if u64 (Z.of_nat WT_QUIC_CRYPTO_BUFFER_MAX - zlen (cs_held s)) <? zlen data then (WT_ERR_LIMIT, s)
  else (WT_OK, mk_csend (cs_next_offset s) (cs_base_offset s) (cs_held s ++ data)).

(** The offset and the bytes. *)
Definition wt_quic_crypto_send_next (s : wt_quic_crypto_send) (max_length : Z) : outcome (Z * list Z) :=
  if cs_next_offset s <? cs_base_offset s then Fail WT_ERR_STATE None
  else
    let unsent := u64 (cs_next_offset s - cs_base_offset s) in
    if zlen (cs_held s) <=? unsent then Fail WT_ERR_STATE None
    else
      let length := u64 (zlen (cs_held s) - unsent) in
      Ok (cs_next_offset s, zslice unsent (if max_length <? length then max_length else length) (cs_held s)).

Definition wt_quic_crypto_send_advance (s : wt_quic_crypto_send) (length : Z)
    : wt_status * wt_quic_crypto_send :=
  if cs_next_offset s <? cs_base_offset s then (WT_ERR_STATE, s)
  else
    let unsent := u64 (cs_next_offset s - cs_base_offset s) in
    if u64 (zlen (cs_held s) - unsent) <? length then (WT_ERR_INVALID_ARGUMENT, s)
    else (WT_OK, mk_csend (u64 (cs_next_offset s + length)) (cs_base_offset s) (cs_held s)).

Definition wt_quic_crypto_send_retransmit (s : wt_quic_crypto_send) (offset length : Z)
    : outcome (list Z) :=
  if cs_next_offset s <=? offset then Fail WT_ERR_INVALID_ARGUMENT None
  else if offset <? cs_base_offset s then Fail WT_ERR_STATE None
  else
    let start := u64 (offset - cs_base_offset s) in
    if (zlen (cs_held s) <=? start) || (u64 (zlen (cs_held s) - start) <? length)
    then Fail WT_ERR_STATE None
    else Ok (zslice start length (cs_held s)).

Definition wt_quic_crypto_send_pending (s : wt_quic_crypto_send) : bool :=
  if cs_next_offset s <? cs_base_offset s then false
  else u64 (cs_next_offset s - cs_base_offset s) <? zlen (cs_held s).

(** ** The bitmap *)

Lemma bit_mask_eq i : bit_mask i = 2 ^ Z.of_nat (i mod 8).
Proof.
  unfold bit_mask. rewrite Z.shiftl_1_l. apply u8_small. unfold is_u8.
  pose proof (Nat.mod_upper_bound i 8 ltac:(lia)). split; [apply Z.pow_nonneg; lia|].
  apply Z.pow_lt_mono_r; lia.
Qed.

Lemma byte_arrived_testbit a i :
  byte_arrived a i = Z.testbit (byte_at a (i / 8)) (Z.of_nat (i mod 8)).
Proof.
  unfold byte_arrived. rewrite bit_mask_eq. set (k := Z.of_nat (i mod 8)). set (x := byte_at a _).
  assert (Hk : 0 <= k) by (unfold k; lia).
  destruct (Z.testbit x k) eqn:E.
  - apply negb_true_iff, Z.eqb_neq. intros H0.
    assert (Ht : Z.testbit (Z.land x (2 ^ k)) k = true) by (by rewrite Z.land_spec, E, Z.pow2_bits_true by lia).
    by rewrite H0, Z.bits_0 in Ht.
  - apply negb_false_iff, Z.eqb_eq, Z.bits_inj'. intros j Hj. rewrite Z.land_spec, Z.bits_0.
    destruct (Z.eq_dec j k) as [->|Hne]; [by rewrite E|]. rewrite Z.pow2_bits_false by lia.
    apply andb_false_r.
Qed.

Lemma mark_arrived_len a i : length (mark_arrived a i) = length a.
Proof. apply length_insert. Qed.

Lemma mark_arrived_spec a i j :
  (i < 8 * length a)%nat -> byte_arrived (mark_arrived a i) j = bool_decide (i = j) || byte_arrived a j.
Proof.
  intros Hi. rewrite !byte_arrived_testbit. unfold mark_arrived, byte_at.
  pose proof (Nat.mod_upper_bound i 8 ltac:(lia)). pose proof (Nat.mod_upper_bound j 8 ltac:(lia)).
  pose proof (Nat.div_mod_eq i 8). pose proof (Nat.div_mod_eq j 8).
  destruct (decide (i / 8 = j / 8)%nat) as [E|E].
  - rewrite E, list_lookup_insert_eq by lia. cbn [default from_option id].
    unfold u8. rewrite Z.mod_pow2_bits_low by lia. rewrite Z.lor_spec, bit_mask_eq.
    rewrite orb_comm. f_equal.
    destruct (decide (i = j)) as [->|Hne].
    + rewrite bool_decide_true by done. apply Z.pow2_bits_true. lia.
    + rewrite bool_decide_false by done. apply Z.pow2_bits_false. lia.
  - rewrite list_lookup_insert_ne by done. rewrite bool_decide_false; [done|]. intros ->. done.
Qed.

Lemma byte_arrived_zero n j : byte_arrived (replicate n 0) j = false.
Proof.
  rewrite byte_arrived_testbit. unfold byte_at.
  destruct (replicate n 0 !! (j / 8)%nat) as [x|] eqn:E; cbn; [|by rewrite Z.bits_0].
  apply lookup_replicate in E as [-> _]. by rewrite Z.bits_0.
Qed.

(** ** The loops *)

Lemma insert_loop_spec bytes : forall at' data arrived,
  (at' + length bytes <= length data)%nat -> (at' + length bytes <= 8 * length arrived)%nat ->
  let '(d, a) := insert_loop at' bytes data arrived in
  length d = length data /\ length a = length arrived /\
  (forall j, byte_arrived a j = bool_decide (at' <= j < at' + length bytes)%nat || byte_arrived arrived j) /\
  (forall j, d !! j = if bool_decide (at' <= j < at' + length bytes)%nat then bytes !! (j - at')%nat
                      else data !! j).
Proof.
  induction bytes as [|b bytes IH]; intros at' data arrived Hd Ha; cbn [insert_loop].
  { cbn. split_and!; try done; intros j; by rewrite bool_decide_false by lia. }
  cbn [length] in *.
  specialize (IH (S at') (<[at' := b]> data) (mark_arrived arrived at')).
  rewrite length_insert, mark_arrived_len in IH. specialize (IH ltac:(lia) ltac:(lia)).
  destruct (insert_loop _ _ _ _) as [d a]. destruct IH as (H1 & H2 & H3 & H4). split_and!; [done|done|..].
  - intros j. rewrite H3, mark_arrived_spec by lia. rewrite orb_assoc. f_equal.
    destruct (decide (at' <= j < at' + S (length bytes))%nat).
    + rewrite (bool_decide_true (at' <= j < _)%nat) by done. destruct (decide (at' = j)).
      * rewrite (bool_decide_true (at' = j)) by done. apply orb_true_r.
      * by rewrite bool_decide_true by lia.
    + rewrite !bool_decide_false by lia. done.
  - intros j. rewrite H4. destruct (decide (at' = j)) as [->|Hne].
    + rewrite bool_decide_false by lia. rewrite (bool_decide_true (j <= j < _)%nat) by lia.
      rewrite Nat.sub_diag. apply list_lookup_insert_eq. lia.
    + rewrite list_lookup_insert_ne by done.
      destruct (decide (at' <= j < at' + S (length bytes))%nat).
      * rewrite !bool_decide_true by lia. by replace (j - at')%nat with (S (j - S at')) by lia.
      * by rewrite !bool_decide_false by lia.
Qed.

Lemma available_loop_spec arrived remaining : forall from,
  let n := available_loop remaining from arrived in
  (from <= n <= from + remaining)%nat /\
  (forall j, (from <= j < n)%nat -> byte_arrived arrived j = true) /\
  ((n < from + remaining)%nat -> byte_arrived arrived n = false).
Proof.
  induction remaining as [|remaining IH]; intros from; cbn [available_loop]; [split_and!; lia|].
  destruct (byte_arrived arrived from) eqn:E; [|cbn zeta; split; [lia|split; [lia|done]]].
  destruct (IH (S from)) as (H1 & H2 & H3). cbn zeta. split; [lia|]. split; [|intros; apply H3; lia].
  intros j Hj. destruct (decide (j = from)) as [->|]; [done|]. apply H2. lia.
Qed.

Lemma shift_loop_spec len arrived remaining : forall bit shifted,
  (len <= bit)%nat -> (bit - len + remaining <= 8 * length shifted)%nat ->
  let a := shift_loop remaining bit len arrived shifted in
  length a = length shifted /\
  forall j, byte_arrived a j =
    (bool_decide (bit - len <= j < bit - len + remaining)%nat && byte_arrived arrived (j + len)) ||
    byte_arrived shifted j.
Proof.
  induction remaining as [|remaining IH]; intros bit shifted Hb Hs; cbn [shift_loop].
  { split; [done|]. intros j. by rewrite bool_decide_false by lia. }
  set (sh := if byte_arrived arrived bit then _ else _).
  assert (Hl : length sh = length shifted) by (unfold sh; case_match; [apply mark_arrived_len|done]).
  destruct (IH (S bit) sh) as (H1 & H2); [lia|rewrite Hl; lia|]. cbn zeta in *. split; [lia|].
  intros j. rewrite H2.
  assert (Hsh : byte_arrived sh j =
    (bool_decide (j = bit - len)%nat && byte_arrived arrived bit) || byte_arrived shifted j).
  { unfold sh. destruct (byte_arrived arrived bit); [|by rewrite andb_false_r].
    rewrite mark_arrived_spec by lia. rewrite andb_true_r. f_equal.
    destruct (decide (j = bit - len)%nat); [rewrite !bool_decide_true by lia|rewrite !bool_decide_false by lia]; done. }
  rewrite Hsh, orb_assoc. f_equal.
  destruct (decide (j = bit - len)%nat) as [->|Hne].
  - rewrite (bool_decide_false (S bit - len <= _ < _)%nat) by lia.
    rewrite !bool_decide_true by lia. cbn. by replace (bit - len + len)%nat with bit by lia.
  - rewrite (bool_decide_false (j = _)) by done. cbn. rewrite orb_false_r. f_equal.
    destruct (decide (bit - len <= j < bit - len + S remaining)%nat);
      [rewrite !bool_decide_true by lia|rewrite !bool_decide_false by lia]; done.
Qed.

(** ** The abstract state *)

(** The byte at an absolute offset, when it has arrived and was not consumed. *)
Definition held (r : wt_quic_crypto_recv) (x : Z) : option Z :=
  let i := Z.to_nat (x - cr_read_offset r) in
  if bool_decide (cr_read_offset r <= x) && byte_arrived (cr_arrived r) i then cr_data r !! i else None.

Record crecv_inv (r : wt_quic_crypto_recv) : Prop := {
  ci_data : length (cr_data r) = WT_QUIC_CRYPTO_BUFFER_MAX;
  ci_arrived : length (cr_arrived r) = WT_QUIC_CRYPTO_BUFFER_WORDS;
  ci_length : (cr_length r <= WT_QUIC_CRYPTO_BUFFER_MAX)%nat;
  ci_offset : 0 <= cr_read_offset r /\ cr_read_offset r + Z.of_nat (cr_length r) <= WT_QUIC_CRYPTO_MAX_OFFSET;
  ci_beyond : forall j, (cr_length r <= j)%nat -> byte_arrived (cr_arrived r) j = false }.

Lemma crypto_init_inv : crecv_inv wt_quic_crypto_recv_init.
Proof.
  constructor; cbn [cr_data cr_arrived cr_length cr_read_offset wt_quic_crypto_recv_init].
  - apply length_replicate.
  - apply length_replicate.
  - lia.
  - unfold WT_QUIC_CRYPTO_MAX_OFFSET. lia.
  - intros. apply byte_arrived_zero.
Qed.

(** What the status of an insert depends on. *)
Definition insert_status (r : wt_quic_crypto_recv) (offset len : Z) : wt_status :=
  if len =? 0 then WT_OK
  else if WT_QUIC_CRYPTO_MAX_OFFSET <? offset + len then WT_ERR_OVERFLOW
  else if cr_read_offset r + Z.of_nat WT_QUIC_CRYPTO_BUFFER_MAX <? offset + len then WT_ERR_LIMIT
  else WT_OK.

(** The bytes stored at [start] of the window. *)
Lemma store_spec r start data reach :
  crecv_inv r -> (start + length data <= WT_QUIC_CRYPTO_BUFFER_MAX)%nat ->
  reach = (start + length data)%nat ->
  cr_read_offset r + Z.of_nat reach <= WT_QUIC_CRYPTO_MAX_OFFSET ->
  let '(bytes, arrived) := insert_loop start data (cr_data r) (cr_arrived r) in
  let r' := mk_crecv (cr_read_offset r) (if Nat.ltb (cr_length r) reach then reach else cr_length r)
              true bytes arrived in
  crecv_inv r' /\
  forall x, held r' x =
    if bool_decide (cr_read_offset r + Z.of_nat start <= x < cr_read_offset r + Z.of_nat reach)
    then data !! Z.to_nat (x - cr_read_offset r - Z.of_nat start) else held r x.
Proof.
  intros Hr Hfit -> Hmax. pose proof (ci_data r Hr) as Hd. pose proof (ci_arrived r Hr) as Ha.
  pose proof (insert_loop_spec data start (cr_data r) (cr_arrived r)) as Hs.
  rewrite Hd, Ha in Hs. unfold WT_QUIC_CRYPTO_BUFFER_MAX, WT_QUIC_CRYPTO_BUFFER_WORDS in *.
  specialize (Hs ltac:(lia) ltac:(lia)).
  destruct (insert_loop _ _ _ _) as [bytes arrived]. destruct Hs as (H1 & H2 & H3 & H4).
  destruct Hr. unfold WT_QUIC_CRYPTO_BUFFER_MAX in *. split.
  - constructor; cbn [cr_data cr_arrived cr_length cr_read_offset];
      unfold WT_QUIC_CRYPTO_BUFFER_MAX, WT_QUIC_CRYPTO_BUFFER_WORDS; try done.
    + case_match; lia.
    + case_match; lia.
    + intros j. rewrite H3. destruct (Nat.ltb_spec (cr_length r) (start + length data)); intros Hj;
        (rewrite bool_decide_false by lia); apply ci_beyond0; lia.
  - intros x. unfold held; cbn. rewrite H3, H4.
    destruct (decide (cr_read_offset r <= x)).
    2: { rewrite !(bool_decide_false (_ <= x)) by lia. cbn [andb]. by rewrite bool_decide_false by lia. }
    rewrite !(bool_decide_true (_ <= x)) by lia. cbn [andb].
    destruct (decide (start <= Z.to_nat (x - cr_read_offset r) < start + length data)%nat).
    + rewrite !bool_decide_true by lia. cbn [orb]. f_equal. lia.
    + by rewrite !bool_decide_false by lia.
Qed.

(** An insertion stores exactly the bytes of the frame that lie at or above the read offset, or refuses and changes nothing. *)
Lemma crypto_insert_exact r offset data :
  crecv_inv r -> is_u64 offset -> zlen data < 2 ^ 62 ->
  let '(status, r') := wt_quic_crypto_recv_insert r offset data in
  status = insert_status r offset (zlen data) /\
  crecv_inv r' /\ cr_read_offset r' = cr_read_offset r /\ (status <> WT_OK -> r' = r) /\
  forall x, held r' x =
    if bool_decide (status = WT_OK /\ Z.max offset (cr_read_offset r) <= x < offset + zlen data)
    then data !! Z.to_nat (x - offset) else held r x.
Proof.
  intros Hr Ho Hlen. pose proof (ci_offset r Hr) as Hoff. pose proof (zlen_nonneg data).
  unfold wt_quic_crypto_recv_insert, insert_status, is_u64, WT_QUIC_CRYPTO_MAX_OFFSET in *.
  assert (Hnone : forall (P : Prop) `{Decision P}, ~ P -> bool_decide P = false)
    by (intros; by apply bool_decide_false).
  rewrite (u64_small (2 ^ 62 - 1 - zlen data)) by (unfold is_u64; lia).
  destruct (Z.eqb_spec (zlen data) 0).
  { split_and!; try done. intros x. by rewrite bool_decide_false by lia. }
  destruct (Z.ltb_spec (2 ^ 62 - 1 - zlen data) offset); ztest.
  { split_and!; try done; intros x; (rewrite bool_decide_false; [done|]); by intros []. }
  rewrite (u64_small (offset + zlen data)) by (unfold is_u64; lia).
  destruct (Z.leb_spec (offset + zlen data) (cr_read_offset r)); ztest.
  { unfold WT_QUIC_CRYPTO_BUFFER_MAX. ztest. split_and!; try done.
    intros x. by rewrite bool_decide_false by lia. }
  unfold WT_QUIC_CRYPTO_BUFFER_MAX in *. change (Z.of_nat 4096) with 4096.
  set (behind := offset <? cr_read_offset r).
  set (offset' := if behind then cr_read_offset r else offset).
  set (data' := if behind then zdrop (u64 (cr_read_offset r - offset)) data else data).
  assert (Hskip : offset' = Z.max offset (cr_read_offset r) /\
                  zlen data' = offset + zlen data - offset' /\
                  (if behind then u64 (zlen data - u64 (cr_read_offset r - offset)) else zlen data) = zlen data' /\
                  forall i, data' !! i = data !! Z.to_nat (Z.of_nat i + offset' - offset)).
  { subst offset' data' behind. destruct (Z.ltb_spec offset (cr_read_offset r)).
    - rewrite (u64_small (cr_read_offset r - offset)) by (unfold is_u64; lia).
      rewrite zlen_zdrop by lia. split_and!; [lia|lia|by no_wrap|]. intros i. unfold zdrop.
      rewrite lookup_drop. f_equal. lia.
    - split_and!; [lia|lia|done|]. intros i. f_equal. lia. }
  destruct Hskip as (Hoff' & Hlen' & -> & Hdata').
  rewrite (u64_small (offset' - cr_read_offset r)) by (unfold is_u64; lia).
  destruct (Z.leb_spec 4096 (offset' - cr_read_offset r)); ztest.
  { split_and!; try done; intros x; (rewrite bool_decide_false; [done|]); by intros []. }
  rewrite (u64_small (4096 - _)) by (unfold is_u64; lia).
  destruct (Z.ltb_spec (4096 - (offset' - cr_read_offset r)) (zlen data')); ztest.
  { split_and!; try done; intros x; (rewrite bool_decide_false; [done|]); by intros []. }
  rewrite (u64_small (offset' - cr_read_offset r + zlen data')) by (unfold is_u64; lia).
  set (start := Z.to_nat (offset' - cr_read_offset r)).
  assert (Hz : zlen data' = Z.of_nat (length data')) by done.
  pose proof (store_spec r start data' (Z.to_nat (offset' - cr_read_offset r + zlen data')) Hr) as Hst.
  unfold WT_QUIC_CRYPTO_BUFFER_MAX, WT_QUIC_CRYPTO_MAX_OFFSET in Hst.
  specialize (Hst ltac:(unfold start; lia) ltac:(unfold start; lia) ltac:(lia)).
  destruct (insert_loop _ _ _ _) as [bytes arrived]. destruct Hst as [Hi Hh].
  split_and!; [done|exact Hi|done|done|]. intros x. rewrite Hh.
  destruct (decide (offset' <= x < offset + zlen data)).
  - rewrite !bool_decide_true by (split_and?; unfold start; lia || done). rewrite Hdata'. f_equal. unfold start. lia.
  - rewrite !bool_decide_false by (intros Hx; unfold start in *; lia). done.
Qed.

Lemma consume_spec r n :
  crecv_inv r -> (n <= cr_length r)%nat ->
  let '(status, r') := wt_quic_crypto_recv_consume r n in
  status = WT_OK /\ crecv_inv r' /\ cr_read_offset r' = cr_read_offset r + Z.of_nat n /\
  forall x, held r' x = if bool_decide (cr_read_offset r + Z.of_nat n <= x) then held r x else None.
Proof.
  intros Hr Hn. pose proof Hr as [Hd Ha Hl [Ho1 Ho2] Hb]. unfold wt_quic_crypto_recv_consume.
  unfold WT_QUIC_CRYPTO_BUFFER_MAX, WT_QUIC_CRYPTO_MAX_OFFSET in *.
  rewrite (proj2 (Nat.ltb_ge _ _)) by lia. destruct (Nat.eqb_spec n 0) as [->|Hn0].
  { split_and!; [done|done|lia|]. intros x. destruct (decide (cr_read_offset r <= x)).
    - by rewrite bool_decide_true by lia.
    - rewrite bool_decide_false by lia. unfold held. by rewrite bool_decide_false by lia. }
  set (rest := (cr_length r - n)%nat).
  destruct (shift_loop_spec n (cr_arrived r) rest n (replicate WT_QUIC_CRYPTO_BUFFER_WORDS 0)) as [Hs1 Hs2].
  { lia. }
  { rewrite length_replicate. unfold WT_QUIC_CRYPTO_BUFFER_WORDS. lia. }
  set (arr := shift_loop _ _ _ _ _) in *.
  assert (Harr : forall j, byte_arrived arr j = byte_arrived (cr_arrived r) (j + n)).
  { intros j. rewrite Hs2, byte_arrived_zero, orb_false_r.
    destruct (decide (n - n <= j < n - n + rest)%nat).
    - rewrite bool_decide_true by lia. done.
    - rewrite bool_decide_false by lia. symmetry. apply Hb. lia. }
  rewrite u64_small by (unfold is_u64; lia). split; [done|]. split; [|split; [done|]].
  - constructor; cbn [cr_data cr_arrived cr_length cr_read_offset].
    + rewrite length_app, length_take, !length_drop. unfold WT_QUIC_CRYPTO_BUFFER_MAX. lia.
    + by rewrite Hs1, length_replicate.
    + unfold WT_QUIC_CRYPTO_BUFFER_MAX. lia.
    + unfold WT_QUIC_CRYPTO_MAX_OFFSET. lia.
    + intros j Hj. rewrite Harr. apply Hb. lia.
  - intros x. unfold held; cbn [cr_data cr_arrived cr_length cr_read_offset].
    destruct (decide (cr_read_offset r + Z.of_nat n <= x)).
    2: { by rewrite !bool_decide_false by lia. }
    rewrite !bool_decide_true by lia. cbn [andb]. rewrite Harr.
    replace (Z.to_nat (x - (cr_read_offset r + Z.of_nat n)) + n)%nat with (Z.to_nat (x - cr_read_offset r)) by lia.
    destruct (byte_arrived (cr_arrived r) (Z.to_nat (x - cr_read_offset r))) eqn:E; [|done].
    assert (Hlt : (Z.to_nat (x - cr_read_offset r) < cr_length r)%nat)
      by (apply Nat.nle_gt; intros Hge; rewrite Hb in E; done).
    rewrite lookup_app_l by (rewrite length_take, length_drop; lia).
    rewrite lookup_take_lt, lookup_drop by lia. f_equal. lia.
Qed.

(** What [available] reports is the longest unbroken run from the read offset. *)
Lemma available_spec r :
  crecv_inv r ->
  let n := wt_quic_crypto_recv_available r in
  (n <= cr_length r)%nat /\
  (forall i, (i < n)%nat -> held r (cr_read_offset r + Z.of_nat i) = cr_data r !! i /\
                            is_Some (cr_data r !! i)) /\
  held r (cr_read_offset r + Z.of_nat n) = None.
Proof.
  intros Hr. pose proof Hr as [Hd _ Hl _ Hb]. unfold wt_quic_crypto_recv_available.
  destruct (available_loop_spec (cr_arrived r) (cr_length r) 0) as (H1 & H2 & H3).
  set (n := available_loop _ _ _) in *. unfold WT_QUIC_CRYPTO_BUFFER_MAX in *.
  assert (Hat : forall i, held r (cr_read_offset r + Z.of_nat i) =
            if byte_arrived (cr_arrived r) i then cr_data r !! i else None).
  { intros i. unfold held. rewrite bool_decide_true by lia. cbn [andb].
    by replace (Z.to_nat (cr_read_offset r + Z.of_nat i - cr_read_offset r)) with i by lia. }
  split; [lia|]. split.
  - intros i Hi. rewrite Hat, H2 by lia. split; [done|]. apply lookup_lt_is_Some. lia.
  - rewrite Hat. destruct (decide (n < cr_length r)%nat); [by rewrite H3 by lia|]. by rewrite Hb by lia.
Qed.

(** ** Reassembly

    The peer's handshake bytes are a function [src] of the offset; every CRYPTO
    frame carries a piece of it, in any order, repeated and overlapping at will.
    The consumer takes what is available and no more. *)

Inductive crypto_event :=
  | EvCrypto (offset : Z) (length : nat)
  | EvTake (n : nat).

Section Reassembly.
Context (src : Z -> Z).

Definition piece (offset : Z) (length : nat) : list Z :=
  (fun i => src (offset + Z.of_nat i)) <$> seq 0 length.

(** The state, what was delivered so far, and the pieces that were accepted. *)
Record reassembly := mk_reassembly {
  ra_recv : wt_quic_crypto_recv;
  ra_delivered : list Z;
  ra_accepted : list (Z * nat) }.

Definition reassembly_init : reassembly := mk_reassembly wt_quic_crypto_recv_init [] [].

Definition reassembly_step (a : reassembly) (e : crypto_event) : reassembly :=
  let r := ra_recv a in
  match e with
  | EvCrypto offset length =>
      let '(status, r') := wt_quic_crypto_recv_insert r offset (piece offset length) in
      mk_reassembly r' (ra_delivered a)
        (match status with WT_OK => (offset, length) :: ra_accepted a | _ => ra_accepted a end)
  | EvTake n =>
      let k := Nat.min n (wt_quic_crypto_recv_available r) in
      mk_reassembly (wt_quic_crypto_recv_consume r k).2 (ra_delivered a ++ take k (cr_data r))
        (ra_accepted a)
  end.

Definition crypto_event_ok (e : crypto_event) : Prop :=
  match e with
  | EvCrypto offset length => is_u64 offset /\ Z.of_nat length < 2 ^ 62
  | EvTake _ => True
  end.

Definition covers (x : Z) (p : Z * nat) : Prop := p.1 <= x < p.1 + Z.of_nat p.2.

Record reassembly_inv (a : reassembly) : Prop := {
  rv_recv : crecv_inv (ra_recv a);
  rv_delivered : ra_delivered a = piece 0 (length (ra_delivered a));
  rv_offset : cr_read_offset (ra_recv a) = zlen (ra_delivered a);
  rv_held : forall x b, held (ra_recv a) x = Some b -> b = src x;
  rv_accepted : forall p x, p ∈ ra_accepted a -> covers x p -> zlen (ra_delivered a) <= x ->
                is_Some (held (ra_recv a) x) }.

Lemma piece_len offset n : length (piece offset n) = n.
Proof. unfold piece. by rewrite length_fmap, length_seq. Qed.

Lemma piece_lookup offset n i : (i < n)%nat -> piece offset n !! i = Some (src (offset + Z.of_nat i)).
Proof. intros Hi. unfold piece. by rewrite list_lookup_fmap, lookup_seq_lt by done. Qed.

Lemma piece_app offset n m : piece offset (n + m) = piece offset n ++ piece (offset + Z.of_nat n) m.
Proof.
  unfold piece. rewrite seq_app, fmap_app. f_equal. rewrite Nat.add_0_l, <- (Nat.add_0_r n) at 1.
  rewrite <- fmap_add_seq, <- list_fmap_compose. apply list_fmap_ext. intros i x _. cbn. f_equal. lia.
Qed.

Lemma crypto_event_inv a offset n :
  reassembly_inv a -> crypto_event_ok (EvCrypto offset n) ->
  reassembly_inv (reassembly_step a (EvCrypto offset n)).
Proof.
  intros [] [Ho Hn]. cbn [reassembly_step].
  assert (Hz : zlen (piece offset n) = Z.of_nat n) by (unfold zlen; by rewrite piece_len).
  pose proof (crypto_insert_exact (ra_recv a) offset (piece offset n) rv_recv0 Ho ltac:(lia)) as H.
  rewrite Hz in H. destruct (wt_quic_crypto_recv_insert _ _ _) as [status r'].
  destruct H as (_ & Hr' & Hro & _ & Hh).
  assert (Hsrc : forall x b, held r' x = Some b -> b = src x).
  { intros x b. rewrite Hh. case_bool_decide as Hc; [|apply rv_held0].
    destruct Hc as [_ Hc]. rewrite piece_lookup by lia. intros [= <-]. f_equal. lia. }
  assert (Hkeep : forall x, is_Some (held (ra_recv a) x) -> is_Some (held r' x)).
  { intros x Hx. rewrite Hh. case_bool_decide as Hc; [|done]. destruct Hc as [_ Hc].
    rewrite piece_lookup by lia. done. }
  constructor; cbn [ra_recv ra_delivered ra_accepted]; try done; [lia|].
  intros p x Hp Hx Hd.
  assert (Hcase : (status = WT_OK /\ p = (offset, n)) \/ p ∈ ra_accepted a).
  { destruct status; try (by right). apply elem_of_cons in Hp as [->|Hp]; [by left|by right]. }
  destruct Hcase as [[-> ->]|Hp']; [|apply Hkeep; by eapply rv_accepted0].
  unfold covers in Hx; cbn in Hx. rewrite Hh, bool_decide_true by (split; [done|lia]).
  rewrite piece_lookup by lia. done.
Qed.

Lemma take_event_inv a n : reassembly_inv a -> reassembly_inv (reassembly_step a (EvTake n)).
Proof.
  intros []. cbn [reassembly_step]. set (r := ra_recv a) in *.
  destruct (available_spec r rv_recv0) as (Hle & Hav & _).
  set (k := Nat.min n (wt_quic_crypto_recv_available r)).
  pose proof (consume_spec r k rv_recv0 ltac:(lia)) as H.
  destruct (wt_quic_crypto_recv_consume r k) as [status r']. destruct H as (_ & Hr' & Hro & Hh).
  assert (Hk : (k <= length (cr_data r))%nat).
  { pose proof (ci_data r rv_recv0). pose proof (ci_length r rv_recv0). lia. }
  assert (Hlen : length (take k (cr_data r)) = k) by (rewrite length_take; lia).
  assert (Htake : take k (cr_data r) = piece (zlen (ra_delivered a)) k).
  { apply list_eq. intros i. destruct (decide (i < k)%nat) as [Hi|Hi].
    - rewrite lookup_take_lt, piece_lookup by lia. destruct (Hav i) as [Hhi [b Hb]]; [lia|].
      rewrite Hb in Hhi. apply rv_held0 in Hhi. rewrite Hb, Hhi. do 2 f_equal. lia.
    - rewrite !lookup_ge_None_2; [done|rewrite piece_len; lia|lia]. }
  constructor; cbn [ra_recv ra_delivered ra_accepted snd]; try done.
  - rewrite length_app, Hlen, piece_app, Z.add_0_l. rewrite rv_delivered0 at 1. f_equal. exact Htake.
  - rewrite zlen_app, Hro, rv_offset0. unfold zlen at 3. by rewrite Hlen.
  - intros x b. rewrite Hh. case_bool_decide; [apply rv_held0|done].
  - intros p x Hp Hx Hd. rewrite zlen_app in Hd. unfold zlen at 2 in Hd. rewrite Hlen in Hd.
    rewrite Hh, bool_decide_true by lia. eapply rv_accepted0; [done|done|]. lia.
Qed.

Lemma reassembly_run_inv events :
  Forall crypto_event_ok events ->
  reassembly_inv (fold_left reassembly_step events reassembly_init).
Proof.
  assert (H0 : reassembly_inv reassembly_init).
  { constructor; cbn [reassembly_init ra_recv ra_delivered ra_accepted]; try done.
    - apply crypto_init_inv.
    - intros x b. unfold held, wt_quic_crypto_recv_init. cbn [cr_arrived cr_read_offset cr_data].
      by rewrite byte_arrived_zero, andb_false_r.
    - intros p x Hp. by apply elem_of_nil in Hp. }
  revert H0. generalize reassembly_init. intros a Ha He. revert a Ha.
  induction He as [|e events He _ IH]; intros a Ha; [done|]. apply IH.
  destruct e; [by apply crypto_event_inv|by apply take_event_inv].
Qed.
End Reassembly.

(** C19. Refinement of CRYPTO reassembly. When every frame carries a piece of one source
    sequence, in any order, with duplicates and overlaps, and the reader consumes what is
    available, the bytes delivered are always a prefix of the source, the bytes now readable
    are the next ones, the read offset is the number delivered, and no frame that was
    accepted covers the first byte still missing. *)
Theorem crypto_reassembly src events :
  Forall crypto_event_ok events ->
  let a := fold_left (reassembly_step src) events reassembly_init in
  let r := ra_recv a in
  let n := wt_quic_crypto_recv_available r in
  ra_delivered a = piece src 0 (length (ra_delivered a)) /\
  wt_quic_crypto_recv_read_offset r = zlen (ra_delivered a) /\
  take n (cr_data r) = piece src (zlen (ra_delivered a)) n /\
  forall p, p ∈ ra_accepted a ->
    covers (zlen (ra_delivered a) + Z.of_nat n) p -> False.
Proof.
  intros He a r n. destruct (reassembly_run_inv src events He) as [Hr Hd Ho Hh Hacc].
  fold a in Hr, Hd, Ho, Hh, Hacc. fold r in Hr, Ho, Hh, Hacc.
  destruct (available_spec r Hr) as (Hle & Hav & Hend). fold n in Hle, Hav, Hend.
  split; [exact Hd|]. split; [exact Ho|]. split.
  - pose proof (ci_data r Hr). pose proof (ci_length r Hr).
    apply list_eq. intros i. destruct (decide (i < n)%nat) as [Hi|Hi].
    + rewrite lookup_take_lt, piece_lookup by lia. destruct (Hav i Hi) as [Hhi [b Hb]].
      rewrite Hb in Hhi. apply Hh in Hhi. rewrite Hb, Hhi. do 2 f_equal. lia.
    + rewrite !lookup_ge_None_2; [done|rewrite piece_len; lia|rewrite length_take; lia].
  - intros p Hp Hx. rewrite <- Ho in Hx. destruct (Hacc p _ Hp Hx ltac:(lia)) as [b Hb].
    rewrite Hend in Hb. done.
Qed.

Lemma crypto_reassembly_witness :
  let events := [EvCrypto 4 3; EvCrypto 0 2; EvTake 1; EvCrypto 0 5; EvTake 100] in
  let a := fold_left (reassembly_step (fun x => x mod 256)) events reassembly_init in
  ra_delivered a = piece (fun x => x mod 256) 0 (length (ra_delivered a)) /\
  ra_delivered a = [0; 1; 2; 3; 4; 5; 6].
Proof.
  split; [|vm_compute; reflexivity].
  refine (proj1 (crypto_reassembly (fun x => x mod 256)
    [EvCrypto 4 3; EvCrypto 0 2; EvTake 1; EvCrypto 0 5; EvTake 100] _)).
  repeat constructor; cbn; lia.
Defined.

Lemma crypto_insert_exact_witness :
  let '(status, r') := wt_quic_crypto_recv_insert wt_quic_crypto_recv_init 4090 [1; 2; 3] in
  status = WT_OK /\ held r' 4091 = Some 2 /\
  (wt_quic_crypto_recv_insert r' 4095 [9; 9]).1 = WT_ERR_LIMIT.
Proof.
  pose proof (crypto_insert_exact wt_quic_crypto_recv_init 4090 [1; 2; 3] crypto_init_inv
    ltac:(unfold is_u64; lia) ltac:(done)) as H.
  destruct (wt_quic_crypto_recv_insert _ _ _) as [status r'] eqn:E.
  destruct H as (H1 & Hr & Ho & _ & H2). split; [exact H1|].
  assert (Hs : status = WT_OK) by exact H1. split.
  - rewrite H2, bool_decide_true; [done|]. split; [exact Hs|].
    change (zlen [1; 2; 3]) with 3. change (cr_read_offset wt_quic_crypto_recv_init) with 0. lia.
  - pose proof (crypto_insert_exact r' 4095 [9; 9] Hr ltac:(unfold is_u64; lia) ltac:(done)) as H.
    destruct (wt_quic_crypto_recv_insert r' 4095 [9; 9]) as [s2 r2]. destruct H as [H _].
    rewrite H. unfold insert_status. rewrite Ho. reflexivity.
Defined.

(** ** The send half *)

Inductive send_event :=
  | EvAppend (data : list Z)
  | EvSend (max_length : Z).

(** The state and the chunks handed out, oldest first, each with its offset. *)
Definition send_step (a : wt_quic_crypto_send * list (Z * list Z)) (e : send_event)
    : wt_quic_crypto_send * list (Z * list Z) :=
  let '(s, sent) := a in
  match e with
  | EvAppend data => ((wt_quic_crypto_send_append s data).2, sent)
  | EvSend max_length =>
      match wt_quic_crypto_send_next s max_length with
      | Ok (offset, bytes) => ((wt_quic_crypto_send_advance s (zlen bytes)).2, sent ++ [(offset, bytes)])
      | Fail _ _ => (s, sent)
      end
  end.

Definition send_event_ok (e : send_event) : Prop :=
  match e with EvAppend _ => True | EvSend max_length => 0 < max_length end.

Definition chunk_of (bytes : list Z) (c : Z * list Z) : Prop :=
  0 <= c.1 /\ 0 < zlen c.2 /\ c.1 + zlen c.2 <= zlen bytes /\ c.2 = zslice c.1 (zlen c.2) bytes.

Record csend_inv (s : wt_quic_crypto_send) (sent : list (Z * list Z)) : Prop := {
  cv_base : cs_base_offset s = 0;
  cv_len : zlen (cs_held s) <= Z.of_nat WT_QUIC_CRYPTO_BUFFER_MAX;
  cv_next : 0 <= cs_next_offset s <= zlen (cs_held s);
  cv_sent : concat sent.*2 = ztake (cs_next_offset s) (cs_held s);
  cv_chunks : Forall (fun c => chunk_of (cs_held s) c /\ c.1 + zlen c.2 <= cs_next_offset s) sent }.

Lemma zslice_app {A} off n (l k : list A) :
  0 <= off -> 0 <= n -> off + n <= zlen l -> zslice off n (l ++ k) = zslice off n l.
Proof.
  intros. unfold zslice, ztake, zdrop, zlen in *. rewrite drop_app_le by lia.
  apply take_app_le. rewrite length_drop. lia.
Qed.

Lemma ztake_slice {A} n m (l : list A) :
  0 <= n -> 0 <= m -> ztake (n + m) l = ztake n l ++ zslice n m l.
Proof.
  intros. unfold zslice, ztake, zdrop. rewrite Z2Nat.inj_add by lia.
  by rewrite <- take_take_drop.
Qed.

Lemma send_step_inv s sent e :
  csend_inv s sent -> send_event_ok e ->
  csend_inv (send_step (s, sent) e).1 (send_step (s, sent) e).2.
Proof.
  intros [] He. destruct e as [data|max_length]; cbn [send_step].
  - unfold wt_quic_crypto_send_append, WT_QUIC_CRYPTO_BUFFER_MAX in *.
    destruct (zlen data =? 0); [by constructor|]. rewrite u64_small by (unfold is_u64; zlia).
    destruct (Z.ltb_spec (Z.of_nat 4096 - zlen (cs_held s)) (zlen data)); [by constructor|].
    constructor; cbn [fst snd cs_base_offset cs_next_offset cs_held]; try done.
    + unfold WT_QUIC_CRYPTO_BUFFER_MAX. rewrite zlen_app. lia.
    + rewrite zlen_app. zlia.
    + rewrite cv_sent0. unfold ztake. symmetry. apply take_app_le. unfold zlen in *. lia.
    + eapply Forall_impl; [exact cv_chunks0|]. intros c [(H1 & H2 & H3 & H4) H5]. split; [|done].
      split_and!; [done|done|zlia|]. rewrite zslice_app by lia. done.
  - unfold wt_quic_crypto_send_next. rewrite cv_base0, Z.sub_0_r. cbn in He.
    unfold WT_QUIC_CRYPTO_BUFFER_MAX in *. ztest.
    rewrite (u64_small (cs_next_offset s)) by (unfold is_u64; lia).
    destruct (Z.leb_spec (zlen (cs_held s)) (cs_next_offset s)); [by constructor|].
    rewrite u64_small by (unfold is_u64; lia). set (n := cs_next_offset s) in *.
    set (len := if max_length <? zlen (cs_held s) - n then max_length else zlen (cs_held s) - n).
    assert (Hlen : 0 < len <= zlen (cs_held s) - n)
      by (unfold len; destruct (Z.ltb_spec max_length (zlen (cs_held s) - n)); lia).
    assert (Hz : zlen (zslice n len (cs_held s)) = len) by (apply zlen_zslice; lia).
    unfold wt_quic_crypto_send_advance. rewrite cv_base0, Z.sub_0_r, Hz. fold n. ztest.
    rewrite (u64_small n) by (unfold is_u64; lia). rewrite (u64_small (_ - n)) by (unfold is_u64; lia). ztest.
    cbn [fst snd]. rewrite u64_small by (unfold is_u64; lia).
    constructor; cbn [cs_base_offset cs_next_offset cs_held]; unfold WT_QUIC_CRYPTO_BUFFER_MAX; try done; try lia.
    + rewrite fmap_app, concat_app, cv_sent0, ztake_slice by lia. cbn. by rewrite app_nil_r.
    + apply Forall_app. split.
      * eapply Forall_impl; [exact cv_chunks0|]. intros c [H1 H2]. split; [done|lia].
      * apply Forall_singleton. unfold chunk_of; cbn. rewrite Hz. split_and!; (lia || done).
Qed.

(** For any sequence of appends and sends of the CRYPTO send buffer, the chunks handed out concatenate to exactly the first bytes appended, nothing is pending only when all of them were handed out, the buffer never outgrows its bound, and every chunk handed out can be retransmitted with the same bytes at its offset. *)
Lemma crypto_send_contiguous events :
  Forall send_event_ok events ->
  let '(s, sent) := fold_left send_step events (wt_quic_crypto_send_init, []) in
  concat sent.*2 = ztake (cs_next_offset s) (cs_held s) /\
  zlen (cs_held s) <= Z.of_nat WT_QUIC_CRYPTO_BUFFER_MAX /\
  (wt_quic_crypto_send_pending s = false -> concat sent.*2 = cs_held s) /\
  forall offset bytes, (offset, bytes) ∈ sent ->
    wt_quic_crypto_send_retransmit s offset (zlen bytes) = Ok bytes.
Proof.
  intros He.
  assert (H : csend_inv (fold_left send_step events (wt_quic_crypto_send_init, [])).1
                        (fold_left send_step events (wt_quic_crypto_send_init, [])).2).
  { assert (H0 : csend_inv wt_quic_crypto_send_init []) by (constructor; cbn; try done; constructor).
    revert H0. generalize wt_quic_crypto_send_init, (@nil (Z * list Z)). intros s sent Hs.
    revert s sent Hs. induction He as [|e events He _ IH]; intros s sent Hs; [done|]. cbn [fold_left].
    pose proof (send_step_inv s sent e Hs He) as Hs'. destruct (send_step (s, sent) e) as [s' sent'].
    by apply IH. }
  destruct (fold_left _ _ _) as [s sent]. destruct H. cbn [fst snd] in *.
  unfold WT_QUIC_CRYPTO_BUFFER_MAX in *. split_and!; [done|done|..].
  - unfold wt_quic_crypto_send_pending. rewrite cv_base0, Z.sub_0_r. ztest.
    rewrite u64_small by (unfold is_u64; lia). intros Hp. reflect_bools.
    rewrite cv_sent0. apply ztake_all. lia.
  - intros offset bytes Hin. eapply Forall_forall in cv_chunks0; [|exact Hin].
    destruct cv_chunks0 as [(H1 & H2 & H3 & H4) H5]. cbn [fst snd] in *.
    unfold wt_quic_crypto_send_retransmit. rewrite cv_base0, Z.sub_0_r. ztest.
    rewrite (u64_small offset) by (unfold is_u64; lia).
    rewrite (u64_small (_ - offset)) by (unfold is_u64; lia). ztest. by rewrite <- H4.
Qed.

Lemma crypto_send_contiguous_witness :
  let '(s, sent) := fold_left send_step [EvAppend [1; 2; 3]; EvSend 2; EvAppend [4]; EvSend 9; EvSend 1]
                      (wt_quic_crypto_send_init, []) in
  concat sent.*2 = ztake (cs_next_offset s) (cs_held s) /\ sent = [(0, [1; 2]); (2, [3; 4])].
Proof.
  pose proof (crypto_send_contiguous [EvAppend [1; 2; 3]; EvSend 2; EvAppend [4]; EvSend 9; EvSend 1]
    ltac:(repeat constructor; cbn; lia)) as H.
  destruct (fold_left _ _ _) as [s sent] eqn:E. split; [apply H|].
  vm_compute in E. injection E as <- <-. reflexivity.
Defined.
