(* ===== verification/Datagram.v ===== *)
(** * QUIC DATAGRAM: [src/quic/datagram.c]

    The payload bound and the receive queue.  The queue is a ring of eight slots;
    its specification is a bounded list that discards the newest. *)

From S2P Require Export Varint.

(** ** The code *)

Definition WT_QUIC_DATAGRAM_MAX : Z := 1200.
Definition WT_QUIC_DATAGRAM_QUEUE_MAX : nat := 8.

(** The [for (;;)] of the payload bound; [None] when [fuel] attempts were not enough. *)
Fixpoint payload_loop (fuel : nat) (limit length : Z) : option Z :=
  match fuel with
  | O => None
  | S fuel =>
      let needed := u64 (u64 (1 + wt_quic_varint_size length) + length) in
      if needed <=? limit then Some length
      else if length <? u64 (needed - limit) then Some 0
      else
        let length := u64 (length - u64 (needed - limit)) in
        if length =? 0 then Some 0 else payload_loop fuel limit length
  end.

(** The source's comment gives the bound: "at most four attempts". *)
Definition payload_attempts : nat := 4.

Definition wt_quic_datagram_max_payload (peer_max_datagram_frame_size max_packet_size packet_overhead : Z)
    : option Z :=
  if max_packet_size <=? packet_overhead then Some 0
  else
    let by_packet := u64 (max_packet_size - packet_overhead) in
    if peer_max_datagram_frame_size =? 0 then Some 0
    else
      let by_frame := if 1 <? peer_max_datagram_frame_size
                      then u64 (peer_max_datagram_frame_size - 1) else 0 in
      match payload_loop payload_attempts peer_max_datagram_frame_size by_frame with
      | None => None
      | Some length => Some (if length <? by_packet then length else by_packet)
      end.

Record wt_quic_datagram := mk_datagram {
  dg_data : list Z;        (** [data[0 .. length)] *)
  dg_received_at : Z }.

Record wt_quic_datagram_queue := mk_queue {
  dq_entries : list wt_quic_datagram;   (** [WT_QUIC_DATAGRAM_QUEUE_MAX] slots *)
  dq_head : nat;
  dq_count : nat;
  dq_received : Z;
  dq_discarded : Z }.

Definition empty_slot : wt_quic_datagram := mk_datagram [] 0.

Definition wt_quic_datagram_queue_init : wt_quic_datagram_queue :=
  mk_queue (replicate WT_QUIC_DATAGRAM_QUEUE_MAX empty_slot) 0 0 0 0.

(** The flag is [*out_discarded]. *)
Definition wt_quic_datagram_queue_push (q : wt_quic_datagram_queue) (data : list Z) (received_at : Z)
    : wt_status * bool * wt_quic_datagram_queue :=
  if WT_QUIC_DATAGRAM_MAX <? zlen data then (WT_ERR_LIMIT, false, q)
  else
    let received := u64 (dq_received q + 1) in
    if Nat.eqb (dq_count q) WT_QUIC_DATAGRAM_QUEUE_MAX then
      (WT_OK, true, mk_queue (dq_entries q) (dq_head q) (dq_count q) received (u64 (dq_discarded q + 1)))
    else
      let index := ((dq_head q + dq_count q) mod WT_QUIC_DATAGRAM_QUEUE_MAX)%nat in
      (WT_OK, false, mk_queue (<[index := mk_datagram data received_at]> (dq_entries q)) (dq_head q)
                       (S (dq_count q)) received (dq_discarded q)).

(** The bytes and the time of the oldest. *)
Definition wt_quic_datagram_queue_pop (q : wt_quic_datagram_queue) (capacity : Z)
    : outcome (list Z * Z) * wt_quic_datagram_queue :=
  if Nat.eqb (dq_count q) 0 then (Fail WT_ERR_AGAIN None, q)
  else
    let entry := default empty_slot (dq_entries q !! dq_head q) in
    if capacity <? zlen (dg_data entry) then (Fail WT_ERR_LIMIT None, q)
    else (Ok (dg_data entry, dg_received_at entry),
          mk_queue (dq_entries q) ((dq_head q + 1) mod WT_QUIC_DATAGRAM_QUEUE_MAX)%nat
            (dq_count q - 1) (dq_received q) (dq_discarded q)).

Definition wt_quic_datagram_queue_count (q : wt_quic_datagram_queue) : nat := dq_count q.
Definition wt_quic_datagram_queue_received (q : wt_quic_datagram_queue) : Z := dq_received q.
Definition wt_quic_datagram_queue_discarded (q : wt_quic_datagram_queue) : Z := dq_discarded q.

(** ** The payload bound *)

(** What a DATAGRAM frame of [n] payload bytes takes: type, length, payload. *)
Definition datagram_frame_size (n : Z) : Z := 1 + wt_quic_varint_size n + n.

Lemma varint_size_pos v : varint_ok v -> 1 <= wt_quic_varint_size v <= 8.
Proof.
  unfold varint_ok, wt_quic_varint_size. intros [? ?].
  repeat case_match; reflect_bools; lia.
Qed.

Lemma varint_size_mono a b : varint_ok b -> 0 <= a <= b -> wt_quic_varint_size a <= wt_quic_varint_size b.
Proof.
  unfold varint_ok, wt_quic_varint_size. intros [? ?] ?.
  repeat case_match; reflect_bools; lia.
Qed.

(** Two attempts are enough, and this is where they end. *)
Lemma payload_loop_spec fuel limit :
  1 <= limit <= WT_QUIC_VARINT_MAX ->
  payload_loop (S (S fuel)) limit (limit - 1) =
    Some (Z.max 0 (limit - 1 - wt_quic_varint_size (limit - 1))).
Proof.
  intros Hl. unfold WT_QUIC_VARINT_MAX in Hl.
  pose proof (varint_size_pos (limit - 1) ltac:(unfold varint_ok, WT_QUIC_VARINT_MAX; lia)) as Hs.
  cbn [payload_loop]. set (s1 := wt_quic_varint_size (limit - 1)) in *.
  rewrite (u64_small (1 + s1)) by (unfold is_u64; lia).
  rewrite (u64_small (1 + s1 + (limit - 1))) by (unfold is_u64; lia).
  rewrite (proj2 (Z.leb_gt _ _)) by lia.
  replace (1 + s1 + (limit - 1) - limit) with s1 by lia. rewrite (u64_small s1) by (unfold is_u64; lia).
  destruct (Z.ltb_spec (limit - 1) s1); [f_equal; lia|].
  rewrite (u64_small (limit - 1 - s1)) by (unfold is_u64; lia).
  destruct (Z.eqb_spec (limit - 1 - s1) 0); [f_equal; lia|].
  pose proof (varint_size_mono (limit - 1 - s1) (limit - 1)
    ltac:(unfold varint_ok, WT_QUIC_VARINT_MAX; lia) ltac:(lia)).
  pose proof (varint_size_pos (limit - 1 - s1) ltac:(unfold varint_ok, WT_QUIC_VARINT_MAX; lia)).
  rewrite (u64_small (1 + wt_quic_varint_size _)) by (unfold is_u64; lia).
  rewrite (u64_small (1 + _ + _)) by (unfold is_u64; lia).
  rewrite (proj2 (Z.leb_le _ _)) by lia. f_equal. lia.
Qed.

(** The limits at which the length field shrinks between the first candidate and
    the best one. *)
Definition width_boundary (limit : Z) : Prop :=
  limit = 65 \/ 2 ^ 14 + 1 <= limit <= 2 ^ 14 + 3 \/ 2 ^ 30 + 1 <= limit <= 2 ^ 30 + 7.

(** The largest DATAGRAM payload is computed within four attempts, fits the packet, makes a frame within the peer's limit, and is the largest such length except when the limit lies at one of the few values where the length field changes width, at which one more byte would still fit. *)
Lemma datagram_payload_bound limit max_packet overhead :
  1 <= limit <= WT_QUIC_VARINT_MAX -> 0 <= overhead < max_packet -> max_packet < 2 ^ 64 ->
  exists r, wt_quic_datagram_max_payload limit max_packet overhead = Some r /\
    0 <= r <= max_packet - overhead /\
    (0 < r -> datagram_frame_size r <= limit) /\
    (r < max_packet - overhead -> (datagram_frame_size (r + 1) <= limit <-> width_boundary limit)).
Proof.
  intros Hl Hp Hm. unfold wt_quic_datagram_max_payload. pose proof Hl as Hl'. unfold WT_QUIC_VARINT_MAX in Hl'.
  rewrite (proj2 (Z.leb_gt _ _)) by lia. rewrite (proj2 (Z.eqb_neq limit 0)) by lia.
  assert (E : (if 1 <? limit then u64 (limit - 1) else 0) = limit - 1).
  { destruct (Z.ltb_spec 1 limit); [|lia]. apply u64_small. unfold is_u64. lia. }
  unfold payload_attempts. rewrite E, payload_loop_spec by done. rewrite (u64_small (max_packet - overhead)) by (unfold is_u64; lia).
  set (s1 := wt_quic_varint_size (limit - 1)). set (n := Z.max 0 (limit - 1 - s1)).
  exists (Z.min n (max_packet - overhead)).
  assert (Hs1 : 1 <= s1 <= 8) by (apply varint_size_pos; unfold varint_ok, WT_QUIC_VARINT_MAX; lia).
  split; [|split; [lia|split]].
  - f_equal. destruct (Z.ltb_spec n (max_packet - overhead)); lia.
  - intros Hr. unfold datagram_frame_size.
    pose proof (varint_size_mono (Z.min n (max_packet - overhead)) (limit - 1)
      ltac:(unfold varint_ok, WT_QUIC_VARINT_MAX; lia) ltac:(lia)). fold s1 in H. lia.
  - intros Hr. replace (Z.min n (max_packet - overhead)) with n by lia.
    unfold datagram_frame_size, width_boundary. unfold n, s1, wt_quic_varint_size, WT_QUIC_VARINT_MAX in *.
    destruct (Z.ltb_spec (limit - 1) 64); [|destruct (Z.ltb_spec (limit - 1) 16384);
      [|destruct (Z.ltb_spec (limit - 1) 1073741824); [|rewrite (proj2 (Z.leb_le (limit - 1) _)) by lia]]];
      repeat case_match; reflect_bools; lia.
Qed.

Lemma datagram_payload_bound_witness :
  (exists r, wt_quic_datagram_max_payload 65 1200 40 = Some r /\ (0 < r -> datagram_frame_size r <= 65)) /\
  wt_quic_datagram_max_payload 65 1200 40 = Some 62 /\ datagram_frame_size 63 = 65.
Proof.
  split; [|split; vm_compute; reflexivity].
  destruct (datagram_payload_bound 65 1200 40) as (r & H1 & _ & H2 & _);
    [unfold WT_QUIC_VARINT_MAX; lia|lia|lia|]. by exists r.
Defined.

(** ** The queue is a bounded FIFO *)

(** The queued datagrams, oldest first. *)
Definition ring_at (q : wt_quic_datagram_queue) (i : nat) : wt_quic_datagram :=
  default empty_slot (dq_entries q !! ((dq_head q + i) mod WT_QUIC_DATAGRAM_QUEUE_MAX)%nat).
Definition contents (q : wt_quic_datagram_queue) : list wt_quic_datagram :=
  ring_at q <$> seq 0 (dq_count q).

Definition ring_inv (q : wt_quic_datagram_queue) : Prop :=
  length (dq_entries q) = WT_QUIC_DATAGRAM_QUEUE_MAX /\
  (dq_head q < WT_QUIC_DATAGRAM_QUEUE_MAX)%nat /\ (dq_count q <= WT_QUIC_DATAGRAM_QUEUE_MAX)%nat.

Inductive queue_event :=
  | EvPush (data : list Z) (received_at : Z)
  | EvPop (capacity : Z).

(** What the caller sees of one call. *)
Inductive queue_answer :=
  | Pushed (s : wt_status) (discarded : bool)
  | Popped (o : outcome (list Z * Z)).

Definition queue_step (q : wt_quic_datagram_queue) (e : queue_event)
    : queue_answer * wt_quic_datagram_queue :=
  match e with
  | EvPush data at' => let '(s, d, q') := wt_quic_datagram_queue_push q data at' in (Pushed s d, q')
  | EvPop capacity => let '(o, q') := wt_quic_datagram_queue_pop q capacity in (Popped o, q')
  end.

(** The specification: a list of at most eight, the newest discarded. *)
Definition fifo_step (l : list wt_quic_datagram) (e : queue_event)
    : queue_answer * list wt_quic_datagram :=
  match e with
  | EvPush data at' =>
      if WT_QUIC_DATAGRAM_MAX <? zlen data then (Pushed WT_ERR_LIMIT false, l)
      else if Nat.leb 8 (length l) then (Pushed WT_OK true, l)
      else (Pushed WT_OK false, l ++ [mk_datagram data at'])
  | EvPop capacity =>
      match l with
      | [] => (Popped (Fail WT_ERR_AGAIN None), l)
      | d :: l' => if capacity <? zlen (dg_data d) then (Popped (Fail WT_ERR_LIMIT None), l)
                   else (Popped (Ok (dg_data d, dg_received_at d)), l')
      end
  end.

Fixpoint answers {S} (step : S -> queue_event -> queue_answer * S) (s : S) (events : list queue_event)
    : list queue_answer * S :=
  match events with
  | [] => ([], s)
  | e :: events => let '(a, s1) := step s e in let '(l, s2) := answers step s1 events in (a :: l, s2)
  end.

Lemma contents_len q : length (contents q) = dq_count q.
Proof. unfold contents. by rewrite length_fmap, length_seq. Qed.

Lemma push_contents q d received discarded :
  ring_inv q -> (dq_count q < WT_QUIC_DATAGRAM_QUEUE_MAX)%nat ->
  let q' := mk_queue (<[((dq_head q + dq_count q) mod WT_QUIC_DATAGRAM_QUEUE_MAX)%nat := d]> (dq_entries q))
              (dq_head q) (S (dq_count q)) received discarded in
  ring_inv q' /\ contents q' = contents q ++ [d].
Proof.
  intros (Hl & Hh & Hc) Hlt q'. unfold WT_QUIC_DATAGRAM_QUEUE_MAX in *.
  pose proof (Nat.mod_upper_bound (dq_head q + dq_count q) 8 ltac:(lia)).
  split; [split_and!; cbn; unfold WT_QUIC_DATAGRAM_QUEUE_MAX; rewrite ?length_insert; lia|].
  unfold contents. change (dq_count q') with (S (dq_count q)). rewrite seq_S, fmap_app. f_equal.
  - apply list_fmap_ext. intros i x Hx. apply lookup_seq in Hx as [-> Hi].
    unfold ring_at, q'; cbn [dq_entries dq_head]. unfold WT_QUIC_DATAGRAM_QUEUE_MAX.
    rewrite list_lookup_insert_ne; [done|]. intros E.
    pose proof (Nat.div_mod_eq (dq_head q + dq_count q) 8). pose proof (Nat.div_mod_eq (dq_head q + (0 + i)) 8). lia.
  - cbn [fmap list_fmap]. unfold ring_at, q'; cbn [dq_entries dq_head]. unfold WT_QUIC_DATAGRAM_QUEUE_MAX.
    by rewrite list_lookup_insert_eq by lia.
Qed.

Lemma pop_contents q received discarded :
  ring_inv q -> dq_count q <> 0%nat ->
  let q' := mk_queue (dq_entries q) ((dq_head q + 1) mod WT_QUIC_DATAGRAM_QUEUE_MAX)%nat (dq_count q - 1)
              received discarded in
  ring_inv q' /\ contents q = default empty_slot (dq_entries q !! dq_head q) :: contents q'.
Proof.
  intros (Hl & Hh & Hc) Hn q'. unfold WT_QUIC_DATAGRAM_QUEUE_MAX in *.
  pose proof (Nat.mod_upper_bound (dq_head q + 1) 8 ltac:(lia)).
  split; [split_and!; cbn [q' dq_entries dq_head dq_count]; unfold WT_QUIC_DATAGRAM_QUEUE_MAX; lia|].
  unfold contents. change (dq_count q') with (dq_count q - 1)%nat.
  destruct (dq_count q) as [|c] eqn:Ec; [done|]. cbn [seq fmap list_fmap].
  replace (S c - 1)%nat with c by lia. f_equal.
  - unfold ring_at, WT_QUIC_DATAGRAM_QUEUE_MAX. by rewrite Nat.add_0_r, Nat.mod_small by lia.
  - rewrite <- fmap_S_seq, <- list_fmap_compose. apply list_fmap_ext. intros i x _. cbn [compose].
    unfold ring_at, q', WT_QUIC_DATAGRAM_QUEUE_MAX; cbn [dq_entries dq_head].
    rewrite Nat.Div0.add_mod_idemp_l. do 3 f_equal. lia.
Qed.

Lemma queue_step_refines q e :
  ring_inv q ->
  let '(a, q') := queue_step q e in
  ring_inv q' /\ fifo_step (contents q) e = (a, contents q').
Proof.
  intros Hq. destruct e as [data at'|capacity]; cbn [queue_step fifo_step].
  - unfold wt_quic_datagram_queue_push. destruct (WT_QUIC_DATAGRAM_MAX <? zlen data); [done|].
    rewrite contents_len. destruct (Nat.eqb_spec (dq_count q) WT_QUIC_DATAGRAM_QUEUE_MAX) as [E|E].
    + rewrite (proj2 (Nat.leb_le _ _)) by (rewrite E; unfold WT_QUIC_DATAGRAM_QUEUE_MAX; lia). by split.
    + destruct Hq as (? & ? & ?). unfold WT_QUIC_DATAGRAM_QUEUE_MAX in *.
      rewrite (proj2 (Nat.leb_gt _ _)) by lia.
      destruct (push_contents q (mk_datagram data at') (u64 (dq_received q + 1)) (dq_discarded q)) as [Hi Hc];
        [done|unfold WT_QUIC_DATAGRAM_QUEUE_MAX; lia|]. unfold WT_QUIC_DATAGRAM_QUEUE_MAX in *.
      split; [exact Hi|]. f_equal. by symmetry.
  - unfold wt_quic_datagram_queue_pop. destruct (Nat.eqb_spec (dq_count q) 0) as [E|E].
    + split; [done|]. unfold contents. by rewrite E.
    + destruct (pop_contents q (dq_received q) (dq_discarded q) Hq E) as [Hi Hc]. rewrite Hc.
      set (d := default empty_slot _) in *. destruct (capacity <? zlen (dg_data d)); [|by split].
      split; [done|]. by rewrite Hc.
Qed.

(** The ring buffer of received datagrams refines a first-in first-out queue that discards the newest when full: for any sequence of pushes and pops both give the same answers and hold the same contents, within the bound. *)
Lemma datagram_queue_is_fifo events :
  let '(seen, q) := answers queue_step wt_quic_datagram_queue_init events in
  answers fifo_step [] events = (seen, contents q) /\
  (wt_quic_datagram_queue_count q <= WT_QUIC_DATAGRAM_QUEUE_MAX)%nat.
Proof.
  assert (H : forall q, ring_inv q ->
    let '(seen, q') := answers queue_step q events in
    ring_inv q' /\ answers fifo_step (contents q) events = (seen, contents q')).
  { induction events as [|e events IH]; intros q Hq; cbn [answers]; [done|].
    pose proof (queue_step_refines q e Hq) as Hs. destruct (queue_step q e) as [a q1].
    destruct Hs as [Hq1 ->]. specialize (IH q1 Hq1). destruct (answers queue_step q1 events) as [l q2].
    destruct IH as [Hq2 ->]. done. }
  specialize (H wt_quic_datagram_queue_init). change (contents wt_quic_datagram_queue_init) with (@nil wt_quic_datagram) in H.
  specialize (H ltac:(split_and!; [done|cbn; unfold WT_QUIC_DATAGRAM_QUEUE_MAX; lia..])).
  destruct (answers queue_step _ events) as [seen q]. destruct H as [(_ & _ & Hc) ->]. done.
Qed.
