(* ===== verification/Frame.v ===== *)
(** * The QUIC frame codec: [src/quic/frame.c] and [src/quic/frame_encode.c]

    Every frame of RFC 9000 section 19, DATAGRAM (RFC 9221) and RESET_STREAM_AT,
    as one tagged union; the decoder, the walk over a packet's payload, the
    on-demand ACK range accessor and the encoder.  [frame_bytes] is the wire
    format the encoder is proved to write and the decoder to read back. *)

From S2P Require Export QuicError Varint.

(** ** Frames *)

Definition WT_QUIC_STATELESS_RESET_TOKEN_LENGTH : Z := 16.
Definition WT_QUIC_PATH_CHALLENGE_LENGTH : Z := 8.

Inductive wt_quic_stream_direction := WT_QUIC_STREAM_BIDIRECTIONAL | WT_QUIC_STREAM_UNIDIRECTIONAL.

#[export] Instance stream_direction_eq_dec : EqDecision wt_quic_stream_direction.
Proof. solve_decision. Defined.

Record wt_quic_ack_fields := mk_ack {
  ack_largest : Z;
  ack_delay : Z;
  ack_first_range : Z;
  ack_ranges : list Z;
  ack_range_count : Z;
  ack_ecn : option (Z * Z * Z) }.   (** [has_ecn] with [ect0], [ect1], [ecn_ce] *)

Record wt_quic_stream_fields := mk_stream_frame {
  sf_id : Z;
  sf_offset : Z;
  sf_has_offset : bool;
  sf_fin : bool;
  sf_has_length : bool;
  sf_data : list Z }.

Record wt_quic_close_fields := mk_close_frame {
  cf_has_frame_type : bool;
  cf_error_code : Z;
  cf_frame_type : Z;
  cf_reason : list Z }.

Inductive wt_quic_frame :=
  | FRAME_PADDING
  | FRAME_PING
  | FRAME_ACK (a : wt_quic_ack_fields)
  | FRAME_RESET_STREAM (id code final_size : Z)
  | FRAME_STOP_SENDING (id code : Z)
  | FRAME_CRYPTO (offset : Z) (data : list Z)
  | FRAME_NEW_TOKEN (token_length : Z) (token : list Z)
  | FRAME_STREAM (s : wt_quic_stream_fields)
  | FRAME_MAX_DATA (maximum : Z)
  | FRAME_MAX_STREAM_DATA (id maximum : Z)
  | FRAME_MAX_STREAMS (d : wt_quic_stream_direction) (maximum : Z)
  | FRAME_DATA_BLOCKED (maximum : Z)
  | FRAME_STREAM_DATA_BLOCKED (id offset : Z)
  | FRAME_STREAMS_BLOCKED (d : wt_quic_stream_direction) (maximum : Z)
  | FRAME_NEW_CONNECTION_ID (sequence retire_prior_to : Z) (cid token : list Z)
  | FRAME_RETIRE_CONNECTION_ID (sequence : Z)
  | FRAME_PATH_CHALLENGE (data : list Z)
  | FRAME_PATH_RESPONSE (data : list Z)
  | FRAME_CONNECTION_CLOSE_TRANSPORT (c : wt_quic_close_fields)
  | FRAME_CONNECTION_CLOSE_APPLICATION (c : wt_quic_close_fields)
  | FRAME_HANDSHAKE_DONE
  | FRAME_RESET_STREAM_AT (id code final_size reliable_size : Z)
  | FRAME_DATAGRAM (data : list Z).

(** ** Decoding *)

Definition wt_quic_take (length : Z) : parser (list Z) := fun c =>
  match wt_checked_narrow_u64_to_size length with
  | Fail _ _ => (Fail WT_ERR_OVERFLOW None, c)
  | Ok narrowed =>
      if wt_cursor_remaining c <? narrowed then (Fail WT_ERR_TRUNCATED None, c)
      else let '(p, c') := wt_cursor_bytes narrowed c in (Ok (default [] p), c')
  end.

Definition wt_quic_read_varint : parser Z := fun c =>
  match wt_quic_varint_decode c with
  | (Ok v, c') => (Ok v, c')
  | (Fail _ _, c') => (Fail WT_ERR_TRUNCATED None, c')
  end.

Definition wt_quic_decode_fail {A} (code : Z) : parser A := pfail WT_ERR_PROTOCOL (Some code).

(** The bytes that are left, consumed: the two frames that run to the end.  Only
    the DATAGRAM case checks the pointer ([checked]). *)
Definition take_rest (checked : bool) : parser (list Z) := fun c =>
  let '(rest, remaining) := wt_cursor_rest c in
  if checked && bool_decide (rest = None) && negb (remaining =? 0)
  then (Fail WT_ERR_TRUNCATED None, c)
  else (Ok (default [] rest), if negb (remaining =? 0) then (wt_cursor_skip remaining c).2 else c).

(** The loop over the extra ranges of an ACK; [None] is "truncated".  [fuel]
    bounds the number of ranges the bytes can hold. *)
Fixpoint ack_ranges_loop (fuel : nat) (rest : option (list Z)) (available consumed i count : Z)
    : option Z :=
  if count <=? i then Some consumed
  else match fuel with
  | O => None
  | S fuel =>
      let probe := wt_cursor_init (zdrop consumed <$> rest) (available - consumed) in
      match (gap <- wt_quic_read_varint;; len <- wt_quic_read_varint;; pret (gap, len)) probe with
      | (Ok _, probe') =>
          ack_ranges_loop fuel rest available (consumed + cur_offset probe') (i + 1) count
      | (Fail _ _, _) => None
      end
  end.

Definition ack_take_ranges (count : Z) : parser (list Z) := fun c =>
  let '(rest, available) := wt_cursor_rest c in
  match ack_ranges_loop (S (Z.to_nat available)) rest available 0 0 count with
  | None => (Fail WT_ERR_TRUNCATED None, c)
  | Some consumed => (Ok (ztake consumed (default [] rest)), (wt_cursor_skip consumed c).2)
  end.

Definition decode_ack (type : Z) : parser wt_quic_frame :=
  largest <- wt_quic_read_varint;;
  delay <- wt_quic_read_varint;;
  count <- wt_quic_read_varint;;
  first <- wt_quic_read_varint;;
  ranges <- ack_take_ranges count;;
  if type =? 0x03 then
    ect0 <- wt_quic_read_varint;;
    ect1 <- wt_quic_read_varint;;
    ce <- wt_quic_read_varint;;
    pret (FRAME_ACK (mk_ack largest delay first ranges count (Some (ect0, ect1, ce))))
  else pret (FRAME_ACK (mk_ack largest delay first ranges count None)).

Definition decode_reset_stream_at : parser wt_quic_frame :=
  id <- wt_quic_read_varint;;
  code <- wt_quic_read_varint;;
  final_size <- wt_quic_read_varint;;
  reliable <- wt_quic_read_varint;;
  if final_size <? reliable then wt_quic_decode_fail WT_QUIC_FRAME_ENCODING_ERROR
  else pret (FRAME_RESET_STREAM_AT id code final_size reliable).

Definition decode_new_token : parser wt_quic_frame :=
  length <- wt_quic_read_varint;;
  if length =? 0 then wt_quic_decode_fail WT_QUIC_FRAME_ENCODING_ERROR
  else token <- wt_quic_take length;; pret (FRAME_NEW_TOKEN length token).

Definition decode_stream_count (k : Z -> wt_quic_frame) : parser wt_quic_frame :=
  maximum <- wt_quic_read_varint;;
  if 2 ^ 60 <? maximum then wt_quic_decode_fail WT_QUIC_FRAME_ENCODING_ERROR
  else pret (k maximum).

Definition decode_new_connection_id : parser wt_quic_frame :=
  sequence <- wt_quic_read_varint;;
  retire <- wt_quic_read_varint;;
  at' <- take_or_truncated 1 None;;
  let length := byte_at at' 0 in
  if (length <? 1) || (WT_QUIC_MAX_CONNECTION_ID_LENGTH <? length)
  then wt_quic_decode_fail WT_QUIC_FRAME_ENCODING_ERROR
  else
    cid <- take_or_truncated length None;;
    token <- take_or_truncated WT_QUIC_STATELESS_RESET_TOKEN_LENGTH None;;
    if sequence <? retire then wt_quic_decode_fail WT_QUIC_FRAME_ENCODING_ERROR
    else pret (FRAME_NEW_CONNECTION_ID sequence retire cid token).

Definition decode_close (transport : bool) : parser wt_quic_frame :=
  code <- wt_quic_read_varint;;
  frame_type <- (if transport then wt_quic_read_varint else pret 0);;
  reason_length <- wt_quic_read_varint;;
  reason <- wt_quic_take reason_length;;
  let fields := mk_close_frame transport code frame_type reason in
  pret (if transport then FRAME_CONNECTION_CLOSE_TRANSPORT fields
        else FRAME_CONNECTION_CLOSE_APPLICATION fields).

Definition flag_set (type flag : Z) : bool := negb (Z.land (u8 (Z.land type 0x07)) flag =? 0).

Definition decode_stream (type : Z) : parser wt_quic_frame :=
  let has_offset := flag_set type 0x04 in
  let has_length := flag_set type 0x02 in
  let fin := flag_set type 0x01 in
  id <- wt_quic_read_varint;;
  offset <- (if has_offset then wt_quic_read_varint else pret 0);;
  data <- (if has_length then length <- wt_quic_read_varint;; wt_quic_take length
           else take_rest false);;
  pret (FRAME_STREAM (mk_stream_frame id offset has_offset fin has_length data)).

(** The switch on the type. *)
Definition decode_body (type : Z) : parser wt_quic_frame :=
  if type =? 0x00 then pret FRAME_PADDING
  else if type =? 0x01 then pret FRAME_PING
  else if (type =? 0x02) || (type =? 0x03) then decode_ack type
  else if type =? 0x04 then
    id <- wt_quic_read_varint;; code <- wt_quic_read_varint;; size <- wt_quic_read_varint;;
    pret (FRAME_RESET_STREAM id code size)
  else if type =? 0x24 then decode_reset_stream_at
  else if type =? 0x05 then
    id <- wt_quic_read_varint;; code <- wt_quic_read_varint;; pret (FRAME_STOP_SENDING id code)
  else if type =? 0x06 then
    offset <- wt_quic_read_varint;; length <- wt_quic_read_varint;;
    data <- wt_quic_take length;; pret (FRAME_CRYPTO offset data)
  else if type =? 0x07 then decode_new_token
  else if type =? 0x10 then m <- wt_quic_read_varint;; pret (FRAME_MAX_DATA m)
  else if type =? 0x11 then
    id <- wt_quic_read_varint;; m <- wt_quic_read_varint;; pret (FRAME_MAX_STREAM_DATA id m)
  else if (type =? 0x12) || (type =? 0x13) then
    decode_stream_count (FRAME_MAX_STREAMS
      (if type =? 0x12 then WT_QUIC_STREAM_BIDIRECTIONAL else WT_QUIC_STREAM_UNIDIRECTIONAL))
  else if type =? 0x14 then m <- wt_quic_read_varint;; pret (FRAME_DATA_BLOCKED m)
  else if type =? 0x15 then
    id <- wt_quic_read_varint;; o <- wt_quic_read_varint;; pret (FRAME_STREAM_DATA_BLOCKED id o)
  else if (type =? 0x16) || (type =? 0x17) then
    decode_stream_count (FRAME_STREAMS_BLOCKED
      (if type =? 0x16 then WT_QUIC_STREAM_BIDIRECTIONAL else WT_QUIC_STREAM_UNIDIRECTIONAL))
  else if type =? 0x18 then decode_new_connection_id
  else if type =? 0x19 then s <- wt_quic_read_varint;; pret (FRAME_RETIRE_CONNECTION_ID s)
  else if type =? 0x1a then
    d <- take_or_truncated WT_QUIC_PATH_CHALLENGE_LENGTH None;; pret (FRAME_PATH_CHALLENGE d)
  else if type =? 0x1b then
    d <- take_or_truncated WT_QUIC_PATH_CHALLENGE_LENGTH None;; pret (FRAME_PATH_RESPONSE d)
  else if type =? 0x1c then decode_close true
  else if type =? 0x1d then decode_close false
  else if type =? 0x1e then pret FRAME_HANDSHAKE_DONE
  else if type =? 0x30 then d <- take_rest true;; pret (FRAME_DATAGRAM d)
  else if type =? 0x31 then
    length <- wt_quic_read_varint;; d <- wt_quic_take length;; pret (FRAME_DATAGRAM d)
  else if (0x08 <=? type) && (type <=? 0x0f) then decode_stream type
  else wt_quic_decode_fail WT_QUIC_FRAME_ENCODING_ERROR.

Definition wt_quic_frame_decode : parser wt_quic_frame := fun c =>
  match wt_quic_varint_decode_sized c with
  | (Fail _ _, c') => (Fail WT_ERR_TRUNCATED None, c')
  | (Ok (type, type_size), c') =>
      if negb (wt_quic_varint_is_minimal type type_size)
      then wt_quic_decode_fail WT_QUIC_PROTOCOL_VIOLATION c'
      else decode_body type c'
  end.

(** *** The walk over a payload

    The visitor is the caller's: it updates its context and may stop the walk.
    [fuel] bounds the number of frames; [None] is running out of it. *)
Section FramesDecode.
Context {Ctx : Type} (visit : option (Ctx -> wt_quic_frame -> wt_status * Ctx)).

Fixpoint frames_loop (fuel : nat) (c : wt_cursor) (ctx : Ctx) : option (wt_status * option Z * Ctx) :=
  if 0 <? wt_cursor_remaining c then
    match fuel with
    | O => None
    | S fuel =>
        match wt_quic_frame_decode c with
        | (Fail s e, _) => Some (s, e, ctx)
        | (Ok frame, c') =>
            match visit with
            | None => frames_loop fuel c' ctx
            | Some v =>
                match v ctx frame with
                | (WT_OK, ctx') => frames_loop fuel c' ctx'
                | (s, ctx') => Some (s, None, ctx')
                end
            end
        end
    end
  else Some (WT_OK, None, ctx).

Definition wt_quic_frames_decode (data : option (list Z)) (length : Z) (ctx : Ctx)
    : option (wt_status * option Z * Ctx) :=
  match data with
  | None => if negb (length =? 0) then Some (WT_ERR_INVALID_ARGUMENT, None, ctx)
            else frames_loop 0 (wt_cursor_init None 0) ctx
  | Some d => frames_loop (S (Z.to_nat length)) (wt_cursor_init (Some d) length) ctx
  end.
End FramesDecode.

(** *** One ACK range on demand *)

Fixpoint ack_range_loop (fuel : nat) (i index : Z) (c : wt_cursor) : outcome (Z * Z) :=
  match fuel with
  | O => Fail WT_ERR_TRUNCATED None
  | S fuel =>
      match (gap <- wt_quic_varint_decode;; len <- wt_quic_varint_decode;; pret (gap, len)) c with
      | (Fail _ _, _) => Fail WT_ERR_TRUNCATED None
      | (Ok r, c') => if i =? index then Ok r else ack_range_loop fuel (i + 1) index c'
      end
  end.

Definition wt_quic_frame_ack_range_at (frame : wt_quic_frame) (index : Z) : outcome (Z * Z) :=
  match frame with
  | FRAME_ACK a =>
      if ack_range_count a <=? index then Fail WT_ERR_INVALID_ARGUMENT None
      else ack_range_loop (S (length (ack_ranges a))) 0 index
             (wt_cursor_init (Some (ack_ranges a)) (zlen (ack_ranges a)))
  | _ => Fail WT_ERR_INVALID_ARGUMENT None
  end.

(** ** Encoding *)

Definition encoder := wt_writer -> wt_status * wt_writer.

(** The tail of most cases: [return wt_writer_ok(w) ? WT_OK : WT_ERR_LIMIT]. *)
Definition encode_done (e : wt_writer -> wt_writer) : encoder := fun w => writer_status (e w).

(** [return wt_quic_encode_fail()]. *)
Definition wt_quic_encode_fail : encoder := fun w => (WT_ERR_INVALID_ARGUMENT, w).

(** The loop over the ranges of an ACK; [None] is an unreadable range. *)
Fixpoint encode_ranges_loop (fuel : nat) (frame : wt_quic_frame) (i count : Z) (w : wt_writer)
    : option unit * wt_writer :=
  if count <=? i then (Some tt, w)
  else match fuel with
  | O => (None, w)
  | S fuel =>
      match wt_quic_frame_ack_range_at frame i with
      | Fail _ _ => (None, w)
      | Ok (gap, len) =>
          encode_ranges_loop fuel frame (i + 1) count (w |> writer_varint gap |> writer_varint len)
      end
  end.

Definition encode_ack (a : wt_quic_ack_fields) : encoder := fun w =>
  let w1 := w |> writer_varint (match ack_ecn a with Some _ => 0x03 | None => 0x02 end)
              |> writer_varint (ack_largest a) |> writer_varint (ack_delay a)
              |> writer_varint (ack_range_count a) |> writer_varint (ack_first_range a) in
  match encode_ranges_loop (S (length (ack_ranges a))) (FRAME_ACK a) 0 (ack_range_count a) w1 with
  | (None, w2) => wt_quic_encode_fail w2
  | (Some _, w2) =>
      encode_done (fun w2 => match ack_ecn a with
        | Some (ect0, ect1, ce) => w2 |> writer_varint ect0 |> writer_varint ect1 |> writer_varint ce
        | None => w2
        end) w2
  end.

Definition stream_type (s : wt_quic_stream_fields) : Z :=
  let f0 := 0 in
  let f1 := if sf_has_offset s then Z.lor f0 0x04 else f0 in
  let f2 := if sf_has_length s then Z.lor f1 0x02 else f1 in
  let f3 := if sf_fin s then Z.lor f2 0x01 else f2 in
  Z.lor 0x08 f3.

Definition encode_stream (s : wt_quic_stream_fields) (w : wt_writer) : wt_writer :=
  let w1 := w |> writer_varint (stream_type s) |> writer_varint (sf_id s) in
  let w2 := if sf_has_offset s then w1 |> writer_varint (sf_offset s) else w1 in
  let w3 := if sf_has_length s then w2 |> writer_varint (zlen (sf_data s)) else w2 in
  w3 |> wt_writer_bytes (sf_data s).

Definition encode_close (transport : bool) (c : wt_quic_close_fields) : encoder := fun w =>
  let w1 := w |> writer_varint (if transport then 0x1c else 0x1d) |> writer_varint (cf_error_code c) in
  if cf_has_frame_type c && negb transport then wt_quic_encode_fail w1
  else
    let w2 := if cf_has_frame_type c then w1 |> writer_varint (cf_frame_type c)
              else if transport then w1 |> writer_varint 0 else w1 in
    encode_done (fun w => w |> writer_varint (zlen (cf_reason c)) |> wt_writer_bytes (cf_reason c)) w2.

Definition direction_type (d : wt_quic_stream_direction) (bidi uni : Z) : Z :=
  match d with WT_QUIC_STREAM_BIDIRECTIONAL => bidi | WT_QUIC_STREAM_UNIDIRECTIONAL => uni end.

Definition wt_quic_frame_encode (frame : wt_quic_frame) : encoder := fun w =>
  if w_overflow w then (WT_ERR_LIMIT, w)
  else match frame with
  | FRAME_PADDING => (WT_OK, w |> writer_varint 0x00)
  | FRAME_PING => (WT_OK, w |> writer_varint 0x01)
  | FRAME_ACK a => encode_ack a w
  | FRAME_CRYPTO offset data =>
      encode_done (fun w => w |> writer_varint 0x06 |> writer_varint offset
                              |> writer_varint (zlen data) |> wt_writer_bytes data) w
  | FRAME_NEW_TOKEN _ token =>
      if zlen token =? 0 then wt_quic_encode_fail w
      else encode_done (fun w => w |> writer_varint 0x07 |> writer_varint (zlen token)
                                   |> wt_writer_bytes token) w
  | FRAME_STREAM s => encode_done (encode_stream s) w
  | FRAME_RESET_STREAM id code size =>
      encode_done (fun w => w |> writer_varint 0x04 |> writer_varint id |> writer_varint code
                              |> writer_varint size) w
  | FRAME_RESET_STREAM_AT id code size reliable =>
      if size <? reliable then wt_quic_encode_fail w
      else encode_done (fun w => w |> writer_varint 0x24 |> writer_varint id |> writer_varint code
                                   |> writer_varint size |> writer_varint reliable) w
  | FRAME_STOP_SENDING id code =>
      encode_done (fun w => w |> writer_varint 0x05 |> writer_varint id |> writer_varint code) w
  | FRAME_MAX_DATA m => encode_done (fun w => w |> writer_varint 0x10 |> writer_varint m) w
  | FRAME_MAX_STREAM_DATA id m =>
      encode_done (fun w => w |> writer_varint 0x11 |> writer_varint id |> writer_varint m) w
  | FRAME_MAX_STREAMS d m =>
      encode_done (fun w => w |> writer_varint (direction_type d 0x12 0x13) |> writer_varint m) w
  | FRAME_DATA_BLOCKED m => encode_done (fun w => w |> writer_varint 0x14 |> writer_varint m) w
  | FRAME_STREAM_DATA_BLOCKED id offset =>
      encode_done (fun w => w |> writer_varint 0x15 |> writer_varint id |> writer_varint offset) w
  | FRAME_STREAMS_BLOCKED d m =>
      encode_done (fun w => w |> writer_varint (direction_type d 0x16 0x17) |> writer_varint m) w
  | FRAME_NEW_CONNECTION_ID sequence retire cid token =>
      if (zlen cid <? 1) || (WT_QUIC_MAX_CONNECTION_ID_LENGTH <? zlen cid) then wt_quic_encode_fail w
      else if sequence <? retire then wt_quic_encode_fail w
      else encode_done (fun w => w |> writer_varint 0x18 |> writer_varint sequence
             |> writer_varint retire |> wt_writer_u8 (u8 (zlen cid)) |> wt_writer_bytes cid
             |> wt_writer_bytes (ztake WT_QUIC_STATELESS_RESET_TOKEN_LENGTH token)) w
  | FRAME_RETIRE_CONNECTION_ID sequence =>
      encode_done (fun w => w |> writer_varint 0x19 |> writer_varint sequence) w
  | FRAME_PATH_CHALLENGE data =>
      encode_done (fun w => w |> writer_varint 0x1a
                              |> wt_writer_bytes (ztake WT_QUIC_PATH_CHALLENGE_LENGTH data)) w
  | FRAME_PATH_RESPONSE data =>
      encode_done (fun w => w |> writer_varint 0x1b
                              |> wt_writer_bytes (ztake WT_QUIC_PATH_CHALLENGE_LENGTH data)) w
  | FRAME_CONNECTION_CLOSE_TRANSPORT c => encode_close true c w
  | FRAME_CONNECTION_CLOSE_APPLICATION c => encode_close false c w
  | FRAME_HANDSHAKE_DONE => (WT_OK, w |> writer_varint 0x1e)
  | FRAME_DATAGRAM data =>
      encode_done (fun w => w |> writer_varint 0x31 |> writer_varint (zlen data)
                              |> wt_writer_bytes data) w
  end.

(** ** The wire format *)

Definition range_wire (r : Z * Z) : list Z := varint_bytes r.1 ++ varint_bytes r.2.
Definition ranges_wire (rs : list (Z * Z)) : list Z := concat (range_wire <$> rs).
Definition range_ok (r : Z * Z) : Prop := varint_ok r.1 /\ varint_ok r.2.

Definition data_wire (d : list Z) : list Z := varint_bytes (zlen d) ++ d.
Definition data_ok (d : list Z) : Prop := varint_ok (zlen d).

Definition ecn_wire (e : option (Z * Z * Z)) : list Z :=
  match e with
  | Some (a, b, c) => varint_bytes a ++ varint_bytes b ++ varint_bytes c
  | None => []
  end.

Definition frame_type (f : wt_quic_frame) : Z :=
  match f with
  | FRAME_PADDING => 0x00
  | FRAME_PING => 0x01
  | FRAME_ACK a => match ack_ecn a with Some _ => 0x03 | None => 0x02 end
  | FRAME_RESET_STREAM _ _ _ => 0x04
  | FRAME_STOP_SENDING _ _ => 0x05
  | FRAME_CRYPTO _ _ => 0x06
  | FRAME_NEW_TOKEN _ _ => 0x07
  | FRAME_STREAM s => stream_type s
  | FRAME_MAX_DATA _ => 0x10
  | FRAME_MAX_STREAM_DATA _ _ => 0x11
  | FRAME_MAX_STREAMS d _ => direction_type d 0x12 0x13
  | FRAME_DATA_BLOCKED _ => 0x14
  | FRAME_STREAM_DATA_BLOCKED _ _ => 0x15
  | FRAME_STREAMS_BLOCKED d _ => direction_type d 0x16 0x17
  | FRAME_NEW_CONNECTION_ID _ _ _ _ => 0x18
  | FRAME_RETIRE_CONNECTION_ID _ => 0x19
  | FRAME_PATH_CHALLENGE _ => 0x1a
  | FRAME_PATH_RESPONSE _ => 0x1b
  | FRAME_CONNECTION_CLOSE_TRANSPORT _ => 0x1c
  | FRAME_CONNECTION_CLOSE_APPLICATION _ => 0x1d
  | FRAME_HANDSHAKE_DONE => 0x1e
  | FRAME_RESET_STREAM_AT _ _ _ _ => 0x24
  | FRAME_DATAGRAM _ => 0x31
  end.

Definition stream_body (s : wt_quic_stream_fields) : list Z :=
  varint_bytes (sf_id s) ++ (if sf_has_offset s then varint_bytes (sf_offset s) else []) ++
  (if sf_has_length s then data_wire (sf_data s) else sf_data s).

(** The fields after the type. *)
Definition frame_body (f : wt_quic_frame) : list Z :=
  match f with
  | FRAME_PADDING | FRAME_PING | FRAME_HANDSHAKE_DONE => []
  | FRAME_ACK a =>
      varint_bytes (ack_largest a) ++ varint_bytes (ack_delay a) ++
      varint_bytes (ack_range_count a) ++ varint_bytes (ack_first_range a) ++ ack_ranges a ++
      ecn_wire (ack_ecn a)
  | FRAME_RESET_STREAM id code size => varint_bytes id ++ varint_bytes code ++ varint_bytes size
  | FRAME_STOP_SENDING id code => varint_bytes id ++ varint_bytes code
  | FRAME_CRYPTO offset data => varint_bytes offset ++ data_wire data
  | FRAME_NEW_TOKEN _ token => data_wire token
  | FRAME_STREAM s => stream_body s
  | FRAME_MAX_DATA m | FRAME_MAX_STREAMS _ m | FRAME_DATA_BLOCKED m | FRAME_STREAMS_BLOCKED _ m
  | FRAME_RETIRE_CONNECTION_ID m => varint_bytes m
  | FRAME_MAX_STREAM_DATA id m | FRAME_STREAM_DATA_BLOCKED id m => varint_bytes id ++ varint_bytes m
  | FRAME_NEW_CONNECTION_ID sequence retire cid token =>
      varint_bytes sequence ++ varint_bytes retire ++ [zlen cid] ++ cid ++ token
  | FRAME_PATH_CHALLENGE d | FRAME_PATH_RESPONSE d => d
  | FRAME_CONNECTION_CLOSE_TRANSPORT c =>
      varint_bytes (cf_error_code c) ++ varint_bytes (cf_frame_type c) ++ data_wire (cf_reason c)
  | FRAME_CONNECTION_CLOSE_APPLICATION c =>
      varint_bytes (cf_error_code c) ++ data_wire (cf_reason c)
  | FRAME_RESET_STREAM_AT id code size reliable =>
      varint_bytes id ++ varint_bytes code ++ varint_bytes size ++ varint_bytes reliable
  | FRAME_DATAGRAM d => data_wire d
  end.

Definition frame_bytes (f : wt_quic_frame) : list Z := varint_bytes (frame_type f) ++ frame_body f.

(** A frame a sender may build: encodable fields within the frame's own rules. *)
Definition frame_ok (f : wt_quic_frame) : Prop :=
  match f with
  | FRAME_PADDING | FRAME_PING | FRAME_HANDSHAKE_DONE => True
  | FRAME_ACK a =>
      varint_ok (ack_largest a) /\ varint_ok (ack_delay a) /\ varint_ok (ack_first_range a) /\
      varint_ok (ack_range_count a) /\
      (exists rs, Forall range_ok rs /\ ack_ranges a = ranges_wire rs /\
                  ack_range_count a = zlen rs /\ zlen (ack_ranges a) < 2 ^ 64) /\
      (forall e0 e1 ce, ack_ecn a = Some (e0, e1, ce) -> varint_ok e0 /\ varint_ok e1 /\ varint_ok ce)
  | FRAME_RESET_STREAM a b c => varint_ok a /\ varint_ok b /\ varint_ok c
  | FRAME_STOP_SENDING a b | FRAME_MAX_STREAM_DATA a b | FRAME_STREAM_DATA_BLOCKED a b =>
      varint_ok a /\ varint_ok b
  | FRAME_CRYPTO offset data => varint_ok offset /\ data_ok data
  | FRAME_NEW_TOKEN n token => token <> [] /\ data_ok token /\ n = zlen token
  | FRAME_STREAM s =>
      varint_ok (sf_id s) /\ varint_ok (sf_offset s) /\ data_ok (sf_data s) /\
      (sf_has_offset s = false -> sf_offset s = 0)
  | FRAME_MAX_DATA a | FRAME_DATA_BLOCKED a | FRAME_RETIRE_CONNECTION_ID a => varint_ok a
  | FRAME_MAX_STREAMS _ a | FRAME_STREAMS_BLOCKED _ a => 0 <= a <= 2 ^ 60
  | FRAME_NEW_CONNECTION_ID sequence retire cid token =>
      varint_ok sequence /\ 0 <= retire <= sequence /\ 1 <= zlen cid <= 20 /\ zlen token = 16
  | FRAME_PATH_CHALLENGE d | FRAME_PATH_RESPONSE d => zlen d = 8
  | FRAME_CONNECTION_CLOSE_TRANSPORT c =>
      varint_ok (cf_error_code c) /\ varint_ok (cf_frame_type c) /\ data_ok (cf_reason c) /\
      cf_has_frame_type c = true
  | FRAME_CONNECTION_CLOSE_APPLICATION c =>
      varint_ok (cf_error_code c) /\ cf_frame_type c = 0 /\ data_ok (cf_reason c) /\
      cf_has_frame_type c = false
  | FRAME_RESET_STREAM_AT a b c d => varint_ok a /\ varint_ok b /\ varint_ok c /\ 0 <= d <= c
  | FRAME_DATAGRAM d => data_ok d
  end.

(** Whether the frame says where it ends. *)
Definition frame_delimited (f : wt_quic_frame) : bool :=
  match f with FRAME_STREAM s => sf_has_length s | _ => true end.

(** ** The encoder writes the wire format *)

Definition write_ranges (rs : list (Z * Z)) (w : wt_writer) : wt_writer :=
  fold_left (fun w r => w |> writer_varint r.1 |> writer_varint r.2) rs w.

Lemma appends_ranges rs : Forall range_ok rs -> appends (write_ranges rs) (ranges_wire rs).
Proof.
  unfold ranges_wire. induction 1 as [|r rs [H1 H2] _ IH]; [apply appends_id|].
  cbn [fmap list_fmap concat].
  apply (appends_ext (fun w => write_ranges rs (writer_varint r.2 (writer_varint r.1 w)))); [done|].
  apply (appends_seq (fun w => writer_varint r.2 (writer_varint r.1 w)) (write_ranges rs)); [|done].
  apply appends_seq; by apply appends_varint.
Qed.

Lemma range_wire_ok r : bytes_ok (range_wire r).
Proof. apply Forall_app. split; apply varint_bytes_ok. Qed.

Lemma ranges_wire_ok rs : bytes_ok (ranges_wire rs).
Proof.
  unfold ranges_wire. induction rs as [|r rs IH]; [constructor|]. cbn. apply Forall_app.
  split; [apply range_wire_ok|done].
Qed.

Lemma ranges_wire_len rs : Forall range_ok rs -> 2 * zlen rs <= zlen (ranges_wire rs).
Proof.
  unfold ranges_wire. induction 1 as [|r rs [H1 H2] _ IH]; [done|]. cbn [fmap list_fmap concat].
  unfold range_wire at 1. rewrite !zlen_app, zlen_cons.
  pose proof (varint_bytes_pos _ H1). pose proof (varint_bytes_pos _ H2). lia.
Qed.

Lemma decodes_range r :
  range_ok r ->
  decodes (gap <- wt_quic_varint_decode;; len <- wt_quic_varint_decode;; pret (gap, len))
          (range_wire r) r.
Proof.
  intros [H1 H2]. destruct r as [g l]; cbn in *. unfold range_wire; cbn.
  eapply decodes_bind; [auto with wt|]. apply (decodes_map _ (fun len => (g, len))). auto with wt.
Qed.

(** The accessor returns the range of the list the bytes spell. *)
Lemma ack_range_loop_spec rs : forall fuel i index c tl,
  Forall range_ok rs -> cursor_live c -> cursor_view c = ranges_wire rs ++ tl ->
  (length rs <= fuel)%nat -> i <= index < i + zlen rs ->
  exists r, rs !! Z.to_nat (index - i) = Some r /\ ack_range_loop fuel i index c = Ok r.
Proof.
  induction rs as [|r rs IH]; intros fuel i index c tl Hok Hl Hv Hf Hi.
  { rewrite zlen_nil in Hi. lia. }
  inversion Hok as [|? ? Hr Hrs]; subst. rewrite zlen_cons in Hi.
  unfold ranges_wire in Hv. cbn [fmap list_fmap concat] in Hv. fold (ranges_wire rs) in Hv.
  rewrite <- app_assoc in Hv.
  destruct fuel as [|fuel]; [cbn in Hf; lia|]. cbn [ack_range_loop].
  rewrite (decodes_range r Hr c _ Hl Hv).
  destruct (Z.eqb_spec i index) as [->|Hne].
  - exists r. by rewrite Z.sub_diag.
  - destruct (IH fuel (i + 1) index (cursor_advance c (zlen (range_wire r))) tl) as (r' & Hr' & HE);
      [done|..|exists r'].
    + apply cursor_advance_live; [done|]. rewrite Hv. zlia.
    + eapply cursor_advance_view; [apply Hl|exact Hv|done].
    + cbn in Hf. lia.
    + lia.
    + split; [|done]. replace (Z.to_nat (index - i)) with (S (Z.to_nat (index - (i + 1)))) by lia. done.
Qed.

Lemma ack_range_at_spec a rs index :
  Forall range_ok rs -> ack_ranges a = ranges_wire rs -> ack_range_count a = zlen rs ->
  zlen (ack_ranges a) < 2 ^ 64 -> 0 <= index < zlen rs ->
  exists r, rs !! Z.to_nat index = Some r /\ wt_quic_frame_ack_range_at (FRAME_ACK a) index = Ok r.
Proof.
  intros Hok Hr Hc Hlen Hi. unfold wt_quic_frame_ack_range_at. rewrite Hc. ztest.
  destruct (ack_range_loop_spec rs (S (length (ack_ranges a))) 0 index
    (wt_cursor_init (Some (ack_ranges a)) (zlen (ack_ranges a))) []) as (r & Hr' & HE).
  - done.
  - apply cursor_init_live; [done|]. rewrite Hr. apply ranges_wire_ok.
  - by rewrite cursor_init_view, app_nil_r.
  - pose proof (ranges_wire_len rs Hok). rewrite <- Hr in *. unfold zlen in *. lia.
  - lia.
  - exists r. by rewrite Z.sub_0_r in Hr'.
Qed.

Lemma encode_ranges_spec a rs :
  Forall range_ok rs -> ack_ranges a = ranges_wire rs -> ack_range_count a = zlen rs ->
  zlen (ack_ranges a) < 2 ^ 64 ->
  forall fuel pre post w, rs = pre ++ post -> (length post < fuel)%nat ->
  encode_ranges_loop fuel (FRAME_ACK a) (zlen pre) (ack_range_count a) w =
    (Some tt, write_ranges post w).
Proof.
  intros Hok Hr Hc Hlen fuel. induction fuel as [|fuel IH]; intros pre post w Hpp Hf; [lia|].
  cbn [encode_ranges_loop]. rewrite Hc, Hpp, zlen_app. destruct post as [|r post].
  - rewrite zlen_nil, Z.add_0_r, Z.leb_refl. done.
  - rewrite zlen_cons. pose proof (zlen_nonneg pre). pose proof (zlen_nonneg post). ztest.
    destruct (ack_range_at_spec a rs (zlen pre)) as (r' & Hr' & ->); try done.
    { rewrite Hpp, zlen_app, zlen_cons. lia. }
    assert (r' = r) as ->.
    { rewrite Hpp in Hr'. unfold zlen in Hr'. rewrite Nat2Z.id, list_lookup_middle in Hr' by done.
      by injection Hr'. }
    destruct r as [g l].
    replace (zlen pre + 1) with (zlen (pre ++ [(g, l)])) by (rewrite zlen_app, zlen_cons, zlen_nil; lia).
    replace (zlen pre + (1 + zlen post)) with (ack_range_count a)
      by (rewrite Hc, Hpp, zlen_app, zlen_cons; lia).
    rewrite (IH (pre ++ [(g, l)]) post); [done| |cbn in Hf; lia]. by rewrite Hpp, <- app_assoc.
Qed.

Lemma encodes_seq_status e1 e2 bs1 bs2 :
  appends e1 bs1 -> appends e2 bs2 -> encodes (fun w => encode_done e2 (e1 w)) (bs1 ++ bs2).
Proof. intros H1 H2. apply (encodes_status (fun w => e2 (e1 w))). by apply appends_seq. Qed.

Lemma encodes_ack a : frame_ok (FRAME_ACK a) -> encodes (encode_ack a) (frame_bytes (FRAME_ACK a)).
Proof.
  intros (Hl & Hd & Hf & Hc & (rs & Hok & Hr & Hn & Hlen) & Hecn).
  assert (Hfuel : (length rs < S (length (ack_ranges a)))%nat).
  { pose proof (ranges_wire_len rs Hok). rewrite <- Hr in *. unfold zlen in *. lia. }
  assert (Henc : forall w, encode_ack a w = writer_status
    (match ack_ecn a with
     | Some (e0, e1, ce) => fun w => w |> writer_varint e0 |> writer_varint e1 |> writer_varint ce
     | None => fun w => w end
     (write_ranges rs (w |> writer_varint (frame_type (FRAME_ACK a)) |> writer_varint (ack_largest a)
       |> writer_varint (ack_delay a) |> writer_varint (ack_range_count a)
       |> writer_varint (ack_first_range a))))).
  { intros w. unfold encode_ack. cbn zeta.
    rewrite (encode_ranges_spec a rs Hok Hr Hn Hlen _ [] rs) by done.
    cbn [frame_type]. by destruct (ack_ecn a) as [[[]]|]. }
  eapply encodes_ext; [exact Henc|]. apply encodes_status. unfold frame_bytes, frame_body. rewrite Hr.
  assert (Htype : varint_ok (frame_type (FRAME_ACK a)))
    by (cbn; unfold varint_ok, WT_QUIC_VARINT_MAX; destruct (ack_ecn a); lia).
  pose proof (appends_ranges rs Hok).
  destruct (ack_ecn a) as [[[e0 e1] ce]|]; cbn [ecn_wire].
  - destruct (Hecn _ _ _ eq_refl) as (? & ? & ?). appends_run_tac.
  - appends_run_tac. by rewrite app_nil_r.
Qed.

(** The three frames whose case returns [WT_OK] without looking at the writer. *)
Definition frame_quiet (f : wt_quic_frame) : bool :=
  match f with FRAME_PADDING | FRAME_PING | FRAME_HANDSHAKE_DONE => true | _ => false end.

Lemma stream_type_range s : 8 <= stream_type s < 16.
Proof. destruct s as [? ? [] [] [] ?]; vm_compute; split; congruence. Qed.

Lemma frame_type_ok f : varint_ok (frame_type f).
Proof.
  unfold varint_ok, WT_QUIC_VARINT_MAX.
  destruct f; cbn [frame_type]; try lia; try (destruct d; cbn; lia).
  - case_match; lia.
  - pose proof (stream_type_range s). lia.
Qed.

Lemma stream_count_varint m : 0 <= m <= 2 ^ 60 -> varint_ok m.
Proof. unfold varint_ok, WT_QUIC_VARINT_MAX. lia. Qed.

Lemma appends_stream s :
  frame_ok (FRAME_STREAM s) -> appends (encode_stream s) (frame_bytes (FRAME_STREAM s)).
Proof.
  intros (Hid & Ho & Hd & _). pose proof (frame_type_ok (FRAME_STREAM s)).
  unfold encode_stream, frame_bytes, frame_body, stream_body, data_wire.
  destruct (sf_has_offset s), (sf_has_length s); cbn zeta; appends_run_tac.
Qed.

Lemma encodes_close_transport c :
  frame_ok (FRAME_CONNECTION_CLOSE_TRANSPORT c) ->
  encodes (encode_close true c) (frame_bytes (FRAME_CONNECTION_CLOSE_TRANSPORT c)).
Proof.
  intros (He & Ht & Hd & Hh). unfold encode_close, frame_bytes, frame_body, data_wire. rewrite Hh.
  cbn [andb negb]. apply encodes_status.
  pose proof (frame_type_ok (FRAME_CONNECTION_CLOSE_TRANSPORT c)). appends_run_tac.
Qed.

Lemma encodes_close_application c :
  frame_ok (FRAME_CONNECTION_CLOSE_APPLICATION c) ->
  encodes (encode_close false c) (frame_bytes (FRAME_CONNECTION_CLOSE_APPLICATION c)).
Proof.
  intros (He & Ht & Hd & Hh). unfold encode_close, frame_bytes, frame_body, data_wire. rewrite Hh.
  cbn [andb negb]. apply encodes_status.
  pose proof (frame_type_ok (FRAME_CONNECTION_CLOSE_APPLICATION c)). appends_run_tac.
Qed.

Lemma encodes_live e e' bs :
  (forall w, w_overflow w = false -> e w = e' w) -> encodes e' bs -> encodes e bs.
Proof. intros He H w Hi Ho. rewrite He by done. by apply H. Qed.

(** Open one case of the switch and run its writes. *)
Ltac encodes_case :=
  apply encodes_status; unfold frame_bytes, frame_body, data_wire; rewrite ?ztake_all by lia;
  appends_run_tac; auto using stream_count_varint.

Lemma encodes_new_token n token :
  frame_ok (FRAME_NEW_TOKEN n token) ->
  encodes (fun w => if zlen token =? 0 then wt_quic_encode_fail w
           else encode_done (fun w => w |> writer_varint 0x07 |> writer_varint (zlen token)
                                        |> wt_writer_bytes token) w)
          (frame_bytes (FRAME_NEW_TOKEN n token)).
Proof.
  intros (Hne & Hd & _). pose proof (frame_type_ok (FRAME_NEW_TOKEN n token)).
  assert (Hz : (zlen token =? 0) = false) by (destruct token; [done|]; rewrite zlen_cons; apply Z.eqb_neq; zlia).
  rewrite Hz. encodes_case.
Qed.

Lemma encodes_frame f :
  frame_ok f -> frame_quiet f = false -> encodes (wt_quic_frame_encode f) (frame_bytes f).
Proof.
  intros Hok Hq. pose proof (frame_type_ok f) as Ht.
  eapply encodes_live; [by intros w Hw; unfold wt_quic_frame_encode; rewrite Hw|].
  destruct f; cbn [frame_ok] in Hok; try discriminate;
    try (by apply encodes_ack); try (by apply encodes_close_transport);
    try (by apply encodes_close_application); try (by apply encodes_new_token);
    try (by apply encodes_status, appends_stream); destruct_and?;
    unfold WT_QUIC_PATH_CHALLENGE_LENGTH, WT_QUIC_STATELESS_RESET_TOKEN_LENGTH,
      WT_QUIC_MAX_CONNECTION_ID_LENGTH.
  all: try (by encodes_case).
  - eapply encodes_ext; [intros w; ztest; cbn [orb]; reflexivity|].
    rewrite (u8_small (zlen cid)) by (unfold is_u8; lia).
    pose proof (stream_count_varint). 
    assert (varint_ok retire_prior_to) by (unfold varint_ok in *; lia). encodes_case.
  - eapply encodes_ext; [intros w; ztest; reflexivity|].
    assert (varint_ok reliable_size) by (unfold varint_ok in *; lia). encodes_case.
Qed.

(** ** The decoder reads it back *)

Lemma decodes_read_varint v : varint_ok v -> decodes wt_quic_read_varint (varint_bytes v) v.
Proof.
  intros Hv c tl Hl Hc. unfold wt_quic_read_varint. by rewrite (decodes_varint v Hv c tl).
Qed.

Lemma narrow_size_small v : is_u64 v -> wt_checked_narrow_u64_to_size v = Ok v.
Proof.
  unfold is_u64, wt_checked_narrow_u64_to_size, SIZE_MAX, U64_MAX. intros. ztest.
  by rewrite u64_small.
Qed.

Lemma cursor_live_fits c bs tl :
  cursor_live c -> cursor_view c = bs ++ tl ->
  wt_cursor_remaining c = zlen bs + zlen tl /\ zlen bs + zlen tl < 2 ^ 64.
Proof.
  intros (Hi & Hf & _) Hv. rewrite cursor_remaining_view, Hv, zlen_app by done.
  pose proof (cursor_view_len c Hi) as Hlen. rewrite Hv, zlen_app in Hlen.
  destruct Hi as (? & ? & _). lia.
Qed.

Lemma decodes_wt_take d n : n = zlen d -> decodes (wt_quic_take n) d d.
Proof.
  intros -> c tl Hl Hv. destruct (cursor_live_fits c d tl Hl Hv) as [Hrem Hlt].
  pose proof (zlen_nonneg tl). pose proof (zlen_nonneg d).
  unfold wt_quic_take. rewrite narrow_size_small by (unfold is_u64; lia). rewrite Hrem. ztest.
  unfold wt_cursor_bytes. by rewrite (cursor_take_live c (zlen d) d tl).
Qed.

Lemma decodes_data d :
  data_ok d -> decodes (n <- wt_quic_read_varint;; wt_quic_take n) (data_wire d) d.
Proof.
  intros Hd. eapply decodes_bind; [by apply decodes_read_varint|]. by apply decodes_wt_take.
Qed.

Lemma cursor_skip_live c bs tl :
  cursor_live c -> cursor_view c = bs ++ tl ->
  wt_cursor_skip (zlen bs) c = (WT_OK, cursor_advance c (zlen bs)).
Proof.
  intros Hl Hv. unfold wt_cursor_skip. by rewrite (cursor_take_live c (zlen bs) bs tl).
Qed.

Lemma decodes_rest checked d : decodes_end (take_rest checked) d d.
Proof.
  intros c Hl Hv. unfold take_rest. rewrite cursor_rest_live, Hv by done.
  rewrite bool_decide_false by done. rewrite andb_false_r. cbn [andb from_option id].
  destruct (Z.eqb_spec (zlen d) 0) as [Hz|]; cbn [negb].
  - by rewrite Hz, cursor_advance_0.
  - rewrite (cursor_skip_live c d []) by (done || by rewrite app_nil_r). done.
Qed.

(** The range loop stops exactly after the ranges. *)
Lemma ack_ranges_loop_spec rest rs : forall fuel done' i tl,
  Forall range_ok rs -> bytes_ok rest -> zlen rest < 2 ^ 64 ->
  0 <= done' <= zlen rest -> zdrop done' rest = ranges_wire rs ++ tl ->
  (length rs <= fuel)%nat ->
  ack_ranges_loop fuel (Some rest) (zlen rest) done' i (i + zlen rs) =
    Some (done' + zlen (ranges_wire rs)).
Proof.
  induction rs as [|r rs IH]; intros fuel dn i tl Hok Hb Hlen Hd Hv Hf.
  - rewrite zlen_nil, Z.add_0_r. destruct fuel; cbn [ack_ranges_loop]; rewrite Z.leb_refl;
      unfold ranges_wire; cbn; by rewrite zlen_nil, Z.add_0_r.
  - inversion Hok as [|? ? Hr Hrs]; subst. pose proof (zlen_nonneg rs).
    destruct fuel as [|fuel]; [cbn in Hf; lia|]. cbn [ack_ranges_loop]. rewrite zlen_cons. ztest.
    unfold ranges_wire in Hv |- *. cbn [fmap list_fmap concat fmap option_fmap option_map] in *.
    fold (ranges_wire rs) in *. rewrite <- app_assoc in Hv.
    assert (Hlv : zlen (zdrop dn rest) = zlen rest - dn) by (by rewrite zlen_zdrop).
    rewrite <- Hlv.
    assert (Hlive : cursor_live (wt_cursor_init (Some (zdrop dn rest)) (zlen (zdrop dn rest)))).
    { apply cursor_init_live; [lia|]. unfold bytes_ok in *. auto with wt. }
    assert (Hr' : decodes (gap <- wt_quic_read_varint;; len <- wt_quic_read_varint;; pret (gap, len))
                    (range_wire r) r).
    { destruct r as [g l], Hr; cbn in *. unfold range_wire; cbn.
      eapply decodes_bind; [by apply decodes_read_varint|].
      apply (decodes_map _ (fun len => (g, len))). by apply decodes_read_varint. }
    rewrite (Hr' _ (ranges_wire rs ++ tl) Hlive) by done.
    cbn [cursor_advance cur_offset wt_cursor_init]. rewrite Z.add_0_l.
    replace (i + (1 + zlen rs)) with (i + 1 + zlen rs) by lia.
    pose proof (zlen_nonneg (range_wire r)).
    rewrite (IH fuel (dn + zlen (range_wire r)) (i + 1) tl); [|done|done|done|..].
    + rewrite zlen_app. f_equal. lia.
    + rewrite Hv, zlen_app in Hlv. pose proof (zlen_nonneg (ranges_wire rs ++ tl)). lia.
    + rewrite <- zdrop_zdrop, Hv by lia. by apply zdrop_app_exact.
    + cbn in Hf. lia.
Qed.

Lemma decodes_ack_ranges rs :
  Forall range_ok rs -> decodes (ack_take_ranges (zlen rs)) (ranges_wire rs) (ranges_wire rs).
Proof.
  intros Hok c tl Hl Hv. unfold ack_take_ranges. rewrite cursor_rest_live, Hv by done.
  assert (Hok' : bytes_ok (ranges_wire rs ++ tl)).
  { rewrite <- Hv. apply cursor_view_ok. apply Hl. }
  destruct (cursor_live_fits c _ _ Hl Hv) as [_ Hlt].
  pose proof (zlen_nonneg (ranges_wire rs)). pose proof (zlen_nonneg tl).
  change (zlen rs) with (0 + zlen rs).
  rewrite (ack_ranges_loop_spec _ rs _ 0 0 tl); try done.
  - rewrite Z.add_0_l. cbn [from_option id].
    rewrite ztake_app_exact, (cursor_skip_live c _ tl) by done. done.
  - by rewrite zlen_app.
  - rewrite zlen_app. lia.
  - pose proof (ranges_wire_len rs Hok). rewrite zlen_app. unfold zlen in *. lia.
Qed.

Lemma flag_set_stream s :
  flag_set (stream_type s) 0x04 = sf_has_offset s /\ flag_set (stream_type s) 0x02 = sf_has_length s /\
  flag_set (stream_type s) 0x01 = sf_fin s.
Proof. by destruct s as [? ? [] [] [] ?]. Qed.

Ltac decodes_fields :=
  repeat lazymatch goal with
  | |- decodes (pbind wt_quic_read_varint (fun x => pret (@?f x))) _ _ =>
      apply (decodes_map _ f); apply decodes_read_varint
  | |- decodes (pbind wt_quic_read_varint _) _ _ =>
      eapply decodes_bind; [apply decodes_read_varint|]
  end.

Lemma decodes_data_map d (f : list Z -> wt_quic_frame) :
  data_ok d ->
  decodes (n <- wt_quic_read_varint;; d <- wt_quic_take n;; pret (f d)) (data_wire d) (f d).
Proof.
  intros Hd. eapply decodes_bind; [by apply decodes_read_varint|].
  apply (decodes_map _ f). by apply decodes_wt_take.
Qed.

Lemma decodes_ack a :
  frame_ok (FRAME_ACK a) ->
  decodes (decode_ack (frame_type (FRAME_ACK a))) (frame_body (FRAME_ACK a)) (FRAME_ACK a).
Proof.
  intros (Hl & Hd & Hf & Hc & (rs & Hok & Hr & Hn & _) & Hecn). unfold decode_ack, frame_body.
  do 4 (eapply decodes_bind; [by apply decodes_read_varint|]).
  rewrite Hr, Hn. eapply decodes_bind; [by apply decodes_ack_ranges|].
  destruct a as [la de fi ra co [[[e0 e1] ce]|]]; cbn in *; subst.
  - destruct (Hecn _ _ _ eq_refl) as (? & ? & ?).
    eapply decodes_bind; [by apply decodes_read_varint|].
    eapply decodes_bind; [by apply decodes_read_varint|].
    eapply (decodes_map _ (fun ce => FRAME_ACK _)). by apply decodes_read_varint.
  - apply decodes_ret.
Qed.

Lemma decodes_new_connection_id sequence retire cid token :
  frame_ok (FRAME_NEW_CONNECTION_ID sequence retire cid token) ->
  decodes decode_new_connection_id
    (frame_body (FRAME_NEW_CONNECTION_ID sequence retire cid token))
    (FRAME_NEW_CONNECTION_ID sequence retire cid token).
Proof.
  intros (Hs & Hr & Hc & Ht). unfold decode_new_connection_id, frame_body.
  assert (varint_ok retire) by (unfold varint_ok in *; lia).
  do 2 (eapply decodes_bind; [by apply decodes_read_varint|]).
  eapply decodes_bind; [by apply decodes_take|].
  change (byte_at [zlen cid] 0) with (zlen cid). cbn zeta.
  unfold WT_QUIC_MAX_CONNECTION_ID_LENGTH. ztest. cbn [orb].
  eapply decodes_bind; [by apply decodes_take|].
  eapply decodes_bind_nil; [by apply decodes_take|]. ztest. apply decodes_ret.
Qed.

Lemma decodes_close (transport : bool) c :
  (if transport then frame_ok (FRAME_CONNECTION_CLOSE_TRANSPORT c)
   else frame_ok (FRAME_CONNECTION_CLOSE_APPLICATION c)) ->
  let f := if transport then FRAME_CONNECTION_CLOSE_TRANSPORT c
           else FRAME_CONNECTION_CLOSE_APPLICATION c in
  decodes (decode_close transport) (frame_body f) f.
Proof.
  unfold decode_close, frame_body, data_wire. destruct c as [h e t r]; cbn.
  destruct transport; cbn; intros (He & Ht & Hd & Hh); subst;
    (eapply decodes_bind; [by apply decodes_read_varint|]).
  - eapply decodes_bind; [by apply decodes_read_varint|].
    eapply decodes_bind; [by apply decodes_read_varint|].
    apply (decodes_map _ (fun r => FRAME_CONNECTION_CLOSE_TRANSPORT (mk_close_frame true e t r))).
    by apply decodes_wt_take.
  - rewrite <- (app_nil_l (varint_bytes _ ++ _)). eapply decodes_bind; [apply decodes_ret|].
    eapply decodes_bind; [by apply decodes_read_varint|].
    apply (decodes_map _ (fun r => FRAME_CONNECTION_CLOSE_APPLICATION (mk_close_frame false e 0 r))).
    by apply decodes_wt_take.
Qed.

Lemma decodes_stream s :
  frame_ok (FRAME_STREAM s) ->
  decodes_end (decode_stream (stream_type s)) (stream_body s) (FRAME_STREAM s) /\
  (sf_has_length s = true ->
   decodes (decode_stream (stream_type s)) (stream_body s) (FRAME_STREAM s)).
Proof.
  intros (Hid & Ho & Hd & Hz). unfold decode_stream, stream_body.
  destruct (flag_set_stream s) as (-> & -> & ->). cbn zeta.
  assert (Hoff : decodes (if sf_has_offset s then wt_quic_read_varint else pret 0)
            (if sf_has_offset s then varint_bytes (sf_offset s) else []) (sf_offset s)).
  { destruct (sf_has_offset s); [by apply decodes_read_varint|]. rewrite Hz by done. apply decodes_ret. }
  destruct s as [id off ho fin hl d]; cbn in *. split.
  - do 2 (eapply decodes_bind_end; [eassumption || by apply decodes_read_varint|]).
    apply (decodes_end_map _ (fun d => FRAME_STREAM (mk_stream_frame id off ho fin hl d))).
    destruct hl; [by apply decodes_to_end, decodes_data|apply decodes_rest].
  - intros ->. do 2 (eapply decodes_bind; [eassumption || by apply decodes_read_varint|]).
    apply (decodes_map _ (fun d => FRAME_STREAM (mk_stream_frame id off ho fin true d))).
    by apply decodes_data.
Qed.

Lemma decodes_crypto offset d :
  varint_ok offset -> data_ok d ->
  decodes (offset <- wt_quic_read_varint;; length <- wt_quic_read_varint;;
           data <- wt_quic_take length;; pret (FRAME_CRYPTO offset data))
          (varint_bytes offset ++ data_wire d) (FRAME_CRYPTO offset d).
Proof.
  intros Ho Hd. eapply decodes_bind; [by apply decodes_read_varint|].
  by apply (decodes_data_map d (FRAME_CRYPTO offset)).
Qed.

Lemma decodes_new_token n d :
  frame_ok (FRAME_NEW_TOKEN n d) -> decodes decode_new_token (data_wire d) (FRAME_NEW_TOKEN n d).
Proof.
  intros (Hne & Hd & ->). unfold decode_new_token.
  eapply decodes_bind; [by apply decodes_read_varint|].
  assert (zlen d <> 0) by (destruct d; [done|]; rewrite zlen_cons; zlia). ztest.
  apply (decodes_map _ (FRAME_NEW_TOKEN (zlen d))). by apply decodes_wt_take.
Qed.

Lemma decodes_stream_count k m :
  0 <= m <= 2 ^ 60 -> decodes (decode_stream_count k) (varint_bytes m) (k m).
Proof.
  intros Hm. unfold decode_stream_count.
  eapply decodes_bind_nil; [by apply decodes_read_varint, stream_count_varint|]. ztest.
  apply decodes_ret.
Qed.

Lemma decodes_reset_stream_at a b c d :
  frame_ok (FRAME_RESET_STREAM_AT a b c d) ->
  decodes decode_reset_stream_at (frame_body (FRAME_RESET_STREAM_AT a b c d))
    (FRAME_RESET_STREAM_AT a b c d).
Proof.
  intros (Ha & Hb & Hc & Hd). unfold decode_reset_stream_at, frame_body.
  assert (varint_ok d) by (unfold varint_ok in *; lia).
  do 3 (eapply decodes_bind; [by apply decodes_read_varint|]).
  eapply decodes_bind_nil; [by apply decodes_read_varint|]. ztest. apply decodes_ret.
Qed.

Lemma decodes_body f :
  frame_ok f ->
  decodes_end (decode_body (frame_type f)) (frame_body f) f /\
  (frame_delimited f = true -> decodes (decode_body (frame_type f)) (frame_body f) f).
Proof.
  intros Hok. destruct f as [| | | | | | | s | | | | | | | | | | | | | | | ]; [..].
  all: try match goal with |- decodes_end _ _ (FRAME_STREAM _) /\ _ =>
    assert (Hb : decode_body (frame_type (FRAME_STREAM s)) = decode_stream (stream_type s))
      by (by destruct s as [? ? [] [] [] ?]);
    rewrite Hb; by apply decodes_stream end.
  all: enough (Hdec : decodes (decode_body (frame_type _)) _ _) by (split; [by apply decodes_to_end|auto]).
  all: try match goal with |- decodes _ _ (FRAME_ACK ?a) =>
    assert (Hb : decode_body (frame_type (FRAME_ACK a)) = decode_ack (frame_type (FRAME_ACK a)))
      by (cbn [frame_type]; by destruct (ack_ecn a) as [[[]]|]);
    rewrite Hb; by apply decodes_ack end.
  all: cbn [frame_type];
    unfold decode_body, decode_stream_count; try destruct d; cbn [Z.eqb Pos.eqb orb direction_type];
    cbn [frame_body];
    first [ by apply decodes_ret | by apply decodes_new_connection_id
          | by apply (decodes_close true) | by apply (decodes_close false)
          | by (cbn [frame_ok] in Hok; destruct_and?; decodes_fields; auto)
          | by apply (decodes_map _ (fun d => FRAME_PATH_CHALLENGE d)), decodes_take
          | by apply (decodes_map _ (fun d => FRAME_PATH_RESPONSE d)), decodes_take
          | by apply (decodes_data_map _ FRAME_DATAGRAM)
          | by (destruct Hok; apply decodes_crypto) | by apply decodes_new_token
          | by apply (decodes_stream_count (FRAME_MAX_STREAMS _))
          | by apply (decodes_stream_count (FRAME_STREAMS_BLOCKED _))
          | by apply decodes_reset_stream_at ].
Qed.

Lemma decodes_frame f :
  frame_ok f ->
  decodes_end wt_quic_frame_decode (frame_bytes f) f /\
  (frame_delimited f = true -> decodes wt_quic_frame_decode (frame_bytes f) f).
Proof.
  intros Hok. destruct (decodes_body f Hok) as [Hend Hdel]. pose proof (frame_type_ok f) as Ht.
  assert (Hmin : wt_quic_varint_is_minimal (frame_type f) (wt_quic_varint_size (frame_type f)) = true)
    by apply Z.eqb_refl.
  assert (Heq : forall c, wt_quic_frame_decode c =
    match wt_quic_varint_decode_sized c with
    | (Fail _ _, c') => (Fail WT_ERR_TRUNCATED None, c')
    | (Ok r, c') => (if negb (wt_quic_varint_is_minimal r.1 r.2)
                     then wt_quic_decode_fail WT_QUIC_PROTOCOL_VIOLATION
                     else decode_body r.1) c'
    end).
  { intros c. unfold wt_quic_frame_decode. destruct (wt_quic_varint_decode_sized c) as [[[]|] ?]; [|done].
    cbn. by case_match. }
  pose proof (decodes_varint_min _ Ht) as Hv. split.
  - intros c Hl Hc. rewrite Heq. rewrite (Hv c _ Hl Hc). cbn [fst snd]. rewrite Hmin. cbn [negb].
    rewrite (Hend (cursor_advance c (zlen (varint_bytes (frame_type f))))).
    + unfold frame_bytes. by rewrite cursor_advance_add, zlen_app.
    + apply cursor_advance_live; [done|]. rewrite Hc. unfold frame_bytes. zlia.
    + eapply cursor_advance_view; [apply Hl|exact Hc|done].
  - intros Hdl c tl Hl Hc. unfold frame_bytes in Hc. rewrite <- app_assoc in Hc.
    rewrite Heq. rewrite (Hv c _ Hl Hc). cbn [fst snd]. rewrite Hmin. cbn [negb].
    rewrite (Hdel Hdl (cursor_advance c (zlen (varint_bytes (frame_type f)))) tl).
    + unfold frame_bytes. by rewrite cursor_advance_add, zlen_app.
    + apply cursor_advance_live; [done|]. rewrite Hc. zlia.
    + eapply cursor_advance_view; [apply Hl|exact Hc|done].
Qed.

(** ** Arbitrary bytes *)

Lemma read_varint_safe : parser_safe varint_ok wt_quic_read_varint.
Proof.
  intros c Hi. unfold wt_quic_read_varint. pose proof (varint_decode_safe c Hi) as Hs.
  destruct (wt_quic_varint_decode c) as [[v|] c']; cbn in *; exact Hs.
Qed.

Lemma wt_take_safe n :
  0 <= n -> parser_safe (fun d => zlen d = n /\ bytes_ok d) (wt_quic_take n).
Proof.
  intros Hn c Hi. unfold wt_quic_take, wt_checked_narrow_u64_to_size.
  destruct (SIZE_MAX <? n) eqn:Hmax; [cbn; split_and!; auto; lia|].
  unfold SIZE_MAX, U64_MAX in Hmax. reflect_bools. rewrite u64_small by (unfold is_u64; lia).
  destruct (Z.ltb_spec (wt_cursor_remaining c) n); [cbn; split_and!; auto; lia|].
  pose proof (cursor_take_safe n c Hi Hn) as Hs. unfold wt_cursor_bytes.
  destruct (wt_cursor_take n c) as [p c'] eqn:E. destruct Hs as (Hi' & Hd & Hl & Hs). cbn.
  destruct p as [d|]; [destruct Hs as (? & ? & ? & ? & ?); split_and!; auto; lia|].
  (** no pointer, yet enough bytes: the block is NULL and [n] is zero *)
  split_and!; auto; [|constructor]. change (0 = n). unfold wt_cursor_take in E.
  destruct Hi as (Ho & Hlen & Hdata). unfold wt_cursor_remaining in *.
  destruct (cur_failed c); [lia|]. rewrite u64_small in * by (unfold is_u64; lia).
  rewrite (proj2 (Z.ltb_ge _ _)) in E by lia. injection E as Hp _. unfold cursor_ptr in Hp.
  destruct (cur_data c); [done|]. lia.
Qed.

Lemma cursor_rest_safe c :
  cursor_inv c ->
  match wt_cursor_rest c with
  | (Some d, n) => n = zlen d /\ bytes_ok d /\ cursor_live c /\ cursor_view c = d
  | (None, n) => n = 0
  end.
Proof.
  intros Hi. destruct (cur_failed c) eqn:Hf; [unfold wt_cursor_rest; by rewrite Hf|].
  destruct (cur_data c) as [d|] eqn:Hd.
  - assert (Hl : cursor_live c) by (split_and!; [done|done|by rewrite Hd]).
    rewrite cursor_rest_live by done. split_and!; auto. by apply cursor_view_ok.
  - unfold wt_cursor_rest. rewrite Hf. unfold cursor_ptr. rewrite Hd.
    destruct Hi as (? & ? & Hl). rewrite Hd in Hl. cbn zeta. no_wrap. lia.
Qed.

Lemma cursor_skip_safe n c :
  cursor_inv c -> 0 <= n ->
  cursor_inv (wt_cursor_skip n c).2 /\ cur_data (wt_cursor_skip n c).2 = cur_data c /\
  cur_len (wt_cursor_skip n c).2 = cur_len c /\ cur_offset c <= cur_offset (wt_cursor_skip n c).2.
Proof.
  intros Hi Hn. pose proof (cursor_take_safe n c Hi Hn) as Hs. unfold wt_cursor_skip.
  destruct (wt_cursor_take n c) as [[d|] c']; destruct Hs as (? & ? & ? & Hs); cbn;
    [destruct Hs as (? & ? & ? & ? & ?)|]; split_and!; auto; lia.
Qed.

Lemma take_rest_safe checked : parser_safe bytes_ok (take_rest checked).
Proof.
  intros c Hi. pose proof (cursor_rest_safe c Hi) as Hr. unfold take_rest.
  destruct (wt_cursor_rest c) as [[d|] n].
  - destruct Hr as (-> & Hok & _ & _). rewrite bool_decide_false by done. rewrite andb_false_r.
    cbn [andb fst snd from_option id].
    destruct (negb _); [|split_and!; auto; lia].
    destruct (cursor_skip_safe (zlen d) c Hi) as (? & ? & ? & ?); [zlia|]. by split_and!.
  - subst n. rewrite andb_false_r. cbn. split_and!; auto; try lia. constructor.
Qed.

(** Every range costs bytes, and the loop stays inside the block. *)
Lemma ack_ranges_loop_safe rest available fuel : forall dn i count k,
  match rest with Some d => available = zlen d /\ bytes_ok d | None => available = 0 end ->
  0 <= dn <= available -> available < 2 ^ 64 ->
  ack_ranges_loop fuel rest available dn i count = Some k -> dn <= k <= available.
Proof.
  induction fuel as [|fuel IH]; intros dn i count k Hr Hd Ha; cbn [ack_ranges_loop].
  { destruct (count <=? i); [intros [= <-]; lia|done]. }
  destruct (count <=? i); [intros [= <-]; lia|].
  set (probe := wt_cursor_init _ _).
  assert (Hp : cursor_inv probe /\ cur_len probe <= available - dn /\ cur_offset probe = 0).
  { unfold probe. destruct rest as [d|]; cbn.
    - destruct Hr as [-> Hok]. rewrite <- (zlen_zdrop dn d) by lia.
      split_and!; [apply cursor_init_inv|lia|done]; [rewrite zlen_zdrop; lia|].
      unfold bytes_ok in *. auto with wt.
    - split_and!; cbn; try lia. repeat split; cbn; lia. }
  destruct Hp as (Hpi & Hpl & Hpo). clearbody probe.
  assert (Hs : parser_safe (fun _ => True)
    (gap <- wt_quic_read_varint;; len <- wt_quic_read_varint;; pret (gap, len))).
  { eapply parser_safe_bind; [apply read_varint_safe|]. intros g _.
    eapply parser_safe_bind; [apply read_varint_safe|]. intros l _. by apply parser_safe_ret. }
  specialize (Hs probe Hpi). destruct (pbind _ _ probe) as [[?|] probe']; [|done].
  cbn [fst snd] in Hs. destruct Hs as ((? & _) & _ & Hl & Ho & _).
  intros Hk. apply IH in Hk; [lia|done|lia|done].
Qed.

Lemma ack_take_ranges_safe count : parser_safe bytes_ok (ack_take_ranges count).
Proof.
  intros c Hi. pose proof (cursor_rest_safe c Hi) as Hr. unfold ack_take_ranges.
  destruct (wt_cursor_rest c) as [rest n] eqn:E.
  destruct (ack_ranges_loop _ _ _ _ _ _) as [k|] eqn:Hk; [|cbn; split_and!; auto; lia].
  assert (Hn : match rest with Some d => n = zlen d /\ bytes_ok d | None => n = 0 end)
    by (destruct rest; [by destruct Hr as (? & ? & _)|done]).
  assert (Hn64 : 0 <= n < 2 ^ 64).
  { destruct rest as [d|]; [|lia]. destruct Hr as (-> & _ & _ & <-). split; [zlia|].
    rewrite cursor_view_len by done. destruct Hi as (? & ? & _). lia. }
  apply ack_ranges_loop_safe in Hk; [|done|lia|lia]. cbn [fst snd].
  destruct (cursor_skip_safe k c Hi) as (? & ? & ? & ?); [lia|]. split_and!; auto.
  destruct rest as [d|]; cbn; [|by unfold ztake; rewrite take_nil; constructor].
  destruct Hn as [_ Hok]. unfold bytes_ok in *. auto with wt.
Qed.

(** What a decoded frame satisfies: every limit of RFC 9000 section 19. *)
Definition frame_decoded (f : wt_quic_frame) : Prop :=
  match f with
  | FRAME_ACK a =>
      varint_ok (ack_largest a) /\ varint_ok (ack_delay a) /\ varint_ok (ack_first_range a) /\
      varint_ok (ack_range_count a) /\ bytes_ok (ack_ranges a)
  | FRAME_STREAM s =>
      varint_ok (sf_id s) /\ varint_ok (sf_offset s) /\ bytes_ok (sf_data s) /\
      (sf_has_offset s = false -> sf_offset s = 0) /\
      (sf_has_length s = true -> data_ok (sf_data s))
  | FRAME_DATAGRAM d => bytes_ok d
  | f => frame_ok f
  end.

Ltac safe_step :=
  lazymatch goal with
  | |- parser_safe _ (pbind wt_quic_read_varint _) =>
      eapply parser_safe_bind; [apply read_varint_safe|intros ? ?]
  | |- parser_safe _ (pbind (wt_quic_take _) _) =>
      eapply parser_safe_bind; [apply wt_take_safe; unfold varint_ok in *; lia|intros ? [? ?]]
  | |- parser_safe _ (pbind (take_or_truncated _ _) _) =>
      eapply parser_safe_bind; [apply take_or_truncated_safe; done || lia|intros ? [? ?]]
  | |- parser_safe _ (pbind (take_rest _) _) =>
      eapply parser_safe_bind; [apply take_rest_safe|intros ? ?]
  | |- parser_safe _ (pbind (ack_take_ranges _) _) =>
      eapply parser_safe_bind; [apply ack_take_ranges_safe|intros ? ?]
  | |- parser_safe _ (pret _) => apply parser_safe_ret
  | |- parser_safe _ (wt_quic_decode_fail _) => apply parser_safe_fail
  | |- parser_safe _ (if ?b then _ else _) => destruct b eqn:?
  end.
Ltac safe_run := repeat (safe_step; cbv beta zeta); cbn [frame_decoded frame_ok].

Lemma varint_ok_data d n : zlen d = n -> varint_ok n -> data_ok d.
Proof. by intros <-. Qed.

Lemma decode_ack_safe type : parser_safe frame_decoded (decode_ack type).
Proof. unfold decode_ack. safe_run; by cbn. Qed.

Lemma decode_new_token_safe : parser_safe frame_decoded decode_new_token.
Proof.
  unfold decode_new_token. safe_run; [].
  reflect_bools. split_and!; [|by eapply varint_ok_data|done]. by intros ->.
Qed.

Lemma decode_stream_count_safe d k :
  (k = FRAME_MAX_STREAMS d \/ k = FRAME_STREAMS_BLOCKED d) ->
  parser_safe frame_decoded (decode_stream_count k).
Proof.
  intros Hk. unfold decode_stream_count. safe_run; [].
  unfold varint_ok in *. reflect_bools. destruct Hk as [-> | ->]; cbn; lia.
Qed.

Lemma decode_new_connection_id_safe : parser_safe frame_decoded decode_new_connection_id.
Proof.
  unfold decode_new_connection_id, WT_QUIC_MAX_CONNECTION_ID_LENGTH. safe_run;
    unfold varint_ok, WT_QUIC_STATELESS_RESET_TOKEN_LENGTH in *; reflect_bools; split_and!; lia.
Qed.

Lemma decode_reset_stream_at_safe : parser_safe frame_decoded decode_reset_stream_at.
Proof.
  unfold decode_reset_stream_at. safe_run; []. reflect_bools. unfold varint_ok in *. lia.
Qed.

Lemma decode_close_safe transport : parser_safe frame_decoded (decode_close transport).
Proof.
  unfold decode_close.
  eapply parser_safe_bind; [apply read_varint_safe|intros code Hcode].
  eapply (parser_safe_bind (fun t => varint_ok t /\ (transport = false -> t = 0))).
  { destruct transport.
    - eapply parser_safe_weaken; [apply read_varint_safe|]. by split.
    - apply parser_safe_ret. unfold varint_ok, WT_QUIC_VARINT_MAX. split; [lia|done]. }
  intros t [Ht Hz]. safe_run; [].
  destruct transport; cbn; split_and!; auto; by eapply varint_ok_data.
Qed.

Lemma decode_stream_safe type : parser_safe frame_decoded (decode_stream type).
Proof.
  unfold decode_stream. cbv zeta.
  eapply parser_safe_bind; [apply read_varint_safe|intros id Hid].
  eapply (parser_safe_bind (fun o => varint_ok o /\ (flag_set type 4 = false -> o = 0))).
  { destruct (flag_set type 4).
    - eapply parser_safe_weaken; [apply read_varint_safe|]. by split.
    - apply parser_safe_ret. unfold varint_ok, WT_QUIC_VARINT_MAX. split; [lia|done]. }
  intros o [Ho Hz].
  eapply (parser_safe_bind (fun d => bytes_ok d /\ (flag_set type 2 = true -> data_ok d))).
  { destruct (flag_set type 2).
    - eapply parser_safe_bind; [apply read_varint_safe|intros n Hn].
      eapply parser_safe_weaken; [apply wt_take_safe; unfold varint_ok in *; lia|].
      intros d [? ?]. split; [done|]. intros _. by eapply varint_ok_data.
    - eapply parser_safe_weaken; [apply take_rest_safe|]. by split. }
  intros d [Hd Hlen]. apply parser_safe_ret. by cbn.
Qed.

Lemma decode_body_safe type : parser_safe frame_decoded (decode_body type).
Proof.
  unfold decode_body.
  repeat match goal with
  | |- parser_safe _ (decode_ack _) => apply decode_ack_safe
  | |- parser_safe _ decode_new_token => apply decode_new_token_safe
  | |- parser_safe _ (decode_stream_count (FRAME_MAX_STREAMS ?d)) =>
      apply (decode_stream_count_safe d); by left
  | |- parser_safe _ (decode_stream_count (FRAME_STREAMS_BLOCKED ?d)) =>
      apply (decode_stream_count_safe d); by right
  | |- parser_safe _ decode_new_connection_id => apply decode_new_connection_id_safe
  | |- parser_safe _ decode_reset_stream_at => apply decode_reset_stream_at_safe
  | |- parser_safe _ (decode_close _) => apply decode_close_safe
  | |- parser_safe _ (decode_stream _) => apply decode_stream_safe
  | |- _ => safe_step; cbv beta
  end; cbn [frame_decoded frame_ok]; auto; try done.
  all: try (split; [done|]); by eapply varint_ok_data.
Qed.

Lemma frame_decode_safe : parser_safe frame_decoded wt_quic_frame_decode.
Proof.
  intros c Hi. unfold wt_quic_frame_decode. pose proof (varint_decode_sized_safe c Hi) as Hs.
  destruct (wt_quic_varint_decode_sized c) as [[[type size]|s e] c']; cbn [fst snd] in Hs |- *;
    destruct Hs as (Hi' & Hd & Hl & Ho & _); [|by split_and!].
  destruct (negb _); [by split_and!|].
  destruct (decode_body_safe type c' Hi') as (? & ? & ? & ? & ?).
  split_and!; auto; try congruence; lia.
Qed.

Lemma frame_decode_consumes : parser_consumes wt_quic_frame_decode.
Proof.
  intros c Hi. unfold wt_quic_frame_decode. pose proof (varint_decode_sized_safe c Hi) as Hs.
  pose proof (varint_decode_sized_consumes c Hi) as Hc.
  destruct (wt_quic_varint_decode_sized c) as [[[type size]|s e] c']; cbn [fst snd] in *; [|done].
  destruct Hs as (Hi' & _). destruct (negb _); [done|].
  destruct (decode_body_safe type c' Hi') as (_ & _ & _ & Ho & _).
  destruct (decode_body type c') as [[f|] c'']; cbn [fst snd] in *; [lia|done].
Qed.

(** *** How it fails *)

Definition frame_error (s : wt_status) (e : option Z) : Prop :=
  (s = WT_ERR_TRUNCATED /\ e = None) \/
  (s = WT_ERR_PROTOCOL /\
   (e = Some WT_QUIC_FRAME_ENCODING_ERROR \/ e = Some WT_QUIC_PROTOCOL_VIOLATION)).

Lemma read_varint_fails : parser_fails frame_error wt_quic_read_varint.
Proof.
  intros c _. unfold wt_quic_read_varint. destruct (wt_quic_varint_decode c) as [[|] ?]; [done|].
  by left.
Qed.

Lemma wt_take_fails n : varint_ok n -> parser_fails frame_error (wt_quic_take n).
Proof.
  unfold varint_ok, WT_QUIC_VARINT_MAX. intros Hn c _. unfold wt_quic_take.
  rewrite narrow_size_small by (unfold is_u64; lia).
  destruct (_ <? _); [by left|]. by destruct (wt_cursor_bytes n c).
Qed.

Lemma take_rest_fails checked : parser_fails frame_error (take_rest checked).
Proof.
  intros c _. unfold take_rest. destruct (wt_cursor_rest c). destruct (checked && _ && _); [by left|done].
Qed.

Lemma ack_take_ranges_fails count : parser_fails frame_error (ack_take_ranges count).
Proof.
  intros c _. unfold ack_take_ranges. destruct (wt_cursor_rest c). destruct (ack_ranges_loop _ _ _ _ _ _); [done|by left].
Qed.

Lemma encoding_error_fails {A} :
  @parser_fails A frame_error (wt_quic_decode_fail WT_QUIC_FRAME_ENCODING_ERROR).
Proof. intros c _. right. auto. Qed.

Lemma read_data_safe : parser_safe data_ok (n <- wt_quic_read_varint;; wt_quic_take n).
Proof.
  eapply parser_safe_bind; [apply read_varint_safe|]. intros n Hn.
  eapply parser_safe_weaken; [apply wt_take_safe; unfold varint_ok in *; lia|].
  intros d [? _]. by eapply varint_ok_data.
Qed.

Lemma read_data_fails : parser_fails frame_error (n <- wt_quic_read_varint;; wt_quic_take n).
Proof.
  eapply parser_fails_bind; [apply read_varint_safe|apply read_varint_fails|].
  intros n Hn. by apply wt_take_fails.
Qed.

Ltac fails_step :=
  lazymatch goal with
  | |- parser_fails _ (pbind (if ?b then _ else _) _) => destruct b eqn:?
  | |- parser_fails _ (pbind (pbind wt_quic_read_varint _) _) =>
      eapply parser_fails_bind; [apply read_data_safe|apply read_data_fails|intros ? ?]
  | |- parser_fails _ (pbind wt_quic_read_varint _) =>
      eapply parser_fails_bind; [apply read_varint_safe|apply read_varint_fails|intros ? ?]
  | |- parser_fails _ (pbind (wt_quic_take _) _) =>
      eapply parser_fails_bind;
      [apply wt_take_safe; unfold varint_ok in *; lia|by apply wt_take_fails|intros ? [? ?]]
  | |- parser_fails _ (pbind (take_or_truncated _ _) _) =>
      eapply parser_fails_bind;
      [apply take_or_truncated_safe; done || (reflect_bools; lia)|apply take_or_truncated_fails; by left
      |intros ? [? ?]]
  | |- parser_fails _ (pbind (take_rest _) _) =>
      eapply parser_fails_bind; [apply take_rest_safe|apply take_rest_fails|intros ? ?]
  | |- parser_fails _ (pbind (ack_take_ranges _) _) =>
      eapply parser_fails_bind; [apply ack_take_ranges_safe|apply ack_take_ranges_fails|intros ? ?]
  | |- parser_fails _ (pbind (pret ?a) _) => eapply (parser_fails_bind _ (fun _ => True));
      [by apply parser_safe_ret|apply parser_fails_ret|intros ? ?]
  | |- parser_fails _ (pret _) => apply parser_fails_ret
  | |- parser_fails _ (wt_quic_decode_fail _) => apply encoding_error_fails
  | |- parser_fails _ (if ?b then _ else _) => destruct b eqn:?
  end; cbv beta zeta.

Lemma decode_body_fails type : parser_fails frame_error (decode_body type).
Proof.
  unfold decode_body, decode_ack, decode_new_token, decode_stream_count, decode_new_connection_id,
    decode_reset_stream_at, decode_close, decode_stream. cbv zeta. repeat fails_step.
Qed.

Lemma frame_decode_fails : parser_fails frame_error wt_quic_frame_decode.
Proof.
  intros c Hi. unfold wt_quic_frame_decode. pose proof (varint_decode_sized_safe c Hi) as Hs.
  destruct (wt_quic_varint_decode_sized c) as [[[type size]|s e] c']; cbn [fst snd] in *; [|by left].
  destruct (negb _); [right; auto|]. apply decode_body_fails, Hs.
Qed.

(** ** Theorems *)

(** C17. Every QUIC frame whose fields are encodable is written with status OK, as its wire
    bytes appended to what the writer held, when they fit; and decoding those bytes followed
    by anything returns the same frame and stops right after them (a STREAM frame without a
    length has to be last). *)
Theorem frame_roundtrip f w c tl :
  frame_ok f ->
  writer_inv w -> w_overflow w = false -> w_copy w = true -> zlen (frame_bytes f) <= writer_room w ->
  cursor_live c -> cursor_view c = frame_bytes f ++ tl -> (frame_delimited f = true \/ tl = []) ->
  (wt_quic_frame_encode f w).1 = WT_OK /\
  writer_bytes (wt_quic_frame_encode f w).2 = writer_bytes w ++ frame_bytes f /\
  wt_quic_frame_decode c = (Ok f, cursor_advance c (zlen (frame_bytes f))).
Proof.
  intros Hok Hw Hov Hcp Hroom Hc Hv Htl. destruct (decodes_frame f Hok) as [Hend Hdel].
  assert (Hdec : wt_quic_frame_decode c = (Ok f, cursor_advance c (zlen (frame_bytes f)))).
  { destruct Htl as [Hd| ->]; [by apply (Hdel Hd c tl)|]. apply Hend; [done|]. by rewrite app_nil_r in Hv. }
  enough (Henc : (wt_quic_frame_encode f w).1 = WT_OK /\
            writer_bytes (wt_quic_frame_encode f w).2 = writer_bytes w ++ frame_bytes f) by by destruct Henc.
  destruct (frame_quiet f) eqn:Hq.
  - unfold wt_quic_frame_encode. rewrite Hov.
    assert (Happ : appends (writer_varint (frame_type f)) (frame_bytes f)).
    { unfold frame_bytes. destruct f; try done; cbn [frame_body]; rewrite app_nil_r;
        apply appends_varint, frame_type_ok. }
    destruct (appends_run _ _ _ Happ Hw Hov Hroom) as (_ & _ & _ & _ & _ & Hb).
    destruct f; try done; cbn [fst snd frame_type] in *; by rewrite Hb.
  - by apply encodes_bytes; [apply encodes_frame|..].
Qed.

Lemma frame_roundtrip_witness :
  let f := FRAME_STREAM (mk_stream_frame 4 100 true true true [1; 2; 3]) in
  wt_quic_frame_decode (wt_cursor_init (Some (frame_bytes f)) (zlen (frame_bytes f))) =
    (Ok f, cursor_advance (wt_cursor_init (Some (frame_bytes f)) (zlen (frame_bytes f)))
             (zlen (frame_bytes f))).
Proof.
  refine (proj2 (proj2 (frame_roundtrip (FRAME_STREAM (mk_stream_frame 4 100 true true true [1; 2; 3]))
    (wt_writer_init (Some (replicate 20 0)) 20) _ [] _ _ _ _ _ _ _ _))).
  - repeat split; vm_compute; congruence.
  - repeat split; vm_compute; congruence.
  - reflexivity.
  - reflexivity.
  - vm_compute. congruence.
  - apply cursor_init_live; [vm_compute; reflexivity|apply bytes_okb_spec; vm_compute; reflexivity].
  - rewrite app_nil_r. reflexivity.
  - by left.
Defined.

(** C18. On any input bytes the frame decoder keeps the cursor within its buffer and never
    moves it back; a decoded frame has all its fields within their wire ranges and consumed
    at least one byte; a refusal is either truncation or a protocol error that carries
    FRAME_ENCODING_ERROR or PROTOCOL_VIOLATION. *)
Theorem frame_decode_arbitrary_bytes c :
  cursor_inv c ->
  let '(res, c') := wt_quic_frame_decode c in
  cursor_inv c' /\ cur_data c' = cur_data c /\ cur_len c' = cur_len c /\
  cur_offset c <= cur_offset c' /\
  match res with
  | Ok f => frame_decoded f /\ cur_offset c < cur_offset c'
  | Fail s e => frame_error s e
  end.
Proof.
  intros Hi. pose proof (frame_decode_safe c Hi) as Hs. pose proof (frame_decode_consumes c Hi) as Hc.
  pose proof (frame_decode_fails c Hi) as Hf.
  destruct (wt_quic_frame_decode c) as [[f|s e] c']; cbn [fst snd] in *;
    destruct Hs as (? & ? & ? & ? & ?); by split_and!.
Qed.

Lemma frame_decode_arbitrary_bytes_witness :
  let c := wt_cursor_init (Some [0x12; 0xff; 0xff; 0xff; 0xff; 0xff; 0xff; 0xff; 0xff]) 9 in
  let '(res, c') := wt_quic_frame_decode c in
  cursor_inv c' /\ res = Fail WT_ERR_PROTOCOL (Some WT_QUIC_FRAME_ENCODING_ERROR).
Proof.
  pose proof (frame_decode_arbitrary_bytes
    (wt_cursor_init (Some [0x12; 0xff; 0xff; 0xff; 0xff; 0xff; 0xff; 0xff; 0xff]) 9)) as H.
  split; [|vm_compute; reflexivity].
  refine (proj1 (H _)). apply (cursor_init_inv [0x12; 0xff; 0xff; 0xff; 0xff; 0xff; 0xff; 0xff; 0xff]).
  - vm_compute. reflexivity.
  - apply bytes_okb_spec. vm_compute. reflexivity.
Defined.

(** ** The walk *)

Section Walk.
Context {Ctx : Type} (visit : option (Ctx -> wt_quic_frame -> wt_status * Ctx)).

Lemma cursor_remaining_len c :
  cursor_inv c -> 0 <= wt_cursor_remaining c <= cur_len c - cur_offset c.
Proof.
  intros (? & ? & _). unfold wt_cursor_remaining. case_match; [lia|]. no_wrap. lia.
Qed.

(** Each frame consumes a byte, so the fuel outlasts the bytes. *)
Lemma frames_loop_total fuel : forall c ctx,
  cursor_inv c -> wt_cursor_remaining c <= Z.of_nat fuel ->
  exists r, frames_loop visit fuel c ctx = Some r.
Proof.
  induction fuel as [|fuel IH]; intros c ctx Hi Hf; cbn [frames_loop];
    pose proof (cursor_remaining_len c Hi).
  { ztest. by eexists. }
  destruct (Z.ltb_spec 0 (wt_cursor_remaining c)) as [Hpos|]; [|by eexists].
  pose proof (frame_decode_safe c Hi) as Hs. pose proof (frame_decode_consumes c Hi) as Hc.
  destruct (wt_quic_frame_decode c) as [[f|s e] c']; cbn [fst snd] in *; [|by eexists].
  destruct Hs as (Hi' & _ & Hl & _ & _).
  assert (Hrem : wt_cursor_remaining c' <= Z.of_nat fuel).
  { pose proof (cursor_remaining_len c' Hi').
    assert (wt_cursor_remaining c = cur_len c - cur_offset c); [|lia].
    unfold wt_cursor_remaining in *. destruct (cur_failed c); [lia|].
    destruct Hi as (? & ? & _). by no_wrap. }
  destruct visit as [v|]; [|by apply IH].
  destruct (v ctx f) as [[] ctx']; try (by eexists); by apply IH.
Qed.

(** The walk over well-formed frames hands each to the visitor, in order. *)
Lemma frames_loop_visits v fs : forall fuel c ctx,
  visit = Some v -> (forall x f, (v x f).1 = WT_OK) ->
  Forall (fun f => frame_ok f /\ frame_delimited f = true) fs ->
  cursor_live c -> cursor_view c = concat (frame_bytes <$> fs) -> (length fs < fuel)%nat ->
  frames_loop visit fuel c ctx = Some (WT_OK, None, fold_left (fun x f => (v x f).2) fs ctx).
Proof.
  induction fs as [|f fs IH]; intros fuel c ctx Hv Hok Hfs Hl Hc Hf.
  - cbn in Hc. destruct fuel; [lia|]. cbn [frames_loop].
    rewrite cursor_remaining_view, Hc by apply Hl. done.
  - inversion Hfs as [|? ? [Hf1 Hdl] Hrest]; subst. destruct fuel as [|fuel]; [cbn in Hf; lia|].
    cbn [fmap list_fmap concat] in Hc. cbn [frames_loop].
    rewrite cursor_remaining_view, Hc, zlen_app by apply Hl.
    assert (1 <= zlen (frame_bytes f)).
    { unfold frame_bytes. rewrite zlen_app. pose proof (varint_bytes_pos _ (frame_type_ok f)). zlia. }
    pose proof (zlen_nonneg (concat (frame_bytes <$> fs))). ztest.
    rewrite (proj2 (decodes_frame f Hf1) Hdl c _ Hl Hc).
    specialize (Hok ctx f) as Hvf. destruct (v ctx f) as [st ctx'] eqn:Ev. cbn in Hvf. subst st.
    cbn [fold_left]. rewrite Ev. cbn [snd]. apply IH; try done.
    + apply cursor_advance_live; [done|]. rewrite Hc, zlen_app. lia.
    + eapply cursor_advance_view; [apply Hl|exact Hc|done].
    + cbn in Hf. lia.
Qed.
End Walk.

(** The walk over a packet payload terminates on every byte string and for every visitor: the fuel of the model, one more than the number of bytes, is never exhausted. *)
Lemma frames_decode_total {Ctx} (visit : option (Ctx -> wt_quic_frame -> wt_status * Ctx)) d ctx :
  bytes_ok d -> zlen d < 2 ^ 64 ->
  exists r, wt_quic_frames_decode visit (Some d) (zlen d) ctx = Some r.
Proof.
  intros Hok Hlen. unfold wt_quic_frames_decode. apply frames_loop_total; [by apply cursor_init_inv|].
  pose proof (cursor_remaining_len _ (cursor_init_inv d Hlen Hok)) as Hr.
  cbn [wt_cursor_init cur_len cur_offset] in Hr. lia.
Qed.

Lemma frames_decode_total_witness :
  exists r, wt_quic_frames_decode (Some (fun (n : Z) _ => (WT_OK, n + 1))) (Some [0; 0; 1; 2]) 4 0 = Some r.
Proof.
  refine (frames_decode_total (Some (fun (n : Z) _ => (WT_OK, n + 1))) [0; 0; 1; 2] 0 _ _).
  - apply bytes_okb_spec. vm_compute. reflexivity.
  - vm_compute. reflexivity.
Defined.

(** The walk over a packet payload that is the concatenation of the wire bytes of a list of delimited frames returns OK and calls the visitor once per frame, in order: it is the left fold of the visitor over the list. *)
Lemma frames_decode_visits_all {Ctx} (v : Ctx -> wt_quic_frame -> wt_status * Ctx) fs ctx :
  (forall x f, (v x f).1 = WT_OK) ->
  Forall (fun f => frame_ok f /\ frame_delimited f = true) fs ->
  let d := concat (frame_bytes <$> fs) in
  bytes_ok d -> zlen d < 2 ^ 64 ->
  wt_quic_frames_decode (Some v) (Some d) (zlen d) ctx =
    Some (WT_OK, None, fold_left (fun x f => (v x f).2) fs ctx).
Proof.
  intros Hv Hfs d Hd Hlen. unfold wt_quic_frames_decode.
  apply (frames_loop_visits (Some v) v); try done.
  - by apply cursor_init_live.
  - assert (Hle : (length fs <= length d)%nat).
    { unfold d. clear -Hfs. induction Hfs as [|f fs _ _ IH]; [done|]. cbn [fmap list_fmap concat length].
      rewrite length_app. enough (1 <= length (frame_bytes f))%nat by lia.
      unfold frame_bytes. rewrite length_app.
      pose proof (varint_bytes_pos _ (frame_type_ok f)). unfold zlen in *. lia. }
    unfold zlen. lia.
Qed.

Lemma frames_decode_visits_all_witness :
  let fs := [FRAME_PING; FRAME_MAX_DATA 70000; FRAME_CRYPTO 0 [7; 8]] in
  let d := concat (frame_bytes <$> fs) in
  wt_quic_frames_decode (Some (fun l f => (WT_OK, f :: l))) (Some d) (zlen d) [] =
    Some (WT_OK, None, rev fs).
Proof.
  refine (frames_decode_visits_all (fun l f => (WT_OK, f :: l))
    [FRAME_PING; FRAME_MAX_DATA 70000; FRAME_CRYPTO 0 [7; 8]] [] _ _ _ _).
  - reflexivity.
  - repeat constructor; vm_compute; congruence.
  - apply bytes_okb_spec. vm_compute. reflexivity.
  - vm_compute. reflexivity.
Defined.

(** The encoder accepts a MAX_STREAMS above 2^60 and writes it, and the decoder refuses exactly those bytes with FRAME_ENCODING_ERROR. *)
Lemma encoder_writes_unreadable_stream_limit d m w c :
  2 ^ 60 < m <= WT_QUIC_VARINT_MAX ->
  writer_inv w -> w_overflow w = false -> w_copy w = true -> 9 <= writer_room w ->
  cursor_live c -> cursor_view c = frame_bytes (FRAME_MAX_STREAMS d m) ->
  (wt_quic_frame_encode (FRAME_MAX_STREAMS d m) w).1 = WT_OK /\
  writer_bytes (wt_quic_frame_encode (FRAME_MAX_STREAMS d m) w).2 =
    writer_bytes w ++ frame_bytes (FRAME_MAX_STREAMS d m) /\
  (wt_quic_frame_decode c).1 = Fail WT_ERR_PROTOCOL (Some WT_QUIC_FRAME_ENCODING_ERROR).
Proof.
  intros Hm Hw Hov Hcp Hroom Hl Hv.
  assert (Hmv : varint_ok m) by (unfold varint_ok; lia).
  pose proof (frame_type_ok (FRAME_MAX_STREAMS d m)) as Ht.
  assert (Hlen : zlen (frame_bytes (FRAME_MAX_STREAMS d m)) <= 9).
  { unfold frame_bytes; cbn [frame_body frame_type]. rewrite zlen_app, <- !varint_size_bytes by done.
    pose proof (varint_size_le m). pose proof (varint_size_le 0x12).
    replace (wt_quic_varint_size (direction_type d 0x12 0x13)) with 1 by by destruct d. lia. }
  assert (He : encodes (wt_quic_frame_encode (FRAME_MAX_STREAMS d m)) (frame_bytes (FRAME_MAX_STREAMS d m))).
  { eapply encodes_live; [by intros w' Hw'; unfold wt_quic_frame_encode; rewrite Hw'|]. encodes_case. }
  destruct (encodes_bytes _ _ w He Hw Hov Hcp) as [H1 H2]; [lia|]. split_and!; [done|done|].
  unfold wt_quic_frame_decode, frame_bytes in *.
  rewrite (decodes_varint_min _ Ht c _ Hl Hv). unfold wt_quic_varint_is_minimal.
  rewrite Z.eqb_refl. cbn [negb].
  assert (Hb : decode_body (frame_type (FRAME_MAX_STREAMS d m)) = decode_stream_count (FRAME_MAX_STREAMS d))
    by by destruct d.
  rewrite Hb. unfold decode_stream_count, pbind. cbn [frame_body] in Hv.
  rewrite (decodes_read_varint m Hmv _ []).
  - unfold wt_quic_decode_fail. by ztest.
  - apply cursor_advance_live; [done|]. rewrite Hv. zlia.
  - rewrite app_nil_r. eapply cursor_advance_view; [apply Hl|exact Hv|done].
Qed.

Lemma encoder_writes_unreadable_stream_limit_witness :
  let f := FRAME_MAX_STREAMS WT_QUIC_STREAM_BIDIRECTIONAL (2 ^ 61) in
  (wt_quic_frame_encode f (wt_writer_init (Some (replicate 16 0)) 16)).1 = WT_OK /\
  (wt_quic_frame_decode (wt_cursor_init (Some (frame_bytes f)) (zlen (frame_bytes f)))).1 =
    Fail WT_ERR_PROTOCOL (Some WT_QUIC_FRAME_ENCODING_ERROR).
Proof.
  destruct (encoder_writes_unreadable_stream_limit WT_QUIC_STREAM_BIDIRECTIONAL (2 ^ 61)
    (wt_writer_init (Some (replicate 16 0)) 16)
    (wt_cursor_init (Some (frame_bytes (FRAME_MAX_STREAMS WT_QUIC_STREAM_BIDIRECTIONAL (2 ^ 61)))) 
       (zlen (frame_bytes (FRAME_MAX_STREAMS WT_QUIC_STREAM_BIDIRECTIONAL (2 ^ 61))))))
    as (H1 & _ & H2).
  - split; vm_compute; [reflexivity|congruence].
  - repeat split; vm_compute; congruence.
  - reflexivity.
  - reflexivity.
  - vm_compute. congruence.
  - apply cursor_init_live; [vm_compute; reflexivity|apply bytes_okb_spec; vm_compute; reflexivity].
  - reflexivity.
  - split; [exact H1|exact H2].
Defined.
