(* ===== verification/PnSpace.v ===== *)
(** * Packet number spaces: [src/quic/pn_space.c]

    The set of received packet numbers kept as descending ranges, the ACK frame
    built from it, the round-trip estimator of RFC 9002 section 5.3 and the
    sending counter.  The abstract state of the range list is the set it covers,
    [received]; [ranges_wf] is the representation invariant. *)

From S2P Require Export Frame PacketNumber.

(** ** Received ranges *)

Definition WT_QUIC_RECEIVED_RANGES_MAX : nat := 32.
Definition WT_QUIC_TIMER_GRANULARITY : Z := 1000.

Record wt_quic_received_range := mk_range { r_smallest : Z; r_largest : Z }.

(** [ranges[0 .. count)] as a list, largest first. *)
Record wt_quic_ack_state := mk_ack_state {
  as_ranges : list wt_quic_received_range;
  as_has_largest : bool;
  as_largest_received : Z;
  as_eliciting_since_ack : Z;
  as_ack_pending : bool }.

Definition wt_quic_ack_state_init : wt_quic_ack_state := mk_ack_state [] false 0 0 false.

Definition range_has (n : Z) (r : wt_quic_received_range) : bool :=
  (r_smallest r <=? n) && (n <=? r_largest r).

Definition wt_quic_ack_contains (s : wt_quic_ack_state) (n : Z) : bool :=
  existsb (range_has n) (as_ranges s).

(** [state->count--], guarded. *)
Definition drop_oldest (l : list wt_quic_received_range) : list wt_quic_received_range :=
  take (length l - 1) l.

(** The range list after a new number, by the four cases of the source: the
    packet joins the range above ([at - 1]), the one below ([at]), both or none. *)
Definition record_at (l : list wt_quic_received_range) (at' : nat) (n : Z)
    : list wt_quic_received_range :=
  let above := match at' with O => None | S k => l !! k end in
  let below := l !! at' in
  let joins_above := match above with Some r => r_smallest r =? u64 (n + 1) | None => false end in
  let joins_below := match below with Some r => r_largest r =? u64 (n - 1) | None => false end in
  match joins_above, above, joins_below, below with
  | true, Some a, true, Some b =>
      take (at' - 1) l ++ mk_range (r_smallest b) (r_largest a) :: drop (at' + 1) l
  | true, Some a, _, _ => take (at' - 1) l ++ mk_range n (r_largest a) :: drop at' l
  | _, _, true, Some b => take at' l ++ mk_range (r_smallest b) n :: drop (at' + 1) l
  | _, _, _, _ =>
      let full := Nat.eqb (length l) WT_QUIC_RECEIVED_RANGES_MAX in
      let l1 := if full then drop_oldest l else l in
      let at1 := if full then if Nat.ltb (length l1) at' then length l1 else at' else at' in
      take at1 l1 ++ mk_range n n :: drop at1 l1
  end.

Definition wt_quic_ack_record (s : wt_quic_ack_state) (n : Z) (ack_eliciting : bool)
    : wt_status * wt_quic_ack_state :=
  if wt_quic_ack_contains s n then (WT_OK, s)
  else
    let at' := default (length (as_ranges s))
                 (first_index (fun r => r_largest r <? n) (as_ranges s)) in
    let newest := negb (as_has_largest s) || (as_largest_received s <? n) in
    (WT_OK, mk_ack_state (record_at (as_ranges s) at' n)
              (as_has_largest s || newest)
              (if newest then n else as_largest_received s)
              (if ack_eliciting then u64 (as_eliciting_since_ack s + 1) else as_eliciting_since_ack s)
              true).

(** The loop of [wt_quic_ack_build] over the extra ranges. *)
Fixpoint build_ranges (previous_smallest : Z) (l : list wt_quic_received_range) (w : wt_writer)
    : wt_writer :=
  match l with
  | [] => w
  | r :: l =>
      build_ranges (r_smallest r) l
        (w |> writer_varint (u64 (u64 (previous_smallest - r_largest r) - 2))
           |> writer_varint (u64 (r_largest r - r_smallest r)))
  end.

(** [block] is the caller's range buffer; the frame's ranges are its first
    [*range_len] bytes. *)
Definition wt_quic_ack_build (s : wt_quic_ack_state) (delay : Z) (block : list Z)
    : outcome wt_quic_frame :=
  match as_ranges s with
  | [] => Fail WT_ERR_STATE None
  | first :: rest =>
      if negb (as_has_largest s) then Fail WT_ERR_STATE None
      else
        let w := build_ranges (r_smallest first) rest
                   (wt_writer_init (Some block) (zlen block)) in
        if negb (wt_writer_ok w) then Fail WT_ERR_LIMIT None
        else Ok (FRAME_ACK (mk_ack (r_largest first) delay
                   (u64 (r_largest first - r_smallest first))
                   (ztake (w_offset w) (w_data w))
                   (u64 (zlen (as_ranges s) - 1)) None))
  end.

Definition wt_quic_ack_sent (s : wt_quic_ack_state) : wt_quic_ack_state :=
  mk_ack_state (as_ranges s) (as_has_largest s) (as_largest_received s) 0 false.

Definition wt_quic_ack_should_send (s : wt_quic_ack_state) : bool :=
  if negb (as_ack_pending s) then false
  else if 2 <=? as_eliciting_since_ack s then true
  else 1 <? zlen (as_ranges s).

Fixpoint has_gap (l : list wt_quic_received_range) : bool :=
  match l with
  | a :: ((b :: _) as l') => (u64 (r_largest b + 1) <? r_smallest a) || has_gap l'
  | _ => false
  end.
Definition wt_quic_ack_has_gap (s : wt_quic_ack_state) : bool := has_gap (as_ranges s).

Definition wt_quic_ack_received_count (s : wt_quic_ack_state) : Z :=
  fold_left (fun total r => u64 (total + u64 (u64 (r_largest r - r_smallest r) + 1)))
            (as_ranges s) 0.

(** ** The round-trip estimator *)

Record wt_quic_rtt := mk_rtt {
  rtt_latest : Z;
  rtt_smoothed : Z;
  rtt_rttvar : Z;
  rtt_min : Z;
  rtt_has_sample : bool }.

Definition wt_quic_rtt_init : wt_quic_rtt := mk_rtt 0 0 0 0 false.

Definition wt_quic_rtt_update (r : wt_quic_rtt) (latest ack_delay max_ack_delay : Z)
    (handshake_confirmed : bool) : wt_status * wt_quic_rtt :=
  let min_rtt := if negb (rtt_has_sample r) || (latest <? rtt_min r) then latest else rtt_min r in
  let adjusted :=
    if handshake_confirmed && (u64 (min_rtt + ack_delay) <=? latest) then
      let capped := if max_ack_delay <? ack_delay then max_ack_delay else ack_delay in
      if capped <? latest then u64 (latest - capped) else latest
    else latest in
  (WT_OK,
   if negb (rtt_has_sample r) then mk_rtt latest adjusted (adjusted / 2) min_rtt true
   else
     let difference := if adjusted <? rtt_smoothed r then u64 (rtt_smoothed r - adjusted)
                       else u64 (adjusted - rtt_smoothed r) in
     mk_rtt latest (u64 (u64 (7 * rtt_smoothed r) + adjusted) / 8)
            (u64 (u64 (3 * rtt_rttvar r) + difference) / 4) min_rtt true).

Definition wt_quic_rtt_pto (r : wt_quic_rtt) (max_ack_delay : Z) : outcome Z :=
  if negb (rtt_has_sample r) then Fail WT_ERR_STATE None
  else
    let variation := u64 (4 * rtt_rttvar r) in
    let variation := if variation <? WT_QUIC_TIMER_GRANULARITY then WT_QUIC_TIMER_GRANULARITY
                     else variation in
    Ok (u64 (u64 (rtt_smoothed r + variation) + max_ack_delay)).

(** ** The space *)

Record wt_quic_pn_space := mk_space {
  sp_next_send : Z;
  sp_has_largest_acked : bool;
  sp_largest_acked : Z;
  sp_has_sent : bool;
  sp_received : wt_quic_ack_state;
  sp_rtt : wt_quic_rtt }.

Definition wt_quic_pn_space_init : wt_quic_pn_space :=
  mk_space 0 false 0 false wt_quic_ack_state_init wt_quic_rtt_init.

Definition wt_quic_pn_space_next (s : wt_quic_pn_space) : outcome Z * wt_quic_pn_space :=
  if sp_has_sent s && (WT_QUIC_PACKET_NUMBER_MAX <? sp_next_send s)
  then (Fail WT_ERR_OVERFLOW None, s)
  else (Ok (sp_next_send s),
        mk_space (u64 (sp_next_send s + 1)) (sp_has_largest_acked s) (sp_largest_acked s) true
                 (sp_received s) (sp_rtt s)).

Definition wt_quic_pn_space_on_ack (s : wt_quic_pn_space) (largest : Z) : wt_status * wt_quic_pn_space :=
  if sp_has_largest_acked s && (largest <? sp_largest_acked s) then (WT_ERR_STATE, s)
  else (WT_OK, mk_space (sp_next_send s) true largest (sp_has_sent s) (sp_received s) (sp_rtt s)).

Definition wt_quic_pn_space_first_in_flight (s : wt_quic_pn_space) : Z :=
  if negb (sp_has_largest_acked s) then 0 else u64 (sp_largest_acked s + 1).

(** ** The set a range list stands for *)

(** Ranges in descending order with a hole of at least one number between
    neighbours, below [bound]. *)
Fixpoint ranges_below (bound : Z) (l : list wt_quic_received_range) : Prop :=
  match l with
  | [] => True
  | r :: l => 0 <= r_smallest r <= r_largest r /\ r_largest r < bound /\
              ranges_below (r_smallest r - 1) l
  end.

Definition received (l : list wt_quic_received_range) (n : Z) : Prop :=
  exists r, r ∈ l /\ r_smallest r <= n <= r_largest r.

Definition ack_inv (s : wt_quic_ack_state) : Prop :=
  ranges_below (WT_QUIC_PACKET_NUMBER_MAX + 1) (as_ranges s) /\
  (length (as_ranges s) <= WT_QUIC_RECEIVED_RANGES_MAX)%nat /\
  (as_has_largest s = true <-> as_ranges s <> []) /\
  (as_has_largest s = true -> exists r l, as_ranges s = r :: l /\ as_largest_received s = r_largest r) /\
  is_u64 (as_eliciting_since_ack s).

(** *** Ranges of a concatenation *)

Definition floor (bound : Z) (l : list wt_quic_received_range) : Z :=
  fold_left (fun _ r => r_smallest r - 1) l bound.

Lemma floor_snoc b l r : floor b (l ++ [r]) = r_smallest r - 1.
Proof. unfold floor. by rewrite fold_left_app. Qed.

Lemma ranges_below_app b l k :
  ranges_below b (l ++ k) <-> ranges_below b l /\ ranges_below (floor b l) k.
Proof.
  revert b. induction l as [|r l IH]; intros b; cbn; [tauto|]. rewrite IH. tauto.
Qed.

Lemma ranges_below_le b b' l : b <= b' -> ranges_below b l -> ranges_below b' l.
Proof. destruct l; cbn; [done|]. intros ? (? & ? & ?). split_and!; auto; lia. Qed.

Lemma ranges_below_bound b l r : ranges_below b l -> r ∈ l -> 0 <= r_smallest r <= r_largest r /\ r_largest r < b.
Proof.
  revert b. induction l as [|x l IH]; intros b Hb Hr; [by apply not_elem_of_nil in Hr|].
  cbn in Hb. destruct Hb as (Hx & Hxb & Hl). apply elem_of_cons in Hr as [->|Hr]; [done|].
  destruct (IH _ Hl Hr) as [? ?]. split; lia.
Qed.

Lemma received_app l k n : received (l ++ k) n <-> received l n \/ received k n.
Proof.
  unfold received. split.
  - intros (r & Hr & Hn). apply elem_of_app in Hr as [?|?]; eauto.
  - intros [(r & Hr & Hn)|(r & Hr & Hn)]; exists r; (split; [apply elem_of_app; auto|done]).
Qed.

Lemma received_cons r l n :
  received (r :: l) n <-> r_smallest r <= n <= r_largest r \/ received l n.
Proof.
  unfold received. split.
  - intros (x & Hx & Hn). apply elem_of_cons in Hx as [->|Hx]; [by left|right; eauto].
  - intros [Hn|(x & Hx & Hn)]; [exists r|exists x]; (split; [apply elem_of_cons; auto|done]).
Qed.

Lemma received_nil n : ~ received [] n.
Proof. intros (r & Hr & _). by apply not_elem_of_nil in Hr. Qed.

Lemma contains_spec s n : wt_quic_ack_contains s n = true <-> received (as_ranges s) n.
Proof.
  unfold wt_quic_ack_contains, received, range_has. rewrite existsb_exists. split.
  - intros (r & Hr & Hn). exists r. split; [by apply list_elem_of_In|]. reflect_bools. done.
  - intros (r & Hr & Hn). exists r. split; [by apply list_elem_of_In|].
    by rewrite andb_true_iff, !Z.leb_le.
Qed.

(** The search splits the list around the new number. *)
Lemma record_split b l n :
  ranges_below b l -> ~ received l n ->
  let at' := default (length l) (first_index (fun r => r_largest r <? n) l) in
  exists l1 l2, l = l1 ++ l2 /\ at' = length l1 /\
    Forall (fun r => n < r_smallest r) l1 /\
    match l2 with [] => True | r :: _ => r_largest r < n end.
Proof.
  intros Hb Hn at'. exists (take at' l), (drop at' l). rewrite take_drop. split; [done|].
  assert (Habove : forall j y, (j < at')%nat -> l !! j = Some y -> n < r_smallest y).
  { intros j y Hj Hy. assert (Hge : n <= r_largest y).
    { unfold at' in Hj. destruct (first_index _ l) as [i|] eqn:E; cbn in Hj.
      - apply first_index_Some in E as [_ E]. specialize (E j y Hj Hy). reflect_bools. lia.
      - apply first_index_None in E. rewrite Forall_lookup in E. specialize (E _ _ Hy). reflect_bools. lia. }
    destruct (Z.lt_ge_cases n (r_smallest y)); [done|]. destruct Hn. exists y.
    split; [by eapply list_elem_of_lookup_2|lia]. }
  split_and!.
  - rewrite length_take_le; [done|]. unfold at'.
    destruct (first_index _ l) as [i|] eqn:E; cbn; [|done]. apply first_index_lt in E. lia.
  - apply Forall_lookup. intros j y Hy. apply lookup_take_Some in Hy as [Hy Hj]. by eapply Habove.
  - destruct (drop at' l) as [|r k] eqn:Ed; [done|].
    assert (Hr : l !! at' = Some r).
    { rewrite <- (Nat.add_0_r at'), <- lookup_drop, Ed. done. }
    unfold at' in Hr. destruct (first_index _ l) as [i|] eqn:E; cbn in Hr.
    + apply first_index_Some in E as [(x & Hx & Hp) _]. simplify_eq. reflect_bools. done.
    + apply lookup_lt_Some in Hr. lia.
Qed.

(** *** The four cases *)

(** What a new list [l'] must satisfy after recording [n] in [l], [lost] being the
    numbers given up. *)
Definition recorded (B n : Z) (l l' : list wt_quic_received_range) (lost : Z -> Prop) : Prop :=
  ranges_below B l' /\ (forall m, received l' m <-> m = n \/ (received l m /\ ~ lost m)).

Definition nothing_lost (m : Z) : Prop := False.

Ltac ranges_tac :=
  repeat match goal with
  | H : ranges_below _ (_ ++ _) |- _ => apply ranges_below_app in H as [? ?]
  | H : ranges_below _ (_ :: _) |- _ => cbn [ranges_below] in H
  | H : _ /\ _ |- _ => destruct H
  | |- ranges_below _ (_ ++ _) => apply ranges_below_app; split; [done|]
  | |- ranges_below _ (_ :: _) => cbn [ranges_below r_smallest r_largest]; split_and!
  end.
Ltac received_tac :=
  intros m; rewrite ?received_app, ?received_cons, ?received_app, ?received_cons;
  cbn [r_smallest r_largest]; unfold nothing_lost; pose proof (received_nil m); intuition lia.

Section Record.
Context (n B : Z).
Implicit Types l k : list wt_quic_received_range.

Lemma join_both l1 a b l2 :
  0 <= n < B -> ranges_below B (l1 ++ a :: b :: l2) -> r_smallest a = n + 1 -> r_largest b = n - 1 ->
  recorded B n (l1 ++ a :: b :: l2) (l1 ++ mk_range (r_smallest b) (r_largest a) :: l2) nothing_lost.
Proof. intros Hn H Ha Hb. ranges_tac. split; [ranges_tac; first [done|lia]|received_tac]. Qed.

Lemma join_above l1 a l2 :
  0 <= n < B -> ranges_below B (l1 ++ a :: l2) -> r_smallest a = n + 1 ->
  match l2 with [] => True | b :: _ => r_largest b < n - 1 end ->
  recorded B n (l1 ++ a :: l2) (l1 ++ mk_range n (r_largest a) :: l2) nothing_lost.
Proof.
  intros Hn H Ha Hb. ranges_tac. split; [ranges_tac; try first [done|lia]|received_tac].
  destruct l2 as [|b l2]; [done|]. ranges_tac; first [done|lia].
Qed.

Lemma join_below l1 b l2 :
  0 <= n < B -> ranges_below B (l1 ++ b :: l2) -> r_largest b = n - 1 -> n < floor B l1 ->
  recorded B n (l1 ++ b :: l2) (l1 ++ mk_range (r_smallest b) n :: l2) nothing_lost.
Proof. intros Hn H Hb Hf. ranges_tac. split; [ranges_tac; first [done|lia]|received_tac]. Qed.

Lemma join_none l1 l2 :
  0 <= n < B -> ranges_below B (l1 ++ l2) -> n < floor B l1 ->
  match l2 with [] => True | b :: _ => r_largest b < n - 1 end ->
  recorded B n (l1 ++ l2) (l1 ++ mk_range n n :: l2) nothing_lost.
Proof.
  intros Hn H Hf Hb. ranges_tac. split; [ranges_tac; try first [done|lia]|received_tac].
  destruct l2 as [|b l2]; [done|]. ranges_tac; first [done|lia].
Qed.
End Record.

Lemma floor_le b l : ranges_below b l -> floor b l <= b.
Proof.
  revert b. induction l as [|x l IH]; intros b; [done|]. cbn. intros (? & ? & H).
  specialize (IH _ H). unfold floor in *. cbn. lia.
Qed.

Lemma floor_below_elem b l r : ranges_below b l -> r ∈ l -> floor b l <= r_smallest r - 1.
Proof.
  revert b. induction l as [|x l IH]; intros b Hb Hr; [by apply not_elem_of_nil in Hr|].
  cbn in Hb. destruct Hb as (? & ? & Hl). change (floor b (x :: l)) with (floor (r_smallest x - 1) l).
  apply elem_of_cons in Hr as [->|Hr]; [by apply floor_le|by apply IH].
Qed.

(** Giving up the last range. *)
Definition in_range (o : wt_quic_received_range) (m : Z) : Prop := r_smallest o <= m <= r_largest o.

Lemma recorded_ext B n l l' P Q :
  (forall m, P m <-> Q m) -> recorded B n l l' P -> recorded B n l l' Q.
Proof. intros He [H1 H2]. split; [done|]. intros m. rewrite H2. by rewrite He. Qed.

Lemma recorded_drop B n l o l' :
  ranges_below B (l ++ [o]) -> recorded B n l l' nothing_lost ->
  recorded B n (l ++ [o]) l' (in_range o).
Proof.
  intros Hb [H1 H2]. split; [done|]. intros m. rewrite H2, received_app, received_cons.
  unfold nothing_lost, in_range. pose proof (received_nil m).
  assert (received l m -> ~ r_smallest o <= m <= r_largest o); [|tauto].
  intros (r & Hr & Hm). apply ranges_below_app in Hb as [Hl Ho].
  pose proof (floor_below_elem _ _ _ Hl Hr). cbn in Ho. lia.
Qed.

(** *** [record_at] is one of the cases *)

Lemma last_split {A} (l : list A) : l = [] \/ exists k x, l = k ++ [x].
Proof. destruct l as [|x l _] using rev_ind; eauto. Qed.

(** The neighbours [record_at] looks at. *)
Lemma neighbour_above {A} (l1 : list A) (a : A) l2 :
  match length (l1 ++ [a]) with O => None | S k => ((l1 ++ [a]) ++ l2) !! k end = Some a.
Proof.
  rewrite length_app, Nat.add_comm. cbn. rewrite <- app_assoc. by apply list_lookup_middle.
Qed.
Lemma neighbour_below {A} (l1 : list A) l2 : (l1 ++ l2) !! length l1 = head l2.
Proof. rewrite lookup_app_r, Nat.sub_diag by done. by destruct l2. Qed.

Lemma take_before {A} (l1 : list A) a l2 : take (length (l1 ++ [a]) - 1) ((l1 ++ [a]) ++ l2) = l1.
Proof.
  rewrite length_app. cbn. replace (length l1 + 1 - 1)%nat with (length l1) by lia.
  rewrite <- app_assoc. apply take_app_length.
Qed.
Lemma drop_after {A} (l1 : list A) b l2 : drop (length l1 + 1) (l1 ++ b :: l2) = l2.
Proof.
  replace (length l1 + 1)%nat with (length (l1 ++ [b])) by (rewrite length_app; cbn; lia).
  rewrite (app_assoc l1 [b] l2 : l1 ++ b :: l2 = _). apply drop_app_length.
Qed.

Definition lost_by (l : list wt_quic_received_range) (m : Z) : Prop :=
  length l = WT_QUIC_RECEIVED_RANGES_MAX /\ exists o, last l = Some o /\ in_range o m.

(** Inserting without a neighbour, with room or after giving up the oldest. *)
Lemma record_none B n l1 l2 :
  0 <= n < B -> ranges_below B (l1 ++ l2) -> n < floor B l1 ->
  match l2 with [] => True | b :: _ => r_largest b < n - 1 end ->
  (length (l1 ++ l2) <= WT_QUIC_RECEIVED_RANGES_MAX)%nat ->
  let full := Nat.eqb (length (l1 ++ l2)) WT_QUIC_RECEIVED_RANGES_MAX in
  let l := if full then drop_oldest (l1 ++ l2) else l1 ++ l2 in
  let at1 := if full then if Nat.ltb (length l) (length l1) then length l else length l1
             else length l1 in
  let l' := take at1 l ++ mk_range n n :: drop at1 l in
  (recorded B n (l1 ++ l2) l' nothing_lost \/ recorded B n (l1 ++ l2) l' (lost_by (l1 ++ l2))) /\
  (length l' <= WT_QUIC_RECEIVED_RANGES_MAX)%nat.
Proof.
  intros Hn Hb Hf Hl2 Hlen. cbn zeta. destruct (Nat.eqb_spec (length (l1 ++ l2)) WT_QUIC_RECEIVED_RANGES_MAX) as [Hfull|Hroom].
  2: { rewrite take_app_length, drop_app_length. split; [left; by apply join_none|].
       rewrite !length_app in *. cbn. lia. }
  assert (Hdrop : forall k o, drop_oldest (k ++ [o]) = k).
  { intros k o. unfold drop_oldest. rewrite length_app. cbn.
    replace (length k + 1 - 1)%nat with (length k) by lia. apply take_app_length. }
  assert (Hlost : forall k o l', l1 ++ l2 = k ++ [o] -> recorded B n k l' nothing_lost ->
            recorded B n (l1 ++ l2) l' (lost_by (l1 ++ l2))).
  { intros k o l' Heq Hrec. rewrite Heq in *. eapply recorded_ext; [|by apply recorded_drop].
    intros m. unfold lost_by. rewrite last_snoc. split; [eauto|].
    intros (_ & o' & [= <-] & ?). done. }
  destruct (last_split l2) as [->|(k & o & ->)].
  - rewrite app_nil_r in *. destruct (last_split l1) as [->|(k & o & ->)]; [done|].
    rewrite Hdrop. assert (Hlt : Nat.ltb (length k) (length (k ++ [o])) = true)
      by (apply Nat.ltb_lt; rewrite length_app; cbn; lia).
    rewrite Hlt, take_ge, drop_ge by lia. rewrite length_app in Hfull. cbn in Hfull.
    pose proof Hb as Hb'. apply ranges_below_app in Hb' as [Hk Ho]. cbn in Ho. rewrite floor_snoc in Hf.
    split; [|rewrite length_app; cbn; lia]. right.
    apply (Hlost k o); [done|].
    pose proof (join_none n B k []) as Hj. rewrite app_nil_r in Hj. apply Hj; [done|done|lia|done].
  - assert (Heq : l1 ++ k ++ [o] = (l1 ++ k) ++ [o]) by apply app_assoc.
    rewrite Heq, Hdrop. assert (Hlt : Nat.ltb (length (l1 ++ k)) (length l1) = false)
      by (apply Nat.ltb_ge; rewrite length_app; lia).
    rewrite Hlt, take_app_length, drop_app_length. rewrite Heq, length_app in Hfull. cbn in Hfull.
    rewrite Heq in Hb. apply ranges_below_app in Hb as [Hb _].
    split; [|rewrite length_app in *; cbn; lia]. right. rewrite <- Heq. apply (Hlost (l1 ++ k) o); [done|].
    apply join_none; [done|done|done|]. by destruct k.
Qed.

Lemma record_at_recorded B n l1 l2 :
  0 <= n < B -> B <= 2 ^ 62 -> ranges_below B (l1 ++ l2) -> Forall (fun r => n < r_smallest r) l1 ->
  match l2 with [] => True | r :: _ => r_largest r < n end ->
  (length (l1 ++ l2) <= WT_QUIC_RECEIVED_RANGES_MAX)%nat ->
  let l' := record_at (l1 ++ l2) (length l1) n in
  (recorded B n (l1 ++ l2) l' nothing_lost \/ recorded B n (l1 ++ l2) l' (lost_by (l1 ++ l2))) /\
  (length l' <= WT_QUIC_RECEIVED_RANGES_MAX)%nat.
Proof.
  intros Hn HB Hb Hl1 Hl2 Hlen l'.
  assert (Hbelow : match l2 with [] => True | r :: _ => 0 <= r_largest r end).
  { destruct l2 as [|r l2]; [done|].
    destruct (ranges_below_bound _ _ r Hb) as [? _]; [apply elem_of_app; right; left|lia]. }
  unfold l', record_at. rewrite neighbour_below. rewrite !(u64_small (n + 1)) by (unfold is_u64; lia).
  destruct (last_split l1) as [->|(k & a & ->)].
  - cbn [length app]. destruct l2 as [|b l2]; cbn [head].
    + apply (record_none B n [] []); try done. unfold floor; cbn; lia.
    + rewrite u64_small by (unfold is_u64; lia). destruct (Z.eqb_spec (r_largest b) (n - 1)) as [He|].
      * change (take 0 (b :: l2) ++ mk_range (r_smallest b) n :: drop (0 + 1) (b :: l2))
          with ([] ++ mk_range (r_smallest b) n :: l2).
        split; [left; apply (join_below n B [] b l2); try done; unfold floor; cbn; lia|].
        cbn in *. lia.
      * apply (record_none B n [] (b :: l2)); try done; [unfold floor; cbn; lia|lia].
  - rewrite neighbour_above. apply Forall_app in Hl1 as [_ Ha]. inversion Ha as [|? ? Ha' _]; subst. clear Ha.
    assert (Hfl : floor B (k ++ [a]) = r_smallest a - 1) by apply floor_snoc.
    rewrite take_before. destruct l2 as [|b l2]; cbn [head].
    + destruct (Z.eqb_spec (r_smallest a) (n + 1)).
      * rewrite drop_app_length. rewrite <- !app_assoc in *. cbn [app] in *.
        split; [left; by apply join_above|]. rewrite !length_app in *. cbn in *. lia.
      * apply record_none; try done. lia.
    + rewrite u64_small by (unfold is_u64; lia).
      destruct (Z.eqb_spec (r_smallest a) (n + 1)), (Z.eqb_spec (r_largest b) (n - 1)).
      * rewrite drop_after. rewrite <- !app_assoc in *. cbn [app] in *.
        split; [left; by apply join_both|]. rewrite !length_app in *. cbn in *. lia.
      * rewrite drop_app_length. rewrite <- !app_assoc in *. cbn [app] in *.
        split; [left; apply join_above; try done; lia|]. rewrite !length_app in *. cbn in *. lia.
      * rewrite take_app_length, drop_after.
        split; [left; apply join_below; try done; lia|]. rewrite !length_app in *. cbn in *. lia.
      * apply record_none; try done; lia.
Qed.

(** The largest number of the set heads the list. *)
Lemma head_is_max b r l m : ranges_below b (r :: l) -> received (r :: l) m -> m <= r_largest r.
Proof.
  intros Hb Hm. apply received_cons in Hm as [?|(x & Hx & ?)]; [lia|].
  cbn in Hb. destruct Hb as (? & ? & Hl). destruct (ranges_below_bound _ _ _ Hl Hx). lia.
Qed.

Lemma head_received b r l : ranges_below b (r :: l) -> received (r :: l) (r_largest r).
Proof. cbn. intros (? & _). apply received_cons. left. lia. Qed.

Definition PN_BOUND : Z := WT_QUIC_PACKET_NUMBER_MAX + 1.

Lemma head_not_lost b r l : ranges_below b (r :: l) -> ~ lost_by (r :: l) (r_largest r).
Proof.
  intros Hb (Hlen & o & Ho & Hm). cbn in Hb. destruct Hb as (Hr & _ & Hl).
  destruct l as [|x l]; [done|]. rewrite last_cons_cons in Ho.
  assert (Hin : o ∈ x :: l) by by apply last_Some_elem_of.
  destruct (ranges_below_bound _ _ _ Hl Hin). unfold in_range in Hm. lia.
Qed.

Lemma ack_record_inv s n e :
  ack_inv s -> 0 <= n <= WT_QUIC_PACKET_NUMBER_MAX ->
  let s' := (wt_quic_ack_record s n e).2 in
  ack_inv s' /\
  ((forall m, received (as_ranges s') m <-> m = n \/ received (as_ranges s) m) \/
   (wt_quic_ack_contains s n = false /\
    forall m, received (as_ranges s') m <-> m = n \/ (received (as_ranges s) m /\ ~ lost_by (as_ranges s) m))).
Proof.
  intros (Hb & Hlen & Hhas & Hlarge & He) Hn. unfold wt_quic_ack_record.
  destruct (wt_quic_ack_contains s n) eqn:Hc.
  { cbn. split; [by split_and!|]. left. intros m. apply contains_spec in Hc.
    split; [by right|]. by intros [->|]. }
  assert (Hnr : ~ received (as_ranges s) n) by (rewrite <- contains_spec; congruence).
  destruct (record_split _ _ n Hb Hnr) as (l1 & l2 & Hl & Hat & H1 & H2). cbn zeta in *.
  rewrite Hat. rewrite Hl in Hb, Hlen.
  destruct (record_at_recorded (WT_QUIC_PACKET_NUMBER_MAX + 1) n l1 l2) as [Hrec Hlen'];
    [lia|unfold WT_QUIC_PACKET_NUMBER_MAX; lia|done|done|done|done|]. rewrite <- Hl in *. cbn [snd as_ranges].
  set (l' := record_at (as_ranges s) (length l1) n) in *.
  assert (Hb' : ranges_below (WT_QUIC_PACKET_NUMBER_MAX + 1) l') by by destruct Hrec as [[? _]|[? _]].
  assert (Hn' : received l' n) by (destruct Hrec as [[_ H]|[_ H]]; apply H; by left).
  assert (Hsub : forall m, received l' m -> m = n \/ received (as_ranges s) m)
    by (intros m Hm; destruct Hrec as [[_ H]|[_ H]]; apply H in Hm; tauto).
  split.
  2: { destruct Hrec as [[_ H]|[_ H]]; [left|right; split; [done|exact H]].
       intros m. rewrite H. unfold nothing_lost. tauto. }
  assert (Hnewest : as_has_largest s || (negb (as_has_largest s) || (as_largest_received s <? n)) = true)
    by by destruct (as_has_largest s).
  unfold ack_inv. cbn [as_ranges as_has_largest as_largest_received as_eliciting_since_ack].
  rewrite Hnewest. split_and!; [done|done|..].
  - split; [intros _ ->; by apply received_nil in Hn'|done].
  - intros _. destruct l' as [|r k] eqn:El; [by apply received_nil in Hn'|]. exists r, k. split; [done|].
    pose proof (head_is_max _ _ _ _ Hb' Hn') as Hmax.
    pose proof (Hsub _ (head_received _ _ _ Hb')) as Hr.
    destruct (as_has_largest s) eqn:Eh; cbn [negb orb].
    + destruct (Hlarge eq_refl) as (x & t & Hx & ->). rewrite Hx in *.
      assert (Hkeep : received (r :: k) (r_largest x)).
      { pose proof (head_received _ _ _ Hb). pose proof (head_not_lost _ _ _ Hb).
        destruct Hrec as [[_ H']|[_ H']]; apply H'; right; (split; [done|]); [by intros []|done]. }
      pose proof (head_is_max _ _ _ _ Hb' Hkeep).
      assert (r_largest r = n \/ r_largest r <= r_largest x)
        by (destruct Hr as [?|Hr]; [by left|right; by eapply head_is_max]).
      destruct (Z.ltb_spec (r_largest x) n); lia.
    + destruct Hr as [?|Hr]; [done|]. exfalso. destruct (as_ranges s) eqn:E; [by apply received_nil in Hr|].
      assert (false = true) by (by apply Hhas). done.
  - destruct e; auto with wt.
Qed.

(** ** The ACK frame says what was received *)

(** RFC 9000 section 19.3.1: gap and length of a range below [smallest]. *)
Definition rfc_range (smallest : Z) (r : Z * Z) : wt_quic_received_range :=
  mk_range (smallest - r.1 - 2 - r.2) (smallest - r.1 - 2).
Fixpoint rfc_ranges (smallest : Z) (rs : list (Z * Z)) : list wt_quic_received_range :=
  match rs with
  | [] => []
  | r :: rs => rfc_range smallest r :: rfc_ranges (r_smallest (rfc_range smallest r)) rs
  end.

(** The pairs the builder writes. *)
Fixpoint gap_pairs (smallest : Z) (l : list wt_quic_received_range) : list (Z * Z) :=
  match l with
  | [] => []
  | r :: l => (smallest - r_largest r - 2, r_largest r - r_smallest r) :: gap_pairs (r_smallest r) l
  end.

Lemma rfc_gap_pairs smallest l : rfc_ranges smallest (gap_pairs smallest l) = l.
Proof.
  revert smallest. induction l as [|[s l] k IH]; intros sm; [done|]. cbn [gap_pairs rfc_ranges].
  assert (rfc_range sm (sm - r_largest (mk_range s l) - 2, r_largest (mk_range s l) - r_smallest (mk_range s l))
          = mk_range s l) as -> by (unfold rfc_range; cbn; f_equal; lia).
  cbn. by rewrite IH.
Qed.

Lemma zlen_gap_pairs smallest l : zlen (gap_pairs smallest l) = zlen l.
Proof. revert smallest. induction l; intros; [done|]. cbn [gap_pairs]. by rewrite !zlen_cons, IHl. Qed.

Lemma gap_pairs_ok smallest l :
  smallest <= WT_QUIC_PACKET_NUMBER_MAX -> ranges_below (smallest - 1) l ->
  Forall range_ok (gap_pairs smallest l).
Proof.
  revert smallest. induction l as [|r l IH]; intros sm Hs Hb; cbn [gap_pairs]; [constructor|].
  cbn in Hb. destruct Hb as (? & ? & Hl). constructor; [|apply IH; [lia|done]].
  unfold range_ok, varint_ok, WT_QUIC_VARINT_MAX, WT_QUIC_PACKET_NUMBER_MAX in *; cbn. lia.
Qed.

Lemma build_ranges_spec smallest l w :
  smallest <= WT_QUIC_PACKET_NUMBER_MAX -> ranges_below (smallest - 1) l ->
  build_ranges smallest l w = write_ranges (gap_pairs smallest l) w.
Proof.
  revert smallest w. induction l as [|r l IH]; intros sm w Hs Hb; [done|].
  cbn in Hb. destruct Hb as (? & ? & Hl). cbn [build_ranges gap_pairs].
  unfold WT_QUIC_PACKET_NUMBER_MAX in *.
  change (write_ranges ((?a, ?b) :: ?k) w) with (write_ranges k (w |> writer_varint a |> writer_varint b)).
  rewrite IH by (done || lia). unfold write_ranges at 2; cbn [fold_left fst snd]. no_wrap. done.
Qed.

Definition ack_wire_pairs (s : wt_quic_ack_state) : list (Z * Z) :=
  match as_ranges s with [] => [] | r :: l => gap_pairs (r_smallest r) l end.

Lemma ack_build_result s delay block first rest :
  ack_inv s -> varint_ok delay -> as_ranges s = first :: rest -> zlen block < 2 ^ 64 ->
  let rs := gap_pairs (r_smallest first) rest in
  wt_quic_ack_build s delay block =
    if zlen (ranges_wire rs) <=? zlen block
    then Ok (FRAME_ACK (mk_ack (r_largest first) delay (r_largest first - r_smallest first)
               (ranges_wire rs) (zlen rs) None))
    else Fail WT_ERR_LIMIT None.
Proof.
  intros (Hb & Hlen & Hhas & _) Hd Hr Hblock rs.
  assert (Hh : as_has_largest s = true) by (apply Hhas; by rewrite Hr).
  unfold wt_quic_ack_build. rewrite Hh, Hr in *. cbn [negb].
  cbn in Hb. destruct Hb as (Hf1 & Hf2 & Hrest). unfold WT_QUIC_PACKET_NUMBER_MAX in *.
  rewrite build_ranges_spec by (unfold WT_QUIC_PACKET_NUMBER_MAX; done || lia). fold rs.
  assert (Hok : Forall range_ok rs).
  { apply gap_pairs_ok; [unfold WT_QUIC_PACKET_NUMBER_MAX; lia|done]. }
  pose proof (writer_init_inv block Hblock) as Hi.
  destruct (appends_ranges rs Hok _ Hi) as (_ & _ & Hrun). specialize (Hrun eq_refl).
  change (writer_room (wt_writer_init (Some block) (zlen block))) with (zlen block - 0) in Hrun.
  rewrite Z.sub_0_r in Hrun.
  destruct (Z.leb_spec (zlen (ranges_wire rs)) (zlen block)) as [Hfit|Hover].
  - destruct (appends_run _ _ _ (appends_ranges rs Hok) Hi eq_refl) as (_ & Hov & Hoff & _ & _ & Hbytes).
    { unfold writer_room; cbn. lia. }
    specialize (Hbytes eq_refl). unfold wt_writer_ok. rewrite Hov. cbn [negb].
    unfold writer_bytes in Hbytes. rewrite Hbytes.
    change (ztake (w_offset (wt_writer_init (Some block) (zlen block))) _) with (@nil Z).
    rewrite app_nil_l. replace (zlen rs) with (zlen rest) by (unfold rs; by rewrite zlen_gap_pairs).
    rewrite zlen_cons.
    assert (Hrest32 : 0 <= zlen rest <= 32).
    { unfold WT_QUIC_RECEIVED_RANGES_MAX in Hlen. cbn in Hlen. unfold zlen. lia. }
    rewrite !u64_small by (unfold is_u64; lia).
    by replace (1 + zlen rest - 1) with (zlen rest) by lia.
  - unfold wt_writer_ok. by rewrite Hrun.
Qed.

Lemma ack_build_ok s delay (block : list Z) first rest :
  ack_inv s -> varint_ok delay -> as_ranges s = first :: rest -> zlen block < 2 ^ 64 ->
  zlen (ranges_wire (gap_pairs (r_smallest first) rest)) <= zlen block ->
  frame_ok (FRAME_ACK (mk_ack (r_largest first) delay (r_largest first - r_smallest first)
    (ranges_wire (gap_pairs (r_smallest first) rest)) (zlen (gap_pairs (r_smallest first) rest)) None)).
Proof.
  intros (Hb & Hlen & _) Hd Hr Hblock Hfit. rewrite Hr in *.
  cbn in Hb. destruct Hb as (Hf1 & Hf2 & Hrest). unfold WT_QUIC_PACKET_NUMBER_MAX in *.
  assert (Hok : Forall range_ok (gap_pairs (r_smallest first) rest))
    by (apply gap_pairs_ok; [unfold WT_QUIC_PACKET_NUMBER_MAX; lia|done]).
  assert (Hz : 0 <= zlen rest <= 32) by (unfold WT_QUIC_RECEIVED_RANGES_MAX in Hlen; cbn in Hlen; unfold zlen; lia).
  cbn [frame_ok ack_largest ack_delay ack_first_range ack_range_count ack_ranges ack_ecn].
  rewrite zlen_gap_pairs. unfold varint_ok, WT_QUIC_VARINT_MAX in *. split_and!; try lia.
  - eexists. split_and!; [exact Hok|done|by rewrite zlen_gap_pairs|lia].
  - done.
Qed.

(** The state after a run of packets. *)
Definition ack_run (l : list Z) : wt_quic_ack_state :=
  fold_left (fun s n => (wt_quic_ack_record s n true).2) l wt_quic_ack_state_init.

Lemma ack_run_inv l : Forall (fun n => 0 <= n <= WT_QUIC_PACKET_NUMBER_MAX) l -> ack_inv (ack_run l).
Proof.
  unfold ack_run. assert (H0 : ack_inv wt_quic_ack_state_init).
  { split_and!; cbn; [done|unfold WT_QUIC_RECEIVED_RANGES_MAX; lia|done|done|unfold is_u64; lia]. }
  revert H0. generalize wt_quic_ack_state_init. intros s Hs Hl. revert s Hs.
  induction Hl as [|n l Hn _ IH]; intros s Hs; [done|]. apply IH. by apply ack_record_inv.
Qed.

(** C28. Recording a received packet number keeps the ranges sorted, disjoint and not
    adjacent, adds exactly that number to the recorded set, and forgets nothing but, when
    all the ranges are in use, the oldest one. *)
Theorem ack_record_set s n eliciting :
  ack_inv s -> 0 <= n <= WT_QUIC_PACKET_NUMBER_MAX ->
  let s' := (wt_quic_ack_record s n eliciting).2 in
  ack_inv s' /\ wt_quic_ack_contains s' n = true /\
  (forall m, wt_quic_ack_contains s' m = true -> m = n \/ wt_quic_ack_contains s m = true) /\
  (forall m, wt_quic_ack_contains s m = true -> wt_quic_ack_contains s' m = true \/
     lost_by (as_ranges s) m).
Proof.
  intros Hs Hn s'. destruct (ack_record_inv s n eliciting Hs Hn) as [Hinv Hset]. fold s' in Hinv, Hset.
  split_and!; [done|..].
  - apply contains_spec. destruct Hset as [H|[_ H]]; apply H; by left.
  - intros m. rewrite !contains_spec. intros Hm. destruct Hset as [H|[_ H]]; apply H in Hm; tauto.
  - intros m. rewrite !contains_spec. intros Hm.
    destruct Hset as [H|[_ H]]; [left; apply H; by right|].
    assert (Hdec : lost_by (as_ranges s) m \/ ~ lost_by (as_ranges s) m).
    { unfold lost_by, in_range. destruct (last (as_ranges s)) as [o|].
      - destruct (decide (length (as_ranges s) = WT_QUIC_RECEIVED_RANGES_MAX));
          [|right; by intros [? _]].
        destruct (decide (r_smallest o <= m <= r_largest o)); [left; eauto|].
        right. by intros (_ & o' & [= <-] & ?).
      - right. by intros (_ & ? & ? & _). }
    destruct Hdec as [?|Hnl]; [by right|]. left. apply H. by right.
Qed.

Lemma ack_record_set_witness :
  wt_quic_ack_contains (wt_quic_ack_record (ack_run [7]) 8 true).2 8 = true /\
  as_ranges (wt_quic_ack_record (ack_run [7]) 8 true).2 = [mk_range 7 8].
Proof.
  split; [|vm_compute; reflexivity].
  refine (proj1 (proj2 (ack_record_set (ack_run [7]) 8 true _ _))).
  - apply ack_run_inv. repeat constructor; unfold WT_QUIC_PACKET_NUMBER_MAX; lia.
  - unfold WT_QUIC_PACKET_NUMBER_MAX. lia.
Defined.

(** C29. The ACK frame built from the record of received packets is encodable, and reading
    its first range and its gap and length pairs as RFC 9000 section 19.3.1 defines them
    gives back exactly the recorded ranges. *)
Theorem ack_build_describes_received s delay block f :
  ack_inv s -> varint_ok delay -> zlen block < 2 ^ 64 ->
  wt_quic_ack_build s delay block = Ok f ->
  frame_ok f /\
  exists a rs, f = FRAME_ACK a /\ ack_ranges a = ranges_wire rs /\ ack_range_count a = zlen rs /\
    let first := mk_range (ack_largest a - ack_first_range a) (ack_largest a) in
    first :: rfc_ranges (r_smallest first) rs = as_ranges s.
Proof.
  intros Hs Hd Hblock Hbuild.
  destruct (as_ranges s) as [|first rest] eqn:Hr; [unfold wt_quic_ack_build in Hbuild; by rewrite Hr in Hbuild|].
  rewrite (ack_build_result s delay block first rest) in Hbuild by done. cbn zeta in Hbuild.
  destruct (Z.leb_spec (zlen (ranges_wire (gap_pairs (r_smallest first) rest))) (zlen block)) as [Hfit|]; [|done].
  injection Hbuild as <-. split; [by apply (ack_build_ok s delay block)|].
  eexists _, _. split_and!; [done|done|done|]. cbn.
  replace (r_largest first - (r_largest first - r_smallest first)) with (r_smallest first) by lia.
  rewrite rfc_gap_pairs. by destruct first.
Qed.

Lemma ack_build_describes_received_witness :
  match wt_quic_ack_build (ack_run [1; 2; 5; 7; 6]) 25 (replicate 64 0) with
  | Ok f => frame_ok f /\ f = FRAME_ACK (mk_ack 7 25 2 [1; 1] 1 None)
  | Fail _ _ => False
  end.
Proof.
  split; [|vm_compute; reflexivity].
  refine (proj1 (ack_build_describes_received (ack_run [1; 2; 5; 7; 6]) 25 (replicate 64 0) _ _ _ _ eq_refl)).
  - apply ack_run_inv. repeat constructor; unfold WT_QUIC_PACKET_NUMBER_MAX; lia.
  - unfold varint_ok, WT_QUIC_VARINT_MAX. lia.
  - vm_compute. reflexivity.
Defined.

(** ** The estimator and the counter *)

(** Samples a clock can produce: no product of the file wraps. *)
Definition rtt_inv (r : wt_quic_rtt) : Prop :=
  0 <= rtt_smoothed r < 2 ^ 60 /\ 0 <= rtt_rttvar r < 2 ^ 60 /\ 0 <= rtt_min r < 2 ^ 60.

(** A round trip sample updates the estimator by the RFC 9002 section 5.3 weighted means, with an acknowledgement delay that is ignored before confirmation, never takes the adjusted sample below the minimum, and never raises it above the sample; the invariant of the estimator is kept. *)
Lemma rtt_update_bounds r latest ack_delay max_ack_delay confirmed :
  rtt_inv r -> 0 <= latest < 2 ^ 60 -> 0 <= ack_delay < 2 ^ 60 -> 0 <= max_ack_delay < 2 ^ 60 ->
  let r' := (wt_quic_rtt_update r latest ack_delay max_ack_delay confirmed).2 in
  exists adjusted,
    (confirmed = false -> adjusted = latest) /\
    Z.min latest (rtt_min r') <= adjusted <= latest /\
    rtt_min r' = (if rtt_has_sample r then Z.min (rtt_min r) latest else latest) /\
    rtt_latest r' = latest /\ rtt_has_sample r' = true /\
    (if rtt_has_sample r
     then rtt_smoothed r' = (7 * rtt_smoothed r + adjusted) / 8 /\
          rtt_rttvar r' = (3 * rtt_rttvar r + Z.abs (rtt_smoothed r - adjusted)) / 4
     else rtt_smoothed r' = adjusted /\ rtt_rttvar r' = adjusted / 2) /\
    rtt_inv r'.
Proof.
  intros (Hs & Hv & Hm) Hl Ha Hmax. unfold wt_quic_rtt_update. cbn zeta.
  set (min_rtt := if negb (rtt_has_sample r) || (latest <? rtt_min r) then latest else rtt_min r).
  assert (Hmin : min_rtt = if rtt_has_sample r then Z.min (rtt_min r) latest else latest).
  { unfold min_rtt. destruct (rtt_has_sample r); cbn [negb orb]; [|done].
    destruct (Z.ltb_spec latest (rtt_min r)); lia. }
  assert (Hm' : 0 <= min_rtt <= latest) by (destruct (rtt_has_sample r); lia).
  set (adj := if confirmed && _ then _ else latest).
  assert (Hadj : (confirmed = false -> adj = latest) /\ Z.min latest min_rtt <= adj <= latest).
  { unfold adj. destruct confirmed; cbn [andb]; [|split; [done|lia]]. split; [done|].
    rewrite (u64_small (min_rtt + ack_delay)) by (unfold is_u64; lia).
    destruct (Z.leb_spec (min_rtt + ack_delay) latest); [|lia].
    destruct (Z.ltb_spec max_ack_delay ack_delay);
      match goal with |- context [?c <? latest] => destruct (Z.ltb_spec c latest) end; no_wrap; lia. }
  destruct Hadj as [Hadj1 Hadj2]. clearbody adj. exists adj.
  destruct (rtt_has_sample r); cbn [negb snd rtt_min rtt_latest rtt_has_sample rtt_smoothed rtt_rttvar];
    (split; [done|]); (split; [done|]); (split; [done|]); (split; [done|]); (split; [done|]); split.
  - split; [by no_wrap|]. destruct (Z.ltb_spec adj (rtt_smoothed r)); no_wrap; do 2 f_equal; lia.
  - unfold rtt_inv; cbn. destruct (Z.ltb_spec adj (rtt_smoothed r)); no_wrap; zdm.
  - done.
  - unfold rtt_inv; cbn. zdm.
Qed.

Lemma rtt_update_bounds_witness :
  let r' := (wt_quic_rtt_update (mk_rtt 100 100 50 100 true) 180 20 25 true).2 in
  (exists adjusted, (true = false -> adjusted = 180) /\ rtt_smoothed r' = (7 * 100 + adjusted) / 8) /\
  rtt_smoothed r' = 107.
Proof.
  split; [|vm_compute; reflexivity].
  destruct (rtt_update_bounds (mk_rtt 100 100 50 100 true) 180 20 25 true) as (adj & H1 & _ & _ & _ & _ & [H2 _] & _);
    [unfold rtt_inv; cbn; lia|lia|lia|lia|].
  exists adj. split; [exact H1|exact H2].
Defined.

(** The numbers handed out by successive calls. *)
Fixpoint space_take (k : nat) (s : wt_quic_pn_space) : list (outcome Z) * wt_quic_pn_space :=
  match k with
  | O => ([], s)
  | S k => let '(o, s1) := wt_quic_pn_space_next s in
           let '(l, s2) := space_take k s1 in (o :: l, s2)
  end.

Lemma space_take_spec k s :
  sp_has_sent s = negb (sp_next_send s =? 0) -> 0 <= sp_next_send s ->
  sp_next_send s + Z.of_nat k <= WT_QUIC_PACKET_NUMBER_MAX + 1 ->
  (space_take k s).1 = (fun i => Ok (sp_next_send s + Z.of_nat i)) <$> seq 0 k.
Proof.
  revert s. unfold WT_QUIC_PACKET_NUMBER_MAX.
  induction k as [|k IH]; intros s Hs H0 Hk; [done|]. cbn [space_take].
  unfold wt_quic_pn_space_next, WT_QUIC_PACKET_NUMBER_MAX.
  assert (Hgo : sp_has_sent s && (2 ^ 62 - 1 <? sp_next_send s) = false)
    by (apply andb_false_intro2, Z.ltb_ge; lia).
  rewrite Hgo. set (s1 := mk_space _ _ _ _ _ _).
  assert (Hn : sp_next_send s1 = sp_next_send s + 1) by (cbn; by no_wrap).
  destruct (space_take k s1) as [l s2] eqn:E. cbn [fst].
  pose proof (IH s1) as IH1. rewrite E, Hn in IH1. cbn [fst] in IH1. rewrite IH1.
  - cbn [seq fmap list_fmap]. rewrite Z.add_0_r. f_equal. rewrite <- fmap_S_seq, <- list_fmap_compose.
    apply list_fmap_ext. intros i x _. cbn. f_equal. lia.
  - change (true = negb (sp_next_send s + 1 =? 0)). symmetry. apply negb_true_iff, Z.eqb_neq. lia.
  - lia.
  - lia.
Qed.

(** The packet numbers handed out by a fresh packet number space are 0, 1, 2, ... without repetition, and once the largest number of RFC 9000 section 12.3 is used the next request is refused with OVERFLOW. *)
Lemma packet_numbers_never_reused k :
  Z.of_nat k <= WT_QUIC_PACKET_NUMBER_MAX + 1 ->
  (space_take k wt_quic_pn_space_init).1 = (fun i => Ok (Z.of_nat i)) <$> seq 0 k /\
  NoDup (space_take k wt_quic_pn_space_init).1 /\
  (wt_quic_pn_space_next (mk_space (WT_QUIC_PACKET_NUMBER_MAX + 1) false 0 true
     wt_quic_ack_state_init wt_quic_rtt_init)).1 = Fail WT_ERR_OVERFLOW None.
Proof.
  intros Hk. assert (H : (space_take k wt_quic_pn_space_init).1 = (fun i => Ok (Z.of_nat i)) <$> seq 0 k).
  { rewrite space_take_spec by (done || cbn; lia). apply list_fmap_ext. intros. cbn. done. }
  split_and!; [done| |reflexivity]. rewrite H. apply NoDup_fmap_2; [|apply NoDup_seq].
  intros x y [= E]. lia.
Qed.

Lemma packet_numbers_never_reused_witness :
  NoDup (space_take 3 wt_quic_pn_space_init).1 /\
  (space_take 3 wt_quic_pn_space_init).1 = [Ok 0; Ok 1; Ok 2].
Proof.
  split; [|vm_compute; reflexivity].
  refine (proj1 (proj2 (packet_numbers_never_reused 3 _))). unfold WT_QUIC_PACKET_NUMBER_MAX. lia.
Defined.
