(* ===== verification/Loss.v ===== *)
(** * Loss detection and probe timeouts: [src/quic/loss.c]

    The list of packets in flight, its two running totals, the two loss
    thresholds of RFC 9002 section 6.1 and the probe timeout.  The caller's
    [visit] is a function on a context: it is told of each lost packet, and is
    taken not to touch the loss state itself. *)

From S2P Require Export PnSpace.

Definition WT_QUIC_SENT_PACKETS_MAX : nat := 64.
Definition WT_QUIC_PACKET_THRESHOLD : Z := 3.
Definition WT_QUIC_TIME_THRESHOLD_NUMERATOR : Z := 9.
Definition WT_QUIC_TIME_THRESHOLD_DENOMINATOR : Z := 8.
Definition WT_QUIC_PTO_MAX_BACKOFF : Z := 16.

Record wt_quic_sent_packet := mk_sent {
  pk_space : Z;
  pk_number : Z;
  pk_time_sent : Z;
  pk_size : Z;
  pk_tag : Z;
  pk_ack_eliciting : bool;
  pk_in_flight : bool }.

Record wt_quic_loss := mk_loss {
  ls_sent : list wt_quic_sent_packet;   (** [sent[0 .. count)] *)
  ls_bytes_in_flight : Z;
  ls_ack_eliciting : Z;
  ls_pto_count : Z;
  ls_loss_time : Z }.

Definition wt_quic_loss_init : wt_quic_loss := mk_loss [] 0 0 0 0.

Definition is_packet (space number : Z) (p : wt_quic_sent_packet) : bool :=
  (pk_space p =? space) && (pk_number p =? number).

(** [None] is the source's [loss->count]. *)
Definition find_packet (l : wt_quic_loss) (space number : Z) : option nat :=
  first_index (is_packet space number) (ls_sent l).

Definition wt_quic_loss_on_sent (l : wt_quic_loss) (p : wt_quic_sent_packet)
    : wt_status * wt_quic_loss :=
  match find_packet l (pk_space p) (pk_number p) with
  | Some _ => (WT_ERR_INVALID_ARGUMENT, l)
  | None =>
      if Nat.eqb (length (ls_sent l)) WT_QUIC_SENT_PACKETS_MAX then (WT_ERR_LIMIT, l)
      else (WT_OK, mk_loss (ls_sent l ++ [p])
        (if pk_in_flight p then u64 (ls_bytes_in_flight l + pk_size p) else ls_bytes_in_flight l)
        (if pk_ack_eliciting p then u64 (ls_ack_eliciting l + 1) else ls_ack_eliciting l)
        (ls_pto_count l) (ls_loss_time l))
  end.

Definition remove_packet (l : wt_quic_loss) (at' : nat) : wt_quic_loss :=
  match ls_sent l !! at' with
  | None => l   (* callers pass an index below the count *)
  | Some p =>
      let bytes :=
        if pk_in_flight p then
          u64 (ls_bytes_in_flight l -
               (if pk_size p <=? ls_bytes_in_flight l then pk_size p else ls_bytes_in_flight l))
        else ls_bytes_in_flight l in
      let eliciting :=
        if pk_ack_eliciting p && (0 <? ls_ack_eliciting l) then u64 (ls_ack_eliciting l - 1)
        else ls_ack_eliciting l in
      mk_loss (delete at' (ls_sent l)) bytes eliciting (ls_pto_count l) (ls_loss_time l)
  end.

Definition set_pto_count (l : wt_quic_loss) (n : Z) : wt_quic_loss :=
  mk_loss (ls_sent l) (ls_bytes_in_flight l) (ls_ack_eliciting l) n (ls_loss_time l).
Definition set_loss_time (l : wt_quic_loss) (t : Z) : wt_quic_loss :=
  mk_loss (ls_sent l) (ls_bytes_in_flight l) (ls_ack_eliciting l) (ls_pto_count l) t.

(** The second component is [*out_newly_acked]. *)
Definition wt_quic_loss_on_ack (l : wt_quic_loss) (space number : Z)
    : wt_status * bool * wt_quic_loss :=
  match find_packet l space number with
  | None => (WT_OK, false, l)
  | Some at' =>
      let was_ack_eliciting := match ls_sent l !! at' with Some p => pk_ack_eliciting p | None => false end in
      let l1 := remove_packet l at' in
      (WT_OK, true, if was_ack_eliciting then set_pto_count l1 0 else l1)
  end.

Definition loss_delay (rtt : option wt_quic_rtt) : Z :=
  match rtt with
  | None => 0
  | Some r =>
      if negb (rtt_has_sample r) then 0
      else
        let base := if rtt_latest r <? rtt_smoothed r then rtt_smoothed r else rtt_latest r in
        u64 (base * WT_QUIC_TIME_THRESHOLD_NUMERATOR) / WT_QUIC_TIME_THRESHOLD_DENOMINATOR
  end.

(** [earliest == 0 || when < earliest], the minimum with 0 for "none". *)
Definition earlier (earliest when : Z) : Z :=
  if (earliest =? 0) || (when <? earliest) then when else earliest.

Definition wt_quic_loss_time (l : wt_quic_loss) (space : Z) (rtt : option wt_quic_rtt)
    (largest_acked : Z) : Z :=
  let delay := loss_delay rtt in
  if delay =? 0 then 0
  else fold_left (fun earliest p =>
    if negb (pk_space p =? space) then earliest
    else if largest_acked <? pk_number p then earliest
    else if u64 (pk_number p + WT_QUIC_PACKET_THRESHOLD) <=? largest_acked then earliest
    else earlier earliest (u64 (pk_time_sent p + delay))) (ls_sent l) 0.

Definition packet_lost (space delay lost_send_time largest_acked : Z) (p : wt_quic_sent_packet) : bool :=
  if (pk_space p =? space) && (pk_number p <=? largest_acked) then
    if u64 (pk_number p + WT_QUIC_PACKET_THRESHOLD) <=? largest_acked then true
    else negb (delay =? 0) && (pk_time_sent p <=? lost_send_time)
  else false.

Section Visit.
Context {Ctx : Type} (visit : option (Ctx -> wt_quic_sent_packet -> Ctx)).

Definition visited (ctx : Ctx) (p : wt_quic_sent_packet) : Ctx :=
  match visit with None => ctx | Some v => v ctx p end.

(** The walk of [wt_quic_loss_detect] and [wt_quic_loss_discard_space]: the index
    stays where it is when a packet is removed.  [fuel] is the number of packets
    not yet looked at; the second component counts the removed ones. *)
Fixpoint remove_loop (gone : wt_quic_sent_packet -> bool) (fuel : nat) (i : nat)
    (l : wt_quic_loss) (n : Z) (ctx : Ctx) : wt_quic_loss * Z * Ctx :=
  match fuel with
  | O => (l, n, ctx)
  | S fuel =>
      match ls_sent l !! i with
      | None => (l, n, ctx)
      | Some p =>
          if negb (gone p) then remove_loop gone fuel (S i) l n ctx
          else remove_loop gone fuel i (remove_packet l i) (n + 1) (visited ctx p)
      end
  end.

Definition wt_quic_loss_detect (l : wt_quic_loss) (space : Z) (rtt : option wt_quic_rtt)
    (now largest_acked : Z) (ctx : Ctx) : wt_status * wt_quic_loss * Ctx :=
  let delay := loss_delay rtt in
  let lost_send_time := if delay <? now then u64 (now - delay) else 0 in
  let '(l1, _, ctx1) := remove_loop (packet_lost space delay lost_send_time largest_acked)
                          (length (ls_sent l)) 0 l 0 ctx in
  (WT_OK, set_loss_time l1 (wt_quic_loss_time l1 space rtt largest_acked), ctx1).

Definition wt_quic_loss_discard_space (l : wt_quic_loss) (space : Z) (ctx : Ctx)
    : Z * wt_quic_loss * Ctx :=
  let '(l1, discarded, ctx1) := remove_loop (fun p => pk_space p =? space)
                                  (length (ls_sent l)) 0 l 0 ctx in
  (discarded, if 0 <? discarded then set_loss_time l1 0 else l1, ctx1).
End Visit.

(** [for (i = 0; i < pto_count && i < MAX_BACKOFF; i++) base_pto *= 2]. *)
Fixpoint backoff (n : nat) (base : Z) : Z :=
  match n with O => base | S n => backoff n (u64 (base * 2)) end.

Definition wt_quic_loss_pto (l : wt_quic_loss) (space : Z) (rtt : wt_quic_rtt) (max_ack_delay : Z)
    : outcome Z :=
  if ls_ack_eliciting l =? 0 then Fail WT_ERR_STATE None
  else match wt_quic_rtt_pto rtt max_ack_delay with
  | Fail s e => Fail s e
  | Ok base =>
      let pto := backoff (Z.to_nat (Z.min (ls_pto_count l) WT_QUIC_PTO_MAX_BACKOFF)) base in
      let earliest := fold_left (fun earliest p =>
        if negb (pk_space p =? space) then earliest
        else if negb (pk_ack_eliciting p) then earliest
        else earlier earliest (u64 (pk_time_sent p + pto))) (ls_sent l) 0 in
      if earliest =? 0 then Fail WT_ERR_STATE None else Ok earliest
  end.

Definition wt_quic_loss_on_pto (l : wt_quic_loss) : wt_quic_loss :=
  if ls_pto_count l <? WT_QUIC_PTO_MAX_BACKOFF then set_pto_count l (u64 (ls_pto_count l + 1)) else l.

Definition wt_quic_loss_bytes_in_flight (l : wt_quic_loss) : Z := ls_bytes_in_flight l.
Definition wt_quic_loss_ack_eliciting_in_flight (l : wt_quic_loss) : Z := ls_ack_eliciting l.
Definition wt_quic_loss_count (l : wt_quic_loss) : Z := zlen (ls_sent l).

(** ** The accounts *)

Definition flight_bytes (p : wt_quic_sent_packet) : Z := if pk_in_flight p then pk_size p else 0.
Definition flight_eliciting (p : wt_quic_sent_packet) : Z := if pk_ack_eliciting p then 1 else 0.

Definition packet_ok (p : wt_quic_sent_packet) : Prop := 0 <= pk_size p < 2 ^ 32.

Record loss_inv (l : wt_quic_loss) : Prop := {
  li_len : (length (ls_sent l) <= WT_QUIC_SENT_PACKETS_MAX)%nat;
  li_sizes : Forall packet_ok (ls_sent l);
  li_bytes : ls_bytes_in_flight l = zsum flight_bytes (ls_sent l);
  li_eliciting : ls_ack_eliciting l = zsum flight_eliciting (ls_sent l);
  li_unique : NoDup ((fun p => (pk_space p, pk_number p)) <$> ls_sent l);
  li_pto : 0 <= ls_pto_count l <= WT_QUIC_PTO_MAX_BACKOFF }.

Lemma zsum_delete {A} (f : A -> Z) l i x : l !! i = Some x -> zsum f (delete i l) = zsum f l - f x.
Proof.
  revert i. induction l as [|y l IH]; intros [|i] Hi; cbn in Hi; simplify_eq.
  - change (delete 0%nat (x :: l)) with l. rewrite zsum_cons. lia.
  - change (delete (S i) (y :: l)) with (y :: delete i l). rewrite !zsum_cons, (IH _ Hi). lia.
Qed.

Lemma flight_bytes_bound l :
  Forall packet_ok l -> 0 <= zsum flight_bytes l <= zlen l * 2 ^ 32 /\
  forall i p, l !! i = Some p -> flight_bytes p <= zsum flight_bytes l.
Proof.
  induction 1 as [|p l Hp _ [IH1 IH2]]; [split; [done|intros [] ?; done]|].
  rewrite zsum_cons, zlen_cons. unfold packet_ok, flight_bytes in *. split.
  - case_match; lia.
  - intros [|i] q Hq; cbn in Hq; simplify_eq; [case_match; lia|].
    specialize (IH2 _ _ Hq). repeat case_match; lia.
Qed.

Lemma flight_eliciting_bound l :
  0 <= zsum flight_eliciting l <= zlen l /\
  forall i p, l !! i = Some p -> flight_eliciting p <= zsum flight_eliciting l.
Proof.
  induction l as [|p l [IH1 IH2]]; [split; [done|intros [] ?; done]|].
  rewrite zsum_cons, zlen_cons. unfold flight_eliciting in *. split.
  - case_match; lia.
  - intros [|i] q Hq; cbn in Hq; simplify_eq; [case_match; lia|].
    specialize (IH2 _ _ Hq). repeat case_match; lia.
Qed.

Lemma remove_packet_inv l i p :
  loss_inv l -> ls_sent l !! i = Some p ->
  loss_inv (remove_packet l i) /\ ls_sent (remove_packet l i) = delete i (ls_sent l).
Proof.
  intros [] Hp. unfold remove_packet. rewrite Hp. split; [|done].
  destruct (flight_bytes_bound _ li_sizes0) as [Hb1 Hb2]. specialize (Hb2 _ _ Hp).
  destruct (flight_eliciting_bound (ls_sent l)) as [He1 He2]. specialize (He2 _ _ Hp).
  assert (Hok : packet_ok p) by (by eapply Forall_lookup_1).
  unfold packet_ok, WT_QUIC_SENT_PACKETS_MAX in *. unfold zlen in *.
  constructor; cbn [ls_sent ls_bytes_in_flight ls_ack_eliciting ls_pto_count].
  - rewrite length_delete by (by eexists). unfold WT_QUIC_SENT_PACKETS_MAX. lia.
  - by apply Forall_delete.
  - rewrite (zsum_delete _ _ _ _ Hp), li_bytes0. unfold flight_bytes in *.
    destruct (pk_in_flight p); [|lia]. ztest. by no_wrap.
  - rewrite (zsum_delete _ _ _ _ Hp), li_eliciting0. unfold flight_eliciting in *.
    destruct (pk_ack_eliciting p); cbn [andb]; [|lia]. ztest. by no_wrap.
  - rewrite list_fmap_delete. eapply sublist_NoDup; [done|apply sublist_delete].
  - done.
Qed.

Lemma set_pto_inv l n : loss_inv l -> 0 <= n <= WT_QUIC_PTO_MAX_BACKOFF -> loss_inv (set_pto_count l n).
Proof. intros [] ?. by constructor. Qed.
Lemma set_loss_time_inv l t : loss_inv l -> loss_inv (set_loss_time l t).
Proof. intros []. by constructor. Qed.
Lemma loss_init_inv : loss_inv wt_quic_loss_init.
Proof.
  unfold WT_QUIC_SENT_PACKETS_MAX, WT_QUIC_PTO_MAX_BACKOFF.
  constructor; cbn; unfold WT_QUIC_SENT_PACKETS_MAX, WT_QUIC_PTO_MAX_BACKOFF; try done; try lia;
    constructor.
Qed.

#[export] Hint Resolve set_pto_inv set_loss_time_inv loss_init_inv : wt.

(** What the search finds: the one packet with that number, or none. *)
Lemma find_packet_Some l space number i :
  find_packet l space number = Some i ->
  exists p, ls_sent l !! i = Some p /\ pk_space p = space /\ pk_number p = number.
Proof.
  intros H. apply first_index_Some in H as [[p [Hp Hb]] _]. exists p.
  unfold is_packet in Hb. reflect_bools. auto.
Qed.

Lemma find_packet_None l space number :
  find_packet l space number = None <->
  (space, number) ∉ (fun p => (pk_space p, pk_number p)) <$> ls_sent l.
Proof.
  unfold find_packet. rewrite first_index_None, Forall_forall, list_elem_of_fmap. unfold is_packet. split.
  - intros H (p & Hp & Hin). injection Hp as -> ->. specialize (H p Hin).
    by rewrite !Z.eqb_refl in H.
  - intros H p Hin. destruct (Z.eqb_spec (pk_space p) space) as [<-|]; [|done].
    destruct (Z.eqb_spec (pk_number p) number) as [<-|]; [|done]. destruct H. by exists p.
Qed.

Lemma loss_on_sent_inv l p :
  loss_inv l -> packet_ok p -> loss_inv (wt_quic_loss_on_sent l p).2.
Proof.
  intros Hl Hp. unfold wt_quic_loss_on_sent.
  destruct (find_packet l _ _) eqn:Ef; [done|]. apply find_packet_None in Ef.
  destruct (Nat.eqb_spec (length (ls_sent l)) WT_QUIC_SENT_PACKETS_MAX) as [|Hlen]; [done|].
  pose proof (flight_bytes_bound _ (li_sizes l Hl)) as [Hb _].
  destruct (flight_eliciting_bound (ls_sent l)) as [He _].
  pose proof (li_len l Hl) as Hmax. unfold packet_ok, zlen, WT_QUIC_SENT_PACKETS_MAX in *.
  destruct Hl. constructor; cbn [snd ls_sent ls_bytes_in_flight ls_ack_eliciting ls_pto_count].
  - rewrite length_app. cbn. unfold WT_QUIC_SENT_PACKETS_MAX. lia.
  - apply Forall_app. split; [done|]. by apply Forall_singleton.
  - rewrite zsum_app, zsum_cons, zsum_nil, li_bytes0, (eq_refl : flight_bytes p = if pk_in_flight p then pk_size p else 0).
    destruct (pk_in_flight p); [|lia]. no_wrap. lia.
  - rewrite zsum_app, zsum_cons, zsum_nil, li_eliciting0,
      (eq_refl : flight_eliciting p = if pk_ack_eliciting p then 1 else 0).
    destruct (pk_ack_eliciting p); [|lia]. no_wrap. lia.
  - rewrite fmap_app. apply NoDup_app. split_and!; [done| |apply NoDup_singleton].
    intros x Hx Hin. apply list_elem_of_singleton in Hin as ->. done.
  - done.
Qed.

Lemma loss_on_ack_inv l space number : loss_inv l -> loss_inv (wt_quic_loss_on_ack l space number).2.
Proof.
  intros Hl. unfold wt_quic_loss_on_ack. destruct (find_packet l space number) as [i|] eqn:Ef; [|done].
  apply find_packet_Some in Ef as (p & Hp & _). rewrite Hp. cbn [snd].
  destruct (remove_packet_inv l i p Hl Hp) as [Hr _].
  destruct (pk_ack_eliciting p); [|done]. apply set_pto_inv; [done|].
  unfold WT_QUIC_PTO_MAX_BACKOFF. lia.
Qed.

Lemma loss_on_pto_inv l : loss_inv l -> loss_inv (wt_quic_loss_on_pto l).
Proof.
  intros Hl. unfold wt_quic_loss_on_pto. destruct (Z.ltb_spec (ls_pto_count l) WT_QUIC_PTO_MAX_BACKOFF); [|done].
  pose proof (li_pto l Hl). unfold WT_QUIC_PTO_MAX_BACKOFF in *. no_wrap. apply set_pto_inv; [done|].
  unfold WT_QUIC_PTO_MAX_BACKOFF. lia.
Qed.

(** ** The removing walk is a filter *)

Section Walk.
Context {Ctx : Type} (visit : option (Ctx -> wt_quic_sent_packet -> Ctx)).
Context (gone : wt_quic_sent_packet -> bool).

(** The walk from index [i]: everything [gone] goes, in the order it was sent, and
    the visitor is told of exactly those. *)
Lemma remove_loop_spec fuel i l n ctx :
  loss_inv l -> (length (ls_sent l) <= i + fuel)%nat ->
  let rest := drop i (ls_sent l) in
  let '(l', n', ctx') := remove_loop visit gone fuel i l n ctx in
  loss_inv l' /\
  ls_sent l' = take i (ls_sent l) ++ List.filter (fun p => negb (gone p)) rest /\
  n' = n + zlen (List.filter gone rest) /\
  ctx' = fold_left (visited visit) (List.filter gone rest) ctx /\
  ls_pto_count l' = ls_pto_count l /\ ls_loss_time l' = ls_loss_time l.
Proof.
  revert i l n ctx. induction fuel as [|fuel IH]; intros i l n ctx Hl Hf; cbn [remove_loop].
  { rewrite drop_ge, take_ge by lia. cbn. rewrite app_nil_r, Z.add_0_r. by split_and!. }
  destruct (ls_sent l !! i) as [p|] eqn:Hp.
  2: { apply lookup_ge_None in Hp. rewrite drop_ge, take_ge by lia. cbn.
       rewrite app_nil_r, Z.add_0_r. by split_and!. }
  rewrite (drop_S _ _ _ Hp). cbn [List.filter]. destruct (gone p) eqn:Hg; cbn [negb].
  - destruct (remove_packet_inv l i p Hl Hp) as [Hr Hd].
    pose proof (lookup_lt_Some _ _ _ Hp) as Hlt.
    assert (Hfields : ls_pto_count (remove_packet l i) = ls_pto_count l /\
                      ls_loss_time (remove_packet l i) = ls_loss_time l)
      by (unfold remove_packet; by rewrite Hp).
    specialize (IH i (remove_packet l i) (n + 1) (visited visit ctx p) Hr).
    rewrite Hd, delete_take_drop in IH.
    assert (Hti : length (take i (ls_sent l)) = i) by (rewrite length_take; lia).
    rewrite length_app, length_take, length_drop in IH. specialize (IH ltac:(lia)).
    rewrite drop_app_length', take_app_length' in IH by done.
    destruct (remove_loop visit gone fuel i _ _ _) as [[l' n'] ctx'].
    destruct IH as (? & ? & -> & -> & ? & ?). destruct Hfields.
    cbn [fold_left]. rewrite zlen_cons. split_and!; try done; try congruence; lia.
  - specialize (IH (S i) l n ctx Hl ltac:(lia)).
    destruct (remove_loop visit gone fuel (S i) l n ctx) as [[l' n'] ctx'].
    destruct IH as (? & Hs & ? & ? & ? & ?). split_and!; try done.
    rewrite Hs, (take_S_r _ _ _ Hp), <- app_assoc. done.
Qed.

Lemma remove_loop_whole l ctx :
  loss_inv l ->
  let '(l', n', ctx') := remove_loop visit gone (length (ls_sent l)) 0 l 0 ctx in
  loss_inv l' /\
  ls_sent l' = List.filter (fun p => negb (gone p)) (ls_sent l) /\
  n' = zlen (List.filter gone (ls_sent l)) /\
  ctx' = fold_left (visited visit) (List.filter gone (ls_sent l)) ctx /\
  ls_pto_count l' = ls_pto_count l.
Proof.
  intros Hl. pose proof (remove_loop_spec (length (ls_sent l)) 0 l 0 ctx Hl ltac:(lia)) as H.
  rewrite drop_0 in H. destruct (remove_loop _ _ _ _ _ _ _) as [[l' n'] ctx'].
  destruct H as (? & ? & ? & ? & ? & ?). by split_and!.
Qed.
End Walk.

(** ** The earliest deadline *)

(** The running minimum over the selected packets, with 0 for "none yet". *)
Definition earliest_of (sel : wt_quic_sent_packet -> bool) (when : wt_quic_sent_packet -> Z)
    (l : list wt_quic_sent_packet) (e : Z) : Z :=
  fold_left (fun e p => if sel p then earlier e (when p) else e) l e.

Lemma earliest_of_spec sel when l e :
  0 <= e -> Forall (fun p => sel p = true -> 0 < when p) l ->
  let r := earliest_of sel when l e in
  0 <= r /\
  (r = 0 <-> e = 0 /\ Forall (fun p => sel p = false) l) /\
  (forall p, p ∈ l -> sel p = true -> r <= when p) /\
  (e <> 0 -> r <= e) /\
  (r = e \/ exists p, p ∈ l /\ sel p = true /\ when p = r).
Proof.
  revert e. induction l as [|p l IH]; intros e He Hw.
  { cbn. split_and!; try done; [by split; [split|intros []]|intros p Hp; by apply elem_of_nil in Hp|by left]. }
  apply Forall_cons in Hw as [Hp Hw]. cbn [earliest_of fold_left] in *.
  set (e1 := if sel p then earlier e (when p) else e).
  assert (He1 : 0 <= e1 /\ (e1 = 0 <-> e = 0 /\ sel p = false) /\ (sel p = true -> e1 <= when p) /\
                (e <> 0 -> e1 <= e) /\ (e1 = e \/ sel p = true /\ when p = e1)).
  { unfold e1, earlier. destruct (sel p); [specialize (Hp eq_refl)|split_and!; auto; try lia; try tauto; done].
    destruct (Z.eqb_spec e 0); cbn [orb]; [|destruct (Z.ltb_spec (when p) e)];
      split_and!; auto; try lia; try done. }
  destruct He1 as (H1 & H2 & H3 & H4 & H5). specialize (IH e1 H1 Hw). cbn zeta in IH.
  unfold earliest_of in IH. set (r := fold_left _ l e1) in *. destruct IH as (I1 & I2 & I3 & I4 & I5).
  split_and!; [done| | | |].
  - rewrite I2, H2, Forall_cons. tauto.
  - intros q [->|Hq]%elem_of_cons Hs; [|by apply I3]. specialize (H3 Hs). specialize (Hp Hs).
    destruct (Z.eq_dec e1 0) as [E|E]; [apply H2 in E as [_ E]; congruence|]. specialize (I4 E). lia.
  - intros E. destruct (Z.eq_dec e1 0) as [E1|E1]; [apply H2 in E1; lia|]. specialize (I4 E1). lia.
  - destruct I5 as [I5|(q & Hq & Hs & Hwq)]; [|right; exists q; by split_and!; [apply list_elem_of_further|..]].
    destruct H5 as [H5|[H5 H6]]; [left; congruence|]. right. exists p. rewrite I5. by split_and!; [apply list_elem_of_here|..].
Qed.

(** ** Theorems *)

Inductive loss_event :=
  | EvSent (p : wt_quic_sent_packet)
  | EvAcked (space number : Z)
  | EvDetect (space : Z) (rtt : option wt_quic_rtt) (now largest_acked : Z)
  | EvPto
  | EvDiscard (space : Z).

(** The visitor here collects the packets it is told of. *)
Definition collect : option (list wt_quic_sent_packet -> wt_quic_sent_packet -> list wt_quic_sent_packet) :=
  Some (fun told p => told ++ [p]).

Definition loss_step (l : wt_quic_loss) (e : loss_event) : wt_quic_loss :=
  match e with
  | EvSent p => (wt_quic_loss_on_sent l p).2
  | EvAcked space number => (wt_quic_loss_on_ack l space number).2
  | EvDetect space rtt now la => (wt_quic_loss_detect collect l space rtt now la []).1.2
  | EvPto => wt_quic_loss_on_pto l
  | EvDiscard space => (wt_quic_loss_discard_space collect l space []).1.2
  end.

Definition loss_event_ok (e : loss_event) : Prop :=
  match e with EvSent p => packet_ok p | _ => True end.

Lemma loss_step_inv l e : loss_inv l -> loss_event_ok e -> loss_inv (loss_step l e).
Proof.
  intros Hl He. destruct e as [p|space number|space rtt now la| |space]; cbn.
  - by apply loss_on_sent_inv.
  - by apply loss_on_ack_inv.
  - unfold wt_quic_loss_detect.
    pose proof (remove_loop_whole collect (packet_lost space (loss_delay rtt)
      (if loss_delay rtt <? now then u64 (now - loss_delay rtt) else 0) la) l [] Hl) as H.
    destruct (remove_loop _ _ _ _ _ _ _) as [[l1 n] c]. destruct H as [H _]. cbn. auto with wt.
  - by apply loss_on_pto_inv.
  - unfold wt_quic_loss_discard_space.
    pose proof (remove_loop_whole collect (fun p => pk_space p =? space) l [] Hl) as H.
    destruct (remove_loop _ _ _ _ _ _ _) as [[l1 n] c]. destruct H as [H _]. cbn.
    destruct (0 <? n); auto with wt.
Qed.

(** C20. After any sequence of sends, acknowledgements, loss detections, discarded spaces
    and probe timeouts, the bytes in flight and the count of ack-eliciting packets are
    exactly the sums over the packets still outstanding, no packet is recorded twice, the
    table is within its bound, and the backoff counter within its maximum. *)
Theorem loss_accounts_balance events :
  Forall loss_event_ok events ->
  let l := fold_left loss_step events wt_quic_loss_init in
  wt_quic_loss_bytes_in_flight l = zsum flight_bytes (ls_sent l) /\
  wt_quic_loss_ack_eliciting_in_flight l = zsum flight_eliciting (ls_sent l) /\
  wt_quic_loss_count l <= Z.of_nat WT_QUIC_SENT_PACKETS_MAX /\
  NoDup ((fun p => (pk_space p, pk_number p)) <$> ls_sent l) /\
  0 <= ls_pto_count l <= WT_QUIC_PTO_MAX_BACKOFF /\
  (ls_sent l = [] -> wt_quic_loss_bytes_in_flight l = 0).
Proof.
  intros He l. assert (Hl : loss_inv l).
  { unfold l. clear l. generalize wt_quic_loss_init, loss_init_inv.
    induction He as [|e events He _ IH]; intros l Hl; [done|]. apply IH. by apply loss_step_inv. }
  destruct Hl. split_and!; try done; try lia.
  - unfold wt_quic_loss_count, zlen. lia.
  - intros E. unfold wt_quic_loss_bytes_in_flight. by rewrite li_bytes0, E.
Qed.

Definition sample_packet (n t : Z) : wt_quic_sent_packet := mk_sent 2 n t 1200 n true true.

Lemma loss_accounts_balance_witness :
  let l := fold_left loss_step
    [EvSent (sample_packet 0 10); EvSent (sample_packet 1 20); EvSent (sample_packet 2 30);
     EvSent (sample_packet 3 40); EvAcked 2 3; EvDetect 2 None 50 3] wt_quic_loss_init in
  wt_quic_loss_bytes_in_flight l = zsum flight_bytes (ls_sent l) /\
  wt_quic_loss_bytes_in_flight l = 2400.
Proof.
  split; [|vm_compute; reflexivity].
  refine (proj1 (loss_accounts_balance _ _)). repeat constructor; cbn; lia.
Defined.

(** The values a clock and a peer can produce: no sum of the file wraps. *)
Definition sent_plausible (p : wt_quic_sent_packet) : Prop :=
  0 < pk_time_sent p < 2 ^ 62 /\ 0 <= pk_number p < 2 ^ 62.
Definition rtt_plausible (rtt : option wt_quic_rtt) : Prop :=
  match rtt with
  | None => True
  | Some r => 0 <= rtt_smoothed r < 2 ^ 60 /\ 0 <= rtt_latest r < 2 ^ 60
  end.

(** RFC 9002 section 6.1, in unbounded arithmetic: the time threshold, and the
    packets either threshold declares lost. *)
Definition rfc_delay (rtt : option wt_quic_rtt) : Z :=
  match rtt with
  | Some r => if rtt_has_sample r then 9 * Z.max (rtt_smoothed r) (rtt_latest r) / 8 else 0
  | None => 0
  end.
Definition rfc_lost (space : Z) (rtt : option wt_quic_rtt) (now largest_acked : Z)
    (p : wt_quic_sent_packet) : bool :=
  (pk_space p =? space) && (pk_number p <=? largest_acked) &&
  ((pk_number p + 3 <=? largest_acked) ||
   ((0 <? rfc_delay rtt) && (pk_time_sent p + rfc_delay rtt <=? now))).

Lemma loss_delay_eq rtt :
  rtt_plausible rtt -> loss_delay rtt = rfc_delay rtt /\ 0 <= rfc_delay rtt < 2 ^ 62.
Proof.
  destruct rtt as [r|]; cbn; [|lia]. intros [Hs Hl].
  destruct (rtt_has_sample r); cbn [negb]; [|lia].
  unfold WT_QUIC_TIME_THRESHOLD_NUMERATOR, WT_QUIC_TIME_THRESHOLD_DENOMINATOR.
  assert (E : (if rtt_latest r <? rtt_smoothed r then rtt_smoothed r else rtt_latest r) =
              Z.max (rtt_smoothed r) (rtt_latest r))
    by (destruct (Z.ltb_spec (rtt_latest r) (rtt_smoothed r)); lia).
  rewrite E. no_wrap. split; [f_equal; lia|zdm].
Qed.

Lemma packet_lost_eq space rtt now la p :
  rtt_plausible rtt -> sent_plausible p -> 0 <= now < 2 ^ 62 ->
  packet_lost space (loss_delay rtt) (if loss_delay rtt <? now then u64 (now - loss_delay rtt) else 0)
    la p = rfc_lost space rtt now la p.
Proof.
  intros Hr [Ht Hn] Hnow. destruct (loss_delay_eq rtt Hr) as [-> Hd].
  unfold packet_lost, rfc_lost, WT_QUIC_PACKET_THRESHOLD. no_wrap.
  destruct ((pk_space p =? space) && (pk_number p <=? la)); cbn [andb]; [|done].
  destruct (pk_number p + 3 <=? la); cbn [orb]; [done|].
  destruct (Z.eqb_spec (rfc_delay rtt) 0); ztest; [done|].
  destruct (Z.ltb_spec (rfc_delay rtt) now); [no_wrap|];
    destruct (Z.leb_spec (pk_time_sent p + rfc_delay rtt) now); by ztest.
Qed.

Lemma filter_ext_Forall {A} (f g : A -> bool) l :
  Forall (fun x => f x = g x) l -> List.filter f l = List.filter g l.
Proof. induction 1 as [|x l Hx _ IH]; [done|]. cbn. by rewrite Hx, IH. Qed.

(** The packets the loss timer is armed for. *)
Definition timed (space largest_acked : Z) (p : wt_quic_sent_packet) : bool :=
  (pk_space p =? space) && (pk_number p <=? largest_acked) && negb (pk_number p + 3 <=? largest_acked).

Lemma loss_time_eq l space rtt la :
  rtt_plausible rtt -> Forall sent_plausible (ls_sent l) ->
  wt_quic_loss_time l space rtt la =
    if rfc_delay rtt =? 0 then 0
    else earliest_of (timed space la) (fun p => pk_time_sent p + rfc_delay rtt) (ls_sent l) 0.
Proof.
  intros Hr Hp. unfold wt_quic_loss_time. destruct (loss_delay_eq rtt Hr) as [-> Hd].
  destruct (rfc_delay rtt =? 0); [done|]. unfold earliest_of. generalize 0 as e.
  induction Hp as [|p l' [Ht Hn] _ IH]; intros e; [done|]. cbn [fold_left]. rewrite IH. f_equal.
  unfold timed, WT_QUIC_PACKET_THRESHOLD. no_wrap.
  destruct (pk_space p =? space); cbn [negb andb]; [|done].
  destruct (Z.ltb_spec la (pk_number p)); ztest; [done|].
  by destruct (pk_number p + 3 <=? la).
Qed.



Lemma backoff_spec n base : 0 <= base -> base * 2 ^ Z.of_nat n < 2 ^ 64 -> backoff n base = base * 2 ^ Z.of_nat n.
Proof.
  revert base. induction n as [|n IH]; intros base Hb Hlt; cbn [backoff]; [lia|].
  rewrite Nat2Z.inj_succ, Z.pow_succ_r in * by lia.
  pose proof (Z.pow_pos_nonneg 2 (Z.of_nat n) ltac:(lia) ltac:(lia)).
  rewrite u64_small by (unfold is_u64; nia). rewrite IH; nia.
Qed.

(** The packets a probe answers for, and the probe timeout of RFC 9002 section 6.2.1
    in unbounded arithmetic. *)
Definition probed (space : Z) (p : wt_quic_sent_packet) : bool :=
  (pk_space p =? space) && pk_ack_eliciting p.
Definition rfc_pto (rtt : wt_quic_rtt) (max_ack_delay pto_count : Z) : Z :=
  (rtt_smoothed rtt + Z.max (4 * rtt_rttvar rtt) WT_QUIC_TIMER_GRANULARITY + max_ack_delay) *
  2 ^ pto_count.

(** With a round trip sample, the probe timeout is the RFC 9002 timeout after the send time of the earliest ack-eliciting packet of the space, doubled for every timeout already taken; it is refused as a state error exactly when the space has no such packet. *)
Lemma loss_pto_deadline l space rtt max_ack_delay :
  loss_inv l -> Forall sent_plausible (ls_sent l) -> rtt_has_sample rtt = true ->
  0 <= rtt_smoothed rtt -> 0 <= rtt_rttvar rtt -> 0 <= max_ack_delay ->
  rfc_pto rtt max_ack_delay (ls_pto_count l) < 2 ^ 62 ->
  match wt_quic_loss_pto l space rtt max_ack_delay with
  | Ok deadline =>
      (exists p, p ∈ ls_sent l /\ probed space p = true /\
         deadline = pk_time_sent p + rfc_pto rtt max_ack_delay (ls_pto_count l)) /\
      forall p, p ∈ ls_sent l -> probed space p = true ->
         deadline <= pk_time_sent p + rfc_pto rtt max_ack_delay (ls_pto_count l)
  | Fail s _ => s = WT_ERR_STATE /\ forall p, p ∈ ls_sent l -> probed space p = false
  end.
Proof.
  intros Hl Hp Hsample Hsm Hvar Hmad Hpto. unfold wt_quic_loss_pto.
  pose proof (li_pto l Hl) as Hcount. pose proof (li_eliciting l Hl) as Hel.
  unfold WT_QUIC_PTO_MAX_BACKOFF, rfc_pto, WT_QUIC_TIMER_GRANULARITY in *.
  pose proof (Z.pow_pos_nonneg 2 (ls_pto_count l) ltac:(lia) ltac:(lia)) as Hpow.
  destruct (Z.eqb_spec (ls_ack_eliciting l) 0) as [E0|E0].
  { split; [done|]. intros p Hin. apply list_elem_of_lookup_1 in Hin as [i Hi].
    destruct (flight_eliciting_bound (ls_sent l)) as [_ Hb]. specialize (Hb i p Hi).
    unfold flight_eliciting, probed in *. destruct (pk_ack_eliciting p); [lia|apply andb_false_r]. }
  unfold wt_quic_rtt_pto, WT_QUIC_TIMER_GRANULARITY. rewrite Hsample. cbn [negb].
  set (base := rtt_smoothed rtt + Z.max (4 * rtt_rttvar rtt) 1000 + max_ack_delay) in *.
  assert (Hbase : 0 <= base < 2 ^ 62) by (subst base; split; [lia|nia]).
  assert (E : u64 (u64 (rtt_smoothed rtt + (if u64 (4 * rtt_rttvar rtt) <? 1000 then 1000
                else u64 (4 * rtt_rttvar rtt))) + max_ack_delay) = base).
  { subst base. rewrite (u64_small (4 * _)) by (unfold is_u64; lia).
    destruct (Z.ltb_spec (4 * rtt_rttvar rtt) 1000); no_wrap; lia. }
  rewrite E. rewrite Z.min_l by lia.
  rewrite backoff_spec; rewrite ?Z2Nat.id by lia; [|lia|lia].
  set (pto := base * 2 ^ ls_pto_count l) in *. assert (Hpto0 : 0 <= pto) by (subst pto; nia).
  set (step := fun (e : Z) (p : wt_quic_sent_packet) => _).
  assert (Efold : fold_left step (ls_sent l) 0 =
                  earliest_of (probed space) (fun p => pk_time_sent p + pto) (ls_sent l) 0).
  { unfold earliest_of. generalize 0 as e. clear -Hp Hpto Hpto0. induction Hp as [|p l' [Ht Hn] _ IH]; intros e; [done|].
    cbn [fold_left]. rewrite IH. f_equal. unfold step, probed. no_wrap.
    destruct (pk_space p =? space); cbn [negb andb]; [|done]. by destruct (pk_ack_eliciting p). }
  rewrite Efold.
  destruct (earliest_of_spec (probed space) (fun p => pk_time_sent p + pto) (ls_sent l) 0)
    as (H1 & H2 & H3 & _ & H5);
    [lia|eapply Forall_impl; [exact Hp|intros p [? ?] _; lia]|].
  set (r := earliest_of _ _ _ _) in *. destruct (Z.eqb_spec r 0) as [Er|Er].
  - split; [done|]. apply H2 in Er as [_ Er]. by apply Forall_forall.
  - split; [|exact H3]. destruct H5 as [?|(p & ? & ? & ?)]; [done|]. exists p. by split_and!.
Qed.

Lemma loss_pto_deadline_witness :
  let l := mk_loss [sample_packet 0 5000; sample_packet 1 2000] 2400 2 1 0 in
  let rtt := mk_rtt 100 80 10 80 true in
  rfc_pto rtt 25 1 < 2 ^ 62 /\ wt_quic_loss_pto l 2 rtt 25 = Ok (2000 + 2 * (80 + 1000 + 25)) /\ 
  (forall p, p ∈ ls_sent l -> probed 2 p = true -> 4210 <= pk_time_sent p + rfc_pto rtt 25 1).
Proof.
  split; [vm_compute; reflexivity|]. split; [vm_compute; reflexivity|].
  refine (proj2 (loss_pto_deadline (mk_loss [sample_packet 0 5000; sample_packet 1 2000] 2400 2 1 0)
    2 (mk_rtt 100 80 10 80 true) 25 _ _ eq_refl _ _ _ _)); cbn; try lia.
  - constructor; cbn; unfold WT_QUIC_SENT_PACKETS_MAX, WT_QUIC_PTO_MAX_BACKOFF; try lia; try done.
    + repeat constructor; cbn; lia.
    + by apply (bool_decide_unpack _).
  - repeat constructor; cbn; lia.
  - vm_compute. reflexivity.
Defined.
