(* ===== verification/AckProcessing.v ===== *)
(** * Reading the peer's ACK: [validate_ack] and [ack_covers] of [src/quic/connection_loss.c]

    The two walks over the range list of a received ACK frame.  Both read a range's
    second field as a packet count, where RFC 9000 section 19.3.1, and the library's
    own [wt_quic_ack_build], give the distance from the largest to the smallest
    packet.  The theorems say exactly what that does to a frame the library itself
    builds. *)

From S2P Require Export PnSpace.

(** ** The code *)

Definition read_range : parser (Z * Z) :=
  gap <- wt_quic_varint_decode;; len <- wt_quic_varint_decode;; pret (gap, len).

(** The loop of [validate_ack]; [i] is its index and [fuel] bounds the ranges that
    can still be read, each of which takes at least two bytes. *)
Fixpoint validate_loop (fuel : nat) (i count smallest : Z) (c : wt_cursor) : wt_status :=
  match fuel with
  | O => WT_ERR_PROTOCOL
  | S fuel =>
      if count <=? i then WT_OK
      else match read_range c with
      | (Fail _ _, _) => WT_ERR_PROTOCOL
      | (Ok (gap, length), c') =>
          if length =? 0 then WT_ERR_PROTOCOL
          else if smallest <? u64 (gap + 2) then WT_ERR_PROTOCOL
          else
            let largest := u64 (u64 (smallest - gap) - 2) in
            if largest <? u64 (length - 1) then WT_ERR_PROTOCOL
            else
              let smallest := u64 (largest - u64 (length - 1)) in
              if smallest =? 0 then WT_OK else validate_loop fuel (i + 1) count smallest c'
      end
  end.

Definition ranges_cursor (a : wt_quic_ack_fields) : wt_cursor :=
  wt_cursor_init (Some (ack_ranges a)) (zlen (ack_ranges a)).

Definition validate_ack (a : wt_quic_ack_fields) : wt_status :=
  if ack_largest a <? ack_first_range a then WT_ERR_PROTOCOL
  else validate_loop (S (length (ack_ranges a))) 0 (ack_range_count a)
         (u64 (ack_largest a - ack_first_range a)) (ranges_cursor a).

Fixpoint covers_loop (fuel : nat) (i count smallest packet_number : Z) (c : wt_cursor) : bool :=
  match fuel with
  | O => false
  | S fuel =>
      if count <=? i then false
      else match read_range c with
      | (Fail _ _, _) => false
      | (Ok (gap, length), c') =>
          let largest := u64 (u64 (smallest - gap) - 2) in
          let smallest := u64 (largest - u64 (length - 1)) in
          if largest <? packet_number then false
          else if smallest <=? packet_number then true
          else if smallest =? 0 then false
          else covers_loop fuel (i + 1) count smallest packet_number c'
      end
  end.

Definition ack_covers (a : wt_quic_ack_fields) (packet_number : Z) : bool :=
  let smallest := u64 (ack_largest a - ack_first_range a) in
  if ack_largest a <? packet_number then false
  else if smallest <=? packet_number then true
  else covers_loop (S (length (ack_ranges a))) 0 (ack_range_count a) smallest packet_number
         (ranges_cursor a).

(** ** The fuel is enough *)

Lemma read_range_safe : parser_safe (fun r => varint_ok r.1 /\ varint_ok r.2) read_range.
Proof.
  unfold read_range. eapply parser_safe_bind; [apply varint_decode_safe|]. intros gap Hg.
  eapply parser_safe_bind; [apply varint_decode_safe|]. intros len Hlen. by apply parser_safe_ret.
Qed.

Lemma read_range_consumes : parser_consumes read_range.
Proof.
  unfold read_range. eapply parser_consumes_bind; [apply varint_decode_safe|apply varint_decode_consumes|].
  intros gap _. eapply parser_safe_bind; [apply varint_decode_safe|]. intros len _.
  by apply (parser_safe_ret (fun _ => True)).
Qed.

(** The bytes left after one range are fewer. *)
Lemma read_range_left c r c' :
  cursor_inv c -> read_range c = (Ok r, c') ->
  cursor_inv c' /\ cur_len c' - cur_offset c' < cur_len c - cur_offset c.
Proof.
  intros Hc E. destruct (read_range_safe c Hc) as (Hi & _ & Hl & _ & _).
  pose proof (read_range_consumes c Hc) as Hd. rewrite E in *. cbn in *. split; [done|lia].
Qed.

Definition fuel_covers (fuel : nat) (c : wt_cursor) : Prop :=
  cur_len c - cur_offset c < Z.of_nat fuel.

Lemma validate_loop_fuel fuel more i count smallest c :
  cursor_inv c -> fuel_covers fuel c ->
  validate_loop (fuel + more) i count smallest c = validate_loop fuel i count smallest c.
Proof.
  unfold fuel_covers. revert i smallest c.
  induction fuel as [|fuel IH]; intros i smallest c Hc Hf; [destruct Hc; lia|].
  cbn [Nat.add validate_loop]. destruct (count <=? i); [done|].
  destruct (read_range c) as [[[gap len]|s e] c'] eqn:E; [|done].
  destruct (read_range_left c _ c' Hc E). repeat case_goal; try done. apply IH; [done|lia].
Qed.

Lemma covers_loop_fuel fuel more i count smallest n c :
  cursor_inv c -> fuel_covers fuel c ->
  covers_loop (fuel + more) i count smallest n c = covers_loop fuel i count smallest n c.
Proof.
  unfold fuel_covers. revert i smallest c.
  induction fuel as [|fuel IH]; intros i smallest c Hc Hf; [destruct Hc; lia|].
  cbn [Nat.add covers_loop]. destruct (count <=? i); [done|].
  destruct (read_range c) as [[[gap len]|s e] c'] eqn:E; [|done].
  destruct (read_range_left c _ c' Hc E). cbv zeta. repeat case_goal; try done. apply IH; [done|lia].
Qed.

(** ** What the walks make of the library's own ACK *)

(** A range after the first that holds one packet. *)
Definition single_packet (r : wt_quic_received_range) : bool := r_smallest r =? r_largest r.

(** The coverage the reader reconstructs from the ranges after the first: its
    [smallest] runs [d] ahead of the true one, one more with every range. *)
Fixpoint covered_shifted (d : Z) (l : list wt_quic_received_range) (n : Z) : bool :=
  match l with
  | [] => false
  | r :: l =>
      if r_largest r + d <? n then false
      else if r_smallest r + d + 1 <=? n then true
      else covered_shifted (d + 1) l n
  end.

Section OwnRanges.
Context (count : Z).

(** One step of either walk on a list the builder wrote. *)
Lemma own_range_step sm d r l c :
  0 <= d -> sm + d < 2 ^ 62 -> ranges_below (sm - 1) (r :: l) ->
  sm <= WT_QUIC_PACKET_NUMBER_MAX ->
  cursor_live c -> cursor_view c = ranges_wire (gap_pairs sm (r :: l)) ->
  exists c', read_range c = (Ok (sm - r_largest r - 2, r_largest r - r_smallest r), c') /\
    cursor_live c' /\ cursor_view c' = ranges_wire (gap_pairs (r_smallest r) l) /\
    u64 (u64 (sm + d - (sm - r_largest r - 2)) - 2) = r_largest r + d /\
    u64 (r_largest r + d - u64 (r_largest r - r_smallest r - 1)) = r_smallest r + d + 1.
Proof.
  intros Hd Hsm Hb Hmax Hl Hv. cbn [ranges_below] in Hb. destruct Hb as (H1 & H2 & Hb).
  cbn [gap_pairs] in Hv. unfold ranges_wire in Hv. cbn [fmap list_fmap concat] in Hv.
  fold (ranges_wire (gap_pairs (r_smallest r) l)) in Hv. set (pair := (_, _)) in *.
  assert (Hok : range_ok pair).
  { unfold range_ok, pair, varint_ok, WT_QUIC_VARINT_MAX, WT_QUIC_PACKET_NUMBER_MAX in *; cbn. lia. }
  exists (cursor_advance c (zlen (range_wire pair))).
  unfold read_range. rewrite (decodes_range pair Hok c _ Hl Hv). split_and!; [done|..].
  - apply cursor_advance_live; [done|]. rewrite Hv. zlia.
  - eapply cursor_advance_view; [apply Hl|exact Hv|done].
  - no_wrap. lia.
  - destruct (Z.eq_dec (r_smallest r) (r_largest r)) as [E|E].
    + rewrite E, Z.sub_diag. change (u64 (0 - 1)) with (2 ^ 64 - 1).
      replace (r_largest r + d - (2 ^ 64 - 1)) with ((r_largest r + d + 1) + (-1) * 2 ^ 64) by lia.
      unfold u64. rewrite Z_mod_plus_full. apply Z.mod_small. lia.
    + rewrite (u64_small (_ - 1)) by (unfold is_u64; lia). no_wrap. lia.
Qed.

Lemma validate_own l : forall fuel i sm d c,
  0 <= d -> sm + d + zlen l < 2 ^ 62 -> ranges_below (sm - 1) l ->
  sm <= WT_QUIC_PACKET_NUMBER_MAX -> cursor_live c -> cursor_view c = ranges_wire (gap_pairs sm l) ->
  (length l < fuel)%nat -> count = i + zlen l ->
  validate_loop fuel i count (sm + d) c =
    if existsb single_packet l then WT_ERR_PROTOCOL else WT_OK.
Proof.
  induction l as [|r l IH]; intros [|fuel] i sm d c Hd Hsm Hb Hmax Hl Hv Hf Hi; try (cbn in Hf; lia);
    cbn [validate_loop].
  { rewrite zlen_nil in Hi. ztest. done. }
  rewrite zlen_cons in *. pose proof (zlen_nonneg l). ztest.
  destruct (own_range_step sm d r l c) as (c' & -> & Hl' & Hv' & E1 & E2); try done; try lia.
  cbn [ranges_below] in Hb. destruct Hb as (H1 & H2 & Hb). cbn [existsb].
  unfold WT_QUIC_PACKET_NUMBER_MAX in *. unfold single_packet at 1.
  destruct (Z.eqb_spec (r_smallest r) (r_largest r)) as [E|E]; [by ztest|]. cbn [orb].
  rewrite (proj2 (Z.eqb_neq (r_largest r - r_smallest r) 0)) by lia. cbv zeta.
  rewrite E1, E2. rewrite (u64_small (_ + 2)) by (unfold is_u64; lia).
  rewrite (u64_small (_ - 1)) by (unfold is_u64; lia). ztest.
  replace (r_smallest r + d + 1) with (r_smallest r + (d + 1)) by lia.
  apply IH; try done; try lia. cbn in Hf. lia.
Qed.

Lemma covers_own n l : forall fuel i sm d c,
  0 <= d -> sm + d + zlen l < 2 ^ 62 -> ranges_below (sm - 1) l ->
  sm <= WT_QUIC_PACKET_NUMBER_MAX -> cursor_live c -> cursor_view c = ranges_wire (gap_pairs sm l) ->
  (length l < fuel)%nat -> count = i + zlen l ->
  covers_loop fuel i count (sm + d) n c = covered_shifted d l n.
Proof.
  induction l as [|r l IH]; intros [|fuel] i sm d c Hd Hsm Hb Hmax Hl Hv Hf Hi; try (cbn in Hf; lia);
    cbn [covers_loop].
  { rewrite zlen_nil in Hi. ztest. done. }
  rewrite zlen_cons in *. pose proof (zlen_nonneg l). ztest.
  destruct (own_range_step sm d r l c) as (c' & -> & Hl' & Hv' & E1 & E2); try done; try lia.
  cbn [ranges_below] in Hb. destruct Hb as (H1 & H2 & Hb). cbv zeta. rewrite E1, E2.
  cbn [covered_shifted]. unfold WT_QUIC_PACKET_NUMBER_MAX in *.
  destruct (Z.ltb_spec (r_largest r + d) n); [done|].
  destruct (Z.leb_spec (r_smallest r + d + 1) n); [done|]. ztest.
  replace (r_smallest r + d + 1) with (r_smallest r + (d + 1)) by lia.
  apply IH; try done; try lia. cbn in Hf. lia.
Qed.
End OwnRanges.

(** ** Theorems *)

Lemma contains_below s n r l :
  as_ranges s = r :: l -> ranges_below (r_smallest r - 1) l -> n < r_smallest r ->
  wt_quic_ack_contains s n = existsb (range_has n) l.
Proof.
  intros Hr _ Hn. unfold wt_quic_ack_contains. rewrite Hr. cbn [existsb]. unfold range_has at 1.
  by ztest.
Qed.

Lemma not_in_below b l n : ranges_below b l -> b <= n -> existsb (range_has n) l = false.
Proof.
  revert b. induction l as [|r l IH]; intros b Hb Hn; [done|]. cbn in *. destruct Hb as (? & ? & Hb).
  unfold range_has at 1. ztest. rewrite ?andb_false_r. cbn [orb]. apply (IH _ Hb). lia.
Qed.

Lemma shifted_below d b l n :
  0 <= d -> ranges_below b l -> b + d <= n -> covered_shifted d l n = false.
Proof.
  destruct l as [|r l]; intros Hd Hb Hn; [done|]. cbn in *. destruct Hb as (? & ? & _). by ztest.
Qed.

(** The receiver of an ACK reads the range lengths differently from the sender (as a packet count, where the wire carries largest minus smallest). For an ACK this endpoint itself builds: it is refused exactly when a range after the first is a single packet; the first range is read right; the smallest packet of the second range is not taken as acknowledged although it was received; and the packet just above a third range of more than one packet is taken as acknowledged although it was not. *)
Lemma own_ack_misread s delay block a first rest :
  ack_inv s -> varint_ok delay -> zlen block < 2 ^ 64 -> as_ranges s = first :: rest ->
  r_largest first < 2 ^ 61 -> wt_quic_ack_build s delay block = Ok (FRAME_ACK a) ->
  validate_ack a = (if existsb single_packet rest then WT_ERR_PROTOCOL else WT_OK) /\
  (forall n, ack_covers a n =
     if r_largest first <? n then false
     else if r_smallest first <=? n then true else covered_shifted 0 rest n) /\
  (forall r1 l, rest = r1 :: l ->
     wt_quic_ack_contains s (r_smallest r1) = true /\ ack_covers a (r_smallest r1) = false) /\
  (forall r1 r2 l, rest = r1 :: r2 :: l -> single_packet r2 = false ->
     wt_quic_ack_contains s (r_largest r2 + 1) = false /\ ack_covers a (r_largest r2 + 1) = true).
Proof.
  intros Hs Hd Hblock Hr Hbig Hbuild.
  rewrite (ack_build_result s delay block first rest) in Hbuild by done. cbn zeta in Hbuild.
  destruct (Z.leb_spec (zlen (ranges_wire (gap_pairs (r_smallest first) rest))) (zlen block)) as [Hfit|]; [|done].
  injection Hbuild as <-. destruct Hs as (Hb & Hlen & _). rewrite Hr in Hb, Hlen.
  cbn [ranges_below length] in Hb, Hlen. destruct Hb as (Hf1 & Hf2 & Hrest).
  assert (Hn32 : zlen rest <= 32) by (unfold WT_QUIC_RECEIVED_RANGES_MAX, zlen in *; lia).
  set (a := mk_ack _ _ _ _ _ _).
  assert (Hlive : cursor_live (ranges_cursor a)).
  { apply cursor_init_live; [cbn; lia|apply ranges_wire_ok]. }
  assert (Hview : cursor_view (ranges_cursor a) = ranges_wire (gap_pairs (r_smallest first) rest))
    by apply cursor_init_view.
  assert (Hfuel : (length rest < S (length (ack_ranges a)))%nat).
  { assert (Hok : Forall range_ok (gap_pairs (r_smallest first) rest)) by (apply gap_pairs_ok; [lia|done]).
    pose proof (ranges_wire_len _ Hok) as Hw. rewrite zlen_gap_pairs in Hw.
    cbn [ack_ranges a]. unfold zlen in *. lia. }
  assert (Hsm : u64 (ack_largest a - ack_first_range a) = r_smallest first + 0)
    by (cbn; rewrite u64_small by (unfold is_u64; lia); lia).
  assert (Hcover : forall n, ack_covers a n =
     if r_largest first <? n then false
     else if r_smallest first <=? n then true else covered_shifted 0 rest n).
  { intros n. unfold ack_covers. rewrite Hsm. rewrite Z.add_0_r at 1. change (ack_largest a) with (r_largest first).
    destruct (r_largest first <? n); [done|]. destruct (r_smallest first <=? n); [done|].
    apply covers_own; try done; try lia. cbn. by rewrite zlen_gap_pairs. }
  split_and!; [|exact Hcover|..].
  - unfold validate_ack. rewrite Hsm. cbn [a ack_largest ack_first_range]. ztest.
    apply validate_own; try done; try lia. cbn. by rewrite zlen_gap_pairs.
  - intros r1 l ->. cbn [ranges_below] in Hrest. destruct Hrest as (H1 & H2 & H3). split.
    + rewrite (contains_below s _ first (r1 :: l)); [|done|by cbn|lia]. cbn [existsb].
      unfold range_has at 1. by ztest.
    + rewrite Hcover. cbn [covered_shifted]. ztest. eapply shifted_below; [|exact H3|]; lia.
  - intros r1 r2 l -> Hsingle. cbn [ranges_below] in Hrest. destruct Hrest as (H1 & H2 & H3 & H4 & H5).
    unfold single_packet in Hsingle. reflect_bools. split.
    + rewrite (contains_below s _ first (r1 :: r2 :: l)); [|done|by cbn|lia]. cbn [existsb].
      unfold range_has at 1 2. ztest. rewrite ?andb_false_r. cbn [orb]. apply (not_in_below _ _ _ H5). lia.
    + rewrite Hcover. cbn [covered_shifted]. by ztest.
Qed.

Lemma own_ack_misread_witness :
  (* packets 0 and 2: the frame the library builds is one it refuses *)
  match wt_quic_ack_build (ack_run [0; 2]) 0 (replicate 64 0) with
  | Ok (FRAME_ACK a) => validate_ack a = WT_ERR_PROTOCOL
  | _ => False
  end /\
  (* packets 0, 1, 5, 6 and 9: packet 2 never arrived and is taken as acknowledged *)
  match wt_quic_ack_build (ack_run [0; 1; 5; 6; 9]) 0 (replicate 64 0) with
  | Ok (FRAME_ACK a) =>
      validate_ack a = WT_OK /\ ack_covers a 2 = true /\ ack_covers a 5 = false
  | _ => False
  end.
Proof.
  assert (Hinv : forall l, forallb (fun n => (0 <=? n) && (n <? 100)) l = true -> ack_inv (ack_run l)).
  { intros l Hl. apply ack_run_inv, Forall_forall. intros n Hn. rewrite forallb_forall in Hl.
    specialize (Hl n (proj1 (list_elem_of_In _ _) Hn)). reflect_bools.
    unfold WT_QUIC_PACKET_NUMBER_MAX. lia. }
  assert (Hz : varint_ok 0) by (unfold varint_ok, WT_QUIC_VARINT_MAX; lia).
  split.
  - exact (proj1 (own_ack_misread (ack_run [0; 2]) 0 (replicate 64 0) (mk_ack 2 0 0 [0; 0] 1 None)
      (mk_range 2 2) [mk_range 0 0] (Hinv [0; 2] eq_refl) Hz eq_refl eq_refl ltac:(cbn; lia) eq_refl)).
  - pose proof (own_ack_misread (ack_run [0; 1; 5; 6; 9]) 0 (replicate 64 0)
      (mk_ack 9 0 0 [1; 1; 2; 1] 2 None) (mk_range 9 9) [mk_range 5 6; mk_range 0 1]
      (Hinv [0; 1; 5; 6; 9] eq_refl) Hz eq_refl eq_refl ltac:(cbn; lia) eq_refl) as (H1 & _ & H2 & H3).
    split; [exact H1|]. split; [exact (proj2 (H3 _ _ _ eq_refl eq_refl))|exact (proj2 (H2 _ _ eq_refl))].
Defined.
