(* ===== verification/Close.v ===== *)
(** * Closing a connection: [src/quic/close.c]

    The close state, the CONNECTION_CLOSE frame built from it, the draining
    deadline and the frames a closed connection still reads. *)

From S2P Require Export Frame.

(** ** The code *)

Definition WT_QUIC_DRAINING_PERIOD_PTO_MULTIPLIER : Z := 3.

Inductive wt_quic_close_kind := WT_QUIC_CLOSE_NONE | WT_QUIC_CLOSE_TRANSPORT | WT_QUIC_CLOSE_APPLICATION.

#[export] Instance close_kind_eq_dec : EqDecision wt_quic_close_kind.
Proof. solve_decision. Defined.

Record wt_quic_close_state := mk_close {
  cl_kind : wt_quic_close_kind;
  cl_error_code : Z;
  cl_frame_type : Z;
  cl_reason : list Z;
  cl_closed_at : Z;
  cl_draining_until : Z;
  cl_has_deadline : bool }.

Definition wt_quic_close_state_init : wt_quic_close_state :=
  mk_close WT_QUIC_CLOSE_NONE 0 0 [] 0 0 false.

(** [close_common]: everything but the kind. *)
Definition close_common (s : wt_quic_close_state) (error_code frame_type : Z) (reason : list Z)
    (now pto : Z) : wt_status * wt_quic_close_state :=
  if bool_decide (cl_kind s <> WT_QUIC_CLOSE_NONE) then (WT_ERR_STATE, s)
  else
    (WT_OK, mk_close (cl_kind s) error_code frame_type reason now
      (if negb (pto =? 0) then u64 (now + u64 (WT_QUIC_DRAINING_PERIOD_PTO_MULTIPLIER * pto))
       else cl_draining_until s)
      (if negb (pto =? 0) then true else cl_has_deadline s)).

Definition set_kind (s : wt_quic_close_state) (k : wt_quic_close_kind) : wt_quic_close_state :=
  mk_close k (cl_error_code s) (cl_frame_type s) (cl_reason s) (cl_closed_at s)
    (cl_draining_until s) (cl_has_deadline s).

Definition wt_quic_close_transport (s : wt_quic_close_state) (error_code frame_type : Z)
    (reason : list Z) (now pto : Z) : wt_status * wt_quic_close_state :=
  match close_common s error_code frame_type reason now pto with
  | (WT_OK, s') => (WT_OK, set_kind s' WT_QUIC_CLOSE_TRANSPORT)
  | failed => failed
  end.

Definition wt_quic_close_application (s : wt_quic_close_state) (error_code : Z)
    (reason : list Z) (now pto : Z) : wt_status * wt_quic_close_state :=
  match close_common s error_code 0 reason now pto with
  | (WT_OK, s') => (WT_OK, set_kind s' WT_QUIC_CLOSE_APPLICATION)
  | failed => failed
  end.

Definition wt_quic_close_is_closed (s : wt_quic_close_state) : bool :=
  bool_decide (cl_kind s <> WT_QUIC_CLOSE_NONE).

Definition wt_quic_close_draining_expired (s : wt_quic_close_state) (now : Z) : bool :=
  if bool_decide (cl_kind s = WT_QUIC_CLOSE_NONE) then false
  else if negb (cl_has_deadline s) then false
  else cl_draining_until s <=? now.

Definition wt_quic_close_frame (s : wt_quic_close_state) : outcome wt_quic_frame :=
  match cl_kind s with
  | WT_QUIC_CLOSE_NONE => Fail WT_ERR_STATE None
  | WT_QUIC_CLOSE_TRANSPORT =>
      Ok (FRAME_CONNECTION_CLOSE_TRANSPORT
            (mk_close_frame true (cl_error_code s) (cl_frame_type s) (cl_reason s)))
  | WT_QUIC_CLOSE_APPLICATION =>
      Ok (FRAME_CONNECTION_CLOSE_APPLICATION (mk_close_frame false (cl_error_code s) 0 (cl_reason s)))
  end.

(** The [case] labels: CONNECTION_CLOSE (both), PADDING, PING, PATH_CHALLENGE and
    PATH_RESPONSE. *)
Definition wt_quic_close_accepts_frame_type (frame_type : Z) : bool :=
  existsb (Z.eqb frame_type) [0x1c; 0x1d; 0x00; 0x01; 0x1a; 0x1b].

(** ** Theorems *)

Inductive close_event :=
  | EvTransport (error_code frame_type : Z) (reason : list Z) (now pto : Z)
  | EvApplication (error_code : Z) (reason : list Z) (now pto : Z).

Definition close_step (s : wt_quic_close_state) (e : close_event) : wt_status * wt_quic_close_state :=
  match e with
  | EvTransport code type reason now pto => wt_quic_close_transport s code type reason now pto
  | EvApplication code reason now pto => wt_quic_close_application s code reason now pto
  end.

(** The frame a close calls for, its time and the probe timeout it was given. *)
Definition event_frame (e : close_event) : wt_quic_frame :=
  match e with
  | EvTransport code type reason _ _ => FRAME_CONNECTION_CLOSE_TRANSPORT (mk_close_frame true code type reason)
  | EvApplication code reason _ _ => FRAME_CONNECTION_CLOSE_APPLICATION (mk_close_frame false code 0 reason)
  end.
Definition event_now (e : close_event) : Z :=
  match e with EvTransport _ _ _ now _ | EvApplication _ _ now _ => now end.
Definition event_pto (e : close_event) : Z :=
  match e with EvTransport _ _ _ _ pto | EvApplication _ _ _ pto => pto end.

(** The frames of RFC 9000 section 10.2.1. *)
Definition closing_frame (f : wt_quic_frame) : bool :=
  match f with
  | FRAME_CONNECTION_CLOSE_TRANSPORT _ | FRAME_CONNECTION_CLOSE_APPLICATION _
  | FRAME_PADDING | FRAME_PING | FRAME_PATH_CHALLENGE _ | FRAME_PATH_RESPONSE _ => true
  | _ => false
  end.

Lemma close_again s e :
  cl_kind s <> WT_QUIC_CLOSE_NONE -> close_step s e = (WT_ERR_STATE, s).
Proof.
  intros H. destruct e; cbn; unfold wt_quic_close_transport, wt_quic_close_application, close_common;
    by rewrite bool_decide_true by done.
Qed.

Lemma accepts_closing_frame f : wt_quic_close_accepts_frame_type (frame_type f) = closing_frame f.
Proof.
  destruct f as [| |a| | | | |st| | |d| | |d| | | | | | | | |]; try done.
  - unfold frame_type. by destruct (ack_ecn a).
  - by destruct st as [? ? [] [] [] ?].
  - by destruct d.
  - by destruct d.
Qed.

(** The first close is recorded with its error and frame and every later one is refused and changes nothing; the CONNECTION_CLOSE to send is the recorded one and decodes back to itself; draining expires exactly three probe timeouts after the close; and only PADDING, ACK and CONNECTION_CLOSE frames are accepted afterwards. *)
Lemma connection_closes_once e later now :
  frame_ok (event_frame e) -> 0 <= event_now e < 2 ^ 62 -> 0 <= event_pto e < 2 ^ 60 ->
  let '(status, s) := close_step wt_quic_close_state_init e in
  status = WT_OK /\ wt_quic_close_is_closed s = true /\
  fold_left (fun s e => (close_step s e).2) later s = s /\
  (forall e', (close_step s e').1 = WT_ERR_STATE) /\
  wt_quic_close_frame s = Ok (event_frame e) /\
  decodes wt_quic_frame_decode (frame_bytes (event_frame e)) (event_frame e) /\
  wt_quic_close_draining_expired s now =
    negb (event_pto e =? 0) && (event_now e + 3 * event_pto e <=? now) /\
  forall f, wt_quic_close_accepts_frame_type (frame_type f) = closing_frame f.
Proof.
  intros Hok Hnow Hpto. destruct (close_step wt_quic_close_state_init e) as [status s] eqn:E.
  assert (H : status = WT_OK /\ cl_kind s <> WT_QUIC_CLOSE_NONE /\ wt_quic_close_frame s = Ok (event_frame e) /\
              wt_quic_close_draining_expired s now =
                negb (event_pto e =? 0) && (event_now e + 3 * event_pto e <=? now)).
  { destruct e; cbn in E, Hnow, Hpto |- *; injection E as <- <-; (split_and!; [done|done|done|]);
      unfold wt_quic_close_draining_expired, WT_QUIC_DRAINING_PERIOD_PTO_MULTIPLIER; cbn -[Z.mul u64];
      (destruct (Z.eqb_spec pto 0); [done|]); cbn -[Z.mul u64]; by no_wrap. }
  destruct H as (-> & Hk & Hf & Hd). split_and!; try done.
  - unfold wt_quic_close_is_closed. by rewrite bool_decide_true.
  - induction later as [|e' later IH]; [done|]. cbn [fold_left]. by rewrite close_again.
  - intros e'. by rewrite close_again.
  - destruct (decodes_frame _ Hok) as [_ Hdec]. apply Hdec. by destruct e.
  - apply accepts_closing_frame.
Qed.

Lemma connection_closes_once_witness :
  let '(status, s) := close_step wt_quic_close_state_init (EvTransport 7 2 [98; 97; 100] 1000 50) in
  wt_quic_close_frame s = Ok (FRAME_CONNECTION_CLOSE_TRANSPORT (mk_close_frame true 7 2 [98; 97; 100])) /\
  wt_quic_close_draining_expired s 1149 = false /\ wt_quic_close_draining_expired s 1150 = true.
Proof.
  pose proof (connection_closes_once (EvTransport 7 2 [98; 97; 100] 1000 50) [] 0) as H.
  destruct (close_step _ _) as [status s] eqn:E. injection E as <- <-.
  split; [|split; reflexivity]. apply H; cbn; [|lia|lia].
  unfold varint_ok, WT_QUIC_VARINT_MAX, data_ok. split_and!; try lia; try done; repeat constructor; lia.
Defined.
