(* ===== verification/Http3Frame.v ===== *)
(** * HTTP/3 frames: [src/http3/frame.c]

    The frame codec of RFC 9114 section 7.1, the frame-type predicates, the stream
    type prefix and the in-place DATA wrapper capsules are sent through. *)

From S2P Require Export QuicError Varint.
From stdpp Require Import strings.
#[local] Open Scope Z_scope.

(** ** Types and error codes *)

Definition WT_HTTP3_FRAME_DATA : Z := 0x00.
Definition WT_HTTP3_FRAME_HEADERS : Z := 0x01.
Definition WT_HTTP3_FRAME_CANCEL_PUSH : Z := 0x03.
Definition WT_HTTP3_FRAME_SETTINGS : Z := 0x04.
Definition WT_HTTP3_FRAME_PUSH_PROMISE : Z := 0x05.
Definition WT_HTTP3_FRAME_GOAWAY : Z := 0x07.
Definition WT_HTTP3_FRAME_MAX_PUSH_ID : Z := 0x0d.

(** The codes of [wt_http3_error_t] the modelled layers report. *)
Definition WT_HTTP3_STREAM_CREATION_ERROR : Z := 0x0103.
Definition WT_HTTP3_CLOSED_CRITICAL_STREAM : Z := 0x0104.
Definition WT_HTTP3_FRAME_UNEXPECTED : Z := 0x0105.
Definition WT_HTTP3_FRAME_ERROR : Z := 0x0106.
Definition WT_HTTP3_EXCESSIVE_LOAD : Z := 0x0107.
Definition WT_HTTP3_ID_ERROR : Z := 0x0108.
Definition WT_HTTP3_SETTINGS_ERROR : Z := 0x0109.
Definition WT_HTTP3_MISSING_SETTINGS : Z := 0x010a.
Definition WT_HTTP3_MESSAGE_ERROR : Z := 0x010e.

Record wt_http3_frame := mk_h3_frame { h3_type : Z; h3_payload : list Z }.

Definition wt_http3_frame_make (type : Z) : wt_http3_frame := mk_h3_frame type [].

Definition h3_type_names : list (Z * string) :=
  [(WT_HTTP3_FRAME_DATA, "data"%string); (WT_HTTP3_FRAME_HEADERS, "headers"%string);
   (WT_HTTP3_FRAME_CANCEL_PUSH, "cancel-push"%string); (WT_HTTP3_FRAME_SETTINGS, "settings"%string);
   (WT_HTTP3_FRAME_PUSH_PROMISE, "push-promise"%string); (WT_HTTP3_FRAME_GOAWAY, "goaway"%string);
   (WT_HTTP3_FRAME_MAX_PUSH_ID, "max-push-id"%string)].

Definition wt_http3_frame_type_name (type : Z) : string :=
  match find (fun p => p.1 =? type) h3_type_names with
  | Some p => p.2
  | None => "unknown"%string
  end.

Definition wt_http3_frame_type_is_reserved (type : Z) : bool :=
  (type =? 0x02) || (type =? 0x06) || (type =? 0x08) || (type =? 0x09).

Definition wt_http3_frame_type_is_exerciser (type : Z) : bool :=
  if type <? 0x21 then false else (type - 0x21) mod 0x1f =? 0.

Definition wt_http3_frame_type_is_known (type : Z) : bool :=
  existsb (Z.eqb type)
    [WT_HTTP3_FRAME_DATA; WT_HTTP3_FRAME_HEADERS; WT_HTTP3_FRAME_CANCEL_PUSH; WT_HTTP3_FRAME_SETTINGS;
     WT_HTTP3_FRAME_PUSH_PROMISE; WT_HTTP3_FRAME_GOAWAY; WT_HTTP3_FRAME_MAX_PUSH_ID].

(** ** Encoding *)

(** The two refusals before anything is written, then the writes: shared with the
    capsule encoder, whose statements are the same. *)
Definition encode_tlv (type : Z) (value : list Z) (w : wt_writer) : wt_status * wt_writer :=
  if WT_QUIC_VARINT_MAX <? type then (WT_ERR_INVALID_ARGUMENT, w)
  else if WT_QUIC_VARINT_MAX <? zlen value then (WT_ERR_INVALID_ARGUMENT, w)
  else
    let w1 := w |> writer_varint type |> writer_varint (zlen value) in
    writer_status (if negb (zlen value =? 0) then wt_writer_bytes value w1 else w1).

Definition wt_http3_frame_encode (f : wt_http3_frame) (w : wt_writer) : wt_status * wt_writer :=
  encode_tlv (h3_type f) (h3_payload f) w.

Definition wt_http3_frame_encoded_size (f : wt_http3_frame) : outcome Z :=
  let length := zlen (h3_payload f) in
  if WT_QUIC_VARINT_MAX <? h3_type f then Fail WT_ERR_INVALID_ARGUMENT None
  else if WT_QUIC_VARINT_MAX <? length then Fail WT_ERR_INVALID_ARGUMENT None
  else
    let total := u64 (wt_quic_varint_size (h3_type f) + wt_quic_varint_size length) in
    if u64 (SIZE_MAX - length) <? total then Fail WT_ERR_OVERFLOW None
    else Ok (u64 (total + length)).

(** ** The in-place wrapper *)

Definition WT_HTTP3_FRAME_DATA_HEADER_MAX : Z := 9.

(** The writer's block is the buffer behind the reservation. *)
Definition wt_http3_frame_data_writer (buffer : list Z) : wt_writer :=
  if zlen buffer <? WT_HTTP3_FRAME_DATA_HEADER_MAX then wt_writer_init (Some buffer) 0
  else wt_writer_init (Some (zdrop WT_HTTP3_FRAME_DATA_HEADER_MAX buffer))
         (u64 (zlen buffer - WT_HTTP3_FRAME_DATA_HEADER_MAX)).

(** The value is [*out_length]; the buffer is returned as it is left. *)
Definition wt_http3_frame_wrap_data_in_place (buffer : list Z) (payload_length : Z)
    : outcome Z * list Z :=
  let capacity := zlen buffer in
  if WT_QUIC_VARINT_MAX <? payload_length then (Fail WT_ERR_INVALID_ARGUMENT None, buffer)
  else if (capacity <? WT_HTTP3_FRAME_DATA_HEADER_MAX) ||
          (u64 (capacity - WT_HTTP3_FRAME_DATA_HEADER_MAX) <? payload_length)
  then (Fail WT_ERR_LIMIT None, buffer)
  else
    let '(length_bytes, encoded) :=
      wt_quic_varint_encode payload_length (WT_HTTP3_FRAME_DATA_HEADER_MAX - 1) in
    if length_bytes =? 0 then (Fail WT_ERR_INVALID_ARGUMENT None, buffer)
    else
      let header := u8 WT_HTTP3_FRAME_DATA :: encoded in
      let header_length := 1 + length_bytes in
      if u64 (capacity - payload_length) <? header_length then (Fail WT_ERR_LIMIT None, buffer)
      else
        let moved := write_at buffer header_length
                       (zslice WT_HTTP3_FRAME_DATA_HEADER_MAX payload_length buffer) in
        (Ok (header_length + payload_length), write_at moved 0 (ztake header_length header)).

(** ** Decoding *)

Definition frame_decode_at : parser wt_http3_frame :=
  let e := Some WT_HTTP3_FRAME_ERROR in
  type <- failing_as WT_ERR_TRUNCATED e wt_quic_varint_decode;;
  length <- failing_as WT_ERR_TRUNCATED e wt_quic_varint_decode;;
  if SIZE_MAX <? length then pfail WT_ERR_LIMIT e
  else payload <- bytes_or_truncated length e;; pret (mk_h3_frame type payload).

Definition wt_http3_frame_decode : parser wt_http3_frame := fun c =>
  match frame_decode_at c with
  | (Fail s e, _) => (Fail s e, c)
  | ok => ok
  end.

(** The frame and [*out_consumed]. *)
Definition wt_http3_frame_decode_prefix (data : option (list Z)) (length : Z)
    : outcome (wt_http3_frame * Z) :=
  match data with
  | None => if negb (length =? 0) then Fail WT_ERR_INVALID_ARGUMENT None
            else match frame_decode_at (wt_cursor_init None 0) with
                 | (Ok f, c') => Ok (f, u64 (length - wt_cursor_remaining c'))
                 | (Fail s e, _) => Fail s e
                 end
  | Some d => match frame_decode_at (wt_cursor_init (Some d) length) with
              | (Ok f, c') => Ok (f, u64 (length - wt_cursor_remaining c'))
              | (Fail s e, _) => Fail s e
              end
  end.

Definition wt_http3_stream_type_read : parser Z := fun c =>
  match wt_quic_varint_decode c with
  | (Fail _ _, _) => (Fail WT_ERR_TRUNCATED (Some WT_HTTP3_STREAM_CREATION_ERROR), c)
  | ok => ok
  end.

(** ** The wire format *)

Definition tlv_bytes (type : Z) (value : list Z) : list Z :=
  varint_bytes type ++ varint_bytes (zlen value) ++ value.

Definition h3_frame_bytes (f : wt_http3_frame) : list Z := tlv_bytes (h3_type f) (h3_payload f).

Definition h3_frame_ok (f : wt_http3_frame) : Prop :=
  varint_ok (h3_type f) /\ varint_ok (zlen (h3_payload f)) /\ bytes_ok (h3_payload f).

Lemma tlv_bytes_ok type value : bytes_ok value -> bytes_ok (tlv_bytes type value).
Proof.
  intros Hv. unfold tlv_bytes, bytes_ok. rewrite !Forall_app.
  split_and!; [apply varint_bytes_ok|apply varint_bytes_ok|done].
Qed.

Lemma tlv_bytes_len type value :
  varint_ok type -> varint_ok (zlen value) ->
  zlen (tlv_bytes type value) = wt_quic_varint_size type + wt_quic_varint_size (zlen value) + zlen value.
Proof. intros. unfold tlv_bytes. rewrite !zlen_app, !varint_size_bytes by done. lia. Qed.

(** A value that is written only when there is one. *)
Lemma appends_optional_bytes e bs value :
  appends e bs ->
  appends (fun w => if negb (zlen value =? 0) then wt_writer_bytes value (e w) else e w) (bs ++ value).
Proof.
  intros He. destruct (Z.eqb_spec (zlen value) 0) as [E|E]; cbn [negb].
  - apply zlen_0_nil in E as ->. by rewrite app_nil_r.
  - apply (appends_seq e (wt_writer_bytes value)); [done|apply appends_bytes].
Qed.

Lemma encodes_tlv type value :
  varint_ok type -> varint_ok (zlen value) -> encodes (encode_tlv type value) (tlv_bytes type value).
Proof.
  intros Ht Hv. eapply encodes_ext.
  - intros w. unfold encode_tlv, varint_ok in *. rewrite !(proj2 (Z.ltb_ge _ _)) by lia. reflexivity.
  - apply encodes_status. unfold tlv_bytes. rewrite app_assoc.
    apply (appends_optional_bytes (fun w => writer_varint (zlen value) (writer_varint type w))).
    appends_run_tac.
Qed.

(** ** Decoding *)

Lemma decodes_frame_at f : h3_frame_ok f -> decodes frame_decode_at (h3_frame_bytes f) f.
Proof.
  intros (Ht & Hl & Hp). destruct f as [type payload]; cbn in *. unfold frame_decode_at, h3_frame_bytes, tlv_bytes.
  eapply decodes_bind; [apply decodes_failing_as; auto with wt|].
  eapply decodes_bind; [apply decodes_failing_as; auto with wt|].
  cbn [h3_payload]. rewrite (proj2 (Z.ltb_ge _ _)) by (unfold varint_ok, WT_QUIC_VARINT_MAX, SIZE_MAX, U64_MAX in *; lia).
  apply (decodes_map _ (fun p => mk_h3_frame type p)). by apply decodes_bytes_or_truncated.
Qed.

Definition h3_decode_error (s : wt_status) (e : option Z) : Prop :=
  s = WT_ERR_TRUNCATED /\ e = Some WT_HTTP3_FRAME_ERROR.

Lemma frame_decode_at_safe : parser_safe h3_frame_ok frame_decode_at.
Proof.
  unfold frame_decode_at. eapply parser_safe_bind; [apply failing_as_safe, varint_decode_safe|]. intros type Ht.
  eapply parser_safe_bind; [apply failing_as_safe, varint_decode_safe|]. intros len Hlen.
  destruct (SIZE_MAX <? len); [apply parser_safe_fail|].
  eapply parser_safe_bind; [apply bytes_or_truncated_safe; destruct Hlen; lia|]. intros payload [Hz Hok].
  apply parser_safe_ret. split_and!; cbn; [done|by rewrite Hz|done].
Qed.

Lemma frame_decode_at_fails : parser_fails h3_decode_error frame_decode_at.
Proof.
  unfold frame_decode_at. eapply parser_fails_bind; [apply failing_as_safe, varint_decode_safe|by apply failing_as_fails|].
  intros type Ht. eapply parser_fails_bind; [apply failing_as_safe, varint_decode_safe|by apply failing_as_fails|].
  intros len Hlen. rewrite (proj2 (Z.ltb_ge _ _)) by (unfold varint_ok, WT_QUIC_VARINT_MAX, SIZE_MAX, U64_MAX in *; lia).
  eapply parser_fails_bind; [apply bytes_or_truncated_safe; destruct Hlen; lia|by apply bytes_or_truncated_fails|].
  intros. apply parser_fails_ret.
Qed.

Lemma frame_decode_at_consumes : parser_consumes frame_decode_at.
Proof.
  unfold frame_decode_at. eapply parser_consumes_bind;
    [apply failing_as_safe, varint_decode_safe|apply failing_as_consumes, varint_decode_consumes|].
  intros type Ht. eapply (parser_safe_bind _ (fun _ => True)); [apply failing_as_safe, varint_decode_safe|].
  intros len Hlen. destruct (SIZE_MAX <? len); [apply parser_safe_fail|].
  eapply parser_safe_bind; [apply bytes_or_truncated_safe; destruct Hlen; lia|]. intros. by apply parser_safe_ret.
Qed.

(** ** Theorems *)

(** An HTTP/3 frame is written as type, length and payload, the announced size is the number of bytes written, and both decoders return the frame and its size from those bytes followed by anything. *)
Lemma h3_frame_roundtrip f w tl :
  h3_frame_ok f -> bytes_ok tl -> zlen (h3_frame_bytes f ++ tl) < 2 ^ 64 ->
  writer_inv w -> w_overflow w = false -> w_copy w = true -> zlen (h3_frame_bytes f) <= writer_room w ->
  (wt_http3_frame_encode f w).1 = WT_OK /\
  writer_bytes (wt_http3_frame_encode f w).2 = writer_bytes w ++ h3_frame_bytes f /\
  wt_http3_frame_encoded_size f = Ok (zlen (h3_frame_bytes f)) /\
  wt_http3_frame_decode_prefix (Some (h3_frame_bytes f ++ tl)) (zlen (h3_frame_bytes f ++ tl)) =
    Ok (f, zlen (h3_frame_bytes f)) /\
  decodes wt_http3_frame_decode (h3_frame_bytes f) f.
Proof.
  intros Hf Htl Hlen Hw Hov Hcp Hroom. pose proof Hf as (Ht & Hl & Hp).
  pose proof (tlv_bytes_len _ _ Ht Hl) as Hz. fold (h3_frame_bytes f) in Hz.
  rewrite zlen_app in Hlen. pose proof (zlen_nonneg tl).
  destruct (encodes_bytes _ _ w (encodes_tlv _ _ Ht Hl) Hw Hov Hcp Hroom) as [He1 He2].
  pose proof (zlen_nonneg (h3_payload f)).
  split; [exact He1|]. split; [exact He2|]. split; [|split].
  - unfold wt_http3_frame_encoded_size. unfold varint_ok, WT_QUIC_VARINT_MAX in *. ztest.
    pose proof (varint_size_le (h3_type f)). pose proof (varint_size_le (zlen (h3_payload f))).
    unfold SIZE_MAX, U64_MAX. rewrite (u64_small (_ + _)) by (unfold is_u64; split; [|lia];
      unfold wt_quic_varint_size; repeat case_match; lia).
    rewrite (u64_small (_ - _)) by (unfold is_u64; lia). ztest. rewrite Hz. f_equal. apply u64_small.
    unfold is_u64. rewrite <- Hz. pose proof (zlen_nonneg (h3_frame_bytes f)). lia.
  - unfold wt_http3_frame_decode_prefix. set (d := h3_frame_bytes f ++ tl).
    assert (Hd : zlen d = zlen (h3_frame_bytes f) + zlen tl) by apply zlen_app.
    assert (Hlive : cursor_live (wt_cursor_init (Some d) (zlen d))).
    { apply cursor_init_live; [lia|]. apply Forall_app. split; [by apply tlv_bytes_ok|done]. }
    rewrite (decodes_frame_at f Hf _ tl Hlive eq_refl). do 2 f_equal.
    unfold wt_cursor_remaining, cursor_advance; cbn [cur_failed cur_len cur_offset wt_cursor_init].
    pose proof (zlen_nonneg (h3_frame_bytes f)).
    rewrite (u64_small (_ - (0 + _))) by (unfold is_u64; lia). rewrite u64_small by (unfold is_u64; lia). lia.
  - intros c k Hc Hv. unfold wt_http3_frame_decode. by rewrite (decodes_frame_at f Hf c k Hc Hv).
Qed.

Lemma h3_frame_roundtrip_witness :
  let f := mk_h3_frame WT_HTTP3_FRAME_HEADERS [1; 2; 3] in
  wt_http3_frame_decode_prefix (Some (h3_frame_bytes f ++ [9])) (zlen (h3_frame_bytes f ++ [9])) =
    Ok (f, zlen (h3_frame_bytes f)) /\ h3_frame_bytes f = [1; 3; 1; 2; 3].
Proof.
  split; [|vm_compute; reflexivity].
  refine (proj1 (proj2 (proj2 (proj2 (h3_frame_roundtrip (mk_h3_frame WT_HTTP3_FRAME_HEADERS [1; 2; 3])
    (wt_writer_init (Some (replicate 8 0)) 8) [9] _ _ _ _ eq_refl eq_refl _))))).
  - split_and!; [unfold varint_ok, WT_QUIC_VARINT_MAX; cbn; unfold WT_HTTP3_FRAME_HEADERS; lia|done|by apply bytes_okb_spec].
  - by apply bytes_okb_spec.
  - vm_compute. reflexivity.
  - apply (writer_init_inv (replicate 8 0)). done.
  - vm_compute. discriminate.
Defined.

(** On any bytes the HTTP/3 decoder returns an encodable frame and advances within the buffer, or reports truncation with H3_FRAME_ERROR and leaves the cursor where it was. *)
Lemma h3_frame_decode_arbitrary_bytes c :
  cursor_inv c ->
  match wt_http3_frame_decode c with
  | (Ok f, c') => h3_frame_ok f /\ cursor_inv c' /\ cur_offset c < cur_offset c' <= cur_len c
  | (Fail s e, c') => s = WT_ERR_TRUNCATED /\ e = Some WT_HTTP3_FRAME_ERROR /\ c' = c
  end.
Proof.
  intros Hc. destruct (frame_decode_at_safe c Hc) as (Hi & _ & Hl & _ & Hf).
  pose proof (frame_decode_at_fails c Hc) as He. pose proof (frame_decode_at_consumes c Hc) as Ho.
  unfold wt_http3_frame_decode. destruct (frame_decode_at c) as [[f|s e] c']; cbn in *.
  - split_and!; [done|done|lia|]. destruct Hi as (? & _). lia.
  - by destruct He as [-> ->].
Qed.

Lemma h3_frame_decode_arbitrary_bytes_witness :
  let c := wt_cursor_init (Some [0; 5; 1; 2]) 4 in
  (let '(_, c') := wt_http3_frame_decode c in c' = c) /\
  (wt_http3_frame_decode c).1 = Fail WT_ERR_TRUNCATED (Some WT_HTTP3_FRAME_ERROR).
Proof.
  split; [|vm_compute; reflexivity].
  pose proof (h3_frame_decode_arbitrary_bytes (wt_cursor_init (Some [0; 5; 1; 2]) 4)
    (cursor_init_inv [0; 5; 1; 2] ltac:(done) ltac:(by apply bytes_okb_spec))) as H.
  destruct (wt_http3_frame_decode _) as [[f|s e] c'] eqn:E; [by vm_compute in E|]. apply H.
Defined.

(** Wrapping a payload that was written behind the header reservation leaves in the buffer exactly the bytes of the DATA frame with that payload, as the general encoder would write them, and reports their length. *)
Lemma data_wrapper_writes_the_frame buffer n :
  0 <= n -> WT_HTTP3_FRAME_DATA_HEADER_MAX + n <= zlen buffer -> zlen buffer < 2 ^ 62 ->
  let frame := mk_h3_frame WT_HTTP3_FRAME_DATA (zslice WT_HTTP3_FRAME_DATA_HEADER_MAX n buffer) in
  let '(o, buffer') := wt_http3_frame_wrap_data_in_place buffer n in
  o = Ok (zlen (h3_frame_bytes frame)) /\
  ztake (zlen (h3_frame_bytes frame)) buffer' = h3_frame_bytes frame /\ zlen buffer' = zlen buffer.
Proof.
  intros Hn Hb Hmax frame. unfold WT_HTTP3_FRAME_DATA_HEADER_MAX in *.
  unfold wt_http3_frame_wrap_data_in_place, WT_HTTP3_FRAME_DATA_HEADER_MAX, WT_QUIC_VARINT_MAX. ztest.
  rewrite (u64_small (zlen buffer - 9)) by (unfold is_u64; lia). ztest.
  assert (Hv : varint_ok n) by (unfold varint_ok, WT_QUIC_VARINT_MAX; lia).
  rewrite varint_encode_spec by (done || apply varint_size_le).
  pose proof (varint_size_le n) as Hle. pose proof (varint_bytes_pos n Hv) as Hpos.
  rewrite (varint_size_bytes n Hv) in Hle. set (vb := varint_bytes n) in *. ztest.
  rewrite (u64_small (zlen buffer - n)) by (unfold is_u64; lia). ztest.
  set (payload := zslice 9 n buffer). assert (Hp : zlen payload = n) by (apply zlen_zslice; lia).
  change (u8 WT_HTTP3_FRAME_DATA) with 0.
  assert (Hbytes : h3_frame_bytes frame = (0 :: vb) ++ payload).
  { unfold h3_frame_bytes, tlv_bytes, frame; cbn [h3_type h3_payload]. fold payload. by rewrite Hp. }
  assert (Hz : zlen (h3_frame_bytes frame) = 1 + zlen vb + n) by (rewrite Hbytes; zlia).
  rewrite Hz. rewrite (ztake_all _ (0 :: vb)) by zlia.
  assert (Hh : zlen (0 :: vb) = 1 + zlen vb) by apply zlen_cons.
  pose proof (zlen_write_at buffer (1 + zlen vb) payload ltac:(lia) ltac:(lia)) as Hm.
  split; [done|]. split; [|rewrite zlen_write_at; lia].
  unfold write_at at 1. rewrite ztake_0, app_nil_l, Hh, Z.add_0_l.
  unfold write_at. rewrite zdrop_app_exact by (rewrite zlen_ztake; lia).
  rewrite Hbytes, app_assoc. apply ztake_app_exact. zlia.
Qed.

Lemma data_wrapper_writes_the_frame_witness :
  let '(o, buffer') := wt_http3_frame_wrap_data_in_place (replicate 9 0 ++ [7; 8; 9]) 3 in
  zlen buffer' = 12 /\ o = Ok 5 /\ ztake 5 buffer' = [0; 3; 7; 8; 9].
Proof.
  pose proof (data_wrapper_writes_the_frame (replicate 9 0 ++ [7; 8; 9]) 3 ltac:(lia) ltac:(done) ltac:(done)) as H.
  destruct (wt_http3_frame_wrap_data_in_place _ _) as [o buffer'] eqn:E.
  split; [apply H|]. vm_compute in E. injection E as <- <-. split; reflexivity.
Defined.
