(* ===== verification/Http3Settings.v ===== *)
(** * HTTP/3 SETTINGS: [src/http3/settings.c]

    The table of settings, the parser of a SETTINGS payload with the refusals of
    RFC 9114 section 7.2.4.1, RFC 9220 and RFC 9297, and the encoder, which
    writes the entries in ascending identifier order.  The first [count] entries
    of the two arrays of the source are a list of pairs. *)

From S2P Require Export Http3Frame.
From stdpp Require Import sorting.
#[local] Open Scope Z_scope.

(** ** The table *)

Definition WT_HTTP3_SETTING_QPACK_MAX_TABLE_CAPACITY : Z := 0x01.
Definition WT_HTTP3_SETTING_MAX_FIELD_SECTION_SIZE : Z := 0x06.
Definition WT_HTTP3_SETTING_QPACK_BLOCKED_STREAMS : Z := 0x07.
Definition WT_HTTP3_SETTING_ENABLE_CONNECT_PROTOCOL : Z := 0x08.
Definition WT_HTTP3_SETTING_H3_DATAGRAM : Z := 0x33.
Definition WT_HTTP3_SETTING_EXERCISER : Z := 0x21.
Definition WT_HTTP3_SETTING_UNKNOWN : Z := 0x22.
Definition WT_HTTP3_SETTINGS_MAX_ENTRIES : nat := 16.

Abbreviation wt_http3_settings := (list (Z * Z)).

Definition wt_http3_settings_init : wt_http3_settings := [].

Definition wt_http3_setting_is_reserved_http2 (identifier : Z) : bool :=
  (identifier =? 0x02) || (identifier =? 0x03) || (identifier =? 0x04) || (identifier =? 0x05).

Definition wt_http3_setting_is_exerciser (identifier : Z) : bool :=
  if identifier <? 0x21 then false else (identifier - 0x21) mod 0x1f =? 0.

Definition wt_http3_settings_set (s : wt_http3_settings) (identifier value : Z)
    : wt_status * wt_http3_settings :=
  if (WT_QUIC_VARINT_MAX <? identifier) || (WT_QUIC_VARINT_MAX <? value)
  then (WT_ERR_INVALID_ARGUMENT, s)
  else if wt_http3_setting_is_reserved_http2 identifier then (WT_ERR_INVALID_ARGUMENT, s)
  else if (identifier =? WT_HTTP3_SETTING_ENABLE_CONNECT_PROTOCOL) && (1 <? value)
  then (WT_ERR_INVALID_ARGUMENT, s)
  else if (identifier =? WT_HTTP3_SETTING_H3_DATAGRAM) && (1 <? value)
  then (WT_ERR_INVALID_ARGUMENT, s)
  else if existsb (fun e => e.1 =? identifier) s then (WT_ERR_STATE, s)
  else if Nat.leb WT_HTTP3_SETTINGS_MAX_ENTRIES (length s) then (WT_ERR_LIMIT, s)
  else (WT_OK, s ++ [(identifier, value)]).

(** The value and [*out_present]. *)
Definition wt_http3_settings_get (s : wt_http3_settings) (identifier : Z) : Z * bool :=
  match find (fun e => e.1 =? identifier) s with
  | Some e => (e.2, true)
  | None => (0, false)
  end.

(** ** Parsing *)

(** One parameter of the payload: the loop's body.  [fuel] bounds the parameters
    the bytes can hold, each of which takes at least two. *)
Fixpoint settings_parse_loop (fuel : nat) (c : wt_cursor) (parsed : wt_http3_settings)
    : option (outcome wt_http3_settings) :=
  if wt_cursor_at_end c then Some (Ok parsed)
  else match fuel with
  | O => None
  | S fuel =>
      match (id <- wt_quic_varint_decode;; value <- wt_quic_varint_decode;; pret (id, value)) c with
      | (Fail _ _, _) => Some (Fail WT_ERR_TRUNCATED (Some WT_HTTP3_SETTINGS_ERROR))
      | (Ok (id, value), c') =>
          if wt_http3_setting_is_reserved_http2 id
          then Some (Fail WT_ERR_PROTOCOL (Some WT_HTTP3_SETTINGS_ERROR))
          else if wt_http3_setting_is_exerciser id then settings_parse_loop fuel c' parsed
          else if (id =? WT_HTTP3_SETTING_ENABLE_CONNECT_PROTOCOL) && (1 <? value)
          then Some (Fail WT_ERR_PROTOCOL (Some WT_HTTP3_SETTINGS_ERROR))
          else if (id =? WT_HTTP3_SETTING_H3_DATAGRAM) && (1 <? value)
          then Some (Fail WT_ERR_PROTOCOL (Some WT_HTTP3_SETTINGS_ERROR))
          else match wt_http3_settings_set parsed id value with
          | (WT_OK, parsed') => settings_parse_loop fuel c' parsed'
          | (WT_ERR_LIMIT, _) => Some (Fail WT_ERR_LIMIT (Some WT_HTTP3_EXCESSIVE_LOAD))
          | (WT_ERR_STATE, _) => Some (Fail WT_ERR_PROTOCOL (Some WT_HTTP3_SETTINGS_ERROR))
          | (status, _) => Some (Fail status (Some WT_HTTP3_SETTINGS_ERROR))
          end
      end
  end.

(** [None] is running out of fuel, which [settings_parse_arbitrary_bytes] excludes. *)
Definition wt_http3_settings_parse (payload : list Z) : option (outcome wt_http3_settings) :=
  settings_parse_loop (S (length payload)) (wt_cursor_init (Some payload) (zlen payload))
    wt_http3_settings_init.

(** ** Encoding *)

Definition setting_id (s : wt_http3_settings) (i : nat) : Z := (default (0, 0) (s !! i)).1.
Definition setting_value (s : wt_http3_settings) (i : nat) : Z := (default (0, 0) (s !! i)).2.

(** The inner loop: the smallest identifier not yet emitted; [None] is [count]. *)
Definition select_step (s : wt_http3_settings) (emitted : list bool) (best : option nat) (i : nat)
    : option nat :=
  if default false (emitted !! i) then best
  else match best with
  | None => Some i
  | Some b => if setting_id s i <? setting_id s b then Some i else best
  end.

Definition select_best (s : wt_http3_settings) (emitted : list bool) : option nat :=
  fold_left (select_step s emitted) (seq 0 (length s)) None.

(** [while (written < count)]: [remaining] is [count - written]. *)
Fixpoint settings_emit_loop (remaining : nat) (s : wt_http3_settings) (emitted : list bool)
    (w : wt_writer) : wt_writer :=
  match remaining with
  | O => w
  | S remaining =>
      match select_best s emitted with
      | None => w
      | Some b =>
          settings_emit_loop remaining s (<[b := true]> emitted)
            (w |> writer_varint (setting_id s b) |> writer_varint (setting_value s b))
      end
  end.

Definition wt_http3_settings_encode_payload (s : wt_http3_settings) (w : wt_writer)
    : wt_status * wt_writer :=
  writer_status (settings_emit_loop (length s) s (replicate WT_HTTP3_SETTINGS_MAX_ENTRIES false) w).

(** ** What the code promises *)

(** The wire form of a list of parameters. *)
Definition setting_wire (e : Z * Z) : list Z := varint_bytes e.1 ++ varint_bytes e.2.
Definition settings_wire (es : list (Z * Z)) : list Z := concat (setting_wire <$> es).

(** The parameters a receiver accepts, and those of them it keeps. *)
Definition setting_admissible (e : Z * Z) : bool :=
  negb (wt_http3_setting_is_reserved_http2 e.1) &&
  negb (((e.1 =? WT_HTTP3_SETTING_ENABLE_CONNECT_PROTOCOL) || (e.1 =? WT_HTTP3_SETTING_H3_DATAGRAM))
        && (1 <? e.2)).
Definition kept_settings (es : list (Z * Z)) : list (Z * Z) :=
  List.filter (fun e => negb (wt_http3_setting_is_exerciser e.1)) es.

Definition setting_encodable (e : Z * Z) : Prop := varint_ok e.1 /\ varint_ok e.2.

(** The tables the setter builds. *)
Definition settings_inv (s : wt_http3_settings) : Prop :=
  (length s <= WT_HTTP3_SETTINGS_MAX_ENTRIES)%nat /\ NoDup s.*1 /\
  Forall setting_encodable s /\ Forall (fun e => setting_admissible e = true) s.

(** ** The setter *)

(** The setter's checks are the admissibility of the pair, then the table's. *)
Lemma settings_set_spec s e :
  setting_encodable e ->
  wt_http3_settings_set s e.1 e.2 =
    if negb (setting_admissible e) then (WT_ERR_INVALID_ARGUMENT, s)
    else if existsb (fun e' => e'.1 =? e.1) s then (WT_ERR_STATE, s)
    else if Nat.leb WT_HTTP3_SETTINGS_MAX_ENTRIES (length s) then (WT_ERR_LIMIT, s)
    else (WT_OK, s ++ [e]).
Proof.
  destruct e as [id value]. intros [[_ H1] [_ H2]]. cbn [fst snd] in *.
  unfold wt_http3_settings_set, setting_admissible. cbn [fst snd].
  rewrite (proj2 (Z.ltb_ge _ _) H1), (proj2 (Z.ltb_ge _ _) H2). cbn [orb].
  destruct (wt_http3_setting_is_reserved_http2 id); [done|].
  destruct (id =? WT_HTTP3_SETTING_ENABLE_CONNECT_PROTOCOL), (id =? WT_HTTP3_SETTING_H3_DATAGRAM),
    (1 <? value); done.
Qed.

Lemma settings_present (s : list (Z * Z)) id : existsb (fun e => e.1 =? id) s = true <-> id ∈ s.*1.
Proof.
  rewrite existsb_exists, list_elem_of_fmap. split.
  - intros (e & He & Hid%Z.eqb_eq). exists e. by split; [|apply list_elem_of_In].
  - intros (e & -> & He). exists e. split; [by apply list_elem_of_In|]. apply Z.eqb_refl.
Qed.

Lemma settings_inv_snoc s e :
  settings_inv s -> setting_encodable e -> setting_admissible e = true ->
  e.1 ∉ s.*1 -> (length s < WT_HTTP3_SETTINGS_MAX_ENTRIES)%nat -> settings_inv (s ++ [e]).
Proof.
  intros (_ & Hnd & He & Ha) Hoe Hoa Hn Hlt. unfold settings_inv.
  rewrite length_app, fmap_app, !Forall_app, !Forall_singleton. cbn [length fmap list_fmap].
  split_and!; try done; [lia|]. apply NoDup_app. split_and!; [done| |apply NoDup_singleton].
  by intros x Hx ->%list_elem_of_singleton.
Qed.

Lemma settings_set_inv s e :
  setting_encodable e -> settings_inv s -> settings_inv (wt_http3_settings_set s e.1 e.2).2.
Proof.
  intros He Hs. rewrite settings_set_spec by done.
  destruct (setting_admissible e) eqn:Ha; [|done].
  destruct (existsb _ s) eqn:Hp; [done|]. destruct (Nat.leb _ _) eqn:Hl; [done|].
  cbn [negb snd]. apply Nat.leb_gt in Hl. apply settings_inv_snoc; try done.
  rewrite <- settings_present. by rewrite Hp.
Qed.

(** ** The parser *)

Lemma setting_decodes e :
  setting_encodable e ->
  decodes (id <- wt_quic_varint_decode;; value <- wt_quic_varint_decode;; pret (id, value))
    (setting_wire e) e.
Proof.
  intros [H1 H2]. destruct e as [id value]. cbn [fst snd] in *. unfold setting_wire. cbn [fst snd].
  eapply decodes_bind; [by apply decodes_varint|]. apply (decodes_map _ (fun v => (id, v))).
  by apply decodes_varint.
Qed.

Lemma setting_wire_pos e : setting_encodable e -> 2 <= zlen (setting_wire e).
Proof.
  intros [H1 H2]. unfold setting_wire. rewrite zlen_app.
  pose proof (varint_bytes_pos _ H1). pose proof (varint_bytes_pos _ H2). lia.
Qed.

(** What the loop does with one well-formed parameter. *)
Lemma settings_parse_step fuel c e tl parsed :
  setting_encodable e -> cursor_live c -> cursor_view c = setting_wire e ++ tl ->
  let c' := cursor_advance c (zlen (setting_wire e)) in
  settings_parse_loop (S fuel) c parsed =
    if negb (setting_admissible e) then Some (Fail WT_ERR_PROTOCOL (Some WT_HTTP3_SETTINGS_ERROR))
    else if wt_http3_setting_is_exerciser e.1 then settings_parse_loop fuel c' parsed
    else if existsb (fun e' => e'.1 =? e.1) parsed
    then Some (Fail WT_ERR_PROTOCOL (Some WT_HTTP3_SETTINGS_ERROR))
    else if Nat.leb WT_HTTP3_SETTINGS_MAX_ENTRIES (length parsed)
    then Some (Fail WT_ERR_LIMIT (Some WT_HTTP3_EXCESSIVE_LOAD))
    else settings_parse_loop fuel c' (parsed ++ [e]).
Proof.
  intros He Hl Hv c'. pose proof (setting_wire_pos e He) as Hpos. cbn [settings_parse_loop].
  assert (wt_cursor_at_end c = false) as ->.
  { unfold wt_cursor_at_end. destruct Hl as (Hi & -> & _). pose proof (cursor_view_len c Hi) as Hz.
    rewrite Hv, zlen_app in Hz. pose proof (zlen_nonneg tl). lia. }
  rewrite (setting_decodes e He c tl Hl Hv). fold c'.
  pose proof (settings_set_spec parsed e He) as Hset.
  destruct e as [id value]. cbn [fst snd] in *. rewrite Hset. unfold setting_admissible. cbn [fst snd].
  destruct (wt_http3_setting_is_reserved_http2 id); [done|]. cbn [negb andb].
  destruct (wt_http3_setting_is_exerciser id) eqn:Hx.
  - assert ((id =? WT_HTTP3_SETTING_ENABLE_CONNECT_PROTOCOL) = false /\ (id =? WT_HTTP3_SETTING_H3_DATAGRAM) = false)
      as [-> ->].
    { unfold wt_http3_setting_is_exerciser, WT_HTTP3_SETTING_ENABLE_CONNECT_PROTOCOL,
        WT_HTTP3_SETTING_H3_DATAGRAM in *. destruct (Z.ltb_spec id 0x21); [done|].
      split; [lia|]. destruct (Z.eqb_spec id 0x33) as [->|]; [vm_compute in Hx|]; done. }
    done.
  - destruct (id =? WT_HTTP3_SETTING_ENABLE_CONNECT_PROTOCOL), (id =? WT_HTTP3_SETTING_H3_DATAGRAM),
      (1 <? value); cbn [andb orb negb]; try done;
    destruct (existsb _ parsed); try done; destruct (Nat.leb _ _); done.
Qed.

Lemma cursor_at_end_view c : cursor_inv c -> cur_failed c = false -> cursor_view c = [] -> wt_cursor_at_end c = true.
Proof.
  intros Hi Hf Hv. pose proof (cursor_view_len c Hi) as Hz. rewrite Hv, zlen_nil in Hz.
  unfold wt_cursor_at_end. rewrite Hf. lia.
Qed.

Lemma settings_parse_loop_spec es : forall fuel c parsed,
  Forall setting_encodable es -> cursor_live c -> cursor_view c = settings_wire es ->
  (length es <= fuel)%nat -> settings_inv parsed ->
  exists o, settings_parse_loop fuel c parsed = Some o /\
    forall s, o = Ok s <-> Forall (fun e => setting_admissible e = true) es /\
      s = parsed ++ kept_settings es /\ settings_inv s.
Proof.
  induction es as [|e es IH]; intros fuel c parsed Hes Hl Hv Hf Hp.
  - exists (Ok parsed). split.
    + pose proof (cursor_at_end_view c (proj1 Hl) (proj1 (proj2 Hl)) Hv) as He.
      destruct fuel; cbn [settings_parse_loop]; by rewrite He.
    + intros s. cbn [kept_settings List.filter]. rewrite app_nil_r. split; [|by intros (_ & -> & _)].
      intros [= <-]. split_and!; auto.
  - inversion_clear Hes as [|? ? He Hes']. destruct fuel as [|fuel]; [cbn in Hf; lia|].
    change (settings_wire (e :: es)) with (setting_wire e ++ settings_wire es) in Hv.
    rewrite (settings_parse_step fuel c e _ parsed He Hl Hv).
    assert (Hl' : cursor_live (cursor_advance c (zlen (setting_wire e)))).
    { apply cursor_advance_live; [done|]. rewrite Hv, zlen_app.
      pose proof (zlen_nonneg (settings_wire es)). pose proof (zlen_nonneg (setting_wire e)). lia. }
    assert (Hv' : cursor_view (cursor_advance c (zlen (setting_wire e))) = settings_wire es)
      by (eapply cursor_advance_view; [apply Hl|exact Hv|done]).
    assert (Hf' : (length es <= fuel)%nat) by (cbn in Hf; lia).
    unfold kept_settings in *. cbn [List.filter].
    destruct (setting_admissible e) eqn:Ha; cbn [negb].
    2:{ eexists. split; [done|]. intros s. split; [done|]. intros (Hall & _). inversion Hall. congruence. }
    destruct (wt_http3_setting_is_exerciser e.1) eqn:Hx; cbn [negb].
    { destruct (IH _ _ _ Hes' Hl' Hv' Hf' Hp) as (o & Ho & Hiff). exists o. split; [done|].
      intros s. rewrite Hiff, Forall_cons. tauto. }
    destruct (existsb _ parsed) eqn:Hin.
    { apply settings_present in Hin. eexists. split; [done|]. intros s. split; [done|].
      intros (_ & -> & (_ & Hnd & _)). rewrite fmap_app in Hnd. cbn [fmap list_fmap] in Hnd.
      apply NoDup_app in Hnd as (_ & Hd & _). destruct (Hd _ Hin). left. }
    destruct (Nat.leb _ _) eqn:Hfull.
    { apply Nat.leb_le in Hfull. eexists. split; [done|]. intros s. split; [done|].
      intros (_ & -> & (Hlen & _)). rewrite length_app in Hlen. cbn [length] in Hlen. lia. }
    apply Nat.leb_gt in Hfull. assert (Hn : e.1 ∉ parsed.*1) by (rewrite <- settings_present; congruence).
    destruct (IH _ _ _ Hes' Hl' Hv' Hf' (settings_inv_snoc _ _ Hp He Ha Hn Hfull)) as (o & Ho & Hiff).
    exists o. split; [done|]. intros s. rewrite Hiff, Forall_cons, <- app_assoc. cbn [app]. tauto.
Qed.

Lemma settings_wire_len es : Forall setting_encodable es -> (length es <= length (settings_wire es))%nat.
Proof.
  induction 1 as [|e es He _ IH]; [done|]. pose proof (setting_wire_pos e He) as Hz.
  change (settings_wire (e :: es)) with (setting_wire e ++ settings_wire es).
  rewrite length_app. unfold zlen in Hz. cbn [length]. lia.
Qed.

Lemma settings_wire_ok es : bytes_ok (settings_wire es).
Proof.
  unfold settings_wire, bytes_ok. induction es as [|e es IH]; [done|]. cbn [fmap list_fmap concat].
  rewrite Forall_app. split; [|done]. unfold setting_wire. rewrite Forall_app. split; apply varint_bytes_ok.
Qed.

Lemma settings_inv_nil : settings_inv [].
Proof. unfold settings_inv. cbn. split_and!; auto with lia. constructor. Qed.

Lemma settings_parse_wire es :
  Forall setting_encodable es -> zlen (settings_wire es) < 2 ^ 64 ->
  exists o, wt_http3_settings_parse (settings_wire es) = Some o /\
    forall s, o = Ok s <-> Forall (fun e => setting_admissible e = true) es /\
      s = kept_settings es /\ settings_inv s.
Proof.
  intros Hes Hz. apply (settings_parse_loop_spec es _ _ [] Hes).
  - apply cursor_init_live; [done|]. apply settings_wire_ok.
  - apply cursor_init_view.
  - pose proof (settings_wire_len es Hes). lia.
  - apply settings_inv_nil.
Qed.

(** ** The encoder *)

Section Emission.
Context (s : wt_http3_settings).

(** What is left to write. *)
Definition pending (emitted : list bool) : list (Z * Z) :=
  (List.filter (fun p => negb p.2) (zip s emitted)).*1.

Definition is_pending (emitted : list bool) (i : nat) : Prop :=
  (i < length s)%nat /\ emitted !! i = Some false.

Definition select_inv (emitted : list bool) (k : nat) (best : option nat) : Prop :=
  match best with
  | None => forall i, (i < k)%nat -> ~ is_pending emitted i
  | Some b => (b < k)%nat /\ is_pending emitted b /\
              forall i, (i < k)%nat -> is_pending emitted i -> setting_id s b <= setting_id s i
  end.

Lemma select_best_inv emitted :
  (length s <= length emitted)%nat -> select_inv emitted (length s) (select_best s emitted).
Proof.
  intros Hlen. unfold select_best.
  enough (H : forall k, (k <= length s)%nat ->
            select_inv emitted k (fold_left (select_step s emitted) (seq 0 k) None)) by (by apply H).
  induction k as [|k IH]; intros Hk; [intros i Hi; lia|].
  rewrite seq_S, fold_left_app. cbn [fold_left]. specialize (IH ltac:(lia)).
  set (best := fold_left _ _ _) in *. rewrite Nat.add_0_l. unfold select_step.
  destruct (emitted !! k) as [bk|] eqn:Ek; [|apply lookup_ge_None in Ek; lia]. cbn [default].
  assert (Hpend : is_pending emitted k <-> bk = false) by (unfold is_pending; rewrite Ek; split; [by intros [_ [= ->]]|by intros ->; split; [lia|]]).
  assert (Hsplit : forall i, (i < S k)%nat -> (i < k)%nat \/ i = k) by lia.
  destruct bk.
  - destruct best as [b|]; cbn in *.
    + destruct IH as (? & ? & Hmin). split_and!; [lia|done|].
      intros i [Hi| ->]%Hsplit Hp; [by apply Hmin|]. by apply Hpend in Hp.
    + intros i [Hi| ->]%Hsplit Hp; [by apply (IH i)|]. by apply Hpend in Hp.
  - destruct best as [b|]; cbn in *.
    + destruct IH as (? & ? & Hmin). destruct (Z.ltb_spec (setting_id s k) (setting_id s b)).
      * split_and!; [lia|by apply Hpend|]. intros i [Hi| ->]%Hsplit Hp; [|lia].
        specialize (Hmin i Hi Hp). lia.
      * split_and!; [lia|done|]. intros i [Hi| ->]%Hsplit Hp; [by apply Hmin|lia].
    + split_and!; [lia|by apply Hpend|]. intros i [Hi| ->]%Hsplit Hp; [|lia]. by destruct (IH i).
Qed.
End Emission.

Lemma zip_pending_insert {A} (l : list A) emitted b e :
  l !! b = Some e -> emitted !! b = Some false ->
  (List.filter (fun p => negb p.2) (zip l emitted)).*1 ≡ₚ
  e :: (List.filter (fun p => negb p.2) (zip l (<[b := true]> emitted))).*1.
Proof.
  revert emitted b. induction l as [|x l IH]; intros [|f emitted] [|b] Hl He; cbn in Hl, He; simplify_eq.
  - done.
  - change (<[S b := true]> (f :: emitted)) with (f :: <[b := true]> emitted). cbn [zip zip_with List.filter snd].
    destruct f; cbn [negb fmap list_fmap fst]; [by apply IH|]. rewrite (IH emitted b Hl He). apply perm_swap.
Qed.

Section EmissionOrder.
Context (s : wt_http3_settings).

Fixpoint emit_order (n : nat) (emitted : list bool) : list (Z * Z) :=
  match n with
  | O => []
  | S n => match select_best s emitted with
           | None => []
           | Some b => default (0, 0) (s !! b) :: emit_order n (<[b := true]> emitted)
           end
  end.

Lemma is_pending_elem emitted e :
  e ∈ pending s emitted <-> exists i, is_pending s emitted i /\ s !! i = Some e.
Proof.
  unfold pending, is_pending. rewrite list_elem_of_fmap. split.
  - intros ([e' f] & -> & Hin). apply list_elem_of_In, filter_In in Hin as [Hin Hf].
    apply list_elem_of_In, list_elem_of_lookup in Hin as [i Hi]. cbn in Hf. destruct f; [done|].
    apply lookup_zip_with_Some in Hi as (x & y & [= <- <-] & Hx & Hy). exists i. split_and!; try done.
    by apply lookup_lt_Some in Hx.
  - intros (i & (_ & Hf) & He). exists (e, false). split; [done|].
    apply list_elem_of_In, filter_In. split; [|done]. apply list_elem_of_In, list_elem_of_lookup. exists i.
    apply lookup_zip_with_Some. by exists e, false.
Qed.

Lemma emit_order_spec n : forall emitted,
  (length s <= length emitted)%nat -> length (pending s emitted) = n ->
  NoDup (pending s emitted).*1 ->
  emit_order n emitted ≡ₚ pending s emitted /\
  StronglySorted (fun a b => a.1 < b.1) (emit_order n emitted).
Proof.
  induction n as [|n IH]; intros emitted Hlen Hn Hnd; cbn [emit_order].
  { apply nil_length_inv in Hn as ->. split; [done|constructor]. }
  pose proof (select_best_inv s emitted Hlen) as Hsel. destruct (select_best s emitted) as [b|]; cbn in Hsel.
  - destruct Hsel as (Hb & Hpb & Hmin). destruct (lookup_lt_is_Some_2 (s : list (Z * Z)) b Hb) as [e He].
    replace (default (0, 0) (s !! b)) with e by (by rewrite He).
    pose proof (zip_pending_insert s emitted b e He (proj2 Hpb)) as Hperm. fold (pending s emitted) in Hperm.
    fold (pending s (<[b:=true]> emitted)) in Hperm.
    assert (Hnd' : NoDup (e :: pending s (<[b:=true]> emitted)).*1) by (by rewrite <- Hperm).
    rewrite fmap_cons in Hnd'. apply NoDup_cons in Hnd' as [Hfresh Hnd'].
    destruct (IH (<[b := true]> emitted)) as [Hp Hsorted]; [by rewrite length_insert| |done|].
    { apply Permutation_length in Hperm. cbn in Hperm. lia. }
    split; [by rewrite Hp, Hperm|]. constructor; [done|]. apply Forall_forall. intros e' He'.
    rewrite Hp in He'.
    assert (e'.1 <> e.1) by (intros E; apply Hfresh; rewrite <- E; exact (list_elem_of_fmap_2 fst _ _ He')).
    assert (He'' : e' ∈ pending s emitted) by (rewrite Hperm; by right).
    apply is_pending_elem in He'' as (i & Hpi & Hi). specialize (Hmin i (proj1 Hpi) Hpi).
    unfold setting_id in Hmin. assert (e.1 <= e'.1); [|lia].
    by rewrite He, Hi in Hmin.
  - assert (Hex : exists e, e ∈ pending s emitted)
      by (destruct (pending s emitted) as [|e l]; [done|]; exists e; left).
    destruct Hex as [e (i & Hi & _)%is_pending_elem]. destruct (Hsel i); [apply Hi|done].
Qed.

Lemma pending_none n : (length s <= n)%nat -> pending s (replicate n false) = s.
Proof.
  unfold pending. revert n. induction s as [|e l IH]; intros [|n] Hn; cbn in *; [done|done|lia|].
  f_equal. apply IH. lia.
Qed.

Lemma appends_emit n : forall emitted,
  Forall setting_encodable s ->
  appends (settings_emit_loop n s emitted) (settings_wire (emit_order n emitted)).
Proof.
  induction n as [|n IH]; intros emitted Hs; cbn [settings_emit_loop emit_order]; [apply appends_id|].
  destruct (select_best s emitted) as [b|]; [|apply appends_id].
  change (settings_wire (?e :: ?l)) with (setting_wire e ++ settings_wire l).
  apply (appends_seq (fun w => writer_varint (setting_value s b) (writer_varint (setting_id s b) w))
           (settings_emit_loop n s (<[b := true]> emitted))); [|by apply IH].
  assert (He : setting_encodable (default (0, 0) (s !! b))).
  { destruct ((s : list (Z * Z)) !! b) as [e|] eqn:E; cbn; [by eapply Forall_lookup_1|]. split; vm_compute; split; discriminate. }
  destruct He. unfold setting_wire, setting_value, setting_id. apply appends_seq; by apply appends_varint.
Qed.
End EmissionOrder.

Lemma NoDup_keys_unique {A B} (l : list (A * B)) k v v' :
  NoDup l.*1 -> (k, v) ∈ l -> (k, v') ∈ l -> v = v'.
Proof.
  intros Hnd [i Hi]%list_elem_of_lookup [j Hj]%list_elem_of_lookup.
  assert (i = j) as ->; [|congruence].
  eapply (NoDup_lookup l.*1); [done| |]; rewrite list_lookup_fmap, ?Hi, ?Hj; done.
Qed.

Lemma settings_get_spec (s : list (Z * Z)) id v :
  NoDup s.*1 -> (wt_http3_settings_get s id = (v, true) <-> (id, v) ∈ s) /\
                (wt_http3_settings_get s id = (0, false) <-> id ∉ s.*1).
Proof.
  intros Hnd. unfold wt_http3_settings_get. destruct (find _ s) as [[id' v']|] eqn:E; cbn [snd].
  - apply find_some in E as [Hin%list_elem_of_In Hid%Z.eqb_eq]. cbn in Hid. subst id'. split; split.
    + by intros [= ->].
    + intros Hin'. f_equal. by apply (NoDup_keys_unique s id).
    + done.
    + intros H. destruct H. by apply (list_elem_of_fmap_2 fst _ (id, v')).
  - assert (Hno : id ∉ s.*1).
    { intros (e & -> & He)%list_elem_of_fmap. apply list_elem_of_In in He.
      pose proof (find_none _ _ E e He) as H. cbn in H. lia. }
    split; split; [done| |done|done]. intros H. destruct Hno. by apply (list_elem_of_fmap_2 fst _ (id, v)).
Qed.

Lemma settings_get_perm (s s' : list (Z * Z)) id :
  NoDup s.*1 -> s ≡ₚ s' -> wt_http3_settings_get s' id = wt_http3_settings_get s id.
Proof.
  intros Hnd Hp. assert (Hnd' : NoDup s'.*1) by (by rewrite <- Hp).
  destruct (wt_http3_settings_get s id) as [v [|]] eqn:E.
  - apply (settings_get_spec s' id v Hnd'). rewrite <- Hp. by apply (settings_get_spec s id v Hnd).
  - assert (v = 0) as -> by (unfold wt_http3_settings_get in E; destruct (find _ s); congruence).
    apply (settings_get_spec s' id 0 Hnd'). rewrite <- Hp. by apply (settings_get_spec s id 0 Hnd).
Qed.

Lemma settings_get_kept (s : list (Z * Z)) id :
  wt_http3_setting_is_exerciser id = false ->
  wt_http3_settings_get (kept_settings s) id = wt_http3_settings_get s id.
Proof.
  intros Hx. unfold wt_http3_settings_get, kept_settings. induction s as [|e s IH]; [done|].
  cbn [List.filter find]. destruct (Z.eqb_spec e.1 id) as [<-|Hne].
  - rewrite Hx. cbn [negb find]. by rewrite Z.eqb_refl.
  - destruct (wt_http3_setting_is_exerciser e.1); cbn [negb find]; [done|].
    by rewrite (proj2 (Z.eqb_neq _ _) Hne).
Qed.

Lemma settings_inv_perm (s s' : list (Z * Z)) : s ≡ₚ s' -> settings_inv s -> settings_inv s'.
Proof. intros Hp. unfold settings_inv. by rewrite Hp. Qed.

Lemma Forall_kept P es : Forall P es -> Forall P (kept_settings es).
Proof. unfold kept_settings. induction 1; cbn; [constructor|]. destruct (negb _); auto. Qed.

Lemma settings_inv_kept s : settings_inv s -> settings_inv (kept_settings s).
Proof.
  intros (Hl & Hnd & He & Ha). split_and!.
  - unfold kept_settings. pose proof (filter_length_le (fun e : Z * Z => negb (wt_http3_setting_is_exerciser e.1)) s). lia.
  - unfold kept_settings. clear -Hnd. induction s as [|e s IH]; [constructor|]. rewrite fmap_cons in Hnd.
    apply NoDup_cons in Hnd as [Hf Hnd]. cbn [List.filter]. destruct (negb _); [|by apply IH].
    rewrite fmap_cons. apply NoDup_cons. split; [|by apply IH].
    intros (e' & E & (Hin & _)%list_elem_of_In%filter_In)%list_elem_of_fmap. apply Hf. rewrite E.
    by apply list_elem_of_fmap_2, list_elem_of_In.
  - by apply Forall_kept.
  - by apply Forall_kept.
Qed.

Lemma zlen_settings_wire es : zlen (settings_wire es) = zsum (fun e => zlen (setting_wire e)) es.
Proof.
  unfold settings_wire. induction es as [|e es IH]; [done|]. cbn [fmap list_fmap concat].
  by rewrite zlen_app, zsum_cons, IH.
Qed.

Lemma zsum_perm {A} (f : A -> Z) (l k : list A) : l ≡ₚ k -> zsum f l = zsum f k.
Proof. induction 1; rewrite ?zsum_cons; lia. Qed.

Lemma varint_bytes_le v : varint_ok v -> zlen (varint_bytes v) <= 8.
Proof. intros Hv. rewrite <- varint_size_bytes by done. apply varint_size_le. Qed.

Lemma settings_wire_bound es :
  Forall setting_encodable es -> zlen (settings_wire es) <= 16 * zlen es.
Proof.
  rewrite zlen_settings_wire. induction 1 as [|e es [H1 H2] _ IH]; [done|].
  rewrite zsum_cons, zlen_cons. unfold setting_wire at 1. rewrite zlen_app.
  pose proof (varint_bytes_le _ H1). pose proof (varint_bytes_le _ H2). lia.
Qed.

Lemma setting_read_safe :
  parser_safe setting_encodable
    (id <- wt_quic_varint_decode;; value <- wt_quic_varint_decode;; pret (id, value)).
Proof.
  eapply parser_safe_bind; [apply varint_decode_safe|]. intros id Hid.
  eapply parser_safe_bind; [apply varint_decode_safe|]. intros v Hv. by apply parser_safe_ret.
Qed.

Lemma setting_read_consumes :
  parser_consumes (id <- wt_quic_varint_decode;; value <- wt_quic_varint_decode;; pret (id, value)).
Proof.
  eapply parser_consumes_bind; [apply varint_decode_safe|apply varint_decode_consumes|]. intros id _.
  eapply (parser_safe_bind _ (fun _ => True)); [apply varint_decode_safe|]. intros v _. by apply parser_safe_ret.
Qed.

Definition settings_outcome_ok (o : outcome wt_http3_settings) : Prop :=
  match o with
  | Ok s => settings_inv s /\ Forall (fun e => wt_http3_setting_is_exerciser e.1 = false) s
  | Fail st e => e = Some WT_HTTP3_SETTINGS_ERROR /\ (st = WT_ERR_TRUNCATED \/ st = WT_ERR_PROTOCOL) \/
                 e = Some WT_HTTP3_EXCESSIVE_LOAD /\ st = WT_ERR_LIMIT
  end.

(** Each parameter of the loop takes at least a byte, so the fuel suffices. *)
Lemma settings_parse_loop_safe fuel : forall c parsed,
  cursor_inv c -> (length (cursor_view c) < fuel)%nat -> settings_inv parsed ->
  Forall (fun e => wt_http3_setting_is_exerciser e.1 = false) parsed ->
  exists o, settings_parse_loop fuel c parsed = Some o /\ settings_outcome_ok o.
Proof.
  induction fuel as [|fuel IH]; intros c parsed Hc Hf Hp Hx; [lia|]. cbn [settings_parse_loop].
  destruct (wt_cursor_at_end c); [by eexists|].
  pose proof (setting_read_safe c Hc) as (Hc' & Hd & Hl & Ho & He).
  pose proof (setting_read_consumes c Hc) as Hpos. set (p := pbind _ _) in *.
  destruct (p c) as [[e|s e] c']; cbn in *; [|eexists; split; [done|]; left; auto].
  assert (Hf' : (length (cursor_view c') < fuel)%nat).
  { pose proof (cursor_view_len c Hc). pose proof (cursor_view_len c' Hc'). unfold zlen in *. lia. }
  pose proof (settings_set_spec parsed e He) as Hset. destruct e as [id value]. cbn [fst snd] in *.
  rewrite Hset. unfold setting_admissible. cbn [fst snd].
  assert (Herr : forall s, s = WT_ERR_PROTOCOL -> settings_outcome_ok (Fail s (Some WT_HTTP3_SETTINGS_ERROR)))
    by (intros ? ->; left; auto).
  destruct (wt_http3_setting_is_reserved_http2 id) eqn:Hr; [eauto|].
  destruct (wt_http3_setting_is_exerciser id) eqn:Hex; [by apply IH|].
  destruct (id =? WT_HTTP3_SETTING_ENABLE_CONNECT_PROTOCOL) eqn:E1, (id =? WT_HTTP3_SETTING_H3_DATAGRAM) eqn:E2,
    (1 <? value) eqn:E3; cbn [andb orb negb]; eauto;
  (destruct (existsb _ parsed) eqn:Hin; [by eauto|];
   destruct (Nat.leb _ _) eqn:Hfull; [by eexists; split; [done|]; right|];
   apply Nat.leb_gt in Hfull; apply IH; [done|done| |by apply Forall_app_2; [|constructor]];
   apply settings_inv_snoc; try done;
   [unfold setting_admissible; cbn [fst snd]; by rewrite Hr, E1, E2, E3|rewrite <- settings_present; cbn; congruence]).
Qed.

(** ** Theorems *)

(** A SETTINGS payload is accepted exactly when every entry is admissible, no kept identifier repeats and at most sixteen are kept; then the table is exactly the kept entries in order. *)
Lemma settings_parse_exact es :
  Forall setting_encodable es -> zlen (settings_wire es) < 2 ^ 64 ->
  exists o, wt_http3_settings_parse (settings_wire es) = Some o /\
    forall s, o = Ok s <->
      Forall (fun e => setting_admissible e = true) es /\ NoDup (kept_settings es).*1 /\
      (length (kept_settings es) <= WT_HTTP3_SETTINGS_MAX_ENTRIES)%nat /\ s = kept_settings es.
Proof.
  intros Hes Hz. destruct (settings_parse_wire es Hes Hz) as (o & Ho & Hiff). exists o. split; [done|].
  intros s. rewrite Hiff. split.
  - intros (Ha & -> & (Hl & Hnd & _)). by split_and!.
  - intros (Ha & Hnd & Hl & ->). split_and!; [done|done|]. unfold settings_inv. split_and!; try done; by apply Forall_kept.
Qed.

Lemma settings_parse_exact_witness :
  wt_http3_settings_parse (settings_wire [(0x33, 1); (0x21, 7); (0x08, 1)]) =
    Some (Ok [(0x33, 1); (0x08, 1)]).
Proof.
  destruct (settings_parse_exact [(0x33, 1); (0x21, 7); (0x08, 1)]) as (o & -> & Ho).
  - repeat constructor; vm_compute; discriminate.
  - vm_compute. reflexivity.
  - f_equal. apply Ho. split; [by repeat constructor|]. split; [by apply (bool_decide_unpack _)|].
    split; [vm_compute; lia|done].
Defined.

(** The encoder writes the settings of a table once each, sorted by identifier, and parsing what it wrote gives a table with the same answer to every lookup (reserved exerciser identifiers aside). *)
Lemma settings_roundtrip s w :
  settings_inv s -> writer_inv w -> w_overflow w = false -> w_copy w = true ->
  zlen (settings_wire s) <= writer_room w ->
  exists es, es ≡ₚ s /\ StronglySorted (fun a b => a.1 < b.1) es /\
    (wt_http3_settings_encode_payload s w).1 = WT_OK /\
    writer_bytes (wt_http3_settings_encode_payload s w).2 = writer_bytes w ++ settings_wire es /\
    wt_http3_settings_parse (settings_wire es) = Some (Ok (kept_settings es)) /\
    forall id, wt_http3_setting_is_exerciser id = false ->
      wt_http3_settings_get (kept_settings es) id = wt_http3_settings_get s id.
Proof.
  intros Hs Hw Hov Hcp Hroom. pose proof Hs as (Hl & Hnd & He & Ha).
  pose proof (pending_none s _ Hl) as Hpn.
  destruct (emit_order_spec s (length s) (replicate WT_HTTP3_SETTINGS_MAX_ENTRIES false)) as [Hp Hsort].
  { by rewrite length_replicate. } { by rewrite Hpn. } { by rewrite Hpn. }
  rewrite Hpn in Hp. set (es := emit_order s (length s) (replicate WT_HTTP3_SETTINGS_MAX_ENTRIES false)) in *.
  assert (Hes : settings_inv es) by (by eapply settings_inv_perm).
  assert (Hzl : zlen (settings_wire es) = zlen (settings_wire s))
    by (rewrite !zlen_settings_wire; by apply zsum_perm).
  destruct (encodes_bytes _ _ w (encodes_status _ _ (appends_emit s (length s)
    (replicate WT_HTTP3_SETTINGS_MAX_ENTRIES false) He)) Hw Hov Hcp ltac:(fold es; lia)) as [He1 He2].
  exists es. split_and!; [done|done|exact He1|exact He2| |].
  - destruct (settings_parse_wire es) as (o & -> & Ho); [apply Hes| |].
    + pose proof (settings_wire_bound es (proj1 (proj2 (proj2 Hes)))) as Hb.
      destruct Hes as (Hl' & _). unfold WT_HTTP3_SETTINGS_MAX_ENTRIES, zlen in *. lia.
    + f_equal. apply Ho. split_and!; [apply Hes|done|by apply settings_inv_kept].
  - intros id Hx. rewrite settings_get_kept by done. by apply settings_get_perm.
Qed.

Lemma settings_roundtrip_witness :
  let s := [(0x33, 1); (0x08, 1); (0x21, 9)] in
  exists es, es ≡ₚ s /\ wt_http3_settings_parse (settings_wire es) = Some (Ok (kept_settings es)).
Proof.
  destruct (settings_roundtrip [(0x33, 1); (0x08, 1); (0x21, 9)]
    (wt_writer_init (Some (replicate 16 0)) 16)) as (es & Hp & _ & _ & _ & Hparse & _).
  - split_and!; [cbn; unfold WT_HTTP3_SETTINGS_MAX_ENTRIES; lia|by apply (bool_decide_unpack _)| |repeat constructor].
    repeat constructor; vm_compute; discriminate.
  - apply (writer_init_inv (replicate 16 0)). done.
  - done.
  - done.
  - vm_compute. discriminate.
  - exists es. by split.
Defined.

(** Parsing SETTINGS from any bytes ends, with a well-formed table or with the status and HTTP/3 error of its kind. *)
Lemma settings_parse_arbitrary_bytes d :
  bytes_ok d -> zlen d < 2 ^ 64 ->
  exists o, wt_http3_settings_parse d = Some o /\
  match o with
  | Ok s => settings_inv s /\ Forall (fun e => wt_http3_setting_is_exerciser e.1 = false) s
  | Fail st e => e = Some WT_HTTP3_SETTINGS_ERROR /\ (st = WT_ERR_TRUNCATED \/ st = WT_ERR_PROTOCOL) \/
                 e = Some WT_HTTP3_EXCESSIVE_LOAD /\ st = WT_ERR_LIMIT
  end.
Proof.
  intros Hok Hz. unfold wt_http3_settings_parse. apply settings_parse_loop_safe; [by apply cursor_init_inv| |by apply settings_inv_nil|constructor].
  rewrite cursor_init_view. lia.
Qed.

Lemma settings_parse_arbitrary_bytes_witness :
  wt_http3_settings_parse [0x33; 1; 0x08] = Some (Fail WT_ERR_TRUNCATED (Some WT_HTTP3_SETTINGS_ERROR)).
Proof.
  destruct (settings_parse_arbitrary_bytes [0x33; 1; 0x08]) as (o & Ho & _);
    [by apply bytes_okb_spec|done|]. rewrite Ho. vm_compute in Ho. by injection Ho as <-.
Defined.
