(* ===== verification/Http3Control.v ===== *)
(** * Stream roles, GOAWAY and the control stream of HTTP/3

    [src/http3/streams.c]: which frame may appear on which stream.
    [src/http3/goaway.c]: the GOAWAY payload and the identifiers a peer may name.
    [src/http3/control.c]: the machine of the peer's control stream, which
    reassembles the SETTINGS payload and hands it to the parser of
    [Http3Settings]. *)

From S2P Require Export Http3Settings.
From stdpp Require Import sorting.
#[local] Open Scope Z_scope.

Inductive wt_http3_role := WT_HTTP3_ROLE_CLIENT | WT_HTTP3_ROLE_SERVER.

#[export] Instance wt_http3_role_eq_dec : EqDecision wt_http3_role.
Proof. solve_decision. Defined.

(** ** Frames on streams *)

Inductive wt_http3_stream_kind :=
  | WT_HTTP3_STREAM_KIND_CONTROL
  | WT_HTTP3_STREAM_KIND_REQUEST
  | WT_HTTP3_STREAM_KIND_PUSH
  | WT_HTTP3_STREAM_KIND_QPACK_ENCODER
  | WT_HTTP3_STREAM_KIND_QPACK_DECODER.

(** The refusal every rule of this file ends in. *)
Definition unexpected : wt_status * option Z := (WT_ERR_PROTOCOL, Some WT_HTTP3_FRAME_UNEXPECTED).
Definition allowed : wt_status * option Z := (WT_OK, None).

Definition wt_http3_frame_allowed (receiver : wt_http3_role) (kind : wt_http3_stream_kind) (type : Z)
    : wt_status * option Z :=
  if wt_http3_frame_type_is_reserved type then unexpected
  else match kind with
  | WT_HTTP3_STREAM_KIND_QPACK_ENCODER | WT_HTTP3_STREAM_KIND_QPACK_DECODER => unexpected
  | WT_HTTP3_STREAM_KIND_CONTROL =>
      if (type =? WT_HTTP3_FRAME_DATA) || (type =? WT_HTTP3_FRAME_HEADERS) ||
         (type =? WT_HTTP3_FRAME_PUSH_PROMISE) then unexpected
      else if (type =? WT_HTTP3_FRAME_MAX_PUSH_ID) && bool_decide (receiver = WT_HTTP3_ROLE_CLIENT)
      then unexpected else allowed
  | WT_HTTP3_STREAM_KIND_REQUEST =>
      if (type =? WT_HTTP3_FRAME_SETTINGS) || (type =? WT_HTTP3_FRAME_GOAWAY) ||
         (type =? WT_HTTP3_FRAME_MAX_PUSH_ID) || (type =? WT_HTTP3_FRAME_CANCEL_PUSH) then unexpected
      else if (type =? WT_HTTP3_FRAME_PUSH_PROMISE) && bool_decide (receiver = WT_HTTP3_ROLE_SERVER)
      then unexpected else allowed
  | WT_HTTP3_STREAM_KIND_PUSH =>
      if (type =? WT_HTTP3_FRAME_SETTINGS) || (type =? WT_HTTP3_FRAME_GOAWAY) ||
         (type =? WT_HTTP3_FRAME_MAX_PUSH_ID) || (type =? WT_HTTP3_FRAME_CANCEL_PUSH) ||
         (type =? WT_HTTP3_FRAME_PUSH_PROMISE) then unexpected else allowed
  end.

Definition WT_HTTP3_STREAM_CONTROL : Z := 0x00.
Definition WT_HTTP3_STREAM_PUSH : Z := 0x01.
Definition WT_HTTP3_STREAM_QPACK_ENCODER : Z := 0x02.
Definition WT_HTTP3_STREAM_QPACK_DECODER : Z := 0x03.

Definition wt_http3_stream_kind_for_type (stream_type : Z) : outcome wt_http3_stream_kind :=
  if stream_type =? WT_HTTP3_STREAM_CONTROL then Ok WT_HTTP3_STREAM_KIND_CONTROL
  else if stream_type =? WT_HTTP3_STREAM_QPACK_ENCODER then Ok WT_HTTP3_STREAM_KIND_QPACK_ENCODER
  else if stream_type =? WT_HTTP3_STREAM_QPACK_DECODER then Ok WT_HTTP3_STREAM_KIND_QPACK_DECODER
  else if stream_type =? WT_HTTP3_STREAM_PUSH then Ok WT_HTTP3_STREAM_KIND_PUSH
  else Fail WT_ERR_STATE None.

(** ** GOAWAY *)

Definition WT_HTTP3_GOAWAY_SERVER_MAXIMUM : Z := 0x3ffffffffffffffc.
Definition WT_HTTP3_GOAWAY_CLIENT_MAXIMUM : Z := 0x3fffffffffffffff.

Record wt_http3_goaway := mk_goaway { ga_received : bool; ga_identifier : Z; ga_sender : wt_http3_role }.

Definition wt_http3_goaway_init : wt_http3_goaway := mk_goaway false 0 WT_HTTP3_ROLE_SERVER.

Definition wt_http3_goaway_maximum_identifier (sender : wt_http3_role) : Z :=
  match sender with
  | WT_HTTP3_ROLE_SERVER => WT_HTTP3_GOAWAY_SERVER_MAXIMUM
  | WT_HTTP3_ROLE_CLIENT => WT_HTTP3_GOAWAY_CLIENT_MAXIMUM
  end.

Definition wt_http3_goaway_encode_payload (identifier : Z) (w : wt_writer) : wt_status * wt_writer :=
  if WT_QUIC_VARINT_MAX <? identifier then (WT_ERR_INVALID_ARGUMENT, w)
  else writer_status (writer_varint identifier w).

Definition wt_http3_goaway_decode_payload (payload : list Z) : outcome Z :=
  match wt_quic_varint_decode (wt_cursor_init (Some payload) (zlen payload)) with
  | (Fail _ _, _) => Fail WT_ERR_TRUNCATED (Some WT_HTTP3_FRAME_ERROR)
  | (Ok identifier, c) =>
      if negb (wt_cursor_at_end c) then Fail WT_ERR_PROTOCOL (Some WT_HTTP3_FRAME_ERROR)
      else Ok identifier
  end.

Definition wt_http3_goaway_on_received (g : wt_http3_goaway) (sender : wt_http3_role) (identifier : Z)
    : wt_status * option Z * wt_http3_goaway :=
  if bool_decide (sender = WT_HTTP3_ROLE_SERVER) && negb (Z.land identifier 0x03 =? 0)
  then (WT_ERR_PROTOCOL, Some WT_HTTP3_ID_ERROR, g)
  else if ga_received g && (ga_identifier g <? identifier)
  then (WT_ERR_PROTOCOL, Some WT_HTTP3_ID_ERROR, g)
  else (WT_OK, None, mk_goaway true identifier sender).

Definition wt_http3_goaway_rejects_stream (g : wt_http3_goaway) (stream_id : Z) : bool :=
  if negb (ga_received g) then false else ga_identifier g <=? stream_id.

Definition wt_http3_goaway_allows_new_requests (g : wt_http3_goaway) : bool := negb (ga_received g).

(** ** The control stream *)

Definition WT_HTTP3_CONTROL_SETTINGS_MAX : Z := 512.

(** [ctl_settings] holds the first [settings_length] bytes of the buffer. *)
Record wt_http3_control_stream := mk_control {
  ctl_opened : bool;
  ctl_settings_received : bool;
  ctl_closed : bool;
  ctl_settings : list Z;
  ctl_settings_failed : bool }.

Definition wt_http3_control_init : wt_http3_control_stream := mk_control false false false [] false.

Definition wt_http3_control_peer_opened (s : wt_http3_control_stream)
    : wt_status * option Z * wt_http3_control_stream :=
  if ctl_opened s then (WT_ERR_PROTOCOL, Some WT_HTTP3_STREAM_CREATION_ERROR, s)
  else (WT_OK, None, mk_control true (ctl_settings_received s) (ctl_closed s) (ctl_settings s)
                       (ctl_settings_failed s)).

Definition wt_http3_control_on_frame (s : wt_http3_control_stream) (type : Z)
    : wt_status * option Z * wt_http3_control_stream :=
  if negb (ctl_opened s) || ctl_closed s then (WT_ERR_STATE, None, s)
  else if negb (ctl_settings_received s) then
    if type =? WT_HTTP3_FRAME_SETTINGS
    then (WT_OK, None, mk_control (ctl_opened s) true (ctl_closed s) [] false)
    else (WT_ERR_PROTOCOL, Some WT_HTTP3_MISSING_SETTINGS, s)
  else if wt_http3_frame_type_is_reserved type then (unexpected, s)
  else if type =? WT_HTTP3_FRAME_SETTINGS then (unexpected, s)
  else if (type =? WT_HTTP3_FRAME_DATA) || (type =? WT_HTTP3_FRAME_HEADERS) ||
          (type =? WT_HTTP3_FRAME_PUSH_PROMISE) then (unexpected, s)
  else (allowed, s).

Definition set_settings (s : wt_http3_control_stream) (l : list Z) (failed : bool)
    : wt_http3_control_stream :=
  mk_control (ctl_opened s) (ctl_settings_received s) (ctl_closed s) l failed.

(** The parser's verdict; the parsed table is a local of the source. *)
Definition settings_verdict (payload : list Z) : wt_status * option Z :=
  match wt_http3_settings_parse payload with
  | Some (Ok _) => (WT_OK, None)
  | Some (Fail st e) => (st, e)
  | None => (WT_ERR_TRUNCATED, Some WT_HTTP3_SETTINGS_ERROR) (* unreachable: [settings_parse_arbitrary_bytes] *)
  end.

Definition wt_http3_control_on_frame_payload (s : wt_http3_control_stream) (type : Z)
    (payload : list Z) (last : bool) : wt_status * option Z * wt_http3_control_stream :=
  if negb (type =? WT_HTTP3_FRAME_SETTINGS) then (WT_OK, None, s)
  else if negb (ctl_settings_received s) then (WT_ERR_STATE, None, s)
  else if ctl_settings_failed s then (WT_ERR_LIMIT, Some WT_HTTP3_EXCESSIVE_LOAD, s)
  else if u64 (WT_HTTP3_CONTROL_SETTINGS_MAX - zlen (ctl_settings s)) <? zlen payload
  then (WT_ERR_LIMIT, Some WT_HTTP3_EXCESSIVE_LOAD, set_settings s [] true)
  else
    let held := ctl_settings s ++ payload in
    if negb last then (WT_OK, None, set_settings s held (ctl_settings_failed s))
    else (settings_verdict held, set_settings s [] (ctl_settings_failed s)).

Definition wt_http3_control_on_closed (s : wt_http3_control_stream)
    : wt_status * option Z * wt_http3_control_stream :=
  if negb (ctl_opened s) || ctl_closed s then (WT_ERR_STATE, None, s)
  else (WT_ERR_PROTOCOL, Some WT_HTTP3_CLOSED_CRITICAL_STREAM,
        mk_control (ctl_opened s) (ctl_settings_received s) true (ctl_settings s)
          (ctl_settings_failed s)).

(** ** GOAWAY: what the identifiers of a connection can be *)

(** The frames a peer sends, and what has been accepted so far, newest first. *)
Definition goaway_step (sender : wt_http3_role) (a : wt_http3_goaway * list Z) (identifier : Z)
    : wt_http3_goaway * list Z :=
  match wt_http3_goaway_on_received a.1 sender identifier with
  | (WT_OK, _, g) => (g, identifier :: a.2)
  | (_, _, g) => (g, a.2)
  end.

Definition goaway_inv (sender : wt_http3_role) (a : wt_http3_goaway * list Z) : Prop :=
  ga_received a.1 = negb (bool_decide (a.2 = [])) /\
  match a.2 with [] => True | i :: _ => ga_identifier a.1 = i end /\
  StronglySorted Z.le a.2 /\
  (sender = WT_HTTP3_ROLE_SERVER -> Forall (fun i => Z.land i 3 = 0) a.2).

Lemma goaway_step_inv sender a i : goaway_inv sender a -> goaway_inv sender (goaway_step sender a i).
Proof.
  destruct a as [g l]. intros (Hr & Hi & Hs & Hf). cbn in *. unfold goaway_step, wt_http3_goaway_on_received.
  cbn [fst snd]. destruct (_ && _) eqn:E1; [by split_and!|].
  destruct (ga_received g && _) eqn:E2; [by split_and!|]. split_and!; cbn; [done|done| |].
  - constructor; [done|]. destruct l as [|j l]; [constructor|]. rewrite Hr in E2. cbn in E2. subst j.
    inversion_clear Hs as [|? ? Hs' Hle]. constructor; [lia|]. eapply Forall_impl; [exact Hle|]. cbn. lia.
  - intros Hsrv. constructor; [|by apply Hf]. rewrite (bool_decide_true _ Hsrv) in E1. cbn in E1. lia.
Qed.

Lemma goaway_run_inv sender ids a :
  goaway_inv sender a -> goaway_inv sender (fold_left (goaway_step sender) ids a).
Proof.
  revert a. induction ids as [|i ids IH]; intros a Ha; [done|]. cbn [fold_left]. apply IH.
  by apply goaway_step_inv.
Qed.

Lemma goaway_step_rejects sender a i x :
  goaway_inv sender a -> wt_http3_goaway_rejects_stream a.1 x = true ->
  wt_http3_goaway_rejects_stream (goaway_step sender a i).1 x = true.
Proof.
  destruct a as [g l]. intros _. unfold goaway_step, wt_http3_goaway_on_received, wt_http3_goaway_rejects_stream.
  cbn [fst snd]. destruct (ga_received g) eqn:Hr; [|done]. cbn [negb andb]. intros Hx.
  destruct (_ && _); cbn; [by rewrite Hr|]. destruct (Z.ltb_spec (ga_identifier g) i); cbn; [by rewrite Hr|]. lia.
Qed.

Lemma goaway_run_rejects sender ids a x :
  goaway_inv sender a -> wt_http3_goaway_rejects_stream a.1 x = true ->
  wt_http3_goaway_rejects_stream (fold_left (goaway_step sender) ids a).1 x = true.
Proof.
  revert a. induction ids as [|i ids IH]; intros a Ha Hx; [done|]. cbn [fold_left].
  apply IH; [by apply goaway_step_inv|by apply (goaway_step_rejects sender)].
Qed.

Lemma goaway_init_inv sender : goaway_inv sender (wt_http3_goaway_init, []).
Proof. split_and!; try done. constructor. Qed.

(** Over any sequence of GOAWAY frames, the accepted identifiers never increase and a server's are request stream identifiers; after the first accepted one no new request is allowed, exactly the streams at or above the last accepted identifier are rejected, and a stream once rejected stays rejected. *)
Lemma goaway_only_narrows sender early late x :
  let run ids := fold_left (goaway_step sender) ids (wt_http3_goaway_init, []) in
  let '(g, accepted) := run (early ++ late) in
  StronglySorted Z.le accepted /\
  (sender = WT_HTTP3_ROLE_SERVER -> Forall (fun i => Z.land i 3 = 0) accepted) /\
  (forall i rest, accepted = i :: rest ->
     wt_http3_goaway_allows_new_requests g = false /\ wt_http3_goaway_rejects_stream g x = (i <=? x)) /\
  (accepted = [] -> wt_http3_goaway_allows_new_requests g = true /\ wt_http3_goaway_rejects_stream g x = false) /\
  (wt_http3_goaway_rejects_stream (run early).1 x = true -> wt_http3_goaway_rejects_stream g x = true).
Proof.
  cbv zeta beta. destruct (fold_left _ (early ++ late) _) as [g accepted] eqn:E.
  pose proof (goaway_run_inv sender (early ++ late) _ (goaway_init_inv sender)) as Hinv. rewrite E in Hinv.
  destruct Hinv as (Hr & Hi & Hs & Hf). cbn in Hr, Hi, Hs, Hf.
  unfold wt_http3_goaway_allows_new_requests, wt_http3_goaway_rejects_stream at 1 2. split_and!; [done|done| | |].
  - intros i rest ->. rewrite Hr. cbn. by rewrite Hi.
  - intros ->. by rewrite Hr.
  - intros Hx. pose proof (goaway_run_rejects sender late _ x
      (goaway_run_inv sender early _ (goaway_init_inv sender)) Hx) as H.
    by rewrite <- fold_left_app, E in H.
Qed.

(** ** The control stream *)

(** The pieces of one SETTINGS payload, delivered in order: the first answer that is
    not OK, or the last one. *)
Fixpoint deliver_settings (s : wt_http3_control_stream) (pieces : list (list Z)) : wt_status * option Z :=
  match pieces with
  | [] => (WT_OK, None)
  | [p] => (wt_http3_control_on_frame_payload s WT_HTTP3_FRAME_SETTINGS p true).1
  | p :: pieces =>
      match wt_http3_control_on_frame_payload s WT_HTTP3_FRAME_SETTINGS p false with
      | (WT_OK, _, s') => deliver_settings s' pieces
      | (r, _) => r
      end
  end.

(** One delivery to a SETTINGS frame that is still being read. *)
Lemma control_payload_held s p last :
  ctl_settings_received s = true -> ctl_settings_failed s = false -> zlen (ctl_settings s) <= WT_HTTP3_CONTROL_SETTINGS_MAX ->
  wt_http3_control_on_frame_payload s WT_HTTP3_FRAME_SETTINGS p last =
    if WT_HTTP3_CONTROL_SETTINGS_MAX <? zlen (ctl_settings s ++ p)
    then (WT_ERR_LIMIT, Some WT_HTTP3_EXCESSIVE_LOAD, set_settings s [] true)
    else if negb last then (WT_OK, None, set_settings s (ctl_settings s ++ p) false)
    else (settings_verdict (ctl_settings s ++ p), set_settings s [] false).
Proof.
  intros Hr Hf Hl. unfold wt_http3_control_on_frame_payload. rewrite Z.eqb_refl, Hr, Hf. cbn [negb].
  pose proof (zlen_nonneg p). pose proof (zlen_nonneg (ctl_settings s)).
  unfold WT_HTTP3_CONTROL_SETTINGS_MAX in *. rewrite (u64_small (512 - _)) by (unfold is_u64; lia).
  rewrite zlen_app. destruct (Z.ltb_spec (512 - zlen (ctl_settings s)) (zlen p)); by ztest.
Qed.

Lemma deliver_settings_spec pieces : forall s,
  ctl_settings_received s = true -> ctl_settings_failed s = false ->
  zlen (ctl_settings s) <= WT_HTTP3_CONTROL_SETTINGS_MAX -> pieces <> [] ->
  deliver_settings s pieces =
    if zlen (ctl_settings s ++ concat pieces) <=? WT_HTTP3_CONTROL_SETTINGS_MAX
    then settings_verdict (ctl_settings s ++ concat pieces)
    else (WT_ERR_LIMIT, Some WT_HTTP3_EXCESSIVE_LOAD).
Proof.
  induction pieces as [|p pieces IH]; intros s Hr Hf Hl Hne; [done|].
  pose proof (zlen_nonneg (concat pieces)). destruct pieces as [|p' pieces]; cbn [deliver_settings]; rewrite control_payload_held by done.
  - cbn [concat]. rewrite app_nil_r, Z.leb_antisym. by destruct (_ <? _).
  - cbn [negb]. change (concat (p :: p' :: pieces)) with (p ++ concat (p' :: pieces)). rewrite app_assoc.
    destruct (Z.ltb_spec WT_HTTP3_CONTROL_SETTINGS_MAX (zlen (ctl_settings s ++ p))).
    { rewrite (proj2 (Z.leb_gt _ _)) by (rewrite zlen_app; lia). done. }
    exact (IH (set_settings s (ctl_settings s ++ p) false) Hr eq_refl H0 ltac:(done)).
Qed.

(** A frame's payload in two pieces. *)
Lemma control_payload_pieces c t p q final :
  zlen (ctl_settings c) <= WT_HTTP3_CONTROL_SETTINGS_MAX ->
  let whole := wt_http3_control_on_frame_payload c t (p ++ q) final in
  let first := wt_http3_control_on_frame_payload c t p false in
  if bool_decide (first.1.1 = WT_OK)
  then whole = wt_http3_control_on_frame_payload first.2 t q final /\ zlen (ctl_settings first.2) <= WT_HTTP3_CONTROL_SETTINGS_MAX
  else whole.1 = first.1.
Proof.
  intros Hl. cbv zeta. destruct (t =? WT_HTTP3_FRAME_SETTINGS) eqn:Et.
  2:{ unfold wt_http3_control_on_frame_payload. rewrite Et. cbn [negb fst snd]. by rewrite bool_decide_true. }
  apply Z.eqb_eq in Et as ->. destruct (ctl_settings_received c) eqn:Er.
  2:{ unfold wt_http3_control_on_frame_payload. by rewrite Z.eqb_refl, Er. }
  destruct (ctl_settings_failed c) eqn:Ef.
  { unfold wt_http3_control_on_frame_payload. by rewrite Z.eqb_refl, Er, Ef. }
  rewrite !(control_payload_held c) by done. cbn [negb]. pose proof (zlen_nonneg q). rewrite app_assoc, (zlen_app (_ ++ p) q).
  destruct (Z.ltb_spec WT_HTTP3_CONTROL_SETTINGS_MAX (zlen (ctl_settings c ++ p))) as [Hp|Hp]; cbn [fst snd].
  - rewrite bool_decide_false by done. by ztest.
  - rewrite bool_decide_true by done. rewrite control_payload_held by done. cbn [ctl_settings set_settings]. split; [|done].
    by rewrite (zlen_app (_ ++ p) q).
Qed.

(** A frame list a peer may send on its control stream: SETTINGS first and once. *)
Definition control_list_ok (types : list Z) : bool :=
  match types with
  | [] => true
  | t :: ts => (t =? WT_HTTP3_FRAME_SETTINGS) &&
      forallb (fun t => negb (t =? WT_HTTP3_FRAME_SETTINGS) &&
        bool_decide ((wt_http3_frame_allowed WT_HTTP3_ROLE_SERVER WT_HTTP3_STREAM_KIND_CONTROL t).1 = WT_OK)) ts
  end.

Fixpoint control_frames (s : wt_http3_control_stream) (types : list Z) : wt_status * option Z :=
  match types with
  | [] => (WT_OK, None)
  | t :: ts => match wt_http3_control_on_frame s t with
               | (WT_OK, _, s') => control_frames s' ts
               | (r, _) => r
               end
  end.

Lemma control_on_frame_after_settings s t :
  ctl_opened s = true -> ctl_closed s = false -> ctl_settings_received s = true ->
  wt_http3_control_on_frame s t =
    (if negb (t =? WT_HTTP3_FRAME_SETTINGS) &&
        bool_decide ((wt_http3_frame_allowed WT_HTTP3_ROLE_SERVER WT_HTTP3_STREAM_KIND_CONTROL t).1 = WT_OK)
     then allowed else unexpected, s).
Proof.
  intros Ho Hc Hr. unfold wt_http3_control_on_frame, wt_http3_frame_allowed. rewrite Ho, Hc, Hr. cbn [negb orb].
  destruct (wt_http3_frame_type_is_reserved t); [by rewrite andb_false_r|].
  destruct (t =? WT_HTTP3_FRAME_SETTINGS) eqn:Es; [done|]. cbn [negb andb].
  destruct (_ || _); [done|]. rewrite (bool_decide_false (WT_HTTP3_ROLE_SERVER = WT_HTTP3_ROLE_CLIENT)) by done.
  by rewrite andb_false_r.
Qed.

Lemma control_frames_after_settings ts : forall s,
  ctl_opened s = true -> ctl_closed s = false -> ctl_settings_received s = true ->
  control_frames s ts =
    if forallb (fun t => negb (t =? WT_HTTP3_FRAME_SETTINGS) &&
         bool_decide ((wt_http3_frame_allowed WT_HTTP3_ROLE_SERVER WT_HTTP3_STREAM_KIND_CONTROL t).1 = WT_OK)) ts
    then allowed else unexpected.
Proof.
  induction ts as [|t ts IH]; intros s Ho Hc Hr; [done|]. cbn [control_frames forallb].
  rewrite control_on_frame_after_settings by done. destruct (_ && _); cbn [allowed unexpected andb]; [by apply IH|done].
Qed.

(** The frames accepted on a control stream are exactly SETTINGS first and then frames allowed there with no second SETTINGS: any other sequence is refused with MISSING_SETTINGS when it does not start with SETTINGS and FRAME_UNEXPECTED otherwise. A second control stream, the close of the stream and frames after it are refused with their codes. *)
Lemma control_stream_grammar types :
  let s := (wt_http3_control_peer_opened wt_http3_control_init).2 in
  control_frames s types =
    match types with
    | [] => (WT_OK, None)
    | t :: _ => if negb (t =? WT_HTTP3_FRAME_SETTINGS) then (WT_ERR_PROTOCOL, Some WT_HTTP3_MISSING_SETTINGS)
                else if control_list_ok types then (WT_OK, None)
                else (WT_ERR_PROTOCOL, Some WT_HTTP3_FRAME_UNEXPECTED)
    end /\
  (wt_http3_control_peer_opened s).1 = (WT_ERR_PROTOCOL, Some WT_HTTP3_STREAM_CREATION_ERROR) /\
  (wt_http3_control_on_closed s).1 = (WT_ERR_PROTOCOL, Some WT_HTTP3_CLOSED_CRITICAL_STREAM) /\
  forall t, wt_http3_control_on_frame (wt_http3_control_on_closed s).2 t =
    (WT_ERR_STATE, None, (wt_http3_control_on_closed s).2).
Proof.
  split_and!; [|done|done|done]. destruct types as [|t ts]; [done|].
  set (s := (wt_http3_control_peer_opened wt_http3_control_init).2). cbn [control_frames].
  assert (Hfirst : wt_http3_control_on_frame s t =
    if t =? WT_HTTP3_FRAME_SETTINGS then (WT_OK, None, mk_control true true false [] false)
    else (WT_ERR_PROTOCOL, Some WT_HTTP3_MISSING_SETTINGS, s)) by done.
  rewrite Hfirst. unfold control_list_ok. destruct (t =? WT_HTTP3_FRAME_SETTINGS); [|done].
  cbn [negb andb]. rewrite control_frames_after_settings by done. by destruct (forallb _ ts).
Qed.

(** A SETTINGS payload delivered in pieces is judged as the concatenation of the pieces when that fits the buffer, and refused with H3_EXCESSIVE_LOAD when it does not. *)
Lemma settings_split_invariant pieces :
  pieces <> [] ->
  let opened := (wt_http3_control_peer_opened wt_http3_control_init).2 in
  let s := (wt_http3_control_on_frame opened WT_HTTP3_FRAME_SETTINGS).2 in
  deliver_settings s pieces =
    if zlen (concat pieces) <=? WT_HTTP3_CONTROL_SETTINGS_MAX then settings_verdict (concat pieces)
    else (WT_ERR_LIMIT, Some WT_HTTP3_EXCESSIVE_LOAD).
Proof. intros Hne. cbn zeta. by rewrite deliver_settings_spec. Qed.

Lemma settings_split_invariant_witness :
  let opened := (wt_http3_control_peer_opened wt_http3_control_init).2 in
  let s := (wt_http3_control_on_frame opened WT_HTTP3_FRAME_SETTINGS).2 in
  deliver_settings s [[0x33]; []; [1; 0x33]; [1]] = (WT_ERR_PROTOCOL, Some WT_HTTP3_SETTINGS_ERROR).
Proof.
  cbn zeta. rewrite (settings_split_invariant [[0x33]; []; [1; 0x33]; [1]]) by done. vm_compute. reflexivity.
Defined.
