(* ===== verification/Capsule.v ===== *)
(** * Capsules: [src/webtransport/capsule.c]

    The capsule codec of RFC 9297, the session close capsule with its UTF-8
    reason, the flow-control capsules of draft-ietf-webtrans-http3 and the limits
    a session's peer has granted. *)

From S2P Require Export Http3Frame.
From stdpp Require Import sorting.
#[local] Open Scope Z_scope.

Definition WT_CAPSULE_DRAIN_SESSION : Z := 0x78ae.
Definition WT_CAPSULE_CLOSE_WEBTRANSPORT_SESSION : Z := 0x2843.
Definition WT_CAPSULE_MAX_DATA : Z := 0x190b4d3d.
Definition WT_CAPSULE_MAX_STREAM_DATA : Z := 0x190b4d3e.
Definition WT_CAPSULE_MAX_STREAMS_BIDI : Z := 0x190b4d3f.
Definition WT_CAPSULE_MAX_STREAMS_UNI : Z := 0x190b4d40.
Definition WT_CAPSULE_DATA_BLOCKED : Z := 0x190b4d41.
Definition WT_CAPSULE_STREAM_DATA_BLOCKED : Z := 0x190b4d42.
Definition WT_CAPSULE_STREAMS_BLOCKED_BIDI : Z := 0x190b4d43.
Definition WT_CAPSULE_STREAMS_BLOCKED_UNI : Z := 0x190b4d44.
Definition WT_CAPSULE_CLOSE_MAX_REASON : Z := 1024.
Definition WT_WEBTRANSPORT_ERROR_FLOW_CONTROL : Z := 0x045d4487.
Definition WT_WEBTRANSPORT_MAX_STREAMS_VALUE : Z := 2 ^ 60.

(** ** The codec *)

Record wt_webtransport_capsule := mk_capsule {
  cap_type : Z;
  cap_value : list Z;
  cap_bytes_consumed : Z }.

Definition wt_webtransport_capsule_decode (max_length : Z) : parser wt_webtransport_capsule := fun c =>
  let before := wt_cursor_remaining c in
  match (type <- failing_as WT_ERR_TRUNCATED None wt_quic_varint_decode;;
         length <- failing_as WT_ERR_TRUNCATED None wt_quic_varint_decode;;
         if max_length <? length then pfail WT_ERR_LIMIT (Some WT_HTTP3_EXCESSIVE_LOAD)
         else value <- bytes_or_truncated length None;; pret (type, value)) c with
  | (Ok (type, value), c') => (Ok (mk_capsule type value (u64 (before - wt_cursor_remaining c'))), c')
  | (Fail s e, c') => (Fail s e, c')
  end.

Definition wt_webtransport_capsule_encode (k : wt_webtransport_capsule) (w : wt_writer)
    : wt_status * wt_writer := encode_tlv (cap_type k) (cap_value k) w.

(** ** Closing and draining a session *)

Definition wt_webtransport_close_session_write (error_code : Z) (reason : list Z) (w : wt_writer)
    : wt_status * wt_writer :=
  if WT_CAPSULE_CLOSE_MAX_REASON <? zlen reason then (WT_ERR_LIMIT, w)
  else
    let code := [u8 (Z.shiftr error_code 24); u8 (Z.land (Z.shiftr error_code 16) 0xff);
                 u8 (Z.land (Z.shiftr error_code 8) 0xff); u8 (Z.land error_code 0xff)] in
    let w1 := w |> writer_varint WT_CAPSULE_CLOSE_WEBTRANSPORT_SESSION
                |> writer_varint (4 + zlen reason) |> wt_writer_bytes code in
    writer_status (if negb (zlen reason =? 0) then wt_writer_bytes reason w1 else w1).

(** The number of continuation bytes a lead byte announces and its own bits. *)
Definition utf8_lead (lead : Z) : option (nat * Z) :=
  if Z.land lead 0xe0 =? 0xc0 then Some (1%nat, Z.land lead 0x1f)
  else if Z.land lead 0xf0 =? 0xe0 then Some (2%nat, Z.land lead 0x0f)
  else if Z.land lead 0xf8 =? 0xf0 then Some (3%nat, Z.land lead 0x07)
  else None.

(** The loop over the [extra] continuation bytes. *)
Fixpoint utf8_continue (extra : nat) (bytes : list Z) (value : Z) : option Z :=
  match extra, bytes with
  | O, _ => Some value
  | S _, [] => None
  | S extra, b :: bytes =>
      if negb (Z.land b 0xc0 =? 0x80) then None
      else utf8_continue extra bytes (Z.lor (u32 (Z.shiftl value 6)) (Z.land b 0x3f))
  end.

Definition utf8_refused (extra : nat) (value : Z) : bool :=
  (Nat.eqb extra 1 && (value <? 0x80)) || (Nat.eqb extra 2 && (value <? 0x800)) ||
  (Nat.eqb extra 3 && (value <? 0x10000)) || ((0xd800 <=? value) && (value <=? 0xdfff)) ||
  (0x10ffff <? value).

(** [bytes] is what is left from index [i]; every round takes at least one byte. *)
Fixpoint utf8_loop (fuel : nat) (bytes : list Z) : bool :=
  match bytes, fuel with
  | [], _ => true
  | _, O => false
  | lead :: rest, S fuel =>
      if lead <? 0x80 then utf8_loop fuel rest
      else match utf8_lead lead with
      | None => false
      | Some (extra, value) =>
          if zlen bytes <? Z.of_nat extra + 1 then false
          else match utf8_continue extra rest value with
          | None => false
          | Some value =>
              if utf8_refused extra value then false else utf8_loop fuel (drop extra rest)
          end
      end
  end.

Definition utf8_is_well_formed (bytes : list Z) : bool := utf8_loop (length bytes) bytes.

(** The error code and the reason. *)
Definition wt_webtransport_close_session_parse (k : wt_webtransport_capsule) : outcome (Z * list Z) :=
  if negb (cap_type k =? WT_CAPSULE_CLOSE_WEBTRANSPORT_SESSION)
  then Fail WT_ERR_INVALID_ARGUMENT (Some WT_HTTP3_MESSAGE_ERROR)
  else if zlen (cap_value k) <? 4 then Fail WT_ERR_PROTOCOL (Some WT_HTTP3_MESSAGE_ERROR)
  else if WT_CAPSULE_CLOSE_MAX_REASON <? u64 (zlen (cap_value k) - 4)
  then Fail WT_ERR_PROTOCOL (Some WT_HTTP3_MESSAGE_ERROR)
  else if negb (utf8_is_well_formed (zdrop 4 (cap_value k)))
  then Fail WT_ERR_PROTOCOL (Some WT_HTTP3_MESSAGE_ERROR)
  else Ok (Z.lor (Z.lor (Z.lor (u32 (Z.shiftl (byte_at (cap_value k) 0) 24))
                               (u32 (Z.shiftl (byte_at (cap_value k) 1) 16)))
                        (u32 (Z.shiftl (byte_at (cap_value k) 2) 8)))
                 (byte_at (cap_value k) 3),
           zdrop 4 (cap_value k)).

Definition wt_webtransport_drain_session_write (w : wt_writer) : wt_status * wt_writer :=
  writer_status (w |> writer_varint WT_CAPSULE_DRAIN_SESSION |> writer_varint 0).

(** ** Flow-control capsules *)

Definition message_error {A} (s : wt_status) : outcome A := Fail s (Some WT_HTTP3_MESSAGE_ERROR).

Definition parse_one (k : wt_webtransport_capsule) (expected_type : Z) : outcome Z :=
  if negb (cap_type k =? expected_type) then message_error WT_ERR_INVALID_ARGUMENT
  else match wt_quic_varint_decode (wt_cursor_init (Some (cap_value k)) (zlen (cap_value k))) with
  | (Fail _ _, _) => message_error WT_ERR_PROTOCOL
  | (Ok v, c) => if negb (wt_cursor_at_end c) then message_error WT_ERR_PROTOCOL else Ok v
  end.

Definition parse_two (k : wt_webtransport_capsule) (expected_type : Z) : outcome (Z * Z) :=
  if negb (cap_type k =? expected_type) then message_error WT_ERR_INVALID_ARGUMENT
  else match (first <- wt_quic_varint_decode;; second <- wt_quic_varint_decode;; pret (first, second))
               (wt_cursor_init (Some (cap_value k)) (zlen (cap_value k))) with
  | (Fail _ _, _) => message_error WT_ERR_PROTOCOL
  | (Ok v, c) => if negb (wt_cursor_at_end c) then message_error WT_ERR_PROTOCOL else Ok v
  end.

Definition write_one (type value : Z) (w : wt_writer) : wt_status * wt_writer :=
  if (WT_QUIC_VARINT_MAX <? type) || (WT_QUIC_VARINT_MAX <? value) then (WT_ERR_INVALID_ARGUMENT, w)
  else writer_status (w |> writer_varint type |> writer_varint (wt_quic_varint_size value)
                        |> writer_varint value).

(** The sixteen-byte inner buffer. *)
Definition write_two (type first second : Z) (w : wt_writer) : wt_status * wt_writer :=
  let inner := wt_writer_init (Some (replicate 16 0)) 16 |> writer_varint first |> writer_varint second in
  if negb (wt_writer_ok inner) then (WT_ERR_LIMIT, w)
  else writer_status (w |> writer_varint type |> writer_varint (w_offset inner)
                        |> wt_writer_bytes (ztake (w_offset inner) (w_data inner))).

Definition stream_count_within_ceiling (value : Z) : bool := value <=? WT_WEBTRANSPORT_MAX_STREAMS_VALUE.

Definition parse_stream_count (k : wt_webtransport_capsule) : outcome Z :=
  match parse_one k (cap_type k) with
  | Fail s e => Fail s e
  | Ok v => if negb (stream_count_within_ceiling v)
            then Fail WT_ERR_PROTOCOL (Some WT_WEBTRANSPORT_ERROR_FLOW_CONTROL) else Ok v
  end.

Definition wt_webtransport_max_data_write : Z -> wt_writer -> wt_status * wt_writer :=
  write_one WT_CAPSULE_MAX_DATA.
Definition wt_webtransport_max_stream_data_write : Z -> Z -> wt_writer -> wt_status * wt_writer :=
  write_two WT_CAPSULE_MAX_STREAM_DATA.
Definition wt_webtransport_max_streams_write (bidirectional : bool) (maximum : Z) (w : wt_writer)
    : wt_status * wt_writer :=
  if negb (stream_count_within_ceiling maximum) then (WT_ERR_LIMIT, w)
  else write_one (if bidirectional then WT_CAPSULE_MAX_STREAMS_BIDI else WT_CAPSULE_MAX_STREAMS_UNI) maximum w.
Definition wt_webtransport_data_blocked_write : Z -> wt_writer -> wt_status * wt_writer :=
  write_one WT_CAPSULE_DATA_BLOCKED.
Definition wt_webtransport_stream_data_blocked_write : Z -> Z -> wt_writer -> wt_status * wt_writer :=
  write_two WT_CAPSULE_STREAM_DATA_BLOCKED.
Definition wt_webtransport_streams_blocked_write (bidirectional : bool) (maximum : Z) (w : wt_writer)
    : wt_status * wt_writer :=
  if negb (stream_count_within_ceiling maximum) then (WT_ERR_LIMIT, w)
  else write_one (if bidirectional then WT_CAPSULE_STREAMS_BLOCKED_BIDI
                  else WT_CAPSULE_STREAMS_BLOCKED_UNI) maximum w.

Definition wt_webtransport_max_data_parse (k : wt_webtransport_capsule) : outcome Z :=
  parse_one k WT_CAPSULE_MAX_DATA.
Definition wt_webtransport_data_blocked_parse (k : wt_webtransport_capsule) : outcome Z :=
  parse_one k WT_CAPSULE_DATA_BLOCKED.
Definition wt_webtransport_max_streams_parse (k : wt_webtransport_capsule) : outcome Z :=
  if (cap_type k =? WT_CAPSULE_MAX_STREAMS_BIDI) || (cap_type k =? WT_CAPSULE_MAX_STREAMS_UNI)
  then parse_stream_count k else message_error WT_ERR_INVALID_ARGUMENT.
Definition wt_webtransport_max_stream_data_parse (k : wt_webtransport_capsule) : outcome (Z * Z) :=
  parse_two k WT_CAPSULE_MAX_STREAM_DATA.
Definition wt_webtransport_stream_data_blocked_parse (k : wt_webtransport_capsule) : outcome (Z * Z) :=
  parse_two k WT_CAPSULE_STREAM_DATA_BLOCKED.
Definition wt_webtransport_streams_blocked_parse (k : wt_webtransport_capsule) : outcome Z :=
  if (cap_type k =? WT_CAPSULE_STREAMS_BLOCKED_BIDI) || (cap_type k =? WT_CAPSULE_STREAMS_BLOCKED_UNI)
  then parse_stream_count k else message_error WT_ERR_INVALID_ARGUMENT.

(** ** The limits a peer has granted; [None] is a limit not yet set *)

Record wt_webtransport_flow_limits := mk_limits {
  lim_max_data : option Z;
  lim_max_streams_bidi : option Z;
  lim_max_streams_uni : option Z }.

Definition wt_webtransport_flow_limits_init : wt_webtransport_flow_limits := mk_limits None None None.

(** [set && maximum <= limit]. *)
Definition not_above (limit : option Z) (maximum : Z) : bool :=
  match limit with Some l => maximum <=? l | None => false end.

Definition flow_refusal (l : wt_webtransport_flow_limits)
    : wt_status * option Z * wt_webtransport_flow_limits :=
  (WT_ERR_PROTOCOL, Some WT_WEBTRANSPORT_ERROR_FLOW_CONTROL, l).

Definition wt_webtransport_flow_on_max_data (l : wt_webtransport_flow_limits) (maximum : Z)
    : wt_status * option Z * wt_webtransport_flow_limits :=
  if not_above (lim_max_data l) maximum then flow_refusal l
  else (WT_OK, None, mk_limits (Some maximum) (lim_max_streams_bidi l) (lim_max_streams_uni l)).

Definition wt_webtransport_flow_on_max_streams (l : wt_webtransport_flow_limits) (bidirectional : bool)
    (maximum : Z) : wt_status * option Z * wt_webtransport_flow_limits :=
  if WT_WEBTRANSPORT_MAX_STREAMS_VALUE <? maximum then flow_refusal l
  else if bidirectional then
    if not_above (lim_max_streams_bidi l) maximum then flow_refusal l
    else (WT_OK, None, mk_limits (lim_max_data l) (Some maximum) (lim_max_streams_uni l))
  else
    if not_above (lim_max_streams_uni l) maximum then flow_refusal l
    else (WT_OK, None, mk_limits (lim_max_data l) (lim_max_streams_bidi l) (Some maximum)).

(** ** The UTF-8 check against the encoding of scalar values *)

(** The encoding RFC 3629 defines. *)
Definition utf8_char (c : Z) : list Z :=
  if c <? 0x80 then [c]
  else if c <? 0x800 then [0xc0 + c / 64; 0x80 + c mod 64]
  else if c <? 0x10000 then [0xe0 + c / 4096; 0x80 + c / 64 mod 64; 0x80 + c mod 64]
  else [0xf0 + c / 262144; 0x80 + c / 4096 mod 64; 0x80 + c / 64 mod 64; 0x80 + c mod 64].

Definition scalar_value (c : Z) : Prop := 0 <= c <= 0x10ffff /\ ~ (0xd800 <= c <= 0xdfff).

Definition utf8_text (cs : list Z) : list Z := concat (utf8_char <$> cs).

Lemma continuation_byte b :
  is_u8 b -> (Z.land b 0xc0 =? 0x80) = bool_decide (0x80 <= b /\ b < 0xc0).
Proof. intros Hb. by_bytes b. Qed.

Lemma continuation_bits b : is_u8 b -> Z.land b 0x3f = b mod 64.
Proof. intros Hb. by_bytes b. Qed.

(** The three announcements, and the bits the lead byte keeps. *)
Lemma utf8_lead_spec b :
  is_u8 b ->
  utf8_lead b =
    if bool_decide (0xc0 <= b /\ b < 0xe0) then Some (1%nat, b - 0xc0)
    else if bool_decide (0xe0 <= b /\ b < 0xf0) then Some (2%nat, b - 0xe0)
    else if bool_decide (0xf0 <= b /\ b < 0xf8) then Some (3%nat, b - 0xf0)
    else None.
Proof. intros Hb. by_bytes b. Qed.

(** The value the continuation bytes spell after [value]. *)
Lemma utf8_continue_step extra b bytes value :
  is_u8 b -> 0 <= value < 2 ^ 26 ->
  utf8_continue (S extra) (b :: bytes) value =
    if bool_decide (0x80 <= b /\ b < 0xc0) then utf8_continue extra bytes (value * 64 + b mod 64) else None.
Proof.
  intros Hb Hv. cbn [utf8_continue]. rewrite continuation_byte, continuation_bits by done.
  destruct (bool_decide _); cbn [negb]; [|done]. f_equal.
  pose proof (Z.mod_pos_bound b 64 ltac:(lia)).
  pose proof (lor_shiftl value (b mod 64) 6 ltac:(lia) ltac:(lia)) as E.
  change (2 ^ 6) with 64 in E. rewrite <- E. f_equal.
  apply u32_small. unfold is_u32. rewrite Z.shiftl_mul_pow2 by lia. lia.
Qed.

(** One round of the loop: the character it consumed, if there is one. *)
Definition utf8_next (bytes : list Z) : option (Z * list Z) :=
  match bytes with
  | [] => None
  | lead :: rest =>
      if lead <? 0x80 then Some (lead, rest)
      else match utf8_lead lead with
      | None => None
      | Some (extra, value) =>
          if zlen bytes <? Z.of_nat extra + 1 then None
          else match utf8_continue extra rest value with
          | None => None
          | Some value => if utf8_refused extra value then None else Some (value, drop extra rest)
          end
      end
  end.

Lemma utf8_loop_step fuel b bytes :
  utf8_loop (S fuel) (b :: bytes) =
    match utf8_next (b :: bytes) with Some (_, rest) => utf8_loop fuel rest | None => false end.
Proof.
  cbn [utf8_loop utf8_next]. destruct (b <? 0x80); [done|]. destruct (utf8_lead b) as [[extra value]|]; [|done].
  destruct (_ <? _); [done|]. destruct (utf8_continue _ _ _); [|done]. by destruct (utf8_refused _ _).
Qed.

Lemma utf8_char_head c : scalar_value c -> exists b rest, utf8_char c = b :: rest.
Proof. intros _. unfold utf8_char. repeat case_match; eauto. Qed.

Ltac utf8_bytes :=
  repeat match goal with
  | |- is_u8 (?a + ?b mod 64) => pose proof (Z.mod_pos_bound b 64 ltac:(lia)); unfold is_u8; lia
  | |- is_u8 _ => unfold is_u8; zdm
  end.

Lemma utf8_char_ok c : scalar_value c -> bytes_ok (utf8_char c).
Proof.
  intros [Hc _]. unfold utf8_char, bytes_ok.
  repeat case_match; reflect_bools; repeat (constructor; [utf8_bytes|]); constructor.
Qed.

(** The checks of the source read back what the standard writes. *)
Lemma utf8_next_char c tl : scalar_value c -> utf8_next (utf8_char c ++ tl) = Some (c, tl).
Proof.
  intros [Hc Hs]. unfold utf8_char.
  destruct (Z.ltb_spec c 0x80); [|destruct (Z.ltb_spec c 0x800); [|destruct (Z.ltb_spec c 0x10000)]];
    cbn [app utf8_next]; [by ztest|..];
    rewrite (proj2 (Z.ltb_ge _ 0x80)) by zdm; rewrite utf8_lead_spec by utf8_bytes.
  - rewrite bool_decide_true by zdm. rewrite !zlen_cons. pose proof (zlen_nonneg tl). ztest.
    rewrite utf8_continue_step by (utf8_bytes || zdm).
    rewrite bool_decide_true by (pose proof (Z.mod_pos_bound c 64 ltac:(lia)); lia). cbn [utf8_continue].
    replace (_ * 64 + _) with c by zdm. unfold utf8_refused. cbn [Nat.eqb andb orb]. by ztest.
  - rewrite bool_decide_false, bool_decide_true by zdm. rewrite !zlen_cons. pose proof (zlen_nonneg tl). ztest.
    do 2 (rewrite utf8_continue_step by (utf8_bytes || zdm); rewrite bool_decide_true by zdm).
    cbn [utf8_continue]. replace (_ * 64 + _) with c by zdm.
    unfold utf8_refused. cbn [Nat.eqb andb orb]. ztest.
    destruct (Z.leb_spec 0xd800 c), (Z.leb_spec c 0xdfff); cbn; (lia || done).
  - rewrite !bool_decide_false, bool_decide_true by zdm. rewrite !zlen_cons. pose proof (zlen_nonneg tl). ztest.
    do 3 (rewrite utf8_continue_step by (utf8_bytes || zdm); rewrite bool_decide_true by zdm).
    cbn [utf8_continue]. replace (_ * 64 + _) with c by zdm.
    unfold utf8_refused. cbn [Nat.eqb andb orb]. by ztest.
Qed.

(** [k] continuation bytes, read off the front. *)
Lemma utf8_continue_inv extra : forall bytes value v,
  bytes_ok bytes -> 0 <= value -> (value + 1) * 64 ^ Z.of_nat extra <= 2 ^ 26 ->
  utf8_continue extra bytes value = Some v ->
  exists ds, length ds = extra /\ Forall (fun d => 0 <= d < 64) ds /\
    bytes = ((fun d => 0x80 + d) <$> ds) ++ drop extra bytes /\ v = fold_left (fun a d => a * 64 + d) ds value.
Proof.
  induction extra as [|extra IH]; intros bytes value v Hok Hv Hb H.
  - exists []. cbn in H |- *. rewrite drop_0. split_and!; auto. congruence.
  - destruct bytes as [|b bytes]; [done|]. inversion_clear Hok as [|? ? Hb8 Hok'].
    rewrite Nat2Z.inj_succ, Z.pow_succ_r in Hb by lia.
    pose proof (Z.pow_pos_nonneg 64 (Z.of_nat extra) ltac:(lia) ltac:(lia)).
    rewrite utf8_continue_step in H by (done || (split; [lia|]; nia)).
    case_bool_decide as Hr; [|done].
    assert (Hmod : b mod 64 = b - 0x80) by zdm. pose proof (Z.mod_pos_bound b 64 ltac:(lia)).
    destruct (IH bytes (value * 64 + b mod 64) v Hok' ltac:(lia) ltac:(nia) H) as (ds & Hl & Hd & Heq & ->).
    exists ((b - 0x80) :: ds). cbn [length fmap list_fmap app fold_left drop]. split_and!; [lia|constructor; [lia|done]| |by rewrite Hmod].
    f_equal; [lia|done].
Qed.

Lemma utf8_refused_inv extra v :
  utf8_refused extra v = false ->
  ~ (0xd800 <= v <= 0xdfff) /\ v <= 0x10ffff /\ (extra = 1%nat -> 0x80 <= v) /\
  (extra = 2%nat -> 0x800 <= v) /\ (extra = 3%nat -> 0x10000 <= v).
Proof.
  unfold utf8_refused. intros H. repeat (apply orb_false_iff in H; destruct H as [H ?]).
  split; [intros ?; match goal with Hr : (_ <=? _) && _ = false |- _ => apply andb_false_iff in Hr as [Hr|Hr] end; lia|].
  split; [lia|]. split_and!; intros ->; cbn in *; lia.
Qed.

(** The bits of a lead byte followed by its continuation bytes are the encoding. *)
Lemma utf8_char_2 a d : 0x80 <= a * 64 + d < 0x800 -> 0 <= d < 64 -> utf8_char (a * 64 + d) = [0xc0 + a; 0x80 + d].
Proof. intros. unfold utf8_char. ztest. repeat f_equal; zdm. Qed.
Lemma utf8_char_3 a d e :
  0x800 <= (a * 64 + d) * 64 + e < 0x10000 -> 0 <= d < 64 -> 0 <= e < 64 ->
  utf8_char ((a * 64 + d) * 64 + e) = [0xe0 + a; 0x80 + d; 0x80 + e].
Proof. intros. unfold utf8_char. ztest. repeat f_equal; zdm. Qed.
Lemma utf8_char_4 a d e f :
  0x10000 <= ((a * 64 + d) * 64 + e) * 64 + f -> 0 <= d < 64 -> 0 <= e < 64 -> 0 <= f < 64 ->
  utf8_char (((a * 64 + d) * 64 + e) * 64 + f) = [0xf0 + a; 0x80 + d; 0x80 + e; 0x80 + f].
Proof. intros. unfold utf8_char. ztest. repeat f_equal; zdm. Qed.

Lemma utf8_next_inv bytes c rest :
  bytes_ok bytes -> utf8_next bytes = Some (c, rest) -> scalar_value c /\ bytes = utf8_char c ++ rest.
Proof.
  intros Hok H. destruct bytes as [|lead tl]; [done|]. inversion_clear Hok as [|? ? Hl8 Hok'].
  cbn [utf8_next] in H. pose proof Hl8 as Hl. unfold is_u8 in Hl. destruct (Z.ltb_spec lead 0x80).
  { injection H as -> ->. split; [unfold scalar_value; lia|]. unfold utf8_char. by ztest. }
  destruct (utf8_lead lead) as [[extra v0]|] eqn:Elead; [|done]. rewrite utf8_lead_spec in Elead by done.
  destruct (_ <? _); [done|]. destruct (utf8_continue _ _ _) as [v|] eqn:Ec; [|done].
  destruct (utf8_refused _ _) eqn:Er; [done|]. injection H as -> <-.
  apply utf8_refused_inv in Er as (Hsur & Hmax & H1 & H2 & H3).
  assert (Hbound : 0 <= v0 /\ (v0 + 1) * 64 ^ Z.of_nat extra <= 2 ^ 26).
  { repeat case_bool_decide; simplify_eq; cbn; lia. }
  apply utf8_continue_inv in Ec as (ds & Hlen & Hds & Htl & Hv); [|done|lia|lia].
  assert (Hsc : 0 <= c -> scalar_value c) by (unfold scalar_value; lia).
  set (rest := drop extra tl) in *. clearbody rest. subst tl.
  assert (Hcases : (extra = 1%nat /\ v0 = lead - 0xc0 /\ 0xc0 <= lead < 0xe0) \/
      (extra = 2%nat /\ v0 = lead - 0xe0 /\ 0xe0 <= lead < 0xf0) \/
      (extra = 3%nat /\ v0 = lead - 0xf0 /\ 0xf0 <= lead < 0xf8)).
  { clear -Elead. repeat case_bool_decide; simplify_eq; auto 6. }
  destruct Hcases as [(-> & -> & ?)|[(-> & -> & ?)|(-> & -> & ?)]];
  repeat (destruct ds as [|? ds]; cbn in Hlen; try lia);
  repeat match goal with Hf : Forall _ (_ :: _) |- _ => apply Forall_cons in Hf as [? Hf] end;
  cbn [fold_left fmap list_fmap app length] in *; subst c.
  - split; [apply Hsc; lia|]. rewrite utf8_char_2 by lia. cbn. f_equal. lia.
  - split; [apply Hsc; lia|]. rewrite utf8_char_3 by lia. cbn. f_equal. lia.
  - split; [apply Hsc; lia|]. rewrite utf8_char_4 by lia. cbn. f_equal. lia.
Qed.

Lemma utf8_loop_sound fuel : forall bytes,
  bytes_ok bytes -> utf8_loop fuel bytes = true -> exists cs, Forall scalar_value cs /\ bytes = utf8_text cs.
Proof.
  induction fuel as [|fuel IH]; intros [|b bytes] Hok H; try done; [by exists []|by exists []|].
  rewrite utf8_loop_step in H. destruct (utf8_next (b :: bytes)) as [[c rest]|] eqn:E; [|done].
  destruct (utf8_next_inv _ _ _ Hok E) as [Hc Heq]. rewrite Heq in Hok |- *. apply Forall_app in Hok as [_ Hok].
  destruct (IH rest Hok H) as (cs & Hcs & ->). exists (c :: cs). by split; [constructor|].
Qed.

Lemma utf8_loop_complete cs : forall fuel,
  Forall scalar_value cs -> (length (utf8_text cs) <= fuel)%nat -> utf8_loop fuel (utf8_text cs) = true.
Proof.
  induction cs as [|c cs IH]; intros fuel Hcs Hf; [by destruct fuel|].
  apply Forall_cons in Hcs as [Hc Hcs]. change (utf8_text (c :: cs)) with (utf8_char c ++ utf8_text cs) in *.
  pose proof (utf8_next_char c (utf8_text cs) Hc) as Hn. rewrite length_app in Hf.
  destruct (utf8_char_head c Hc) as (b & rest & E). rewrite E in *. cbn [length app] in *.
  destruct fuel as [|fuel]; [lia|]. rewrite utf8_loop_step, Hn. apply IH; [done|lia].
Qed.

(** The UTF-8 check accepts exactly the byte strings that are the UTF-8 encoding of a sequence of Unicode scalar values: no surrogate, no overlong form, nothing above U+10FFFF, nothing truncated. *)
Lemma utf8_check_exact bytes :
  bytes_ok bytes ->
  utf8_is_well_formed bytes = true <-> exists cs, Forall scalar_value cs /\ bytes = utf8_text cs.
Proof.
  intros Hok. unfold utf8_is_well_formed. split; [by apply utf8_loop_sound|].
  intros (cs & Hcs & ->). by apply utf8_loop_complete.
Qed.

Lemma utf8_check_exact_witness :
  utf8_is_well_formed [0xe2; 0x82; 0xac; 0x41] = true /\ utf8_text [0x20ac; 0x41] = [0xe2; 0x82; 0xac; 0x41] /\
  utf8_is_well_formed [0xed; 0xa0; 0x80] = false /\ utf8_is_well_formed [0xc0; 0x80] = false.
Proof.
  split_and!; [|vm_compute; reflexivity..].
  apply (utf8_check_exact [0xe2; 0x82; 0xac; 0x41] ltac:(by apply bytes_okb_spec)). exists [0x20ac; 0x41].
  split; [|vm_compute; reflexivity]. repeat constructor; unfold scalar_value; lia.
Defined.

(** ** The codec *)

Definition capsule_bytes (k : wt_webtransport_capsule) : list Z := tlv_bytes (cap_type k) (cap_value k).

Definition capsule_ok (k : wt_webtransport_capsule) : Prop :=
  varint_ok (cap_type k) /\ varint_ok (zlen (cap_value k)) /\ bytes_ok (cap_value k) /\
  cap_bytes_consumed k = zlen (capsule_bytes k).

(** The decoder on a capsule's bytes, by the size the caller will buffer. *)
Lemma capsule_decode_spec k max_length c tl :
  capsule_ok k -> cursor_live c -> cursor_view c = capsule_bytes k ++ tl ->
  if zlen (cap_value k) <=? max_length
  then wt_webtransport_capsule_decode max_length c = (Ok k, cursor_advance c (zlen (capsule_bytes k)))
  else (wt_webtransport_capsule_decode max_length c).1 = Fail WT_ERR_LIMIT (Some WT_HTTP3_EXCESSIVE_LOAD).
Proof.
  intros (Ht & Hl & Hok & Hc) Hlive Hv. unfold wt_webtransport_capsule_decode. set (p := pbind _ _).
  pose proof (zlen_nonneg (capsule_bytes k)). pose proof (zlen_nonneg tl).
  assert (Hrem : wt_cursor_remaining c = zlen (capsule_bytes k) + zlen tl).
  { rewrite cursor_remaining_view by apply Hlive. by rewrite Hv, zlen_app. }
  destruct (Z.leb_spec (zlen (cap_value k)) max_length) as [Hle|Hgt].
  - assert (Hp : decodes p (capsule_bytes k) (cap_type k, cap_value k)).
    { unfold p, capsule_bytes, tlv_bytes.
      eapply decodes_bind; [apply decodes_failing_as; by apply decodes_varint|].
      eapply decodes_bind; [apply decodes_failing_as; by apply decodes_varint|]. rewrite (proj2 (Z.ltb_ge _ _) Hle).
      apply (decodes_map _ (fun v => (cap_type k, v))). by apply decodes_bytes_or_truncated. }
    rewrite (Hp c tl Hlive Hv). f_equal. f_equal. rewrite Hrem, cursor_remaining_view.
    + rewrite (cursor_advance_view c _ (capsule_bytes k) tl) by (done || apply Hlive).
      rewrite (u64_small (_ - _)).
      * destruct k; cbn [cap_type cap_value cap_bytes_consumed] in *. f_equal. lia.
      * assert (0 <= wt_cursor_remaining c < 2 ^ 64) by (unfold wt_cursor_remaining; case_match; [lia|apply u64_is_u64]).
        unfold is_u64. lia.
    + apply cursor_advance_inv; [apply Hlive|]. rewrite Hv, zlen_app. lia.
    + apply Hlive.
  - assert (Hp : (p c).1 = Fail WT_ERR_LIMIT (Some WT_HTTP3_EXCESSIVE_LOAD)).
    { unfold p, capsule_bytes, tlv_bytes in *. unfold pbind at 1. rewrite <- !app_assoc in Hv.
      rewrite (decodes_failing_as _ None _ _ _ (decodes_varint _ Ht) c _ Hlive Hv).
      assert (Hlive' : cursor_live (cursor_advance c (zlen (varint_bytes (cap_type k))))).
      { apply cursor_advance_live; [done|]. rewrite Hv, zlen_app. split; [apply zlen_nonneg|].
        match goal with |- _ <= _ + zlen ?l => pose proof (zlen_nonneg l) end. lia. }
      unfold pbind at 1. rewrite (decodes_failing_as _ None _ _ _ (decodes_varint _ Hl) _ _ Hlive'
        (cursor_advance_view c _ _ _ (proj1 Hlive) Hv eq_refl)).
      by rewrite (proj2 (Z.ltb_lt _ _) Hgt). }
    destruct (p c) as [[[]|s e] c']; cbn in Hp; by simplify_eq.
Qed.

(** A capsule is written as type, length and value and decodes from those bytes followed by anything, consuming them exactly; with a bound below its length it is refused with H3_EXCESSIVE_LOAD. *)
Lemma capsule_roundtrip k max_length w c tl :
  capsule_ok k -> zlen (cap_value k) <= max_length ->
  writer_inv w -> w_overflow w = false -> w_copy w = true -> zlen (capsule_bytes k) <= writer_room w ->
  cursor_live c -> cursor_view c = capsule_bytes k ++ tl ->
  (wt_webtransport_capsule_encode k w).1 = WT_OK /\
  writer_bytes (wt_webtransport_capsule_encode k w).2 = writer_bytes w ++ capsule_bytes k /\
  wt_webtransport_capsule_decode max_length c = (Ok k, cursor_advance c (zlen (capsule_bytes k))) /\
  forall small, small < zlen (cap_value k) ->
    (wt_webtransport_capsule_decode small c).1 = Fail WT_ERR_LIMIT (Some WT_HTTP3_EXCESSIVE_LOAD).
Proof.
  intros Hk Hmax Hw Hov Hcp Hroom Hl Hv. pose proof Hk as (Ht & Hz & _).
  destruct (encodes_bytes _ _ w (encodes_tlv _ _ Ht Hz) Hw Hov Hcp Hroom) as [He1 He2].
  split; [exact He1|]. split; [exact He2|].
  assert (Hd := fun m => capsule_decode_spec k m c tl Hk Hl Hv). split.
  - specialize (Hd max_length). by rewrite (proj2 (Z.leb_le _ _) Hmax) in Hd.
  - intros small Hs. specialize (Hd small). by rewrite (proj2 (Z.leb_gt _ _) Hs) in Hd.
Qed.

Lemma capsule_roundtrip_witness :
  (wt_webtransport_capsule_decode 8 (wt_cursor_init (Some [0x21; 2; 7; 8; 9]) 5)).1 =
    Ok (mk_capsule 0x21 [7; 8] 4).
Proof.
  set (c := wt_cursor_init (Some [0x21; 2; 7; 8; 9]) 5).
  destruct (capsule_roundtrip (mk_capsule 0x21 [7; 8] 4) 8 (wt_writer_init (Some (replicate 4 0)) 4) c [9])
    as (_ & _ & -> & _).
  - unfold capsule_ok. repeat split; try (by apply bytes_okb_spec); by vm_compute.
  - by vm_compute.
  - apply (writer_init_inv (replicate 4 0)). done.
  - done.
  - done.
  - vm_compute. discriminate.
  - apply (cursor_init_live [0x21; 2; 7; 8; 9]); [done|by apply bytes_okb_spec].
  - vm_compute. reflexivity.
  - done.
Defined.

(** ** Closing a session *)

Definition close_value (error_code : Z) (reason : list Z) : list Z := wt_store_be32 error_code ++ reason.

Definition close_bytes (error_code : Z) (reason : list Z) : list Z :=
  tlv_bytes WT_CAPSULE_CLOSE_WEBTRANSPORT_SESSION (close_value error_code reason).

Lemma close_value_len code reason : zlen (close_value code reason) = 4 + zlen reason.
Proof. unfold close_value. rewrite zlen_app. done. Qed.

(** The code is written by hand, in the order of the big-endian store. *)
Lemma close_code_bytes code :
  [u8 (Z.shiftr code 24); u8 (Z.land (Z.shiftr code 16) 0xff);
   u8 (Z.land (Z.shiftr code 8) 0xff); u8 (Z.land code 0xff)] = wt_store_be32 code.
Proof.
  unfold wt_store_be32, store_byte. rewrite Z.shiftr_0_r. f_equal.
  change 255 with (2 ^ 8 - 1). rewrite land_mask by lia. unfold u8. by rewrite Z.mod_mod by lia.
Qed.

Lemma encodes_close code reason :
  zlen reason <= WT_CAPSULE_CLOSE_MAX_REASON ->
  encodes (wt_webtransport_close_session_write code reason) (close_bytes code reason).
Proof.
  intros Hr. pose proof (zlen_nonneg reason). unfold WT_CAPSULE_CLOSE_MAX_REASON in Hr.
  eapply encodes_ext.
  - intros w. unfold wt_webtransport_close_session_write, WT_CAPSULE_CLOSE_MAX_REASON.
    rewrite (proj2 (Z.ltb_ge _ _)) by lia. rewrite close_code_bytes. reflexivity.
  - apply encodes_status. unfold close_bytes, tlv_bytes. rewrite close_value_len. unfold close_value.
    rewrite !app_assoc.
    apply (appends_optional_bytes (fun w => wt_writer_bytes _ (writer_varint (4 + zlen reason)
      (writer_varint WT_CAPSULE_CLOSE_WEBTRANSPORT_SESSION w)))).
    appends_run_tac; unfold varint_ok, WT_QUIC_VARINT_MAX, WT_CAPSULE_CLOSE_WEBTRANSPORT_SESSION; lia.
Qed.

(** What the reader makes of the bytes the writer produced. *)
Lemma close_parse_spec code reason consumed :
  is_u32 code -> zlen reason <= WT_CAPSULE_CLOSE_MAX_REASON ->
  wt_webtransport_close_session_parse
      (mk_capsule WT_CAPSULE_CLOSE_WEBTRANSPORT_SESSION (close_value code reason) consumed) =
    if utf8_is_well_formed reason then Ok (code, reason)
    else Fail WT_ERR_PROTOCOL (Some WT_HTTP3_MESSAGE_ERROR).
Proof.
  intros Hc Hr. pose proof (zlen_nonneg reason). unfold wt_webtransport_close_session_parse. cbn [cap_type cap_value].
  unfold WT_CAPSULE_CLOSE_MAX_REASON in *. rewrite Z.eqb_refl, close_value_len. cbn [negb]. ztest.
  rewrite (u64_small (_ - _)) by (unfold is_u64; lia). ztest.
  unfold close_value at 1 6. rewrite !(zdrop_app_exact (wt_store_be32 code) reason) by done.
  destruct (utf8_is_well_formed reason); [|done]. cbn [negb]. do 2 f_equal.
  pose proof (store_be32_spec code) as Hs. pose proof (be_bytes_ok 4 code) as Hok. rewrite <- Hs in Hok.
  pose proof (be_value_bytes 4 code Hc) as Hval. rewrite <- Hs in Hval. clear Hs.
  assert (Hb : exists a b c d, wt_store_be32 code = [a; b; c; d]) by (do 4 eexists; reflexivity).
  destruct Hb as (a & b & c & d & E). unfold close_value. rewrite E in *. unfold byte_at. cbn [app lookup list_lookup default].
  rewrite <- load_be32_spec in Hval by done. rewrite <- Hval. unfold wt_load_be32, byte_at. cbn [lookup list_lookup default].
  unfold bytes_ok in Hok. repeat match goal with H : Forall _ (_ :: _) |- _ => apply Forall_cons in H as [? ?] end.
  unfold is_u8 in *. rewrite !u32_small; [done|..]; unfold is_u32; rewrite Z.shiftl_mul_pow2 by lia; unfold id; lia.
Qed.

(** A close capsule with any reason of at most 1024 bytes is written with OK, and the reader of the same code returns the code and the reason exactly when the reason is well-formed UTF-8, and otherwise refuses the very capsule the writer produced. *)
Lemma close_session_roundtrip code reason w consumed :
  is_u32 code -> bytes_ok reason -> zlen reason <= WT_CAPSULE_CLOSE_MAX_REASON ->
  writer_inv w -> w_overflow w = false -> w_copy w = true ->
  zlen (close_bytes code reason) <= writer_room w ->
  (wt_webtransport_close_session_write code reason w).1 = WT_OK /\
  writer_bytes (wt_webtransport_close_session_write code reason w).2 = writer_bytes w ++ close_bytes code reason /\
  wt_webtransport_close_session_parse
      (mk_capsule WT_CAPSULE_CLOSE_WEBTRANSPORT_SESSION (close_value code reason) consumed) =
    (if utf8_is_well_formed reason then Ok (code, reason)
     else Fail WT_ERR_PROTOCOL (Some WT_HTTP3_MESSAGE_ERROR)).
Proof.
  intros Hc Hok Hr Hw Hov Hcp Hroom.
  destruct (encodes_bytes _ _ w (encodes_close code reason Hr) Hw Hov Hcp Hroom) as [He1 He2].
  split; [exact He1|]. split; [exact He2|]. by apply close_parse_spec.
Qed.

Lemma close_session_roundtrip_witness :
  wt_webtransport_close_session_parse
      (mk_capsule WT_CAPSULE_CLOSE_WEBTRANSPORT_SESSION (close_value 7 [0xff]) 0) =
    Fail WT_ERR_PROTOCOL (Some WT_HTTP3_MESSAGE_ERROR) /\
  (wt_webtransport_close_session_write 7 [0xff] (wt_writer_init (Some (replicate 8 0)) 8)).1 = WT_OK.
Proof.
  destruct (close_session_roundtrip 7 [0xff] (wt_writer_init (Some (replicate 8 0)) 8) 0) as (H1 & _ & H2);
    [by unfold is_u32|by apply bytes_okb_spec|by vm_compute|by apply (writer_init_inv (replicate 8 0))|done|done|by vm_compute|].
  rewrite H2. split; [vm_compute; reflexivity|exact H1].
Defined.

(** ** Flow-control capsules *)

(** The six capsules as one type, with the writer and the parser of each. *)
Inductive flow_capsule :=
  | FlowMaxData (maximum : Z)
  | FlowMaxStreamData (stream_id maximum : Z)
  | FlowMaxStreams (bidirectional : bool) (maximum : Z)
  | FlowDataBlocked (maximum : Z)
  | FlowStreamDataBlocked (stream_id maximum : Z)
  | FlowStreamsBlocked (bidirectional : bool) (maximum : Z).

Definition flow_write (f : flow_capsule) : wt_writer -> wt_status * wt_writer :=
  match f with
  | FlowMaxData m => wt_webtransport_max_data_write m
  | FlowMaxStreamData i m => wt_webtransport_max_stream_data_write i m
  | FlowMaxStreams b m => wt_webtransport_max_streams_write b m
  | FlowDataBlocked m => wt_webtransport_data_blocked_write m
  | FlowStreamDataBlocked i m => wt_webtransport_stream_data_blocked_write i m
  | FlowStreamsBlocked b m => wt_webtransport_streams_blocked_write b m
  end.

(** The reader that fits the capsule, and what it has to return. *)
Definition flow_read (f : flow_capsule) (k : wt_webtransport_capsule) : Prop :=
  match f with
  | FlowMaxData m => wt_webtransport_max_data_parse k = Ok m
  | FlowMaxStreamData i m => wt_webtransport_max_stream_data_parse k = Ok (i, m)
  | FlowMaxStreams _ m => wt_webtransport_max_streams_parse k = Ok m
  | FlowDataBlocked m => wt_webtransport_data_blocked_parse k = Ok m
  | FlowStreamDataBlocked i m => wt_webtransport_stream_data_blocked_parse k = Ok (i, m)
  | FlowStreamsBlocked _ m => wt_webtransport_streams_blocked_parse k = Ok m
  end.

Definition flow_type (f : flow_capsule) : Z :=
  match f with
  | FlowMaxData _ => WT_CAPSULE_MAX_DATA
  | FlowMaxStreamData _ _ => WT_CAPSULE_MAX_STREAM_DATA
  | FlowMaxStreams b _ => if b then WT_CAPSULE_MAX_STREAMS_BIDI else WT_CAPSULE_MAX_STREAMS_UNI
  | FlowDataBlocked _ => WT_CAPSULE_DATA_BLOCKED
  | FlowStreamDataBlocked _ _ => WT_CAPSULE_STREAM_DATA_BLOCKED
  | FlowStreamsBlocked b _ => if b then WT_CAPSULE_STREAMS_BLOCKED_BIDI else WT_CAPSULE_STREAMS_BLOCKED_UNI
  end.

Definition flow_value (f : flow_capsule) : list Z :=
  match f with
  | FlowMaxStreamData i m | FlowStreamDataBlocked i m => varint_bytes i ++ varint_bytes m
  | FlowMaxData m | FlowMaxStreams _ m | FlowDataBlocked m | FlowStreamsBlocked _ m => varint_bytes m
  end.

Definition flow_ok (f : flow_capsule) : Prop :=
  match f with
  | FlowMaxStreamData i m | FlowStreamDataBlocked i m => varint_ok i /\ varint_ok m
  | FlowMaxData m | FlowDataBlocked m => varint_ok m
  | FlowMaxStreams _ m | FlowStreamsBlocked _ m => 0 <= m <= WT_WEBTRANSPORT_MAX_STREAMS_VALUE
  end.

Lemma encodes_one type v :
  varint_ok type -> varint_ok v -> encodes (write_one type v) (tlv_bytes type (varint_bytes v)).
Proof.
  intros Ht Hv. eapply encodes_ext.
  - intros w. unfold write_one. rewrite !(proj2 (Z.ltb_ge _ _)) by (unfold varint_ok in *; lia). reflexivity.
  - apply encodes_status. unfold tlv_bytes. rewrite <- varint_size_bytes by done.
    pose proof (varint_bytes_pos v Hv). rewrite <- varint_size_bytes in H by done. pose proof (varint_size_le v).
    appends_run_tac. unfold varint_ok, WT_QUIC_VARINT_MAX. lia.
Qed.

Lemma encodes_two type a b :
  varint_ok type -> varint_ok a -> varint_ok b ->
  encodes (write_two type a b) (tlv_bytes type (varint_bytes a ++ varint_bytes b)).
Proof.
  intros Ht Ha Hb. pose proof (varint_size_le a) as La. pose proof (varint_size_le b) as Lb.
  rewrite varint_size_bytes in La, Lb by done.
  set (inner := writer_varint b (writer_varint a (wt_writer_init (Some (replicate 16 0)) 16))).
  destruct (appends_run (fun w => writer_varint b (writer_varint a w)) (varint_bytes a ++ varint_bytes b)
    (wt_writer_init (Some (replicate 16 0)) 16)) as (_ & Hov & Hoff & _ & _ & Hbytes).
  - appends_run_tac.
  - apply (writer_init_inv (replicate 16 0)). done.
  - done.
  - unfold writer_room; cbn [w_cap w_offset wt_writer_init]. rewrite zlen_app. lia.
  - fold inner in Hov, Hoff, Hbytes. cbn [w_offset wt_writer_init] in Hoff. rewrite Z.add_0_l in Hoff.
    specialize (Hbytes eq_refl). unfold writer_bytes in Hbytes. cbn [w_offset wt_writer_init] in Hbytes.
    rewrite ztake_0, app_nil_l in Hbytes.
    assert (Hz : zlen (varint_bytes a ++ varint_bytes b) <= 16) by (rewrite zlen_app; lia).
    eapply encodes_ext.
    + intros w. unfold write_two. fold inner. unfold wt_writer_ok. rewrite Hov. cbn [negb]. rewrite Hbytes, Hoff. reflexivity.
    + apply encodes_status. unfold tlv_bytes. pose proof (zlen_nonneg (varint_bytes a ++ varint_bytes b)).
      appends_run_tac. unfold varint_ok, WT_QUIC_VARINT_MAX. lia.
Qed.

Lemma varint_exact_at_end {A} (p : parser A) bs a :
  decodes p bs a -> bytes_ok bs -> zlen bs < 2 ^ 64 ->
  exists c, p (wt_cursor_init (Some bs) (zlen bs)) = (Ok a, c) /\ wt_cursor_at_end c = true.
Proof.
  intros Hp Hok Hl. eexists. split; [by apply decodes_whole|]. unfold wt_cursor_at_end, cursor_advance. cbn.
  by rewrite Z.eqb_refl.
Qed.

Lemma parse_one_value type v consumed :
  varint_ok v -> parse_one (mk_capsule type (varint_bytes v) consumed) type = Ok v.
Proof.
  intros Hv. unfold parse_one. cbn [cap_type cap_value]. rewrite Z.eqb_refl. cbn [negb].
  destruct (varint_exact_at_end wt_quic_varint_decode (varint_bytes v) v) as (c & -> & ->); [by apply decodes_varint|apply varint_bytes_ok| |done].
  pose proof (varint_size_le v). rewrite varint_size_bytes in H by done. lia.
Qed.

Lemma parse_two_value type a b consumed :
  varint_ok a -> varint_ok b -> parse_two (mk_capsule type (varint_bytes a ++ varint_bytes b) consumed) type = Ok (a, b).
Proof.
  intros Ha Hb. unfold parse_two. cbn [cap_type cap_value]. rewrite Z.eqb_refl. cbn [negb].
  destruct (varint_exact_at_end (first <- wt_quic_varint_decode;; second <- wt_quic_varint_decode;; pret (first, second))
    (varint_bytes a ++ varint_bytes b) (a, b)) as (c & -> & ->); [| | |done].
  - eapply decodes_bind; [by apply decodes_varint|]. apply (decodes_map _ (fun v => (a, v))). by apply decodes_varint.
  - apply Forall_app. split; apply varint_bytes_ok.
  - pose proof (varint_size_le a). pose proof (varint_size_le b). rewrite varint_size_bytes in * by done.
    rewrite zlen_app. lia.
Qed.

Lemma parse_stream_count_value type v consumed :
  0 <= v <= WT_WEBTRANSPORT_MAX_STREAMS_VALUE ->
  parse_stream_count (mk_capsule type (varint_bytes v) consumed) = Ok v.
Proof.
  intros Hv. unfold parse_stream_count. cbn [cap_type]. rewrite parse_one_value
    by (unfold varint_ok, WT_QUIC_VARINT_MAX, WT_WEBTRANSPORT_MAX_STREAMS_VALUE in *; lia).
  unfold stream_count_within_ceiling. by rewrite (proj2 (Z.leb_le _ _)) by lia.
Qed.

Lemma flow_reads f consumed : flow_ok f -> flow_read f (mk_capsule (flow_type f) (flow_value f) consumed).
Proof.
  destruct f as [m|i m|b m|m|i m|b m]; cbn [flow_ok flow_read flow_type flow_value]; intros H.
  - by apply parse_one_value.
  - destruct H. by apply parse_two_value.
  - unfold wt_webtransport_max_streams_parse. destruct b; by apply parse_stream_count_value.
  - by apply parse_one_value.
  - destruct H. by apply parse_two_value.
  - unfold wt_webtransport_streams_blocked_parse. destruct b; by apply parse_stream_count_value.
Qed.

Lemma encodes_flow f : flow_ok f -> encodes (flow_write f) (tlv_bytes (flow_type f) (flow_value f)).
Proof.
  assert (Hc : forall v, 0 <= v <= WT_WEBTRANSPORT_MAX_STREAMS_VALUE -> varint_ok v /\ stream_count_within_ceiling v = true).
  { intros v Hv. unfold stream_count_within_ceiling. rewrite (proj2 (Z.leb_le _ _)) by lia.
    unfold varint_ok, WT_QUIC_VARINT_MAX, WT_WEBTRANSPORT_MAX_STREAMS_VALUE in *. split; [lia|done]. }
  destruct f as [m|i m|b m|m|i m|b m]; cbn [flow_ok flow_write flow_type flow_value]; intros H.
  - by apply encodes_one.
  - destruct H. by apply encodes_two.
  - destruct (Hc m H) as [Hm Hs]. unfold wt_webtransport_max_streams_write. rewrite Hs.
    destruct b; by apply encodes_one.
  - by apply encodes_one.
  - destruct H. by apply encodes_two.
  - destruct (Hc m H) as [Hm Hs]. unfold wt_webtransport_streams_blocked_write. rewrite Hs.
    destruct b; by apply encodes_one.
Qed.

(** Every flow-control capsule is written as its type and value and parsed back to the same limit. *)
Lemma flow_capsules_roundtrip f w consumed :
  flow_ok f -> writer_inv w -> w_overflow w = false -> w_copy w = true ->
  zlen (tlv_bytes (flow_type f) (flow_value f)) <= writer_room w ->
  (flow_write f w).1 = WT_OK /\
  writer_bytes (flow_write f w).2 = writer_bytes w ++ tlv_bytes (flow_type f) (flow_value f) /\
  flow_read f (mk_capsule (flow_type f) (flow_value f) consumed).
Proof.
  intros Hf Hw Hov Hcp Hroom. destruct (encodes_bytes _ _ w (encodes_flow f Hf) Hw Hov Hcp Hroom) as [He1 He2].
  split; [exact He1|]. split; [exact He2|]. by apply flow_reads.
Qed.

Lemma flow_capsules_roundtrip_witness :
  wt_webtransport_max_stream_data_parse
    (mk_capsule WT_CAPSULE_MAX_STREAM_DATA (varint_bytes 4 ++ varint_bytes 70000) 0) = Ok (4, 70000).
Proof.
  destruct (flow_capsules_roundtrip (FlowMaxStreamData 4 70000) (wt_writer_init (Some (replicate 32 0)) 32) 0)
    as (_ & _ & H).
  - cbn. unfold varint_ok, WT_QUIC_VARINT_MAX. lia.
  - apply (writer_init_inv (replicate 32 0)). done.
  - done.
  - done.
  - by vm_compute.
  - exact H.
Defined.

(** ** The limits only grow *)

Inductive limit_event := LimitData (maximum : Z) | LimitStreams (bidirectional : bool) (maximum : Z).

Definition limit_apply (l : wt_webtransport_flow_limits) (e : limit_event) :=
  match e with
  | LimitData m => wt_webtransport_flow_on_max_data l m
  | LimitStreams b m => wt_webtransport_flow_on_max_streams l b m
  end.

(** Which of the three limits an event is about. *)
Definition same_limit (e e' : limit_event) : bool :=
  match e, e' with
  | LimitData _, LimitData _ => true
  | LimitStreams b _, LimitStreams b' _ => eqb b b'
  | _, _ => false
  end.
Definition limit_maximum (e : limit_event) : Z := match e with LimitData m | LimitStreams _ m => m end.
Definition limit_value (l : wt_webtransport_flow_limits) (e : limit_event) : option Z :=
  match e with
  | LimitData _ => lim_max_data l
  | LimitStreams b _ => if b then lim_max_streams_bidi l else lim_max_streams_uni l
  end.
Definition limit_within (e : limit_event) : bool :=
  match e with LimitData _ => true | LimitStreams _ m => m <=? WT_WEBTRANSPORT_MAX_STREAMS_VALUE end.

(** A peer's session limit is accepted exactly when it is within range and above the one in force, and then only that limit changes; otherwise it is refused with the session flow-control error and nothing changes, so no limit ever decreases. *)
Lemma flow_limits_strictly_increase l e e' :
  let '(st, code, l') := limit_apply l e in
  let granted := limit_within e && negb (not_above (limit_value l e) (limit_maximum e)) in
  st = (if granted then WT_OK else WT_ERR_PROTOCOL) /\
  code = (if granted then None else Some WT_WEBTRANSPORT_ERROR_FLOW_CONTROL) /\
  limit_value l' e' =
    (if granted && same_limit e e' then Some (limit_maximum e) else limit_value l e') /\
  match limit_value l e', limit_value l' e' with
  | Some before, Some after => before <= after
  | Some _, None => False
  | None, _ => True
  end.
Proof.
  assert (Hna : forall o m, not_above o m = false -> match o with Some b => b <= m | None => True end).
  { intros [b|] m H; cbn in H; [lia|done]. }
  destruct l as [d bi un], e as [m|[] m]; cbn [limit_apply limit_within limit_value limit_maximum lim_max_data
    lim_max_streams_bidi lim_max_streams_uni andb];
  unfold wt_webtransport_flow_on_max_data, wt_webtransport_flow_on_max_streams, flow_refusal;
  cbn [lim_max_data lim_max_streams_bidi lim_max_streams_uni]; rewrite ?Z.ltb_antisym;
  try destruct (m <=? WT_WEBTRANSPORT_MAX_STREAMS_VALUE); cbn [negb andb];
  match goal with |- context [not_above ?o m] => destruct (not_above o m) eqn:E; [|pose proof (Hna _ _ E)] | _ => idtac end;
  cbn [negb andb]; (split_and!; [done|done|destruct e' as [m'|[] m']; done|]);
  destruct e' as [m'|[] m']; cbn; repeat case_match; auto with lia.
Qed.
