(* ===== verification/Framing.v ===== *)
(** * WebTransport framing: [src/webtransport/error.c] and [framing.c]

    The mapping between application error codes and HTTP/3 error codes, the
    prefix of a WebTransport stream and the quarter stream ID of a datagram. *)

From S2P Require Export Http3Frame.
#[local] Open Scope Z_scope.

(** ** Error codes *)

Definition WT_WEBTRANSPORT_APPLICATION_ERROR_FIRST : Z := 0x52e4a40fa8db.
Definition WT_WEBTRANSPORT_APPLICATION_ERROR_LAST : Z := 0x52e5ac983162.
Definition WT_WEBTRANSPORT_ERROR_STRIDE_OUT : Z := 0x1e.
Definition WT_WEBTRANSPORT_ERROR_STRIDE_IN : Z := 0x1f.
Definition WT_WEBTRANSPORT_ERROR_RESERVED_RESIDUE : Z := 0x21.

Definition wt_webtransport_error_is_application_range (http3_error : Z) : bool :=
  if (http3_error <? WT_WEBTRANSPORT_APPLICATION_ERROR_FIRST) ||
     (WT_WEBTRANSPORT_APPLICATION_ERROR_LAST <? http3_error) then false
  else negb (u64 (http3_error - WT_WEBTRANSPORT_ERROR_RESERVED_RESIDUE)
             mod WT_WEBTRANSPORT_ERROR_STRIDE_IN =? 0).

Definition wt_webtransport_error_to_http3 (application_error : Z) : Z :=
  u64 (u64 (WT_WEBTRANSPORT_APPLICATION_ERROR_FIRST + application_error) +
       application_error / WT_WEBTRANSPORT_ERROR_STRIDE_OUT).

Definition wt_webtransport_error_from_http3 (http3_error : Z) : outcome Z :=
  if negb (wt_webtransport_error_is_application_range http3_error) then Fail WT_ERR_INVALID_ARGUMENT None
  else
    let shifted := u64 (http3_error - WT_WEBTRANSPORT_APPLICATION_ERROR_FIRST) in
    Ok (u32 (u64 (shifted - shifted / WT_WEBTRANSPORT_ERROR_STRIDE_IN))).

(** ** Stream prefixes *)

Definition WT_WEBTRANSPORT_STREAM_BIDI : Z := 0x41.
Definition WT_WEBTRANSPORT_STREAM_UNI : Z := 0x54.
Definition WT_HTTP3_DATAGRAM_ERROR : Z := 0x33.

Definition wt_webtransport_is_session_stream_id (stream_id : Z) : bool := Z.land stream_id 0x03 =? 0.
Definition wt_webtransport_session_id_from_quarter (quarter_stream_id : Z) : Z := u64 (quarter_stream_id * 4).
Definition wt_webtransport_quarter_stream_id (session_id : Z) : Z := session_id / 4.

Definition wt_webtransport_stream_prefix_write (unidirectional : bool) (session_id : Z) (w : wt_writer)
    : wt_status * wt_writer :=
  if negb (wt_webtransport_is_session_stream_id session_id) then (WT_ERR_INVALID_ARGUMENT, w)
  else writer_status (w |> writer_varint (if unidirectional then WT_WEBTRANSPORT_STREAM_UNI
                                          else WT_WEBTRANSPORT_STREAM_BIDI)
                        |> writer_varint session_id).

(** Whether the prefix says unidirectional, and the session it names. *)
Definition wt_webtransport_stream_prefix_parse : parser (bool * Z) :=
  type <- failing_as WT_ERR_TRUNCATED None wt_quic_varint_decode;;
  if negb (type =? WT_WEBTRANSPORT_STREAM_BIDI) && negb (type =? WT_WEBTRANSPORT_STREAM_UNI)
  then pfail WT_ERR_PROTOCOL (Some WT_HTTP3_FRAME_UNEXPECTED)
  else
    session_id <- failing_as WT_ERR_TRUNCATED None wt_quic_varint_decode;;
    if negb (wt_webtransport_is_session_stream_id session_id)
    then pfail WT_ERR_PROTOCOL (Some WT_HTTP3_ID_ERROR)
    else pret (type =? WT_WEBTRANSPORT_STREAM_UNI, session_id).

(** ** Datagrams *)

Definition wt_webtransport_datagram_write (quarter_stream_id : Z) (payload : list Z) (w : wt_writer)
    : wt_status * wt_writer :=
  if WT_QUIC_VARINT_MAX <? quarter_stream_id then (WT_ERR_INVALID_ARGUMENT, w)
  else
    let w1 := w |> writer_varint quarter_stream_id in
    writer_status (if negb (zlen payload =? 0) then wt_writer_bytes payload w1 else w1).

Definition wt_webtransport_datagram_parse (data : list Z) : outcome (Z * list Z) :=
  match wt_quic_varint_decode (wt_cursor_init (Some data) (zlen data)) with
  | (Fail _ _, _) => Fail WT_ERR_PROTOCOL (Some WT_HTTP3_DATAGRAM_ERROR)
  | (Ok quarter, c) =>
      if U64_MAX / 4 <? quarter then Fail WT_ERR_PROTOCOL (Some WT_HTTP3_DATAGRAM_ERROR)
      else Ok (quarter, default [] (wt_cursor_rest c).1)
  end.

(** ** Lemmas *)

Lemma error_range_spec e :
  0 <= e < 2 ^ 64 ->
  wt_webtransport_error_is_application_range e = true <->
  exists q r, 0 <= q /\ 0 <= r < 30 /\ q * 30 + r < 2 ^ 32 /\
              e = WT_WEBTRANSPORT_APPLICATION_ERROR_FIRST + q * 31 + r.
Proof.
  intros He. unfold wt_webtransport_error_is_application_range, WT_WEBTRANSPORT_APPLICATION_ERROR_FIRST,
    WT_WEBTRANSPORT_APPLICATION_ERROR_LAST, WT_WEBTRANSPORT_ERROR_RESERVED_RESIDUE, WT_WEBTRANSPORT_ERROR_STRIDE_IN.
  destruct (_ || _) eqn:E.
  - split; [done|]. intros (q & r & Hq & Hr & Hqr & ->). reflect_bools. lia.
  - reflect_bools. rewrite u64_small by (unfold is_u64; lia). rewrite negb_true_iff, Z.eqb_neq. split.
    + intros Hne. exists ((e - 0x52e4a40fa8db) / 31), ((e - 0x52e4a40fa8db) mod 31). zdm.
    + intros (q & r & Hq & Hr & Hqr & ->). zdm.
Qed.

Lemma error_to_http3_split q r :
  0 <= q -> 0 <= r < 30 -> q * 30 + r < 2 ^ 32 ->
  wt_webtransport_error_to_http3 (q * 30 + r) = WT_WEBTRANSPORT_APPLICATION_ERROR_FIRST + q * 31 + r.
Proof.
  intros. unfold wt_webtransport_error_to_http3, WT_WEBTRANSPORT_APPLICATION_ERROR_FIRST, WT_WEBTRANSPORT_ERROR_STRIDE_OUT.
  assert ((q * 30 + r) / 0x1e = q) as -> by zdm. no_wrap. lia.
Qed.

Lemma error_from_http3_split q r :
  0 <= q -> 0 <= r < 30 -> q * 30 + r < 2 ^ 32 ->
  wt_webtransport_error_from_http3 (WT_WEBTRANSPORT_APPLICATION_ERROR_FIRST + q * 31 + r) = Ok (q * 30 + r).
Proof.
  intros Hq Hr Hqr. unfold wt_webtransport_error_from_http3.
  rewrite (proj2 (error_range_spec (WT_WEBTRANSPORT_APPLICATION_ERROR_FIRST + q * 31 + r)
    ltac:(unfold WT_WEBTRANSPORT_APPLICATION_ERROR_FIRST; lia)))
    by (exists q, r; auto). cbn [negb]. unfold WT_WEBTRANSPORT_ERROR_STRIDE_IN. cbv zeta.
  set (first := WT_WEBTRANSPORT_APPLICATION_ERROR_FIRST).
  assert (u64 (first + q * 31 + r - first) = q * 31 + r) as ->
    by (replace (first + q * 31 + r - first) with (q * 31 + r) by lia; apply u64_small; unfold is_u64; lia).
  assert ((q * 31 + r) / 0x1f = q) as -> by zdm.
  rewrite u64_small by (unfold is_u64; lia). rewrite u32_small by (unfold is_u32; lia). f_equal. lia.
Qed.

(** ** Theorems *)

(** The mapping of 32-bit application errors to HTTP/3 codes is a bijection onto the codes the reverse mapping accepts: the reserved codes in the range are never produced and are refused. *)
Lemma error_mapping_bijective :
  (forall n, is_u32 n ->
     let e := wt_webtransport_error_to_http3 n in
     wt_webtransport_error_is_application_range e = true /\ wt_webtransport_error_from_http3 e = Ok n) /\
  (forall e, is_u64 e ->
     match wt_webtransport_error_from_http3 e with
     | Ok n => is_u32 n /\ wt_webtransport_error_to_http3 n = e
     | Fail s _ => s = WT_ERR_INVALID_ARGUMENT /\ forall n, is_u32 n -> wt_webtransport_error_to_http3 n <> e
     end).
Proof.
  assert (Hout : forall n, is_u32 n ->
     let e := wt_webtransport_error_to_http3 n in
     wt_webtransport_error_is_application_range e = true /\ wt_webtransport_error_from_http3 e = Ok n).
  { intros n Hn. unfold is_u32 in Hn. cbv zeta. replace n with (n / 30 * 30 + n mod 30) at 1 2 3 by zdm.
    rewrite error_to_http3_split by zdm. split.
    - apply error_range_spec; [unfold WT_WEBTRANSPORT_APPLICATION_ERROR_FIRST; zdm|].
      exists (n / 30), (n mod 30). zdm.
    - rewrite error_from_http3_split by zdm. done. }
  split; [exact Hout|]. intros e He. destruct (wt_webtransport_error_is_application_range e) eqn:E.
  - apply error_range_spec in E as (q & r & Hq & Hr & Hqr & ->); [|exact He].
    rewrite error_from_http3_split by done. split; [unfold is_u32; lia|]. by apply error_to_http3_split.
  - unfold wt_webtransport_error_from_http3. rewrite E. cbn [negb]. split; [done|]. intros n Hn <-.
    destruct (Hout n Hn) as [Hr _]. congruence.
Qed.

(** ** Prefixes and datagrams *)

Definition prefix_bytes (unidirectional : bool) (session_id : Z) : list Z :=
  varint_bytes (if unidirectional then WT_WEBTRANSPORT_STREAM_UNI else WT_WEBTRANSPORT_STREAM_BIDI) ++
  varint_bytes session_id.

Lemma prefix_type_ok u : varint_ok (if u : bool then WT_WEBTRANSPORT_STREAM_UNI else WT_WEBTRANSPORT_STREAM_BIDI).
Proof. destruct u; vm_compute; split; discriminate. Qed.

Lemma session_id_quarter id :
  is_u64 id -> (wt_webtransport_is_session_stream_id id = true <-> id = 4 * wt_webtransport_quarter_stream_id id).
Proof.
  intros Hid. unfold wt_webtransport_is_session_stream_id, wt_webtransport_quarter_stream_id.
  change 0x03 with (2 ^ 2 - 1). rewrite land_mask, Z.eqb_eq by lia. change (2 ^ 2) with 4. zdm.
Qed.

(** The prefix of a WebTransport stream is written exactly for a session identifier that is a client-initiated bidirectional stream, and parses back to the direction and session; for any other identifier the writer refuses and the parser answers H3_ID_ERROR. *)
Lemma stream_prefix_roundtrip u id w c tl :
  varint_ok id -> writer_inv w -> w_overflow w = false -> w_copy w = true ->
  zlen (prefix_bytes u id) <= writer_room w ->
  cursor_live c -> cursor_view c = prefix_bytes u id ++ tl ->
  if wt_webtransport_is_session_stream_id id
  then (wt_webtransport_stream_prefix_write u id w).1 = WT_OK /\
       writer_bytes (wt_webtransport_stream_prefix_write u id w).2 = writer_bytes w ++ prefix_bytes u id /\
       wt_webtransport_stream_prefix_parse c = (Ok (u, id), cursor_advance c (zlen (prefix_bytes u id)))
  else wt_webtransport_stream_prefix_write u id w = (WT_ERR_INVALID_ARGUMENT, w) /\
       (wt_webtransport_stream_prefix_parse c).1 = Fail WT_ERR_PROTOCOL (Some WT_HTTP3_ID_ERROR).
Proof.
  intros Hid Hw Hov Hcp Hroom Hl Hv.
  set (t := if u then WT_WEBTRANSPORT_STREAM_UNI else WT_WEBTRANSPORT_STREAM_BIDI).
  assert (Ht : (t =? WT_WEBTRANSPORT_STREAM_UNI) = u /\
               negb (t =? WT_WEBTRANSPORT_STREAM_BIDI) && negb (t =? WT_WEBTRANSPORT_STREAM_UNI) = false)
    by (unfold t; destruct u; done).
  assert (Hparse : wt_webtransport_stream_prefix_parse c =
    (if negb (wt_webtransport_is_session_stream_id id) then pfail WT_ERR_PROTOCOL (Some WT_HTTP3_ID_ERROR)
     else pret (u, id)) (cursor_advance c (zlen (prefix_bytes u id)))).
  { assert (Hd : decodes (type <- failing_as WT_ERR_TRUNCATED None wt_quic_varint_decode;;
                          session <- failing_as WT_ERR_TRUNCATED None wt_quic_varint_decode;;
                          pret (type, session)) (prefix_bytes u id) (t, id)).
    { unfold prefix_bytes. eapply decodes_bind; [apply decodes_failing_as, decodes_varint, prefix_type_ok|].
      apply (decodes_map _ (fun x => (t, x))). apply decodes_failing_as. by apply decodes_varint. }
    specialize (Hd c tl Hl Hv). unfold wt_webtransport_stream_prefix_parse, pbind in *.
    destruct (failing_as _ _ _ c) as [[type|] c1]; [|done].
    destruct (failing_as _ _ _ c1) as [[session|] c2] eqn:E; [|done]. cbn in Hd. injection Hd as -> -> ->.
    destruct Ht as [Ht1 Ht2]. rewrite Ht2, Ht1, E. by destruct (wt_webtransport_is_session_stream_id id). }
  rewrite Hparse. unfold wt_webtransport_stream_prefix_write.
  destruct (wt_webtransport_is_session_stream_id id); cbn [negb]; [|done].
  assert (He : encodes (fun w => writer_status (writer_varint id (writer_varint t w))) (prefix_bytes u id)).
  { apply encodes_status. unfold prefix_bytes. fold t. pose proof (prefix_type_ok u). fold t in H. appends_run_tac. }
  destruct (encodes_bytes _ _ w He Hw Hov Hcp Hroom) as [He1 He2]. by split_and!.
Qed.

Lemma stream_prefix_roundtrip_witness :
  wt_webtransport_stream_prefix_parse (wt_cursor_init (Some [0x40; 0x54; 8; 1]) 4) =
    (Ok (true, 8), mk_cursor (Some [0x40; 0x54; 8; 1]) 4 3 false).
Proof.
  pose proof (stream_prefix_roundtrip true 8 (wt_writer_init (Some (replicate 4 0)) 4)
    (wt_cursor_init (Some [0x40; 0x54; 8; 1]) 4) [1]) as H.
  change (wt_webtransport_is_session_stream_id 8) with true in H. refine (proj2 (proj2 (H _ _ _ _ _ _ _))).
  - by vm_compute.
  - apply (writer_init_inv (replicate 4 0)). done.
  - done.
  - done.
  - by vm_compute.
  - apply (cursor_init_live [0x40; 0x54; 8; 1]); [done|by apply bytes_okb_spec].
  - vm_compute. reflexivity.
Defined.

Lemma encodes_datagram q payload :
  varint_ok q -> encodes (wt_webtransport_datagram_write q payload) (varint_bytes q ++ payload).
Proof.
  intros Hq. eapply encodes_ext.
  - intros w. unfold wt_webtransport_datagram_write. rewrite (proj2 (Z.ltb_ge _ _)) by (unfold varint_ok in *; lia).
    reflexivity.
  - apply encodes_status. apply (appends_optional_bytes (fun w => writer_varint q w)). by apply appends_varint.
Qed.

(** A session datagram is written as quarter stream identifier and payload, parses back to both, and the quarter identifier gives back the session. *)
Lemma webtransport_datagram_roundtrip session payload w :
  varint_ok session -> wt_webtransport_is_session_stream_id session = true -> bytes_ok payload ->
  let q := wt_webtransport_quarter_stream_id session in
  let d := varint_bytes q ++ payload in
  zlen d < 2 ^ 63 -> writer_inv w -> w_overflow w = false -> w_copy w = true -> zlen d <= writer_room w ->
  (wt_webtransport_datagram_write q payload w).1 = WT_OK /\
  writer_bytes (wt_webtransport_datagram_write q payload w).2 = writer_bytes w ++ d /\
  wt_webtransport_datagram_parse d = Ok (q, payload) /\
  wt_webtransport_session_id_from_quarter q = session.
Proof.
  intros Hs Hid Hok q d Hz Hw Hov Hcp Hroom.
  assert (Hsu : is_u64 session) by (unfold varint_ok, WT_QUIC_VARINT_MAX, is_u64 in *; lia).
  apply (session_id_quarter session Hsu) in Hid. fold q in Hid.
  assert (Hq : varint_ok q) by (unfold varint_ok in *; lia).
  destruct (encodes_bytes _ _ w (encodes_datagram q payload Hq) Hw Hov Hcp Hroom) as [He1 He2].
  split; [exact He1|]. split; [exact He2|]. split.
  - assert (Hlive : cursor_live (wt_cursor_init (Some d) (zlen d))).
    { apply cursor_init_live; [lia|]. apply Forall_app. split; [apply varint_bytes_ok|done]. }
    unfold wt_webtransport_datagram_parse. rewrite (decodes_varint q Hq _ payload Hlive eq_refl).
    change (U64_MAX / 4) with (2 ^ 62 - 1).
    rewrite (proj2 (Z.ltb_ge _ _)) by (unfold varint_ok, WT_QUIC_VARINT_MAX in *; lia). do 2 f_equal.
    assert (Hzd : zlen d = zlen (varint_bytes q) + zlen payload) by apply zlen_app.
    pose proof (zlen_nonneg payload). pose proof (zlen_nonneg (varint_bytes q)).
    unfold wt_cursor_rest, cursor_advance, cursor_ptr, zslice; cbn [cur_failed cur_data cur_len cur_offset wt_cursor_init fst default].
    rewrite Z.add_0_l, u64_small by (unfold is_u64; lia). unfold id, d. rewrite zdrop_app_exact by done.
    apply ztake_all. fold d. lia.
  - unfold wt_webtransport_session_id_from_quarter. rewrite u64_small; [lia|]. unfold is_u64 in *. lia.
Qed.

Lemma webtransport_datagram_roundtrip_witness :
  wt_webtransport_datagram_parse (varint_bytes 2 ++ [7; 8]) = Ok (2, [7; 8]).
Proof.
  refine (proj1 (proj2 (proj2 (webtransport_datagram_roundtrip 8 [7; 8] (wt_writer_init (Some (replicate 4 0)) 4)
    _ _ _ _ _ _ _ _)))).
  - by vm_compute.
  - done.
  - by apply bytes_okb_spec.
  - by vm_compute.
  - apply (writer_init_inv (replicate 4 0)). done.
  - done.
  - done.
  - by vm_compute.
Defined.
