(* ===== verification/Buffered.v ===== *)
(** * Streams and datagrams before their session: [src/webtransport/buffered.c]

    The bounded hold of draft-ietf-webtrans-http3 section 4.6.  The arrays are
    lists of their first [count] entries, and the bytes of a parked item are the
    first [length] of its array. *)

From S2P Require Export Core.
#[local] Open Scope Z_scope.

Definition WT_WEBTRANSPORT_BUFFERED_STREAMS_MAX : nat := 4.
Definition WT_WEBTRANSPORT_BUFFERED_STREAM_BYTES_MAX : Z := 1024.
Definition WT_WEBTRANSPORT_BUFFERED_DATAGRAMS_MAX : nat := 4.
Definition WT_WEBTRANSPORT_BUFFERED_DATAGRAM_BYTES_MAX : Z := 1200.

Record wt_webtransport_buffered_stream := mk_parked {
  bs_stream_id : Z;
  bs_session_id : Z;
  bs_unidirectional : bool;
  bs_bytes : list Z }.

Record wt_webtransport_buffered_datagram := mk_parked_datagram {
  bd_quarter_stream_id : Z;
  bd_bytes : list Z }.

Record wt_webtransport_buffered := mk_buffered {
  bf_streams : list wt_webtransport_buffered_stream;
  bf_datagrams : list wt_webtransport_buffered_datagram;
  bf_streams_rejected : Z;
  bf_datagrams_dropped : Z;
  bf_last_rejected_stream_id : Z }.

Definition wt_webtransport_buffered_init : wt_webtransport_buffered := mk_buffered [] [] 0 0 0.

Definition set_streams (b : wt_webtransport_buffered) (l : list wt_webtransport_buffered_stream)
    : wt_webtransport_buffered :=
  mk_buffered l (bf_datagrams b) (bf_streams_rejected b) (bf_datagrams_dropped b)
    (bf_last_rejected_stream_id b).

Definition drop_stream (b : wt_webtransport_buffered) (index : nat) : wt_webtransport_buffered :=
  set_streams b (delete index (bf_streams b)).

Definition reject_stream (b : wt_webtransport_buffered) (stream_id : Z)
    : wt_status * wt_webtransport_buffered :=
  (WT_ERR_LIMIT, mk_buffered (bf_streams b) (bf_datagrams b) (u64 (bf_streams_rejected b + 1))
                   (bf_datagrams_dropped b) stream_id).

Definition find_stream (b : wt_webtransport_buffered) (stream_id : Z) : option nat :=
  first_index (fun s => bs_stream_id s =? stream_id) (bf_streams b).

(** [memcpy] of a piece behind what a parked stream holds. *)
Definition append_bytes (s : wt_webtransport_buffered_stream) (data : list Z)
    : wt_webtransport_buffered_stream :=
  mk_parked (bs_stream_id s) (bs_session_id s) (bs_unidirectional s) (bs_bytes s ++ data).

Definition wt_webtransport_buffered_park_stream (b : wt_webtransport_buffered)
    (stream_id session_id : Z) (unidirectional : bool) (data : list Z)
    : wt_status * wt_webtransport_buffered :=
  match find_stream b stream_id with
  | None =>
      if Nat.leb WT_WEBTRANSPORT_BUFFERED_STREAMS_MAX (length (bf_streams b))
      then reject_stream b stream_id
      else if WT_WEBTRANSPORT_BUFFERED_STREAM_BYTES_MAX <? zlen data then reject_stream b stream_id
      else (WT_OK, set_streams b (bf_streams b ++
              [append_bytes (mk_parked stream_id session_id unidirectional []) data]))
  | Some index =>
      match bf_streams b !! index with
      | None => (WT_OK, b)   (* the index is one the search returned *)
      | Some parked =>
          if u64 (WT_WEBTRANSPORT_BUFFERED_STREAM_BYTES_MAX - zlen (bs_bytes parked)) <? zlen data
          then reject_stream (drop_stream b index) (bs_stream_id parked)
          else (WT_OK, set_streams b (<[index := append_bytes parked data]> (bf_streams b)))
      end
  end.

Section Drain.
Context {Item Ctx : Type} (mine : Item -> bool) (deliver : option (Ctx -> Item -> wt_status * Ctx)).

(** The walk of both drains: the first refusal of the callback ends it. *)
Fixpoint drain_loop (items : list Item) (delivered dropped : Z) (ctx : Ctx)
    : wt_status * Z * Z * Ctx :=
  match items with
  | [] => (WT_OK, delivered, dropped, ctx)
  | item :: items =>
      if negb (mine item) then drain_loop items delivered (dropped + 1) ctx
      else match deliver with
      | None => drain_loop items (delivered + 1) dropped ctx
      | Some d =>
          match d ctx item with
          | (WT_OK, ctx) => drain_loop items (delivered + 1) dropped ctx
          | (status, ctx) => (status, delivered, dropped, ctx)
          end
      end
  end.
End Drain.

Section Drains.
Context {Ctx : Type}.

Definition wt_webtransport_buffered_drain_streams (b : wt_webtransport_buffered) (session_id : Z)
    (deliver : option (Ctx -> wt_webtransport_buffered_stream -> wt_status * Ctx)) (ctx : Ctx)
    : wt_status * Z * Z * Ctx * wt_webtransport_buffered :=
  (drain_loop (fun s => bs_session_id s =? session_id) deliver (bf_streams b) 0 0 ctx, set_streams b []).

Definition wt_webtransport_buffered_drain_datagrams (b : wt_webtransport_buffered)
    (quarter_stream_id : Z)
    (deliver : option (Ctx -> wt_webtransport_buffered_datagram -> wt_status * Ctx)) (ctx : Ctx)
    : wt_status * Z * Z * Ctx * wt_webtransport_buffered :=
  (drain_loop (fun d => bd_quarter_stream_id d =? quarter_stream_id) deliver (bf_datagrams b) 0 0 ctx,
   mk_buffered (bf_streams b) [] (bf_streams_rejected b) (bf_datagrams_dropped b)
     (bf_last_rejected_stream_id b)).
End Drains.

Definition set_datagrams (b : wt_webtransport_buffered) (l : list wt_webtransport_buffered_datagram)
    (dropped : Z) : wt_webtransport_buffered :=
  mk_buffered (bf_streams b) l (bf_streams_rejected b) dropped (bf_last_rejected_stream_id b).

Definition wt_webtransport_buffered_park_datagram (b : wt_webtransport_buffered)
    (quarter_stream_id : Z) (payload : list Z) : bool * wt_webtransport_buffered :=
  if (WT_WEBTRANSPORT_BUFFERED_DATAGRAM_BYTES_MAX <? zlen payload) ||
     Nat.leb WT_WEBTRANSPORT_BUFFERED_DATAGRAMS_MAX (length (bf_datagrams b))
  then (false, set_datagrams b (bf_datagrams b) (u64 (bf_datagrams_dropped b + 1)))
  else (true, set_datagrams b (bf_datagrams b ++ [mk_parked_datagram quarter_stream_id payload])
                (bf_datagrams_dropped b)).

Definition wt_webtransport_buffered_stream_count (b : wt_webtransport_buffered) : nat :=
  length (bf_streams b).
Definition wt_webtransport_buffered_datagram_count (b : wt_webtransport_buffered) : nat :=
  length (bf_datagrams b).
Definition wt_webtransport_buffered_streams_rejected (b : wt_webtransport_buffered) : Z :=
  bf_streams_rejected b.
Definition wt_webtransport_buffered_datagrams_dropped (b : wt_webtransport_buffered) : Z :=
  bf_datagrams_dropped b.
Definition wt_webtransport_buffered_last_rejected_stream_id (b : wt_webtransport_buffered) : Z :=
  bf_last_rejected_stream_id b.

(** ** What a hold contains, against the pieces that arrived *)

Record park := mk_park { pk_id : Z; pk_session : Z; pk_uni : bool; pk_data : list Z }.

Definition park_step (a : wt_webtransport_buffered * list (park * wt_status)) (p : park)
    : wt_webtransport_buffered * list (park * wt_status) :=
  let '(st, b) := wt_webtransport_buffered_park_stream a.1 (pk_id p) (pk_session p) (pk_uni p) (pk_data p) in
  (b, a.2 ++ [(p, st)]).

(** The pieces of one stream, in order, and whether every one of them was held. *)
Definition pieces_of (id : Z) (log : list (park * wt_status)) : list park :=
  (List.filter (fun e => pk_id e.1 =? id) log).*1.
Definition all_held (id : Z) (log : list (park * wt_status)) : Prop :=
  forall p st, (p, st) ∈ log -> pk_id p = id -> st = WT_OK.

(** The stream the pieces describe: the first names it, the others add to it. *)
Definition assembled (l : list park) : option wt_webtransport_buffered_stream :=
  match l with
  | [] => None
  | p :: _ => Some (mk_parked (pk_id p) (pk_session p) (pk_uni p) (concat (pk_data <$> l)))
  end.

Definition parked_at (b : wt_webtransport_buffered) (id : Z) : option wt_webtransport_buffered_stream :=
  match find_stream b id with None => None | Some i => bf_streams b !! i end.

Definition buffered_inv (b : wt_webtransport_buffered) : Prop :=
  (length (bf_streams b) <= WT_WEBTRANSPORT_BUFFERED_STREAMS_MAX)%nat /\
  Forall (fun s => zlen (bs_bytes s) <= WT_WEBTRANSPORT_BUFFERED_STREAM_BYTES_MAX) (bf_streams b) /\
  NoDup (bs_stream_id <$> bf_streams b).

Definition held_exactly (b : wt_webtransport_buffered) (log : list (park * wt_status)) : Prop :=
  forall id, all_held id log -> parked_at b id = assembled (pieces_of id log).

Definition has_id (id : Z) (s : wt_webtransport_buffered_stream) : bool := bs_stream_id s =? id.

Lemma find_first_index {A} (p : A -> bool) (l : list A) :
  match first_index p l with None => None | Some i => l !! i end = find p l.
Proof.
  induction l as [|x l IH]; [done|]. cbn. destruct (p x); [done|]. rewrite <- IH.
  by destruct (first_index p l).
Qed.

Lemma find_snoc {A} (p : A -> bool) (l : list A) x :
  find p (l ++ [x]) = match find p l with Some y => Some y | None => if p x then Some x else None end.
Proof. induction l as [|y l IH]; cbn; [done|]. by destruct (p y). Qed.

(** Replacing or deleting the entry of one stream leaves the others alone. *)
Lemma find_insert_id l i s s' id :
  l !! i = Some s -> bs_stream_id s' = bs_stream_id s -> bs_stream_id s <> id ->
  find (has_id id) (<[i := s']> l) = find (has_id id) l.
Proof.
  revert i. induction l as [|x l IH]; intros [|i] Hl Hs Hne; cbn in Hl; simplify_eq.
  - cbn. unfold has_id. by rewrite Hs, (proj2 (Z.eqb_neq _ _) Hne).
  - change (<[S i := s']> (x :: l)) with (x :: <[i := s']> l). cbn. by rewrite (IH i).
Qed.

Lemma find_delete_id l i s id :
  l !! i = Some s -> bs_stream_id s <> id -> find (has_id id) (delete i l) = find (has_id id) l.
Proof.
  revert i. induction l as [|x l IH]; intros [|i] Hl Hne; cbn in Hl; simplify_eq.
  - cbn. unfold has_id. by rewrite (proj2 (Z.eqb_neq _ _) Hne).
  - change (delete (S i) (x :: l)) with (x :: delete i l). cbn. by rewrite (IH i).
Qed.

Lemma find_insert_first l i s s' id :
  first_index (has_id id) l = Some i -> l !! i = Some s -> bs_stream_id s' = id ->
  find (has_id id) (<[i := s']> l) = Some s'.
Proof.
  revert i. induction l as [|x l IH]; intros i Hf Hl Hs; [done|]. cbn in Hf.
  destruct (has_id id x) eqn:Ex.
  - injection Hf as <-. cbn. unfold has_id. by rewrite Hs, Z.eqb_refl.
  - destruct (first_index (has_id id) l) as [j|] eqn:Ej; [|done]. cbn in Hf. injection Hf as <-.
    change (<[S j := s']> (x :: l)) with (x :: <[j := s']> l). cbn. rewrite Ex. by apply IH.
Qed.

Lemma parked_at_find b id : parked_at b id = find (has_id id) (bf_streams b).
Proof. apply find_first_index. Qed.

Lemma pieces_snoc id log p st :
  pieces_of id (log ++ [(p, st)]) = pieces_of id log ++ (if pk_id p =? id then [p] else []).
Proof.
  unfold pieces_of. rewrite List.filter_app, fmap_app. cbn. by destruct (pk_id p =? id).
Qed.

Lemma all_held_snoc id log p st :
  all_held id (log ++ [(p, st)]) -> all_held id log /\ (pk_id p = id -> st = WT_OK).
Proof.
  intros H. split; [intros q s Hq|]; apply H; rewrite elem_of_app; [by left|right; left].
Qed.

Lemma assembled_snoc l p s :
  assembled l = Some s -> assembled (l ++ [p]) = Some (append_bytes s (pk_data p)).
Proof.
  destruct l as [|q l]; [done|]. cbn [assembled app]. intros [= <-]. unfold append_bytes. cbn [bs_stream_id bs_session_id bs_unidirectional bs_bytes].
  do 2 f_equal. change (q :: l ++ [p]) with ((q :: l) ++ [p]). rewrite fmap_app, concat_app. cbn. by rewrite app_nil_r.
Qed.

Lemma bs_ids_insert (l : list wt_webtransport_buffered_stream) i s s' :
  l !! i = Some s -> bs_stream_id s' = bs_stream_id s ->
  bs_stream_id <$> <[i := s']> l = bs_stream_id <$> l.
Proof. intros Hl Hs. rewrite list_fmap_insert, Hs. apply list_insert_id. by rewrite list_lookup_fmap, Hl. Qed.

Lemma buffered_inv_delete b i : buffered_inv b -> buffered_inv (drop_stream b i).
Proof.
  intros (Hl & Hz & Hnd). unfold buffered_inv, drop_stream, set_streams; cbn [bf_streams]. split_and!.
  - pose proof (sublist_length _ _ (sublist_delete (bf_streams b) i)). lia.
  - apply Forall_delete, Hz.
  - apply (sublist_NoDup _ (bs_stream_id <$> bf_streams b)); [done|]. apply fmap_sublist, sublist_delete.
Qed.

Lemma bytes_room s :
  zlen (bs_bytes s) <= WT_WEBTRANSPORT_BUFFERED_STREAM_BYTES_MAX ->
  u64 (WT_WEBTRANSPORT_BUFFERED_STREAM_BYTES_MAX - zlen (bs_bytes s)) =
    WT_WEBTRANSPORT_BUFFERED_STREAM_BYTES_MAX - zlen (bs_bytes s).
Proof.
  unfold WT_WEBTRANSPORT_BUFFERED_STREAM_BYTES_MAX. pose proof (zlen_nonneg (bs_bytes s)). intros.
  apply u64_small. unfold is_u64. lia.
Qed.

Lemma pieces_other id log p st : pk_id p <> id -> pieces_of id (log ++ [(p, st)]) = pieces_of id log.
Proof. intros Hne. rewrite pieces_snoc, (proj2 (Z.eqb_neq _ _) Hne). apply app_nil_r. Qed.

Lemma pieces_same log p st : pieces_of (pk_id p) (log ++ [(p, st)]) = pieces_of (pk_id p) log ++ [p].
Proof. by rewrite pieces_snoc, Z.eqb_refl. Qed.

(** A rejected piece: the other streams are as they were. *)
Lemma held_rejected b b' log p st :
  held_exactly b log -> st <> WT_OK -> (forall id, id <> pk_id p -> parked_at b' id = parked_at b id) ->
  held_exactly b' (log ++ [(p, st)]).
Proof.
  intros Hh Hst Hb id Hall. apply all_held_snoc in Hall as [Hall Hp].
  assert (Hne : pk_id p <> id) by tauto. rewrite pieces_other, Hb by done. by apply Hh.
Qed.

(** An accepted piece: its stream has grown by it, the others are as they were. *)
Lemma held_accepted b b' log p s :
  held_exactly b log -> parked_at b' (pk_id p) = Some s ->
  (all_held (pk_id p) log -> assembled (pieces_of (pk_id p) log ++ [p]) = Some s) ->
  (forall id, id <> pk_id p -> parked_at b' id = parked_at b id) ->
  held_exactly b' (log ++ [(p, WT_OK)]).
Proof.
  intros Hh Hs Hasm Hb id Hall. apply all_held_snoc in Hall as [Hall _].
  destruct (Z.eq_dec (pk_id p) id) as [<-|Hne].
  - rewrite pieces_same, Hs. symmetry. by apply Hasm.
  - rewrite pieces_other, Hb by done. by apply Hh.
Qed.

Lemma park_step_inv b log p :
  buffered_inv b -> held_exactly b log ->
  let '(b', log') := park_step (b, log) p in buffered_inv b' /\ held_exactly b' log'.
Proof.
  intros Hinv Hh. pose proof Hinv as (Hl & Hz & Hnd).
  destruct p as [id session uni data]. unfold park_step, wt_webtransport_buffered_park_stream; cbn [fst snd pk_id pk_session pk_uni pk_data].
  unfold find_stream. fold (has_id id). destruct (first_index (has_id id) (bf_streams b)) as [i|] eqn:Ef.
  - pose proof (first_index_Some _ _ _ Ef) as [(s & Hs & Hid%Z.eqb_eq) _]. rewrite Hs.
    rewrite bytes_room by exact (Forall_lookup_1 _ _ _ _ Hz Hs).
    destruct (Z.ltb_spec (WT_WEBTRANSPORT_BUFFERED_STREAM_BYTES_MAX - zlen (bs_bytes s)) (zlen data)).
    + unfold reject_stream. split; [exact (buffered_inv_delete b i Hinv)|].
      apply (held_rejected b); [done|done|]. cbn [pk_id]. intros id' Hne. rewrite !parked_at_find.
      apply (find_delete_id _ _ s); [done|congruence].
    + assert (Hat : parked_at b id = Some s) by (unfold parked_at, find_stream; fold (has_id id); by rewrite Ef).
      split; [split_and!|].
      * cbn. by rewrite length_insert.
      * cbn. apply Forall_insert; [done|]. cbn. rewrite zlen_app. lia.
      * cbn. by rewrite (bs_ids_insert _ _ s).
      * apply (held_accepted b _ _ _ (append_bytes s data)); [done| | |]; cbn [pk_id]; rewrite ?parked_at_find; cbn [set_streams bf_streams].
        -- by apply (find_insert_first _ _ s).
        -- intros Hall. apply (assembled_snoc _ (mk_park id session uni data)). rewrite <- Hat. symmetry. by apply Hh.
        -- intros id' Hne. rewrite !parked_at_find. cbn [bf_streams set_streams].
           apply (find_insert_id _ _ s); [done|done|congruence].
  - assert (Hnone : find (has_id id) (bf_streams b) = None) by (rewrite <- find_first_index; by rewrite Ef).
    assert (Hrej : forall n l, buffered_inv (mk_buffered (bf_streams b) (bf_datagrams b) n (bf_datagrams_dropped b) l) /\
      held_exactly (mk_buffered (bf_streams b) (bf_datagrams b) n (bf_datagrams_dropped b) l)
        (log ++ [(mk_park id session uni data, WT_ERR_LIMIT)])).
    { intros n l. split; [done|]. by apply (held_rejected b). }
    destruct (Nat.leb_spec WT_WEBTRANSPORT_BUFFERED_STREAMS_MAX (length (bf_streams b))); [apply Hrej|].
    destruct (Z.ltb_spec WT_WEBTRANSPORT_BUFFERED_STREAM_BYTES_MAX (zlen data)); [apply Hrej|].
    set (s := append_bytes (mk_parked id session uni []) data).
    split; [split_and!|].
    + cbn. rewrite length_app. cbn. lia.
    + cbn. apply Forall_app. split; [done|]. constructor; [cbn; done|constructor].
    + cbn. rewrite fmap_app. apply NoDup_app. split_and!; [done| |apply NoDup_singleton].
      intros x Hx ->%list_elem_of_singleton. cbn in Hx. apply list_elem_of_fmap in Hx as (s' & Hs' & Hin).
      apply list_elem_of_In in Hin. pose proof (find_none _ _ Hnone s' Hin) as Hno. unfold has_id in Hno. lia.
    + apply (held_accepted b _ _ _ s); [done| | |]; cbn [pk_id]; rewrite ?parked_at_find; cbn [set_streams bf_streams].
      * rewrite find_snoc, Hnone. unfold has_id, s. cbn. by rewrite Z.eqb_refl.
      * intros Hall. specialize (Hh id Hall). rewrite parked_at_find, Hnone in Hh.
        destruct (pieces_of id log); [|done]. cbn. unfold s, append_bytes; cbn. by rewrite app_nil_r.
      * intros id' Hne. rewrite !parked_at_find. cbn [bf_streams set_streams]. rewrite find_snoc.
        destruct (find (has_id id') (bf_streams b)); [done|]. unfold has_id, s. cbn.
        by rewrite (proj2 (Z.eqb_neq _ _)) by congruence.
Qed.

Lemma park_run_inv parks b log :
  buffered_inv b -> held_exactly b log ->
  let '(b', log') := fold_left park_step parks (b, log) in buffered_inv b' /\ held_exactly b' log'.
Proof.
  revert b log. induction parks as [|p parks IH]; intros b log Hb Hh; [done|]. cbn [fold_left].
  pose proof (park_step_inv b log p Hb Hh) as Hs. destruct (park_step (b, log) p) as [b' log'].
  destruct Hs as [Hb' Hh']. by apply IH.
Qed.

Lemma drain_loop_spec {Item Ctx} (mine : Item -> bool) (d : Ctx -> Item -> wt_status * Ctx) items :
  forall n m ctx, (forall x i, (d x i).1 = WT_OK) ->
  drain_loop mine (Some d) items n m ctx =
    (WT_OK, n + zlen (List.filter mine items), m + zlen (List.filter (fun i => negb (mine i)) items),
     fold_left (fun x i => (d x i).2) (List.filter mine items) ctx).
Proof.
  induction items as [|i items IH]; intros n m ctx Hd; cbn [drain_loop List.filter].
  - cbn. by rewrite !Z.add_0_r.
  - destruct (mine i); cbn [negb].
    + specialize (Hd ctx i) as Hi. destruct (d ctx i) as [st ctx'] eqn:E. cbn in Hi. subst st.
      rewrite IH by done. cbn [fold_left]. rewrite E, zlen_cons. cbn. do 2 f_equal. f_equal. lia.
    + rewrite IH by done. rewrite zlen_cons. do 2 f_equal. lia.
Qed.

(** Streams that arrive before their session are held within the bounds, one entry per stream, each holding exactly the concatenation of its pieces while all of them were held; draining a session delivers exactly its streams, in order, to the callback, drops the others and leaves the buffer empty. *)
Lemma buffered_streams_whole_or_rejected {Ctx} parks session
    (d : Ctx -> wt_webtransport_buffered_stream -> wt_status * Ctx) ctx :
  (forall x s, (d x s).1 = WT_OK) ->
  let '(b, log) := fold_left park_step parks (wt_webtransport_buffered_init, []) in
  (length (bf_streams b) <= WT_WEBTRANSPORT_BUFFERED_STREAMS_MAX)%nat /\
  Forall (fun s => zlen (bs_bytes s) <= WT_WEBTRANSPORT_BUFFERED_STREAM_BYTES_MAX) (bf_streams b) /\
  NoDup (bs_stream_id <$> bf_streams b) /\
  (forall id, all_held id log -> parked_at b id = assembled (pieces_of id log)) /\
  let '(st, delivered, dropped, ctx', b') := wt_webtransport_buffered_drain_streams b session (Some d) ctx in
  let mine := List.filter (fun s => bs_session_id s =? session) (bf_streams b) in
  st = WT_OK /\ ctx' = fold_left (fun x s => (d x s).2) mine ctx /\ delivered = zlen mine /\
  delivered + dropped = zlen (bf_streams b) /\ wt_webtransport_buffered_stream_count b' = 0%nat.
Proof.
  intros Hd. pose proof (park_run_inv parks wt_webtransport_buffered_init []) as Hrun.
  destruct (fold_left park_step parks _) as [b log]. destruct Hrun as [(Hl & Hz & Hnd) Hh].
  { split_and!; cbn; [lia|constructor|constructor]. }
  { intros id _. done. }
  do 4 (split; [done|]). unfold wt_webtransport_buffered_drain_streams. rewrite drain_loop_spec by done.
  rewrite !Z.add_0_l. split_and!; try done. unfold zlen. rewrite <- Nat2Z.inj_add. f_equal.
  apply List.filter_length.
Qed.

Lemma buffered_streams_whole_or_rejected_witness :
  let '(b, _) := fold_left park_step [mk_park 3 0 true [1]; mk_park 7 4 true [9]; mk_park 3 0 true [2; 3]]
                   (wt_webtransport_buffered_init, []) in
  (length (bf_streams b) <= WT_WEBTRANSPORT_BUFFERED_STREAMS_MAX)%nat /\
  parked_at b 3 = Some (mk_parked 3 0 true [1; 2; 3]).
Proof.
  pose proof (buffered_streams_whole_or_rejected
    [mk_park 3 0 true [1]; mk_park 7 4 true [9]; mk_park 3 0 true [2; 3]] 0
    (fun n s => (WT_OK, n + zlen (bs_bytes s))) 0 (fun _ _ => eq_refl)) as H.
  destruct (fold_left park_step _ _) as [b log] eqn:E. split; [apply H|].
  vm_compute in E. injection E as <- _. vm_compute. reflexivity.
Defined.
