(* ===== verification/Session.v ===== *)
(** * A WebTransport session: [src/webtransport/session.c]

    The lifecycle of a session, the capsules that move it, and the walk over the
    capsules a peer sends on the CONNECT stream, which arrive in pieces. *)

From S2P Require Export Capsule Locality.
#[local] Open Scope Z_scope.

Inductive wt_webtransport_session_state :=
  | WT_WEBTRANSPORT_SESSION_ESTABLISHING
  | WT_WEBTRANSPORT_SESSION_ESTABLISHED
  | WT_WEBTRANSPORT_SESSION_DRAINING
  | WT_WEBTRANSPORT_SESSION_CLOSED.

#[export] Instance session_state_eq_dec : EqDecision wt_webtransport_session_state.
Proof. solve_decision. Defined.

Record wt_webtransport_session := mk_session {
  se_state : wt_webtransport_session_state;
  se_close_error_code : Z;
  se_close_error_set : bool;
  se_drain_sent : bool;
  se_drain_received : bool;
  se_close_sent : bool;
  se_close_received : bool }.

Definition wt_webtransport_session_init : wt_webtransport_session :=
  mk_session WT_WEBTRANSPORT_SESSION_ESTABLISHING 0 false false false false false.

(** [session->state = state]. *)
Definition set_session_state (s : wt_webtransport_session) (state : wt_webtransport_session_state)
    : wt_webtransport_session :=
  mk_session state (se_close_error_code s) (se_close_error_set s) (se_drain_sent s) (se_drain_received s)
    (se_close_sent s) (se_close_received s).

Definition in_state (s : wt_webtransport_session) (state : wt_webtransport_session_state) : bool :=
  bool_decide (se_state s = state).

Definition wt_webtransport_session_established (s : wt_webtransport_session)
    : wt_status * wt_webtransport_session :=
  if negb (in_state s WT_WEBTRANSPORT_SESSION_ESTABLISHING) then (WT_ERR_STATE, s)
  else (WT_OK, set_session_state s WT_WEBTRANSPORT_SESSION_ESTABLISHED).

Definition wt_webtransport_session_on_drain (s : wt_webtransport_session) (sent : bool)
    : wt_status * wt_webtransport_session :=
  if in_state s WT_WEBTRANSPORT_SESSION_CLOSED then (WT_ERR_STATE, s)
  else
    let s1 := mk_session (se_state s) (se_close_error_code s) (se_close_error_set s)
                (se_drain_sent s || sent) (se_drain_received s || negb sent)
                (se_close_sent s) (se_close_received s) in
    (WT_OK, if in_state s1 WT_WEBTRANSPORT_SESSION_ESTABLISHED
            then set_session_state s1 WT_WEBTRANSPORT_SESSION_DRAINING else s1).

Definition wt_webtransport_session_on_close (s : wt_webtransport_session) (sent : bool) (error_code : Z)
    : wt_status * wt_webtransport_session :=
  (WT_OK, mk_session WT_WEBTRANSPORT_SESSION_CLOSED
            (if negb (se_close_error_set s) then error_code else se_close_error_code s) true
            (se_drain_sent s) (se_drain_received s) (se_close_sent s || sent) (se_close_received s || negb sent)).

Definition wt_webtransport_session_on_stream_end (s : wt_webtransport_session)
    : wt_status * wt_webtransport_session :=
  if in_state s WT_WEBTRANSPORT_SESSION_CLOSED then (WT_ERR_STATE, s)
  else (WT_OK, set_session_state s WT_WEBTRANSPORT_SESSION_CLOSED).

Definition wt_webtransport_session_allows_new_streams (s : wt_webtransport_session) : bool :=
  in_state s WT_WEBTRANSPORT_SESSION_ESTABLISHED.

Definition wt_webtransport_session_write_drain (s : wt_webtransport_session) (w : wt_writer)
    : wt_status * wt_webtransport_session * wt_writer :=
  if in_state s WT_WEBTRANSPORT_SESSION_CLOSED then (WT_ERR_STATE, s, w)
  else match wt_webtransport_drain_session_write w with
  | (WT_OK, w') => (wt_webtransport_session_on_drain s true, w')
  | (status, w') => (status, s, w')
  end.

Definition wt_webtransport_session_write_close (s : wt_webtransport_session) (w : wt_writer)
    (error_code : Z) (reason : list Z) : wt_status * wt_webtransport_session * wt_writer :=
  if in_state s WT_WEBTRANSPORT_SESSION_CLOSED then (WT_ERR_STATE, s, w)
  else if in_state s WT_WEBTRANSPORT_SESSION_ESTABLISHING then (WT_ERR_STATE, s, w)
  else match wt_webtransport_close_session_write error_code reason w with
  | (WT_OK, w') => (wt_webtransport_session_on_close s true error_code, w')
  | (status, w') => (status, s, w')
  end.

(** ** The walk over the capsules of the CONNECT stream *)

Section Walk.
Context {Ctx : Type}.

(** The caller's [observe] with its context: its status, the code it sets. *)
Variable observe : option (Ctx -> wt_webtransport_capsule -> wt_status * option Z * Ctx).

(** What one complete capsule does; [trailing] is what is left behind it. *)
Definition capsule_apply (s : wt_webtransport_session) (ctx : Ctx) (k : wt_webtransport_capsule)
    (trailing : Z) : wt_status * option Z * wt_webtransport_session * Ctx :=
  if cap_type k =? WT_CAPSULE_DRAIN_SESSION then
    if negb (zlen (cap_value k) =? 0) then (WT_ERR_PROTOCOL, Some WT_HTTP3_MESSAGE_ERROR, s, ctx)
    else let '(status, s') := wt_webtransport_session_on_drain s false in (status, None, s', ctx)
  else if cap_type k =? WT_CAPSULE_CLOSE_WEBTRANSPORT_SESSION then
    match wt_webtransport_close_session_parse k with
    | Fail status e => (status, e, s, ctx)
    | Ok (code, _) =>
        let '(status, s') := wt_webtransport_session_on_close s false code in
        if bool_decide (status = WT_OK) && (0 <? trailing)
        then (WT_ERR_PROTOCOL, Some WT_HTTP3_MESSAGE_ERROR, s', ctx) else (status, None, s', ctx)
    end
  else match observe with
  | Some f => let '(status, e, ctx') := f ctx k in (status, e, s, ctx')
  | None => (WT_OK, None, s, ctx)
  end.

(** The [for (;;)]; a capsule is at least two bytes, so the fuel is the bytes left. *)
Fixpoint capsule_loop (fuel : nat) (max_capsule_bytes : Z) (s : wt_webtransport_session) (c : wt_cursor)
    (ctx : Ctx) : option (wt_status * option Z * wt_webtransport_session * wt_cursor * Ctx) :=
  match fuel with
  | O => None
  | S fuel =>
      if wt_cursor_remaining c =? 0 then Some (WT_OK, None, s, c, ctx)
      else match wt_webtransport_capsule_decode max_capsule_bytes c with
      | (Fail status e, _) =>
          Some (status, if bool_decide (status = WT_ERR_TRUNCATED) then None else e, s, c, ctx)
      | (Ok k, ahead) =>
          match capsule_apply s ctx k (wt_cursor_remaining ahead) with
          | (WT_OK, _, s', ctx') => capsule_loop fuel max_capsule_bytes s' ahead ctx'
          | (status, e, s', ctx') => Some (status, e, s', c, ctx')
          end
      end
  end.

Definition wt_webtransport_session_on_capsule_bytes (s : wt_webtransport_session) (c : wt_cursor)
    (max_capsule_bytes : Z) (ctx : Ctx)
    : option (wt_status * option Z * wt_webtransport_session * wt_cursor * Ctx) :=
  if in_state s WT_WEBTRANSPORT_SESSION_CLOSED && (0 <? wt_cursor_remaining c)
  then Some (WT_ERR_PROTOCOL, Some WT_HTTP3_MESSAGE_ERROR, s, c, ctx)
  else capsule_loop (S (Z.to_nat (wt_cursor_remaining c))) max_capsule_bytes s c ctx.

End Walk.

(** ** What the decoder finds at the front of a block *)

Lemma capsule_decode_local max_length : parser_local (wt_webtransport_capsule_decode max_length).
Proof.
  intros c Hl. unfold wt_webtransport_capsule_decode at 1.
  set (p := pbind (failing_as WT_ERR_TRUNCATED None wt_quic_varint_decode) _).
  assert (Hv : parser_safe varint_ok (failing_as WT_ERR_TRUNCATED None wt_quic_varint_decode))
    by (apply failing_as_safe; auto with wt).
  assert (Hvl : parser_local (failing_as WT_ERR_TRUNCATED None wt_quic_varint_decode)).
  { apply parser_local_failing_as; [|auto with wt]. intros c0 [Hi _]. by apply varint_decode_truncated. }
  assert (Hp : parser_local p).
  { eapply parser_local_bind; [exact Hv|exact Hvl|]. intros type _.
    eapply parser_local_bind; [exact Hv|exact Hvl|]. intros length Hlen. unfold varint_ok in Hlen.
    destruct (max_length <? length); [auto with wt|].
    eapply parser_local_bind; [apply bytes_or_truncated_safe; lia|apply parser_local_bytes; lia|].
    intros v _. auto with wt. }
  specialize (Hp c Hl) as Hpc. destruct (p c) as [[[type value]|s e] c'] eqn:E.
  - destruct Hpc as (bs & Hview & Hc' & Hd). exists bs. split; [done|]. split; [done|].
    assert (Hcons : forall c0 tl, cursor_live c0 -> cursor_view c0 = bs ++ tl ->
              wt_cursor_remaining c0 - wt_cursor_remaining (cursor_advance c0 (zlen bs)) = zlen bs).
    { intros c0 tl Hl0 Hv0. destruct (cursor_advance_prefix c0 bs tl Hl0 Hv0) as [Hl1 Hv1].
      rewrite !cursor_remaining_view by (apply Hl0 || apply Hl1). rewrite Hv0, Hv1, zlen_app. lia. }
    rewrite Hc', (Hcons c _ Hl Hview). intros c2 tl Hl2 Hv2. unfold wt_webtransport_capsule_decode. fold p.
    rewrite (Hd c2 tl Hl2 Hv2). by rewrite (Hcons c2 tl Hl2 Hv2).
  - intros c2 Hl2 Hv2. specialize (Hpc c2 Hl2 Hv2). unfold wt_webtransport_capsule_decode. fold p.
    destruct (p c2) as [[[]|? ?] ?]; cbn in *; congruence.
Qed.

Lemma capsule_decode_safe_consumes max_length :
  parser_safe (fun _ => True) (wt_webtransport_capsule_decode max_length) /\
  parser_consumes (wt_webtransport_capsule_decode max_length).
Proof.
  unfold wt_webtransport_capsule_decode. set (p := pbind _ _).
  assert (Hv : parser_safe varint_ok (failing_as WT_ERR_TRUNCATED None wt_quic_varint_decode))
    by (apply failing_as_safe; auto with wt).
  assert (Hvc : parser_consumes (failing_as WT_ERR_TRUNCATED None wt_quic_varint_decode))
    by (apply failing_as_consumes; auto with wt).
  assert (Hk : forall type, varint_ok type -> parser_safe (fun _ => True)
            (length <- failing_as WT_ERR_TRUNCATED None wt_quic_varint_decode;;
             if max_length <? length then pfail WT_ERR_LIMIT (Some WT_HTTP3_EXCESSIVE_LOAD)
             else value <- bytes_or_truncated length None;; pret (type, value))).
  { intros type _. eapply parser_safe_bind; [exact Hv|]. intros length Hlen. unfold varint_ok in Hlen.
    destruct (_ <? _); [auto with wt|]. eapply parser_safe_bind; [apply bytes_or_truncated_safe; lia|]. intros v _. auto with wt. }
  assert (Hp : parser_safe (fun _ => True) p) by (eapply parser_safe_bind; [exact Hv|exact Hk]).
  assert (Hpc : parser_consumes p) by (eapply parser_consumes_bind; [exact Hv|exact Hvc|exact Hk]).
  split; intros c Hi; [specialize (Hp c Hi)|specialize (Hpc c Hi)]; destruct (p c) as [[[]|? ?] ?]; done.
Qed.

(** The first capsule of a block of bytes and what is behind it. *)
Definition capsule_front (max_length : Z) (bytes : list Z) : outcome (wt_webtransport_capsule * list Z) :=
  match wt_webtransport_capsule_decode max_length (wt_cursor_init (Some bytes) (zlen bytes)) with
  | (Ok k, c) => Ok (k, cursor_view c)
  | (Fail s e, _) => Fail s e
  end.

Ltac case_decode Hc :=
  match goal with
  | |- context [wt_webtransport_capsule_decode ?m ?x] =>
      destruct (wt_webtransport_capsule_decode m x) as [[] ?]; cbn in Hc; congruence
  end.

(** On any live cursor the decoder does what it does at the front of a block. *)
Lemma capsule_decode_front max_length c :
  cursor_live c ->
  match wt_webtransport_capsule_decode max_length c with
  | (Ok k, c') => capsule_front max_length (cursor_view c) = Ok (k, cursor_view c') /\ cursor_live c'
  | (Fail s e, _) => capsule_front max_length (cursor_view c) = Fail s e
  end.
Proof.
  intros Hl. pose proof (block_ok_live _ (live_block_ok c Hl)) as Hl0. unfold capsule_front.
  pose proof (capsule_decode_local max_length c Hl) as Hc.
  destruct (wt_webtransport_capsule_decode max_length c) as [[k|s e] c'] eqn:E.
  - destruct (parser_local_ok _ c k c' (capsule_decode_local _) Hl E) as (bs & Hv & _ & Hd & Hl').
    split; [|done]. rewrite (Hd _ (cursor_view c') Hl0 Hv). do 2 f_equal.
    by apply (cursor_advance_prefix _ bs (cursor_view c') Hl0).
  - specialize (Hc _ Hl0 (or_introl eq_refl)). case_decode Hc.
Qed.

(** What the front of a block says, it says whatever follows; only a shortage can change. *)
Lemma capsule_front_app max_length a b :
  block_ok (a ++ b) ->
  match capsule_front max_length a with
  | Ok (k, rest) => zlen rest < zlen a /\ (exists pre, a = pre ++ rest) /\
                    capsule_front max_length (a ++ b) = Ok (k, rest ++ b)
  | Fail s e => s <> WT_ERR_TRUNCATED -> capsule_front max_length (a ++ b) = Fail s e
  end.
Proof.
  intros Hab. pose proof (block_ok_live _ Hab) as Hlab.
  assert (Ha : block_ok a).
  { destruct Hab as [Hok Hz]. apply Forall_app in Hok as [? _]. rewrite zlen_app in Hz. pose proof (zlen_nonneg b).
    split; [done|lia]. }
  pose proof (block_ok_live _ Ha) as Hla. unfold capsule_front at 1.
  pose proof (capsule_decode_local max_length _ Hla) as Hc.
  destruct (wt_webtransport_capsule_decode max_length _) as [[k|s e] c'] eqn:E.
  - destruct (parser_local_ok _ _ k c' (capsule_decode_local _) Hla E) as (bs & Hv & Hc' & Hd & _).
    rewrite cursor_init_view in Hv. destruct (capsule_decode_safe_consumes max_length) as [Hs Hcons].
    specialize (Hcons _ (proj1 Hla)). rewrite E in Hcons. cbn in Hcons. rewrite Hc' in Hcons. cbn in Hcons.
    assert (zlen a = zlen bs + zlen (cursor_view c')) by (rewrite Hv at 1; by rewrite zlen_app).
    split; [lia|]. split; [by exists bs|]. unfold capsule_front.
    assert (Hvab : a ++ b = bs ++ (cursor_view c' ++ b)) by (rewrite Hv at 1; by rewrite <- app_assoc).
    rewrite (Hd _ (cursor_view c' ++ b) Hlab Hvab). do 2 f_equal.
    by apply (cursor_advance_prefix _ bs _ Hlab).
  - intros Hs. specialize (Hc _ Hlab (or_intror (conj Hs (ex_intro _ b eq_refl)))). unfold capsule_front.
    case_decode Hc.
Qed.

(** ** The walk as a function of the bytes *)

Section WalkFacts.
Context {Ctx : Type} (observe : option (Ctx -> wt_webtransport_capsule -> wt_status * option Z * Ctx)).
Variable max_length : Z.

Fixpoint capsule_walk (fuel : nat) (s : wt_webtransport_session) (ctx : Ctx) (bytes : list Z)
    : option (wt_status * option Z * wt_webtransport_session * list Z * Ctx) :=
  match fuel with
  | O => None
  | S fuel =>
      match bytes with
      | [] => Some (WT_OK, None, s, [], ctx)
      | _ =>
          match capsule_front max_length bytes with
          | Fail status e => Some (status, if bool_decide (status = WT_ERR_TRUNCATED) then None else e, s, bytes, ctx)
          | Ok (k, rest) =>
              match capsule_apply observe s ctx k (zlen rest) with
              | (WT_OK, _, s', ctx') => capsule_walk fuel s' ctx' rest
              | (status, e, s', ctx') => Some (status, e, s', bytes, ctx')
              end
          end
      end
  end.

#[local] Arguments cursor_view : simpl never.

(** A result with the cursor replaced by the bytes it still holds. *)
Definition seen (r : option (wt_status * option Z * wt_webtransport_session * wt_cursor * Ctx))
    : option (wt_status * option Z * wt_webtransport_session * list Z * Ctx) :=
  '(st, e, s, c, ctx) ← r; Some (st, e, s, cursor_view c, ctx).

Lemma capsule_loop_walk fuel s c ctx :
  cursor_live c -> seen (capsule_loop observe fuel max_length s c ctx) = capsule_walk fuel s ctx (cursor_view c).
Proof.
  revert s c ctx. induction fuel as [|fuel IH]; intros s c ctx Hl; [done|]. cbn [capsule_loop capsule_walk].
  rewrite cursor_remaining_view by apply Hl. pose proof (capsule_decode_front max_length c Hl) as Hf.
  destruct (cursor_view c) as [|b bytes] eqn:Hv; [rewrite zlen_nil; cbn; by rewrite Hv|].
  rewrite zlen_cons. pose proof (zlen_nonneg bytes). rewrite (proj2 (Z.eqb_neq _ _)) by lia.
  destruct (wt_webtransport_capsule_decode max_length c) as [[k|st e] c'].
  - destruct Hf as [-> Hl']. rewrite cursor_remaining_view by apply Hl'.
    destruct (capsule_apply observe s ctx k _) as [[[st e] s'] ctx']. destruct st; try (cbn; by rewrite Hv). by apply IH.
  - rewrite Hf. cbn. by rewrite Hv.
Qed.

(** The fuel the source's loop needs is one more than the bytes. *)
Lemma capsule_walk_fuel fuel s ctx bytes :
  block_ok bytes -> zlen bytes < Z.of_nat fuel ->
  exists r, forall fuel', zlen bytes < Z.of_nat fuel' -> capsule_walk fuel' s ctx bytes = Some r.
Proof.
  revert s ctx bytes. induction fuel as [|fuel IH]; intros s ctx bytes Hb Hf; [pose proof (zlen_nonneg bytes); lia|].
  destruct bytes as [|b bytes]; [eexists; intros [|fuel'] Hf'; [pose proof (zlen_nonneg (@nil Z)); lia|done]|].
  pose proof (capsule_front_app max_length (b :: bytes) []) as Hfront. rewrite app_nil_r in Hfront. specialize (Hfront Hb).
  destruct (capsule_front max_length (b :: bytes)) as [[k rest]|st e] eqn:E.
  - destruct Hfront as (Hlt & (pre & Hpre) & _).
    destruct (capsule_apply observe s ctx k (zlen rest)) as [[[st e] s'] ctx'] eqn:Ea.
    destruct (IH s' ctx' rest) as [r Hr]; [rewrite Hpre in Hb; by eapply block_ok_suffix|lia|].
    destruct (decide (st = WT_OK)) as [->|Hst].
    + exists r. intros [|fuel'] Hf'; [pose proof (zlen_nonneg (b :: bytes)); lia|]. cbn [capsule_walk].
      rewrite E, Ea. apply Hr. lia.
    + eexists. intros [|fuel'] Hf'; [pose proof (zlen_nonneg (b :: bytes)); lia|]. cbn [capsule_walk].
      rewrite E, Ea. destruct st; done.
  - eexists. intros [|fuel'] Hf'; [pose proof (zlen_nonneg (b :: bytes)); lia|]. cbn [capsule_walk]. by rewrite E.
Qed.

Definition walk (s : wt_webtransport_session) (ctx : Ctx) (bytes : list Z) :=
  capsule_walk (S (length bytes)) s ctx bytes.

(** The walk, one capsule at a time. *)
Lemma walk_step s ctx bytes :
  block_ok bytes ->
  walk s ctx bytes =
    match bytes with
    | [] => Some (WT_OK, None, s, [], ctx)
    | _ =>
        match capsule_front max_length bytes with
        | Fail status e => Some (status, if bool_decide (status = WT_ERR_TRUNCATED) then None else e, s, bytes, ctx)
        | Ok (k, rest) =>
            match capsule_apply observe s ctx k (zlen rest) with
            | (WT_OK, _, s', ctx') => walk s' ctx' rest
            | (status, e, s', ctx') => Some (status, e, s', bytes, ctx')
            end
        end
    end.
Proof.
  intros Hb. unfold walk at 1. cbn [capsule_walk]. destruct bytes as [|b bytes]; [done|].
  pose proof (capsule_front_app max_length (b :: bytes) []) as Hfront. rewrite app_nil_r in Hfront. specialize (Hfront Hb).
  destruct (capsule_front max_length (b :: bytes)) as [[k rest]|st e]; [|done].
  destruct Hfront as (Hlt & (pre & Hpre) & _).
  destruct (capsule_apply observe s ctx k (zlen rest)) as [[[st e] s'] ctx'].
  assert (Hr : block_ok rest) by (rewrite Hpre in Hb; by eapply block_ok_suffix).
  destruct (capsule_walk_fuel (S (length rest)) s' ctx' rest Hr ltac:(unfold zlen; lia)) as [r Hr'].
  unfold zlen in Hlt. destruct st; try done. unfold walk. by rewrite !Hr' by (unfold zlen; lia).
Qed.

Lemma on_capsule_bytes_walk s c ctx :
  cursor_live c ->
  seen (wt_webtransport_session_on_capsule_bytes observe s c max_length ctx) =
    if in_state s WT_WEBTRANSPORT_SESSION_CLOSED && (0 <? zlen (cursor_view c))
    then Some (WT_ERR_PROTOCOL, Some WT_HTTP3_MESSAGE_ERROR, s, cursor_view c, ctx)
    else walk s ctx (cursor_view c).
Proof.
  intros Hl. unfold wt_webtransport_session_on_capsule_bytes. rewrite cursor_remaining_view by apply Hl.
  destruct (_ && _); [done|]. rewrite capsule_loop_walk by done. unfold walk, zlen. by rewrite Nat2Z.id.
Qed.

End WalkFacts.

(** ** Delivery in pieces *)

Section Delivery.
Context {Ctx : Type} (observe : option (Ctx -> wt_webtransport_capsule -> wt_status * option Z * Ctx)).
Variable max_length : Z.

(** The observer's refusals are not mistaken for a wait for more bytes. *)
Hypothesis observe_decides :
  match observe with Some f => forall ctx k, (f ctx k).1.1 <> WT_ERR_TRUNCATED | None => True end.

Definition is_closed (s : wt_webtransport_session) : bool := in_state s WT_WEBTRANSPORT_SESSION_CLOSED.

Lemma close_parse_status k :
  match wt_webtransport_close_session_parse k with
  | Fail s _ => s = WT_ERR_INVALID_ARGUMENT \/ s = WT_ERR_PROTOCOL | Ok _ => True end.
Proof.
  unfold wt_webtransport_close_session_parse.
  repeat match goal with |- context [if ?b then _ else _] => destruct b end; auto.
Qed.

(** What follows a capsule matters to the close capsule only. *)
Lemma capsule_apply_trailing s ctx k n m :
  is_closed s = false -> 0 <= n <= m ->
  match capsule_apply observe s ctx k n with
  | (st, e, s', ctx') =>
      st <> WT_ERR_TRUNCATED /\
      (st = WT_OK /\ n = 0 /\ is_closed s' = true /\
         capsule_apply observe s ctx k m =
           (if 0 <? m then (WT_ERR_PROTOCOL, Some WT_HTTP3_MESSAGE_ERROR, s', ctx') else (st, e, s', ctx')) \/
       (st = WT_OK -> is_closed s' = false) /\ capsule_apply observe s ctx k m = (st, e, s', ctx'))
  end.
Proof.
  intros Hs Hnm. unfold capsule_apply. destruct (cap_type k =? WT_CAPSULE_DRAIN_SESSION).
  { destruct (negb _); [split; [done|by right]|]. unfold wt_webtransport_session_on_drain.
    fold (is_closed s). rewrite Hs. cbn. split; [done|]. right. split; [|done]. intros _.
    unfold is_closed, in_state in *. by destruct (se_state s). }
  destruct (cap_type k =? WT_CAPSULE_CLOSE_WEBTRANSPORT_SESSION).
  { pose proof (close_parse_status k) as Hst. destruct (wt_webtransport_close_session_parse k) as [[code reason]|st e].
    - cbn. destruct (Z.ltb_spec 0 n); cbn.
      + rewrite (proj2 (Z.ltb_lt 0 m)) by lia. cbn. split; [done|]. by right.
      + split; [done|]. left. split; [done|]. split; [lia|]. split; [done|]. by destruct (0 <? m).
    - split; [by destruct Hst as [->| ->]|]. right. split; [by destruct Hst as [->| ->]|done]. }
  destruct observe as [f|]; [|split; [done|by right]].
  pose proof (observe_decides ctx k) as Hd. destruct (f ctx k) as [[st e] ctx']; cbn in Hd. split; [done|by right].
Qed.

(** The answer without the bytes the caller keeps. *)
Definition verdict (r : option (wt_status * option Z * wt_webtransport_session * list Z * Ctx))
    : option (wt_status * option Z * wt_webtransport_session * Ctx) :=
  '(st, e, s, _, ctx) ← r; Some (st, e, s, ctx).

(** One delivery of the bytes not yet walked. *)
Definition entry (s : wt_webtransport_session) (ctx : Ctx) (bytes : list Z) :=
  seen (wt_webtransport_session_on_capsule_bytes observe s (wt_cursor_init (Some bytes) (zlen bytes)) max_length ctx).

Lemma entry_walk s ctx bytes :
  block_ok bytes ->
  entry s ctx bytes =
    if is_closed s && (0 <? zlen bytes) then Some (WT_ERR_PROTOCOL, Some WT_HTTP3_MESSAGE_ERROR, s, bytes, ctx)
    else walk observe max_length s ctx bytes.
Proof. intros Hb. unfold entry. by rewrite on_capsule_bytes_walk by by apply block_ok_live. Qed.

Definition waits (st : wt_status) : bool := bool_decide (st = WT_OK) || bool_decide (st = WT_ERR_TRUNCATED).

(** A walk that may go on goes on, when the rest has arrived, as if it had been there. *)
Lemma walk_split n s ctx a b :
  zlen a < Z.of_nat n -> block_ok (a ++ b) -> is_closed s && (0 <? zlen a) = false ->
  exists st e s' rest ctx', walk observe max_length s ctx a = Some (st, e, s', rest, ctx') /\
    if waits st
    then (exists pre, a = pre ++ rest) /\ verdict (entry s ctx (a ++ b)) = verdict (entry s' ctx' (rest ++ b))
    else verdict (entry s ctx (a ++ b)) = Some (st, e, s', ctx').
Proof.
  revert s ctx a. induction n as [|n IH]; intros s ctx a Hn Hab Hc; [pose proof (zlen_nonneg a); lia|].
  assert (Ha : block_ok a).
  { destruct Hab as [Hok Hz]. apply Forall_app in Hok as [? _]. rewrite zlen_app in Hz. pose proof (zlen_nonneg b).
    split; [done|lia]. }
  rewrite walk_step by done. destruct a as [|x a].
  { do 5 eexists. split; [done|]. cbn [waits bool_decide orb]. split; [by exists []|done]. }
  assert (Hcs : is_closed s = false).
  { rewrite zlen_cons in Hc. pose proof (zlen_nonneg a). rewrite (proj2 (Z.ltb_lt _ _)) in Hc by lia.
    by rewrite andb_true_r in Hc. }
  pose proof (capsule_front_app max_length (x :: a) b Hab) as Hf.
  assert (He : entry s ctx ((x :: a) ++ b) = walk observe max_length s ctx ((x :: a) ++ b)).
  { rewrite entry_walk by done. by rewrite Hcs. }
  rewrite He, (walk_step _ _ s ctx ((x :: a) ++ b)) by done. cbn [app].
  change (x :: a ++ b) with ((x :: a) ++ b).
  destruct (capsule_front max_length (x :: a)) as [[k rest]|st e] eqn:E.
  2: { do 5 eexists. split; [done|]. destruct (decide (st = WT_ERR_TRUNCATED)) as [->|Hst].
       - cbn [waits bool_decide orb]. split; [by exists []|]. rewrite entry_walk by done. rewrite Hcs. cbn [andb].
         rewrite (walk_step _ _ s ctx ((x :: a) ++ b)) by done. done.
       - destruct (waits st) eqn:Hw.
         + unfold waits in Hw. destruct st; try done. split; [by exists []|]. rewrite entry_walk by done. rewrite Hcs. cbn [andb].
           rewrite (walk_step _ _ s ctx ((x :: a) ++ b)) by done. done.
         + rewrite (Hf Hst). rewrite !(bool_decide_false _ Hst). done. }
  destruct Hf as (Hlt & (pre & Hpre) & ->). pose proof (zlen_nonneg rest). pose proof (zlen_nonneg b).
  assert (Hrb : block_ok (rest ++ b)) by (rewrite Hpre, <- app_assoc in Hab; by eapply block_ok_suffix).
  pose proof (capsule_apply_trailing s ctx k (zlen rest) (zlen (rest ++ b)) Hcs ltac:(rewrite zlen_app; lia)) as Ht.
  destruct (capsule_apply observe s ctx k (zlen rest)) as [[[st e] s1] ctx1].
  destruct Ht as (Htr & [(-> & Hr & Hc1 & ->)|(Hc1 & ->)]).
  - apply zlen_0_nil in Hr as ->. cbn [app]. exists WT_OK, None, s1, [], ctx1.
    split; [by rewrite walk_step by (split; [constructor|done])|]. cbn [waits bool_decide orb]. split; [by eexists|].
    cbn [app]. rewrite (entry_walk s1) by done. rewrite Hc1. cbn [andb]. destruct (0 <? zlen b); done.
  - destruct (decide (st = WT_OK)) as [->|Hst].
    + destruct (IH s1 ctx1 rest) as (st & e' & s2 & rest2 & ctx2 & Hw & Hres); [lia|done|by rewrite Hc1|].
      exists st, e', s2, rest2, ctx2. split; [done|].
      assert (He1 : walk observe max_length s1 ctx1 (rest ++ b) = entry s1 ctx1 (rest ++ b)).
      { rewrite entry_walk by done. by rewrite Hc1. }
      rewrite He1. destruct (waits st); [|done]. destruct Hres as [(pre2 & ->) Hv]. split; [|done].
      exists (pre ++ pre2). by rewrite Hpre, <- app_assoc.
    + exists st, e, s1, (x :: a), ctx1. destruct st; done.
Qed.

(** A caller that keeps what was not walked and appends the next piece to it. *)
Definition deliver_step (r : option (wt_status * option Z * wt_webtransport_session * list Z * Ctx)) (piece : list Z) :=
  '(st, e, s, rest, ctx) ← r; if waits st then entry s ctx (rest ++ piece) else Some (st, e, s, rest, ctx).

Definition deliver (s : wt_webtransport_session) (ctx : Ctx) (pieces : list (list Z)) :=
  verdict (fold_left deliver_step pieces (Some (WT_OK, None, s, [], ctx))).

Lemma entry_some s ctx bytes : block_ok bytes -> exists r, entry s ctx bytes = Some r.
Proof.
  intros Hb. rewrite entry_walk by done. destruct (_ && _); [by eexists|].
  destruct (capsule_walk_fuel observe max_length (S (length bytes)) s ctx bytes Hb ltac:(unfold zlen; lia)) as [r Hr].
  exists r. apply Hr. unfold zlen. lia.
Qed.

Lemma deliver_stopped r pieces : waits r.1.1.1.1 = false -> fold_left deliver_step pieces (Some r) = Some r.
Proof.
  destruct r as [[[[st e] s] rest] ctx]. cbn. intros Hw. induction pieces as [|p pieces IH]; [done|].
  cbn [fold_left]. unfold deliver_step at 2. cbn. by rewrite Hw.
Qed.

Lemma deliver_pieces pieces s ctx held :
  block_ok (held ++ concat pieces) -> 
  verdict (fold_left deliver_step pieces (entry s ctx held)) = verdict (entry s ctx (held ++ concat pieces)).
Proof.
  revert s ctx held. induction pieces as [|p pieces IH]; intros s ctx held Hb; [cbn; by rewrite app_nil_r|].
  cbn [concat] in *. cbn [fold_left].
  assert (Hheld : block_ok held).
  { destruct Hb as [Hok Hz]. apply Forall_app in Hok as [? _]. rewrite zlen_app in Hz.
    pose proof (zlen_nonneg (p ++ concat pieces)). split; [done|lia]. }
  rewrite (entry_walk s ctx held) by done. destruct (is_closed s && (0 <? zlen held)) eqn:Hc.
  - unfold deliver_step at 2. cbn [mbind option_bind]. change (waits WT_ERR_PROTOCOL) with false. cbv iota.
    rewrite deliver_stopped by done. cbn [verdict mbind option_bind].
    rewrite entry_walk by done. apply andb_true_iff in Hc as [-> Hz]. rewrite zlen_app.
    pose proof (zlen_nonneg (p ++ concat pieces)). apply Z.ltb_lt in Hz. by rewrite (proj2 (Z.ltb_lt _ _)) by lia.
  - destruct (walk_split (S (length held)) s ctx held (p ++ concat pieces)) as (st & e & s' & rest & ctx' & Hw & Hres);
      [unfold zlen; lia|done|done|]. rewrite Hw. unfold deliver_step at 2. cbn [mbind option_bind].
    destruct (waits st) eqn:Hwt.
    + destruct Hres as [(pre & Hpre) ->]. rewrite app_assoc. rewrite <- app_assoc.
      rewrite IH; [by rewrite <- app_assoc|]. rewrite <- app_assoc. rewrite Hpre, <- app_assoc in Hb. by eapply block_ok_suffix.
    + rewrite deliver_stopped by done. by rewrite Hres.
Qed.

(** C13. Delivery of a CONNECT stream in pieces is equivalent to delivery at once: for every
    byte string and every way to cut it, feeding the pieces with the unread tail kept in
    front of the next one gives the same status, the same HTTP/3 error, the same session
    state and the same sequence of observed capsules as one call on the whole string; and
    the walk always ends. *)
Theorem capsule_stream_split_invariant s ctx pieces :
  block_ok (concat pieces) ->
  exists st e s' rest ctx',
    wt_webtransport_session_on_capsule_bytes observe s
      (wt_cursor_init (Some (concat pieces)) (zlen (concat pieces))) max_length ctx = Some (st, e, s', rest, ctx') /\
    deliver s ctx pieces = Some (st, e, s', ctx').
Proof.
  intros Hb. destruct (entry_some s ctx (concat pieces) Hb) as [[[[[st e] s'] rest] ctx'] Hr].
  unfold entry, seen in Hr. destruct (wt_webtransport_session_on_capsule_bytes _ _ _ _ _) as [[[[[st0 e0] s0] c0] ctx0]|] eqn:E; [|done].
  cbn in Hr. injection Hr as <- <- <- <- <-. do 5 eexists. split; [done|].
  assert (He : Some (WT_OK, None, s, [], ctx) = entry s ctx []).
  { rewrite entry_walk by (split; [constructor|done]). rewrite andb_false_r. by rewrite walk_step by (split; [constructor|done]). }
  unfold deliver. rewrite He, deliver_pieces by done. unfold entry. cbn [app]. rewrite E. done.
Qed.

End Delivery.

(** A drain before a split close capsule, byte by byte, behind a capsule this layer only observes. *)
Lemma capsule_stream_split_invariant_witness :
  let observe := Some (fun ctx k => (WT_OK, None, ctx ++ [cap_type k])) in
  let s := (wt_webtransport_session_established wt_webtransport_session_init).2 in
  let flight := varint_bytes 0x21 ++ [1; 9] ++ varint_bytes WT_CAPSULE_DRAIN_SESSION ++ [0] ++ close_bytes 7 [0x41] in
  deliver observe 64 s [] ((fun b => [b]) <$> flight) =
    Some (WT_OK, None, mk_session WT_WEBTRANSPORT_SESSION_CLOSED 7 true false true false true, [0x21]).
Proof.
  cbv zeta. destruct (capsule_stream_split_invariant
    (Some (fun (ctx : list Z) k => (WT_OK, None, ctx ++ [cap_type k]))) 64 ltac:(done)
    (wt_webtransport_session_established wt_webtransport_session_init).2 []
    ((fun b => [b]) <$> (varint_bytes 0x21 ++ [1; 9] ++ varint_bytes WT_CAPSULE_DRAIN_SESSION ++ [0] ++ close_bytes 7 [0x41])))
    as (st & e & s' & rest & ctx' & Hw & Hd).
  - split; [apply bytes_okb_spec; vm_compute; reflexivity|vm_compute; reflexivity].
  - rewrite Hd. vm_compute in Hw. injection Hw as <- <- <- _ <-. reflexivity.
Defined.

(** ** The lifecycle *)

Definition state_rank (st : wt_webtransport_session_state) : Z :=
  match st with
  | WT_WEBTRANSPORT_SESSION_ESTABLISHING => 0
  | WT_WEBTRANSPORT_SESSION_ESTABLISHED => 1
  | WT_WEBTRANSPORT_SESSION_DRAINING => 2
  | WT_WEBTRANSPORT_SESSION_CLOSED => 3
  end.

(** [s'] may follow [s]: no state is left backwards, nothing recorded is forgotten. *)
Definition session_le (s s' : wt_webtransport_session) : Prop :=
  state_rank (se_state s) <= state_rank (se_state s') /\
  (se_drain_sent s -> se_drain_sent s') /\ (se_drain_received s -> se_drain_received s') /\
  (se_close_sent s -> se_close_sent s') /\ (se_close_received s -> se_close_received s') /\
  (se_close_error_set s -> se_close_error_set s' /\ se_close_error_code s' = se_close_error_code s).

Definition session_ok (s : wt_webtransport_session) : Prop :=
  se_close_error_set s = se_close_sent s || se_close_received s /\
  (se_close_error_set s -> se_state s = WT_WEBTRANSPORT_SESSION_CLOSED) /\
  (se_state s = WT_WEBTRANSPORT_SESSION_DRAINING -> se_drain_sent s || se_drain_received s).

Definition session_moves (s s' : wt_webtransport_session) : Prop := session_ok s -> session_ok s' /\ session_le s s'.

#[export] Instance session_moves_preorder : PreOrder session_moves.
Proof.
  split; unfold session_moves, session_le.
  - intros s Hs. split_and!; auto; lia.
  - intros s1 s2 s3 H12 H23 Hs1. destruct (H12 Hs1) as (Hs2 & ? & ? & ? & ? & ? & Hset).
    destruct (H23 Hs2) as (Hs3 & ? & ? & ? & ? & ? & Hset'). split; [done|]. split_and!; auto; [lia|].
    intros Hs. destruct (Hset Hs) as [Hs2' <-]. by apply Hset'.
Qed.

Ltac session_cases s :=
  unfold session_moves, session_ok, session_le; destruct s as [[] ? [] [] [] [] []]; cbn; intros (? & ? & ?);
  split_and!; try (vm_compute; discriminate); naive_solver.

Lemma established_moves s : session_moves s (wt_webtransport_session_established s).2.
Proof. session_cases s. Qed.

Lemma drain_moves s sent : session_moves s (wt_webtransport_session_on_drain s sent).2.
Proof. destruct sent; session_cases s. Qed.

Lemma close_moves s sent code : session_moves s (wt_webtransport_session_on_close s sent code).2.
Proof. destruct sent; session_cases s. Qed.

Lemma stream_end_moves s : session_moves s (wt_webtransport_session_on_stream_end s).2.
Proof. session_cases s. Qed.

Lemma write_drain_moves s w : session_moves s (wt_webtransport_session_write_drain s w).1.2.
Proof.
  unfold wt_webtransport_session_write_drain. destruct (in_state s _); [reflexivity|].
  destruct (wt_webtransport_drain_session_write w) as [[] w']; try reflexivity. apply drain_moves.
Qed.

Lemma write_close_moves s w code reason :
  session_moves s (wt_webtransport_session_write_close s w code reason).1.2.
Proof.
  unfold wt_webtransport_session_write_close. destruct (in_state s _); [reflexivity|]. destruct (in_state s _); [reflexivity|].
  destruct (wt_webtransport_close_session_write code reason w) as [[] w']; try reflexivity. apply close_moves.
Qed.

Section Lifecycle.
Context {Ctx : Type} (observe : option (Ctx -> wt_webtransport_capsule -> wt_status * option Z * Ctx)).

Lemma capsule_apply_moves s ctx k n : session_moves s (capsule_apply observe s ctx k n).1.2.
Proof.
  unfold capsule_apply. destruct (cap_type k =? _).
  { destruct (negb _); [reflexivity|]. pose proof (drain_moves s false) as H.
    by destruct (wt_webtransport_session_on_drain s false). }
  destruct (cap_type k =? _).
  { destruct (wt_webtransport_close_session_parse k) as [[code reason]|]; [|reflexivity].
    pose proof (close_moves s false code) as H. destruct (wt_webtransport_session_on_close s false code).
    by destruct (_ && _). }
  destruct observe as [f|]; [|reflexivity]. by destruct (f ctx k) as [[]].
Qed.

Lemma capsule_loop_moves fuel max_length s c ctx r :
  capsule_loop observe fuel max_length s c ctx = Some r -> session_moves s r.1.1.2.
Proof.
  revert s c ctx. induction fuel as [|fuel IH]; intros s c ctx; [done|]. cbn [capsule_loop].
  destruct (_ =? 0); [intros [= <-]; reflexivity|].
  destruct (wt_webtransport_capsule_decode max_length c) as [[k|st e] c']; [|intros [= <-]; reflexivity].
  pose proof (capsule_apply_moves s ctx k (wt_cursor_remaining c')) as Hm.
  destruct (capsule_apply observe s ctx k _) as [[[st e] s'] ctx']. cbn in Hm.
  destruct st; try (intros [= <-]; exact Hm). intros E. etrans; [exact Hm|by eapply IH].
Qed.

Inductive session_event :=
  | SessionEstablished
  | SessionDrain (sent : bool)
  | SessionClose (sent : bool) (error_code : Z)
  | SessionStreamEnd
  | SessionWriteDrain (w : wt_writer)
  | SessionWriteClose (w : wt_writer) (error_code : Z) (reason : list Z)
  | SessionCapsules (c : wt_cursor) (max_length : Z) (ctx : Ctx).

Definition session_step (s : wt_webtransport_session) (e : session_event) : wt_webtransport_session :=
  match e with
  | SessionEstablished => (wt_webtransport_session_established s).2
  | SessionDrain sent => (wt_webtransport_session_on_drain s sent).2
  | SessionClose sent code => (wt_webtransport_session_on_close s sent code).2
  | SessionStreamEnd => (wt_webtransport_session_on_stream_end s).2
  | SessionWriteDrain w => (wt_webtransport_session_write_drain s w).1.2
  | SessionWriteClose w code reason => (wt_webtransport_session_write_close s w code reason).1.2
  | SessionCapsules c max_length ctx =>
      match wt_webtransport_session_on_capsule_bytes observe s c max_length ctx with
      | Some r => r.1.1.2 | None => s end
  end.

Lemma session_step_moves s e : session_moves s (session_step s e).
Proof.
  destruct e; cbn [session_step]; auto using established_moves, drain_moves, close_moves, stream_end_moves,
    write_drain_moves, write_close_moves.
  unfold wt_webtransport_session_on_capsule_bytes. destruct (_ && _); [reflexivity|].
  destruct (capsule_loop _ _ _ _ _ _) as [r|] eqn:E; [by eapply capsule_loop_moves|reflexivity].
Qed.

Lemma session_run_moves es s : session_moves s (fold_left session_step es s).
Proof.
  revert s. induction es as [|e es IH]; intros s; [reflexivity|]. cbn. etrans; [apply session_step_moves|apply IH].
Qed.


End Lifecycle.

(** A drain that is accepted before the session is established sets its flag and is then forgotten: establishing the session succeeds and new streams are allowed. *)
Lemma early_drain_forgotten sent :
  let '(st, s) := wt_webtransport_session_on_drain wt_webtransport_session_init sent in
  let '(st', s') := wt_webtransport_session_established s in
  st = WT_OK /\ st' = WT_OK /\ se_drain_sent s' = sent /\ se_drain_received s' = negb sent /\
  se_state s' = WT_WEBTRANSPORT_SESSION_ESTABLISHED /\ wt_webtransport_session_allows_new_streams s' = true.
Proof. by destruct sent. Qed.

(** After this endpoint has written its close, the session accepts a close from the peer as an event, but the very bytes of a peer's CLOSE capsule are refused with H3_MESSAGE_ERROR before they are read. *)
Lemma crossing_closes_refused {Ctx} observe s w code reason peer_code peer_reason max_length (ctx : Ctx) :
  block_ok (close_bytes peer_code peer_reason) ->
  (wt_webtransport_session_write_close s w code reason).1.1 = WT_OK ->
  let s' := (wt_webtransport_session_write_close s w code reason).1.2 in
  let c := wt_cursor_init (Some (close_bytes peer_code peer_reason)) (zlen (close_bytes peer_code peer_reason)) in
  (wt_webtransport_session_on_close s' false peer_code).1 = WT_OK /\
  wt_webtransport_session_on_capsule_bytes observe s' c max_length ctx =
    Some (WT_ERR_PROTOCOL, Some WT_HTTP3_MESSAGE_ERROR, s', c, ctx).
Proof.
  intros Hb. destruct (wt_webtransport_session_write_close s w code reason) as [[st s'] w'] eqn:E. cbn [fst snd]. intros ->.
  cbv zeta. split; [done|]. unfold wt_webtransport_session_on_capsule_bytes.
  pose proof (block_ok_live _ Hb) as Hl. rewrite cursor_remaining_view by apply Hl. rewrite cursor_init_view.
  assert (Hc : in_state s' WT_WEBTRANSPORT_SESSION_CLOSED = true).
  { unfold wt_webtransport_session_write_close in E. destruct (in_state s _); [done|]. destruct (in_state s _); [done|].
    unfold wt_webtransport_session_on_close in E.
    destruct (wt_webtransport_close_session_write code reason w) as [[] ?]; by simplify_eq. }
  rewrite Hc. unfold close_bytes, tlv_bytes. rewrite !zlen_app.
  pose proof (varint_bytes_pos WT_CAPSULE_CLOSE_WEBTRANSPORT_SESSION ltac:(done)). zlen_facts.
  by rewrite (proj2 (Z.ltb_lt _ _)) by lia.
Qed.

Lemma crossing_closes_refused_witness :
  let s := (wt_webtransport_session_established wt_webtransport_session_init).2 in
  let s' := (wt_webtransport_session_write_close s (wt_writer_init (Some (replicate 16 0)) 16) 7 []).1.2 in
  let c := wt_cursor_init (Some (close_bytes 9 [])) (zlen (close_bytes 9 [])) in
  (wt_webtransport_session_on_close s' false 9).1 = WT_OK /\
  wt_webtransport_session_on_capsule_bytes None s' c 64 tt =
    Some (WT_ERR_PROTOCOL, Some WT_HTTP3_MESSAGE_ERROR, s', c, tt).
Proof.
  refine (crossing_closes_refused None _ (wt_writer_init (Some (replicate 16 0)) 16) 7 [] 9 [] 64 tt _ _).
  - split; [apply bytes_okb_spec; vm_compute; reflexivity|vm_compute; reflexivity].
  - vm_compute. reflexivity.
Defined.
