(* ===== verification/Packet.v ===== *)
(** * QUIC packet headers: [src/quic/packet.c], [packet_encode.c]

    Long, short and Retry headers as they are on the wire, with the packet
    number truncated and the payload opaque, the walk to the packet number of a
    header that is still protected, and the peeks a listener makes.  A view into
    the datagram is the list of the bytes it shows. *)

From S2P Require Export Frame PacketNumber.
#[local] Open Scope Z_scope.

Definition WT_QUIC_VERSION_1 : Z := 0x00000001.
Definition WT_QUIC_VERSION_NEGOTIATION : Z := 0x00000000.
Definition WT_QUIC_FIXED_BIT : Z := 0x40.
Definition WT_QUIC_LONG_HEADER_BIT : Z := 0x80.
Definition WT_QUIC_KEY_PHASE_BIT : Z := 0x04.
Definition WT_QUIC_SPIN_BIT : Z := 0x20.
Definition WT_QUIC_MAX_CID_LEN : Z := 20.
Definition WT_QUIC_RETRY_INTEGRITY_TAG_LEN : Z := 16.

Inductive wt_quic_packet_type :=
  | WT_QUIC_PACKET_INITIAL | WT_QUIC_PACKET_ZERO_RTT | WT_QUIC_PACKET_HANDSHAKE | WT_QUIC_PACKET_RETRY.

#[export] Instance packet_type_eq_dec : EqDecision wt_quic_packet_type.
Proof. solve_decision. Defined.

(** The enumerator's number, and the cast from the two type bits. *)
Definition packet_type_bits (type : wt_quic_packet_type) : Z :=
  match type with
  | WT_QUIC_PACKET_INITIAL => 0 | WT_QUIC_PACKET_ZERO_RTT => 1
  | WT_QUIC_PACKET_HANDSHAKE => 2 | WT_QUIC_PACKET_RETRY => 3
  end.
Definition packet_type_of_bits (bits : Z) : wt_quic_packet_type :=
  if bits =? 0 then WT_QUIC_PACKET_INITIAL else if bits =? 1 then WT_QUIC_PACKET_ZERO_RTT
  else if bits =? 2 then WT_QUIC_PACKET_HANDSHAKE else WT_QUIC_PACKET_RETRY.

Record wt_quic_long_header := mk_long_header {
  lh_type : wt_quic_packet_type;
  lh_version : Z;
  lh_destination_connection_id : list Z;
  lh_source_connection_id : list Z;
  lh_token : list Z;
  lh_packet_number : Z;
  lh_packet_number_len : Z;
  lh_payload : list Z;
  lh_header : list Z;
  lh_total_len : Z;
  lh_reserved_bits_set : bool }.

Record wt_quic_short_header := mk_short_header {
  sh_key_phase : bool;
  sh_spin : bool;
  sh_reserved_bits_set : bool;
  sh_destination_connection_id : list Z;
  sh_packet_number : Z;
  sh_packet_number_len : Z;
  sh_payload : list Z;
  sh_header : list Z;
  sh_total_len : Z }.

Record wt_quic_retry_packet := mk_retry_packet {
  rp_version : Z;
  rp_destination_connection_id : list Z;
  rp_source_connection_id : list Z;
  rp_token : list Z;
  rp_integrity_tag : list Z;
  rp_header : list Z;
  rp_total_len : Z }.

Inductive wt_quic_packet_kind :=
  | WT_QUIC_PACKET_KIND_LONG | WT_QUIC_PACKET_KIND_SHORT | WT_QUIC_PACKET_KIND_VERSION_NEGOTIATION.

(** [data[0] & bit]. *)
Definition has_bit (first bit : Z) : bool := negb (Z.land first bit =? 0).

Definition wt_quic_packet_kind_of (data : list Z) : outcome wt_quic_packet_kind :=
  if zlen data =? 0 then Fail WT_ERR_TRUNCATED None
  else if negb (has_bit (byte_at data 0) WT_QUIC_LONG_HEADER_BIT) then Ok WT_QUIC_PACKET_KIND_SHORT
  else if zlen data <? 5 then Fail WT_ERR_TRUNCATED None
  else if wt_load_be32 (zdrop 1 data) =? WT_QUIC_VERSION_NEGOTIATION
  then Ok WT_QUIC_PACKET_KIND_VERSION_NEGOTIATION
  else Ok WT_QUIC_PACKET_KIND_LONG.

(** ** Decoding *)

Definition wt_quic_packet_fail {A} (code : Z) (status : wt_status) : parser A := pfail status (Some code).

Definition wt_quic_read_connection_id : parser (list Z) :=
  length_byte <- take_or_truncated 1 None;;
  let length := byte_at length_byte 0 in
  if WT_QUIC_MAX_CID_LEN <? length then wt_quic_packet_fail WT_QUIC_PROTOCOL_VIOLATION WT_ERR_PROTOCOL
  else bytes_or_truncated length None.

(** A count the wire states, read as that many bytes. *)
Definition take_counted (count overflow_code : Z) : parser (list Z) := fun c =>
  match wt_checked_narrow_u64_to_size count with
  | Fail _ _ => (Fail WT_ERR_OVERFLOW (Some overflow_code), c)
  | Ok narrowed =>
      if wt_cursor_remaining c <? narrowed then (Fail WT_ERR_TRUNCATED None, c)
      else let '(p, c') := wt_cursor_bytes narrowed c in (Ok (default [] p), c')
  end.

(** [for (...) value = (value << 8) | packet_number[i];] *)
Definition packet_number_value (bytes : list Z) : Z := varint_accumulate bytes 0.

(** What [p] read, with the bytes it read it from: [start] and
    [c->offset - (start - c->data)]. *)
Definition with_header {A} (p : parser A) : parser (A * list Z) := fun c =>
  match p c with
  | (Ok a, c') =>
      (Ok (a, zslice (cur_offset c) (u64 (cur_offset c' - cur_offset c)) (default [] (cur_data c))), c')
  | (Fail s e, c') => (Fail s e, c')
  end.

(** From the first byte through the packet number: the type, the version, the
    connection IDs, the token, the Length field, the packet number's bytes. *)
Definition long_header_fields : parser (Z * Z * list Z * list Z * list Z * Z * list Z) :=
  first <- read_first;;
  if negb (has_bit first WT_QUIC_LONG_HEADER_BIT)
  then wt_quic_packet_fail WT_QUIC_PROTOCOL_VIOLATION WT_ERR_PROTOCOL
  else if negb (has_bit first WT_QUIC_FIXED_BIT)
  then wt_quic_packet_fail WT_QUIC_PROTOCOL_VIOLATION WT_ERR_PROTOCOL
  else
    let type := packet_type_of_bits (Z.land (Z.shiftr first 4) 0x03) in
    let packet_number_len := Z.land first 0x03 + 1 in
    if bool_decide (type = WT_QUIC_PACKET_RETRY)
    then wt_quic_packet_fail WT_QUIC_PROTOCOL_VIOLATION WT_ERR_PROTOCOL
    else
      version <- take_or_truncated 4 None;;
      dcid <- wt_quic_read_connection_id;;
      scid <- wt_quic_read_connection_id;;
      token <- (if bool_decide (type = WT_QUIC_PACKET_INITIAL)
                then token_len <- failing_as WT_ERR_TRUNCATED None wt_quic_varint_decode;;
                     take_counted token_len WT_QUIC_FRAME_ENCODING_ERROR
                else pret []);;
      length_field <- failing_as WT_ERR_TRUNCATED None wt_quic_varint_decode;;
      packet_number <- take_or_truncated packet_number_len None;;
      pret (first, wt_load_be32 version, dcid, scid, token, length_field, packet_number).

Definition wt_quic_long_header_decode : parser wt_quic_long_header :=
  r <- with_header long_header_fields;;
  let '((first, version, dcid, scid, token, length_field, packet_number), header) := r in
  let packet_number_len := Z.land first 0x03 + 1 in
  if length_field <? packet_number_len then wt_quic_packet_fail WT_QUIC_FRAME_ENCODING_ERROR WT_ERR_PROTOCOL
  else
    payload <- take_counted (u64 (length_field - packet_number_len)) WT_QUIC_FRAME_ENCODING_ERROR;;
    pret (mk_long_header (packet_type_of_bits (Z.land (Z.shiftr first 4) 0x03)) version dcid scid token
            (packet_number_value packet_number) packet_number_len payload header
            (u64 (zlen header + zlen payload)) (has_bit first 0x0c)).

Definition wt_quic_short_header_decode (destination_connection_id_len : Z) : parser wt_quic_short_header :=
  if WT_QUIC_MAX_CID_LEN <? destination_connection_id_len then pfail WT_ERR_INVALID_ARGUMENT None
  else
    r <- with_header
      (first <- read_first;;
       if has_bit first WT_QUIC_LONG_HEADER_BIT then wt_quic_packet_fail WT_QUIC_PROTOCOL_VIOLATION WT_ERR_PROTOCOL
       else if negb (has_bit first WT_QUIC_FIXED_BIT)
       then wt_quic_packet_fail WT_QUIC_PROTOCOL_VIOLATION WT_ERR_PROTOCOL
       else
         dcid <- bytes_or_truncated destination_connection_id_len None;;
         packet_number <- take_or_truncated (Z.land first 0x03 + 1) None;;
         pret (first, dcid, packet_number));;
    let '((first, dcid, packet_number), header) := r in
    payload <- take_rest false;;
    pret (mk_short_header (has_bit first WT_QUIC_KEY_PHASE_BIT) (has_bit first WT_QUIC_SPIN_BIT)
            (has_bit first 0x18) dcid (packet_number_value packet_number) (Z.land first 0x03 + 1) payload
            header (zlen header + zlen payload)).

Definition wt_quic_retry_packet_decode (data : list Z) : outcome wt_quic_retry_packet :=
  let length := zlen data in
  if length <? 1 + 4 + 1 + 1 + WT_QUIC_RETRY_INTEGRITY_TAG_LEN then Fail WT_ERR_TRUNCATED None
  else match (first <- (fun c => let '(b, c') := wt_cursor_u8 c in (Ok b, c'));;
              if negb (has_bit first WT_QUIC_LONG_HEADER_BIT) || negb (has_bit first WT_QUIC_FIXED_BIT)
              then wt_quic_packet_fail WT_QUIC_PROTOCOL_VIOLATION WT_ERR_PROTOCOL
              else if negb (bool_decide (packet_type_of_bits (Z.land (Z.shiftr first 4) 0x03) = WT_QUIC_PACKET_RETRY))
              then wt_quic_packet_fail WT_QUIC_PROTOCOL_VIOLATION WT_ERR_PROTOCOL
              else version <- take_or_truncated 4 None;;
                   dcid <- wt_quic_read_connection_id;; scid <- wt_quic_read_connection_id;;
                   pret (wt_load_be32 version, dcid, scid)) (wt_cursor_init (Some data) length) with
  | (Fail s e, _) => Fail s e
  | (Ok (version, dcid, scid), c) =>
      let header_len := cur_offset c in
      if length <? u64 (header_len + WT_QUIC_RETRY_INTEGRITY_TAG_LEN) then Fail WT_ERR_TRUNCATED None
      else Ok (mk_retry_packet version dcid scid
                 (zslice header_len (u64 (u64 (length - header_len) - WT_QUIC_RETRY_INTEGRITY_TAG_LEN)) data)
                 (zslice (u64 (length - WT_QUIC_RETRY_INTEGRITY_TAG_LEN)) WT_QUIC_RETRY_INTEGRITY_TAG_LEN data)
                 (ztake header_len data) length)
  end.

(** ** Peeks *)

(** Every refusal of the reader is "not all here" to a peek. *)
Definition peek_connection_id : parser (list Z) := failing_as WT_ERR_TRUNCATED None wt_quic_read_connection_id.

(** The reader called without an out-parameter for the code. *)
Definition silently {A} (p : parser A) : parser A := fun c =>
  match p c with (Fail s _, c') => (Fail s None, c') | ok => ok end.

Definition wt_quic_initial_token (data : list Z) : outcome (list Z) :=
  let length := zlen data in
  if length =? 0 then Fail WT_ERR_TRUNCATED None
  else
    let first := byte_at data 0 in
    if negb (has_bit first WT_QUIC_LONG_HEADER_BIT) || negb (has_bit first WT_QUIC_FIXED_BIT)
    then Fail WT_ERR_PROTOCOL None
    else if negb (bool_decide (packet_type_of_bits (Z.shiftr (Z.land first 0x30) 4) = WT_QUIC_PACKET_INITIAL))
    then Fail WT_ERR_PROTOCOL None
    else
      ((_ <- (fun c => let '(b, c') := wt_cursor_u8 c in (Ok b, c'));;
        version <- take_or_truncated 4 None;;
        if wt_load_be32 version =? WT_QUIC_VERSION_NEGOTIATION then pfail WT_ERR_PROTOCOL None
        else
          _ <- peek_connection_id;; _ <- peek_connection_id;;
          token_length <- failing_as WT_ERR_TRUNCATED None wt_quic_varint_decode;;
          if token_length =? 0 then pret []
          else fun c =>
            if (length <? cur_offset c) || (u64 (length - cur_offset c) <? token_length)
            then (Fail WT_ERR_TRUNCATED None, c)
            else take_or_truncated token_length None c) (wt_cursor_init (Some data) length)).1.

Definition wt_quic_long_header_connection_ids (data : list Z) : outcome (list Z * list Z) :=
  let length := zlen data in
  if length =? 0 then Fail WT_ERR_TRUNCATED None
  else
    let first := byte_at data 0 in
    if negb (has_bit first WT_QUIC_LONG_HEADER_BIT) then Fail WT_ERR_PROTOCOL None
    else if negb (has_bit first WT_QUIC_FIXED_BIT) then Fail WT_ERR_PROTOCOL None
    else
      ((_ <- (fun c => let '(b, c') := wt_cursor_u8 c in (Ok b, c'));;
        _ <- take_or_truncated 4 None;;
        dcid <- peek_connection_id;; scid <- peek_connection_id;;
        pret (dcid, scid)) (wt_cursor_init (Some data) length)).1.

(** The offset of the packet number, the end of the packet, and whether the
    header is short. *)
Definition wt_quic_protected_pn_offset (data : list Z) (local_connection_id_len : Z) : outcome (Z * Z * bool) :=
  let length := zlen data in
  if length =? 0 then Fail WT_ERR_TRUNCATED None
  else
    let first := byte_at data 0 in
    if negb (has_bit first WT_QUIC_LONG_HEADER_BIT) then
      if WT_QUIC_MAX_CID_LEN <? local_connection_id_len then Fail WT_ERR_INVALID_ARGUMENT None
      else if length <? 1 + local_connection_id_len + 1 then Fail WT_ERR_TRUNCATED None
      else Ok (1 + local_connection_id_len, length, true)
    else
      match (_ <- (fun c => let '(b, c') := wt_cursor_u8 c in (Ok b, c'));;
             version <- take_or_truncated 4 None;;
             if wt_load_be32 version =? WT_QUIC_VERSION_NEGOTIATION then pfail WT_ERR_INVALID_ARGUMENT None
             else
               let type := packet_type_of_bits (Z.land (Z.shiftr first 4) 0x03) in
               if bool_decide (type = WT_QUIC_PACKET_RETRY) then pfail WT_ERR_INVALID_ARGUMENT None
               else
                 _ <- (silently wt_quic_read_connection_id);; _ <- (silently wt_quic_read_connection_id);;
                 _ <- (if bool_decide (type = WT_QUIC_PACKET_INITIAL)
                       then token_len <- failing_as WT_ERR_TRUNCATED None wt_quic_varint_decode;;
                            (fun c => match wt_checked_narrow_u64_to_size token_len with
                             | Fail s _ => (Fail WT_ERR_OVERFLOW None, c)
                             | Ok narrowed =>
                                 if wt_cursor_remaining c <? narrowed then (Fail WT_ERR_TRUNCATED None, c)
                                 else take_or_truncated narrowed None c end)
                       else pret []);;
                 failing_as WT_ERR_TRUNCATED None wt_quic_varint_decode) (wt_cursor_init (Some data) length) with
      | (Fail s e, _) => Fail s e
      | (Ok length_field, c) =>
          match wt_checked_narrow_u64_to_size length_field with
          | Fail _ _ => Fail WT_ERR_OVERFLOW None
          | Ok narrowed =>
              if u64 (length - cur_offset c) <? narrowed then Fail WT_ERR_TRUNCATED None
              else Ok (cur_offset c, u64 (cur_offset c + narrowed), false)
          end
      end.

(** ** Encoding *)

Definition wt_quic_write_connection_id (id : list Z) (w : wt_writer) : wt_writer :=
  w |> wt_writer_u8 (u8 (zlen id)) |> wt_writer_bytes id.

(** [payload] is [None] in the prefix form, whose payload is only counted. *)
Definition long_header_encode (type : wt_quic_packet_type) (version : Z) (dcid scid token : list Z)
    (packet_number packet_number_len : Z) (payload : option (list Z)) (payload_len : Z) (w : wt_writer)
    : wt_status * wt_writer :=
  if bool_decide (type = WT_QUIC_PACKET_RETRY) then (WT_ERR_INVALID_ARGUMENT, w)
  else if (WT_QUIC_MAX_CID_LEN <? zlen dcid) || (WT_QUIC_MAX_CID_LEN <? zlen scid)
  then (WT_ERR_INVALID_ARGUMENT, w)
  else if (packet_number_len =? 0) || (4 <? packet_number_len) then (WT_ERR_INVALID_ARGUMENT, w)
  else if negb (bool_decide (type = WT_QUIC_PACKET_INITIAL)) && negb (zlen token =? 0)
  then (WT_ERR_INVALID_ARGUMENT, w)
  else
    let first := u8 (Z.lor (Z.lor (Z.lor WT_QUIC_LONG_HEADER_BIT WT_QUIC_FIXED_BIT)
                                  (u32 (Z.shiftl (packet_type_bits type) 4)))
                           (u32 (packet_number_len - 1))) in
    let '(encoded, packet_number_bytes) := wt_quic_packet_number_encode packet_number packet_number_len in
    if negb (packet_number_len =? encoded) then (WT_ERR_INVALID_ARGUMENT, w)
    else match wt_checked_add_size packet_number_len payload_len with
    | Fail _ _ => (WT_ERR_OVERFLOW, w)
    | Ok length_field =>
        if wt_quic_varint_size length_field =? 0 then (WT_ERR_OVERFLOW, w)
        else
          let w1 := w |> wt_writer_u8 first |> wt_writer_u32 version
                      |> wt_quic_write_connection_id dcid |> wt_quic_write_connection_id scid in
          let w2 := if bool_decide (type = WT_QUIC_PACKET_INITIAL)
                    then w1 |> writer_varint (zlen token) |> wt_writer_bytes token else w1 in
          let w3 := w2 |> writer_varint length_field |> wt_writer_bytes packet_number_bytes in
          writer_status (match payload with Some p => wt_writer_bytes p w3 | None => w3 end)
    end.

Definition wt_quic_long_header_encode type version dcid scid token packet_number packet_number_len payload :=
  long_header_encode type version dcid scid token packet_number packet_number_len (Some payload) (zlen payload).

Definition wt_quic_long_header_encode_prefix type version dcid scid token packet_number packet_number_len payload_len :=
  long_header_encode type version dcid scid token packet_number packet_number_len None payload_len.

Definition wt_quic_short_header_encode (dcid : list Z) (packet_number packet_number_len : Z)
    (key_phase spin : bool) (payload : list Z) (w : wt_writer) : wt_status * wt_writer :=
  if WT_QUIC_MAX_CID_LEN <? zlen dcid then (WT_ERR_INVALID_ARGUMENT, w)
  else if (packet_number_len =? 0) || (4 <? packet_number_len) then (WT_ERR_INVALID_ARGUMENT, w)
  else
    let '(encoded, packet_number_bytes) := wt_quic_packet_number_encode packet_number packet_number_len in
    if negb (encoded =? packet_number_len) then (WT_ERR_INVALID_ARGUMENT, w)
    else
      let first := u8 (Z.lor WT_QUIC_FIXED_BIT (u8 (packet_number_len - 1))) in
      let first := if spin then u8 (Z.lor first WT_QUIC_SPIN_BIT) else first in
      let first := if key_phase then u8 (Z.lor first WT_QUIC_KEY_PHASE_BIT) else first in
      writer_status (w |> wt_writer_u8 first |> wt_writer_bytes dcid |> wt_writer_bytes packet_number_bytes
                       |> wt_writer_bytes payload).

Definition wt_quic_retry_packet_encode (version : Z) (dcid scid token integrity_tag : list Z) (w : wt_writer)
    : wt_status * wt_writer :=
  if (WT_QUIC_MAX_CID_LEN <? zlen dcid) || (WT_QUIC_MAX_CID_LEN <? zlen scid)
  then (WT_ERR_INVALID_ARGUMENT, w)
  else if zlen scid =? 0 then (WT_ERR_INVALID_ARGUMENT, w)
  else
    let first := u8 (Z.lor (Z.lor WT_QUIC_LONG_HEADER_BIT WT_QUIC_FIXED_BIT)
                           (Z.shiftl (packet_type_bits WT_QUIC_PACKET_RETRY) 4)) in
    writer_status (w |> wt_writer_u8 first |> wt_writer_u32 version
                     |> wt_quic_write_connection_id dcid |> wt_quic_write_connection_id scid
                     |> wt_writer_bytes token |> wt_writer_bytes integrity_tag).

(** ** The wire format *)

Definition cid_wire (id : list Z) : list Z := zlen id :: id.
Definition cid_ok (id : list Z) : Prop := bytes_ok id /\ zlen id <= WT_QUIC_MAX_CID_LEN.

Definition long_first (type : wt_quic_packet_type) (pnl : Z) : Z := 0xc0 + 16 * packet_type_bits type + (pnl - 1).

(** The header behind its first byte and in front of the packet number. *)
Definition long_middle (type : wt_quic_packet_type) (version : Z) (dcid scid token : list Z) (length_field : Z)
    : list Z :=
  wt_store_be32 version ++ cid_wire dcid ++ cid_wire scid ++
  (if bool_decide (type = WT_QUIC_PACKET_INITIAL) then varint_bytes (zlen token) ++ token else []) ++
  varint_bytes length_field.

Definition pn_wire (pn pnl : Z) : list Z := (wt_quic_packet_number_encode pn pnl).2.

Definition long_header_wire type version dcid scid token pn pnl payload_len : list Z :=
  long_first type pnl :: long_middle type version dcid scid token (pnl + payload_len) ++ pn_wire pn pnl.

Record long_ok (type : wt_quic_packet_type) (version : Z) (dcid scid token : list Z) (pn pnl payload_len : Z)
    : Prop := mk_long_ok {
  lo_type : type <> WT_QUIC_PACKET_RETRY;
  lo_version : is_u32 version;
  lo_dcid : cid_ok dcid;
  lo_scid : cid_ok scid;
  lo_token : bytes_ok token /\ varint_ok (zlen token);
  lo_token_initial : type <> WT_QUIC_PACKET_INITIAL -> token = [];
  lo_pn : 0 <= pn;
  lo_pnl : 1 <= pnl <= 4;
  lo_payload : 0 <= payload_len;
  lo_length : varint_ok (pnl + payload_len) }.

Lemma long_first_facts type pnl :
  type <> WT_QUIC_PACKET_RETRY -> 1 <= pnl <= 4 ->
  let first := long_first type pnl in
  is_u8 first /\ has_bit first WT_QUIC_LONG_HEADER_BIT = true /\ has_bit first WT_QUIC_FIXED_BIT = true /\
  packet_type_of_bits (Z.land (Z.shiftr first 4) 0x03) = type /\ Z.land first 0x03 + 1 = pnl /\
  has_bit first 0x0c = false /\
  u8 (Z.lor (Z.lor (Z.lor WT_QUIC_LONG_HEADER_BIT WT_QUIC_FIXED_BIT)
                   (u32 (Z.shiftl (packet_type_bits type) 4))) (u32 (pnl - 1))) = first.
Proof.
  intros Ht Hp. assert (pnl = 1 \/ pnl = 2 \/ pnl = 3 \/ pnl = 4) as [->|[->|[->| ->]]] by lia;
    destruct type; try done; vm_compute; repeat split; congruence.
Qed.

(** ** Decoding what was written *)

Lemma decodes_connection_id id : cid_ok id -> decodes wt_quic_read_connection_id (cid_wire id) id.
Proof.
  intros [_ Hz]. unfold wt_quic_read_connection_id, cid_wire. change (zlen id :: id) with ([zlen id] ++ id).
  eapply (decodes_bind _ _ [zlen id]); [by apply decodes_take|]. cbn zeta. change (byte_at [zlen id] 0) with (zlen id).
  rewrite (proj2 (Z.ltb_ge _ _)) by done. by apply decodes_bytes_or_truncated.
Qed.

Lemma decodes_counted bs n code : n = zlen bs -> n < 2 ^ 64 -> decodes (take_counted n code) bs bs.
Proof.
  intros -> Hz c tl Hl Hv. unfold take_counted, wt_checked_narrow_u64_to_size.
  rewrite (proj2 (Z.ltb_ge _ _)) by (unfold SIZE_MAX, U64_MAX; lia). pose proof (zlen_nonneg bs). no_wrap.
  rewrite cursor_remaining_view by apply Hl. rewrite Hv, zlen_app. pose proof (zlen_nonneg tl).
  rewrite (proj2 (Z.ltb_ge _ _)) by lia. unfold wt_cursor_bytes. by rewrite (cursor_take_live c (zlen bs) bs tl).
Qed.

Lemma with_header_live c bs tl :
  cursor_live c -> cursor_view c = bs ++ tl ->
  zslice (cur_offset c) (u64 (cur_offset (cursor_advance c (zlen bs)) - cur_offset c)) (default [] (cur_data c)) = bs.
Proof.
  intros Hl Hv. pose proof (cursor_view_len c (proj1 Hl)) as Hz. rewrite Hv, zlen_app in Hz.
  pose proof (zlen_nonneg bs). pose proof (zlen_nonneg tl). destruct Hl as ((Ho & Hb & _) & _ & Hd).
  cbn [cur_offset cursor_advance]. rewrite Z.add_simpl_l. no_wrap. unfold zslice, cursor_view in *.
  destruct (cur_data c) as [d|]; [|done]. cbn. rewrite Hv. by apply ztake_app_exact.
Qed.

Lemma decodes_with_header {A} (p : parser A) bs a : decodes p bs a -> decodes (with_header p) bs (a, bs).
Proof.
  intros Hp c tl Hl Hv. unfold with_header. rewrite (Hp c tl Hl Hv). by rewrite (with_header_live c bs tl).
Qed.

Lemma decodes_be32 v : is_u32 v -> decodes (take_or_truncated 4 None) (wt_store_be32 v) (wt_store_be32 v).
Proof. intros. apply decodes_take. rewrite store_be32_spec. by rewrite zlen_be_bytes. Qed.

Lemma load_store_be32 v : is_u32 v -> wt_load_be32 (wt_store_be32 v) = v.
Proof.
  intros Hv. rewrite store_be32_spec. cbn [be_bytes].
  pose proof (be_bytes_ok 4 v) as Hok. pose proof (be_value_bytes 4 v) as Hval. cbn [be_bytes app] in Hok, Hval |- *.
  rewrite load_be32_spec by done. apply Hval. by unfold is_u32 in Hv.
Qed.

Lemma pn_wire_spec pn pnl :
  0 <= pn -> 1 <= pnl <= 4 ->
  zlen (pn_wire pn pnl) = pnl /\ bytes_ok (pn_wire pn pnl) /\
  packet_number_value (pn_wire pn pnl) = pn mod 2 ^ (8 * pnl).
Proof.
  intros Hp Hn. destruct (encode_value pn pnl Hp Hn) as (_ & Hz & Hok & Hv). split_and!; [done|done|].
  unfold packet_number_value, pn_wire. pose proof (be_value_bound _ Hok) as Hb. rewrite Hz in Hb.
  assert (256 ^ pnl <= 256 ^ 4) by (apply Z.pow_le_mono_r; lia).
  rewrite varint_accumulate_spec; rewrite ?Hv; try done; lia.
Qed.

Lemma decodes_long_fields type version dcid scid token pn pnl payload_len :
  long_ok type version dcid scid token pn pnl payload_len ->
  decodes long_header_fields (long_header_wire type version dcid scid token pn pnl payload_len)
    (long_first type pnl, version, dcid, scid, token, pnl + payload_len, pn_wire pn pnl).
Proof.
  intros [Ht Hv Hd Hs [Htok Htz] Hini Hpn Hpnl Hpl Hlen].
  destruct (long_first_facts type pnl Ht Hpnl) as (_ & Hlb & Hfb & Hty & Hpnb & _).
  unfold long_header_fields, long_header_wire, long_middle.
  match goal with |- decodes _ (?x :: ?l) _ => change (x :: l) with ([x] ++ l) end.
  eapply (decodes_bind _ _ [_]); [apply decodes_read_first|]. rewrite Hlb, Hfb. cbn [negb]. cbv zeta.
  rewrite Hty, Hpnb, (bool_decide_false _ Ht). rewrite <- !app_assoc.
  eapply decodes_bind; [by apply decodes_be32|]. eapply decodes_bind; [by apply decodes_connection_id|].
  eapply decodes_bind; [by apply decodes_connection_id|].
  eapply decodes_bind.
  { instantiate (1 := token). destruct (decide (type = WT_QUIC_PACKET_INITIAL)) as [Hi|Hi].
    - rewrite !(bool_decide_true _ Hi). eapply decodes_bind; [apply decodes_failing_as; by apply decodes_varint|].
      apply decodes_counted; [done|]. unfold varint_ok, WT_QUIC_VARINT_MAX in Htz. lia.
    - rewrite !(bool_decide_false _ Hi). rewrite (Hini Hi). apply decodes_ret. }
  eapply decodes_bind; [apply decodes_failing_as; by apply decodes_varint|].
  eapply decodes_bind_nil; [apply decodes_take; symmetry; by apply pn_wire_spec|]. cbn beta.
  rewrite load_store_be32 by done. apply decodes_ret.
Qed.

(** What the decoder reports for an encoded packet. *)
Definition long_header_of type version dcid scid token pn pnl payload : wt_quic_long_header :=
  let header := long_header_wire type version dcid scid token pn pnl (zlen payload) in
  mk_long_header type version dcid scid token (pn mod 2 ^ (8 * pnl)) pnl payload header
    (zlen header + zlen payload) false.

Lemma zlen_long_header type version dcid scid token pn pnl payload_len :
  long_ok type version dcid scid token pn pnl payload_len ->
  1 + pnl <= zlen (long_header_wire type version dcid scid token pn pnl payload_len) <= 80 + zlen token.
Proof.
  intros [Ht Hv [_ Hd] [_ Hs] [Htok Htz] Hini Hpn Hpnl Hpl Hlen]. unfold long_header_wire, long_middle, cid_wire.
  rewrite store_be32_spec. rewrite zlen_cons, !zlen_app, !zlen_cons, zlen_be_bytes.
  rewrite (proj1 (pn_wire_spec pn pnl Hpn Hpnl)). unfold WT_QUIC_MAX_CID_LEN in *.
  pose proof (varint_size_bytes _ Hlen). pose proof (varint_size_le (pnl + payload_len)).
  pose proof (varint_size_bytes _ Htz). pose proof (varint_size_le (zlen token)).
  destruct (bool_decide _); rewrite ?zlen_app, ?zlen_nil; zlen_facts; lia.
Qed.

Lemma decodes_long_header type version dcid scid token pn pnl payload :
  long_ok type version dcid scid token pn pnl (zlen payload) ->
  decodes wt_quic_long_header_decode
    (long_header_wire type version dcid scid token pn pnl (zlen payload) ++ payload)
    (long_header_of type version dcid scid token pn pnl payload).
Proof.
  intros Hok. pose proof Hok as [Ht Hv _ _ [_ Htz] _ Hpn Hpnl Hpl Hlen].
  destruct (long_first_facts type pnl Ht Hpnl) as (_ & _ & _ & Hty & Hpnb & Hres & _).
  unfold wt_quic_long_header_decode.
  eapply decodes_bind; [apply decodes_with_header; by apply decodes_long_fields|]. cbv beta iota zeta.
  rewrite Hpnb, Hty, Hres. unfold varint_ok, WT_QUIC_VARINT_MAX in *.
  rewrite (proj2 (Z.ltb_ge _ _)) by lia. rewrite Z.add_simpl_l. no_wrap.
  eapply decodes_bind_nil; [apply decodes_counted; [done|lia]|]. cbv beta.
  pose proof (zlen_long_header _ _ _ _ _ _ _ _ Hok) as Hz. unfold long_header_of. cbv zeta.
  rewrite (proj2 (proj2 (pn_wire_spec pn pnl Hpn Hpnl))). no_wrap. apply decodes_ret.
Qed.

(** ** Encoding *)

Lemma appends_connection_id id : cid_ok id -> appends (wt_quic_write_connection_id id) (cid_wire id).
Proof.
  intros [_ Hz]. unfold wt_quic_write_connection_id, cid_wire. change (zlen id :: id) with ([zlen id] ++ id).
  pose proof (zlen_nonneg id). unfold WT_QUIC_MAX_CID_LEN in Hz. rewrite u8_small by (unfold is_u8; lia).
  apply appends_seq; [apply appends_u8|apply appends_bytes].
Qed.

Lemma varint_size_nonzero v : varint_ok v -> (wt_quic_varint_size v =? 0) = false.
Proof. intros Hv. rewrite varint_size_bytes by done. pose proof (varint_bytes_pos v Hv). lia. Qed.

Lemma encodes_long type version dcid scid token pn pnl payload payload_len :
  long_ok type version dcid scid token pn pnl payload_len ->
  encodes (long_header_encode type version dcid scid token pn pnl payload payload_len)
    (long_header_wire type version dcid scid token pn pnl payload_len ++ default [] payload).
Proof.
  intros [Ht Hv Hd Hs [Htok Htz] Hini Hpn Hpnl Hpl Hlen].
  destruct (long_first_facts type pnl Ht Hpnl) as (_ & _ & _ & _ & _ & _ & Hf).
  set (bs := long_header_wire _ _ _ _ _ _ _ _ ++ _).
  set (e := fun w => match payload with Some p => wt_writer_bytes p | None => fun w => w end
    (wt_writer_bytes (pn_wire pn pnl) (writer_varint (pnl + payload_len)
      ((if bool_decide (type = WT_QUIC_PACKET_INITIAL)
        then fun w => wt_writer_bytes token (writer_varint (zlen token) w) else fun w => w)
       (wt_quic_write_connection_id scid (wt_quic_write_connection_id dcid
         (wt_writer_u32 version (wt_writer_u8 (long_first type pnl) w)))))))).
  apply (encodes_ext _ (fun w => writer_status (e w))).
  { intros w. unfold long_header_encode. rewrite (bool_decide_false _ Ht).
    rewrite (proj2 (Z.ltb_ge _ (zlen dcid))), (proj2 (Z.ltb_ge _ (zlen scid))) by (apply Hd || apply Hs).
    cbn [orb]. rewrite (proj2 (Z.eqb_neq pnl 0)), (proj2 (Z.ltb_ge 4 pnl)) by lia. cbn [orb].
    rewrite Hf. pose proof (encode_value pn pnl Hpn Hpnl) as (He & _). unfold e, pn_wire.
    assert (Htoken : negb (bool_decide (type = WT_QUIC_PACKET_INITIAL)) && negb (zlen token =? 0) = false).
    { destruct (decide (type = WT_QUIC_PACKET_INITIAL)) as [Hi|Hi]; [by rewrite (bool_decide_true _ Hi)|].
      rewrite (Hini Hi). by rewrite andb_false_r. }
    rewrite Htoken. destruct (wt_quic_packet_number_encode pn pnl) as [n pnb]; cbn in He; subst n.
    rewrite Z.eqb_refl. cbn [negb]. unfold wt_checked_add_size. unfold varint_ok, WT_QUIC_VARINT_MAX in Hlen.
    rewrite (proj2 (Z.ltb_ge _ _)) by (unfold SIZE_MAX, U64_MAX; lia). no_wrap.
    rewrite varint_size_nonzero by (unfold varint_ok, WT_QUIC_VARINT_MAX; lia).
    by destruct (bool_decide (type = WT_QUIC_PACKET_INITIAL)), payload. }
  apply encodes_status. unfold e, bs, long_header_wire, long_middle.
  match goal with |- appends _ ((?x :: ?l) ++ _) => change (x :: l) with ([x] ++ l) end. rewrite <- !app_assoc.
  eapply appends_eq.
  - apply (appends_seq _ (match payload with Some p => wt_writer_bytes p | None => fun w => w end)).
    + apply (appends_seq _ (wt_writer_bytes (pn_wire pn pnl))); [|apply appends_bytes].
      apply (appends_seq _ (writer_varint (pnl + payload_len))); [|by apply appends_varint].
      apply (appends_seq _ (if bool_decide (type = WT_QUIC_PACKET_INITIAL)
        then fun w => wt_writer_bytes token (writer_varint (zlen token) w) else fun w => w)).
      * apply (appends_seq _ (wt_quic_write_connection_id scid)); [|by apply appends_connection_id].
        apply (appends_seq _ (wt_quic_write_connection_id dcid)); [|by apply appends_connection_id].
        apply (appends_seq _ (wt_writer_u32 version)); [apply appends_u8|apply appends_put].
      * instantiate (1 := if bool_decide (type = WT_QUIC_PACKET_INITIAL) then varint_bytes (zlen token) ++ token else []).
        destruct (bool_decide _); [|apply appends_id]. apply appends_seq; [by apply appends_varint|apply appends_bytes].
    + instantiate (1 := default [] payload). destruct payload; [apply appends_bytes|apply appends_id].
  - by rewrite <- !app_assoc.
Qed.

(** ** The walk to the packet number of a protected header *)

Lemma decodes_silently {A} (p : parser A) bs a : decodes p bs a -> decodes (silently p) bs a.
Proof. intros Hp c tl Hl Hv. unfold silently. by rewrite (Hp c tl). Qed.

Lemma decodes_u8 b : decodes (fun c => let '(b, c') := wt_cursor_u8 c in (Ok b, c')) [b] b.
Proof. intros c tl Hl Hv. by rewrite (cursor_u8_live c b tl Hl Hv). Qed.

Lemma decodes_silent_counted bs n :
  n = zlen bs -> n < 2 ^ 64 ->
  decodes (fun c => match wt_checked_narrow_u64_to_size n with
           | Fail s _ => (Fail WT_ERR_OVERFLOW None, c)
           | Ok narrowed => if wt_cursor_remaining c <? narrowed then (Fail WT_ERR_TRUNCATED None, c)
                            else take_or_truncated narrowed None c end) bs bs.
Proof.
  intros -> Hz c tl Hl Hv. unfold wt_checked_narrow_u64_to_size. pose proof (zlen_nonneg bs). pose proof (zlen_nonneg tl).
  rewrite (proj2 (Z.ltb_ge _ _)) by (unfold SIZE_MAX, U64_MAX; lia). no_wrap.
  rewrite cursor_remaining_view by apply Hl. rewrite Hv, zlen_app. rewrite (proj2 (Z.ltb_ge _ _)) by lia.
  by apply (decodes_take bs (zlen bs) None eq_refl c tl).
Qed.

Lemma long_bit b : is_u8 b -> has_bit b WT_QUIC_LONG_HEADER_BIT = bool_decide (128 <= b).
Proof. intros Hb. by_bytes b. Qed.

(** The first byte of a protected header: its low half is the mask's. *)
Lemma masked_first type pnl b :
  type <> WT_QUIC_PACKET_RETRY -> is_u8 b -> 1 <= pnl <= 4 -> b / 16 = long_first type pnl / 16 ->
  has_bit b WT_QUIC_LONG_HEADER_BIT = true /\ packet_type_of_bits (Z.land (Z.shiftr b 4) 0x03) = type.
Proof.
  intros Ht Hb Hp Hq. 
  rewrite Z.shiftr_div_pow2 by lia. change (2 ^ 4) with 16. rewrite long_bit, Hq by done.
  assert (E2 : long_first type pnl / 16 = 12 + packet_type_bits type).
  { unfold long_first. symmetry. apply (Z.div_unique_pos _ 16 _ (pnl - 1)); lia. }
  rewrite E2 in *. split; [|by destruct type].
  apply bool_decide_true. assert (0 <= packet_type_bits type) by (destruct type; cbn; lia). zdm.
Qed.

Lemma protected_walk type version dcid scid token pn pnl payload_len b pnb tl local :
  long_ok type version dcid scid token pn pnl payload_len -> version <> WT_QUIC_VERSION_NEGOTIATION ->
  is_u8 b -> b / 16 = long_first type pnl / 16 -> pnl + payload_len <= zlen (pnb ++ tl) ->
  let front := b :: long_middle type version dcid scid token (pnl + payload_len) in
  block_ok (front ++ pnb ++ tl) ->
  wt_quic_protected_pn_offset (front ++ pnb ++ tl) local =
    Ok (zlen front, zlen front + (pnl + payload_len), false).
Proof.
  intros Hok Hv0 Hb Hq Hz front Hblock.
  pose proof Hok as [Ht Hv Hd Hs [Htok Htz] Hini Hpn Hpnl Hpl Hlen].
  destruct (masked_first type pnl b Ht Hb Hpnl Hq) as [Hlb Hty].
  pose proof (block_ok_live _ Hblock) as Hl. destruct Hblock as [_ Hsz]. unfold wt_quic_protected_pn_offset.
  assert (Hpos : 0 < zlen (front ++ pnb ++ tl)) by (unfold front; cbn [app]; rewrite zlen_cons; zlen_facts; lia).
  rewrite (proj2 (Z.eqb_neq _ 0)) by lia. change (byte_at (front ++ pnb ++ tl) 0) with b. rewrite Hlb. cbn [negb].
  rewrite Hty. match goal with |- match ?p ?c with _ => _ end = _ => assert (Hd' : decodes p front (pnl + payload_len)) end.
  { unfold front, long_middle. match goal with |- decodes _ (?x :: ?l) _ => change (x :: l) with ([x] ++ l) end.
    eapply (decodes_bind _ _ [b]); [apply decodes_u8|].
    eapply decodes_bind; [by apply decodes_be32|]. rewrite load_store_be32 by done.
    rewrite (proj2 (Z.eqb_neq _ _) Hv0). cbv zeta. rewrite (bool_decide_false _ Ht).
    eapply decodes_bind; [apply decodes_silently; by apply decodes_connection_id|].
    eapply decodes_bind; [apply decodes_silently; by apply decodes_connection_id|].
    eapply decodes_bind; [|apply decodes_failing_as; by apply decodes_varint].
    instantiate (1 := token). destruct (decide (type = WT_QUIC_PACKET_INITIAL)) as [Hi|Hi].
    - rewrite !(bool_decide_true _ Hi). eapply decodes_bind; [apply decodes_failing_as; by apply decodes_varint|].
      apply decodes_silent_counted; [done|]. unfold varint_ok, WT_QUIC_VARINT_MAX in Htz. lia.
    - rewrite !(bool_decide_false _ Hi). rewrite (Hini Hi). apply decodes_ret. }
  rewrite (Hd' _ (pnb ++ tl) Hl eq_refl). cbn [cur_offset cursor_advance wt_cursor_init Z.add].
  unfold wt_checked_narrow_u64_to_size. unfold varint_ok, WT_QUIC_VARINT_MAX in Hlen.
  rewrite (proj2 (Z.ltb_ge _ _)) by (unfold SIZE_MAX, U64_MAX; lia). pose proof (zlen_nonneg front).
  rewrite Z.add_0_l. rewrite (zlen_app front), (zlen_app pnb) in *. no_wrap.
  by rewrite (proj2 (Z.ltb_ge _ _)) by lia.
Qed.

(** ** Decoding arbitrary bytes *)

Lemma byte_at_u8 bs : bytes_ok bs -> is_u8 (byte_at bs 0).
Proof. unfold byte_at. destruct bs as [|b bs]; cbn; [unfold is_u8; lia|]. by intros [? _]%Forall_cons. Qed.

Lemma read_connection_id_safe : parser_safe cid_ok wt_quic_read_connection_id.
Proof.
  eapply parser_safe_bind; [by apply take_or_truncated_safe|]. intros bs [_ Hok]. cbv zeta.
  pose proof (byte_at_u8 bs Hok) as Hb. unfold is_u8 in Hb.
  destruct (Z.ltb_spec WT_QUIC_MAX_CID_LEN (byte_at bs 0)); [apply parser_safe_fail|].
  eapply parser_safe_weaken; [apply bytes_or_truncated_safe; lia|]. intros id [Hz Hid]. by split; [|lia].
Qed.

Lemma take_counted_safe n code : 0 <= n -> parser_safe (fun bs => bytes_ok bs) (take_counted n code).
Proof.
  intros Hn c Hi. unfold take_counted, wt_checked_narrow_u64_to_size.
  destruct (Z.ltb_spec SIZE_MAX n); [cbn; split_and!; auto; lia|]. unfold SIZE_MAX, U64_MAX in *. no_wrap.
  destruct (wt_cursor_remaining c <? n); [cbn; split_and!; auto; lia|].
  pose proof (cursor_take_safe n c Hi Hn) as Hs. unfold wt_cursor_bytes.
  destruct (wt_cursor_take n c) as [[bs|] c']; destruct Hs as (? & ? & ? & Hs).
  - destruct Hs as (? & ? & ? & ? & ?). cbn. split_and!; auto; lia.
  - cbn. split_and!; auto. constructor.
Qed.

(** What [p] moved over. *)
Lemma parser_safe_consumed {A} (Q : A -> Prop) (p : parser A) c :
  parser_safe Q p -> cursor_inv c ->
  cursor_view c = zslice (cur_offset c) (u64 (cur_offset (p c).2 - cur_offset c)) (default [] (cur_data c)) ++ cursor_view (p c).2.
Proof.
  intros Hp Hi. destruct (Hp c Hi) as (Hi' & Hd & Hl & Ho & _). unfold cursor_view. rewrite Hd.
  destruct (cur_data c) as [d|] eqn:E; [|unfold zslice, zdrop, ztake; cbn; by rewrite drop_nil, take_nil].
  cbn. destruct Hi as (? & ? & _), Hi' as (? & ? & _).
  no_wrap. unfold zslice. rewrite <- (ztake_zdrop (cur_offset (p c).2 - cur_offset c) (zdrop (cur_offset c) d)) at 1.
  f_equal. rewrite zdrop_zdrop by lia. f_equal. lia.
Qed.

Lemma with_header_safe {A} (Q : A -> Prop) (p : parser A) :
  parser_safe Q p -> parser_safe (fun r => Q r.1) (with_header p).
Proof. intros Hp c Hi. specialize (Hp c Hi). unfold with_header. by destruct (p c) as [[a|s e] c']. Qed.

Lemma with_header_consumed {A} (Q : A -> Prop) (p : parser A) c a h c' :
  parser_safe Q p -> cursor_inv c -> with_header p c = (Ok (a, h), c') -> cursor_view c = h ++ cursor_view c'.
Proof.
  intros Hp Hi. pose proof (parser_safe_consumed Q p c Hp Hi) as Hv. unfold with_header.
  destruct (p c) as [[a0|s e] c1]; [|done]. intros [= -> <- <-]. done.
Qed.

Lemma take_counted_consumed n code c bs c' :
  cursor_inv c -> 0 <= n -> take_counted n code c = (Ok bs, c') -> cursor_view c = bs ++ cursor_view c'.
Proof.
  intros Hi Hn. unfold take_counted, wt_checked_narrow_u64_to_size.
  destruct (Z.ltb_spec SIZE_MAX n); [done|]. unfold SIZE_MAX, U64_MAX in *. no_wrap.
  destruct (wt_cursor_remaining c <? n) eqn:Hr; [done|]. reflect_bools.
  pose proof (cursor_take_safe n c Hi Hn) as Hs. unfold wt_cursor_bytes, wt_cursor_take, wt_cursor_remaining in *.
  destruct (cur_failed c); [by intros [= <- <-]|]. rewrite (proj2 (Z.ltb_ge _ _) Hr) in *. unfold cursor_ptr in *.
  destruct (cur_data c) as [d|] eqn:E; intros [= <- <-]; [apply Hs|].
  unfold cursor_view. cbn [cur_data]. by rewrite E.
Qed.

Definition long_fields_ok (r : Z * Z * list Z * list Z * list Z * Z * list Z) : Prop :=
  let '(first, version, dcid, scid, token, length_field, packet_number) := r in
  is_u8 first /\ packet_type_of_bits (Z.land (Z.shiftr first 4) 0x03) <> WT_QUIC_PACKET_RETRY /\
  cid_ok dcid /\ cid_ok scid /\ varint_ok length_field /\ bytes_ok packet_number /\
  zlen packet_number = Z.land first 0x03 + 1.

Lemma first_pnl b : is_u8 b -> 1 <= Z.land b 0x03 + 1 <= 4.
Proof. intros Hb. change 0x03 with (2 ^ 2 - 1). rewrite land_mask by lia. change (2 ^ 2) with 4. zdm. Qed.

Lemma varint_truncated_safe : parser_safe varint_ok (failing_as WT_ERR_TRUNCATED None wt_quic_varint_decode).
Proof. apply failing_as_safe. auto with wt. Qed.

Lemma initial_token_safe type :
  parser_safe bytes_ok (if bool_decide (type = WT_QUIC_PACKET_INITIAL)
    then token_len <- failing_as WT_ERR_TRUNCATED None wt_quic_varint_decode;;
         take_counted token_len WT_QUIC_FRAME_ENCODING_ERROR
    else pret []).
Proof.
  destruct (bool_decide _); [|apply parser_safe_ret; constructor].
  eapply parser_safe_bind; [apply varint_truncated_safe|]. intros n Hn. unfold varint_ok in Hn. apply take_counted_safe. lia.
Qed.

Lemma long_header_fields_safe : parser_safe long_fields_ok long_header_fields.
Proof.
  unfold long_header_fields. eapply parser_safe_bind; [apply read_first_safe|]. intros first Hf.
  destruct (negb _); [apply parser_safe_fail|]. destruct (negb _); [apply parser_safe_fail|]. cbv zeta.
  destruct (bool_decide _) eqn:Hr; [apply parser_safe_fail|]. apply bool_decide_eq_false_1 in Hr.
  pose proof (first_pnl first Hf).
  eapply parser_safe_bind; [by apply take_or_truncated_safe|]. intros version _.
  eapply parser_safe_bind; [apply read_connection_id_safe|]. intros dcid Hd.
  eapply parser_safe_bind; [apply read_connection_id_safe|]. intros scid Hs.
  eapply parser_safe_bind; [apply initial_token_safe|]. intros token _.
  eapply parser_safe_bind; [apply varint_truncated_safe|]. intros length_field Hl.
  eapply parser_safe_bind; [apply take_or_truncated_safe; lia|]. intros pn [Hz Hpn].
  apply parser_safe_ret. unfold long_fields_ok. by split_and!.
Qed.

(** The refusals of the long header decoder. *)
Definition header_error (s : wt_status) (e : option Z) : Prop :=
  s = WT_ERR_TRUNCATED /\ e = None \/ s = WT_ERR_OVERFLOW /\ e = Some WT_QUIC_FRAME_ENCODING_ERROR \/
  s = WT_ERR_PROTOCOL /\ (e = Some WT_QUIC_PROTOCOL_VIOLATION \/ e = Some WT_QUIC_FRAME_ENCODING_ERROR).

Lemma read_connection_id_fails : parser_fails header_error wt_quic_read_connection_id.
Proof.
  eapply parser_fails_bind; [by apply take_or_truncated_safe|apply take_or_truncated_fails; by left|].
  intros bs _. cbv zeta. destruct (_ <? _); [apply parser_fails_fail; unfold header_error; auto 6|].
  apply bytes_or_truncated_fails. by left.
Qed.

Lemma take_counted_fails n : parser_fails header_error (take_counted n WT_QUIC_FRAME_ENCODING_ERROR).
Proof.
  intros c _. unfold take_counted. destruct (wt_checked_narrow_u64_to_size n); cbn; [|unfold header_error; auto].
  destruct (_ <? _); cbn; [by left|]. by destruct (wt_cursor_bytes _ _).
Qed.

Lemma long_header_fields_fails : parser_fails header_error long_header_fields.
Proof.
  unfold long_header_fields. eapply parser_fails_bind; [apply read_first_safe| |].
  { intros c _. unfold read_first. destruct (wt_cursor_u8 c). destruct (wt_cursor_failed _); [by left|done]. }
  intros first Hf. pose proof (first_pnl first Hf).
  assert (Hviol : forall A, parser_fails header_error (@wt_quic_packet_fail A WT_QUIC_PROTOCOL_VIOLATION WT_ERR_PROTOCOL))
    by (intros A; apply parser_fails_fail; unfold header_error; auto 6).
  destruct (negb _); [apply Hviol|]. destruct (negb _); [apply Hviol|]. cbv zeta.
  destruct (bool_decide _); [apply Hviol|].
  eapply parser_fails_bind; [by apply take_or_truncated_safe|apply take_or_truncated_fails; by left|]. intros version _.
  eapply parser_fails_bind; [apply read_connection_id_safe|apply read_connection_id_fails|]. intros dcid Hd.
  eapply parser_fails_bind; [apply read_connection_id_safe|apply read_connection_id_fails|]. intros scid Hs.
  eapply parser_fails_bind; [apply initial_token_safe| |].
  { destruct (bool_decide _); [|apply parser_fails_ret].
    eapply parser_fails_bind; [apply varint_truncated_safe|apply failing_as_fails; by left|]. intros n _. apply take_counted_fails. }
  intros token _. eapply parser_fails_bind; [apply varint_truncated_safe|apply failing_as_fails; by left|]. intros lf _.
  eapply parser_fails_bind; [apply take_or_truncated_safe; lia|apply take_or_truncated_fails; by left|]. intros pn _.
  apply parser_fails_ret.
Qed.

(** C24. Decoding the long header of any datagram either fails with one of the listed
    statuses, or returns a packet whose header and payload views are, in order, a prefix of
    the datagram with the rest left unread, of the length reported, with connection IDs of
    at most 20 bytes and a packet number of one to four bytes within its width, never a
    Retry. *)
Theorem long_header_decode_arbitrary_bytes d :
  block_ok d ->
  match wt_quic_long_header_decode (wt_cursor_init (Some d) (zlen d)) with
  | (Ok h, c) =>
      d = lh_header h ++ lh_payload h ++ cursor_view c /\ lh_total_len h = zlen (lh_header h) + zlen (lh_payload h) /\
      lh_type h <> WT_QUIC_PACKET_RETRY /\ cid_ok (lh_destination_connection_id h) /\
      cid_ok (lh_source_connection_id h) /\ 1 <= lh_packet_number_len h <= 4 /\
      0 <= lh_packet_number h < 2 ^ (8 * lh_packet_number_len h)
  | (Fail s e, _) => header_error s e
  end.
Proof.
  intros Hb. pose proof (block_ok_live d Hb) as [Hi _]. set (c := wt_cursor_init (Some d) (zlen d)) in *.
  unfold wt_quic_long_header_decode, pbind.
  destruct (with_header_safe _ _ long_header_fields_safe c Hi) as (Hi1 & _ & _ & _ & HQ).
  pose proof (with_header_consumed long_fields_ok long_header_fields c) as Hcon.
  pose proof (long_header_fields_fails c Hi) as Hfail.
  destruct (with_header long_header_fields c) as [[[fields header]|s e] c1] eqn:E; cbn [fst snd] in *.
  2: { unfold with_header in E. destruct (long_header_fields c) as [[a|s' e'] c2]; [done|]. by injection E as <- <- <-. }
  specialize (Hcon _ _ _ long_header_fields_safe Hi eq_refl).
  destruct fields as [[[[[[first version] dcid] scid] token] length_field] pn].
  destruct HQ as (Hf & Hty & Hd & Hs & Hl & Hpn & Hz). pose proof (first_pnl first Hf) as Hpnl.
  destruct (Z.ltb_spec length_field (Z.land first 3 + 1)) as [|Hlen]; [cbn; unfold header_error; auto 6|].
  unfold varint_ok, WT_QUIC_VARINT_MAX in Hl. no_wrap.
  pose proof (take_counted_consumed (length_field - (Z.land first 3 + 1)) WT_QUIC_FRAME_ENCODING_ERROR c1) as Hcon1.
  pose proof (take_counted_fails (length_field - (Z.land first 3 + 1)) c1 Hi1) as Hfail1.
  destruct (take_counted _ _ c1) as [[payload|s e] c2]; cbn in *; [|done].
  specialize (Hcon1 _ _ Hi1 ltac:(lia) eq_refl). cbn [cursor_view cur_data wt_cursor_init] in Hcon.
  assert (Hd' : d = header ++ payload ++ cursor_view c2) by (rewrite <- Hcon1; exact Hcon).
  pose proof (f_equal zlen Hd') as Hzd. destruct Hb as [_ Hb]. rewrite !zlen_app in Hzd.
  pose proof (zlen_nonneg header). pose proof (zlen_nonneg payload). pose proof (zlen_nonneg (cursor_view c2)).
  no_wrap. split_and!; try done; try lia.
  all: unfold packet_number_value; pose proof (be_value_bound _ Hpn) as Hv; rewrite Hz in Hv;
    assert (256 ^ (Z.land first 3 + 1) <= 256 ^ 4) by (apply Z.pow_le_mono_r; lia);
    rewrite varint_accumulate_spec by (done || lia); replace 256 with (2 ^ 8) in Hv by done;
    rewrite <- Z.pow_mul_r in Hv by lia; lia.
Qed.

Lemma long_header_decode_arbitrary_bytes_witness :
  (wt_quic_long_header_decode (wt_cursor_init (Some [0xc0; 0; 0; 0; 1; 21]) 6)).1 =
    Fail WT_ERR_PROTOCOL (Some WT_QUIC_PROTOCOL_VIOLATION) /\
  header_error WT_ERR_PROTOCOL (Some WT_QUIC_PROTOCOL_VIOLATION).
Proof.
  split; [vm_compute; reflexivity|].
  exact (long_header_decode_arbitrary_bytes [0xc0; 0; 0; 0; 1; 21] ltac:(split; [by apply bytes_okb_spec|done])).
Defined.

(** C23. An encodable Initial, 0-RTT or Handshake packet is written with OK as its wire
    header and payload; decoding these bytes followed by anything returns the same packet
    and stops after it; and the offset of the packet number and the length of the packet are
    found from the protected bytes whatever header protection does to the first byte and to
    the packet number. *)
Theorem long_packet_roundtrip type version dcid scid token pn pnl payload w tl local :
  long_ok type version dcid scid token pn pnl (zlen payload) -> version <> WT_QUIC_VERSION_NEGOTIATION ->
  let header := long_header_wire type version dcid scid token pn pnl (zlen payload) in
  block_ok (header ++ payload ++ tl) ->
  writer_inv w -> w_overflow w = false -> w_copy w = true -> zlen (header ++ payload) <= writer_room w ->
  let r := wt_quic_long_header_encode type version dcid scid token pn pnl payload w in
  let p := wt_quic_long_header_encode_prefix type version dcid scid token pn pnl (zlen payload) w in
  let c := wt_cursor_init (Some (header ++ payload ++ tl)) (zlen (header ++ payload ++ tl)) in
  r.1 = WT_OK /\ writer_bytes r.2 = writer_bytes w ++ header ++ payload /\
  p.1 = WT_OK /\ writer_bytes p.2 = writer_bytes w ++ header /\
  wt_quic_long_header_decode c =
    (Ok (long_header_of type version dcid scid token pn pnl payload), cursor_advance c (zlen (header ++ payload))) /\
  forall b pnb, is_u8 b -> b / 16 = long_first type pnl / 16 -> bytes_ok pnb -> zlen pnb = pnl ->
    wt_quic_protected_pn_offset
      (b :: long_middle type version dcid scid token (pnl + zlen payload) ++ pnb ++ payload ++ tl) local =
    Ok (zlen header - pnl, zlen (header ++ payload), false).
Proof.
  intros Hok Hv0 header Hb Hw Hov Hcp Hroom r p c.
  pose proof (encodes_long type version dcid scid token pn pnl (Some payload) _ Hok) as He.
  pose proof (encodes_long type version dcid scid token pn pnl None _ Hok) as Hp. cbn [default id] in He, Hp.
  rewrite app_nil_r in Hp.
  destruct (encodes_bytes _ _ w He Hw Hov Hcp Hroom) as [He1 He2].
  destruct (encodes_bytes _ _ w Hp Hw Hov Hcp) as [Hp1 Hp2].
  { rewrite zlen_app in Hroom. pose proof (zlen_nonneg payload). fold header. lia. }
  do 4 (split; [done|]). split.
  - apply (decodes_long_header _ _ _ _ _ _ _ _ Hok c tl); [by apply block_ok_live|]. fold header. by rewrite <- app_assoc.
  - intros b pnb Hbu Hq Hpok Hpz.
    pose proof Hok as [_ _ _ _ _ _ Hpn Hpnl _ _]. destruct (pn_wire_spec pn pnl Hpn Hpnl) as (Hz & _).
    set (middle := long_middle type version dcid scid token (pnl + zlen payload)).
    assert (Hh : header = (long_first type pnl :: middle) ++ pn_wire pn pnl) by done.
    assert (Hb' : block_ok ((b :: middle) ++ pnb ++ payload ++ tl)).
    { destruct Hb as [Hbok Hbz]. rewrite Hh, <- !app_assoc in Hbok, Hbz. split.
      - apply Forall_app in Hbok as [Hm Hrest]. apply Forall_cons in Hm as [_ Hm]. apply Forall_app in Hrest as [_ Hrest].
        apply Forall_app; split; [by constructor|]. by apply Forall_app.
      - rewrite !zlen_app, !zlen_cons in *. lia. }
    pose proof (zlen_nonneg tl).
    pose proof (protected_walk type version dcid scid token pn pnl (zlen payload) b pnb (payload ++ tl) local Hok Hv0 Hbu Hq
      ltac:(rewrite !zlen_app; lia) Hb') as E.
    cbn [app] in E. fold middle in E. rewrite E. rewrite Hh, !zlen_app, !zlen_cons, Hz. do 3 f_equal; lia.
Qed.

Lemma long_packet_roundtrip_witness :
  let c := wt_cursor_init (Some ([0xc1; 0; 0; 0; 1; 1; 9; 0; 1; 7; 4; 0x12; 0x34; 5; 6] ++ [0xff])) 16 in
  (wt_quic_long_header_encode WT_QUIC_PACKET_INITIAL 1 [9] [] [7] 0x1234 2 [5; 6] (wt_writer_init (Some (replicate 16 0)) 16)).1 = WT_OK /\
  (wt_quic_long_header_decode c).1 =
    Ok (mk_long_header WT_QUIC_PACKET_INITIAL 1 [9] [] [7] 0x1234 2 [5; 6] [0xc1; 0; 0; 0; 1; 1; 9; 0; 1; 7; 4; 0x12; 0x34] 15 false).
Proof.
  cbv zeta.
  assert (Hok : long_ok WT_QUIC_PACKET_INITIAL 1 [9] [] [7] 0x1234 2 (zlen [5; 6])).
  { constructor; try done; unfold is_u32, cid_ok, varint_ok; repeat split; try (by apply bytes_okb_spec); try (vm_compute; congruence). }
  destruct (long_packet_roundtrip WT_QUIC_PACKET_INITIAL 1 [9] [] [7] 0x1234 2 [5; 6]
    (wt_writer_init (Some (replicate 16 0)) 16) [0xff] 0 Hok ltac:(done)) as (He & _ & _ & _ & Hd & _).
  - split; [by apply bytes_okb_spec|vm_compute; reflexivity].
  - apply (writer_init_inv (replicate 16 0)). done.
  - done.
  - done.
  - vm_compute. discriminate.
  - split; [exact He|]. exact (f_equal fst Hd).
Defined.

(** ** Short headers *)

Definition short_first (pnl : Z) (key_phase spin : bool) : Z :=
  0x40 + (if spin then 0x20 else 0) + (if key_phase then 0x04 else 0) + (pnl - 1).

Lemma short_first_facts pnl key_phase spin :
  1 <= pnl <= 4 ->
  let first := short_first pnl key_phase spin in
  has_bit first WT_QUIC_LONG_HEADER_BIT = false /\ has_bit first WT_QUIC_FIXED_BIT = true /\
  has_bit first WT_QUIC_SPIN_BIT = spin /\ has_bit first WT_QUIC_KEY_PHASE_BIT = key_phase /\
  has_bit first 0x18 = false /\ Z.land first 0x03 + 1 = pnl /\
  (let f := u8 (Z.lor WT_QUIC_FIXED_BIT (u8 (pnl - 1))) in
   let f := if spin then u8 (Z.lor f WT_QUIC_SPIN_BIT) else f in
   if key_phase then u8 (Z.lor f WT_QUIC_KEY_PHASE_BIT) else f) = first.
Proof.
  intros Hp. assert (pnl = 1 \/ pnl = 2 \/ pnl = 3 \/ pnl = 4) as [->|[->|[->| ->]]] by lia;
    destruct key_phase, spin; vm_compute; repeat split.
Qed.

Definition short_header_wire (dcid : list Z) (pn pnl : Z) (key_phase spin : bool) : list Z :=
  short_first pnl key_phase spin :: dcid ++ pn_wire pn pnl.

Lemma encodes_short dcid pn pnl key_phase spin payload :
  cid_ok dcid -> 0 <= pn -> 1 <= pnl <= 4 ->
  encodes (wt_quic_short_header_encode dcid pn pnl key_phase spin payload) (short_header_wire dcid pn pnl key_phase spin ++ payload).
Proof.
  intros Hd Hpn Hpnl. destruct (short_first_facts pnl key_phase spin Hpnl) as (_ & _ & _ & _ & _ & _ & Hf).
  pose proof (proj2 Hd) as Hdz. pose proof (zlen_nonneg dcid).
  apply (encodes_ext _ (fun w => writer_status (wt_writer_bytes payload (wt_writer_bytes (pn_wire pn pnl)
    (wt_writer_bytes dcid (wt_writer_u8 (short_first pnl key_phase spin) w)))))).
  - intros w0. unfold wt_quic_short_header_encode. rewrite (proj2 (Z.ltb_ge _ _)) by done.
    rewrite (proj2 (Z.eqb_neq pnl 0)), (proj2 (Z.ltb_ge 4 pnl)) by lia. cbn [orb].
    pose proof (encode_value pn pnl Hpn Hpnl) as (He & _). unfold pn_wire.
    destruct (wt_quic_packet_number_encode pn pnl) as [n pnb]; cbn in He; subst n. rewrite Z.eqb_refl. cbn [negb snd].
    cbv zeta in Hf |- *. by rewrite Hf.
  - apply encodes_status. unfold short_header_wire.
    match goal with |- appends _ ((?x :: ?l) ++ _) => change (x :: l) with ([x] ++ l) end.
    eapply appends_eq; [|rewrite <- !app_assoc; reflexivity]. rewrite !app_assoc.
    repeat (apply (appends_seq _ (wt_writer_bytes _)); [|apply appends_bytes]). apply appends_u8.
Qed.

Lemma short_decoded dcid pn pnl key_phase spin payload :
  cid_ok dcid -> 0 <= pn -> 1 <= pnl <= 4 ->
  let header := short_header_wire dcid pn pnl key_phase spin in
  let d := header ++ payload in
  block_ok d ->
  (wt_quic_short_header_decode (zlen dcid) (wt_cursor_init (Some d) (zlen d))).1 =
    Ok (mk_short_header key_phase spin false dcid (pn mod 2 ^ (8 * pnl)) pnl payload header (zlen d)).
Proof.
  intros Hd Hpn Hpnl header d Hb. destruct (short_first_facts pnl key_phase spin Hpnl) as (Hlb & Hfb & Hsp & Hkp & Hrs & Hpnb & _).
  destruct (pn_wire_spec pn pnl Hpn Hpnl) as (Hz & _ & Hval). pose proof (proj2 Hd) as Hdz. pose proof (zlen_nonneg dcid).
  unfold wt_quic_short_header_decode. rewrite (proj2 (Z.ltb_ge _ _)) by done.
  match goal with |- (pbind _ ?k _).1 = _ => set (kont := k) end.
  erewrite (decodes_bind_end _ _ header payload (_, dcid, pn_wire pn pnl, header)); cycle 1.
  + apply decodes_with_header. unfold header, short_header_wire.
    match goal with |- decodes _ (?x :: ?l) _ => change (x :: l) with ([x] ++ l) end.
    eapply decodes_bind; [apply decodes_read_first|]. rewrite Hlb, Hfb. cbn [negb].
    eapply decodes_bind; [by apply decodes_bytes_or_truncated|]. rewrite Hpnb.
    eapply decodes_bind_nil; [by apply decodes_take|]. apply decodes_ret.
  + unfold kont. cbv beta iota. apply decodes_end_map, decodes_rest.
  + by apply block_ok_live.
  + done.
  + cbn [fst]. rewrite Hkp, Hsp, Hrs, Hval, Hpnb. unfold d. by rewrite zlen_app.
Qed.

(** A 1-RTT packet is written as its wire header and payload, decodes to the same key phase, spin bit, connection ID, truncated packet number and payload, and its packet number offset is right after the connection ID. *)
Lemma short_packet_roundtrip dcid pn pnl key_phase spin payload w :
  cid_ok dcid -> 0 <= pn -> 1 <= pnl <= 4 ->
  let header := short_header_wire dcid pn pnl key_phase spin in
  block_ok (header ++ payload) ->
  writer_inv w -> w_overflow w = false -> w_copy w = true -> zlen (header ++ payload) <= writer_room w ->
  let r := wt_quic_short_header_encode dcid pn pnl key_phase spin payload w in
  let d := header ++ payload in
  r.1 = WT_OK /\ writer_bytes r.2 = writer_bytes w ++ d /\
  (wt_quic_short_header_decode (zlen dcid) (wt_cursor_init (Some d) (zlen d))).1 =
    Ok (mk_short_header key_phase spin false dcid (pn mod 2 ^ (8 * pnl)) pnl payload header (zlen d)) /\
  wt_quic_protected_pn_offset d (zlen dcid) = Ok (1 + zlen dcid, zlen d, true).
Proof.
  intros Hd Hpn Hpnl header Hb Hw Hov Hcp Hroom r d.
  destruct (short_first_facts pnl key_phase spin Hpnl) as (Hlb & Hfb & Hsp & Hkp & Hrs & Hpnb & Hf).
  destruct (pn_wire_spec pn pnl Hpn Hpnl) as (Hz & _ & Hval). pose proof (proj2 Hd) as Hdz. pose proof (zlen_nonneg dcid).
  pose proof (encodes_short dcid pn pnl key_phase spin payload Hd Hpn Hpnl) as He. fold header d in He.
  destruct (encodes_bytes _ _ w He Hw Hov Hcp Hroom) as [He1 He2]. split; [done|]. split; [done|]. split.
  - by apply short_decoded.
  - unfold wt_quic_protected_pn_offset. assert (Hzd : zlen d = 1 + zlen dcid + pnl + zlen payload).
    { unfold d, header, short_header_wire. rewrite zlen_app, zlen_cons, zlen_app, Hz. lia. }
    pose proof (zlen_nonneg payload). rewrite (proj2 (Z.eqb_neq _ 0)) by lia.
    change (byte_at d 0) with (short_first pnl key_phase spin). rewrite Hlb. cbn [negb].
    rewrite (proj2 (Z.ltb_ge _ _)) by done. by rewrite (proj2 (Z.ltb_ge _ _)) by lia.
Qed.

Lemma short_packet_roundtrip_witness :
  let d := [0x65; 8; 9; 0x12; 0x34; 5] in
  (wt_quic_short_header_decode 2 (wt_cursor_init (Some d) 6)).1 =
    Ok (mk_short_header true true false [8; 9] 0x1234 2 [5] [0x65; 8; 9; 0x12; 0x34] 6).
Proof.
  apply (short_packet_roundtrip [8; 9] 0x1234 2 true true [5] (wt_writer_init (Some (replicate 16 0)) 16)).
  - split; [by apply bytes_okb_spec|vm_compute; discriminate].
  - lia.
  - lia.
  - split; [by apply bytes_okb_spec|vm_compute; reflexivity].
  - apply (writer_init_inv (replicate 16 0)). done.
  - done.
  - done.
  - vm_compute. discriminate.
Defined.

(** ** Retry packets *)

Definition retry_header_wire (version : Z) (dcid scid : list Z) : list Z :=
  0xf0 :: wt_store_be32 version ++ cid_wire dcid ++ cid_wire scid.

(** The header walk of the Retry decoder. *)
Definition retry_fields : parser (Z * list Z * list Z) :=
  first <- (fun c => let '(b, c') := wt_cursor_u8 c in (Ok b, c'));;
  if negb (has_bit first WT_QUIC_LONG_HEADER_BIT) || negb (has_bit first WT_QUIC_FIXED_BIT)
  then wt_quic_packet_fail WT_QUIC_PROTOCOL_VIOLATION WT_ERR_PROTOCOL
  else if negb (bool_decide (packet_type_of_bits (Z.land (Z.shiftr first 4) 0x03) = WT_QUIC_PACKET_RETRY))
  then wt_quic_packet_fail WT_QUIC_PROTOCOL_VIOLATION WT_ERR_PROTOCOL
  else version <- take_or_truncated 4 None;;
       dcid <- wt_quic_read_connection_id;; scid <- wt_quic_read_connection_id;;
       pret (wt_load_be32 version, dcid, scid).

Lemma u8_safe : parser_safe is_u8 (fun c => let '(b, c') := wt_cursor_u8 c in (Ok b, c')).
Proof.
  intros c Hi. unfold wt_cursor_u8, take_load. pose proof (cursor_take_safe 1 c Hi ltac:(lia)) as Hs.
  destruct (wt_cursor_take 1 c) as [[bs|] c']; destruct Hs as (? & ? & ? & Hs); cbn.
  - destruct Hs as (Hz & Hok & _ & ? & _). split_and!; auto; [lia|]. by apply byte_at_u8.
  - split_and!; auto. unfold is_u8. lia.
Qed.

Lemma retry_fields_safe : parser_safe (fun r => cid_ok r.1.2 /\ cid_ok r.2) retry_fields.
Proof.
  eapply parser_safe_bind; [apply u8_safe|]. intros first _. destruct (_ || _); [apply parser_safe_fail|].
  destruct (negb _); [apply parser_safe_fail|]. eapply parser_safe_bind; [by apply take_or_truncated_safe|]. intros v _.
  eapply parser_safe_bind; [apply read_connection_id_safe|]. intros dcid Hd.
  eapply parser_safe_bind; [apply read_connection_id_safe|]. intros scid Hs. by apply parser_safe_ret.
Qed.

Lemma retry_fields_fails : parser_fails header_error retry_fields.
Proof.
  assert (Hviol : forall A, parser_fails header_error (@wt_quic_packet_fail A WT_QUIC_PROTOCOL_VIOLATION WT_ERR_PROTOCOL))
    by (intros A; apply parser_fails_fail; unfold header_error; auto 6).
  eapply parser_fails_bind; [apply u8_safe| |].
  { intros c _. by destruct (wt_cursor_u8 c). }
  intros first _. destruct (_ || _); [apply Hviol|]. destruct (negb _); [apply Hviol|].
  eapply parser_fails_bind; [by apply take_or_truncated_safe|apply take_or_truncated_fails; by left|]. intros v _.
  eapply parser_fails_bind; [apply read_connection_id_safe|apply read_connection_id_fails|]. intros dcid _.
  eapply parser_fails_bind; [apply read_connection_id_safe|apply read_connection_id_fails|]. intros scid _.
  apply parser_fails_ret.
Qed.

(** A Retry decoded from any bytes splits the whole datagram into header, token and a 16-byte integrity tag; any other answer is one of the listed errors. *)
Lemma retry_views_partition_datagram d :
  bytes_ok d -> zlen d < 2 ^ 63 ->
  match wt_quic_retry_packet_decode d with
  | Ok r =>
      d = rp_header r ++ rp_token r ++ rp_integrity_tag r /\ zlen (rp_integrity_tag r) = 16 /\
      rp_total_len r = zlen d /\ cid_ok (rp_destination_connection_id r) /\ cid_ok (rp_source_connection_id r)
  | Fail s e => header_error s e
  end.
Proof.
  intros Hok Hz. pose proof (cursor_init_inv d ltac:(lia) Hok) as Hi.
  unfold wt_quic_retry_packet_decode. fold retry_fields. unfold WT_QUIC_RETRY_INTEGRITY_TAG_LEN.
  change (1 + 4 + 1 + 1 + 16) with 23. destruct (Z.ltb_spec (zlen d) 23) as [|Hd]; [by left|].
  destruct (retry_fields_safe _ Hi) as (Hi' & _ & Hl & Ho & HQ). pose proof (retry_fields_fails _ Hi) as Hf.
  destruct (retry_fields _) as [[[[version dcid] scid]|s e] c]; [|done]. cbn in Hi', Hl, Ho, HQ.
  destruct Hi' as ([_ Hle] & _ & _). rewrite Hl in Hle. cbn in Hle. no_wrap.
  destruct (Z.ltb_spec (zlen d) (cur_offset c + 16)) as [|Hge]; [by left|].
  cbn [rp_header rp_token rp_integrity_tag rp_total_len rp_destination_connection_id rp_source_connection_id].
  no_wrap. destruct HQ. split_and!; try done; [|apply zlen_zslice; lia].
  unfold zslice. rewrite (ztake_all 16) by (rewrite zlen_zdrop; lia).
  rewrite <- (ztake_zdrop (cur_offset c) d) at 1. f_equal.
  rewrite <- (ztake_zdrop (zlen d - cur_offset c - 16) (zdrop (cur_offset c) d)) at 1. f_equal.
  rewrite zdrop_zdrop by lia. f_equal. lia.
Qed.

Lemma retry_views_partition_datagram_witness :
  let d := [0xff; 0; 0; 0; 1; 0; 1; 9] ++ [0x74] ++ replicate 16 7 in
  match wt_quic_retry_packet_decode d with Ok r => rp_token r = [0x74] | Fail _ _ => False end /\
  match wt_quic_retry_packet_decode d with
  | Ok r => d = rp_header r ++ rp_token r ++ rp_integrity_tag r | Fail _ _ => False end.
Proof.
  split; [vm_compute; reflexivity|].
  pose proof (retry_views_partition_datagram ([0xff; 0; 0; 0; 1; 0; 1; 9] ++ [0x74] ++ replicate 16 7)
    ltac:(by apply bytes_okb_spec) ltac:(done)) as H.
  destruct (wt_quic_retry_packet_decode _) eqn:E; [apply H|vm_compute in E; discriminate].
Defined.

Lemma encodes_retry version dcid scid token tag :
  cid_ok dcid -> cid_ok scid -> zlen scid <> 0 ->
  encodes (wt_quic_retry_packet_encode version dcid scid token tag) (retry_header_wire version dcid scid ++ token ++ tag).
Proof.
  intros Hd Hs Hsz.
  apply (encodes_ext _ (fun w => writer_status (wt_writer_bytes tag (wt_writer_bytes token
      (wt_quic_write_connection_id scid (wt_quic_write_connection_id dcid (wt_writer_u32 version (wt_writer_u8 0xf0 w)))))))).
    - intros w0. unfold wt_quic_retry_packet_encode.
      rewrite (proj2 (Z.ltb_ge _ (zlen dcid))), (proj2 (Z.ltb_ge _ (zlen scid))) by (apply Hd || apply Hs). cbn [orb].
      by rewrite (proj2 (Z.eqb_neq _ _) Hsz).
    - apply encodes_status. unfold retry_header_wire.
      match goal with |- appends _ ((?x :: ?l) ++ _) => change (x :: l) with ([x] ++ l) end.
      eapply appends_eq; [|rewrite <- !app_assoc; reflexivity]. rewrite !app_assoc.
      do 2 (apply (appends_seq _ (wt_writer_bytes _)); [|apply appends_bytes]).
      do 2 (apply (appends_seq _ (wt_quic_write_connection_id _)); [|by apply appends_connection_id]).
      apply (appends_seq _ (wt_writer_u32 version)); [apply appends_u8|apply appends_put].
Qed.

(** A Retry packet written by the encoder decodes to its fields. *)
Lemma retry_packet_roundtrip version dcid scid token tag w :
  is_u32 version -> cid_ok dcid -> cid_ok scid -> scid <> [] -> bytes_ok token -> bytes_ok tag -> zlen tag = 16 ->
  let header := retry_header_wire version dcid scid in
  let d := header ++ token ++ tag in
  zlen d < 2 ^ 63 -> writer_inv w -> w_overflow w = false -> w_copy w = true -> zlen d <= writer_room w ->
  let r := wt_quic_retry_packet_encode version dcid scid token tag w in
  r.1 = WT_OK /\ writer_bytes r.2 = writer_bytes w ++ d /\
  wt_quic_retry_packet_decode d = Ok (mk_retry_packet version dcid scid token tag header (zlen d)).
Proof.
  intros Hv Hd Hs Hne Htok Htag Ht header d Hz Hw Hov Hcp Hroom r.
  assert (Hsz : zlen scid <> 0) by (intros E; by apply zlen_0_nil in E).
  pose proof (zlen_nonneg scid). pose proof (zlen_nonneg dcid). pose proof (zlen_nonneg token).
  pose proof (encodes_retry version dcid scid token tag Hd Hs Hsz) as He.
  destruct (encodes_bytes _ _ w He Hw Hov Hcp Hroom) as [He1 He2]. split; [done|]. split; [done|].
  assert (Hok : bytes_ok d).
  { assert (Hcid : forall id, cid_ok id -> bytes_ok (cid_wire id)).
    { intros id [Hid Hl]. unfold WT_QUIC_MAX_CID_LEN in Hl. constructor; [|done].
      pose proof (zlen_nonneg id). unfold is_u8. lia. }
    apply Forall_app; split; [|by apply Forall_app]. constructor; [unfold is_u8; lia|].
    apply Forall_app; split; [rewrite store_be32_spec; apply be_bytes_ok|]. apply Forall_app; split; by apply Hcid. }
  assert (Hf : decodes retry_fields header (version, dcid, scid)).
  { unfold retry_fields, header, retry_header_wire.
    match goal with |- decodes _ (?x :: ?l) _ => change (x :: l) with ([x] ++ l) end.
    eapply decodes_bind; [apply decodes_u8|].
    change (has_bit 0xf0 WT_QUIC_LONG_HEADER_BIT) with true. change (has_bit 0xf0 WT_QUIC_FIXED_BIT) with true. cbn [negb orb].
    rewrite bool_decide_true by done. cbn [negb]. eapply decodes_bind; [by apply decodes_be32|].
    eapply decodes_bind; [by apply decodes_connection_id|]. eapply decodes_bind_nil; [by apply decodes_connection_id|].
    rewrite load_store_be32 by done. apply decodes_ret. }
  assert (Hdz : zlen d = zlen header + zlen token + 16) by (unfold d; rewrite !zlen_app, Ht; lia).
  assert (Hhz : 8 <= zlen header).
  { unfold header, retry_header_wire, cid_wire. rewrite store_be32_spec.
    rewrite zlen_cons, !zlen_app, !zlen_cons, zlen_be_bytes. lia. }
  unfold wt_quic_retry_packet_decode. fold retry_fields. unfold WT_QUIC_RETRY_INTEGRITY_TAG_LEN.
  change (1 + 4 + 1 + 1 + 16) with 23. rewrite (proj2 (Z.ltb_ge _ _)) by lia.
  rewrite (Hf _ (token ++ tag) (cursor_init_live d ltac:(lia) Hok) eq_refl). cbn [cur_offset cursor_advance wt_cursor_init].
  rewrite Z.add_0_l. no_wrap. rewrite (proj2 (Z.ltb_ge _ _)) by lia. do 2 f_equal.
  - unfold zslice. unfold d at 2. rewrite zdrop_app_exact by done. apply ztake_app_exact. lia.
  - unfold zslice. unfold d at 2. rewrite app_assoc. rewrite zdrop_app_exact by (rewrite zlen_app; lia).
    apply ztake_all. lia.
  - by apply ztake_app_exact.
Qed.

Lemma retry_packet_roundtrip_witness :
  wt_quic_retry_packet_decode ([0xf0; 0; 0; 0; 1; 0; 1; 9] ++ [0x74] ++ replicate 16 7) =
    Ok (mk_retry_packet 1 [] [9] [0x74] (replicate 16 7) [0xf0; 0; 0; 0; 1; 0; 1; 9] 25).
Proof.
  apply (retry_packet_roundtrip 1 [] [9] [0x74] (replicate 16 7) (wt_writer_init (Some (replicate 32 0)) 32));
    try done; try (by apply bytes_okb_spec); try (unfold cid_ok; split; [by apply bytes_okb_spec|vm_compute; discriminate]).
Defined.
