(* ===== verification/Protection.v ===== *)
(** Packet protection: [src/quic/protection.c] over the crypto binding.  Key
    derivation and update, the nonce, header protection, the protection of the
    frames and the integrity tag of a Retry. *)

From stdpp Require Import strings.
From S2P Require Import Prelude Core Crypto Packet.

#[local] Open Scope Z_scope.

(** [key] and [hp] are their first [key_len] and [hp_len] bytes. *)
Record wt_quic_packet_keys := mk_keys {
  ks_secret : list Z;
  ks_key : list Z;
  ks_iv : list Z;
  ks_hp : list Z;
  ks_aead : wt_aead }.

Definition wt_quic_initial_salt_v1 : list Z :=
  [0x38; 0x76; 0x2c; 0xf7; 0xf5; 0x59; 0x34; 0xb3; 0x4d; 0x17; 0x9a; 0xe6; 0xa4; 0xc8; 0x0c; 0xad; 0xcc; 0xbb; 0x7f; 0x0a].

Definition WT_QUIC_HP_SAMPLE_OFFSET : Z := 4.
Definition WT_QUIC_HP_SAMPLE_LENGTH : Z := 16.

Definition WT_QUIC_RETRY_KEY : list Z :=
  [0xbe; 0x0c; 0x69; 0x0b; 0x9f; 0x66; 0x57; 0x5a; 0x1d; 0x76; 0x6b; 0x54; 0xe3; 0x68; 0xc8; 0x4e].
Definition WT_QUIC_RETRY_NONCE : list Z := [0x46; 0x15; 0x99; 0xd3; 0x5d; 0x63; 0x2b; 0xf2; 0x23; 0x98; 0x25; 0xbb].
Definition WT_QUIC_RETRY_PSEUDO_MAX : Z := 1 + 20 + 1500.

(** [p[i] ^= mask[i]] for the bytes of the mask. *)
Fixpoint xor_bytes (p mask : list Z) : list Z :=
  match p, mask with
  | b :: p, m :: mask => Z.lxor b m :: xor_bytes p mask
  | p, _ => p
  end.

Definition xor_at (packet : list Z) (offset : Z) (mask : list Z) : list Z :=
  ztake offset packet ++ xor_bytes (zdrop offset packet) mask.

(** The bits of the first byte the mask covers. *)
Definition first_byte_mask (first mask : Z) : Z :=
  if has_bit first 0x80 then u8 (Z.land mask 0x0f) else u8 (Z.land mask 0x1f).

(** The eight bytes of a packet number, most significant first, as
    [(packet_number >> (8 * i)) & 0xff] for the index from the end. *)
Definition packet_number_bytes (packet_number : Z) : list Z :=
  (fun i => u8 (Z.land (Z.shiftr packet_number (8 * Z.of_nat i)) 0xff)) <$> rev (seq 0 8).

Definition wt_quic_packet_nonce (iv : list Z) (packet_number : Z) : list Z :=
  xor_at iv (WT_AEAD_IV_LEN - 8) (packet_number_bytes packet_number).

Definition wt_quic_header_protection_sample (pn_offset : Z) (packet : list Z) : outcome (list Z) :=
  if SIZE_MAX - WT_QUIC_HP_SAMPLE_OFFSET <? pn_offset then Fail WT_ERR_OVERFLOW None
  else
    let sample_offset := pn_offset + WT_QUIC_HP_SAMPLE_OFFSET in
    if (zlen packet <? sample_offset) || (zlen packet - sample_offset <? WT_QUIC_HP_SAMPLE_LENGTH)
    then Fail WT_ERR_TRUNCATED None
    else Ok (zslice sample_offset WT_QUIC_HP_SAMPLE_LENGTH packet).

Section Protection.
Context {C : Crypto}.

Definition wt_quic_initial_secret (salt dcid : list Z) : outcome (list Z) := wt_hkdf_extract_sha256 (Some salt) dcid.

Definition wt_quic_derive_packet_keys (secret : list Z) (aead : wt_aead) : outcome wt_quic_packet_keys :=
  let key_len := wt_aead_key_len aead in
  let iv_len := wt_aead_iv_len aead in
  if (key_len =? 0) || (iv_len =? 0) then Fail WT_ERR_UNSUPPORTED None
  else if (WT_AEAD_MAX_KEY_LEN <? key_len) then Fail WT_ERR_UNSUPPORTED None
  else
    match wt_hkdf_expand_label_sha256 secret "quic key" [] key_len with
    | Fail s e => Fail s e
    | Ok key =>
        match wt_hkdf_expand_label_sha256 secret "quic iv" [] iv_len with
        | Fail s e => Fail s e
        | Ok iv =>
            match wt_hkdf_expand_label_sha256 secret "quic hp" [] key_len with
            | Fail s e => Fail s e
            | Ok hp => Ok (mk_keys secret key iv hp aead)
            end
        end
    end.

Definition wt_quic_packet_keys_from_secret (secret : list Z) (aead : wt_aead) : outcome wt_quic_packet_keys :=
  wt_quic_derive_packet_keys secret aead.

Definition wt_quic_initial_packet_keys (initial_secret : list Z) (from_server : bool) (aead : wt_aead)
    : outcome wt_quic_packet_keys :=
  match wt_hkdf_expand_label_sha256 initial_secret (if from_server then "server in" else "client in") [] WT_SHA256_LEN with
  | Fail s e => Fail s e
  | Ok secret => wt_quic_derive_packet_keys secret aead
  end.

Definition wt_quic_packet_keys_update (current : wt_quic_packet_keys) : outcome wt_quic_packet_keys :=
  if WT_AEAD_MAX_KEY_LEN <? zlen (ks_hp current) then Fail WT_ERR_INVALID_ARGUMENT None
  else
    match wt_hkdf_expand_label_sha256 (ks_secret current) "quic ku" [] WT_SHA256_LEN with
    | Fail s e => Fail s e
    | Ok next_secret =>
        match wt_quic_derive_packet_keys next_secret (ks_aead current) with
        | Fail s e => Fail s e
        | Ok out => Ok (mk_keys (ks_secret out) (ks_key out) (ks_iv out) (ks_hp current) (ks_aead out))
        end
    end.

Definition wt_quic_header_protection_mask (aead : wt_aead) (hp sample : list Z) : outcome (list Z) :=
  if zlen hp <? wt_aead_key_len aead then Fail WT_ERR_INVALID_ARGUMENT None
  else
    match aead with
    | WT_AEAD_AES_128_GCM =>
        match aes128_ecb_encrypt_block (ztake 16 hp) sample with
        | Fail s e => Fail s e
        | Ok block => Ok (ztake 5 block)
        end
    | WT_AEAD_CHACHA20_POLY1305 =>
        let counter := u32 (Z.lor (Z.lor (Z.lor (byte_at sample 0) (Z.shiftl (byte_at sample 1) 8))
                                         (Z.shiftl (byte_at sample 2) 16)) (Z.shiftl (byte_at sample 3) 24)) in
        chacha20_xor (ztake 32 hp) (zdrop 4 sample) counter [0; 0; 0; 0; 0]
    end.

Definition wt_quic_protect_header (aead : wt_aead) (hp packet : list Z) (pn_offset pn_len : Z) : outcome (list Z) :=
  if (pn_len =? 0) || (4 <? pn_len) then Fail WT_ERR_INVALID_ARGUMENT None
  else if zlen packet <=? pn_offset then Fail WT_ERR_INVALID_ARGUMENT None
  else if zlen packet - pn_offset <? pn_len then Fail WT_ERR_INVALID_ARGUMENT None
  else
    match wt_quic_header_protection_sample pn_offset packet with
    | Fail s e => Fail s e
    | Ok sample =>
        match wt_quic_header_protection_mask aead hp sample with
        | Fail s e => Fail s e
        | Ok mask =>
            let packet := xor_at packet 0 [first_byte_mask (byte_at packet 0) (byte_at mask 0)] in
            Ok (xor_at packet pn_offset (zslice 1 pn_len mask))
        end
    end.

(** The packet without the mask, and the length of its packet number. *)
Definition wt_quic_unprotect_header (aead : wt_aead) (hp packet : list Z) (pn_offset : Z) : outcome (list Z * Z) :=
  if zlen packet <=? pn_offset then Fail WT_ERR_INVALID_ARGUMENT None
  else
    match wt_quic_header_protection_sample pn_offset packet with
    | Fail s e => Fail s e
    | Ok sample =>
        match wt_quic_header_protection_mask aead hp sample with
        | Fail s e => Fail s e
        | Ok mask =>
            let packet := xor_at packet 0 [first_byte_mask (byte_at packet 0) (byte_at mask 0)] in
            let pn_len := Z.land (byte_at packet 0) 0x03 + 1 in
            if zlen packet - pn_offset <? pn_len then Fail WT_ERR_TRUNCATED None
            else Ok (xor_at packet pn_offset (zslice 1 pn_len mask), pn_len)
        end
    end.

(** What is written to [out]: the ciphertext and the tag. *)
Definition wt_quic_protect_frames (keys : wt_quic_packet_keys) (packet_number : Z) (aad frames : list Z) (out_capacity : Z)
    : outcome (list Z) :=
  if (out_capacity <? zlen frames) || (out_capacity - zlen frames <? WT_AEAD_TAG_LEN) then Fail WT_ERR_LIMIT None
  else
    match aead_seal (ks_aead keys) (ks_key keys) (wt_quic_packet_nonce (ks_iv keys) packet_number) aad frames with
    | Fail s e => Fail s e
    | Ok (ciphertext, tag) => Ok (ciphertext ++ tag)
    end.

Definition wt_quic_unprotect_frames (keys : wt_quic_packet_keys) (packet_number : Z) (aad packet tag : list Z)
    : outcome (list Z) :=
  aead_open (ks_aead keys) (ks_key keys) (wt_quic_packet_nonce (ks_iv keys) packet_number) aad packet tag.

Definition wt_quic_retry_integrity_tag (original_destination_connection_id retry_packet_without_tag : list Z)
    : outcome (list Z) :=
  let original_length := zlen original_destination_connection_id in
  if 20 <? original_length then Fail WT_ERR_LIMIT None
  else if WT_QUIC_RETRY_PSEUDO_MAX - 1 - original_length <? zlen retry_packet_without_tag then Fail WT_ERR_LIMIT None
  else
    let pseudo := u8 original_length :: original_destination_connection_id ++ retry_packet_without_tag in
    match aead_seal WT_AEAD_AES_128_GCM WT_QUIC_RETRY_KEY WT_QUIC_RETRY_NONCE pseudo [] with
    | Fail s e => Fail s e
    | Ok (_, tag) => Ok tag
    end.

Definition wt_quic_retry_integrity_verify (original_destination_connection_id retry_packet : list Z) : wt_status :=
  let length := zlen retry_packet in
  if length <? WT_AEAD_TAG_LEN then WT_ERR_TRUNCATED
  else
    match wt_quic_retry_integrity_tag original_destination_connection_id (ztake (length - WT_AEAD_TAG_LEN) retry_packet) with
    | Fail s _ => s
    | Ok expected =>
        if wt_ct_equal expected (zdrop (length - WT_AEAD_TAG_LEN) retry_packet) then WT_OK else WT_ERR_AUTHENTICATION
    end.
End Protection.

(** ** Masks *)

Lemma zlen_xor_bytes p m : zlen (xor_bytes p m) = zlen p.
Proof. revert m. induction p as [|b p IH]; intros [|x m]; cbn [xor_bytes]; rewrite ?zlen_cons; [done..|]. by rewrite IH. Qed.

Lemma xor_bytes_ok p m : bytes_ok p -> bytes_ok m -> bytes_ok (xor_bytes p m).
Proof.
  intros Hp. revert m. induction Hp as [|b p Hb Hp IH]; intros [|x m] Hm; cbn [xor_bytes]; [by constructor..|].
  apply Forall_cons in Hm as [Hx Hm]. constructor; [by apply lxor_u8|by apply IH].
Qed.

(** A mask undoes itself. *)
Lemma xor_bytes_twice p m : xor_bytes (xor_bytes p m) m = p.
Proof.
  revert m. induction p as [|b p IH]; intros [|x m]; cbn [xor_bytes]; [done..|].
  by rewrite IH, Z.lxor_assoc, Z.lxor_nilpotent, Z.lxor_0_r.
Qed.

Lemma xor_bytes_app a b m : zlen a = zlen m -> xor_bytes (a ++ b) m = xor_bytes a m ++ b.
Proof.
  unfold zlen. intros Hz%Nat2Z.inj. revert m Hz.
  induction a as [|x a IH]; intros [|y m] Hz; cbn in *; try lia; [by destruct b|]. by rewrite IH by lia.
Qed.

Lemma xor_at_app a b c m : zlen b = zlen m -> xor_at (a ++ b ++ c) (zlen a) m = a ++ xor_bytes b m ++ c.
Proof. intros Hz. unfold xor_at. by rewrite ztake_app_exact, zdrop_app_exact, xor_bytes_app by done. Qed.

Lemma xor_first b p m : xor_at (b :: p) 0 [m] = Z.lxor b m :: p.
Proof. unfold xor_at. rewrite ztake_0, zdrop_0. cbn. by destruct p. Qed.

Lemma xor_bytes_zip a m : xor_bytes a m = zip_with Z.lxor (ztake (zlen m) a) m ++ zdrop (zlen m) a.
Proof.
  unfold ztake, zdrop, zlen. rewrite Nat2Z.id. revert m. induction a as [|x a IH]; intros [|y m]; cbn; try done.
  by rewrite IH.
Qed.

(** ** The nonce *)

Lemma packet_number_bytes_be n : packet_number_bytes n = be_bytes 8 n.
Proof.
  rewrite <- store_be64_spec. unfold packet_number_bytes, wt_store_be64, store_byte. cbn. reflexivity.
Qed.

Lemma packet_nonce_spec iv n :
  zlen iv = WT_AEAD_IV_LEN -> wt_quic_packet_nonce iv n = ztake 4 iv ++ xor_bytes (zdrop 4 iv) (be_bytes 8 n).
Proof. intros _. unfold wt_quic_packet_nonce, xor_at. by rewrite packet_number_bytes_be. Qed.

Lemma xor_bytes_inj p m m' : length m = length m' -> length m = length p -> xor_bytes p m = xor_bytes p m' -> m = m'.
Proof.
  revert m m'. induction p as [|b p IH]; intros [|x m] [|y m'] Hl Hp; cbn in Hl, Hp; try lia; try done. cbn [xor_bytes].
  intros [= H1 H2]. f_equal; [|apply (IH m m'); [lia|lia|done]].
  assert (Z.lxor b (Z.lxor b x) = Z.lxor b (Z.lxor b y)) as E by by rewrite H1.
  by rewrite <- !Z.lxor_assoc, Z.lxor_nilpotent, !Z.lxor_0_l in E.
Qed.

(** Two different packet numbers give two different AEAD nonces under one IV. *)
Lemma packet_nonces_distinct iv n m :
  zlen iv = WT_AEAD_IV_LEN -> is_u64 n -> is_u64 m -> n <> m ->
  wt_quic_packet_nonce iv n <> wt_quic_packet_nonce iv m.
Proof.
  intros Hz Hn Hm Hne. rewrite !packet_nonce_spec by done. intros H%app_inj_1; [|done]. destruct H as [_ H]. apply Hne.
  assert (length (zdrop 4 iv) = 8%nat) as Hl.
  { assert (zlen (zdrop 4 iv) = 8) as E by (rewrite zlen_zdrop; unfold WT_AEAD_IV_LEN in Hz; lia). unfold zlen in E. lia. }
  apply xor_bytes_inj in H; [|by rewrite !be_bytes_length|by rewrite be_bytes_length].
  rewrite <- (be_value_bytes 8 n), <- (be_value_bytes 8 m), H by (unfold is_u64 in *; lia). done.
Qed.

Lemma packet_nonces_distinct_witness :
  wt_quic_packet_nonce (replicate 12 0) 7 <> wt_quic_packet_nonce (replicate 12 0) (2 ^ 32 + 7).
Proof. apply (packet_nonces_distinct (replicate 12 0)); [done|unfold is_u64; lia|unfold is_u64; lia|done]. Defined.

(** ** Header protection *)

Lemma zslice_app_r {A} (a b : list A) off n : zlen a <= off -> zslice off n (a ++ b) = zslice (off - zlen a) n b.
Proof. intros H. unfold zslice, zdrop, zlen in *. rewrite drop_app_ge by lia. do 2 f_equal. lia. Qed.

Lemma first_byte_masked b m :
  is_u8 b -> is_u8 m ->
  let b' := Z.lxor b (first_byte_mask b m) in
  is_u8 b' /\ has_bit b' 0x80 = has_bit b 0x80 /\ Z.lxor b' (first_byte_mask b' m) = b /\
  (has_bit b 0x80 = true -> b' / 16 = b / 16).
Proof.
  intros Hb Hm. revert b Hb m Hm.
  assert (H : forallb (fun b => forallb (fun m => let b' := Z.lxor b (first_byte_mask b m) in
    (0 <=? b') && (b' <? 256) && Bool.eqb (has_bit b' 0x80) (has_bit b 0x80) && (Z.lxor b' (first_byte_mask b' m) =? b) &&
    (negb (has_bit b 0x80) || (b' / 16 =? b / 16))) (Z.of_nat <$> seq 0 256)) (Z.of_nat <$> seq 0 256) = true) by (vm_compute; reflexivity).
  rewrite forallb_forall in H. intros b Hb m Hm.
  assert (Hin : forall x, is_u8 x -> List.In x (Z.of_nat <$> seq 0 256)).
  { intros x Hx. unfold is_u8 in Hx. apply list_elem_of_In, list_elem_of_fmap. exists (Z.to_nat x). rewrite elem_of_seq. lia. }
  specialize (H b (Hin b Hb)). rewrite forallb_forall in H. specialize (H m (Hin m Hm)). cbv zeta in *.
  reflect_bools. rewrite Bool.eqb_true_iff in *. unfold is_u8. split_and!; try lia; [done|].
  intros Hl. rewrite Hl in *. cbn [negb orb] in *. destruct H0 as [|H0]; [done|]. by apply Z.eqb_eq.
Qed.

Section HeaderProtection.
Context {C : Crypto} {L : CryptoLaws C}.

Lemma header_mask_ok aead hp sample mask :
  bytes_ok sample -> wt_quic_header_protection_mask aead hp sample = Ok mask -> zlen mask = 5 /\ bytes_ok mask.
Proof.
  intros Hs. unfold wt_quic_header_protection_mask. destruct (_ <? _); [done|]. destruct aead.
  - destruct (aes128_ecb_encrypt_block _ _) as [block|] eqn:E; [|done]. intros [= <-]. apply aes_ok in E as [Hz Hb].
    split; [rewrite zlen_ztake; lia|by apply Forall_ztake].
  - cbv zeta. intros E. apply chacha_ok in E as [Hz Hb]; [by split|]. by repeat constructor.
Qed.

(** The packet [b :: mid ++ pnb ++ rest], with its number in [pnb]. *)
Section Packet.
Context (aead : wt_aead) (hp : list Z) (b : Z) (mid pnb rest mask : list Z).
Hypothesis (Hpnl : 1 <= zlen pnb <= 4) (Hrest : 20 - zlen pnb <= zlen rest)
  (Hsize : zlen (b :: mid ++ pnb ++ rest) <= SIZE_MAX) (Hmask : zlen mask = 5)
  (Hm : wt_quic_header_protection_mask aead hp (zslice (4 - zlen pnb) 16 rest) = Ok mask).

Lemma packet_sample : wt_quic_header_protection_sample (1 + zlen mid) (b :: mid ++ pnb ++ rest) = Ok (zslice (4 - zlen pnb) 16 rest).
Proof.
  unfold wt_quic_header_protection_sample, WT_QUIC_HP_SAMPLE_OFFSET, WT_QUIC_HP_SAMPLE_LENGTH.
  rewrite zlen_cons, !zlen_app in *. pose proof (zlen_nonneg mid).
  rewrite (proj2 (Z.ltb_ge (SIZE_MAX - 4) _)) by lia. cbv zeta.
  rewrite (proj2 (Z.ltb_ge _ (1 + zlen mid + 4))), (proj2 (Z.ltb_ge _ 16)) by lia. cbn [orb]. f_equal.
  replace (b :: mid ++ pnb ++ rest) with ((b :: mid ++ pnb) ++ rest) by (by cbn; rewrite <- app_assoc).
  rewrite zslice_app_r by (rewrite zlen_cons, zlen_app; lia). f_equal. rewrite zlen_cons, zlen_app. lia.
Qed.

Lemma packet_masked b' :
  xor_at (b' :: mid ++ pnb ++ rest) (1 + zlen mid) (zslice 1 (zlen pnb) mask) =
  b' :: mid ++ xor_bytes pnb (zslice 1 (zlen pnb) mask) ++ rest.
Proof.
  change (b' :: mid ++ pnb ++ rest) with ((b' :: mid) ++ pnb ++ rest). replace (1 + zlen mid) with (zlen (b' :: mid)) by (rewrite zlen_cons; lia).
  rewrite xor_at_app by (rewrite zlen_zslice; lia). done.
Qed.

Lemma protect_header_packet :
  wt_quic_protect_header aead hp (b :: mid ++ pnb ++ rest) (1 + zlen mid) (zlen pnb) =
  Ok (Z.lxor b (first_byte_mask b (byte_at mask 0)) :: mid ++ xor_bytes pnb (zslice 1 (zlen pnb) mask) ++ rest).
Proof.
  unfold wt_quic_protect_header. rewrite packet_sample, Hm. pose proof Hsize as Hs. rewrite zlen_cons, !zlen_app in Hs |- *. pose proof (zlen_nonneg mid).
  rewrite (proj2 (Z.eqb_neq _ _)), (proj2 (Z.ltb_ge 4 _)), (proj2 (Z.leb_gt _ _)), (proj2 (Z.ltb_ge _ (zlen pnb))) by lia. cbn [orb].
  change (byte_at (b :: _) 0) with b. cbv zeta. by rewrite xor_first, packet_masked.
Qed.

Lemma unprotect_header_packet :
  Z.land (Z.lxor b (first_byte_mask b (byte_at mask 0))) 0x03 + 1 = zlen pnb ->
  wt_quic_unprotect_header aead hp (b :: mid ++ pnb ++ rest) (1 + zlen mid) =
  Ok (Z.lxor b (first_byte_mask b (byte_at mask 0)) :: mid ++ xor_bytes pnb (zslice 1 (zlen pnb) mask) ++ rest, zlen pnb).
Proof.
  intros Hb. unfold wt_quic_unprotect_header. rewrite packet_sample, Hm. pose proof Hsize as Hs. rewrite zlen_cons, !zlen_app in Hs. pose proof (zlen_nonneg mid).
  rewrite (proj2 (Z.leb_gt _ _)) by (rewrite zlen_cons, !zlen_app; lia).
  change (byte_at (b :: _) 0) with b. cbv zeta. rewrite xor_first. change (byte_at (?x :: _) 0) with x. rewrite Hb.
  rewrite (proj2 (Z.ltb_ge _ _)) by (rewrite zlen_cons, !zlen_app; lia). by rewrite packet_masked.
Qed.
End Packet.

(** Removing the protection gives back the packet and the length of its number. *)
Lemma header_protection_roundtrip aead hp b mid pnb rest mask :
  is_u8 b -> bytes_ok rest -> Z.land b 0x03 + 1 = zlen pnb -> 20 - zlen pnb <= zlen rest ->
  zlen (b :: mid ++ pnb ++ rest) <= SIZE_MAX ->
  wt_quic_header_protection_mask aead hp (zslice (4 - zlen pnb) 16 rest) = Ok mask ->
  exists b' pnb',
    wt_quic_protect_header aead hp (b :: mid ++ pnb ++ rest) (1 + zlen mid) (zlen pnb) = Ok (b' :: mid ++ pnb' ++ rest) /\
    wt_quic_unprotect_header aead hp (b' :: mid ++ pnb' ++ rest) (1 + zlen mid) = Ok (b :: mid ++ pnb ++ rest, zlen pnb) /\
    is_u8 b' /\ has_bit b' 0x80 = has_bit b 0x80 /\ (has_bit b 0x80 = true -> b' / 16 = b / 16) /\ zlen pnb' = zlen pnb /\
    (bytes_ok pnb -> bytes_ok pnb').
Proof.
  intros Hb Hr Hp Hrest Hs Hm. destruct (header_mask_ok _ _ _ _ ltac:(unfold zslice; apply Forall_ztake, Forall_zdrop, Hr) Hm) as [Hz Hmok].
  assert (Hpnl : 1 <= zlen pnb <= 4) by (rewrite <- Hp; pose proof (Z.land_nonneg b 3); assert (Z.land b 3 < 4) by
    (change 3 with (2 ^ 2 - 1); rewrite land_mask by lia; apply Z.mod_pos_bound; lia); lia).
  pose proof (byte_at_u8 _ Hmok) as H0. destruct (first_byte_masked b _ Hb H0) as (Hb' & Hlong & Hinv & Hq).
  set (b' := Z.lxor b (first_byte_mask b (byte_at mask 0))) in *. set (pnb' := xor_bytes pnb (zslice 1 (zlen pnb) mask)).
  assert (Hz' : zlen pnb' = zlen pnb) by apply zlen_xor_bytes.
  exists b', pnb'. split_and!; try done.
  - by apply protect_header_packet.
  - rewrite (unprotect_header_packet aead hp b' mid pnb' rest mask); rewrite ?Hz'; try done; [|by rewrite zlen_cons, !zlen_app, Hz', <- !zlen_app, <- (zlen_cons b)|by rewrite Hinv].
    rewrite Hinv. do 2 f_equal. unfold pnb'. by rewrite xor_bytes_twice.
  - intros Hok. apply xor_bytes_ok; [done|]. unfold zslice. by apply Forall_ztake, Forall_zdrop.
Qed.
End HeaderProtection.

(** ** Keys, frames and Retry tags *)

Record keys_ok (k : wt_quic_packet_keys) : Prop := mk_keys_ok {
  ko_secret : zlen (ks_secret k) = WT_SHA256_LEN;
  ko_key : zlen (ks_key k) = wt_aead_key_len (ks_aead k);
  ko_iv : zlen (ks_iv k) = WT_AEAD_IV_LEN;
  ko_hp : zlen (ks_hp k) = wt_aead_key_len (ks_aead k) }.

Section Frames.
Context {C : Crypto} {L : CryptoLaws C}.

Lemma derive_packet_keys_ok secret aead k :
  zlen secret = WT_SHA256_LEN -> wt_quic_derive_packet_keys secret aead = Ok k ->
  keys_ok k /\ ks_aead k = aead /\ ks_secret k = secret.
Proof.
  intros Hs. unfold wt_quic_derive_packet_keys. cbv zeta.
  replace (wt_aead_key_len aead =? 0) with false by by destruct aead.
  replace (WT_AEAD_MAX_KEY_LEN <? wt_aead_key_len aead) with false by by destruct aead. cbn [orb].
  change (wt_aead_iv_len aead =? 0) with false. cbn iota.
  assert (0 <= wt_aead_key_len aead) by by destruct aead.
  destruct (wt_hkdf_expand_label_sha256 secret "quic key" [] _) as [key|] eqn:Ek; [|done].
  destruct (wt_hkdf_expand_label_sha256 secret "quic iv" [] _) as [iv|] eqn:Ei; [|done].
  destruct (wt_hkdf_expand_label_sha256 secret "quic hp" [] _) as [hp|] eqn:Eh; [|done]. intros [= <-].
  apply expand_label_ok in Ek as [Ek _]; [|done]. apply expand_label_ok in Ei as [Ei _]; [|done]. apply expand_label_ok in Eh as [Eh _]; [|done].
  split; [by constructor|done].
Qed.

(** A key update changes the secret, the key and the IV, and neither the suite nor the header protection key. *)
Lemma packet_keys_update_ok k k' :
  keys_ok k -> wt_quic_packet_keys_update k = Ok k' ->
  keys_ok k' /\ ks_hp k' = ks_hp k /\ ks_aead k' = ks_aead k /\
  wt_hkdf_expand_label_sha256 (ks_secret k) "quic ku" [] WT_SHA256_LEN = Ok (ks_secret k').
Proof.
  intros Hk. unfold wt_quic_packet_keys_update. destruct (_ <? _); [done|].
  destruct (wt_hkdf_expand_label_sha256 (ks_secret k) _ _ _) as [s|] eqn:Es; [|done].
  destruct (wt_quic_derive_packet_keys s _) as [o|] eqn:Eo; [|done]. intros [= <-]. cbn.
  apply derive_packet_keys_ok in Eo as ([Hs Hky Hiv Hhp] & Ha & Hsec); [|by apply expand_label_ok in Es as [? _]].
  split_and!; [|done|done|by rewrite Hsec]. constructor; cbn; [done|by rewrite Ha in *|done|]. rewrite Ha. apply Hk.
Qed.

Lemma frames_protection_roundtrip k pn aad frames capacity sealed :
  bytes_ok frames -> wt_quic_protect_frames k pn aad frames capacity = Ok sealed ->
  zlen sealed = zlen frames + WT_AEAD_TAG_LEN /\ bytes_ok sealed /\
  wt_quic_unprotect_frames k pn aad (ztake (zlen frames) sealed) (zdrop (zlen frames) sealed) = Ok frames.
Proof.
  intros Hf. unfold wt_quic_protect_frames, wt_quic_unprotect_frames. destruct (_ || _); [done|].
  destruct (aead_seal _ _ _ _ _) as [[c t]|] eqn:E; [|done]. intros [= <-].
  destruct (seal_ok _ _ _ _ _ _ _ Hf E) as (Hc & Hco & Ht & Hto). split_and!.
  - rewrite zlen_app. lia.
  - by apply Forall_app.
  - rewrite <- Hc, ztake_app_exact, zdrop_app_exact by done. by apply open_seal.
Qed.

Lemma retry_integrity_tag_ok odcid packet tag :
  wt_quic_retry_integrity_tag odcid packet = Ok tag -> zlen tag = WT_AEAD_TAG_LEN /\ bytes_ok tag.
Proof.
  unfold wt_quic_retry_integrity_tag. cbv zeta. destruct (_ <? _); [done|]. destruct (_ <? _); [done|].
  destruct (aead_seal _ _ _ _ _) as [[c t]|] eqn:E; [|done]. intros [= <-]. by apply seal_ok in E as (_ & _ & ? & ?); [|constructor].
Qed.

(** A Retry is accepted exactly when its last sixteen bytes are the tag of what precedes them. *)
Lemma retry_integrity_exact odcid packet tag :
  zlen tag = WT_AEAD_TAG_LEN -> bytes_ok tag ->
  wt_quic_retry_integrity_verify odcid (packet ++ tag) =
  match wt_quic_retry_integrity_tag odcid packet with
  | Fail s _ => s
  | Ok expected => if bool_decide (expected = tag) then WT_OK else WT_ERR_AUTHENTICATION
  end.
Proof.
  intros Ht Hok. unfold wt_quic_retry_integrity_verify. cbv zeta. rewrite zlen_app, Ht. pose proof (zlen_nonneg packet).
  rewrite (proj2 (Z.ltb_ge _ _)) by lia. rewrite ztake_app_exact, zdrop_app_exact by lia.
  destruct (wt_quic_retry_integrity_tag odcid packet) as [expected|] eqn:E; [|done].
  apply retry_integrity_tag_ok in E as [Hz He]. pose proof (ct_equal_spec expected tag He Hok ltac:(by rewrite Hz)) as Hc.
  case_bool_decide as Hd; [by rewrite (proj2 Hc Hd)|]. destruct (wt_ct_equal expected tag); [|done]. by destruct Hd; apply Hc.
Qed.
End Frames.
