(* ===== verification/PacketIo.v ===== *)
(** One packet out, one packet in: [src/quic/packet_io.c].  The header codec, the
    packet number codec and the two protections composed: [wt_quic_packet_build]
    and [wt_quic_packet_read], which removes header protection, reconstructs the
    packet number, authenticates and decrypts. *)

From S2P Require Import Prelude Core Cursor Writer Varint PacketNumber Crypto Packet Protection.

Definition WT_QUIC_MAX_PACKET : Z := 1200.
Definition WT_QUIC_MIN_INITIAL_DATAGRAM_SIZE : Z := 1200.

Record wt_quic_packet_build_t := mk_build {
  pb_type : wt_quic_packet_type;
  pb_short_header : bool;
  pb_version : Z;
  pb_destination_connection_id : list Z;
  pb_source_connection_id : list Z;
  pb_token : list Z;
  pb_packet_number : Z;
  pb_packet_number_length : Z;
  pb_key_phase : bool;
  pb_payload : list Z;
  pb_keys : wt_quic_packet_keys }.

Record wt_quic_received_packet := mk_received {
  rx_type : wt_quic_packet_type;
  rx_short_header : bool;
  rx_version : Z;
  rx_destination_connection_id : list Z;
  rx_source_connection_id : list Z;
  rx_packet_number : Z;
  rx_packet_number_length : Z;
  rx_header_len : Z;
  rx_payload : list Z;
  rx_key_phase : bool;
  rx_total_len : Z }.

(** The plaintext, padded to what header protection has to sample. *)
Definition padded_payload (payload : list Z) (packet_number_length : Z) : outcome (list Z) :=
  if u64 (u64 (zlen payload + packet_number_length) + WT_AEAD_TAG_LEN) <? WT_QUIC_HP_SAMPLE_OFFSET + WT_QUIC_HP_SAMPLE_LENGTH then
    let padded_len := u64 (WT_QUIC_HP_SAMPLE_OFFSET + WT_QUIC_HP_SAMPLE_LENGTH - WT_AEAD_TAG_LEN - packet_number_length) in
    if WT_QUIC_HP_SAMPLE_OFFSET <? padded_len then Fail WT_ERR_STATE None
    else Ok (ztake padded_len (write_at (replicate 4 0) 0 payload))
  else Ok payload.

Section PacketIo.
Context {C : Crypto}.

Definition encode_header (params : wt_quic_packet_build_t) (ciphertext_len : Z) (w : wt_writer) : wt_status * wt_writer :=
  if pb_short_header params then
    if negb (zlen (pb_source_connection_id params) =? 0) || negb (zlen (pb_token params) =? 0) then (WT_ERR_INVALID_ARGUMENT, w)
    else wt_quic_short_header_encode (pb_destination_connection_id params) (pb_packet_number params)
           (pb_packet_number_length params) (pb_key_phase params) false [] w
  else wt_quic_long_header_encode_prefix (pb_type params) (pb_version params) (pb_destination_connection_id params)
         (pb_source_connection_id params) (pb_token params) (pb_packet_number params) (pb_packet_number_length params)
         ciphertext_len w.

(** [out] is the caller's buffer; the answer is its first [*out_len] bytes. *)
Definition wt_quic_packet_build (params : wt_quic_packet_build_t) (out : list Z) : outcome (list Z) :=
  let capacity := zlen out in
  let packet_number_length := pb_packet_number_length params in
  if (packet_number_length =? 0) || (4 <? packet_number_length) then Fail WT_ERR_INVALID_ARGUMENT None
  else
    match padded_payload (pb_payload params) packet_number_length with
    | Fail s e => Fail s e
    | Ok plaintext =>
        if SIZE_MAX - WT_AEAD_TAG_LEN <? zlen plaintext then Fail WT_ERR_OVERFLOW None
        else
          let ciphertext_len := zlen plaintext + WT_AEAD_TAG_LEN in
          if capacity <? ciphertext_len then Fail WT_ERR_LIMIT None
          else
            match encode_header params ciphertext_len (wt_writer_init (Some out) capacity) with
            | (WT_OK, w) =>
                let header := writer_bytes w in
                let header_len := w_offset w in
                if capacity - header_len <? ciphertext_len then Fail WT_ERR_LIMIT None
                else
                  match wt_quic_protect_frames (pb_keys params) (pb_packet_number params) header plaintext (capacity - header_len) with
                  | Fail s e => Fail s e
                  | Ok sealed =>
                      wt_quic_protect_header (ks_aead (pb_keys params)) (ks_hp (pb_keys params)) (header ++ sealed)
                        (header_len - packet_number_length) packet_number_length
                  end
            | (status, _) => Fail status None
            end
    end.

(** The datagram without the mask, the offset of the packet number, the
    packet's length, the length of its number and the form of its header. *)
Definition wt_quic_packet_unprotect_header (packet : list Z) (keys : wt_quic_packet_keys) (local_connection_id_len : Z)
    : outcome (list Z * Z * Z * Z * bool) :=
  match wt_quic_protected_pn_offset packet local_connection_id_len with
  | Fail s e => Fail s e
  | Ok (pn_offset, total_len, short_header) =>
      match wt_quic_unprotect_header (ks_aead keys) (ks_hp keys) (ztake total_len packet) pn_offset with
      | Fail s e => Fail s e
      | Ok (unmasked, pn_len) => Ok (unmasked ++ zdrop total_len packet, pn_offset, total_len, pn_len, short_header)
      end
  end.

(** A header that does not parse is a packet to discard, not a violation. *)
Definition discarded {A} (o : outcome A) : outcome A :=
  match o with Fail WT_ERR_PROTOCOL _ => Fail WT_ERR_AUTHENTICATION None | _ => o end.

(** The payload of a packet whose header has been read, authenticated with the
    header as associated data. *)
Definition open_payload (packet : list Z) (keys : wt_quic_packet_keys) (received : wt_quic_received_packet)
    (header_len : Z) (payload : list Z) (reserved_bits_set : bool) : outcome wt_quic_received_packet :=
  let payload_len := zlen payload in
  if payload_len <? WT_AEAD_TAG_LEN then Fail WT_ERR_TRUNCATED None
  else
    match wt_quic_unprotect_frames keys (rx_packet_number received) (ztake header_len packet)
            (zslice header_len (payload_len - WT_AEAD_TAG_LEN) packet) (zdrop (payload_len - WT_AEAD_TAG_LEN) payload) with
    | Fail s e => Fail s e
    | Ok frames =>
        if reserved_bits_set then Fail WT_ERR_PROTOCOL None
        else Ok (mk_received (rx_type received) (rx_short_header received) (rx_version received)
                   (rx_destination_connection_id received) (rx_source_connection_id received) (rx_packet_number received)
                   (rx_packet_number_length received) (rx_header_len received) frames (rx_key_phase received) (rx_total_len received))
    end.

Definition wt_quic_packet_open (packet : list Z) (total_len : Z) (keys : wt_quic_packet_keys)
    (largest_received local_connection_id_len : Z) : outcome wt_quic_received_packet :=
  let packet := ztake total_len packet in
  let cursor := wt_cursor_init (Some packet) total_len in
  if negb (has_bit (byte_at packet 0) WT_QUIC_LONG_HEADER_BIT) then
    match discarded (wt_quic_short_header_decode local_connection_id_len cursor).1 with
    | Fail s e => Fail s e
    | Ok h =>
        let received := mk_received WT_QUIC_PACKET_INITIAL true 0 (sh_destination_connection_id h) []
          (wt_quic_packet_number_decode (sh_packet_number h) (sh_packet_number_len h) largest_received)
          (sh_packet_number_len h) (zlen (sh_header h)) [] (sh_key_phase h) total_len in
        open_payload packet keys received (zlen (sh_header h)) (sh_payload h) (sh_reserved_bits_set h)
    end
  else
    match discarded (wt_quic_long_header_decode cursor).1 with
    | Fail s e => Fail s e
    | Ok h =>
        let received := mk_received (lh_type h) false (lh_version h) (lh_destination_connection_id h)
          (lh_source_connection_id h)
          (wt_quic_packet_number_decode (lh_packet_number h) (lh_packet_number_len h) largest_received)
          (lh_packet_number_len h) (zlen (lh_header h)) [] false total_len in
        open_payload packet keys received (zlen (lh_header h)) (lh_payload h) (lh_reserved_bits_set h)
    end.

Definition wt_quic_packet_read (packet : list Z) (keys : wt_quic_packet_keys)
    (largest_received local_connection_id_len : Z) : outcome wt_quic_received_packet :=
  match wt_quic_packet_unprotect_header packet keys local_connection_id_len with
  | Fail s e => Fail s e
  | Ok (packet, _, total_len, _, _) => wt_quic_packet_open packet total_len keys largest_received local_connection_id_len
  end.
End PacketIo.

(** ** What is sent is what is received *)

(** The frames as they are sent, with the PADDING frames that make the packet long enough. *)
Definition sent_payload (payload : list Z) (pnl : Z) : list Z := payload ++ replicate (Z.to_nat (4 - pnl - zlen payload)) 0.

Lemma padded_payload_spec payload pnl :
  zlen payload < 2 ^ 62 -> 1 <= pnl <= 4 -> padded_payload payload pnl = Ok (sent_payload payload pnl).
Proof.
  intros Hz Hp. pose proof (zlen_nonneg payload) as H0. unfold padded_payload, sent_payload, WT_AEAD_TAG_LEN, WT_QUIC_HP_SAMPLE_OFFSET, WT_QUIC_HP_SAMPLE_LENGTH.
  no_wrap. destruct (Z.ltb_spec (zlen payload + pnl + 16) (4 + 16)) as [Hlt|Hge].
  - cbv zeta. replace (4 + 16 - 16 - pnl) with (4 - pnl) by lia. no_wrap. rewrite (proj2 (Z.ltb_ge _ _)) by lia. f_equal.
    unfold write_at. rewrite ztake_0, Z.add_0_l. cbn [app]. unfold ztake, zdrop, zlen in *.
    rewrite take_app, drop_replicate, take_replicate.  rewrite take_ge by lia. do 2 f_equal. lia.
  - replace (Z.to_nat (4 - pnl - zlen payload)) with 0%nat by lia. by rewrite app_nil_r.
Qed.

Lemma zlen_replicate {A} n (x : A) : zlen (replicate n x) = Z.of_nat n.
Proof. unfold zlen. by rewrite length_replicate. Qed.

Lemma sent_payload_facts payload pnl :
  1 <= pnl <= 4 -> bytes_ok payload ->
  bytes_ok (sent_payload payload pnl) /\ 4 - pnl <= zlen (sent_payload payload pnl) <= zlen payload + 3.
Proof.
  intros Hp Hok. pose proof (zlen_nonneg payload). unfold sent_payload. split.
  - apply Forall_app. split; [done|]. apply Forall_replicate. by unfold is_u8.
  - rewrite zlen_app, zlen_replicate. lia.
Qed.

(** The header on the wire: its first byte, what follows, and the packet number. *)
Definition wire_first (p : wt_quic_packet_build_t) : Z :=
  if pb_short_header p then short_first (pb_packet_number_length p) (pb_key_phase p) false
  else long_first (pb_type p) (pb_packet_number_length p).

Definition wire_middle (p : wt_quic_packet_build_t) : list Z :=
  if pb_short_header p then pb_destination_connection_id p
  else long_middle (pb_type p) (pb_version p) (pb_destination_connection_id p) (pb_source_connection_id p) (pb_token p)
         (pb_packet_number_length p + (zlen (sent_payload (pb_payload p) (pb_packet_number_length p)) + WT_AEAD_TAG_LEN)).

Definition wire_header (p : wt_quic_packet_build_t) : list Z :=
  wire_first p :: wire_middle p ++ pn_wire (pb_packet_number p) (pb_packet_number_length p).

Record build_ok (p : wt_quic_packet_build_t) : Prop := mk_build_ok {
  bo_keys : keys_ok (pb_keys p);
  bo_payload : bytes_ok (pb_payload p) /\ zlen (pb_payload p) < 2 ^ 61;
  bo_number : 0 <= pb_packet_number p <= WT_QUIC_PACKET_NUMBER_MAX;
  bo_length : 1 <= pb_packet_number_length p <= 4;
  bo_form : if pb_short_header p
            then cid_ok (pb_destination_connection_id p) /\ pb_source_connection_id p = [] /\ pb_token p = []
            else long_ok (pb_type p) (pb_version p) (pb_destination_connection_id p) (pb_source_connection_id p) (pb_token p)
                   (pb_packet_number p) (pb_packet_number_length p)
                   (zlen (sent_payload (pb_payload p) (pb_packet_number_length p)) + WT_AEAD_TAG_LEN) /\
                 pb_version p <> WT_QUIC_VERSION_NEGOTIATION }.

(** What the receiver is handed. *)
Definition received_of (p : wt_quic_packet_build_t) : wt_quic_received_packet :=
  let short := pb_short_header p in
  let payload := sent_payload (pb_payload p) (pb_packet_number_length p) in
  mk_received (if short then WT_QUIC_PACKET_INITIAL else pb_type p) short (if short then 0 else pb_version p)
    (pb_destination_connection_id p) (if short then [] else pb_source_connection_id p) (pb_packet_number p)
    (pb_packet_number_length p) (zlen (wire_header p)) payload (short && pb_key_phase p)
    (zlen (wire_header p) + zlen payload + WT_AEAD_TAG_LEN).

Lemma encodes_header p :
  build_ok p -> encodes (encode_header p (zlen (sent_payload (pb_payload p) (pb_packet_number_length p)) + WT_AEAD_TAG_LEN)) (wire_header p).
Proof.
  intros [_ _ Hn Hl Hf]. unfold encode_header, wire_header, wire_first, wire_middle. destruct (pb_short_header p).
  - destruct Hf as (Hd & -> & ->). cbn [zlen length negb orb]. rewrite <- (app_nil_r (short_first _ _ _ :: _)).
    apply encodes_short; [done|lia|done].
  - destruct Hf as [Hf _]. pose proof (encodes_long _ _ _ _ _ _ _ None _ Hf) as He. cbn [default id] in He. by rewrite app_nil_r in He.
Qed.

Lemma wire_first_facts p :
  build_ok p -> is_u8 (wire_first p) /\ Z.land (wire_first p) 0x03 + 1 = pb_packet_number_length p /\
  has_bit (wire_first p) 0x80 = negb (pb_short_header p).
Proof.
  intros [_ _ _ Hl Hf]. unfold wire_first. destruct (pb_short_header p).
  - destruct (short_first_facts (pb_packet_number_length p) (pb_key_phase p) false Hl) as (Hb & _ & _ & _ & _ & H & _).
    unfold short_first in *. split_and!; [|done|exact Hb]. unfold is_u8. destruct (pb_key_phase p); lia.
  - destruct Hf as [[Ht _ _ _ _ _ _ _ _ _] _]. by destruct (long_first_facts (pb_type p) _ Ht Hl) as (? & ? & _ & _ & ? & _).
Qed.

Lemma wire_header_size p : build_ok p -> zlen (wire_header p) = 1 + zlen (wire_middle p) + pb_packet_number_length p.
Proof.
  intros [_ _ Hn Hl _]. unfold wire_header. destruct (pn_wire_spec (pb_packet_number p) _ ltac:(lia) Hl) as [Hz _].
  rewrite zlen_cons, zlen_app, Hz. lia.
Qed.

Lemma wire_header_ok p : build_ok p -> bytes_ok (wire_header p).
Proof.
  intros Hp. pose proof (encodes_header p Hp). destruct (wire_first_facts p Hp) as (Hb & _). destruct Hp as [_ _ Hn Hl Hf].
  destruct (pn_wire_spec (pb_packet_number p) _ ltac:(lia) Hl) as (_ & Hpn & _).
  unfold wire_header. constructor; [done|]. apply Forall_app. split; [|done]. unfold wire_middle. destruct (pb_short_header p); [apply Hf|].
  destruct Hf as [[_ _ [Hd Hdz] [Hs Hsz] [Ht Htz] _ _ _ _ Hlen] _]. unfold long_middle, cid_wire, WT_QUIC_MAX_CID_LEN in *.
  pose proof (zlen_nonneg (pb_destination_connection_id p)). pose proof (zlen_nonneg (pb_source_connection_id p)).
  rewrite store_be32_spec. split_bytes_ok; solve [done|apply be_bytes_ok|apply varint_bytes_ok].
Qed.

Section Sent.
Context {C : Crypto} {L : CryptoLaws C}.

(** Only the crypto can refuse a packet there is room for. *)
Definition crypto_failed (p : wt_quic_packet_build_t) (s : wt_status) (e : option Z) : Prop :=
  (exists nonce aad plain, aead_seal (ks_aead (pb_keys p)) (ks_key (pb_keys p)) nonce aad plain = Fail s e) \/
  (exists sample, wt_quic_header_protection_mask (ks_aead (pb_keys p)) (ks_hp (pb_keys p)) sample = Fail s e).

Lemma packet_built p out :
  build_ok p -> zlen out < 2 ^ 62 ->
  let payload := sent_payload (pb_payload p) (pb_packet_number_length p) in
  zlen (wire_header p) + zlen payload + WT_AEAD_TAG_LEN <= zlen out ->
  match wt_quic_packet_build p out with
  | Fail s e => crypto_failed p s e
  | Ok d => exists b pnb sealed,
      d = b :: wire_middle p ++ pnb ++ sealed /\ zlen sealed = zlen payload + WT_AEAD_TAG_LEN /\
      is_u8 b /\ has_bit b 0x80 = negb (pb_short_header p) /\ (has_bit b 0x80 = true -> b / 16 = wire_first p / 16) /\
      zlen pnb = pb_packet_number_length p /\ bytes_ok pnb /\ bytes_ok sealed /\
      wt_quic_unprotect_header (ks_aead (pb_keys p)) (ks_hp (pb_keys p)) d (1 + zlen (wire_middle p)) =
        Ok (wire_header p ++ sealed, pb_packet_number_length p) /\
      wt_quic_unprotect_frames (pb_keys p) (pb_packet_number p) (wire_header p) (ztake (zlen payload) sealed)
        (zdrop (zlen payload) sealed) = Ok payload
  end.
Proof.
  intros Hp Hout payload Hroom. destruct (wire_first_facts p Hp) as (Hb & Hpn & Hshort). pose proof (wire_header_size p Hp) as Hhz.
  pose proof Hp as [_ [Hpl Hplz] Hn Hl _]. destruct (sent_payload_facts _ _ Hl Hpl) as [Hs Hsz]. fold payload in Hs, Hsz.
  destruct (pn_wire_spec (pb_packet_number p) _ ltac:(lia) Hl) as (Hpnz & Hpnok & _).
  unfold wt_quic_packet_build. rewrite (proj2 (Z.eqb_neq _ 0)), (proj2 (Z.ltb_ge 4 _)) by lia. cbn [orb].
  rewrite padded_payload_spec by lia. fold payload. unfold WT_AEAD_TAG_LEN in *. pose proof (zlen_nonneg (wire_middle p)).
  rewrite (proj2 (Z.ltb_ge (SIZE_MAX - 16) _)) by (unfold SIZE_MAX, U64_MAX; lia). cbv zeta. rewrite (proj2 (Z.ltb_ge (zlen out) _)) by lia.
  set (w := wt_writer_init (Some out) (zlen out)).
  assert (Hw : writer_inv w) by (apply writer_init_inv; lia).
  destruct (encodes_bytes _ _ w (encodes_header p Hp) Hw eq_refl eq_refl) as [He1 He2].
  { change (writer_room w) with (zlen out - 0). lia. }
  assert (Hoff : w_offset (encode_header p (zlen payload + 16) w).2 = zlen (wire_header p)).
  { pose proof (encodes_header p Hp w Hw eq_refl) as He. fold payload in He. change (writer_room w) with (zlen out - 0) in He.
    unfold WT_AEAD_TAG_LEN in He. rewrite (proj2 (Z.leb_le _ _)) in He by lia. rewrite He. cbn [snd].
    pose proof (appends_run _ _ w (appends_put (wire_header p)) Hw eq_refl) as Hf. change (writer_room w) with (zlen out - 0) in Hf.
    by destruct (Hf ltac:(lia)) as (_ & _ & -> & _). }
  fold payload in He1, He2. unfold WT_AEAD_TAG_LEN in He1, He2. destruct (encode_header p _ w) as [st w'] eqn:Ee. cbn [fst snd] in He1, He2, Hoff. subst st.
  assert (Hwb : writer_bytes w = []) by done. rewrite Hwb in He2. cbn [app] in He2. rewrite He2, Hoff. rewrite (proj2 (Z.ltb_ge (zlen out - _) _)) by lia.
  destruct (wt_quic_protect_frames _ _ _ _ _) as [sealed|s e] eqn:Ef.
  2:{ left. unfold wt_quic_protect_frames in Ef. rewrite !(proj2 (Z.ltb_ge _ _)) in Ef by (unfold WT_AEAD_TAG_LEN; lia). cbn [orb] in Ef.
      destruct (aead_seal _ _ _ _ _) as [[]|] eqn:Ea; [done|]. simplify_eq. eauto. }
  destruct (frames_protection_roundtrip _ _ _ _ _ _ Hs Ef) as (Hsl & Hso & Hu).
  assert (Hh : wire_header p ++ sealed = wire_first p :: wire_middle p ++ pn_wire (pb_packet_number p) (pb_packet_number_length p) ++ sealed).
  { unfold wire_header. by rewrite <- app_comm_cons, <- app_assoc. }
  replace (zlen (wire_header p) - pb_packet_number_length p) with (1 + zlen (wire_middle p)) by lia.
  destruct (wt_quic_header_protection_mask (ks_aead (pb_keys p)) (ks_hp (pb_keys p))
    (zslice (4 - zlen (pn_wire (pb_packet_number p) (pb_packet_number_length p))) 16 sealed)) as [mask|s e] eqn:Em.
  - destruct (header_protection_roundtrip (ks_aead (pb_keys p)) (ks_hp (pb_keys p)) (wire_first p) (wire_middle p)
      (pn_wire (pb_packet_number p) (pb_packet_number_length p)) sealed mask) as (b & pnb & H1 & H2 & H3 & H4 & H5 & H6 & H7);
      [done|done|lia|unfold WT_AEAD_TAG_LEN in *; lia| |done|].
    { rewrite zlen_cons, !zlen_app. unfold SIZE_MAX, U64_MAX, WT_AEAD_TAG_LEN in *. lia. }
    rewrite Hpnz in *. rewrite Hh, H1.
    exists b, pnb, sealed. rewrite Hshort in *. split_and!; try done; [by rewrite H4|by auto|by rewrite Hh, H2].
  - rewrite Hh. unfold wt_quic_protect_header.
    rewrite (packet_sample (wire_first p) (wire_middle p) (pn_wire (pb_packet_number p) (pb_packet_number_length p)) sealed)
      by (unfold SIZE_MAX, U64_MAX, WT_AEAD_TAG_LEN in *; rewrite ?zlen_cons, ?zlen_app, ?Hpnz; lia).
    rewrite Em. rewrite zlen_cons, !zlen_app, Hpnz. unfold WT_AEAD_TAG_LEN in *.
    rewrite (proj2 (Z.eqb_neq _ 0)), (proj2 (Z.ltb_ge 4 _)), (proj2 (Z.leb_gt _ _)), (proj2 (Z.ltb_ge _ (pb_packet_number_length p))) by lia. cbn [orb]. right. eauto.
Qed.
End Sent.

Lemma protected_found p b pnb sealed tl local :
  build_ok p -> is_u8 b -> has_bit b 0x80 = negb (pb_short_header p) ->
  (has_bit b 0x80 = true -> b / 16 = wire_first p / 16) -> bytes_ok pnb -> zlen pnb = pb_packet_number_length p ->
  bytes_ok sealed -> zlen sealed = zlen (sent_payload (pb_payload p) (pb_packet_number_length p)) + WT_AEAD_TAG_LEN -> bytes_ok tl ->
  let d := b :: wire_middle p ++ pnb ++ sealed in
  (if pb_short_header p then tl = [] /\ local = zlen (pb_destination_connection_id p) else True) -> zlen (d ++ tl) < 2 ^ 64 ->
  wt_quic_protected_pn_offset (d ++ tl) local = Ok (1 + zlen (wire_middle p), zlen d, pb_short_header p).
Proof.
  intros Hp Hb Hl Hq Hpnb Hz Hs Hsz Htl d Hloc Hsmall. assert (Hmid : bytes_ok (wire_middle p)).
  { pose proof (wire_header_ok p Hp) as H. apply Forall_cons in H as [_ H]. by apply Forall_app in H as [? _]. }
  pose proof (wire_header_size p Hp) as Hhz. pose proof (zlen_nonneg (wire_middle p)) as Hmz. pose proof (zlen_nonneg sealed).
  pose proof Hp as [_ _ _ Hlen Hf]. subst d; unfold wire_middle, wire_first in *. destruct (pb_short_header p).
  - destruct Hloc as [-> ->]. destruct Hf as ([_ Hdz] & _ & _). rewrite app_nil_r. unfold wt_quic_protected_pn_offset. cbv zeta.
    set (d' := b :: _) in *. assert (Hd : zlen d' = 1 + zlen (pb_destination_connection_id p) + zlen pnb + zlen sealed) by (unfold d'; rewrite zlen_cons, !zlen_app; lia).
    pose proof (zlen_nonneg (pb_destination_connection_id p)). rewrite (proj2 (Z.eqb_neq _ 0)) by lia. change (byte_at d' 0) with b. unfold WT_QUIC_LONG_HEADER_BIT. rewrite Hl. cbn [negb].
    rewrite (proj2 (Z.ltb_ge _ _)) by done. by rewrite (proj2 (Z.ltb_ge _ _)) by lia.
  - destruct Hf as [Hf Hv]. set (pl := zlen (sent_payload _ _) + WT_AEAD_TAG_LEN) in *.
    pose proof (protected_walk _ _ _ _ _ _ _ _ b pnb (sealed ++ tl) local Hf Hv Hb (Hq Hl) ltac:(rewrite !zlen_app; pose proof (zlen_nonneg tl); lia)) as E.
    cbv zeta in E. rewrite <- app_comm_cons, <- !app_assoc. rewrite <- app_comm_cons in E. rewrite E.
    + rewrite !zlen_cons, !zlen_app, Hsz, Hz. do 3 f_equal; lia.
    + split; [|rewrite <- app_comm_cons, <- !app_assoc in Hsmall; rewrite <- ?app_comm_cons; exact Hsmall].
      rewrite app_comm_cons. apply Forall_app; split; [by constructor|]. apply Forall_app; split; [done|by apply Forall_app].
Qed.

Section Roundtrip.
Context {C : Crypto} {L : CryptoLaws C}.

(** Opening the packet whose protection is off. *)
Lemma open_wire p sealed tl lr local total :
  build_ok p -> let payload := sent_payload (pb_payload p) (pb_packet_number_length p) in
  bytes_ok sealed -> zlen sealed = zlen payload + WT_AEAD_TAG_LEN -> total = zlen (wire_header p ++ sealed) -> total < 2 ^ 64 ->
  (if pb_short_header p then local = zlen (pb_destination_connection_id p) else True) ->
  let half := 2 ^ (8 * pb_packet_number_length p) / 2 in
  0 <= lr <= WT_QUIC_PACKET_NUMBER_MAX -> lr + 1 - half < pb_packet_number p <= lr + 1 + half ->
  wt_quic_unprotect_frames (pb_keys p) (pb_packet_number p) (wire_header p) (ztake (zlen payload) sealed) (zdrop (zlen payload) sealed) = Ok payload ->
  wt_quic_packet_open ((wire_header p ++ sealed) ++ tl) total (pb_keys p) lr local = Ok (received_of p).
Proof.
  intros Hp payload Hs Hsz -> Htot Hloc half Hlr Hwin Hopen. pose proof (wire_header_ok p Hp) as Hhok.
  destruct (wire_first_facts p Hp) as (Hb & _ & Hshort). pose proof Hp as [_ _ Hn Hl Hf].
  pose proof (decode_window _ _ _ Hl Hn Hlr Hwin) as Hdec. pose proof (zlen_nonneg payload) as Hpz.
  assert (Hblock : block_ok (wire_header p ++ sealed)) by (split; [by apply Forall_app|done]).
  assert (Hpay : forall rx, open_payload (wire_header p ++ sealed) (pb_keys p) rx (zlen (wire_header p)) sealed false =
    match wt_quic_unprotect_frames (pb_keys p) (rx_packet_number rx) (wire_header p) (ztake (zlen payload) sealed) (zdrop (zlen payload) sealed) with
    | Fail s e => Fail s e
    | Ok frames => Ok (mk_received (rx_type rx) (rx_short_header rx) (rx_version rx) (rx_destination_connection_id rx) (rx_source_connection_id rx)
        (rx_packet_number rx) (rx_packet_number_length rx) (rx_header_len rx) frames (rx_key_phase rx) (rx_total_len rx))
    end).
  { intros rx. unfold open_payload. cbv zeta. rewrite Hsz. rewrite (proj2 (Z.ltb_ge _ _)) by lia. rewrite Z.add_simpl_r.
    unfold zslice. by rewrite ztake_app_exact, zdrop_app_exact by done. }
  unfold wt_quic_packet_open. rewrite ztake_app_exact by done. change (byte_at (wire_header p ++ sealed) 0) with (wire_first p).
  unfold WT_QUIC_LONG_HEADER_BIT. rewrite Hshort, negb_involutive. unfold received_of. fold payload.
  replace (zlen (wire_header p) + zlen payload + WT_AEAD_TAG_LEN) with (zlen (wire_header p ++ sealed)) by (rewrite zlen_app; lia).
  unfold wire_header, wire_first, wire_middle in *. destruct (pb_short_header p).
  - destruct Hf as (Hd & _ & _). subst local.
    pose proof (short_decoded _ _ _ (pb_key_phase p) false sealed Hd (proj1 Hn) Hl Hblock) as E. cbv zeta in E.
    unfold short_header_wire in E. rewrite E. cbn [discarded sh_destination_connection_id sh_packet_number sh_packet_number_len sh_header sh_payload sh_key_phase sh_reserved_bits_set].
    rewrite Hdec, Hpay. cbn [rx_packet_number]. by rewrite Hopen.
  - destruct Hf as [Hf Hv]. fold payload in Hf, Hblock, Hpay, Hopen |- *. rewrite <- Hsz in Hf. pose proof (decodes_long_header _ _ _ _ _ _ _ sealed Hf) as E. unfold long_header_of, long_header_wire in E. rewrite Hsz in E.
    destruct Hblock as [Hbok Hbz]. pose proof (decodes_whole _ _ _ E Hbz Hbok) as E'. rewrite E'.
    cbn [fst discarded lh_type lh_version lh_destination_connection_id lh_source_connection_id lh_packet_number lh_packet_number_len lh_header lh_payload lh_reserved_bits_set].
    rewrite Hdec, Hpay. cbn [rx_packet_number]. by rewrite Hopen.
Qed.
End Roundtrip.


(** Application data of two bytes in a short packet, padded to be sampled. *)
Definition sample_packet : wt_quic_packet_build_t :=
  mk_build WT_QUIC_PACKET_INITIAL true 0 [9; 8] [] [] 0x1234 1 true [1] (mk_keys (replicate 32 7) (replicate 16 1) (replicate 12 2) (replicate 16 3) WT_AEAD_AES_128_GCM).


(** ** Nothing unauthenticated *)

Section Authenticated.
Context {C : Crypto}.

Definition authenticates (keys : wt_quic_packet_keys) (number : Z) (header frames : list Z) : Prop :=
  exists ciphertext tag, aead_open (ks_aead keys) (ks_key keys) (wt_quic_packet_nonce (ks_iv keys) number) header ciphertext tag = Ok frames.

(** What an answer of the receive path says about the packet. *)
Definition vouched (packet : list Z) (keys : wt_quic_packet_keys) (o : outcome wt_quic_received_packet) : Prop :=
  match o with
  | Ok r => authenticates keys (rx_packet_number r) (ztake (rx_header_len r) packet) (rx_payload r)
  | Fail WT_ERR_PROTOCOL _ => exists number n frames, authenticates keys number (ztake n packet) frames
  | Fail _ _ => True
  end.

Lemma open_payload_vouched {L : CryptoLaws C} packet keys rx payload reserved :
  vouched packet keys (open_payload packet keys rx (rx_header_len rx) payload reserved).
Proof.
  unfold open_payload. cbv zeta. destruct (_ <? _); [done|]. destruct (wt_quic_unprotect_frames _ _ _ _ _) as [frames|s e] eqn:E.
  - assert (authenticates keys (rx_packet_number rx) (ztake (rx_header_len rx) packet) frames) by (eexists _, _; exact E).
    destruct reserved; cbn; [by eexists _, _, _|done].
  - destruct s; try done. by apply open_status in E.
Qed.

Lemma discarded_vouched {A} packet keys (o : outcome A) s e : discarded o = Fail s e -> vouched packet keys (Fail s e).
Proof. destruct o as [|[] ?]; cbn; intros [= <- <-]; done. Qed.
End Authenticated.



(** The step before is not so careful: a long header whose connection ID claims
    more than twenty bytes is reported as a violation under any keys. *)
Lemma unauthenticated_violation {C : Crypto} keys lr local :
  wt_quic_packet_read [0xc0; 0; 0; 0; 1; 21] keys lr local = Fail WT_ERR_PROTOCOL None.
Proof. reflexivity. Qed.
