(* ===== verification/RetryToken.v ===== *)
(** Retry tokens: [src/quic/retry_token.c].  A token carries the time it was
    issued, the padded address it was issued for and the connection ID the client
    first used, under a truncated HMAC; a server keeps nothing of it. *)

From S2P Require Import Prelude Core Crypto Packet.

Definition WT_QUIC_RETRY_TOKEN_SECRET_LEN : Z := 32.
Definition WT_QUIC_RETRY_TOKEN_ADDRESS_MAX : Z := 32.
Definition WT_QUIC_RETRY_TOKEN_TAG_LEN : Z := 16.
Definition WT_QUIC_RETRY_TOKEN_MAX : Z := 78.
Definition WT_QUIC_RETRY_TOKEN_FORMAT : Z := 0x01.
Definition WT_QUIC_RETRY_TOKEN_OFFSET_FORMAT : Z := 0.
Definition WT_QUIC_RETRY_TOKEN_OFFSET_TIME : Z := 1.
Definition WT_QUIC_RETRY_TOKEN_OFFSET_ADDRESS : Z := 9.
Definition WT_QUIC_RETRY_TOKEN_ADDRESS_LENGTH : Z := WT_QUIC_RETRY_TOKEN_OFFSET_ADDRESS + WT_QUIC_RETRY_TOKEN_ADDRESS_MAX.
Definition WT_QUIC_RETRY_TOKEN_OFFSET_ODCID_LENGTH : Z := WT_QUIC_RETRY_TOKEN_ADDRESS_LENGTH.
Definition WT_QUIC_RETRY_TOKEN_OFFSET_ODCID : Z := WT_QUIC_RETRY_TOKEN_OFFSET_ODCID_LENGTH + 1.

(** The address in the thirty-two zeroed bytes. *)
Definition padded_address (address : list Z) : list Z := write_at (replicate 32 0) 0 address.

Definition token_body_header (now : Z) (address : list Z) : list Z :=
  WT_QUIC_RETRY_TOKEN_FORMAT :: wt_store_be64 now ++ padded_address address.

Section Token.
Context {C : Crypto}.

Definition token_tag (secret body : list Z) : outcome (list Z) :=
  match hmac_sha256 secret body with
  | Fail s e => Fail s e
  | Ok mac => Ok (ztake WT_QUIC_RETRY_TOKEN_TAG_LEN mac)
  end.

Definition wt_quic_retry_token_build (secret address original_destination_id : list Z) (now capacity : Z)
    : outcome (list Z) :=
  let address_length := zlen address in
  let original_length := zlen original_destination_id in
  if (address_length =? 0) || (WT_QUIC_RETRY_TOKEN_ADDRESS_MAX <? address_length) then Fail WT_ERR_INVALID_ARGUMENT None
  else if (original_length =? 0) || (WT_QUIC_MAX_CID_LEN <? original_length) then Fail WT_ERR_INVALID_ARGUMENT None
  else
    let body_length := WT_QUIC_RETRY_TOKEN_OFFSET_ODCID + original_length in
    if capacity <? body_length + WT_QUIC_RETRY_TOKEN_TAG_LEN then Fail WT_ERR_LIMIT None
    else if WT_QUIC_RETRY_TOKEN_MAX <? body_length + WT_QUIC_RETRY_TOKEN_TAG_LEN then Fail WT_ERR_LIMIT None
    else
      let body := token_body_header now address ++ [u8 original_length] ++ original_destination_id in
      match token_tag secret body with
      | Fail s e => Fail s e
      | Ok tag => Ok (body ++ tag)
      end.

Definition wt_quic_retry_token_validate (secret address : list Z) (now max_age : Z) (token : list Z) (capacity : Z)
    : outcome (list Z) :=
  let address_length := zlen address in
  let token_length := zlen token in
  if (address_length =? 0) || (WT_QUIC_RETRY_TOKEN_ADDRESS_MAX <? address_length) then Fail WT_ERR_INVALID_ARGUMENT None
  else if (token_length <? WT_QUIC_RETRY_TOKEN_OFFSET_ODCID + 1 + WT_QUIC_RETRY_TOKEN_TAG_LEN) ||
          (WT_QUIC_RETRY_TOKEN_MAX <? token_length) then Fail WT_ERR_AUTHENTICATION None
  else if negb (byte_at token (Z.to_nat WT_QUIC_RETRY_TOKEN_OFFSET_FORMAT) =? WT_QUIC_RETRY_TOKEN_FORMAT)
  then Fail WT_ERR_AUTHENTICATION None
  else
    let original_length := byte_at token (Z.to_nat WT_QUIC_RETRY_TOKEN_OFFSET_ODCID_LENGTH) in
    if (original_length =? 0) || (WT_QUIC_MAX_CID_LEN <? original_length) then Fail WT_ERR_AUTHENTICATION None
    else
      let body_length := WT_QUIC_RETRY_TOKEN_OFFSET_ODCID + original_length in
      if negb (body_length + WT_QUIC_RETRY_TOKEN_TAG_LEN =? token_length) then Fail WT_ERR_AUTHENTICATION None
      else
        match token_tag secret (ztake body_length token) with
        | Fail s e => Fail s e
        | Ok expected =>
            if negb (wt_ct_equal expected (zslice body_length WT_QUIC_RETRY_TOKEN_TAG_LEN token))
            then Fail WT_ERR_AUTHENTICATION None
            else if negb (bool_decide (padded_address address =
                            zslice WT_QUIC_RETRY_TOKEN_OFFSET_ADDRESS WT_QUIC_RETRY_TOKEN_ADDRESS_MAX token))
            then Fail WT_ERR_AUTHENTICATION None
            else
              let issued_at := wt_load_be64 (zslice WT_QUIC_RETRY_TOKEN_OFFSET_TIME 8 token) in
              if negb (max_age =? 0) && ((now <? issued_at) || (max_age <? now - issued_at)) then Fail WT_ERR_STATE None
              else if capacity <? original_length then Fail WT_ERR_LIMIT None
              else Ok (zslice WT_QUIC_RETRY_TOKEN_OFFSET_ODCID original_length token)
        end.
End Token.

(** ** The token on the wire *)

Definition address_ok (address : list Z) : Prop := bytes_ok address /\ 1 <= zlen address <= WT_QUIC_RETRY_TOKEN_ADDRESS_MAX.
Definition original_ok (id : list Z) : Prop := bytes_ok id /\ 1 <= zlen id <= WT_QUIC_MAX_CID_LEN.

Definition token_body (issued : Z) (address id : list Z) : list Z := token_body_header issued address ++ [zlen id] ++ id.

Lemma padded_address_eq address :
  zlen address <= 32 -> padded_address address = address ++ replicate (Z.to_nat (32 - zlen address)) 0.
Proof.
  intros H. unfold padded_address, write_at. rewrite ztake_0, Z.add_0_l. cbn [app]. f_equal.
  unfold zdrop. rewrite drop_replicate. f_equal. unfold zlen in *. lia.
Qed.

Lemma padded_address_ok address : address_ok address -> bytes_ok (padded_address address) /\ zlen (padded_address address) = 32.
Proof.
  intros [Hok Hz]. unfold WT_QUIC_RETRY_TOKEN_ADDRESS_MAX in Hz. rewrite padded_address_eq by lia. split.
  - apply Forall_app. split; [done|]. apply Forall_replicate. by unfold is_u8.
  - rewrite zlen_app. unfold zlen at 2. rewrite length_replicate. lia.
Qed.

Lemma token_body_ok issued address id :
  address_ok address -> original_ok id -> bytes_ok (token_body issued address id) /\ zlen (token_body issued address id) = 42 + zlen id.
Proof.
  intros Ha [Hid Hz]. destruct (padded_address_ok address Ha) as [Hp Hpz]. unfold WT_QUIC_MAX_CID_LEN in Hz.
  unfold token_body, token_body_header. rewrite store_be64_spec. split.
  - split_bytes_ok; done || apply be_bytes_ok.
  - rewrite zlen_app, zlen_cons, zlen_app, zlen_be_bytes, Hpz, zlen_app, zlen_cons, zlen_nil. lia.
Qed.

(** The fields are where the offsets say. *)
Lemma token_fields issued address id tail :
  is_u64 issued -> address_ok address -> original_ok id ->
  let token := token_body issued address id ++ tail in
  byte_at token 0 = WT_QUIC_RETRY_TOKEN_FORMAT /\ byte_at token 41 = zlen id /\
  wt_load_be64 (zslice 1 8 token) = issued /\ zslice 9 32 token = padded_address address /\
  zslice 42 (zlen id) token = id /\ ztake (42 + zlen id) token = token_body issued address id /\
  zslice (42 + zlen id) (zlen tail) token = tail.
Proof.
  intros Hi Ha Hid token. destruct (padded_address_ok address Ha) as [Hp Hpz]. destruct (token_body_ok issued address id Ha Hid) as [_ Hbz].
  assert (Ht : token = WT_QUIC_RETRY_TOKEN_FORMAT :: wt_store_be64 issued ++ padded_address address ++ [zlen id] ++ id ++ tail).
  { unfold token, token_body, token_body_header. by rewrite <- !app_comm_cons, <- !app_assoc. }
  assert (H1 : forall k, zdrop 1 (WT_QUIC_RETRY_TOKEN_FORMAT :: k) = k) by done.
  assert (Hs : zlen (wt_store_be64 issued) = 8) by by rewrite store_be64_spec, zlen_be_bytes.
  assert (H9 : zdrop 9 token = padded_address address ++ [zlen id] ++ id ++ tail).
  { change 9 with (1 + 8). rewrite <- zdrop_zdrop by lia. rewrite Ht, H1. by apply zdrop_app_exact. }
  assert (H41 : zdrop 41 token = [zlen id] ++ id ++ tail).
  { change 41 with (9 + 32). rewrite <- zdrop_zdrop by lia. rewrite H9. by apply zdrop_app_exact. }
  assert (H42 : zdrop 42 token = id ++ tail).
  { change 42 with (41 + 1). rewrite <- zdrop_zdrop by lia. by rewrite H41. }
  split_and!.
  - by rewrite Ht.
  - unfold byte_at. change 41%nat with (41 + 0)%nat. rewrite <- lookup_drop. change (drop 41 token) with (zdrop 41 token). by rewrite H41.
  - unfold zslice. rewrite Ht, H1, ztake_app_exact by done. rewrite store_be64_spec. unfold is_u64 in Hi.
    change (be_bytes 8 issued) with (be_bytes 8 issued). rewrite <- (be_value_bytes 8 issued) at 2 by lia.
    pose proof (be_bytes_ok 8 issued) as Hok. revert Hok. cbn [be_bytes app]. apply load_be64_spec.
  - unfold zslice. by rewrite H9, ztake_app_exact.
  - unfold zslice. by rewrite H42, ztake_app_exact.
  - by apply ztake_app_exact.
  - unfold zslice, token. rewrite zdrop_app_exact by done. apply ztake_all. lia.
Qed.

Lemma ztake_split {A} (l : list A) a b : 0 <= a -> 0 <= b -> ztake (a + b) l = ztake a l ++ zslice a b l.
Proof.
  intros. unfold zslice, ztake, zdrop. rewrite <- (take_drop (Z.to_nat a) l) at 1. rewrite Z2Nat.inj_add by lia.
  rewrite take_app, take_take, Nat.min_r by lia. f_equal. rewrite length_take.
  destruct (Nat.le_gt_cases (Z.to_nat a) (length l)); [f_equal; lia|]. by rewrite drop_ge, !take_nil by lia.
Qed.

Lemma zslice_one (l : list Z) i : 0 <= i < zlen l -> zslice i 1 l = [byte_at l (Z.to_nat i)].
Proof.
  intros H. unfold zslice, zdrop, ztake, byte_at, zlen in *. destruct (l !! Z.to_nat i) as [x|] eqn:E.
  - by rewrite (drop_S _ _ _ E).
  - apply lookup_ge_None in E. lia.
Qed.

Lemma store_load_be64 bs : bytes_ok bs -> zlen bs = 8 -> wt_store_be64 (wt_load_be64 bs) = bs /\ is_u64 (wt_load_be64 bs).
Proof.
  intros Hok Hz. pose proof (be_value_bound bs Hok) as Hb. rewrite Hz in Hb. pose proof (be_bytes_value bs Hok) as Hv.
  unfold zlen in Hz. replace (length bs) with 8%nat in Hv by lia.
  assert (wt_load_be64 bs = be_value bs) as ->.
  { do 8 (destruct bs as [|? bs]; [done|]). destruct bs; [|cbn in Hz; lia]. by apply load_be64_spec. }
  rewrite store_be64_spec. split; [done|]. unfold is_u64. lia.
Qed.

(** Any bytes with the right lengths are a body. *)
Lemma token_parsed token n :
  bytes_ok token -> 1 <= n <= 20 -> 42 + n <= zlen token -> byte_at token 0 = WT_QUIC_RETRY_TOKEN_FORMAT -> byte_at token 41 = n ->
  let issued := wt_load_be64 (zslice 1 8 token) in
  is_u64 issued /\ zlen (zslice 42 n token) = n /\
  ztake (42 + n) token = WT_QUIC_RETRY_TOKEN_FORMAT :: wt_store_be64 issued ++ zslice 9 32 token ++ [n] ++ zslice 42 n token.
Proof.
  intros Hok Hn Hz H0 H41 issued. assert (Hs : forall o k, bytes_ok (zslice o k token)) by (intros; unfold zslice; by apply Forall_ztake, Forall_zdrop).
  destruct (store_load_be64 (zslice 1 8 token) (Hs 1 8) ltac:(rewrite zlen_zslice; lia)) as [Hst Hu]. fold issued in Hst, Hu.
  split; [done|]. split; [rewrite zlen_zslice; lia|]. rewrite Hst.
  rewrite (ztake_split token 42 n) by lia. change (ztake 42 token) with (ztake (41 + 1) token). rewrite (ztake_split token 41 1) by lia.
  change (ztake 41 token) with (ztake (9 + 32) token). rewrite (ztake_split token 9 32) by lia.
  change (ztake 9 token) with (ztake (1 + 8) token). rewrite (ztake_split token 1 8) by lia.
  change (ztake 1 token) with (ztake (0 + 1) token). rewrite (ztake_split token 0 1) by lia.
  rewrite ztake_0, (zslice_one token 0), (zslice_one token 41) by lia. change (Z.to_nat 0) with 0%nat. change (Z.to_nat 41) with 41%nat.
  rewrite H0, H41. by rewrite <- !app_assoc.
Qed.

Section Exact.
Context {C : Crypto} {L : CryptoLaws C}.

Definition expired (now max_age issued : Z) : bool := negb (max_age =? 0) && ((now <? issued) || (max_age <? now - issued)).

Lemma token_tag_ok secret body tag : token_tag secret body = Ok tag -> zlen tag = 16 /\ bytes_ok tag.
Proof.
  unfold token_tag. destruct (hmac_sha256 secret body) as [mac|] eqn:E; [|done]. intros [= <-]. destruct (hmac_ok _ _ _ E) as [Hz Hok].
  unfold WT_SHA256_LEN, WT_QUIC_RETRY_TOKEN_TAG_LEN in *. split; [rewrite zlen_ztake; lia|by apply Forall_ztake].
Qed.

(** What [build] answers, given the room. *)
Lemma build_spec secret address id now capacity :
  address_ok address -> original_ok id -> 58 + zlen id <= capacity ->
  wt_quic_retry_token_build secret address id now capacity =
  match token_tag secret (token_body now address id) with Fail s e => Fail s e | Ok tag => Ok (token_body now address id ++ tag) end.
Proof.
  intros [_ Ha] [_ Hi] Hc. unfold WT_QUIC_RETRY_TOKEN_ADDRESS_MAX, WT_QUIC_MAX_CID_LEN in *. unfold wt_quic_retry_token_build. cbv zeta.
  unfold WT_QUIC_RETRY_TOKEN_OFFSET_ODCID, WT_QUIC_RETRY_TOKEN_OFFSET_ODCID_LENGTH, WT_QUIC_RETRY_TOKEN_ADDRESS_LENGTH, WT_QUIC_RETRY_TOKEN_ADDRESS_MAX,
    WT_QUIC_RETRY_TOKEN_OFFSET_ADDRESS, WT_QUIC_RETRY_TOKEN_TAG_LEN, WT_QUIC_RETRY_TOKEN_MAX, WT_QUIC_MAX_CID_LEN.
  rewrite (proj2 (Z.eqb_neq (zlen address) 0)), (proj2 (Z.ltb_ge 32 _)), (proj2 (Z.eqb_neq (zlen id) 0)), (proj2 (Z.ltb_ge 20 _)) by lia. cbn [orb].
  rewrite (proj2 (Z.ltb_ge capacity _)), (proj2 (Z.ltb_ge 78 _)) by lia. rewrite u8_small by (unfold is_u8; lia). done.
Qed.

Lemma validate_built secret address id issued now max_age capacity tag :
  address_ok address -> original_ok id -> is_u64 issued -> token_tag secret (token_body issued address id) = Ok tag ->
  wt_quic_retry_token_validate secret address now max_age (token_body issued address id ++ tag) capacity =
  if expired now max_age issued then Fail WT_ERR_STATE None else if capacity <? zlen id then Fail WT_ERR_LIMIT None else Ok id.
Proof.
  intros Ha Hid Hi Ht. destruct (token_tag_ok _ _ _ Ht) as [Htz Htok]. destruct (token_body_ok issued address id Ha Hid) as [Hbok Hbz].
  destruct (token_fields issued address id tag Hi Ha Hid) as (F0 & F41 & Ft & Fa & Fi & Fb & Fg).
  pose proof (proj2 Ha) as Haz. pose proof (proj2 Hid) as Hiz. unfold WT_QUIC_RETRY_TOKEN_ADDRESS_MAX, WT_QUIC_MAX_CID_LEN in *.
  unfold wt_quic_retry_token_validate. cbv zeta.
  unfold WT_QUIC_RETRY_TOKEN_OFFSET_ODCID, WT_QUIC_RETRY_TOKEN_OFFSET_ODCID_LENGTH, WT_QUIC_RETRY_TOKEN_ADDRESS_LENGTH, WT_QUIC_RETRY_TOKEN_ADDRESS_MAX,
    WT_QUIC_RETRY_TOKEN_OFFSET_ADDRESS, WT_QUIC_RETRY_TOKEN_OFFSET_FORMAT, WT_QUIC_RETRY_TOKEN_OFFSET_TIME, WT_QUIC_RETRY_TOKEN_TAG_LEN, WT_QUIC_RETRY_TOKEN_MAX, WT_QUIC_MAX_CID_LEN.
  change (9 + 32 + 1) with 42. change (Z.to_nat (9 + 32)) with 41%nat. change (Z.to_nat 0) with 0%nat. rewrite Htz in Fg. rewrite F0, F41, Ft, Fa, Fi, Fb, Fg.
  rewrite (proj2 (Z.eqb_neq (zlen address) 0)), (proj2 (Z.ltb_ge 32 _)) by lia. rewrite zlen_app, Hbz, Htz. cbn [orb].
  rewrite (proj2 (Z.ltb_ge _ (42 + 1 + 16))), (proj2 (Z.ltb_ge 78 _)), Z.eqb_refl by lia. cbn [orb negb].
  rewrite (proj2 (Z.eqb_neq (zlen id) 0)), (proj2 (Z.ltb_ge 20 _)), Z.eqb_refl by lia. cbn [orb negb]. rewrite Ht.
  rewrite (proj2 (ct_equal_spec tag tag Htok Htok eq_refl) eq_refl), bool_decide_true by done. cbn [negb]. unfold expired. done.
Qed.

(** A token is worth nothing from another address. *)
Lemma validate_elsewhere secret address other id issued now max_age capacity tag :
  address_ok address -> address_ok other -> original_ok id -> is_u64 issued -> padded_address other <> padded_address address ->
  token_tag secret (token_body issued address id) = Ok tag ->
  wt_quic_retry_token_validate secret other now max_age (token_body issued address id ++ tag) capacity = Fail WT_ERR_AUTHENTICATION None.
Proof.
  intros Ha Hother Hid Hi Hne Ht. destruct (token_fields issued address id tag Hi Ha Hid) as (F0 & F41 & _ & Fa & _ & Fb & _).
  pose proof (proj2 Hother) as Haz. unfold WT_QUIC_RETRY_TOKEN_ADDRESS_MAX in *. unfold wt_quic_retry_token_validate. cbv zeta.
  unfold WT_QUIC_RETRY_TOKEN_OFFSET_ODCID, WT_QUIC_RETRY_TOKEN_OFFSET_ODCID_LENGTH, WT_QUIC_RETRY_TOKEN_ADDRESS_LENGTH, WT_QUIC_RETRY_TOKEN_ADDRESS_MAX,
    WT_QUIC_RETRY_TOKEN_OFFSET_ADDRESS, WT_QUIC_RETRY_TOKEN_OFFSET_FORMAT, WT_QUIC_RETRY_TOKEN_TAG_LEN, WT_QUIC_RETRY_TOKEN_MAX, WT_QUIC_MAX_CID_LEN.
  change (9 + 32 + 1) with 42. change (Z.to_nat (9 + 32)) with 41%nat. change (Z.to_nat 0) with 0%nat. rewrite F0, F41, Fa, Fb.
  rewrite (proj2 (Z.eqb_neq (zlen other) 0)), (proj2 (Z.ltb_ge 32 _)) by lia. cbn [orb]. rewrite Ht.
  rewrite (bool_decide_false (padded_address other = _)) by done. cbn [negb]. by repeat (case_match; try done).
Qed.

(** A token that is accepted, or too old, is one that [build] issued. *)
Lemma validate_sound secret address now max_age token capacity :
  bytes_ok token -> address_ok address ->
  match wt_quic_retry_token_validate secret address now max_age token capacity with
  | Ok _ | Fail WT_ERR_STATE _ =>
      (exists s e, hmac_sha256 secret (ztake (zlen token - 16) token) = Fail s e) \/
      exists issued id tag, is_u64 issued /\ original_ok id /\ token_tag secret (token_body issued address id) = Ok tag /\ token = token_body issued address id ++ tag
  | _ => True
  end.
Proof.
  intros Hok Ha. unfold wt_quic_retry_token_validate. cbv zeta.
  unfold WT_QUIC_RETRY_TOKEN_OFFSET_ODCID, WT_QUIC_RETRY_TOKEN_OFFSET_ODCID_LENGTH, WT_QUIC_RETRY_TOKEN_ADDRESS_LENGTH, WT_QUIC_RETRY_TOKEN_ADDRESS_MAX,
    WT_QUIC_RETRY_TOKEN_OFFSET_ADDRESS, WT_QUIC_RETRY_TOKEN_OFFSET_FORMAT, WT_QUIC_RETRY_TOKEN_OFFSET_TIME, WT_QUIC_RETRY_TOKEN_TAG_LEN, WT_QUIC_RETRY_TOKEN_MAX, WT_QUIC_MAX_CID_LEN.
  change (9 + 32 + 1) with 42. change (Z.to_nat (9 + 32)) with 41%nat. change (Z.to_nat 0) with 0%nat.
  destruct (_ || _); [done|]. destruct (_ || _); [done|]. destruct (Z.eqb_spec (byte_at token 0) WT_QUIC_RETRY_TOKEN_FORMAT) as [H0|]; [|done]. cbn [negb].
  destruct (_ || _) eqn:En; [done|]. destruct (Z.eqb_spec (42 + byte_at token 41 + 16) (zlen token)) as [Hz|]; [|done]. cbn [negb].
  reflect_bools. set (n := byte_at token 41) in *.
  assert (Hn : is_u8 n).
  { unfold n, byte_at. destruct (token !! 41%nat) as [b|] eqn:E; [|by unfold is_u8]. by apply (Forall_lookup_1 _ _ _ _ Hok E). }
  unfold is_u8 in Hn. destruct (token_parsed token n Hok ltac:(lia) ltac:(lia) H0 eq_refl) as (Hi & Hidz & Hb).
  destruct (token_tag secret (ztake (42 + n) token)) as [expected|s e] eqn:Et.
  2:{ destruct s; try done. left. unfold token_tag in Et. replace (zlen token - 16) with (42 + n) by lia. destruct (hmac_sha256 _ _); [done|eauto]. }
  destruct (token_tag_ok _ _ _ Et) as [Htz Htok].
  assert (Hs : forall o k, bytes_ok (zslice o k token)) by (intros; unfold zslice; by apply Forall_ztake, Forall_zdrop).
  destruct (wt_ct_equal _ _) eqn:Ec; [|done]. apply ct_equal_spec in Ec; [|done|done|rewrite zlen_zslice; lia]. cbn [negb].
  case_bool_decide as Hpad; [|done]. cbn [negb]. rewrite <- Hpad in Hb.
  assert (Hid : original_ok (zslice 42 n token)) by (split; [done|rewrite Hidz; unfold WT_QUIC_MAX_CID_LEN; lia]).
  assert (Hbody : ztake (42 + n) token = token_body (wt_load_be64 (zslice 1 8 token)) address (zslice 42 n token)).
  { rewrite Hb. unfold token_body, token_body_header. rewrite Hidz. cbn [app]. by rewrite <- app_assoc. }
  assert (Htoken : token = token_body (wt_load_be64 (zslice 1 8 token)) address (zslice 42 n token) ++ expected).
  { rewrite <- Hbody, Ec. rewrite <- (ztake_split token (42 + n) 16) by lia. symmetry. apply ztake_all. lia. }
  rewrite Hbody in Et. assert (exists issued id tag, is_u64 issued /\ original_ok id /\ token_tag secret (token_body issued address id) = Ok tag /\ token = token_body issued address id ++ tag) by eauto 10.
  destruct (_ && _); [by right|]. destruct (_ <? _); [done|by right].
Qed.
End Exact.

(** ** Theorems *)

(** C39. The token a server accepts is exactly one it built: for any token bytes and any
    peer address, validation answers a connection ID if and only if that token is what
    building with that secret, that address and that connection ID at some unexpired time
    gives (and the caller has room for the ID), and answers the stale-token error if and
    only if it was built so at a time now too old or in the future. *)
Theorem retry_token_exact {C : Crypto} {L : CryptoLaws C} secret address token now max_age capacity id :
  (forall m, exists mac, hmac_sha256 secret m = Ok mac) ->
  bytes_ok token -> address_ok address ->
  (wt_quic_retry_token_validate secret address now max_age token capacity = Ok id <->
   exists issued, is_u64 issued /\ original_ok id /\ zlen id <= capacity /\ expired now max_age issued = false /\
     wt_quic_retry_token_build secret address id issued WT_QUIC_RETRY_TOKEN_MAX = Ok token) /\
  (wt_quic_retry_token_validate secret address now max_age token capacity = Fail WT_ERR_STATE None <->
   exists issued id, is_u64 issued /\ original_ok id /\ expired now max_age issued = true /\
     wt_quic_retry_token_build secret address id issued WT_QUIC_RETRY_TOKEN_MAX = Ok token).
Proof.
  intros Hmac Hok Ha.
  assert (Hb : forall id issued, original_ok id -> wt_quic_retry_token_build secret address id issued WT_QUIC_RETRY_TOKEN_MAX = Ok token <->
    exists tag, token_tag secret (token_body issued address id) = Ok tag /\ token = token_body issued address id ++ tag).
  { intros id' issued Hid. rewrite build_spec; [|done|done|pose proof (proj2 Hid); unfold WT_QUIC_RETRY_TOKEN_MAX, WT_QUIC_MAX_CID_LEN in *; lia].
    destruct (token_tag _ _); naive_solver. }
  pose proof (validate_sound secret address now max_age token capacity Hok Ha) as Hs.
  destruct (Hmac (ztake (zlen token - 16) token)) as [mac Hm].
  assert (Hv : forall issued id', is_u64 issued -> original_ok id' -> wt_quic_retry_token_build secret address id' issued WT_QUIC_RETRY_TOKEN_MAX = Ok token ->
    wt_quic_retry_token_validate secret address now max_age token capacity =
    if expired now max_age issued then Fail WT_ERR_STATE None else if capacity <? zlen id' then Fail WT_ERR_LIMIT None else Ok id').
  { intros issued id' Hi Hid H. apply Hb in H as (tag & Ht & ->); [|done]. by apply validate_built. }
  split; split.
  - intros E. rewrite E in Hs. destruct Hs as [(s & e & Hf)|(issued & id' & tag & Hi & Hid & Ht & Hto)]; [congruence|].
    assert (Hbuilt : wt_quic_retry_token_build secret address id' issued WT_QUIC_RETRY_TOKEN_MAX = Ok token) by (apply Hb; eauto).
    rewrite (Hv _ _ Hi Hid Hbuilt) in E. destruct (expired now max_age issued) eqn:Ex; [done|]. destruct (Z.ltb_spec capacity (zlen id')); [done|].
    injection E as <-. eauto 10.
  - intros (issued & Hi & Hid & Hc & Ex & Hbuilt). rewrite (Hv _ _ Hi Hid Hbuilt), Ex. by rewrite (proj2 (Z.ltb_ge _ _)).
  - intros E. rewrite E in Hs. destruct Hs as [(s & e & Hf)|(issued & id' & tag & Hi & Hid & Ht & Hto)]; [congruence|].
    assert (Hbuilt : wt_quic_retry_token_build secret address id' issued WT_QUIC_RETRY_TOKEN_MAX = Ok token) by (apply Hb; eauto).
    rewrite (Hv _ _ Hi Hid Hbuilt) in E. destruct (expired now max_age issued) eqn:Ex; [eauto 10|]. by destruct (capacity <? zlen id').
  - intros (issued & id' & Hi & Hid & Ex & Hbuilt). by rewrite (Hv _ _ Hi Hid Hbuilt), Ex.
Qed.

Definition sample_token : list Z :=
  match wt_quic_retry_token_build (replicate 32 5) [127; 0; 0; 1] [1; 2; 3] 1000 78 with Ok t => t | Fail _ _ => [] end.

Lemma retry_token_exact_witness :
  wt_quic_retry_token_validate (replicate 32 5) [127; 0; 0; 1] 1500 600 sample_token 20 = Ok [1; 2; 3] <->
  exists issued, is_u64 issued /\ original_ok [1; 2; 3] /\ zlen [1; 2; 3] <= 20 /\ expired 1500 600 issued = false /\
    wt_quic_retry_token_build (replicate 32 5) [127; 0; 0; 1] [1; 2; 3] issued WT_QUIC_RETRY_TOKEN_MAX = Ok sample_token.
Proof.
  refine (proj1 (retry_token_exact (replicate 32 5) [127; 0; 0; 1] sample_token 1500 600 20 [1; 2; 3] _ _ _)).
  - intros m. eexists. reflexivity.
  - apply bytes_okb_spec. by vm_compute.
  - split; [by apply bytes_okb_spec|by vm_compute].
Defined.

Example sample_token_validates :
  wt_quic_retry_token_validate (replicate 32 5) [127; 0; 0; 1] 1500 600 sample_token 20 = Ok [1; 2; 3] /\
  wt_quic_retry_token_validate (replicate 32 5) [127; 0; 0; 1] 1601 600 sample_token 20 = Fail WT_ERR_STATE None /\
  wt_quic_retry_token_validate (replicate 32 5) [127; 0; 0; 2] 1500 600 sample_token 20 = Fail WT_ERR_AUTHENTICATION None.
Proof. by vm_compute. Qed.

(** Padding with zeros does not keep addresses of different lengths apart. *)
Lemma padding_collides {C : Crypto} secret id now capacity :
  wt_quic_retry_token_build secret [1; 2; 3] id now capacity = wt_quic_retry_token_build secret [1; 2; 3; 0] id now capacity.
Proof. reflexivity. Qed.
