(* ===== verification/ServerRetry.v ===== *)
(** The server's half of a Retry: [src/runtime/server_retry.c], with the address
    form of [src/runtime/udp.c] it hashes.  A listener answers a first Initial with
    a Retry and checks the token that comes back; between the two it keeps a
    secret and a connection ID, and nothing about the client. *)

From S2P Require Import Prelude Core Cursor Writer Varint Crypto Packet Protection RetryToken.

Inductive wt_udp_family := WT_UDP_IPV4 | WT_UDP_IPV6.

#[export] Instance wt_udp_family_eq_dec : EqDecision wt_udp_family.
Proof. solve_decision. Defined.

(** [bytes] has sixteen. *)
Record wt_udp_address := mk_address {
  ad_family : wt_udp_family;
  ad_port : Z;
  ad_scope_id : Z;
  ad_bytes : list Z }.

#[export] Instance wt_udp_address_eq_dec : EqDecision wt_udp_address.
Proof. solve_decision. Defined.

Definition WT_UDP_ADDRESS_ENCODED_LENGTH : Z := 23.

Definition family_value (family : wt_udp_family) : Z := match family with WT_UDP_IPV4 => 0 | WT_UDP_IPV6 => 1 end.

(** [None] where the C returns zero. *)
Definition wt_udp_address_encode (address : wt_udp_address) (capacity : Z) : option (list Z) :=
  if capacity <? WT_UDP_ADDRESS_ENCODED_LENGTH then None
  else Some (u8 (family_value (ad_family address)) :: ad_bytes address ++ wt_store_be16 (ad_port address) ++ wt_store_be32 (ad_scope_id address)).

(** Four bytes of an IPv4 address count, all sixteen of an IPv6 one. *)
Definition wt_udp_address_equal (a b : wt_udp_address) : bool :=
  if negb (bool_decide (ad_family a = ad_family b)) || negb (ad_port a =? ad_port b) || negb (ad_scope_id a =? ad_scope_id b) then false
  else
    let length := if bool_decide (ad_family a = WT_UDP_IPV4) then 4 else 16 in
    bool_decide (ztake length (ad_bytes a) = ztake length (ad_bytes b)).

Definition WT_RUNTIME_SERVER_RETRY_MIN_ID : Z := 1.

Record wt_runtime_server_retry := mk_server_retry {
  vr_secret : list Z;
  vr_source_connection_id : list Z;
  vr_token_max_age : Z;
  vr_retries_sent : Z;
  vr_tokens_refused : Z;
  vr_armed : bool }.

Definition zeroed_retry : wt_runtime_server_retry := mk_server_retry (replicate 32 0) [] 0 0 0 false.

(** The two draws of [wt_random_bytes] are arguments. *)
Definition wt_runtime_server_retry_arm (connection_id_length token_max_age : Z) (secret : outcome (list Z))
    (source_connection_id : outcome (list Z)) : wt_status * wt_runtime_server_retry :=
  if (connection_id_length <? WT_RUNTIME_SERVER_RETRY_MIN_ID) || (WT_QUIC_MAX_CID_LEN <? connection_id_length)
  then (WT_ERR_INVALID_ARGUMENT, zeroed_retry)
  else
    match secret with
    | Fail s _ => (s, zeroed_retry)
    | Ok secret =>
        match source_connection_id with
        | Fail s _ => (s, mk_server_retry secret [] 0 0 0 false)
        | Ok id => (WT_OK, mk_server_retry secret id token_max_age 0 0 true)
        end
    end.

Definition wt_runtime_server_retry_source_id (retry : wt_runtime_server_retry) : option (list Z) :=
  if vr_armed retry then Some (vr_source_connection_id retry) else None.

Record retry_initial := mk_initial {
  ri_destination_connection_id : list Z;
  ri_source_connection_id : list Z;
  ri_token : list Z }.

(** [Ok None]: not an Initial for us. *)
Definition read_initial (datagram : list Z) : outcome (option retry_initial) :=
  if zlen datagram =? 0 then Fail WT_ERR_INVALID_ARGUMENT None
  else
    match wt_quic_long_header_connection_ids datagram with
    | Fail _ _ => Ok None
    | Ok (destination, source) =>
        match wt_quic_initial_token datagram with
        | Fail _ _ => Ok None
        | Ok token => Ok (Some (mk_initial destination source token))
        end
    end.

Definition count_sent (r : wt_runtime_server_retry) : wt_runtime_server_retry :=
  mk_server_retry (vr_secret r) (vr_source_connection_id r) (vr_token_max_age r) (u32 (vr_retries_sent r + 1)) (vr_tokens_refused r) (vr_armed r).
Definition count_refused (r : wt_runtime_server_retry) : wt_runtime_server_retry :=
  mk_server_retry (vr_secret r) (vr_source_connection_id r) (vr_token_max_age r) (vr_retries_sent r) (u32 (vr_tokens_refused r + 1)) (vr_armed r).

Section Retry.
Context {C : Crypto}.

(** The packet is written twice: once to know the bytes the tag covers, with
    whatever [tag] held, and once with the tag. *)
Definition encode_retry (retry : wt_runtime_server_retry) (header : retry_initial) (token junk out : list Z) : outcome (list Z) :=
  let encode tag := wt_quic_retry_packet_encode WT_QUIC_VERSION_1 (ri_source_connection_id header) (vr_source_connection_id retry) token tag
                      (wt_writer_init (Some out) (zlen out)) in
  match encode junk with
  | (WT_OK, w) =>
      match wt_quic_retry_integrity_tag (ri_destination_connection_id header) (ztake (w_offset w - WT_AEAD_TAG_LEN) (w_data w)) with
      | Fail s e => Fail s e
      | Ok tag =>
          match encode tag with
          | (WT_OK, w) => Ok (writer_bytes w)
          | (s, _) => Fail s None
          end
      end
  | (s, _) => Fail s None
  end.

(** The Retry to send, if the datagram asks for one. *)
Definition wt_runtime_server_retry_build (retry : wt_runtime_server_retry) (datagram : list Z) (peer : wt_udp_address) (now : Z)
    (junk out : list Z) : outcome (option (list Z)) * wt_runtime_server_retry :=
  if negb (vr_armed retry) then (Fail WT_ERR_STATE None, retry)
  else
    match read_initial datagram with
    | Fail s e => (Fail s e, retry)
    | Ok None => (Ok None, retry)
    | Ok (Some header) =>
        if negb (zlen (ri_token header) =? 0) then (Ok None, retry)
        else if (zlen (ri_source_connection_id header) =? 0) || (zlen (ri_destination_connection_id header) =? 0) then (Ok None, retry)
        else
          match wt_udp_address_encode peer WT_UDP_ADDRESS_ENCODED_LENGTH with
          | None => (Fail WT_ERR_INVALID_ARGUMENT None, retry)
          | Some address =>
              match wt_quic_retry_token_build (vr_secret retry) address (ri_destination_connection_id header) now WT_QUIC_RETRY_TOKEN_MAX with
              | Fail s e => (Fail s e, retry)
              | Ok token =>
                  match encode_retry retry header token junk out with
                  | Fail s e => (Fail s e, retry)
                  | Ok d => (Ok (Some d), count_sent retry)
                  end
              end
          end
    end.

(** The connection ID the client first used, if the datagram carries a token of this server for it. *)
Definition wt_runtime_server_retry_accept (retry : wt_runtime_server_retry) (datagram : list Z) (peer : wt_udp_address) (now capacity : Z)
    : outcome (option (list Z)) * wt_runtime_server_retry :=
  if negb (vr_armed retry) then (Fail WT_ERR_STATE None, retry)
  else
    match read_initial datagram with
    | Fail s e => (Fail s e, retry)
    | Ok None => (Ok None, retry)
    | Ok (Some header) =>
        if zlen (ri_token header) =? 0 then (Ok None, retry)
        else if negb (zlen (ri_destination_connection_id header) =? zlen (vr_source_connection_id retry)) ||
                negb (bool_decide (ri_destination_connection_id header = vr_source_connection_id retry)) then (Ok None, retry)
        else
          match wt_udp_address_encode peer WT_UDP_ADDRESS_ENCODED_LENGTH with
          | None => (Fail WT_ERR_INVALID_ARGUMENT None, retry)
          | Some address =>
              match wt_quic_retry_token_validate (vr_secret retry) address now (vr_token_max_age retry) (ri_token header) capacity with
              | Fail s e => (Fail s e, count_refused retry)
              | Ok original => (Ok (Some original), retry)
              end
          end
    end.
End Retry.

(** ** What a listener reads of an Initial *)

(** A protected Initial: its first byte's low half is the mask's, and what
    follows the Length field can be anything. *)
Definition initial_datagram (b version : Z) (dcid scid token : list Z) (length_field : Z) (rest : list Z) : list Z :=
  b :: long_middle WT_QUIC_PACKET_INITIAL version dcid scid token length_field ++ rest.

Record initial_ok (b version : Z) (dcid scid token : list Z) (length_field : Z) (rest : list Z) : Prop := mk_initial_ok {
  io_first : is_u8 b /\ b / 16 = 0xc;
  io_version : is_u32 version /\ version <> WT_QUIC_VERSION_NEGOTIATION;
  io_ids : cid_ok dcid /\ cid_ok scid;
  io_token : varint_ok (zlen token);
  io_block : block_ok (initial_datagram b version dcid scid token length_field rest) }.

Lemma initial_first b :
  is_u8 b -> b / 16 = 0xc ->
  has_bit b WT_QUIC_LONG_HEADER_BIT = true /\ has_bit b WT_QUIC_FIXED_BIT = true /\
  packet_type_of_bits (Z.shiftr (Z.land b 0x30) 4) = WT_QUIC_PACKET_INITIAL.
Proof.
  intros Hb Hq. assert (exists k, 0 <= k < 16 /\ b = 192 + k) as (k & Hk & ->) by (exists (b - 192); unfold is_u8 in Hb; split; zdm).
  assert (Hin : List.In k (Z.of_nat <$> seq 0 16)) by (apply list_elem_of_In, list_elem_of_fmap; exists (Z.to_nat k); rewrite elem_of_seq; lia).
  cbn in Hin. repeat destruct Hin as [<-|Hin]; try done; by vm_compute.
Qed.

(** Decoding in a block of a known length. *)
Definition decodes_in {A} (length : Z) (p : parser A) (bs : list Z) (a : A) : Prop :=
  forall c tl, cursor_live c -> cur_len c = length -> cursor_view c = bs ++ tl -> p c = (Ok a, cursor_advance c (zlen bs)).

Lemma decodes_in_bind {A B} length (p : parser A) (k : A -> parser B) bs1 bs2 a b :
  decodes p bs1 a -> decodes_in length (k a) bs2 b -> decodes_in length (pbind p k) (bs1 ++ bs2) b.
Proof.
  intros Hp Hk c tl Hl Hlen Hv. rewrite <- app_assoc in Hv. unfold pbind. rewrite (Hp c (bs2 ++ tl)) by done. rewrite (Hk _ tl).
  - by rewrite cursor_advance_add, zlen_app.
  - apply cursor_advance_live; [done|]. rewrite Hv, zlen_app. pose proof (zlen_nonneg bs1). pose proof (zlen_nonneg (bs2 ++ tl)). lia.
  - done.
  - eapply cursor_advance_view; [apply Hl|exact Hv|done].
Qed.

Lemma decodes_in_token length token :
  decodes_in length (fun c => if (length <? cur_offset c) || (u64 (length - cur_offset c) <? zlen token) then (Fail WT_ERR_TRUNCATED None, c)
                    else take_or_truncated (zlen token) None c) token token.
Proof.
  intros c tl Hl Hlen Hv. pose proof (cursor_view_len c (proj1 Hl)) as Hz. rewrite Hv, zlen_app in Hz. destruct (proj1 Hl) as (Ho & Hc & _).
  pose proof (zlen_nonneg token). pose proof (zlen_nonneg tl). rewrite <- Hlen. no_wrap. rewrite !(proj2 (Z.ltb_ge _ _)) by lia. cbn [orb].
  by apply (decodes_take token (zlen token) None eq_refl c tl).
Qed.

Lemma initial_read b version dcid scid token length_field rest :
  initial_ok b version dcid scid token length_field rest ->
  read_initial (initial_datagram b version dcid scid token length_field rest) = Ok (Some (mk_initial dcid scid token)).
Proof.
  intros [[Hb Hq] [Hv Hv0] [Hd Hs] Ht Hblock]. pose proof (block_ok_live _ Hblock) as Hl. destruct (initial_first b Hb Hq) as (Hlb & Hfb & Hty).
  unfold read_initial, wt_quic_long_header_connection_ids, wt_quic_initial_token. cbv zeta.
  set (d := initial_datagram _ _ _ _ _ _ _) in *. assert (Hz : zlen d <> 0) by (unfold d, initial_datagram; rewrite zlen_cons; zlen_facts; lia).
  rewrite !(proj2 (Z.eqb_neq (zlen d) 0) Hz). change (byte_at d 0) with b. rewrite Hlb, Hfb, Hty. cbn [negb orb]. rewrite bool_decide_true by done. cbn [negb].
  set (tail := varint_bytes length_field ++ rest).
  set (front := [b] ++ wt_store_be32 version ++ cid_wire dcid ++ cid_wire scid).
  assert (Hd' : d = front ++ varint_bytes (zlen token) ++ token ++ tail).
  { unfold d, initial_datagram, front, long_middle, tail. rewrite bool_decide_true by done. by rewrite <- !app_assoc. }
  match goal with |- match (?p ?c).1 with _ => _ end = _ => assert (Hp : decodes p front (dcid, scid)) end.
  { unfold front. eapply decodes_bind; [apply decodes_u8|]. eapply decodes_bind; [by apply decodes_be32|].
    eapply decodes_bind; [apply decodes_failing_as; by apply decodes_connection_id|].
    eapply decodes_bind_nil; [apply decodes_failing_as; by apply decodes_connection_id|]. apply decodes_ret. }
  rewrite (Hp _ (varint_bytes (zlen token) ++ token ++ tail) Hl) by done. cbn [fst].
  match goal with |- match (?p ?c).1 with _ => _ end = _ => assert (Hp' : decodes_in (zlen d) p (front ++ varint_bytes (zlen token) ++ token) token) end.
  { unfold front. rewrite <- !app_assoc. eapply decodes_in_bind; [apply decodes_u8|]. eapply decodes_in_bind; [by apply decodes_be32|].
    rewrite load_store_be32 by done. rewrite (proj2 (Z.eqb_neq _ _) Hv0).
    eapply decodes_in_bind; [apply decodes_failing_as; by apply decodes_connection_id|].
    eapply decodes_in_bind; [apply decodes_failing_as; by apply decodes_connection_id|].
    eapply decodes_in_bind; [apply decodes_failing_as; by apply decodes_varint|]. destruct (Z.eqb_spec (zlen token) 0) as [E|_]; [|apply decodes_in_token].
    apply zlen_0_nil in E as ->. intros c tl Hlc _ Hvc. by apply (decodes_ret [] c tl). }
  rewrite (Hp' _ tail Hl); [done|cbn; lia|]. change (d = (front ++ varint_bytes (zlen token) ++ token) ++ tail). by rewrite <- !app_assoc.
Qed.

(** ** The exchange *)

(** A listener that is armed. *)
Definition server_retry_ok (retry : wt_runtime_server_retry) : Prop :=
  vr_armed retry = true /\ original_ok (vr_source_connection_id retry).

(** The fields of a peer's address at their width. *)
Definition peer_ok (peer : wt_udp_address) : Prop :=
  bytes_ok (ad_bytes peer) /\ zlen (ad_bytes peer) = 16 /\ 0 <= ad_port peer < 2 ^ 16 /\ is_u32 (ad_scope_id peer).

Lemma address_encoded peer : peer_ok peer ->
  exists a, wt_udp_address_encode peer WT_UDP_ADDRESS_ENCODED_LENGTH = Some a /\ address_ok a /\ zlen a = 23.
Proof.
  intros (Hok & Hz & _). eexists. split; [reflexivity|].
  assert (Hl : zlen (u8 (family_value (ad_family peer)) :: ad_bytes peer ++ wt_store_be16 (ad_port peer) ++ wt_store_be32 (ad_scope_id peer)) = 23).
  { rewrite zlen_cons, !zlen_app, Hz, store_be16_spec, store_be32_spec, !zlen_be_bytes. lia. }
  split; [|done]. split; [|rewrite Hl; unfold WT_QUIC_RETRY_TOKEN_ADDRESS_MAX; lia].
  rewrite store_be16_spec, store_be32_spec. split_bytes_ok; try done; try apply be_bytes_ok. by destruct (ad_family peer).
Qed.

Lemma address_encode_inj p q a : peer_ok p -> peer_ok q ->
  wt_udp_address_encode p WT_UDP_ADDRESS_ENCODED_LENGTH = Some a -> wt_udp_address_encode q WT_UDP_ADDRESS_ENCODED_LENGTH = Some a -> p = q.
Proof.
  intros (_ & Hz & Hp & Hs) (_ & Hz' & Hp' & Hs'). unfold is_u32 in *. destruct p as [f o s b], q as [f' o' s' b']. cbn in *.
  unfold wt_udp_address_encode. cbn [ad_family ad_port ad_scope_id ad_bytes]. intros [= <-] [= Hf Hb].
  apply app_inj_1 in Hb as [<- Hb]; [|unfold zlen in *; lia]. change (wt_store_be16 o' ++ wt_store_be32 s' = wt_store_be16 o ++ wt_store_be32 s) in Hb. apply app_inj_1 in Hb as [Ho Hb]; [|done].
  rewrite !store_be16_spec in Ho. rewrite !store_be32_spec in Hb. f_equal.
  - by destruct f, f'.
  - rewrite <- (be_value_bytes 2 o), <- (be_value_bytes 2 o') by lia. by rewrite Ho.
  - rewrite <- (be_value_bytes 4 s), <- (be_value_bytes 4 s') by lia. by rewrite Hb.
Qed.

Section Exchange.
Context {C : Crypto} {L : CryptoLaws C}.

(** The two writings of a Retry differ in the tag only. *)
Lemma retry_encoded retry header token junk out tag :
  cid_ok (ri_source_connection_id header) -> original_ok (ri_destination_connection_id header) -> original_ok (vr_source_connection_id retry) ->
  bytes_ok token -> bytes_ok junk -> zlen junk = 16 ->
  let pre := retry_header_wire WT_QUIC_VERSION_1 (ri_source_connection_id header) (vr_source_connection_id retry) ++ token in
  zlen (pre ++ junk) <= zlen out -> zlen out < 2 ^ 63 ->
  wt_quic_retry_integrity_tag (ri_destination_connection_id header) pre = Ok tag ->
  encode_retry retry header token junk out = Ok (pre ++ tag).
Proof.
  intros Hs Hd [Hio Hi] Ht Hj Hjz pre Hz Hout Htag. destruct (retry_integrity_tag_ok _ _ _ Htag) as [Hgz Hg]. unfold WT_AEAD_TAG_LEN, WT_QUIC_MAX_CID_LEN in *.
  assert (Hw : writer_inv (wt_writer_init (Some out) (zlen out))) by (apply writer_init_inv; lia).
  assert (Hs0 : zlen (vr_source_connection_id retry) <> 0) by lia.
  assert (Hc : cid_ok (vr_source_connection_id retry)) by (split; [done|unfold WT_QUIC_MAX_CID_LEN; lia]).
  assert (He : forall t, zlen t = 16 ->
    exists w, wt_quic_retry_packet_encode WT_QUIC_VERSION_1 (ri_source_connection_id header) (vr_source_connection_id retry) token t
                (wt_writer_init (Some out) (zlen out)) = (WT_OK, w) /\ writer_bytes w = pre ++ t /\ w_offset w = zlen (pre ++ t)).
  { intros t Htz. eexists. pose proof (encodes_retry WT_QUIC_VERSION_1 _ _ token t Hs Hc Hs0 _ Hw eq_refl) as He. rewrite app_assoc in He. fold pre in He.
    assert (Hroom : zlen (pre ++ t) <= writer_room (wt_writer_init (Some out) (zlen out))) by (unfold writer_room; cbn [w_cap w_offset wt_writer_init]; rewrite zlen_app in Hz; rewrite zlen_app; lia).
    rewrite (proj2 (Z.leb_le _ _) Hroom) in He. split; [exact He|].
    pose proof (writer_put_room (pre ++ t) _ Hw eq_refl) as Hp. rewrite (proj2 (Z.leb_le _ _) Hroom) in Hp. destruct Hp as (_ & Hpo & _ & Hpb).
    rewrite Hpb, Hpo by done. unfold writer_bytes. cbn [w_offset w_data wt_writer_init]. by rewrite ztake_0, Z.add_0_l. }
  unfold encode_retry. destruct (He junk Hjz) as (w & -> & Hwb & Hwo).
  assert (Hpre : ztake (w_offset w - WT_AEAD_TAG_LEN) (w_data w) = pre).
  { unfold writer_bytes in Hwb. rewrite zlen_app, Hjz in Hwo. rewrite Hwo in *. unfold WT_AEAD_TAG_LEN.
    replace (zlen pre + 16 - 16) with (zlen pre) by lia. rewrite <- (ztake_ztake (zlen pre) (zlen pre + 16)) by lia. rewrite Hwb. by apply ztake_app_exact. }
  rewrite Hpre, Htag. destruct (He tag Hgz) as (w' & -> & -> & _). done.
Qed.
End Exchange.

Lemma padded_inj a b : zlen a = zlen b -> zlen a <= 32 -> padded_address a = padded_address b -> a = b.
Proof. intros Hz Ha. rewrite !padded_address_eq by lia. rewrite Hz. intros H. by apply app_inj_2 in H as [-> _]. Qed.

(** What a first Initial, with no token, is answered with. *)
Lemma retry_built {C : Crypto} {L : CryptoLaws C} retry peer a b version dcid scid length_field rest now junk out token tag :
  server_retry_ok retry -> peer_ok peer -> wt_udp_address_encode peer WT_UDP_ADDRESS_ENCODED_LENGTH = Some a -> address_ok a ->
  initial_ok b version dcid scid [] length_field rest -> original_ok dcid -> original_ok scid -> bytes_ok junk -> zlen junk = 16 ->
  wt_quic_retry_token_build (vr_secret retry) a dcid now WT_QUIC_RETRY_TOKEN_MAX = Ok token -> bytes_ok token ->
  let pre := retry_header_wire WT_QUIC_VERSION_1 scid (vr_source_connection_id retry) ++ token in
  zlen pre + 16 <= zlen out < 2 ^ 63 -> wt_quic_retry_integrity_tag dcid pre = Ok tag ->
  wt_runtime_server_retry_build retry (initial_datagram b version dcid scid [] length_field rest) peer now junk out = (Ok (Some (pre ++ tag)), count_sent retry).
Proof.
  intros [Har Hsi] Hp Ha Hao Hini Hd Hs Hj Hjz Hb Htok pre Hout Htag. unfold wt_runtime_server_retry_build. rewrite Har. cbn [negb].
  rewrite initial_read by done. cbn [ri_token ri_source_connection_id ri_destination_connection_id]. change (zlen [] =? 0) with true. cbn [negb].
  pose proof (proj2 Hs). pose proof (proj2 Hd). unfold WT_QUIC_MAX_CID_LEN in *. rewrite !(proj2 (Z.eqb_neq _ _)) by lia. cbn [orb]. rewrite Ha, Hb.
  rewrite (retry_encoded retry (mk_initial dcid scid []) token junk out tag); try done.
  - split; [apply Hs|unfold WT_QUIC_MAX_CID_LEN; cbn [ri_source_connection_id]; lia].
  - cbn [ri_source_connection_id]. fold pre. rewrite zlen_app. lia.
  - lia.
Qed.

(** And the answer to it. *)
Lemma retry_accepted {C : Crypto} {L : CryptoLaws C} retry peer a b version dcid scid length_field rest now capacity token :
  server_retry_ok retry -> wt_udp_address_encode peer WT_UDP_ADDRESS_ENCODED_LENGTH = Some a -> token <> [] ->
  initial_ok b version dcid scid token length_field rest ->
  wt_runtime_server_retry_accept retry (initial_datagram b version dcid scid token length_field rest) peer now capacity =
  if bool_decide (dcid = vr_source_connection_id retry)
  then match wt_quic_retry_token_validate (vr_secret retry) a now (vr_token_max_age retry) token capacity with
       | Fail s e => (Fail s e, count_refused retry) | Ok original => (Ok (Some original), retry) end
  else (Ok None, retry).
Proof.
  intros [Har _] Ha Hne Hini. unfold wt_runtime_server_retry_accept. rewrite Har. cbn [negb]. rewrite initial_read by done.
  cbn [ri_token ri_destination_connection_id]. destruct (Z.eqb_spec (zlen token) 0) as [E|_]; [by apply zlen_0_nil in E|].
  case_bool_decide as Hd; [subst; rewrite Z.eqb_refl; cbn [negb orb]; by rewrite Ha|]. cbn [negb]. by rewrite orb_true_r.
Qed.

(** ** Theorems *)


(** A client at [peer] asks with connection IDs [1;2;3;4] and [9]. *)
Definition sample_retry : wt_runtime_server_retry := mk_server_retry (replicate 32 5) [7; 7; 7; 7; 7; 7; 7; 7] 600 0 0 true.
Definition sample_peer : wt_udp_address := mk_address WT_UDP_IPV4 4433 0 ([127; 0; 0; 1] ++ replicate 12 0).

