(* ===== verification/TransportParameters.v ===== *)
(** * QUIC transport parameters: [src/quic/transport_parameters.c]

    The list of parameters an endpoint sends in the TLS extension: parsing,
    lookup by binary search, the rules of RFC 9000 section 18.2, building and
    encoding.  A value is the list of the bytes its view shows. *)

From S2P Require Export QuicError Varint.
From stdpp Require Import sorting.
#[local] Open Scope Z_scope.

Definition WT_QUIC_TP_ORIGINAL_DESTINATION_CONNECTION_ID : Z := 0x00.
Definition WT_QUIC_TP_MAX_IDLE_TIMEOUT : Z := 0x01.
Definition WT_QUIC_TP_STATELESS_RESET_TOKEN : Z := 0x02.
Definition WT_QUIC_TP_MAX_UDP_PAYLOAD_SIZE : Z := 0x03.
Definition WT_QUIC_TP_INITIAL_MAX_DATA : Z := 0x04.
Definition WT_QUIC_TP_INITIAL_MAX_STREAM_DATA_BIDI_LOCAL : Z := 0x05.
Definition WT_QUIC_TP_INITIAL_MAX_STREAM_DATA_BIDI_REMOTE : Z := 0x06.
Definition WT_QUIC_TP_INITIAL_MAX_STREAM_DATA_UNI : Z := 0x07.
Definition WT_QUIC_TP_INITIAL_MAX_STREAMS_BIDI : Z := 0x08.
Definition WT_QUIC_TP_INITIAL_MAX_STREAMS_UNI : Z := 0x09.
Definition WT_QUIC_TP_ACK_DELAY_EXPONENT : Z := 0x0a.
Definition WT_QUIC_TP_MAX_ACK_DELAY : Z := 0x0b.
Definition WT_QUIC_TP_ACTIVE_CONNECTION_ID_LIMIT : Z := 0x0e.
Definition WT_QUIC_TP_RESET_STREAM_AT : Z := 0x1d.
Definition WT_QUIC_TP_INITIAL_SOURCE_CONNECTION_ID : Z := 0x0f.
Definition WT_QUIC_TP_RETRY_SOURCE_CONNECTION_ID : Z := 0x10.
Definition WT_QUIC_TP_MAX_DATAGRAM_FRAME_SIZE : Z := 0x20.
Definition WT_QUIC_MIN_MAX_UDP_PAYLOAD_SIZE : Z := 1200.
Definition WT_QUIC_MAX_TRANSPORT_PARAMETERS : Z := 32.

Record wt_quic_transport_parameter := mk_tp { tp_id : Z; tp_value : list Z }.

(** The first [count] entries; the integers' bytes are the values themselves. *)
Record wt_quic_transport_parameters := mk_tps {
  tps_entries : list wt_quic_transport_parameter;
  tps_integer_slots_used : Z;
  tps_sorted : bool }.

Definition wt_quic_transport_parameters_init : wt_quic_transport_parameters := mk_tps [] 0 true.

Definition entry_id (es : list wt_quic_transport_parameter) (i : nat) : Z := from_option tp_id 0 (es !! i).

(** [while (low < high)]; the interval halves, so its length is fuel enough. *)
Fixpoint lower_bound_loop (fuel : nat) (es : list wt_quic_transport_parameter) (id : Z) (low high : nat) : nat :=
  match fuel with
  | O => low
  | S fuel =>
      if Nat.ltb low high then
        let mid := (low + (high - low) / 2)%nat in
        if entry_id es mid <? id then lower_bound_loop fuel es id (S mid) high
        else lower_bound_loop fuel es id low mid
      else low
  end.

Definition wt_quic_tp_lower_bound (p : wt_quic_transport_parameters) (id : Z) : nat :=
  lower_bound_loop (S (length (tps_entries p))) (tps_entries p) id 0 (length (tps_entries p)).

Definition wt_quic_tp_entry (p : wt_quic_transport_parameters) (id : Z) : option wt_quic_transport_parameter :=
  if tps_sorted p then
    let at' := wt_quic_tp_lower_bound p id in
    if Nat.ltb at' (length (tps_entries p)) && (entry_id (tps_entries p) at' =? id)
    then tps_entries p !! at' else None
  else i ← first_index (fun e => tp_id e =? id) (tps_entries p); tps_entries p !! i.

Definition wt_quic_transport_parameters_get (p : wt_quic_transport_parameters) (id : Z) : outcome (list Z) :=
  match wt_quic_tp_entry p id with
  | None => Fail WT_ERR_INVALID_ARGUMENT None
  | Some e => Ok (tp_value e)
  end.

Definition wt_quic_transport_parameters_integer (p : wt_quic_transport_parameters) (id : Z) : outcome Z :=
  match wt_quic_transport_parameters_get p id with
  | Fail _ _ => Fail WT_ERR_INVALID_ARGUMENT None
  | Ok value =>
      if zlen value =? 0 then Fail WT_ERR_TRUNCATED None
      else match wt_quic_varint_decode (wt_cursor_init (Some value) (zlen value)) with
      | (Fail _ _, _) => Fail WT_ERR_TRUNCATED None
      | (Ok v, c) => if negb (wt_cursor_at_end c) then Fail WT_ERR_TRUNCATED None else Ok v
      end
  end.

(** The value of a parameter whose length has been read. *)
Definition read_value (id value_len : Z) : parser wt_quic_transport_parameter := fun c =>
  match wt_checked_narrow_u64_to_size value_len with
  | Fail _ _ => (Fail WT_ERR_TRUNCATED None, c)
  | Ok narrowed =>
      if wt_cursor_remaining c <? narrowed then (Fail WT_ERR_TRUNCATED None, c)
      else let '(value, c') := wt_cursor_bytes narrowed c in (Ok (mk_tp id (default [] value)), c')
  end.

(** One parameter of the extension. *)
Definition read_parameter : parser wt_quic_transport_parameter :=
  id <- failing_as WT_ERR_TRUNCATED None wt_quic_varint_decode;;
  r <- failing_as WT_ERR_TRUNCATED None wt_quic_varint_decode_sized;;
  let '(value_len, value_len_size) := r in
  if negb (wt_quic_varint_is_minimal value_len value_len_size)
  then pfail WT_ERR_PROTOCOL (Some WT_QUIC_TRANSPORT_PARAMETER_ERROR)
  else read_value id value_len.

(** The new entry behind the others; a descent clears [sorted]. *)
Definition push_parameter (p : wt_quic_transport_parameters) (e : wt_quic_transport_parameter)
    : wt_quic_transport_parameters :=
  mk_tps (tps_entries p ++ [e]) (tps_integer_slots_used p)
    (tps_sorted p && match last (tps_entries p) with Some l => negb (tp_id e <? tp_id l) | None => true end).

(** [while (wt_cursor_remaining(&c) > 0)]; a parameter takes two bytes at least. *)
Fixpoint decode_loop (fuel : nat) (c : wt_cursor) (out : wt_quic_transport_parameters)
    : option (outcome wt_quic_transport_parameters) :=
  match fuel with
  | O => None
  | S fuel =>
      if 0 <? wt_cursor_remaining c then
        if WT_QUIC_MAX_TRANSPORT_PARAMETERS <=? zlen (tps_entries out)
        then Some (Fail WT_ERR_PROTOCOL (Some WT_QUIC_TRANSPORT_PARAMETER_ERROR))
        else match read_parameter c with
        | (Fail s e, _) => Some (Fail s e)
        | (Ok e, c') => decode_loop fuel c' (push_parameter out e)
        end
      else Some (Ok out)
  end.

(** The two loops over [i < j]. *)
Fixpoint has_duplicate (es : list wt_quic_transport_parameter) : bool :=
  match es with
  | [] => false
  | e :: es => existsb (fun e' => tp_id e =? tp_id e') es || has_duplicate es
  end.

Definition wt_quic_transport_parameters_decode (data : list Z) : option (outcome wt_quic_transport_parameters) :=
  match decode_loop (S (length data)) (wt_cursor_init (Some data) (zlen data)) wt_quic_transport_parameters_init with
  | Some (Ok out) =>
      if has_duplicate (tps_entries out)
      then Some (Fail WT_ERR_PROTOCOL (Some WT_QUIC_TRANSPORT_PARAMETER_ERROR)) else Some (Ok out)
  | r => r
  end.

(** ** The rules of RFC 9000 section 18.2 *)

(** The status, the code and the offender: [WT_QUIC_TP_REJECT]. *)
Definition tp_reject (id : Z) : wt_status * option Z * Z :=
  (WT_ERR_PROTOCOL, Some WT_QUIC_TRANSPORT_PARAMETER_ERROR, id).

(** [status == WT_OK && test(value)], and the same on a value's length. *)
Definition integer_is (p : wt_quic_transport_parameters) (id : Z) (test : Z -> bool) : bool :=
  match wt_quic_transport_parameters_integer p id with Ok v => test v | Fail _ _ => false end.
Definition length_is (p : wt_quic_transport_parameters) (id : Z) (test : Z -> bool) : bool :=
  match wt_quic_transport_parameters_get p id with Ok v => test (zlen v) | Fail _ _ => false end.

Definition wt_quic_transport_parameters_check (p : wt_quic_transport_parameters) (peer_is_client : bool)
    : wt_status * option Z * Z :=
  if integer_is p WT_QUIC_TP_MAX_UDP_PAYLOAD_SIZE (fun v => v <? WT_QUIC_MIN_MAX_UDP_PAYLOAD_SIZE)
  then tp_reject WT_QUIC_TP_MAX_UDP_PAYLOAD_SIZE
  else if integer_is p WT_QUIC_TP_ACK_DELAY_EXPONENT (fun v => 20 <? v)
  then tp_reject WT_QUIC_TP_ACK_DELAY_EXPONENT
  else if length_is p WT_QUIC_TP_RESET_STREAM_AT (fun n => negb (n =? 0))
  then tp_reject WT_QUIC_TP_RESET_STREAM_AT
  else if integer_is p WT_QUIC_TP_MAX_ACK_DELAY (fun v => 2 ^ 14 <=? v)
  then tp_reject WT_QUIC_TP_MAX_ACK_DELAY
  else if integer_is p WT_QUIC_TP_ACTIVE_CONNECTION_ID_LIMIT (fun v => v <? 2)
  then tp_reject WT_QUIC_TP_ACTIVE_CONNECTION_ID_LIMIT
  else if integer_is p WT_QUIC_TP_INITIAL_MAX_STREAMS_BIDI (fun v => 2 ^ 60 <? v)
  then tp_reject WT_QUIC_TP_INITIAL_MAX_STREAMS_BIDI
  else if integer_is p WT_QUIC_TP_INITIAL_MAX_STREAMS_UNI (fun v => 2 ^ 60 <? v)
  then tp_reject WT_QUIC_TP_INITIAL_MAX_STREAMS_UNI
  else if length_is p WT_QUIC_TP_STATELESS_RESET_TOKEN (fun n => negb (n =? 16))
  then tp_reject WT_QUIC_TP_STATELESS_RESET_TOKEN
  else if peer_is_client && length_is p WT_QUIC_TP_STATELESS_RESET_TOKEN (fun _ => true)
  then tp_reject WT_QUIC_TP_STATELESS_RESET_TOKEN
  else if length_is p WT_QUIC_TP_ORIGINAL_DESTINATION_CONNECTION_ID (fun n => (n =? 0) || (20 <? n))
  then tp_reject WT_QUIC_TP_ORIGINAL_DESTINATION_CONNECTION_ID
  else match List.find (fun id => length_is p id (fun n => 20 <? n))
               [WT_QUIC_TP_INITIAL_SOURCE_CONNECTION_ID; WT_QUIC_TP_RETRY_SOURCE_CONNECTION_ID] with
  | Some id => tp_reject id
  | None => (WT_OK, None, 0)
  end.

(** ** Encoding and building *)

Definition write_parameter (w : wt_writer) (e : wt_quic_transport_parameter) : wt_writer :=
  w |> writer_varint (tp_id e) |> writer_varint (zlen (tp_value e)) |> wt_writer_bytes (tp_value e).

Definition wt_quic_transport_parameters_encode (p : wt_quic_transport_parameters) (w : wt_writer)
    : wt_status * wt_writer :=
  if WT_QUIC_MAX_TRANSPORT_PARAMETERS <? zlen (tps_entries p) then (WT_ERR_INVALID_ARGUMENT, w)
  else if has_duplicate (tps_entries p) then (WT_ERR_INVALID_ARGUMENT, w)
  else writer_status (fold_left write_parameter (tps_entries p) w).

(** The shift of the entries behind [at], and the new one in its place. *)
Definition insert_at (p : wt_quic_transport_parameters) (at' : nat) (e : wt_quic_transport_parameter)
    : wt_quic_transport_parameters :=
  mk_tps (take at' (tps_entries p) ++ e :: drop at' (tps_entries p)) (tps_integer_slots_used p) (tps_sorted p).

Definition wt_quic_tp_insert (p : wt_quic_transport_parameters) (id : Z) (value : list Z)
    : wt_status * wt_quic_transport_parameters :=
  if WT_QUIC_MAX_TRANSPORT_PARAMETERS <=? zlen (tps_entries p) then (WT_ERR_LIMIT, p)
  else if tps_sorted p then
    let at' := wt_quic_tp_lower_bound p id in
    if Nat.ltb at' (length (tps_entries p)) && (entry_id (tps_entries p) at' =? id)
    then (WT_ERR_INVALID_ARGUMENT, p)
    else (WT_OK, insert_at p at' (mk_tp id value))
  else if existsb (fun e => tp_id e =? id) (tps_entries p) then (WT_ERR_INVALID_ARGUMENT, p)
  else (WT_OK, insert_at p (length (tps_entries p)) (mk_tp id value)).

Definition wt_quic_transport_parameters_add_integer (p : wt_quic_transport_parameters) (id value : Z)
    : wt_status * wt_quic_transport_parameters :=
  if WT_QUIC_MAX_TRANSPORT_PARAMETERS <=? tps_integer_slots_used p then (WT_ERR_LIMIT, p)
  else
    let '(written, slot) := wt_quic_varint_encode value 8 in
    if written =? 0 then (WT_ERR_OVERFLOW, p)
    else match wt_quic_tp_insert p id slot with
    | (WT_OK, p') => (WT_OK, mk_tps (tps_entries p') (tps_integer_slots_used p' + 1) (tps_sorted p'))
    | r => r
    end.

Definition wt_quic_transport_parameters_add_bytes (p : wt_quic_transport_parameters) (id : Z) (value : list Z)
    : wt_status * wt_quic_transport_parameters := wt_quic_tp_insert p id value.

(** [status = add(params, ...); if (status != WT_OK) return status;] *)
Definition and_then (r : wt_status * wt_quic_transport_parameters)
    (add : wt_quic_transport_parameters -> wt_status * wt_quic_transport_parameters)
    : wt_status * wt_quic_transport_parameters :=
  match r with (WT_OK, p) => add p | r => r end.

(** [original] is [None] for a client; [retry] is the NULL pointer or the bytes. *)
Definition wt_quic_transport_parameters_build (p0 : wt_quic_transport_parameters) (is_server : bool)
    (source original : list Z) (retried : bool) (retry : list Z) : wt_status * wt_quic_transport_parameters :=
  if zlen source =? 0 then (WT_ERR_INVALID_ARGUMENT, p0)
  else if is_server && (zlen original =? 0) then (WT_ERR_INVALID_ARGUMENT, p0)
  else if retried && (negb is_server || (zlen retry =? 0)) then (WT_ERR_INVALID_ARGUMENT, p0)
  else if negb retried && negb (zlen retry =? 0) then (WT_ERR_INVALID_ARGUMENT, p0)
  else
    let int id v p := wt_quic_transport_parameters_add_integer p id v in
    let bytes id v p := wt_quic_transport_parameters_add_bytes p id v in
    let r := bytes WT_QUIC_TP_INITIAL_SOURCE_CONNECTION_ID source wt_quic_transport_parameters_init in
    let r := if is_server then and_then r (bytes WT_QUIC_TP_ORIGINAL_DESTINATION_CONNECTION_ID original) else r in
    let r := if retried then and_then r (bytes WT_QUIC_TP_RETRY_SOURCE_CONNECTION_ID retry) else r in
    let r := and_then r (int WT_QUIC_TP_INITIAL_MAX_DATA 100000) in
    let r := and_then r (int WT_QUIC_TP_INITIAL_MAX_STREAM_DATA_BIDI_LOCAL 4096) in
    let r := and_then r (int WT_QUIC_TP_INITIAL_MAX_STREAM_DATA_BIDI_REMOTE 4096) in
    let r := and_then r (int WT_QUIC_TP_INITIAL_MAX_STREAM_DATA_UNI 4096) in
    let r := and_then r (int WT_QUIC_TP_INITIAL_MAX_STREAMS_BIDI 8) in
    let r := and_then r (int WT_QUIC_TP_INITIAL_MAX_STREAMS_UNI 8) in
    let r := and_then r (bytes WT_QUIC_TP_RESET_STREAM_AT []) in
    and_then r (int WT_QUIC_TP_MAX_DATAGRAM_FRAME_SIZE 1200).

(** ** The invariant and lookup *)

#[local] Abbreviation ids es := (tp_id <$> es).

Definition parameter_ok (e : wt_quic_transport_parameter) : Prop :=
  varint_ok (tp_id e) /\ varint_ok (zlen (tp_value e)) /\ bytes_ok (tp_value e).

Definition params_inv (p : wt_quic_transport_parameters) : Prop :=
  zlen (tps_entries p) <= WT_QUIC_MAX_TRANSPORT_PARAMETERS /\ NoDup (ids (tps_entries p)) /\
  (tps_sorted p = true -> StronglySorted Z.lt (ids (tps_entries p))) /\ Forall parameter_ok (tps_entries p).

(** The reference lookup: the entry with the identifier. *)
Definition parameter_of (es : list wt_quic_transport_parameter) (id : Z) : option wt_quic_transport_parameter :=
  List.find (fun e => tp_id e =? id) es.

Lemma entry_id_lookup es i e : es !! i = Some e -> entry_id es i = tp_id e.
Proof. unfold entry_id. by intros ->. Qed.

Lemma parameter_of_at es id i e :
  es !! i = Some e -> tp_id e = id -> (forall j, (j < i)%nat -> entry_id es j <> id) -> parameter_of es id = Some e.
Proof.
  unfold parameter_of. revert i. induction es as [|x es IH]; intros i Hi He Hj; [done|]. cbn [List.find].
  destruct i as [|i]; cbn in Hi.
  - simplify_eq. by rewrite Z.eqb_refl.
  - rewrite (proj2 (Z.eqb_neq _ _)) by (apply (Hj 0%nat); lia). apply (IH i); [done|done|].
    intros j Hlt. apply (Hj (S j)). lia.
Qed.

Lemma parameter_of_none es id :
  parameter_of es id = None <-> id ∉ ids es.
Proof.
  unfold parameter_of. induction es as [|x es IH]; cbn; [by split; [intros _; apply not_elem_of_nil|]|].
  rewrite not_elem_of_cons. destruct (Z.eqb_spec (tp_id x) id) as [<-|Hne]; [by split; [|intros []]|].
  rewrite IH. split; [intros Hn; split; [by intros ->|done]|by intros [_ Hn]].
Qed.

Lemma sorted_entries es i j :
  StronglySorted Z.lt (ids es) -> (i < j < length es)%nat -> entry_id es i < entry_id es j.
Proof.
  intros Hs. revert i j. induction es as [|x es IH]; cbn in *; intros i j Hij; [lia|].
  apply StronglySorted_inv in Hs as [Hs Hf]. destruct j as [|j]; [lia|].
  destruct i as [|i]; [|apply (IH Hs i j); lia].
  destruct (lookup_lt_is_Some_2 es j ltac:(lia)) as [e He]. change (tp_id x < from_option tp_id 0 (es !! j)). rewrite He. cbn.
  rewrite Forall_forall in Hf. apply Hf, list_elem_of_fmap. exists e. split; [done|]. by eapply list_elem_of_lookup_2.
Qed.

(** The binary search ends at the first entry that is not below. *)
Lemma lower_bound_spec es id : forall fuel low high,
  StronglySorted Z.lt (ids es) -> (low <= high <= length es)%nat -> (high - low < fuel)%nat ->
  (forall i, (i < low)%nat -> entry_id es i < id) ->
  (forall i, (high <= i < length es)%nat -> id <= entry_id es i) ->
  let r := lower_bound_loop fuel es id low high in
  (r <= length es)%nat /\ (forall i, (i < r)%nat -> entry_id es i < id) /\
  (forall i, (r <= i < length es)%nat -> id <= entry_id es i).
Proof.
  induction fuel as [|fuel IH]; intros low high Hs Hlh Hf Hlow Hhigh; [lia|]. cbn [lower_bound_loop].
  destruct (Nat.ltb_spec low high) as [Hlt|]; [|cbv zeta; split_and!; [lia|done|intros; apply Hhigh; lia]].
  pose proof (Nat.div_lt (high - low) 2 ltac:(lia) ltac:(lia)). cbv zeta.
  set (mid := (low + (high - low) / 2)%nat) in *. destruct (Z.ltb_spec (entry_id es mid) id) as [Hm|Hm].
  - apply IH; [done|lia|lia| |done]. intros i Hi. destruct (decide (i = mid)) as [->|]; [done|].
    pose proof (sorted_entries es i mid Hs ltac:(lia)). lia.
  - apply IH; [done|lia|lia|done|]. intros i Hi. destruct (decide (i = mid)) as [->|]; [done|].
    pose proof (sorted_entries es mid i Hs ltac:(lia)). lia.
Qed.

Lemma tp_lower_bound_spec p id :
  StronglySorted Z.lt (ids (tps_entries p)) ->
  let r := wt_quic_tp_lower_bound p id in
  (r <= length (tps_entries p))%nat /\ (forall i, (i < r)%nat -> entry_id (tps_entries p) i < id) /\
  (forall i, (r <= i < length (tps_entries p))%nat -> id <= entry_id (tps_entries p) i).
Proof. intros Hs. apply lower_bound_spec; try done; lia. Qed.

Lemma tp_entry_exact p id : params_inv p -> wt_quic_tp_entry p id = parameter_of (tps_entries p) id.
Proof.
  intros (_ & _ & Hs & _). unfold wt_quic_tp_entry. destruct (tps_sorted p) eqn:E.
  - destruct (tp_lower_bound_spec p id (Hs eq_refl)) as (Hle & Hlow & Hhigh).
    set (r := wt_quic_tp_lower_bound p id) in *.
    destruct (Nat.ltb_spec r (length (tps_entries p))) as [Hr|Hr]; cbn [andb].
    + destruct (lookup_lt_is_Some_2 (tps_entries p) r Hr) as [e He].
      rewrite (entry_id_lookup _ _ _ He). destruct (Z.eqb_spec (tp_id e) id) as [Heq|Hne].
      * rewrite He. symmetry. apply (parameter_of_at _ _ r); [done|done|]. intros j Hj. specialize (Hlow j Hj). lia.
      * symmetry. apply parameter_of_none. intros (e' & -> & (i & Hi)%list_elem_of_lookup)%list_elem_of_fmap.
        pose proof (lookup_lt_Some _ _ _ Hi). rewrite <- (entry_id_lookup _ _ _ Hi) in *.
        destruct (Nat.lt_trichotomy i r) as [Hlt|[->|Hgt]].
        -- specialize (Hlow i Hlt). lia.
        -- rewrite He in Hi. injection Hi as <-. by rewrite (entry_id_lookup _ _ _ He) in Hne.
        -- pose proof (sorted_entries _ r i (Hs eq_refl) ltac:(lia)). specialize (Hhigh r ltac:(lia)). lia.
    + symmetry. apply parameter_of_none. intros (e' & -> & (i & Hi)%list_elem_of_lookup)%list_elem_of_fmap.
      pose proof (lookup_lt_Some _ _ _ Hi). specialize (Hlow i ltac:(lia)). rewrite (entry_id_lookup _ _ _ Hi) in Hlow. lia.
  - clear Hs E. unfold parameter_of. induction (tps_entries p) as [|x es IH]; [done|]. cbn.
    destruct (tp_id x =? id); [done|]. rewrite <- IH. by destruct (first_index _ es).
Qed.

Lemma get_exact p id :
  params_inv p ->
  wt_quic_transport_parameters_get p id =
    match parameter_of (tps_entries p) id with Some e => Ok (tp_value e) | None => Fail WT_ERR_INVALID_ARGUMENT None end.
Proof. intros Hp. unfold wt_quic_transport_parameters_get. by rewrite tp_entry_exact. Qed.

(** ** Insertion *)

Lemma has_duplicate_spec es : has_duplicate es = false <-> NoDup (ids es).
Proof.
  induction es as [|e es IH]; cbn; [by split; [constructor|]|]. rewrite NoDup_cons, orb_false_iff, IH.
  rewrite <- not_true_iff_false, existsb_exists. setoid_rewrite Z.eqb_eq. setoid_rewrite <- list_elem_of_In.
  rewrite list_elem_of_fmap. split.
  - intros [Hx Hn]. split; [|done]. intros (e' & He & Hin). apply Hx. by exists e'.
  - intros [Hx Hn]. split; [|done]. intros (e' & Hin & He). apply Hx. by exists e'.
Qed.

Lemma parameter_of_app a b id :
  parameter_of (a ++ b) id = match parameter_of a id with Some e => Some e | None => parameter_of b id end.
Proof. unfold parameter_of. induction a as [|x a IH]; cbn; [done|]. by destruct (tp_id x =? id). Qed.

(** The entries after an insertion at any place hold the new one and the old ones. *)
Lemma parameter_of_insert es i e id :
  tp_id e ∉ ids es ->
  parameter_of (take i es ++ e :: drop i es) id = if tp_id e =? id then Some e else parameter_of es id.
Proof.
  intros Hni. rewrite parameter_of_app. rewrite <- (take_drop i es) in Hni at 1. rewrite fmap_app, not_elem_of_app in Hni.
  destruct Hni as [Hni1 Hni2]. destruct (Z.eqb_spec (tp_id e) id) as [<-|Hne].
  - rewrite (proj2 (parameter_of_none _ _) Hni1). unfold parameter_of. cbn. by rewrite Z.eqb_refl.
  - replace (parameter_of es id) with (parameter_of (take i es ++ drop i es) id) by by rewrite take_drop.
    rewrite parameter_of_app. destruct (parameter_of (take i es) id); [done|].
    unfold parameter_of. cbn. by rewrite (proj2 (Z.eqb_neq _ _) Hne).
Qed.

Lemma StronglySorted_insert es i e :
  StronglySorted Z.lt (ids es) ->
  (forall j, (j < i)%nat -> entry_id es j < tp_id e) ->
  (forall j, (i <= j < length es)%nat -> tp_id e < entry_id es j) -> (i <= length es)%nat ->
  StronglySorted Z.lt (ids (take i es ++ e :: drop i es)).
Proof.
  revert i. induction es as [|x es IH]; intros i Hs Hlow Hhigh Hi; cbn in *.
  - replace i with 0%nat by lia. cbn. constructor; constructor.
  - pose proof Hs as [Hs' Hf]%StronglySorted_inv. destruct i as [|i]; cbn.
    + constructor; [done|]. constructor; [exact (Hhigh 0%nat ltac:(lia))|].
      pose proof (Hhigh 0%nat ltac:(lia)) as H0. unfold entry_id in H0. cbn in H0.
      eapply Forall_impl; [exact Hf|]. cbn. lia.
    + constructor.
      * apply IH; [done| | |lia].
        -- intros j Hj. apply (Hlow (S j)). lia.
        -- intros j Hj. apply (Hhigh (S j)). lia.
      * rewrite fmap_app, fmap_cons. apply Forall_app. split; [|constructor].
        -- rewrite fmap_take. by apply Forall_take.
        -- exact (Hlow 0%nat ltac:(lia)).
        -- rewrite fmap_drop. by apply Forall_drop.
Qed.

(** An insertion refuses a full list and a second entry, and otherwise adds the
    entry and nothing else. *)
Lemma tp_insert_exact p id value :
  params_inv p -> varint_ok id -> varint_ok (zlen value) -> bytes_ok value ->
  let '(st, p') := wt_quic_tp_insert p id value in
  if WT_QUIC_MAX_TRANSPORT_PARAMETERS <=? zlen (tps_entries p) then st = WT_ERR_LIMIT /\ p' = p
  else match parameter_of (tps_entries p) id with
  | Some _ => st = WT_ERR_INVALID_ARGUMENT /\ p' = p
  | None => st = WT_OK /\ params_inv p' /\ tps_sorted p' = tps_sorted p /\
            tps_integer_slots_used p' = tps_integer_slots_used p /\
            zlen (tps_entries p') = zlen (tps_entries p) + 1 /\
            forall id', parameter_of (tps_entries p') id' =
              if id =? id' then Some (mk_tp id value) else parameter_of (tps_entries p) id'
  end.
Proof.
  intros Hp Hid Hz Hok. pose proof (tp_entry_exact p id Hp) as Hent. pose proof Hp as (Hl & Hnd & Hs & Hf).
  unfold wt_quic_tp_insert. destruct (Z.leb_spec WT_QUIC_MAX_TRANSPORT_PARAMETERS (zlen (tps_entries p))) as [|Hlt]; [done|].
  assert (Hins : forall at', id ∉ ids (tps_entries p) -> (at' <= length (tps_entries p))%nat ->
    (tps_sorted p = true -> (forall j, (j < at')%nat -> entry_id (tps_entries p) j < id) /\
       forall j, (at' <= j < length (tps_entries p))%nat -> id < entry_id (tps_entries p) j) ->
    let p' := insert_at p at' (mk_tp id value) in
    WT_OK = WT_OK /\ params_inv p' /\ tps_sorted p' = tps_sorted p /\
    tps_integer_slots_used p' = tps_integer_slots_used p /\ zlen (tps_entries p') = zlen (tps_entries p) + 1 /\
    forall id', parameter_of (tps_entries p') id' =
      if id =? id' then Some (mk_tp id value) else parameter_of (tps_entries p) id').
  { intros at' Hni Hat Hsort p'.
    assert (Hperm : tps_entries p' ≡ₚ mk_tp id value :: tps_entries p).
    { unfold p', insert_at; cbn. by rewrite <- Permutation_middle, take_drop. }
    assert (Hlen : zlen (tps_entries p') = zlen (tps_entries p) + 1).
    { unfold zlen. rewrite Hperm. cbn. lia. }
    split; [done|]. split; [|split; [done|split; [done|split; [done|intros id'; by apply (parameter_of_insert _ _ (mk_tp id value))]]]].
    split_and!; [lia|rewrite Hperm; by constructor| |rewrite Hperm; by constructor].
    intros E. destruct (Hsort E). by apply StronglySorted_insert; [apply Hs|..]. }
  destruct (tps_sorted p) eqn:E.
  - destruct (tp_lower_bound_spec p id (Hs eq_refl)) as (Hle & Hlow & Hhigh). set (r := wt_quic_tp_lower_bound p id) in *.
    unfold wt_quic_tp_entry in Hent. rewrite E in Hent. fold r in Hent.
    destruct (Nat.ltb r _ && _) eqn:Hc.
    + apply andb_true_iff in Hc as [Hr%Nat.ltb_lt _]. destruct (lookup_lt_is_Some_2 _ _ Hr) as [e He].
      rewrite He in Hent. by rewrite <- Hent.
    + rewrite <- Hent. apply Hins; [by apply parameter_of_none|done|]. intros _. split; [done|].
      intros j Hj. specialize (Hhigh j Hj).
      assert (entry_id (tps_entries p) j <> id); [|lia]. intros Heq.
      symmetry in Hent. apply parameter_of_none in Hent. apply Hent.
      destruct (lookup_lt_is_Some_2 (tps_entries p) j ltac:(lia)) as [e He]. rewrite <- Heq, (entry_id_lookup _ _ _ He).
      apply list_elem_of_fmap. exists e. split; [done|]. by eapply list_elem_of_lookup_2.
  - destruct (existsb _ _) eqn:Hx.
    + apply existsb_exists in Hx as (e & Hin%list_elem_of_In & Heq%Z.eqb_eq).
      destruct (parameter_of (tps_entries p) id) eqn:Hpo; [done|]. apply parameter_of_none in Hpo. exfalso. apply Hpo.
      rewrite <- Heq. by apply list_elem_of_fmap_2.
    + assert (Hni : id ∉ ids (tps_entries p)).
      { intros (e & -> & Hin)%list_elem_of_fmap. apply not_true_iff_false in Hx. apply Hx, existsb_exists.
        exists e. split; [by apply list_elem_of_In|apply Z.eqb_refl]. }
      rewrite (proj2 (parameter_of_none _ _) Hni). by apply Hins.
Qed.

(** ** The wire format *)

Definition parameter_wire (e : wt_quic_transport_parameter) : list Z :=
  varint_bytes (tp_id e) ++ varint_bytes (zlen (tp_value e)) ++ tp_value e.
Definition parameters_wire (es : list wt_quic_transport_parameter) : list Z := concat (parameter_wire <$> es).

Lemma decodes_parameter e : parameter_ok e -> decodes read_parameter (parameter_wire e) e.
Proof.
  intros (Hi & Hz & Hok). unfold read_parameter, parameter_wire.
  eapply decodes_bind; [apply decodes_failing_as; by apply decodes_varint|].
  eapply decodes_bind; [apply decodes_failing_as; by apply decodes_varint_min|]. cbv beta iota.
  unfold wt_quic_varint_is_minimal. rewrite Z.eqb_refl. cbn [negb].
  intros c tl Hl Hv. unfold read_value, wt_checked_narrow_u64_to_size. unfold varint_ok, WT_QUIC_VARINT_MAX in Hz.
  rewrite (proj2 (Z.ltb_ge _ _)) by (unfold SIZE_MAX, U64_MAX; lia). no_wrap.
  rewrite cursor_remaining_view by apply Hl. rewrite Hv, zlen_app. pose proof (zlen_nonneg tl).
  rewrite (proj2 (Z.ltb_ge _ _)) by lia. unfold wt_cursor_bytes. rewrite (cursor_take_live c _ _ tl Hl Hv eq_refl).
  by destruct e.
Qed.

Lemma parameter_wire_pos e : parameter_ok e -> 0 < zlen (parameter_wire e).
Proof.
  intros (Hi & Hz & _). unfold parameter_wire. rewrite !zlen_app. pose proof (varint_bytes_pos _ Hi).
  pose proof (zlen_nonneg (varint_bytes (zlen (tp_value e)))). pose proof (zlen_nonneg (tp_value e)). lia.
Qed.

(** Parsing the wire form appends the entries one by one. *)
Lemma decode_loop_wire es : forall fuel c out,
  Forall parameter_ok es -> cursor_live c -> cursor_view c = parameters_wire es -> (length es < fuel)%nat ->
  zlen (tps_entries out) + zlen es <= WT_QUIC_MAX_TRANSPORT_PARAMETERS ->
  decode_loop fuel c out = Some (Ok (fold_left push_parameter es out)).
Proof.
  induction es as [|e es IH]; intros fuel c out Hes Hl Hv Hf Hz; (destruct fuel as [|fuel]; [lia|]); cbn [decode_loop].
  - rewrite cursor_remaining_view by apply Hl. by rewrite Hv.
  - apply Forall_cons in Hes as [He Hes]. unfold parameters_wire in Hv. cbn [concat fmap list_fmap] in Hv.
    fold (parameters_wire es) in Hv. rewrite cursor_remaining_view by apply Hl.
    pose proof (parameter_wire_pos e He). pose proof (zlen_nonneg (parameters_wire es)). rewrite Hv, zlen_app.
    rewrite (proj2 (Z.ltb_lt _ _)) by lia. rewrite zlen_cons in Hz. pose proof (zlen_nonneg es).
    rewrite (proj2 (Z.leb_gt _ _)) by lia. rewrite (decodes_parameter e He c _ Hl Hv). cbn [fold_left].
    apply IH; [done| | |cbn in Hf; lia|].
    + apply cursor_advance_live; [done|]. rewrite Hv, zlen_app. lia.
    + by apply (cursor_advance_view c _ _ _ (proj1 Hl) Hv eq_refl).
    + cbn. rewrite zlen_app, zlen_cons, zlen_nil. lia.
Qed.

Lemma parameters_wire_length es : Forall parameter_ok es -> (length es <= length (parameters_wire es))%nat.
Proof.
  induction 1 as [|e es He _ IH]; [done|]. unfold parameters_wire in *. cbn. rewrite length_app.
  pose proof (parameter_wire_pos e He). unfold zlen in *. lia.
Qed.

Lemma parameters_wire_ok es : Forall parameter_ok es -> bytes_ok (parameters_wire es).
Proof.
  induction 1 as [|e es (_ & _ & He) _ IH]; [constructor|]. unfold parameters_wire. cbn.
  apply Forall_app; split; [|done]. unfold parameter_wire. repeat (apply Forall_app; split); try done; apply varint_bytes_ok.
Qed.

(** A list is marked sorted when its identifiers ascend. *)
Definition ascending (es : list wt_quic_transport_parameter) : bool := bool_decide (StronglySorted Z.le (ids es)).

Lemma StronglySorted_last (l : list Z) x :
  StronglySorted Z.le l -> Forall (fun y => y <= x) l <-> match last l with Some z => z <= x | None => True end.
Proof.
  intros Hs. induction l as [|y l IH] using rev_ind; [by split; [|constructor]|]. rewrite last_snoc.
  apply StronglySorted_snoc in Hs as [Hs Hy]. rewrite Forall_app. split; [by intros [_ [? _]%Forall_cons]|].
  intros Hyx. split; [|by constructor]. eapply Forall_impl; [exact Hy|]. cbn. lia.
Qed.

Lemma push_ascending es e slots :
  push_parameter (mk_tps es slots (ascending es)) e = mk_tps (es ++ [e]) slots (ascending (es ++ [e])).
Proof.
  unfold push_parameter; cbn. f_equal. unfold ascending. rewrite fmap_app. cbn [fmap list_fmap].
  destruct (decide (StronglySorted Z.le (ids es))) as [Hs|Hs].
  - rewrite (bool_decide_true _ Hs). cbn [andb]. pose proof (StronglySorted_last (ids es) (tp_id e) Hs) as Hl.
    rewrite fmap_last in Hl. destruct (last es) as [l|]; cbn [option_fmap option_map fmap] in Hl.
    + destruct (Z.ltb_spec (tp_id e) (tp_id l)); cbn [negb]; symmetry.
      * apply bool_decide_false. rewrite StronglySorted_snoc, Hl. lia.
      * apply bool_decide_true. rewrite StronglySorted_snoc, Hl. split; [done|lia].
    + symmetry. apply bool_decide_true. by rewrite StronglySorted_snoc, Hl.
  - rewrite (bool_decide_false _ Hs). cbn [andb]. symmetry. apply bool_decide_false. by rewrite StronglySorted_snoc; intros [].
Qed.

Lemma push_all es es0 slots :
  fold_left push_parameter es (mk_tps es0 slots (ascending es0)) = mk_tps (es0 ++ es) slots (ascending (es0 ++ es)).
Proof.
  revert es0. induction es as [|e es IH]; intros es0; [by rewrite app_nil_r|]. cbn [fold_left].
  rewrite push_ascending, IH. by rewrite <- app_assoc.
Qed.

Lemma appends_parameters es : Forall parameter_ok es -> appends (fold_left write_parameter es) (parameters_wire es).
Proof.
  induction 1 as [|e es (Hi & Hz & _) _ IH]; [apply appends_id|].
  apply (appends_seq (fun w => write_parameter w e) (fold_left write_parameter es)); [|done].
  unfold write_parameter, parameter_wire. rewrite app_assoc. apply appends_seq; [|apply appends_bytes].
  apply appends_seq; by apply appends_varint.
Qed.

Lemma StronglySorted_lt_le (l : list Z) : NoDup l -> StronglySorted Z.le l -> StronglySorted Z.lt l.
Proof.
  induction 2 as [|x l Hs IH Hf]; [constructor|]. apply NoDup_cons in H as [Hx Hnd]. constructor; [by apply IH|].
  apply Forall_forall. intros y Hy. rewrite Forall_forall in Hf. specialize (Hf y Hy).
  assert (x <> y) by by intros ->. lia.
Qed.

Lemma StronglySorted_le_lt (l : list Z) : StronglySorted Z.lt l -> StronglySorted Z.le l.
Proof. induction 1 as [|x l Hs IH Hf]; constructor; [done|]. eapply Forall_impl; [exact Hf|]. cbn. lia. Qed.

Lemma ascending_inv es :
  Forall parameter_ok es -> NoDup (ids es) -> zlen es <= WT_QUIC_MAX_TRANSPORT_PARAMETERS ->
  params_inv (mk_tps es 0 (ascending es)).
Proof.
  intros Hok Hnd Hz. split_and!; cbn; try done. intros Ha%bool_decide_eq_true_1. by apply StronglySorted_lt_le.
Qed.

Lemma encodes_parameters p :
  params_inv p -> encodes (wt_quic_transport_parameters_encode p) (parameters_wire (tps_entries p)).
Proof.
  intros (Hl & Hnd & _ & Hf).
  apply (encodes_ext _ (fun w => writer_status (fold_left write_parameter (tps_entries p) w))).
  - intros w0. unfold wt_quic_transport_parameters_encode. rewrite (proj2 (Z.ltb_ge _ _)) by done.
    by rewrite (proj2 (has_duplicate_spec _) Hnd).
  - apply encodes_status. by apply appends_parameters.
Qed.

(** Decoding what an encoder wrote, and that it answers as the list did. *)
Lemma decode_encoded p :
  params_inv p -> zlen (parameters_wire (tps_entries p)) < 2 ^ 64 ->
  let p' := mk_tps (tps_entries p) 0 (ascending (tps_entries p)) in
  wt_quic_transport_parameters_decode (parameters_wire (tps_entries p)) = Some (Ok p') /\ params_inv p' /\
  (tps_sorted p = true -> tps_sorted p' = true) /\
  forall id, wt_quic_transport_parameters_get p' id = wt_quic_transport_parameters_get p id.
Proof.
  intros Hp Hz p'. pose proof Hp as (Hl & Hnd & Hs & Hf). assert (Hp' : params_inv p') by by apply ascending_inv.
  split_and!; [|done| |].
  - unfold wt_quic_transport_parameters_decode.
    rewrite (decode_loop_wire (tps_entries p)); [|done|by apply cursor_init_live; [|apply parameters_wire_ok]|done| |].
    + rewrite (push_all _ [] 0). cbn [app tps_entries]. by rewrite (proj2 (has_duplicate_spec _) Hnd).
    + pose proof (parameters_wire_length _ Hf). lia.
    + cbn. change (zlen (@nil wt_quic_transport_parameter)) with 0. lia.
  - intros E. apply bool_decide_true. by apply StronglySorted_le_lt, Hs.
  - intros id. by rewrite !get_exact.
Qed.

(** C25. Encoding a well-formed parameter list writes its entries in order, and decoding
    those bytes gives a well-formed list with the same entries, in the same order, still
    sorted if it was, with the same answer to every lookup. *)
Theorem transport_parameters_roundtrip p w :
  params_inv p -> writer_inv w -> w_overflow w = false -> w_copy w = true ->
  let wire := parameters_wire (tps_entries p) in
  zlen wire <= writer_room w ->
  (wt_quic_transport_parameters_encode p w).1 = WT_OK /\
  writer_bytes (wt_quic_transport_parameters_encode p w).2 = writer_bytes w ++ wire /\
  exists p', wt_quic_transport_parameters_decode wire = Some (Ok p') /\ params_inv p' /\
    tps_entries p' = tps_entries p /\ (tps_sorted p = true -> tps_sorted p' = true) /\
    forall id, wt_quic_transport_parameters_get p' id = wt_quic_transport_parameters_get p id.
Proof.
  intros Hp Hw Hov Hcp wire Hroom.
  destruct (encodes_bytes _ _ w (encodes_parameters p Hp) Hw Hov Hcp Hroom) as [He1 He2]. split; [done|]. split; [done|].
  destruct (decode_encoded p Hp) as (Hd & Hp' & Hs & Hg).
  { destruct Hw as (? & ? & _); unfold writer_room in Hroom. fold wire. lia. }
  eexists. split; [exact Hd|]. by split_and!.
Qed.

Lemma transport_parameters_roundtrip_witness :
  exists p', wt_quic_transport_parameters_decode [4; 2; 0x41; 0x00; 0x1d; 0] = Some (Ok p') /\
    wt_quic_transport_parameters_integer p' 4 = Ok 256 /\ wt_quic_transport_parameters_get p' 0x1d = Ok [].
Proof.
  set (p := mk_tps [mk_tp 4 [0x41; 0]; mk_tp 0x1d []] 0 true).
  destruct (transport_parameters_roundtrip p (wt_writer_init (Some (replicate 8 0)) 8)) as (_ & _ & p' & Hd & _ & He & Hs & _).
  - split_and!; [vm_compute; discriminate|by apply (bool_decide_unpack _)| |].
    + intros _. by apply (bool_decide_unpack _).
    + unfold parameter_ok, varint_ok. cbn.
      repeat constructor; cbn; try lia; try (vm_compute; discriminate).
  - apply (writer_init_inv (replicate 8 0)). done.
  - done.
  - done.
  - vm_compute. discriminate.
  - exists p'. split; [exact Hd|]. specialize (Hs eq_refl). destruct p' as [es slots sorted]. cbn in He, Hs. subst es sorted.
    split; vm_compute; reflexivity.
Defined.

(** The lookup, by binary search on a sorted list or by a scan, is the reference lookup of the entry with the identifier. Adding a parameter is refused exactly when the table is full or the identifier present; otherwise it keeps the list well-formed, the new identifier is found with its value and every other lookup answers as before. *)
Lemma transport_parameter_lookup_exact p id value :
  params_inv p -> varint_ok id -> varint_ok (zlen value) -> bytes_ok value ->
  wt_quic_transport_parameters_get p id =
    match parameter_of (tps_entries p) id with Some e => Ok (tp_value e) | None => Fail WT_ERR_INVALID_ARGUMENT None end /\
  let '(st, p') := wt_quic_transport_parameters_add_bytes p id value in
  st = (if WT_QUIC_MAX_TRANSPORT_PARAMETERS <=? zlen (tps_entries p) then WT_ERR_LIMIT
        else if bool_decide (id ∈ tp_id <$> tps_entries p) then WT_ERR_INVALID_ARGUMENT else WT_OK) /\
  params_inv p' /\
  forall id', wt_quic_transport_parameters_get p' id' =
    if bool_decide (st = WT_OK) && (id =? id') then Ok value else wt_quic_transport_parameters_get p id'.
Proof.
  intros Hp Hid Hz Hok. split; [by apply get_exact|]. unfold wt_quic_transport_parameters_add_bytes.
  pose proof (tp_insert_exact p id value Hp Hid Hz Hok) as Hi. destruct (wt_quic_tp_insert p id value) as [st p'].
  destruct (_ <=? _); [destruct Hi as [-> ->]; by split_and!|].
  destruct (parameter_of (tps_entries p) id) eqn:E.
  - destruct Hi as [-> ->]. split_and!; [|done|done]. rewrite bool_decide_true; [done|].
    destruct (decide (id ∈ ids (tps_entries p))) as [|Hni]; [done|]. apply parameter_of_none in Hni. congruence.
  - apply parameter_of_none in E. destruct Hi as (-> & Hp' & _ & _ & _ & Hlook). rewrite bool_decide_false by done.
    split_and!; [done|done|]. intros id'. rewrite !get_exact by done. rewrite Hlook. cbn [bool_decide andb].
    rewrite bool_decide_true by done. cbn [andb]. by destruct (id =? id').
Qed.

Lemma transport_parameter_lookup_exact_witness :
  let p := mk_tps [mk_tp 4 [7]; mk_tp 9 []] 0 true in
  wt_quic_transport_parameters_get p 9 = Ok [] /\
  (wt_quic_transport_parameters_add_bytes p 5 [1]).1 = WT_OK /\
  wt_quic_transport_parameters_get (wt_quic_transport_parameters_add_bytes p 5 [1]).2 4 = Ok [7].
Proof.
  cbv zeta. destruct (transport_parameter_lookup_exact (mk_tps [mk_tp 4 [7]; mk_tp 9 []] 0 true) 5 [1]) as [_ H].
  - split_and!; [vm_compute; discriminate|by apply (bool_decide_unpack _)| |].
    + intros _. by apply (bool_decide_unpack _).
    + unfold parameter_ok, varint_ok. repeat constructor; cbn; try lia; vm_compute; discriminate.
  - split; vm_compute; discriminate.
  - split; vm_compute; discriminate.
  - by apply bytes_okb_spec.
  - destruct H as (_ & _ & H). split; [vm_compute; reflexivity|]. split; [vm_compute; reflexivity|].
    etransitivity; [exact (H 4)|vm_compute; reflexivity].
Defined.

(** ** Decoding arbitrary bytes *)

Definition parameter_error (s : wt_status) (e : option Z) : Prop :=
  s = WT_ERR_TRUNCATED /\ e = None \/ s = WT_ERR_PROTOCOL /\ e = Some WT_QUIC_TRANSPORT_PARAMETER_ERROR.

Lemma read_value_safe id n : varint_ok id -> varint_ok n -> parser_safe parameter_ok (read_value id n).
Proof.
  intros Hid Hn c Hi. unfold read_value, wt_checked_narrow_u64_to_size.
  unfold varint_ok, WT_QUIC_VARINT_MAX in Hn. rewrite (proj2 (Z.ltb_ge _ _)) by (unfold SIZE_MAX, U64_MAX; lia). no_wrap.
  destruct (wt_cursor_remaining c <? n); [cbn; split_and!; auto; lia|].
  pose proof (cursor_take_safe n c Hi ltac:(lia)) as Hs. unfold wt_cursor_bytes.
  destruct (wt_cursor_take n c) as [[bs|] c']; destruct Hs as (? & ? & ? & Hs); cbn.
  - destruct Hs as (Hz & Hok & _ & ? & _). split_and!; auto; [lia|].
    unfold parameter_ok, varint_ok, WT_QUIC_VARINT_MAX in *. cbn. split_and!; try done; lia.
  - split_and!; auto. unfold parameter_ok, varint_ok, WT_QUIC_VARINT_MAX in *. cbn. change (zlen (@nil Z)) with 0.
    split_and!; try lia; constructor.
Qed.

Lemma read_after_id_safe id :
  varint_ok id ->
  parser_safe parameter_ok
    (r <- failing_as WT_ERR_TRUNCATED None wt_quic_varint_decode_sized;;
     let '(value_len, value_len_size) := r in
     if negb (wt_quic_varint_is_minimal value_len value_len_size)
     then pfail WT_ERR_PROTOCOL (Some WT_QUIC_TRANSPORT_PARAMETER_ERROR) else read_value id value_len).
Proof.
  intros Hid. eapply parser_safe_bind; [apply failing_as_safe; apply varint_decode_sized_safe|].
  intros [n size] [Hn _]. destruct (negb _); [apply parser_safe_fail|by apply read_value_safe].
Qed.

Lemma read_parameter_safe : parser_safe parameter_ok read_parameter.
Proof. eapply parser_safe_bind; [apply failing_as_safe; auto with wt|]. apply read_after_id_safe. Qed.

Lemma read_parameter_consumes : parser_consumes read_parameter.
Proof.
  eapply parser_consumes_bind; [apply failing_as_safe; auto with wt|apply failing_as_consumes; auto with wt|].
  apply read_after_id_safe.
Qed.

Lemma read_parameter_fails : parser_fails parameter_error read_parameter.
Proof.
  eapply parser_fails_bind; [apply failing_as_safe; auto with wt|apply failing_as_fails; by left|]. intros id _.
  eapply parser_fails_bind; [apply failing_as_safe; apply varint_decode_sized_safe|apply failing_as_fails; by left|].
  intros [n size] _. destruct (negb _); [apply parser_fails_fail; by right|]. intros c _. unfold read_value.
  destruct (wt_checked_narrow_u64_to_size n); cbn; [|by left]. destruct (_ <? _); cbn; [by left|].
  by destruct (wt_cursor_bytes _ _).
Qed.

(** The walk ends, keeps its list within the bound and marks it as it is. *)
Lemma decode_loop_safe fuel : forall c es,
  cursor_inv c -> zlen (cursor_view c) < Z.of_nat fuel -> Forall parameter_ok es ->
  zlen es <= WT_QUIC_MAX_TRANSPORT_PARAMETERS ->
  exists o, decode_loop fuel c (mk_tps es 0 (ascending es)) = Some o /\
    match o with
    | Ok p => exists es', p = mk_tps es' 0 (ascending es') /\ Forall parameter_ok es' /\
                zlen es' <= WT_QUIC_MAX_TRANSPORT_PARAMETERS
    | Fail s e => parameter_error s e
    end.
Proof.
  induction fuel as [|fuel IH]; intros c es Hi Hf Hok Hz; [pose proof (zlen_nonneg (cursor_view c)); lia|].
  cbn [decode_loop tps_entries]. destruct (Z.ltb_spec 0 (wt_cursor_remaining c)) as [Hr|].
  2: { eexists. split; [done|]. by exists es. }
  destruct (Z.leb_spec WT_QUIC_MAX_TRANSPORT_PARAMETERS (zlen es)) as [|Hlt]; [eexists; split; [done|by right]|].
  destruct (read_parameter_safe c Hi) as (Hi' & Hd' & Hl' & Ho & HQ). pose proof (read_parameter_consumes c Hi) as Hc.
  pose proof (read_parameter_fails c Hi) as Hfail.
  pose proof (cursor_view_len c Hi) as Hv. pose proof (cursor_view_len _ Hi') as Hv'.
  destruct (read_parameter c) as [[e|s e] c'] eqn:E; cbn in *; [|eexists; split; [done|exact Hfail]].
  rewrite push_ascending. apply IH; [done|lia|apply Forall_app; split; [done|by constructor]|].
  rewrite zlen_app, zlen_cons, zlen_nil. lia.
Qed.

(** Decoding transport parameters from any bytes ends, with a well-formed list in which lookup is the reference lookup or with one of the listed errors. *)
Lemma transport_parameters_decode_arbitrary_bytes d :
  block_ok d ->
  exists o, wt_quic_transport_parameters_decode d = Some o /\
    match o with
    | Ok p => params_inv p /\ forall id, wt_quic_transport_parameters_get p id =
                match parameter_of (tps_entries p) id with
                | Some e => Ok (tp_value e) | None => Fail WT_ERR_INVALID_ARGUMENT None end
    | Fail s e => parameter_error s e
    end.
Proof.
  intros Hb. pose proof (block_ok_live d Hb) as [Hi _]. unfold wt_quic_transport_parameters_decode.
  destruct (decode_loop_safe (S (length d)) (wt_cursor_init (Some d) (zlen d)) [] Hi) as (o & Hl & Ho);
    [rewrite cursor_init_view; unfold zlen; lia|constructor|done|].
  replace (ascending []) with true in Hl by (symmetry; apply bool_decide_true; constructor). 
  unfold wt_quic_transport_parameters_init. rewrite Hl.
  destruct o as [p|s e]; [|by eexists]. destruct Ho as (es & -> & Hok & Hz). cbn [tps_entries].
  destruct (has_duplicate es) eqn:Hdup; [eexists; split; [done|by right]|]. eexists. split; [done|].
  assert (params_inv (mk_tps es 0 (ascending es))) by (apply ascending_inv; [done|by apply has_duplicate_spec|done]).
  split; [done|]. intros id. by apply get_exact.
Qed.

Lemma transport_parameters_decode_arbitrary_bytes_witness :
  wt_quic_transport_parameters_decode [9; 1; 5; 4; 1; 7; 9; 0] =
    Some (Fail WT_ERR_PROTOCOL (Some WT_QUIC_TRANSPORT_PARAMETER_ERROR)) /\
  parameter_error WT_ERR_PROTOCOL (Some WT_QUIC_TRANSPORT_PARAMETER_ERROR).
Proof.
  assert (E : wt_quic_transport_parameters_decode [9; 1; 5; 4; 1; 7; 9; 0] =
    Some (Fail WT_ERR_PROTOCOL (Some WT_QUIC_TRANSPORT_PARAMETER_ERROR))) by (vm_compute; reflexivity).
  split; [exact E|].
  destruct (transport_parameters_decode_arbitrary_bytes [9; 1; 5; 4; 1; 7; 9; 0]) as (o & Ho & H).
  - split; [by apply bytes_okb_spec|done].
  - rewrite E in Ho. injection Ho as <-. exact H.
Defined.

(** ** What this endpoint sends, its peer accepts *)

(** The lists the builder makes, in the order of their identifiers. *)
Definition built_entries (original retry : option (list Z)) (source : list Z) : list wt_quic_transport_parameter :=
  match original with Some o => [mk_tp WT_QUIC_TP_ORIGINAL_DESTINATION_CONNECTION_ID o] | None => [] end ++
  [mk_tp WT_QUIC_TP_INITIAL_MAX_DATA (varint_bytes 100000);
   mk_tp WT_QUIC_TP_INITIAL_MAX_STREAM_DATA_BIDI_LOCAL (varint_bytes 4096);
   mk_tp WT_QUIC_TP_INITIAL_MAX_STREAM_DATA_BIDI_REMOTE (varint_bytes 4096);
   mk_tp WT_QUIC_TP_INITIAL_MAX_STREAM_DATA_UNI (varint_bytes 4096);
   mk_tp WT_QUIC_TP_INITIAL_MAX_STREAMS_BIDI [8]; mk_tp WT_QUIC_TP_INITIAL_MAX_STREAMS_UNI [8];
   mk_tp WT_QUIC_TP_INITIAL_SOURCE_CONNECTION_ID source] ++
  match retry with Some r => [mk_tp WT_QUIC_TP_RETRY_SOURCE_CONNECTION_ID r] | None => [] end ++
  [mk_tp WT_QUIC_TP_RESET_STREAM_AT []; mk_tp WT_QUIC_TP_MAX_DATAGRAM_FRAME_SIZE (varint_bytes 1200)].

Definition when (b : bool) (bs : list Z) : option (list Z) := if b then Some bs else None.

Definition cid_value_ok (bs : list Z) : Prop := 1 <= zlen bs <= 20 /\ bytes_ok bs.

Lemma build_explicit p0 (is_server : bool) source original (retried : bool) retry :
  cid_value_ok source -> (is_server = true -> cid_value_ok original) ->
  (if retried then is_server = true /\ cid_value_ok retry else retry = []) ->
  wt_quic_transport_parameters_build p0 is_server source original retried retry =
    (WT_OK, mk_tps (built_entries (when is_server original) (when retried retry) source) 7 true).
Proof.
  intros [Hs _] Ho Hr. unfold wt_quic_transport_parameters_build. rewrite (proj2 (Z.eqb_neq _ 0)) by lia.
  destruct is_server.
  - destruct (Ho eq_refl) as [Hoz _]. rewrite (proj2 (Z.eqb_neq (zlen original) 0)) by lia. destruct retried.
    + destruct Hr as (_ & Hrz & _). rewrite (proj2 (Z.eqb_neq (zlen retry) 0)) by lia. reflexivity.
    + subst retry. reflexivity.
  - destruct retried; [by destruct Hr|]. subst retry. reflexivity.
Qed.

Lemma check_ext p p' b :
  (forall id, wt_quic_transport_parameters_get p id = wt_quic_transport_parameters_get p' id) ->
  wt_quic_transport_parameters_check p b = wt_quic_transport_parameters_check p' b.
Proof.
  intros Hg. assert (Hi : forall id f, integer_is p id f = integer_is p' id f).
  { intros. unfold integer_is, wt_quic_transport_parameters_integer. by rewrite Hg. }
  assert (Hl : forall id f, length_is p id f = length_is p' id f) by (intros; unfold length_is; by rewrite Hg).
  unfold wt_quic_transport_parameters_check. rewrite !Hi, !Hl. cbn [List.find]. by rewrite !Hl.
Qed.

Lemma built_inv original retry source :
  cid_value_ok source -> from_option cid_value_ok True original -> from_option cid_value_ok True retry ->
  params_inv (mk_tps (built_entries original retry source) 7 true) /\
  zlen (parameters_wire (built_entries original retry source)) < 2 ^ 64.
Proof.
  intros Hs Ho Hr.
  assert (Hv : forall id v, varint_ok id -> cid_value_ok v -> parameter_ok (mk_tp id v)).
  { intros id v Hid [Hz Hok]. unfold parameter_ok, varint_ok, WT_QUIC_VARINT_MAX in *. cbn. split_and!; try done; lia. }
  assert (Hc : forall id v, varint_ok id -> bytes_okb v = true -> zlen v <= 8 -> parameter_ok (mk_tp id v)).
  { intros id v Hid Hok Hz. pose proof (zlen_nonneg v). unfold parameter_ok, varint_ok, WT_QUIC_VARINT_MAX in *. cbn.
    split_and!; try lia. by apply bytes_okb_spec. }
  assert (Hok : Forall parameter_ok (built_entries original retry source)).
  { unfold built_entries. destruct original, retry; cbn [app];
      repeat first [apply Forall_nil_2|apply Forall_cons_2];
      first [by apply Hv|apply Hc; [done|reflexivity|vm_compute; discriminate]]. }
  split.
  - split_and!; [by destruct original, retry| | |done].
    + destruct original, retry; by apply (bool_decide_unpack _).
    + intros _. destruct original, retry; by apply (bool_decide_unpack _).
  - assert (Hw : forall es, Forall (fun e => zlen (tp_value e) <= 20 /\ parameter_ok e) es ->
      zlen (parameters_wire es) <= 36 * zlen es).
    { induction 1 as [|e es [Hz (Hid & Hvz & _)] _ IH]; [done|]. unfold parameters_wire in *. cbn [fmap list_fmap concat].
      assert (zlen (parameter_wire e) <= 36).
      { unfold parameter_wire. rewrite !zlen_app, <- !varint_size_bytes by done.
        pose proof (varint_size_le (tp_id e)). pose proof (varint_size_le (zlen (tp_value e))). lia. }
      rewrite zlen_app, zlen_cons. lia. }
    specialize (Hw (built_entries original retry source)).
    assert (zlen (built_entries original retry source) <= 11) by (destruct original, retry; done).
    enough (zlen (parameters_wire (built_entries original retry source)) <= 36 * zlen (built_entries original retry source)) by lia.
    apply Hw. unfold built_entries in *. destruct original, retry; cbn [app from_option] in *;
      repeat (apply Forall_cons in Hok as [? Hok]; constructor;
        [split; [first [apply Hs|apply Ho|apply Hr|vm_compute; discriminate]|done]|]); constructor.
Qed.

Lemma built_check original retry source b :
  cid_value_ok source -> from_option cid_value_ok True original -> from_option cid_value_ok True retry ->
  let p := mk_tps (built_entries original retry source) 7 true in
  wt_quic_transport_parameters_check p b = (WT_OK, None, 0) /\
  wt_quic_transport_parameters_get p WT_QUIC_TP_INITIAL_SOURCE_CONNECTION_ID = Ok source /\
  wt_quic_transport_parameters_get p WT_QUIC_TP_ORIGINAL_DESTINATION_CONNECTION_ID =
    from_option Ok (Fail WT_ERR_INVALID_ARGUMENT None) original /\
  wt_quic_transport_parameters_get p WT_QUIC_TP_RETRY_SOURCE_CONNECTION_ID =
    from_option Ok (Fail WT_ERR_INVALID_ARGUMENT None) retry.
Proof.
  intros Hs Ho Hr p.
  assert (Hsrc : wt_quic_transport_parameters_get p WT_QUIC_TP_INITIAL_SOURCE_CONNECTION_ID = Ok source)
    by (destruct original, retry; reflexivity).
  assert (Hori : wt_quic_transport_parameters_get p WT_QUIC_TP_ORIGINAL_DESTINATION_CONNECTION_ID =
    from_option Ok (Fail WT_ERR_INVALID_ARGUMENT None) original) by (destruct original, retry; reflexivity).
  assert (Hret : wt_quic_transport_parameters_get p WT_QUIC_TP_RETRY_SOURCE_CONNECTION_ID =
    from_option Ok (Fail WT_ERR_INVALID_ARGUMENT None) retry) by (destruct original, retry; reflexivity).
  split; [|done].
  assert (Hints : Forall (fun x => wt_quic_transport_parameters_integer p x.1 = x.2)
    [(WT_QUIC_TP_MAX_UDP_PAYLOAD_SIZE, Fail WT_ERR_INVALID_ARGUMENT None);
     (WT_QUIC_TP_ACK_DELAY_EXPONENT, Fail WT_ERR_INVALID_ARGUMENT None);
     (WT_QUIC_TP_MAX_ACK_DELAY, Fail WT_ERR_INVALID_ARGUMENT None);
     (WT_QUIC_TP_ACTIVE_CONNECTION_ID_LIMIT, Fail WT_ERR_INVALID_ARGUMENT None);
     (WT_QUIC_TP_INITIAL_MAX_STREAMS_BIDI, Ok 8); (WT_QUIC_TP_INITIAL_MAX_STREAMS_UNI, Ok 8)]).
  { destruct original, retry; repeat constructor. }
  assert (Hrs : wt_quic_transport_parameters_get p WT_QUIC_TP_RESET_STREAM_AT = Ok []) by (destruct original, retry; reflexivity).
  assert (Htok : wt_quic_transport_parameters_get p WT_QUIC_TP_STATELESS_RESET_TOKEN = Fail WT_ERR_INVALID_ARGUMENT None)
    by (destruct original, retry; reflexivity).
  repeat (apply Forall_cons in Hints as [? Hints]). cbn [fst snd] in *.
  unfold wt_quic_transport_parameters_check, integer_is, length_is. cbn [List.find].
  repeat match goal with H : wt_quic_transport_parameters_integer p _ = _ |- _ => rewrite H; clear H end.
  rewrite Hsrc, Hori, Hret, Hrs, Htok. unfold cid_value_ok in *. rewrite andb_false_r.
  change (2 ^ 60 <? 8) with false. change (negb (zlen (@nil Z) =? 0)) with false. cbv iota.
  rewrite (proj2 (Z.ltb_ge 20 (zlen source))) by lia.
  destruct original as [o|], retry as [r|]; cbn [from_option] in *; ztest; done.
Qed.

(** The parameters this endpoint builds as a client or as a server, with or without a Retry, are built without error, are decoded by the peer from their wire bytes, pass its check for that role, and carry exactly the connection IDs that authenticate the handshake. *)
Lemma built_parameters_are_accepted p0 (is_server : bool) source original (retried : bool) retry :
  cid_value_ok source -> (is_server = true -> cid_value_ok original) ->
  (if retried then is_server = true /\ cid_value_ok retry else retry = []) ->
  let '(st, p) := wt_quic_transport_parameters_build p0 is_server source original retried retry in
  st = WT_OK /\ params_inv p /\
  exists p', wt_quic_transport_parameters_decode (parameters_wire (tps_entries p)) = Some (Ok p') /\
    wt_quic_transport_parameters_check p' (negb is_server) = (WT_OK, None, 0) /\
    wt_quic_transport_parameters_get p' WT_QUIC_TP_INITIAL_SOURCE_CONNECTION_ID = Ok source /\
    wt_quic_transport_parameters_get p' WT_QUIC_TP_ORIGINAL_DESTINATION_CONNECTION_ID =
      (if is_server then Ok original else Fail WT_ERR_INVALID_ARGUMENT None) /\
    wt_quic_transport_parameters_get p' WT_QUIC_TP_RETRY_SOURCE_CONNECTION_ID =
      (if retried then Ok retry else Fail WT_ERR_INVALID_ARGUMENT None).
Proof.
  intros Hs Ho Hr. rewrite build_explicit by done.
  assert (Ho' : from_option cid_value_ok True (when is_server original)) by (destruct is_server; cbn; auto).
  assert (Hr' : from_option cid_value_ok True (when retried retry)) by (destruct retried; cbn; [apply Hr|done]).
  destruct (built_inv _ _ _ Hs Ho' Hr') as [Hp Hz].
  destruct (built_check _ _ _ (negb is_server) Hs Ho' Hr') as (Hc & Hg1 & Hg2 & Hg3).
  destruct (decode_encoded _ Hp Hz) as (Hd & _ & _ & Hg). split; [done|]. split; [done|].
  eexists. split; [exact Hd|]. rewrite (check_ext _ _ _ Hg), !Hg. split_and!; [done|done|rewrite Hg2|rewrite Hg3].
  - by destruct is_server.
  - by destruct retried.
Qed.

Lemma built_parameters_are_accepted_witness :
  exists p', wt_quic_transport_parameters_decode
      (parameters_wire (tps_entries (wt_quic_transport_parameters_build wt_quic_transport_parameters_init
         true [1; 2] [3] true [4]).2)) = Some (Ok p') /\
    wt_quic_transport_parameters_check p' false = (WT_OK, None, 0) /\
    wt_quic_transport_parameters_get p' WT_QUIC_TP_RETRY_SOURCE_CONNECTION_ID = Ok [4].
Proof.
  assert (H : forall bs, bytes_okb bs && (1 <=? zlen bs) && (zlen bs <=? 20) = true -> cid_value_ok bs).
  { intros bs [[? ?%Z.leb_le]%andb_true_iff ?%Z.leb_le]%andb_true_iff. split; [done|by apply bytes_okb_spec]. }
  pose proof (built_parameters_are_accepted wt_quic_transport_parameters_init true [1; 2] [3] true [4]
    (H [1; 2] eq_refl) (fun _ => H [3] eq_refl) (conj eq_refl (H [4] eq_refl))) as Hb.
  destruct (wt_quic_transport_parameters_build _ _ _ _ _ _) as [st p].
  destruct Hb as (_ & _ & p' & Hd & Hc & _ & _ & Hg). exists p'. split; [exact Hd|]. split; [exact Hc|exact Hg].
Defined.

(** A parameter that has to be an integer but whose value is not exactly one varint is not refused by the check. *)
Lemma malformed_integer_accepted id value peer_is_client :
  id ∈ [WT_QUIC_TP_MAX_UDP_PAYLOAD_SIZE; WT_QUIC_TP_ACK_DELAY_EXPONENT; WT_QUIC_TP_MAX_ACK_DELAY;
        WT_QUIC_TP_ACTIVE_CONNECTION_ID_LIMIT; WT_QUIC_TP_INITIAL_MAX_STREAMS_BIDI; WT_QUIC_TP_INITIAL_MAX_STREAMS_UNI] ->
  let p := mk_tps [mk_tp id value] 0 true in
  (exists s e, wt_quic_transport_parameters_integer p id = Fail s e) ->
  wt_quic_transport_parameters_check p peer_is_client = (WT_OK, None, 0).
Proof.
  intros Hid p (s & e & Hf). 
  assert (Hg : forall id', wt_quic_transport_parameters_get p id' = if id =? id' then Ok value else Fail WT_ERR_INVALID_ARGUMENT None).
  { intros id'. unfold wt_quic_transport_parameters_get, wt_quic_tp_entry, wt_quic_tp_lower_bound, p. cbn.
    destruct (Z.ltb_spec id id'); cbn; destruct (Z.eqb_spec id id'); try lia; done. }
  assert (Hi : forall id' f, integer_is p id' f = false).
  { intros id' f. unfold integer_is. destruct (Z.eqb_spec id id') as [<-|Hne]; [by rewrite Hf|].
    unfold wt_quic_transport_parameters_integer. by rewrite Hg, (proj2 (Z.eqb_neq _ _) Hne). }
  assert (Hl : forall id' f, id' ∈ [WT_QUIC_TP_RESET_STREAM_AT; WT_QUIC_TP_STATELESS_RESET_TOKEN;
      WT_QUIC_TP_ORIGINAL_DESTINATION_CONNECTION_ID; WT_QUIC_TP_INITIAL_SOURCE_CONNECTION_ID;
      WT_QUIC_TP_RETRY_SOURCE_CONNECTION_ID] -> length_is p id' f = false).
  { intros id' f Hid'. unfold length_is. rewrite Hg.
    apply list_elem_of_In in Hid, Hid'. cbn in Hid, Hid'.
    repeat match goal with H : _ \/ _ |- _ => destruct H as [H|H] end; subst; done. }
  unfold wt_quic_transport_parameters_check. rewrite !Hi. cbn [List.find].
  by rewrite !Hl, andb_false_r by (apply list_elem_of_In; cbn; tauto).
Qed.

Lemma malformed_integer_accepted_witness :
  wt_quic_transport_parameters_check (mk_tps [mk_tp WT_QUIC_TP_MAX_ACK_DELAY [0x40]] 0 true) true = (WT_OK, None, 0).
Proof.
  apply (malformed_integer_accepted WT_QUIC_TP_MAX_ACK_DELAY [0x40]); [set_solver|].
  exists WT_ERR_TRUNCATED, None. vm_compute. reflexivity.
Defined.
