(* ===== verification/TlsExtension.v ===== *)
(** * TLS 1.3 extensions: [src/tls/extension.c]

    The extension block, the typed readers and the typed writers.  A view is the
    list of the bytes it shows; C strings are their bytes without the terminator. *)

From S2P Require Export Cursor Writer.
#[local] Open Scope Z_scope.

Definition WT_TLS_EXTENSION_SERVER_NAME : Z := 0x0000.
Definition WT_TLS_EXTENSION_SUPPORTED_GROUPS : Z := 0x000a.
Definition WT_TLS_EXTENSION_SIGNATURE_ALGORITHMS : Z := 0x000d.
Definition WT_TLS_EXTENSION_ALPN : Z := 0x0010.
Definition WT_TLS_EXTENSION_SUPPORTED_VERSIONS : Z := 0x002b.
Definition WT_TLS_EXTENSION_PSK_KEY_EXCHANGE_MODES : Z := 0x002d.
Definition WT_TLS_EXTENSION_KEY_SHARE : Z := 0x0033.
Definition WT_TLS_EXTENSION_QUIC_TRANSPORT_PARAMETERS : Z := 0x0039.
Definition WT_TLS_MAX_EXTENSIONS : Z := 24.
Definition WT_TLS_MAX_NAMED_GROUPS : Z := 16.
Definition WT_TLS_MAX_KEY_SHARES : Z := 4.
Definition WT_TLS_MAX_PROTOCOLS : Z := 8.
Definition WT_TLS_MAX_PROTOCOL_NAME : Z := 255.
Definition WT_TLS_VERSION_1_3 : Z := 0x0304.
Definition WT_TLS_CIPHER_AES_128_GCM_SHA256 : Z := 0x1301.
Definition WT_TLS_GROUP_X25519 : Z := 0x001d.
Definition WT_TLS_SIGNATURE_ECDSA_SECP256R1_SHA256 : Z := 0x0403.
Definition WT_TLS_SIGNATURE_RSA_PSS_RSAE_SHA256 : Z := 0x0804.
Definition WT_TLS_SIGNATURE_ED25519 : Z := 0x0807.
Definition WT_TLS_PSK_MODE_PSK_DHE_KE : Z := 0x0001.

Record wt_tls_extension := mk_extension { x_type : Z; x_data : list Z }.

(** The first [count] entries. *)
Definition wt_tls_extension_list : Type := list wt_tls_extension.

Record wt_tls_key_share := mk_key_share { ks_group : Z; ks_key : list Z }.

(** ** Reading *)

(** [x = wt_cursor_uN(c); if (wt_cursor_failed(c)) return WT_ERR_PROTOCOL;] *)
Definition checked (read : wt_cursor -> Z * wt_cursor) : parser Z := fun c =>
  let r := read c in
  if wt_cursor_failed r.2 then (Fail WT_ERR_PROTOCOL None, r.2) else (Ok r.1, r.2).

(** [p = wt_cursor_bytes(c, n); if (p == NULL) return WT_ERR_PROTOCOL;] *)
Definition region (n : Z) : parser (list Z) := failing_as WT_ERR_PROTOCOL None (take_or_truncated n None).

(** The region as a cursor of its own. *)
Definition sub_cursor (n : Z) : parser wt_cursor := bytes <- region n;; pret (wt_cursor_init (Some bytes) n).

(** A parser run over a region; the cursor behind it is untouched. *)
Definition inside {A} (p : parser A) (block : wt_cursor) : parser A := fun c => ((p block).1, c).

(** [while (!wt_cursor_at_end(&block))]: an element costs a byte, so the block's
    length and one more is fuel enough. *)
Fixpoint until_end {A} (fuel : nat) (element : list A -> parser A) (got : list A) : parser (list A) := fun c =>
  if wt_cursor_at_end c then (Ok got, c)
  else
    match fuel with
    | O => (Ok got, c)
    | S fuel => (x <- element got;; until_end fuel element (got ++ [x])) c
    end.

Definition elements {A} (length : Z) (element : list A -> parser A) : parser (list A) :=
  block <- sub_cursor length;; inside (until_end (Z.to_nat length) element []) block.

(** One extension, of a type not seen before. *)
Definition extension_entry (entries : list wt_tls_extension) : parser wt_tls_extension :=
  if zlen entries =? WT_TLS_MAX_EXTENSIONS then pfail WT_ERR_LIMIT None
  else
    type <- checked wt_cursor_u16;;
    length <- checked wt_cursor_u16;;
    data <- region length;;
    if existsb (fun e => x_type e =? type) entries then pfail WT_ERR_PROTOCOL None
    else pret (mk_extension type data).

Definition wt_tls_extensions_parse : parser wt_tls_extension_list :=
  total <- checked wt_cursor_u16;; elements total extension_entry.

Definition write_extension (e : wt_tls_extension) (w : wt_writer) : wt_writer :=
  w |> wt_writer_u16 (x_type e) |> wt_writer_u16 (u16 (zlen (x_data e))) |> wt_writer_bytes (x_data e).

Definition wt_tls_extensions_encode (list : wt_tls_extension_list) (w : wt_writer) : wt_status * wt_writer :=
  if WT_TLS_MAX_EXTENSIONS <? zlen list then (WT_ERR_LIMIT, w)
  else if existsb (fun e => 0xFFFF <? zlen (x_data e)) list then (WT_ERR_LIMIT, w)
  else
    let total := foldl (fun total e => total + (4 + zlen (x_data e))) 0 list in
    if 0xFFFF <? total then (WT_ERR_LIMIT, w)
    else
      writer_status
        (foldl (fun w e => write_extension e w) (wt_writer_u16 (u16 total) w) list).

Definition wt_tls_extensions_find (list : wt_tls_extension_list) (type : Z) : option wt_tls_extension :=
  find (fun e => x_type e =? type) list.

Definition wt_tls_extensions_contains (list : wt_tls_extension_list) (type : Z) : bool :=
  match wt_tls_extensions_find list type with Some _ => true | None => false end.

(** ** Typed readers *)

(** The whole of an extension's bytes: [extension_cursor] and [extension_end]. *)
Definition at_end {A} (a : A) : parser A := fun c =>
  if wt_cursor_at_end c then (Ok a, c) else (Fail WT_ERR_PROTOCOL None, c).

Definition read_extension {A} (p : parser A) (x : wt_tls_extension) : outcome A :=
  ((a <- p;; at_end a) (wt_cursor_init (Some (x_data x)) (zlen (x_data x)))).1.

Fixpoint u16s (n : nat) : parser (list Z) :=
  match n with
  | O => pret []
  | S n => v <- checked wt_cursor_u16;; vs <- u16s n;; pret (v :: vs)
  end.

(** The vector behind its length in bytes. *)
Definition u16_vector (read_length : wt_cursor -> Z * wt_cursor) (capacity : Z) : parser (list Z) :=
  length <- checked read_length;;
  if (length =? 0) || negb (length mod 2 =? 0) then pfail WT_ERR_PROTOCOL None
  else if capacity <? length / 2 then pfail WT_ERR_LIMIT None
  else u16s (Z.to_nat (length / 2)).

Definition wt_tls_supported_versions_client (x : wt_tls_extension) (capacity : Z) : outcome (list Z) :=
  if capacity =? 0 then Fail WT_ERR_INVALID_ARGUMENT None else read_extension (u16_vector wt_cursor_u8 capacity) x.

Definition wt_tls_supported_versions_server (x : wt_tls_extension) : outcome Z := read_extension (checked wt_cursor_u16) x.

Definition wt_tls_u16_list_parse (x : wt_tls_extension) (capacity : Z) : outcome (list Z) :=
  if capacity =? 0 then Fail WT_ERR_INVALID_ARGUMENT None else read_extension (u16_vector wt_cursor_u16 capacity) x.

Definition key_share_entry : parser wt_tls_key_share :=
  group <- checked wt_cursor_u16;;
  key_len <- checked wt_cursor_u16;;
  if key_len =? 0 then pfail WT_ERR_PROTOCOL None
  else key <- region key_len;; pret (mk_key_share group key).

Definition key_share_element (capacity : Z) (shares : list wt_tls_key_share) : parser wt_tls_key_share :=
  if zlen shares =? capacity then pfail WT_ERR_LIMIT None else key_share_entry.

Definition wt_tls_key_share_client (x : wt_tls_extension) (capacity : Z) : outcome (list wt_tls_key_share) :=
  if capacity =? 0 then Fail WT_ERR_INVALID_ARGUMENT None
  else read_extension (total <- checked wt_cursor_u16;; elements total (key_share_element capacity)) x.

Definition wt_tls_key_share_server (x : wt_tls_extension) : outcome wt_tls_key_share := read_extension key_share_entry x.

Definition protocol_name (names : list (list Z)) : parser (list Z) :=
  if zlen names =? WT_TLS_MAX_PROTOCOLS then pfail WT_ERR_LIMIT None
  else
    length <- checked wt_cursor_u8;;
    if length =? 0 then pfail WT_ERR_PROTOCOL None else region length.

Definition wt_tls_alpn_parse (x : wt_tls_extension) : outcome (list (list Z)) :=
  read_extension
    (total <- checked wt_cursor_u16;; if total <? 2 then pfail WT_ERR_PROTOCOL None else elements total protocol_name) x.

Definition wt_tls_transport_parameters (x : wt_tls_extension) : outcome (list Z) := Ok (x_data x).

(** ** Typed writers *)

Definition write_u16s (values : list Z) (w : wt_writer) : wt_writer := foldl (fun w v => wt_writer_u16 v w) w values.

Definition wt_tls_extension_supported_versions_client (versions : list Z) (w : wt_writer) : wt_writer :=
  if (zlen versions =? 0) || (127 <? zlen versions) then w
  else
    w |> wt_writer_u16 WT_TLS_EXTENSION_SUPPORTED_VERSIONS |> wt_writer_u16 (u16 (1 + 2 * zlen versions))
      |> wt_writer_u8 (u8 (2 * zlen versions)) |> write_u16s versions.

Definition wt_tls_extension_supported_versions_server (version : Z) (w : wt_writer) : wt_writer :=
  w |> wt_writer_u16 WT_TLS_EXTENSION_SUPPORTED_VERSIONS |> wt_writer_u16 2 |> wt_writer_u16 version.

Definition wt_tls_extension_u16_list (type : Z) (values : list Z) (w : wt_writer) : wt_writer :=
  if (zlen values =? 0) || (0x7FFF <? zlen values) then w
  else
    w |> wt_writer_u16 type |> wt_writer_u16 (u16 (2 + 2 * zlen values)) |> wt_writer_u16 (u16 (2 * zlen values))
      |> write_u16s values.

Definition write_key_share (share : wt_tls_key_share) (w : wt_writer) : wt_writer :=
  w |> wt_writer_u16 (ks_group share) |> wt_writer_u16 (u16 (zlen (ks_key share))) |> wt_writer_bytes (ks_key share).

Definition bad_key_len (share : wt_tls_key_share) : bool := (zlen (ks_key share) =? 0) || (0xFFFF <? zlen (ks_key share)).

Definition wt_tls_extension_key_share_client (shares : list wt_tls_key_share) (w : wt_writer) : wt_writer :=
  if (zlen shares =? 0) || (0x7FFF <? zlen shares) then w
  else if existsb bad_key_len shares then w
  else
    let total := foldl (fun total s => total + (4 + zlen (ks_key s))) 0 shares in
    if 0xFFFF <? total then w
    else
      let w := w |> wt_writer_u16 WT_TLS_EXTENSION_KEY_SHARE |> wt_writer_u16 (u16 (2 + total)) |> wt_writer_u16 (u16 total) in
      if negb (wt_writer_ok w) then w else foldl (fun w s => write_key_share s w) w shares.

Definition wt_tls_extension_key_share_server (share : wt_tls_key_share) (w : wt_writer) : wt_writer :=
  if bad_key_len share then w
  else w |> wt_writer_u16 WT_TLS_EXTENSION_KEY_SHARE |> wt_writer_u16 (u16 (4 + zlen (ks_key share))) |> write_key_share share.

Definition wt_tls_extension_alpn (names : list (list Z)) (w : wt_writer) : wt_writer :=
  if (zlen names =? 0) || (0x7FFF <? zlen names) then w
  else if existsb (fun name => (zlen name =? 0) || (WT_TLS_MAX_PROTOCOL_NAME <? zlen name)) names then w
  else
    let total := foldl (fun total name => total + (1 + zlen name)) 0 names in
    if 0xFFFF <? total then w
    else
      foldl (fun w name => w |> wt_writer_u8 (u8 (zlen name)) |> wt_writer_bytes name)
        (w |> wt_writer_u16 WT_TLS_EXTENSION_ALPN |> wt_writer_u16 (u16 (2 + total)) |> wt_writer_u16 (u16 total)) names.

Definition wt_tls_extension_transport_parameters (data : list Z) (w : wt_writer) : wt_writer :=
  if 0xFFFF <? zlen data then w
  else w |> wt_writer_u16 WT_TLS_EXTENSION_QUIC_TRANSPORT_PARAMETERS |> wt_writer_u16 (u16 (zlen data)) |> wt_writer_bytes data.

Definition wt_tls_extension_psk_key_exchange_modes (w : wt_writer) : wt_writer :=
  w |> wt_writer_u16 WT_TLS_EXTENSION_PSK_KEY_EXCHANGE_MODES |> wt_writer_u16 2 |> wt_writer_u8 1 |> wt_writer_u8 WT_TLS_PSK_MODE_PSK_DHE_KE.

Definition wt_tls_extension_server_name (host_name : list Z) (w : wt_writer) : wt_writer :=
  if (zlen host_name =? 0) || (0xFFFE <? zlen host_name) then w
  else
    w |> wt_writer_u16 WT_TLS_EXTENSION_SERVER_NAME |> wt_writer_u16 (u16 (2 + 1 + 2 + zlen host_name))
      |> wt_writer_u16 (u16 (1 + 2 + zlen host_name)) |> wt_writer_u8 0 |> wt_writer_u16 (u16 (zlen host_name)) |> wt_writer_bytes host_name.

(** ** Reading back: what a successful read says of the bytes *)

(** What [p] returns has consumed bytes that [R] relates it to. *)
Definition reads {A} (R : A -> list Z -> Prop) (p : parser A) : Prop :=
  forall c a c', cursor_inv c -> p c = (Ok a, c') ->
  (cursor_inv c' /\ cur_failed c' = cur_failed c) /\ exists bs, cursor_view c = bs ++ cursor_view c' /\ R a bs.

Lemma reads_ret {A} (a : A) : reads (fun x bs => x = a /\ bs = []) (pret a).
Proof. intros c x c' Hi [= <- <-]. split; [done|]. by exists []. Qed.

Lemma reads_fail {A} (R : A -> list Z -> Prop) s e : reads R (pfail s e).
Proof. done. Qed.

Lemma reads_weaken {A} (R S : A -> list Z -> Prop) p : reads R p -> (forall a bs, R a bs -> S a bs) -> reads S p.
Proof. intros Hp HS c a c' Hi E. destruct (Hp c a c' Hi E) as (? & bs & ? & ?). split; [done|]. exists bs. auto. Qed.

Lemma reads_bind {A B} (R : A -> list Z -> Prop) (S : B -> list Z -> Prop) (p : parser A) (k : A -> parser B) :
  reads R p -> (forall a bs, R a bs -> reads (fun b bs' => S b (bs ++ bs')) (k a)) -> reads S (pbind p k).
Proof.
  intros Hp Hk c b c' Hi. unfold pbind. destruct (p c) as [[a|s e] c1] eqn:E; [|done]. intros Eb.
  destruct (Hp c a c1 Hi E) as ([Hi1 Hf1] & bs & Hv & HR). destruct (Hk a bs HR c1 b c' Hi1 Eb) as ([Hi2 Hf2] & bs' & Hv' & HS).
  split; [split; [done|congruence]|]. exists (bs ++ bs'). split; [|done]. by rewrite Hv, Hv', app_assoc.
Qed.

Lemma reads_if {A} (R : A -> list Z -> Prop) (b : bool) p q :
  (b = true -> reads R p) -> (b = false -> reads R q) -> reads R (if b then p else q).
Proof. destruct b; auto. Qed.

Lemma reads_take n e : 0 <= n -> reads (fun bs bs' => bs = bs' /\ zlen bs = n /\ bytes_ok bs) (take_or_truncated n e).
Proof.
  intros Hn c bs c' Hi. unfold take_or_truncated, wt_cursor_bytes. pose proof (cursor_take_safe n c Hi Hn) as Hs.
  destruct (wt_cursor_take n c) as [[x|] c1] eqn:E; [|done]. intros [= <- <-]. destruct Hs as (? & ? & ? & ? & ? & ? & ? & Hf).
  assert (cur_failed c = false) by (unfold wt_cursor_take in E; by destruct (cur_failed c)).
  split; [split; [done|congruence]|]. by exists x.
Qed.

Lemma reads_failing_as {A} (R : A -> list Z -> Prop) s e p : reads R p -> reads R (failing_as s e p).
Proof. intros Hp c a c' Hi. unfold failing_as. destruct (p c) as [[x|s' e'] c1] eqn:E; [|done]. intros [= <- <-]. by apply Hp. Qed.

Lemma reads_region n : 0 <= n -> reads (fun bs bs' => bs = bs' /\ zlen bs = n /\ bytes_ok bs) (region n).
Proof. intros. by apply reads_failing_as, reads_take. Qed.

(** An integer of [n] bytes, most significant first. *)
Definition loads (n : nat) (load : list Z -> Z) : Prop :=
  forall bs, length bs = n -> bytes_ok bs -> load bs = be_value bs.

Lemma loads_u8 : loads 1 (fun p => byte_at p 0).
Proof. intros [|b [|? ?]] Hl _; done. Qed.
Lemma loads_u16 : loads 2 wt_load_be16.
Proof. intros [|a [|b [|? ?]]] Hl Hok; try done. by apply load_be16_spec. Qed.
Lemma loads_u24 : loads 3 wt_load_be24.
Proof. intros [|a [|b [|d [|? ?]]]] Hl Hok; try done. by apply load_be24_spec. Qed.

Lemma reads_checked n load :
  loads n load -> reads (fun v bs => bs = be_bytes n v /\ 0 <= v < 256 ^ Z.of_nat n) (checked (take_load (Z.of_nat n) load)).
Proof.
  intros Hload c v c' Hi. unfold checked, take_load. pose proof (cursor_take_safe (Z.of_nat n) c Hi ltac:(lia)) as Hs.
  unfold wt_cursor_take in *. destruct (cur_failed c) eqn:Ef; [cbn; unfold wt_cursor_failed; by rewrite Ef|].
  destruct (_ <? _) eqn:El; [done|]. cbn [fst snd]. unfold wt_cursor_failed at 1. cbn [cur_failed]. intros [= <- <-].
  destruct (cursor_ptr c (Z.of_nat n)) as [bs|] eqn:Ep.
  - destruct Hs as (Hi' & _ & _ & Hz & Hok & Hv & _ & _). split; [done|]. exists bs. split; [done|]. unfold zlen in Hz.
    assert (length bs = n) as Hl by lia. rewrite (Hload bs Hl Hok). pose proof (be_value_bound bs Hok) as Hb. unfold zlen in Hb. rewrite Hl in Hb.
    split; [|done]. rewrite <- Hl. by rewrite be_bytes_value.
  - destruct Hs as (Hi' & _). split; [done|]. unfold cursor_ptr in Ep. destruct Hi as (Ho & Hl & Hd). destruct (cur_data c) eqn:Ed; [done|].
    assert (cur_offset c = 0 /\ cur_len c = 0) as [E0 E1] by lia. rewrite E0, E1 in El. apply Z.ltb_ge in El. assert (n = 0)%nat as -> by (change (u64 (0 - 0)) with 0 in El; lia).
    exists []. unfold cursor_view. cbn. rewrite Ed. split; [done|]. split; [done|]. cbn. lia.
Qed.

Lemma reads_u8 : reads (fun v bs => bs = be_bytes 1 v /\ 0 <= v < 256) (checked wt_cursor_u8).
Proof. apply (reads_checked 1), loads_u8. Qed.
Lemma reads_u16 : reads (fun v bs => bs = be_bytes 2 v /\ 0 <= v < 65536) (checked wt_cursor_u16).
Proof. apply (reads_checked 2), loads_u16. Qed.
Lemma reads_u24 : reads (fun v bs => bs = be_bytes 3 v /\ 0 <= v < 16777216) (checked wt_cursor_u24).
Proof. apply (reads_checked 3), loads_u24. Qed.

(** A region read to its end: its bytes are those of its elements, in order. *)
Lemma reads_until_end {A} (Inv : list A -> Prop) (wire : A -> list Z) (element : list A -> parser A) :
  (forall got, Inv got -> reads (fun x bs => bs = wire x /\ 0 < zlen bs /\ Inv (got ++ [x])) (element got)) ->
  forall fuel got c xs c', Inv got -> cursor_inv c -> cur_failed c = false -> zlen (cursor_view c) <= Z.of_nat fuel ->
  until_end fuel element got c = (Ok xs, c') ->
  Inv xs /\ exists new, xs = got ++ new /\ cursor_view c = concat (wire <$> new).
Proof.
  intros Hel fuel. induction fuel as [|fuel IH]; intros got c xs c' Hg Hi Hf Hz; cbn [until_end].
  all: pose proof (cursor_view_len c Hi) as Hl; unfold wt_cursor_at_end; rewrite Hf.
  all: destruct (Z.eqb_spec (cur_offset c) (cur_len c)) as [E|E]; [intros [= <- <-]; split; [done|]; exists []; rewrite app_nil_r; split; [done|]; apply zlen_0_nil; lia|].
  { pose proof (zlen_nonneg (cursor_view c)). exfalso. lia. }
  unfold pbind. destruct (element got c) as [[x|s e] c1] eqn:Ex; [|done]. intros Er.
  destruct (Hel got Hg c x c1 Hi Ex) as ([Hi1 Hf1] & bs & Hv & -> & Hpos & Hg1).
  destruct (IH (got ++ [x]) c1 xs c') as (Hxs & new & -> & Hc1); [done|done|by rewrite Hf1|rewrite Hv, zlen_app in Hz; lia|done|].
  split; [done|]. exists (x :: new). rewrite <- app_assoc. split; [done|]. by rewrite Hv, Hc1.
Qed.

Lemma reads_elements {A} (Inv : list A -> Prop) (wire : A -> list Z) (element : list A -> parser A) n :
  0 <= n -> Inv [] ->
  (forall got, Inv got -> reads (fun x bs => bs = wire x /\ 0 < zlen bs /\ Inv (got ++ [x])) (element got)) ->
  reads (fun xs bs => bs = concat (wire <$> xs) /\ zlen bs = n /\ Inv xs) (elements n element).
Proof.
  intros Hn H0 Hel c xs c' Hi. unfold elements, sub_cursor, pbind, inside, pret. destruct (region n c) as [[bs|s e] c1] eqn:Er; [|done].
  destruct (reads_region n Hn c bs c1 Hi Er) as ([Hi1 Hf1] & bs' & Hv & <- & Hz & Hok). intros [= Ex <-].
  split; [done|]. exists bs. split; [done|]. pose proof (cursor_view_len c Hi) as Hlc. rewrite Hv, zlen_app in Hlc. pose proof (zlen_nonneg (cursor_view c1)).
  destruct Hi as (? & ? & _). assert (cursor_inv (wt_cursor_init (Some bs) n)) as Hb by (rewrite <- Hz; apply cursor_init_inv; [lia|done]).
  destruct (until_end (Z.to_nat n) element [] (wt_cursor_init (Some bs) n)) as [r c2] eqn:Eu. cbn in Ex. subst r.
  assert (cursor_view (wt_cursor_init (Some bs) n) = bs) as Hvb by apply zdrop_0.
  destruct (reads_until_end Inv wire element Hel (Z.to_nat n) [] _ xs c2 H0 Hb eq_refl ltac:(rewrite Hvb; lia) Eu) as (Hxs & new & -> & Hview).
  rewrite Hvb in Hview. by split_and!.
Qed.

(** ** Wires *)

Definition u16_wire (v : Z) : list Z := be_bytes 2 v.
Definition extension_wire (x : wt_tls_extension) : list Z := u16_wire (x_type x) ++ u16_wire (zlen (x_data x)) ++ x_data x.
Definition extensions_wire (l : wt_tls_extension_list) : list Z :=
  u16_wire (zlen (concat (extension_wire <$> l))) ++ concat (extension_wire <$> l).

Record extensions_ok (l : wt_tls_extension_list) : Prop := {
  eo_count : zlen l <= WT_TLS_MAX_EXTENSIONS;
  eo_types : NoDup (x_type <$> l);
  eo_entries : Forall (fun x => 0 <= x_type x < 65536 /\ bytes_ok (x_data x)) l;
  eo_size : zlen (concat (extension_wire <$> l)) < 65536 }.

Lemma zlen_u16_wire v : zlen (u16_wire v) = 2.
Proof. done. Qed.
Lemma u16_wire_ok v : bytes_ok (u16_wire v).
Proof. apply be_bytes_ok. Qed.
Lemma zlen_extension_wire x : zlen (extension_wire x) = 4 + zlen (x_data x).
Proof. unfold extension_wire. rewrite !zlen_app, !zlen_u16_wire. lia. Qed.

#[export] Hint Resolve u16_wire_ok : wt.

Lemma existsb_type l type : existsb (fun e => x_type e =? type) l = true <-> type ∈ (x_type <$> l).
Proof.
  rewrite existsb_exists, list_elem_of_fmap. split.
  - intros (x & Hx & ?%Z.eqb_eq). exists x. by rewrite list_elem_of_In.
  - intros (x & -> & Hx). exists x. by rewrite Z.eqb_refl, <- list_elem_of_In.
Qed.

(** Every element so far, and all but the block's size. *)
Definition entries_inv (l : wt_tls_extension_list) : Prop :=
  zlen l <= WT_TLS_MAX_EXTENSIONS /\ NoDup (x_type <$> l) /\ Forall (fun x => 0 <= x_type x < 65536 /\ bytes_ok (x_data x)) l.

Lemma reads_entry got :
  entries_inv got -> reads (fun x bs => bs = extension_wire x /\ 0 < zlen bs /\ entries_inv (got ++ [x])) (extension_entry got).
Proof.
  intros (Hc & Hnd & Hall). unfold extension_entry. apply reads_if; [done|]. intros Hn.
  eapply reads_bind; [apply reads_u16|]. intros type b1 [-> Ht]. eapply reads_bind; [apply reads_u16|]. intros len b2 [-> Hl].
  eapply reads_bind; [apply reads_region; lia|]. intros data b3 (-> & Hz & Hok). apply reads_if; [done|]. intros Hnew.
  eapply reads_weaken; [apply reads_ret|]. intros x bs [-> ->]. rewrite app_nil_r.
  assert (be_bytes 2 type ++ be_bytes 2 len ++ b3 = extension_wire (mk_extension type b3)) as -> by (unfold extension_wire; cbn; by rewrite Hz).
  rewrite zlen_extension_wire. cbn. unfold WT_TLS_MAX_EXTENSIONS in *. split_and!; [done|lia|]. unfold entries_inv.
  rewrite zlen_app, fmap_app. change (zlen [_]) with 1. apply Z.eqb_neq in Hn. unfold WT_TLS_MAX_EXTENSIONS in *. split_and!; [lia| |].
  - apply NoDup_app. split_and!; [done| |apply NoDup_singleton]. intros y Hy Hy'. apply list_elem_of_singleton in Hy'. subst y. cbn in Hy.
    apply existsb_type in Hy. congruence.
  - apply Forall_app. split; [done|]. apply Forall_singleton. by split.
Qed.

(** Whatever is parsed is the wire form of what it is parsed to. *)
Lemma reads_extensions : reads (fun l bs => bs = extensions_wire l /\ extensions_ok l) wt_tls_extensions_parse.
Proof.
  unfold wt_tls_extensions_parse. eapply reads_bind; [apply reads_u16|]. intros total b1 [-> Ht].
  eapply reads_weaken; [apply (reads_elements entries_inv extension_wire); [lia| |apply reads_entry]|].
  { unfold entries_inv, WT_TLS_MAX_EXTENSIONS. split_and!; [rewrite zlen_nil; lia|apply NoDup_nil_2|constructor]. }
  intros l bs (-> & Hz & Hc & Hnd & Hall). split; [unfold extensions_wire; by rewrite Hz|]. split; try done. lia.
Qed.

(** ** What is written is read *)

Lemma decodes_loads n load v :
  loads n load -> 0 <= v < 256 ^ Z.of_nat n -> decodes (checked (take_load (Z.of_nat n) load)) (be_bytes n v) v.
Proof.
  intros Hload Hv c tl Hl Hview. unfold checked, take_load. rewrite (cursor_take_live c (Z.of_nat n) (be_bytes n v) tl Hl Hview) by (by rewrite zlen_be_bytes).
  cbn [fst snd]. unfold wt_cursor_failed, cursor_advance at 1. cbn. rewrite (proj1 (proj2 Hl)). rewrite Hload by (apply be_bytes_length || apply be_bytes_ok).
  by rewrite be_value_bytes, zlen_be_bytes.
Qed.

Lemma decodes_checked_u8 v : 0 <= v < 256 -> decodes (checked wt_cursor_u8) [v] v.
Proof. intros Hv. rewrite <- (Z.mod_small v 256 Hv) at 1. apply (decodes_loads 1 _ v loads_u8 Hv). Qed.
Lemma decodes_u16 v : 0 <= v < 65536 -> decodes (checked wt_cursor_u16) (u16_wire v) v.
Proof. apply (decodes_loads 2 _ v loads_u16). Qed.
Lemma decodes_u24 v : 0 <= v < 16777216 -> decodes (checked wt_cursor_u24) (be_bytes 3 v) v.
Proof. apply (decodes_loads 3 _ v loads_u24). Qed.
Lemma decodes_region bs n : n = zlen bs -> decodes (region n) bs bs.
Proof. intros. by apply decodes_failing_as, decodes_take. Qed.

Lemma until_end_decodes {A} (wire : A -> list Z) (element : list A -> parser A) xs :
  (forall got x rest, xs = got ++ x :: rest -> decodes (element got) (wire x) x /\ 0 < zlen (wire x)) ->
  forall rest got c fuel, xs = got ++ rest -> cursor_live c -> cursor_view c = concat (wire <$> rest) -> zlen (cursor_view c) <= Z.of_nat fuel ->
  (until_end fuel element got c).1 = Ok xs.
Proof.
  intros Hel rest. induction rest as [|x rest IH]; intros got c fuel Exs Hl Hv Hz; pose proof (cursor_view_len c (proj1 Hl)) as Hlen.
  - rewrite Hv in Hlen. cbn in Hlen. rewrite zlen_nil in Hlen. destruct fuel; cbn [until_end]; unfold wt_cursor_at_end; rewrite (proj1 (proj2 Hl)), (proj2 (Z.eqb_eq _ _)) by lia; by rewrite Exs, app_nil_r.
  - destruct (Hel got x rest Exs) as [Hd Hpos]. assert (cursor_view c = wire x ++ concat (wire <$> rest)) as Hv' by done.
    rewrite Hv', zlen_app in *. pose proof (zlen_nonneg (concat (wire <$> rest))). destruct fuel as [|fuel]; [lia|]. cbn [until_end].
    unfold wt_cursor_at_end. rewrite (proj1 (proj2 Hl)), (proj2 (Z.eqb_neq _ _)) by lia. unfold pbind. rewrite (Hd c _ Hl Hv').
    apply IH; [by rewrite <- app_assoc| | |].
    + apply cursor_advance_live; [done|]. rewrite Hv', zlen_app. lia.
    + eapply cursor_advance_view; [apply Hl|exact Hv'|done].
    + rewrite (cursor_advance_view c _ (wire x) (concat (wire <$> rest))); [lia|apply Hl|done|done].
Qed.

Lemma decodes_elements {A} (wire : A -> list Z) (element : list A -> parser A) xs n :
  (forall got x rest, xs = got ++ x :: rest -> decodes (element got) (wire x) x /\ 0 < zlen (wire x)) ->
  n = zlen (concat (wire <$> xs)) -> decodes (elements n element) (concat (wire <$> xs)) xs.
Proof.
  intros Hel Hn c tl Hl Hv. unfold elements, sub_cursor, pbind, inside, pret. rewrite (decodes_region _ n Hn c tl Hl Hv).
  set (bs := concat _) in *. destruct (live_block_ok c Hl) as [Hok Hz]. rewrite Hv in Hok, Hz. apply Forall_app in Hok as [Hok _].
  rewrite zlen_app in Hz. pose proof (zlen_nonneg tl). subst n.
  assert (cursor_view (wt_cursor_init (Some bs) (zlen bs)) = bs) as Hvb by apply zdrop_0.
  rewrite (until_end_decodes wire element xs Hel xs [] (wt_cursor_init (Some bs) (zlen bs)) _); [done|done|apply cursor_init_live; [lia|done]|exact Hvb|rewrite Hvb; lia].
Qed.

Lemma NoDup_app_new {A} (l1 : list A) x l2 : NoDup (l1 ++ x :: l2) -> x ∉ l1.
Proof. intros (_ & Hx & _)%NoDup_app Hin. apply (Hx x Hin). by left. Qed.

Lemma decodes_extensions l : extensions_ok l -> decodes wt_tls_extensions_parse (extensions_wire l) l.
Proof.
  intros [Hc Hnd Hall Hz]. unfold wt_tls_extensions_parse, extensions_wire. set (n := zlen (concat _)) in *.
  eapply decodes_bind; [apply decodes_u16; split; [apply zlen_nonneg|exact Hz]|]. apply decodes_elements; [|done].
  intros got x rest ->. rewrite zlen_extension_wire. pose proof (zlen_nonneg (x_data x)). split; [|lia].
  rewrite fmap_app in Hnd. apply NoDup_app_new in Hnd. rewrite zlen_app, zlen_cons in Hc. pose proof (zlen_nonneg rest).
  unfold extension_entry. rewrite (proj2 (Z.eqb_neq _ _)) by lia. apply Forall_app in Hall as [_ Hall]. apply Forall_cons in Hall as [[Ht Hok] _].
  assert (zlen (x_data x) < 65536) as Hx.
  { unfold n in Hz. rewrite fmap_app, concat_app, zlen_app in Hz. cbn [fmap list_fmap concat] in Hz. rewrite zlen_app, zlen_extension_wire in Hz.
    pose proof (zlen_nonneg (concat (extension_wire <$> got))). pose proof (zlen_nonneg (concat (extension_wire <$> rest))). lia. }
  unfold extension_wire. eapply decodes_bind; [by apply decodes_u16|]. eapply decodes_bind; [apply decodes_u16; lia|].
  eapply decodes_bind_nil; [by apply decodes_region|].
  destruct (existsb _ got) eqn:Ee; [by apply existsb_type in Ee|]. destruct x. apply decodes_ret.
Qed.

(** ** Encoding *)

Lemma appends_u16 v : appends (wt_writer_u16 v) (u16_wire v).
Proof. unfold wt_writer_u16, u16_wire. rewrite store_be16_spec. apply appends_put. Qed.
Lemma appends_u16_cast v : appends (wt_writer_u16 (u16 v)) (u16_wire v).
Proof.
  unfold wt_writer_u16, u16_wire. rewrite store_be16_spec. change (u16 v) with (v mod 256 ^ Z.of_nat 2). rewrite be_bytes_mod. apply appends_put.
Qed.
Lemma appends_u24 v : appends (wt_writer_u24 v) (be_bytes 3 v).
Proof. unfold wt_writer_u24. rewrite store_be24_spec. apply appends_put. Qed.

Lemma appends_foldl {A} (f : wt_writer -> A -> wt_writer) (wire : A -> list Z) l :
  (forall x, x ∈ l -> appends (fun w => f w x) (wire x)) -> appends (fun w => foldl f w l) (concat (wire <$> l)).
Proof.
  induction l as [|x l IH]; intros Hf; [apply appends_id|].
  apply (appends_seq (fun w => f w x) (fun w => foldl f w l)); [apply Hf; by left|]. apply IH. intros y Hy. apply Hf. by right.
Qed.

Lemma foldl_total {A} (g : A -> Z) l : forall n, foldl (fun total x => total + g x) n l = n + zsum g l.
Proof. induction l as [|x l IH]; intros n; cbn [foldl]; [rewrite zsum_nil; lia|]. rewrite IH, zsum_cons. lia. Qed.

Lemma zlen_concat {A} (wire : A -> list Z) l : zlen (concat (wire <$> l)) = zsum (fun x => zlen (wire x)) l.
Proof. induction l as [|x l IH]; [done|]. cbn [fmap list_fmap concat]. by rewrite zlen_app, IH, zsum_cons. Qed.

Lemma foldl_wires {A} (g : A -> Z) (wire : A -> list Z) l :
  (forall x, x ∈ l -> g x = zlen (wire x)) -> foldl (fun total x => total + g x) 0 l = zlen (concat (wire <$> l)).
Proof.
  intros Hg. rewrite foldl_total, zlen_concat, Z.add_0_l. induction l as [|x l IH]; [done|]. rewrite !zsum_cons, (Hg x) by (by left). f_equal. apply IH. intros y Hy. apply Hg. by right.
Qed.

Lemma appends_extension x : appends (write_extension x) (extension_wire x).
Proof.
  unfold write_extension, extension_wire.
  apply (appends_seq (wt_writer_u16 (x_type x)) (fun w => wt_writer_bytes (x_data x) (wt_writer_u16 (u16 (zlen (x_data x))) w))); [apply appends_u16|].
  apply (appends_seq (wt_writer_u16 (u16 (zlen (x_data x)))) (wt_writer_bytes (x_data x))); [apply appends_u16_cast|apply appends_bytes].
Qed.

Lemma encodes_extensions l : extensions_ok l -> encodes (wt_tls_extensions_encode l) (extensions_wire l).
Proof.
  intros [Hc Hnd Hall Hz]. unfold wt_tls_extensions_encode. rewrite (proj2 (Z.ltb_ge _ _)) by lia.
  assert (forall x, x ∈ l -> zlen (x_data x) <= 0xFFFF) as Hsmall.
  { intros x (l1 & l2 & ->)%list_elem_of_split. rewrite fmap_app, concat_app, zlen_app in Hz. cbn [fmap list_fmap concat] in Hz.
    rewrite zlen_app, zlen_extension_wire in Hz. pose proof (zlen_nonneg (concat (extension_wire <$> l1))). pose proof (zlen_nonneg (concat (extension_wire <$> l2))). lia. }
  destruct (existsb _ l) eqn:Ee.
  { apply existsb_exists in Ee as (x & Hx%list_elem_of_In & ?%Z.ltb_lt). specialize (Hsmall x Hx). lia. }
  rewrite (foldl_wires (fun e => 4 + zlen (x_data e)) extension_wire) by (intros; by rewrite zlen_extension_wire).
  rewrite (proj2 (Z.ltb_ge _ _)) by lia. unfold extensions_wire.
  apply encodes_status, (appends_seq (wt_writer_u16 (u16 _)) (fun w => foldl (fun w e => write_extension e w) w l)); [apply appends_u16_cast|].
  apply appends_foldl. intros x _. apply appends_extension.
Qed.

(** ** Each extension that is written is read *)

Lemma read_extension_exact {A} (p : parser A) data a t : decodes p data a -> block_ok data -> read_extension p (mk_extension t data) = Ok a.
Proof.
  intros Hd [Hok Hz]. unfold read_extension, pbind. cbn [x_data]. rewrite (decodes_whole p data a Hd Hz Hok). unfold at_end, wt_cursor_at_end, cursor_advance.
  cbn. by rewrite Z.eqb_refl.
Qed.

Lemma appends_u16s vs : appends (write_u16s vs) (concat (u16_wire <$> vs)).
Proof. apply (appends_foldl (fun w v => wt_writer_u16 v w)). intros. apply appends_u16. Qed.

Lemma zlen_u16s vs : zlen (concat (u16_wire <$> vs)) = 2 * zlen vs.
Proof. induction vs as [|v vs IH]; [done|]. cbn [fmap list_fmap concat]. rewrite zlen_app, IH, zlen_u16_wire, zlen_cons. lia. Qed.

Lemma concat_ok (ls : list (list Z)) : Forall bytes_ok ls -> bytes_ok (concat ls).
Proof. induction 1; [constructor|]. by apply Forall_app. Qed.

Lemma u16s_ok vs : bytes_ok (concat (u16_wire <$> vs)).
Proof. apply concat_ok, Forall_fmap, Forall_true. intros. apply u16_wire_ok. Qed.

Lemma decodes_u16s vs : Forall (fun v => 0 <= v < 65536) vs -> decodes (u16s (length vs)) (concat (u16_wire <$> vs)) vs.
Proof.
  induction 1 as [|v vs Hv Hvs IH]; [apply decodes_ret|]. cbn [length u16s fmap list_fmap concat].
  eapply decodes_bind; [by apply decodes_u16|]. by apply (decodes_map _ (fun vs => v :: vs)).
Qed.

(** A vector of two-byte values behind a length of [n] bytes. *)
Lemma decodes_u16_vector n load vs capacity :
  loads n load -> 0 < zlen vs -> 2 * zlen vs < 256 ^ Z.of_nat n -> zlen vs <= capacity -> Forall (fun v => 0 <= v < 65536) vs ->
  decodes (u16_vector (take_load (Z.of_nat n) load) capacity) (be_bytes n (2 * zlen vs) ++ concat (u16_wire <$> vs)) vs.
Proof.
  intros Hload Hpos Hn Hc Hall. unfold u16_vector. eapply decodes_bind; [apply (decodes_loads n load); [done|lia]|].
  rewrite (proj2 (Z.eqb_neq _ _)) by lia. rewrite (Z.mul_comm 2), Z.mod_mul, Z.div_mul by lia. cbn [orb negb Z.eqb].
  rewrite (proj2 (Z.ltb_ge _ _)) by lia. unfold zlen. rewrite Nat2Z.id. by apply decodes_u16s.
Qed.

Definition versions_body (vs : list Z) : list Z := be_bytes 1 (2 * zlen vs) ++ concat (u16_wire <$> vs).
Definition u16_list_body (vs : list Z) : list Z := u16_wire (2 * zlen vs) ++ concat (u16_wire <$> vs).
Definition key_share_wire (s : wt_tls_key_share) : list Z := u16_wire (ks_group s) ++ u16_wire (zlen (ks_key s)) ++ ks_key s.
Definition key_shares_body (ss : list wt_tls_key_share) : list Z :=
  u16_wire (zlen (concat (key_share_wire <$> ss))) ++ concat (key_share_wire <$> ss).
Definition name_wire (name : list Z) : list Z := be_bytes 1 (zlen name) ++ name.
Definition names_body (names : list (list Z)) : list Z := u16_wire (zlen (concat (name_wire <$> names))) ++ concat (name_wire <$> names).
Definition host_body (name : list Z) : list Z := u16_wire (3 + zlen name) ++ [0] ++ u16_wire (zlen name) ++ name.

Lemma zlen_versions_body vs : zlen (versions_body vs) = 1 + 2 * zlen vs.
Proof. unfold versions_body. rewrite zlen_app, zlen_u16s, zlen_be_bytes. lia. Qed.
Lemma zlen_u16_list_body vs : zlen (u16_list_body vs) = 2 + 2 * zlen vs.
Proof. unfold u16_list_body. rewrite zlen_app, zlen_u16s, zlen_u16_wire. lia. Qed.
Lemma zlen_key_share_wire s : zlen (key_share_wire s) = 4 + zlen (ks_key s).
Proof. unfold key_share_wire. rewrite !zlen_app, !zlen_u16_wire. lia. Qed.
Lemma zlen_name_wire n : zlen (name_wire n) = 1 + zlen n.
Proof. unfold name_wire. by rewrite zlen_app, zlen_be_bytes. Qed.

Record key_share_ok (s : wt_tls_key_share) : Prop := {
  so_group : 0 <= ks_group s < 65536;
  so_key : bytes_ok (ks_key s);
  so_length : 0 < zlen (ks_key s) < 65532 }.

Definition names_ok (names : list (list Z)) : Prop :=
  Forall (fun name => bytes_ok name /\ 0 < zlen name < 256) names /\ 0 < zlen names <= WT_TLS_MAX_PROTOCOLS.

Lemma read_versions vs t : 0 < zlen vs <= 16 -> Forall (fun v => 0 <= v < 65536) vs -> wt_tls_supported_versions_client (mk_extension t (versions_body vs)) 16 = Ok vs.
Proof.
  intros Hn Hv. unfold wt_tls_supported_versions_client. cbn [Z.eqb]. apply read_extension_exact; [apply (decodes_u16_vector 1); try done; [apply loads_u8|lia..]|].
  split; [apply Forall_app; split; [apply be_bytes_ok|apply u16s_ok]|rewrite zlen_versions_body; lia].
Qed.

Lemma read_version v t : 0 <= v < 65536 -> wt_tls_supported_versions_server (mk_extension t (u16_wire v)) = Ok v.
Proof. intros Hv. apply read_extension_exact; [by apply decodes_u16|]. split; [apply u16_wire_ok|by rewrite zlen_u16_wire]. Qed.

Lemma decodes_key_share s : key_share_ok s -> decodes key_share_entry (key_share_wire s) s.
Proof.
  intros [Hg Hk Hl]. unfold key_share_entry, key_share_wire. eapply decodes_bind; [by apply decodes_u16|]. eapply decodes_bind; [apply decodes_u16; lia|].
  rewrite (proj2 (Z.eqb_neq _ _)) by lia. destruct s as [g k]. cbn in *. apply (decodes_map _ (mk_key_share g)). by apply decodes_region.
Qed.

Lemma key_share_wire_ok s : key_share_ok s -> bytes_ok (key_share_wire s).
Proof. intros [_ Hk _]. apply Forall_app. split; [apply u16_wire_ok|]. apply Forall_app. by split; [apply u16_wire_ok|]. Qed.

Lemma read_key_share s t : key_share_ok s -> wt_tls_key_share_server (mk_extension t (key_share_wire s)) = Ok s.
Proof.
  intros Hs. apply read_extension_exact; [by apply decodes_key_share|]. split; [by apply key_share_wire_ok|]. rewrite zlen_key_share_wire. destruct Hs. lia.
Qed.

Lemma read_key_shares ss capacity t :
  Forall key_share_ok ss -> 0 < capacity -> zlen ss <= capacity -> zlen (concat (key_share_wire <$> ss)) < 65536 ->
  wt_tls_key_share_client (mk_extension t (key_shares_body ss)) capacity = Ok ss.
Proof.
  intros Hs Hcap Hc Hz. unfold wt_tls_key_share_client. rewrite (proj2 (Z.eqb_neq _ _)) by lia. pose proof (zlen_nonneg (concat (key_share_wire <$> ss))).
  apply read_extension_exact.
  - unfold key_shares_body. set (n := zlen (concat _)) in *. eapply decodes_bind; [by apply decodes_u16|]. apply decodes_elements; [|done].
    intros got x rest ->. apply Forall_app in Hs as [_ [Hx _]%Forall_cons]. rewrite zlen_app, zlen_cons in Hc. pose proof (zlen_nonneg rest).
    split; [|rewrite zlen_key_share_wire; pose proof (zlen_nonneg (ks_key x)); lia].
    unfold key_share_element. rewrite (proj2 (Z.eqb_neq _ _)) by lia. by apply decodes_key_share.
  - split; [|unfold key_shares_body; rewrite zlen_app, zlen_u16_wire; lia]. apply Forall_app. split; [apply u16_wire_ok|].
    apply concat_ok, Forall_fmap. eapply Forall_impl; [exact Hs|]. intros. by apply key_share_wire_ok.
Qed.

Lemma names_size names : Forall (fun name => bytes_ok name /\ 0 < zlen name < 256) names -> zlen (concat (name_wire <$> names)) <= 256 * zlen names.
Proof. induction 1 as [|n names [_ Hn] _ IH]; [done|]. cbn [fmap list_fmap concat]. rewrite zlen_app, zlen_name_wire, zlen_cons. lia. Qed.

Lemma read_names names t : names_ok names -> wt_tls_alpn_parse (mk_extension t (names_body names)) = Ok names.
Proof.
  intros [Hall Hc]. unfold WT_TLS_MAX_PROTOCOLS in Hc.
  assert (2 <= zlen (concat (name_wire <$> names)) <= 256 * zlen names) as Hz.
  { split; [|by apply names_size].
    destruct names as [|n names]; [unfold zlen in Hc; cbn in Hc; lia|]. apply Forall_cons in Hall as [[_ Hn] _]. cbn [fmap list_fmap concat]. rewrite zlen_app, zlen_name_wire.
    pose proof (zlen_nonneg (concat (name_wire <$> names))). lia. }
  apply read_extension_exact.
  - unfold names_body. set (n := zlen (concat _)) in *. eapply decodes_bind; [apply decodes_u16; lia|]. rewrite (proj2 (Z.ltb_ge _ _)) by lia.
    apply decodes_elements; [|done]. intros got x rest ->. apply Forall_app in Hall as [_ [[Hok Hx] _]%Forall_cons]. rewrite zlen_app, zlen_cons in Hc.
    pose proof (zlen_nonneg rest). split; [|rewrite zlen_name_wire; lia]. unfold protocol_name, WT_TLS_MAX_PROTOCOLS. rewrite (proj2 (Z.eqb_neq _ _)) by lia.
    unfold name_wire. eapply decodes_bind; [apply (decodes_loads 1 _ _ loads_u8); cbn; lia|]. rewrite (proj2 (Z.eqb_neq _ _)) by lia. by apply decodes_region.
  - split; [|unfold names_body; rewrite zlen_app, zlen_u16_wire; lia]. apply Forall_app. split; [apply u16_wire_ok|]. apply concat_ok, Forall_fmap.
    eapply Forall_impl; [exact Hall|]. intros x [Hok _]. apply Forall_app. by split; [apply be_bytes_ok|].
Qed.

(** ** What each writer writes *)

Ltac appends_parts :=
  repeat match goal with
  | |- appends (wt_writer_u16 (u16 _)) (u16_wire _) => apply appends_u16_cast
  | |- appends (wt_writer_u16 _) (u16_wire _) => apply appends_u16
  | |- appends (wt_writer_bytes _) _ => apply appends_bytes
  | |- appends (wt_writer_u8 _) [_] => apply appends_u8
  | |- appends (write_u16s _) _ => apply appends_u16s
  | |- appends (fun w => ?f w) ?a => change (appends f a)
  | |- appends (fun w => ?f (@?g w)) (?a ++ ?b) => apply (appends_seq g f a b)
  end.

Lemma u8_wire v : 0 <= v < 256 -> be_bytes 1 v = [v].
Proof. intros Hv. cbn. by rewrite Z.mod_small. Qed.

Lemma appends_versions vs :
  0 < zlen vs <= 16 ->
  appends (wt_tls_extension_supported_versions_client vs) (extension_wire (mk_extension WT_TLS_EXTENSION_SUPPORTED_VERSIONS (versions_body vs))).
Proof.
  intros Hn. unfold wt_tls_extension_supported_versions_client, extension_wire. cbn [x_type x_data]. rewrite zlen_versions_body.
  rewrite (proj2 (Z.eqb_neq _ _)), (proj2 (Z.ltb_ge _ _)) by lia. cbn [orb]. unfold versions_body. rewrite u8_wire by lia. rewrite (u8_small (2 * _)) by (unfold is_u8; lia).
  rewrite !app_assoc. appends_parts.
Qed.

Lemma appends_version v :
  appends (wt_tls_extension_supported_versions_server v) (extension_wire (mk_extension WT_TLS_EXTENSION_SUPPORTED_VERSIONS (u16_wire v))).
Proof. unfold wt_tls_extension_supported_versions_server, extension_wire. cbn [x_type x_data]. rewrite zlen_u16_wire, app_assoc. appends_parts. Qed.

Lemma appends_u16_list type vs :
  0 < zlen vs < 0x7FFF -> appends (wt_tls_extension_u16_list type vs) (extension_wire (mk_extension type (u16_list_body vs))).
Proof.
  intros Hn. unfold wt_tls_extension_u16_list, extension_wire. cbn [x_type x_data]. rewrite zlen_u16_list_body.
  rewrite (proj2 (Z.eqb_neq _ _)), (proj2 (Z.ltb_ge _ _)) by lia. cbn [orb]. unfold u16_list_body. rewrite !app_assoc. appends_parts.
Qed.

Lemma bad_key_len_ok s : key_share_ok s -> bad_key_len s = false.
Proof. intros [_ _ Hl]. unfold bad_key_len. by rewrite (proj2 (Z.eqb_neq _ _)), (proj2 (Z.ltb_ge _ _)) by lia. Qed.

Lemma appends_write_key_share s : appends (write_key_share s) (key_share_wire s).
Proof. unfold write_key_share, key_share_wire. rewrite app_assoc. appends_parts. Qed.

Lemma appends_key_share s :
  key_share_ok s -> appends (wt_tls_extension_key_share_server s) (extension_wire (mk_extension WT_TLS_EXTENSION_KEY_SHARE (key_share_wire s))).
Proof.
  intros Hs. unfold wt_tls_extension_key_share_server, extension_wire. cbn [x_type x_data]. rewrite bad_key_len_ok, zlen_key_share_wire by done.
  rewrite app_assoc. apply (appends_seq (fun w => wt_writer_u16 (u16 (4 + zlen (ks_key s))) (wt_writer_u16 WT_TLS_EXTENSION_KEY_SHARE w)) (write_key_share s)); [|apply appends_write_key_share].
  appends_parts.
Qed.

(** Nothing more is written to a writer that has overflowed. *)
Lemma appends_if_ok e bs : appends e bs -> appends (fun w => if negb (wt_writer_ok w) then w else e w) bs.
Proof.
  intros He w Hi. unfold wt_writer_ok. destruct (w_overflow w) eqn:Eo; cbn; [by split_and!|]. destruct (He w Hi) as (? & ? & H). rewrite Eo in H. by split_and!.
Qed.

Lemma appends_key_shares ss :
  Forall key_share_ok ss -> 0 < zlen ss <= 0x7FFF -> zlen (concat (key_share_wire <$> ss)) < 65534 ->
  appends (wt_tls_extension_key_share_client ss) (extension_wire (mk_extension WT_TLS_EXTENSION_KEY_SHARE (key_shares_body ss))).
Proof.
  intros Hs Hn Hz. unfold wt_tls_extension_key_share_client, extension_wire. cbn [x_type x_data].
  rewrite (proj2 (Z.eqb_neq _ _)), (proj2 (Z.ltb_ge _ _)) by lia. cbn [orb]. destruct (existsb bad_key_len ss) eqn:Eb.
  { apply existsb_exists in Eb as (s & Hin%list_elem_of_In & Eb). rewrite Forall_forall in Hs. by rewrite bad_key_len_ok in Eb by auto. }
  rewrite (foldl_wires (fun s => 4 + zlen (ks_key s)) key_share_wire) by (intros; by rewrite zlen_key_share_wire). set (total := zlen (concat _)) in *.
  rewrite (proj2 (Z.ltb_ge _ _)) by lia. unfold key_shares_body. fold total. rewrite zlen_app, zlen_u16_wire. fold total. rewrite !app_assoc. cbv zeta.
  apply (appends_seq (fun w => wt_writer_u16 (u16 total) (wt_writer_u16 (u16 (2 + total)) (wt_writer_u16 WT_TLS_EXTENSION_KEY_SHARE w)))
    (fun w => if negb (wt_writer_ok w) then w else foldl (fun w s => write_key_share s w) w ss)); [appends_parts|].
  apply appends_if_ok, appends_foldl. intros s _. apply appends_write_key_share.
Qed.

Lemma appends_names names :
  names_ok names -> appends (wt_tls_extension_alpn names) (extension_wire (mk_extension WT_TLS_EXTENSION_ALPN (names_body names))).
Proof.
  intros [Hall Hc]. unfold wt_tls_extension_alpn, extension_wire, WT_TLS_MAX_PROTOCOLS, WT_TLS_MAX_PROTOCOL_NAME in *. cbn [x_type x_data].
  rewrite (proj2 (Z.eqb_neq _ _)), (proj2 (Z.ltb_ge _ _)) by lia. cbn [orb]. destruct (existsb _ names) eqn:Eb.
  { apply existsb_exists in Eb as (s & Hin%list_elem_of_In & Eb). rewrite Forall_forall in Hall. destruct (Hall s Hin). rewrite (proj2 (Z.eqb_neq _ _)), (proj2 (Z.ltb_ge _ _)) in Eb by lia. done. }
  rewrite (foldl_wires (fun n => 1 + zlen n) name_wire) by (intros; by rewrite zlen_name_wire). unfold names_body. set (total := zlen (concat _)) in *.
  pose proof (names_size names Hall) as Hz. fold total in Hz.
  rewrite (proj2 (Z.ltb_ge _ _)) by lia. rewrite zlen_app, zlen_u16_wire. fold total. rewrite !app_assoc. cbv zeta.
  apply (appends_seq (fun w => wt_writer_u16 (u16 total) (wt_writer_u16 (u16 (2 + total)) (wt_writer_u16 WT_TLS_EXTENSION_ALPN w)))
    (fun w => foldl (fun w name => wt_writer_bytes name (wt_writer_u8 (u8 (zlen name)) w)) w names)); [appends_parts|].
  apply appends_foldl. intros n Hin. rewrite Forall_forall in Hall. destruct (Hall n Hin). unfold name_wire.
  rewrite u8_wire by lia. rewrite u8_small by (unfold is_u8; lia). apply (appends_seq (wt_writer_u8 (zlen n)) (wt_writer_bytes n)); [apply appends_u8|apply appends_bytes].
Qed.

Lemma appends_opaque_parameters data :
  zlen data < 65536 -> appends (wt_tls_extension_transport_parameters data) (extension_wire (mk_extension WT_TLS_EXTENSION_QUIC_TRANSPORT_PARAMETERS data)).
Proof.
  intros Hz. unfold wt_tls_extension_transport_parameters, extension_wire. cbn [x_type x_data]. rewrite (proj2 (Z.ltb_ge _ _)) by lia. rewrite app_assoc. appends_parts.
Qed.

Lemma appends_psk_modes : appends wt_tls_extension_psk_key_exchange_modes (extension_wire (mk_extension WT_TLS_EXTENSION_PSK_KEY_EXCHANGE_MODES [1; 1])).
Proof.
  unfold wt_tls_extension_psk_key_exchange_modes, extension_wire. cbn [x_type x_data].
  change (u16_wire WT_TLS_EXTENSION_PSK_KEY_EXCHANGE_MODES ++ u16_wire (zlen [1; 1]) ++ [1; 1]) with (((u16_wire WT_TLS_EXTENSION_PSK_KEY_EXCHANGE_MODES ++ u16_wire 2) ++ [1]) ++ [1]).
  appends_parts.
Qed.

Lemma appends_host_name name :
  0 < zlen name < 65531 -> appends (wt_tls_extension_server_name name) (extension_wire (mk_extension WT_TLS_EXTENSION_SERVER_NAME (host_body name))).
Proof.
  intros Hz. unfold wt_tls_extension_server_name, extension_wire. cbn [x_type x_data]. rewrite (proj2 (Z.eqb_neq _ _)), (proj2 (Z.ltb_ge _ _)) by lia. cbn [orb].
  assert (zlen (host_body name) = 2 + 1 + 2 + zlen name) as -> by (unfold host_body; rewrite !zlen_app, !zlen_u16_wire; change (zlen [0]) with 1; lia).
  unfold host_body. rewrite !app_assoc. appends_parts.
Qed.

(** The length in front wraps for a name of 65,531 bytes or more, which is accepted:
    the block says 3 bytes where 65,534 and more follow. *)
Lemma host_name_length_wraps :
  let w := wt_tls_extension_server_name (replicate (Z.to_nat 65534) 97) (wt_writer_init (Some (replicate (Z.to_nat 65550) 0)) 65550) in
  wt_writer_ok w = true /\ ztake 4 (writer_bytes w) = [0; 0; 0; 3] /\ w_offset w = 65543.
Proof. vm_compute. split_and!; reflexivity. Qed.

(** ** The block *)

(** C30. An extension block of distinct types that fits its bounds is encoded as exactly its
    wire form and parsed back to itself; and whatever bytes the parser accepts are the wire
    form of the list it answers, which is within those bounds and has no type twice, so that
    re-encoding a parsed block gives its bytes back. *)
Theorem extension_block_exact l :
  extensions_ok l ->
  encodes (wt_tls_extensions_encode l) (extensions_wire l) /\ decodes wt_tls_extensions_parse (extensions_wire l) l /\
  forall c parsed c', cursor_inv c -> wt_tls_extensions_parse c = (Ok parsed, c') ->
    extensions_ok parsed /\ cursor_view c = extensions_wire parsed ++ cursor_view c'.
Proof.
  intros Hl. split_and!; [by apply encodes_extensions|by apply decodes_extensions|].
  intros c parsed c' Hi E. destruct (reads_extensions c parsed c' Hi E) as (_ & bs & Hv & -> & Hok). by split.
Qed.

Definition sample_extensions : wt_tls_extension_list :=
  [mk_extension WT_TLS_EXTENSION_SUPPORTED_VERSIONS (u16_wire WT_TLS_VERSION_1_3); mk_extension WT_TLS_EXTENSION_ALPN (names_body [[104; 51]])].

Lemma sample_extensions_ok : extensions_ok sample_extensions.
Proof.
  split.
  - by vm_compute.
  - apply NoDup_cons. split; [|apply NoDup_singleton]. by intros ?%list_elem_of_singleton.
  - repeat constructor; unfold is_u8; vm_compute; done.
  - by vm_compute.
Qed.

Lemma extension_block_exact_witness :
  extensions_wire sample_extensions = [0; 15; 0; 43; 0; 2; 3; 4; 0; 16; 0; 5; 0; 3; 2; 104; 51] /\
  decodes wt_tls_extensions_parse (extensions_wire sample_extensions) sample_extensions.
Proof. split; [by vm_compute|]. exact (proj1 (proj2 (extension_block_exact sample_extensions sample_extensions_ok))). Defined.
