(* ===== verification/Update.v ===== *)
(** Functional update of record fields, for the components whose state has many:
    [r <| field := v |>] is [r] with [v] in [field], [r <| field ::= f |>] with
    [f] applied to what is there.  A record type gives its fields once, as an
    instance of [Eta]; the setter of each field is found by instance search. *)

From S2P Require Import Prelude Core.

(** [eta r] is [r], written out field by field. *)
Class Eta (R : Type) := eta : R -> R.

Class Setter {R T : Type} (field : R -> T) := upd : (T -> T) -> R -> R.
#[global] Arguments upd {R T} field {_} f r : simpl never.
#[global] Hint Mode Setter + + + : typeclass_instances.

Ltac find_setter :=
  lazymatch goal with
  | |- @Setter ?R ?T ?field =>
      let e := constr:(_ : Eta R) in
      let e := eval hnf in e in
      let s := eval pattern field in e in
      lazymatch s with
      | ?s _ =>
          let t := eval cbv beta in (fun (g : T -> T) (r : R) => s (fun x => g (field x)) r) in
          exact t
      end
  end.

#[export] Hint Extern 1 (Setter _) => find_setter : typeclass_instances.

Declare Scope update_scope.
#[global] Open Scope update_scope.
Notation "r <| field ::= f |>" := (upd field f r)
  (at level 12, field at level 11, f at level 49, left associativity, format "r  <|  field  ::=  f  |>") : update_scope.
Notation "r <| field := v |>" := (upd field (fun _ => v) r)
  (at level 12, field at level 11, v at level 49, left associativity, format "r  <|  field  :=  v  |>") : update_scope.

(** Reading a field of an updated record. *)
Ltac upd_simpl :=
  repeat match goal with
  | |- context [?p (@upd ?R ?T ?q ?s ?f ?c)] =>
      first [ change (p (@upd R T q s f c)) with (p c)
            | change (p (@upd R T q s f c)) with (f (p c)); cbv beta ]
  end.

Ltac upd_simpl_in H :=
  repeat match type of H with
  | context [?p (@upd ?R ?T ?q ?s ?f ?c)] =>
      first [ change (p (@upd R T q s f c)) with (p c) in H
            | change (p (@upd R T q s f c)) with (f (p c)) in H; cbv beta in H ]
  end.

(** ** Statuses in sequence *)

(** [c <-! e ;; k]: the code's [if (status != WT_OK) return status;], with the
    state either way. *)
Definition on_ok {S} (p : wt_status * S) (k : S -> wt_status * S) : wt_status * S :=
  if bool_decide (p.1 = WT_OK) then k p.2 else p.

Notation "c <-! e ;; k" := (on_ok e (fun c => k)) (at level 100, e at next level, right associativity) : update_scope.

(** What holds of the state whatever the status. *)
Lemma on_ok_inv {S} (P : S -> Prop) (p : wt_status * S) (k : S -> wt_status * S) :
  P p.2 -> (forall c, P c -> P (k c).2) -> P (on_ok p k).2.
Proof. intros Hp Hk. unfold on_ok. case_bool_decide; [by apply Hk|done]. Qed.

Lemma on_ok_ok {S} (p : wt_status * S) (k : S -> wt_status * S) c :
  p = (WT_OK, c) -> on_ok p k = k c.
Proof. by intros ->. Qed.

Lemma on_ok_fail {S} (p : wt_status * S) (k : S -> wt_status * S) :
  p.1 <> WT_OK -> on_ok p k = p.
Proof. intros H. unfold on_ok. by rewrite bool_decide_false. Qed.

Lemma on_ok_inversion {S} (p : wt_status * S) (k : S -> wt_status * S) c :
  on_ok p k = (WT_OK, c) -> exists c', p = (WT_OK, c') /\ k c' = (WT_OK, c).
Proof.
  unfold on_ok. destruct p as [s c']. cbn. case_bool_decide as H; [subst; eauto|]. intros [= -> ->]. by destruct H.
Qed.
