(* ===== verification/Connection.v ===== *)
(** The QUIC connection, its state: [src/quic/connection.c] and [connection.h].
    One record holds what the C structure holds: the three packet number spaces
    with their keys, the list of packets in flight, the congestion window, the
    close state, the streams, the connection IDs and the retained control frames.
    What the calls of this file do to it is defined here; sending, receiving, the
    timers, the key update and the connection IDs are in the files after it. *)

From S2P Require Import Prelude Core QuicError Crypto Packet Protection PacketIo.
From S2P Require Export Update Frame PnSpace Loss Congestion Close Stream Datagram TransportParameters ServerRetry.

(** ** The pieces of the state *)

Inductive wt_quic_role := WT_QUIC_ROLE_CLIENT | WT_QUIC_ROLE_SERVER.

#[export] Instance role_eq_dec : EqDecision wt_quic_role.
Proof. solve_decision. Defined.

Inductive wt_quic_space := WT_QUIC_SPACE_INITIAL | WT_QUIC_SPACE_HANDSHAKE | WT_QUIC_SPACE_APPLICATION.

#[export] Instance space_eq_dec : EqDecision wt_quic_space.
Proof. solve_decision. Defined.

Definition space_index (space : wt_quic_space) : Z :=
  match space with WT_QUIC_SPACE_INITIAL => 0 | WT_QUIC_SPACE_HANDSHAKE => 1 | WT_QUIC_SPACE_APPLICATION => 2 end.

Lemma space_index_inj a b : space_index a = space_index b -> a = b.
Proof. by destruct a, b. Qed.

Definition all_spaces : list wt_quic_space := [WT_QUIC_SPACE_INITIAL; WT_QUIC_SPACE_HANDSHAKE; WT_QUIC_SPACE_APPLICATION].

Definition WT_QUIC_MAX_RETRY_TOKEN : Z := 256.
Definition WT_QUIC_CONNECTION_FRAMES_MAX : nat := 16.
Definition WT_QUIC_CONNECTION_ACK_RANGES_MAX : nat := 256.
Definition WT_QUIC_PEER_CONNECTION_IDS_MAX : nat := 8.
Definition WT_QUIC_CONNECTION_IDS_MAX : nat := 8.
Definition WT_QUIC_CONTROL_STREAM_ID : Z := U64_MAX.
Definition WT_QUIC_CONTROL_FRAMES_MAX : nat := 8.
Definition WT_QUIC_CONTROL_WIRE_MAX : nat := 64.
Definition WT_QUIC_PATH_VALIDATION_ATTEMPTS : Z := 3.
Definition WT_QUIC_CONNECTION_INITIAL_PTO : Z := 1333000.
Definition WT_QUIC_CONNECTION_PAYLOAD_MAX : Z := WT_QUIC_MAX_PACKET + 64.
Definition WT_QUIC_CONNECTION_REASON_MAX : Z := 64.
Definition WT_QUIC_DATAGRAM_PACKET_OVERHEAD : Z := 64.
Definition WT_QUIC_DEFAULT_MAX_UDP_PAYLOAD_SIZE : Z := 65527.

(** The frame types on the wire ([frame.h]). *)
Definition WT_QUIC_FRAME_PADDING : Z := 0x00.
Definition WT_QUIC_FRAME_PING : Z := 0x01.
Definition WT_QUIC_FRAME_ACK : Z := 0x02.
Definition WT_QUIC_FRAME_ACK_ECN : Z := 0x03.
Definition WT_QUIC_FRAME_RESET_STREAM : Z := 0x04.
Definition WT_QUIC_FRAME_STOP_SENDING : Z := 0x05.
Definition WT_QUIC_FRAME_CRYPTO : Z := 0x06.
Definition WT_QUIC_FRAME_NEW_TOKEN : Z := 0x07.
Definition WT_QUIC_FRAME_STREAM_BASE : Z := 0x08.
Definition WT_QUIC_FRAME_STREAM_LAST : Z := 0x0f.
Definition WT_QUIC_FRAME_MAX_DATA : Z := 0x10.
Definition WT_QUIC_FRAME_MAX_STREAM_DATA : Z := 0x11.
Definition WT_QUIC_FRAME_MAX_STREAMS_BIDI : Z := 0x12.
Definition WT_QUIC_FRAME_MAX_STREAMS_UNI : Z := 0x13.
Definition WT_QUIC_FRAME_DATA_BLOCKED : Z := 0x14.
Definition WT_QUIC_FRAME_STREAM_DATA_BLOCKED : Z := 0x15.
Definition WT_QUIC_FRAME_STREAMS_BLOCKED_BIDI : Z := 0x16.
Definition WT_QUIC_FRAME_STREAMS_BLOCKED_UNI : Z := 0x17.
Definition WT_QUIC_FRAME_NEW_CONNECTION_ID : Z := 0x18.
Definition WT_QUIC_FRAME_RETIRE_CONNECTION_ID : Z := 0x19.
Definition WT_QUIC_FRAME_PATH_CHALLENGE : Z := 0x1a.
Definition WT_QUIC_FRAME_PATH_RESPONSE : Z := 0x1b.
Definition WT_QUIC_FRAME_CONNECTION_CLOSE_TRANSPORT : Z := 0x1c.
Definition WT_QUIC_FRAME_CONNECTION_CLOSE_APPLICATION : Z := 0x1d.
Definition WT_QUIC_FRAME_HANDSHAKE_DONE : Z := 0x1e.
Definition WT_QUIC_FRAME_RESET_STREAM_AT : Z := 0x24.
Definition WT_QUIC_FRAME_DATAGRAM : Z := 0x30.
Definition WT_QUIC_FRAME_DATAGRAM_LEN : Z := 0x31.

Record wt_quic_peer_limits := mk_limits {
  pl_max_idle_timeout : Z;
  pl_max_udp_payload_size : Z;
  pl_initial_max_data : Z;
  pl_initial_max_stream_data_bidi_local : Z;
  pl_initial_max_stream_data_bidi_remote : Z;
  pl_initial_max_stream_data_uni : Z;
  pl_initial_max_streams_bidi : Z;
  pl_initial_max_streams_uni : Z;
  pl_active_connection_id_limit : Z;
  pl_max_datagram_frame_size : Z;
  pl_reset_stream_at : bool;
  pl_set : bool }.

#[export] Instance eta_limits : Eta wt_quic_peer_limits := fun r => mk_limits (pl_max_idle_timeout r) (pl_max_udp_payload_size r)
  (pl_initial_max_data r) (pl_initial_max_stream_data_bidi_local r) (pl_initial_max_stream_data_bidi_remote r)
  (pl_initial_max_stream_data_uni r) (pl_initial_max_streams_bidi r) (pl_initial_max_streams_uni r)
  (pl_active_connection_id_limit r) (pl_max_datagram_frame_size r) (pl_reset_stream_at r) (pl_set r).

Definition zeroed_limits : wt_quic_peer_limits := mk_limits 0 0 0 0 0 0 0 0 0 0 false false.

(** The two connection IDs are read by [wt_quic_connection_init] only: from then
    on the configuration's pointers are the connection's own copies. *)
Record wt_quic_connection_config := mk_config {
  cf_role : wt_quic_role;
  cf_version : Z;
  cf_local_connection_id : list Z;
  cf_peer_connection_id : list Z;
  cf_aead : wt_aead;
  cf_max_ack_delay : Z;
  cf_local_max_ack_delay : Z;
  cf_local_active_connection_id_limit : Z;
  cf_local_max_stream_data : Z;
  cf_idle_timeout : Z;
  cf_max_datagram_size : Z }.

(** A connection ID one end gave the other, with its sequence and reset token. *)
Record wt_quic_issued_connection_id := mk_issued_id {
  ii_sequence : Z;
  ii_id : list Z;
  ii_reset_token : list Z }.

(** What a packet in flight carried that can be sent again. *)
Record wt_quic_tx_frame := mk_tx_frame {
  tf_in_use : bool;
  tf_space : wt_quic_space;
  tf_is_crypto : bool;
  tf_stream_id : Z;
  tf_offset : Z;
  tf_length : Z }.

#[export] Instance eta_tx_frame : Eta wt_quic_tx_frame := fun r => mk_tx_frame (tf_in_use r) (tf_space r) (tf_is_crypto r)
  (tf_stream_id r) (tf_offset r) (tf_length r).

Definition zeroed_tx_frame : wt_quic_tx_frame := mk_tx_frame false WT_QUIC_SPACE_INITIAL false 0 0 0.

(** A control frame kept until it is acknowledged. *)
Record wt_quic_control_frame := mk_control_frame {
  kf_in_use : bool;
  kf_resend_pending : bool;
  kf_space : wt_quic_space;
  kf_wire : list Z }.

#[export] Instance eta_control_frame : Eta wt_quic_control_frame := fun r => mk_control_frame (kf_in_use r) (kf_resend_pending r)
  (kf_space r) (kf_wire r).

Definition zeroed_control_frame : wt_quic_control_frame := mk_control_frame false false WT_QUIC_SPACE_INITIAL [].

(** [wt_quic_packet_keys_clear]: the structure, zeroed. *)
Definition cleared_keys : wt_quic_packet_keys := mk_keys (replicate 32 0) [] (replicate 12 0) [] WT_AEAD_AES_128_GCM.

(** What the structure keeps in arrays with a cell for each space. *)
Record space_state := mk_space_state {
  ss_keys_in : wt_quic_packet_keys;
  ss_has_keys_in : bool;
  ss_keys_out : wt_quic_packet_keys;
  ss_has_keys_out : bool;
  ss_space : wt_quic_pn_space;
  ss_received_at : Z;
  ss_packets_declared_lost : Z;
  ss_probes_sent : Z;
  ss_packets_sent : Z;
  ss_acks_sent : Z;
  ss_ack_largest : Z;
  ss_packets_acked : Z;
  ss_aead_encrypted : Z }.

#[export] Instance eta_space_state : Eta space_state := fun r => mk_space_state (ss_keys_in r) (ss_has_keys_in r) (ss_keys_out r)
  (ss_has_keys_out r) (ss_space r) (ss_received_at r) (ss_packets_declared_lost r) (ss_probes_sent r) (ss_packets_sent r)
  (ss_acks_sent r) (ss_ack_largest r) (ss_packets_acked r) (ss_aead_encrypted r).

Definition zeroed_space : space_state :=
  mk_space_state cleared_keys false cleared_keys false wt_quic_pn_space_init 0 0 0 0 0 0 0 0.

#[export] Instance eta_pn_space : Eta wt_quic_pn_space := fun r => mk_space (sp_next_send r) (sp_has_largest_acked r) (sp_largest_acked r)
  (sp_has_sent r) (sp_received r) (sp_rtt r).

#[export] Instance eta_flow : Eta wt_quic_flow := fun r => mk_flow (fl_peer_max_data r) (fl_data_sent r) (fl_max_data r) (fl_data_received r)
  (fl_window r).

Record spaces := mk_spaces { in_initial : space_state; in_handshake : space_state; in_application : space_state }.

Definition at_space (p : spaces) (space : wt_quic_space) : space_state :=
  match space with
  | WT_QUIC_SPACE_INITIAL => in_initial p | WT_QUIC_SPACE_HANDSHAKE => in_handshake p | WT_QUIC_SPACE_APPLICATION => in_application p
  end.

Definition alter_space (space : wt_quic_space) (f : space_state -> space_state) (p : spaces) : spaces :=
  match space with
  | WT_QUIC_SPACE_INITIAL => mk_spaces (f (in_initial p)) (in_handshake p) (in_application p)
  | WT_QUIC_SPACE_HANDSHAKE => mk_spaces (in_initial p) (f (in_handshake p)) (in_application p)
  | WT_QUIC_SPACE_APPLICATION => mk_spaces (in_initial p) (in_handshake p) (f (in_application p))
  end.

Lemma at_alter_same s f p : at_space (alter_space s f p) s = f (at_space p s).
Proof. by destruct s. Qed.
Lemma at_alter_other s s' f p : s <> s' -> at_space (alter_space s f p) s' = at_space p s'.
Proof. by destruct s, s'. Qed.
Lemma at_alter s s' f p : at_space (alter_space s f p) s' = if bool_decide (s = s') then f (at_space p s') else at_space p s'.
Proof. case_bool_decide; [subst; apply at_alter_same|by apply at_alter_other]. Qed.

(** Path validation (RFC 9000 section 8.2). *)
Record path_state := mk_path {
  pa_validating : bool;
  pa_challenge_pending : bool;
  pa_challenge : list Z;
  pa_attempts : Z;
  pa_deadline : Z;
  pa_validated : bool;
  pa_challenges_sent : Z;
  pa_responses_sent : Z;
  pa_responses_matched : Z;
  pa_failures : Z }.

#[export] Instance eta_path : Eta path_state := fun r => mk_path (pa_validating r) (pa_challenge_pending r) (pa_challenge r) (pa_attempts r)
  (pa_deadline r) (pa_validated r) (pa_challenges_sent r) (pa_responses_sent r) (pa_responses_matched r) (pa_failures r).

Definition zeroed_path : path_state := mk_path false false (replicate 8 0) 0 0 false 0 0 0 0.

(** The Retry a client accepted. *)
Record retry_state := mk_retry {
  rt_token : list Z;
  rt_source_connection_id : list Z;
  rt_accepted : bool;
  rt_pending_keys : bool;
  rt_server_packet_received : bool;
  rt_discarded : Z;
  rt_accepted_count : Z }.

#[export] Instance eta_retry : Eta retry_state := fun r => mk_retry (rt_token r) (rt_source_connection_id r) (rt_accepted r) (rt_pending_keys r)
  (rt_server_packet_received r) (rt_discarded r) (rt_accepted_count r).

Definition zeroed_retry_state : retry_state := mk_retry [] [] false false false 0 0.

(** The 1-RTT key update (RFC 9001 section 6). *)
Record key_update := mk_key_update {
  ku_key_phase : bool;
  ku_key_phase_in : bool;
  ku_next_keys_in : wt_quic_packet_keys;
  ku_next_keys_in_ready : bool;
  ku_next_keys_out : wt_quic_packet_keys;
  ku_next_keys_out_ready : bool;
  ku_previous_keys_in : wt_quic_packet_keys;
  ku_previous_keys_in_ready : bool;
  ku_first_pn : Z;
  ku_first_pn_set : bool;
  ku_in_first_pn : Z;
  ku_in_first_pn_set : bool;
  ku_awaiting_confirmation : bool;
  ku_response_pending : bool;
  ku_initiated : Z;
  ku_responded : Z;
  ku_errors : Z }.

#[export] Instance eta_key_update : Eta key_update := fun r => mk_key_update (ku_key_phase r) (ku_key_phase_in r) (ku_next_keys_in r)
  (ku_next_keys_in_ready r) (ku_next_keys_out r) (ku_next_keys_out_ready r) (ku_previous_keys_in r) (ku_previous_keys_in_ready r)
  (ku_first_pn r) (ku_first_pn_set r) (ku_in_first_pn r) (ku_in_first_pn_set r) (ku_awaiting_confirmation r) (ku_response_pending r)
  (ku_initiated r) (ku_responded r) (ku_errors r).

Definition zeroed_key_update : key_update :=
  mk_key_update false false cleared_keys false cleared_keys false cleared_keys false 0 false 0 false false false 0 0 0.

(** The close a handler asks for, and why this endpoint closed. *)
Record close_hint := mk_hint {
  hn_code : Z;
  hn_frame_type : Z;
  hn_set : bool;
  hn_application : bool;
  hn_cause : wt_status;
  hn_cause_frame : Z }.

#[export] Instance eta_hint : Eta close_hint := fun r => mk_hint (hn_code r) (hn_frame_type r) (hn_set r) (hn_application r) (hn_cause r)
  (hn_cause_frame r).

(** The close the peer sent. *)
Record peer_close := mk_peer_close {
  pc_closed : bool;
  pc_kind : wt_quic_close_kind;
  pc_error_code : Z;
  pc_frame_type : Z;
  pc_reason : list Z }.

Record counters := mk_counters {
  ct_packets_sent : Z;
  ct_packets_received : Z;
  ct_bytes_sent : Z;
  ct_bytes_received : Z;
  ct_frames_walked : Z;
  ct_stream_frames_seen : Z;
  ct_frames_delivered : Z;
  ct_lost_without_descriptor : Z;
  ct_probes_with_data : Z;
  ct_control_frames_unretained : Z;
  ct_control_frames_resend_deferred : Z;
  ct_packets_discarded : Z;
  ct_aead_failed : Z }.

#[export] Instance eta_counters : Eta counters := fun r => mk_counters (ct_packets_sent r) (ct_packets_received r) (ct_bytes_sent r)
  (ct_bytes_received r) (ct_frames_walked r) (ct_stream_frames_seen r) (ct_frames_delivered r) (ct_lost_without_descriptor r)
  (ct_probes_with_data r) (ct_control_frames_unretained r) (ct_control_frames_resend_deferred r) (ct_packets_discarded r) (ct_aead_failed r).

(** A datagram [wt_udp_send] took: to whom, the bytes, and the packet it carries. *)
Record sent_datagram := mk_datagram {
  dg_to : option wt_udp_address;
  dg_bytes : list Z;
  dg_space : wt_quic_space;
  dg_number : Z }.

(** [x++] on a 64-bit counter. *)
Definition incr (x : Z) : Z := u64 (x + 1).

(** The connection.  [X] is the state of the layer above, which its frame and
    loss handlers keep; [cn_outbox] is what [wt_udp_send] has put on the wire,
    oldest first, [cn_draws] counts the calls of [wt_random_bytes], and
    [cn_depth] is how deep loss detection has been entered from its own callback
    (see [ConnectionSend]). *)
Set Implicit Arguments.
Set Maximal Implicit Insertion.
Record wt_quic_connection (X : Type) := mk_connection {
  cn_config : wt_quic_connection_config;
  cn_open_socket : bool;
  cn_peer : option wt_udp_address;
  cn_local_connection_id : list Z;
  cn_peer_connection_id : list Z;
  cn_original_destination_id : list Z;
  cn_peer_source_connection_id : option (list Z);
  cn_spaces : spaces;
  cn_loss : wt_quic_loss;
  cn_congestion : wt_quic_congestion;
  cn_close : wt_quic_close_state;
  cn_peer_limits : wt_quic_peer_limits;
  cn_local_max_data : Z;
  cn_local_max_data_set : bool;
  cn_issued_ids : list (option wt_quic_issued_connection_id);
  cn_issued_count : Z;
  cn_next_issued_sequence : Z;
  cn_peer_ids : list (option wt_quic_issued_connection_id);
  cn_peer_id_count : Z;
  cn_current_peer_sequence : option Z;
  cn_peer_ids_retired : Z;
  cn_retires_received : Z;
  cn_retire_current_after_store : bool;
  cn_streams : wt_quic_stream_table;
  cn_flow : wt_quic_flow;
  cn_local_max_streams_bidi : Z;
  cn_local_max_streams_bidi_set : bool;
  cn_local_max_streams_uni : Z;
  cn_local_max_streams_uni_set : bool;
  cn_datagrams : wt_quic_datagram_queue;
  cn_path : path_state;
  cn_frames : list wt_quic_tx_frame;
  cn_control_frames : list wt_quic_control_frame;
  cn_hint : close_hint;
  cn_last_activity : Z;
  cn_handshake_confirmed : bool;
  cn_retry : retry_state;
  cn_key_update : key_update;
  cn_aead_confidentiality_limit : Z;
  cn_aead_integrity_limit : Z;
  cn_close_sent : bool;
  cn_close_frame_sent : bool;
  cn_peer_close : peer_close;
  cn_counters : counters;
  cn_context : X;
  cn_outbox : list sent_datagram;
  cn_draws : Z;
  cn_depth : nat }.
Unset Implicit Arguments.
Unset Maximal Implicit Insertion.


#[export] Instance eta_connection {X} : Eta (wt_quic_connection X) := fun c => mk_connection
  (cn_config c) (cn_open_socket c) (cn_peer c) (cn_local_connection_id c) (cn_peer_connection_id c)
  (cn_original_destination_id c) (cn_peer_source_connection_id c) (cn_spaces c) (cn_loss c) (cn_congestion c) (cn_close c)
  (cn_peer_limits c) (cn_local_max_data c) (cn_local_max_data_set c) (cn_issued_ids c) (cn_issued_count c)
  (cn_next_issued_sequence c) (cn_peer_ids c) (cn_peer_id_count c) (cn_current_peer_sequence c) (cn_peer_ids_retired c)
  (cn_retires_received c) (cn_retire_current_after_store c) (cn_streams c) (cn_flow c) (cn_local_max_streams_bidi c)
  (cn_local_max_streams_bidi_set c) (cn_local_max_streams_uni c) (cn_local_max_streams_uni_set c) (cn_datagrams c) (cn_path c)
  (cn_frames c) (cn_control_frames c) (cn_hint c) (cn_last_activity c) (cn_handshake_confirmed c) (cn_retry c) (cn_key_update c)
  (cn_aead_confidentiality_limit c) (cn_aead_integrity_limit c) (cn_close_sent c) (cn_close_frame_sent c) (cn_peer_close c)
  (cn_counters c) (cn_context c) (cn_outbox c) (cn_draws c) (cn_depth c).

Section Connection.
Context {X : Type}.
Notation connection := (wt_quic_connection X).

(** The state of one space. *)
Definition space_of (c : connection) (space : wt_quic_space) : space_state := at_space (cn_spaces c) space.
Definition on_space (space : wt_quic_space) (f : space_state -> space_state) (c : connection) : connection :=
  c <| cn_spaces ::= alter_space space f |>.
Definition on_counters (f : counters -> counters) (c : connection) : connection := c <| cn_counters ::= f |>.

(** ** Initialisation *)

Definition aead_limits_for (aead : wt_aead) : Z * Z :=
  match aead with
  | WT_AEAD_AES_128_GCM => (2 ^ 23, 2 ^ 52)
  | WT_AEAD_CHACHA20_POLY1305 => (U64_MAX, 2 ^ 36)
  end.

(** [context] is what the handlers the caller installs start with. *)
Definition wt_quic_connection_init (config : wt_quic_connection_config) (context : X) : wt_status * option connection :=
  if (WT_QUIC_MAX_CID_LEN <? zlen (cf_local_connection_id config)) || (WT_QUIC_MAX_CID_LEN <? zlen (cf_peer_connection_id config))
  then (WT_ERR_INVALID_ARGUMENT, None)
  else if cf_max_datagram_size config <? WT_QUIC_MAX_PACKET then (WT_ERR_INVALID_ARGUMENT, None)
  else
    (WT_OK, Some (mk_connection config false None (cf_local_connection_id config) (cf_peer_connection_id config) [] None
      (mk_spaces zeroed_space zeroed_space zeroed_space) wt_quic_loss_init
      (wt_quic_congestion_init (cf_max_datagram_size config)) wt_quic_close_state_init zeroed_limits 0 false
      (replicate WT_QUIC_CONNECTION_IDS_MAX None) 0 1 (replicate WT_QUIC_PEER_CONNECTION_IDS_MAX None) 0 None 0 0 false
      wt_quic_stream_table_init (wt_quic_flow_init 0 0) 0 false 0 false wt_quic_datagram_queue_init zeroed_path
      (replicate WT_QUIC_CONNECTION_FRAMES_MAX zeroed_tx_frame) (replicate WT_QUIC_CONTROL_FRAMES_MAX zeroed_control_frame)
      (mk_hint 0 0 false false WT_OK 0) 0 false zeroed_retry_state zeroed_key_update
      (aead_limits_for (cf_aead config)).1 (aead_limits_for (cf_aead config)).2 false false
      (mk_peer_close false WT_QUIC_CLOSE_NONE 0 0 []) (mk_counters 0 0 0 0 0 0 0 0 0 0 0 0 0) context [] 0 0)).

Definition wt_quic_connection_attach (peer : option wt_udp_address) (c : connection) : wt_status * connection :=
  let c := c <| cn_open_socket := true |> in
  (WT_OK, match peer with None => c | Some p => c <| cn_peer := Some p |> end).

Definition wt_quic_connection_set_keys (space : wt_quic_space) (inbound : bool) (keys : wt_quic_packet_keys) (c : connection)
    : wt_status * connection :=
  (WT_OK, on_space space (fun s =>
     if inbound then s <| ss_keys_in := keys |> <| ss_has_keys_in := true |>
     else s <| ss_keys_out := keys |> <| ss_has_keys_out := true |>) c).

Definition wt_quic_connection_discard_keys (space : wt_quic_space) (c : connection) : wt_status * connection :=
  (WT_OK, on_space space (fun s => s <| ss_keys_in := cleared_keys |> <| ss_keys_out := cleared_keys |>
                                     <| ss_has_keys_in := false |> <| ss_has_keys_out := false |>) c).

Definition wt_quic_connection_clear (c : connection) : connection :=
  let forget s := s <| ss_keys_in := cleared_keys |> <| ss_keys_out := cleared_keys |> in
  c <| cn_spaces ::= (fun p => mk_spaces (forget (in_initial p)) (forget (in_handshake p)) (forget (in_application p))) |>
    <| cn_key_update ::= (fun k => k <| ku_previous_keys_in := cleared_keys |> <| ku_next_keys_in := cleared_keys |>
                                     <| ku_next_keys_out := cleared_keys |>) |>
    <| cn_peer := None |> <| cn_open_socket := false |>.

Definition wt_quic_connection_set_original_destination_id (id : list Z) (c : connection) : wt_status * connection :=
  if WT_QUIC_MAX_CID_LEN <? zlen id then (WT_ERR_INVALID_ARGUMENT, c)
  else (WT_OK, c <| cn_original_destination_id := id |>).

(** ** Time *)

Definition microseconds_of_milliseconds (milliseconds : Z) : Z :=
  if U64_MAX / 1000 <? milliseconds then U64_MAX else u64 (milliseconds * 1000).

Definition idle_timeout_of (c : connection) : Z :=
  let local := cf_idle_timeout (cn_config c) in
  let peer := pl_max_idle_timeout (cn_peer_limits c) in
  if local =? 0 then peer else if peer =? 0 then local else if local <? peer then local else peer.

Definition max_ack_delay_for (c : connection) (space : wt_quic_space) : Z :=
  if bool_decide (space = WT_QUIC_SPACE_APPLICATION) then cf_max_ack_delay (cn_config c) else 0.
Definition ack_delay_for (c : connection) (space : wt_quic_space) : Z :=
  if bool_decide (space = WT_QUIC_SPACE_APPLICATION) then cf_local_max_ack_delay (cn_config c) else 0.

Definition space_rtt (c : connection) (space : wt_quic_space) : wt_quic_rtt := sp_rtt (ss_space (space_of c space)).

(** The first space, of the three in this order, that has a round-trip sample. *)
Definition pto_of (c : connection) : Z :=
  let pto space := wt_quic_rtt_pto (space_rtt c space) (max_ack_delay_for c space) in
  match pto WT_QUIC_SPACE_APPLICATION with
  | Ok t => t
  | Fail _ _ =>
      match pto WT_QUIC_SPACE_HANDSHAKE with
      | Ok t => t
      | Fail _ _ => match pto WT_QUIC_SPACE_INITIAL with Ok t => t | Fail _ _ => WT_QUIC_CONNECTION_INITIAL_PTO end
      end
  end.

(** ** Closing *)

Definition wt_quic_connection_is_closed (c : connection) : bool :=
  pc_closed (cn_peer_close c) || wt_quic_close_is_closed (cn_close c).

Definition wt_quic_connection_close (error_code frame_type : Z) (reason : list Z) (now : Z) (c : connection)
    : wt_status * connection :=
  if wt_quic_connection_is_closed c then (WT_OK, c)
  else
    let r := wt_quic_close_transport (cn_close c) error_code frame_type reason now (pto_of c) in
    (r.1, c <| cn_close := r.2 |>).

Definition close_with (error_code frame_type now : Z) (c : connection) : wt_status * connection :=
  wt_quic_connection_close error_code frame_type [] now c.

Definition wt_quic_connection_refuse_application (error_code frame_type : Z) (c : connection) : connection :=
  c <| cn_hint ::= (fun h => h <| hn_code := error_code |> <| hn_frame_type := frame_type |> <| hn_set := true |>
                               <| hn_application := true |>) |>.

Definition wt_quic_connection_is_drained (c : connection) (now : Z) : bool :=
  if negb (wt_quic_connection_is_closed c) then false else wt_quic_close_draining_expired (cn_close c) now.

Definition wt_quic_connection_retry_keys_installed (c : connection) : connection :=
  c <| cn_retry ::= (fun r => r <| rt_pending_keys := false |>) |>.

(** ** The peer's transport parameters *)

Definition parameter_or (params : wt_quic_transport_parameters) (id fallback : Z) : Z :=
  match wt_quic_transport_parameters_integer params id with Ok v => v | Fail _ _ => fallback end.

Definition adopt_peer_connection_id (id : list Z) (c : connection) : connection :=
  if WT_QUIC_MAX_CID_LEN <? zlen id then c
  else if bool_decide (id = cn_peer_connection_id c) then c
  else c <| cn_peer_connection_id := id |>.

Definition limits_of (params : wt_quic_transport_parameters) : wt_quic_peer_limits :=
  mk_limits (microseconds_of_milliseconds (parameter_or params WT_QUIC_TP_MAX_IDLE_TIMEOUT 0))
    (parameter_or params WT_QUIC_TP_MAX_UDP_PAYLOAD_SIZE WT_QUIC_DEFAULT_MAX_UDP_PAYLOAD_SIZE)
    (parameter_or params WT_QUIC_TP_INITIAL_MAX_DATA 0)
    (parameter_or params WT_QUIC_TP_INITIAL_MAX_STREAM_DATA_BIDI_LOCAL 0)
    (parameter_or params WT_QUIC_TP_INITIAL_MAX_STREAM_DATA_BIDI_REMOTE 0)
    (parameter_or params WT_QUIC_TP_INITIAL_MAX_STREAM_DATA_UNI 0)
    (parameter_or params WT_QUIC_TP_INITIAL_MAX_STREAMS_BIDI 0)
    (parameter_or params WT_QUIC_TP_INITIAL_MAX_STREAMS_UNI 0)
    (parameter_or params WT_QUIC_TP_ACTIVE_CONNECTION_ID_LIMIT 2)
    (parameter_or params WT_QUIC_TP_MAX_DATAGRAM_FRAME_SIZE 0)
    (match wt_quic_transport_parameters_get params WT_QUIC_TP_RESET_STREAM_AT with Ok _ => true | Fail _ _ => false end)
    true.

(** The client's checks of RFC 9000 section 7.3: what the server says of the IDs
    of the exchange is what this endpoint saw. *)
Definition client_ids_agree (params : wt_quic_transport_parameters) (c : connection) : bool :=
  let get id := wt_quic_transport_parameters_get params id in
  (if zlen (cn_original_destination_id c) =? 0 then true
   else match get WT_QUIC_TP_ORIGINAL_DESTINATION_CONNECTION_ID with
        | Ok value => bool_decide (value = cn_original_destination_id c) | Fail _ _ => false end) &&
  match get WT_QUIC_TP_RETRY_SOURCE_CONNECTION_ID with
  | Ok value => rt_accepted (cn_retry c) && bool_decide (value = rt_source_connection_id (cn_retry c))
  | Fail _ _ => negb (rt_accepted (cn_retry c))
  end.

Definition check_client_ids (params : wt_quic_transport_parameters) (c : connection) : wt_status * connection :=
  if bool_decide (cf_role (cn_config c) = WT_QUIC_ROLE_CLIENT) && negb (client_ids_agree params c) then (WT_ERR_PROTOCOL, c)
  else (WT_OK, c).

Definition wt_quic_connection_set_peer_parameters (data : list Z) (c : connection) : wt_status * connection :=
  match wt_quic_transport_parameters_decode data with
  | Some (Ok params) =>
      match wt_quic_transport_parameters_check params (bool_decide (cf_role (cn_config c) = WT_QUIC_ROLE_SERVER)) with
      | (WT_OK, _, _) =>
          let limits := limits_of params in
          let c := c <| cn_peer_limits := limits |> <| cn_flow ::= (fun f => f <| fl_peer_max_data := pl_initial_max_data limits |>) |> in
          match wt_quic_transport_parameters_get params WT_QUIC_TP_INITIAL_SOURCE_CONNECTION_ID with
          | Ok peer_source =>
              if match cn_peer_source_connection_id c with None => false | Some seen => negb (bool_decide (peer_source = seen)) end
              then (WT_ERR_PROTOCOL, c)
              else check_client_ids params
                     (if (0 <? zlen peer_source) && (zlen peer_source <=? WT_QUIC_MAX_CID_LEN) then adopt_peer_connection_id peer_source c else c)
          | Fail _ _ => check_client_ids params c
          end
      | (s, _, _) => (s, c)
      end
  | Some (Fail s _) => (s, c)
  | None => (WT_ERR_STATE, c)   (* the decoder's fuel is enough *)
  end.
End Connection.
