(* ===== verification/ConnectionSend.v ===== *)
(** Sending on a connection: [src/quic/connection_send.c], with the loss callback
    [on_lost] of [connection_loss.c] that sends again.  The two call each other:
    a packet that finds the sent list full runs loss detection, loss detection
    calls [on_lost] for each lost packet before removing it, and [on_lost] sends a
    retained control frame again.  The definitions follow the calls for as many
    [levels] as they are given and note in [cn_depth] how many were entered.  The
    code's callback gets a pointer into the list it may change; the packet here is
    the one it pointed to when it was called. *)

From S2P Require Import Prelude Core Writer Crypto Packet Protection PacketIo Connection ConnectionKeys.

Section Send.
Context {X : Type} {C : Crypto}.
Notation connection := (wt_quic_connection X).

(** [wt_udp_send], which may depend on all that was sent before. *)
Context (udp_send : list sent_datagram -> option wt_udp_address -> list Z -> wt_status).
(** [lost_handler], of the layer that keeps the bytes. *)
Context (lost_handler : option (wt_quic_tx_frame -> connection -> connection)).

(** ** Packet numbers and descriptors *)

Definition packet_number_length_for (next : Z) (space : wt_quic_pn_space) : Z :=
  let difference := if sp_has_largest_acked space then u64 (next - sp_largest_acked space) else u64 (next + 1) in
  if difference <? 0x80 then 1 else if difference <? 0x8000 then 2 else if difference <? 0x800000 then 3 else 4.

Definition sample_minimum (packet_number_length : Z) : Z :=
  if 4 <=? packet_number_length then 0 else 4 - packet_number_length.

Definition alloc_frame (space : wt_quic_space) (is_crypto : bool) (stream_id offset length : Z) (c : connection) : option nat * connection :=
  match first_index (fun f => negb (tf_in_use f)) (cn_frames c) with
  | None => (None, c)
  | Some i => (Some i, c <| cn_frames ::= <[i := mk_tx_frame true space is_crypto stream_id offset length]> |>)
  end.

Definition release_frame (tag : nat) (c : connection) : connection :=
  c <| cn_frames ::= alter (fun f => f <| tf_in_use := false |>) tag |>.

(** The tag of a packet without a descriptor. *)
Definition NO_TAG : Z := Z.of_nat WT_QUIC_CONNECTION_FRAMES_MAX.

Definition free_frame (tag : Z) (c : connection) : connection :=
  if tag <? NO_TAG then release_frame (Z.to_nat tag) c else c.

Definition tag_for_control (slot : nat) (c : connection) : Z * connection :=
  match cn_control_frames c !! slot with
  | None => (NO_TAG, c)   (* callers pass a slot of the table *)
  | Some kept =>
      match alloc_frame (kf_space kept) false WT_QUIC_CONTROL_STREAM_ID (Z.of_nat slot) (zlen (kf_wire kept)) c with
      | (None, c) => (NO_TAG, c)
      | (Some index, c) => (Z.of_nat index, c)
      end
  end.

Definition alter_control (slot : nat) (f : wt_quic_control_frame -> wt_quic_control_frame) (c : connection) : connection :=
  c <| cn_control_frames ::= alter f slot |>.

(** ** Loss detection, with a callback that may send *)

(** The walk of [wt_quic_loss_detect] and [wt_quic_loss_discard_space]: [visit] is
    told before the packet leaves the list. *)
Fixpoint lost_loop (visit : wt_quic_sent_packet -> connection -> connection) (gone : wt_quic_sent_packet -> bool)
    (fuel i : nat) (discarded : Z) (c : connection) : Z * connection :=
  match fuel with
  | O => (discarded, c)
  | S fuel =>
      match ls_sent (cn_loss c) !! i with
      | None => (discarded, c)
      | Some p =>
          if negb (gone p) then lost_loop visit gone fuel (S i) discarded c
          else lost_loop visit gone fuel i (discarded + 1) (visit p c <| cn_loss ::= (fun l => remove_packet l i) |>)
      end
  end.

(** A walk looks at each packet of the list once, and at each a callback adds:
    at most one for each packet. *)
Definition lost_fuel : nat := 2 * WT_QUIC_SENT_PACKETS_MAX.

Definition detect_lost (visit : wt_quic_sent_packet -> connection -> connection) (space : wt_quic_space) (now largest_acked : Z)
    (c : connection) : connection :=
  let rtt := Some (space_rtt c space) in
  let delay := loss_delay rtt in
  let lost_send_time := if delay <? now then u64 (now - delay) else 0 in
  let c := (lost_loop visit (packet_lost (space_index space) delay lost_send_time largest_acked) lost_fuel 0 0 c).2 in
  c <| cn_loss ::= (fun l => set_loss_time l (wt_quic_loss_time l (space_index space) rtt largest_acked)) |>.

Definition discard_space (visit : wt_quic_sent_packet -> connection -> connection) (space : wt_quic_space) (c : connection) : connection :=
  let r := lost_loop visit (fun p => pk_space p =? space_index space) lost_fuel 0 0 c in
  if 0 <? r.1 then r.2 <| cn_loss ::= (fun l => set_loss_time l 0) |> else r.2.

Definition largest_acked_of (c : connection) (space : wt_quic_space) : Z :=
  let s := ss_space (space_of c space) in if sp_has_largest_acked s then sp_largest_acked s else 0.

(** ** One packet out *)

Definition space_packet_type (space : wt_quic_space) : wt_quic_packet_type :=
  match space with
  | WT_QUIC_SPACE_INITIAL => WT_QUIC_PACKET_INITIAL | WT_QUIC_SPACE_HANDSHAKE => WT_QUIC_PACKET_HANDSHAKE
  | WT_QUIC_SPACE_APPLICATION => WT_QUIC_PACKET_INITIAL
  end.

Definition build_params (c : connection) (space : wt_quic_space) (packet_number packet_number_length : Z) (payload : list Z)
    : wt_quic_packet_build_t :=
  let short := bool_decide (space = WT_QUIC_SPACE_APPLICATION) in
  mk_build (space_packet_type space) short (cf_version (cn_config c)) (cn_peer_connection_id c)
    (if short then [] else cn_local_connection_id c)
    (if bool_decide (space = WT_QUIC_SPACE_INITIAL) && rt_accepted (cn_retry c) then rt_token (cn_retry c) else [])
    packet_number packet_number_length (ku_key_phase (cn_key_update c)) payload (ss_keys_out (space_of c space)).

Definition packet_buffer : list Z := replicate (Z.to_nat WT_QUIC_CONNECTION_PAYLOAD_MAX) 0.

(** The passes that expand a client's Initial to 1200 bytes. *)
Fixpoint pad_loop (build : list Z -> outcome (list Z)) (passes : nat) (payload : list Z) (padding : Z) (packet : list Z) : outcome (list Z) :=
  match passes with
  | O => Ok packet
  | S passes =>
      let length := zlen packet in
      if length =? WT_QUIC_MIN_INITIAL_DATAGRAM_SIZE then Ok packet
      else
        let next := if length <? WT_QUIC_MIN_INITIAL_DATAGRAM_SIZE then Some (padding + (WT_QUIC_MIN_INITIAL_DATAGRAM_SIZE - length))
                    else if padding <? length - WT_QUIC_MIN_INITIAL_DATAGRAM_SIZE then None
                    else Some (padding - (length - WT_QUIC_MIN_INITIAL_DATAGRAM_SIZE)) in
        match next with
        | None => Ok packet
        | Some padding =>
            if WT_QUIC_CONNECTION_PAYLOAD_MAX <? zlen payload + padding then Fail WT_ERR_LIMIT None
            else
              match build (payload ++ replicate (Z.to_nat padding) 0) with
              | Fail s e => Fail s e
              | Ok packet => pad_loop build passes payload padding packet
              end
        end
  end.

(** The packet, expanded if it has to be, and within the path's limit. *)
Definition assemble_packet (c : connection) (space : wt_quic_space) (packet_number packet_number_length : Z) (payload : list Z)
    : outcome (list Z) :=
  let build payload := wt_quic_packet_build (build_params c space packet_number packet_number_length payload) packet_buffer in
  match build payload with
  | Fail s e => Fail s e
  | Ok packet =>
      let expanded :=
        if bool_decide (space = WT_QUIC_SPACE_INITIAL) && bool_decide (cf_role (cn_config c) = WT_QUIC_ROLE_CLIENT) &&
           (zlen packet <? WT_QUIC_MIN_INITIAL_DATAGRAM_SIZE)
        then match pad_loop build 4 payload 0 packet with
             | Fail s e => Fail s e
             | Ok packet => if zlen packet <? WT_QUIC_MIN_INITIAL_DATAGRAM_SIZE then Fail WT_ERR_STATE None else Ok packet
             end
        else Ok packet in
      match expanded with
      | Fail s e => Fail s e
      | Ok packet => if cf_max_datagram_size (cn_config c) <? zlen packet then Fail WT_ERR_LIMIT None else Ok packet
      end
  end.

(** What is recorded of a packet that was protected: its count, and in the
    Application space the first number of the key phase. *)
Definition packet_protected (space : wt_quic_space) (packet_number : Z) (c : connection) : connection :=
  let c := on_space space (fun s => s <| ss_aead_encrypted ::= incr |>) c in
  if bool_decide (space = WT_QUIC_SPACE_APPLICATION)
  then on_key_update (fun k =>
         (if ku_first_pn_set k then k else k <| ku_first_pn := packet_number |> <| ku_first_pn_set := true |>)
           <| ku_response_pending := false |>) c
  else c.

Definition packet_counted (space : wt_quic_space) (length now : Z) (c : connection) : connection :=
  on_space space (fun s => s <| ss_packets_sent ::= incr |>)
    (on_counters (fun k => k <| ct_packets_sent ::= incr |> <| ct_bytes_sent ::= (fun b => u64 (b + length)) |>) c)
    <| cn_last_activity := now |>.

(** The tail of [send_packet]: the number is taken, the packet built, sent and remembered. *)
Definition emit_packet (space : wt_quic_space) (payload : list Z) (ack_eliciting : bool) (tag now : Z) (c : connection)
    : wt_status * connection :=
  let s := ss_space (space_of c space) in
  let packet_number_length := packet_number_length_for (sp_next_send s) s in
  if negb (wt_quic_congestion_can_send (cn_congestion c) (wt_quic_loss_bytes_in_flight (cn_loss c))) then (WT_ERR_AGAIN, c)
  else
    match wt_quic_pn_space_next s with
    | (Fail e _, _) => (e, c)
    | (Ok packet_number, s) =>
        let c := on_space space (fun st => st <| ss_space := s |>) c in
        if bool_decide (space = WT_QUIC_SPACE_INITIAL) && rt_pending_keys (cn_retry c) then (WT_ERR_AGAIN, c)
        else
          match assemble_packet c space packet_number packet_number_length payload with
          | Fail e _ => (e, c)
          | Ok packet =>
              let c := packet_protected space packet_number c in
              match udp_send (cn_outbox c) (cn_peer c) packet with
              | WT_OK =>
                  let c := c <| cn_outbox ::= (fun o => o ++ [mk_datagram (cn_peer c) packet space packet_number]) |> in
                  let r := wt_quic_loss_on_sent (cn_loss c)
                             (mk_sent (space_index space) packet_number now (zlen packet) tag ack_eliciting true) in
                  let c := c <| cn_loss := r.2 |> in
                  if bool_decide (r.1 = WT_OK) then (WT_OK, packet_counted space (zlen packet) now c) else (r.1, c)
              | e => (e, c)
              end
          end
    end.

(** A lost packet: [resend] is [send_encoded_frame]. *)
Definition on_lost_with (resend : wt_quic_space -> list Z -> bool -> Z -> Z -> connection -> wt_status * connection)
    (packet : wt_quic_sent_packet) (c : connection) : connection :=
  let space := if pk_space packet =? 0 then WT_QUIC_SPACE_INITIAL else if pk_space packet =? 1 then WT_QUIC_SPACE_HANDSHAKE else WT_QUIC_SPACE_APPLICATION in
  let c := on_space space (fun s => s <| ss_packets_declared_lost ::= incr |>) c in
  let without c := on_counters (fun k => k <| ct_lost_without_descriptor ::= incr |>) c in
  if NO_TAG <=? pk_tag packet then without c
  else
    match cn_frames c !! Z.to_nat (pk_tag packet) with
    | None => without c
    | Some descriptor =>
        if negb (tf_in_use descriptor) then without c
        else
          let c := release_frame (Z.to_nat (pk_tag packet)) c in
          let c :=
            if tf_stream_id descriptor =? WT_QUIC_CONTROL_STREAM_ID then
              let slot := Z.to_nat (tf_offset descriptor) in
              match cn_control_frames c !! slot with
              | Some kept =>
                  if kf_in_use kept then
                    let t := tag_for_control slot c in
                    let r := resend (kf_space kept) (kf_wire kept) true t.1 (cn_last_activity t.2) t.2 in
                    if bool_decide (r.1 = WT_OK) then r.2
                    else on_counters (fun k => k <| ct_control_frames_resend_deferred ::= incr |>)
                           (alter_control slot (fun k => k <| kf_resend_pending := true |>) r.2)
                  else c
              | None => c
              end
            else
              match lost_handler with
              | None => c
              | Some h => h descriptor c
              end in
          c <| cn_congestion ::= (fun g => (wt_quic_congestion_on_loss g (pk_time_sent packet) (pk_time_sent packet)).2) |>
    end.

(** A descriptor goes back when its packet cannot be sent. *)
Definition send_encoded_with (send : wt_quic_space -> list Z -> bool -> Z -> Z -> connection -> wt_status * connection)
    (space : wt_quic_space) (payload : list Z) (ack_eliciting : bool) (tag now : Z) (c : connection) : wt_status * connection :=
  let r := send space payload ack_eliciting tag now c in
  if bool_decide (r.1 = WT_OK) then r
  else (r.1, if tag =? NO_TAG then r.2 else free_frame tag r.2).

(** RFC 9001 section 6.6: [None] is the code's return without a packet. *)
Definition limit_checked (space : wt_quic_space) (now : Z) (c : connection) : option (wt_status * connection) * connection :=
  if cn_aead_confidentiality_limit c <=? ss_aead_encrypted (space_of c space) then
    if bool_decide (space = WT_QUIC_SPACE_APPLICATION) && wt_quic_connection_key_update_allowed c then
      let r := wt_quic_connection_initiate_key_update now c in
      if bool_decide (r.1 = WT_OK) then (None, r.2) else (Some r, c)
    else (Some (close_with WT_QUIC_AEAD_LIMIT_REACHED 0 now c), c)
  else (None, c).

Fixpoint send_packet (levels depth : nat) (space : wt_quic_space) (payload : list Z) (ack_eliciting : bool) (tag now : Z) (c : connection)
    : wt_status * connection :=
  if negb (ss_has_keys_out (space_of c space)) then (WT_ERR_STATE, c)
  else if bool_decide (cn_peer c = None) && bool_decide (cf_role (cn_config c) = WT_QUIC_ROLE_CLIENT) then (WT_ERR_STATE, c)
  else if WT_QUIC_CONNECTION_PAYLOAD_MAX - 128 <? zlen payload then (WT_ERR_LIMIT, c)
  else
    match limit_checked space now c with
    | (Some r, _) => r
    | (None, c) =>
        if Nat.leb WT_QUIC_SENT_PACKETS_MAX (length (ls_sent (cn_loss c))) then
          let c := c <| cn_depth ::= Nat.max depth |> in
          match levels with
          | O => (WT_ERR_LIMIT, c)
          | S levels =>
              let c := detect_lost (on_lost_with (send_encoded_with (send_packet levels (S depth)))) space now (largest_acked_of c space) c in
              if Nat.leb WT_QUIC_SENT_PACKETS_MAX (length (ls_sent (cn_loss c))) then (WT_ERR_LIMIT, c)
              else emit_packet space payload ack_eliciting tag now c
          end
        else emit_packet space payload ack_eliciting tag now c
    end.

(** How deep the calls are followed, from here on. *)
Context (levels : nat).

Definition send_encoded_frame : wt_quic_space -> list Z -> bool -> Z -> Z -> connection -> wt_status * connection :=
  send_encoded_with (send_packet levels 0).

(** Called from a walk of the caller's own. *)
Definition on_lost (packet : wt_quic_sent_packet) (c : connection) : connection :=
  on_lost_with (send_encoded_with (send_packet levels 1)) packet c.

(** ** One frame out *)

(** What the descriptor of a frame says, if it gets one. *)
Record descriptor := mk_descriptor { ds_is_crypto : bool; ds_stream_id : Z; ds_offset : Z; ds_length : Z }.

(** The encoded frame, with the PADDING that makes it long enough to sample. *)
Definition frame_payload (frame : wt_quic_frame) (minimum : Z) : outcome (list Z) :=
  match wt_quic_frame_encode frame (wt_writer_init (Some packet_buffer) (zlen packet_buffer)) with
  | (WT_OK, w) =>
      if negb (wt_writer_ok w) then Fail WT_ERR_LIMIT None
      else
        let w := foldl (fun w _ => wt_writer_u8 0 w) w (seq 0 (Z.to_nat (minimum - w_offset w))) in
        if negb (wt_writer_ok w) then Fail WT_ERR_LIMIT None else Ok (writer_bytes w)
  | (s, _) => Fail s None
  end.

Definition send_one_frame (space : wt_quic_space) (frame : wt_quic_frame) (ack_eliciting : bool) (descriptor : option descriptor)
    (now : Z) (c : connection) : wt_status * connection :=
  if negb (ss_has_keys_out (space_of c space)) then (WT_ERR_STATE, c)
  else
    let s := ss_space (space_of c space) in
    match frame_payload frame (sample_minimum (packet_number_length_for (sp_next_send s) s)) with
    | Fail e _ => (e, c)
    | Ok payload =>
        match descriptor with
        | None => send_encoded_frame space payload ack_eliciting NO_TAG now c
        | Some d =>
            match alloc_frame space (ds_is_crypto d) (ds_stream_id d) (ds_offset d) (ds_length d) c with
            | (None, c) => (WT_ERR_LIMIT, c)
            | (Some index, c) => send_encoded_frame space payload ack_eliciting (Z.of_nat index) now c
            end
        end
    end.

Definition control_frame_is_retained (frame : wt_quic_frame) : bool :=
  match frame with
  | FRAME_RESET_STREAM _ _ _ | FRAME_RESET_STREAM_AT _ _ _ _ | FRAME_STOP_SENDING _ _ | FRAME_NEW_TOKEN _ _ | FRAME_MAX_DATA _
  | FRAME_MAX_STREAM_DATA _ _ | FRAME_MAX_STREAMS _ _ | FRAME_DATA_BLOCKED _ | FRAME_STREAM_DATA_BLOCKED _ _ | FRAME_STREAMS_BLOCKED _ _
  | FRAME_NEW_CONNECTION_ID _ _ _ _ | FRAME_RETIRE_CONNECTION_ID _ | FRAME_HANDSHAKE_DONE => true
  | FRAME_PADDING | FRAME_PING | FRAME_ACK _ | FRAME_CRYPTO _ _ | FRAME_STREAM _ | FRAME_PATH_CHALLENGE _ | FRAME_PATH_RESPONSE _
  | FRAME_CONNECTION_CLOSE_TRANSPORT _ | FRAME_CONNECTION_CLOSE_APPLICATION _ | FRAME_DATAGRAM _ => false
  end.

(** The bytes a slot keeps, if the frame fits one. *)
Definition kept_wire (frame : wt_quic_frame) : option (list Z) :=
  match wt_quic_frame_encode frame (wt_writer_init (Some (replicate WT_QUIC_CONTROL_WIRE_MAX 0)) (Z.of_nat WT_QUIC_CONTROL_WIRE_MAX)) with
  | (WT_OK, w) => if wt_writer_ok w then Some (writer_bytes w) else None
  | _ => None
  end.

Definition send_control_frame (space : wt_quic_space) (frame : wt_quic_frame) (ack_eliciting : bool) (now : Z) (c : connection)
    : wt_status * connection :=
  if negb (control_frame_is_retained frame) then send_one_frame space frame ack_eliciting None now c
  else
    match first_index (fun k => negb (kf_in_use k)) (cn_control_frames c), kept_wire frame with
    | Some slot, Some wire =>
        let c := alter_control slot (fun _ => mk_control_frame true false space wire) c in
        let r := send_one_frame space frame ack_eliciting (Some (mk_descriptor false WT_QUIC_CONTROL_STREAM_ID (Z.of_nat slot) (zlen wire))) now c in
        if bool_decide (r.1 = WT_OK) then r else (r.1, alter_control slot (fun k => k <| kf_in_use := false |>) r.2)
    | _, _ =>
        send_one_frame space frame ack_eliciting None now (on_counters (fun k => k <| ct_control_frames_unretained ::= incr |>) c)
    end.

(** A send that answers WT_OK has set [out_sent], so the code's [sent ? WT_OK :
    WT_ERR_STATE] after it is WT_OK. *)
Definition wt_quic_connection_send_frame (space : wt_quic_space) (frame : wt_quic_frame) (ack_eliciting : bool) (now : Z) (c : connection)
    : wt_status * connection :=
  if wt_quic_connection_is_closed c then (WT_ERR_STATE, c) else send_control_frame space frame ack_eliciting now c.

Definition wt_quic_connection_send_crypto (space : wt_quic_space) (offset : Z) (data : list Z) (now : Z) (c : connection)
    : wt_status * connection :=
  if zlen data =? 0 then (WT_ERR_INVALID_ARGUMENT, c)
  else send_one_frame space (FRAME_CRYPTO offset data) true (Some (mk_descriptor true 0 offset (zlen data))) now c.

(** ** What a flush owes *)

Definition resume_control_frame (slot : nat) (now : Z) (c : connection) : connection :=
  match cn_control_frames c !! slot with
  | None => c   (* callers pass a slot of the table *)
  | Some kept =>
      let t := tag_for_control slot c in
      let deferred c := on_counters (fun k => k <| ct_control_frames_resend_deferred ::= incr |>) c in
      if NO_TAG <=? t.1 then deferred t.2
      else
        let r := send_encoded_frame (kf_space kept) (kf_wire kept) true t.1 now t.2 in
        if bool_decide (r.1 = WT_OK) then alter_control slot (fun k => k <| kf_resend_pending := false |>) r.2 else deferred r.2
  end.

Definition resume_pending_control_frames (now : Z) (c : connection) : connection :=
  foldl (fun c slot =>
    match cn_control_frames c !! slot with
    | Some kept => if kf_in_use kept && kf_resend_pending kept then resume_control_frame slot now c else c
    | None => c
    end) c (seq 0 WT_QUIC_CONTROL_FRAMES_MAX).

Definition on_ack_state (f : wt_quic_ack_state -> wt_quic_ack_state) (s : space_state) : space_state :=
  s <| ss_space ::= (fun p => p <| sp_received ::= f |>) |>.

Definition flush_space (space : wt_quic_space) (probe force : bool) (now : Z) (c : connection) : wt_status * connection :=
  let st := space_of c space in
  let received := sp_received (ss_space st) in
  if negb (ss_has_keys_out st) then (WT_OK, c)
  else if wt_quic_connection_is_closed c then (WT_OK, c)
  else if probe then send_control_frame space FRAME_PING true now c
  else if negb (as_ack_pending received) then (WT_OK, c)
  else if as_eliciting_since_ack received =? 0 then (WT_OK, c)
  else if negb force && negb (wt_quic_ack_should_send received) && (now <? u64 (ss_received_at st + ack_delay_for c space)) then (WT_OK, c)
  else
    let delay := if ss_received_at st <=? now then u64 (now - ss_received_at st) else 0 in
    match wt_quic_ack_build received delay (replicate WT_QUIC_CONNECTION_ACK_RANGES_MAX 0) with
    | Fail s _ => (s, c)
    | Ok frame =>
        c <-! send_control_frame space frame false now c;;
        let largest := match frame with FRAME_ACK a => ack_largest a | _ => 0 end in
        (WT_OK, on_space space (fun s => on_ack_state wt_quic_ack_sent s <| ss_acks_sent ::= incr |> <| ss_ack_largest := largest |>) c)
    end.

Definition flush_path_challenge (now : Z) (c : connection) : wt_status * connection :=
  if negb (pa_challenge_pending (cn_path c)) then (WT_OK, c)
  else if negb (ss_has_keys_out (space_of c WT_QUIC_SPACE_APPLICATION)) then (WT_OK, c)
  else
    c <-! send_control_frame WT_QUIC_SPACE_APPLICATION (FRAME_PATH_CHALLENGE (pa_challenge (cn_path c))) true now c;;
    (WT_OK, c <| cn_path ::= (fun p => p <| pa_challenge_pending := false |> <| pa_challenges_sent ::= incr |>) |>).

(** The close goes out in the highest space that has keys. *)
Definition flush_close (now : Z) (c : connection) : wt_status * connection :=
  match List.find (fun space => ss_has_keys_out (space_of c space)) (rev all_spaces) with
  | None => (WT_OK, c)
  | Some space =>
      match wt_quic_close_frame (cn_close c) with
      | Fail s _ => (s, c)
      | Ok frame =>
          c <-! send_control_frame space frame false now c;;
          (WT_OK, c <| cn_close_sent := true |> <| cn_close_frame_sent := true |>)
      end
  end.

Definition wt_quic_connection_flush (now : Z) (c : connection) : wt_status * connection :=
  if wt_quic_connection_is_closed c && negb (cn_close_sent c) && negb (pc_closed (cn_peer_close c)) then flush_close now c
  else if wt_quic_connection_is_closed c then (WT_OK, c)
  else
    c <-! flush_space WT_QUIC_SPACE_INITIAL false false now c;;
    c <-! flush_space WT_QUIC_SPACE_HANDSHAKE false false now c;;
    c <-! flush_space WT_QUIC_SPACE_APPLICATION false false now c;;
    flush_path_challenge now (resume_pending_control_frames now c).
End Send.
