(* ===== verification/ConnectionLoss.v ===== *)
(** Loss recovery on a connection: [src/quic/connection_loss.c], with [probe_time]
    of [connection_send.c] and the path-validation timer of [connection_receive.c]:
    what an ACK does, when the next timer is due and what happens when it fires. *)

From S2P Require Import Prelude Core Crypto Protection PacketIo AckProcessing Connection ConnectionKeys ConnectionSend.

Section Recovery.
Context {X : Type} {C : Crypto}.
Notation connection := (wt_quic_connection X).
Context (udp_send : list sent_datagram -> option wt_udp_address -> list Z -> wt_status).
Context (lost_handler : option (wt_quic_tx_frame -> connection -> connection)).
(** [wt_random_bytes], the [n]-th time it is called. *)
Context (random_bytes : Z -> Z -> outcome (list Z)).
Context (levels : nat).

Notation on_lost := (on_lost udp_send lost_handler levels).

(** ** Acknowledgements *)

(** The largest packet an ACK newly acknowledges, with its send time. *)
Definition newer (largest : option (Z * Z)) (p : wt_quic_sent_packet) : option (Z * Z) :=
  match largest with
  | Some (n, _) => if n <? pk_number p then Some (pk_number p, pk_time_sent p) else largest
  | None => Some (pk_number p, pk_time_sent p)
  end.

(** The descriptor of an acknowledged packet goes back, and with it the slot of a
    control frame. *)
Definition acknowledged_frame (tag : Z) (c : connection) : connection :=
  if tag <? NO_TAG then
    let c :=
      match cn_frames c !! Z.to_nat tag with
      | Some d =>
          if (tf_stream_id d =? WT_QUIC_CONTROL_STREAM_ID) && (tf_offset d <? Z.of_nat WT_QUIC_CONTROL_FRAMES_MAX)
          then alter_control (Z.to_nat (tf_offset d)) (fun k => k <| kf_in_use := false |> <| kf_resend_pending := false |>) c
          else c
      | None => c
      end in
    free_frame tag c
  else c.

Fixpoint ack_walk (a : wt_quic_ack_fields) (space : wt_quic_space) (snapshot : list wt_quic_sent_packet) (largest : option (Z * Z))
    (c : connection) : wt_status * option (Z * Z) * connection :=
  match snapshot with
  | [] => (WT_OK, largest, c)
  | p :: snapshot =>
      if negb (ack_covers a (pk_number p)) then ack_walk a space snapshot largest c
      else
        match wt_quic_loss_on_ack (cn_loss c) (space_index space) (pk_number p) with
        | (WT_OK, newly_acked, l) =>
            let c := c <| cn_loss := l |> in
            if negb newly_acked then ack_walk a space snapshot largest c
            else
              let g := if pk_in_flight p then wt_quic_congestion_on_ack (cn_congestion c) (pk_size p) (pk_time_sent p)
                       else (WT_OK, cn_congestion c) in
              let c := c <| cn_congestion := g.2 |> in
              if bool_decide (g.1 = WT_OK) then
                ack_walk a space snapshot (newer largest p)
                  (acknowledged_frame (pk_tag p) (on_space space (fun s => s <| ss_packets_acked ::= incr |>) c))
              else (g.1, largest, c)
        | (s, _, l) => (s, largest, c <| cn_loss := l |>)
        end
  end.

(** What the largest newly acknowledged packet says: the round trip, and in the
    Application space whether the current keys are confirmed. *)
Definition largest_acknowledged (a : wt_quic_ack_fields) (space : wt_quic_space) (largest sent_at now : Z) (c : connection)
    : wt_status * connection :=
  let r := wt_quic_rtt_update (space_rtt c space) (u64 (now - sent_at)) (ack_delay a) (max_ack_delay_for c space) (cn_handshake_confirmed c) in
  let c := on_space space (fun s => s <| ss_space ::= (fun p => p <| sp_rtt := r.2 |>) |>) c in
  if negb (bool_decide (r.1 = WT_OK)) then (r.1, c)
  else
    let p := wt_quic_pn_space_on_ack (ss_space (space_of c space)) largest in
    let c := on_space space (fun s => s <| ss_space := p.2 |>) c in
    if negb (bool_decide (p.1 = WT_OK)) then (p.1, c)
    else if bool_decide (space = WT_QUIC_SPACE_APPLICATION) && ku_first_pn_set (cn_key_update c) && (ku_first_pn (cn_key_update c) <=? largest)
    then (WT_OK, on_key_update (fun k => k <| ku_awaiting_confirmation := false |> <| ku_previous_keys_in_ready := false |>) c)
    else (WT_OK, c).

Definition handle_ack (space : wt_quic_space) (a : wt_quic_ack_fields) (now : Z) (c : connection) : wt_status * connection :=
  let s := ss_space (space_of c space) in
  if negb (bool_decide (validate_ack a = WT_OK)) then close_with WT_QUIC_FRAME_ENCODING_ERROR WT_QUIC_FRAME_ACK now c
  else if negb (sp_has_sent s) || (sp_next_send s <=? ack_largest a) then close_with WT_QUIC_PROTOCOL_VIOLATION WT_QUIC_FRAME_ACK now c
  else
    match ack_walk a space (ls_sent (cn_loss c)) None c with
    | (WT_OK, largest, c) =>
        c <-! match largest with
              | None => (WT_OK, c)
              | Some (n, sent_at) => largest_acknowledged a space n sent_at now c
              end;;
        (WT_OK, detect_lost on_lost space now (ack_largest a) c)
    | (s, _, c) => (s, c)
    end.

(** ** Timers *)

(** The earliest send time of an ack-eliciting packet. *)
Definition earliest_eliciting (l : list wt_quic_sent_packet) : option Z :=
  foldl (fun earliest p =>
    if negb (pk_ack_eliciting p) then earliest
    else match earliest with
         | Some t => if pk_time_sent p <? t then Some (pk_time_sent p) else earliest
         | None => Some (pk_time_sent p)
         end) None l.

(** [None] where the code answers 0. *)
Definition probe_time (c : connection) (space : wt_quic_space) : option Z :=
  match wt_quic_loss_pto (cn_loss c) (space_index space) (space_rtt c space) (max_ack_delay_for c space) with
  | Ok t => Some t
  | Fail _ _ =>
      if wt_quic_loss_ack_eliciting_in_flight (cn_loss c) =? 0 then None
      else
        match earliest_eliciting (ls_sent (cn_loss c)) with
        | None => None
        | Some earliest =>
            let count := ls_pto_count (cn_loss c) in
            Some (u64 (earliest + u64 (WT_QUIC_CONNECTION_INITIAL_PTO * Z.shiftl 1 (if 8 <? count then 8 else count))))
        end
  end.

(** The deadline so far, with one more. *)
Definition sooner (armed : option Z) (delay : Z) : option Z :=
  match armed with Some earliest => if delay <? earliest then Some delay else armed | None => Some delay end.

(** An acknowledgement is owed in [space]. *)
Definition ack_owed (c : connection) (space : wt_quic_space) : bool :=
  let r := sp_received (ss_space (space_of c space)) in as_ack_pending r && negb (as_eliciting_since_ack r =? 0).

Definition ack_deadline (c : connection) (space : wt_quic_space) : Z := u64 (ss_received_at (space_of c space) + ack_delay_for c space).

Definition space_loss_time (c : connection) (space : wt_quic_space) : Z :=
  wt_quic_loss_time (cn_loss c) (space_index space) (Some (space_rtt c space)) (largest_acked_of c space).

(** One space's turn of the loop of [next_timeout]; [None] is "due now". *)
Definition space_timer (c : connection) (now : Z) (space : wt_quic_space) (armed : option Z) : option (option Z) :=
  let acked := if ack_owed c space then
                 if ack_deadline c space <=? now then None else Some (sooner armed (ack_deadline c space - now))
               else Some armed in
  match acked with
  | None => None
  | Some armed =>
      let loss_time := space_loss_time c space in
      let lost := if negb (loss_time =? 0) then if now <? loss_time then Some (sooner armed (loss_time - now)) else None else Some armed in
      match lost with
      | None => None
      | Some armed =>
          Some (match probe_time c space with
                | Some pto => if now <? pto then sooner armed (pto - now) else armed
                | None => armed
                end)
      end
  end.

Fixpoint space_timers (c : connection) (now : Z) (l : list wt_quic_space) (armed : option Z) : option (option Z) :=
  match l with
  | [] => Some armed
  | space :: l => match space_timer c now space armed with None => None | Some armed => space_timers c now l armed end
  end.

(** How long the caller may wait; [WT_ERR_STATE] when no timer is armed. *)
Definition wt_quic_connection_next_timeout (now : Z) (c : connection) : outcome Z :=
  if wt_quic_close_is_closed (cn_close c) then
    Ok (if wt_quic_close_draining_expired (cn_close c) now then 0 else u64 (cl_draining_until (cn_close c) - now))
  else
    let idle := idle_timeout_of c in
    let deadline := u64 (cn_last_activity c + idle) in
    if negb (idle =? 0) && (deadline <=? now) then Ok 0
    else
      match space_timers c now all_spaces (if idle =? 0 then None else Some (deadline - now)) with
      | None => Ok 0
      | Some None => Fail WT_ERR_STATE None
      | Some (Some earliest) => Ok earliest
      end.

(** ** Path validation *)

Definition arm_path_challenge (c : connection) : wt_status * connection :=
  let drawn := random_bytes (cn_draws c) WT_QUIC_PATH_CHALLENGE_LENGTH in
  let c := c <| cn_draws ::= incr |> in
  match drawn with
  | Fail s _ => (s, c)
  | Ok challenge => (WT_OK, c <| cn_path ::= (fun p => p <| pa_challenge := challenge |> <| pa_challenge_pending := true |>) |>)
  end.

Definition path_validation_on_timeout (now : Z) (c : connection) : wt_status * connection :=
  let p := cn_path c in
  if negb (pa_validating p) then (WT_OK, c)
  else if now <? pa_deadline p then (WT_OK, c)
  else if WT_QUIC_PATH_VALIDATION_ATTEMPTS <=? pa_attempts p
  then (WT_OK, c <| cn_path ::= (fun p => p <| pa_validating := false |> <| pa_challenge_pending := false |> <| pa_failures ::= incr |>) |>)
  else
    let pto := pto_of c in
    c <-! arm_path_challenge (c <| cn_path ::= (fun p => p <| pa_attempts ::= (fun a => u32 (a + 1)) |> <| pa_deadline := u64 (now + pto) |>) |>);;
    flush_path_challenge udp_send lost_handler levels now c.

Definition wt_quic_connection_validate_path (now : Z) (c : connection) : wt_status * connection :=
  if wt_quic_connection_is_closed c then (WT_ERR_STATE, c)
  else if pa_validating (cn_path c) then (WT_OK, c)
  else
    c <-! arm_path_challenge c;;
    let pto := pto_of c in
    flush_path_challenge udp_send lost_handler levels now
      (c <| cn_path ::= (fun p => p <| pa_validating := true |> <| pa_attempts := 1 |> <| pa_deadline := u64 (now + pto) |>) |>).

(** ** A timer fires *)

Definition loss_timers (now : Z) (c : connection) : connection :=
  foldl (fun c space =>
    let loss_time := space_loss_time c space in
    if negb (loss_time =? 0) && (loss_time <=? now) then detect_lost on_lost space now (largest_acked_of c space) c else c)
    c all_spaces.

Fixpoint ack_timers (now : Z) (l : list wt_quic_space) (c : connection) : wt_status * connection :=
  match l with
  | [] => (WT_OK, c)
  | space :: l =>
      if ack_owed c space && (ack_deadline c space <=? now)
      then c <-! flush_space udp_send lost_handler levels space false true now c;; ack_timers now l c
      else ack_timers now l c
  end.

(** The space whose probe is due first. *)
Definition probe_space (now : Z) (c : connection) : option wt_quic_space :=
  snd <$> foldl (fun (best : option (Z * wt_quic_space)) space =>
    if negb (ss_has_keys_out (space_of c space)) then best
    else match probe_time c space with
         | None => best
         | Some pto =>
             if (pto <=? now) && match best with None => true | Some (earliest, _) => pto <? earliest end then Some (pto, space) else best
         end) None all_spaces.

(** The oldest ack-eliciting packet of the space whose descriptor is in use. *)
Definition oldest_described (c : connection) (space : wt_quic_space) : option wt_quic_sent_packet :=
  foldl (fun oldest p =>
    if (pk_space p =? space_index space) && pk_ack_eliciting p && (pk_tag p <? NO_TAG) &&
       match cn_frames c !! Z.to_nat (pk_tag p) with Some d => tf_in_use d | None => false end &&
       match oldest with None => true | Some o => pk_time_sent p <? pk_time_sent o end
    then Some p else oldest) None (ls_sent (cn_loss c)).

Definition send_probe (space : wt_quic_space) (now : Z) (c : connection) : wt_status * connection :=
  let oldest := oldest_described c space in
  let c := on_space space (fun s => s <| ss_probes_sent ::= incr |>) c in
  let c :=
    match oldest with
    | None => c
    | Some p =>
        let c := on_counters (fun k => k <| ct_probes_with_data ::= incr |>) c in
        match lost_handler, cn_frames c !! Z.to_nat (pk_tag p) with Some h, Some d => h d c | _, _ => c end
    end in
  flush_space udp_send lost_handler levels space true false now (c <| cn_loss ::= wt_quic_loss_on_pto |>).

Definition wt_quic_connection_on_timeout (now : Z) (c : connection) : wt_status * connection :=
  if wt_quic_close_is_closed (cn_close c) then (WT_OK, c)
  else if negb (idle_timeout_of c =? 0) && (u64 (cn_last_activity c + idle_timeout_of c) <=? now)
  then (WT_OK, c <| cn_close := (wt_quic_close_transport (cn_close c) WT_QUIC_NO_ERROR 0 [] now (pto_of c)).2 |> <| cn_close_sent := true |>)
  else
    c <-! ack_timers now all_spaces (loss_timers now c);;
    c <-! path_validation_on_timeout now c;;
    match probe_space now c with
    | None => (WT_OK, c)
    | Some space => send_probe space now c
    end.
End Recovery.
