(* ===== verification/ConnectionStream.v ===== *)
(** Streams, limits and datagrams of a connection: [src/quic/connection_stream.c].
    A stream is reached by its ID: where the code writes through the pointer
    [wt_quic_stream_table_find] gave it, the slot that holds the ID is updated. *)

From S2P Require Import Prelude Core Crypto Protection PacketIo Connection ConnectionKeys ConnectionSend.

#[export] Instance eta_stream : Eta wt_quic_stream := fun r => mk_stream (st_id r) (initiated_by_us r) (bidirectional r) (tx r) (rx r).
#[export] Instance eta_sending : Eta wt_quic_sending := fun r => mk_sending (send_state r) (send_offset r) (send_acked r) (final_size r)
  (has_final_size r) (fin_sent r) (peer_max_stream_data r).
#[export] Instance eta_receiving : Eta wt_quic_receiving := fun r => mk_receiving (recv_state r) (recv_offset r) (recv_highest r)
  (recv_final_size r) (has_recv_final_size r) (max_stream_data r) (window r) (sent_stop_sending r) (peer_reset r) (peer_error_code r)
  (peer_reliable_size r) (peer_reset_at r).
#[export] Instance eta_entry : Eta table_entry := fun r => mk_entry (e_used r) (e_stream r).
#[export] Instance eta_table : Eta wt_quic_stream_table := fun r => mk_table (tb_slots r) (tb_count r) (opened_by_us_bidi r) (opened_by_us_uni r)
  (opened_by_peer_bidi r) (opened_by_peer_uni r).

(** Writing through a stream's pointer. *)
Definition alter_stream (id : Z) (f : wt_quic_stream -> wt_quic_stream) (t : wt_quic_stream_table) : wt_quic_stream_table :=
  match table_slot t id with
  | None => t
  | Some i => t <| tb_slots ::= alter (fun e => e <| e_stream ::= f |>) i |>
  end.

Section Streams.
Context {X : Type} {C : Crypto}.
Notation connection := (wt_quic_connection X).
Notation APP := WT_QUIC_SPACE_APPLICATION.
Context (udp_send : list sent_datagram -> option wt_udp_address -> list Z -> wt_status).
Context (lost_handler : option (wt_quic_tx_frame -> connection -> connection)).
Context (levels : nat).

Notation send_control := (send_control_frame udp_send lost_handler levels).

Definition wt_quic_connection_stream (c : connection) (id : Z) : option wt_quic_stream := wt_quic_stream_table_find (cn_streams c) id.
Definition on_stream (id : Z) (f : wt_quic_stream -> wt_quic_stream) (c : connection) : connection := c <| cn_streams ::= alter_stream id f |>.

(** The receive window the configuration grants a new stream. *)
Definition grant_window (c : connection) (s : wt_quic_stream) : wt_quic_stream :=
  s <| rx ::= (fun r => r <| max_stream_data := cf_local_max_stream_data (cn_config c) |> <| window := cf_local_max_stream_data (cn_config c) |>) |>.

Definition from_us (c : connection) (id : Z) : bool :=
  eqb (wt_quic_stream_id_from_client id) (bool_decide (cf_role (cn_config c) = WT_QUIC_ROLE_CLIENT)).

(** A frame that names a stream makes it exist; [close_with]'s status is the
    answer when it may not. *)
Definition ensure_peer_stream (id frame_type now : Z) (c : connection) : wt_status * connection :=
  match wt_quic_connection_stream c id with
  | Some _ => (WT_OK, c)
  | None =>
      if from_us c id then close_with WT_QUIC_STREAM_STATE_ERROR frame_type now c
      else
        let granted := if wt_quic_stream_id_is_bidirectional id then cn_local_max_streams_bidi c else cn_local_max_streams_uni c in
        if granted <=? wt_quic_stream_id_index id then close_with WT_QUIC_STREAM_LIMIT_ERROR frame_type now c
        else
          let r := wt_quic_stream_table_open (cn_streams c) id false granted in
          let c := c <| cn_streams := r.2 |> in
          if bool_decide (r.1 = WT_OK) then (WT_OK, on_stream id (grant_window c) c) else (r.1, c)
  end.

(** ** Limits *)

Definition wt_quic_connection_set_max_data (maximum : Z) (c : connection) : wt_status * connection :=
  if cn_local_max_data_set c && (maximum <? cn_local_max_data c) then (WT_ERR_LIMIT, c)
  else (WT_OK, c <| cn_local_max_data := maximum |> <| cn_local_max_data_set := true |>
                 <| cn_flow ::= (fun f => f <| fl_max_data := maximum |> <| fl_window := maximum |>) |>).

Definition wt_quic_connection_send_max_data (maximum now : Z) (c : connection) : wt_status * connection :=
  if negb (cn_local_max_data_set c) then (WT_ERR_STATE, c)
  else if maximum <? cn_local_max_data c then (WT_ERR_LIMIT, c)
  else c <-! send_control APP (FRAME_MAX_DATA maximum) true now c;; (WT_OK, c <| cn_local_max_data := maximum |>).

Definition local_max_streams (d : wt_quic_stream_direction) (c : connection) : Z :=
  match d with WT_QUIC_STREAM_BIDIRECTIONAL => cn_local_max_streams_bidi c | WT_QUIC_STREAM_UNIDIRECTIONAL => cn_local_max_streams_uni c end.
Definition local_max_streams_set (d : wt_quic_stream_direction) (c : connection) : bool :=
  match d with WT_QUIC_STREAM_BIDIRECTIONAL => cn_local_max_streams_bidi_set c | WT_QUIC_STREAM_UNIDIRECTIONAL => cn_local_max_streams_uni_set c end.
Definition put_max_streams (d : wt_quic_stream_direction) (maximum : Z) (c : connection) : connection :=
  match d with
  | WT_QUIC_STREAM_BIDIRECTIONAL => c <| cn_local_max_streams_bidi := maximum |>
  | WT_QUIC_STREAM_UNIDIRECTIONAL => c <| cn_local_max_streams_uni := maximum |>
  end.
Definition mark_max_streams (d : wt_quic_stream_direction) (c : connection) : connection :=
  match d with
  | WT_QUIC_STREAM_BIDIRECTIONAL => c <| cn_local_max_streams_bidi_set := true |>
  | WT_QUIC_STREAM_UNIDIRECTIONAL => c <| cn_local_max_streams_uni_set := true |>
  end.

Definition wt_quic_connection_set_max_streams (d : wt_quic_stream_direction) (maximum : Z) (c : connection) : wt_status * connection :=
  if local_max_streams_set d c && (maximum <? local_max_streams d c) then (WT_ERR_LIMIT, c)
  else (WT_OK, mark_max_streams d (put_max_streams d maximum c)).

Definition wt_quic_connection_send_max_streams (d : wt_quic_stream_direction) (maximum now : Z) (c : connection) : wt_status * connection :=
  if negb (local_max_streams_set d c) then (WT_ERR_STATE, c)
  else if maximum <? local_max_streams d c then (WT_ERR_LIMIT, c)
  else c <-! send_control APP (FRAME_MAX_STREAMS d maximum) true now c;; (WT_OK, put_max_streams d maximum c).

(** ** Sending on streams *)

Definition stream_id_allowed (c : connection) (id : Z) : bool :=
  let bidi := Z.land id 0x02 =? 0 in
  let ours := Z.land id 0x01 =? (if bool_decide (cf_role (cn_config c) = WT_QUIC_ROLE_CLIENT) then 0 else 1) in
  if negb ours then bidi
  else Z.shiftr id 2 <? (if bidi then pl_initial_max_streams_bidi (cn_peer_limits c) else pl_initial_max_streams_uni (cn_peer_limits c)).

Definition wt_quic_connection_send_stream (id offset : Z) (data : list Z) (fin : bool) (now : Z) (c : connection) : wt_status * connection :=
  if negb (pl_set (cn_peer_limits c)) then (WT_ERR_STATE, c)
  else if negb (stream_id_allowed c id) then (WT_ERR_LIMIT, c)
  else send_one_frame udp_send lost_handler levels APP (FRAME_STREAM (mk_stream_frame id offset (negb (offset =? 0)) fin true data)) true
         (Some (mk_descriptor false id offset (zlen data))) now c.

(** The number comes from the count of what this endpoint has opened in the class. *)
Definition wt_quic_connection_open_stream (bidi : bool) (c : connection) : outcome Z * connection :=
  if negb (pl_set (cn_peer_limits c)) then (Fail WT_ERR_STATE None, c)
  else
    let index := wt_quic_stream_table_opened_by_us (cn_streams c) bidi in
    let id := wt_quic_stream_id_make (bool_decide (cf_role (cn_config c) = WT_QUIC_ROLE_CLIENT)) bidi index in
    let limits := cn_peer_limits c in
    let r := wt_quic_stream_table_open (cn_streams c) id true (if bidi then pl_initial_max_streams_bidi limits else pl_initial_max_streams_uni limits) in
    let c := c <| cn_streams := r.2 |> in
    if bool_decide (r.1 = WT_OK) then
      (Ok id, on_stream id (fun s => grant_window c s <| tx ::= (fun t => t <| peer_max_stream_data :=
                 (if bidi then pl_initial_max_stream_data_bidi_remote limits else pl_initial_max_stream_data_uni limits) |>) |>) c)
    else (Fail r.1 None, c).

(** This endpoint cannot send on the peer's unidirectional streams, nor receive on its own. *)
Definition sends_on (c : connection) (id : Z) : bool := from_us c id || wt_quic_stream_id_is_bidirectional id.
Definition receives_on (c : connection) (id : Z) : bool := negb (from_us c id) || wt_quic_stream_id_is_bidirectional id.

Definition wt_quic_connection_stop_sending (id error_code now : Z) (c : connection) : wt_status * connection :=
  if negb (pl_set (cn_peer_limits c)) then (WT_ERR_STATE, c)
  else
    match wt_quic_connection_stream c id with
    | None => (WT_ERR_STATE, c)
    | Some s =>
        if negb (receives_on c id) then (WT_ERR_STATE, c)
        else if sent_stop_sending (rx s) then (WT_ERR_STATE, c)
        else if wt_quic_stream_recv_finished s then (WT_ERR_STATE, c)
        else
          let mark b := on_stream id (fun s => s <| rx ::= (fun r => r <| sent_stop_sending := b |>) |>) in
          let r := send_control APP (FRAME_STOP_SENDING id error_code) true now (mark true c) in
          if bool_decide (r.1 = WT_OK) then r else (r.1, mark false r.2)
    end.

Definition wt_quic_connection_stream_send_offset (c : connection) (id : Z) : outcome Z :=
  match wt_quic_connection_stream c id with None => Fail WT_ERR_STATE None | Some s => Ok (send_offset (tx s)) end.

(** The send half ends, then the frame that says so goes out with the final size. *)
Definition reset_with (id error_code : Z) (frame : Z -> wt_quic_frame) (now : Z) (s : wt_quic_stream) (c : connection) : wt_status * connection :=
  let r := wt_quic_stream_on_reset_sent s error_code in
  if bool_decide (r.1 = WT_OK)
  then send_control APP (frame (final_size (tx r.2))) true now (on_stream id (fun _ => r.2) c)
  else (r.1, on_stream id (fun _ => r.2) c).

Definition wt_quic_connection_reset_stream (id error_code now : Z) (c : connection) : wt_status * connection :=
  if negb (pl_set (cn_peer_limits c)) then (WT_ERR_STATE, c)
  else
    match wt_quic_connection_stream c id with
    | None => (WT_ERR_STATE, c)
    | Some s =>
        if negb (sends_on c id) then (WT_ERR_STATE, c)
        else reset_with id error_code (FRAME_RESET_STREAM id error_code) now s c
    end.

Definition wt_quic_connection_reset_stream_at (id error_code reliable_size now : Z) (c : connection) : wt_status * connection :=
  if negb (pl_set (cn_peer_limits c)) then (WT_ERR_STATE, c)
  else if negb (pl_reset_stream_at (cn_peer_limits c)) then (WT_ERR_STATE, c)
  else
    match wt_quic_connection_stream c id with
    | None => (WT_ERR_STATE, c)
    | Some s =>
        if negb (sends_on c id) then (WT_ERR_STATE, c)
        else if send_offset (tx s) <? reliable_size then (WT_ERR_INVALID_ARGUMENT, c)
        else reset_with id error_code (fun size => FRAME_RESET_STREAM_AT id error_code size reliable_size) now s c
    end.

(** ** Datagrams *)

(** The four attempts of the payload bound are enough, so the default is not reached. *)
Definition wt_quic_connection_max_datagram_payload (c : connection) : Z :=
  let limits := cn_peer_limits c in
  if negb (pl_set limits) then 0
  else if pl_max_datagram_frame_size limits =? 0 then 0
  else default 0 (wt_quic_datagram_max_payload (pl_max_datagram_frame_size limits) (cf_max_datagram_size (cn_config c)) WT_QUIC_DATAGRAM_PACKET_OVERHEAD).

Definition wt_quic_connection_send_datagram (data : list Z) (now : Z) (c : connection) : wt_status * connection :=
  if negb (pl_set (cn_peer_limits c)) then (WT_ERR_STATE, c)
  else if pl_max_datagram_frame_size (cn_peer_limits c) =? 0 then (WT_ERR_UNSUPPORTED, c)
  else if wt_quic_connection_max_datagram_payload c <? zlen data then (WT_ERR_LIMIT, c)
  else send_control APP (FRAME_DATAGRAM data) true now c.

Definition wt_quic_connection_on_datagram (data : list Z) (now : Z) (c : connection) : wt_status * connection :=
  let r := wt_quic_datagram_queue_push (cn_datagrams c) data now in
  (r.1.1, c <| cn_datagrams := r.2 |>).

Definition wt_quic_connection_receive_datagram (capacity : Z) (c : connection) : outcome (list Z * Z) * connection :=
  let r := wt_quic_datagram_queue_pop (cn_datagrams c) capacity in
  (r.1, c <| cn_datagrams := r.2 |>).
End Streams.
