(* ===== verification/ConnectionRetry.v ===== *)
(** Connection IDs and the client's half of a Retry: [src/quic/connection_retry.c]. *)

From S2P Require Import Prelude Core Crypto Packet Protection PacketIo Connection ConnectionKeys ConnectionSend.

Section Ids.
Context {X : Type} {C : Crypto}.
Notation connection := (wt_quic_connection X).
Notation APP := WT_QUIC_SPACE_APPLICATION.
Context (udp_send : list sent_datagram -> option wt_udp_address -> list Z -> wt_status).
Context (lost_handler : option (wt_quic_tx_frame -> connection -> connection)).
Context (levels : nat).

Notation send_control := (send_control_frame udp_send lost_handler levels).

(** ** The peer's IDs *)

Definition send_retire_connection_id (sequence now : Z) (c : connection) : wt_status * connection :=
  wt_quic_connection_send_frame udp_send lost_handler levels APP (FRAME_RETIRE_CONNECTION_ID sequence) true now c.

Definition has_sequence (sequence : Z) (e : option wt_quic_issued_connection_id) : bool :=
  match e with Some i => ii_sequence i =? sequence | None => false end.

Definition is_current (c : connection) (sequence : Z) : bool :=
  match cn_current_peer_sequence c with Some s => s =? sequence | None => false end.

(** The status, [*out_forgotten] and the state. *)
Definition forget_peer_connection_id (sequence now : Z) (c : connection) : wt_status * bool * connection :=
  match first_index (has_sequence sequence) (cn_peer_ids c) with
  | None => (WT_OK, false, c)
  | Some i =>
      let r := send_retire_connection_id sequence now c in
      if bool_decide (r.1 = WT_OK) then
        let c := r.2 <| cn_peer_ids ::= <[i := None]> |> <| cn_peer_id_count ::= (fun n => u64 (n - 1)) |> <| cn_peer_ids_retired ::= incr |> in
        (WT_OK, true, if is_current c sequence then c <| cn_current_peer_sequence := None |> else c)
      else (r.1, false, r.2)
  end.

Definition adopt_stored_peer_id (slot : nat) (c : connection) : connection :=
  match cn_peer_ids c !! slot with
  | Some (Some e) => adopt_peer_connection_id (ii_id e) c <| cn_current_peer_sequence := Some (ii_sequence e) |>
  | _ => c   (* callers pass a slot in use *)
  end.

Definition first_other_peer_id (c : connection) : option nat :=
  first_index (fun e => match e with Some i => negb (is_current c (ii_sequence i)) | None => false end) (cn_peer_ids c).

(** The replacement is adopted first: the frame that retires an ID may not be addressed by it. *)
Definition wt_quic_connection_use_new_connection_id (now : Z) (c : connection) : wt_status * connection :=
  match first_other_peer_id c with
  | None => (WT_ERR_STATE, c)
  | Some slot =>
      let abandoned := cn_current_peer_sequence c in
      let c := adopt_stored_peer_id slot c in
      match abandoned with
      | None => (WT_OK, c)
      | Some sequence => let r := forget_peer_connection_id sequence now c in (r.1.1, r.2)
      end
  end.

Definition wt_quic_connection_retire_peer_connection_id (sequence now : Z) (c : connection) : wt_status * connection :=
  if wt_quic_connection_is_closed c then (WT_ERR_STATE, c)
  else if is_current c sequence then (WT_ERR_STATE, c)
  else
    let r := forget_peer_connection_id sequence now c in
    (if bool_decide (r.1.1 = WT_OK) then if r.1.2 then WT_OK else WT_ERR_STATE else r.1.1, r.2).

Definition below (bound : Z) (e : option wt_quic_issued_connection_id) : bool :=
  match e with Some i => ii_sequence i <? bound | None => false end.

(** The retires of a NEW_CONNECTION_ID: from the first slot again after each, as
    long as one is below the bound; a round frees a slot, so as many rounds as
    there are slots are enough. *)
Fixpoint retire_below (rounds : nat) (bound now : Z) (c : connection) : wt_status * connection :=
  match rounds with
  | O => (WT_OK, c)
  | S rounds =>
      match first_index (below bound) (cn_peer_ids c) with
      | None => (WT_OK, c)
      | Some i =>
          let sequence := match cn_peer_ids c !! i with Some (Some e) => ii_sequence e | _ => 0 end in
          let r := forget_peer_connection_id sequence now c in
          c <-! (r.1.1, r.2);; retire_below rounds bound now c
      end
  end.

Definition handle_new_connection_id (sequence retire_prior_to : Z) (id token : list Z) (now : Z) (c : connection) : wt_status * connection :=
  if (zlen id =? 0) || (WT_QUIC_MAX_CID_LEN <? zlen id) then close_with WT_QUIC_FRAME_ENCODING_ERROR WT_QUIC_FRAME_NEW_CONNECTION_ID now c
  else if sequence <? retire_prior_to then close_with WT_QUIC_FRAME_ENCODING_ERROR WT_QUIC_FRAME_NEW_CONNECTION_ID now c
  else
    match first_index (has_sequence sequence) (cn_peer_ids c) with
    | Some i =>
        if match cn_peer_ids c !! i with Some (Some known) => bool_decide (ii_id known = id) && bool_decide (ii_reset_token known = token) | _ => false end
        then (WT_OK, c)
        else close_with WT_QUIC_PROTOCOL_VIOLATION WT_QUIC_FRAME_NEW_CONNECTION_ID now c
    | None =>
        let dropped_current := existsb (fun e => below retire_prior_to e && match e with Some i => is_current c (ii_sequence i) | None => false end) (cn_peer_ids c) in
        let c := c <| cn_retire_current_after_store := dropped_current |> in
        match first_index (fun e => bool_decide (e = None)) (cn_peer_ids c) with
        | None => close_with WT_QUIC_CONNECTION_ID_LIMIT_ERROR WT_QUIC_FRAME_NEW_CONNECTION_ID now c
        | Some slot =>
            let limit := cf_local_active_connection_id_limit (cn_config c) in
            let allowed := u64 ((if limit =? 0 then 2 else limit) - 1) in
            if allowed <=? cn_peer_id_count c then close_with WT_QUIC_CONNECTION_ID_LIMIT_ERROR WT_QUIC_FRAME_NEW_CONNECTION_ID now c
            else
              let c := c <| cn_peer_ids ::= <[slot := Some (mk_issued_id sequence id token)]> |> <| cn_peer_id_count ::= incr |> in
              let c := if cn_retire_current_after_store c
                       then adopt_stored_peer_id slot (c <| cn_retire_current_after_store := false |>) else c in
              retire_below WT_QUIC_PEER_CONNECTION_IDS_MAX retire_prior_to now c
        end
    end.

(** ** This endpoint's IDs *)

(** The sequence of the ID a packet was addressed to, if it is this endpoint's. *)
Definition local_connection_id_sequence (c : connection) (id : list Z) : option Z :=
  if bool_decide (id = cn_local_connection_id c) then Some 0
  else if negb (cn_handshake_confirmed c) && negb (zlen (cn_original_destination_id c) =? 0) && bool_decide (id = cn_original_destination_id c)
  then Some 0
  else
    match first_index (fun e => match e with Some i => bool_decide (ii_id i = id) | None => false end) (cn_issued_ids c) with
    | None => None
    | Some i => match cn_issued_ids c !! i with Some (Some e) => Some (ii_sequence e) | _ => None end
    end.

Definition wt_quic_connection_issue_connection_id (id reset_token : list Z) (now : Z) (c : connection) : wt_status * connection :=
  if (zlen id =? 0) || (WT_QUIC_MAX_CID_LEN <? zlen id) then (WT_ERR_INVALID_ARGUMENT, c)
  else if negb (zlen id =? zlen (cn_local_connection_id c)) then (WT_ERR_INVALID_ARGUMENT, c)
  else if negb (pl_set (cn_peer_limits c)) then (WT_ERR_STATE, c)
  else if existsb (fun e => match e with Some i => bool_decide (ii_id i = id) | None => false end) (cn_issued_ids c) then (WT_ERR_STATE, c)
  else
    match first_index (fun e => bool_decide (e = None)) (cn_issued_ids c) with
    | None => (WT_ERR_LIMIT, c)
    | Some slot =>
        let limit := pl_active_connection_id_limit (cn_peer_limits c) in
        let allowed := if 0 <? limit then limit - 1 else limit in
        if allowed <=? cn_issued_count c then (WT_ERR_LIMIT, c)
        else
          let sequence := cn_next_issued_sequence c in
          c <-! send_control APP (FRAME_NEW_CONNECTION_ID sequence 0 id reset_token) true now c;;
          (WT_OK, c <| cn_issued_ids ::= <[slot := Some (mk_issued_id sequence id reset_token)]> |> <| cn_issued_count ::= incr |>
                    <| cn_next_issued_sequence ::= incr |>)
    end.

Definition wt_quic_connection_issued_id (c : connection) (sequence : Z) : option wt_quic_issued_connection_id :=
  match first_index (has_sequence sequence) (cn_issued_ids c) with
  | None => None
  | Some i => default None (cn_issued_ids c !! i)
  end.

(** ** A Retry *)

Definition discard_retry (c : connection) : connection :=
  on_counters (fun k => k <| ct_packets_discarded ::= incr |>) (c <| cn_retry ::= (fun r => r <| rt_discarded ::= incr |>) |>).

(** Whether a client takes this Retry. *)
Definition retry_acceptable (packet : list Z) (retry : wt_quic_retry_packet) (c : connection) : bool :=
  let original := cn_original_destination_id c in
  (rp_version retry =? cf_version (cn_config c)) && negb (zlen (rp_token retry) =? 0) &&
  negb (zlen (rp_source_connection_id retry) =? 0) &&
  negb (negb (zlen original =? 0) && bool_decide (rp_source_connection_id retry = original)) &&
  bool_decide (wt_quic_retry_integrity_verify original packet = WT_OK) &&
  (zlen (rp_token retry) <=? WT_QUIC_MAX_RETRY_TOKEN).

Definition on_retry_packet (packet : list Z) (c : connection) : wt_status * connection :=
  if negb (bool_decide (cf_role (cn_config c) = WT_QUIC_ROLE_CLIENT)) || rt_accepted (cn_retry c) || rt_server_packet_received (cn_retry c)
  then (WT_OK, discard_retry c)
  else
    match wt_quic_retry_packet_decode packet with
    | Fail _ _ => (WT_OK, discard_retry c)
    | Ok retry =>
        if negb (retry_acceptable packet retry c) then (WT_OK, discard_retry c)
        else
          let source := rp_source_connection_id retry in
          let c := c <| cn_retry ::= (fun r => r <| rt_token := rp_token retry |> <| rt_source_connection_id := source |>) |> in
          let c := adopt_peer_connection_id source c in
          let c := c <| cn_retry ::= (fun r => r <| rt_accepted := true |> <| rt_accepted_count ::= incr |> <| rt_pending_keys := true |>) |> in
          (WT_OK, discard_space (on_lost udp_send lost_handler levels) WT_QUIC_SPACE_INITIAL c)
    end.

Definition wt_quic_connection_retry (c : connection) : outcome (list Z * list Z) :=
  if negb (rt_accepted (cn_retry c)) then Fail WT_ERR_STATE None
  else Ok (rt_token (cn_retry c), rt_source_connection_id (cn_retry c)).
End Ids.
