(* ===== verification/ConnectionReceive.v ===== *)
(** Receiving on a connection: [src/quic/connection_receive.c].  One datagram's
    coalesced packets are opened and their frames walked; the visitor acts on the
    frames the connection owns and hands the rest to the layer above. *)

From S2P Require Import Prelude Core Crypto Packet PacketNumber Protection PacketIo AckProcessing.
From S2P Require Import Connection ConnectionKeys ConnectionSend ConnectionLoss ConnectionStream ConnectionRetry.

Definition wire_type_of (frame : wt_quic_frame) : Z :=
  match frame with
  | FRAME_PADDING => WT_QUIC_FRAME_PADDING
  | FRAME_PING => WT_QUIC_FRAME_PING
  | FRAME_ACK _ => WT_QUIC_FRAME_ACK
  | FRAME_RESET_STREAM _ _ _ => WT_QUIC_FRAME_RESET_STREAM
  | FRAME_STOP_SENDING _ _ => WT_QUIC_FRAME_STOP_SENDING
  | FRAME_CRYPTO _ _ => WT_QUIC_FRAME_CRYPTO
  | FRAME_NEW_TOKEN _ _ => WT_QUIC_FRAME_NEW_TOKEN
  | FRAME_STREAM _ => WT_QUIC_FRAME_STREAM_BASE
  | FRAME_MAX_DATA _ => WT_QUIC_FRAME_MAX_DATA
  | FRAME_MAX_STREAM_DATA _ _ => WT_QUIC_FRAME_MAX_STREAM_DATA
  | FRAME_MAX_STREAMS _ _ => WT_QUIC_FRAME_MAX_STREAMS_BIDI
  | FRAME_DATA_BLOCKED _ => WT_QUIC_FRAME_DATA_BLOCKED
  | FRAME_STREAM_DATA_BLOCKED _ _ => WT_QUIC_FRAME_STREAM_DATA_BLOCKED
  | FRAME_STREAMS_BLOCKED _ _ => WT_QUIC_FRAME_STREAMS_BLOCKED_BIDI
  | FRAME_NEW_CONNECTION_ID _ _ _ _ => WT_QUIC_FRAME_NEW_CONNECTION_ID
  | FRAME_RETIRE_CONNECTION_ID _ => WT_QUIC_FRAME_RETIRE_CONNECTION_ID
  | FRAME_PATH_CHALLENGE _ => WT_QUIC_FRAME_PATH_CHALLENGE
  | FRAME_PATH_RESPONSE _ => WT_QUIC_FRAME_PATH_RESPONSE
  | FRAME_CONNECTION_CLOSE_TRANSPORT _ => WT_QUIC_FRAME_CONNECTION_CLOSE_TRANSPORT
  | FRAME_CONNECTION_CLOSE_APPLICATION _ => WT_QUIC_FRAME_CONNECTION_CLOSE_APPLICATION
  | FRAME_HANDSHAKE_DONE => WT_QUIC_FRAME_HANDSHAKE_DONE
  | FRAME_RESET_STREAM_AT _ _ _ _ => WT_QUIC_FRAME_RESET_STREAM_AT
  | FRAME_DATAGRAM _ => WT_QUIC_FRAME_DATAGRAM
  end.

Definition frame_forbidden_in_space (frame : wt_quic_frame) (space : wt_quic_space) : bool :=
  match frame with
  | FRAME_PADDING | FRAME_PING | FRAME_ACK _ | FRAME_CONNECTION_CLOSE_TRANSPORT _ | FRAME_CONNECTION_CLOSE_APPLICATION _ | FRAME_CRYPTO _ _ => false
  | _ => negb (bool_decide (space = WT_QUIC_SPACE_APPLICATION))
  end.

(** What makes a packet ask for an acknowledgement. *)
Definition frame_elicits (frame : wt_quic_frame) : bool :=
  match frame with
  | FRAME_ACK _ | FRAME_PADDING | FRAME_CONNECTION_CLOSE_TRANSPORT _ | FRAME_CONNECTION_CLOSE_APPLICATION _ => false
  | _ => true
  end.

Section Receive.
Context {X : Type} {C : Crypto}.
Notation connection := (wt_quic_connection X).
Notation APP := WT_QUIC_SPACE_APPLICATION.
Context (udp_send : list sent_datagram -> option wt_udp_address -> list Z -> wt_status).
Context (lost_handler : option (wt_quic_tx_frame -> connection -> connection)).
(** [handler], of the layer above. *)
Context (handler : option (wt_quic_space -> wt_quic_frame -> connection -> wt_status * connection)).
Context (levels : nat).

Notation send_control := (send_control_frame udp_send lost_handler levels).
Notation send_one := (send_one_frame udp_send lost_handler levels).

(** ** Handlers *)

Definition handle_connection_close (application : bool) (f : wt_quic_close_fields) (now : Z) (c : connection) : wt_status * connection :=
  let frame_type := if cf_has_frame_type f then cf_frame_type f else 0 in
  let c := c <| cn_peer_close := mk_peer_close true (if application then WT_QUIC_CLOSE_APPLICATION else WT_QUIC_CLOSE_TRANSPORT)
                                   (cf_error_code f) frame_type (ztake WT_QUIC_CONNECTION_REASON_MAX (cf_reason f)) |> in
  (WT_OK, c <| cn_close := (wt_quic_close_transport (cn_close c) (cf_error_code f) frame_type [] now (pto_of c)).2 |> <| cn_close_sent := true |>).

Definition deliver_to_handler (space : wt_quic_space) (now : Z) (frame : wt_quic_frame) (c : connection) : wt_status * connection :=
  let c := on_counters (fun k => k <| ct_frames_delivered ::= incr |>) c in
  match handler with
  | None => (WT_OK, c)
  | Some h =>
      let r := h space frame c in
      if bool_decide (r.1 = WT_OK) then (WT_OK, r.2)
      else
        let hint := cn_hint r.2 in
        let application := hn_set hint && hn_application hint in
        let code := if hn_set hint then hn_code hint else WT_QUIC_INTERNAL_ERROR in
        let type := if hn_set hint then hn_frame_type hint else 0 in
        let c := r.2 <| cn_hint ::= (fun h => h <| hn_set := false |> <| hn_application := false |> <| hn_cause := r.1 |>
                                                <| hn_cause_frame := wire_type_of frame |>) |> in
        (r.1, if application then c <| cn_close := (wt_quic_close_application (cn_close c) code [] now (pto_of c)).2 |>
              else (close_with code type now c).2)
  end.

Definition handle_path_challenge (now : Z) (data : list Z) (c : connection) : wt_status * connection :=
  let r := send_control APP (FRAME_PATH_RESPONSE data) true now c in
  let c := if bool_decide (r.1 = WT_OK) then r.2 <| cn_path ::= (fun p => p <| pa_responses_sent ::= incr |>) |> else r.2 in
  deliver_to_handler APP now (FRAME_PATH_CHALLENGE data) c.

Definition handle_path_response (now : Z) (data : list Z) (c : connection) : wt_status * connection :=
  let c :=
    if pa_validating (cn_path c) && wt_ct_equal (pa_challenge (cn_path c)) data
    then c <| cn_path ::= (fun p => p <| pa_validating := false |> <| pa_challenge_pending := false |> <| pa_validated := true |>
                                      <| pa_responses_matched ::= incr |>) |>
    else c in
  deliver_to_handler APP now (FRAME_PATH_RESPONSE data) c.

Definition handle_retire_connection_id (now destination_sequence sequence : Z) (c : connection) : wt_status * connection :=
  let c := c <| cn_retires_received ::= incr |> in
  if (sequence =? destination_sequence) || (cn_next_issued_sequence c <=? sequence)
  then close_with WT_QUIC_PROTOCOL_VIOLATION WT_QUIC_FRAME_RETIRE_CONNECTION_ID now c
  else
    let c :=
      match first_index (has_sequence sequence) (cn_issued_ids c) with
      | None => c
      | Some i => c <| cn_issued_ids ::= <[i := None]> |> <| cn_issued_count ::= (fun n => u64 (n - 1)) |>
      end in
    deliver_to_handler APP now (FRAME_RETIRE_CONNECTION_ID sequence) c.

Definition handle_max_data (maximum now : Z) (c : connection) : wt_status * connection :=
  if maximum <? pl_initial_max_data (cn_peer_limits c) then close_with WT_QUIC_PROTOCOL_VIOLATION WT_QUIC_FRAME_MAX_DATA now c
  else (WT_OK, c <| cn_peer_limits ::= (fun l => l <| pl_initial_max_data := maximum |>) |>).

Definition handle_max_streams (d : wt_quic_stream_direction) (maximum now : Z) (c : connection) : wt_status * connection :=
  match d with
  | WT_QUIC_STREAM_BIDIRECTIONAL =>
      if maximum <? pl_initial_max_streams_bidi (cn_peer_limits c)
      then close_with WT_QUIC_PROTOCOL_VIOLATION WT_QUIC_FRAME_MAX_STREAMS_BIDI now c
      else (WT_OK, c <| cn_peer_limits ::= (fun l => l <| pl_initial_max_streams_bidi := maximum |>) |>)
  | WT_QUIC_STREAM_UNIDIRECTIONAL =>
      if maximum <? pl_initial_max_streams_uni (cn_peer_limits c)
      then close_with WT_QUIC_PROTOCOL_VIOLATION WT_QUIC_FRAME_MAX_STREAMS_BIDI now c
      else (WT_OK, c <| cn_peer_limits ::= (fun l => l <| pl_initial_max_streams_uni := maximum |>) |>)
  end.

(** ** Frames that name a stream *)

(** Which limit, or the final size, a refused STREAM frame broke. *)
Definition data_refused (offset length : Z) (s : wt_quic_stream) (f : wt_quic_flow) : Z :=
  if U64_MAX - length <? offset then WT_QUIC_FRAME_ENCODING_ERROR
  else
    let e := u64 (offset + length) in
    let needed := if recv_highest (rx s) <? e then u64 (e - recv_highest (rx s)) else 0 in
    if (max_stream_data (rx s) <? e) || (fl_max_data f <? u64 (fl_data_received f + needed))
    then WT_QUIC_FLOW_CONTROL_ERROR else WT_QUIC_FINAL_SIZE_ERROR.

(** The connection's limit is raised when it is used up: a MAX_DATA, if it can be sent. *)
Definition extend_connection (now : Z) (c : connection) : connection :=
  if wt_quic_flow_should_extend (cn_flow c) then
    let next := wt_quic_flow_next_max_data (cn_flow c) in
    let r := send_one APP (FRAME_MAX_DATA next) true None now c in
    if bool_decide (r.1 = WT_OK)
    then r.2 <| cn_flow ::= (fun f => wt_quic_flow_on_max_data_sent f next) |> <| cn_local_max_data := next |>
    else r.2
  else c.

Definition extend_stream (id now : Z) (c : connection) : connection :=
  match wt_quic_connection_stream c id with
  | None => c
  | Some s =>
      if wt_quic_stream_should_extend s then
        let next := wt_quic_stream_next_max_stream_data s in
        let r := send_one APP (FRAME_MAX_STREAM_DATA id next) true None now c in
        if bool_decide (r.1 = WT_OK) then on_stream id (fun s => wt_quic_stream_on_max_stream_data_sent s next) r.2 else r.2
      else c
  end.

(** The stream machine's answer to a frame, and the close its refusal asks for. *)
Definition stream_answer (id : Z) (r : wt_status * wt_quic_stream) (code type now : Z) (c : connection) : option (wt_status * connection) * connection :=
  let c := on_stream id (fun _ => r.2) c in
  if bool_decide (r.1 = WT_OK) then (None, c) else (Some (close_with code type now c), c).

(** [Some]: the code returns this at once. *)
Definition apply_stream_frame (frame : wt_quic_frame) (now : Z) (s : wt_quic_stream) (c : connection)
    : option (wt_status * connection) * connection :=
  let type := wire_type_of frame in
  match frame with
  | FRAME_RESET_STREAM id code size => stream_answer id (wt_quic_stream_on_reset_received s code size) WT_QUIC_FINAL_SIZE_ERROR type now c
  | FRAME_RESET_STREAM_AT id code size reliable =>
      stream_answer id (wt_quic_stream_on_reset_at_received s code size reliable)
        (if size <? reliable then WT_QUIC_FRAME_ENCODING_ERROR else WT_QUIC_STREAM_STATE_ERROR) type now c
  | FRAME_STOP_SENDING id code => stream_answer id (wt_quic_stream_on_stop_sending s code) WT_QUIC_STREAM_STATE_ERROR type now c
  | FRAME_STREAM f =>
      let r := wt_quic_stream_on_data s (cn_flow c) (sf_offset f) (zlen (sf_data f)) (sf_fin f) in
      let c := on_stream (sf_id f) (fun _ => od_stream r) c <| cn_flow := od_flow r |> in
      if bool_decide (od_status r = WT_OK) then (None, extend_stream (sf_id f) now (extend_connection now c))
      else (Some (close_with (data_refused (sf_offset f) (zlen (sf_data f)) (od_stream r) (od_flow r)) type now c), c)
  | FRAME_MAX_STREAM_DATA id maximum => stream_answer id (wt_quic_stream_on_max_stream_data s maximum) WT_QUIC_PROTOCOL_VIOLATION type now c
  | _ => (None, c)
  end.

Definition handle_stream_frame (space : wt_quic_space) (now id : Z) (frame : wt_quic_frame) (c : connection) : wt_status * connection :=
  c <-! ensure_peer_stream id (wire_type_of frame) now c;;
  match wt_quic_connection_stream c id with
  | None => deliver_to_handler space now frame c
  | Some s =>
      match apply_stream_frame frame now s c with
      | (Some r, _) => r
      | (None, c) => deliver_to_handler space now frame c
      end
  end.

(** ** The visitor *)

(** The context of the walk: whether the packet elicits an acknowledgement, and
    the connection. *)
Definition visit_frame (space : wt_quic_space) (now destination_sequence : Z) (v : bool * connection) (frame : wt_quic_frame)
    : wt_status * (bool * connection) :=
  let c := on_counters (fun k => k <| ct_frames_walked ::= incr |>) v.2 in
  let c := match frame with FRAME_STREAM _ => on_counters (fun k => k <| ct_stream_frames_seen ::= incr |>) c | _ => c end in
  if wt_quic_connection_is_closed c && negb (wt_quic_close_accepts_frame_type (wire_type_of frame)) then (WT_OK, (v.1, c))
  else if frame_forbidden_in_space frame space
  then let r := close_with WT_QUIC_PROTOCOL_VIOLATION (wire_type_of frame) now c in (r.1, (v.1, r.2))
  else
    let r :=
      match frame with
      | FRAME_PADDING => (WT_OK, c)
      | FRAME_ACK a => handle_ack udp_send lost_handler levels space a now c
      | FRAME_CONNECTION_CLOSE_TRANSPORT f => handle_connection_close false f now c
      | FRAME_CONNECTION_CLOSE_APPLICATION f => handle_connection_close true f now c
      | FRAME_MAX_DATA maximum => handle_max_data maximum now c
      | FRAME_MAX_STREAMS d maximum => handle_max_streams d maximum now c
      | FRAME_HANDSHAKE_DONE =>
          if bool_decide (cf_role (cn_config c) = WT_QUIC_ROLE_SERVER)
          then close_with WT_QUIC_PROTOCOL_VIOLATION WT_QUIC_FRAME_HANDSHAKE_DONE now c
          else deliver_to_handler space now frame c
      | FRAME_MAX_STREAM_DATA id _ | FRAME_RESET_STREAM id _ _ | FRAME_RESET_STREAM_AT id _ _ _ | FRAME_STOP_SENDING id _
      | FRAME_STREAM_DATA_BLOCKED id _ => handle_stream_frame space now id frame c
      | FRAME_STREAM f => handle_stream_frame space now (sf_id f) frame c
      | FRAME_NEW_CONNECTION_ID sequence retire_prior_to id token => handle_new_connection_id udp_send lost_handler levels sequence retire_prior_to id token now c
      | FRAME_RETIRE_CONNECTION_ID sequence => handle_retire_connection_id now destination_sequence sequence c
      | FRAME_PATH_CHALLENGE data => handle_path_challenge now data c
      | FRAME_PATH_RESPONSE data => handle_path_response now data c
      | FRAME_PING | FRAME_CRYPTO _ _ | FRAME_NEW_TOKEN _ _ | FRAME_DATA_BLOCKED _ | FRAME_STREAMS_BLOCKED _ _ | FRAME_DATAGRAM _ =>
          deliver_to_handler space now frame c
      end in
    (r.1, (v.1 || frame_elicits frame, r.2)).

(** The status, whether the packet elicits an acknowledgement, and the state. *)
Definition process_packet (space : wt_quic_space) (payload : list Z) (now destination_sequence : Z) (c : connection)
    : wt_status * bool * connection :=
  match wt_quic_frames_decode (Some (visit_frame space now destination_sequence)) (Some payload) (zlen payload) (false, c) with
  | None => (WT_ERR_STATE, false, c)   (* not reached: the walk's fuel is enough *)
  | Some (WT_OK, _, (eliciting, c)) => (WT_OK, eliciting, c)
  | Some (status, error, (eliciting, c)) =>
      let c :=
        if negb (wt_quic_connection_is_closed c) && (bool_decide (status = WT_ERR_PROTOCOL) || bool_decide (status = WT_ERR_TRUNCATED))
        then (close_with (default WT_QUIC_FRAME_ENCODING_ERROR error) 0 now c).2 else c in
      if wt_quic_connection_is_closed c then (WT_OK, eliciting, c) else (status, false, c)
  end.

(** ** Opening a 1-RTT packet *)

(** The packet opened with the peer's next keys, or, if a copy was kept, with the
    keys being retired. *)
Definition open_next_phase (packet : list Z) (total_len largest_received : Z) (has_reference : bool) (now : Z) (c : connection)
    : outcome wt_quic_received_packet * connection :=
  let local := zlen (cn_local_connection_id c) in
  let keep_copy := ku_previous_keys_in_ready (cn_key_update c) && (total_len <=? WT_QUIC_MAX_PACKET) in
  match ensure_next_keys_in c with
  | (WT_OK, c) =>
      match wt_quic_packet_open packet total_len (ku_next_keys_in (cn_key_update c)) largest_received local with
      | Ok received =>
          let r := key_update_respond now c in
          (if bool_decide (r.1 = WT_OK) then Ok received else Fail r.1 None, r.2)
      | Fail status e =>
          if negb (bool_decide (status = WT_ERR_AUTHENTICATION)) || negb keep_copy then (Fail status e, c)
          else
            match wt_quic_packet_open packet total_len (ku_previous_keys_in (cn_key_update c)) largest_received local with
            | Fail _ _ => (Fail WT_ERR_AUTHENTICATION None, c)
            | Ok received =>
                if has_reference then
                  let r := close_with WT_QUIC_KEY_UPDATE_ERROR 0 now (on_key_update (fun k => k <| ku_errors ::= incr |>) c) in
                  (if bool_decide (r.1 = WT_OK) then Ok received else Fail r.1 None, r.2)
                else (Ok received, c)
            end
      end
  | (s, c) => (Fail s None, c)
  end.

Definition read_application_packet (packet : list Z) (largest_received now : Z) (c : connection)
    : outcome wt_quic_received_packet * connection :=
  let keys := ss_keys_in (space_of c APP) in
  let local := zlen (cn_local_connection_id c) in
  match wt_quic_packet_unprotect_header packet keys local with
  | Fail s e => (Fail s e, c)
  | Ok (packet, pn_offset, total_len, pn_len, _) =>
      let k := cn_key_update c in
      if eqb (has_bit (byte_at packet 0) WT_QUIC_KEY_PHASE_BIT) (ku_key_phase_in k) then
        match wt_quic_packet_open packet total_len keys largest_received local with
        | Fail s e => (Fail s e, c)
        | Ok received =>
            (Ok received, if ku_in_first_pn_set k then c
                          else on_key_update (fun k => k <| ku_in_first_pn := rx_packet_number received |> <| ku_in_first_pn_set := true |>) c)
        end
      else
        let packet_number := wt_quic_packet_number_decode (be_value (zslice pn_offset pn_len packet)) pn_len largest_received in
        let has_reference := ku_in_first_pn_set k in
        if has_reference && (packet_number <? ku_in_first_pn k) then
          if ku_previous_keys_in_ready k then (wt_quic_packet_open packet total_len (ku_previous_keys_in k) largest_received local, c)
          else (Fail WT_ERR_AUTHENTICATION None, c)
        else open_next_phase packet total_len largest_received has_reference now c
  end.

(** ** One datagram in *)

(** What a packet's first bytes say: the space whose keys it needs, a Retry, or
    nothing this endpoint reads. *)
Inductive packet_route := ROUTE_SPACE (space : wt_quic_space) | ROUTE_RETRY | ROUTE_DISCARD.

Definition route_packet (datagram : list Z) (version : Z) : outcome packet_route :=
  match wt_quic_packet_kind_of datagram with
  | Fail WT_ERR_TRUNCATED _ => Ok ROUTE_DISCARD
  | Fail s e => Fail s e
  | Ok WT_QUIC_PACKET_KIND_VERSION_NEGOTIATION => Ok ROUTE_DISCARD
  | Ok WT_QUIC_PACKET_KIND_SHORT => Ok (ROUTE_SPACE APP)
  | Ok WT_QUIC_PACKET_KIND_LONG =>
      if negb ((if 5 <=? zlen datagram then wt_load_be32 (zdrop 1 datagram) else 0) =? version) then Ok ROUTE_DISCARD
      else
        match packet_type_of_bits (Z.land (Z.shiftr (byte_at datagram 0) 4) 0x03) with
        | WT_QUIC_PACKET_INITIAL => Ok (ROUTE_SPACE WT_QUIC_SPACE_INITIAL)
        | WT_QUIC_PACKET_HANDSHAKE => Ok (ROUTE_SPACE WT_QUIC_SPACE_HANDSHAKE)
        | WT_QUIC_PACKET_RETRY => Ok ROUTE_RETRY
        | WT_QUIC_PACKET_ZERO_RTT => Ok ROUTE_DISCARD
        end
  end.

Definition discard_packet (c : connection) : connection := on_counters (fun k => k <| ct_packets_discarded ::= incr |>) c.

(** [WT_QUIC_SPACE_APPLICATION]'s keys are chosen after its header is read. *)
Definition open_in_space (space : wt_quic_space) (packet : list Z) (now : Z) (c : connection) : outcome wt_quic_received_packet * connection :=
  let s := space_of c space in
  let r := sp_received (ss_space s) in
  let largest_received := if as_has_largest r then as_largest_received r else 0 in
  if bool_decide (space = APP) then read_application_packet packet largest_received now c
  else (wt_quic_packet_read packet (ss_keys_in s) largest_received (zlen (cn_local_connection_id c)), c).

(** RFC 9001 section 6.6: forged packets are counted, and close the connection past the limit. *)
Definition forged_packet (now : Z) (c : connection) : wt_status * connection :=
  let c := on_counters (fun k => k <| ct_aead_failed ::= incr |>) c in
  if cn_aead_integrity_limit c <? ct_aead_failed (cn_counters c) then close_with WT_QUIC_AEAD_LIMIT_REACHED 0 now c
  else (WT_OK, discard_packet c).

(** The source ID of the first long-header packet, which the peer's parameters must name. *)
Definition note_peer_source (p : wt_quic_received_packet) (c : connection) : connection :=
  if negb (rx_short_header p) && bool_decide (cn_peer_source_connection_id c = None) &&
     (zlen (rx_source_connection_id p) <=? WT_QUIC_MAX_CID_LEN)
  then c <| cn_peer_source_connection_id := Some (rx_source_connection_id p) |> else c.

(** What is noted of a packet whose frames were processed: that the server has
    spoken, that the Initial keys are done with, and the number. *)
Definition packet_processed (space : wt_quic_space) (packet_number : Z) (ack_eliciting : bool) (now : Z) (c : connection) : wt_status * connection :=
  let c := if bool_decide (space = WT_QUIC_SPACE_INITIAL) && bool_decide (cf_role (cn_config c) = WT_QUIC_ROLE_CLIENT)
           then c <| cn_retry ::= (fun t => t <| rt_server_packet_received := true |>) |> else c in
  let c := if bool_decide (space = WT_QUIC_SPACE_HANDSHAKE) then (wt_quic_connection_discard_keys WT_QUIC_SPACE_INITIAL c).2 else c in
  let a := wt_quic_ack_record (sp_received (ss_space (space_of c space))) packet_number ack_eliciting in
  let c := on_space space (on_ack_state (fun _ => a.2)) c in
  if bool_decide (a.1 = WT_OK) then (WT_OK, on_space space (fun s => s <| ss_received_at := now |>) c) else (a.1, c).

(** A packet that opened: its frames, then the record that it arrived. *)
Definition accept_packet (space : wt_quic_space) (p : wt_quic_received_packet) (sequence now : Z) (c : connection) : wt_status * connection :=
  let r := process_packet space (rx_payload p) now sequence (note_peer_source p c) in
  if negb (bool_decide (r.1.1 = WT_OK)) then (r.1.1, r.2)
  else packet_processed space (rx_packet_number p) r.1.2 now r.2.

(** The loop over the coalesced packets of a datagram of [datagram_length] bytes;
    each takes at least one, so its length is fuel enough. *)
Fixpoint packets_loop (fuel : nat) (datagram : list Z) (datagram_length now : Z) (c : connection) : wt_status * connection :=
  if zlen datagram =? 0 then (WT_OK, c)
  else match fuel with
  | O => (WT_OK, c)
  | S fuel =>
      match route_packet datagram (cf_version (cn_config c)) with
      | Fail s _ => (s, c)
      | Ok ROUTE_DISCARD => (WT_OK, discard_packet c)
      | Ok ROUTE_RETRY => on_retry_packet udp_send lost_handler levels datagram c
      | Ok (ROUTE_SPACE space) =>
          if bool_decide (space = WT_QUIC_SPACE_INITIAL) && bool_decide (cf_role (cn_config c) = WT_QUIC_ROLE_SERVER) &&
             (datagram_length <? WT_QUIC_MIN_INITIAL_DATAGRAM_SIZE) then (WT_OK, discard_packet c)
          else if negb (ss_has_keys_in (space_of c space)) then (WT_OK, discard_packet c)
          else
            match open_in_space space datagram now c with
            | (Fail WT_ERR_AUTHENTICATION _, c) => forged_packet now c
            | (Fail WT_ERR_TRUNCATED _, c) => (WT_OK, discard_packet c)
            | (Fail s _, c) => (s, c)
            | (Ok p, c) =>
                match local_connection_id_sequence c (rx_destination_connection_id p) with
                | None => (WT_OK, discard_packet c)
                | Some sequence =>
                    c <-! accept_packet space p sequence now c;;
                    if (rx_total_len p =? 0) || (zlen datagram <? rx_total_len p) then (WT_ERR_STATE, c)
                    else packets_loop fuel (zdrop (rx_total_len p) datagram) datagram_length now c
                end
            end
      end
  end.

(** [arrival] is what [wt_udp_receive] answers: the sender and the datagram. *)
Definition wt_quic_connection_receive (arrival : outcome (wt_udp_address * list Z)) (now : Z) (c : connection) : wt_status * connection :=
  if negb (cn_open_socket c) then (WT_ERR_STATE, c)
  else
    match arrival with
    | Fail s _ => (s, c)
    | Ok (from, datagram) =>
        if match cn_peer c with None => false | Some peer => negb (wt_udp_address_equal from peer) end then (WT_OK, discard_packet c)
        else
          let c := match cn_peer c with None => c <| cn_peer := Some from |> | Some _ => c end in
          if zlen datagram =? 0 then (WT_OK, discard_packet c)
          else
            let c := on_counters (fun k => k <| ct_packets_received ::= incr |> <| ct_bytes_received ::= (fun b => u64 (b + zlen datagram)) |>) c
                       <| cn_last_activity := now |> in
            packets_loop (length datagram) datagram (zlen datagram) now c
    end.
End Receive.
