(* ===== verification/Recovery.v ===== *)
(** What a connection promises of loss recovery, without its packets' contents: a
    transition system on the numbers the spaces give out, the packets in flight,
    the congestion window and what is on the wire.  [ConnectionRefinement] shows
    that every operation of the connection is a sequence of these steps, so what
    is an invariant here holds of the connection. *)

From S2P Require Import Prelude Core PacketIo Connection.

(** Whether a space has sent, and the number it gives out next. *)
Record numbering := mk_numbering { nb_sent : bool; nb_next : Z }.

Record recovery := mk_recovery {
  rv_config : wt_quic_connection_config;
  rv_initial : numbering;
  rv_handshake : numbering;
  rv_application : numbering;
  rv_loss : wt_quic_loss;
  rv_congestion : wt_quic_congestion;
  rv_outbox : list sent_datagram }.

#[export] Instance eta_recovery : Eta recovery := fun r => mk_recovery (rv_config r) (rv_initial r) (rv_handshake r)
  (rv_application r) (rv_loss r) (rv_congestion r) (rv_outbox r).

Definition rv_numbering (r : recovery) (space : wt_quic_space) : numbering :=
  match space with
  | WT_QUIC_SPACE_INITIAL => rv_initial r | WT_QUIC_SPACE_HANDSHAKE => rv_handshake r | WT_QUIC_SPACE_APPLICATION => rv_application r
  end.

Definition number_taken (n : numbering) : numbering := mk_numbering true (u64 (nb_next n + 1)).

(** A space has numbers left. *)
Definition numbers_left (n : numbering) : bool := negb (nb_sent n && (WT_QUIC_PACKET_NUMBER_MAX <? nb_next n)).

Definition take (space : wt_quic_space) (r : recovery) : recovery :=
  match space with
  | WT_QUIC_SPACE_INITIAL => r <| rv_initial ::= number_taken |>
  | WT_QUIC_SPACE_HANDSHAKE => r <| rv_handshake ::= number_taken |>
  | WT_QUIC_SPACE_APPLICATION => r <| rv_application ::= number_taken |>
  end.

Lemma take_numbering s s' r :
  rv_numbering (take s r) s' = if bool_decide (s = s') then number_taken (rv_numbering r s') else rv_numbering r s'.
Proof. by destruct s, s'. Qed.

Lemma take_rest s r :
  rv_config (take s r) = rv_config r /\ rv_loss (take s r) = rv_loss r /\ rv_congestion (take s r) = rv_congestion r /\
  rv_outbox (take s r) = rv_outbox r.
Proof. by destruct s. Qed.

(** The packet as loss detection remembers it. *)
Definition remembered (d : sent_datagram) (tag now : Z) (ack_eliciting : bool) : wt_quic_sent_packet :=
  mk_sent (space_index (dg_space d)) (dg_number d) now (zlen (dg_bytes d)) tag ack_eliciting true.

Definition emitted (d : sent_datagram) (tag now : Z) (ack_eliciting : bool) (r : recovery) : recovery :=
  take (dg_space d) r <| rv_outbox ::= (fun o => o ++ [d]) |>
    <| rv_loss := (wt_quic_loss_on_sent (rv_loss r) (remembered d tag now ack_eliciting)).2 |>.

Inductive recovery_step : recovery -> recovery -> Prop :=
  (** A number is taken and nothing goes out: it is never used. *)
  | step_take r space : numbers_left (rv_numbering r space) = true -> recovery_step r (take space r)
  (** A packet goes out under the next number of its space, when the window has
      room and the list that has to remember it too; it is within the limit of the
      path, and a client's Initial is not below 1200 bytes. *)
  | step_emit r d tag now ack_eliciting :
      numbers_left (rv_numbering r (dg_space d)) = true ->
      dg_number d = nb_next (rv_numbering r (dg_space d)) ->
      wt_quic_congestion_can_send (rv_congestion r) (wt_quic_loss_bytes_in_flight (rv_loss r)) = true ->
      (length (ls_sent (rv_loss r)) < WT_QUIC_SENT_PACKETS_MAX)%nat ->
      zlen (dg_bytes d) <= cf_max_datagram_size (rv_config r) ->
      (dg_space d = WT_QUIC_SPACE_INITIAL -> cf_role (rv_config r) = WT_QUIC_ROLE_CLIENT ->
       WT_QUIC_MIN_INITIAL_DATAGRAM_SIZE <= zlen (dg_bytes d)) ->
      recovery_step r (emitted d tag now ack_eliciting r)
  (** A packet leaves the list: declared lost, discarded or acknowledged. *)
  | step_remove r i : recovery_step r (r <| rv_loss ::= (fun l => remove_packet l i) |>)
  | step_ack r space number : recovery_step r (r <| rv_loss := (wt_quic_loss_on_ack (rv_loss r) space number).2 |>)
  (** The timers. *)
  | step_loss_time r t : recovery_step r (r <| rv_loss ::= (fun l => set_loss_time l t) |>)
  | step_pto r : recovery_step r (r <| rv_loss ::= wt_quic_loss_on_pto |>)
  (** The window. *)
  | step_window_ack r bytes sent : recovery_step r (r <| rv_congestion ::= (fun g => (wt_quic_congestion_on_ack g bytes sent).2) |>)
  | step_window_loss r sent now : recovery_step r (r <| rv_congestion ::= (fun g => (wt_quic_congestion_on_loss g sent now).2) |>).

#[export] Hint Constructors recovery_step : conn.

(** ** The invariant *)

(** No packet number is used twice in its space. *)
Definition numbered (o : list sent_datagram) : Prop :=
  StronglySorted (fun a b => dg_space a = dg_space b -> dg_number a < dg_number b) o.

Definition within_path (k : wt_quic_connection_config) (d : sent_datagram) : Prop :=
  zlen (dg_bytes d) <= cf_max_datagram_size k /\
  (dg_space d = WT_QUIC_SPACE_INITIAL -> cf_role k = WT_QUIC_ROLE_CLIENT -> WT_QUIC_MIN_INITIAL_DATAGRAM_SIZE <= zlen (dg_bytes d)).

(** A packet in flight is one that went out. *)
Definition went_out (o : list sent_datagram) (p : wt_quic_sent_packet) : Prop :=
  exists d, d ∈ o /\ pk_space p = space_index (dg_space d) /\ pk_number p = dg_number d /\ pk_size p = zlen (dg_bytes d).

Record recovery_inv (r : recovery) : Prop := {
  ri_config : cf_max_datagram_size (rv_config r) < 2 ^ 32;
  ri_loss : loss_inv (rv_loss r);
  ri_next : forall s, 0 <= nb_next (rv_numbering r s) <= 2 ^ 62 /\ (nb_sent (rv_numbering r s) = false -> nb_next (rv_numbering r s) = 0);
  ri_given : Forall (fun d => 0 <= dg_number d < nb_next (rv_numbering r (dg_space d))) (rv_outbox r);
  ri_numbered : numbered (rv_outbox r);
  ri_sizes : Forall (within_path (rv_config r)) (rv_outbox r);
  ri_flight : Forall (went_out (rv_outbox r)) (ls_sent (rv_loss r)) }.

Lemma number_taken_left s r :
  recovery_inv r -> numbers_left (rv_numbering r s) = true ->
  nb_next (rv_numbering (take s r) s) = nb_next (rv_numbering r s) + 1 /\ nb_next (rv_numbering r s) < 2 ^ 62.
Proof.
  intros Hr Hl. rewrite take_numbering, bool_decide_true by done. destruct (ri_next r Hr s) as [Hn H0]. cbn.
  unfold numbers_left, WT_QUIC_PACKET_NUMBER_MAX in *. apply negb_true_iff, andb_false_iff in Hl as [Hl|Hl];
    [rewrite (H0 Hl); by vm_compute|]. apply Z.ltb_ge in Hl. no_wrap. lia.
Qed.

Lemma take_inv s r : recovery_inv r -> numbers_left (rv_numbering r s) = true -> recovery_inv (take s r).
Proof.
  intros Hr Hl. destruct (number_taken_left s r Hr Hl) as [Hn Hlt]. destruct (take_rest s r) as (Ec & El & _ & Eo). destruct Hr as [H1 H2 H3 H4 H5 H6 H7].
  split; rewrite ?Ec, ?El, ?Eo; try done.
  - intros s'. destruct (decide (s = s')) as [<-|Hs]; [|rewrite take_numbering, bool_decide_false by done; apply H3].
    destruct (H3 s). split; [lia|]. by rewrite take_numbering, bool_decide_true.
  - eapply Forall_impl; [exact H4|]. cbn. intros d Hd. destruct (decide (s = dg_space d)) as [->|Hs]; [lia|].
    by rewrite take_numbering, bool_decide_false.
Qed.

Lemma went_out_more o d p : went_out o p -> went_out (o ++ [d]) p.
Proof. intros (e & He & H). exists e. split; [|done]. apply elem_of_app. by left. Qed.

(** The list never refuses a packet that is on the wire. *)
Lemma emitted_remembered r d tag now e :
  recovery_inv r -> dg_number d = nb_next (rv_numbering r (dg_space d)) -> (length (ls_sent (rv_loss r)) < WT_QUIC_SENT_PACKETS_MAX)%nat ->
  (wt_quic_loss_on_sent (rv_loss r) (remembered d tag now e)).1 = WT_OK /\
  ls_sent (wt_quic_loss_on_sent (rv_loss r) (remembered d tag now e)).2 = ls_sent (rv_loss r) ++ [remembered d tag now e].
Proof.
  intros Hr Hd Hl. unfold wt_quic_loss_on_sent. replace (find_packet _ _ _) with (@None nat); [rewrite (proj2 (Nat.eqb_neq _ _)) by lia; done|].
  symmetry. apply find_packet_None. intros H. apply list_elem_of_fmap in H as (p & [= Ep En] & Hp).
  destruct (proj1 (Forall_forall _ _) (ri_flight r Hr) p Hp) as (d' & Hd' & Es & En' & _).
  pose proof (proj1 (Forall_forall _ _) (ri_given r Hr) d' Hd') as Hg. cbn in Hg.
  assert (dg_space d' = dg_space d) as E by (apply space_index_inj; congruence). rewrite E in Hg. lia.
Qed.

Lemma emitted_inv r d tag now e :
  recovery_inv r -> numbers_left (rv_numbering r (dg_space d)) = true -> dg_number d = nb_next (rv_numbering r (dg_space d)) ->
  (length (ls_sent (rv_loss r)) < WT_QUIC_SENT_PACKETS_MAX)%nat -> within_path (rv_config r) d -> recovery_inv (emitted d tag now e r).
Proof.
  intros Hr Hn Hd Hl Hp. destruct (emitted_remembered r d tag now e Hr Hd Hl) as [_ Hs]. destruct (number_taken_left _ r Hr Hn) as [Ht Hlt].
  pose proof (take_inv _ _ Hr Hn) as [H1 H2 H3 H4 H5 H6 H7]. destruct (take_rest (dg_space d) r) as (Ec & El & _ & Eo). rewrite ?Ec, ?El, ?Eo in *.
  pose proof (zlen_nonneg (dg_bytes d)). unfold emitted. split; upd_simpl; rewrite ?Ec, ?Eo; try done.
  - apply loss_on_sent_inv; [done|]. unfold packet_ok, remembered, within_path in *. cbn. lia.
  - apply Forall_app. split; [exact H4|]. apply Forall_singleton. change (0 <= dg_number d < nb_next (rv_numbering (take (dg_space d) r) (dg_space d))).
    rewrite Ht, Hd. destruct (ri_next r Hr (dg_space d)). lia.
  - apply StronglySorted_snoc. split; [done|]. eapply Forall_impl; [exact (ri_given r Hr)|]. cbn. intros x Hx E. rewrite E in Hx. lia.
  - apply Forall_app. split; [done|]. by apply Forall_singleton.
  - rewrite Hs. apply Forall_app. split; [eapply Forall_impl; [exact H7|]; intros p; apply went_out_more|].
    apply Forall_singleton. exists d. split_and!; try done. apply elem_of_app. right. by apply list_elem_of_singleton.
Qed.

(** A change of the list that only takes packets out. *)
Lemma fewer_inv r l : recovery_inv r -> loss_inv l -> ls_sent l ⊆ ls_sent (rv_loss r) -> recovery_inv (r <| rv_loss := l |>).
Proof.
  intros [H1 H2 H3 H4 H5 H6 H7] Hl Hs. split; try done. upd_simpl. apply Forall_forall. intros p Hp. by apply (proj1 (Forall_forall _ _) H7), Hs.
Qed.

Lemma remove_packet_fewer l i : loss_inv l -> loss_inv (remove_packet l i) /\ ls_sent (remove_packet l i) ⊆ ls_sent l.
Proof.
  intros Hl. destruct (ls_sent l !! i) as [p|] eqn:E; [|by unfold remove_packet; rewrite E].
  destruct (remove_packet_inv l i p Hl E) as [H ->]. split; [done|]. intros x Hx. eapply elem_of_sublist; [exact Hx|apply sublist_delete].
Qed.

Lemma on_ack_fewer l space number : loss_inv l -> ls_sent (wt_quic_loss_on_ack l space number).2 ⊆ ls_sent l.
Proof.
  intros Hl. unfold wt_quic_loss_on_ack. destruct (find_packet _ _ _) as [i|]; [|done]. destruct (remove_packet_fewer l i Hl) as [_ Hr].
  cbn. by destruct (ls_sent l !! i) as [[? ? ? ? ? [] ?]|].
Qed.

Lemma recovery_step_inv r r' : recovery_step r r' -> recovery_inv r -> recovery_inv r'.
Proof.
  intros [] Hr; try (by destruct Hr; constructor).
  - by apply take_inv.
  - by apply emitted_inv.
  - destruct (remove_packet_fewer (rv_loss r0) i (ri_loss _ Hr)). by apply fewer_inv.
  - apply fewer_inv; [done|apply loss_on_ack_inv, Hr|apply on_ack_fewer, Hr].
  - apply (fewer_inv r0 (set_loss_time (rv_loss r0) t)); [done|apply set_loss_time_inv, Hr|done].
  - apply (fewer_inv r0 (wt_quic_loss_on_pto (rv_loss r0))); [done|apply loss_on_pto_inv, Hr|]. unfold wt_quic_loss_on_pto. by case_match.
Qed.

Lemma recovery_steps_inv r r' : rtc recovery_step r r' -> recovery_inv r -> recovery_inv r'.
Proof. induction 1; eauto using recovery_step_inv. Qed.

(** What is on the wire stays, and the numbers only grow. *)
Lemma recovery_steps_outbox r r' : rtc recovery_step r r' -> rv_outbox r `prefix_of` rv_outbox r'.
Proof.
  induction 1 as [|x y z Hs _ IH]; [done|]. etrans; [|exact IH]. destruct Hs as [r0 space|r0 d| | | | | |]; try done; unfold emitted; upd_simpl.
  - by destruct (take_rest space r0) as (_ & _ & _ & ->).
  - destruct (take_rest (dg_space d) r0) as (_ & _ & _ & ->). by apply prefix_app_r.
Qed.
