(* ===== verification/ConnectionSample.v ===== *)
(** Two ends of an established connection to evaluate with, over the toy AEAD: a
    client and a server that hold each other's 1-RTT keys, a socket that takes
    everything and a layer above that keeps the frames it is handed. *)

From S2P Require Import Prelude Core Crypto Protection PacketIo Connection ConnectionKeys ConnectionSend ConnectionLoss ConnectionStream ConnectionRetry ConnectionReceive.

Notation sample_connection := (wt_quic_connection (list wt_quic_frame)).

Definition sample_config (role : wt_quic_role) (local peer : list Z) : wt_quic_connection_config :=
  mk_config role 1 local peer WT_AEAD_AES_128_GCM 25000 25000 4 100000 0 1400.

Definition sample_keys (n : Z) : wt_quic_packet_keys := mk_keys (replicate 32 n) (replicate 16 n) (replicate 12 n) (replicate 16 n) WT_AEAD_AES_128_GCM.

Definition sample_address (n : Z) : wt_udp_address := mk_address WT_UDP_IPV4 n 0 (replicate 16 0).

Notation fresh role local peer := (is_Some_proj (mx := (wt_quic_connection_init (X := list wt_quic_frame) (sample_config role local peer) []).2) (ltac:(by eexists))).

Definition established {X} (keys_in keys_out : wt_quic_packet_keys) (peer : wt_udp_address) (c : wt_quic_connection X) : wt_quic_connection X :=
  let c := (wt_quic_connection_attach (Some peer) c).2 in
  let c := (wt_quic_connection_set_keys WT_QUIC_SPACE_APPLICATION true keys_in c).2 in
  let c := (wt_quic_connection_set_keys WT_QUIC_SPACE_APPLICATION false keys_out c).2 in
  c <| cn_handshake_confirmed := true |> <| cn_peer_limits := mk_limits 0 1200 1000 1000 1000 1000 10 10 4 1000 true true |>
    <| cn_local_max_streams_bidi := 10 |> <| cn_local_max_streams_uni := 10 |> <| cn_flow := wt_quic_flow_init 1000 1000 |>.

Definition sample_client : sample_connection :=
  established (sample_keys 2) (sample_keys 1) (sample_address 1) (fresh WT_QUIC_ROLE_CLIENT [1; 2; 3; 4] [5; 6; 7; 8]).
Definition sample_server : sample_connection :=
  established (sample_keys 1) (sample_keys 2) (sample_address 2) (fresh WT_QUIC_ROLE_SERVER [5; 6; 7; 8] [1; 2; 3; 4]).

Definition sample_socket (sent : list sent_datagram) (to : option wt_udp_address) (bytes : list Z) : wt_status := WT_OK.

Definition sample_handler (space : wt_quic_space) (frame : wt_quic_frame) (c : sample_connection) : wt_status * sample_connection :=
  (WT_OK, c <| cn_context ::= (fun l => frame :: l) |>).

(** Random bytes that are not random. *)
Definition sample_random (draw n : Z) : outcome (list Z) := Ok (replicate (Z.to_nat n) (u8 draw)).

(** A layer above that answers a lost frame with a PING. *)
Definition sample_lost (lost : wt_quic_tx_frame) (c : sample_connection) : sample_connection :=
  (send_one_frame sample_socket None 0 WT_QUIC_SPACE_APPLICATION FRAME_PING true None (cn_last_activity c) c).2.

(** What the client says arrives: a stream's bytes, opened by the server with the
    keys it holds and handed to the layer above. *)
Example stream_bytes_arrive :
  let opened := wt_quic_connection_open_stream true sample_client in
  let sent := wt_quic_connection_send_stream sample_socket None 0 0 0 [10; 11; 12] true 1000 opened.2 in
  match cn_outbox sent.2 with
  | d :: _ =>
      let got := wt_quic_connection_receive sample_socket None (Some sample_handler) 2 (Ok (sample_address 2, dg_bytes d)) 2000 sample_server in
      (opened.1, sent.1, got.1, cn_context got.2) =
        (Ok 0, WT_OK, WT_OK, [FRAME_STREAM (mk_stream_frame 0 0 false true true [10; 11; 12])])
  | [] => False
  end.
Proof. by vm_compute. Qed.
