(* ===== verification/ConnectionRefinement.v ===== *)
(** Every operation of a connection is a sequence of the steps of [Recovery]: the
    numbers of its spaces, its packets in flight, its window and what it puts on
    the wire change in no other way, whatever the peer sends, whatever the socket,
    the AEAD and the source of randomness answer, and whatever the layer above
    does in its handlers, as long as that is itself made of such steps. *)

From S2P Require Import Prelude Core Crypto Packet Protection PacketIo AckProcessing Connection ConnectionKeys ConnectionSend ConnectionLoss.
From S2P Require Import ConnectionStream ConnectionRetry ConnectionReceive ConnectionSample Recovery.

Section View.
Context {X : Type}.
Notation connection := (wt_quic_connection X).

Definition numbering_of (s : space_state) : numbering := mk_numbering (sp_has_sent (ss_space s)) (sp_next_send (ss_space s)).

(** What [Recovery] sees of a connection. *)
Definition rv (c : connection) : recovery :=
  mk_recovery (cn_config c) (numbering_of (in_initial (cn_spaces c))) (numbering_of (in_handshake (cn_spaces c)))
    (numbering_of (in_application (cn_spaces c))) (cn_loss c) (cn_congestion c) (cn_outbox c).

Lemma rv_numbering_of c s : rv_numbering (rv c) s = numbering_of (space_of c s).
Proof. by destruct s. Qed.

Definition reaches (c c' : connection) : Prop := rtc recovery_step (rv c) (rv c').

Lemma reaches_refl c : reaches c c.
Proof. apply rtc_refl. Qed.

Lemma reaches_trans c c' c'' : reaches c c' -> reaches c' c'' -> reaches c c''.
Proof. unfold reaches. intros. by etrans. Qed.

Lemma reaches_step c c' r : reaches c c' -> recovery_step (rv c') r -> forall c'', rv c'' = r -> reaches c c''.
Proof. intros Hr Hs c'' <-. eapply rtc_r; [exact Hr|exact Hs]. Qed.

(** A change of a space that leaves its numbers. *)
Lemma rv_on_space s f c :
  numbering_of (f (space_of c s)) = numbering_of (space_of c s) -> rv (on_space s f c) = rv c.
Proof. intros H. unfold rv, on_space, space_of in *. upd_simpl. destruct s; cbn [alter_space at_space in_initial in_handshake in_application] in *; by rewrite H. Qed.

Lemma reaches_on_space c0 c s f :
  (forall st, numbering_of (f st) = numbering_of st) -> reaches c0 c -> reaches c0 (on_space s f c).
Proof. intros H Hr. unfold reaches. by rewrite (rv_on_space _ _ _ (H _)). Qed.

Lemma reaches_upd {T} (field : connection -> T) `{!Setter field} f c0 c :
  (forall c, rv (upd field f c) = rv c) -> reaches c0 c -> reaches c0 (upd field f c).
Proof. intros H Hr. unfold reaches. by rewrite H. Qed.

Lemma rv_take s c sp : sp_has_sent sp = true -> sp_next_send sp = u64 (nb_next (rv_numbering (rv c) s) + 1) ->
  rv (on_space s (fun st => st <| ss_space := sp |>) c) = take s (rv c).
Proof. intros H1 H2. rewrite rv_numbering_of in H2. by destruct s; unfold rv, on_space, take, numbering_of, number_taken in *; upd_simpl; cbn in *; unfold upd; cbn; rewrite H1, H2. Qed.
End View.

#[export] Hint Resolve reaches_refl : conn.
#[export] Hint Extern 1 (reaches _ (upd _ _ _)) => (apply reaches_upd; [intros; reflexivity|]) : conn.
#[export] Hint Extern 1 (reaches _ (on_space _ _ _)) => (apply reaches_on_space; [intros; reflexivity|]) : conn.

(** Strips what [Recovery] does not see, and takes sequences and branches apart. *)
Ltac reach1 :=
  lazymatch goal with
  | |- reaches _ (upd _ _ _) => apply reaches_upd; [intros; reflexivity|]
  | |- reaches _ (on_space _ _ _) => apply reaches_on_space; [intros; reflexivity|]
  | |- reaches _ (on_counters _ ?c) => unfold on_counters
  | |- reaches _ (on_key_update _ ?c) => unfold on_key_update
  | |- reaches _ (on_ok _ _).2 => apply on_ok_inv; [|intros ? ?]
  | |- reaches _ (_, _).2 => cbn [snd]
  | |- context [if ?b then _ else _] => destruct b eqn:?
  | |- context [match ?x with _ => _ end] => destruct x eqn:?
  | |- reaches _ _ => first [assumption | solve [eauto 6 with conn]]
  end.
Ltac reach := intros; repeat (first [progress cbv zeta | reach1]).

Section Refinement.
Context {X : Type} {C : Crypto}.
Notation connection := (wt_quic_connection X).
Context (udp_send : list sent_datagram -> option wt_udp_address -> list Z -> wt_status).
Context (lost_handler : option (wt_quic_tx_frame -> connection -> connection)).
(** The layer above reaches what it reaches through the connection's operations. *)
Context (lost_reaches : forall h d c, lost_handler = Some h -> reaches c (h d c)).
Context (levels : nat).
Implicit Types c : connection.

(** ** Closing and keys *)

Lemma close_with_reaches c0 code type now c : reaches c0 c -> reaches c0 (close_with code type now c).2.
Proof. intros Hr. unfold close_with, wt_quic_connection_close. reach. Qed.

Lemma ensure_out_reaches c0 c : reaches c0 c -> reaches c0 (ensure_next_keys_out c).2.
Proof. unfold ensure_next_keys_out, on_key_update. reach. Qed.

Lemma ensure_in_reaches c0 c : reaches c0 c -> reaches c0 (ensure_next_keys_in c).2.
Proof. unfold ensure_next_keys_in, on_key_update. reach. Qed.
Hint Resolve close_with_reaches ensure_out_reaches ensure_in_reaches : conn.

Lemma initiate_reaches c0 now c : reaches c0 c -> reaches c0 (wt_quic_connection_initiate_key_update now c).2.
Proof.
  intros Hr. unfold wt_quic_connection_initiate_key_update, restart_encrypted, retain_keys_in, set_keys_in, set_keys_out, on_key_update. reach.
  all: apply ensure_in_reaches, ensure_out_reaches; reach.
Qed.

Lemma respond_reaches c0 now c : reaches c0 c -> reaches c0 (key_update_respond now c).2.
Proof. intros Hr. unfold key_update_respond, restart_encrypted, retain_keys_in, set_keys_in, set_keys_out, on_key_update. reach. Qed.
Hint Resolve initiate_reaches respond_reaches : conn.

(** ** Loss detection and what it calls *)

Lemma remove_reaches c0 i c : reaches c0 c -> reaches c0 (c <| cn_loss ::= (fun l => remove_packet l i) |>).
Proof. intros Hr. eapply reaches_step; [exact Hr|apply (step_remove _ i)|done]. Qed.

Lemma loss_time_reaches c0 t c : reaches c0 c -> reaches c0 (c <| cn_loss ::= (fun l => set_loss_time l t) |>).
Proof. intros Hr. eapply reaches_step; [exact Hr|apply (step_loss_time _ t)|done]. Qed.

Lemma lost_loop_reaches c0 visit gone :
  (forall p c, reaches c0 c -> reaches c0 (visit p c)) ->
  forall fuel i n c, reaches c0 c -> reaches c0 (lost_loop visit gone fuel i n c).2.
Proof.
  intros Hv. induction fuel as [|fuel IH]; intros i n c Hr; [done|]. cbn [lost_loop].
  destruct (ls_sent (cn_loss c) !! i) as [p|]; [|done]. destruct (negb (gone p)); apply IH; [done|]. by apply remove_reaches, Hv.
Qed.

Lemma detect_lost_reaches c0 visit space now la c :
  (forall p c, reaches c0 c -> reaches c0 (visit p c)) -> reaches c0 c -> reaches c0 (detect_lost visit space now la c).
Proof. intros Hv Hr. unfold detect_lost. cbv zeta. eapply loss_time_reaches. by apply lost_loop_reaches. Qed.

Lemma discard_space_reaches c0 visit space c :
  (forall p c, reaches c0 c -> reaches c0 (visit p c)) -> reaches c0 c -> reaches c0 (discard_space visit space c).
Proof.
  intros Hv Hr. unfold discard_space. cbv zeta. pose proof (lost_loop_reaches c0 visit (fun p => pk_space p =? space_index space) Hv lost_fuel 0 0 c Hr).
  destruct (0 <? _); [by apply loss_time_reaches|done].
Qed.

(** ** One packet out *)

Lemma assemble_size c space n pnl payload packet :
  assemble_packet c space n pnl payload = Ok packet ->
  zlen packet <= cf_max_datagram_size (cn_config c) /\
  (space = WT_QUIC_SPACE_INITIAL -> cf_role (cn_config c) = WT_QUIC_ROLE_CLIENT -> WT_QUIC_MIN_INITIAL_DATAGRAM_SIZE <= zlen packet).
Proof.
  unfold assemble_packet. destruct (wt_quic_packet_build _ _) as [first|]; [|done].
  destruct (bool_decide (space = WT_QUIC_SPACE_INITIAL) && bool_decide (cf_role (cn_config c) = WT_QUIC_ROLE_CLIENT) &&
            (zlen first <? WT_QUIC_MIN_INITIAL_DATAGRAM_SIZE)) eqn:E.
  - destruct (pad_loop _ _ _ _ _) as [padded|]; [|done]. destruct (Z.ltb_spec (zlen padded) WT_QUIC_MIN_INITIAL_DATAGRAM_SIZE); [done|].
    destruct (Z.ltb_spec (cf_max_datagram_size (cn_config c)) (zlen padded)); [done|]. intros [= <-]. done.
  - destruct (Z.ltb_spec (cf_max_datagram_size (cn_config c)) (zlen first)) as [|Hs]; [done|]. intros [= <-]. split; [done|]. intros -> Hc.
    rewrite Hc, !bool_decide_true in E by done. cbn in E. by apply Z.ltb_ge in E.
Qed.

Lemma protected_rv s n c : rv (packet_protected s n c) = rv c.
Proof.
  assert (forall st, numbering_of (st <| ss_aead_encrypted ::= incr |>) = numbering_of st) as H by done.
  unfold packet_protected. destruct (bool_decide (s = WT_QUIC_SPACE_APPLICATION)); exact (rv_on_space _ _ _ (H _)).
Qed.

(** Putting a packet on the wire and remembering it is one step. *)
Lemma sent_rv d tag now e c c2 :
  rv c2 = take (dg_space d) (rv c) ->
  rv (c2 <| cn_outbox ::= (fun o => o ++ [d]) |> <| cn_loss := (wt_quic_loss_on_sent (cn_loss c2) (remembered d tag now e)).2 |>) =
  emitted d tag now e (rv c).
Proof.
  intros H. unfold emitted. rewrite <- H. destruct (take_rest (dg_space d) (rv c)) as (_ & El & _). rewrite <- H in El. rewrite <- El. done.
Qed.

Lemma emit_reaches c0 space payload e tag now c :
  (length (ls_sent (cn_loss c)) < WT_QUIC_SENT_PACKETS_MAX)%nat ->
  reaches c0 c -> reaches c0 (emit_packet udp_send space payload e tag now c).2.
Proof.
  intros Hl Hr. unfold emit_packet. cbv zeta. set (s := ss_space (space_of c space)).
  destruct (wt_quic_congestion_can_send _ _) eqn:Eg; cbn [negb]; [|done].
  unfold wt_quic_pn_space_next. destruct (sp_has_sent s && _) eqn:Ef; [done|]. cbv iota.
  set (sp := mk_space _ _ _ _ _ _). set (c1 := on_space space _ c).
  assert (Hleft : numbers_left (rv_numbering (rv c) space) = true) by (rewrite rv_numbering_of; apply negb_true_iff; exact Ef).
  assert (Ht : rv c1 = take space (rv c)) by (apply rv_take; [done|by rewrite rv_numbering_of]).
  assert (Hr1 : reaches c0 c1) by (eapply reaches_step; [exact Hr|by apply step_take|done]).
  destruct (_ && rt_pending_keys _); [done|]. destruct (assemble_packet c1 _ _ _ _) as [packet|] eqn:Ea; [|done].
  destruct (assemble_size _ _ _ _ _ _ Ea) as [Hmax Hmin].
  set (c2 := packet_protected _ _ _). assert (rv c2 = rv c1) as E2 by apply protected_rv.
  assert (reaches c0 c2) by (unfold reaches; by rewrite E2). destruct (udp_send _ _ _); try done. upd_simpl.
  set (d := mk_datagram (cn_peer c2) packet space (sp_next_send s)).
  set (c3 := (c2 <| cn_outbox ::= _ |>) <| cn_loss := _ |>).
  assert (Hr3 : reaches c0 c3).
  { eapply reaches_step; [exact Hr|apply (step_emit (rv c) d tag now e)|apply (sent_rv d tag now e c c2); by rewrite E2, Ht]; try done.
    by rewrite rv_numbering_of. }
  destruct (bool_decide _); [|exact Hr3]. unfold packet_counted. reach.
Qed.

Lemma congestion_loss_reaches c0 sent now c :
  reaches c0 c -> reaches c0 (c <| cn_congestion ::= (fun g => (wt_quic_congestion_on_loss g sent now).2) |>).
Proof. intros Hr. eapply reaches_step; [exact Hr|apply (step_window_loss _ sent now)|done]. Qed.

Lemma alloc_reaches c0 s b i o l c : reaches c0 c -> reaches c0 (alloc_frame s b i o l c).2.
Proof. unfold alloc_frame. reach. Qed.

Lemma tag_reaches c0 slot c : reaches c0 c -> reaches c0 (tag_for_control slot c).2.
Proof.
  intros Hr. unfold tag_for_control. destruct (_ !! slot) as [k|]; [|done].
  pose proof (alloc_reaches c0 (kf_space k) false WT_QUIC_CONTROL_STREAM_ID (Z.of_nat slot) (zlen (kf_wire k)) c Hr) as H. by destruct (alloc_frame _ _ _ _ _ _) as [[] ?].
Qed.

Lemma free_reaches c0 tag c : reaches c0 c -> reaches c0 (free_frame tag c).
Proof. unfold free_frame, release_frame. reach. Qed.

Lemma alter_control_reaches c0 slot f c : reaches c0 c -> reaches c0 (alter_control slot f c).
Proof. unfold alter_control. reach. Qed.
Hint Resolve free_reaches tag_reaches alter_control_reaches alloc_reaches : conn.

Notation reaches_send send := (forall (c0 : connection) space payload e tag now c, reaches c0 c -> reaches c0 (send space payload e tag now c).2).

Lemma encoded_reaches send : reaches_send send -> reaches_send (send_encoded_with send).
Proof. intros Hs c0 space payload e tag now c Hr. unfold send_encoded_with. pose proof (Hs c0 space payload e tag now c Hr). reach. Qed.

Lemma on_lost_with_reaches resend : reaches_send resend ->
  forall (c0 : connection) p c, reaches c0 c -> reaches c0 (on_lost_with lost_handler resend p c).
Proof.
  intros Hs c0 p c Hr. unfold on_lost_with. cbv zeta. destruct (NO_TAG <=? _); [reach|].
  destruct (_ !! _) as [d|]; [|reach]. destruct (negb _); [reach|]. apply congestion_loss_reaches.
  set (c1 := release_frame _ _). assert (reaches c0 c1) by (unfold c1, release_frame; reach).
  destruct (_ =? WT_QUIC_CONTROL_STREAM_ID).
  - destruct (_ !! _) as [k|]; [|done]. destruct (kf_in_use k); [|done].
    pose proof (Hs c0 (kf_space k) (kf_wire k) true (tag_for_control (Z.to_nat (tf_offset d)) c1).1
      (cn_last_activity (tag_for_control (Z.to_nat (tf_offset d)) c1).2) _ (tag_reaches c0 (Z.to_nat (tf_offset d)) c1 ltac:(done))). reach.
  - destruct lost_handler as [h|] eqn:E; [|done]. eapply reaches_trans; [done|]. by apply lost_reaches.
Qed.

Lemma limit_checked_reaches c0 space now c :
  reaches c0 c ->
  match limit_checked space now c with (Some r, _) => reaches c0 r.2 | (None, c') => reaches c0 c' end.
Proof.
  intros Hr. unfold limit_checked. destruct (_ <=? _); [|done]. destruct (_ && _); [|by apply close_with_reaches].
  pose proof (initiate_reaches c0 now c Hr). cbv zeta. by destruct (bool_decide _).
Qed.

Lemma send_packet_reaches lv : forall depth, reaches_send (send_packet udp_send lost_handler lv depth).
Proof.
  induction lv as [|lv IH]; intros depth c0 space payload e tag now c Hr; cbn [send_packet].
  all: destruct (negb _); [done|]; destruct (_ && _); [done|]; destruct (_ <? _); [done|].
  all: pose proof (limit_checked_reaches c0 space now c Hr) as Hl; destruct (limit_checked space now c) as [[r|] c']; [done|].
  all: destruct (Nat.leb_spec WT_QUIC_SENT_PACKETS_MAX (length (ls_sent (cn_loss c')))); [|by apply emit_reaches].
  - cbn [snd]. reach.
  - set (c1 := c' <| cn_depth ::= _ |>). assert (reaches c0 c1) by (unfold c1; reach).
    set (c2 := detect_lost _ _ _ _ _).
    assert (reaches c0 c2) by (apply detect_lost_reaches; [|done]; intros p c''; apply on_lost_with_reaches, encoded_reaches, IH).
    destruct (Nat.leb_spec WT_QUIC_SENT_PACKETS_MAX (length (ls_sent (cn_loss c2)))); [done|]. by apply emit_reaches.
Qed.

Lemma send_encoded_reaches : reaches_send (send_encoded_frame udp_send lost_handler levels).
Proof. apply encoded_reaches, send_packet_reaches. Qed.

Lemma on_lost_reaches c0 p c : reaches c0 c -> reaches c0 (on_lost udp_send lost_handler levels p c).
Proof. apply on_lost_with_reaches, encoded_reaches, send_packet_reaches. Qed.
Hint Resolve send_encoded_reaches on_lost_reaches : conn.

(** ** Frames and flushes *)

Notation send_one := (send_one_frame udp_send lost_handler levels).
Notation send_control := (send_control_frame udp_send lost_handler levels).
Notation on_lost := (on_lost udp_send lost_handler levels).

Lemma send_one_reaches c0 space frame e d now c : reaches c0 c -> reaches c0 (send_one space frame e d now c).2.
Proof.
  intros Hr. unfold send_one_frame. cbv zeta. destruct (negb _); [done|]. destruct (frame_payload _ _); [|done].
  destruct d as [d|]; [|by apply send_encoded_reaches].
  pose proof (alloc_reaches c0 space (ds_is_crypto d) (ds_stream_id d) (ds_offset d) (ds_length d) c Hr) as Ha.
  destruct (alloc_frame _ _ _ _ _ _) as [[i|] c']; [by apply send_encoded_reaches|done].
Qed.
Hint Resolve send_one_reaches : conn.

Lemma send_control_reaches c0 space frame e now c : reaches c0 c -> reaches c0 (send_control space frame e now c).2.
Proof. intros Hr. unfold send_control_frame. reach. Qed.
Hint Resolve send_control_reaches : conn.

Lemma send_frame_reaches c0 space frame e now c :
  reaches c0 c -> reaches c0 (wt_quic_connection_send_frame udp_send lost_handler levels space frame e now c).2.
Proof. unfold wt_quic_connection_send_frame. reach. Qed.

Lemma send_crypto_reaches c0 space offset data now c :
  reaches c0 c -> reaches c0 (wt_quic_connection_send_crypto udp_send lost_handler levels space offset data now c).2.
Proof. unfold wt_quic_connection_send_crypto. reach. Qed.

Lemma resume_reaches c0 now c : reaches c0 c -> reaches c0 (resume_pending_control_frames udp_send lost_handler levels now c).
Proof.
  unfold resume_pending_control_frames. generalize (seq 0 WT_QUIC_CONTROL_FRAMES_MAX). intros l. revert c.
  induction l as [|slot l IH]; intros c Hr; [done|]. cbn [foldl]. apply IH. unfold resume_control_frame. reach.
Qed.

Lemma flush_space_reaches c0 space probe force now c :
  reaches c0 c -> reaches c0 (flush_space udp_send lost_handler levels space probe force now c).2.
Proof. intros Hr. unfold flush_space. reach. Qed.

Lemma flush_challenge_reaches c0 now c : reaches c0 c -> reaches c0 (flush_path_challenge udp_send lost_handler levels now c).2.
Proof. unfold flush_path_challenge. reach. Qed.

Lemma flush_close_reaches c0 now c : reaches c0 c -> reaches c0 (flush_close udp_send lost_handler levels now c).2.
Proof. unfold flush_close. reach. Qed.
Hint Resolve send_frame_reaches send_crypto_reaches resume_reaches flush_space_reaches flush_challenge_reaches flush_close_reaches : conn.

Lemma flush_reaches c0 now c : reaches c0 c -> reaches c0 (wt_quic_connection_flush udp_send lost_handler levels now c).2.
Proof. unfold wt_quic_connection_flush. reach. Qed.

(** ** Acknowledgements and timers *)

Lemma acknowledged_reaches c0 tag c : reaches c0 c -> reaches c0 (acknowledged_frame tag c).
Proof. unfold acknowledged_frame. reach. Qed.

Lemma ack_reaches c0 s n c : reaches c0 c -> reaches c0 (c <| cn_loss := (wt_quic_loss_on_ack (cn_loss c) s n).2 |>).
Proof. intros Hr. eapply reaches_step; [exact Hr|apply (step_ack _ s n)|done]. Qed.

Lemma congestion_ack_reaches c0 bytes sent c :
  reaches c0 c -> reaches c0 (c <| cn_congestion := (wt_quic_congestion_on_ack (cn_congestion c) bytes sent).2 |>).
Proof. intros Hr. eapply reaches_step; [exact Hr|apply (step_window_ack _ bytes sent)|done]. Qed.

Lemma congestion_same c0 c : reaches c0 c -> reaches c0 (c <| cn_congestion := cn_congestion c |>).
Proof. done. Qed.

Lemma ack_walk_reaches a space snapshot c0 : forall largest c, reaches c0 c -> reaches c0 (ack_walk a space snapshot largest c).2.
Proof.
  induction snapshot as [|p l IH]; intros largest c Hr; cbn [ack_walk]; [done|].
  destruct (negb (ack_covers _ _)); [by apply IH|]. pose proof (ack_reaches c0 (space_index space) (pk_number p) c Hr) as Ha.
  destruct (wt_quic_loss_on_ack _ _ _) as [[st newly] l'] eqn:E. cbn [snd] in Ha. destruct st; try exact Ha.
  destruct (negb newly); [by apply IH|]. upd_simpl.
  set (c1 := c <| cn_loss := l' |>) in *.
  assert (forall g, g = (wt_quic_congestion_on_ack (cn_congestion c1) (pk_size p) (pk_time_sent p)).2 \/ g = cn_congestion c1 ->
    reaches c0 (c1 <| cn_congestion := g |>)) as Hg.
  { intros g [-> | ->]; [by apply congestion_ack_reaches|by apply congestion_same]. }
  set (g := if pk_in_flight p then _ else _).
  assert (reaches c0 (c1 <| cn_congestion := g.2 |>)) as H2 by (apply Hg; unfold g; destruct (pk_in_flight p); auto).
  destruct (bool_decide _); [|exact H2]. apply IH, acknowledged_reaches, reaches_on_space; [done|exact H2].
Qed.

Lemma largest_reaches c0 a space n t now c : reaches c0 c -> reaches c0 (largest_acknowledged a space n t now c).2.
Proof.
  intros Hr. unfold largest_acknowledged. cbv zeta. set (c1 := on_space _ _ c). assert (reaches c0 c1) by (unfold c1; reach).
  destruct (negb _); [done|]. set (c2 := on_space _ _ c1).
  assert (reaches c0 c2).
  { unfold reaches, c2. rewrite rv_on_space; [done|]. unfold wt_quic_pn_space_on_ack, numbering_of. upd_simpl. by destruct (_ && _). }
  destruct (negb _); [done|]. reach.
Qed.

Lemma handle_ack_reaches c0 space a now c : reaches c0 c -> reaches c0 (handle_ack udp_send lost_handler levels space a now c).2.
Proof.
  intros Hr. unfold handle_ack. cbv zeta. destruct (negb _); [by apply close_with_reaches|]. destruct (_ || _); [by apply close_with_reaches|].
  pose proof (ack_walk_reaches a space (ls_sent (cn_loss c)) c0 None c Hr) as Hw. destruct (ack_walk _ _ _ _ _) as [[st largest] c'].
  destruct st; try exact Hw. apply on_ok_inv; [|intros; apply detect_lost_reaches; [|done]; intros; by apply on_lost_reaches].
  destruct largest as [[]|]; [by apply largest_reaches|done].
Qed.
Hint Resolve flush_reaches handle_ack_reaches : conn.

Context (random_bytes : Z -> Z -> outcome (list Z)).

Lemma arm_reaches c0 c : reaches c0 c -> reaches c0 (arm_path_challenge random_bytes c).2.
Proof. unfold arm_path_challenge. reach. Qed.
Hint Resolve arm_reaches : conn.

Lemma path_timeout_reaches c0 now c :
  reaches c0 c -> reaches c0 (path_validation_on_timeout udp_send lost_handler random_bytes levels now c).2.
Proof.
  unfold path_validation_on_timeout. reach.
Qed.

Lemma validate_path_reaches c0 now c :
  reaches c0 c -> reaches c0 (wt_quic_connection_validate_path udp_send lost_handler random_bytes levels now c).2.
Proof. unfold wt_quic_connection_validate_path. reach. Qed.

Lemma loss_timers_reaches c0 now c : reaches c0 c -> reaches c0 (loss_timers udp_send lost_handler levels now c).
Proof.
  unfold loss_timers. generalize all_spaces. intros l. revert c. induction l as [|s l IH]; intros c Hr; [done|]. cbn [foldl]. apply IH. cbv zeta.
  destruct (_ && _); [|done]. apply detect_lost_reaches; [|done]. intros p c' ?. by apply on_lost_reaches.
Qed.

Lemma ack_timers_reaches c0 now l : forall c, reaches c0 c -> reaches c0 (ack_timers udp_send lost_handler levels now l c).2.
Proof.
  induction l as [|s l IH]; intros c Hr; cbn [ack_timers]; [done|]. destruct (_ && _); [|by apply IH].
  apply on_ok_inv; [by apply flush_space_reaches|]. intros; by apply IH.
Qed.

Lemma pto_reaches c0 c : reaches c0 c -> reaches c0 (c <| cn_loss ::= wt_quic_loss_on_pto |>).
Proof. intros Hr. eapply reaches_step; [exact Hr|apply step_pto|done]. Qed.

Lemma send_probe_reaches c0 space now c : reaches c0 c -> reaches c0 (send_probe udp_send lost_handler levels space now c).2.
Proof.
  intros Hr. unfold send_probe. cbv zeta. apply flush_space_reaches, pto_reaches. destruct (oldest_described c space) as [p|]; [|reach].
  set (c1 := on_counters _ _). assert (reaches c0 c1) by (unfold c1; reach). destruct lost_handler as [h|] eqn:E; [|done].
  destruct (_ !! _) as [d|]; [|done]. eapply reaches_trans; [done|]. by apply lost_reaches.
Qed.

Lemma on_timeout_reaches c0 now c :
  reaches c0 c -> reaches c0 (wt_quic_connection_on_timeout udp_send lost_handler random_bytes levels now c).2.
Proof.
  intros Hr. unfold wt_quic_connection_on_timeout. destruct (wt_quic_close_is_closed _); [done|]. destruct (_ && _); [reach|].
  apply on_ok_inv; [by apply ack_timers_reaches, loss_timers_reaches|]. intros c1 H1. apply on_ok_inv; [by apply path_timeout_reaches|].
  intros c2 H2. destruct (probe_space now c2); [by apply send_probe_reaches|done].
Qed.

(** ** Streams and connection IDs *)

Lemma ensure_stream_reaches c0 id type now c : reaches c0 c -> reaches c0 (ensure_peer_stream id type now c).2.
Proof. unfold ensure_peer_stream, on_stream. reach. Qed.

Lemma reset_with_reaches c0 id code frame now s c : reaches c0 c -> reaches c0 (reset_with udp_send lost_handler levels id code frame now s c).2.
Proof. intros Hr. unfold reset_with, on_stream. cbv zeta. destruct (bool_decide _); [apply send_control_reaches|]; reach. Qed.

Lemma adopt_reaches c0 id c : reaches c0 c -> reaches c0 (adopt_peer_connection_id id c).
Proof. unfold adopt_peer_connection_id. reach. Qed.

Lemma adopt_stored_reaches c0 slot c : reaches c0 c -> reaches c0 (adopt_stored_peer_id slot c).
Proof. intros. unfold adopt_stored_peer_id. destruct (_ !! slot) as [[e|]|]; [|done..]. apply reaches_upd; [done|by apply adopt_reaches]. Qed.
Hint Resolve ensure_stream_reaches reset_with_reaches adopt_reaches adopt_stored_reaches : conn.

Lemma forget_reaches c0 sequence now c :
  reaches c0 c -> reaches c0 (forget_peer_connection_id udp_send lost_handler levels sequence now c).2.
Proof. intros Hr. unfold forget_peer_connection_id, send_retire_connection_id. reach. Qed.
Hint Resolve forget_reaches : conn.

Lemma retire_below_reaches c0 rounds bound now : forall c,
  reaches c0 c -> reaches c0 (retire_below udp_send lost_handler levels rounds bound now c).2.
Proof.
  induction rounds as [|n IH]; intros c Hr; cbn [retire_below]; [done|]. destruct (first_index _ _); [|done]. cbv zeta.
  apply on_ok_inv; [by apply forget_reaches|]. intros; by apply IH.
Qed.

Lemma handle_new_id_reaches c0 sequence prior id token now c :
  reaches c0 c -> reaches c0 (handle_new_connection_id udp_send lost_handler levels sequence prior id token now c).2.
Proof.
  intros Hr. unfold handle_new_connection_id. reach. all: apply retire_below_reaches; reach.
Qed.
Hint Resolve handle_new_id_reaches : conn.

Lemma on_retry_reaches c0 packet c : reaches c0 c -> reaches c0 (on_retry_packet udp_send lost_handler levels packet c).2.
Proof.
  intros Hr. unfold on_retry_packet, discard_retry. cbv zeta. destruct (_ || _); [reach|]. destruct (wt_quic_retry_packet_decode packet); [|reach].
  destruct (negb _); [reach|]. apply discard_space_reaches; [intros; by apply on_lost_reaches|].
  apply reaches_upd; [done|]. apply adopt_reaches. reach.
Qed.
Hint Resolve on_retry_reaches : conn.

(** ** Receiving *)

Context (handler : option (wt_quic_space -> wt_quic_frame -> connection -> wt_status * connection)).
Context (handler_reaches : forall h space frame c, handler = Some h -> reaches c (h space frame c).2).

Lemma deliver_reaches c0 space now frame c : reaches c0 c -> reaches c0 (deliver_to_handler handler space now frame c).2.
Proof.
  intros Hr. unfold deliver_to_handler. cbv zeta. destruct handler as [h|] eqn:E; [|reach].
  set (c1 := on_counters _ c). assert (reaches c0 (h space frame c1).2) as H.
  { eapply reaches_trans; [|by apply handler_reaches]. unfold c1. reach. }
  destruct (bool_decide _); [exact H|]. reach.
Qed.
Hint Resolve deliver_reaches : conn.

Lemma extend_reaches c0 id now c :
  reaches c0 c -> reaches c0 (extend_stream udp_send lost_handler levels id now (extend_connection udp_send lost_handler levels now c)).
Proof.
  intros Hr. assert (reaches c0 (extend_connection udp_send lost_handler levels now c)) as H by (unfold extend_connection; reach).
  unfold extend_stream. cbv zeta. destruct (wt_quic_connection_stream _ _); [|done]. destruct (wt_quic_stream_should_extend _); [|done].
  unfold on_stream. reach.
Qed.

Lemma stream_answer_reaches c0 id r code type now c :
  reaches c0 c -> match stream_answer id r code type now c with (Some q, _) => reaches c0 q.2 | (None, c') => reaches c0 c' end.
Proof.
  intros Hr. unfold stream_answer, on_stream. cbv zeta. set (c1 := c <| cn_streams ::= _ |>). assert (reaches c0 c1) by (unfold c1; reach).
  destruct (bool_decide _); [done|by apply close_with_reaches].
Qed.

Lemma apply_stream_reaches c0 frame now s c :
  reaches c0 c ->
  match apply_stream_frame udp_send lost_handler levels frame now s c with (Some q, _) => reaches c0 q.2 | (None, c') => reaches c0 c' end.
Proof.
  intros Hr. unfold apply_stream_frame. cbv zeta. destruct frame; try exact Hr; try (by apply stream_answer_reaches).
  unfold on_stream. set (c1 := _ <| cn_flow := _ |>). assert (reaches c0 c1) by (unfold c1; reach).
  destruct (bool_decide _); [by apply extend_reaches|by apply close_with_reaches].
Qed.

Lemma handle_stream_reaches c0 space now id frame c :
  reaches c0 c -> reaches c0 (handle_stream_frame udp_send lost_handler handler levels space now id frame c).2.
Proof.
  intros Hr. unfold handle_stream_frame. apply on_ok_inv; [by apply ensure_stream_reaches|]. intros c1 H1.
  destruct (wt_quic_connection_stream c1 id) as [s|]; [|by apply deliver_reaches].
  pose proof (apply_stream_reaches c0 frame now s c1 H1) as Ha. destruct (apply_stream_frame _ _ _ _ _ _ _) as [[r|] c2]; [done|by apply deliver_reaches].
Qed.
Hint Resolve handle_stream_reaches : conn.

Lemma visit_reaches c0 space now sequence v frame :
  reaches c0 v.2 -> reaches c0 (visit_frame udp_send lost_handler handler levels space now sequence v frame).2.2.
Proof.
  intros Hr. unfold visit_frame. cbv zeta. set (c1 := match frame with FRAME_STREAM _ => _ | _ => _ end).
  assert (reaches c0 c1) as H1 by (unfold c1; destruct frame; reach). clearbody c1.
  destruct (_ && _); [done|]. destruct (frame_forbidden_in_space _ _); [by apply close_with_reaches|]. cbn [snd].
  unfold handle_connection_close, handle_max_data, handle_max_streams, handle_path_challenge, handle_path_response, handle_retire_connection_id.
  destruct frame; cbv zeta; reach.
Qed.

Lemma frames_loop_preserves {Ctx} (P : Ctx -> Prop) v fuel :
  (forall x f, P x -> P (v x f).2) -> forall cur x r, P x -> frames_loop (Some v) fuel cur x = Some r -> P r.2.
Proof.
  intros Hv. induction fuel as [|fuel IH]; intros cur x r Hx; cbn [frames_loop]; destruct (0 <? _); try (by intros [= <-]).
  destruct (wt_quic_frame_decode cur) as [[f|] cur']; [|by intros [= <-]]. specialize (Hv x f Hx).
  destruct (v x f) as [[] x']; try (by intros [= <-]). by apply IH.
Qed.

Lemma process_reaches c0 space payload now sequence c :
  reaches c0 c -> reaches c0 (process_packet udp_send lost_handler handler levels space payload now sequence c).2.
Proof.
  intros Hr. unfold process_packet. destruct (wt_quic_frames_decode _ _ _ _) as [[[st e] [el c1]]|] eqn:E; [|done].
  unfold wt_quic_frames_decode in E.
  pose proof (frames_loop_preserves (fun x : bool * connection => reaches c0 x.2) _ _ (fun x f => visit_reaches c0 space now sequence x f) _ (false, c) _ Hr E) as H1.
  cbn [snd] in H1. destruct st; cbv zeta; reach.
Qed.

Lemma open_next_reaches c0 packet total lr has now c : reaches c0 c -> reaches c0 (open_next_phase packet total lr has now c).2.
Proof.
  intros Hr. unfold open_next_phase. cbv zeta. pose proof (ensure_in_reaches c0 c Hr) as He. destruct (ensure_next_keys_in c) as [st c1]. cbn [snd] in He.
  destruct st; try exact He. reach.
Qed.

Lemma open_reaches c0 space packet now c : reaches c0 c -> reaches c0 (open_in_space space packet now c).2.
Proof.
  intros Hr. unfold open_in_space. cbv zeta. destruct (bool_decide _); [|done]. unfold read_application_packet. cbv zeta.
  destruct (wt_quic_packet_unprotect_header _ _ _) as [[[[[pk po] tl] pl] sh]|]; [|done]. destruct (eqb _ _).
  - destruct (wt_quic_packet_open _ _ _ _ _); [|done]. reach.
  - destruct (_ && _); [by destruct (ku_previous_keys_in_ready _)|]. by apply open_next_reaches.
Qed.

Lemma accept_reaches c0 space p sequence now c :
  reaches c0 c -> reaches c0 (accept_packet udp_send lost_handler handler levels space p sequence now c).2.
Proof.
  intros Hr. unfold accept_packet. cbv zeta. assert (reaches c0 (note_peer_source p c)) as Hn by (unfold note_peer_source; reach).
  pose proof (process_reaches c0 space (rx_payload p) now sequence _ Hn) as Hp. destruct (process_packet _ _ _ _ _ _ _ _ _) as [[st el] c1]. cbn [fst snd] in *.
  destruct (negb _); [done|]. unfold packet_processed, wt_quic_connection_discard_keys. reach.
Qed.

Lemma forged_reaches c0 now c : reaches c0 c -> reaches c0 (forged_packet now c).2.
Proof. unfold forged_packet, discard_packet. reach. Qed.

Lemma packets_loop_reaches c0 n now fuel : forall datagram c,
  reaches c0 c -> reaches c0 (packets_loop udp_send lost_handler handler levels fuel datagram n now c).2.
Proof.
  induction fuel as [|fuel IH]; intros datagram c Hr; cbn [packets_loop]; [by destruct (_ =? _)|]. destruct (_ =? 0); [done|].
  unfold discard_packet. destruct (route_packet _ _) as [[space| |]|]; [|by apply on_retry_reaches|reach|done].
  destruct (_ && _); [reach|]. destruct (negb _); [reach|]. pose proof (open_reaches c0 space datagram now c Hr) as Ho.
  destruct (open_in_space _ _ _ _) as [[p|st e] c1]; cbn [snd] in Ho; [|destruct st; first [exact Ho|by apply forged_reaches|reach]].
  destruct (local_connection_id_sequence _ _) as [sequence|]; [|reach]. apply on_ok_inv; [by apply accept_reaches|].
  intros c2 H2. destruct (_ || _); [done|by apply IH].
Qed.

Lemma receive_reaches c0 arrival now c :
  reaches c0 c -> reaches c0 (wt_quic_connection_receive udp_send lost_handler handler levels arrival now c).2.
Proof.
  intros Hr. unfold wt_quic_connection_receive. destruct (negb _); [done|]. destruct arrival as [[from d]|]; [|done].
  unfold discard_packet. destruct (cn_peer c) as [peer|]; [destruct (negb _); [reach|]|]; cbv zeta.
  all: destruct (_ =? 0); [reach|]; apply packets_loop_reaches; reach.
Qed.
Hint Resolve receive_reaches on_timeout_reaches validate_path_reaches : conn.

(** ** The operations *)

(** A call of the connection's interface, with what its environment supplies. *)
Inductive connection_event :=
  | EvAttach (peer : option wt_udp_address)
  | EvSetKeys (space : wt_quic_space) (inbound : bool) (keys : wt_quic_packet_keys)
  | EvDiscardKeys (space : wt_quic_space)
  | EvClear
  | EvOriginalDestination (id : list Z)
  | EvPeerParameters (data : list Z)
  | EvHandshakeConfirmed
  | EvRetryKeysInstalled
  | EvClose (code frame_type : Z) (reason : list Z) (now : Z)
  | EvRefuseApplication (code frame_type : Z)
  | EvKeyUpdate (now : Z)
  | EvSendFrame (space : wt_quic_space) (frame : wt_quic_frame) (ack_eliciting : bool) (now : Z)
  | EvSendCrypto (space : wt_quic_space) (offset : Z) (data : list Z) (now : Z)
  | EvFlush (now : Z)
  | EvTimeout (now : Z)
  | EvReceive (arrival : outcome (wt_udp_address * list Z)) (now : Z)
  | EvValidatePath (now : Z)
  | EvSetMaxData (maximum : Z)
  | EvSendMaxData (maximum now : Z)
  | EvSetMaxStreams (d : wt_quic_stream_direction) (maximum : Z)
  | EvSendMaxStreams (d : wt_quic_stream_direction) (maximum now : Z)
  | EvOpenStream (bidi : bool)
  | EvSendStream (id offset : Z) (data : list Z) (fin : bool) (now : Z)
  | EvStopSending (id code now : Z)
  | EvResetStream (id code now : Z)
  | EvResetStreamAt (id code reliable now : Z)
  | EvSendDatagram (data : list Z) (now : Z)
  | EvOnDatagram (data : list Z) (now : Z)
  | EvReceiveDatagram (capacity : Z)
  | EvUseNewId (now : Z)
  | EvRetirePeerId (sequence now : Z)
  | EvIssueId (id token : list Z) (now : Z).

Definition connection_step (ev : connection_event) (c : connection) : connection :=
  match ev with
  | EvAttach peer => (wt_quic_connection_attach peer c).2
  | EvSetKeys space inbound keys => (wt_quic_connection_set_keys space inbound keys c).2
  | EvDiscardKeys space => (wt_quic_connection_discard_keys space c).2
  | EvClear => wt_quic_connection_clear c
  | EvOriginalDestination id => (wt_quic_connection_set_original_destination_id id c).2
  | EvPeerParameters data => (wt_quic_connection_set_peer_parameters data c).2
  | EvHandshakeConfirmed => c <| cn_handshake_confirmed := true |>
  | EvRetryKeysInstalled => wt_quic_connection_retry_keys_installed c
  | EvClose code frame_type reason now => (wt_quic_connection_close code frame_type reason now c).2
  | EvRefuseApplication code frame_type => wt_quic_connection_refuse_application code frame_type c
  | EvKeyUpdate now => (wt_quic_connection_initiate_key_update now c).2
  | EvSendFrame space frame e now => (wt_quic_connection_send_frame udp_send lost_handler levels space frame e now c).2
  | EvSendCrypto space offset data now => (wt_quic_connection_send_crypto udp_send lost_handler levels space offset data now c).2
  | EvFlush now => (wt_quic_connection_flush udp_send lost_handler levels now c).2
  | EvTimeout now => (wt_quic_connection_on_timeout udp_send lost_handler random_bytes levels now c).2
  | EvReceive arrival now => (wt_quic_connection_receive udp_send lost_handler handler levels arrival now c).2
  | EvValidatePath now => (wt_quic_connection_validate_path udp_send lost_handler random_bytes levels now c).2
  | EvSetMaxData maximum => (wt_quic_connection_set_max_data maximum c).2
  | EvSendMaxData maximum now => (wt_quic_connection_send_max_data udp_send lost_handler levels maximum now c).2
  | EvSetMaxStreams d maximum => (wt_quic_connection_set_max_streams d maximum c).2
  | EvSendMaxStreams d maximum now => (wt_quic_connection_send_max_streams udp_send lost_handler levels d maximum now c).2
  | EvOpenStream bidi => (wt_quic_connection_open_stream bidi c).2
  | EvSendStream id offset data fin now => (wt_quic_connection_send_stream udp_send lost_handler levels id offset data fin now c).2
  | EvStopSending id code now => (wt_quic_connection_stop_sending udp_send lost_handler levels id code now c).2
  | EvResetStream id code now => (wt_quic_connection_reset_stream udp_send lost_handler levels id code now c).2
  | EvResetStreamAt id code reliable now => (wt_quic_connection_reset_stream_at udp_send lost_handler levels id code reliable now c).2
  | EvSendDatagram data now => (wt_quic_connection_send_datagram udp_send lost_handler levels data now c).2
  | EvOnDatagram data now => (wt_quic_connection_on_datagram data now c).2
  | EvReceiveDatagram capacity => (wt_quic_connection_receive_datagram capacity c).2
  | EvUseNewId now => (wt_quic_connection_use_new_connection_id udp_send lost_handler levels now c).2
  | EvRetirePeerId sequence now => (wt_quic_connection_retire_peer_connection_id udp_send lost_handler levels sequence now c).2
  | EvIssueId id token now => (wt_quic_connection_issue_connection_id udp_send lost_handler levels id token now c).2
  end.

Lemma clear_reaches c0 c : reaches c0 c -> reaches c0 (wt_quic_connection_clear c).
Proof. intros Hr. unfold wt_quic_connection_clear. exact Hr. Qed.

Lemma parameters_reaches c0 data c : reaches c0 c -> reaches c0 (wt_quic_connection_set_peer_parameters data c).2.
Proof. unfold wt_quic_connection_set_peer_parameters, check_client_ids. reach. Qed.

Lemma control_ops_reaches c0 c : reaches c0 c ->
  (forall maximum now, reaches c0 (wt_quic_connection_send_max_data udp_send lost_handler levels maximum now c).2) /\
  (forall d maximum now, reaches c0 (wt_quic_connection_send_max_streams udp_send lost_handler levels d maximum now c).2) /\
  (forall id token now, reaches c0 (wt_quic_connection_issue_connection_id udp_send lost_handler levels id token now c).2) /\
  (forall now, reaches c0 (wt_quic_connection_use_new_connection_id udp_send lost_handler levels now c).2) /\
  (forall sequence now, reaches c0 (wt_quic_connection_retire_peer_connection_id udp_send lost_handler levels sequence now c).2).
Proof.
  intros Hr. unfold wt_quic_connection_send_max_data, wt_quic_connection_send_max_streams, wt_quic_connection_issue_connection_id,
    wt_quic_connection_use_new_connection_id, wt_quic_connection_retire_peer_connection_id, put_max_streams. split_and!; reach.
Qed.

Lemma stream_ops_reaches c0 c : reaches c0 c ->
  (forall bidi, reaches c0 (wt_quic_connection_open_stream bidi c).2) /\
  (forall id offset data fin now, reaches c0 (wt_quic_connection_send_stream udp_send lost_handler levels id offset data fin now c).2) /\
  (forall id code now, reaches c0 (wt_quic_connection_stop_sending udp_send lost_handler levels id code now c).2) /\
  (forall id code now, reaches c0 (wt_quic_connection_reset_stream udp_send lost_handler levels id code now c).2) /\
  (forall id code size now, reaches c0 (wt_quic_connection_reset_stream_at udp_send lost_handler levels id code size now c).2) /\
  (forall data now, reaches c0 (wt_quic_connection_send_datagram udp_send lost_handler levels data now c).2).
Proof.
  intros Hr. unfold wt_quic_connection_open_stream, wt_quic_connection_send_stream, wt_quic_connection_stop_sending,
    wt_quic_connection_reset_stream, wt_quic_connection_reset_stream_at, wt_quic_connection_send_datagram, on_stream. split_and!; reach.
Qed.

Lemma step_reaches ev c0 c : reaches c0 c -> reaches c0 (connection_step ev c).
Proof.
  intros Hr. destruct (control_ops_reaches c0 c Hr) as (?&?&?&?&?). destruct (stream_ops_reaches c0 c Hr) as (?&?&?&?&?&?).
  destruct ev; cbn [connection_step]; auto using close_with_reaches, clear_reaches, parameters_reaches, initiate_reaches with conn.
  all: unfold wt_quic_connection_attach, wt_quic_connection_set_keys, wt_quic_connection_discard_keys, wt_quic_connection_set_original_destination_id,
    wt_quic_connection_retry_keys_installed, wt_quic_connection_refuse_application, wt_quic_connection_set_max_data,
    wt_quic_connection_set_max_streams, wt_quic_connection_on_datagram, wt_quic_connection_receive_datagram, mark_max_streams, put_max_streams.
  all: try reach. 2: unfold wt_quic_connection_close; reach.
  destruct inbound; reach.
Qed.

(** C6. Each of the 32 public operations of a connection, whatever the peer sends and
    whatever the socket, the AEAD and the random source answer, is a sequence of the steps
    of an abstract loss recovery: a number is taken and never used; a packet goes out under
    the next number of its space, with room in the congestion window and in the list that
    has to remember it, within the path limit; a packet leaves the list; a timer or the
    window changes as loss.c and congestion.c say. The handler of the layer above may call
    the connection back as it likes, as long as it does so through such steps. *)
Theorem connection_refines_recovery ev c : rtc recovery_step (rv c) (rv (connection_step ev c)).
Proof. apply step_reaches, reaches_refl. Qed.

Lemma run_reaches evs : forall c, reaches c (foldl (fun c ev => connection_step ev c) c evs).
Proof.
  induction evs as [|ev evs IH]; intros c; [apply reaches_refl|]. cbn [foldl]. eapply reaches_trans; [|apply IH]. apply step_reaches, reaches_refl.
Qed.

Lemma init_recovery_inv config context c :
  wt_quic_connection_init config context = (WT_OK, Some c) -> cf_max_datagram_size config < 2 ^ 32 -> recovery_inv (rv c).
Proof.
  unfold wt_quic_connection_init. destruct (_ || _); [done|]. destruct (_ <? _); [done|]. intros [= <-] Hs.
  split; cbn; try done; [apply loss_init_inv|by intros []|constructor].
Qed.

Lemma recovery_steps_config r r' : rtc recovery_step r r' -> rv_config r' = rv_config r.
Proof.
  induction 1 as [|x y z Hs _ ->]; [done|]. destruct Hs as [r0 space|r0 d| | | | | |]; try done; unfold emitted; upd_simpl.
  - by destruct (take_rest space r0) as (-> & _).
  - by destruct (take_rest (dg_space d) r0) as (-> & _).
Qed.

(** C7. From initialisation, over any sequence of calls, arrivals and timeouts: no packet
    number of a space is ever used for two datagrams, every datagram is within the
    configured maximum and a client's Initial datagram has at least 1200 bytes, every packet
    held in flight is one that went out with that space, number and size, and the accounts
    of loss recovery balance. *)
Theorem connection_wire_invariant config context c evs :
  wt_quic_connection_init config context = (WT_OK, Some c) -> cf_max_datagram_size config < 2 ^ 32 ->
  let c' := foldl (fun c ev => connection_step ev c) c evs in
  numbered (cn_outbox c') /\ Forall (within_path config) (cn_outbox c') /\
  Forall (went_out (cn_outbox c')) (ls_sent (cn_loss c')) /\ loss_inv (cn_loss c').
Proof.
  intros Hi Hs c'. pose proof (run_reaches evs c) as Hr. pose proof (init_recovery_inv config context c Hi Hs) as H0.
  assert (cn_config c' = config) as Ec.
  { transitivity (cn_config c); [exact (recovery_steps_config _ _ Hr)|]. revert Hi. unfold wt_quic_connection_init.
    destruct (_ || _); [done|]. destruct (_ <? _); [done|]. by intros [= <-]. }
  destruct (recovery_steps_inv _ _ Hr H0) as [_ H2 _ _ H5 H6 H7]. rewrite <- Ec. done.
Qed.
End Refinement.

(** ** At the sample connection *)

Lemma sample_lost_reaches h d c : Some sample_lost = Some h -> reaches c (h d c).
Proof. intros [= <-]. apply send_one_reaches; [done|apply reaches_refl]. Qed.

Lemma sample_handler_reaches h space frame c : Some sample_handler = Some h -> reaches c (h space frame c).2.
Proof. intros [= <-]. unfold sample_handler. apply reaches_upd; [done|apply reaches_refl]. Qed.

Lemma connection_refines_recovery_witness :
  let ev := EvSendStream 0 0 [10; 11; 12] true 1000 in
  let c := connection_step sample_socket (Some sample_lost) 2 sample_random (Some sample_handler) ev sample_client in
  rtc recovery_step (rv sample_client) (rv c) /\ length (cn_outbox c) = 1%nat.
Proof.
  split; [|by vm_compute].
  exact (connection_refines_recovery sample_socket (Some sample_lost) sample_lost_reaches 2 sample_random (Some sample_handler)
    sample_handler_reaches (EvSendStream 0 0 [10; 11; 12] true 1000) sample_client).
Defined.

(** A client that gets its keys, sends a CRYPTO frame and hears nothing until its timer. *)
Definition sample_run : list connection_event :=
  [EvAttach (Some (sample_address 1)); EvSetKeys WT_QUIC_SPACE_INITIAL false (sample_keys 1);
   EvSendCrypto WT_QUIC_SPACE_INITIAL 0 [1; 2; 3] 1000; EvTimeout 2000000; EvFlush 2000000].

Lemma connection_wire_invariant_witness :
  let c := foldl (fun c ev => connection_step sample_socket (Some sample_lost) 2 sample_random (Some sample_handler) ev c)
             (fresh WT_QUIC_ROLE_CLIENT [1; 2; 3; 4] [5; 6; 7; 8]) sample_run in
  numbered (cn_outbox c) /\ (dg_number <$> cn_outbox c) = [0; 1] /\ ((fun d => zlen (dg_bytes d)) <$> cn_outbox c) = [1200; 1200].
Proof.
  split; [|by vm_compute].
  refine (proj1 (connection_wire_invariant sample_socket (Some sample_lost) sample_lost_reaches 2 sample_random (Some sample_handler)
    sample_handler_reaches (sample_config WT_QUIC_ROLE_CLIENT [1; 2; 3; 4] [5; 6; 7; 8]) []
    (fresh WT_QUIC_ROLE_CLIENT [1; 2; 3; 4] [5; 6; 7; 8]) sample_run _ _)); [|by vm_compute].
  by vm_compute.
Defined.
