(* ===== verification/ConnectionDelivery.v ===== *)
(** What one end of a connection sends, the other end reads: a frame that
    [send_one_frame] puts on the wire is opened by a peer that holds the keys, and
    the peer's visitor is told of that frame and of nothing else but PADDING.
    Before that, what a send answers is what happened: either one packet went out
    and is remembered, or nothing did. *)

From S2P Require Import Prelude Core Writer Crypto Packet PacketNumber Protection PacketIo Connection ConnectionKeys ConnectionSend.
From S2P Require Import ConnectionLoss ConnectionStream ConnectionRetry ConnectionReceive ConnectionSample Recovery ConnectionRefinement.

(** ** Nothing is half sent *)

Section Sent.
Context {X : Type} {C : Crypto}.
Notation connection := (wt_quic_connection X).
Context (udp_send : list sent_datagram -> option wt_udp_address -> list Z -> wt_status).
Context (lost_handler : option (wt_quic_tx_frame -> connection -> connection)).
Implicit Types c : connection.

Definition untouched (c c' : connection) : Prop := cn_outbox c' = cn_outbox c /\ cn_loss c' = cn_loss c.

(** One packet more is on the wire and in flight, with the number its space had next. *)
Definition one_more (space : wt_quic_space) (tag now : Z) (ack_eliciting : bool) (c c' : connection) : Prop :=
  exists packet, let d := mk_datagram (cn_peer c) packet space (sp_next_send (ss_space (space_of c space))) in
  cn_outbox c' = cn_outbox c ++ [d] /\ ls_sent (cn_loss c') = ls_sent (cn_loss c) ++ [remembered d tag now ack_eliciting].

(** What fails does not say that it succeeded. *)
Lemma sample_fails o p s e : wt_quic_header_protection_sample o p = Fail s e -> s <> WT_OK.
Proof. unfold wt_quic_header_protection_sample. repeat case_match; intros; simplify_eq; done. Qed.

Lemma mask_fails {L : CryptoLaws C} a hp sample s e : wt_quic_header_protection_mask a hp sample = Fail s e -> s <> WT_OK.
Proof.
  unfold wt_quic_header_protection_mask. destruct (_ <? _); [intros; by simplify_eq|]. destruct a; [|apply chacha_fail].
  destruct (aes128_ecb_encrypt_block _ _) eqn:E; [done|]. intros [= <- _]. by eapply aes_fail.
Qed.

Lemma protect_header_fails {L : CryptoLaws C} a hp packet o n s e : wt_quic_protect_header a hp packet o n = Fail s e -> s <> WT_OK.
Proof.
  unfold wt_quic_protect_header. destruct (_ || _); [intros; by simplify_eq|]. destruct (_ <=? _); [intros; by simplify_eq|]. destruct (_ <? _); [intros; by simplify_eq|].
  destruct (wt_quic_header_protection_sample _ _) eqn:E; [|intros [= <- _]; by eapply sample_fails].
  destruct (wt_quic_header_protection_mask _ _ _) eqn:Em; [done|]. intros [= <- _]. by eapply mask_fails.
Qed.

Lemma protect_frames_fails {L : CryptoLaws C} k n aad frames room s e : wt_quic_protect_frames k n aad frames room = Fail s e -> s <> WT_OK.
Proof.
  unfold wt_quic_protect_frames. destruct (_ || _); [intros; by simplify_eq|]. destruct (aead_seal _ _ _ _ _) as [[]|] eqn:E; [done|]. intros [= <- _]. by eapply seal_fail.
Qed.

Lemma build_fails {L : CryptoLaws C} p out s e : wt_quic_packet_build p out = Fail s e -> s <> WT_OK.
Proof.
  unfold wt_quic_packet_build. cbv zeta. destruct (_ || _); [intros; by simplify_eq|].
  destruct (padded_payload _ _) as [plain|] eqn:E; [|intros [= <- <-]; unfold padded_payload in E; cbv zeta in E; repeat case_match; by simplify_eq].
  destruct (_ <? _); [intros; by simplify_eq|]. destruct (_ <? _); [intros; by simplify_eq|]. destruct (encode_header _ _ _) as [[] w]; try (intros; by simplify_eq).
  destruct (_ <? _); [intros; by simplify_eq|]. destruct (wt_quic_protect_frames _ _ _ _ _) eqn:Ef; [apply protect_header_fails|].
  intros [= <- _]. by eapply protect_frames_fails.
Qed.

Lemma pad_loop_fails {L : CryptoLaws C} build passes :
  (forall l s e, build l = Fail s e -> s <> WT_OK) ->
  forall payload padding packet s e, pad_loop build passes payload padding packet = Fail s e -> s <> WT_OK.
Proof.
  intros Hb. induction passes as [|n IH]; intros payload padding packet s e; cbn [pad_loop]; [done|]. cbv zeta.
  destruct (_ =? _); [done|]. destruct (if zlen packet <? _ then _ else _) as [p|]; [|done]. destruct (_ <? _); [intros; by simplify_eq|].
  destruct (build _) as [p0|s' e'] eqn:E; [apply IH|]. intros [= <- <-]. by eapply Hb.
Qed.

Lemma assemble_fails {L : CryptoLaws C} c space n pnl payload s e : assemble_packet c space n pnl payload = Fail s e -> s <> WT_OK.
Proof.
  unfold assemble_packet. cbv zeta. destruct (wt_quic_packet_build _ _) as [first|] eqn:E; [|by intros [= <- <-]; eapply build_fails].
  destruct (_ && _).
  - destruct (pad_loop _ _ _ _ _) as [p|] eqn:Ep; [repeat case_match; intros; by simplify_eq|]. intros [= <- <-].
    eapply pad_loop_fails; [|exact Ep]. intros l s' e' H. exact (build_fails _ _ _ _ H).
  - case_match; intros; by simplify_eq.
Qed.

Lemma emit_exact {L : CryptoLaws C} space payload e tag now c :
  recovery_inv (rv c) -> (length (ls_sent (cn_loss c)) < WT_QUIC_SENT_PACKETS_MAX)%nat ->
  let r := emit_packet udp_send space payload e tag now c in
  (r.1 = WT_OK /\ one_more space tag now e c r.2) \/ (r.1 <> WT_OK /\ untouched c r.2).
Proof.
  intros Hr Hl. unfold emit_packet. cbv zeta. destruct (wt_quic_congestion_can_send _ _); cbn [negb]; [|by right].
  unfold wt_quic_pn_space_next. destruct (sp_has_sent _ && _); [by right|]. destruct (_ && rt_pending_keys _); [by right|].
  destruct (assemble_packet _ _ _ _ _) as [packet|s] eqn:Ea; [|right; split; [by eapply assemble_fails|done]].
  set (c1 := on_space space _ c) in *. set (n := sp_next_send (ss_space (space_of c space))) in *. set (c2 := packet_protected space n c1).
  assert (untouched c c2 /\ cn_peer c2 = cn_peer c) as [[Ho Hs] Hp] by (unfold c2, packet_protected, untouched; destruct (bool_decide (space = WT_QUIC_SPACE_APPLICATION)); done).
  destruct (udp_send _ _ _); try by right. upd_simpl. rewrite Hs, Hp. left. set (d := mk_datagram (cn_peer c) packet space n).
  destruct (emitted_remembered (rv c) d tag now e Hr) as [H1 H2]; [by rewrite rv_numbering_of|done|].
  change (rv_loss (rv c)) with (cn_loss c) in *. unfold remembered in H1, H2. cbn [dg_space dg_number dg_bytes d] in H1, H2.
  rewrite H1, bool_decide_true by done. split; [done|]. exists packet. split; [|exact H2].
  change (cn_outbox c2 ++ [d] = cn_outbox c ++ [d]). by rewrite Ho.
Qed.

(** ** Updating the keys sends nothing *)

Definition same (c c' : connection) : Prop :=
  rv c' = rv c /\ cn_peer c' = cn_peer c /\ forall s, ss_space (space_of c' s) = ss_space (space_of c s).

Lemma same_keys f c c' : same c c' -> same c (on_key_update f c').
Proof. done. Qed.

Lemma same_space s f c c' : (forall st, ss_space (f st) = ss_space st) -> same c c' -> same c (on_space s f c').
Proof.
  intros Hf (H1 & H2 & H3). split_and!; [rewrite rv_on_space; [done|]; unfold numbering_of; by rewrite Hf|done|].
  intros s'. rewrite <- H3. unfold space_of, on_space. upd_simpl. rewrite at_alter. case_bool_decide; [by rewrite Hf|done].
Qed.

Lemma initiate_same now c : same c (wt_quic_connection_initiate_key_update now c).2.
Proof.
  assert (forall c', same c c' -> same c (ensure_next_keys_in c').2) as Hin by (intros c' H; unfold ensure_next_keys_in; repeat case_match; try exact H; by apply same_keys).
  assert (forall c', same c c' -> same c (ensure_next_keys_out c').2) as Hout by (intros c' H; unfold ensure_next_keys_out; repeat case_match; try exact H; by apply same_keys).
  assert (same c c) as H0 by done. unfold wt_quic_connection_initiate_key_update, restart_encrypted, retain_keys_in, set_keys_in, set_keys_out.
  cbv zeta. repeat match goal with |- context [if ?b then _ else _] => destruct b; [exact H0|] end.
  destruct (derive_next_keys _) as [out|]; [|exact H0]. set (c1 := on_space _ _ c). set (c2 := on_key_update _ c1).
  assert (same c c2) as H1 by (apply same_keys, same_space; done).
  destruct (derive_next_keys _) as [inb|]; [|exact H1]. cbn [snd]. apply same_space; [done|]. apply same_keys, Hin, Hout, same_keys, same_space; [done|exact H1].
Qed.

(** Why a send may answer WT_OK without having sent: the limit of the keys is
    reached and they cannot be updated. *)
Definition limit_reached (space : wt_quic_space) (c : connection) : bool :=
  (cn_aead_confidentiality_limit c <=? ss_aead_encrypted (space_of c space)) &&
  negb (bool_decide (space = WT_QUIC_SPACE_APPLICATION) && wt_quic_connection_key_update_allowed c).

Lemma close_with_untouched code type now c : untouched c (close_with code type now c).2.
Proof. unfold close_with, wt_quic_connection_close. by destruct (wt_quic_connection_is_closed c). Qed.

End Sent.

Lemma sample_client_inv : recovery_inv (rv sample_client).
Proof.
  change (recovery_inv (rv (fresh WT_QUIC_ROLE_CLIENT [1; 2; 3; 4] [5; 6; 7; 8]))).
  apply (init_recovery_inv (sample_config WT_QUIC_ROLE_CLIENT [1; 2; 3; 4] [5; 6; 7; 8]) []); by vm_compute.
Qed.


(** A client that closes when the keys of its space may protect nothing more: the
    flush notes that the close was sent, and nothing was. *)
Definition spent_client : sample_connection :=
  on_space WT_QUIC_SPACE_APPLICATION (fun s => s <| ss_aead_encrypted := 2 ^ 23 |>) sample_client <| cn_handshake_confirmed := false |>.

Lemma close_frame_claimed :
  let closed := (wt_quic_connection_close WT_QUIC_NO_ERROR 0 (@nil Z) 1000 spent_client).2 in
  let r := wt_quic_connection_flush sample_socket None 1 2000 closed in
  r.1 = WT_OK /\ cn_close_frame_sent r.2 = true /\ cn_outbox r.2 = [].
Proof. by vm_compute. Qed.

(** ** What goes out *)

Lemma appends_padding (l : list nat) : appends (fun w => foldl (fun w _ => wt_writer_u8 0 w) w l) (replicate (length l) 0).
Proof.
  induction l as [|n l IH]; [apply appends_id|]. cbn [foldl length replicate]. exact (appends_seq _ _ _ _ (appends_u8 0) IH).
Qed.

Lemma encode_puts f w :
  frame_ok f -> writer_inv w -> w_overflow w = false -> zlen (frame_bytes f) <= writer_room w ->
  wt_quic_frame_encode f w = (WT_OK, wt_writer_put (frame_bytes f) w).
Proof.
  intros Hf Hw Ho Hr. destruct (frame_quiet f) eqn:Hq.
  - assert (appends (writer_varint (frame_type f)) (frame_bytes f)) as Ha.
    { unfold frame_bytes. destruct f; try done; cbn [frame_body]; rewrite app_nil_r; apply appends_varint, frame_type_ok. }
    destruct (Ha w Hw) as (_ & _ & He). specialize (He Ho). rewrite (proj2 (Z.leb_le _ _)) in He by done. rewrite <- He.
    unfold wt_quic_frame_encode. rewrite Ho. by destruct f.
  - pose proof (encodes_frame f Hf Hq w Hw Ho) as He. by rewrite (proj2 (Z.leb_le _ _)) in He by done.
Qed.

Definition padded (frame : wt_quic_frame) (k : nat) : list Z := frame_bytes frame ++ replicate k 0.

Lemma frame_payload_spec frame minimum :
  frame_ok frame -> minimum <= 4 -> zlen (frame_bytes frame) + 4 <= WT_QUIC_CONNECTION_PAYLOAD_MAX ->
  frame_payload frame minimum = Ok (padded frame (Z.to_nat (minimum - zlen (frame_bytes frame)))).
Proof.
  intros Hf Hm Hz. unfold frame_payload. pose proof (zlen_nonneg (frame_bytes frame)).
  assert (zlen packet_buffer = WT_QUIC_CONNECTION_PAYLOAD_MAX) as Hb by done. set (w := wt_writer_init _ _).
  assert (writer_inv w) as Hw by (apply writer_init_inv; by vm_compute). assert (writer_room w = WT_QUIC_CONNECTION_PAYLOAD_MAX) as Hr by done.
  rewrite encode_puts by (done || lia). destruct (appends_run _ _ w (appends_put (frame_bytes frame)) Hw eq_refl ltac:(lia)) as (Hi & Ho & Hf' & Hc & Hcp & Hby).
  set (w1 := wt_writer_put _ w) in *. unfold wt_writer_ok. rewrite Ho. cbn [negb]. change (w_offset w) with 0 in Hf'. rewrite Hf', Z.add_0_l.
  set (n := Z.to_nat (minimum - zlen (frame_bytes frame))).
  assert (zlen (replicate n 0) <= writer_room w1) as Hn.
  { rewrite zlen_replicate. unfold writer_room in *. rewrite Hc, Hf'. change (w_offset w) with 0 in Hr. lia. }
  pose proof (appends_padding (seq 0 n)) as Ha. rewrite length_seq in Ha.
  destruct (appends_run _ _ w1 Ha Hi Ho Hn) as (_ & Ho2 & _ & _ & _ & Hb2). cbv zeta. rewrite Ho2. cbn [negb].
  rewrite Hb2, Hby by (by rewrite Hcp || done). done.
Qed.

Section Built.
Context {X : Type} {C : Crypto} {L : CryptoLaws C}.
Notation connection := (wt_quic_connection X).
Implicit Types c : connection.

Lemma pad_loop_builds build payload passes : forall padding packet out,
  pad_loop build passes payload padding packet = Ok out ->
  (exists k, Z.of_nat k <= WT_QUIC_CONNECTION_PAYLOAD_MAX /\ build (payload ++ replicate k 0) = Ok packet) ->
  exists k, Z.of_nat k <= WT_QUIC_CONNECTION_PAYLOAD_MAX /\ build (payload ++ replicate k 0) = Ok out.
Proof.
  induction passes as [|n IH]; intros padding packet out; cbn [pad_loop]; [by intros [= <-]|]. cbv zeta.
  destruct (_ =? _); [by intros [= <-]|]. destruct (if zlen packet <? _ then _ else _) as [p|]; [|by intros [= <-]].
  destruct (Z.ltb_spec WT_QUIC_CONNECTION_PAYLOAD_MAX (zlen payload + p)); [done|]. destruct (build _) as [packet'|] eqn:E; [|done]. intros H' _.
  eapply IH; [exact H'|]. exists (Z.to_nat p). split; [|done]. pose proof (zlen_nonneg payload). unfold WT_QUIC_CONNECTION_PAYLOAD_MAX, WT_QUIC_MAX_PACKET in *. lia.
Qed.

Lemma assemble_builds c space n pnl payload packet :
  assemble_packet c space n pnl payload = Ok packet ->
  exists k, Z.of_nat k <= WT_QUIC_CONNECTION_PAYLOAD_MAX /\
    wt_quic_packet_build (build_params c space n pnl (payload ++ replicate k 0)) packet_buffer = Ok packet.
Proof.
  unfold assemble_packet. cbv zeta. destruct (wt_quic_packet_build _ _) as [first|] eqn:E; [|done].
  assert (exists k, Z.of_nat k <= WT_QUIC_CONNECTION_PAYLOAD_MAX /\
    wt_quic_packet_build (build_params c space n pnl (payload ++ replicate k 0)) packet_buffer = Ok first) as H0
    by (exists 0%nat; split; [done|]; by rewrite app_nil_r). destruct (_ && _).
  - destruct (pad_loop _ _ _ _ _) as [p|] eqn:Ep; [|done]. destruct (_ <? _); [done|]. destruct (_ <? _); [done|]. intros [= <-].
    by apply (pad_loop_builds _ _ _ _ _ _ Ep).
  - destruct (_ <? _); [done|]. by intros [= <-].
Qed.

(** A packet that was built had the room. *)
Lemma built_room p out d :
  build_ok p -> zlen out < 2 ^ 62 -> wt_quic_packet_build p out = Ok d ->
  zlen (wire_header p) + zlen (sent_payload (pb_payload p) (pb_packet_number_length p)) + WT_AEAD_TAG_LEN <= zlen out.
Proof.
  intros Hp Hout. pose proof Hp as [_ [Hpl Hplz] Hn Hl _]. unfold wt_quic_packet_build. cbv zeta.
  destruct (_ || _); [done|]. rewrite padded_payload_spec by lia. set (payload := sent_payload _ _).
  destruct (_ <? _); [done|]. destruct (_ <? _); [done|]. set (w := wt_writer_init _ _).
  assert (Hw : writer_inv w) by (apply writer_init_inv; lia). pose proof (encodes_header p Hp w Hw eq_refl) as He. fold payload in He.
  change (writer_room w) with (zlen out - 0) in He. destruct (Z.leb_spec (zlen (wire_header p)) (zlen out - 0)).
  - rewrite He. destruct (appends_run _ _ w (appends_put (wire_header p)) Hw eq_refl) as (_ & _ & -> & _); [change (writer_room w) with (zlen out - 0); lia|].
    change (w_offset w) with 0. destruct (Z.ltb_spec (zlen out - (0 + zlen (wire_header p))) (zlen payload + WT_AEAD_TAG_LEN)); [done|]. intros _. lia.
  - destruct (encode_header _ _ _) as [[] w']; try done. by destruct He.
Qed.
End Built.

(** ** What comes in *)

Section Read.
Context {C : Crypto} {L : CryptoLaws C}.

(** The header of a built packet comes off, and what is behind it opens. *)
Lemma built_reads p out d lr local :
  build_ok p -> zlen out < 2 ^ 62 -> wt_quic_packet_build p out = Ok d ->
  (if pb_short_header p then local = zlen (pb_destination_connection_id p) else True) ->
  let half := 2 ^ (8 * pb_packet_number_length p) / 2 in
  0 <= lr <= WT_QUIC_PACKET_NUMBER_MAX -> lr + 1 - half < pb_packet_number p <= lr + 1 + half ->
  exists b sealed rest, d = b :: wire_middle p ++ rest /\ is_u8 b /\ has_bit b 0x80 = negb (pb_short_header p) /\
    (has_bit b 0x80 = true -> b / 16 = wire_first p / 16) /\ 5 <= zlen rest /\ rx_total_len (received_of p) = zlen d /\
    wt_quic_packet_unprotect_header d (pb_keys p) local =
      Ok (wire_header p ++ sealed, 1 + zlen (wire_middle p), zlen d, pb_packet_number_length p, pb_short_header p) /\
    wt_quic_packet_open (wire_header p ++ sealed) (zlen d) (pb_keys p) lr local = Ok (received_of p).
Proof.
  intros Hp Hout Hd Hloc half Hlr Hwin. pose proof (built_room p out d Hp Hout Hd) as Hroom.
  pose proof (packet_built p out Hp Hout Hroom) as H. rewrite Hd in H.
  destruct H as (b & pnb & sealed & -> & Hsz & Hb & Hl & Hq & Hz & Hpok & Hsok & Hun & Hopen).
  set (payload := sent_payload (pb_payload p) (pb_packet_number_length p)) in *. pose proof (zlen_nonneg payload).
  assert (Hdz : zlen (b :: wire_middle p ++ pnb ++ sealed) = zlen (wire_header p) + zlen payload + WT_AEAD_TAG_LEN).
  { rewrite wire_header_size by done. rewrite zlen_cons, !zlen_app. lia. }
  exists b, sealed, (pnb ++ sealed). split_and!; try done.
  - rewrite zlen_app. unfold WT_AEAD_TAG_LEN in *. pose proof (zlen_nonneg pnb). lia.
  - unfold wt_quic_packet_unprotect_header. pose proof (protected_found p b pnb sealed [] local Hp Hb Hl Hq Hpok Hz Hsok Hsz) as Hf.
    cbv zeta in Hf. rewrite app_nil_r in Hf. rewrite Hf; [| |destruct (pb_short_header p); done|rewrite Hdz; lia]; [|constructor].
    rewrite ztake_all, Hun, zdrop_all, app_nil_r by lia. done.
  - rewrite <- (app_nil_r (wire_header p ++ sealed)). apply (open_wire p sealed [] lr local); try done.
    + rewrite Hdz, zlen_app, Hsz. unfold payload. lia.
    + lia.
Qed.

(** A short header is the Application space's, whatever the version. *)
Lemma route_short b rest version : has_bit b 0x80 = false -> route_packet (b :: rest) version = Ok (ROUTE_SPACE WT_QUIC_SPACE_APPLICATION).
Proof.
  intros Hb. unfold route_packet, wt_quic_packet_kind_of. pose proof (zlen_nonneg rest). rewrite zlen_cons, (proj2 (Z.eqb_neq _ 0)) by lia.
  change (byte_at (b :: rest) 0) with b. change WT_QUIC_LONG_HEADER_BIT with 0x80. by rewrite Hb.
Qed.

(** The version of a long header, behind its first byte. *)
Lemma load_version version rest : is_u32 version -> wt_load_be32 (wt_store_be32 version ++ rest) = version.
Proof.
  intros Hv. rewrite store_be32_spec. pose proof (be_bytes_ok 4 version) as Hok. pose proof (zlen_be_bytes 4 version) as Hz.
  assert (be_value (be_bytes 4 version) = version) as Hb by (apply be_value_bytes; exact Hv).
  destruct (be_bytes 4 version) as [|a [|b [|c [|d [|]]]]]; try (unfold zlen in Hz; cbn [length] in Hz; lia).
  rewrite <- Hb, <- (load_be32_spec a b c d Hok). done.
Qed.

Lemma route_long p b rest :
  build_ok p -> pb_short_header p = false -> is_u8 b -> has_bit b 0x80 = true -> b / 16 = wire_first p / 16 ->
  route_packet (b :: wire_middle p ++ rest) (pb_version p) =
  match pb_type p with
  | WT_QUIC_PACKET_INITIAL => Ok (ROUTE_SPACE WT_QUIC_SPACE_INITIAL)
  | WT_QUIC_PACKET_HANDSHAKE => Ok (ROUTE_SPACE WT_QUIC_SPACE_HANDSHAKE)
  | WT_QUIC_PACKET_RETRY => Ok ROUTE_RETRY
  | WT_QUIC_PACKET_ZERO_RTT => Ok ROUTE_DISCARD
  end.
Proof.
  intros Hp Hs Hb Hl Hq. pose proof Hp as [_ _ Hn Hpl Hf]. rewrite Hs in Hf. destruct Hf as [Hf Hv].
  unfold wire_first, wire_middle in *. rewrite Hs in *. unfold long_middle. rewrite <- !app_assoc. set (tl := cid_wire _ ++ _).
  destruct (long_first_facts (pb_type p) (pb_packet_number_length p) (lo_type _ _ _ _ _ _ _ _ Hf) Hpl) as (_ & _ & _ & Ht & _).
  assert (zlen (b :: wt_store_be32 (pb_version p) ++ tl) = 5 + zlen tl) as Hz by (rewrite zlen_cons, zlen_app, store_be32_spec, zlen_be_bytes; lia).
  pose proof (zlen_nonneg tl). unfold route_packet, wt_quic_packet_kind_of. rewrite Hz, (proj2 (Z.eqb_neq (5 + _) 0)) by lia.
  change (byte_at (b :: _) 0) with b. change WT_QUIC_LONG_HEADER_BIT with 0x80. rewrite Hl. cbn [negb].
  rewrite (proj2 (Z.ltb_ge (5 + _) 5)), (proj2 (Z.leb_le 5 _)) by lia.
  change (zdrop 1 (b :: wt_store_be32 (pb_version p) ++ tl)) with (wt_store_be32 (pb_version p) ++ tl).
  rewrite load_version by apply Hf. rewrite (proj2 (Z.eqb_neq _ _)), Z.eqb_refl by done. cbn [negb].
  rewrite Z.shiftr_div_pow2 in * by lia. change (2 ^ 4) with 16 in *. rewrite Hq, Ht. by destruct (pb_type p).
Qed.
End Read.

(** ** One frame, sent and received *)

Section Delivery.
Context {X Y : Type} {C : Crypto} {L : CryptoLaws C}.
Context (udp_send : list sent_datagram -> option wt_udp_address -> list Z -> wt_status).
Context (lost_handler : option (wt_quic_tx_frame -> wt_quic_connection X -> wt_quic_connection X)) (levels : nat).
Context (udp_send' : list sent_datagram -> option wt_udp_address -> list Z -> wt_status).
Context (lost_handler' : option (wt_quic_tx_frame -> wt_quic_connection Y -> wt_quic_connection Y)) (levels' : nat).
Context (handler : option (wt_quic_space -> wt_quic_frame -> wt_quic_connection Y -> wt_status * wt_quic_connection Y)).
Implicit Types c : wt_quic_connection X.
Implicit Types s : wt_quic_connection Y.

Notation visit := (visit_frame udp_send' lost_handler' handler levels').
Notation process := (process_packet udp_send' lost_handler' handler levels').

(** PADDING is walked over. *)
Definition walked (k : nat) s : wt_quic_connection Y := Nat.iter k (on_counters (fun x => x <| ct_frames_walked ::= incr |>)) s.

Lemma visit_padding space now q v : visit space now q v FRAME_PADDING = (WT_OK, (v.1, walked 1 v.2)).
Proof. unfold visit_frame. cbv zeta. rewrite orb_false_r. by destruct (_ && _). Qed.

Lemma padding_walk space now q k : forall fuel cur v,
  cursor_live cur -> cursor_view cur = replicate k 0 -> (k < fuel)%nat ->
  frames_loop (Some (visit space now q)) fuel cur v = Some (WT_OK, None, (v.1, walked k v.2)).
Proof.
  induction k as [|k IH]; intros fuel cur v Hl Hv Hf; (destruct fuel as [|fuel]; [lia|]); cbn [frames_loop]; rewrite cursor_remaining_view, Hv by apply Hl.
  - by destruct v.
  - cbn [replicate]. rewrite zlen_cons. pose proof (zlen_nonneg (replicate k 0)). rewrite (proj2 (Z.ltb_lt 0 _)) by lia.
    destruct (decodes_frame FRAME_PADDING I) as [_ Hd]. cbn [replicate] in Hv. change (0 :: replicate k 0) with (frame_bytes FRAME_PADDING ++ replicate k 0) in Hv.
    rewrite (Hd eq_refl cur _ Hl Hv), visit_padding. cbv beta iota.
    assert (cursor_live (cursor_advance cur (zlen (frame_bytes FRAME_PADDING)))) as Hl'
      by (apply cursor_advance_live; [done|rewrite Hv, zlen_app; change (zlen (frame_bytes FRAME_PADDING)) with 1; lia]).
    pose proof (cursor_advance_view cur _ _ _ (proj1 Hl) Hv eq_refl) as Hv'. rewrite (IH fuel _ _ Hl' Hv') by lia.
    cbn [fst snd]. f_equal. f_equal. f_equal. unfold walked. symmetry. apply Nat.iter_succ_r.
Qed.

(** A payload of one frame and PADDING. *)
Lemma process_one space frame k now q s :
  frame_ok frame -> frame_delimited frame = true -> bytes_ok (frame_bytes frame) -> zlen (padded frame k) < 2 ^ 64 ->
  let v := visit space now q (false, s) frame in v.1 = WT_OK ->
  process space (padded frame k) now q s = (WT_OK, v.2.1, walked k v.2.2).
Proof.
  intros Hf Hdl Hb Hz v Hv. unfold process_packet, wt_quic_frames_decode. fold v. set (cur := wt_cursor_init _ _).
  assert (bytes_ok (padded frame k)) as Hok by (apply Forall_app; split; [done|]; apply Forall_replicate; unfold is_u8; lia).
  assert (cursor_live cur) as Hl by (by apply cursor_init_live). assert (cursor_view cur = padded frame k) as Hc by (by apply cursor_init_view).
  assert (1 <= zlen (frame_bytes frame)) as H1 by (unfold frame_bytes; rewrite zlen_app; pose proof (varint_bytes_pos _ (frame_type_ok frame)); zlia).
  cbn [frames_loop]. rewrite cursor_remaining_view, Hc by apply Hl. unfold padded in Hz, Hc |- *. rewrite zlen_app in *. pose proof (zlen_nonneg (replicate k 0)).
  rewrite (proj2 (Z.ltb_lt 0 _)) by lia. rewrite (proj2 (decodes_frame frame Hf) Hdl cur _ Hl Hc). fold v.
  destruct v as [st [el s1]] eqn:Ev. cbn [fst snd] in *. subst st. cbv beta iota.
  rewrite (padding_walk space now q k); [done| | |].
  - apply cursor_advance_live; [done|]. rewrite Hc, zlen_app. lia.
  - by apply (cursor_advance_view cur _ _ _ (proj1 Hl) Hc).
  - rewrite zlen_replicate in *. lia.
Qed.

(** What the sender has that can be sent. *)
Record sendable (space : wt_quic_space) c : Prop := {
  sn_keys : keys_ok (ss_keys_out (space_of c space));
  sn_destination : cid_ok (cn_peer_connection_id c);
  sn_source : cid_ok (cn_local_connection_id c);
  sn_version : is_u32 (cf_version (cn_config c)) /\ cf_version (cn_config c) <> WT_QUIC_VERSION_NEGOTIATION;
  sn_token : bytes_ok (rt_token (cn_retry c)) /\ varint_ok (zlen (rt_token (cn_retry c))) }.

(** The largest number a space has received, 0 before the first. *)
Definition largest_received (space : wt_quic_space) s : Z :=
  let r := sp_received (ss_space (space_of s space)) in if as_has_largest r then as_largest_received r else 0.

(** The other end holds the keys of the space and the phase, is who the sender
    means, and has received to within half a window of the number. *)
Record hears (space : wt_quic_space) (from : wt_udp_address) c s : Prop := {
  he_socket : cn_open_socket s = true;
  he_peer : match cn_peer s with Some peer => wt_udp_address_equal from peer = true | None => True end;
  he_version : cf_version (cn_config s) = cf_version (cn_config c);
  he_keys : ss_has_keys_in (space_of s space) = true /\ ss_keys_in (space_of s space) = ss_keys_out (space_of c space);
  he_phase : ku_key_phase_in (cn_key_update s) = ku_key_phase (cn_key_update c);
  he_id : cn_local_connection_id s = cn_peer_connection_id c;
  he_roles : cf_role (cn_config s) = WT_QUIC_ROLE_SERVER -> cf_role (cn_config c) = WT_QUIC_ROLE_CLIENT;
  he_window : let n := sp_next_send (ss_space (space_of c space)) in let lr := largest_received space s in
    let half := 2 ^ (8 * packet_number_length_for n (ss_space (space_of c space))) / 2 in
    0 <= lr <= WT_QUIC_PACKET_NUMBER_MAX /\ lr + 1 - half < n <= lr + 1 + half }.

(** What the receiver notes of a datagram from its peer, before it looks inside. *)
Definition taken_in (from : wt_udp_address) (length now : Z) s : wt_quic_connection Y :=
  on_counters (fun k => k <| ct_packets_received ::= incr |> <| ct_bytes_received ::= (fun b => u64 (b + length)) |>)
    (match cn_peer s with None => s <| cn_peer := Some from |> | Some _ => s end) <| cn_last_activity := now |>.

(** And of one that opened, before its frames. *)
Definition arrived (space : wt_quic_space) (from : wt_udp_address) (length n : Z) (source : list Z) (now : Z) s : wt_quic_connection Y :=
  let s := taken_in from length now s in
  if bool_decide (space = WT_QUIC_SPACE_APPLICATION)
  then if ku_in_first_pn_set (cn_key_update s) then s else on_key_update (fun k => k <| ku_in_first_pn := n |> <| ku_in_first_pn_set := true |>) s
  else if bool_decide (cn_peer_source_connection_id s = None) then s <| cn_peer_source_connection_id := Some source |> else s.

Lemma taken_in_fields from length now s :
  let s0 := taken_in from length now s in
  cn_local_connection_id s0 = cn_local_connection_id s /\ (forall sp, space_of s0 sp = space_of s sp) /\ cn_config s0 = cn_config s /\
  cn_key_update s0 = cn_key_update s.
Proof. unfold taken_in. by destruct (cn_peer s). Qed.

Lemma receive_takes_in space from c s packet now :
  hears space from c s -> 0 < zlen packet ->
  wt_quic_connection_receive udp_send' lost_handler' handler levels' (Ok (from, packet)) now s =
  packets_loop udp_send' lost_handler' handler levels' (length packet) packet (zlen packet) now (taken_in from (zlen packet) now s).
Proof.
  intros Hh Hz. unfold wt_quic_connection_receive. rewrite (he_socket _ _ _ _ Hh). cbn [negb]. pose proof (he_peer _ _ _ _ Hh) as Hpe. unfold taken_in.
  destruct (cn_peer s) as [peer|]; cbv zeta; [rewrite Hpe; cbn [negb]|]; rewrite (proj2 (Z.eqb_neq _ 0)) by lia; done.
Qed.

Lemma build_params_ok space c n pnl payload :
  sendable space c -> bytes_ok payload -> zlen payload < 2 ^ 61 -> 0 <= n <= WT_QUIC_PACKET_NUMBER_MAX -> 1 <= pnl <= 4 ->
  build_ok (build_params c space n pnl payload).
Proof.
  intros [H1 H2 H3 [H4 H4'] [H5 H5']] Hp Hz Hn Hl. destruct (sent_payload_facts payload pnl Hl Hp) as [_ Hs]. pose proof (zlen_nonneg payload).
  assert (forall type token, type <> WT_QUIC_PACKET_RETRY -> bytes_ok token /\ varint_ok (zlen token) -> (type <> WT_QUIC_PACKET_INITIAL -> token = []) ->
    long_ok type (cf_version (cn_config c)) (cn_peer_connection_id c) (cn_local_connection_id c) token n pnl (zlen (sent_payload payload pnl) + WT_AEAD_TAG_LEN)) as Hlong.
  { intros type token Ht Hok Hi. constructor; try done; unfold varint_ok, WT_QUIC_VARINT_MAX, WT_AEAD_TAG_LEN; try lia. }
  destruct space; (constructor; cbn [pb_keys pb_payload pb_packet_number pb_packet_number_length pb_short_header pb_destination_connection_id pb_source_connection_id pb_token pb_type pb_version build_params bool_decide];
    [exact H1|done|done|done|]).
  - rewrite bool_decide_false by done. split; [|done]. apply Hlong; [done| |done]. rewrite bool_decide_true by done. destruct (rt_accepted _); [by split|]. split; [constructor|by vm_compute].
  - rewrite bool_decide_false by done. split; [|done]. rewrite bool_decide_false by done. apply Hlong; [done| |done]. split; [constructor|by vm_compute].
  - rewrite bool_decide_true by done. done.
Qed.

Lemma emit_builds space payload e tag now c :
  let n := sp_next_send (ss_space (space_of c space)) in let r := emit_packet udp_send space payload e tag now c in r.1 = WT_OK ->
  exists k packet, Z.of_nat k <= WT_QUIC_CONNECTION_PAYLOAD_MAX /\
    wt_quic_packet_build (build_params c space n (packet_number_length_for n (ss_space (space_of c space))) (payload ++ replicate k 0)) packet_buffer = Ok packet /\
    cn_outbox r.2 = cn_outbox c ++ [mk_datagram (cn_peer c) packet space n] /\
    within_path (cn_config c) (mk_datagram (cn_peer c) packet space n) /\ numbers_left (rv_numbering (rv c) space) = true.
Proof.
  cbv zeta. unfold emit_packet. cbv zeta. destruct (negb _); [done|]. unfold wt_quic_pn_space_next. destruct (_ && _) eqn:Eleft; [done|]. destruct (_ && rt_pending_keys _); [done|].
  destruct (assemble_packet _ _ _ _ _) as [packet|s] eqn:Ea; [|intros Hs; cbn [fst] in Hs; by destruct (assemble_fails _ _ _ _ _ _ _ Ea)].
  set (c1 := on_space space _ c) in *. set (n := sp_next_send (ss_space (space_of c space))) in *. set (c2 := packet_protected space n c1).
  assert (cn_outbox c2 = cn_outbox c /\ cn_peer c2 = cn_peer c) as [Ho Hp] by (unfold c2, packet_protected; by destruct (bool_decide (space = WT_QUIC_SPACE_APPLICATION))).
  intros Hok. destruct (assemble_builds _ _ _ _ _ _ Ea) as (k & Hk & Hb). exists k, packet. split; [exact Hk|]. split; [by destruct space|].
  split; [|split; [exact (assemble_size _ _ _ _ _ _ Ea)|by rewrite rv_numbering_of; apply negb_true_iff]].
  destruct (udp_send _ _ _); try done. unfold packet_counted. destruct (bool_decide _); cbn [snd].
  all: change (cn_outbox c2 ++ [mk_datagram (cn_peer c2) packet space n] = cn_outbox c ++ [mk_datagram (cn_peer c) packet space n]). all: by rewrite Ho, Hp.
Qed.

Lemma send_one_builds space frame e d now c :
  frame_ok frame -> zlen (frame_bytes frame) + 4 <= WT_QUIC_CONNECTION_PAYLOAD_MAX -> (length (ls_sent (cn_loss c)) < WT_QUIC_SENT_PACKETS_MAX)%nat ->
  ss_aead_encrypted (space_of c space) < cn_aead_confidentiality_limit c ->
  let n := sp_next_send (ss_space (space_of c space)) in let r := send_one_frame udp_send lost_handler levels space frame e d now c in r.1 = WT_OK ->
  exists k packet, zlen (padded frame k) < 2 ^ 61 /\
    wt_quic_packet_build (build_params c space n (packet_number_length_for n (ss_space (space_of c space))) (padded frame k)) packet_buffer = Ok packet /\
    cn_outbox r.2 = cn_outbox c ++ [mk_datagram (cn_peer c) packet space n] /\
    within_path (cn_config c) (mk_datagram (cn_peer c) packet space n) /\ numbers_left (rv_numbering (rv c) space) = true.
Proof.
  intros Hf Hz Hl Ha n. cbv zeta. set (pnl := packet_number_length_for n (ss_space (space_of c space))).
  assert (forall tag fs, let r := send_encoded_frame udp_send lost_handler levels space (padded frame (Z.to_nat (sample_minimum pnl - zlen (frame_bytes frame)))) e tag now (c <| cn_frames := fs |>) in
    r.1 = WT_OK -> exists k packet, zlen (padded frame k) < 2 ^ 61 /\ wt_quic_packet_build (build_params c space n pnl (padded frame k)) packet_buffer = Ok packet /\
    cn_outbox r.2 = cn_outbox c ++ [mk_datagram (cn_peer c) packet space n] /\
    within_path (cn_config c) (mk_datagram (cn_peer c) packet space n) /\ numbers_left (rv_numbering (rv c) space) = true) as H.
  { intros tag fs. cbv zeta. unfold send_encoded_frame, send_encoded_with. cbv zeta. set (c0 := c <| cn_frames := fs |>).
    destruct (bool_decide (_ = WT_OK)) eqn:Eok; [|intros Hok; cbn [fst] in Hok; by rewrite Hok in Eok]. intros Hok.
    assert (exists p, send_packet udp_send lost_handler levels 0 space (padded frame (Z.to_nat (sample_minimum pnl - zlen (frame_bytes frame)))) e tag now c0 = p /\
      p = emit_packet udp_send space (padded frame (Z.to_nat (sample_minimum pnl - zlen (frame_bytes frame)))) e tag now c0) as (p & Ep & Ep').
    { eexists. split; [done|]. revert Hok. clear Eok. destruct levels as [|lv]; cbn [send_packet].
      all: destruct (negb _); [done|]; destruct (_ && _); [done|]; destruct (_ <? _); [done|].
      all: unfold limit_checked; rewrite (proj2 (Z.leb_gt (cn_aead_confidentiality_limit c0) (ss_aead_encrypted (space_of c0 space)))) by exact Ha.
      all: by rewrite (proj2 (Nat.leb_gt WT_QUIC_SENT_PACKETS_MAX (length (ls_sent (cn_loss c0))))) by exact Hl. }
    rewrite Ep, Ep' in *. destruct (emit_builds space _ e tag now c0 Hok) as (k & packet & Hk & Hb & Ho & Hw & Hn).
    exists (Z.to_nat (sample_minimum pnl - zlen (frame_bytes frame)) + k)%nat, packet. unfold padded in *. rewrite <- app_assoc, <- replicate_add in Hb. split_and!; [|exact Hb|exact Ho|exact Hw|exact Hn].
    rewrite zlen_app, zlen_replicate. pose proof (zlen_nonneg (frame_bytes frame)). unfold sample_minimum, WT_QUIC_CONNECTION_PAYLOAD_MAX, WT_QUIC_MAX_PACKET in *.
    assert (1 <= pnl) by (unfold pnl, packet_number_length_for; repeat case_match; lia). destruct (4 <=? pnl); lia. }
  unfold send_one_frame. cbv zeta. destruct (negb _); [done|]. fold n. fold pnl. rewrite frame_payload_spec; [|done| |done].
  2:{ unfold sample_minimum. assert (1 <= pnl) by (unfold pnl, packet_number_length_for; repeat case_match; lia). destruct (4 <=? pnl); lia. }
  destruct d as [d|]; [|assert (c <| cn_frames := cn_frames c |> = c) as E by (by destruct c); specialize (H NO_TAG (cn_frames c)); by rewrite E in H]. unfold alloc_frame. destruct (first_index _ _) as [i|]; [|done].
  exact (H (Z.of_nat i) _).
Qed.

(** A datagram of one packet that opens is that packet. *)
Lemma loop_one space packet q now s s' :
  0 < zlen packet -> route_packet packet (cf_version (cn_config s)) = Ok (ROUTE_SPACE space) ->
  (space = WT_QUIC_SPACE_INITIAL -> cf_role (cn_config s) = WT_QUIC_ROLE_SERVER -> WT_QUIC_MIN_INITIAL_DATAGRAM_SIZE <= zlen packet) ->
  ss_has_keys_in (space_of s space) = true -> open_in_space space packet now s = (Ok q, s') ->
  local_connection_id_sequence s' (rx_destination_connection_id q) = Some 0 -> rx_total_len q = zlen packet ->
  packets_loop udp_send' lost_handler' handler levels' (length packet) packet (zlen packet) now s =
    accept_packet udp_send' lost_handler' handler levels' space q 0 now s'.
Proof.
  intros Hz Hr Hi Hk Ho Hq Ht. destruct packet as [|x packet]; [by vm_compute in Hz|]. set (d := x :: packet) in *.
  change (length d) with (S (length packet)). cbn [packets_loop]. rewrite (proj2 (Z.eqb_neq _ 0)), Hr by lia.
  assert (bool_decide (space = WT_QUIC_SPACE_INITIAL) && bool_decide (cf_role (cn_config s) = WT_QUIC_ROLE_SERVER) && (zlen d <? WT_QUIC_MIN_INITIAL_DATAGRAM_SIZE) = false) as ->.
  { case_bool_decide as H1; [|done]. case_bool_decide as H2; [|done]. cbn. by apply Z.ltb_ge, Hi. }
  rewrite Hk, Ho, Hq. cbn [negb]. unfold on_ok. set (a := accept_packet _ _ _ _ _ _ _ _ _). case_bool_decide as Ha; [|done].
  rewrite Ht, (proj2 (Z.eqb_neq (zlen d) 0)), (proj2 (Z.ltb_ge (zlen d) (zlen d))) by lia. cbn [orb]. rewrite zdrop_all by lia.
  destruct a as [st sa]. cbn in *. subst st. by destruct (length packet).
Qed.

Lemma route_built space c n pnl payload b rest :
  let p := build_params c space n pnl payload in
  build_ok p -> is_u8 b -> has_bit b 0x80 = negb (pb_short_header p) -> (has_bit b 0x80 = true -> b / 16 = wire_first p / 16) ->
  route_packet (b :: wire_middle p ++ rest) (cf_version (cn_config c)) = Ok (ROUTE_SPACE space).
Proof.
  intros p Hp Hb8 Hbit Hq. destruct space; [| |apply route_short; exact Hbit].
  - exact (route_long p b rest Hp eq_refl Hb8 Hbit (Hq Hbit)).
  - exact (route_long p b rest Hp eq_refl Hb8 Hbit (Hq Hbit)).
Qed.

(** The packet opens in its space, and what the receiver notes of it is [arrived]. *)
Lemma open_built space from c s n pnl payload packet now sealed :
  let p := build_params c space n pnl payload in let lr := largest_received space s in let local := zlen (cn_local_connection_id s) in
  sendable space c -> hears space from c s -> 1 <= pnl <= 4 ->
  wt_quic_packet_unprotect_header packet (pb_keys p) local = Ok (wire_header p ++ sealed, 1 + zlen (wire_middle p), zlen packet, pnl, pb_short_header p) ->
  wt_quic_packet_open (wire_header p ++ sealed) (zlen packet) (pb_keys p) lr local = Ok (received_of p) ->
  exists s', open_in_space space packet now (taken_in from (zlen packet) now s) = (Ok (received_of p), s') /\
    note_peer_source (received_of p) s' = arrived space from (zlen packet) n (cn_local_connection_id c) now s /\
    cn_local_connection_id s' = cn_local_connection_id s.
Proof.
  intros p lr local Hs Hh Hpnl Hun Hopen. destruct (taken_in_fields from (zlen packet) now s) as (E1 & E2 & E3 & E4).
  destruct (he_keys _ _ _ _ Hh) as [Hk1 Hk2]. unfold arrived. cbv zeta. set (s0 := taken_in from (zlen packet) now s) in *.
  unfold open_in_space. rewrite E2, E1. fold (largest_received space s). fold lr. fold local.
  destruct (decide (space = WT_QUIC_SPACE_APPLICATION)) as [->|Hne].
  - rewrite !bool_decide_true by done. unfold read_application_packet. rewrite E2, E1, E4, Hk2. fold local.
    change (ss_keys_out (space_of c WT_QUIC_SPACE_APPLICATION)) with (pb_keys p).
    rewrite Hun. change (byte_at (wire_header p ++ sealed) 0) with (short_first pnl (ku_key_phase (cn_key_update c)) false).
    destruct (short_first_facts pnl (ku_key_phase (cn_key_update c)) false Hpnl) as (_ & _ & _ & -> & _).
    rewrite (he_phase _ _ _ _ Hh), eqb_reflx, Hopen. eexists. split; [done|]. change (rx_packet_number (received_of p)) with n.
    split; [done|]. by destruct (ku_in_first_pn_set _).
  - rewrite !bool_decide_false by done. unfold wt_quic_packet_read. rewrite Hk2. change (ss_keys_out (space_of c space)) with (pb_keys p).
    rewrite Hun, Hopen. eexists. split; [done|]. split; [|done]. unfold note_peer_source.
    assert (pb_short_header p = false) as Hsh by (by apply bool_decide_false).
    assert (rx_short_header (received_of p) = false) as -> by done. cbn [negb andb].
    assert (rx_source_connection_id (received_of p) = cn_local_connection_id c) as -> by (unfold received_of; rewrite Hsh; unfold p; destruct space; done).
    rewrite (proj2 (Z.leb_le _ _)) by apply (sn_source _ _ Hs). by rewrite andb_true_r.
Qed.

End Delivery.

Definition sample_stream_frame : wt_quic_frame := FRAME_STREAM (mk_stream_frame 0 0 false true true [10; 11; 12]).

Lemma sample_hears : hears WT_QUIC_SPACE_APPLICATION (sample_address 2) sample_client sample_server.
Proof. split; try (by vm_compute); by split; vm_compute. Qed.

Lemma sample_sendable : sendable WT_QUIC_SPACE_APPLICATION sample_client.
Proof. split; [by split|split; [by apply bytes_okb_spec|done]..|by split; vm_compute|by split; [constructor|vm_compute]]. Qed.

