(* ===== verification/ConnectionEdges.v ===== *)
(** Where a connection does something other than what its comments, or the RFCs
    they cite, ask for: one statement about the code as it is for each, most of
    them a run of the sample connection through its public operations. *)

From S2P Require Import Prelude Core Crypto Packet Protection PacketIo AckProcessing Connection ConnectionKeys ConnectionSend ConnectionLoss.
From S2P Require Import ConnectionStream ConnectionRetry ConnectionReceive ConnectionSample.

(** ** Sending from the loss callback

    [send_packet] finds the sent list full and detects losses; [on_lost] sends the
    lost control frame again before the packet has left the list, so [send_packet]
    finds the list as full as before, and the same packet lost. *)
Section Recursion.
Context {X : Type} {C : Crypto}.
Notation connection := (wt_quic_connection X).
Context (udp_send : list sent_datagram -> option wt_udp_address -> list Z -> wt_status).
Context (lost_handler : option (wt_quic_tx_frame -> connection -> connection)).
Context (lost_deeper : forall h d c, lost_handler = Some h -> (cn_depth c <= cn_depth (h d c))%nat).
Implicit Types c : connection.

Notation deeper c c' := (cn_depth c <= cn_depth c')%nat.
Notation sends_deeper send := (forall (space : wt_quic_space) payload e tag now c, deeper c (send space payload e tag now c).2).

(** No operation makes the depth smaller. *)
Lemma emit_depth space payload e tag now c : cn_depth (emit_packet udp_send space payload e tag now c).2 = cn_depth c.
Proof.
  unfold emit_packet, packet_protected, packet_counted, on_key_update, on_counters, on_space. cbv zeta.
  destruct (negb _); [done|]. destruct (wt_quic_pn_space_next _) as [[n|] s]; [|done]. destruct (_ && _); [done|].
  destruct (assemble_packet _ _ _ _ _); [|done]. destruct (bool_decide (space = _)); repeat case_match; done.
Qed.

Lemma encoded_depth send space payload e tag now c :
  cn_depth (send_encoded_with send space payload e tag now c).2 = cn_depth (send space payload e tag now c).2.
Proof. unfold send_encoded_with, free_frame, release_frame. cbv zeta. by repeat case_match. Qed.

Lemma encoded_deeper send : sends_deeper send -> sends_deeper (send_encoded_with send).
Proof. intros Hs space payload e tag now c. rewrite encoded_depth. apply Hs. Qed.

Lemma on_lost_deeper resend p c : sends_deeper resend -> deeper c (on_lost_with lost_handler resend p c).
Proof.
  intros Hs. unfold on_lost_with. cbv zeta. destruct (NO_TAG <=? _); [done|]. destruct (_ !! _) as [d|]; [|done]. destruct (negb _); [done|].
  cbn [cn_depth]. set (c1 := release_frame _ _). change (cn_depth c) with (cn_depth c1). upd_simpl.
  destruct (tf_stream_id d =? _); [|destruct lost_handler as [h|] eqn:E; [by apply lost_deeper|done]].
  destruct (_ !! _) as [k|]; [|done]. destruct (kf_in_use k); [|done].
  assert (cn_depth (tag_for_control (Z.to_nat (tf_offset d)) c1).2 = cn_depth c1) as <-
    by (unfold tag_for_control, alloc_frame; repeat case_match; done || (simplify_eq; done)).
  case_bool_decide; apply Hs.
Qed.

Lemma lost_loop_deeper visit gone : (forall p c, deeper c (visit p c)) -> forall fuel i n c, deeper c (lost_loop visit gone fuel i n c).2.
Proof.
  intros Hv. induction fuel as [|fuel IH]; intros i n c; [done|]. cbn [lost_loop]. destruct (_ !! i) as [p|]; [|done].
  destruct (negb _); [apply IH|]. etrans; [apply (Hv p)|]. etrans; [|apply IH]. done.
Qed.

Lemma lost_loop_visits visit gone fuel n c p :
  (forall p c, deeper c (visit p c)) -> (0 < fuel)%nat -> ls_sent (cn_loss c) !! 0%nat = Some p -> gone p = true ->
  deeper (visit p c) (lost_loop visit gone fuel 0 n c).2.
Proof.
  intros Hv Hf Hp Hg. destruct fuel as [|fuel]; [lia|]. cbn [lost_loop]. rewrite Hp, Hg. cbn [negb]. etrans; [|by apply lost_loop_deeper]. done.
Qed.

Lemma initiate_depth now c : cn_depth (wt_quic_connection_initiate_key_update now c).2 = cn_depth c.
Proof.
  unfold wt_quic_connection_initiate_key_update, ensure_next_keys_out, ensure_next_keys_in, restart_encrypted, retain_keys_in, set_keys_in, set_keys_out, on_key_update, on_ok, on_space.
  repeat (case_match; cbn [fst snd] in *; try done).
Qed.

Lemma limit_depth space now c :
  match limit_checked space now c with (Some r, _) => cn_depth r.2 = cn_depth c | (None, c') => cn_depth c' = cn_depth c end.
Proof.
  unfold limit_checked. destruct (_ <=? _); [|done]. pose proof (initiate_depth now c).
  destruct (_ && _); [|unfold close_with, wt_quic_connection_close; by repeat case_match]. cbv zeta. by destruct (bool_decide _).
Qed.

Notation send := (send_packet udp_send lost_handler).
Notation APP := WT_QUIC_SPACE_APPLICATION.

Lemma loss_depth f c : cn_depth (c <| cn_loss ::= f |>) = cn_depth c.
Proof. done. Qed.

Lemma detect_deeper visit space now la c : (forall p c, deeper c (visit p c)) -> deeper c (detect_lost visit space now la c).
Proof. intros Hv. unfold detect_lost. cbv zeta. rewrite loss_depth. by apply lost_loop_deeper. Qed.

Lemma send_deeper levels : forall depth, sends_deeper (send levels depth).
Proof.
  induction levels as [|lv IH]; intros depth space payload e tag now c; cbn [send_packet].
  all: destruct (negb _); [done|]; destruct (_ && _); [done|]; destruct (_ <? _); [done|].
  all: pose proof (limit_depth space now c) as Hl; destruct (limit_checked space now c) as [[r|] c']; rewrite <- Hl; [done|].
  all: destruct (Nat.leb _ _); [|by rewrite emit_depth].
  - apply Nat.le_max_r.
  - set (c1 := c' <| cn_depth ::= _ |>). assert (deeper c' c1) as H1 by apply Nat.le_max_r.
    pose proof (detect_deeper (on_lost_with lost_handler (send_encoded_with (send lv (S depth)))) space now (largest_acked_of c1 space) c1) as Hd.
    specialize (Hd (fun p c2 => on_lost_deeper _ p c2 (encoded_deeper _ (IH (S depth))))). etrans; [exact H1|]. etrans; [exact Hd|].
    set (c2 := detect_lost _ _ _ _ _). clearbody c2. destruct (Nat.leb _ _); [reflexivity|by rewrite emit_depth].
Qed.

(** The next packet finds the list full, and the first one in it, which carries a
    retained control frame, lost. *)
Record stuck c : Prop := {
  sk_keys : ss_has_keys_out (space_of c APP) = true;
  sk_peer : cn_peer c <> None;
  sk_limit : ss_aead_encrypted (space_of c APP) < cn_aead_confidentiality_limit c;
  sk_full : (WT_QUIC_SENT_PACKETS_MAX <= length (ls_sent (cn_loss c)))%nat;
  sk_packet : exists p, ls_sent (cn_loss c) !! 0%nat = Some p /\ pk_space p = space_index APP /\ pk_tag p = 0 /\
    let delay := loss_delay (Some (space_rtt c APP)) in
    packet_lost (space_index APP) delay (if delay <? cn_last_activity c then u64 (cn_last_activity c - delay) else 0) (largest_acked_of c APP) p = true;
  sk_frame : exists d k, cn_frames c !! 0%nat = Some d /\ tf_in_use d = true /\ tf_stream_id d = WT_QUIC_CONTROL_STREAM_ID /\
    0 <= tf_offset d /\ cn_control_frames c !! Z.to_nat (tf_offset d) = Some k /\ kf_in_use k = true /\ kf_space k = APP /\
    zlen (kf_wire k) <= WT_QUIC_CONNECTION_PAYLOAD_MAX - 128 }.

(** [on_lost] on the first packet of a stuck connection: the frame gets the same
    descriptor again, for the packet that is sent and the one that is in the list. *)
Lemma stuck_again depth c p : stuck c -> ls_sent (cn_loss c) !! 0%nat = Some p ->
  exists c' k tag, stuck c' /\ kf_space k = APP /\ zlen (kf_wire k) <= WT_QUIC_CONNECTION_PAYLOAD_MAX - 128 /\
    forall resend, cn_depth (on_lost_with lost_handler resend p (c <| cn_depth ::= Nat.max depth |>)) =
      cn_depth (resend (kf_space k) (kf_wire k) true tag (cn_last_activity c') c').2.
Proof.
  intros [Hk Hp Hl Hf (p' & Hp0 & Hps & Hpt & Hlost) (d & k & Hd & Hdu & Hds & Hd0 & Hkf & Hku & Hks & Hkz)] E. rewrite E in Hp0. injection Hp0 as <-.
  set (c1 := on_space APP (fun s => s <| ss_packets_declared_lost ::= incr |>) (c <| cn_depth ::= Nat.max depth |>)).
  set (f := mk_tx_frame true APP false WT_QUIC_CONTROL_STREAM_ID (tf_offset d) (zlen (kf_wire k))).
  exists (c1 <| cn_frames ::= alter (fun f => f <| tf_in_use := false |>) 0%nat |> <| cn_frames ::= <[0%nat := f]> |>), k, 0.
  assert (exists l, cn_frames c = d :: l) as [l El] by (destruct (cn_frames c) as [|d' l]; [done|]; injection Hd as ->; by exists l).
  split; [|split; [done|split; [done|]]].
  - split; try done; [by exists p|]. exists f, k. split_and!; try done. upd_simpl. change (cn_frames c1) with (cn_frames c). by rewrite El.
  - intros resend. unfold on_lost_with. cbv zeta. rewrite Hpt, Hps. change (NO_TAG <=? 0) with false. cbv iota. change (Z.to_nat 0) with 0%nat.
    change (if space_index APP =? 0 then _ else _) with APP. fold c1. change (cn_frames c1) with (cn_frames c). rewrite Hd, Hdu, Hds. cbn [negb].
    change (cn_control_frames (release_frame 0 c1)) with (cn_control_frames c). rewrite Z.eqb_refl, Hkf, Hku.
    assert (tag_for_control (Z.to_nat (tf_offset d)) (release_frame 0 c1) = (0, release_frame 0 c1 <| cn_frames ::= <[0%nat := f]> |>)) as ->.
    { unfold tag_for_control. change (cn_control_frames (release_frame 0 c1)) with (cn_control_frames c). rewrite Hkf. unfold alloc_frame.
      assert (cn_frames (release_frame 0 c1) = (d <| tf_in_use := false |>) :: l) as -> by (unfold release_frame; upd_simpl; change (cn_frames c1) with (cn_frames c); by rewrite El).
      cbn [first_index tf_in_use negb upd]. rewrite Hks, Z2Nat.id by done. done. }
    by case_bool_decide.
Qed.

(** However many calls are followed, they all happen: each of them enters
    [send_packet] again in a state that is stuck.  The C code has no level to run
    out of and exhausts its stack. *)
Lemma send_packet_recurses levels : forall depth payload e tag c,
  stuck c -> zlen payload <= WT_QUIC_CONNECTION_PAYLOAD_MAX - 128 ->
  (depth + levels <= cn_depth (send levels depth APP payload e tag (cn_last_activity c) c).2)%nat.
Proof.
  induction levels as [|lv IH]; intros depth payload e tag c Hc Hz; pose proof Hc as [Hk Hp Hl Hf (p & Hp0 & _ & _ & Hlost) _].
  all: cbn [send_packet]; rewrite Hk, (bool_decide_false _ Hp), (proj2 (Z.ltb_ge _ _) Hz); unfold limit_checked; rewrite (proj2 (Z.leb_gt _ _) Hl), (proj2 (Nat.leb_le _ _) Hf); cbn [negb andb snd].
  { rewrite Nat.add_0_r. apply Nat.le_max_l. }
  destruct (stuck_again depth c p Hc Hp0) as (c' & k & tag' & Hc' & Hks & Hkz & Hon).
  set (visit := on_lost_with _ _). set (c1 := c <| cn_depth ::= _ |>) in *. set (c2 := detect_lost _ _ _ _ _).
  assert (depth + S lv <= cn_depth c2)%nat as Hd; [|clearbody c2; destruct (Nat.leb _ _); [done|by rewrite emit_depth]].
  assert (forall p c, deeper c (visit p c)) as Hv by (intros; by apply on_lost_deeper, encoded_deeper, send_deeper).
  unfold c2, detect_lost. cbv zeta. rewrite loss_depth. etrans; [|apply (lost_loop_visits visit _ lost_fuel 0 c1 p Hv); [apply Nat.ltb_lt; by vm_compute|exact Hp0|exact Hlost]].
  unfold visit. rewrite Hon, encoded_depth, Hks. etrans; [|by apply (IH (S depth))]. lia.
Qed.
End Recursion.

(** A stuck connection is reached from the public calls: a STOP_SENDING, one
    datagram whose acknowledgement gives a round trip, and 63 more datagrams. *)
Definition stuck_client : sample_connection :=
  let c := (wt_quic_connection_open_stream true sample_client).2 in
  let c := (wt_quic_connection_stop_sending sample_socket None 0 0 7 1000 c).2 in
  let c := (wt_quic_connection_send_datagram sample_socket None 0 [1] 1000 c).2 in
  let c := (handle_ack sample_socket None 0 WT_QUIC_SPACE_APPLICATION (mk_ack 1 0 0 [] 0 None) 1100 c).2 in
  Nat.iter 63 (fun c => (wt_quic_connection_send_datagram sample_socket None 0 [1] 1200 c).2) c.

Example stuck_client_recurses :
  map (fun levels => cn_depth (wt_quic_connection_send_datagram sample_socket None levels [1] 1200 stuck_client).2) (seq 0 6) = seq 0 6.
Proof. by vm_compute. Qed.

(** ** Acknowledgements and losses *)

(** A packet without a descriptor that is lost: only counted.  Nothing is sent
    again, the layer above is not told and the window stays as it is; the credit
    [visit_frame] grants goes out in such packets. *)
Lemma undescribed_loss_ignored {X} {C : Crypto} udp_send lost_handler levels p (c : wt_quic_connection X) :
  NO_TAG <= pk_tag p ->
  let c' := on_lost udp_send lost_handler levels p c in
  cn_outbox c' = cn_outbox c /\ cn_congestion c' = cn_congestion c /\ cn_context c' = cn_context c /\ cn_control_frames c' = cn_control_frames c.
Proof. intros Ht. unfold on_lost, on_lost_with. cbv zeta. by rewrite (proj2 (Z.leb_le _ _) Ht). Qed.

(** An ACK of the Application space for number 0, while an Initial packet with
    that number is in flight: the descriptor that is freed is the Initial's, whose
    CRYPTO bytes can no longer be sent again, and the stream's is never freed. *)
Definition two_spaces : sample_connection :=
  let c := (wt_quic_connection_set_keys WT_QUIC_SPACE_INITIAL false (sample_keys 3) sample_client).2 in
  let c := (wt_quic_connection_send_crypto sample_socket None 3 WT_QUIC_SPACE_INITIAL 0 [1; 2; 3] 1000 c).2 in
  (wt_quic_connection_send_stream sample_socket None 3 0 0 [10] false 1000 (wt_quic_connection_open_stream true c).2).2.

Lemma ack_frees_another_space :
  let in_flight c := map (fun p => (pk_space p, pk_number p, pk_tag p)) (ls_sent (cn_loss c)) in
  let described c := map tf_in_use (take 2 (cn_frames c)) in
  let r := handle_ack sample_socket None 3 WT_QUIC_SPACE_APPLICATION (mk_ack 0 0 0 [] 0 None) 2000 two_spaces in
  in_flight two_spaces = [(0, 0, 0); (2, 0, 1)] /\ described two_spaces = [true; true] /\
  r.1 = WT_OK /\ in_flight r.2 = [(0, 0, 0)] /\ described r.2 = [false; true].
Proof. by vm_compute. Qed.

(** Three losses of one flight, found by one ACK: the window is halved for each. *)
Definition flight : sample_connection :=
  foldl (fun c n => (wt_quic_connection_send_stream sample_socket None 1 0 n [7] false (1000 + n) c).2)
    (wt_quic_connection_open_stream true sample_client).2 [0; 1; 2; 3; 4; 5].

Lemma each_loss_halves_the_window :
  let r := handle_ack sample_socket None 1 WT_QUIC_SPACE_APPLICATION (mk_ack 5 0 0 [] 0 None) 2000 flight in
  r.1 = WT_OK /\ map pk_number (ls_sent (cn_loss r.2)) = [3; 4] /\ cwnd (cn_congestion flight) = 14000 /\
  ssthresh (cn_congestion r.2) = (14000 + 25) / 2 / 2 / 2 /\ cwnd (cn_congestion r.2) = wt_quic_congestion_minimum_window 1400.
Proof. by vm_compute. Qed.

(** ** Timers *)

(** A probe that is already due is no timer: the caller is told to wait for
    another one, or that none is armed, while [on_timeout] has a packet to send. *)
Definition pinged : sample_connection := (send_one_frame sample_socket None 1 WT_QUIC_SPACE_APPLICATION FRAME_PING true None 1000 sample_client).2.

Lemma due_probe_not_armed :
  probe_time pinged WT_QUIC_SPACE_APPLICATION = Some 1334000 /\
  wt_quic_connection_next_timeout 1334000 pinged = Fail WT_ERR_STATE None /\
  length (cn_outbox (wt_quic_connection_on_timeout sample_socket None sample_random 1 1334000 pinged).2) = 2%nat.
Proof. by vm_compute. Qed.

(** Discarding the keys of a space leaves its packets in flight, and the probe
    timer of the others runs for them. *)
Definition keys_discarded : sample_connection :=
  let c := (wt_quic_connection_set_keys WT_QUIC_SPACE_INITIAL false (sample_keys 3) sample_client).2 in
  let c := (wt_quic_connection_send_crypto sample_socket None 3 WT_QUIC_SPACE_INITIAL 0 [1; 2; 3] 1000 c).2 in
  (wt_quic_connection_discard_keys WT_QUIC_SPACE_INITIAL c).2.

Lemma discarded_space_probes :
  let c := (wt_quic_connection_on_timeout sample_socket None sample_random 1 4000000 keys_discarded).2 in
  map pk_space (ls_sent (cn_loss keys_discarded)) = [0] /\ 0 < wt_quic_loss_bytes_in_flight (cn_loss keys_discarded) /\
  map dg_space (cn_outbox c) = [WT_QUIC_SPACE_INITIAL; WT_QUIC_SPACE_APPLICATION] /\ ls_pto_count (cn_loss c) = 1.
Proof. by vm_compute. Qed.

(** ** Frames *)

Definition encoded (frame : wt_quic_frame) : list Z :=
  writer_bytes (wt_quic_frame_encode frame (wt_writer_init (Some packet_buffer) (zlen packet_buffer))).2.

Definition server_gets (frame : wt_quic_frame) (c : sample_connection) : sample_connection :=
  (process_packet sample_socket None (Some sample_handler) 1 WT_QUIC_SPACE_APPLICATION (encoded frame) 2000 0 c).2.

Definition closed_with (c : sample_connection) : option Z :=
  if wt_quic_connection_is_closed c then Some (cl_error_code (cn_close c)) else None.

(** A frame of a stream above the limit closes the connection and is handed to the
    layer above all the same. *)
Lemma refused_stream_delivered :
  let frame := FRAME_STREAM (mk_stream_frame 400 0 false true true [1; 2; 3]) in
  closed_with (server_gets frame sample_server) = Some WT_QUIC_STREAM_LIMIT_ERROR /\ cn_context (server_gets frame sample_server) = [frame].
Proof. by vm_compute. Qed.

(** Two MAX_DATA in the wrong order close the connection. *)
Lemma reordered_max_data_closes :
  closed_with (server_gets (FRAME_MAX_DATA 5000) sample_server) = None /\
  closed_with (server_gets (FRAME_MAX_DATA 5000) (server_gets (FRAME_MAX_DATA 6000) sample_server)) = Some WT_QUIC_PROTOCOL_VIOLATION.
Proof. by vm_compute. Qed.

(** The credit [wt_quic_connection_send_max_data] grants is not the one the
    connection checks: the peer that uses it is closed. *)
Lemma granted_credit_not_enforced :
  let c := (wt_quic_connection_send_max_data sample_socket None 1 5000 1500 (wt_quic_connection_set_max_data 1000 sample_server).2).2 in
  cn_local_max_data c = 5000 /\ fl_max_data (cn_flow c) = 1000 /\
  closed_with (server_gets (FRAME_STREAM (mk_stream_frame 0 0 false true true (replicate 1001 7))) c) = Some WT_QUIC_FLOW_CONTROL_ERROR.
Proof. by vm_compute. Qed.

(** One datagram received twice is processed twice. *)
Lemma duplicate_packet_processed :
  let receive d c := (wt_quic_connection_receive sample_socket None (Some sample_handler) 2 (Ok (sample_address 2, dg_bytes d)) 2000 c).2 in
  match cn_outbox (wt_quic_connection_send_datagram sample_socket None 0 [9] 1000 sample_client).2 with
  | [d] => cn_context (receive d (receive d sample_server)) = [FRAME_DATAGRAM [9]; FRAME_DATAGRAM [9]]
  | _ => False
  end.
Proof. by vm_compute. Qed.

(** A NEW_CONNECTION_ID that retires what it has to, at the limit of 4: refused. *)
Definition new_id (sequence retire_prior_to : Z) (c : sample_connection) : sample_connection :=
  (handle_new_connection_id sample_socket None 1 sequence retire_prior_to (replicate 4 (10 + sequence)) (replicate 16 sequence) 2000 c).2.

Lemma retiring_id_refused :
  let c := new_id 3 0 (new_id 2 0 (new_id 1 0 sample_client)) in
  cf_local_active_connection_id_limit (cn_config c) = 4 /\ closed_with c = None /\ closed_with (new_id 4 3 c) = Some WT_QUIC_CONNECTION_ID_LIMIT_ERROR.
Proof. by vm_compute. Qed.
