(* ===== verification/Handshake.v ===== *)
(** * The handshake over CRYPTO frames: [src/quic/handshake.c], with [handshake.h]

    The join of a connection and a TLS machine: CRYPTO frames are put in order, cut
    into handshake messages and fed to the machine; what it answers is queued for
    the level it belongs to and the keys of each level are installed as the machine
    makes them available.  The TLS machines ([src/tls]) are behind the interfaces
    [TlsClient] and [TlsServer]; the handshake is in the state of the layer above
    the connection, next to whatever else is there. *)

From S2P Require Import Prelude Core Crypto Protection Frame CryptoStream PnSpace Update.
From S2P Require Export Connection ConnectionKeys ConnectionSend.

Definition WT_QUIC_HANDSHAKE_RETRANSMIT_MAX : nat := 8.
Definition WT_QUIC_HANDSHAKE_ALPN_MAX : Z := 64.
Definition WT_QUIC_HANDSHAKE_PARAMETERS_MAX : Z := 1024.
Definition WT_QUIC_HANDSHAKE_FLIGHT_MAX : Z := 4096.
Definition WT_QUIC_HANDSHAKE_MESSAGE_MAX : Z := 1024.
Definition WT_QUIC_HANDSHAKE_PACKET_RESERVE : Z := 128.
Definition WT_TLS_CLIENT_HELLO_MAX : Z := 1024.
Definition WT_TLS_HANDSHAKE_HEADER_LEN : Z := 4.
Definition WT_QUIC_FRAME_CRYPTO : Z := 6.

(** ** The TLS machines *)

Inductive wt_tls_client_state :=
  | WT_TLS_CLIENT_START | WT_TLS_CLIENT_WAIT_SERVER_HELLO | WT_TLS_CLIENT_WAIT_ENCRYPTED_EXTENSIONS
  | WT_TLS_CLIENT_WAIT_CERTIFICATE | WT_TLS_CLIENT_WAIT_CERTIFICATE_VERIFY | WT_TLS_CLIENT_WAIT_FINISHED
  | WT_TLS_CLIENT_CONNECTED | WT_TLS_CLIENT_FAILED.
Inductive wt_tls_server_state :=
  | WT_TLS_SERVER_START | WT_TLS_SERVER_WAIT_CLIENT_HELLO | WT_TLS_SERVER_WAIT_CLIENT_FINISHED
  | WT_TLS_SERVER_CONNECTED | WT_TLS_SERVER_FAILED.

#[export] Instance client_state_eq_dec : EqDecision wt_tls_client_state.
Proof. solve_decision. Defined.
#[export] Instance server_state_eq_dec : EqDecision wt_tls_server_state.
Proof. solve_decision. Defined.

(** The order of the enums, which the code compares in. *)
Definition client_past_hello (s : wt_tls_client_state) : bool :=
  match s with WT_TLS_CLIENT_START | WT_TLS_CLIENT_WAIT_SERVER_HELLO => false | _ => true end.
Definition server_past_hello (s : wt_tls_server_state) : bool :=
  match s with WT_TLS_SERVER_START | WT_TLS_SERVER_WAIT_CLIENT_HELLO => false | _ => true end.

(** A machine consumes one message and answers at most so many bytes, which count
    when the status is WT_OK; a
    secret pair is the read secret and the write secret; [None] is a NULL view. *)
Class TlsClient (T : Type) := {
  client_config : Type;
  client_zeroed : T;
  wt_tls_client_begin_built : client_config -> T -> wt_status * list Z * T;
  wt_tls_client_receive : list Z -> Z -> T -> wt_status * list Z * T;
  client_state : T -> wt_tls_client_state;
  wt_tls_client_handshake_secrets : T -> outcome (list Z * list Z);
  wt_tls_client_application_secrets : T -> outcome (list Z * list Z);
  wt_tls_client_alpn : T -> option (list Z);
  wt_tls_client_transport_parameters : T -> option (list Z) }.
Class TlsServer (T : Type) := {
  server_config : Type;
  server_zeroed : T;
  wt_tls_server_begin : server_config -> T -> wt_status * T;
  wt_tls_server_receive : list Z -> Z -> T -> wt_status * list Z * T;
  wt_tls_server_flight : Z -> T -> wt_status * list Z * T;
  server_state : T -> wt_tls_server_state;
  wt_tls_server_handshake_secrets : T -> outcome (list Z * list Z);
  wt_tls_server_application_secrets : T -> outcome (list Z * list Z);
  wt_tls_server_alpn : T -> option (list Z);
  wt_tls_server_transport_parameters : T -> option (list Z) }.

(** The length of the message at the front of the bytes; 0 when it is not whole. *)
Definition wt_tls_handshake_message_len (bytes : list Z) : Z :=
  if zlen bytes <? WT_TLS_HANDSHAKE_HEADER_LEN then 0
  else
    let body := Z.lor (Z.lor (Z.shiftl (byte_at bytes 1) 16) (Z.shiftl (byte_at bytes 2) 8)) (byte_at bytes 3) in
    if zlen bytes - WT_TLS_HANDSHAKE_HEADER_LEN <? body then 0 else body + WT_TLS_HANDSHAKE_HEADER_LEN.

(** ** The handshake *)

Inductive wt_quic_handshake_state :=
  | WT_QUIC_HANDSHAKE_IDLE | WT_QUIC_HANDSHAKE_CLIENT_WAITING | WT_QUIC_HANDSHAKE_SERVER_WAITING
  | WT_QUIC_HANDSHAKE_CONNECTED | WT_QUIC_HANDSHAKE_FAILED.
#[export] Instance handshake_state_eq_dec : EqDecision wt_quic_handshake_state.
Proof. solve_decision. Defined.

(** A lost range waiting to be sent again. *)
Record wt_quic_handshake_retransmit := mk_retransmit {
  ht_in_use : bool;
  ht_space : wt_quic_space;
  ht_offset : Z;
  ht_length : Z }.

(** An array indexed by the packet number spaces. *)
Record per_space (A : Type) := mk_per_space { ps_initial : A; ps_handshake : A; ps_application : A }.
Arguments mk_per_space {A}.
Arguments ps_initial {A}.
Arguments ps_handshake {A}.
Arguments ps_application {A}.

Definition at_space {A} (space : wt_quic_space) (p : per_space A) : A :=
  match space with
  | WT_QUIC_SPACE_INITIAL => ps_initial p
  | WT_QUIC_SPACE_HANDSHAKE => ps_handshake p
  | WT_QUIC_SPACE_APPLICATION => ps_application p
  end.
Definition alter_space {A} (space : wt_quic_space) (f : A -> A) (p : per_space A) : per_space A :=
  match space with
  | WT_QUIC_SPACE_INITIAL => mk_per_space (f (ps_initial p)) (ps_handshake p) (ps_application p)
  | WT_QUIC_SPACE_HANDSHAKE => mk_per_space (ps_initial p) (f (ps_handshake p)) (ps_application p)
  | WT_QUIC_SPACE_APPLICATION => mk_per_space (ps_initial p) (ps_handshake p) (f (ps_application p))
  end.

(** [hs_alpn] and [hs_peer_parameters] are the copies up to their lengths; the
    pointer to the connection is not a field: the handshake is part of the state of
    the connection it protects. *)
Record wt_quic_handshake (TC TS : Type) := mk_handshake {
  hs_live : bool;
  hs_is_client : bool;
  hs_client : TC;
  hs_server : TS;
  hs_send : per_space wt_quic_crypto_send;
  hs_recv : per_space wt_quic_crypto_recv;
  hs_retransmit : list wt_quic_handshake_retransmit;
  hs_state : wt_quic_handshake_state;
  hs_failure : wt_status;
  hs_error_code : Z;
  hs_handshake_keys_installed : bool;
  hs_application_keys_installed : bool;
  hs_server_flight_built : bool;
  hs_handshake_done_pending : bool;
  hs_confirmed : bool;
  hs_alpn : list Z;
  hs_peer_parameters : list Z }.
Arguments mk_handshake {TC TS}.
Arguments hs_live {TC TS}.
Arguments hs_is_client {TC TS}.
Arguments hs_client {TC TS}.
Arguments hs_server {TC TS}.
Arguments hs_send {TC TS}.
Arguments hs_recv {TC TS}.
Arguments hs_retransmit {TC TS}.
Arguments hs_state {TC TS}.
Arguments hs_failure {TC TS}.
Arguments hs_error_code {TC TS}.
Arguments hs_handshake_keys_installed {TC TS}.
Arguments hs_application_keys_installed {TC TS}.
Arguments hs_server_flight_built {TC TS}.
Arguments hs_handshake_done_pending {TC TS}.
Arguments hs_confirmed {TC TS}.
Arguments hs_alpn {TC TS}.
Arguments hs_peer_parameters {TC TS}.

#[export] Instance eta_handshake TC TS : Eta (wt_quic_handshake TC TS) := fun h =>
  mk_handshake (hs_live h) (hs_is_client h) (hs_client h) (hs_server h) (hs_send h) (hs_recv h) (hs_retransmit h) (hs_state h) (hs_failure h)
    (hs_error_code h) (hs_handshake_keys_installed h) (hs_application_keys_installed h) (hs_server_flight_built h)
    (hs_handshake_done_pending h) (hs_confirmed h) (hs_alpn h) (hs_peer_parameters h).
#[export] Instance eta_retransmit : Eta wt_quic_handshake_retransmit := fun r =>
  mk_retransmit (ht_in_use r) (ht_space r) (ht_offset r) (ht_length r).

Section Operations.
Context {TC TS A : Type} `{TlsClient TC} `{TlsServer TS} {C : Crypto}.
Notation handshake := (wt_quic_handshake TC TS).
Notation connection := (wt_quic_connection (handshake * A)).
Implicit Types c : connection.

Definition handshake_of c : handshake := (cn_context c).1.
Definition on_handshake (f : handshake -> handshake) c : connection := c <| cn_context ::= (fun x => (f x.1, x.2)) |>.

(** RFC 9000 section 20.1: CRYPTO_ERROR with a TLS alert in the low byte. *)
Definition alert_for (status : wt_status) : Z :=
  Z.lor 0x0100
    match status with
    | WT_ERR_INVALID_ARGUMENT => 47
    | WT_ERR_PROTOCOL | WT_ERR_TRUNCATED => 50
    | WT_ERR_TLS => 40
    | WT_ERR_STATE => 10
    | WT_ERR_TRUST => 42
    | WT_ERR_AUTHENTICATION => 51
    | _ => 80
    end.

Definition name_close (code frame_type : Z) c : connection :=
  c <| cn_hint ::= (fun h => h <| hn_code := code |> <| hn_frame_type := frame_type |> <| hn_set := true |>) |>.

(** The handshake has failed, with the code the connection is to close with. *)
Definition fail_with (status : wt_status) (code frame_type : Z) c : connection :=
  name_close code frame_type
    (on_handshake (fun h => h <| hs_state := WT_QUIC_HANDSHAKE_FAILED |> <| hs_failure := status |> <| hs_error_code := code |>) c).

Definition fail (status : wt_status) (frame_type : Z) c : connection := fail_with status (alert_for status) frame_type c.

Definition or_fail (r : wt_status * connection) : wt_status * connection :=
  if bool_decide (r.1 = WT_OK) then r else (r.1, fail r.1 WT_QUIC_FRAME_CRYPTO r.2).

(** ** Keys *)

Definition install_key (space : wt_quic_space) (inbound : bool) (secret : list Z) c : wt_status * connection :=
  match wt_quic_packet_keys_from_secret secret (cf_aead (cn_config c)) with
  | Fail e _ => (e, c)
  | Ok keys => wt_quic_connection_set_keys space inbound keys c
  end.

(** The two secrets of a level: read, then write. *)
Definition install_level (space : wt_quic_space) (secrets : list Z * list Z) c : wt_status * connection :=
  c <-! install_key space true secrets.1 c;; install_key space false secrets.2 c.

Definition install_handshake_keys c : wt_status * connection :=
  let h := handshake_of c in
  if hs_handshake_keys_installed h then (WT_OK, c)
  else
    match (if hs_is_client h then wt_tls_client_handshake_secrets (hs_client h) else wt_tls_server_handshake_secrets (hs_server h)) with
    | Fail e _ => (e, c)
    | Ok secrets =>
        if negb (ss_has_keys_in (space_of c WT_QUIC_SPACE_INITIAL)) then (WT_ERR_STATE, c)
        else c <-! install_level WT_QUIC_SPACE_HANDSHAKE secrets c;; (WT_OK, on_handshake (fun h => h <| hs_handshake_keys_installed := true |>) c)
    end.

Definition install_application_keys c : wt_status * connection :=
  let h := handshake_of c in
  if hs_application_keys_installed h then (WT_OK, c)
  else
    match (if hs_is_client h then wt_tls_client_application_secrets (hs_client h) else wt_tls_server_application_secrets (hs_server h)) with
    | Fail e _ => (e, c)
    | Ok secrets =>
        c <-! install_level WT_QUIC_SPACE_APPLICATION secrets c;; (WT_OK, on_handshake (fun h => h <| hs_application_keys_installed := true |>) c)
    end.

(** ** Messages *)

(** What the machine produced goes to the level it belongs to. *)
Definition queue_message (space : wt_quic_space) (message : list Z) c : wt_status * connection :=
  let r := wt_quic_crypto_send_append (at_space space (hs_send (handshake_of c))) message in
  let c := on_handshake (fun h => h <| hs_send ::= alter_space space (fun _ => r.2) |>) c in
  if bool_decide (r.1 = WT_ERR_LIMIT) then (r.1, fail WT_ERR_LIMIT 0 c) else (r.1, c).

(** The machine's turn: its answer and what it is afterwards. *)
Definition tls_receive (message : list Z) c : wt_status * list Z * connection :=
  let h := handshake_of c in
  if hs_is_client h
  then let r := wt_tls_client_receive message WT_QUIC_HANDSHAKE_MESSAGE_MAX (hs_client h) in (r.1, on_handshake (fun h => h <| hs_client := r.2 |>) c)
  else let r := wt_tls_server_receive message WT_QUIC_HANDSHAKE_MESSAGE_MAX (hs_server h) in (r.1, on_handshake (fun h => h <| hs_server := r.2 |>) c).

(** The protocol and the parameters are copied the first time they are seen. *)
Definition copy_alpn c : connection :=
  let h := handshake_of c in
  let view := default [] (if hs_is_client h then wt_tls_client_alpn (hs_client h) else wt_tls_server_alpn (hs_server h)) in
  if (zlen (hs_alpn h) =? 0) && negb (zlen view =? 0) && (zlen view <=? WT_QUIC_HANDSHAKE_ALPN_MAX)
  then on_handshake (fun h => h <| hs_alpn := view |>) c else c.

Definition copy_parameters c : wt_status * connection :=
  let h := handshake_of c in
  let view := default [] (if hs_is_client h then wt_tls_client_transport_parameters (hs_client h) else wt_tls_server_transport_parameters (hs_server h)) in
  if (zlen (hs_peer_parameters h) =? 0) && negb (zlen view =? 0) then
    if WT_QUIC_HANDSHAKE_PARAMETERS_MAX <? zlen view
    then (WT_ERR_LIMIT, fail_with WT_ERR_LIMIT WT_QUIC_TRANSPORT_PARAMETER_ERROR WT_QUIC_FRAME_CRYPTO c)
    else (WT_OK, on_handshake (fun h => h <| hs_peer_parameters := view |>) c)
  else (WT_OK, c).

Definition consume (space : wt_quic_space) (length : nat) c : wt_status * connection :=
  let r := wt_quic_crypto_recv_consume (at_space space (hs_recv (handshake_of c))) length in
  (r.1, on_handshake (fun h => h <| hs_recv ::= alter_space space (fun _ => r.2) |>) c).

(** The keys a client's machine has made available. *)
Definition client_progress c : wt_status * connection :=
  c <-! (if client_past_hello (client_state (hs_client (handshake_of c))) then or_fail (install_handshake_keys c) else (WT_OK, c));;
  if bool_decide (client_state (hs_client (handshake_of c)) = WT_TLS_CLIENT_CONNECTED) then
    c <-! or_fail (install_application_keys c);; (WT_OK, on_handshake (fun h => h <| hs_state := WT_QUIC_HANDSHAKE_CONNECTED |>) c)
  else (WT_OK, c).

(** The rest of the server's flight, built once. *)
Definition build_flight c : wt_status * connection :=
  if hs_server_flight_built (handshake_of c) then (WT_OK, c)
  else
    let r := wt_tls_server_flight WT_QUIC_HANDSHAKE_FLIGHT_MAX (hs_server (handshake_of c)) in
    let c := on_handshake (fun h => h <| hs_server := r.2 |>) c in
    if bool_decide (r.1.1 = WT_OK) then queue_message WT_QUIC_SPACE_HANDSHAKE r.1.2 (on_handshake (fun h => h <| hs_server_flight_built := true |>) c)
    else (r.1.1, fail r.1.1 WT_QUIC_FRAME_CRYPTO c).

Definition server_progress c : wt_status * connection :=
  c <-! (if server_past_hello (server_state (hs_server (handshake_of c)))
         then c <-! or_fail (install_handshake_keys c);; build_flight c else (WT_OK, c));;
  if bool_decide (server_state (hs_server (handshake_of c)) = WT_TLS_SERVER_CONNECTED) then
    c <-! or_fail (install_application_keys c);;
    (WT_OK, (wt_quic_connection_discard_keys WT_QUIC_SPACE_HANDSHAKE
               (on_handshake (fun h => h <| hs_state := WT_QUIC_HANDSHAKE_CONNECTED |> <| hs_confirmed := true |> <| hs_handshake_done_pending := true |>) c)).2)
  else (WT_OK, c).

(** One whole message of a level. *)
Definition one_message (space : wt_quic_space) (message : list Z) c : wt_status * connection :=
  let r := tls_receive message c in
  if negb (bool_decide (r.1.1 = WT_OK)) then (r.1.1, fail r.1.1 WT_QUIC_FRAME_CRYPTO r.2)
  else
    c <-! copy_parameters (copy_alpn r.2);;
    c <-! consume space (length message) c;;
    c <-! (if negb (zlen r.1.2 =? 0)
           then queue_message (if hs_is_client (handshake_of c) then WT_QUIC_SPACE_HANDSHAKE else WT_QUIC_SPACE_INITIAL) r.1.2 c else (WT_OK, c));;
    if hs_is_client (handshake_of c) then client_progress c else server_progress c.

(** What can be read of a level. *)
Definition readable (space : wt_quic_space) c : list Z :=
  let r := at_space space (hs_recv (handshake_of c)) in take (wt_quic_crypto_recv_available r) (cr_data r).

(** [for (;;)]: a message costs at least a byte of the window, whose size is the fuel. *)
Fixpoint process_loop (fuel : nat) (space : wt_quic_space) c : wt_status * connection :=
  match fuel with
  | O => (WT_OK, c)
  | S fuel =>
      let data := readable space c in
      let message_len := wt_tls_handshake_message_len data in
      if (zlen data =? 0) || (message_len =? 0) || (zlen data <? message_len) then (WT_OK, c)
      else c <-! one_message space (ztake message_len data) c;; process_loop fuel space c
  end.

Definition process_messages : wt_quic_space -> connection -> wt_status * connection := process_loop (WT_QUIC_CRYPTO_BUFFER_MAX + 1).

(** ** The connection's handlers *)

Definition on_crypto (space : wt_quic_space) (offset : Z) (data : list Z) c : wt_status * connection :=
  let r := wt_quic_crypto_recv_insert (at_space space (hs_recv (handshake_of c))) offset data in
  let c := on_handshake (fun h => h <| hs_recv ::= alter_space space (fun _ => r.2) |>) c in
  if bool_decide (r.1 = WT_ERR_LIMIT) then (r.1, fail_with r.1 WT_QUIC_CRYPTO_BUFFER_EXCEEDED WT_QUIC_FRAME_CRYPTO c)
  else if negb (bool_decide (r.1 = WT_OK)) then (r.1, c)
  else process_messages space c.

Definition wt_quic_handshake_on_frame (space : wt_quic_space) (frame : wt_quic_frame) c : wt_status * connection :=
  if bool_decide (hs_state (handshake_of c) = WT_QUIC_HANDSHAKE_FAILED) then (WT_OK, c)
  else
    match frame with
    | FRAME_CRYPTO offset data => on_crypto space offset data c
    | FRAME_HANDSHAKE_DONE =>
        (WT_OK,
         if hs_is_client (handshake_of c)
         then (wt_quic_connection_discard_keys WT_QUIC_SPACE_HANDSHAKE
                 (on_handshake (fun h => h <| hs_confirmed := true |>) (c <| cn_handshake_confirmed := true |>))).2
         else c)
    | _ => (WT_OK, c)
    end.

(** A lost range takes the first free slot; with none free it is let go. *)
Definition wt_quic_handshake_on_lost (frame : wt_quic_tx_frame) c : connection :=
  if negb (tf_is_crypto frame) then c
  else
    match first_index (fun r => negb (ht_in_use r)) (hs_retransmit (handshake_of c)) with
    | Some i => on_handshake (fun h => h <| hs_retransmit ::= <[i := mk_retransmit true (tf_space frame) (tf_offset frame) (tf_length frame)]> |>) c
    | None => c
    end.

(** ** Sending *)

(** The room of one CRYPTO frame: a Retry's token comes off it, if it is short. *)
Definition crypto_range_max c : Z :=
  let datagram := cf_max_datagram_size (cn_config c) in
  let token := zlen (rt_token (cn_retry c)) in
  let reserved := if rt_accepted (cn_retry c) && (token <? WT_QUIC_HANDSHAKE_PACKET_RESERVE)
                  then WT_QUIC_HANDSHAKE_PACKET_RESERVE + token else WT_QUIC_HANDSHAKE_PACKET_RESERVE in
  if datagram <=? reserved then 1 else datagram - reserved.

Section Sending.
(** [wt_quic_connection_send_crypto] and the frame sender, at the time of the flush. *)
Context (send_crypto : wt_quic_space -> Z -> list Z -> connection -> wt_status * connection).
Context (send_frame : wt_quic_space -> wt_quic_frame -> bool -> connection -> wt_status * connection).

(** A loop that may return from the middle: the status returned, or [None]. *)
Definition turn : Type := option wt_status * connection.

Definition and_then (r : turn) (k : connection -> turn) : turn := match r.1 with None => k r.2 | Some _ => r end.

(** After a send: [WT_ERR_AGAIN] and [WT_ERR_LIMIT] end the flush without an error. *)
Definition after_send (r : wt_status * connection) (k : connection -> turn) : turn :=
  match r.1 with
  | WT_OK => k r.2
  | WT_ERR_AGAIN | WT_ERR_LIMIT => (Some WT_OK, r.2)
  | e => (Some e, r.2)
  end.

Definition clear_slot (i : nat) : connection -> connection :=
  on_handshake (fun h => h <| hs_retransmit ::= alter (fun r => r <| ht_in_use := false |>) i |>).

Definition resend_slot (i : nat) c : turn :=
  match hs_retransmit (handshake_of c) !! i with
  | None => (None, c)   (* [i] is a slot *)
  | Some r =>
      if negb (ht_in_use r) then (None, c)
      else
        match wt_quic_crypto_send_retransmit (at_space (ht_space r) (hs_send (handshake_of c))) (ht_offset r) (ht_length r) with
        | Fail _ _ => (None, clear_slot i c)
        | Ok data => after_send (send_crypto (ht_space r) (ht_offset r) data c) (fun c => (None, clear_slot i c))
        end
  end.

Fixpoint resend_slots (slots : list nat) c : turn :=
  match slots with
  | [] => (None, c)
  | i :: slots => and_then (resend_slot i c) (resend_slots slots)
  end.

(** The unsent bytes of a level, a range at a time; a range has at least a byte, and
    the buffer's size is the fuel. *)
Fixpoint send_level (fuel : nat) (space : wt_quic_space) c : turn :=
  match fuel with
  | O => (None, c)
  | S fuel =>
      match wt_quic_crypto_send_next (at_space space (hs_send (handshake_of c))) (crypto_range_max c) with
      | Fail WT_ERR_STATE _ => (None, c)
      | Fail e _ => (Some e, c)
      | Ok (offset, data) =>
          after_send (send_crypto space offset data c) (fun c =>
            let r := wt_quic_crypto_send_advance (at_space space (hs_send (handshake_of c))) (zlen data) in
            let c := on_handshake (fun h => h <| hs_send ::= alter_space space (fun _ => r.2) |>) c in
            if bool_decide (r.1 = WT_OK) then send_level fuel space c else (Some r.1, c))
      end
  end.

Fixpoint send_levels (spaces : list wt_quic_space) c : turn :=
  match spaces with
  | [] => (None, c)
  | space :: spaces => and_then (send_level (WT_QUIC_CRYPTO_BUFFER_MAX + 1) space c) (send_levels spaces)
  end.

Definition send_done c : wt_status * connection :=
  if hs_handshake_done_pending (handshake_of c) && ss_has_keys_out (space_of c WT_QUIC_SPACE_APPLICATION) then
    let r := send_frame WT_QUIC_SPACE_APPLICATION FRAME_HANDSHAKE_DONE true c in
    match r.1 with
    | WT_OK => (WT_OK, on_handshake (fun h => h <| hs_handshake_done_pending := false |>) r.2)
    | WT_ERR_AGAIN | WT_ERR_LIMIT => (WT_OK, r.2)
    | e => (e, r.2)
    end
  else (WT_OK, c).

Definition flush_with c : wt_status * connection :=
  if bool_decide (hs_state (handshake_of c) = WT_QUIC_HANDSHAKE_IDLE) || bool_decide (hs_state (handshake_of c) = WT_QUIC_HANDSHAKE_FAILED)
  then (WT_OK, c)
  else
    let r := and_then (resend_slots (seq 0 WT_QUIC_HANDSHAKE_RETRANSMIT_MAX) c) (send_levels all_spaces) in
    match r.1 with Some st => (st, r.2) | None => send_done r.2 end.
End Sending.

Definition wt_quic_handshake_flush (udp_send : list sent_datagram -> option wt_udp_address -> list Z -> wt_status)
    (lost_handler : option (wt_quic_tx_frame -> connection -> connection)) (levels : nat) (now : Z) : connection -> wt_status * connection :=
  flush_with (fun space offset data => wt_quic_connection_send_crypto udp_send lost_handler levels space offset data now)
    (fun space frame ack_eliciting => wt_quic_connection_send_frame udp_send lost_handler levels space frame ack_eliciting now).

Definition wt_quic_handshake_pending c : bool :=
  let h := handshake_of c in
  if bool_decide (hs_state h = WT_QUIC_HANDSHAKE_IDLE) || bool_decide (hs_state h = WT_QUIC_HANDSHAKE_FAILED) then false
  else
    wt_quic_crypto_send_pending (ps_initial (hs_send h)) || wt_quic_crypto_send_pending (ps_handshake (hs_send h)) ||
    wt_quic_crypto_send_pending (ps_application (hs_send h)) || existsb ht_in_use (hs_retransmit h) || hs_handshake_done_pending h.

(** ** Start and end *)

Definition zeroed_handshake (is_client : bool) : handshake :=
  mk_handshake false is_client client_zeroed server_zeroed
    (mk_per_space wt_quic_crypto_send_init wt_quic_crypto_send_init wt_quic_crypto_send_init)
    (mk_per_space wt_quic_crypto_recv_init wt_quic_crypto_recv_init wt_quic_crypto_recv_init)
    (replicate WT_QUIC_HANDSHAKE_RETRANSMIT_MAX (mk_retransmit false WT_QUIC_SPACE_INITIAL 0 0))
    WT_QUIC_HANDSHAKE_IDLE WT_OK 0 false false false false false [] [].

Definition start_failed (e : wt_status) : connection -> connection :=
  on_handshake (fun h => h <| hs_failure := e |> <| hs_state := WT_QUIC_HANDSHAKE_FAILED |>).

Definition wt_quic_handshake_start_client (config : client_config (T := TC)) c : wt_status * connection :=
  let r := wt_tls_client_begin_built config client_zeroed in
  let c := on_handshake (fun _ => zeroed_handshake true <| hs_client := r.2 |>) c in
  if bool_decide (r.1.1 = WT_OK) then
    c <-! queue_message WT_QUIC_SPACE_INITIAL r.1.2 c;;
    (WT_OK, on_handshake (fun h => h <| hs_live := true |> <| hs_state := WT_QUIC_HANDSHAKE_CLIENT_WAITING |>) c)
  else (r.1.1, start_failed r.1.1 c).

Definition wt_quic_handshake_start_server (config : server_config (T := TS)) c : wt_status * connection :=
  let r := wt_tls_server_begin config server_zeroed in
  let c := on_handshake (fun _ => zeroed_handshake false <| hs_server := r.2 |>) c in
  if bool_decide (r.1 = WT_OK)
  then (WT_OK, on_handshake (fun h => h <| hs_live := true |> <| hs_state := WT_QUIC_HANDSHAKE_SERVER_WAITING |>) c)
  else (r.1, start_failed r.1 c).

(** Everything is released, the connection included: only a start may follow. *)
Definition wt_quic_handshake_clear : connection -> connection := on_handshake (fun _ => zeroed_handshake false).
End Operations.
