(* ===== verification/HandshakeSample.v ===== *)
(** Two ends of a handshake to evaluate with: TLS machines that count messages, on
    connections that hold Initial keys. *)

From S2P Require Import Prelude Core Crypto Protection PacketIo Frame CryptoStream Update ConnectionSample.
From S2P Require Export Handshake.

(** A client that takes a ServerHello and a Finished, whatever they say, and keeps
    what it was given, newest first. *)
Record toy_client := mk_toy_client { tc_state : wt_tls_client_state; tc_seen : list (list Z) }.
Record toy_server := mk_toy_server { ts_state : wt_tls_server_state; ts_seen : list (list Z) }.

Definition toy_secrets (n : Z) : list Z * list Z := (replicate 32 n, replicate 32 (n + 1)).

#[export] Instance toy_tls_client : TlsClient toy_client := {
  client_config := list Z;
  client_zeroed := mk_toy_client WT_TLS_CLIENT_START [];
  wt_tls_client_begin_built hello _ := (WT_OK, hello, mk_toy_client WT_TLS_CLIENT_WAIT_SERVER_HELLO []);
  wt_tls_client_receive message _ t :=
    match tc_state t with
    | WT_TLS_CLIENT_WAIT_SERVER_HELLO => (WT_OK, [], mk_toy_client WT_TLS_CLIENT_WAIT_FINISHED (message :: tc_seen t))
    | WT_TLS_CLIENT_WAIT_FINISHED => (WT_OK, [20; 0; 0; 1; 99], mk_toy_client WT_TLS_CLIENT_CONNECTED (message :: tc_seen t))
    | _ => (WT_ERR_STATE, [], mk_toy_client WT_TLS_CLIENT_FAILED (tc_seen t))
    end;
  client_state := tc_state;
  wt_tls_client_handshake_secrets t := if client_past_hello (tc_state t) then Ok (toy_secrets 1) else Fail WT_ERR_STATE None;
  wt_tls_client_application_secrets t := if bool_decide (tc_state t = WT_TLS_CLIENT_CONNECTED) then Ok (toy_secrets 3) else Fail WT_ERR_STATE None;
  wt_tls_client_alpn t := Some [104; 51];
  wt_tls_client_transport_parameters t := Some [1; 2; 3] }.

#[export] Instance toy_tls_server : TlsServer toy_server := {
  server_config := unit;
  server_zeroed := mk_toy_server WT_TLS_SERVER_START [];
  wt_tls_server_begin _ _ := (WT_OK, mk_toy_server WT_TLS_SERVER_WAIT_CLIENT_HELLO []);
  wt_tls_server_receive message _ t :=
    match ts_state t with
    | WT_TLS_SERVER_WAIT_CLIENT_HELLO => (WT_OK, [2; 0; 0; 0], mk_toy_server WT_TLS_SERVER_WAIT_CLIENT_FINISHED (message :: ts_seen t))
    | WT_TLS_SERVER_WAIT_CLIENT_FINISHED => (WT_OK, [], mk_toy_server WT_TLS_SERVER_CONNECTED (message :: ts_seen t))
    | _ => (WT_ERR_STATE, [], mk_toy_server WT_TLS_SERVER_FAILED (ts_seen t))
    end;
  wt_tls_server_flight _ t := (WT_OK, [20; 0; 0; 2; 7; 8], t);
  server_state := ts_state;
  wt_tls_server_handshake_secrets t := if server_past_hello (ts_state t) then Ok (toy_secrets 1) else Fail WT_ERR_STATE None;
  wt_tls_server_application_secrets t := if bool_decide (ts_state t = WT_TLS_SERVER_CONNECTED) then Ok (toy_secrets 3) else Fail WT_ERR_STATE None;
  wt_tls_server_alpn t := Some [104; 51];
  wt_tls_server_transport_parameters t := Some [1; 2; 3] }.

Notation toy_handshake := (wt_quic_handshake toy_client toy_server).
Notation toy_connection := (wt_quic_connection (toy_handshake * unit)).

Notation before_handshake role local peer :=
  (is_Some_proj (mx := (wt_quic_connection_init (X := toy_handshake * unit) (sample_config role local peer) (zeroed_handshake false, ())).2) (ltac:(by eexists))).

(** With Initial keys in both directions. *)
Definition with_initial_keys (c : toy_connection) : toy_connection :=
  let c := (wt_quic_connection_attach (Some (sample_address 1)) c).2 in
  let c := (wt_quic_connection_set_keys WT_QUIC_SPACE_INITIAL true (sample_keys 5) c).2 in
  (wt_quic_connection_set_keys WT_QUIC_SPACE_INITIAL false (sample_keys 5) c).2.

Definition waiting_client : toy_connection :=
  (wt_quic_handshake_start_client (TC := toy_client) (TS := toy_server) ([1; 0; 0; 8] ++ replicate 8 77)
     (with_initial_keys (before_handshake WT_QUIC_ROLE_CLIENT [1; 2; 3; 4] [5; 6; 7; 8]))).2.
Definition waiting_server : toy_connection :=
  (wt_quic_handshake_start_server (TC := toy_client) (TS := toy_server) ()
     (with_initial_keys (before_handshake WT_QUIC_ROLE_SERVER [5; 6; 7; 8] [1; 2; 3; 4]))).2.
