(* ===== verification/HandshakeReads.v ===== *)
(** * What the TLS machine is given

    However the bytes of a level are cut into CRYPTO frames, and in whatever order,
    overlap and repetition these arrive, the machine is handed the messages of the
    level's byte stream, each whole, once and in order, as soon as they are there. *)

From S2P Require Import Prelude Core Crypto Protection CryptoStream Frame Update.
From S2P Require Export Handshake HandshakeSample.

Section Reads.
Context {TC TS A : Type} `{TlsClient TC} `{TlsServer TS} {C : Crypto}.
Notation connection := (wt_quic_connection (wt_quic_handshake TC TS * A)).
Implicit Types c : connection.

(** ** Everything but the reassembler *)

Definition set_recv (space : wt_quic_space) (r : wt_quic_crypto_recv) : connection -> connection :=
  on_handshake (fun h => h <| hs_recv ::= alter_space space (fun _ => r) |>).
Definition recv_of (space : wt_quic_space) c : wt_quic_crypto_recv := at_space space (hs_recv (handshake_of c)).

(** An operation that neither reads nor changes the reassembler of a level. *)
Definition blind (space : wt_quic_space) (op : connection -> wt_status * connection) : Prop :=
  forall r c, op (set_recv space r c) = ((op c).1, set_recv space r (op c).2).
Definition blind_update (space : wt_quic_space) (f : connection -> connection) : Prop :=
  forall r c, f (set_recv space r c) = set_recv space r (f c).
Definition blind_read {B} (space : wt_quic_space) (b : connection -> B) : Prop := forall r c, b (set_recv space r c) = b c.

Lemma blind_seq space op k : blind space op -> blind space k -> blind space (fun c => on_ok (op c) k).
Proof.
  intros Ho Hk r c. unfold on_ok. rewrite Ho. cbn [fst snd]. destruct (bool_decide _); [apply Hk|done].
Qed.

Lemma blind_if space (b : connection -> bool) op op' :
  blind_read space b -> blind space op -> blind space op' -> blind space (fun c => if b c then op c else op' c).
Proof. intros Hb Ho Ho' r c. rewrite Hb. by destruct (b c). Qed.

Lemma blind_ok space s f : blind_update space f -> blind space (fun c => (s, f c)).
Proof. intros Hf r c. cbn. by rewrite Hf. Qed.

Lemma blind_or_fail space op : blind space op -> blind space (fun c => or_fail (op c)).
Proof. intros Ho r c. unfold or_fail. rewrite Ho. cbn [fst snd]. by destruct (bool_decide _). Qed.

Lemma blind_outcome {B} space (o : connection -> outcome B) k :
  blind_read space o -> (forall x, blind space (k x)) ->
  blind space (fun c => match o c with Fail e _ => (e, c) | Ok x => k x c end).
Proof. intros Ho Hk r c. rewrite Ho. destruct (o c); [apply Hk|done]. Qed.

Lemma recv_of_set space r c : recv_of space (set_recv space r c) = r.
Proof. by destruct space. Qed.
Lemma set_recv_set space r r' c : set_recv space r (set_recv space r' c) = set_recv space r c.
Proof. by destruct space. Qed.
Lemma set_recv_id space c : set_recv space (recv_of space c) c = c.
Proof. destruct c as [? ? ? ? ? ? ? ? ? ? ? ? ? ? ? ? ? ? ? ? ? ? ? ? ? ? ? ? ? ? ? ? ? ? ? ? ? ? ? ? ? ? ? ? [[? ? ? ? ? [] ? ? ? ? ? ? ? ? ? ? ?] ?] ? ? ?]. by destruct space. Qed.

Hint Resolve blind_seq blind_if blind_ok blind_or_fail : blind.

Lemma blind_install_key space level inbound secret : blind space (install_key level inbound secret).
Proof. intros r c. unfold install_key. change (cn_config (set_recv space r c)) with (cn_config c). by destruct (wt_quic_packet_keys_from_secret _ _). Qed.

Lemma blind_install_level space level secrets : blind space (install_level level secrets).
Proof. apply blind_seq; apply blind_install_key. Qed.

Lemma blind_handshake_keys space : blind space install_handshake_keys.
Proof.
  unfold install_handshake_keys. apply blind_if; [done|by apply blind_ok|].
  apply (blind_outcome space (fun c => if hs_is_client (handshake_of c) then wt_tls_client_handshake_secrets (hs_client (handshake_of c))
                                       else wt_tls_server_handshake_secrets (hs_server (handshake_of c)))); [done|].
  intros secrets. apply blind_if; [done|by apply blind_ok|]. apply blind_seq; [apply blind_install_level|by apply blind_ok].
Qed.

Lemma blind_application_keys space : blind space install_application_keys.
Proof.
  unfold install_application_keys. apply blind_if; [done|by apply blind_ok|].
  apply (blind_outcome space (fun c => if hs_is_client (handshake_of c) then wt_tls_client_application_secrets (hs_client (handshake_of c))
                                       else wt_tls_server_application_secrets (hs_server (handshake_of c)))); [done|].
  intros secrets. apply blind_seq; [apply blind_install_level|by apply blind_ok].
Qed.

Lemma blind_queue space level message : blind space (queue_message level message).
Proof. intros r c. unfold queue_message. cbv zeta. change (hs_send (handshake_of (set_recv space r c))) with (hs_send (handshake_of c)). by destruct (bool_decide _). Qed.

Lemma blind_alpn space : blind_update space copy_alpn.
Proof. intros r c. unfold copy_alpn. cbv zeta. change (handshake_of (set_recv space r c)) with (handshake_of c <| hs_recv ::= alter_space space (fun _ => r) |>). by destruct (_ && _). Qed.

Lemma blind_parameters space : blind space copy_parameters.
Proof.
  intros r c. unfold copy_parameters. cbv zeta. upd_simpl. change (hs_peer_parameters (handshake_of (set_recv space r c))) with (hs_peer_parameters (handshake_of c)).
  change (hs_is_client (handshake_of (set_recv space r c))) with (hs_is_client (handshake_of c)).
  change (hs_client (handshake_of (set_recv space r c))) with (hs_client (handshake_of c)).
  change (hs_server (handshake_of (set_recv space r c))) with (hs_server (handshake_of c)).
  destruct (_ && _); [|done]. by destruct (_ <? _).
Qed.

Lemma blind_flight space : blind space build_flight.
Proof.
  unfold build_flight. apply blind_if; [done|by apply blind_ok|]. intros r c. cbv zeta.
  change (hs_server (handshake_of (set_recv space r c))) with (hs_server (handshake_of c)).
  destruct (wt_tls_server_flight _ _) as [[st flight] t]; cbn [fst snd]. destruct (bool_decide _); [|done].
  change (on_handshake ?f (on_handshake ?g (set_recv space r c))) with (set_recv space r (on_handshake f (on_handshake g c))). by rewrite blind_queue.
Qed.

Lemma blind_client space : blind space client_progress.
Proof.
  unfold client_progress. apply blind_seq.
  - apply blind_if; [done|apply blind_or_fail, blind_handshake_keys|by apply blind_ok].
  - apply (blind_if space (fun c => bool_decide (client_state (hs_client (handshake_of c)) = WT_TLS_CLIENT_CONNECTED))); [done| |by apply blind_ok].
    apply blind_seq; [apply blind_or_fail, blind_application_keys|by apply blind_ok].
Qed.

Lemma blind_server space : blind space server_progress.
Proof.
  unfold server_progress. apply blind_seq.
  - apply blind_if; [done| |by apply blind_ok]. apply blind_seq; [apply blind_or_fail, blind_handshake_keys|apply blind_flight].
  - apply (blind_if space (fun c => bool_decide (server_state (hs_server (handshake_of c)) = WT_TLS_SERVER_CONNECTED))); [done| |by apply blind_ok].
    apply blind_seq; [apply blind_or_fail, blind_application_keys|by apply blind_ok].
Qed.

(** ** One message *)

(** What the message's answer and the machine's progress lead to. *)
Definition answered (output : list Z) : connection -> wt_status * connection := fun c =>
  c <-! (if negb (zlen output =? 0)
         then queue_message (if hs_is_client (handshake_of c) then WT_QUIC_SPACE_HANDSHAKE else WT_QUIC_SPACE_INITIAL) output c else (WT_OK, c));;
  if hs_is_client (handshake_of c) then client_progress c else server_progress c.

(** A message, handed over without being consumed. *)
Definition hand_message (message : list Z) c : wt_status * connection :=
  let r := tls_receive message c in
  if negb (bool_decide (r.1.1 = WT_OK)) then (r.1.1, fail r.1.1 WT_QUIC_FRAME_CRYPTO r.2)
  else c <-! copy_parameters (copy_alpn r.2);; answered r.1.2 c.

Fixpoint hand_messages (messages : list (list Z)) c : wt_status * connection :=
  match messages with
  | [] => (WT_OK, c)
  | m :: messages => c <-! hand_message m c;; hand_messages messages c
  end.

Lemma blind_answered space output : blind space (answered output).
Proof.
  unfold answered. apply blind_seq.
  - destruct (negb _); [|by apply blind_ok]. intros r c. change (hs_is_client (handshake_of (set_recv space r c))) with (hs_is_client (handshake_of c)). apply blind_queue.
  - apply blind_if; [done|apply blind_client|apply blind_server].
Qed.

Lemma blind_receive space message r c :
  tls_receive message (set_recv space r c) = ((tls_receive message c).1, set_recv space r (tls_receive message c).2).
Proof.
  unfold tls_receive. cbv zeta. change (hs_is_client (handshake_of (set_recv space r c))) with (hs_is_client (handshake_of c)).
  change (hs_client (handshake_of (set_recv space r c))) with (hs_client (handshake_of c)).
  change (hs_server (handshake_of (set_recv space r c))) with (hs_server (handshake_of c)).
  by destruct (hs_is_client (handshake_of c)).
Qed.

Lemma blind_hand space message : blind space (hand_message message).
Proof.
  intros r c. unfold hand_message. cbv zeta. rewrite blind_receive. cbn [fst snd]. destruct (negb _); [done|]. rewrite blind_alpn.
  apply (blind_seq space copy_parameters (answered (tls_receive message c).1.2)); [apply blind_parameters|apply blind_answered].
Qed.

Lemma blind_hands space messages : blind space (hand_messages messages).
Proof. induction messages as [|m messages IH]; [by intros r c|]. apply blind_seq; [apply blind_hand|exact IH]. Qed.

Lemma blind_keeps space op c : blind space op -> recv_of space (op c).2 = recv_of space c.
Proof. intros Ho. rewrite <- (set_recv_id space c) at 1. rewrite Ho. apply recv_of_set. Qed.

Lemma on_ok_is_ok {B} (p : wt_status * B) k : p.1 = WT_OK -> on_ok p k = k p.2.
Proof. intros Hp. unfold on_ok. by rewrite bool_decide_true. Qed.

Lemma one_message_hand space message c :
  let q := wt_quic_crypto_recv_consume (recv_of space c) (length message) in
  q.1 = WT_OK ->
  (one_message space message c).1 = (hand_message message c).1 /\
  ((hand_message message c).1 = WT_OK -> (one_message space message c).2 = set_recv space q.2 (hand_message message c).2).
Proof.
  intros q Hq. unfold one_message, hand_message. cbv zeta. destruct (negb (bool_decide ((tls_receive message c).1.1 = WT_OK))) eqn:Er.
  { split; [done|]. cbn [fst]. intros Ho. by rewrite bool_decide_true in Er. }
  set (c1 := copy_alpn (tls_receive message c).2). set (output := (tls_receive message c).1.2).
  assert (recv_of space (copy_parameters c1).2 = recv_of space c) as Hrecv.
  { rewrite (blind_keeps space copy_parameters) by apply blind_parameters. unfold c1. rewrite <- (set_recv_id space c) at 1.
    rewrite blind_receive. cbn [snd]. by rewrite blind_alpn, recv_of_set. }
  assert (consume space (length message) (copy_parameters c1).2 = (WT_OK, set_recv space q.2 (copy_parameters c1).2)) as Ec.
  { unfold consume. change (at_space space (hs_recv (handshake_of (copy_parameters c1).2))) with (recv_of space (copy_parameters c1).2).
    rewrite Hrecv. fold q. by rewrite Hq. }
  destruct (decide ((copy_parameters c1).1 = WT_OK)) as [Hp|Hp].
  - rewrite !(on_ok_is_ok (copy_parameters c1)) by done. rewrite Ec. rewrite on_ok_is_ok by done. cbn [snd].
    change (on_ok (if negb (zlen output =? 0) then _ else _) _) with (answered output (set_recv space q.2 (copy_parameters c1).2)).
    rewrite blind_answered. by split.
  - rewrite !(on_ok_fail (copy_parameters c1)) by done. split; [done|]. intros Ho. by destruct Hp.
Qed.

(** ** The messages of a byte stream *)

Lemma byte_at_is_u8 l i : bytes_ok l -> is_u8 (byte_at l i).
Proof.
  intros Hl. unfold byte_at. destruct (l !! i) as [b|] eqn:E; [|done]. by eapply Forall_lookup_1 in Hl.
Qed.

(** A message is whole when its length field says so. *)
Definition whole_message (m : list Z) : Prop := wt_tls_handshake_message_len m = zlen m /\ 0 < zlen m.

Lemma message_len_bounds data :
  bytes_ok data -> wt_tls_handshake_message_len data <> 0 -> 4 <= wt_tls_handshake_message_len data <= zlen data.
Proof.
  intros Hd. unfold wt_tls_handshake_message_len, WT_TLS_HANDSHAKE_HEADER_LEN. destruct (zlen data <? 4) eqn:E4; [done|]. cbv zeta.
  set (body := Z.lor _ _). assert (0 <= body).
  { assert (forall i, 0 <= byte_at data i) as Hb by (intros i; pose proof (byte_at_is_u8 data i Hd) as Hi; unfold is_u8 in Hi; lia).
    unfold body. apply Z.lor_nonneg; split; [|done]. apply Z.lor_nonneg; split; by apply Z.shiftl_nonneg. }
  apply Z.ltb_ge in E4. destruct (Z.ltb_spec (zlen data - 4) body); [done|lia].
Qed.

(** The length of a message can be read off its own bytes. *)
Lemma message_len_front data :
  bytes_ok data -> wt_tls_handshake_message_len data <> 0 -> whole_message (ztake (wt_tls_handshake_message_len data) data).
Proof.
  intros Hd Hn. pose proof (message_len_bounds data Hd Hn) as Hb. set (n := wt_tls_handshake_message_len data) in *. unfold whole_message.
  rewrite zlen_ztake by lia. split; [|lia]. assert (zlen (ztake n data) = n) as Hz by (apply zlen_ztake; lia).
  assert (exists k, Z.to_nat n = S (S (S (S k)))) as [k Hk] by (exists (Z.to_nat n - 4)%nat; lia).
  assert (forall i, (i < 4)%nat -> byte_at (ztake n data) i = byte_at data i) as Hi.
  { intros i Hi. unfold byte_at, ztake. by rewrite lookup_take_lt by lia. }
  subst n. unfold wt_tls_handshake_message_len at 1. rewrite Hz, !Hi by lia. unfold wt_tls_handshake_message_len in Hn, Hb |- *. unfold WT_TLS_HANDSHAKE_HEADER_LEN in *.
  destruct (zlen data <? 4); [done|]. cbv zeta in *. set (body := Z.lor _ _) in *. destruct (zlen data - 4 <? body); [done|].
  rewrite (proj2 (Z.ltb_ge (body + 4) 4)) by lia. rewrite (proj2 (Z.ltb_ge (body + 4 - 4) body)) by lia. done.
Qed.

(** ** From frames to messages *)

Section Source.
Context (src : Z -> Z) (src_ok : forall x, is_u8 (src x)) (space : wt_quic_space).

Lemma piece_ok offset n : bytes_ok (piece src offset n).
Proof. unfold piece, bytes_ok. apply Forall_fmap, Forall_true. intros x. apply src_ok. Qed.

Lemma readable_recv c : readable space c = take (wt_quic_crypto_recv_available (recv_of space c)) (cr_data (recv_of space c)).
Proof. done. Qed.

(** What can be read is what the source has next. *)
Lemma readable_piece a c :
  reassembly_inv src a -> ra_recv a = recv_of space c ->
  readable space c = piece src (zlen (ra_delivered a)) (wt_quic_crypto_recv_available (recv_of space c)) /\
  (wt_quic_crypto_recv_available (recv_of space c) <= cr_length (recv_of space c))%nat.
Proof.
  intros Ha Er. rewrite readable_recv, <- Er. pose proof (rv_recv _ _ Ha) as Hr. destruct (available_spec _ Hr) as (Hle & Hav & _). split; [|done].
  pose proof (ci_data _ Hr). pose proof (ci_length _ Hr). apply list_eq. intros i. destruct (decide (i < wt_quic_crypto_recv_available (ra_recv a))%nat) as [Hi|Hi].
  - rewrite lookup_take_lt, piece_lookup by lia. destruct (Hav i Hi) as [Hh [b Hb]]. rewrite Hb in Hh. pose proof (rv_held _ _ Ha _ _ Hh) as E.
    rewrite Hb, E, (rv_offset _ _ Ha). done.
  - rewrite !lookup_ge_None_2; [done|rewrite piece_len; lia|rewrite length_take; lia].
Qed.

(** The messages read, the reassembler they leave and what it stands for. *)
Record has_read (delivered : list Z) (accepted : list (Z * nat)) (c c' : connection) (ms : list (list Z)) (a' : reassembly) : Prop := {
  hr_inv : reassembly_inv src a';
  hr_delivered : ra_delivered a' = delivered ++ concat ms;
  hr_whole : Forall whole_message ms;
  hr_recv : ra_recv a' = recv_of space c';
  hr_rest : wt_tls_handshake_message_len (readable space c') = 0;
  hr_state : exists c1, hand_messages ms c = (WT_OK, c1) /\ c' = set_recv space (ra_recv a') c1;
  hr_accepted : ra_accepted a' = accepted }.

Lemma consume_shorter r n r' : wt_quic_crypto_recv_consume r n = (WT_OK, r') -> cr_length r' = (cr_length r - n)%nat.
Proof.
  unfold wt_quic_crypto_recv_consume. destruct (Nat.ltb _ _); [done|]. destruct (Nat.eqb_spec n 0) as [->|]; intros [= <-]; [lia|done].
Qed.

Lemma process_reads fuel : forall a c,
  reassembly_inv src a -> ra_recv a = recv_of space c -> (cr_length (recv_of space c) < fuel)%nat ->
  (process_loop fuel space c).1 = WT_OK -> exists ms a', has_read (ra_delivered a) (ra_accepted a) c (process_loop fuel space c).2 ms a'.
Proof.
  induction fuel as [|fuel IH]; intros a c Ha Er Hf; [lia|]. cbn [process_loop]. cbv zeta.
  destruct (readable_piece a c Ha Er) as [Ed Hav]. assert (bytes_ok (readable space c)) as Hok by (rewrite Ed; apply piece_ok).
  destruct (decide (wt_tls_handshake_message_len (readable space c) = 0)) as [Hn|Hn].
  { rewrite Hn, orb_true_r. cbn [orb fst snd]. intros _. exists [], a. split; try done; [by rewrite app_nil_r|]. exists c. split; [done|]. by rewrite Er, set_recv_id. }
  pose proof (message_len_bounds _ Hok Hn) as Hb. set (n := wt_tls_handshake_message_len (readable space c)) in *.
  rewrite (proj2 (Z.eqb_neq (zlen (readable space c)) 0)), (proj2 (Z.eqb_neq n 0)), (proj2 (Z.ltb_ge (zlen (readable space c)) n)) by lia. cbn [orb].
  set (m := ztake n (readable space c)). assert (length m = Z.to_nat n) as Hm by (pose proof (zlen_ztake n (readable space c) ltac:(lia)) as E; unfold zlen in E; fold m in E; lia).
  assert (zlen (readable space c) = Z.of_nat (wt_quic_crypto_recv_available (recv_of space c))) as Hz by (rewrite Ed; unfold zlen; by rewrite piece_len).
  pose proof (consume_spec (recv_of space c) (length m)) as Hc. rewrite <- Er in Hc at 1. specialize (Hc (rv_recv _ _ Ha) ltac:(lia)).
  destruct (wt_quic_crypto_recv_consume (recv_of space c) (length m)) as [st r'] eqn:Ec. destruct Hc as (-> & Hr' & Ho & Hh).
  destruct (one_message_hand space m c) as [E1 E2]; [by rewrite Ec|]. rewrite Ec in E2. cbn [snd] in E2.
  destruct (decide ((hand_message m c).1 = WT_OK)) as [Hd|Hd]; [|rewrite on_ok_fail by congruence; intros Hp; congruence].
  rewrite on_ok_is_ok by congruence. rewrite (E2 Hd). intros Hp.
  set (a1 := reassembly_step src a (EvTake (length m))). assert (ra_recv a1 = r') as Er1.
  { unfold a1. cbn [reassembly_step ra_recv]. rewrite Er, Nat.min_l by lia. by rewrite Ec. }
  assert (ra_delivered a1 = ra_delivered a ++ m) as Ed1.
  { unfold a1. cbn [reassembly_step ra_delivered]. rewrite Er, Nat.min_l by lia. f_equal. rewrite Hm. unfold m, ztake. rewrite readable_recv, take_take. f_equal. lia. }
  pose proof (take_event_inv src a (length m) Ha) as Ha1. fold a1 in Ha1.
  destruct (IH a1 (set_recv space r' (hand_message m c).2)) as (ms & a' & Hr); [done|by rewrite recv_of_set| |done|].
  { rewrite recv_of_set. apply consume_shorter in Ec; lia. }
  exists (m :: ms), a'. destruct Hr as [H1 H2 H3 H4 H5 (c1 & H6 & H7) H8]. split; try done.
  - cbn [concat]. by rewrite H2, Ed1, app_assoc.
  - constructor; [by apply message_len_front|done].
  - rewrite (blind_hands space ms r' (hand_message m c).2) in H6. injection H6 as H6 H6'. exists (hand_messages ms (hand_message m c).2).2. split.
    + cbn [hand_messages]. rewrite on_ok_is_ok by done. by rewrite <- H6; destruct (hand_messages ms _).
    + by rewrite H7, <- H6', set_recv_set.
Qed.

(** ** A handshake that has not failed *)

Definition alive c : Prop := hs_state (handshake_of c) <> WT_QUIC_HANDSHAKE_FAILED.
Definition stays_alive (op : connection -> wt_status * connection) : Prop := forall c, alive c -> (op c).1 = WT_OK -> alive (op c).2.

Lemma alive_seq op k : stays_alive op -> stays_alive k -> stays_alive (fun c => on_ok (op c) k).
Proof.
  intros Ho Hk c Hc. destruct (decide ((op c).1 = WT_OK)) as [E|E]; [|by rewrite on_ok_fail]. rewrite on_ok_is_ok by done. apply Hk. by apply Ho.
Qed.

Lemma alive_if (b : connection -> bool) op op' : stays_alive op -> stays_alive op' -> stays_alive (fun c => if b c then op c else op' c).
Proof. intros Ho Ho' c. destruct (b c); [apply Ho|apply Ho']. Qed.

Lemma alive_or_fail op : stays_alive op -> stays_alive (fun c => or_fail (op c)).
Proof. intros Ho c Hc. unfold or_fail. case_bool_decide; [by apply Ho|done]. Qed.

Lemma alive_same f : (forall c, hs_state (handshake_of (f c)) = hs_state (handshake_of c)) -> stays_alive (fun c => (WT_OK, f c)).
Proof. intros Hf c Hc _. unfold alive. cbn. by rewrite Hf. Qed.

Lemma alive_install_level level secrets : stays_alive (install_level level secrets).
Proof. apply alive_seq; intros c; unfold install_key; by destruct (wt_quic_packet_keys_from_secret _ _). Qed.

Lemma alive_handshake_keys : stays_alive install_handshake_keys.
Proof.
  intros c Hc. unfold install_handshake_keys. cbv zeta. destruct (hs_handshake_keys_installed _); [done|].
  destruct (if hs_is_client _ then _ else _) as [secrets|]; [|done]. destruct (negb _); [done|].
  apply (alive_seq (install_level _ _) (fun c => (WT_OK, _))); [apply alive_install_level|by apply alive_same|done].
Qed.

Lemma alive_application_keys : stays_alive install_application_keys.
Proof.
  intros c Hc. unfold install_application_keys. cbv zeta. destruct (hs_application_keys_installed _); [done|].
  destruct (if hs_is_client _ then _ else _) as [secrets|]; [|done].
  apply (alive_seq (install_level _ _) (fun c => (WT_OK, _))); [apply alive_install_level|by apply alive_same|done].
Qed.

Lemma alive_queue level message : stays_alive (queue_message level message).
Proof. intros c Hc. unfold queue_message. cbv zeta. case_bool_decide as E; [cbn [fst]; by rewrite E|done]. Qed.

Lemma alive_parameters : stays_alive copy_parameters.
Proof. intros c Hc. unfold copy_parameters. cbv zeta. destruct (_ && _); [|done]. by destruct (_ <? _). Qed.

Lemma alive_flight : stays_alive build_flight.
Proof.
  intros c Hc. unfold build_flight. destruct (hs_server_flight_built _); [done|]. cbv zeta.
  case_bool_decide as E; [by apply alive_queue|]. cbn [fst]. intros Ho. by destruct E.
Qed.

Lemma alive_answered output : stays_alive (answered output).
Proof.
  assert (stays_alive (fun c => (WT_OK, c))) as Hret by (by intros c). assert (forall f, stays_alive (fun c => (WT_OK, on_handshake (fun h => f h <| hs_state := WT_QUIC_HANDSHAKE_CONNECTED |>) c))) by done.
  unfold answered. apply alive_seq; [destruct (negb _); [|done]; intros c; by apply alive_queue|]. apply alive_if; unfold client_progress, server_progress.
  - apply alive_seq; [apply alive_if; [apply alive_or_fail, alive_handshake_keys|done]|].
    apply (alive_if (fun c => bool_decide (client_state (hs_client (handshake_of c)) = WT_TLS_CLIENT_CONNECTED))); [|done].
    apply alive_seq; [apply alive_or_fail, alive_application_keys|done].
  - apply alive_seq; [apply alive_if; [apply alive_seq; [apply alive_or_fail, alive_handshake_keys|apply alive_flight]|done]|].
    apply (alive_if (fun c => bool_decide (server_state (hs_server (handshake_of c)) = WT_TLS_SERVER_CONNECTED))); [|done].
    apply alive_seq; [apply alive_or_fail, alive_application_keys|done].
Qed.

Lemma alive_hand message : stays_alive (hand_message message).
Proof.
  intros c Hc. unfold hand_message. cbv zeta. destruct (negb _) eqn:E; [cbn [fst]; intros Ho; by rewrite bool_decide_true in E|].
  apply (alive_seq copy_parameters (answered (tls_receive message c).1.2)); [apply alive_parameters|apply alive_answered|].
  unfold copy_alpn, tls_receive, alive in *. cbv zeta. destruct (hs_is_client (handshake_of c)); destruct (_ && _); done.
Qed.

Lemma alive_hands messages : stays_alive (hand_messages messages).
Proof. induction messages as [|m messages IH]; [by intros c|]. apply alive_seq; [apply alive_hand|exact IH]. Qed.

(** ** A sequence of frames *)

(** CRYPTO frames with pieces of the source, until one is refused. *)
Fixpoint crypto_frames (pieces : list (Z * nat)) c : wt_status * connection :=
  match pieces with
  | [] => (WT_OK, c)
  | p :: pieces => c <-! wt_quic_handshake_on_frame space (FRAME_CRYPTO p.1 (piece src p.1 p.2)) c;; crypto_frames pieces c
  end.

Lemma hand_messages_app ms ms' c : hand_messages (ms ++ ms') c = on_ok (hand_messages ms c) (hand_messages ms').
Proof.
  revert c. induction ms as [|m ms IH]; intros c; [done|]. cbn [app hand_messages]. destruct (decide ((hand_message m c).1 = WT_OK)) as [E|E].
  - rewrite !(on_ok_is_ok (hand_message m c)) by done. apply IH.
  - by rewrite !(on_ok_fail (hand_message m c)) by done.
Qed.

Lemma pair_eta_ok (r : wt_status * connection) : r.1 = WT_OK -> r = (WT_OK, r.2).
Proof. destruct r. by intros <-. Qed.

Lemma crypto_frame_reads a c p :
  reassembly_inv src a -> ra_recv a = recv_of space c -> alive c -> crypto_event_ok (EvCrypto p.1 p.2) ->
  let r := wt_quic_handshake_on_frame space (FRAME_CRYPTO p.1 (piece src p.1 p.2)) c in
  r.1 = WT_OK -> exists ms a', has_read (ra_delivered a) (p :: ra_accepted a) c r.2 ms a'.
Proof.
  intros Ha Er Hal Hp. cbv zeta. unfold wt_quic_handshake_on_frame. rewrite bool_decide_false by done. unfold on_crypto. cbv zeta.
  pose proof (crypto_event_inv src a p.1 p.2 Ha Hp) as Ha1. cbn [reassembly_step] in Ha1. rewrite Er in Ha1.
  fold (recv_of space c). destruct (wt_quic_crypto_recv_insert (recv_of space c) p.1 (piece src p.1 p.2)) as [st r'] eqn:Ei. cbn [fst snd] in *.
  case_bool_decide as El; [by rewrite El|]. case_bool_decide as Eo; [|done]. cbn [negb]. subst st. fold (set_recv space r' c).
  set (a1 := mk_reassembly r' _ _) in *. intros Hok.
  destruct (process_reads (WT_QUIC_CRYPTO_BUFFER_MAX + 1) a1 (set_recv space r' c) Ha1) as (ms & a' & [H1 H2 H3 H4 H5 (c1 & H6 & H7) H8]); [by rewrite recv_of_set| |exact Hok|].
  { rewrite recv_of_set. pose proof (ci_length _ (rv_recv _ _ Ha1)) as Hl. cbn [ra_recv a1] in Hl. unfold a1 in Hl. cbn [ra_recv] in Hl. lia. }
  exists ms, a'. rewrite (blind_hands space ms r' c) in H6. injection H6 as H6 H6'. split; try done.
  - exists (hand_messages ms c).2. split; [by apply pair_eta_ok|]. unfold process_messages. by rewrite H7, <- H6', set_recv_set.
  - by rewrite H8; destruct p.
Qed.

Lemma crypto_frames_read pieces : forall a c,
  reassembly_inv src a -> ra_recv a = recv_of space c -> alive c -> wt_tls_handshake_message_len (readable space c) = 0 ->
  Forall (fun p => crypto_event_ok (EvCrypto p.1 p.2)) pieces -> (crypto_frames pieces c).1 = WT_OK ->
  exists ms a', has_read (ra_delivered a) (reverse pieces ++ ra_accepted a) c (crypto_frames pieces c).2 ms a'.
Proof.
  induction pieces as [|p pieces IH]; intros a c Ha Er Hal Hn Hp.
  { intros _. exists [], a. split; try done; [by rewrite app_nil_r|]. exists c. split; [done|]. cbn [crypto_frames snd]. by rewrite Er, set_recv_id. }
  apply Forall_cons in Hp as [Hp Hps]. cbn [crypto_frames]. set (r := wt_quic_handshake_on_frame _ _ _).
  destruct (decide (r.1 = WT_OK)) as [Ho|Ho]; [|by rewrite on_ok_fail]. rewrite on_ok_is_ok by done. intros Hr.
  destruct (crypto_frame_reads a c p Ha Er Hal Hp Ho) as (ms & a' & [H1 H2 H3 H4 H5 (c1 & H6 & H7) H8]). fold r in H4, H5, H7.
  assert (alive c1) as Hal1 by (pose proof (alive_hands ms c Hal) as Hx; rewrite H6 in Hx; by apply Hx).
  destruct (IH a' r.2 H1 H4) as (ms' & a2 & [G1 G2 G3 G4 G5 (c2 & G6 & G7) G8]); [by rewrite H7|done|done|done|].
  exists (ms ++ ms'), a2. rewrite H7, (blind_hands space ms' (ra_recv a') c1) in G6. injection G6 as G6 G6'. split; try done.
  - by rewrite G2, H2, concat_app, app_assoc.
  - by apply Forall_app.
  - exists (hand_messages ms' c1).2. split; [rewrite hand_messages_app, H6; by apply pair_eta_ok|]. by rewrite G7, <- G6', set_recv_set.
  - by rewrite G8, H8, reverse_cons, <- app_assoc.
Qed.
End Source.
End Reads.

(** C3. However the peer cuts, reorders, repeats or overlaps the CRYPTO frames of an
    encryption level, the TLS machine is handed the whole handshake messages of that level's
    byte stream, each once and in order, and nothing else of the handshake changes but what
    handing them over does; no whole message is left unread, what is readable is the
    stream's continuation, and nothing that arrived lies right behind it. *)
Theorem handshake_reads_in_order {TC TS A} `{TlsClient TC} `{TlsServer TS} {C : Crypto} src space pieces (c : wt_quic_connection (wt_quic_handshake TC TS * A)) :
  (forall x, is_u8 (src x)) -> Forall (fun p => is_u64 p.1 /\ Z.of_nat p.2 < 2 ^ 62) pieces ->
  recv_of space c = wt_quic_crypto_recv_init -> hs_state (handshake_of c) <> WT_QUIC_HANDSHAKE_FAILED ->
  let r := crypto_frames src space pieces c in
  r.1 = WT_OK ->
  exists ms recv c', hand_messages ms c = (WT_OK, c') /\ r.2 = set_recv space recv c' /\
    Forall whole_message ms /\ concat ms = piece src 0 (length (concat ms)) /\
    readable space r.2 = piece src (zlen (concat ms)) (length (readable space r.2)) /\
    wt_tls_handshake_message_len (readable space r.2) = 0 /\
    forall p, p ∈ pieces -> ~ covers (zlen (concat ms) + zlen (readable space r.2)) p.
Proof.
  intros Hsrc Hp Hinit Hal r Hok. assert (reassembly_inv src reassembly_init) as Hra by apply (reassembly_run_inv src []), Forall_nil_2.
  assert (wt_tls_handshake_message_len (readable space c) = 0) as Hn by (rewrite readable_recv, Hinit; by vm_compute).
  destruct (crypto_frames_read src Hsrc space pieces reassembly_init c Hra (eq_sym Hinit) Hal Hn Hp Hok) as (ms & a' & [H1 H2 H3 H4 H5 (c1 & H6 & H7) H8]).
  fold r in H4, H5, H7.
  destruct (readable_piece src space a' r.2 H1 H4) as [Hread Hav]. cbn [ra_delivered reassembly_init app] in H2. rewrite H2 in Hread.
  assert (length (readable space r.2) = wt_quic_crypto_recv_available (recv_of space r.2)) as Hl by (rewrite Hread; apply piece_len).
  exists ms, (ra_recv a'), c1. split_and!; try done.
  - rewrite <- H2. apply (rv_delivered _ _ H1).
  - by rewrite Hl.
  - intros p Hin Hcov. unfold zlen at 2 in Hcov. rewrite Hl, <- H2, <- (rv_offset _ _ H1), <- H4 in Hcov.
    destruct (available_spec _ (rv_recv _ _ H1)) as (_ & _ & Hend).
    assert (p ∈ ra_accepted a') as Hin' by (rewrite H8; apply elem_of_app; left; by apply elem_of_reverse).
    destruct (rv_accepted _ _ H1 p _ Hin' Hcov) as [b Hb]; [rewrite <- (rv_offset _ _ H1); lia|congruence].
Qed.

(** A ServerHello of five bytes and the first bytes of what follows it, out of order
    and with an overlap. *)
Definition server_bytes (x : Z) : Z := nth (Z.to_nat x) [2; 0; 0; 1; 9; 8; 0; 0; 2; 5; 6] 0.

Notation sample_frames := (crypto_frames server_bytes WT_QUIC_SPACE_INITIAL [(3, 4%nat); (0, 2%nat); (1, 3%nat); (7, 1%nat)] waiting_client).

Lemma sample_frames_ok : sample_frames.1 = WT_OK.
Proof. vm_compute. reflexivity. Qed.
Lemma sample_frames_seen :
  tc_seen (hs_client (handshake_of sample_frames.2)) = [[2; 0; 0; 1; 9]] /\ readable WT_QUIC_SPACE_INITIAL sample_frames.2 = [8; 0; 0].
Proof. vm_compute. split; reflexivity. Qed.

Lemma handshake_reads_in_order_witness :
  sample_frames.1 = WT_OK /\
  (exists ms recv c', hand_messages ms waiting_client = (WT_OK, c') /\ sample_frames.2 = set_recv WT_QUIC_SPACE_INITIAL recv c' /\ concat ms = piece server_bytes 0 (length (concat ms))) /\
  tc_seen (hs_client (handshake_of sample_frames.2)) = [[2; 0; 0; 1; 9]] /\ readable WT_QUIC_SPACE_INITIAL sample_frames.2 = [8; 0; 0].
Proof.
  assert (forall x, is_u8 (server_bytes x)) as Hsrc.
  { intros x. unfold server_bytes, is_u8. destruct (nth_in_or_default (Z.to_nat x) [2; 0; 0; 1; 9; 8; 0; 0; 2; 5; 6] 0) as [Hin| ->]; [|lia].
    revert Hin. generalize (nth (Z.to_nat x) [2; 0; 0; 1; 9; 8; 0; 0; 2; 5; 6] 0). intros v Hin. cbn in Hin. lia. }
  split; [exact sample_frames_ok|]. split; [|exact sample_frames_seen].
  destruct (handshake_reads_in_order server_bytes WT_QUIC_SPACE_INITIAL [(3, 4%nat); (0, 2%nat); (1, 3%nat); (7, 1%nat)] waiting_client Hsrc)
    as (ms & recv & c' & H1 & H2 & _ & H4 & _); [repeat constructor; cbn; lia|reflexivity|discriminate|exact sample_frames_ok|].
  exists ms, recv, c'. split_and!; assumption.
Defined.
