(* ===== verification/HandshakeResend.v ===== *)
(** * What a flush of the handshake sends

    The bytes of a CRYPTO packet that was declared lost go out again with the next
    flush the connection takes, and so does everything else the handshake owes. *)

From S2P Require Import Prelude Core Crypto CryptoStream Frame Update Connection ConnectionSample.
From S2P Require Export Handshake HandshakeSample.

(** ** A level's send buffer *)

Record send_wf (s : wt_quic_crypto_send) : Prop := {
  sw_base : cs_base_offset s = 0;
  sw_held : zlen (cs_held s) <= Z.of_nat WT_QUIC_CRYPTO_BUFFER_MAX;
  sw_next : 0 <= cs_next_offset s <= zlen (cs_held s) }.

Definition advanced (n : Z) (s : wt_quic_crypto_send) : wt_quic_crypto_send := mk_csend n (cs_base_offset s) (cs_held s).
Definition drained (s : wt_quic_crypto_send) : wt_quic_crypto_send := advanced (zlen (cs_held s)) s.

Lemma advanced_wf n s : send_wf s -> 0 <= n <= zlen (cs_held s) -> send_wf (advanced n s).
Proof. intros [] Hn. by split. Qed.

(** There is nothing left, or the next range goes out and the offset moves past it. *)
Lemma send_next_cases s room :
  send_wf s -> 0 < room ->
  if cs_next_offset s =? zlen (cs_held s) then wt_quic_crypto_send_next s room = Fail WT_ERR_STATE None
  else exists n, 0 < n /\ cs_next_offset s + n <= zlen (cs_held s) /\
    let data := zslice (cs_next_offset s) n (cs_held s) in
    wt_quic_crypto_send_next s room = Ok (cs_next_offset s, data) /\ zlen data = n /\
    wt_quic_crypto_send_advance s n = (WT_OK, advanced (cs_next_offset s + n) s).
Proof.
  intros [Hb Hh Hn] Hr. unfold WT_QUIC_CRYPTO_BUFFER_MAX in *. unfold wt_quic_crypto_send_next, wt_quic_crypto_send_advance. rewrite Hb, Z.sub_0_r.
  rewrite (proj2 (Z.ltb_ge (cs_next_offset s) 0)) by lia. rewrite (u64_small (cs_next_offset s)) by (unfold is_u64; lia).
  destruct (Z.eqb_spec (cs_next_offset s) (zlen (cs_held s))) as [E|E]; [by rewrite (proj2 (Z.leb_le _ _)) by lia|].
  rewrite (proj2 (Z.leb_gt (zlen (cs_held s)) (cs_next_offset s))) by lia. rewrite !(u64_small (zlen (cs_held s) - _)) by (unfold is_u64; lia).
  set (n := if room <? _ then _ else _). assert (0 < n <= zlen (cs_held s) - cs_next_offset s) as Hlen by (unfold n; destruct (Z.ltb_spec room (zlen (cs_held s) - cs_next_offset s)); lia).
  exists n. split; [lia|]. split; [lia|]. cbv zeta. split; [done|]. split; [apply zlen_zslice; lia|].
  rewrite (proj2 (Z.ltb_ge (zlen (cs_held s) - cs_next_offset s) n)) by lia. rewrite u64_small by (unfold is_u64; lia). unfold advanced. by rewrite Hb.
Qed.

Lemma retransmit_sent s offset n :
  send_wf s -> 0 <= offset -> 0 < n -> offset + n <= cs_next_offset s ->
  wt_quic_crypto_send_retransmit s offset n = Ok (zslice offset n (cs_held s)).
Proof.
  intros [Hb Hh Hn] Ho Hp Hle. unfold WT_QUIC_CRYPTO_BUFFER_MAX in *. unfold wt_quic_crypto_send_retransmit. rewrite Hb, Z.sub_0_r.
  rewrite (proj2 (Z.leb_gt (cs_next_offset s) offset)), (proj2 (Z.ltb_ge offset 0)) by lia. rewrite (u64_small offset) by (unfold is_u64; lia).
  rewrite (u64_small (_ - offset)) by (unfold is_u64; lia). rewrite (proj2 (Z.leb_gt (zlen (cs_held s)) offset)), (proj2 (Z.ltb_ge (_ - offset) n)) by lia. done.
Qed.

Lemma drained_pending s : send_wf s -> wt_quic_crypto_send_pending (drained s) = false.
Proof.
  intros [Hb Hh Hn]. unfold WT_QUIC_CRYPTO_BUFFER_MAX in *. unfold wt_quic_crypto_send_pending, drained, advanced. cbn. rewrite Hb, Z.sub_0_r.
  rewrite (proj2 (Z.ltb_ge _ 0)) by lia. rewrite u64_small by (unfold is_u64; lia). apply Z.ltb_irrefl.
Qed.

Section Resend.
Context {TC TS A : Type} `{TlsClient TC} `{TlsServer TS} {C : Crypto}.
Notation connection := (wt_quic_connection (wt_quic_handshake TC TS * A)).
Implicit Types c : connection.

(** ** A connection that takes what it is given *)

Definition range : Type := wt_quic_space * Z * list Z.

Context (send_crypto : wt_quic_space -> Z -> list Z -> connection -> wt_status * connection).
Context (send_frame : wt_quic_space -> wt_quic_frame -> bool -> connection -> wt_status * connection).
Context (sent : connection -> list range).

(** Nothing is refused and nothing declared lost meanwhile; [sent] lists the ranges. *)
Record accepting : Prop := {
  ac_ok space offset data c : (send_crypto space offset data c).1 = WT_OK;
  ac_handshake space offset data c : handshake_of (send_crypto space offset data c).2 = handshake_of c;
  ac_sent space offset data c : sent (send_crypto space offset data c).2 = sent c ++ [(space, offset, data)];
  ac_frame_ok space frame b c : (send_frame space frame b c).1 = WT_OK;
  ac_frame_handshake space frame b c : handshake_of (send_frame space frame b c).2 = handshake_of c;
  ac_frame_sent space frame b c : sent (send_frame space frame b c).2 = sent c;
  ac_on_handshake f c : sent (on_handshake f c) = sent c }.

Context (Hacc : accepting).

Lemma handshake_of_on f c : handshake_of (on_handshake f c) = f (handshake_of c).
Proof. done. Qed.

(** ** The lost ranges *)

Definition slot_clear (r : wt_quic_handshake_retransmit) : wt_quic_handshake_retransmit := r <| ht_in_use := false |>.

Lemma slots_same i (h : wt_quic_handshake TC TS) :
  (forall t, hs_retransmit h !! i = Some t -> slot_clear t = t) -> h <| hs_retransmit ::= alter slot_clear i |> = h.
Proof.
  intros Ht. unfold upd. destruct h. cbn in *. f_equal. apply list_eq. intros j. rewrite list_lookup_alter.
  destruct (decide (i = j)) as [->|]; [|done]. destruct (_ !! j) as [t|]; [|done]. cbn. by rewrite Ht.
Qed.

(** The slot is free, and its bytes were sent if the buffer has them. *)
Lemma resend_slot_accepted i c :
  let r := resend_slot send_crypto i c in
  r.1 = None /\ handshake_of r.2 = handshake_of c <| hs_retransmit ::= alter slot_clear i |> /\
  sent c `prefix_of` sent r.2 /\
  forall t data, hs_retransmit (handshake_of c) !! i = Some t -> ht_in_use t = true ->
    wt_quic_crypto_send_retransmit (at_space (ht_space t) (hs_send (handshake_of c))) (ht_offset t) (ht_length t) = Ok data ->
    (ht_space t, ht_offset t, data) ∈ sent r.2.
Proof.
  cbv zeta. unfold resend_slot. destruct (hs_retransmit (handshake_of c) !! i) as [t|] eqn:Et.
  2:{ split_and!; [done| |done|done]. cbn [snd]. symmetry. apply slots_same. intros t. by rewrite Et. }
  destruct (ht_in_use t) eqn:Eu; cbn [negb].
  2:{ split_and!; [done| |done|intros t' data [= <-]; congruence]. cbn [snd]. symmetry. apply slots_same. rewrite Et. intros t' [= <-].
      unfold slot_clear, upd. destruct t. cbn in *. by subst. }
  destruct (wt_quic_crypto_send_retransmit _ _ _) as [data|e code] eqn:Er.
  - pose proof (ac_ok Hacc (ht_space t) (ht_offset t) data c) as Eok. pose proof (ac_handshake Hacc (ht_space t) (ht_offset t) data c) as Eh.
    pose proof (ac_sent Hacc (ht_space t) (ht_offset t) data c) as Es. destruct (send_crypto _ _ _ _) as [st c']. cbn [fst snd] in *. subst st. unfold after_send. cbn [fst snd].
    unfold clear_slot. rewrite handshake_of_on, Eh, (ac_on_handshake Hacc), Es. split_and!; [done|done|by apply prefix_app_r|].
    intros t' data' [= <-] _. rewrite Er. intros [= <-]. apply elem_of_app. right. by constructor.
  - cbn [fst snd]. unfold clear_slot. rewrite handshake_of_on, (ac_on_handshake Hacc). split_and!; [done|done|done|]. intros t' data [= <-]. congruence.
Qed.

Lemma resend_slots_accepted slots : forall c,
  let r := resend_slots send_crypto slots c in
  r.1 = None /\ handshake_of r.2 = handshake_of c <| hs_retransmit ::= (fun l => foldl (fun l i => alter slot_clear i l) l slots) |> /\
  sent c `prefix_of` sent r.2 /\
  forall i t data, i ∈ slots -> hs_retransmit (handshake_of c) !! i = Some t -> ht_in_use t = true -> NoDup slots ->
    wt_quic_crypto_send_retransmit (at_space (ht_space t) (hs_send (handshake_of c))) (ht_offset t) (ht_length t) = Ok data ->
    (ht_space t, ht_offset t, data) ∈ sent r.2.
Proof.
  induction slots as [|i slots IH]; intros c; cbn [resend_slots foldl].
  { split_and!; [done|cbn [snd]; unfold upd; by destruct (handshake_of c)|done|]. intros i t data Hi. by apply elem_of_nil in Hi. }
  destruct (resend_slot_accepted i c) as (E1 & E2 & E3 & E4). unfold and_then. rewrite E1. set (c1 := (resend_slot send_crypto i c).2) in *.
  destruct (IH c1) as (F1 & F2 & F3 & F4). split_and!; [done| |by etrans|].
  - rewrite F2, E2. done.
  - intros j t data Hj Ht Hu [Hi Hnd]%NoDup_cons Hd. apply elem_of_cons in Hj as [->|Hj].
    + eapply elem_of_prefix; [|exact F3]. by apply E4.
    + apply (F4 j); [done| |done|done|by rewrite E2]. rewrite E2. unfold upd. cbn. rewrite list_lookup_alter, decide_False; [done|]. by intros ->.
Qed.

(** ** The levels *)

Lemma crypto_range_pos c : 0 < crypto_range_max c.
Proof. unfold crypto_range_max. cbv zeta. destruct (Z.leb_spec (cf_max_datagram_size (cn_config c)) (if rt_accepted (cn_retry c) && (zlen (rt_token (cn_retry c)) <? WT_QUIC_HANDSHAKE_PACKET_RESERVE) then WT_QUIC_HANDSHAKE_PACKET_RESERVE + zlen (rt_token (cn_retry c)) else WT_QUIC_HANDSHAKE_PACKET_RESERVE)); lia. Qed.

(** A byte of a level, in a range that was sent. *)
Definition byte_sent (space : wt_quic_space) (held : list Z) (x : Z) (l : list range) : Prop :=
  exists offset n, (space, offset, zslice offset n held) ∈ l /\ offset <= x < offset + n.

Lemma byte_sent_prefix space held x l l' : byte_sent space held x l -> l `prefix_of` l' -> byte_sent space held x l'.
Proof. intros (o & n & Hin & Hx) Hl. exists o, n. split; [by eapply elem_of_prefix|done]. Qed.

Lemma alter_space_same {B} space f g (p : per_space B) : alter_space space f (alter_space space g p) = alter_space space (fun x => f (g x)) p.
Proof. by destruct space. Qed.
Lemma at_altered {B} space f (p : per_space B) : at_space space (alter_space space f p) = f (at_space space p).
Proof. by destruct space. Qed.
Lemma alter_space_at {B} space f (p : per_space B) : f (at_space space p) = at_space space p -> alter_space space f p = p.
Proof. destruct p, space; cbn; by intros ->. Qed.

Lemma send_level_accepted space fuel : forall c,
  let s := at_space space (hs_send (handshake_of c)) in
  send_wf s -> (Z.to_nat (zlen (cs_held s) - cs_next_offset s) < fuel)%nat ->
  let r := send_level send_crypto fuel space c in
  r.1 = None /\ handshake_of r.2 = handshake_of c <| hs_send ::= alter_space space drained |> /\ sent c `prefix_of` sent r.2 /\
  forall x, cs_next_offset s <= x < zlen (cs_held s) -> byte_sent space (cs_held s) x (sent r.2).
Proof.
  induction fuel as [|fuel IH]; intros c s Hs Hf; [lia|]. cbn [send_level]. fold s. pose proof (send_next_cases s (crypto_range_max c) Hs (crypto_range_pos c)) as Hn.
  destruct (Z.eqb_spec (cs_next_offset s) (zlen (cs_held s))) as [E|E].
  { rewrite Hn. split_and!; [done| |done|lia]. cbn [snd]. assert (drained s = s) as Ed by (unfold drained, advanced; rewrite <- E; by destruct s).
    unfold upd. cbn. rewrite alter_space_at by done. unfold upd; cbn; by destruct (handshake_of c). }
  destruct Hn as (n & Hpos & Hle & En & Ez & Ea). rewrite En. set (data := zslice (cs_next_offset s) n (cs_held s)) in *.
  pose proof (ac_ok Hacc space (cs_next_offset s) data c) as Eok. pose proof (ac_handshake Hacc space (cs_next_offset s) data c) as Eh.
  pose proof (ac_sent Hacc space (cs_next_offset s) data c) as Es. destruct (send_crypto _ _ _ _) as [st c1]. cbn [fst snd] in *. subst st. unfold after_send. cbn [fst snd].
  rewrite Eh. fold s. rewrite Ez, Ea. cbn [fst snd]. rewrite bool_decide_true by done. set (c2 := on_handshake _ c1).
  assert (at_space space (hs_send (handshake_of c2)) = advanced (cs_next_offset s + n) s) as E2 by (unfold c2; rewrite handshake_of_on; unfold upd; cbn; by rewrite at_altered).
  destruct (IH c2) as (F1 & F2 & F3 & F4); [rewrite E2; apply advanced_wf; [done|]; destruct Hs; lia|rewrite E2; cbn; lia|].
  assert (sent c1 `prefix_of` sent (send_level send_crypto fuel space c2).2) as Hpre by (etrans; [|exact F3]; unfold c2; by rewrite (ac_on_handshake Hacc)).
  split_and!; [done| |rewrite Es in Hpre; etrans; [|exact Hpre]; by apply prefix_app_r|].
  - rewrite F2. unfold c2. rewrite handshake_of_on, Eh. unfold upd. cbn. rewrite alter_space_same. f_equal. destruct space; cbn; unfold drained, advanced; done.
  - intros x Hx. destruct (decide (x < cs_next_offset s + n)).
    + eapply byte_sent_prefix; [|exact Hpre]. rewrite Es. exists (cs_next_offset s), n. split; [|lia]. apply elem_of_app. right. by constructor.
    + rewrite E2 in F4. apply (F4 x). cbn. lia.
Qed.

Definition sends_wf c : Prop := forall space, send_wf (at_space space (hs_send (handshake_of c))).

Definition in_progress c : Prop :=
  hs_state (handshake_of c) <> WT_QUIC_HANDSHAKE_IDLE /\ hs_state (handshake_of c) <> WT_QUIC_HANDSHAKE_FAILED.

Lemma at_other {B} space space' f (p : per_space B) : space <> space' -> at_space space (alter_space space' f p) = at_space space p.
Proof. by destruct space, space'. Qed.

Lemma clear_slots_lookup slots : forall (l : list wt_quic_handshake_retransmit) i t,
  foldl (fun l i => alter slot_clear i l) l slots !! i = Some t -> i ∈ slots -> ht_in_use t = false.
Proof.
  assert (forall slots (l : list wt_quic_handshake_retransmit) i t, (forall t, l !! i = Some t -> ht_in_use t = false) ->
    foldl (fun l i => alter slot_clear i l) l slots !! i = Some t -> ht_in_use t = false) as Hkeep.
  { intros sl. induction sl as [|j sl IH]; intros l i t Hl; cbn [foldl]; [apply Hl|]. apply IH. intros t'. rewrite list_lookup_alter.
    destruct (decide (j = i)) as [->|]; [|apply Hl]. destruct (l !! i); [|done]. by intros [= <-]. }
  induction slots as [|j slots IH]; intros l i t Ht Hi; [by apply elem_of_nil in Hi|]. cbn [foldl] in Ht. apply elem_of_cons in Hi as [->|Hi]; [|by eapply IH].
  eapply Hkeep; [|exact Ht]. intros t'. rewrite list_lookup_alter, decide_True by done. destruct (l !! j); [|done]. by intros [= <-].
Qed.

Lemma foldl_alter_length slots : forall (l : list wt_quic_handshake_retransmit), length (foldl (fun l i => alter slot_clear i l) l slots) = length l.
Proof. induction slots as [|j slots IH]; intros l; [done|]. cbn [foldl]. rewrite IH. apply length_alter. Qed.

(** The eight slots are all cleared. *)
Lemma clear_slots_free (l : list wt_quic_handshake_retransmit) :
  length l = WT_QUIC_HANDSHAKE_RETRANSMIT_MAX ->
  existsb ht_in_use (foldl (fun l i => alter slot_clear i l) l (seq 0 WT_QUIC_HANDSHAKE_RETRANSMIT_MAX)) = false.
Proof.
  intros Hl. apply not_true_is_false. intros (t & Hin & Ht)%existsb_exists. apply list_elem_of_In, list_elem_of_lookup in Hin as [i Hi].
  assert (i < WT_QUIC_HANDSHAKE_RETRANSMIT_MAX)%nat by (rewrite <- Hl, <- (foldl_alter_length (seq 0 WT_QUIC_HANDSHAKE_RETRANSMIT_MAX) l); by eapply lookup_lt_Some).
  rewrite (clear_slots_lookup _ _ _ _ Hi) in Ht; [done|]. apply elem_of_seq. lia.
Qed.

Lemma all_spaces_all space : space ∈ all_spaces.
Proof. apply list_elem_of_In. destruct space; cbn; auto. Qed.
Lemma all_spaces_NoDup : NoDup all_spaces.
Proof. apply NoDup_ListNoDup. repeat constructor; cbn; intuition congruence. Qed.

Lemma and_then_none (r : turn (TC := TC) (TS := TS) (A := A)) k : r.1 = None -> and_then r k = k r.2.
Proof. intros E. unfold and_then. by rewrite E. Qed.

Lemma send_levels_accepted spaces : forall c,
  sends_wf c -> NoDup spaces ->
  let r := send_levels send_crypto spaces c in
  r.1 = None /\ (exists f, handshake_of r.2 = handshake_of c <| hs_send ::= f |>) /\ sent c `prefix_of` sent r.2 /\
  (forall space, at_space space (hs_send (handshake_of r.2)) =
     if bool_decide (space ∈ spaces) then drained (at_space space (hs_send (handshake_of c))) else at_space space (hs_send (handshake_of c))) /\
  forall space x, space ∈ spaces -> let s := at_space space (hs_send (handshake_of c)) in
    cs_next_offset s <= x < zlen (cs_held s) -> byte_sent space (cs_held s) x (sent r.2).
Proof.
  induction spaces as [|space spaces IH]; intros c Hwf Hnd; cbn [send_levels].
  { split_and!; [done|exists id; cbn [snd]; unfold upd; by destruct (handshake_of c)|done|done|]. intros space x Hs. by apply elem_of_nil in Hs. }
  apply NoDup_cons in Hnd as [Hnew Hnd]. pose proof (Hwf space) as [_ Hh Hn].
  destruct (send_level_accepted space (WT_QUIC_CRYPTO_BUFFER_MAX + 1) c (Hwf space)) as (E1 & E2 & E3 & E4); [lia|].
  rewrite and_then_none by done. set (c1 := (send_level _ _ _ _).2) in *.
  assert (forall other, at_space other (hs_send (handshake_of c1)) = if bool_decide (other = space) then drained (at_space space (hs_send (handshake_of c))) else at_space other (hs_send (handshake_of c))) as Ea.
  { intros other. rewrite E2. unfold upd. cbn. case_bool_decide as Eo; [subst; by rewrite at_altered|by rewrite at_other]. }
  destruct (IH c1) as (F1 & (f & F2) & F3 & F4 & F5); [|done|].
  { intros other. rewrite Ea. case_bool_decide; [|apply Hwf]. destruct (Hwf space). apply advanced_wf; [done|]. split; [apply zlen_nonneg|lia]. }
  split_and!; [done| |by etrans| |].
  - exists (fun p => f (alter_space space drained p)). by rewrite F2, E2.
  - intros other. rewrite F4, Ea. destruct (decide (other = space)) as [->|Hne].
    + rewrite (bool_decide_true (space = space)) by done. rewrite bool_decide_false by done. by rewrite bool_decide_true by (by left).
    + rewrite (bool_decide_false (other = space)) by done. destruct (decide (other ∈ spaces)) as [Hin|Hin].
      * rewrite (bool_decide_true (other ∈ spaces)) by done. by rewrite bool_decide_true by (by right).
      * rewrite (bool_decide_false (other ∈ spaces)), (bool_decide_false (other ∈ space :: spaces)); [done|by intros [?|?]%elem_of_cons|done].
  - cbv zeta. intros other x Hin Hx. apply elem_of_cons in Hin as [->|Hin]; [eapply byte_sent_prefix; [by apply E4|exact F3]|].
    specialize (F5 other x Hin). rewrite Ea, bool_decide_false in F5 by (by intros ->). by apply F5.
Qed.
(** ** The flush *)

Definition slots_free c : Prop := existsb ht_in_use (hs_retransmit (handshake_of c)) = false.
Definition levels_sent c : Prop := forall space, wt_quic_crypto_send_pending (at_space space (hs_send (handshake_of c))) = false.

Lemma pending_done c :
  in_progress c -> slots_free c -> levels_sent c -> wt_quic_handshake_pending c = hs_handshake_done_pending (handshake_of c).
Proof.
  intros [Hi Hf] Hs Hl. unfold wt_quic_handshake_pending. cbv zeta. rewrite !bool_decide_false by assumption. cbn [orb].
  pose proof (Hl WT_QUIC_SPACE_INITIAL) as P1. pose proof (Hl WT_QUIC_SPACE_HANDSHAKE) as P2.
  pose proof (Hl WT_QUIC_SPACE_APPLICATION) as P3. cbn [at_space] in P1, P2, P3. by rewrite P1, P2, P3, Hs.
Qed.

(** HANDSHAKE_DONE goes out when there are keys to send it with. *)
Lemma send_done_accepted c :
  in_progress c -> slots_free c -> levels_sent c ->
  let r := send_done send_frame c in
  r.1 = WT_OK /\ sent r.2 = sent c /\ wt_quic_handshake_pending r.2 = hs_handshake_done_pending (handshake_of r.2) /\
  (hs_handshake_done_pending (handshake_of r.2) = true -> ss_has_keys_out (space_of r.2 WT_QUIC_SPACE_APPLICATION) = false).
Proof.
  intros Hp Hs Hl. cbv zeta. unfold send_done. destruct (hs_handshake_done_pending (handshake_of c)) eqn:Ed; cbn [andb].
  2:{ cbn [fst snd]. split_and!; [done|done|by apply pending_done|congruence]. }
  destruct (ss_has_keys_out _) eqn:Ek; [|cbn [fst snd]; split_and!; [done|done|by apply pending_done|done]].
  pose proof (ac_frame_ok Hacc WT_QUIC_SPACE_APPLICATION FRAME_HANDSHAKE_DONE true c) as G1.
  pose proof (ac_frame_handshake Hacc WT_QUIC_SPACE_APPLICATION FRAME_HANDSHAKE_DONE true c) as G2.
  pose proof (ac_frame_sent Hacc WT_QUIC_SPACE_APPLICATION FRAME_HANDSHAKE_DONE true c) as G3.
  destruct (send_frame _ _ _ c) as [st c1]. cbn [fst snd] in *. subst st. cbn [fst snd].
  split_and!; [done|by rewrite (ac_on_handshake Hacc)| |by rewrite handshake_of_on].
  unfold in_progress, slots_free, levels_sent in *. apply pending_done; unfold in_progress, slots_free, levels_sent; rewrite handshake_of_on, G2; assumption.
Qed.

Definition goes_out (h : wt_quic_handshake TC TS) (t : wt_quic_handshake_retransmit) (data : list Z) : Prop :=
  wt_quic_crypto_send_retransmit (at_space (ht_space t) (hs_send h)) (ht_offset t) (ht_length t) = Ok data.

(** Every lost range that is held goes out, and every byte not sent yet. *)
Lemma flush_accepted c :
  in_progress c -> sends_wf c -> length (hs_retransmit (handshake_of c)) = WT_QUIC_HANDSHAKE_RETRANSMIT_MAX ->
  let r := flush_with send_crypto send_frame c in
  r.1 = WT_OK /\
  (forall t data, t ∈ hs_retransmit (handshake_of c) -> ht_in_use t = true -> goes_out (handshake_of c) t data -> (ht_space t, ht_offset t, data) ∈ sent r.2) /\
  (forall space x, let s := at_space space (hs_send (handshake_of c)) in
     cs_next_offset s <= x < zlen (cs_held s) -> byte_sent space (cs_held s) x (sent r.2)) /\
  wt_quic_handshake_pending r.2 = hs_handshake_done_pending (handshake_of r.2) /\
  (hs_handshake_done_pending (handshake_of r.2) = true -> ss_has_keys_out (space_of r.2 WT_QUIC_SPACE_APPLICATION) = false).
Proof.
  intros [Hidle Hfail] Hwf Hlen. cbv zeta. unfold flush_with. rewrite !bool_decide_false by assumption. cbn [orb]. cbv zeta.
  destruct (resend_slots_accepted (seq 0 WT_QUIC_HANDSHAKE_RETRANSMIT_MAX) c) as (E1 & E2 & E3 & E4).
  rewrite and_then_none by exact E1. generalize dependent (resend_slots send_crypto (seq 0 WT_QUIC_HANDSHAKE_RETRANSMIT_MAX) c).2. intros c1 E2 E3 E4.
  assert (forall space, at_space space (hs_send (handshake_of c1)) = at_space space (hs_send (handshake_of c))) as Es1 by (intros; by rewrite E2).
  destruct (send_levels_accepted all_spaces c1) as (F1 & (f & F2) & F3 & F4 & F5); [intros space; rewrite Es1; apply Hwf|apply all_spaces_NoDup|].
  rewrite F1. generalize dependent (send_levels send_crypto all_spaces c1).2. intros c2 F2 F3 F4 F5.
  assert (slots_free c2) as Hslots by (unfold slots_free; rewrite F2, E2; by apply clear_slots_free).
  assert (levels_sent c2) as Hsent by (intros space; rewrite F4, bool_decide_true by apply all_spaces_all; rewrite Es1; apply drained_pending, Hwf).
  assert (in_progress c2) as Hp by (unfold in_progress; rewrite F2, E2; by split).
  destruct (send_done_accepted c2 Hp Hslots Hsent) as (G1 & G2 & G3 & G4). rewrite G2. split_and!; [exact G1| | |exact G3|exact G4].
  - intros t data [i Hi]%list_elem_of_lookup Hu Hd. eapply elem_of_prefix; [|exact F3]. apply (E4 i t); [|exact Hi|exact Hu|apply NoDup_seq|exact Hd].
    apply elem_of_seq. apply lookup_lt_Some in Hi. lia.
  - intros space x. cbv zeta. specialize (F5 space x (all_spaces_all space)). cbv zeta in F5. rewrite Es1 in F5. exact F5.
Qed.

(** A lost range with a free slot is held. *)
Lemma on_lost_held frame c :
  tf_is_crypto frame = true -> existsb (fun t => negb (ht_in_use t)) (hs_retransmit (handshake_of c)) = true ->
  exists i, (i < length (hs_retransmit (handshake_of c)))%nat /\
    wt_quic_handshake_on_lost frame c = on_handshake (fun h => h <| hs_retransmit ::= <[i := mk_retransmit true (tf_space frame) (tf_offset frame) (tf_length frame)]> |>) c.
Proof.
  intros Hcrypto Hfree. unfold wt_quic_handshake_on_lost. rewrite Hcrypto. cbn [negb]. destruct (first_index _ _) as [i|] eqn:Ei.
  - exists i. split; [by eapply first_index_lt|done].
  - apply first_index_None in Ei. apply existsb_exists in Hfree as (t & Hin & Ht). rewrite Forall_forall in Ei. apply list_elem_of_In in Hin. by rewrite Ei in Ht.
Qed.
End Resend.


(** A connection whose sends are listed beside the handshake. *)
Notation logging_connection := (wt_quic_connection (wt_quic_handshake toy_client toy_server * list range)).

Definition log_crypto (space : wt_quic_space) (offset : Z) (data : list Z) (c : logging_connection) : wt_status * logging_connection :=
  (WT_OK, c <| cn_context ::= (fun x => (x.1, x.2 ++ [(space, offset, data)])) |>).
Definition log_frame (space : wt_quic_space) (frame : wt_quic_frame) (ack_eliciting : bool) (c : logging_connection) : wt_status * logging_connection :=
  (WT_OK, c).

Lemma logging_accepts : accepting log_crypto log_frame (fun c : logging_connection => (cn_context c).2).
Proof. by split. Qed.

(** A client whose first flight of 1,500 bytes is out. *)
Definition flown_client : logging_connection :=
  (flush_with log_crypto log_frame
    (wt_quic_handshake_start_client (TC := toy_client) (TS := toy_server) ([1; 0; 5; 216] ++ replicate 1496 77)
      (is_Some_proj (mx := (wt_quic_connection_init (X := toy_handshake * list range) (sample_config WT_QUIC_ROLE_CLIENT [1; 2; 3; 4] [5; 6; 7; 8]) (zeroed_handshake false, [])).2)
        (ltac:(by eexists)))).2).2.

Definition lost_range : wt_quic_tx_frame := mk_tx_frame true WT_QUIC_SPACE_INITIAL true 0 1272 228.

Lemma flown_client_sent : map (fun r => (r.1, zlen r.2)) (cn_context flown_client).2 = [((WT_QUIC_SPACE_INITIAL, 0), 1272); ((WT_QUIC_SPACE_INITIAL, 1272), 228)].
Proof. vm_compute. reflexivity. Qed.

Lemma flown_client_ready :
  hs_state (handshake_of flown_client) = WT_QUIC_HANDSHAKE_CLIENT_WAITING /\ cs_next_offset (ps_initial (hs_send (handshake_of flown_client))) = 1500 /\
  hs_handshake_done_pending (handshake_of flown_client) = false /\ length (hs_retransmit (handshake_of flown_client)) = 8%nat /\
  existsb (fun t => negb (ht_in_use t)) (hs_retransmit (handshake_of flown_client)) = true.
Proof. split_and!; vm_compute; reflexivity. Qed.

Lemma flown_client_wf : sends_wf flown_client.
Proof. intros []; split; vm_compute; intuition discriminate. Qed.

