(* ===== verification/HandshakeEdges.v ===== *)
(** * Where the handshake stops short

    Places where the handshake over CRYPTO frames does less than it says, each
    on a concrete connection. *)

From S2P Require Import Prelude Core Crypto CryptoStream Frame Update Connection ConnectionKeys ConnectionSend ConnectionSample.
From S2P Require Export Handshake HandshakeSample HandshakeResend.

(** ** The room of a CRYPTO frame *)

Definition long_hello : list Z := [1; 0; 5; 216] ++ replicate 1496 77.

(** A client with a hello of 1,500 bytes, on a path of that size. *)
Definition keyed_client : toy_connection := with_initial_keys (before_handshake WT_QUIC_ROLE_CLIENT [1; 2; 3; 4] [5; 6; 7; 8]).
Definition long_client (size : Z) : toy_connection :=
  (wt_quic_handshake_start_client (TC := toy_client) (TS := toy_server) long_hello
     (keyed_client <| cn_config := mk_config WT_QUIC_ROLE_CLIENT 1 [1; 2; 3; 4] [5; 6; 7; 8] WT_AEAD_AES_128_GCM 25000 25000 4 100000 0 size |>)).2.

(** It has accepted a Retry with a token of that length. *)
Definition retried_client (token : nat) : toy_connection :=
  long_client 1200 <| cn_retry ::= (fun r => r <| rt_accepted := true |> <| rt_token := replicate token 170 |>) |>.

Definition flush (c : toy_connection) : wt_status * toy_connection := wt_quic_handshake_flush sample_socket None 0 1000 c.

(** The flush sent so many datagrams and said WT_OK, and this is pending. *)
Definition flushed (c : toy_connection) (datagrams : nat) (pending : bool) : Prop :=
  let r := flush c in (r.1, length (cn_outbox r.2), wt_quic_handshake_pending r.2) = (WT_OK, datagrams, pending).

(** A short token comes off the room; from 128 bytes on it does not, the range is too
    long for the packet, and nothing is sent. *)
Lemma long_retry_token_stalls :
  crypto_range_max (retried_client 127) = 945 /\ crypto_range_max (retried_client 128) = 1072 /\ flushed (retried_client 128) 0 true.
Proof. vm_compute. repeat split. Qed.

(** The range follows the path's size, the packet builder does not: on a path of
    1,400 bytes, which a connection accepts, the hello is never sent. *)
Lemma large_path_stalls : flushed (long_client 1400) 0 true.
Proof. vm_compute. reflexivity. Qed.

(** ** Nine losses *)

Definition lost_at (i : nat) : wt_quic_tx_frame := mk_tx_frame true WT_QUIC_SPACE_INITIAL true 0 (100 * Z.of_nat i) 100.
Definition nine_lost : logging_connection := foldl (fun c i => wt_quic_handshake_on_lost (lost_at i) c) flown_client (seq 0 9).
Definition resent : wt_status * logging_connection := flush_with log_crypto log_frame nine_lost.

(** Nine ranges of a sent flight lost before a flush, on a connection that takes
    everything: the ninth is not sent again, and nothing is pending. *)
Lemma ninth_loss_forgotten :
  resent.1 = WT_OK /\ wt_quic_handshake_pending resent.2 = false /\
  map (fun r => (r.1.2, zlen r.2)) (drop 2 (cn_context resent.2).2) = [(0, 100); (100, 100); (200, 100); (300, 100); (400, 100); (500, 100); (600, 100); (700, 100)].
Proof. vm_compute. repeat split. Qed.

(** ** A server's confirmation *)

(** A ClientHello and a Finished take a server to CONNECTED and to [hs_confirmed];
    the connection it protects never hears of it, and refuses a key update. *)
Lemma server_never_confirmed :
  let hello := wt_quic_handshake_on_frame WT_QUIC_SPACE_INITIAL (FRAME_CRYPTO 0 [1; 0; 0; 0]) waiting_server in
  let finished := wt_quic_handshake_on_frame WT_QUIC_SPACE_HANDSHAKE (FRAME_CRYPTO 0 [20; 0; 0; 0]) (flush hello.2).2 in
  let server := (flush finished.2).2 in
  hello.1 = WT_OK /\ finished.1 = WT_OK /\ hs_state (handshake_of server) = WT_QUIC_HANDSHAKE_CONNECTED /\ hs_confirmed (handshake_of server) = true /\
  hs_handshake_done_pending (handshake_of server) = false /\
  cn_handshake_confirmed server = false /\ (wt_quic_connection_initiate_key_update 2000 server).1 = WT_ERR_STATE.
Proof. vm_compute. repeat split. Qed.

(** ** Encryption levels *)

(** Both of the server's messages, the second at the Initial level too: the client is
    connected, with the 1-RTT keys installed. *)
Definition initial_only_client : wt_status * toy_connection :=
  c <-! wt_quic_handshake_on_frame WT_QUIC_SPACE_INITIAL (FRAME_CRYPTO 0 [2; 0; 0; 0]) waiting_client;;
  wt_quic_handshake_on_frame WT_QUIC_SPACE_INITIAL (FRAME_CRYPTO 4 [20; 0; 0; 0]) c.

Lemma level_not_checked :
  initial_only_client.1 = WT_OK /\ hs_state (handshake_of initial_only_client.2) = WT_QUIC_HANDSHAKE_CONNECTED /\
  ss_has_keys_in (space_of initial_only_client.2 WT_QUIC_SPACE_APPLICATION) = true.
Proof. vm_compute. repeat split. Qed.
