(* ===== verification/QpackHuffman.v ===== *)
(** * The QPACK Huffman code: [src/http3/qpack_huffman.c], [qpack_huffman_table.h]

    The three generated tables, the bit-by-bit decoder, the encoder with its
    partial last byte, and the size it announces.  Strings of bits are lists of
    booleans, most significant bit first; the theorems say that the decoder
    accepts exactly what the encoder produces. *)

From S2P Require Export Core.
#[local] Open Scope Z_scope.

(** ** The tables *)

Definition WT_RFC7541_HUFFMAN_EOS : Z := 256.
Definition WT_RFC7541_HUFFMAN_MAX_BITS : Z := 30.

Record wt_rfc7541_huffman_code := mk_hcode { hc_code : Z; hc_bits : Z }.

Definition WT_RFC7541_HUFFMAN_CODES : list wt_rfc7541_huffman_code :=
  [mk_hcode 0x1ff8 13; mk_hcode 0x7fffd8 23; mk_hcode 0xfffffe2 28; mk_hcode 0xfffffe3 28; mk_hcode 0xfffffe4 28; mk_hcode 0xfffffe5 28;
   mk_hcode 0xfffffe6 28; mk_hcode 0xfffffe7 28; mk_hcode 0xfffffe8 28; mk_hcode 0xffffea 24; mk_hcode 0x3ffffffc 30; mk_hcode 0xfffffe9 28;
   mk_hcode 0xfffffea 28; mk_hcode 0x3ffffffd 30; mk_hcode 0xfffffeb 28; mk_hcode 0xfffffec 28; mk_hcode 0xfffffed 28; mk_hcode 0xfffffee 28;
   mk_hcode 0xfffffef 28; mk_hcode 0xffffff0 28; mk_hcode 0xffffff1 28; mk_hcode 0xffffff2 28; mk_hcode 0x3ffffffe 30; mk_hcode 0xffffff3 28;
   mk_hcode 0xffffff4 28; mk_hcode 0xffffff5 28; mk_hcode 0xffffff6 28; mk_hcode 0xffffff7 28; mk_hcode 0xffffff8 28; mk_hcode 0xffffff9 28;
   mk_hcode 0xffffffa 28; mk_hcode 0xffffffb 28; mk_hcode 0x14 6; mk_hcode 0x3f8 10; mk_hcode 0x3f9 10; mk_hcode 0xffa 12;
   mk_hcode 0x1ff9 13; mk_hcode 0x15 6; mk_hcode 0xf8 8; mk_hcode 0x7fa 11; mk_hcode 0x3fa 10; mk_hcode 0x3fb 10;
   mk_hcode 0xf9 8; mk_hcode 0x7fb 11; mk_hcode 0xfa 8; mk_hcode 0x16 6; mk_hcode 0x17 6; mk_hcode 0x18 6;
   mk_hcode 0x0 5; mk_hcode 0x1 5; mk_hcode 0x2 5; mk_hcode 0x19 6; mk_hcode 0x1a 6; mk_hcode 0x1b 6;
   mk_hcode 0x1c 6; mk_hcode 0x1d 6; mk_hcode 0x1e 6; mk_hcode 0x1f 6; mk_hcode 0x5c 7; mk_hcode 0xfb 8;
   mk_hcode 0x7ffc 15; mk_hcode 0x20 6; mk_hcode 0xffb 12; mk_hcode 0x3fc 10; mk_hcode 0x1ffa 13; mk_hcode 0x21 6;
   mk_hcode 0x5d 7; mk_hcode 0x5e 7; mk_hcode 0x5f 7; mk_hcode 0x60 7; mk_hcode 0x61 7; mk_hcode 0x62 7;
   mk_hcode 0x63 7; mk_hcode 0x64 7; mk_hcode 0x65 7; mk_hcode 0x66 7; mk_hcode 0x67 7; mk_hcode 0x68 7;
   mk_hcode 0x69 7; mk_hcode 0x6a 7; mk_hcode 0x6b 7; mk_hcode 0x6c 7; mk_hcode 0x6d 7; mk_hcode 0x6e 7;
   mk_hcode 0x6f 7; mk_hcode 0x70 7; mk_hcode 0x71 7; mk_hcode 0x72 7; mk_hcode 0xfc 8; mk_hcode 0x73 7;
   mk_hcode 0xfd 8; mk_hcode 0x1ffb 13; mk_hcode 0x7fff0 19; mk_hcode 0x1ffc 13; mk_hcode 0x3ffc 14; mk_hcode 0x22 6;
   mk_hcode 0x7ffd 15; mk_hcode 0x3 5; mk_hcode 0x23 6; mk_hcode 0x4 5; mk_hcode 0x24 6; mk_hcode 0x5 5;
   mk_hcode 0x25 6; mk_hcode 0x26 6; mk_hcode 0x27 6; mk_hcode 0x6 5; mk_hcode 0x74 7; mk_hcode 0x75 7;
   mk_hcode 0x28 6; mk_hcode 0x29 6; mk_hcode 0x2a 6; mk_hcode 0x7 5; mk_hcode 0x2b 6; mk_hcode 0x76 7;
   mk_hcode 0x2c 6; mk_hcode 0x8 5; mk_hcode 0x9 5; mk_hcode 0x2d 6; mk_hcode 0x77 7; mk_hcode 0x78 7;
   mk_hcode 0x79 7; mk_hcode 0x7a 7; mk_hcode 0x7b 7; mk_hcode 0x7ffe 15; mk_hcode 0x7fc 11; mk_hcode 0x3ffd 14;
   mk_hcode 0x1ffd 13; mk_hcode 0xffffffc 28; mk_hcode 0xfffe6 20; mk_hcode 0x3fffd2 22; mk_hcode 0xfffe7 20; mk_hcode 0xfffe8 20;
   mk_hcode 0x3fffd3 22; mk_hcode 0x3fffd4 22; mk_hcode 0x3fffd5 22; mk_hcode 0x7fffd9 23; mk_hcode 0x3fffd6 22; mk_hcode 0x7fffda 23;
   mk_hcode 0x7fffdb 23; mk_hcode 0x7fffdc 23; mk_hcode 0x7fffdd 23; mk_hcode 0x7fffde 23; mk_hcode 0xffffeb 24; mk_hcode 0x7fffdf 23;
   mk_hcode 0xffffec 24; mk_hcode 0xffffed 24; mk_hcode 0x3fffd7 22; mk_hcode 0x7fffe0 23; mk_hcode 0xffffee 24; mk_hcode 0x7fffe1 23;
   mk_hcode 0x7fffe2 23; mk_hcode 0x7fffe3 23; mk_hcode 0x7fffe4 23; mk_hcode 0x1fffdc 21; mk_hcode 0x3fffd8 22; mk_hcode 0x7fffe5 23;
   mk_hcode 0x3fffd9 22; mk_hcode 0x7fffe6 23; mk_hcode 0x7fffe7 23; mk_hcode 0xffffef 24; mk_hcode 0x3fffda 22; mk_hcode 0x1fffdd 21;
   mk_hcode 0xfffe9 20; mk_hcode 0x3fffdb 22; mk_hcode 0x3fffdc 22; mk_hcode 0x7fffe8 23; mk_hcode 0x7fffe9 23; mk_hcode 0x1fffde 21;
   mk_hcode 0x7fffea 23; mk_hcode 0x3fffdd 22; mk_hcode 0x3fffde 22; mk_hcode 0xfffff0 24; mk_hcode 0x1fffdf 21; mk_hcode 0x3fffdf 22;
   mk_hcode 0x7fffeb 23; mk_hcode 0x7fffec 23; mk_hcode 0x1fffe0 21; mk_hcode 0x1fffe1 21; mk_hcode 0x3fffe0 22; mk_hcode 0x1fffe2 21;
   mk_hcode 0x7fffed 23; mk_hcode 0x3fffe1 22; mk_hcode 0x7fffee 23; mk_hcode 0x7fffef 23; mk_hcode 0xfffea 20; mk_hcode 0x3fffe2 22;
   mk_hcode 0x3fffe3 22; mk_hcode 0x3fffe4 22; mk_hcode 0x7ffff0 23; mk_hcode 0x3fffe5 22; mk_hcode 0x3fffe6 22; mk_hcode 0x7ffff1 23;
   mk_hcode 0x3ffffe0 26; mk_hcode 0x3ffffe1 26; mk_hcode 0xfffeb 20; mk_hcode 0x7fff1 19; mk_hcode 0x3fffe7 22; mk_hcode 0x7ffff2 23;
   mk_hcode 0x3fffe8 22; mk_hcode 0x1ffffec 25; mk_hcode 0x3ffffe2 26; mk_hcode 0x3ffffe3 26; mk_hcode 0x3ffffe4 26; mk_hcode 0x7ffffde 27;
   mk_hcode 0x7ffffdf 27; mk_hcode 0x3ffffe5 26; mk_hcode 0xfffff1 24; mk_hcode 0x1ffffed 25; mk_hcode 0x7fff2 19; mk_hcode 0x1fffe3 21;
   mk_hcode 0x3ffffe6 26; mk_hcode 0x7ffffe0 27; mk_hcode 0x7ffffe1 27; mk_hcode 0x3ffffe7 26; mk_hcode 0x7ffffe2 27; mk_hcode 0xfffff2 24;
   mk_hcode 0x1fffe4 21; mk_hcode 0x1fffe5 21; mk_hcode 0x3ffffe8 26; mk_hcode 0x3ffffe9 26; mk_hcode 0xffffffd 28; mk_hcode 0x7ffffe3 27;
   mk_hcode 0x7ffffe4 27; mk_hcode 0x7ffffe5 27; mk_hcode 0xfffec 20; mk_hcode 0xfffff3 24; mk_hcode 0xfffed 20; mk_hcode 0x1fffe6 21;
   mk_hcode 0x3fffe9 22; mk_hcode 0x1fffe7 21; mk_hcode 0x1fffe8 21; mk_hcode 0x7ffff3 23; mk_hcode 0x3fffea 22; mk_hcode 0x3fffeb 22;
   mk_hcode 0x1ffffee 25; mk_hcode 0x1ffffef 25; mk_hcode 0xfffff4 24; mk_hcode 0xfffff5 24; mk_hcode 0x3ffffea 26; mk_hcode 0x7ffff4 23;
   mk_hcode 0x3ffffeb 26; mk_hcode 0x7ffffe6 27; mk_hcode 0x3ffffec 26; mk_hcode 0x3ffffed 26; mk_hcode 0x7ffffe7 27; mk_hcode 0x7ffffe8 27;
   mk_hcode 0x7ffffe9 27; mk_hcode 0x7ffffea 27; mk_hcode 0x7ffffeb 27; mk_hcode 0xffffffe 28; mk_hcode 0x7ffffec 27; mk_hcode 0x7ffffed 27;
   mk_hcode 0x7ffffee 27; mk_hcode 0x7ffffef 27; mk_hcode 0x7fffff0 27; mk_hcode 0x3ffffee 26; mk_hcode 0x3fffffff 30].

Record wt_rfc7541_huffman_entry := mk_hentry { he_code : Z; he_bits : Z; he_symbol : Z }.

Definition WT_RFC7541_HUFFMAN_BY_CODE : list wt_rfc7541_huffman_entry :=
  [mk_hentry 0x0 5 48; mk_hentry 0x1 5 49; mk_hentry 0x2 5 50; mk_hentry 0x3 5 97; mk_hentry 0x4 5 99;
   mk_hentry 0x5 5 101; mk_hentry 0x6 5 105; mk_hentry 0x7 5 111; mk_hentry 0x8 5 115; mk_hentry 0x9 5 116;
   mk_hentry 0x14 6 32; mk_hentry 0x15 6 37; mk_hentry 0x16 6 45; mk_hentry 0x17 6 46; mk_hentry 0x18 6 47;
   mk_hentry 0x19 6 51; mk_hentry 0x1a 6 52; mk_hentry 0x1b 6 53; mk_hentry 0x1c 6 54; mk_hentry 0x1d 6 55;
   mk_hentry 0x1e 6 56; mk_hentry 0x1f 6 57; mk_hentry 0x20 6 61; mk_hentry 0x21 6 65; mk_hentry 0x22 6 95;
   mk_hentry 0x23 6 98; mk_hentry 0x24 6 100; mk_hentry 0x25 6 102; mk_hentry 0x26 6 103; mk_hentry 0x27 6 104;
   mk_hentry 0x28 6 108; mk_hentry 0x29 6 109; mk_hentry 0x2a 6 110; mk_hentry 0x2b 6 112; mk_hentry 0x2c 6 114;
   mk_hentry 0x2d 6 117; mk_hentry 0x5c 7 58; mk_hentry 0x5d 7 66; mk_hentry 0x5e 7 67; mk_hentry 0x5f 7 68;
   mk_hentry 0x60 7 69; mk_hentry 0x61 7 70; mk_hentry 0x62 7 71; mk_hentry 0x63 7 72; mk_hentry 0x64 7 73;
   mk_hentry 0x65 7 74; mk_hentry 0x66 7 75; mk_hentry 0x67 7 76; mk_hentry 0x68 7 77; mk_hentry 0x69 7 78;
   mk_hentry 0x6a 7 79; mk_hentry 0x6b 7 80; mk_hentry 0x6c 7 81; mk_hentry 0x6d 7 82; mk_hentry 0x6e 7 83;
   mk_hentry 0x6f 7 84; mk_hentry 0x70 7 85; mk_hentry 0x71 7 86; mk_hentry 0x72 7 87; mk_hentry 0x73 7 89;
   mk_hentry 0x74 7 106; mk_hentry 0x75 7 107; mk_hentry 0x76 7 113; mk_hentry 0x77 7 118; mk_hentry 0x78 7 119;
   mk_hentry 0x79 7 120; mk_hentry 0x7a 7 121; mk_hentry 0x7b 7 122; mk_hentry 0xf8 8 38; mk_hentry 0xf9 8 42;
   mk_hentry 0xfa 8 44; mk_hentry 0xfb 8 59; mk_hentry 0xfc 8 88; mk_hentry 0xfd 8 90; mk_hentry 0x3f8 10 33;
   mk_hentry 0x3f9 10 34; mk_hentry 0x3fa 10 40; mk_hentry 0x3fb 10 41; mk_hentry 0x3fc 10 63; mk_hentry 0x7fa 11 39;
   mk_hentry 0x7fb 11 43; mk_hentry 0x7fc 11 124; mk_hentry 0xffa 12 35; mk_hentry 0xffb 12 62; mk_hentry 0x1ff8 13 0;
   mk_hentry 0x1ff9 13 36; mk_hentry 0x1ffa 13 64; mk_hentry 0x1ffb 13 91; mk_hentry 0x1ffc 13 93; mk_hentry 0x1ffd 13 126;
   mk_hentry 0x3ffc 14 94; mk_hentry 0x3ffd 14 125; mk_hentry 0x7ffc 15 60; mk_hentry 0x7ffd 15 96; mk_hentry 0x7ffe 15 123;
   mk_hentry 0x7fff0 19 92; mk_hentry 0x7fff1 19 195; mk_hentry 0x7fff2 19 208; mk_hentry 0xfffe6 20 128; mk_hentry 0xfffe7 20 130;
   mk_hentry 0xfffe8 20 131; mk_hentry 0xfffe9 20 162; mk_hentry 0xfffea 20 184; mk_hentry 0xfffeb 20 194; mk_hentry 0xfffec 20 224;
   mk_hentry 0xfffed 20 226; mk_hentry 0x1fffdc 21 153; mk_hentry 0x1fffdd 21 161; mk_hentry 0x1fffde 21 167; mk_hentry 0x1fffdf 21 172;
   mk_hentry 0x1fffe0 21 176; mk_hentry 0x1fffe1 21 177; mk_hentry 0x1fffe2 21 179; mk_hentry 0x1fffe3 21 209; mk_hentry 0x1fffe4 21 216;
   mk_hentry 0x1fffe5 21 217; mk_hentry 0x1fffe6 21 227; mk_hentry 0x1fffe7 21 229; mk_hentry 0x1fffe8 21 230; mk_hentry 0x3fffd2 22 129;
   mk_hentry 0x3fffd3 22 132; mk_hentry 0x3fffd4 22 133; mk_hentry 0x3fffd5 22 134; mk_hentry 0x3fffd6 22 136; mk_hentry 0x3fffd7 22 146;
   mk_hentry 0x3fffd8 22 154; mk_hentry 0x3fffd9 22 156; mk_hentry 0x3fffda 22 160; mk_hentry 0x3fffdb 22 163; mk_hentry 0x3fffdc 22 164;
   mk_hentry 0x3fffdd 22 169; mk_hentry 0x3fffde 22 170; mk_hentry 0x3fffdf 22 173; mk_hentry 0x3fffe0 22 178; mk_hentry 0x3fffe1 22 181;
   mk_hentry 0x3fffe2 22 185; mk_hentry 0x3fffe3 22 186; mk_hentry 0x3fffe4 22 187; mk_hentry 0x3fffe5 22 189; mk_hentry 0x3fffe6 22 190;
   mk_hentry 0x3fffe7 22 196; mk_hentry 0x3fffe8 22 198; mk_hentry 0x3fffe9 22 228; mk_hentry 0x3fffea 22 232; mk_hentry 0x3fffeb 22 233;
   mk_hentry 0x7fffd8 23 1; mk_hentry 0x7fffd9 23 135; mk_hentry 0x7fffda 23 137; mk_hentry 0x7fffdb 23 138; mk_hentry 0x7fffdc 23 139;
   mk_hentry 0x7fffdd 23 140; mk_hentry 0x7fffde 23 141; mk_hentry 0x7fffdf 23 143; mk_hentry 0x7fffe0 23 147; mk_hentry 0x7fffe1 23 149;
   mk_hentry 0x7fffe2 23 150; mk_hentry 0x7fffe3 23 151; mk_hentry 0x7fffe4 23 152; mk_hentry 0x7fffe5 23 155; mk_hentry 0x7fffe6 23 157;
   mk_hentry 0x7fffe7 23 158; mk_hentry 0x7fffe8 23 165; mk_hentry 0x7fffe9 23 166; mk_hentry 0x7fffea 23 168; mk_hentry 0x7fffeb 23 174;
   mk_hentry 0x7fffec 23 175; mk_hentry 0x7fffed 23 180; mk_hentry 0x7fffee 23 182; mk_hentry 0x7fffef 23 183; mk_hentry 0x7ffff0 23 188;
   mk_hentry 0x7ffff1 23 191; mk_hentry 0x7ffff2 23 197; mk_hentry 0x7ffff3 23 231; mk_hentry 0x7ffff4 23 239; mk_hentry 0xffffea 24 9;
   mk_hentry 0xffffeb 24 142; mk_hentry 0xffffec 24 144; mk_hentry 0xffffed 24 145; mk_hentry 0xffffee 24 148; mk_hentry 0xffffef 24 159;
   mk_hentry 0xfffff0 24 171; mk_hentry 0xfffff1 24 206; mk_hentry 0xfffff2 24 215; mk_hentry 0xfffff3 24 225; mk_hentry 0xfffff4 24 236;
   mk_hentry 0xfffff5 24 237; mk_hentry 0x1ffffec 25 199; mk_hentry 0x1ffffed 25 207; mk_hentry 0x1ffffee 25 234; mk_hentry 0x1ffffef 25 235;
   mk_hentry 0x3ffffe0 26 192; mk_hentry 0x3ffffe1 26 193; mk_hentry 0x3ffffe2 26 200; mk_hentry 0x3ffffe3 26 201; mk_hentry 0x3ffffe4 26 202;
   mk_hentry 0x3ffffe5 26 205; mk_hentry 0x3ffffe6 26 210; mk_hentry 0x3ffffe7 26 213; mk_hentry 0x3ffffe8 26 218; mk_hentry 0x3ffffe9 26 219;
   mk_hentry 0x3ffffea 26 238; mk_hentry 0x3ffffeb 26 240; mk_hentry 0x3ffffec 26 242; mk_hentry 0x3ffffed 26 243; mk_hentry 0x3ffffee 26 255;
   mk_hentry 0x7ffffde 27 203; mk_hentry 0x7ffffdf 27 204; mk_hentry 0x7ffffe0 27 211; mk_hentry 0x7ffffe1 27 212; mk_hentry 0x7ffffe2 27 214;
   mk_hentry 0x7ffffe3 27 221; mk_hentry 0x7ffffe4 27 222; mk_hentry 0x7ffffe5 27 223; mk_hentry 0x7ffffe6 27 241; mk_hentry 0x7ffffe7 27 244;
   mk_hentry 0x7ffffe8 27 245; mk_hentry 0x7ffffe9 27 246; mk_hentry 0x7ffffea 27 247; mk_hentry 0x7ffffeb 27 248; mk_hentry 0x7ffffec 27 250;
   mk_hentry 0x7ffffed 27 251; mk_hentry 0x7ffffee 27 252; mk_hentry 0x7ffffef 27 253; mk_hentry 0x7fffff0 27 254; mk_hentry 0xfffffe2 28 2;
   mk_hentry 0xfffffe3 28 3; mk_hentry 0xfffffe4 28 4; mk_hentry 0xfffffe5 28 5; mk_hentry 0xfffffe6 28 6; mk_hentry 0xfffffe7 28 7;
   mk_hentry 0xfffffe8 28 8; mk_hentry 0xfffffe9 28 11; mk_hentry 0xfffffea 28 12; mk_hentry 0xfffffeb 28 14; mk_hentry 0xfffffec 28 15;
   mk_hentry 0xfffffed 28 16; mk_hentry 0xfffffee 28 17; mk_hentry 0xfffffef 28 18; mk_hentry 0xffffff0 28 19; mk_hentry 0xffffff1 28 20;
   mk_hentry 0xffffff2 28 21; mk_hentry 0xffffff3 28 23; mk_hentry 0xffffff4 28 24; mk_hentry 0xffffff5 28 25; mk_hentry 0xffffff6 28 26;
   mk_hentry 0xffffff7 28 27; mk_hentry 0xffffff8 28 28; mk_hentry 0xffffff9 28 29; mk_hentry 0xffffffa 28 30; mk_hentry 0xffffffb 28 31;
   mk_hentry 0xffffffc 28 127; mk_hentry 0xffffffd 28 220; mk_hentry 0xffffffe 28 249; mk_hentry 0x3ffffffc 30 10; mk_hentry 0x3ffffffd 30 13;
   mk_hentry 0x3ffffffe 30 22; mk_hentry 0x3fffffff 30 256].

Record wt_rfc7541_huffman_range := mk_hrange { hr_first_code : Z; hr_offset : Z; hr_count : Z }.

Definition WT_RFC7541_HUFFMAN_RANGES : list wt_rfc7541_huffman_range :=
  [mk_hrange 0x0 0 0; mk_hrange 0x0 0 0; mk_hrange 0x0 0 0; mk_hrange 0x0 0 0;
   mk_hrange 0x0 0 10; mk_hrange 0x14 10 26; mk_hrange 0x5c 36 32; mk_hrange 0xf8 68 6;
   mk_hrange 0x1fc 74 0; mk_hrange 0x3f8 74 5; mk_hrange 0x7fa 79 3; mk_hrange 0xffa 82 2;
   mk_hrange 0x1ff8 84 6; mk_hrange 0x3ffc 90 2; mk_hrange 0x7ffc 92 3; mk_hrange 0xfffe 95 0;
   mk_hrange 0x1fffc 95 0; mk_hrange 0x3fff8 95 0; mk_hrange 0x7fff0 95 3; mk_hrange 0xfffe6 98 8;
   mk_hrange 0x1fffdc 106 13; mk_hrange 0x3fffd2 119 26; mk_hrange 0x7fffd8 145 29; mk_hrange 0xffffea 174 12;
   mk_hrange 0x1ffffec 186 4; mk_hrange 0x3ffffe0 190 15; mk_hrange 0x7ffffde 205 19; mk_hrange 0xfffffe2 224 29;
   mk_hrange 0x1ffffffe 253 0; mk_hrange 0x3ffffffc 253 4].

(** ** The decoder *)

(** [code], [bits] and the bytes produced so far. *)
Record decode_state := mk_dec { dc_code : Z; dc_bits : Z; dc_out : list Z }.

(** The body of the inner loop for one bit.  The outer option is [None] for a
    read outside a table. *)
Definition huffman_bit (capacity : Z) (bit : bool) (s : decode_state) : option (outcome decode_state) :=
  let code := Z.lor (u32 (Z.shiftl (dc_code s) 1)) (Z.b2z bit) in
  let bits := u32 (dc_bits s + 1) in
  if WT_RFC7541_HUFFMAN_MAX_BITS <? bits then Some (Fail WT_ERR_PROTOCOL None)
  else
    match zget WT_RFC7541_HUFFMAN_RANGES (bits - 1) with
    | None => None
    | Some range =>
        if (hr_count range =? 0) || (code <? hr_first_code range)
        then Some (Ok (mk_dec code bits (dc_out s)))
        else
          let offset := u32 (code - hr_first_code range) in
          if hr_count range <=? offset then Some (Ok (mk_dec code bits (dc_out s)))
          else
            match zget WT_RFC7541_HUFFMAN_BY_CODE (hr_offset range + offset) with
            | None => None
            | Some entry =>
                if he_symbol entry =? WT_RFC7541_HUFFMAN_EOS then Some (Fail WT_ERR_PROTOCOL None)
                else if zlen (dc_out s) =? capacity then Some (Fail WT_ERR_LIMIT None)
                else Some (Ok (mk_dec 0 0 (dc_out s ++ [u8 (he_symbol entry)])))
            end
    end.

(** [for (bit = 0x80; bit != 0; bit >>= 1)]: the masks, in order. *)
Fixpoint huffman_byte (capacity byte : Z) (masks : list Z) (s : decode_state) : option (outcome decode_state) :=
  match masks with
  | [] => Some (Ok s)
  | mask :: masks =>
      match huffman_bit capacity (negb (Z.land byte mask =? 0)) s with
      | Some (Ok s') => huffman_byte capacity byte masks s'
      | r => r
      end
  end.

Definition bit_masks : list Z := [0x80; 0x40; 0x20; 0x10; 8; 4; 2; 1].

Fixpoint huffman_bytes (capacity : Z) (coded : list Z) (s : decode_state) : option (outcome decode_state) :=
  match coded with
  | [] => Some (Ok s)
  | byte :: coded =>
      match huffman_byte capacity byte bit_masks s with
      | Some (Ok s') => huffman_bytes capacity coded s'
      | r => r
      end
  end.

Definition wt_qpack_huffman_decode (coded : list Z) (capacity : Z) : option (outcome (list Z)) :=
  match huffman_bytes capacity coded (mk_dec 0 0 []) with
  | None => None
  | Some (Fail e c) => Some (Fail e c)
  | Some (Ok s) =>
      if 7 <? dc_bits s then Some (Fail WT_ERR_PROTOCOL None)
      else if negb (dc_bits s =? 0) && negb (dc_code s =? u32 (Z.shiftl 1 (dc_bits s) - 1))
      then Some (Fail WT_ERR_PROTOCOL None)
      else Some (Ok (dc_out s))
  end.

(** ** The encoder *)

(** [WT_RFC7541_HUFFMAN_CODES[b]] for a byte. *)
Definition huffman_code_of (b : Z) : wt_rfc7541_huffman_code :=
  default (mk_hcode 0 0) (zget WT_RFC7541_HUFFMAN_CODES b).

Fixpoint encoded_bits (bytes : list Z) (bits : Z) : outcome Z :=
  match bytes with
  | [] => Ok bits
  | b :: bytes =>
      let bits := u64 (bits + hc_bits (huffman_code_of b)) in
      if u64 (SIZE_MAX - 7) <? bits then Fail WT_ERR_OVERFLOW None else encoded_bits bytes bits
  end.

Definition wt_qpack_huffman_encoded_size (bytes : list Z) : outcome Z :=
  match encoded_bits bytes 0 with
  | Ok bits => Ok (u64 (bits + 7) / 8)
  | Fail e c => Fail e c
  end.

(** [used], [produced] and the whole output block. *)
Record encode_state := mk_enc { ec_used : Z; ec_produced : Z; ec_out : list Z }.

(** [out[produced] |= bits]. *)
Definition or_byte (out : list Z) (at_ bits : Z) : list Z :=
  <[Z.to_nat at_ := u8 (Z.lor (byte_at out (Z.to_nat at_)) (u8 bits))]> out.

(** [while (remaining != 0)]; every turn takes at least one bit, so the number of
    bits is fuel enough. *)
Fixpoint encode_code (fuel : nat) (capacity code remaining : Z) (s : encode_state) : outcome encode_state :=
  match fuel with
  | O => Ok s
  | S fuel =>
      if remaining =? 0 then Ok s
      else if ec_produced s =? capacity then Fail WT_ERR_LIMIT None
      else
        let free_bits := 8 - ec_used s mod 8 in
        let take := if remaining <? free_bits then remaining else free_bits in
        let chunk := Z.land (Z.shiftr code (remaining - take)) (Z.shiftl 1 take - 1) in
        let out := or_byte (ec_out s) (ec_produced s) (Z.shiftl chunk (free_bits - take)) in
        let used := u64 (ec_used s + take) in
        encode_code fuel capacity code (remaining - take)
          (mk_enc used (if used mod 8 =? 0 then u64 (ec_produced s + 1) else ec_produced s) out)
  end.

Fixpoint encode_codes (capacity : Z) (bytes : list Z) (s : encode_state) : outcome encode_state :=
  match bytes with
  | [] => Ok s
  | b :: bytes =>
      let entry := huffman_code_of b in
      match encode_code (Z.to_nat (hc_bits entry)) capacity (hc_code entry) (hc_bits entry) s with
      | Ok s' => encode_codes capacity bytes s'
      | Fail e c => Fail e c
      end
  end.

(** The bytes of [out] up to [*out_length]. *)
Definition wt_qpack_huffman_encode (bytes : list Z) (capacity : Z) : outcome (list Z) :=
  match encode_codes capacity bytes (mk_enc 0 0 (replicate (Z.to_nat capacity) 0)) with
  | Fail e c => Fail e c
  | Ok s =>
      if negb (ec_used s mod 8 =? 0) then
        let free_bits := 8 - ec_used s mod 8 in
        let padding := Z.shiftl 1 free_bits - 1 in
        if ec_produced s =? capacity then Fail WT_ERR_LIMIT None
        else Ok (ztake (ec_produced s + 1) (or_byte (ec_out s) (ec_produced s) padding))
      else Ok (ztake (ec_produced s) (ec_out s))
  end.

(** ** Strings of bits *)

(** The [n] low bits of [v], most significant first. *)
Fixpoint zbits (n : nat) (v : Z) : list bool :=
  match n with
  | O => []
  | S n => Z.testbit v (Z.of_nat n) :: zbits n v
  end.

Definition bits_of (bytes : list Z) : list bool := concat (zbits 8 <$> bytes).

Lemma length_zbits n v : length (zbits n v) = n.
Proof. induction n; cbn; congruence. Qed.

Lemma zbits_app m n v : zbits (m + n) v = zbits m (Z.shiftr v (Z.of_nat n)) ++ zbits n v.
Proof.
  induction m as [|m IH]; [done|]. cbn [Nat.add zbits app]. rewrite IH, Z.shiftr_spec by lia.
  do 2 f_equal. lia.
Qed.

Lemma zbits_ext n v v' :
  (forall i, 0 <= i < Z.of_nat n -> Z.testbit v i = Z.testbit v' i) -> zbits n v = zbits n v'.
Proof. induction n as [|n IH]; intros H; cbn; [done|]. rewrite H, IH by (try intros; try apply H; lia). done. Qed.

Lemma zbits_land_ones n v :
  0 <= n -> zbits (Z.to_nat n) (Z.land v (Z.shiftl 1 n - 1)) = zbits (Z.to_nat n) v.
Proof.
  intros Hn. apply zbits_ext. intros i Hi. rewrite Z.shiftl_1_l, land_mask by lia. apply Z.mod_pow2_bits_low. lia.
Qed.

Lemma zbits_0 n : zbits n 0 = replicate n false.
Proof. induction n; cbn; [done|]. by rewrite Z.testbit_0_l, IHn. Qed.

Lemma zbits_shiftl_low n k x : Z.of_nat n <= k -> zbits n (Z.shiftl x k) = replicate n false.
Proof.
  intros H. rewrite <- zbits_0. apply zbits_ext. intros i Hi.
  rewrite Z.testbit_0_l, Z.shiftl_spec_low by lia. done.
Qed.

Lemma zbits_high n x : 0 <= x < 2 ^ Z.of_nat n -> forall m, zbits (m + n) x = replicate m false ++ zbits n x.
Proof.
  intros Hx m. rewrite zbits_app. f_equal. rewrite Z.shiftr_div_pow2, Z.div_small by lia. apply zbits_0.
Qed.

(** A chunk of [n] bits shifted up to leave [k] bits below and [m] above it. *)
Lemma zbits_chunk m n k x :
  0 <= x < 2 ^ Z.of_nat n ->
  zbits (m + n + k) (Z.shiftl x (Z.of_nat k)) = replicate m false ++ zbits n x ++ replicate k false.
Proof.
  intros Hx. rewrite zbits_app, zbits_shiftl_low, Z.shiftr_shiftl_l, Z.sub_diag, Z.shiftl_0_r by lia.
  by rewrite zbits_high, <- app_assoc.
Qed.

Lemma zbits_lor n a b : zbits n (Z.lor a b) = zip_with orb (zbits n a) (zbits n b).
Proof. induction n; cbn; [done|]. by rewrite Z.lor_spec, IHn. Qed.

Lemma zip_orb_false_r l n : length l = n -> zip_with orb l (replicate n false) = l.
Proof. intros <-. induction l; cbn; [done|]. by rewrite orb_false_r, IHl. Qed.

Lemma zip_orb_false_l l n : length l = n -> zip_with orb (replicate n false) l = l.
Proof. intros <-. induction l; cbn; [done|]. by rewrite IHl. Qed.

(** Two words of bits put side by side by an [or]. *)
Lemma zip_orb_join l r m n :
  length l = m -> length r = n ->
  zip_with orb (l ++ replicate n false) (replicate m false ++ r) = l ++ r.
Proof.
  intros. rewrite zip_with_app by (by rewrite length_replicate).
  by rewrite zip_orb_false_r, zip_orb_false_l.
Qed.

Lemma zbits_inj n a b :
  0 <= a < 2 ^ Z.of_nat n -> 0 <= b < 2 ^ Z.of_nat n -> zbits n a = zbits n b -> a = b.
Proof.
  intros Ha Hb H.
  assert (Hlow : forall m, (m <= n)%nat -> zbits m a = zbits m b).
  { intros m Hm. replace n with ((n - m) + m)%nat in H by lia. rewrite !zbits_app in H.
    apply app_inj_1 in H; [tauto|]. by rewrite !length_zbits. }
  apply Z.bits_inj'. intros i Hi. destruct (Z.lt_ge_cases i (Z.of_nat n)).
  - specialize (Hlow (S (Z.to_nat i)) ltac:(lia)). cbn in Hlow. rewrite Z2Nat.id in Hlow by lia. congruence.
  - rewrite <- (Z.mod_small a (2 ^ Z.of_nat n)), <- (Z.mod_small b (2 ^ Z.of_nat n)) by lia.
    by rewrite !Z.mod_pow2_bits_high by lia.
Qed.

Lemma bits_of_app a b : bits_of (a ++ b) = bits_of a ++ bits_of b.
Proof. unfold bits_of. by rewrite fmap_app, concat_app. Qed.

Lemma length_bits_of l : length (bits_of l) = (8 * length l)%nat.
Proof.
  induction l as [|b l IH]; [done|]. change (bits_of (b :: l)) with (zbits 8 b ++ bits_of l).
  rewrite length_app, length_zbits, IH. cbn [length]. lia.
Qed.

Lemma bits_of_inj a b : bytes_ok a -> bytes_ok b -> bits_of a = bits_of b -> a = b.
Proof.
  intros Ha. revert b. induction Ha as [|x a Hx Ha IH]; intros b Hb H.
  - destruct b; [done|]. apply (f_equal length) in H. rewrite !length_bits_of in H. cbn in H. lia.
  - destruct Hb as [|y b Hy Hb]; [apply (f_equal length) in H; rewrite !length_bits_of in H; cbn in H; lia|].
    change (zbits 8 x ++ bits_of a = zbits 8 y ++ bits_of b) in H.
    apply app_inj_1 in H as [E1 E2]; [|by rewrite !length_zbits].
    f_equal; [by apply (zbits_inj 8)|by apply IH].
Qed.

(** ** The code as a set of strings of bits *)

Definition code_bits (b : Z) : list bool :=
  zbits (Z.to_nat (hc_bits (huffman_code_of b))) (hc_code (huffman_code_of b)).

(** The bits of a string, before padding. *)
Definition huffman_text (s : list Z) : list bool := concat (code_bits <$> s).

(** The padded text: ones up to the next byte boundary, seven at most. *)
Definition huffman_wire (s : list Z) (bits : list bool) : Prop :=
  exists k, (k < 8)%nat /\ bits = huffman_text s ++ replicate k true.

Lemma huffman_text_snoc s b : huffman_text (s ++ [b]) = huffman_text s ++ code_bits b.
Proof. unfold huffman_text. rewrite fmap_app, concat_app. cbn. by rewrite app_nil_r. Qed.

(** ** The decoder, bit by bit *)

Fixpoint huffman_run (capacity : Z) (bits : list bool) (s : decode_state) : option (outcome decode_state) :=
  match bits with
  | [] => Some (Ok s)
  | b :: bits =>
      match huffman_bit capacity b s with
      | Some (Ok s') => huffman_run capacity bits s'
      | r => r
      end
  end.

Lemma huffman_run_app capacity l l' s :
  huffman_run capacity (l ++ l') s =
  match huffman_run capacity l s with Some (Ok s') => huffman_run capacity l' s' | r => r end.
Proof.
  revert s. induction l as [|b l IH]; intros s; cbn; [done|].
  destruct (huffman_bit capacity b s) as [[s'|]|]; [apply IH|done|done].
Qed.

Lemma huffman_byte_run capacity b masks s :
  huffman_byte capacity b masks s = huffman_run capacity ((fun m => negb (Z.land b m =? 0)) <$> masks) s.
Proof.
  revert s. induction masks as [|m masks IH]; intros s; cbn; [done|].
  destruct (huffman_bit capacity (negb (Z.land b m =? 0)) s) as [[s'|]|]; [apply IH|done|done].
Qed.

Lemma byte_masks b : is_u8 b -> ((fun m => negb (Z.land b m =? 0)) <$> bit_masks) = zbits 8 b.
Proof. intros Hb. by_bytes b. Qed.

Lemma huffman_bytes_run capacity coded s :
  bytes_ok coded -> huffman_bytes capacity coded s = huffman_run capacity (bits_of coded) s.
Proof.
  intros Hok. revert s. induction Hok as [|b coded Hb Hok IH]; intros s; [done|].
  change (bits_of (b :: coded)) with (zbits 8 b ++ bits_of coded). cbn [huffman_bytes].
  rewrite huffman_run_app, huffman_byte_run, byte_masks by done.
  destruct (huffman_run capacity (zbits 8 b) s) as [[s'|]|]; [apply IH|done|done].
Qed.

(** What a bit does does not depend on the output, but for the capacity. *)
Lemma huffman_bit_out capacity b c n out :
  huffman_bit capacity b (mk_dec c n out) =
  match huffman_bit 1 b (mk_dec c n []) with
  | Some (Ok s) =>
      match dc_out s with
      | [] => Some (Ok (mk_dec (dc_code s) (dc_bits s) out))
      | o => if zlen out =? capacity then Some (Fail WT_ERR_LIMIT None)
             else Some (Ok (mk_dec (dc_code s) (dc_bits s) (out ++ o)))
      end
  | r => r
  end.
Proof. unfold huffman_bit; cbn [dc_code dc_bits dc_out]. repeat (case_goal; cbn [dc_out dc_code dc_bits app zlen length]; try done). Qed.

(** ** The internal nodes of the code tree *)

Definition is_leaf (c n : Z) : bool :=
  existsb (fun e => (hc_code e =? c) && (hc_bits e =? n)) WT_RFC7541_HUFFMAN_CODES.

Fixpoint walk_nodes (fuel : nat) (c n : Z) : list (Z * Z) :=
  match fuel with
  | O => []
  | S fuel => if is_leaf c n then []
              else (c, n) :: walk_nodes fuel (2 * c) (n + 1) ++ walk_nodes fuel (2 * c + 1) (n + 1)
  end.

(** Every proper prefix of a code word, the root included. *)
Definition huffman_nodes : list (Z * Z) := walk_nodes 31 0 0.

Definition is_node (c n : Z) : bool := existsb (fun p => (p.1 =? c) && (p.2 =? n)) huffman_nodes.

(** A code word of a symbol, or of the end-of-string symbol. *)
Definition is_word (symbol c n : Z) : bool :=
  (0 <=? symbol) && (symbol <=? WT_RFC7541_HUFFMAN_EOS) &&
  (hc_code (huffman_code_of symbol) =? c) && (hc_bits (huffman_code_of symbol) =? n).

(** One more bit takes a node to a node, to the leaf of a byte or to the end of string. *)
Definition node_closed (p : Z * Z) (b : bool) : bool :=
  let c' := 2 * p.1 + Z.b2z b in
  let n' := p.2 + 1 in
  (0 <=? p.2) && (0 <=? p.1) &&
  match huffman_bit 1 b (mk_dec p.1 p.2 []) with
  | Some (Ok s) =>
      match dc_out s with
      | [] => (dc_code s =? c') && (dc_bits s =? n') && is_node c' n'
      | [x] => (dc_code s =? 0) && (dc_bits s =? 0) && (x <? 256) && is_word x c' n'
      | _ => false
      end
  | Some (Fail WT_ERR_PROTOCOL None) => is_word WT_RFC7541_HUFFMAN_EOS c' n'
  | _ => false
  end.

Lemma nodes_closed_check :
  forallb (fun p => node_closed p false && node_closed p true) huffman_nodes = true.
Proof. vm_compute. reflexivity. Qed.

Lemma node_closed_at c n b : is_node c n = true -> node_closed (c, n) b = true.
Proof.
  unfold is_node. rewrite existsb_exists. intros ([c' n'] & Hin & H).
  apply andb_true_iff in H as [H1 H2]. apply Z.eqb_eq in H1, H2. cbn in H1, H2. subst.
  pose proof (proj1 (forallb_forall _ _) nodes_closed_check _ Hin) as H.
  apply andb_true_iff in H as [? ?]. by destruct b.
Qed.

Lemma root_is_node : is_node 0 0 = true.
Proof. vm_compute. reflexivity. Qed.

Lemma is_word_spec x c n :
  is_word x c n = true -> 0 <= x <= 256 /\ code_bits x = zbits (Z.to_nat n) c.
Proof.
  unfold is_word, code_bits, WT_RFC7541_HUFFMAN_EOS. rewrite !andb_true_iff, !Z.leb_le, !Z.eqb_eq.
  intros [[[? ?] ->] ->]. done.
Qed.

#[local] Opaque huffman_nodes is_node is_word huffman_bit huffman_code_of.

Lemma zbits_snoc c n b : 0 <= n -> zbits (Z.to_nat (n + 1)) (2 * c + Z.b2z b) = zbits (Z.to_nat n) c ++ [b].
Proof.
  intros Hn. replace (Z.to_nat (n + 1)) with (Z.to_nat n + 1)%nat by lia. rewrite zbits_app. f_equal.
  - change (Z.of_nat 1) with 1. rewrite <- Z.div2_spec. f_equal. rewrite Z.div2_div.
    destruct b; cbn [Z.b2z]; zdm.
  - cbn [zbits]. change (Z.of_nat 0) with 0. by rewrite Z.add_b2z_double_bit0 || (rewrite Z.add_comm; by rewrite Z.add_b2z_double_bit0).
Qed.

(** One bit from a node. *)
Lemma huffman_bit_node capacity b c n out :
  is_node c n = true -> zlen out <= capacity ->
  exists o, huffman_bit capacity b (mk_dec c n out) = Some o /\
  match o with
  | Fail s e => (s = WT_ERR_PROTOCOL \/ s = WT_ERR_LIMIT) /\ e = None
  | Ok s =>
      is_node (dc_code s) (dc_bits s) = true /\ zlen (dc_out s) <= capacity /\
      exists x, dc_out s = out ++ x /\ bytes_ok x /\
        zbits (Z.to_nat n) c ++ [b] = huffman_text x ++ zbits (Z.to_nat (dc_bits s)) (dc_code s)
  end.
Proof.
  intros Hn Hcap. pose proof (node_closed_at c n b Hn) as H. unfold node_closed in H. cbn [fst snd] in H.
  rewrite huffman_bit_out. apply andb_true_iff in H as [Hpos H]. apply andb_true_iff in Hpos as [Hn0 Hc0].
  apply Z.leb_le in Hn0. rewrite <- zbits_snoc by done.
  destruct (huffman_bit 1 b (mk_dec c n [])) as [[[c' n' o']|e [?|]]|]; cbn [dc_out dc_code dc_bits] in *; try done.
  - destruct o' as [|x [|? ?]]; [|destruct (Z.eqb_spec (zlen out) capacity)|done].
    + apply andb_true_iff in H as [H Hnode]. apply andb_true_iff in H as [E1 E2].
      apply Z.eqb_eq in E1, E2. subst. eexists. split; [done|]. cbn. split_and!; [done|done|].
      exists []. rewrite app_nil_r. split_and!; [done|constructor|done].
    + eexists. split; [done|]. cbn. auto.
    + apply andb_true_iff in H as [H [Hx Hw]%is_word_spec]. reflect_bools. subst. eexists. split; [done|]. cbn [dc_out dc_code dc_bits].
      split_and!; [apply root_is_node|zlia|]. exists [x]. split_and!; [done|repeat constructor; unfold is_u8; lia|].
      unfold huffman_text; cbn. by rewrite !app_nil_r.
  - by destruct e.
  - eexists. split; [done|]. destruct e; try done. auto.
Qed.

(** From a node, the bits read so far are the text of the bytes produced and the path to the node. *)
Lemma huffman_run_node capacity l c n out :
  is_node c n = true -> zlen out <= capacity ->
  exists o, huffman_run capacity l (mk_dec c n out) = Some o /\
  match o with
  | Fail s e => (s = WT_ERR_PROTOCOL \/ s = WT_ERR_LIMIT) /\ e = None
  | Ok s =>
      is_node (dc_code s) (dc_bits s) = true /\ zlen (dc_out s) <= capacity /\
      exists x, dc_out s = out ++ x /\ bytes_ok x /\
        zbits (Z.to_nat n) c ++ l = huffman_text x ++ zbits (Z.to_nat (dc_bits s)) (dc_code s)
  end.
Proof.
  revert c n out. induction l as [|b l IH]; intros c n out Hn Hcap.
  - eexists. split; [done|]. cbn. split_and!; [done|done|]. exists []. rewrite !app_nil_r. split_and!; [done|constructor|done].
  - cbn [huffman_run]. destruct (huffman_bit_node capacity b c n out Hn Hcap) as (o & -> & Ho).
    destruct o as [[c1 n1 o1]|s e]; [|by eexists]. destruct Ho as (Hn1 & Hcap1 & x & Hx & Hxok & Hb).
    cbn [dc_code dc_bits dc_out] in *. destruct (IH c1 n1 o1 Hn1 Hcap1) as (o & -> & Ho).
    eexists. split; [done|]. destruct o as [s|s e]; [|done].
    destruct Ho as (? & ? & y & Hy & Hyok & Hl). split_and!; [done|done|]. exists (x ++ y). split_and!.
    + by rewrite Hy, Hx, app_assoc.
    + by apply Forall_app.
    + rewrite (app_assoc _ [b] l : _ ++ b :: l = _). rewrite Hb, <- app_assoc, Hl.
      unfold huffman_text. by rewrite fmap_app, concat_app, app_assoc.
Qed.

(** ** Code words lead from the root to their byte *)

(** Bits that produce nothing, and the node they lead to. *)
Fixpoint silent (bits : list bool) (c n : Z) : option (Z * Z) :=
  match bits with
  | [] => Some (c, n)
  | b :: bits =>
      match huffman_bit 1 b (mk_dec c n []) with
      | Some (Ok s) => match dc_out s with [] => silent bits (dc_code s) (dc_bits s) | _ => None end
      | _ => None
      end
  end.

Lemma silent_run capacity l c n out c' n' :
  silent l c n = Some (c', n') -> huffman_run capacity l (mk_dec c n out) = Some (Ok (mk_dec c' n' out)).
Proof.
  revert c n. induction l as [|b l IH]; intros c n; cbn [silent huffman_run]; [by intros [= -> ->]|].
  intros H. rewrite huffman_bit_out. destruct (huffman_bit 1 b (mk_dec c n [])) as [[[c1 n1 o1]|]|]; try done.
  cbn [dc_out dc_code dc_bits] in *. destruct o1; [by apply IH|done].
Qed.

Definition word_decodes (b : Z) : bool :=
  match List.rev (code_bits b) with
  | [] => false
  | last :: init =>
      match silent (List.rev init) 0 0 with
      | Some (c, n) =>
          match huffman_bit 1 last (mk_dec c n []) with
          | Some (Ok (mk_dec 0 0 [x])) => x =? b
          | _ => false
          end
      | None => false
      end
  end.

Lemma word_decodes_byte b : is_u8 b -> word_decodes b = true.
Proof. apply byte_forall. vm_compute. reflexivity. Qed.

Lemma huffman_run_word capacity b out :
  is_u8 b ->
  huffman_run capacity (code_bits b) (mk_dec 0 0 out) =
  Some (if zlen out =? capacity then Fail WT_ERR_LIMIT None else Ok (mk_dec 0 0 (out ++ [b]))).
Proof.
  intros Hb. pose proof (word_decodes_byte b Hb) as H. unfold word_decodes in H.
  destruct (List.rev (code_bits b)) as [|last init] eqn:E; [done|].
  apply (f_equal (@List.rev bool)) in E. rewrite rev_involutive in E. cbn [List.rev] in E. rewrite E.
  destruct (silent (List.rev init) 0 0) as [[c n]|] eqn:Es; [|done].
  rewrite huffman_run_app, (silent_run _ _ _ _ _ _ _ Es). cbn [huffman_run]. rewrite huffman_bit_out.
  destruct (huffman_bit 1 last (mk_dec c n [])) as [[[[] [] [|x []]]|]|]; try done.
  apply Z.eqb_eq in H. subst. cbn [dc_out dc_code dc_bits]. by destruct (zlen out =? capacity).
Qed.

Lemma huffman_run_text capacity s l out :
  bytes_ok s -> zlen out + zlen s <= capacity ->
  huffman_run capacity (huffman_text s ++ l) (mk_dec 0 0 out) = huffman_run capacity l (mk_dec 0 0 (out ++ s)).
Proof.
  intros Hs. revert out. induction Hs as [|b s Hb Hs IH]; intros out Hcap; [by rewrite app_nil_r|].
  change (huffman_text (b :: s)) with (code_bits b ++ huffman_text s). rewrite zlen_cons in Hcap.
  pose proof (zlen_nonneg s). rewrite <- app_assoc, huffman_run_app, huffman_run_word by done. ztest.
  rewrite IH by (zlia). by rewrite <- app_assoc.
Qed.

Definition padding_ok (k : nat) : bool :=
  match silent (replicate k true) 0 0 with
  | Some (c, n) => (c =? 2 ^ Z.of_nat k - 1) && (n =? Z.of_nat k)
  | None => false
  end.

Lemma huffman_run_padding capacity k out :
  (k < 8)%nat ->
  huffman_run capacity (replicate k true) (mk_dec 0 0 out) =
  Some (Ok (mk_dec (2 ^ Z.of_nat k - 1) (Z.of_nat k) out)).
Proof.
  intros Hk. assert (H : forallb padding_ok (seq 0 8) = true) by (vm_compute; reflexivity).
  rewrite forallb_forall in H. specialize (H k). unfold padding_ok in H.
  destruct (silent (replicate k true) 0 0) as [[c n]|] eqn:E; [|discriminate H; apply in_seq; lia].
  apply (silent_run _ _ _ _ _ _ _). rewrite E. 
  assert (Hc : (c =? 2 ^ Z.of_nat k - 1) && (n =? Z.of_nat k) = true) by (apply H, in_seq; lia).
  apply andb_true_iff in Hc as [Hc Hn]. apply Z.eqb_eq in Hc, Hn. by subst.
Qed.

Lemma zbits_ones k : zbits k (2 ^ Z.of_nat k - 1) = replicate k true.
Proof.
  assert (H : forall m, (m <= k)%nat -> zbits m (2 ^ Z.of_nat k - 1) = replicate m true).
  { induction m as [|m IH]; intros Hm; [done|]. cbn [zbits replicate]. rewrite IH by lia. f_equal.
    replace (2 ^ Z.of_nat k - 1) with (Z.ones (Z.of_nat k)) by (rewrite Z.ones_equiv; lia).
    apply Z.ones_spec_low. lia. }
  by apply H.
Qed.

(** The decoder is total, and accepts exactly the padded texts that fit. *)
Lemma huffman_decode_spec coded capacity :
  bytes_ok coded -> 0 <= capacity ->
  exists o, wt_qpack_huffman_decode coded capacity = Some o /\
  (forall s, o = Ok s <-> bytes_ok s /\ zlen s <= capacity /\ huffman_wire s (bits_of coded)) /\
  (forall s e, o = Fail s e -> (s = WT_ERR_PROTOCOL \/ s = WT_ERR_LIMIT) /\ e = None).
Proof.
  intros Hok Hcap.
  assert (Hcomplete : forall s, bytes_ok s -> zlen s <= capacity -> huffman_wire s (bits_of coded) ->
            wt_qpack_huffman_decode coded capacity = Some (Ok s)).
  { intros s Hs Hz (k & Hk & Hb). unfold wt_qpack_huffman_decode.
    rewrite huffman_bytes_run, Hb, huffman_run_text, huffman_run_padding by (try done; zlia).
    cbn [dc_bits dc_code dc_out app]. rewrite Z.shiftl_1_l.
    assert (0 < 2 ^ Z.of_nat k <= 2 ^ 8) by (split; [lia|apply Z.pow_le_mono_r; lia]).
    rewrite u32_small by (unfold is_u32; lia). ztest. by rewrite ?andb_false_r. }
  assert (Hrefused : forall e, wt_qpack_huffman_decode coded capacity = Some (Fail e None) ->
            e = WT_ERR_PROTOCOL \/ e = WT_ERR_LIMIT ->
            exists o, wt_qpack_huffman_decode coded capacity = Some o /\
            (forall s, o = Ok s <-> bytes_ok s /\ zlen s <= capacity /\ huffman_wire s (bits_of coded)) /\
            (forall s e, o = Fail s e -> (s = WT_ERR_PROTOCOL \/ s = WT_ERR_LIMIT) /\ e = None)).
  { intros e He Hor. eexists. split; [exact He|]. split; [|by intros ? ? [= <- <-]].
    intros s. split; [done|]. intros (? & ? & ?). rewrite (Hcomplete s) in He by done. done. }
  destruct (huffman_run_node capacity (bits_of coded) 0 0 [] root_is_node Hcap) as (o & Ho & Hspec).
  unfold wt_qpack_huffman_decode in *. rewrite huffman_bytes_run in * by done. rewrite Ho in *.
  destruct o as [s'|e c]; [|destruct Hspec as [? ->]; by eapply Hrefused].
  destruct Hspec as (Hn & Hz & x & Hx & Hxok & Hbits). cbn [Z.to_nat zbits app] in Hx.
  assert (Hpos : 0 <= dc_bits s').
  { pose proof (node_closed_at _ _ false Hn) as H. unfold node_closed in H. reflect_bools. cbn in *. lia. }
  destruct (7 <? dc_bits s') eqn:E7; [eapply Hrefused; [done|auto]|].
  destruct (negb (dc_bits s' =? 0) && negb (dc_code s' =? u32 (Z.shiftl 1 (dc_bits s') - 1))) eqn:Ep;
    [eapply Hrefused; [done|auto]|].
  eexists. split; [done|]. split; [|done]. intros s. split; [|intros (? & ? & ?); specialize (Hcomplete s); naive_solver].
  intros [= <-]. rewrite Hx. split_and!; [done|by rewrite <- Hx|]. reflect_bools.
  exists (Z.to_nat (dc_bits s')). split; [lia|]. change (zbits (Z.to_nat 0) 0 ++ bits_of coded) with (bits_of coded) in Hbits.
  rewrite Hbits. f_equal.
  apply andb_false_iff in Ep as [Ep|Ep]; reflect_bools; [by rewrite Ep|].
  rewrite Ep, Z.shiftl_1_l. rewrite u32_small.
  + rewrite <- (Z2Nat.id (dc_bits s')) at 2 by done. apply zbits_ones.
  + assert (0 < 2 ^ dc_bits s' <= 2 ^ 8) by (split; [lia|apply Z.pow_le_mono_r; lia]). unfold is_u32. lia.
Qed.

(** ** The encoder *)

(** The bits written so far, and zeros to the end of the block. *)
Definition enc_inv (capacity : Z) (acc : list bool) (s : encode_state) : Prop :=
  ec_used s = Z.of_nat (length acc) /\ ec_produced s = ec_used s / 8 /\ ec_used s <= 8 * capacity /\
  zlen (ec_out s) = capacity /\ bytes_ok (ec_out s) /\
  bits_of (ec_out s) = acc ++ replicate (Z.to_nat (8 * capacity - ec_used s)) false.

Lemma u8_is_u8 v : is_u8 (u8 v).
Proof. unfold u8, is_u8. apply Z.mod_pos_bound. lia. Qed.

Lemma zbits_u8 n v : (n <= 8)%nat -> zbits n (u8 v) = zbits n v.
Proof. intros Hn. apply zbits_ext. intros i Hi. unfold u8. apply Z.mod_pow2_bits_low. lia. Qed.

(** One [or] of a chunk into the first byte that is not full. *)
Lemma or_byte_bits capacity acc s take chunk :
  enc_inv capacity acc s -> 0 < take -> ec_used s < 8 * capacity -> ec_used s mod 8 + take <= 8 ->
  0 <= chunk < 2 ^ take ->
  let out := or_byte (ec_out s) (ec_produced s) (Z.shiftl chunk (8 - ec_used s mod 8 - take)) in
  zlen out = capacity /\ bytes_ok out /\
  bits_of out = (acc ++ zbits (Z.to_nat take) chunk) ++ replicate (Z.to_nat (8 * capacity - ec_used s - take)) false.
Proof.
  intros (Hu & Hp & Hle & Hl & Hok & Hbits) Ht Hroom Hfit Hchunk out.
  set (m := ec_used s mod 8) in *. assert (Hm : 0 <= m < 8) by (apply Z.mod_pos_bound; lia).
  assert (Hum : ec_used s = 8 * ec_produced s + m) by (rewrite Hp; apply Z_div_mod_eq_full).
  assert (Hlt : (Z.to_nat (ec_produced s) < length (ec_out s))%nat) by (unfold zlen in Hl; lia).
  destruct (lookup_lt_is_Some_2 _ _ Hlt) as [x Hx].
  apply list_elem_of_split_length in Hx as (pre & post & Hsplit & Hpre).
  assert (Hout : out = pre ++ u8 (Z.lor x (u8 (Z.shiftl chunk (8 - m - take)))) :: post).
  { unfold out, or_byte, byte_at. rewrite Hsplit, Hpre. rewrite list_lookup_middle by done.
    rewrite insert_app_r_alt, Nat.sub_diag by lia. done. }
  rewrite Hsplit in Hbits, Hok, Hl. apply Forall_app in Hok as [Hokp Hok]. apply Forall_cons in Hok as [_ Hokq].
  change (pre ++ x :: post) with (pre ++ [x] ++ post) in Hbits. rewrite !bits_of_app in Hbits.
  assert (Hsx : bits_of [x] = zbits 8 x) by (unfold bits_of; cbn [fmap list_fmap concat]; by rewrite app_nil_r).
  rewrite Hsx in Hbits.
  (* the block before, the byte and the block after *)
  rewrite <- (take_drop (8 * length pre) acc) in Hbits. rewrite <- app_assoc in Hbits.
  apply app_inj_1 in Hbits as [Hbpre Hbits]; [|rewrite length_bits_of, length_take; lia].
  replace (Z.to_nat (8 * capacity - ec_used s)) with (Z.to_nat (8 - m) + (Z.to_nat (8 * capacity - ec_used s) - Z.to_nat (8 - m)))%nat
    in Hbits by (unfold zlen in Hl; rewrite length_app in Hl; cbn [length] in Hl; lia).
  rewrite replicate_add, app_assoc in Hbits.
  apply app_inj_1 in Hbits as [Hbx Hbpost]; [|rewrite length_zbits, length_app, length_replicate, length_drop; lia].
  rewrite Hout. split_and!.
  - rewrite <- Hl, !zlen_app, !zlen_cons. done.
  - apply Forall_app. split; [done|]. constructor; [apply u8_is_u8|done].
  - change (pre ++ ?y :: post) with (pre ++ [y] ++ post). rewrite !bits_of_app, Hbpre, Hbpost.
    assert (Hs1 : forall y, bits_of [y] = zbits 8 y) by (intros; unfold bits_of; cbn [fmap list_fmap concat]; by rewrite app_nil_r).
    rewrite Hs1, zbits_u8, zbits_lor, zbits_u8, Hbx by lia.
    assert (Hch : zbits 8 (Z.shiftl chunk (8 - m - take)) =
              replicate (Z.to_nat m) false ++ zbits (Z.to_nat take) chunk ++ replicate (Z.to_nat (8 - m - take)) false).
    { rewrite <- zbits_chunk by (rewrite Z2Nat.id by lia; done). f_equal; [lia|]. f_equal. lia. }
    rewrite Hch, zip_orb_join; [|rewrite length_drop; lia|rewrite length_app, length_zbits, length_replicate; lia].
    rewrite <- (take_drop (8 * length pre) acc) at 3. rewrite <- !app_assoc. do 3 f_equal.
    rewrite <- replicate_add. f_equal. lia.
Qed.

Lemma enc_produced capacity acc s :
  enc_inv capacity acc s -> (ec_produced s =? capacity) = (8 * capacity <=? ec_used s).
Proof.
  intros (Hu & Hp & Hle & _). rewrite Hp.
  destruct (Z.leb_spec (8 * capacity) (ec_used s)); [apply Z.eqb_eq|apply Z.eqb_neq]; zdm.
Qed.

Lemma encode_code_spec capacity acc s code remaining fuel :
  enc_inv capacity acc s -> capacity < 2 ^ 60 -> 0 <= remaining <= Z.of_nat fuel ->
  if remaining <=? 8 * capacity - ec_used s
  then exists s', encode_code fuel capacity code remaining s = Ok s' /\
         enc_inv capacity (acc ++ zbits (Z.to_nat remaining) code) s'
  else encode_code fuel capacity code remaining s = Fail WT_ERR_LIMIT None.
Proof.
  intros Hi Hc. revert acc s remaining Hi.
  induction fuel as [|fuel IH]; intros acc s remaining Hi Hr; cbn [encode_code].
  { assert (remaining = 0) as -> by lia. pose proof Hi as (_ & _ & ? & _). ztest.
    exists s. cbn. by rewrite app_nil_r. }
  destruct (Z.eqb_spec remaining 0) as [->|Hnz].
  { pose proof Hi as (_ & _ & ? & _). ztest. exists s. cbn. by rewrite app_nil_r. }
  rewrite (enc_produced _ _ _ Hi). destruct (Z.leb_spec (8 * capacity) (ec_used s)); [by ztest|].
  set (m := ec_used s mod 8). assert (Hm : 0 <= m < 8) by (apply Z.mod_pos_bound; lia).
  set (take := if remaining <? 8 - m then remaining else 8 - m).
  assert (Htake : 0 < take /\ take <= remaining /\ m + take <= 8 /\ (take = remaining \/ take = 8 - m)).
  { unfold take. destruct (Z.ltb_spec remaining (8 - m)); lia. }
  assert (Hcap8 : ec_used s + take <= 8 * capacity) by (unfold m in *; zdm).
  set (chunk := Z.land (Z.shiftr code (remaining - take)) (Z.shiftl 1 take - 1)).
  assert (Hchunk : 0 <= chunk < 2 ^ take).
  { unfold chunk. rewrite Z.shiftl_1_l, land_mask by lia. apply Z.mod_pos_bound. lia. }
  destruct (or_byte_bits capacity acc s take chunk Hi) as (Ho1 & Ho2 & Ho3); [lia|lia|fold m; lia|done|].
  fold m in Ho1, Ho2, Ho3. destruct Hi as (Hu & Hp & Hle & Hl & Hok & Hb).
  rewrite (u64_small (ec_used s + take)) by (unfold is_u64; lia).
  assert (Hprod : (if (ec_used s + take) mod 8 =? 0 then u64 (ec_produced s + 1) else ec_produced s)
                  = (ec_used s + take) / 8).
  { rewrite Hp. destruct (Z.eqb_spec ((ec_used s + take) mod 8) 0); [rewrite u64_small by (unfold is_u64; zdm)|];
      unfold m in *; zdm. }
  rewrite Hprod. set (s1 := mk_enc _ _ _).
  assert (Hi1 : enc_inv capacity (acc ++ zbits (Z.to_nat take) chunk) s1).
  { unfold s1. repeat split; cbn [ec_used ec_produced ec_out]; try done.
    - rewrite length_app, length_zbits. lia.
    - rewrite Ho3. do 2 f_equal. lia. }
  specialize (IH _ _ (remaining - take) Hi1 ltac:(lia)). cbn [ec_used s1] in IH.
  assert (Hsplit : zbits (Z.to_nat remaining) code =
            zbits (Z.to_nat take) chunk ++ zbits (Z.to_nat (remaining - take)) code).
  { replace (Z.to_nat remaining) with (Z.to_nat take + Z.to_nat (remaining - take))%nat by lia.
    rewrite zbits_app. f_equal. unfold chunk. rewrite zbits_land_ones by lia. do 2 f_equal. lia. }
  rewrite Hsplit, app_assoc. unfold s1 in IH; cbn [ec_used] in IH.
  replace (remaining <=? 8 * capacity - ec_used s)
    with (remaining - take <=? 8 * capacity - (ec_used s + take)); [exact IH|].
  apply eq_true_iff_eq. rewrite !Z.leb_le. lia.
Qed.

#[local] Transparent huffman_code_of.
Lemma code_length b : 0 <= hc_bits (huffman_code_of b) <= 30.
Proof.
  unfold huffman_code_of, zget. destruct (b <? 0); [cbn; lia|].
  assert (H : forallb (fun e => (0 <=? hc_bits e) && (hc_bits e <=? 30)) WT_RFC7541_HUFFMAN_CODES = true)
    by (vm_compute; reflexivity).
  rewrite forallb_forall in H. destruct (WT_RFC7541_HUFFMAN_CODES !! Z.to_nat b) as [e|] eqn:E; cbn; [|lia].
  specialize (H e (proj1 (list_elem_of_In _ _) (list_elem_of_lookup_2 _ _ _ E))). reflect_bools. lia.
Qed.

#[local] Opaque huffman_code_of.

Lemma length_code_bits b : Z.of_nat (length (code_bits b)) = hc_bits (huffman_code_of b).
Proof. pose proof (code_length b). unfold code_bits. rewrite length_zbits. lia. Qed.

(** The number of bits of a text, and the bytes they take. *)
Definition text_bits (s : list Z) : Z := Z.of_nat (length (huffman_text s)).

Lemma text_bits_cons b s : text_bits (b :: s) = hc_bits (huffman_code_of b) + text_bits s.
Proof.
  unfold text_bits. change (huffman_text (b :: s)) with (code_bits b ++ huffman_text s).
  rewrite length_app. rewrite <- length_code_bits. lia.
Qed.

Lemma text_bits_bound s : 0 <= text_bits s <= 30 * zlen s.
Proof.
  induction s as [|b s IH]; [done|]. rewrite text_bits_cons, zlen_cons. pose proof (code_length b). lia.
Qed.

Lemma encode_codes_spec capacity bytes acc s :
  enc_inv capacity acc s -> capacity < 2 ^ 60 ->
  if text_bits bytes <=? 8 * capacity - ec_used s
  then exists s', encode_codes capacity bytes s = Ok s' /\ enc_inv capacity (acc ++ huffman_text bytes) s'
  else encode_codes capacity bytes s = Fail WT_ERR_LIMIT None.
Proof.
  intros Hi Hc. revert acc s Hi. induction bytes as [|b bytes IH]; intros acc s Hi; cbn [encode_codes].
  { pose proof Hi as (_ & _ & ? & _). change (text_bits []) with 0. ztest. exists s.
    change (huffman_text []) with (@nil bool). by rewrite app_nil_r. }
  pose proof (code_length b). pose proof (text_bits_bound bytes). rewrite text_bits_cons.
  pose proof (encode_code_spec capacity acc s (hc_code (huffman_code_of b)) (hc_bits (huffman_code_of b))
                (Z.to_nat (hc_bits (huffman_code_of b))) Hi Hc ltac:(lia)) as H1.
  destruct (Z.leb_spec (hc_bits (huffman_code_of b)) (8 * capacity - ec_used s)); [|rewrite H1; by ztest].
  destruct H1 as (s1 & -> & Hi1). specialize (IH _ _ Hi1).
  assert (Hu : ec_used s1 = ec_used s + hc_bits (huffman_code_of b)).
  { destruct Hi as (-> & _). destruct Hi1 as (-> & _). rewrite length_app, length_zbits. lia. }
  rewrite Hu in IH. change (huffman_text (b :: bytes)) with (code_bits b ++ huffman_text bytes).
  rewrite app_assoc. unfold code_bits.
  replace (hc_bits (huffman_code_of b) + text_bits bytes <=? 8 * capacity - ec_used s)
    with (text_bits bytes <=? 8 * capacity - (ec_used s + hc_bits (huffman_code_of b))); [exact IH|].
  apply eq_true_iff_eq. rewrite !Z.leb_le. lia.
Qed.

(** Bytes a text of [n] bits takes, padded. *)
Definition padded_size (s : list Z) : Z := (text_bits s + 7) / 8.

Lemma bits_of_ztake n l : 0 <= n -> bits_of (ztake n l) = take (8 * Z.to_nat n) (bits_of l).
Proof.
  intros Hn. unfold ztake. destruct (le_lt_dec (length l) (Z.to_nat n)).
  - rewrite !take_ge; [done|rewrite length_bits_of; lia|done].
  - rewrite <- (take_drop (Z.to_nat n) l) at 2. rewrite bits_of_app, take_app_length'; [done|].
    rewrite length_bits_of, length_take. lia.
Qed.

Lemma huffman_encode_spec s capacity :
  0 <= capacity < 2 ^ 60 ->
  if padded_size s <=? capacity
  then exists d, wt_qpack_huffman_encode s capacity = Ok d /\ zlen d = padded_size s /\ bytes_ok d /\
         huffman_wire s (bits_of d)
  else wt_qpack_huffman_encode s capacity = Fail WT_ERR_LIMIT None.
Proof.
  intros Hc. unfold wt_qpack_huffman_encode. pose proof (text_bits_bound s) as Htb.
  set (s0 := mk_enc 0 0 (replicate (Z.to_nat capacity) 0)).
  assert (Hi0 : enc_inv capacity [] s0).
  { unfold s0. repeat split; cbn [ec_used ec_produced ec_out]; try lia; try done.
    - unfold zlen. rewrite length_replicate. lia.
    - apply Forall_replicate. unfold is_u8. lia.
    - unfold bits_of. cbn [app]. rewrite fmap_replicate, zbits_0.
      assert (H : forall n, concat (replicate n (replicate 8 false)) = replicate (n * 8) false).
      { induction n as [|n IHn]; [done|]. rewrite (replicate_S n). cbn [concat]. rewrite IHn, <- replicate_add. f_equal. }
      rewrite H. f_equal. lia. }
  pose proof (encode_codes_spec capacity s [] s0 Hi0 ltac:(lia)) as H. change (ec_used s0) with 0 in H. rewrite Z.sub_0_r in H.
  unfold padded_size. destruct (Z.leb_spec (text_bits s) (8 * capacity)) as [Hfit|Hfit].
  2: { rewrite H. destruct (Z.leb_spec ((text_bits s + 7) / 8) capacity); [zdm|done]. }
  destruct H as (s1 & -> & Hi1). cbn [app] in Hi1.
  destruct (Z.leb_spec ((text_bits s + 7) / 8) capacity); [|zdm].
  pose proof Hi1 as (Hu & Hp & Hle & Hl & Hok & Hb). fold (text_bits s) in Hu.
  destruct (Z.eqb_spec (ec_used s1 mod 8) 0) as [E|E]; cbn [negb].
  - eexists. split; [done|]. rewrite Hp, Hu in *. split_and!.
    + rewrite zlen_ztake; zdm.
    + unfold bytes_ok. auto with wt.
    + exists O. split; [lia|]. cbn. rewrite app_nil_r, bits_of_ztake, Hb by zdm.
      apply take_app_length'. unfold text_bits in *. zdm.
  - set (free := 8 - ec_used s1 mod 8). assert (Hf : 0 < free < 8) by (unfold free; zdm).
    rewrite (enc_produced _ _ _ Hi1). destruct (Z.leb_spec (8 * capacity) (ec_used s1)); [zdm|].
    assert (Hpad : 0 <= Z.shiftl 1 free - 1 < 2 ^ free) by (rewrite Z.shiftl_1_l; lia).
    destruct (or_byte_bits capacity _ s1 free (Z.shiftl 1 free - 1) Hi1) as (Ho1 & Ho2 & Ho3);
      [lia|lia|unfold free; lia|done|].
    replace (8 - ec_used s1 mod 8 - free) with 0 in Ho1, Ho2, Ho3 by (unfold free; lia).
    rewrite Z.shiftl_0_r in Ho1, Ho2, Ho3.
    eexists. split; [done|]. split_and!.
    + rewrite zlen_ztake; [unfold free in *; zdm|]. rewrite Ho1. zdm.
    + unfold bytes_ok. auto with wt.
    + exists (Z.to_nat free). split; [lia|]. rewrite bits_of_ztake, Ho3 by zdm.
      rewrite take_app_length'.
      * f_equal. rewrite Z.shiftl_1_l. rewrite <- (Z2Nat.id free) at 2 by lia. apply zbits_ones.
      * rewrite length_app, length_zbits. unfold text_bits, free in *. zdm.
Qed.

Lemma huffman_wire_unique s d d' :
  bytes_ok d -> bytes_ok d' -> huffman_wire s (bits_of d) -> huffman_wire s (bits_of d') -> d = d'.
Proof.
  intros Hd Hd' (k & Hk & Hb) (k' & Hk' & Hb'). apply bits_of_inj; [done|done|]. rewrite Hb, Hb'.
  f_equal. f_equal. apply (f_equal length) in Hb, Hb'.
  rewrite length_bits_of, length_app, length_replicate in Hb, Hb'. lia.
Qed.

Lemma huffman_wire_size s d : huffman_wire s (bits_of d) -> zlen d = padded_size s.
Proof.
  intros (k & Hk & Hb). apply (f_equal length) in Hb. rewrite length_bits_of, length_app, length_replicate in Hb.
  unfold padded_size, text_bits, zlen. zdm.
Qed.

Lemma encoded_bits_spec bytes bits :
  0 <= bits -> bits + 30 * zlen bytes < 2 ^ 63 -> encoded_bits bytes bits = Ok (bits + text_bits bytes).
Proof.
  revert bits. induction bytes as [|b bytes IH]; intros bits Hb Hz; cbn [encoded_bits].
  { change (text_bits []) with 0. by rewrite Z.add_0_r. }
  pose proof (code_length b). rewrite zlen_cons in Hz. pose proof (zlen_nonneg bytes).
  rewrite (u64_small (bits + _)) by (unfold is_u64; lia).
  change (u64 (SIZE_MAX - 7)) with (2 ^ 64 - 8). ztest. rewrite IH by lia. rewrite text_bits_cons. f_equal. lia.
Qed.

Lemma encoded_size_spec s : zlen s < 2 ^ 58 -> wt_qpack_huffman_encoded_size s = Ok (padded_size s).
Proof.
  intros Hz. pose proof (zlen_nonneg s). pose proof (text_bits_bound s).
  unfold wt_qpack_huffman_encoded_size. rewrite encoded_bits_spec by lia. rewrite u64_small by (unfold is_u64; lia). done.
Qed.

Lemma padded_size_nonneg s : 0 <= padded_size s.
Proof. pose proof (text_bits_bound s). unfold padded_size. zdm. Qed.

(** ** Theorems *)

(** C26. The table-driven Huffman decoder against the code of RFC 7541. On every byte string
    it terminates; it accepts exactly the strings the encoder writes for some text that fits
    the room given, and answers that text; anything else, a wrong padding, an EOS in the
    text, a code that is not complete or a text that does not fit, is refused as a protocol
    or a limit error. *)
Theorem huffman_decoder_exact coded capacity :
  bytes_ok coded -> zlen coded < 2 ^ 60 -> 0 <= capacity ->
  exists o, wt_qpack_huffman_decode coded capacity = Some o /\
  match o with
  | Ok s => bytes_ok s /\ zlen s <= capacity /\ wt_qpack_huffman_encode s (zlen coded) = Ok coded
  | Fail st e =>
      (st = WT_ERR_PROTOCOL \/ st = WT_ERR_LIMIT) /\ e = None /\
      forall s, bytes_ok s -> zlen s <= capacity -> wt_qpack_huffman_encode s (zlen coded) <> Ok coded
  end.
Proof.
  intros Hok Hlen Hcap. destruct (huffman_decode_spec coded capacity Hok Hcap) as (o & Ho & Hacc & Hrej).
  exists o. split; [done|].
  assert (Henc : forall s, wt_qpack_huffman_encode s (zlen coded) = Ok coded <-> huffman_wire s (bits_of coded)).
  { intros s. pose proof (huffman_encode_spec s (zlen coded) ltac:(zlia)) as H. split.
    - intros He. destruct (padded_size s <=? zlen coded); [|congruence]. destruct H as (d & Hd & _ & _ & Hw). congruence.
    - intros Hw. rewrite <- (huffman_wire_size s coded Hw) in H. rewrite Z.leb_refl in H.
      destruct H as (d & -> & _ & Hd & Hwd). f_equal. by apply (huffman_wire_unique s). }
  destruct o as [s|st e].
  - destruct (proj1 (Hacc s) eq_refl) as (? & ? & ?). split_and!; [done|done|]. by apply Henc.
  - destruct (Hrej st e eq_refl) as [? ?]. split_and!; [done|done|]. intros s Hs Hz He%Henc.
    by pose proof (proj2 (Hacc s) ltac:(split_and!; done)).
Qed.

Lemma huffman_decoder_exact_witness :
  exists o, wt_qpack_huffman_decode [0xa8; 0xeb; 0x10; 0x64; 0x9c; 0xbf] 8 = Some o /\
  match o with
  | Ok s => bytes_ok s /\ zlen s <= 8 /\
            wt_qpack_huffman_encode s (zlen [0xa8; 0xeb; 0x10; 0x64; 0x9c; 0xbf]) = Ok [0xa8; 0xeb; 0x10; 0x64; 0x9c; 0xbf]
  | Fail st e =>
      (st = WT_ERR_PROTOCOL \/ st = WT_ERR_LIMIT) /\ e = None /\
      forall s, bytes_ok s -> zlen s <= 8 ->
        wt_qpack_huffman_encode s (zlen [0xa8; 0xeb; 0x10; 0x64; 0x9c; 0xbf]) <> Ok [0xa8; 0xeb; 0x10; 0x64; 0x9c; 0xbf]
  end.
Proof. apply (huffman_decoder_exact [0xa8; 0xeb; 0x10; 0x64; 0x9c; 0xbf] 8); [by apply bytes_okb_spec|done|done]. Defined.

(** The Huffman encoder refuses a room smaller than the size it announces and otherwise writes exactly that many bytes, at most four per byte of text, which the decoder turns back into the text. *)
Lemma huffman_roundtrip s capacity room :
  bytes_ok s -> zlen s < 2 ^ 58 -> 0 <= capacity < 2 ^ 60 -> zlen s <= room ->
  exists n, wt_qpack_huffman_encoded_size s = Ok n /\ n <= 4 * zlen s /\
  (capacity < n -> wt_qpack_huffman_encode s capacity = Fail WT_ERR_LIMIT None) /\
  (n <= capacity -> exists d, wt_qpack_huffman_encode s capacity = Ok d /\ zlen d = n /\ bytes_ok d /\
     wt_qpack_huffman_decode d room = Some (Ok s)).
Proof.
  intros Hs Hz Hc Hr. exists (padded_size s). pose proof (huffman_encode_spec s capacity Hc) as H.
  pose proof (text_bits_bound s). pose proof (zlen_nonneg s). split_and!.
  - by apply encoded_size_spec.
  - destruct s as [|b s]; [done|]. unfold padded_size. rewrite zlen_cons in *. zdm.
  - intros ?. destruct (Z.leb_spec (padded_size s) capacity); [lia|done].
  - intros ?. destruct (Z.leb_spec (padded_size s) capacity); [|lia]. destruct H as (d & Hd & Hl & Hok & Hw).
    exists d. split_and!; [done|done|done|].
    destruct (huffman_decode_spec d room Hok ltac:(lia)) as (o & -> & Hacc & _). f_equal. by apply Hacc.
Qed.

Lemma huffman_roundtrip_witness :
  exists n, wt_qpack_huffman_encoded_size [119; 101; 98; 0] = Ok n /\ n <= 4 * zlen [119; 101; 98; 0] /\
  (9 < n -> wt_qpack_huffman_encode [119; 101; 98; 0] 9 = Fail WT_ERR_LIMIT None) /\
  (n <= 9 -> exists d, wt_qpack_huffman_encode [119; 101; 98; 0] 9 = Ok d /\ zlen d = n /\ bytes_ok d /\
     wt_qpack_huffman_decode d 4 = Some (Ok [119; 101; 98; 0])).
Proof.
  apply (huffman_roundtrip [119; 101; 98; 0] 9 4); [by apply bytes_okb_spec|done|lia|done].
Defined.

#[global] Opaque wt_qpack_huffman_decode wt_qpack_huffman_encode wt_qpack_huffman_encoded_size.
