(* ===== verification/QpackPrimitives.v ===== *)
(** * QPACK integers and strings: [src/http3/qpack_primitives.c]

    The prefixed integer of RFC 9204 section 4.1.1 and the length-prefixed,
    possibly Huffman-coded string of section 4.1.2, in both directions. *)

From S2P Require Export Locality QpackHuffman.
#[local] Open Scope Z_scope.

Definition WT_QPACK_INTEGER_MAX : Z := WT_QUIC_VARINT_MAX.

(** ** Integers *)

(** The loop that reads seven bits at a time.  A tenth group would start at bit 63
    and is refused, so ten turns are enough. *)
Fixpoint integer_loop (fuel : nat) (shift value : Z) : parser Z :=
  match fuel with
  | O => pfail WT_ERR_STATE None
  | S fuel =>
      byte <- read_first;;
      if 63 <=? shift then pfail WT_ERR_PROTOCOL None
      else
        let value := u64 (value + u64 (Z.shiftl (Z.land byte 0x7f) shift)) in
        if WT_QPACK_INTEGER_MAX <? value then pfail WT_ERR_PROTOCOL None
        else if Z.land byte 0x80 =? 0 then pret value
        else integer_loop fuel (u32 (shift + 7)) value
  end.

Definition wt_qpack_integer_decode (prefix_bits : Z) : parser Z :=
  if (prefix_bits =? 0) || (8 <? prefix_bits) then pfail WT_ERR_INVALID_ARGUMENT None
  else
    let prefix_max := Z.shiftl 1 prefix_bits - 1 in
    first <- read_first;;
    let value := Z.land first prefix_max in
    if value <? prefix_max then pret value else integer_loop 10 0 value.

(** [while (value >= 128)]; a 62-bit value has at most nine groups of seven bits. *)
Fixpoint integer_groups (fuel : nat) (value : Z) (w : wt_writer) : wt_writer :=
  match fuel with
  | O => w
  | S fuel =>
      if 128 <=? value
      then integer_groups fuel (Z.shiftr value 7) (wt_writer_u8 (u8 (Z.lor (Z.land value 0x7f) 0x80)) w)
      else wt_writer_u8 (u8 value) w
  end.

Definition wt_qpack_integer_encode (prefix_bits prefix_flags value : Z) (w : wt_writer) : wt_status * wt_writer :=
  if (prefix_bits =? 0) || (8 <? prefix_bits) then (WT_ERR_INVALID_ARGUMENT, w)
  else if WT_QPACK_INTEGER_MAX <? value then (WT_ERR_INVALID_ARGUMENT, w)
  else if (prefix_bits <? 8) && negb (Z.land prefix_flags (u8 (Z.shiftl 1 prefix_bits - 1)) =? 0)
  then (WT_ERR_INVALID_ARGUMENT, w)
  else
    let prefix_max := Z.shiftl 1 prefix_bits - 1 in
    if value <? prefix_max then writer_status (wt_writer_u8 (u8 (Z.lor prefix_flags (u8 value))) w)
    else
      writer_status (integer_groups 9 (u64 (value - prefix_max))
                       (wt_writer_u8 (u8 (Z.lor prefix_flags (u8 prefix_max))) w)).

(** ** Strings *)

(** The bytes on the wire and the H bit. *)
Definition wt_qpack_string_decode : parser (list Z * bool) :=
  with_peek None (fun first =>
    length <- wt_qpack_integer_decode 7;;
    if SIZE_MAX <? length then pfail WT_ERR_LIMIT None
    else
      bytes <- bytes_or_truncated length None;;
      pret (bytes, negb (Z.land first 0x80 =? 0))).

(** [if (e(w) != WT_OK) return WT_ERR_LIMIT;] and then [k]. *)
Definition or_limit (e k : wt_writer -> wt_status * wt_writer) (w : wt_writer) : wt_status * wt_writer :=
  match e w with
  | (WT_OK, w') => k w'
  | (_, w') => (WT_ERR_LIMIT, w')
  end.

(** [if (length != 0) wt_writer_bytes(w, bytes, length);] *)
Definition writer_bytes_if (bytes : list Z) (w : wt_writer) : wt_writer :=
  if zlen bytes =? 0 then w else wt_writer_bytes bytes w.

Definition wt_qpack_string_encode_coded (bytes : list Z) (huffman : bool) (scratch_capacity : Z) (w : wt_writer) :
    wt_status * wt_writer :=
  if WT_QPACK_INTEGER_MAX <? zlen bytes then (WT_ERR_INVALID_ARGUMENT, w)
  else
    match
      if huffman then
        match wt_qpack_huffman_encoded_size bytes with
        | Fail s e => Fail s e
        | Ok needed =>
            if scratch_capacity <? needed then Fail WT_ERR_LIMIT None
            else wt_qpack_huffman_encode bytes scratch_capacity
        end
      else Ok bytes
    with
    | Fail s _ => (s, w)
    | Ok wire =>
        or_limit (wt_qpack_integer_encode 7 (if huffman then 0x80 else 0) (zlen wire))
                 (fun w => writer_status (writer_bytes_if wire w)) w
    end.

Definition wt_qpack_string_encode (bytes : list Z) : wt_writer -> wt_status * wt_writer :=
  wt_qpack_string_encode_coded bytes false 0.

(** ** The wire form *)

Fixpoint group_bytes (n : nat) (v : Z) : list Z :=
  match n with
  | O => []
  | S n => if 128 <=? v then (v mod 128 + 128) :: group_bytes n (v / 128) else [v]
  end.

Definition integer_bytes (bits flags v : Z) : list Z :=
  if v <? 2 ^ bits - 1 then [flags + v] else (flags + (2 ^ bits - 1)) :: group_bytes 9 (v - (2 ^ bits - 1)).

(** The flags a prefix of this width leaves room for. *)
Definition flags_ok (bits flags : Z) : Prop :=
  1 <= bits <= 8 /\ is_u8 flags /\ flags mod 2 ^ bits = 0.

Lemma encodes_seq e k bs1 bs2 :
  encodes e bs1 -> encodes k bs2 -> encodes (or_limit e k) (bs1 ++ bs2).
Proof.
  intros He Hk w Hi Hov. specialize (He w Hi Hov). pose proof (writer_put_room bs1 w Hi Hov) as Hp.
  pose proof (zlen_nonneg bs1). pose proof (zlen_nonneg bs2). unfold or_limit. rewrite zlen_app.
  destruct (Z.leb_spec (zlen bs1) (writer_room w)).
  - rewrite He. destruct Hp as (Hov1 & Hoff & Hcap & _).
    pose proof (writer_put_inv bs1 w Hi) as Hi1. specialize (Hk _ Hi1 Hov1).
    assert (Hroom : writer_room (wt_writer_put bs1 w) = writer_room w - zlen bs1)
      by (unfold writer_room; lia).
    rewrite Hroom in Hk. destruct (Z.leb_spec (zlen bs2) (writer_room w - zlen bs1)); ztest; [|done].
    rewrite Hk. by rewrite writer_put_app by (done || lia).
  - destruct (e w) as [s w'] eqn:E. destruct He as [Hs Hw]. cbn in Hs, Hw. subst s. by ztest.
Qed.

(** The same when the first writer's status is passed on as it is. *)
Definition and_then (e k : wt_writer -> wt_status * wt_writer) (w : wt_writer) : wt_status * wt_writer :=
  match e w with
  | (WT_OK, w') => k w'
  | refused => refused
  end.

Lemma encodes_then e k bs1 bs2 : encodes e bs1 -> encodes k bs2 -> encodes (and_then e k) (bs1 ++ bs2).
Proof.
  intros He Hk w Hi Ho. pose proof (encodes_seq e k bs1 bs2 He Hk w Hi Ho) as Hseq. specialize (He w Hi Ho).
  unfold or_limit, and_then in *. destruct (e w) as [[] w'] eqn:E; try done; destruct (zlen bs1 <=? _); try done; by destruct He.
Qed.

Lemma appends_bytes_if bs : appends (writer_bytes_if bs) bs.
Proof.
  unfold writer_bytes_if. destruct (Z.eqb_spec (zlen bs) 0) as [H|H]; [|apply appends_bytes].
  apply zlen_0_nil in H. subst. apply appends_id.
Qed.

Lemma land_7f v : 0 <= v -> Z.land v 0x7f = v mod 128.
Proof. intros. change 0x7f with (2 ^ 7 - 1). by apply land_mask. Qed.

Lemma appends_groups n v : 0 <= v -> appends (integer_groups n v) (group_bytes n v).
Proof.
  revert v. induction n as [|n IH]; intros v Hv; cbn [integer_groups group_bytes]; [apply appends_id|].
  destruct (Z.leb_spec 128 v).
  - rewrite land_7f by done.
    assert (Hl : Z.lor (v mod 128) 0x80 = v mod 128 + 128).
    { rewrite Z.lor_comm, (lor_disjoint 0x80 (v mod 128) 7) by (try lia; try done; apply Z.mod_pos_bound; lia). lia. }
    rewrite Hl, u8_small by (unfold is_u8; pose proof (Z.mod_pos_bound v 128); lia).
    rewrite Z.shiftr_div_pow2 by lia. change (2 ^ 7) with 128.
    change (?a :: group_bytes n ?b) with ([a] ++ group_bytes n b).
    apply (appends_seq (wt_writer_u8 _) (integer_groups n (v / 128))); [apply appends_u8|]. apply IH. apply Z.div_pos; lia.
  - rewrite u8_small by (unfold is_u8; lia). apply appends_u8.
Qed.

Lemma pow_prefix bits : 1 <= bits <= 8 -> 2 <= 2 ^ bits <= 256.
Proof.
  intros. split; [change 2 with (2 ^ 1) at 1|change 256 with (2 ^ 8)]; apply Z.pow_le_mono_r; lia.
Qed.

(** Flags and value do not overlap. *)
Lemma flags_or bits flags v :
  flags_ok bits flags -> 0 <= v < 2 ^ bits ->
  u8 (Z.lor flags (u8 v)) = flags + v /\ Z.land (flags + v) (2 ^ bits - 1) = v /\ is_u8 (flags + v).
Proof.
  intros (Hb & Hf & Hm) Hv. pose proof (pow_prefix bits Hb). unfold is_u8 in *.
  assert (Hfit : flags + v < 2 ^ 8).
  { assert (Hd : 2 ^ 8 = 2 ^ bits * 2 ^ (8 - bits)) by (rewrite <- Z.pow_add_r by lia; f_equal; lia).
    pose proof (Z_div_mod_eq_full flags (2 ^ bits)) as Hq. rewrite Hm in Hq.
    assert (flags / 2 ^ bits < 2 ^ (8 - bits)) by (apply Z.div_lt_upper_bound; lia). nia. }
  rewrite (u8_small v) by (unfold is_u8; lia). rewrite (lor_disjoint flags v bits) by lia.
  rewrite u8_small by (unfold is_u8; lia). split_and!; [done| |lia|lia].
  rewrite land_mask by lia. rewrite <- Z.add_mod_idemp_l, Hm by lia. apply Z.mod_small. lia.
Qed.

Lemma encodes_integer bits flags v :
  flags_ok bits flags -> varint_ok v -> encodes (wt_qpack_integer_encode bits flags v) (integer_bytes bits flags v).
Proof.
  intros Hf Hv. pose proof Hf as (Hb & Hfu & Hm). pose proof (pow_prefix bits Hb).
  apply encodes_ext with (fun w => writer_status
    ((if v <? 2 ^ bits - 1 then wt_writer_u8 (u8 (Z.lor flags (u8 v)))
      else fun w => integer_groups 9 (v - (2 ^ bits - 1)) (wt_writer_u8 (u8 (Z.lor flags (u8 (2 ^ bits - 1)))) w)) w)).
  - intros w. unfold wt_qpack_integer_encode. unfold varint_ok in Hv. fold WT_QPACK_INTEGER_MAX in Hv. ztest.
    rewrite Z.shiftl_1_l.
    destruct (Z.ltb_spec bits 8) as [H8|H8]; cbn [andb].
    + assert (2 ^ bits <= 2 ^ 7) by (apply Z.pow_le_mono_r; lia).
      rewrite (u8_small (2 ^ bits - 1)) by (unfold is_u8; lia). rewrite land_mask, Hm by lia. cbn [Z.eqb negb].
      destruct (Z.ltb_spec v (2 ^ bits - 1)); [done|]. unfold WT_QPACK_INTEGER_MAX, WT_QUIC_VARINT_MAX in *. by no_wrap.
    + destruct (Z.ltb_spec v (2 ^ bits - 1)); [done|]. unfold WT_QPACK_INTEGER_MAX, WT_QUIC_VARINT_MAX in *. by no_wrap.
  - apply encodes_status. unfold integer_bytes. destruct Hv. destruct (Z.ltb_spec v (2 ^ bits - 1)).
    + rewrite (proj1 (flags_or bits flags v Hf ltac:(lia))). apply appends_u8.
    + rewrite (proj1 (flags_or bits flags (2 ^ bits - 1) Hf ltac:(lia))).
      change (?a :: group_bytes 9 ?b) with ([a] ++ group_bytes 9 b).
      apply (appends_seq (wt_writer_u8 _) (integer_groups 9 _)); [apply appends_u8|]. apply appends_groups. lia.
Qed.

(** ** Reading back *)

Lemma group_land v : 0 <= v < 128 -> Z.land (v + 128) 0x7f = v /\ Z.land v 0x7f = v /\
  Z.land (v + 128) 0x80 <> 0 /\ Z.land v 0x80 = 0.
Proof.
  intros Hv. assert (Hb : is_u8 v) by (unfold is_u8; lia).
  assert (H : (128 <=? v) || (Z.land (v + 128) 0x7f =? v) && (Z.land v 0x7f =? v) &&
              negb (Z.land (v + 128) 0x80 =? 0) && (Z.land v 0x80 =? 0) = true).
  { clear Hv. revert v Hb. apply byte_forall. vm_compute. reflexivity. } 
  rewrite (proj2 (Z.leb_gt 128 v)) in H by lia. cbn [orb] in H.
  rewrite !andb_true_iff, negb_true_iff, !Z.eqb_eq, Z.eqb_neq in H. tauto.
Qed.

Lemma decodes_integer_loop n fuel shift acc v :
  (n <= fuel)%nat -> 0 <= shift -> shift + 7 * (Z.of_nat n - 1) <= 62 -> 0 <= v < 128 ^ Z.of_nat n -> 0 <= acc ->
  (0 < n)%nat -> acc + v * 2 ^ shift <= WT_QPACK_INTEGER_MAX ->
  decodes (integer_loop fuel shift acc) (group_bytes n v) (acc + v * 2 ^ shift).
Proof.
  revert fuel shift acc v.
  induction n as [|n IH]; intros fuel shift acc v Hf Hs Hsh Hv Ha Hn Hmax; [lia|].
  destruct fuel as [|fuel]; [lia|]. cbn [integer_loop group_bytes].
  assert (Hp : 0 < 2 ^ shift) by (apply Z.pow_pos_nonneg; lia).
  unfold WT_QPACK_INTEGER_MAX, WT_QUIC_VARINT_MAX in *.
  destruct (Z.leb_spec 128 v) as [Hbig|Hsmall].
  - destruct (group_land (v mod 128) ltac:(apply Z.mod_pos_bound; lia)) as (H7 & _ & H80 & _).
    change (?a :: group_bytes n ?b) with ([a] ++ group_bytes n b).
    eapply decodes_bind; [apply decodes_read_first|]. ztest. rewrite H7.
    assert (Hq : v * 2 ^ shift = (v mod 128) * 2 ^ shift + (v / 128) * 2 ^ (shift + 7)).
    { rewrite Z.pow_add_r by lia. change (2 ^ 7) with 128. pose proof (Z_div_mod_eq_full v 128). nia. }
    pose proof (Z.mod_pos_bound v 128 ltac:(lia)). assert (0 <= v / 128) by (apply Z.div_pos; lia).
    assert (0 <= v mod 128 * 2 ^ shift /\ 0 <= v / 128 * 2 ^ (shift + 7)) by nia.
    rewrite Z.shiftl_mul_pow2 by lia. no_wrap. ztest.
    rewrite u32_small by (unfold is_u32; lia). rewrite Hq, Z.add_assoc. apply IH; try lia.
    + assert (v / 128 < 128 ^ Z.of_nat n); [|lia]. apply Z.div_lt_upper_bound; [lia|].
      replace (Z.of_nat (S n)) with (1 + Z.of_nat n) in Hv by lia. rewrite Z.pow_add_r in Hv by lia. lia.
    + destruct n; [|lia]. change (128 ^ Z.of_nat 1) with 128 in Hv. lia.
  - destruct (group_land v ltac:(lia)) as (_ & H7 & _ & H80).
    eapply (decodes_bind_nil _ _ [v]); [apply decodes_read_first|]. ztest. rewrite H7.
    assert (0 <= v * 2 ^ shift) by nia. rewrite Z.shiftl_mul_pow2 by lia. no_wrap. ztest. apply decodes_ret.
Qed.

Lemma decodes_integer bits flags v :
  flags_ok bits flags -> varint_ok v -> decodes (wt_qpack_integer_decode bits) (integer_bytes bits flags v) v.
Proof.
  intros Hf Hv. pose proof Hf as (Hb & _). pose proof (pow_prefix bits Hb).
  unfold wt_qpack_integer_decode, integer_bytes, varint_ok, WT_QUIC_VARINT_MAX in *. ztest. rewrite Z.shiftl_1_l.
  destruct (Z.ltb_spec v (2 ^ bits - 1)).
  - eapply (decodes_bind_nil _ _ [_]); [apply decodes_read_first|]. cbv zeta.
    rewrite (proj1 (proj2 (flags_or bits flags v Hf ltac:(lia)))). ztest. apply decodes_ret.
  - change (?a :: group_bytes 9 ?b) with ([a] ++ group_bytes 9 b).
    eapply decodes_bind; [apply decodes_read_first|]. cbv zeta.
    rewrite (proj1 (proj2 (flags_or bits flags (2 ^ bits - 1) Hf ltac:(lia)))). ztest.
    replace v with ((2 ^ bits - 1) + (v - (2 ^ bits - 1)) * 2 ^ 0) at 2 by lia.
    apply decodes_integer_loop; unfold WT_QPACK_INTEGER_MAX, WT_QUIC_VARINT_MAX; try lia.
Qed.

(** The first byte of an integer carries the flags. *)
Lemma integer_bytes_first bits flags v :
  flags_ok bits flags -> 0 <= v ->
  exists b l, integer_bytes bits flags v = b :: l /\ is_u8 b /\
    forall m, 0 <= m -> m mod 2 ^ bits = 0 -> Z.land b m = Z.land flags m.
Proof.
  intros Hf Hv. pose proof Hf as (Hb & Hu & Hm). pose proof (pow_prefix bits Hb).
  assert (Hx : forall x, 0 <= x < 2 ^ bits -> is_u8 (flags + x) /\
            forall m, 0 <= m -> m mod 2 ^ bits = 0 -> Z.land (flags + x) m = Z.land flags m).
  { intros x Hlt. destruct (flags_or bits flags x Hf Hlt) as (_ & _ & ?). split; [done|]. intros m Hm0 Hmm.
    rewrite <- (lor_disjoint flags x bits) by lia. rewrite Z.land_lor_distr_l.
    assert (Z.land x m = 0) as ->; [|apply Z.lor_0_r].
    apply Z.bits_inj'. intros i Hi. rewrite Z.land_spec, Z.bits_0.
    destruct (Z.lt_ge_cases i bits).
    - rewrite <- (Z.mod_pow2_bits_low m bits i), Hmm, Z.bits_0 by lia. apply andb_false_r.
    - rewrite <- (Z.mod_small x (2 ^ bits)) by lia. by rewrite Z.mod_pow2_bits_high by lia. }
  unfold integer_bytes. destruct (Z.ltb_spec v (2 ^ bits - 1)).
  - destruct (Hx v ltac:(lia)). by exists (flags + v), [].
  - destruct (Hx (2 ^ bits - 1) ltac:(lia)). by eexists _, _.
Qed.

Lemma group_bytes_ok n v : 0 <= v -> bytes_ok (group_bytes n v).
Proof.
  revert v. induction n as [|n IH]; intros v Hv; cbn; [constructor|].
  pose proof (Z.mod_pos_bound v 128). destruct (Z.leb_spec 128 v); constructor; try (unfold is_u8; lia); [|constructor].
  apply IH. apply Z.div_pos; lia.
Qed.

Lemma integer_bytes_ok bits flags v : flags_ok bits flags -> 0 <= v -> bytes_ok (integer_bytes bits flags v).
Proof.
  intros Hf Hv. destruct (integer_bytes_first bits flags v Hf Hv) as (b & l & E & Hb & _).
  unfold integer_bytes in *. destruct (v <? 2 ^ bits - 1) eqn:E1; injection E as <- <-; (constructor; [done|]).
  - constructor.
  - apply group_bytes_ok. reflect_bools. lia.
Qed.

Lemma zlen_group_bytes n v : zlen (group_bytes n v) <= Z.of_nat n.
Proof.
  revert v. induction n as [|n IH]; intros v; cbn [group_bytes]; [done|].
  destruct (128 <=? v); rewrite zlen_cons; [specialize (IH (v / 128)); lia|rewrite zlen_nil; lia].
Qed.

Lemma zlen_integer_bytes bits flags v : 1 <= zlen (integer_bytes bits flags v) <= 10.
Proof.
  unfold integer_bytes. destruct (v <? 2 ^ bits - 1); rewrite zlen_cons; [rewrite zlen_nil; lia|].
  pose proof (zlen_group_bytes 9 (v - (2 ^ bits - 1))). pose proof (zlen_nonneg (group_bytes 9 (v - (2 ^ bits - 1)))). lia.
Qed.

(** ** Any bytes *)

(** How reading an integer fails. *)
Definition integer_error (s : wt_status) (e : option Z) : Prop :=
  (s = WT_ERR_TRUNCATED \/ s = WT_ERR_PROTOCOL) /\ e = None.

Lemma integer_loop_safe fuel shift value : 0 <= value -> parser_safe varint_ok (integer_loop fuel shift value).
Proof.
  revert shift value. induction fuel as [|fuel IH]; intros shift value Hv; [apply parser_safe_fail|].
  cbn [integer_loop]. eapply parser_safe_bind; [apply read_first_safe|]. intros b _.
  destruct (63 <=? shift); [apply parser_safe_fail|]. cbv zeta.
  set (value' := u64 (value + u64 (Z.shiftl (Z.land b 0x7f) shift))).
  assert (is_u64 value') by apply u64_is_u64. unfold is_u64 in *.
  destruct (WT_QPACK_INTEGER_MAX <? value') eqn:E; [apply parser_safe_fail|].
  destruct (Z.land b 0x80 =? 0); [|apply IH; lia].
  apply parser_safe_ret. unfold varint_ok. unfold WT_QPACK_INTEGER_MAX in E. apply Z.ltb_ge in E. lia.
Qed.

Lemma integer_loop_fails fuel shift value :
  (0 < fuel)%nat -> 0 <= shift <= 70 -> 63 <= shift + 7 * (Z.of_nat fuel - 1) ->
  parser_fails integer_error (integer_loop fuel shift value).
Proof.
  revert shift value. induction fuel as [|fuel IH]; intros shift value Hf Hs Hsh; [lia|]. cbn [integer_loop].
  eapply parser_fails_bind; [apply read_first_safe|apply read_first_fails; unfold integer_error; auto|]. intros b _.
  destruct (Z.leb_spec 63 shift); [apply parser_fails_fail; unfold integer_error; auto|]. cbv zeta.
  destruct (WT_QPACK_INTEGER_MAX <? _); [apply parser_fails_fail; unfold integer_error; auto|].
  destruct (Z.land b 0x80 =? 0); [apply parser_fails_ret|].
  rewrite u32_small by (unfold is_u32; lia). apply IH; lia.
Qed.

Lemma parser_local_read_first : parser_local read_first.
Proof.
  intros c Hl. destruct (cursor_view c) as [|b tl] eqn:Hv.
  - assert (H : forall c, cursor_live c -> cursor_view c = [] -> (read_first c).1 = Fail WT_ERR_TRUNCATED None).
    { intros c0 Hl0 Hv0. pose proof (cursor_take_cases 1 c0 Hl0 ltac:(lia)) as Ht. rewrite Hv0 in Ht. cbn in Ht.
      unfold read_first, wt_cursor_u8, take_load. pose proof (cursor_take_safe 1 c0 (proj1 Hl0) ltac:(lia)) as Hs.
      unfold wt_cursor_take in *. rewrite (proj1 (proj2 Hl0)) in *. destruct (_ <? _); [done|].
      unfold cursor_ptr in Ht. by destruct (cur_data c0) eqn:?; [|by destruct Hl0 as (_ & _ & ?)]. }
    pose proof (H c Hl Hv) as Hc. destruct (read_first c) as [[|s e] c'] eqn:E; [done|]. cbn in Hc. injection Hc as -> ->.
    intros c2 Hl2 [Hv2|[? _]]; [|done]. apply H; congruence.
  - rewrite (decodes_read_first b c tl Hl Hv). exists [b]. split_and!; [|done|apply decodes_read_first].
    cbn [app]. f_equal. symmetry. by eapply cursor_advance_view; [apply Hl|exact (Hv : _ = [b] ++ tl)|done].
Qed.

Lemma parser_local_integer_loop fuel shift value : parser_local (integer_loop fuel shift value).
Proof.
  revert shift value. induction fuel as [|fuel IH]; intros shift value; [apply parser_local_fail|]. cbn [integer_loop].
  eapply parser_local_bind; [apply read_first_safe|apply parser_local_read_first|]. intros b _.
  destruct (63 <=? shift); [apply parser_local_fail|]. cbv zeta.
  destruct (WT_QPACK_INTEGER_MAX <? _); [apply parser_local_fail|].
  destruct (Z.land b 0x80 =? 0); [apply parser_local_ret|apply IH].
Qed.

Section IntegerDecode.
Context (bits : Z) (Hbits : 1 <= bits <= 8).

Lemma integer_decode_eq :
  wt_qpack_integer_decode bits =
    (first <- read_first;;
     let value := Z.land first (2 ^ bits - 1) in
     if value <? 2 ^ bits - 1 then pret value else integer_loop 10 0 value).
Proof. unfold wt_qpack_integer_decode. ztest. by rewrite Z.shiftl_1_l. Qed.

Lemma integer_decode_safe : parser_safe varint_ok (wt_qpack_integer_decode bits).
Proof.
  rewrite integer_decode_eq. pose proof (pow_prefix bits Hbits).
  eapply parser_safe_bind; [apply read_first_safe|]. intros b Hb. cbv zeta.
  assert (0 <= Z.land b (2 ^ bits - 1)) by (apply Z.land_nonneg; right; lia).
  destruct (_ <? _) eqn:E; [|by apply integer_loop_safe].
  apply parser_safe_ret. reflect_bools. unfold varint_ok, WT_QUIC_VARINT_MAX. lia.
Qed.

Lemma integer_decode_fails : parser_fails integer_error (wt_qpack_integer_decode bits).
Proof.
  rewrite integer_decode_eq.
  eapply parser_fails_bind; [apply read_first_safe|apply read_first_fails; unfold integer_error; auto|]. intros b _.
  cbv zeta. destruct (_ <? _); [apply parser_fails_ret|]. apply integer_loop_fails; lia.
Qed.

Lemma parser_local_integer : parser_local (wt_qpack_integer_decode bits).
Proof.
  rewrite integer_decode_eq. eapply parser_local_bind; [apply read_first_safe|apply parser_local_read_first|].
  intros b _. cbv zeta. destruct (_ <? _); [apply parser_local_ret|apply parser_local_integer_loop].
Qed.
End IntegerDecode.

(** ** Strings *)

(** The bytes that stand for [s] on the wire. *)
Definition string_content (s : list Z) (huffman : bool) : list Z :=
  if huffman then match wt_qpack_huffman_encode s (padded_size s) with Ok d => d | Fail _ _ => [] end else s.

Definition string_bytes (s : list Z) (huffman : bool) : list Z :=
  integer_bytes 7 (if huffman then 0x80 else 0) (zlen (string_content s huffman)) ++ string_content s huffman.

Definition string_ok (s : list Z) : Prop := bytes_ok s /\ zlen s < 2 ^ 57.

(** The Huffman form, whatever buffer it is built in. *)
Lemma huffman_content s capacity :
  string_ok s -> padded_size s <= capacity < 2 ^ 60 ->
  wt_qpack_huffman_encode s capacity = Ok (string_content s true) /\
  zlen (string_content s true) = padded_size s /\ bytes_ok (string_content s true) /\
  forall room, zlen s <= room -> wt_qpack_huffman_decode (string_content s true) room = Some (Ok s).
Proof.
  intros [Hs Hz] Hc. pose proof (padded_size_nonneg s). pose proof (zlen_nonneg s).
  assert (Hsmall : padded_size s < 2 ^ 60) by (pose proof (text_bits_bound s); unfold padded_size; zdm).
  pose proof (huffman_encode_spec s (padded_size s) ltac:(lia)) as H1. rewrite Z.leb_refl in H1.
  destruct H1 as (d & Hd & Hl & Hok & Hw). unfold string_content. rewrite Hd.
  pose proof (huffman_encode_spec s capacity ltac:(lia)) as H2. rewrite (proj2 (Z.leb_le _ _)) in H2 by lia.
  destruct H2 as (d' & -> & _ & Hok' & Hw'). split_and!; [|done|done|].
  - f_equal. by apply (huffman_wire_unique s).
  - intros room Hr. destruct (huffman_decode_spec d room Hok ltac:(lia)) as (o & -> & Hacc & _). f_equal. by apply Hacc.
Qed.

Lemma string_content_ok s h :
  string_ok s -> bytes_ok (string_content s h) /\ 0 <= zlen (string_content s h) < 2 ^ 60.
Proof.
  intros Hs. pose proof Hs as [Hb Hz]. pose proof (zlen_nonneg s). destruct h; [|cbn; split; [done|lia]].
  assert (0 <= padded_size s < 2 ^ 60) by (pose proof (text_bits_bound s); unfold padded_size; zdm).
  destruct (huffman_content s (padded_size s) Hs ltac:(lia)) as (_ & -> & ? & _). split; [done|lia].
Qed.

Lemma string_flags_ok (h : bool) : flags_ok 7 (if h then 0x80 else 0).
Proof. unfold flags_ok, is_u8. destruct h; split_and!; try lia; done. Qed.

Lemma string_length_ok s h : string_ok s -> varint_ok (zlen (string_content s h)).
Proof. intros Hs. destruct (string_content_ok s h Hs). unfold varint_ok, WT_QUIC_VARINT_MAX. lia. Qed.

Lemma encodes_string s h scratch :
  string_ok s -> (h = true -> padded_size s <= scratch < 2 ^ 60) ->
  encodes (wt_qpack_string_encode_coded s h scratch) (string_bytes s h).
Proof.
  intros Hs Hh. pose proof Hs as [Hb Hz]. pose proof (zlen_nonneg s).
  apply encodes_ext with (or_limit (wt_qpack_integer_encode 7 (if h then 0x80 else 0) (zlen (string_content s h)))
                            (fun w => writer_status (writer_bytes_if (string_content s h) w))).
  - intros w. unfold wt_qpack_string_encode_coded, WT_QPACK_INTEGER_MAX, WT_QUIC_VARINT_MAX. ztest.
    destruct h; [|done]. specialize (Hh eq_refl). rewrite encoded_size_spec by lia. ztest.
    by rewrite (proj1 (huffman_content s scratch Hs Hh)).
  - apply encodes_seq; [|apply encodes_status, appends_bytes_if].
    apply encodes_integer; [apply string_flags_ok|by apply string_length_ok].
Qed.

Lemma decodes_string s h :
  string_ok s -> decodes wt_qpack_string_decode (string_bytes s h) (string_content s h, h).
Proof.
  intros Hs. unfold wt_qpack_string_decode. pose proof (string_length_ok s h Hs) as Hlen.
  destruct (integer_bytes_first 7 (if h then 0x80 else 0) (zlen (string_content s h)) (string_flags_ok h)
              (zlen_nonneg _)) as (b & l & Eb & Hb8 & Hmask).
  unfold string_bytes. pose proof Eb as Eb'. rewrite Eb. apply decodes_with_peek.
  rewrite (Hmask 0x80) by (done || lia).
  replace (negb (Z.land (if h then 0x80 else 0) 0x80 =? 0)) with h by by destruct h.
  rewrite app_comm_cons, <- Eb'.
  eapply decodes_bind; [apply decodes_integer; [apply string_flags_ok|done]|].
  unfold varint_ok, WT_QUIC_VARINT_MAX, SIZE_MAX, U64_MAX in *. ztest.
  apply (decodes_map _ (fun x => (x, h))). by apply decodes_bytes_or_truncated.
Qed.

Lemma integer_decode_consumes bits : 1 <= bits <= 8 -> parser_consumes (wt_qpack_integer_decode bits).
Proof.
  intros Hb. rewrite integer_decode_eq by done. pose proof (pow_prefix bits Hb).
  apply (parser_consumes_bind is_u8 varint_ok); [apply read_first_safe|apply read_first_consumes|]. intros b _. cbv zeta.
  assert (0 <= Z.land b (2 ^ bits - 1)) by (apply Z.land_nonneg; right; lia).
  destruct (_ <? _) eqn:E; [|by apply integer_loop_safe].
  apply parser_safe_ret. apply Z.ltb_lt in E. unfold varint_ok, WT_QUIC_VARINT_MAX. lia.
Qed.

(** What a string read from any bytes is. *)
Definition string_read (r : list Z * bool) : Prop := bytes_ok r.1 /\ varint_ok (zlen r.1).

Lemma string_body_safe first :
  parser_safe string_read
    (length <- wt_qpack_integer_decode 7;;
     if SIZE_MAX <? length then pfail WT_ERR_LIMIT None
     else bytes <- bytes_or_truncated length None;; pret (bytes, negb (Z.land first 0x80 =? 0))).
Proof.
  eapply parser_safe_bind; [apply integer_decode_safe; lia|]. intros n Hn.
  destruct (SIZE_MAX <? n); [apply parser_safe_fail|].
  eapply parser_safe_bind; [apply bytes_or_truncated_safe; apply Hn|]. intros bs [Hz Hok].
  apply parser_safe_ret. split; [done|]. by rewrite <- Hz in Hn.
Qed.

Lemma string_decode_safe : parser_safe string_read wt_qpack_string_decode.
Proof. apply with_peek_safe. intros b _. apply string_body_safe. Qed.

Lemma string_decode_fails : parser_fails integer_error wt_qpack_string_decode.
Proof.
  apply with_peek_fails; [unfold integer_error; auto|]. intros b _.
  eapply parser_fails_bind; [apply integer_decode_safe; lia|apply integer_decode_fails; lia|]. intros n Hn.
  unfold varint_ok, WT_QUIC_VARINT_MAX in Hn. unfold SIZE_MAX, U64_MAX. ztest.
  eapply parser_fails_bind; [apply bytes_or_truncated_safe; lia|apply bytes_or_truncated_fails; unfold integer_error; auto|].
  intros bs _. apply parser_fails_ret.
Qed.

Lemma parser_local_string : parser_local wt_qpack_string_decode.
Proof.
  apply parser_local_with_peek.
  - intros b. eapply parser_consumes_bind; [apply integer_decode_safe; lia|apply integer_decode_consumes; lia|].
    intros n Hn. destruct (SIZE_MAX <? n); [apply (parser_safe_fail string_read)|].
    eapply parser_safe_bind; [apply bytes_or_truncated_safe; apply Hn|]. intros bs [Hz Hok].
    apply parser_safe_ret. split; [done|]. by rewrite <- Hz in Hn.
  - intros b. eapply parser_local_bind; [apply integer_decode_safe; lia|apply parser_local_integer; lia|].
    intros n Hn. destruct (SIZE_MAX <? n); [apply parser_local_fail|].
    eapply parser_local_bind; [apply bytes_or_truncated_safe; apply Hn|apply parser_local_bytes; apply Hn|].
    intros bs _. apply parser_local_ret.
Qed.

(** ** Theorems *)

(** A prefixed integer of any prefix width is written in at most ten bytes, the flags beside it untouched, and read back exactly, whatever follows it. *)
Lemma qpack_integer_roundtrip bits flags v w c tl :
  flags_ok bits flags -> varint_ok v ->
  writer_inv w -> w_overflow w = false -> w_copy w = true -> zlen (integer_bytes bits flags v) <= writer_room w ->
  cursor_live c -> cursor_view c = integer_bytes bits flags v ++ tl ->
  (wt_qpack_integer_encode bits flags v w).1 = WT_OK /\
  writer_bytes (wt_qpack_integer_encode bits flags v w).2 = writer_bytes w ++ integer_bytes bits flags v /\
  wt_qpack_integer_decode bits c = (Ok v, cursor_advance c (zlen (integer_bytes bits flags v))) /\
  zlen (integer_bytes bits flags v) <= 10.
Proof.
  intros Hf Hv Hi Hov Hcp Hroom Hl Hview. pose proof (encodes_integer bits flags v Hf Hv) as He.
  destruct (encodes_bytes _ _ w He Hi Hov Hcp Hroom). split_and!; [done|done|by apply (decodes_integer bits flags v Hf Hv c tl)|].
  apply zlen_integer_bytes.
Qed.

Lemma qpack_integer_roundtrip_witness :
  (wt_qpack_integer_encode 5 0x40 1337 (wt_writer_init (Some [0; 0; 0]) 3)).1 = WT_OK /\
  writer_bytes (wt_qpack_integer_encode 5 0x40 1337 (wt_writer_init (Some [0; 0; 0]) 3)).2 = [] ++ integer_bytes 5 0x40 1337 /\
  wt_qpack_integer_decode 5 (wt_cursor_init (Some [0x5f; 0x9a; 0x0a; 7]) 4) =
    (Ok 1337, cursor_advance (wt_cursor_init (Some [0x5f; 0x9a; 0x0a; 7]) 4) (zlen (integer_bytes 5 0x40 1337))) /\
  zlen (integer_bytes 5 0x40 1337) <= 10.
Proof.
  apply (qpack_integer_roundtrip 5 0x40 1337 (wt_writer_init (Some [0; 0; 0]) 3)
           (wt_cursor_init (Some [0x5f; 0x9a; 0x0a; 7]) 4) [7]).
  - unfold flags_ok, is_u8. split_and!; try lia; done.
  - unfold varint_ok, WT_QUIC_VARINT_MAX. lia.
  - by apply writer_init_inv.
  - done.
  - done.
  - by vm_compute.
  - by apply cursor_init_live; [|apply bytes_okb_spec].
  - done.
Defined.

(** A string literal, Huffman coded or not, is read back from the bytes the encoder writes: the content and the H bit, the content decoding to the string. *)
Lemma qpack_string_roundtrip s h scratch w c tl room :
  string_ok s -> (h = true -> padded_size s <= scratch < 2 ^ 60) ->
  writer_inv w -> w_overflow w = false -> w_copy w = true -> zlen (string_bytes s h) <= writer_room w ->
  cursor_live c -> cursor_view c = string_bytes s h ++ tl -> zlen s <= room ->
  (wt_qpack_string_encode_coded s h scratch w).1 = WT_OK /\
  writer_bytes (wt_qpack_string_encode_coded s h scratch w).2 = writer_bytes w ++ string_bytes s h /\
  exists content,
    wt_qpack_string_decode c = (Ok (content, h), cursor_advance c (zlen (string_bytes s h))) /\
    if h then wt_qpack_huffman_decode content room = Some (Ok s) else content = s.
Proof.
  intros Hs Hh Hi Hov Hcp Hroom Hl Hview Hr. pose proof (encodes_string s h scratch Hs Hh) as He.
  destruct (encodes_bytes _ _ w He Hi Hov Hcp Hroom). split_and!; [done|done|].
  exists (string_content s h). split; [by apply (decodes_string s h Hs c tl)|].
  destruct h; [|done]. by apply (huffman_content s scratch Hs (Hh eq_refl)).
Qed.

Lemma qpack_string_roundtrip_witness :
  (wt_qpack_string_encode_coded [47] true 1 (wt_writer_init (Some [0; 0]) 2)).1 = WT_OK /\
  writer_bytes (wt_qpack_string_encode_coded [47] true 1 (wt_writer_init (Some [0; 0]) 2)).2 = [] ++ string_bytes [47] true /\
  exists content,
    wt_qpack_string_decode (wt_cursor_init (Some [0x81; 0x63]) 2) =
      (Ok (content, true), cursor_advance (wt_cursor_init (Some [0x81; 0x63]) 2) (zlen (string_bytes [47] true))) /\
    wt_qpack_huffman_decode content 1 = Some (Ok [47]).
Proof.
  apply (qpack_string_roundtrip [47] true 1 (wt_writer_init (Some [0; 0]) 2) (wt_cursor_init (Some [0x81; 0x63]) 2) [] 1).
  - by split; [apply bytes_okb_spec|].
  - intros _. vm_compute. split; congruence.
  - by apply writer_init_inv.
  - done.
  - done.
  - by vm_compute.
  - by apply cursor_init_live; [|apply bytes_okb_spec].
  - by vm_compute.
  - done.
Defined.
