(* ===== verification/QpackStatic.v ===== *)
(** * The QPACK static table: [src/http3/qpack.c], [qpack_static_table.h]

    RFC 9204 appendix A as the generated header has it, with the three lookups. *)

From stdpp Require Import strings.
From S2P Require Export Core.
#[local] Open Scope Z_scope.

Definition WT_QPACK_STATIC_TABLE_SIZE : Z := 99.

Definition WT_RFC9204_STATIC_TABLE : list (string * string) :=
  [(":authority"%string, EmptyString); (":path"%string, "/"%string); ("age"%string, "0"%string);
   ("content-disposition"%string, EmptyString); ("content-length"%string, "0"%string);
   ("cookie"%string, EmptyString); ("date"%string, EmptyString); ("etag"%string, EmptyString);
   ("if-modified-since"%string, EmptyString); ("if-none-match"%string, EmptyString);
   ("last-modified"%string, EmptyString); ("link"%string, EmptyString); ("location"%string, EmptyString);
   ("referer"%string, EmptyString); ("set-cookie"%string, EmptyString); (":method"%string, "CONNECT"%string);
   (":method"%string, "DELETE"%string); (":method"%string, "GET"%string); (":method"%string, "HEAD"%string);
   (":method"%string, "OPTIONS"%string); (":method"%string, "POST"%string); (":method"%string, "PUT"%string);
   (":scheme"%string, "http"%string); (":scheme"%string, "https"%string); (":status"%string, "103"%string);
   (":status"%string, "200"%string); (":status"%string, "304"%string); (":status"%string, "404"%string);
   (":status"%string, "503"%string); ("accept"%string, "*/*"%string);
   ("accept"%string, "application/dns-message"%string); ("accept-encoding"%string, "gzip, deflate, br"%string);
   ("accept-ranges"%string, "bytes"%string); ("access-control-allow-headers"%string, "cache-control"%string);
   ("access-control-allow-headers"%string, "content-type"%string);
   ("access-control-allow-origin"%string, "*"%string); ("cache-control"%string, "max-age=0"%string);
   ("cache-control"%string, "max-age=2592000"%string); ("cache-control"%string, "max-age=604800"%string);
   ("cache-control"%string, "no-cache"%string); ("cache-control"%string, "no-store"%string);
   ("cache-control"%string, "public, max-age=31536000"%string); ("content-encoding"%string, "br"%string);
   ("content-encoding"%string, "gzip"%string); ("content-type"%string, "application/dns-message"%string);
   ("content-type"%string, "application/javascript"%string); ("content-type"%string, "application/json"%string);
   ("content-type"%string, "application/x-www-form-urlencoded"%string); ("content-type"%string, "image/gif"%string);
   ("content-type"%string, "image/jpeg"%string); ("content-type"%string, "image/png"%string);
   ("content-type"%string, "text/css"%string); ("content-type"%string, "text/html; charset=utf-8"%string);
   ("content-type"%string, "text/plain"%string); ("content-type"%string, "text/plain;charset=utf-8"%string);
   ("range"%string, "bytes=0-"%string); ("strict-transport-security"%string, "max-age=31536000"%string);
   ("strict-transport-security"%string, "max-age=31536000; includesubdomains"%string);
   ("strict-transport-security"%string, "max-age=31536000; includesubdomains; preload"%string);
   ("vary"%string, "accept-encoding"%string); ("vary"%string, "origin"%string);
   ("x-content-type-options"%string, "nosniff"%string); ("x-xss-protection"%string, "1; mode=block"%string);
   (":status"%string, "100"%string); (":status"%string, "204"%string); (":status"%string, "206"%string);
   (":status"%string, "302"%string); (":status"%string, "400"%string); (":status"%string, "403"%string);
   (":status"%string, "421"%string); (":status"%string, "425"%string); (":status"%string, "500"%string);
   ("accept-language"%string, EmptyString); ("access-control-allow-credentials"%string, "FALSE"%string);
   ("access-control-allow-credentials"%string, "TRUE"%string); ("access-control-allow-headers"%string, "*"%string);
   ("access-control-allow-methods"%string, "get"%string);
   ("access-control-allow-methods"%string, "get, post, options"%string);
   ("access-control-allow-methods"%string, "options"%string);
   ("access-control-expose-headers"%string, "content-length"%string);
   ("access-control-request-headers"%string, "content-type"%string);
   ("access-control-request-method"%string, "get"%string); ("access-control-request-method"%string, "post"%string);
   ("alt-svc"%string, "clear"%string); ("authorization"%string, EmptyString);
   ("content-security-policy"%string, "script-src 'none'; object-src 'none'; base-uri 'none'"%string);
   ("early-data"%string, "1"%string); ("expect-ct"%string, EmptyString); ("forwarded"%string, EmptyString);
   ("if-range"%string, EmptyString); ("origin"%string, EmptyString); ("purpose"%string, "prefetch"%string);
   ("server"%string, EmptyString); ("timing-allow-origin"%string, "*"%string);
   ("upgrade-insecure-requests"%string, "1"%string); ("user-agent"%string, EmptyString);
   ("x-forwarded-for"%string, EmptyString); ("x-frame-options"%string, "deny"%string);
   ("x-frame-options"%string, "sameorigin"%string)].

(** The generated table's entry as this module's public view: a name and a value. *)
Definition view (e : string * string) : list Z * list Z := (literal e.1, literal e.2).

Definition static_view (index : Z) : list Z * list Z :=
  default ([], []) (view <$> zget WT_RFC9204_STATIC_TABLE index).

Definition wt_qpack_static_entry (index : Z) : outcome (list Z * list Z) :=
  if WT_QPACK_STATIC_TABLE_SIZE <=? index then Fail WT_ERR_LIMIT None else Ok (static_view index).

(** Equal lengths, then [memcmp]. *)
Definition same_bytes (a b : list Z) : bool := (zlen a =? zlen b) && bool_decide (a = b).

(** WT_ERR_CLOSED is the ordinary "not in the table". *)
Definition found_at (i : option nat) : outcome Z :=
  match i with Some i => Ok (Z.of_nat i) | None => Fail WT_ERR_CLOSED None end.

Definition wt_qpack_static_find (name value : list Z) : outcome Z :=
  found_at (first_index (fun e => same_bytes (literal e.1) name && same_bytes (literal e.2) value)
              WT_RFC9204_STATIC_TABLE).

Definition wt_qpack_static_find_name (name : list Z) : outcome Z :=
  found_at (first_index (fun e => same_bytes (literal e.1) name) WT_RFC9204_STATIC_TABLE).

(** ** Lemmas *)

Lemma same_bytes_true a b : same_bytes a b = true <-> a = b.
Proof.
  unfold same_bytes. rewrite andb_true_iff, Z.eqb_eq, bool_decide_eq_true. split; [tauto|by intros ->].
Qed.

Lemma table_size : length WT_RFC9204_STATIC_TABLE = 99%nat.
Proof. reflexivity. Qed.

Lemma static_view_lookup i e :
  WT_RFC9204_STATIC_TABLE !! i = Some e -> static_view (Z.of_nat i) = view e.
Proof.
  intros He. unfold static_view, zget. rewrite (proj2 (Z.ltb_ge _ 0)) by lia. by rewrite Nat2Z.id, He.
Qed.

Lemma literal_ok s : bytes_ok (literal s).
Proof.
  unfold literal. apply Forall_fmap, Forall_true. intros a. unfold is_u8. cbn.
  pose proof (Ascii.nat_ascii_bounded a). lia.
Qed.

Lemma literals_short : forallb (fun e => (zlen (literal e.1) <? 200) && (zlen (literal e.2) <? 200)) WT_RFC9204_STATIC_TABLE = true.
Proof. vm_compute. reflexivity. Qed.

(** Every entry of the table is well formed. *)
Lemma static_view_ok index :
  bytes_ok (static_view index).1 /\ bytes_ok (static_view index).2 /\
  zlen (static_view index).1 < 200 /\ zlen (static_view index).2 < 200.
Proof.
  unfold static_view. destruct (zget WT_RFC9204_STATIC_TABLE index) as [e|] eqn:E; cbn [fmap option_fmap option_map default].
  - unfold zget in E. destruct (index <? 0); [done|]. apply list_elem_of_lookup_2, list_elem_of_In in E.
    pose proof (proj1 (forallb_forall _ _) literals_short e E) as H. apply andb_true_iff in H as [H1 H2].
    apply Z.ltb_lt in H1, H2. unfold view; cbn. split_and!; try done; apply literal_ok.
  - cbn. split_and!; done || constructor.
Qed.

(** No two rows of the table are the same pair. *)
Lemma static_table_nodup : NoDup (view <$> WT_RFC9204_STATIC_TABLE).
Proof. apply (bool_decide_unpack _). vm_compute. exact I. Qed.

(** ** Theorem *)

(** A search for a name and a value answers an index exactly when the static table holds the pair there (so the pairs are distinct), and a search for a name answers the first index that has it; both report a miss exactly when there is none. *)
Lemma static_lookup_exact name value :
  (forall i, wt_qpack_static_find name value = Ok i <-> 0 <= i < 99 /\ wt_qpack_static_entry i = Ok (name, value)) /\
  (wt_qpack_static_find name value = Fail WT_ERR_CLOSED None \/ exists i, wt_qpack_static_find name value = Ok i) /\
  match wt_qpack_static_find_name name with
  | Ok i => 0 <= i < 99 /\ (static_view i).1 = name /\ forall j, 0 <= j < i -> (static_view j).1 <> name
  | Fail s e => s = WT_ERR_CLOSED /\ e = None /\ forall j, 0 <= j < 99 -> (static_view j).1 <> name
  end.
Proof.
  assert (Hentry : forall i, 0 <= i < 99 -> exists e, WT_RFC9204_STATIC_TABLE !! Z.to_nat i = Some e /\
            static_view i = view e).
  { intros i Hi. destruct (lookup_lt_is_Some_2 WT_RFC9204_STATIC_TABLE (Z.to_nat i)) as [e He]; [rewrite table_size; lia|].
    exists e. split; [done|]. rewrite <- (Z2Nat.id i) by lia. by apply static_view_lookup. }
  split_and!.
  - intros i. unfold wt_qpack_static_find, found_at.
    destruct (first_index _ _) as [k|] eqn:E.
    + pose proof (first_index_lt _ _ _ E) as Hlt. rewrite table_size in Hlt.
      apply first_index_Some in E as [(e & He & Hp) _]. apply andb_true_iff in Hp as [H1%same_bytes_true H2%same_bytes_true].
      split.
      * intros [= <-]. split; [lia|]. unfold wt_qpack_static_entry, WT_QPACK_STATIC_TABLE_SIZE. ztest.
        rewrite (static_view_lookup _ _ He). unfold view. by rewrite H1, H2.
      * intros [Hi Hv]. f_equal. unfold wt_qpack_static_entry, WT_QPACK_STATIC_TABLE_SIZE in Hv.
        rewrite (proj2 (Z.leb_gt _ _)) in Hv by lia. injection Hv as Hv.
        destruct (Hentry i Hi) as (e' & He' & Hve'). pose proof static_table_nodup as Hnd.
        assert (k = Z.to_nat i); [|lia]. eapply NoDup_lookup; [exact Hnd| |].
        -- rewrite list_lookup_fmap, He. cbn. reflexivity.
        -- rewrite list_lookup_fmap, He'. cbn. rewrite <- Hve', Hv. unfold view. by rewrite H1, H2.
    + split; [done|]. intros [Hi Hv]. exfalso. apply first_index_None in E. rewrite Forall_lookup in E.
      destruct (Hentry i Hi) as (e & He & Hve). specialize (E _ _ He). cbn in E.
      unfold wt_qpack_static_entry, WT_QPACK_STATIC_TABLE_SIZE in Hv. rewrite (proj2 (Z.leb_gt _ _)) in Hv by lia.
      injection Hv as Hv. rewrite Hve in Hv. unfold view in Hv. injection Hv as H1 H2.
      rewrite (proj2 (same_bytes_true _ _) H1), (proj2 (same_bytes_true _ _) H2) in E. done.
  - unfold wt_qpack_static_find, found_at. destruct (first_index _ _); eauto.
  - unfold wt_qpack_static_find_name, found_at. destruct (first_index _ _) as [k|] eqn:E.
    + pose proof (first_index_lt _ _ _ E) as Hlt. rewrite table_size in Hlt.
      apply first_index_Some in E as [(e & He & Hp%same_bytes_true) Hmin]. split; [lia|].
      rewrite (static_view_lookup _ _ He). split; [done|]. intros j Hj Hn.
      destruct (Hentry j ltac:(lia)) as (e' & He' & Hve'). specialize (Hmin (Z.to_nat j) e' ltac:(lia) He').
      rewrite Hve' in Hn. cbn in Hn. by rewrite (proj2 (same_bytes_true _ _) Hn) in Hmin.
    + split_and!; [done|done|]. intros j Hj Hn. apply first_index_None in E. rewrite Forall_lookup in E.
      destruct (Hentry j Hj) as (e & He & Hve). specialize (E _ _ He). cbn in E. rewrite Hve in Hn. cbn in Hn.
      by rewrite (proj2 (same_bytes_true _ _) Hn) in E.
Qed.
