(* ===== verification/QpackDynamic.v ===== *)
(** * The QPACK dynamic table: [src/http3/qpack_dynamic.c]

    The table as the source keeps it: a byte arena, live entries that point into it
    by offset, and the counters.  A name or a value given to an insertion may itself
    point into the arena, which the insertion moves; [bytes_arg] keeps that
    difference.  The theorem refines the arena to the history of the insertions
    with a window of it live. *)

From S2P Require Export Core.
#[local] Open Scope Z_scope.

Definition WT_QPACK_DYNAMIC_MAX_ENTRIES : Z := 32.
Definition WT_QPACK_DYNAMIC_MAX_BYTES : Z := 4096.
Definition WT_QPACK_DYNAMIC_ENTRY_OVERHEAD : Z := 32.

Record wt_qpack_dynamic_entry_meta := mk_meta {
  dm_absolute_index : Z;
  dm_offset : Z;
  dm_name_length : Z;
  dm_value_length : Z }.

(** [dt_entries] is the array up to [count]. *)
Record wt_qpack_dynamic_table := mk_table {
  dt_entries : list wt_qpack_dynamic_entry_meta;
  dt_bytes : list Z;
  dt_used : Z;
  dt_size : Z;
  dt_capacity : Z;
  dt_insert_count : Z;
  dt_dropped : Z }.

Definition dt_count (t : wt_qpack_dynamic_table) : Z := zlen (dt_entries t).

Definition wt_qpack_dynamic_init (capacity : Z) : wt_qpack_dynamic_table :=
  mk_table [] (replicate 4096 0) 0 0 capacity 0 0.

(** [memmove(bytes, bytes + gone, used - gone)]. *)
Definition compact (bytes : list Z) (gone used : Z) : list Z :=
  write_at bytes 0 (zslice gone (u64 (used - gone)) bytes).

Definition move_down (gone : Z) (e : wt_qpack_dynamic_entry_meta) : wt_qpack_dynamic_entry_meta :=
  mk_meta (dm_absolute_index e) (u32 (dm_offset e - u32 gone)) (dm_name_length e) (dm_value_length e).

Definition drop_oldest (t : wt_qpack_dynamic_table) : wt_qpack_dynamic_table :=
  match dt_entries t with
  | [] => t
  | oldest :: rest =>
      let entry_size := dm_name_length oldest + dm_value_length oldest + WT_QPACK_DYNAMIC_ENTRY_OVERHEAD in
      let gone := dm_name_length oldest + dm_value_length oldest in
      mk_table (move_down gone <$> rest) (compact (dt_bytes t) gone (dt_used t)) (u64 (dt_used t - gone))
               (u64 (dt_size t - entry_size)) (dt_capacity t) (dt_insert_count t) (u64 (dt_dropped t + 1))
  end.

(** [while (count != 0 && p(table)) drop_oldest(table)]: every turn drops an entry. *)
Fixpoint drop_while (fuel : nat) (p : wt_qpack_dynamic_table -> bool) (t : wt_qpack_dynamic_table) : wt_qpack_dynamic_table :=
  match fuel with
  | O => t
  | S fuel => if negb (dt_count t =? 0) && p t then drop_while fuel p (drop_oldest t) else t
  end.

Definition set_capacity (t : wt_qpack_dynamic_table) (capacity : Z) : wt_qpack_dynamic_table :=
  mk_table (dt_entries t) (dt_bytes t) (dt_used t) (dt_size t) capacity (dt_insert_count t) (dt_dropped t).

Definition wt_qpack_dynamic_set_capacity (t : wt_qpack_dynamic_table) (capacity : Z) : wt_qpack_dynamic_table :=
  let t := set_capacity t capacity in
  drop_while (length (dt_entries t)) (fun t => dt_capacity t <? dt_size t) t.

(** A pointer and a length: bytes elsewhere, or a view into this table's arena. *)
Inductive bytes_arg :=
  | External (bytes : list Z)
  | InArena (offset length : Z).

Definition arg_length (a : bytes_arg) : Z :=
  match a with External bytes => zlen bytes | InArena _ length => length end.

(** What the pointer reads, as the arena is now. *)
Definition arg_read (t : wt_qpack_dynamic_table) (a : bytes_arg) : list Z :=
  match a with External bytes => bytes | InArena offset length => zslice offset length (dt_bytes t) end.

Definition aliases_arena (a : bytes_arg) : bool :=
  match a with External _ => false | InArena _ length => negb (length =? 0) end.

(** [memcpy(bytes + at, arg, length)], when there is something to copy. *)
Definition copy_arg (t : wt_qpack_dynamic_table) (at_ : Z) (a : bytes_arg) : wt_qpack_dynamic_table :=
  if arg_length a =? 0 then t
  else mk_table (dt_entries t) (write_at (dt_bytes t) at_ (arg_read t a)) (dt_used t) (dt_size t)
                (dt_capacity t) (dt_insert_count t) (dt_dropped t).

(** A view into the arena is copied to the stack before anything is evicted. *)
Definition stage_args (t : wt_qpack_dynamic_table) (name value : bytes_arg) : bytes_arg * bytes_arg :=
  if aliases_arena name || aliases_arena value
  then (External (arg_read t name), External (arg_read t value))
  else (name, value).

(** The status and the absolute index, and the table. *)
Definition wt_qpack_dynamic_insert (t : wt_qpack_dynamic_table) (name value : bytes_arg) :
    outcome Z * wt_qpack_dynamic_table :=
  let name_length := arg_length name in
  let value_length := arg_length value in
  if (0xffff <? name_length) || (0xffff <? value_length) then (Fail WT_ERR_LIMIT None, t)
  else if u64 (u64 (SIZE_MAX - value_length) - WT_QPACK_DYNAMIC_ENTRY_OVERHEAD) <? name_length
  then (Fail WT_ERR_OVERFLOW None, t)
  else
    let entry_size := u64 (u64 (name_length + value_length) + WT_QPACK_DYNAMIC_ENTRY_OVERHEAD) in
    if dt_capacity t <? entry_size then (Fail WT_ERR_LIMIT None, t)
    else if WT_QPACK_DYNAMIC_MAX_ENTRIES <=? dt_count t then (Fail WT_ERR_LIMIT None, t)
    else if WT_QPACK_DYNAMIC_MAX_BYTES <? u64 (name_length + value_length) then (Fail WT_ERR_LIMIT None, t)
    else
      let needed := u64 (name_length + value_length) in
      let '(name, value) := stage_args t name value in
      let t := drop_while (length (dt_entries t)) (fun t => dt_capacity t <? u64 (dt_size t + entry_size)) t in
      if WT_QPACK_DYNAMIC_MAX_BYTES <? u64 (u64 (dt_used t + name_length) + value_length)
      then (Fail WT_ERR_LIMIT None, t)
      else
        let t := copy_arg t (dt_used t) name in
        let t := copy_arg t (u64 (dt_used t + name_length)) value in
        (Ok (dt_insert_count t),
         mk_table (dt_entries t ++ [mk_meta (dt_insert_count t) (u32 (dt_used t)) (u16 name_length) (u16 value_length)])
                  (dt_bytes t) (u64 (dt_used t + needed)) (u64 (dt_size t + entry_size)) (dt_capacity t)
                  (u64 (dt_insert_count t + 1)) (dt_dropped t)).

(** The name and the value of an entry, as views into the arena. *)
Definition wt_qpack_dynamic_entry (t : wt_qpack_dynamic_table) (absolute_index : Z) : outcome (bytes_arg * bytes_arg) :=
  if (absolute_index <? dt_dropped t) || (dt_insert_count t <=? absolute_index) then Fail WT_ERR_CLOSED None
  else
    let meta := default (mk_meta 0 0 0 0) (zget (dt_entries t) (u64 (absolute_index - dt_dropped t))) in
    Ok (InArena (dm_offset meta) (dm_name_length meta),
        InArena (u64 (dm_offset meta + dm_name_length meta)) (dm_value_length meta)).

(** ** The specification: a window of the history *)

(** A name and a value. *)
Definition table_entry : Type := list Z * list Z.

Definition entry_bytes (e : table_entry) : list Z := e.1 ++ e.2.
Definition entry_size (e : table_entry) : Z := zlen (entry_bytes e) + WT_QPACK_DYNAMIC_ENTRY_OVERHEAD.
Definition entries_size : list table_entry -> Z := zsum entry_size.
Definition entries_bytes (l : list table_entry) : list Z := concat (entry_bytes <$> l).

(** Every insertion ever made, how many are gone, and the capacity. *)
Record window := mk_window { wn_history : list table_entry; wn_dropped : nat; wn_capacity : Z }.

Definition wn_live (w : window) : list table_entry := drop (wn_dropped w) (wn_history w).

(** How many of the oldest entries have to go for the rest to fit in [room]. *)
Fixpoint evictions (room : Z) (l : list table_entry) : nat :=
  match l with
  | [] => O
  | e :: rest => if room <? entries_size (e :: rest) then S (evictions room rest) else O
  end.

Definition evict (room : Z) (w : window) : window :=
  mk_window (wn_history w) (wn_dropped w + evictions room (wn_live w)) (wn_capacity w).

(** The entry an absolute index names, forever. *)
Definition window_entry (w : window) (i : Z) : option table_entry :=
  if i <? Z.of_nat (wn_dropped w) then None else zget (wn_history w) i.

Definition window_insert (w : window) (e : table_entry) : outcome Z * window :=
  if (0xffff <? zlen e.1) || (0xffff <? zlen e.2) || (wn_capacity w <? entry_size e) ||
     (WT_QPACK_DYNAMIC_MAX_ENTRIES <=? zlen (wn_live w)) || (WT_QPACK_DYNAMIC_MAX_BYTES <? zlen (entry_bytes e))
  then (Fail WT_ERR_LIMIT None, w)
  else
    let w := evict (wn_capacity w - entry_size e) w in
    if WT_QPACK_DYNAMIC_MAX_BYTES <? zlen (entries_bytes (wn_live w)) + zlen (entry_bytes e)
    then (Fail WT_ERR_LIMIT None, w)
    else (Ok (zlen (wn_history w)), mk_window (wn_history w ++ [e]) (wn_dropped w) (wn_capacity w)).

Definition window_set_capacity (w : window) (capacity : Z) : window :=
  evict capacity (mk_window (wn_history w) (wn_dropped w) capacity).

(** ** The arena represents the window *)

Fixpoint layout (index offset : Z) (l : list table_entry) : list wt_qpack_dynamic_entry_meta :=
  match l with
  | [] => []
  | e :: l => mk_meta index offset (zlen e.1) (zlen e.2) :: layout (index + 1) (offset + zlen (entry_bytes e)) l
  end.

Record represents (t : wt_qpack_dynamic_table) (w : window) : Prop := {
  rep_entries : dt_entries t = layout (Z.of_nat (wn_dropped w)) 0 (wn_live w);
  rep_arena : zlen (dt_bytes t) = WT_QPACK_DYNAMIC_MAX_BYTES;
  rep_used : dt_used t = zlen (entries_bytes (wn_live w));
  rep_used_bound : dt_used t <= WT_QPACK_DYNAMIC_MAX_BYTES;
  rep_bytes : ztake (dt_used t) (dt_bytes t) = entries_bytes (wn_live w);
  rep_size : dt_size t = entries_size (wn_live w);
  rep_capacity : dt_capacity t = wn_capacity w;
  rep_inserted : dt_insert_count t = zlen (wn_history w);
  rep_history : zlen (wn_history w) < 2 ^ 64;
  rep_dropped : dt_dropped t = Z.of_nat (wn_dropped w);
  rep_window : (wn_dropped w <= length (wn_history w))%nat;
  rep_count : zlen (wn_live w) <= WT_QPACK_DYNAMIC_MAX_ENTRIES;
  rep_short : Forall (fun e => zlen e.1 <= 0xffff /\ zlen e.2 <= 0xffff) (wn_live w) }.

Lemma entries_bytes_cons e l : entries_bytes (e :: l) = entry_bytes e ++ entries_bytes l.
Proof. done. Qed.

Lemma entries_bytes_app l k : entries_bytes (l ++ k) = entries_bytes l ++ entries_bytes k.
Proof. unfold entries_bytes. by rewrite fmap_app, concat_app. Qed.

Lemma entries_size_bytes l : entries_size l = zlen (entries_bytes l) + WT_QPACK_DYNAMIC_ENTRY_OVERHEAD * zlen l.
Proof.
  induction l as [|e l IH]; [done|]. unfold entries_size in *. rewrite zsum_cons, IH, entries_bytes_cons.
  unfold entry_size. rewrite zlen_app, zlen_cons. unfold WT_QPACK_DYNAMIC_ENTRY_OVERHEAD. lia.
Qed.

Lemma zlen_layout i off l : zlen (layout i off l) = zlen l.
Proof. revert i off. induction l as [|e l IH]; intros i off; [done|]. cbn [layout]. by rewrite !zlen_cons, IH. Qed.

Lemma layout_app i off l k :
  layout i off (l ++ k) = layout i off l ++ layout (i + zlen l) (off + zlen (entries_bytes l)) k.
Proof.
  revert i off. induction l as [|e l IH]; intros i off; cbn [layout app].
  - rewrite !zlen_nil. by rewrite !Z.add_0_r.
  - rewrite IH, entries_bytes_cons, zlen_cons, zlen_app. do 3 f_equal; lia.
Qed.

Lemma layout_move_down gone i off l :
  0 <= gone <= off -> off + zlen (entries_bytes l) <= WT_QPACK_DYNAMIC_MAX_BYTES ->
  move_down gone <$> layout i off l = layout i (off - gone) l.
Proof.
  unfold WT_QPACK_DYNAMIC_MAX_BYTES. revert i off.
  induction l as [|e l IH]; intros i off Hg Hb; [done|]. cbn [layout fmap list_fmap].
  rewrite entries_bytes_cons, zlen_app in Hb. pose proof (zlen_nonneg (entry_bytes e)). pose proof (zlen_nonneg (entries_bytes l)).
  f_equal.
  - unfold move_down; cbn [dm_absolute_index dm_offset dm_name_length dm_value_length].
    rewrite (u32_small gone), u32_small by (unfold is_u32; lia). done.
  - change (move_down gone <$> layout (i + 1) (off + zlen (entry_bytes e)) l =
            layout (i + 1) (off - gone + zlen (entry_bytes e)) l). rewrite IH by lia. f_equal. lia.
Qed.

Lemma wn_live_cons w e rest :
  wn_live w = e :: rest ->
  (wn_dropped w < length (wn_history w))%nat /\
  wn_live (mk_window (wn_history w) (S (wn_dropped w)) (wn_capacity w)) = rest.
Proof.
  unfold wn_live; cbn [wn_history wn_dropped]. intros H.
  assert (Hlt : (wn_dropped w < length (wn_history w))%nat).
  { apply (f_equal length) in H. rewrite length_drop in H. cbn in H. lia. }
  split; [done|]. destruct (lookup_lt_is_Some_2 _ _ Hlt) as [x Hx].
  rewrite (drop_S _ _ _ Hx) in H. by injection H.
Qed.

Lemma compact_prefix bytes gone used :
  0 <= gone <= used -> used <= zlen bytes -> zlen bytes < 2 ^ 64 ->
  ztake (used - gone) (compact bytes gone used) = zdrop gone (ztake used bytes) /\
  zlen (compact bytes gone used) = zlen bytes.
Proof.
  intros Hg Hu Hb. unfold compact. rewrite u64_small by (unfold is_u64; lia).
  assert (Hz : zlen (zslice gone (used - gone) bytes) = used - gone) by (apply zlen_zslice; lia).
  split.
  - rewrite <- Hz at 1. rewrite <- (Z.add_0_l (zlen _)), ztake_write_at by lia. rewrite ztake_0. cbn [app].
    unfold zslice. rewrite <- (ztake_zdrop used bytes) at 1.
    assert (Hl : zlen (ztake used bytes) = used) by (apply zlen_ztake; lia).
    assert (Hd : zdrop gone (ztake used bytes ++ zdrop used bytes) = zdrop gone (ztake used bytes) ++ zdrop used bytes).
    { unfold zdrop at 1 3. rewrite drop_app_le; [done|]. unfold zlen in Hl. lia. }
    rewrite Hd. apply ztake_app_exact. rewrite zlen_zdrop; lia.
  - apply zlen_write_at; lia.
Qed.

Lemma represents_drop t w e rest :
  represents t w -> wn_live w = e :: rest ->
  represents (drop_oldest t) (mk_window (wn_history w) (S (wn_dropped w)) (wn_capacity w)).
Proof.
  intros [He Ha Hu Hub Hb Hs Hc Hi Hh Hd Hw Hn Hsh] Hl. destruct (wn_live_cons w e rest Hl) as [Hlt Hrest].
  rewrite Hl in *. cbn [layout] in He. rewrite zlen_cons in Hn. apply Forall_cons in Hsh as [_ Hsh].
  rewrite entries_bytes_cons in Hu, Hb. rewrite zlen_app in Hu.
  assert (Hg : zlen e.1 + zlen e.2 = zlen (entry_bytes e)) by (unfold entry_bytes; by rewrite zlen_app).
  pose proof (zlen_nonneg (entry_bytes e)). pose proof (zlen_nonneg (entries_bytes rest)).
  unfold drop_oldest. rewrite He. cbn [dm_name_length dm_value_length]. rewrite Hg.
  unfold WT_QPACK_DYNAMIC_MAX_BYTES, WT_QPACK_DYNAMIC_MAX_ENTRIES, WT_QPACK_DYNAMIC_ENTRY_OVERHEAD in *.
  destruct (compact_prefix (dt_bytes t) (zlen (entry_bytes e)) (dt_used t)) as [Hcb Hcl]; [lia|lia|lia|].
  assert (Hsz : dt_size t = zlen (entry_bytes e) + 32 + entries_size rest).
  { rewrite Hs. unfold entries_size. by rewrite zsum_cons. }
  pose proof (entries_size_bytes rest) as Her. unfold WT_QPACK_DYNAMIC_ENTRY_OVERHEAD in Her. pose proof (zlen_nonneg rest).
  unfold zlen in Hh. 
  split; rewrite ?Hrest; cbn [dt_entries dt_bytes dt_used dt_size dt_capacity dt_insert_count dt_dropped wn_history wn_dropped wn_capacity]; try done; try lia.
  - rewrite layout_move_down by (unfold WT_QPACK_DYNAMIC_MAX_BYTES; lia). f_equal; lia.
  - unfold WT_QPACK_DYNAMIC_MAX_BYTES; lia.
  - rewrite u64_small by (unfold is_u64; lia). lia.
  - rewrite u64_small by (unfold is_u64; lia). unfold WT_QPACK_DYNAMIC_MAX_BYTES; lia.
  - rewrite u64_small by (unfold is_u64; lia). rewrite Hcb, Hb. by apply zdrop_app_exact.
  - rewrite u64_small by (unfold is_u64; lia). lia.
  - rewrite u64_small by (unfold is_u64; lia). lia.
  - unfold WT_QPACK_DYNAMIC_MAX_ENTRIES. lia.
Qed.

Lemma evictions_le room l : (evictions room l <= length l)%nat.
Proof. induction l as [|e l IH]; cbn [evictions length]; [lia|]. destruct (_ <? _); lia. Qed.

(** The eviction loop, whose condition asks whether the live entries exceed [room]. *)
Lemma represents_drop_while p room t w :
  represents t w ->
  (forall t' w', represents t' w' -> wn_capacity w' = wn_capacity w ->
     wn_history w' = wn_history w -> p t' = (room <? entries_size (wn_live w'))) ->
  represents (drop_while (length (dt_entries t)) p t) (evict room w).
Proof.
  intros Hr Hp. assert (Hlen : length (dt_entries t) = length (wn_live w)).
  { pose proof (rep_entries _ _ Hr) as He. apply (f_equal zlen) in He. rewrite zlen_layout in He. unfold zlen in He. lia. }
  rewrite Hlen. clear Hlen. remember (wn_live w) as live eqn:Hlive. symmetry in Hlive.
  revert t w Hr Hp Hlive. induction live as [|e rest IH]; intros t w Hr Hp Hlive; cbn [length drop_while].
  - unfold evict. rewrite Hlive. cbn [evictions]. rewrite Nat.add_0_r. by destruct w.
  - assert (Hcount : (dt_count t =? 0) = false).
    { unfold dt_count. rewrite (rep_entries _ _ Hr), zlen_layout, Hlive, zlen_cons. pose proof (zlen_nonneg rest).
      apply Z.eqb_neq. lia. }
    rewrite Hcount. cbn [negb andb]. rewrite (Hp t w) by done. unfold evict. rewrite Hlive. cbn [evictions].
    destruct (room <? entries_size (e :: rest)) eqn:E.
    + pose proof (represents_drop t w e rest Hr Hlive) as Hr'.
      destruct (wn_live_cons w e rest Hlive) as [_ Hrest].
      specialize (IH _ _ Hr' ltac:(intros; by apply Hp) Hrest). unfold evict in IH. rewrite Hrest in IH.
      cbn [wn_history wn_dropped wn_capacity] in IH. by rewrite Nat.add_succ_r.
    + rewrite Nat.add_0_r. by destruct w.
Qed.

(** ** Lookups *)

Lemma layout_lookup i off l k e :
  l !! k = Some e ->
  layout i off l !! k = Some (mk_meta (i + Z.of_nat k) (off + zlen (entries_bytes (take k l))) (zlen e.1) (zlen e.2)).
Proof.
  revert i off k. induction l as [|x l IH]; intros i off [|k] H; cbn in H; [done|done| |].
  - injection H as ->. cbn [layout lookup list_lookup take]. do 2 f_equal; [lia|]. change (zlen (entries_bytes [])) with 0. lia.
  - cbn [layout lookup list_lookup take]. change (layout (i + 1) (off + zlen (entry_bytes x)) l !! k = Some
      (mk_meta (i + Z.of_nat (S k)) (off + zlen (entries_bytes (x :: take k l))) (zlen e.1) (zlen e.2))).
    rewrite (IH _ _ _ H), entries_bytes_cons, zlen_app. do 2 f_equal; lia.
Qed.

Lemma zslice_middle {A} (a b c : list A) off n : off = zlen a -> n = zlen b -> zslice off n (a ++ b ++ c) = b.
Proof. intros -> ->. unfold zslice. rewrite zdrop_app_exact by done. by apply ztake_app_exact. Qed.

(** The views an entry is returned as read its name and its value. *)
Lemma represents_entry t w i :
  represents t w -> 0 <= i ->
  match window_entry w i with
  | None => wt_qpack_dynamic_entry t i = Fail WT_ERR_CLOSED None
  | Some e =>
      exists off, wt_qpack_dynamic_entry t i = Ok (InArena off (zlen e.1), InArena (off + zlen e.1) (zlen e.2)) /\
        arg_read t (InArena off (zlen e.1)) = e.1 /\ arg_read t (InArena (off + zlen e.1) (zlen e.2)) = e.2
  end.
Proof.
  intros Hr Hi. unfold window_entry, wt_qpack_dynamic_entry. rewrite (rep_dropped _ _ Hr), (rep_inserted _ _ Hr).
  destruct (Z.ltb_spec i (Z.of_nat (wn_dropped w))); [done|]. cbn [orb]. unfold zget at 1. ztest.
  destruct (wn_history w !! Z.to_nat i) as [e|] eqn:He.
  2: { apply lookup_ge_None in He. unfold zlen. ztest. done. }
  assert (Hlt : (Z.to_nat i < length (wn_history w))%nat) by by eapply lookup_lt_Some.
  pose proof (rep_history _ _ Hr) as Hh. assert (Hz : i < zlen (wn_history w)) by (unfold zlen; lia). ztest.
  assert (Hlive : wn_live w !! (Z.to_nat i - wn_dropped w)%nat = Some e).
  { unfold wn_live. rewrite lookup_drop. rewrite <- He. f_equal. lia. }
  set (k := (Z.to_nat i - wn_dropped w)%nat) in *.
  assert (Hmeta : zget (dt_entries t) (u64 (i - Z.of_nat (wn_dropped w))) =
            Some (mk_meta (Z.of_nat (wn_dropped w) + Z.of_nat k) (0 + zlen (entries_bytes (take k (wn_live w)))) (zlen e.1) (zlen e.2))).
  { rewrite u64_small by (unfold is_u64; lia). unfold zget. ztest. rewrite (rep_entries _ _ Hr).
    replace (Z.to_nat (i - Z.of_nat (wn_dropped w))) with k by lia. by apply layout_lookup. }
  rewrite Hmeta, Z.add_0_l. cbn [default id dm_offset dm_name_length dm_value_length].
  set (before := entries_bytes (take k (wn_live w))).
  assert (Hsplit : exists c, dt_bytes t = before ++ e.1 ++ e.2 ++ c).
  { pose proof (rep_bytes _ _ Hr) as Hb. rewrite <- (take_drop_middle _ _ _ Hlive), entries_bytes_app, entries_bytes_cons in Hb.
    exists (entries_bytes (drop (S k) (wn_live w)) ++ zdrop (dt_used t) (dt_bytes t)).
    rewrite <- (ztake_zdrop (dt_used t) (dt_bytes t)) at 1. rewrite Hb. unfold entry_bytes. by rewrite <- !app_assoc. }
  destruct Hsplit as [c Hc]. pose proof (rep_arena _ _ Hr) as Ha. unfold WT_QPACK_DYNAMIC_MAX_BYTES in Ha.
  assert (Hfit : zlen before + zlen e.1 + zlen e.2 <= 4096) by (rewrite Hc, !zlen_app in Ha; pose proof (zlen_nonneg c); lia).
  pose proof (zlen_nonneg before). pose proof (zlen_nonneg e.1). pose proof (zlen_nonneg e.2).
  exists (zlen before). rewrite u64_small by (unfold is_u64; lia). split; [done|]. cbn [arg_read]. rewrite Hc.
  split; [by apply zslice_middle|]. rewrite (app_assoc before e.1). apply zslice_middle; [|done]. by rewrite zlen_app.
Qed.

Lemma represents_lookup t w i :
  represents t w -> 0 <= i ->
  match wt_qpack_dynamic_entry t i with
  | Ok (name, value) => Some (arg_read t name, arg_read t value)
  | Fail _ _ => None
  end = window_entry w i.
Proof.
  intros Hr Hi. pose proof (represents_entry t w i Hr Hi) as H. destruct (window_entry w i) as [[n v]|].
  - destruct H as (off & -> & H1 & H2). by rewrite H1, H2.
  - by rewrite H.
Qed.

(** ** Changing the capacity *)

Lemma represents_set_capacity t w capacity :
  represents t w -> represents (wt_qpack_dynamic_set_capacity t capacity) (window_set_capacity w capacity).
Proof.
  intros Hr. unfold wt_qpack_dynamic_set_capacity, window_set_capacity.
  apply (represents_drop_while _ capacity (set_capacity t capacity) (mk_window (wn_history w) (wn_dropped w) capacity)).
  - destruct Hr. by split.
  - intros t' w' Hr' Hc _. by rewrite (rep_capacity _ _ Hr'), (rep_size _ _ Hr'), Hc.
Qed.

(** ** Inserting *)

(** An argument that reads [bs], whether it lies in the arena or not. *)
Definition reads (t : wt_qpack_dynamic_table) (a : bytes_arg) (bs : list Z) : Prop :=
  arg_read t a = bs /\ arg_length a = zlen bs.

Lemma reads_external t bs : reads t (External bs) bs.
Proof. done. Qed.

(** After staging, both arguments read the same bytes from any table. *)
Lemma stage_reads t name value n v t' :
  reads t name n -> reads t value v ->
  reads t' (stage_args t name value).1 n /\ reads t' (stage_args t name value).2 v /\
  forall t'', arg_read t'' (stage_args t name value).1 = n /\ arg_read t'' (stage_args t name value).2 = v.
Proof.
  intros [Hn Hnl] [Hv Hvl]. unfold stage_args.
  assert (Hno : forall a bs, aliases_arena a = false -> arg_read t a = bs -> forall t', arg_read t' a = bs).
  { intros [bs|off len] bs'; cbn; [done|]. rewrite negb_false_iff, Z.eqb_eq. intros -> H t2. by unfold zslice, ztake in *. }
  destruct (aliases_arena name) eqn:En; cbn [orb fst snd]; [by rewrite Hn, Hv|].
  destruct (aliases_arena value) eqn:Ev; cbn [fst snd]; [by rewrite Hn, Hv|].
  unfold reads. split_and!; eauto.
Qed.

Lemma copy_arg_spec t at_ a bs :
  arg_read t a = bs -> arg_length a = zlen bs ->
  0 <= at_ -> at_ + zlen bs <= zlen (dt_bytes t) ->
  copy_arg t at_ a = mk_table (dt_entries t) (write_at (dt_bytes t) at_ bs) (dt_used t) (dt_size t)
                       (dt_capacity t) (dt_insert_count t) (dt_dropped t).
Proof.
  intros Hr Hl Ha Hb. unfold copy_arg. rewrite Hl, Hr. destruct (Z.eqb_spec (zlen bs) 0) as [H|H]; [|done].
  apply zlen_0_nil in H. subst bs. rewrite H. destruct t; cbn [dt_bytes dt_entries dt_used dt_size dt_capacity dt_insert_count dt_dropped]. f_equal.
  unfold write_at. rewrite zlen_nil, Z.add_0_r. cbn [app]. by rewrite ztake_zdrop.
Qed.

(** Appending an entry to a table that has the room. *)
Lemma represents_append t w e :
  represents t w -> zlen e.1 <= 0xffff -> zlen e.2 <= 0xffff ->
  zlen (wn_live w) < WT_QPACK_DYNAMIC_MAX_ENTRIES ->
  zlen (entries_bytes (wn_live w)) + zlen (entry_bytes e) <= WT_QPACK_DYNAMIC_MAX_BYTES ->
  zlen (wn_history w) + 1 < 2 ^ 64 ->
  represents
    (mk_table (dt_entries t ++ [mk_meta (dt_insert_count t) (u32 (dt_used t)) (u16 (zlen e.1)) (u16 (zlen e.2))])
       (write_at (dt_bytes t) (dt_used t) (entry_bytes e)) (u64 (dt_used t + zlen (entry_bytes e)))
       (u64 (dt_size t + entry_size e)) (dt_capacity t) (u64 (dt_insert_count t + 1)) (dt_dropped t))
    (mk_window (wn_history w ++ [e]) (wn_dropped w) (wn_capacity w)).
Proof.
  intros [He Ha Hu Hub Hb Hs Hc Hi Hh Hd Hw Hn Hsh] H1 H2 Hcnt Hfit Hmax.
  assert (Hlive : wn_live (mk_window (wn_history w ++ [e]) (wn_dropped w) (wn_capacity w)) = wn_live w ++ [e])
    by (unfold wn_live; cbn [wn_history wn_dropped]; by apply drop_app_le).
  pose proof (zlen_nonneg (entry_bytes e)). pose proof (zlen_nonneg (entries_bytes (wn_live w))).
  pose proof (zlen_nonneg e.1). pose proof (zlen_nonneg e.2). pose proof (zlen_nonneg (wn_live w)). pose proof (zlen_nonneg (wn_history w)).
  pose proof (entries_size_bytes (wn_live w)) as Hsz. rewrite Hs, Hu in *.
  unfold WT_QPACK_DYNAMIC_MAX_BYTES, WT_QPACK_DYNAMIC_MAX_ENTRIES in *.
  assert (Hone : entries_bytes [e] = entry_bytes e) by (unfold entries_bytes; cbn [fmap list_fmap concat]; by rewrite app_nil_r).
  assert (Hes : entry_size e = zlen (entry_bytes e) + 32) by done. unfold WT_QPACK_DYNAMIC_ENTRY_OVERHEAD in Hsz.
  split; rewrite ?Hlive; cbn [dt_entries dt_bytes dt_used dt_size dt_capacity dt_insert_count dt_dropped wn_history wn_dropped wn_capacity];
    rewrite ?entries_bytes_app, ?Hone, ?zlen_app; try (unfold WT_QPACK_DYNAMIC_MAX_BYTES; lia).
  - rewrite layout_app, He. f_equal. cbn [layout]. unfold u16. rewrite !Z.mod_small, u32_small by (unfold is_u32; lia).
    assert (Hidx : zlen (wn_history w) = Z.of_nat (wn_dropped w) + zlen (wn_live w))
      by (unfold wn_live, zlen; rewrite length_drop; lia).
    do 2 f_equal; lia.
  - rewrite zlen_write_at by lia. done.
  - rewrite u64_small by (unfold is_u64; lia). lia.
  - rewrite u64_small by (unfold is_u64; lia). unfold WT_QPACK_DYNAMIC_MAX_BYTES. lia.
  - rewrite u64_small by (unfold is_u64; lia). rewrite ztake_write_at by lia. by rewrite Hb.
  - rewrite u64_small by (unfold is_u64; lia). unfold entries_size. rewrite zsum_app, zsum_cons, zsum_nil. unfold entries_size in *. lia.
  - rewrite zlen_cons, zlen_nil, u64_small by (unfold is_u64; lia). lia.
  - rewrite zlen_cons, zlen_nil. lia.
  - rewrite length_app. lia.
  - rewrite zlen_cons, zlen_nil. unfold WT_QPACK_DYNAMIC_MAX_ENTRIES. lia.
  - apply Forall_app. split; [done|]. by apply Forall_singleton.
Qed.

Lemma represents_evicting t w e :
  represents t w -> entry_size e <= wn_capacity w -> zlen (entry_bytes e) <= WT_QPACK_DYNAMIC_MAX_BYTES ->
  represents (drop_while (length (dt_entries t)) (fun t => dt_capacity t <? u64 (dt_size t + entry_size e)) t)
             (evict (wn_capacity w - entry_size e) w).
Proof.
  intros Hr Hcap Hfit. apply represents_drop_while; [done|]. intros t' w' Hr' Hc _.
  rewrite (rep_capacity _ _ Hr'), (rep_size _ _ Hr'), Hc.
  pose proof (entries_size_bytes (wn_live w')) as Hsz. pose proof (rep_used _ _ Hr'). pose proof (rep_used_bound _ _ Hr').
  pose proof (rep_count _ _ Hr'). pose proof (zlen_nonneg (wn_live w')). pose proof (zlen_nonneg (entry_bytes e)).
  pose proof (zlen_nonneg (entries_bytes (wn_live w'))).
  unfold entry_size, WT_QPACK_DYNAMIC_MAX_BYTES, WT_QPACK_DYNAMIC_MAX_ENTRIES, WT_QPACK_DYNAMIC_ENTRY_OVERHEAD in *.
  rewrite u64_small by (unfold is_u64; lia). apply eq_true_iff_eq. rewrite !Z.ltb_lt. lia.
Qed.

Lemma evict_count room w : zlen (wn_live (evict room w)) <= zlen (wn_live w).
Proof. unfold wn_live, evict, zlen; cbn. rewrite !length_drop. lia. Qed.

Lemma represents_insert t w name value n v :
  represents t w -> reads t name n -> reads t value v -> zlen (wn_history w) + 1 < 2 ^ 64 ->
  (wt_qpack_dynamic_insert t name value).1 = (window_insert w (n, v)).1 /\
  represents (wt_qpack_dynamic_insert t name value).2 (window_insert w (n, v)).2.
Proof.
  intros Hr Hn Hv Hmax. unfold wt_qpack_dynamic_insert, window_insert. cbn [fst snd].
  rewrite (proj2 Hn), (proj2 Hv). unfold dt_count. rewrite (rep_entries _ _ Hr), zlen_layout, <- (rep_entries _ _ Hr).
  rewrite (rep_capacity _ _ Hr). pose proof (zlen_nonneg n). pose proof (zlen_nonneg v).
  destruct (0xffff <? zlen n) eqn:E1; cbn [orb fst snd]; [done|].
  destruct (0xffff <? zlen v) eqn:E2; cbn [orb fst snd]; [done|]. apply Z.ltb_ge in E1, E2.
  set (e := (n, v)). assert (Heb : zlen n + zlen v = zlen (entry_bytes e)) by (unfold entry_bytes; cbn; by rewrite zlen_app).
  assert (Hes : zlen (entry_bytes e) + WT_QPACK_DYNAMIC_ENTRY_OVERHEAD = entry_size e) by done.
  rewrite !(u64_small (zlen n + zlen v)) by (unfold is_u64; lia). rewrite Heb.
  rewrite (u64_small (zlen (entry_bytes e) + _)) by (unfold is_u64, WT_QPACK_DYNAMIC_ENTRY_OVERHEAD; lia). rewrite Hes.
  unfold SIZE_MAX, U64_MAX. rewrite (u64_small (2 ^ 64 - 1 - zlen v)) by (unfold is_u64; lia).
  rewrite (u64_small (_ - WT_QPACK_DYNAMIC_ENTRY_OVERHEAD)) by (unfold is_u64, WT_QPACK_DYNAMIC_ENTRY_OVERHEAD; lia).
  rewrite (proj2 (Z.ltb_ge _ (zlen n))) by (unfold WT_QPACK_DYNAMIC_ENTRY_OVERHEAD; lia).
  destruct (wn_capacity w <? entry_size e) eqn:E3; cbn [orb]; [done|].
  destruct (WT_QPACK_DYNAMIC_MAX_ENTRIES <=? zlen (wn_live w)) eqn:E4; cbn [orb]; [done|].
  destruct (WT_QPACK_DYNAMIC_MAX_BYTES <? zlen (entry_bytes e)) eqn:E5; cbn [orb]; [done|].
  apply Z.ltb_ge in E3, E5. apply Z.leb_gt in E4.
  pose proof (represents_evicting t w e Hr E3 E5) as Hr'.
  set (t' := drop_while _ _ t) in *. set (w' := evict _ w) in *.
  destruct (stage_reads t name value n v t' Hn Hv) as ([_ Hl1] & [_ Hl2] & Hread).
  destruct (stage_args t name value) as [name' value']; cbn [fst snd] in Hl1, Hl2, Hread.
  pose proof (rep_used_bound _ _ Hr'). pose proof (rep_arena _ _ Hr').
  pose proof (zlen_nonneg (entries_bytes (wn_live w'))). unfold WT_QPACK_DYNAMIC_MAX_BYTES in *.
  rewrite (rep_used _ _ Hr') in *. rewrite !(u64_small (zlen (entries_bytes (wn_live w')) + zlen n)) by (unfold is_u64; lia).
  rewrite (u64_small (_ + zlen v)) by (unfold is_u64; lia). rewrite <- Z.add_assoc, Heb.
  destruct (4096 <? _) eqn:E6; cbn [fst snd]; [done|]. apply Z.ltb_ge in E6.
  rewrite (copy_arg_spec t' _ name' n) by (try apply Hread; lia || done).
  cbn [dt_used dt_insert_count dt_entries dt_bytes dt_size dt_capacity dt_dropped]. rewrite (rep_used _ _ Hr').
  rewrite !(u64_small (zlen (entries_bytes (wn_live w')) + zlen n)) by (unfold is_u64; lia).
  rewrite (copy_arg_spec _ _ value' v) by (try apply Hread; cbn [dt_bytes]; rewrite ?zlen_write_at; lia || done).
  cbn [dt_used dt_insert_count dt_entries dt_bytes dt_size dt_capacity dt_dropped]. 
  split; [by rewrite (rep_inserted _ _ Hr')|].
  rewrite write_at_app by lia. rewrite <- (rep_used _ _ Hr').
  apply (represents_append t' w' e); try done.
  assert (zlen (wn_live w') <= zlen (wn_live w)) by apply evict_count. lia.
Qed.

(** ** Theorem *)

Inductive table_event :=
  | Insert (name value : list Z)
  | InsertNamed (index : Z) (value : list Z)   (** the name of an entry of the table *)
  | Duplicate (index : Z)
  | SetCapacity (capacity : Z).

Definition table_step (t : wt_qpack_dynamic_table) (e : table_event) : outcome Z * wt_qpack_dynamic_table :=
  match e with
  | Insert name value => wt_qpack_dynamic_insert t (External name) (External value)
  | InsertNamed index value =>
      match wt_qpack_dynamic_entry t index with
      | Ok (name, _) => wt_qpack_dynamic_insert t name (External value)
      | Fail s c => (Fail s c, t)
      end
  | Duplicate index =>
      match wt_qpack_dynamic_entry t index with
      | Ok (name, value) => wt_qpack_dynamic_insert t name value
      | Fail s c => (Fail s c, t)
      end
  | SetCapacity capacity => (Ok 0, wt_qpack_dynamic_set_capacity t capacity)
  end.

Definition window_step (w : window) (e : table_event) : outcome Z * window :=
  match e with
  | Insert name value => window_insert w (name, value)
  | InsertNamed index value =>
      match window_entry w index with
      | Some (name, _) => window_insert w (name, value)
      | None => (Fail WT_ERR_CLOSED None, w)
      end
  | Duplicate index =>
      match window_entry w index with
      | Some entry => window_insert w entry
      | None => (Fail WT_ERR_CLOSED None, w)
      end
  | SetCapacity capacity => (Ok 0, window_set_capacity w capacity)
  end.

(** The answers of a run and the state it ends in. *)
Fixpoint run_events {S} (step : S -> table_event -> outcome Z * S) (es : list table_event) (s : S) : list (outcome Z) * S :=
  match es with
  | [] => ([], s)
  | e :: es => let '(o, s) := step s e in let '(os, s) := run_events step es s in (o :: os, s)
  end.

Definition event_ok (e : table_event) : Prop :=
  match e with InsertNamed i _ | Duplicate i => 0 <= i | _ => True end.

Lemma represents_step t w e :
  represents t w -> event_ok e -> zlen (wn_history w) + 1 < 2 ^ 64 ->
  (table_step t e).1 = (window_step w e).1 /\ represents (table_step t e).2 (window_step w e).2 /\
  zlen (wn_history (window_step w e).2) <= zlen (wn_history w) + 1.
Proof.
  intros Hr He Hmax.
  assert (Hins : forall x, zlen (wn_history (window_insert w x).2) <= zlen (wn_history w) + 1).
  { intros x. unfold window_insert. case_match; cbn [snd]; [lia|]. case_match; cbn [snd]; cbn; [lia|].
    rewrite zlen_app, zlen_cons, zlen_nil. lia. }
  destruct e as [n v|i v|i|c]; cbn [table_step window_step].
  - destruct (represents_insert t w (External n) (External v) n v Hr (reads_external _ _) (reads_external _ _) Hmax).
    split_and!; auto.
  - pose proof (represents_entry t w i Hr He) as Hent. destruct (window_entry w i) as [[n v']|].
    + destruct Hent as (off & -> & H1 & H2). cbn [fst snd] in *.
      destruct (represents_insert t w (InArena off (zlen n)) (External v) n v Hr (conj H1 eq_refl) (reads_external _ _) Hmax).
      split_and!; auto.
    + rewrite Hent. cbn. split_and!; [done|done|lia].
  - pose proof (represents_entry t w i Hr He) as Hent. destruct (window_entry w i) as [[n v]|].
    + destruct Hent as (off & -> & H1 & H2). cbn [fst snd] in *.
      destruct (represents_insert t w (InArena off (zlen n)) (InArena (off + zlen n) (zlen v)) n v Hr (conj H1 eq_refl) (conj H2 eq_refl) Hmax).
      split_and!; auto.
    + rewrite Hent. cbn. split_and!; [done|done|lia].
  - cbn. split_and!; [done|by apply represents_set_capacity|lia].
Qed.

Lemma represents_init capacity :
  represents (wt_qpack_dynamic_init capacity) (mk_window [] 0 capacity).
Proof. split; try done; cbn; lia || constructor. Qed.

(** C11. The dynamic table is a byte arena that is compacted on eviction, with offsets that
    are moved down and arguments that may point into the arena itself. Over any sequence of
    insertions, insertions by name reference, duplications and capacity changes it answers,
    status for status, as an abstract window of (name, value) pairs with first-in first-out
    eviction, and afterwards every absolute index reads the same name and value as the
    window has, or is refused in both; the arena stays within 4096 bytes and 32 entries. *)
Theorem dynamic_table_refines_history capacity es :
  Forall event_ok es -> zlen es < 2 ^ 63 ->
  let concrete := run_events table_step es (wt_qpack_dynamic_init capacity) in
  let abstract := run_events window_step es (mk_window [] 0 capacity) in
  concrete.1 = abstract.1 /\
  (zlen (entries_bytes (wn_live abstract.2)) <= WT_QPACK_DYNAMIC_MAX_BYTES /\
   zlen (wn_live abstract.2) <= WT_QPACK_DYNAMIC_MAX_ENTRIES) /\
  forall i, 0 <= i ->
    match wt_qpack_dynamic_entry concrete.2 i with
    | Ok (name, value) => Some (arg_read concrete.2 name, arg_read concrete.2 value)
    | Fail _ _ => None
    end = window_entry abstract.2 i.
Proof.
  intros Hok Hlen.
  assert (H : forall es t w, Forall event_ok es -> represents t w -> zlen (wn_history w) + zlen es < 2 ^ 63 ->
            (run_events table_step es t).1 = (run_events window_step es w).1 /\
            represents (run_events table_step es t).2 (run_events window_step es w).2).
  { clear. intros es. induction es as [|e es IH]; intros t w Hok Hr Hlen; [done|].
    apply Forall_cons in Hok as [He Hok]. rewrite zlen_cons in Hlen. pose proof (zlen_nonneg es).
    destruct (represents_step t w e Hr He ltac:(lia)) as (Ho & Hr' & Hz). cbn [run_events].
    destruct (table_step t e) as [o t'], (window_step w e) as [o' w']. cbn [fst snd] in *. subst o'.
    destruct (IH t' w' Hok Hr' ltac:(lia)) as [Hos Hrs].
    destruct (run_events table_step es t') as [os t2], (run_events window_step es w') as [os' w2]. cbn [fst snd] in *.
    split; [by rewrite Hos|done]. }
  destruct (H es _ _ Hok (represents_init capacity) ltac:(cbn; rewrite zlen_nil; lia)) as [Hos Hr].
  cbv zeta. split_and!; [done| |by apply rep_count with (t := (run_events table_step es (wt_qpack_dynamic_init capacity)).2)|].
  - rewrite <- (rep_used _ _ Hr). apply (rep_used_bound _ _ Hr).
  - intros i Hi. by apply represents_lookup.
Qed.

Lemma dynamic_table_refines_history_witness :
  let es := [Insert [1; 2] [3]; Insert [4] [5; 6]; Duplicate 0; InsertNamed 1 [7]] in
  let concrete := run_events table_step es (wt_qpack_dynamic_init 80) in
  let abstract := run_events window_step es (mk_window [] 0 80) in
  concrete.1 = abstract.1 /\
  (zlen (entries_bytes (wn_live abstract.2)) <= WT_QPACK_DYNAMIC_MAX_BYTES /\
   zlen (wn_live abstract.2) <= WT_QPACK_DYNAMIC_MAX_ENTRIES) /\
  forall i, 0 <= i ->
    match wt_qpack_dynamic_entry concrete.2 i with
    | Ok (name, value) => Some (arg_read concrete.2 name, arg_read concrete.2 value)
    | Fail _ _ => None
    end = window_entry abstract.2 i.
Proof.
  apply (dynamic_table_refines_history 80 [Insert [1; 2] [3]; Insert [4] [5; 6]; Duplicate 0; InsertNamed 1 [7]]).
  - repeat constructor; cbn; lia.
  - done.
Defined.

(** A duplicate of the oldest entry, in a table where its insertion evicts that very entry. *)
Example duplicate_of_the_evicted :
  let '(os, t) := run_events table_step [Insert [1; 2] [3]; Insert [4] [5; 6]; Duplicate 0] (wt_qpack_dynamic_init 80) in
  os = [Ok 0; Ok 1; Ok 2] /\ dt_dropped t = 1 /\
  match wt_qpack_dynamic_entry t 2 with
  | Ok (name, value) => (arg_read t name, arg_read t value) = ([1; 2], [3])
  | Fail _ _ => False
  end.
Proof. vm_compute. split_and!; reflexivity. Qed.

(** A full table refuses an insertion that would have evicted: thirty-two entries are
    the bound, whatever room an eviction would make. *)
Example full_table_refuses :
  let es := repeat (Insert [] []) 32 in
  let '(_, t) := run_events table_step es (wt_qpack_dynamic_init 1024) in
  (wt_qpack_dynamic_insert t (External []) (External [])).1 = Fail WT_ERR_LIMIT None /\
  dt_size t = dt_capacity t.
Proof. vm_compute. split; reflexivity. Qed.
