(* ===== verification/QpackStreams.v ===== *)
(** * QPACK's instruction streams and section prefix:
    [src/http3/qpack_header_prefix.c], [qpack_encoder_stream.c], [qpack_decoder_stream.c]

    The Required Insert Count and Base in front of a field section, the four
    instructions of the encoder stream applied to the dynamic table, and the three
    of the decoder stream.  An instruction is parsed as a value of [instruction] and
    then applied, in the order of the source's branches. *)

From S2P Require Export QpackPrimitives QpackStatic QpackDynamic.
#[local] Open Scope Z_scope.

(** [wt_qpack_error_t]; no error is [None]. *)
Definition WT_QPACK_ERROR_DECOMPRESSION_FAILED : Z := 0x0200.
Definition WT_QPACK_ERROR_ENCODER_STREAM : Z := 0x0201.
Definition WT_QPACK_ERROR_DECODER_STREAM : Z := 0x0202.

(** Running out of bytes is reported as such; any other refusal as a protocol error with [code]. *)
Definition or_qpack_error {A} (code : Z) (p : parser A) : parser A := fun c =>
  match p c with
  | (Fail WT_ERR_TRUNCATED _, c') => (Fail WT_ERR_TRUNCATED None, c')
  | (Fail _ _, c') => (Fail WT_ERR_PROTOCOL (Some code), c')
  | ok => ok
  end.

(** ** The section prefix *)

Record wt_qpack_header_prefix := mk_prefix { hp_required_insert_count : Z; hp_base : Z }.

Definition wt_qpack_max_entries (capacity : Z) : Z := capacity / WT_QPACK_DYNAMIC_ENTRY_OVERHEAD.

Definition wt_qpack_header_prefix_encode (required_insert_count base max_entries : Z) (w : wt_writer) :
    wt_status * wt_writer :=
  let full_range := u64 (2 * max_entries) in
  if (0 <? max_entries) && (full_range <? max_entries) then (WT_ERR_OVERFLOW, w)
  else if negb (required_insert_count =? 0) && (max_entries =? 0) then (WT_ERR_INVALID_ARGUMENT, w)
  else
    let encoded := if required_insert_count =? 0 then 0 else u64 (required_insert_count mod full_range + 1) in
    if required_insert_count <=? base then
      let delta := u64 (base - required_insert_count) in
      if 0x3fffffffffffffff <? delta then (WT_ERR_INVALID_ARGUMENT, w)
      else or_limit (wt_qpack_integer_encode 8 0 encoded) (wt_qpack_integer_encode 7 0x00 delta) w
    else
      let delta := u64 (u64 (required_insert_count - base) - 1) in
      if 0x3fffffffffffffff <? delta then (WT_ERR_INVALID_ARGUMENT, w)
      else or_limit (wt_qpack_integer_encode 8 0 encoded) (wt_qpack_integer_encode 7 0x80 delta) w.

(** The decoding algorithm of RFC 9204 section 4.5.1 for the wrapped count. *)
Definition required_count (max_entries known_insert_count encoded : Z) : option Z :=
  let full_range := u64 (2 * max_entries) in
  if encoded =? 0 then Some 0
  else if full_range <? encoded then None
  else
    let max_value := u64 (known_insert_count + max_entries) in
    let max_wrapped := u64 (max_value / full_range * full_range) in
    let required := u64 (u64 (max_wrapped + encoded) - 1) in
    if max_value <? required then
      if required <=? full_range then None
      else
        let required := u64 (required - full_range) in
        if required =? 0 then None else Some required
    else if required =? 0 then None else Some required.

Definition section_base (required delta : Z) (negative : bool) : option Z :=
  if negative then
    if required <=? delta then None else Some (u64 (u64 (required - delta) - 1))
  else
    if u64 (U64_MAX - required) <? delta then None else Some (u64 (required + delta)).

Definition wt_qpack_header_prefix_decode (max_entries known_insert_count : Z) : parser wt_qpack_header_prefix :=
  let failed := pfail WT_ERR_PROTOCOL (Some WT_QPACK_ERROR_DECOMPRESSION_FAILED) in
  let full_range := u64 (2 * max_entries) in
  if (0 <? max_entries) && (full_range <? max_entries) then failed
  else
    encoded <- or_qpack_error WT_QPACK_ERROR_DECOMPRESSION_FAILED (wt_qpack_integer_decode 8);;
    with_peek None (fun first =>
      delta <- or_qpack_error WT_QPACK_ERROR_DECOMPRESSION_FAILED (wt_qpack_integer_decode 7);;
      match required_count max_entries known_insert_count encoded with
      | None => failed
      | Some required =>
          match section_base required delta (negb (Z.land first 0x80 =? 0)) with
          | None => failed
          | Some base => pret (mk_prefix required base)
          end
      end).

(** ** The encoder stream *)

Inductive instruction :=
  | InsertNameReference (from_static : bool) (index : Z) (value : list Z) (value_huffman : bool)
  | InsertLiteral (name : list Z) (name_huffman : bool) (value : list Z) (value_huffman : bool)
  | SetTableCapacity (capacity : Z)
  | DuplicateEntry (relative : Z).

(** Whether a flag of the first byte is set. *)
Definition flag (first mask : Z) : bool := negb (Z.land first mask =? 0).

Definition read_instruction : parser instruction :=
  let checked {A} (p : parser A) := or_qpack_error WT_QPACK_ERROR_ENCODER_STREAM p in
  with_peek (Some WT_QPACK_ERROR_ENCODER_STREAM) (fun first =>
    if flag first 0x80 then
      index <- checked (wt_qpack_integer_decode 6);;
      value <- checked wt_qpack_string_decode;;
      pret (InsertNameReference (flag first 0x40) index value.1 value.2)
    else if flag first 0x40 then
      name_length <- checked (wt_qpack_integer_decode 5);;
      if SIZE_MAX <? name_length then pfail WT_ERR_LIMIT (Some WT_QPACK_ERROR_ENCODER_STREAM)
      else
        name <- bytes_or_truncated name_length None;;
        value <- checked wt_qpack_string_decode;;
        pret (InsertLiteral name (flag first 0x20) value.1 value.2)
    else if flag first 0x20 then
      capacity <- checked (wt_qpack_integer_decode 5);;
      pret (SetTableCapacity capacity)
    else
      relative <- checked (wt_qpack_integer_decode 5);;
      pret (DuplicateEntry relative)).

(** A relative index counts the entries inserted after the one it names. *)
Definition resolve_relative (t : wt_qpack_dynamic_table) (relative : Z) : outcome Z :=
  if dt_insert_count t <=? relative then Fail WT_ERR_CLOSED None
  else
    let absolute := u64 (u64 (dt_insert_count t - 1) - relative) in
    if absolute <? dt_dropped t then Fail WT_ERR_CLOSED None else Ok absolute.

(** The status, the QPACK error and the table. *)
Definition stream_result : Type := wt_status * option Z * wt_qpack_dynamic_table.

Definition refuse_instruction (s : wt_status) (t : wt_qpack_dynamic_table) : stream_result :=
  (s, Some WT_QPACK_ERROR_ENCODER_STREAM, t).

Definition apply_insert (t : wt_qpack_dynamic_table) (name value : bytes_arg) : stream_result :=
  match wt_qpack_dynamic_insert t name value with
  | (Ok _, t') => (WT_OK, None, t')
  | (Fail WT_ERR_LIMIT _, t') => refuse_instruction WT_ERR_LIMIT t'
  | (Fail _ _, t') => refuse_instruction WT_ERR_PROTOCOL t'
  end.

(** The entry a relative index names. *)
Definition relative_entry (t : wt_qpack_dynamic_table) (relative : Z) : outcome (bytes_arg * bytes_arg) :=
  match resolve_relative t relative with
  | Ok absolute => wt_qpack_dynamic_entry t absolute
  | Fail s e => Fail s e
  end.

Definition apply_instruction (max_capacity : Z) (t : wt_qpack_dynamic_table) (i : instruction) : stream_result :=
  match i with
  | InsertNameReference from_static index value value_huffman =>
      if value_huffman then refuse_instruction WT_ERR_STATE t
      else if from_static then
        match wt_qpack_static_entry index with
        | Ok entry => apply_insert t (External entry.1) (External value)
        | Fail _ _ => refuse_instruction WT_ERR_PROTOCOL t
        end
      else
        match relative_entry t index with
        | Ok (name, _) => apply_insert t name (External value)
        | Fail _ _ => refuse_instruction WT_ERR_PROTOCOL t
        end
  | InsertLiteral name name_huffman value value_huffman =>
      if name_huffman || value_huffman then refuse_instruction WT_ERR_STATE t
      else apply_insert t (External name) (External value)
  | SetTableCapacity capacity =>
      if max_capacity <? capacity then refuse_instruction WT_ERR_PROTOCOL t
      else (WT_OK, None, wt_qpack_dynamic_set_capacity t capacity)
  | DuplicateEntry relative =>
      match relative_entry t relative with
      | Ok (name, value) => apply_insert t name value
      | Fail _ _ => refuse_instruction WT_ERR_PROTOCOL t
      end
  end.

Definition wt_qpack_encoder_stream_apply (max_capacity : Z) (t : wt_qpack_dynamic_table) (c : wt_cursor) :
    stream_result * wt_cursor :=
  match read_instruction c with
  | (Ok i, c') => (apply_instruction max_capacity t i, c')
  | (Fail s e, c') => ((s, e, t), c')
  end.

Definition wt_qpack_encoder_stream_write_capacity (capacity : Z) : wt_writer -> wt_status * wt_writer :=
  wt_qpack_integer_encode 5 0x20 capacity.

Definition wt_qpack_encoder_stream_write_insert_name_reference (from_static : bool) (index : Z) (value : list Z) :
    wt_writer -> wt_status * wt_writer :=
  or_limit (wt_qpack_integer_encode 6 (if from_static then 0xc0 else 0x80) index) (wt_qpack_string_encode value).

Definition wt_qpack_encoder_stream_write_insert_literal (name value : list Z) : wt_writer -> wt_status * wt_writer :=
  or_limit (or_limit (wt_qpack_integer_encode 5 0x40 (zlen name)) (fun w => writer_status (writer_bytes_if name w)))
           (wt_qpack_string_encode value).

Definition wt_qpack_encoder_stream_write_duplicate (relative : Z) : wt_writer -> wt_status * wt_writer :=
  wt_qpack_integer_encode 5 0x00 relative.

(** ** The decoder stream *)

Record wt_qpack_decoder_stream := mk_decoder_stream {
  ds_acknowledged_insert_count : Z;
  ds_sections_acknowledged : Z;
  ds_streams_cancelled : Z }.

Definition wt_qpack_decoder_stream_init : wt_qpack_decoder_stream := mk_decoder_stream 0 0 0.

Inductive decoder_instruction :=
  | SectionAcknowledgement (section_id : Z)
  | StreamCancellation (stream_id : Z)
  | InsertCountIncrement (increment : Z).

Definition read_decoder_instruction : parser decoder_instruction :=
  let checked {A} (p : parser A) := or_qpack_error WT_QPACK_ERROR_DECODER_STREAM p in
  with_peek (Some WT_QPACK_ERROR_DECODER_STREAM) (fun first =>
    if flag first 0x80 then
      id <- checked (wt_qpack_integer_decode 7);; pret (SectionAcknowledgement id)
    else if flag first 0x40 then
      id <- checked (wt_qpack_integer_decode 6);; pret (StreamCancellation id)
    else
      increment <- checked (wt_qpack_integer_decode 6);; pret (InsertCountIncrement increment)).

(** [insert_count] is the table's, when there is a table. *)
Definition apply_decoder_instruction (s : wt_qpack_decoder_stream) (insert_count : option Z) (i : decoder_instruction) :
    wt_status * option Z * wt_qpack_decoder_stream :=
  match i with
  | SectionAcknowledgement _ =>
      (WT_OK, None, mk_decoder_stream (ds_acknowledged_insert_count s) (u64 (ds_sections_acknowledged s + 1))
                      (ds_streams_cancelled s))
  | StreamCancellation _ =>
      (WT_OK, None, mk_decoder_stream (ds_acknowledged_insert_count s) (ds_sections_acknowledged s)
                      (u64 (ds_streams_cancelled s + 1)))
  | InsertCountIncrement increment =>
      let refused := (WT_ERR_PROTOCOL, Some WT_QPACK_ERROR_DECODER_STREAM, s) in
      if increment =? 0 then refused
      else if u64 (U64_MAX - increment) <? ds_acknowledged_insert_count s then refused
      else if match insert_count with
              | Some n => n <? u64 (ds_acknowledged_insert_count s + increment)
              | None => false
              end
      then refused
      else (WT_OK, None, mk_decoder_stream (u64 (ds_acknowledged_insert_count s + increment))
                           (ds_sections_acknowledged s) (ds_streams_cancelled s))
  end.

Definition wt_qpack_decoder_stream_apply (s : wt_qpack_decoder_stream) (insert_count : option Z) (c : wt_cursor) :
    wt_status * option Z * wt_qpack_decoder_stream * wt_cursor :=
  match read_decoder_instruction c with
  | (Ok i, c') => (apply_decoder_instruction s insert_count i, c')
  | (Fail st e, c') => ((st, e, s), c')
  end.

Definition wt_qpack_decoder_stream_write_section_acknowledgement (section_id : Z) : wt_writer -> wt_status * wt_writer :=
  wt_qpack_integer_encode 7 0x80 section_id.

Definition wt_qpack_decoder_stream_write_stream_cancellation (stream_id : Z) : wt_writer -> wt_status * wt_writer :=
  wt_qpack_integer_encode 6 0x40 stream_id.

Definition wt_qpack_decoder_stream_write_insert_count_increment (increment : Z) (w : wt_writer) : wt_status * wt_writer :=
  if increment =? 0 then (WT_ERR_INVALID_ARGUMENT, w) else wt_qpack_integer_encode 6 0x00 increment w.

(** ** Reading what was written *)

Lemma or_qpack_error_decodes {A} code (p : parser A) bs a :
  decodes p bs a -> decodes (or_qpack_error code p) bs a.
Proof. intros Hp c tl Hl Hv. unfold or_qpack_error. by rewrite (Hp c tl). Qed.

Lemma or_qpack_error_safe {A} (Q : A -> Prop) code p : parser_safe Q p -> parser_safe Q (or_qpack_error code p).
Proof.
  intros Hp c Hi. specialize (Hp c Hi). unfold or_qpack_error. destruct (p c) as [[a|s e] c']; [done|].
  by destruct s.
Qed.

Lemma or_qpack_error_consumes {A} code (p : parser A) : parser_consumes p -> parser_consumes (or_qpack_error code p).
Proof.
  intros Hp c Hi. specialize (Hp c Hi). unfold or_qpack_error. destruct (p c) as [[a|s e] c']; [done|]. by destruct s.
Qed.

(** How a QPACK reader fails. *)
Definition qpack_failure (code : Z) (s : wt_status) (e : option Z) : Prop :=
  (s = WT_ERR_TRUNCATED /\ e = None) \/ (s = WT_ERR_PROTOCOL /\ e = Some code).

Lemma or_qpack_error_fails {A} code (p : parser A) : parser_fails (qpack_failure code) (or_qpack_error code p).
Proof.
  intros c _. unfold or_qpack_error, qpack_failure. destruct (p c) as [[a|s e] c']; [done|]. destruct s; cbn; auto.
Qed.

Lemma or_qpack_error_local {A} code (p : parser A) : parser_local p -> parser_local (or_qpack_error code p).
Proof.
  intros Hp c Hl. specialize (Hp c Hl). unfold or_qpack_error at 1. destruct (p c) as [[a|s e] c'].
  - destruct Hp as (bs & ? & ? & ?). exists bs. split_and!; try done. by apply or_qpack_error_decodes.
  - assert (Hgoal : forall s' e', (s = WT_ERR_TRUNCATED -> s' = WT_ERR_TRUNCATED) ->
              (forall c2 c3, p c2 = (Fail s e, c3) -> (or_qpack_error code p c2).1 = Fail s' e') ->
              forall c2, cursor_live c2 ->
              cursor_view c2 = cursor_view c \/ s' <> WT_ERR_TRUNCATED /\ cursor_view c `prefix_of` cursor_view c2 ->
              (or_qpack_error code p c2).1 = Fail s' e').
    { intros s' e' Hs' He c2 Hl2 Hv2. destruct (p c2) as [o c3] eqn:E.
      assert (o = Fail s e) as ->; [|by apply (He c2 c3)]. specialize (Hp c2 Hl2). rewrite E in Hp. apply Hp.
      destruct Hv2 as [?|[? ?]]; [by left|right]. split; [naive_solver|done]. }
    destruct s; apply Hgoal; try done; intros c2 c3 E; unfold or_qpack_error; by rewrite E.
Qed.

Ltac qpack_flags := unfold flags_ok, is_u8; repeat case_match; split_and!; lia || done.

Lemma flag_first bits flags v b l mask :
  flags_ok bits flags -> 0 <= v -> integer_bytes bits flags v = b :: l -> 0 <= mask -> mask mod 2 ^ bits = 0 ->
  flag b mask = flag flags mask.
Proof.
  intros Hf Hv E Hm Hd. destruct (integer_bytes_first bits flags v Hf Hv) as (b' & l' & E' & _ & H).
  rewrite E in E'. injection E' as <- <-. unfold flag. by rewrite H.
Qed.

Lemma integer_bytes_cons bits flags v : exists b l, integer_bytes bits flags v = b :: l.
Proof. unfold integer_bytes. destruct (v <? 2 ^ bits - 1); eauto. Qed.

(** ** The section prefix *)

(** The counts a decoder that has received [known] insertions can tell apart. *)
Definition prefix_in_window (max_entries known required : Z) : Prop :=
  required = 0 \/ (0 < required /\ known - max_entries < required <= known + max_entries).

Lemma required_count_exact max_entries known required :
  0 <= max_entries < 2 ^ 60 -> 0 <= known < 2 ^ 62 -> prefix_in_window max_entries known required ->
  let encoded := if required =? 0 then 0 else required mod (2 * max_entries) + 1 in
  0 <= encoded <= 2 * max_entries /\ required_count max_entries known encoded = Some required.
Proof.
  intros Hm Hk Hw encoded. unfold required_count. rewrite (u64_small (2 * max_entries)) by (unfold is_u64; lia).
  unfold encoded. destruct Hw as [->|[Hr Hw]]; [cbn; split; [lia|done]|].
  rewrite (proj2 (Z.eqb_neq required 0)) by lia.
  assert (Hme : 0 < max_entries) by lia. set (FR := 2 * max_entries) in *.
  pose proof (Z.mod_pos_bound required FR ltac:(lia)) as Hmod. split; [lia|].
  rewrite (proj2 (Z.eqb_neq (required mod FR + 1) 0)), (proj2 (Z.ltb_ge FR _)) by lia.
  rewrite (u64_small (known + max_entries)) by (unfold is_u64; lia). set (MV := known + max_entries) in *.
  pose proof (Z_div_mod_eq_full MV FR) as HMV. pose proof (Z.mod_pos_bound MV FR ltac:(lia)) as HMVm.
  pose proof (Z_div_mod_eq_full required FR) as HR.
  assert (HMW : 0 <= MV / FR * FR <= MV) by (split; [apply Z.mul_nonneg_nonneg; [apply Z.div_pos|]; lia|lia]).
  rewrite (u64_small (MV / FR * FR)) by (unfold is_u64; lia).
  rewrite (u64_small (_ + (required mod FR + 1))) by (unfold is_u64; lia).
  rewrite (u64_small (_ - 1)) by (unfold is_u64; lia).
  assert (Hq : required / FR = MV / FR \/ required / FR = MV / FR - 1).
  { assert (required / FR <= MV / FR) by (apply Z.div_le_mono; lia).
    assert (MV / FR - 1 <= required / FR); [|lia].
    replace (MV / FR - 1) with ((MV + -1 * FR) / FR) by (rewrite Z.div_add by lia; lia). apply Z.div_le_mono; lia. }
  destruct Hq as [Hq|Hq].
  - rewrite Hq in HR. replace (MV / FR * FR + (required mod FR + 1) - 1) with required by lia.
    rewrite (proj2 (Z.ltb_ge MV required)), (proj2 (Z.eqb_neq required 0)) by lia. done.
  - assert (Hval : MV / FR * FR + (required mod FR + 1) - 1 = required + FR).
    { assert (FR * (MV / FR) = FR * (required / FR) + FR) by nia. lia. }
    rewrite Hval, (proj2 (Z.ltb_lt MV _)), (proj2 (Z.leb_gt _ FR)) by lia.
    replace (required + FR - FR) with required by lia. rewrite u64_small by (unfold is_u64; lia).
    by rewrite (proj2 (Z.eqb_neq required 0)) by lia.
Qed.

Definition prefix_ok (max_entries known : Z) (p : wt_qpack_header_prefix) : Prop :=
  0 <= max_entries < 2 ^ 60 /\ 0 <= known < 2 ^ 61 /\ 0 <= hp_base p < 2 ^ 62 /\
  prefix_in_window max_entries known (hp_required_insert_count p).

Definition prefix_bytes (max_entries : Z) (p : wt_qpack_header_prefix) : list Z :=
  let required := hp_required_insert_count p in
  integer_bytes 8 0 (if required =? 0 then 0 else required mod (2 * max_entries) + 1) ++
  (if required <=? hp_base p then integer_bytes 7 0 (hp_base p - required)
   else integer_bytes 7 0x80 (required - hp_base p - 1)).

Lemma encodes_prefix max_entries known p :
  prefix_ok max_entries known p ->
  encodes (wt_qpack_header_prefix_encode (hp_required_insert_count p) (hp_base p) max_entries) (prefix_bytes max_entries p).
Proof.
  intros (Hm & Hk & Hb & Hw). destruct p as [required base]; cbn [hp_required_insert_count hp_base] in *.
  destruct (required_count_exact max_entries known required Hm ltac:(lia) Hw) as [He _].
  assert (Hr : 0 <= required < 2 ^ 62) by (destruct Hw; lia).
  assert (Hvw : required <> 0 -> 0 < max_entries) by (destruct Hw; lia).
  unfold prefix_bytes; cbn [hp_required_insert_count hp_base].
  set (encoded := if required =? 0 then 0 else required mod (2 * max_entries) + 1) in *.
  apply encodes_ext with (or_limit (wt_qpack_integer_encode 8 0 encoded)
    (if required <=? base then wt_qpack_integer_encode 7 0 (base - required)
     else wt_qpack_integer_encode 7 0x80 (required - base - 1))).
  - intros w. unfold wt_qpack_header_prefix_encode. rewrite (u64_small (2 * max_entries)) by (unfold is_u64; lia).
    assert (H1 : (0 <? max_entries) && (2 * max_entries <? max_entries) = false)
      by (apply andb_false_iff; rewrite !Z.ltb_ge; lia).
    assert (H2 : negb (required =? 0) && (max_entries =? 0) = false).
    { destruct (Z.eqb_spec required 0); [done|]. cbn [negb andb]. apply Z.eqb_neq. specialize (Hvw n). lia. }
    rewrite H1, H2. cbv zeta.
    replace (if required =? 0 then 0 else u64 (required mod (2 * max_entries) + 1)) with encoded.
    2: { unfold encoded in *. destruct (required =? 0); [done|]. rewrite u64_small by (unfold is_u64; lia). done. }
    destruct (Z.leb_spec required base); no_wrap; ztest; done.
  - apply encodes_seq.
    + apply encodes_integer; [qpack_flags|]. unfold varint_ok, WT_QUIC_VARINT_MAX. lia.
    + destruct (Z.leb_spec required base); (apply encodes_integer; [qpack_flags|]); unfold varint_ok, WT_QUIC_VARINT_MAX; lia.
Qed.

Lemma decodes_prefix max_entries known p :
  prefix_ok max_entries known p ->
  decodes (wt_qpack_header_prefix_decode max_entries known) (prefix_bytes max_entries p) p.
Proof.
  intros (Hm & Hk & Hb & Hw). destruct p as [required base]; cbn [hp_required_insert_count hp_base] in *.
  destruct (required_count_exact max_entries known required Hm ltac:(lia) Hw) as [He Hcount].
  assert (Hr : 0 <= required < 2 ^ 62) by (destruct Hw; lia).
  unfold wt_qpack_header_prefix_decode. rewrite (u64_small (2 * max_entries)) by (unfold is_u64; lia).
  assert (H1 : (0 <? max_entries) && (2 * max_entries <? max_entries) = false)
    by (apply andb_false_iff; rewrite !Z.ltb_ge; lia).
  rewrite H1. unfold prefix_bytes; cbn [hp_required_insert_count hp_base].
  set (encoded := if required =? 0 then 0 else required mod (2 * max_entries) + 1) in *.
  eapply decodes_bind.
  { apply or_qpack_error_decodes, decodes_integer; [qpack_flags|]. unfold varint_ok, WT_QUIC_VARINT_MAX. lia. }
  assert (Htail : forall flags delta,
    flags_ok 7 flags -> varint_ok delta ->
    section_base required delta (flag flags 0x80) = Some base ->
    decodes (with_peek None (fun first =>
      delta <- or_qpack_error WT_QPACK_ERROR_DECOMPRESSION_FAILED (wt_qpack_integer_decode 7);;
      match required_count max_entries known encoded with
      | None => pfail WT_ERR_PROTOCOL (Some WT_QPACK_ERROR_DECOMPRESSION_FAILED)
      | Some required =>
          match section_base required delta (negb (Z.land first 0x80 =? 0)) with
          | None => pfail WT_ERR_PROTOCOL (Some WT_QPACK_ERROR_DECOMPRESSION_FAILED)
          | Some base => pret (mk_prefix required base)
          end
      end)) (integer_bytes 7 flags delta) (mk_prefix required base)).
  { intros flags delta Hf Hd Hsb. destruct (integer_bytes_cons 7 flags delta) as (b & l & E). rewrite E.
    apply decodes_with_peek. fold (flag b 0x80). rewrite (flag_first 7 flags delta b l) by (done || apply Hd || lia).
    rewrite <- E. eapply decodes_bind_nil; [by apply or_qpack_error_decodes, decodes_integer|].
    rewrite Hcount, Hsb. apply decodes_ret. }
  destruct (Z.leb_spec required base); apply Htail; try qpack_flags; unfold varint_ok, WT_QUIC_VARINT_MAX; try lia.
  - unfold section_base. change (flag 0 0x80) with false. cbn match. unfold U64_MAX. no_wrap. ztest. do 2 f_equal; lia.
  - unfold section_base. change (flag 0x80 0x80) with true. cbn match. ztest. no_wrap. do 2 f_equal; lia.
Qed.

(** ** Instructions *)

(** An instruction this endpoint writes: plain strings, indices in range. *)
Definition instruction_ok (i : instruction) : Prop :=
  match i with
  | InsertNameReference _ index value h => varint_ok index /\ string_ok value /\ h = false
  | InsertLiteral name hn value hv => string_ok name /\ string_ok value /\ hn = false /\ hv = false
  | SetTableCapacity n | DuplicateEntry n => varint_ok n
  end.

Definition instruction_bytes (i : instruction) : list Z :=
  match i with
  | InsertNameReference st index value _ =>
      integer_bytes 6 (if st then 0xc0 else 0x80) index ++ string_bytes value false
  | InsertLiteral name _ value _ => integer_bytes 5 0x40 (zlen name) ++ name ++ string_bytes value false
  | SetTableCapacity n => integer_bytes 5 0x20 n
  | DuplicateEntry n => integer_bytes 5 0x00 n
  end.

Definition write_instruction (i : instruction) : wt_writer -> wt_status * wt_writer :=
  match i with
  | InsertNameReference st index value _ => wt_qpack_encoder_stream_write_insert_name_reference st index value
  | InsertLiteral name _ value _ => wt_qpack_encoder_stream_write_insert_literal name value
  | SetTableCapacity n => wt_qpack_encoder_stream_write_capacity n
  | DuplicateEntry n => wt_qpack_encoder_stream_write_duplicate n
  end.

Lemma string_ok_length s : string_ok s -> varint_ok (zlen s).
Proof. intros Hs. exact (string_length_ok s false Hs). Qed.

Lemma encodes_instruction i : instruction_ok i -> encodes (write_instruction i) (instruction_bytes i).
Proof.
  destruct i as [st index value h|name hn value hv|n|n]; cbn [instruction_ok write_instruction instruction_bytes].
  - intros (Hi & Hv & _). apply encodes_seq; [apply encodes_integer; [qpack_flags|done]|]. by apply encodes_string.
  - intros (Hn & Hv & _). rewrite app_assoc. apply encodes_seq; [|by apply encodes_string].
    apply encodes_seq; [apply encodes_integer; [qpack_flags|by apply string_ok_length]|apply encodes_status, appends_bytes_if].
  - intros Hn. apply encodes_integer; [qpack_flags|done].
  - intros Hn. apply encodes_integer; [qpack_flags|done].
Qed.

(** Open the instruction at its first byte, whose flags are known. *)
Ltac first_byte bits flags n :=
  let b := fresh "b" in let l := fresh "l" in let E := fresh "E" in let F := fresh "F" in
  destruct (integer_bytes_cons bits flags n) as (b & l & E);
  assert (F : forall m, 0 <= m -> m mod 2 ^ bits = 0 -> flag b m = flag flags m)
    by (intros; apply (flag_first bits flags n b l); first [done|qpack_flags|unfold varint_ok, string_ok in *; zlen_facts; lia]);
  rewrite E, ?app_comm_cons; cbn [app]; apply decodes_with_peek; rewrite ?app_comm_cons, <- E;
  repeat (rewrite F by (lia || done)); clear E F.

Lemma decodes_instruction i : instruction_ok i -> decodes read_instruction (instruction_bytes i) i.
Proof.
  unfold read_instruction. destruct i as [st index value h|name hn value hv|n|n]; cbn [instruction_ok instruction_bytes].
  - intros (Hi & Hv & ->). first_byte 6 (if st then 0xc0 else 0x80) index.
    replace (flag (if st then 0xc0 else 0x80) 0x80) with true by by destruct st.
    replace (flag (if st then 0xc0 else 0x80) 0x40) with st by by destruct st.
    eapply decodes_bind; [apply or_qpack_error_decodes, decodes_integer; [qpack_flags|done]|].
    eapply decodes_bind_nil; [by apply or_qpack_error_decodes, decodes_string|]. apply decodes_ret.
  - intros (Hn & Hv & -> & ->). first_byte 5 0x40 (zlen name).
    change (flag 0x40 0x80) with false. change (flag 0x40 0x40) with true. change (flag 0x40 0x20) with false. cbn match.
    eapply decodes_bind; [apply or_qpack_error_decodes, decodes_integer; [qpack_flags|by apply string_ok_length]|].
    pose proof (string_ok_length name Hn) as Hl. unfold varint_ok, WT_QUIC_VARINT_MAX in Hl. unfold SIZE_MAX, U64_MAX. ztest.
    eapply decodes_bind; [by apply decodes_bytes_or_truncated|].
    eapply decodes_bind_nil; [by apply or_qpack_error_decodes, decodes_string|]. apply decodes_ret.
  - intros Hn. first_byte 5 0x20 n.
    change (flag 0x20 0x80) with false. change (flag 0x20 0x40) with false. change (flag 0x20 0x20) with true. cbn match.
    eapply decodes_bind_nil; [apply or_qpack_error_decodes, decodes_integer; [qpack_flags|done]|]. apply decodes_ret.
  - intros Hn. first_byte 5 0x00 n.
    change (flag 0x00 0x80) with false. change (flag 0x00 0x40) with false. change (flag 0x00 0x20) with false. cbn match.
    eapply decodes_bind_nil; [apply or_qpack_error_decodes, decodes_integer; [qpack_flags|done]|]. apply decodes_ret.
Qed.

(** ** Any bytes *)

Definition instruction_read (i : instruction) : Prop :=
  match i with
  | InsertNameReference _ index value _ => varint_ok index /\ bytes_ok value
  | InsertLiteral name _ value _ => bytes_ok name /\ bytes_ok value
  | SetTableCapacity n | DuplicateEntry n => varint_ok n
  end.

(** The four ways an instruction is read, one branch at a time. *)
Section ReadInstruction.
Let checked {A} (p : parser A) : parser A := or_qpack_error WT_QPACK_ERROR_ENCODER_STREAM p.

Lemma checked_integer bits : 1 <= bits <= 8 ->
  parser_safe varint_ok (checked (wt_qpack_integer_decode bits)) /\
  parser_consumes (checked (wt_qpack_integer_decode bits)) /\ parser_local (checked (wt_qpack_integer_decode bits)).
Proof.
  intros Hb. split_and!.
  - by apply or_qpack_error_safe, integer_decode_safe.
  - by apply or_qpack_error_consumes, integer_decode_consumes.
  - by apply or_qpack_error_local, parser_local_integer.
Qed.

Lemma checked_string : parser_safe string_read (checked wt_qpack_string_decode) /\ parser_local (checked wt_qpack_string_decode).
Proof. split; [apply or_qpack_error_safe, string_decode_safe|apply or_qpack_error_local, parser_local_string]. Qed.
End ReadInstruction.

(** A parser that keeps the cursor in its block, costs a byte, and reads only what is in front of it. *)
Definition well_behaved {A} (Q : A -> Prop) (p : parser A) : Prop :=
  parser_safe Q p /\ parser_consumes p /\ parser_local p.

Lemma well_behaved_integer code (k : Z -> parser instruction) bits Q :
  1 <= bits <= 8 -> (forall n, varint_ok n -> parser_safe Q (k n) /\ parser_local (k n)) ->
  well_behaved Q (n <- or_qpack_error code (wt_qpack_integer_decode bits);; k n).
Proof.
  intros Hb Hk.
  assert (Hs : parser_safe varint_ok (or_qpack_error code (wt_qpack_integer_decode bits)))
    by by apply or_qpack_error_safe, integer_decode_safe.
  split_and!.
  - eapply parser_safe_bind; [exact Hs|]. intros n Hn. by apply Hk.
  - eapply parser_consumes_bind; [exact Hs|by apply or_qpack_error_consumes, integer_decode_consumes|].
    intros n Hn. by apply Hk.
  - eapply parser_local_bind; [exact Hs|by apply or_qpack_error_local, parser_local_integer|]. intros n Hn. by apply Hk.
Qed.

Lemma read_instruction_branches first :
  well_behaved instruction_read
   (let checked {A} (p : parser A) := or_qpack_error WT_QPACK_ERROR_ENCODER_STREAM p in
    if flag first 0x80 then
      index <- checked (wt_qpack_integer_decode 6);;
      value <- checked wt_qpack_string_decode;;
      pret (InsertNameReference (flag first 0x40) index value.1 value.2)
    else if flag first 0x40 then
      name_length <- checked (wt_qpack_integer_decode 5);;
      if SIZE_MAX <? name_length then pfail WT_ERR_LIMIT (Some WT_QPACK_ERROR_ENCODER_STREAM)
      else
        name <- bytes_or_truncated name_length None;;
        value <- checked wt_qpack_string_decode;;
        pret (InsertLiteral name (flag first 0x20) value.1 value.2)
    else if flag first 0x20 then
      capacity <- checked (wt_qpack_integer_decode 5);;
      pret (SetTableCapacity capacity)
    else
      relative <- checked (wt_qpack_integer_decode 5);;
      pret (DuplicateEntry relative)).
Proof.
  cbv zeta. destruct checked_string as [Hs Hl].
  destruct (flag first 0x80); [|destruct (flag first 0x40); [|destruct (flag first 0x20)]];
    (apply well_behaved_integer; [lia|]); intros n Hn.
  - split.
    + eapply parser_safe_bind; [exact Hs|]. intros v [Hv _]. by apply parser_safe_ret.
    + eapply parser_local_bind; [exact Hs|exact Hl|]. intros v _. apply parser_local_ret.
  - destruct (SIZE_MAX <? n); [split; [apply parser_safe_fail|apply parser_local_fail]|]. split.
    + eapply parser_safe_bind; [apply bytes_or_truncated_safe, Hn|]. intros name [_ Hok].
      eapply parser_safe_bind; [exact Hs|]. intros v [Hv _]. by apply parser_safe_ret.
    + eapply parser_local_bind; [apply bytes_or_truncated_safe, Hn|apply parser_local_bytes, Hn|]. intros name _.
      eapply parser_local_bind; [exact Hs|exact Hl|]. intros v _. apply parser_local_ret.
  - split; [by apply parser_safe_ret|apply parser_local_ret].
  - split; [by apply parser_safe_ret|apply parser_local_ret].
Qed.

Lemma read_instruction_safe : parser_safe instruction_read read_instruction.
Proof. apply with_peek_safe. intros b _. apply read_instruction_branches. Qed.

Lemma read_instruction_consumes : parser_consumes read_instruction.
Proof. apply with_peek_consumes. intros b. apply read_instruction_branches. Qed.

Lemma read_instruction_local : parser_local read_instruction.
Proof. apply parser_local_with_peek; intros b; apply read_instruction_branches. Qed.

(** A reading that fails says so. *)
Lemma read_instruction_fails : parser_fails (fun s _ => s <> WT_OK) read_instruction.
Proof.
  assert (Hq : forall {A} code (p : parser A), parser_fails (fun s _ => s <> WT_OK) (or_qpack_error code p)).
  { intros A code p c Hi. pose proof (or_qpack_error_fails code p c Hi) as H. destruct (or_qpack_error code p c) as [[a|s e] c']; [done|].
    cbn in *. by destruct H as [[-> _]|[-> _]]. }
  destruct checked_string as [Hs _]. apply with_peek_fails; [done|]. intros b _. cbv zeta.
  destruct (flag b 0x80); [|destruct (flag b 0x40); [|destruct (flag b 0x20)]];
    (eapply parser_fails_bind; [apply or_qpack_error_safe, integer_decode_safe; lia|apply Hq|]); intros n Hn; try apply parser_fails_ret.
  - eapply parser_fails_bind; [exact Hs|apply Hq|]. intros. apply parser_fails_ret.
  - destruct (_ <? _); [by apply parser_fails_fail|].
    eapply parser_fails_bind; [apply bytes_or_truncated_safe, Hn|by apply bytes_or_truncated_fails|]. intros name _.
    eapply parser_fails_bind; [exact Hs|apply Hq|]. intros. apply parser_fails_ret.
Qed.

(** ** The decoder stream *)

Definition decoder_instruction_ok (i : decoder_instruction) : Prop :=
  match i with
  | SectionAcknowledgement n | StreamCancellation n => varint_ok n
  | InsertCountIncrement n => varint_ok n /\ n <> 0
  end.

Definition decoder_instruction_bytes (i : decoder_instruction) : list Z :=
  match i with
  | SectionAcknowledgement n => integer_bytes 7 0x80 n
  | StreamCancellation n => integer_bytes 6 0x40 n
  | InsertCountIncrement n => integer_bytes 6 0x00 n
  end.

Definition write_decoder_instruction (i : decoder_instruction) : wt_writer -> wt_status * wt_writer :=
  match i with
  | SectionAcknowledgement n => wt_qpack_decoder_stream_write_section_acknowledgement n
  | StreamCancellation n => wt_qpack_decoder_stream_write_stream_cancellation n
  | InsertCountIncrement n => wt_qpack_decoder_stream_write_insert_count_increment n
  end.

Lemma encodes_decoder_instruction i :
  decoder_instruction_ok i -> encodes (write_decoder_instruction i) (decoder_instruction_bytes i).
Proof.
  destruct i as [n|n|n]; cbn [decoder_instruction_ok write_decoder_instruction decoder_instruction_bytes].
  - intros Hn. apply encodes_integer; [qpack_flags|done].
  - intros Hn. apply encodes_integer; [qpack_flags|done].
  - intros [Hn Hz]. apply encodes_ext with (wt_qpack_integer_encode 6 0 n); [|apply encodes_integer; [qpack_flags|done]].
    intros w. unfold wt_qpack_decoder_stream_write_insert_count_increment. by rewrite (proj2 (Z.eqb_neq n 0) Hz).
Qed.

Lemma decodes_decoder_instruction i :
  decoder_instruction_ok i -> decodes read_decoder_instruction (decoder_instruction_bytes i) i.
Proof.
  unfold read_decoder_instruction. destruct i as [n|n|n]; cbn [decoder_instruction_ok decoder_instruction_bytes].
  - intros Hn. first_byte 7 0x80 n. change (flag 0x80 0x80) with true. cbn match.
    eapply decodes_bind_nil; [apply or_qpack_error_decodes, decodes_integer; [qpack_flags|done]|]. apply decodes_ret.
  - intros Hn. first_byte 6 0x40 n. change (flag 0x40 0x80) with false. change (flag 0x40 0x40) with true. cbn match.
    eapply decodes_bind_nil; [apply or_qpack_error_decodes, decodes_integer; [qpack_flags|done]|]. apply decodes_ret.
  - intros [Hn _]. first_byte 6 0x00 n. change (flag 0x00 0x80) with false. change (flag 0x00 0x40) with false. cbn match.
    eapply decodes_bind_nil; [apply or_qpack_error_decodes, decodes_integer; [qpack_flags|done]|]. apply decodes_ret.
Qed.

(** ** Theorems *)

(** The Required Insert Count, sent modulo twice the maximum number of entries, and the signed Delta Base are recovered exactly for every prefix in the window the number of insertions known to the reader allows. *)
Lemma section_prefix_roundtrip max_entries known p w c tl :
  prefix_ok max_entries known p ->
  writer_inv w -> w_overflow w = false -> w_copy w = true -> zlen (prefix_bytes max_entries p) <= writer_room w ->
  cursor_live c -> cursor_view c = prefix_bytes max_entries p ++ tl ->
  let r := wt_qpack_header_prefix_encode (hp_required_insert_count p) (hp_base p) max_entries w in
  r.1 = WT_OK /\ writer_bytes r.2 = writer_bytes w ++ prefix_bytes max_entries p /\
  wt_qpack_header_prefix_decode max_entries known c = (Ok p, cursor_advance c (zlen (prefix_bytes max_entries p))).
Proof.
  intros Hp Hi Hov Hcp Hroom Hl Hv r.
  destruct (encodes_bytes _ _ w (encodes_prefix max_entries known p Hp) Hi Hov Hcp Hroom).
  split_and!; [done|done|]. by apply (decodes_prefix max_entries known p Hp c tl).
Qed.

(** Twelve insertions known, room for four entries: a count of nine wraps to two. *)
Lemma section_prefix_roundtrip_witness :
  let r := wt_qpack_header_prefix_encode 9 7 4 (wt_writer_init (Some [0; 0; 0]) 3) in
  r.1 = WT_OK /\ writer_bytes r.2 = [] ++ prefix_bytes 4 (mk_prefix 9 7) /\
  wt_qpack_header_prefix_decode 4 12 (wt_cursor_init (Some [2; 0x81; 0xff]) 3) =
    (Ok (mk_prefix 9 7), cursor_advance (wt_cursor_init (Some [2; 0x81; 0xff]) 3) (zlen (prefix_bytes 4 (mk_prefix 9 7)))).
Proof.
  apply (section_prefix_roundtrip 4 12 (mk_prefix 9 7) (wt_writer_init (Some [0; 0; 0]) 3)
           (wt_cursor_init (Some [2; 0x81; 0xff]) 3) [0xff]).
  - unfold prefix_ok, prefix_in_window; cbn. lia.
  - by apply writer_init_inv.
  - done.
  - done.
  - by vm_compute.
  - by apply cursor_init_live; [|apply bytes_okb_spec].
  - done.
Defined.

(** Each of the four instructions of the encoder stream is written as the bytes the other side reads as that instruction, whatever follows, and applies it. *)
Lemma encoder_instruction_roundtrip i max_capacity t w c tl :
  instruction_ok i ->
  writer_inv w -> w_overflow w = false -> w_copy w = true -> zlen (instruction_bytes i) <= writer_room w ->
  cursor_live c -> cursor_view c = instruction_bytes i ++ tl ->
  (write_instruction i w).1 = WT_OK /\
  writer_bytes (write_instruction i w).2 = writer_bytes w ++ instruction_bytes i /\
  wt_qpack_encoder_stream_apply max_capacity t c =
    (apply_instruction max_capacity t i, cursor_advance c (zlen (instruction_bytes i))).
Proof.
  intros Hok Hi Hov Hcp Hroom Hl Hv.
  destruct (encodes_bytes _ _ w (encodes_instruction i Hok) Hi Hov Hcp Hroom). split_and!; [done|done|].
  unfold wt_qpack_encoder_stream_apply. by rewrite (decodes_instruction i Hok c tl).
Qed.

Lemma encoder_instruction_roundtrip_witness :
  let i := InsertNameReference true 1 [47; 120] false in
  let t := wt_qpack_dynamic_init 100 in
  (write_instruction i (wt_writer_init (Some [0; 0; 0; 0]) 4)).1 = WT_OK /\
  writer_bytes (write_instruction i (wt_writer_init (Some [0; 0; 0; 0]) 4)).2 = [] ++ instruction_bytes i /\
  wt_qpack_encoder_stream_apply 100 t (wt_cursor_init (Some [0xc1; 2; 47; 120]) 4) =
    (apply_instruction 100 t i, cursor_advance (wt_cursor_init (Some [0xc1; 2; 47; 120]) 4) (zlen (instruction_bytes i))).
Proof.
  apply (encoder_instruction_roundtrip (InsertNameReference true 1 [47; 120] false) 100 (wt_qpack_dynamic_init 100)
           (wt_writer_init (Some [0; 0; 0; 0]) 4) (wt_cursor_init (Some [0xc1; 2; 47; 120]) 4) []).
  - split_and!; [unfold varint_ok, WT_QUIC_VARINT_MAX; lia|by split; [apply bytes_okb_spec|]|done].
  - by apply writer_init_inv.
  - done.
  - done.
  - by vm_compute.
  - by apply cursor_init_live; [|apply bytes_okb_spec].
  - done.
Defined.

(** One instruction of the decoder stream, as the encoder applies it. *)
Definition decoder_step (insert_count : Z) (s : wt_qpack_decoder_stream) (i : decoder_instruction) : wt_qpack_decoder_stream :=
  (apply_decoder_instruction s (Some insert_count) i).2.

(** Whatever instructions a decoder sends, the insert count it has acknowledged never exceeds the insertions made, and an increment that would is refused without effect. *)
Lemma acknowledged_within_inserted insert_count l i c tl :
  0 <= insert_count < 2 ^ 64 -> Forall decoder_instruction_ok (i :: l) ->
  cursor_live c -> cursor_view c = decoder_instruction_bytes i ++ tl ->
  let s := fold_left (decoder_step insert_count) l wt_qpack_decoder_stream_init in
  0 <= ds_acknowledged_insert_count s <= insert_count /\
  wt_qpack_decoder_stream_apply s (Some insert_count) c =
    (apply_decoder_instruction s (Some insert_count) i, cursor_advance c (zlen (decoder_instruction_bytes i))) /\
  forall increment, i = InsertCountIncrement increment ->
    apply_decoder_instruction s (Some insert_count) i =
      if ds_acknowledged_insert_count s + increment <=? insert_count
      then (WT_OK, None, mk_decoder_stream (ds_acknowledged_insert_count s + increment) (ds_sections_acknowledged s) (ds_streams_cancelled s))
      else (WT_ERR_PROTOCOL, Some WT_QPACK_ERROR_DECODER_STREAM, s).
Proof.
  intros Hn [Hi Hl']%Forall_cons Hl Hv s.
  assert (Hstep : forall s n, 0 <= ds_acknowledged_insert_count s <= insert_count -> varint_ok n -> n <> 0 ->
            apply_decoder_instruction s (Some insert_count) (InsertCountIncrement n) =
            if ds_acknowledged_insert_count s + n <=? insert_count
            then (WT_OK, None, mk_decoder_stream (ds_acknowledged_insert_count s + n) (ds_sections_acknowledged s) (ds_streams_cancelled s))
            else (WT_ERR_PROTOCOL, Some WT_QPACK_ERROR_DECODER_STREAM, s)).
  { intros s' n Hs' Hvn Hnz. unfold varint_ok, WT_QUIC_VARINT_MAX in Hvn. cbn [apply_decoder_instruction].
    rewrite (proj2 (Z.eqb_neq n 0) Hnz). unfold U64_MAX. rewrite (u64_small (2 ^ 64 - 1 - n)) by (unfold is_u64; lia).
    destruct (Z.ltb_spec (2 ^ 64 - 1 - n) (ds_acknowledged_insert_count s')).
    - by rewrite (proj2 (Z.leb_gt _ insert_count)) by lia.
    - rewrite (u64_small (_ + n)) by (unfold is_u64; lia).
      destruct (Z.ltb_spec insert_count (ds_acknowledged_insert_count s' + n));
        [by rewrite (proj2 (Z.leb_gt _ insert_count)) by lia|by rewrite (proj2 (Z.leb_le _ insert_count)) by lia]. }
  assert (Hs : 0 <= ds_acknowledged_insert_count s <= insert_count).
  { assert (H : forall l s, Forall decoder_instruction_ok l -> 0 <= ds_acknowledged_insert_count s <= insert_count ->
              0 <= ds_acknowledged_insert_count (fold_left (decoder_step insert_count) l s) <= insert_count).
    { clear l i s Hi Hl' Hv. intros l. induction l as [|i l IH]; intros s Hok Hs; [done|].
      apply Forall_cons in Hok as [Hi Hok]. apply IH; [done|]. unfold decoder_step.
      destruct i as [n|n|n]; [done|done|]. destruct Hi as [Hvn Hnz]. rewrite Hstep by done.
      destruct (Z.leb_spec (ds_acknowledged_insert_count s + n) insert_count); cbn; [|done].
      unfold varint_ok in Hvn. lia. }
    apply H; [done|cbn; lia]. }
  split_and!; [lia|lia| |].
  - unfold wt_qpack_decoder_stream_apply. by rewrite (decodes_decoder_instruction i Hi c tl).
  - intros increment ->. destruct Hi. by apply Hstep.
Qed.

Lemma acknowledged_within_inserted_witness :
  let s := fold_left (decoder_step 5) [InsertCountIncrement 3] wt_qpack_decoder_stream_init in
  0 <= ds_acknowledged_insert_count s <= 5 /\
  wt_qpack_decoder_stream_apply s (Some 5) (wt_cursor_init (Some [3]) 1) =
    (apply_decoder_instruction s (Some 5) (InsertCountIncrement 3),
     cursor_advance (wt_cursor_init (Some [3]) 1) (zlen (decoder_instruction_bytes (InsertCountIncrement 3)))) /\
  forall increment, InsertCountIncrement 3 = InsertCountIncrement increment ->
    apply_decoder_instruction s (Some 5) (InsertCountIncrement 3) =
      if ds_acknowledged_insert_count s + increment <=? 5
      then (WT_OK, None, mk_decoder_stream (ds_acknowledged_insert_count s + increment) (ds_sections_acknowledged s) (ds_streams_cancelled s))
      else (WT_ERR_PROTOCOL, Some WT_QPACK_ERROR_DECODER_STREAM, s).
Proof.
  apply (acknowledged_within_inserted 5 [InsertCountIncrement 3] (InsertCountIncrement 3) (wt_cursor_init (Some [3]) 1) []).
  - lia.
  - repeat constructor; unfold varint_ok, WT_QUIC_VARINT_MAX; try lia; done.
  - by apply cursor_init_live; [|apply bytes_okb_spec].
  - done.
Defined.
