(* ===== verification/QpackField.v ===== *)
(** * QPACK field lines and sections:
    [src/http3/qpack_field.c], [qpack_field_section.c], [qpack_field_section_codec.c]

    The seven representations of a field line in both directions, the resolution of
    a line against the static table, the dynamic table and the section's prefix, and
    whole sections.  A resolved name or value is a view: into the section, a table, or
    the caller's scratch buffer, where Huffman-coded strings are decoded one after
    another; what a view reads is read when the section is finished. *)

From S2P Require Export QpackStreams.
#[local] Open Scope Z_scope.

(** ** Field lines *)

Inductive wt_qpack_field_kind :=
  | WT_QPACK_FIELD_INDEXED_STATIC
  | WT_QPACK_FIELD_INDEXED_DYNAMIC
  | WT_QPACK_FIELD_LITERAL_NAME_REF_STATIC
  | WT_QPACK_FIELD_LITERAL_NAME_REF_DYNAMIC
  | WT_QPACK_FIELD_LITERAL_LITERAL_NAME
  | WT_QPACK_FIELD_POST_BASE_INDEX
  | WT_QPACK_FIELD_POST_BASE_NAME_REF.

#[export] Instance wt_qpack_field_kind_eq_dec : EqDecision wt_qpack_field_kind.
Proof. solve_decision. Defined.

Record wt_qpack_field_line := mk_line {
  ln_kind : wt_qpack_field_kind;
  ln_never_indexed : bool;
  ln_index : Z;
  ln_name_huffman : bool;
  ln_name : list Z;
  ln_value : list Z;
  ln_value_huffman : bool;
  ln_bytes_consumed : Z }.

Definition field_line_body : parser wt_qpack_field_line :=
  with_peek None (fun first =>
    if flag first 0x80 then
      index <- wt_qpack_integer_decode 6;;
      pret (mk_line (if flag first 0x40 then WT_QPACK_FIELD_INDEXED_STATIC else WT_QPACK_FIELD_INDEXED_DYNAMIC)
                    false index false [] [] false 0)
    else if flag first 0x40 then
      index <- wt_qpack_integer_decode 4;;
      value <- wt_qpack_string_decode;;
      pret (mk_line (if flag first 0x10 then WT_QPACK_FIELD_LITERAL_NAME_REF_STATIC
                     else WT_QPACK_FIELD_LITERAL_NAME_REF_DYNAMIC)
                    (flag first 0x20) index false [] value.1 value.2 0)
    else if flag first 0x20 then
      name_length <- wt_qpack_integer_decode 3;;
      match wt_checked_narrow_u64_to_size name_length with
      | Fail _ _ => pfail WT_ERR_PROTOCOL None
      | Ok name_length =>
          name <- bytes_or_truncated name_length None;;
          value <- wt_qpack_string_decode;;
          pret (mk_line WT_QPACK_FIELD_LITERAL_LITERAL_NAME (flag first 0x10) 0 (flag first 0x08) name value.1 value.2 0)
      end
    else if flag first 0x10 then
      index <- wt_qpack_integer_decode 4;;
      pret (mk_line WT_QPACK_FIELD_POST_BASE_INDEX false index false [] [] false 0)
    else
      index <- wt_qpack_integer_decode 3;;
      value <- wt_qpack_string_decode;;
      pret (mk_line WT_QPACK_FIELD_POST_BASE_NAME_REF (flag first 0x08) index false [] value.1 value.2 0)).

Definition set_consumed (l : wt_qpack_field_line) (n : Z) : wt_qpack_field_line :=
  mk_line (ln_kind l) (ln_never_indexed l) (ln_index l) (ln_name_huffman l) (ln_name l) (ln_value l)
          (ln_value_huffman l) n.

Definition wt_qpack_field_line_decode : parser wt_qpack_field_line := fun c =>
  match field_line_body c with
  | (Ok l, c') => (Ok (set_consumed l (u64 (wt_cursor_remaining c - wt_cursor_remaining c'))), c')
  | r => r
  end.

(** The literal name, coded into the scratch when the line asks for it. *)
Definition literal_name (l : wt_qpack_field_line) (scratch_capacity : Z) : option (list Z) :=
  if ln_name_huffman l then
    match wt_qpack_huffman_encoded_size (ln_name l) with
    | Fail _ _ => None
    | Ok needed =>
        if scratch_capacity <? needed then None
        else match wt_qpack_huffman_encode (ln_name l) scratch_capacity with Ok coded => Some coded | Fail _ _ => None end
    end
  else Some (ln_name l).

Definition line_flags (l : wt_qpack_field_line) : Z :=
  match ln_kind l with
  | WT_QPACK_FIELD_INDEXED_STATIC => 0xc0
  | WT_QPACK_FIELD_INDEXED_DYNAMIC => 0x80
  | WT_QPACK_FIELD_LITERAL_NAME_REF_STATIC => Z.lor (Z.lor 0x40 0x10) (if ln_never_indexed l then 0x20 else 0)
  | WT_QPACK_FIELD_LITERAL_NAME_REF_DYNAMIC => Z.lor 0x40 (if ln_never_indexed l then 0x20 else 0)
  | WT_QPACK_FIELD_LITERAL_LITERAL_NAME =>
      Z.lor (Z.lor 0x20 (if ln_never_indexed l then 0x10 else 0)) (if ln_name_huffman l then 0x08 else 0)
  | WT_QPACK_FIELD_POST_BASE_INDEX => 0x10
  | WT_QPACK_FIELD_POST_BASE_NAME_REF => if ln_never_indexed l then 0x08 else 0x00
  end.

Definition wt_qpack_field_line_encode_coded (l : wt_qpack_field_line) (scratch_capacity : Z) (w : wt_writer) :
    wt_status * wt_writer :=
  let value := wt_qpack_string_encode_coded (ln_value l) (ln_value_huffman l) scratch_capacity in
  match ln_kind l with
  | WT_QPACK_FIELD_INDEXED_STATIC | WT_QPACK_FIELD_INDEXED_DYNAMIC =>
      wt_qpack_integer_encode 6 (line_flags l) (ln_index l) w
  | WT_QPACK_FIELD_LITERAL_NAME_REF_STATIC | WT_QPACK_FIELD_LITERAL_NAME_REF_DYNAMIC =>
      or_limit (wt_qpack_integer_encode 4 (line_flags l) (ln_index l)) value w
  | WT_QPACK_FIELD_LITERAL_LITERAL_NAME =>
      match literal_name l scratch_capacity with
      | None => (WT_ERR_LIMIT, w)
      | Some wire =>
          or_limit (or_limit (wt_qpack_integer_encode 3 (line_flags l) (zlen wire))
                             (fun w => writer_status (writer_bytes_if wire w))) value w
      end
  | WT_QPACK_FIELD_POST_BASE_INDEX => wt_qpack_integer_encode 4 (line_flags l) (ln_index l) w
  | WT_QPACK_FIELD_POST_BASE_NAME_REF =>
      or_limit (wt_qpack_integer_encode 3 (line_flags l) (ln_index l)) value w
  end.

Definition wt_qpack_field_line_encode (l : wt_qpack_field_line) (w : wt_writer) : wt_status * wt_writer :=
  if ln_name_huffman l || ln_value_huffman l then (WT_ERR_STATE, w) else wt_qpack_field_line_encode_coded l 0 w.

Definition wt_qpack_field_line_static_name (l : wt_qpack_field_line) : outcome (list Z) :=
  match ln_kind l with
  | WT_QPACK_FIELD_LITERAL_LITERAL_NAME => Ok (ln_name l)
  | WT_QPACK_FIELD_INDEXED_STATIC | WT_QPACK_FIELD_LITERAL_NAME_REF_STATIC =>
      match wt_qpack_static_entry (ln_index l) with Ok e => Ok e.1 | Fail _ _ => Fail WT_ERR_PROTOCOL None end
  | _ => Fail WT_ERR_STATE None
  end.

(** ** Resolving a line *)

(** A pointer and a length of a resolved field. *)
Inductive field_view :=
  | Inline (bytes : list Z)            (** into the section or the static table *)
  | FromTable (a : bytes_arg)          (** into the dynamic table's arena *)
  | FromScratch (offset length : Z).   (** into the caller's scratch buffer *)

(** The caller's buffer and the section's cursor into it. *)
Record scratch_buffer := mk_scratch { sb_bytes : list Z; sb_used : Z }.

Definition view_read (t : wt_qpack_dynamic_table) (s : scratch_buffer) (v : field_view) : list Z :=
  match v with
  | Inline bytes => bytes
  | FromTable a => arg_read t a
  | FromScratch offset length => zslice offset length (sb_bytes s)
  end.

(** A string of the line, decoded into the scratch at its cursor when it is Huffman-coded.
    What a failed decode leaves beyond the cursor is not modelled. *)
Definition materialise (bytes : list Z) (huffman : bool) (s : scratch_buffer) : outcome field_view * scratch_buffer :=
  if negb huffman then (Ok (Inline bytes), s)
  else if zlen (sb_bytes s) <? sb_used s then (Fail WT_ERR_LIMIT None, s)
  else
    match wt_qpack_huffman_decode bytes (u64 (zlen (sb_bytes s) - sb_used s)) with
    | Some (Ok decoded) =>
        (Ok (FromScratch (sb_used s) (zlen decoded)),
         mk_scratch (write_at (sb_bytes s) (sb_used s) decoded) (u64 (sb_used s + zlen decoded)))
    | Some (Fail e c) => (Fail e c, s)
    | None => (Fail WT_ERR_STATE None, s)
    end.

Definition decompression_failed {A} : outcome A := Fail WT_ERR_PROTOCOL (Some WT_QPACK_ERROR_DECOMPRESSION_FAILED).

(** [table == NULL] is [None]. *)
Definition dynamic_lookup (t : option wt_qpack_dynamic_table) (absolute : Z) : outcome (bytes_arg * bytes_arg) :=
  match t with
  | None => decompression_failed
  | Some t => match wt_qpack_dynamic_entry t absolute with Ok e => Ok e | Fail _ _ => decompression_failed end
  end.

(** The absolute index of a reference to the dynamic table. *)
Definition dynamic_index (p : wt_qpack_header_prefix) (post_base : bool) (index : Z) : option Z :=
  if post_base then
    if u64 (U64_MAX - hp_base p) <? index then None
    else
      let absolute := u64 (hp_base p + index) in
      if hp_required_insert_count p <=? absolute then None else Some absolute
  else
    if hp_base p <=? index then None
    else
      let absolute := u64 (u64 (hp_base p - index) - 1) in
      if hp_required_insert_count p <=? absolute then None else Some absolute.

Definition dynamic_field (p : wt_qpack_header_prefix) (t : option wt_qpack_dynamic_table) (post_base : bool)
    (index : Z) (value : option field_view) : outcome (field_view * field_view) :=
  match dynamic_index p post_base index with
  | None => decompression_failed
  | Some absolute =>
      match dynamic_lookup t absolute with
      | Fail s e => Fail s e
      | Ok (entry_name, entry_value) => Ok (FromTable entry_name, default (FromTable entry_value) value)
      end
  end.

(** The code a failed string reports: a full scratch is the caller's bound, not the peer's error. *)
Definition string_failure {A} (s : wt_status) : outcome A :=
  Fail s (if bool_decide (s = WT_ERR_LIMIT) then None else Some WT_QPACK_ERROR_DECOMPRESSION_FAILED).

Definition is_indexed (k : wt_qpack_field_kind) : bool :=
  bool_decide (k = WT_QPACK_FIELD_INDEXED_STATIC) || bool_decide (k = WT_QPACK_FIELD_INDEXED_DYNAMIC).

(** The switch of [wt_qpack_field_section_next], with the inline value decoded. *)
Definition resolve_line (p : wt_qpack_header_prefix) (t : option wt_qpack_dynamic_table) (l : wt_qpack_field_line)
    (value : field_view) (s : scratch_buffer) : outcome (field_view * field_view) * scratch_buffer :=
  match ln_kind l with
  | WT_QPACK_FIELD_INDEXED_STATIC =>
      (match wt_qpack_static_entry (ln_index l) with
       | Ok e => Ok (Inline e.1, Inline e.2)
       | Fail _ _ => decompression_failed
       end, s)
  | WT_QPACK_FIELD_LITERAL_NAME_REF_STATIC =>
      (match wt_qpack_static_entry (ln_index l) with
       | Ok e => Ok (Inline e.1, value)
       | Fail _ _ => decompression_failed
       end, s)
  | WT_QPACK_FIELD_INDEXED_DYNAMIC => (dynamic_field p t false (ln_index l) None, s)
  | WT_QPACK_FIELD_LITERAL_NAME_REF_DYNAMIC => (dynamic_field p t false (ln_index l) (Some value), s)
  | WT_QPACK_FIELD_POST_BASE_INDEX => (dynamic_field p t true (ln_index l) None, s)
  | WT_QPACK_FIELD_POST_BASE_NAME_REF => (dynamic_field p t true (ln_index l) (Some value), s)
  | WT_QPACK_FIELD_LITERAL_LITERAL_NAME =>
      match materialise (ln_name l) (ln_name_huffman l) s with
      | (Ok name, s') => (Ok (name, value), s')
      | (Fail e _, s') => (string_failure e, s')
      end
  end.

Definition wt_qpack_field_section_next (p : wt_qpack_header_prefix) (t : option wt_qpack_dynamic_table)
    (c : wt_cursor) (s : scratch_buffer) : outcome (field_view * field_view) * wt_cursor * scratch_buffer :=
  if wt_cursor_at_end c then (Fail WT_ERR_CLOSED None, c, s)
  else
    match or_qpack_error WT_QPACK_ERROR_DECOMPRESSION_FAILED wt_qpack_field_line_decode c with
    | (Fail e code, c') => (Fail e code, c', s)
    | (Ok l, c') =>
        match
          if is_indexed (ln_kind l) then (Ok (Inline []), s) else materialise (ln_value l) (ln_value_huffman l) s
        with
        | (Fail e _, s') => (string_failure e, c', s')
        | (Ok value, s') => let '(o, s'') := resolve_line p t l value s' in (o, c', s'')
        end
    end.

(** ** Whole sections *)

Record wt_qpack_field_section_decoder := mk_section {
  sd_prefix : wt_qpack_header_prefix;
  sd_table : option wt_qpack_dynamic_table;
  sd_cursor : wt_cursor;
  sd_scratch_used : Z }.

(** The decoder, or the status and error that stop it.  WT_ERR_AGAIN is a blocked section. *)
Definition wt_qpack_field_section_begin (t : option wt_qpack_dynamic_table) (max_entries : Z) (bytes : list Z)
    (known_insert_count : Z) : outcome wt_qpack_field_section_decoder :=
  match wt_qpack_header_prefix_decode max_entries known_insert_count (wt_cursor_init (Some bytes) (zlen bytes)) with
  | (Fail s e, _) => Fail s e
  | (Ok p, c) =>
      if known_insert_count <? hp_required_insert_count p then Fail WT_ERR_AGAIN None
      else Ok (mk_section p t c 0)
  end.

Definition wt_qpack_field_section_decoder_next (d : wt_qpack_field_section_decoder) (scratch : list Z) :
    outcome (field_view * field_view) * wt_qpack_field_section_decoder * list Z :=
  let '(o, c, s) := wt_qpack_field_section_next (sd_prefix d) (sd_table d) (sd_cursor d)
                      (mk_scratch scratch (sd_scratch_used d)) in
  (o, mk_section (sd_prefix d) (sd_table d) c (sb_used s), sb_bytes s).

Fixpoint encode_lines (lines : list wt_qpack_field_line) (scratch_capacity : Z) (w : wt_writer) : wt_status * wt_writer :=
  match lines with
  | [] => (WT_OK, w)
  | l :: lines =>
      match wt_qpack_field_line_encode_coded l scratch_capacity w with
      | (WT_OK, w') => encode_lines lines scratch_capacity w'
      | r => r
      end
  end.

Definition wt_qpack_field_section_encode (p : wt_qpack_header_prefix) (max_entries : Z)
    (lines : list wt_qpack_field_line) (scratch_capacity : Z) : wt_writer -> wt_status * wt_writer :=
  or_limit (wt_qpack_header_prefix_encode (hp_required_insert_count p) (hp_base p) max_entries)
           (encode_lines lines scratch_capacity).

(** ** The wire form of a line *)

(** The representations that carry a value, and the one that carries a name. *)
Definition has_value (k : wt_qpack_field_kind) : bool :=
  negb (is_indexed k) && negb (bool_decide (k = WT_QPACK_FIELD_POST_BASE_INDEX)).

Definition has_name (k : wt_qpack_field_kind) : bool := bool_decide (k = WT_QPACK_FIELD_LITERAL_LITERAL_NAME).

Definition line_ok (l : wt_qpack_field_line) : Prop :=
  (has_name (ln_kind l) = false -> varint_ok (ln_index l)) /\
  (has_name (ln_kind l) = true -> string_ok (ln_name l)) /\
  (has_value (ln_kind l) = true -> string_ok (ln_value l)).

(** The Huffman-coded strings of the line can be built in a buffer of this size. *)
Definition codable (l : wt_qpack_field_line) (capacity : Z) : Prop :=
  (has_name (ln_kind l) = true -> ln_name_huffman l = true -> padded_size (ln_name l) <= capacity < 2 ^ 60) /\
  (has_value (ln_kind l) = true -> ln_value_huffman l = true -> padded_size (ln_value l) <= capacity < 2 ^ 60).

(** The width of the integer in the first byte. *)
Definition line_prefix (k : wt_qpack_field_kind) : Z :=
  match k with
  | WT_QPACK_FIELD_INDEXED_STATIC | WT_QPACK_FIELD_INDEXED_DYNAMIC => 6
  | WT_QPACK_FIELD_LITERAL_NAME_REF_STATIC | WT_QPACK_FIELD_LITERAL_NAME_REF_DYNAMIC
  | WT_QPACK_FIELD_POST_BASE_INDEX => 4
  | WT_QPACK_FIELD_LITERAL_LITERAL_NAME | WT_QPACK_FIELD_POST_BASE_NAME_REF => 3
  end.

Definition line_head (l : wt_qpack_field_line) : list Z :=
  if has_name (ln_kind l) then
    integer_bytes 3 (line_flags l) (zlen (string_content (ln_name l) (ln_name_huffman l))) ++
    string_content (ln_name l) (ln_name_huffman l)
  else integer_bytes (line_prefix (ln_kind l)) (line_flags l) (ln_index l).

Definition line_bytes (l : wt_qpack_field_line) : list Z :=
  line_head l ++ (if has_value (ln_kind l) then string_bytes (ln_value l) (ln_value_huffman l) else []).

(** The line as it is read: strings in their wire form, nothing in the fields its kind does not use. *)
Definition wire_line (l : wt_qpack_field_line) : wt_qpack_field_line :=
  let k := ln_kind l in
  mk_line k (has_value k && ln_never_indexed l) (if has_name k then 0 else ln_index l)
    (has_name k && ln_name_huffman l) (if has_name k then string_content (ln_name l) (ln_name_huffman l) else [])
    (if has_value k then string_content (ln_value l) (ln_value_huffman l) else [])
    (has_value k && ln_value_huffman l) 0.

Lemma line_flags_ok l : flags_ok (line_prefix (ln_kind l)) (line_flags l).
Proof.
  unfold flags_ok, is_u8, line_flags, line_prefix.
  destruct l as [k nv i nh n v vh b]; destruct k, nv, nh; cbn; split_and!; lia || done.
Qed.

Lemma encodes_line l capacity :
  line_ok l -> codable l capacity -> encodes (wt_qpack_field_line_encode_coded l capacity) (line_bytes l).
Proof.
  intros (Hidx & Hname & Hval) [Hcn Hcv]. pose proof (line_flags_ok l) as Hf.
  unfold wt_qpack_field_line_encode_coded, line_bytes, line_head, line_prefix, has_value, has_name, is_indexed in *.
  destruct (ln_kind l) eqn:Hk; cbn [bool_decide negb andb orb] in *; rewrite ?app_nil_r;
    repeat (rewrite bool_decide_true in * by done); repeat (rewrite bool_decide_false in * by done); cbn [negb andb orb] in *;
    try specialize (Hidx eq_refl); try specialize (Hval eq_refl); try specialize (Hcv eq_refl); try specialize (Hname eq_refl);
    try specialize (Hcn eq_refl).
  1,2,6: rewrite ?app_nil_r; by apply encodes_integer.
  1,2,4: apply encodes_seq; [by apply encodes_integer|by apply encodes_string].
  assert (Hwire : literal_name l capacity = Some (string_content (ln_name l) (ln_name_huffman l))).
  { unfold literal_name. destruct (ln_name_huffman l); [|done]. specialize (Hcn eq_refl).
    rewrite encoded_size_spec by (destruct Hname; lia). ztest.
    by rewrite (proj1 (huffman_content _ capacity Hname Hcn)). }
  rewrite Hwire. apply encodes_seq; [|by apply encodes_string].
  apply encodes_seq; [|apply encodes_status, appends_bytes_if]. apply encodes_integer; [done|]. by apply string_length_ok.
Qed.

(** What the flags of the first byte say, by representation. *)
Lemma line_flag_bits l :
  flag (line_flags l) 0x80 = is_indexed (ln_kind l) /\
  match ln_kind l with
  | WT_QPACK_FIELD_INDEXED_STATIC => flag (line_flags l) 0x40 = true
  | WT_QPACK_FIELD_INDEXED_DYNAMIC => flag (line_flags l) 0x40 = false
  | WT_QPACK_FIELD_LITERAL_NAME_REF_STATIC =>
      flag (line_flags l) 0x40 = true /\ flag (line_flags l) 0x10 = true /\ flag (line_flags l) 0x20 = ln_never_indexed l
  | WT_QPACK_FIELD_LITERAL_NAME_REF_DYNAMIC =>
      flag (line_flags l) 0x40 = true /\ flag (line_flags l) 0x10 = false /\ flag (line_flags l) 0x20 = ln_never_indexed l
  | WT_QPACK_FIELD_LITERAL_LITERAL_NAME =>
      flag (line_flags l) 0x40 = false /\ flag (line_flags l) 0x20 = true /\
      flag (line_flags l) 0x10 = ln_never_indexed l /\ flag (line_flags l) 0x08 = ln_name_huffman l
  | WT_QPACK_FIELD_POST_BASE_INDEX =>
      flag (line_flags l) 0x40 = false /\ flag (line_flags l) 0x20 = false /\ flag (line_flags l) 0x10 = true
  | WT_QPACK_FIELD_POST_BASE_NAME_REF =>
      flag (line_flags l) 0x40 = false /\ flag (line_flags l) 0x20 = false /\ flag (line_flags l) 0x10 = false /\
      flag (line_flags l) 0x08 = ln_never_indexed l
  end.
Proof. destruct l as [k nv i nh n v vh b]; destruct k, nv, nh; vm_compute; split_and!; reflexivity. Qed.

(** The head of a line starts with its flags. *)
Lemma line_head_first l :
  line_ok l ->
  exists b rest, line_head l = b :: rest /\
    forall m, 0 <= m -> m mod 2 ^ line_prefix (ln_kind l) = 0 -> flag b m = flag (line_flags l) m.
Proof.
  intros (Hidx & Hname & _). pose proof (line_flags_ok l) as Hf. unfold line_head.
  assert (Hpos : has_name (ln_kind l) = false -> 0 <= ln_index l) by (intros E; specialize (Hidx E); unfold varint_ok in *; lia).
  destruct (has_name (ln_kind l)) eqn:Hn.
  - assert (Hp : line_prefix (ln_kind l) = 3) by (apply bool_decide_eq_true in Hn; by rewrite Hn).
    rewrite Hp in *. destruct (integer_bytes_cons 3 (line_flags l) (zlen (string_content (ln_name l) (ln_name_huffman l)))) as (b & r & E).
    rewrite E. exists b, (r ++ string_content (ln_name l) (ln_name_huffman l)). split; [done|]. intros m Hm Hd.
    eapply flag_first; [exact Hf| |exact E|done|done]. apply zlen_nonneg.
  - destruct (integer_bytes_cons (line_prefix (ln_kind l)) (line_flags l) (ln_index l)) as (b & r & E).
    rewrite E. exists b, r. split; [done|]. intros m Hm Hd. eapply flag_first; [exact Hf| |exact E|done|done]. auto.
Qed.

Lemma decodes_line_body l : line_ok l -> decodes field_line_body (line_bytes l) (wire_line l).
Proof.
  intros Hok. pose proof (line_flags_ok l) as Hf. destruct (line_flag_bits l) as [F80 Fk].
  destruct (line_head_first l Hok) as (b & rest & Eb & Hb). destruct Hok as (Hidx & Hname & Hval).
  unfold field_line_body, line_bytes. rewrite Eb at 1. rewrite <- app_comm_cons. apply decodes_with_peek.
  rewrite app_comm_cons, <- Eb. unfold wire_line.
  assert (Hint : forall bits, line_prefix (ln_kind l) = bits -> has_name (ln_kind l) = false ->
            decodes (wt_qpack_integer_decode bits) (line_head l) (ln_index l)).
  { intros bits <- Hn. unfold line_head. rewrite Hn. by apply decodes_integer; auto. }
  rewrite (Hb 0x80), F80 by (lia || by destruct (ln_kind l)).
  destruct (ln_kind l) eqn:Hk; cbn [is_indexed bool_decide orb];
    change (is_indexed _) with true || change (is_indexed _) with false;
    change (has_value _) with true in * || change (has_value _) with false in *;
    change (has_name _) with true in * || change (has_name _) with false in *;
    cbn [andb line_prefix] in *; try specialize (Hval eq_refl);
    repeat (rewrite Hb by (lia || done)); rewrite ?app_nil_r.
  - rewrite Fk. eapply decodes_bind_nil; [by apply Hint|apply decodes_ret].
  - rewrite Fk. eapply decodes_bind_nil; [by apply Hint|apply decodes_ret].
  - destruct Fk as (-> & -> & ->). eapply decodes_bind; [by apply Hint|].
    eapply decodes_bind_nil; [by apply decodes_string|apply decodes_ret].
  - destruct Fk as (-> & -> & ->). eapply decodes_bind; [by apply Hint|].
    eapply decodes_bind_nil; [by apply decodes_string|apply decodes_ret].
  - destruct Fk as (-> & -> & -> & ->). specialize (Hname eq_refl). unfold line_head. rewrite Hk.
    change (has_name _) with true. cbn match. rewrite <- app_assoc.
    pose proof (string_length_ok (ln_name l) (ln_name_huffman l) Hname) as Hlen.
    eapply decodes_bind; [by apply decodes_integer|].
    unfold wt_checked_narrow_u64_to_size, SIZE_MAX, U64_MAX. unfold varint_ok, WT_QUIC_VARINT_MAX in Hlen. ztest. no_wrap.
    eapply decodes_bind; [by apply decodes_bytes_or_truncated|].
    eapply decodes_bind_nil; [by apply decodes_string|apply decodes_ret].
  - destruct Fk as (-> & -> & ->). eapply decodes_bind_nil; [by apply Hint|apply decodes_ret].
  - destruct Fk as (-> & -> & -> & ->). eapply decodes_bind; [by apply Hint|].
    eapply decodes_bind_nil; [by apply decodes_string|apply decodes_ret].
Qed.

Lemma decodes_line l :
  line_ok l -> decodes wt_qpack_field_line_decode (line_bytes l) (set_consumed (wire_line l) (zlen (line_bytes l))).
Proof.
  intros Hok c tl Hl Hv. unfold wt_qpack_field_line_decode. rewrite (decodes_line_body l Hok c tl Hl Hv).
  destruct (cursor_advance_prefix c _ _ Hl Hv) as [Hl' Hv'].
  rewrite !cursor_remaining_view by (apply Hl || apply Hl' || apply (proj1 (proj2 Hl)) || apply (proj1 (proj2 Hl'))).
  rewrite Hv, Hv', zlen_app. replace (zlen (line_bytes l) + zlen tl - zlen tl) with (zlen (line_bytes l)) by lia.
  rewrite u64_small; [done|]. unfold is_u64. pose proof (live_block_ok c Hl) as [_ Hz]. rewrite Hv, zlen_app in Hz.
  pose proof (zlen_nonneg (line_bytes l)). pose proof (zlen_nonneg tl). lia.
Qed.

(** ** What a line means *)

(** The absolute index the line names, when its section may name it. *)
Definition referenced (p : wt_qpack_header_prefix) (absolute : Z) : option Z :=
  if (0 <=? absolute) && (absolute <? hp_required_insert_count p) then Some absolute else None.

(** The field a line stands for: the table's history is [w]. *)
Definition line_meaning (p : wt_qpack_header_prefix) (w : window) (l : wt_qpack_field_line) : option table_entry :=
  let static := if ln_index l <? 99 then Some (static_view (ln_index l)) else None in
  let relative := referenced p (hp_base p - ln_index l - 1) ≫= window_entry w in
  let post_base := referenced p (hp_base p + ln_index l) ≫= window_entry w in
  let valued (e : table_entry) := (e.1, ln_value l) in
  match ln_kind l with
  | WT_QPACK_FIELD_INDEXED_STATIC => static
  | WT_QPACK_FIELD_LITERAL_NAME_REF_STATIC => valued <$> static
  | WT_QPACK_FIELD_INDEXED_DYNAMIC => relative
  | WT_QPACK_FIELD_LITERAL_NAME_REF_DYNAMIC => valued <$> relative
  | WT_QPACK_FIELD_POST_BASE_INDEX => post_base
  | WT_QPACK_FIELD_POST_BASE_NAME_REF => valued <$> post_base
  | WT_QPACK_FIELD_LITERAL_LITERAL_NAME => Some (ln_name l, ln_value l)
  end.

(** The room its Huffman-coded strings take once decoded. *)
Definition decoded_room (s : list Z) (huffman : bool) : Z := if huffman then zlen s else 0.

Definition line_room (l : wt_qpack_field_line) : Z :=
  (if has_value (ln_kind l) then decoded_room (ln_value l) (ln_value_huffman l) else 0) +
  (if has_name (ln_kind l) then decoded_room (ln_name l) (ln_name_huffman l) else 0).

Definition scratch_ok (s : scratch_buffer) : Prop := 0 <= sb_used s <= zlen (sb_bytes s) /\ zlen (sb_bytes s) < 2 ^ 63.

(** The later buffer keeps what the earlier one had written. *)
Definition scratch_extends (s s' : scratch_buffer) : Prop :=
  sb_used s <= sb_used s' /\ zlen (sb_bytes s') = zlen (sb_bytes s) /\
  ztake (sb_used s) (sb_bytes s') = ztake (sb_used s) (sb_bytes s).

(** The view reads [bs] from this buffer and from every later one. *)
Definition stays (t : wt_qpack_dynamic_table) (s : scratch_buffer) (v : field_view) (bs : list Z) : Prop :=
  forall s', scratch_extends s s' -> view_read t s' v = bs.

#[export] Instance scratch_extends_preorder : PreOrder scratch_extends.
Proof.
  split.
  - intros s. by repeat split.
  - intros s1 s2 s3 (U1 & L1 & T1) (U2 & L2 & T2). split_and!; [lia|congruence|].
    by rewrite <- T1, <- (ztake_ztake (sb_used s1) (sb_used s2) (sb_bytes s3)), T2, ztake_ztake by lia.
Qed.

Lemma stays_extends t s s' v bs : scratch_extends s s' -> stays t s v bs -> stays t s' v bs.
Proof. intros He Hs s2 He'. apply Hs. by etrans. Qed.

(** ** Resolving *)

Lemma materialise_reads text huffman s :
  string_ok text -> scratch_ok s -> sb_used s + decoded_room text huffman <= zlen (sb_bytes s) ->
  exists v s', materialise (string_content text huffman) huffman s = (Ok v, s') /\
    sb_used s' = sb_used s + decoded_room text huffman /\ scratch_ok s' /\ scratch_extends s s' /\
    forall t, stays t s' v text.
Proof.
  intros Ht [Hu Hz] Hr. pose proof (zlen_nonneg text). unfold materialise, decoded_room in *.
  destruct huffman; cbn [negb].
  2: { exists (Inline text), s. split_and!; try done; lia. }
  ztest. pose proof (text_bits_bound text). pose proof Ht as [_ Htz].
  destruct (huffman_content text (padded_size text) Ht) as (_ & _ & _ & Hd); [unfold padded_size; zdm|].
  rewrite u64_small by (unfold is_u64; lia). rewrite Hd by lia. rewrite u64_small by (unfold is_u64; lia).
  eexists _, _; split; [reflexivity|]. unfold scratch_ok, scratch_extends; cbn [sb_used sb_bytes].
  rewrite zlen_write_at by lia. split_and!; try lia.
  - rewrite <- (ztake_ztake _ (sb_used s + zlen text)), ztake_write_at by lia.
    apply ztake_app_exact. rewrite zlen_ztake; lia.
  - intros t' s' (U & L & T). cbn [sb_used sb_bytes view_read] in *.
    rewrite <- (zslice_ztake _ _ (sb_used s + zlen text)), T, ztake_write_at by lia.
    rewrite <- (app_nil_r (_ ++ text)), <- app_assoc. apply zslice_middle; [rewrite zlen_ztake; lia|done].
Qed.

Definition resolves (t : wt_qpack_dynamic_table) (s : scratch_buffer) (e : table_entry) (f : field_view * field_view) : Prop :=
  stays t s f.1 e.1 /\ stays t s f.2 e.2.

(** A reference to the dynamic table names the entry of the window. *)
Lemma dynamic_field_meaning p t w (post_base : bool) index value e :
  represents t w -> 0 <= hp_base p < 2 ^ 62 -> varint_ok index ->
  referenced p (if post_base then hp_base p + index else hp_base p - index - 1) ≫= window_entry w = Some e ->
  exists name table_value,
    dynamic_field p (Some t) post_base index value = Ok (name, default table_value value) /\
    (forall s, stays t s name e.1) /\ (forall s, stays t s table_value e.2).
Proof.
  intros Hr Hb Hi He. apply bind_Some in He as (absolute & Ha & He).
  unfold referenced in Ha. destruct ((0 <=? _) && _) eqn:E; [|done]. injection Ha as <-.
  apply andb_true_iff in E as [E1%Z.leb_le E2%Z.ltb_lt]. unfold varint_ok, WT_QUIC_VARINT_MAX in Hi.
  set (absolute := if post_base then hp_base p + index else hp_base p - index - 1) in *.
  assert (Habs : dynamic_index p post_base index = Some absolute).
  { unfold dynamic_index, U64_MAX. subst absolute. destruct post_base; no_wrap; ztest; done. }
  pose proof (represents_entry t w absolute Hr E1) as Hent. rewrite He in Hent.
  destruct Hent as (off & Hent & Hn & Hv). unfold dynamic_field, dynamic_lookup. rewrite Habs, Hent.
  eexists _, _. split; [reflexivity|]. split; intros s s' _; cbn [view_read]; done.
Qed.

Lemma static_meaning index e :
  (if index <? 99 then Some (static_view index) else None) = Some e -> wt_qpack_static_entry index = Ok e.
Proof.
  unfold wt_qpack_static_entry, WT_QPACK_STATIC_TABLE_SIZE. destruct (Z.ltb_spec index 99) as [H|H]; [|done].
  intros [= <-]. by rewrite (proj2 (Z.leb_gt 99 index)) by lia.
Qed.

Lemma cursor_live_at_end c : cursor_live c -> wt_cursor_at_end c = match cursor_view c with [] => true | _ => false end.
Proof.
  intros (Hi & Hf & Hd). pose proof (cursor_view_len c Hi) as Hz. unfold wt_cursor_at_end. rewrite Hf.
  destruct (cursor_view c) as [|b l]; [rewrite zlen_nil in Hz|rewrite zlen_cons in Hz; pose proof (zlen_nonneg l)]; lia.
Qed.

(** The value's turn: decoded for the representations that carry one. *)
Lemma line_value_reads l s :
  line_ok l -> scratch_ok s -> sb_used s + line_room l <= zlen (sb_bytes s) ->
  exists value s',
    (if is_indexed (ln_kind l) then (Ok (Inline []), s)
     else materialise (ln_value (wire_line l)) (ln_value_huffman (wire_line l)) s) = (Ok value, s') /\
    sb_used s' = sb_used s + (if has_value (ln_kind l) then decoded_room (ln_value l) (ln_value_huffman l) else 0) /\
    scratch_ok s' /\ scratch_extends s s' /\
    (has_value (ln_kind l) = true -> forall t, stays t s' value (ln_value l)).
Proof.
  intros (_ & _ & Hv) Hs Hr. unfold line_room, wire_line in *. cbn [ln_value ln_value_huffman].
  assert (Hn : 0 <= if has_name (ln_kind l) then decoded_room (ln_name l) (ln_name_huffman l) else 0).
  { unfold decoded_room. pose proof (zlen_nonneg (ln_name l)). repeat case_match; lia. }
  destruct (has_value (ln_kind l)) eqn:Hhv; cbn [andb].
  - assert (is_indexed (ln_kind l) = false) as -> by (unfold has_value in Hhv; by destruct (is_indexed (ln_kind l))).
    destruct (materialise_reads (ln_value l) (ln_value_huffman l) s (Hv eq_refl) Hs ltac:(lia)) as (v & s' & E & U & O & X & R).
    exists v, s'. by split_and!.
  - exists (Inline []), s. split_and!; try done; [by destruct (is_indexed _)|lia].
Qed.

(** The field a line resolves to is the one it means. *)
Lemma resolve_line_meaning p t w l e value s :
  line_ok l -> represents t w -> 0 <= hp_base p < 2 ^ 62 -> line_meaning p w l = Some e ->
  scratch_ok s -> (has_value (ln_kind l) = true -> forall t, stays t s value (ln_value l)) ->
  sb_used s + (if has_name (ln_kind l) then decoded_room (ln_name l) (ln_name_huffman l) else 0) <= zlen (sb_bytes s) ->
  forall n, exists f s',
    resolve_line p (Some t) (set_consumed (wire_line l) n) value s = (Ok f, s') /\
    sb_used s' = sb_used s + (if has_name (ln_kind l) then decoded_room (ln_name l) (ln_name_huffman l) else 0) /\
    scratch_ok s' /\ scratch_extends s s' /\ resolves t s' e f.
Proof.
  intros (Hi & Hn & Hv) Hr Hb He Hs Hval Hroom n.
  unfold resolve_line, wire_line, set_consumed, line_meaning in *. cbn [ln_kind ln_index ln_name ln_name_huffman].
  assert (Hdyn : forall (post : bool) x, varint_ok (ln_index l) ->
            referenced p (if post then hp_base p + ln_index l else hp_base p - ln_index l - 1) ≫= window_entry w = Some x ->
            exists nm tv, (forall v, dynamic_field p (Some t) post (ln_index l) v = Ok (nm, default tv v)) /\
              stays t s nm x.1 /\ stays t s tv x.2).
  { intros post x Hix Hx. destruct (dynamic_field_meaning p t w post (ln_index l) None x Hr Hb Hix Hx) as (nm & tv & E & H1 & H2).
    exists nm, tv. split_and!; auto. intros v. revert E. unfold dynamic_field.
    destruct (dynamic_index _ _ _); [|done]. destruct (dynamic_lookup _ _) as [[a b]|]; [|done]. by intros [= <- <-]. }
  destruct (ln_kind l) eqn:Hk; change (has_name _) with true in * || change (has_name _) with false in *;
    change (has_value _) with true in * || change (has_value _) with false in *; cbn match in *;
    try (specialize (Hi eq_refl)); try (specialize (Hval eq_refl t)); rewrite ?Z.add_0_r.
  - rewrite (static_meaning _ _ He). by eexists _, s; split_and!.
  - destruct (Hdyn false e Hi He) as (nm & tv & -> & H1 & H2). eexists _, s. split_and!; try done.
  - apply fmap_Some in He as (x & Hx & ->). rewrite (static_meaning _ _ Hx). eexists _, s. split_and!; try done.
  - apply fmap_Some in He as (x & Hx & ->). destruct (Hdyn false x Hi Hx) as (nm & tv & -> & H1 & H2). 
    eexists _, s. split_and!; try done.
  - injection He as <-. cbn [andb]. specialize (Hn eq_refl).
    destruct (materialise_reads (ln_name l) (ln_name_huffman l) s Hn Hs Hroom) as (v & s' & -> & U & O & X & R).
    eexists _, s'. split_and!; try done; [split; [apply R|]]. by eapply stays_extends.
  - destruct (Hdyn true e Hi He) as (nm & tv & -> & H1 & H2). eexists _, s. split_and!; try done.
  - apply fmap_Some in He as (x & Hx & ->). destruct (Hdyn true x Hi Hx) as (nm & tv & -> & H1 & H2). 
    eexists _, s. split_and!; try done.
Qed.

Lemma line_bytes_cons l : line_ok l -> exists b r, line_bytes l = b :: r.
Proof. intros H. destruct (line_head_first l H) as (b & r & E & _). unfold line_bytes. rewrite E. cbn. eauto. Qed.

(** One field of a section, read from its wire form. *)
Lemma next_line p t w l e c tl s :
  line_ok l -> represents t w -> 0 <= hp_base p < 2 ^ 62 -> line_meaning p w l = Some e ->
  scratch_ok s -> sb_used s + line_room l <= zlen (sb_bytes s) ->
  cursor_live c -> cursor_view c = line_bytes l ++ tl ->
  exists f s', wt_qpack_field_section_next p (Some t) c s = (Ok f, cursor_advance c (zlen (line_bytes l)), s') /\
    sb_used s' = sb_used s + line_room l /\ scratch_ok s' /\ scratch_extends s s' /\ resolves t s' e f.
Proof.
  intros Hok Hr Hb He Hs Hroom Hl Hv. destruct (line_bytes_cons l Hok) as (b & r & Eb).
  unfold wt_qpack_field_section_next. rewrite (cursor_live_at_end c Hl), Hv.
  replace (match line_bytes l ++ tl with [] => true | _ => false end) with false by by rewrite Eb.
  rewrite (or_qpack_error_decodes _ _ _ _ (decodes_line l Hok) c tl Hl Hv).
  change (ln_kind (set_consumed (wire_line l) (zlen (line_bytes l)))) with (ln_kind l).
  change (ln_value (set_consumed _ _)) with (ln_value (wire_line l)).
  change (ln_value_huffman (set_consumed _ _)) with (ln_value_huffman (wire_line l)).
  destruct (line_value_reads l s Hok Hs Hroom) as (value & s1 & -> & U1 & O1 & X1 & R1).
  unfold line_room in *. destruct X1 as (X1 & L1 & T1).
  destruct (resolve_line_meaning p t w l e value s1 Hok Hr Hb He O1 R1 ltac:(lia) (zlen (line_bytes l)))
    as (f & s2 & -> & U2 & O2 & X2 & R2).
  exists f, s2. split_and!; try done; [lia|]. by trans s1.
Qed.

(** ** Sections *)

Definition section_bytes (max_entries : Z) (p : wt_qpack_header_prefix) (lines : list wt_qpack_field_line) : list Z :=
  prefix_bytes max_entries p ++ concat (line_bytes <$> lines).

Definition section_room : list wt_qpack_field_line -> Z := zsum line_room.

(** Fields until the decoder stops, what stopped it, and what it leaves. *)
Fixpoint section_fields (fuel : nat) (d : wt_qpack_field_section_decoder) (scratch : list Z) :
    list (field_view * field_view) * option (wt_status * option Z) * wt_qpack_field_section_decoder * list Z :=
  match fuel with
  | O => ([], None, d, scratch)
  | S fuel =>
      match wt_qpack_field_section_decoder_next d scratch with
      | (Ok f, d, scratch) =>
          let '(fs, stop, d, scratch) := section_fields fuel d scratch in (f :: fs, stop, d, scratch)
      | (Fail s e, d, scratch) => ([], Some (s, e), d, scratch)
      end
  end.

(** What a field's views read at the end. *)
Definition field_read (t : wt_qpack_dynamic_table) (s : scratch_buffer) (f : field_view * field_view) : table_entry :=
  (view_read t s f.1, view_read t s f.2).

Lemma encodes_lines lines capacity :
  Forall (fun l => line_ok l /\ codable l capacity) lines ->
  encodes (encode_lines lines capacity) (concat (line_bytes <$> lines)).
Proof.
  induction 1 as [|l lines [Hok Hc] _ IH].
  - intros w Hi Ho. cbn [fmap list_fmap concat]. rewrite zlen_nil.
    assert (0 <= writer_room w) by (destruct Hi; unfold writer_room; lia). ztest. cbn [encode_lines]. by rewrite writer_put_nil.
  - exact (encodes_then _ _ _ _ (encodes_line l capacity Hok Hc) IH).
Qed.

Lemma section_bytes_ok max_entries known p lines :
  prefix_ok max_entries known p -> Forall line_ok lines -> bytes_ok (section_bytes max_entries p lines).
Proof.
  intros (Hm & _ & Hb & Hw) Hl. unfold section_bytes, prefix_bytes. apply Forall_app. split.
  - apply Forall_app. split; [apply integer_bytes_ok; [qpack_flags|]|].
    + destruct (_ =? 0); [lia|]. destruct (decide (max_entries = 0)) as [->|]; [destruct Hw; cbn; zdm|zdm].
    + destruct (Z.leb_spec (hp_required_insert_count p) (hp_base p)); apply integer_bytes_ok; try qpack_flags; lia.
  - induction Hl as [|l lines (Hi & Hn & Hv) _ IH]; [constructor|]. cbn. apply Forall_app. split; [|done].
    pose proof (line_flags_ok l) as Hf. unfold line_bytes, line_head. apply Forall_app. split.
    + destruct (has_name (ln_kind l)) eqn:E.
      * destruct (string_content_ok (ln_name l) (ln_name_huffman l) (Hn eq_refl)) as [Hc Hz].
        apply Forall_app. split; [|done]. apply integer_bytes_ok; [|lia]. apply bool_decide_eq_true in E. by rewrite E in Hf.
      * apply integer_bytes_ok; [done|]. by apply Hi.
    + destruct (has_value _); [|constructor]. unfold string_bytes.
      destruct (string_content_ok (ln_value l) (ln_value_huffman l) (Hv eq_refl)) as [Hc Hz].
      apply Forall_app. split; [|done]. apply integer_bytes_ok; [apply string_flags_ok|lia].
Qed.

Lemma line_room_nonneg l : 0 <= line_room l.
Proof.
  unfold line_room, decoded_room. pose proof (zlen_nonneg (ln_name l)). pose proof (zlen_nonneg (ln_value l)).
  repeat case_match; lia.
Qed.

(** The fields of the lines, in order, then the end of the section. *)
Lemma section_fields_read p t w lines fields : represents t w -> 0 <= hp_base p < 2 ^ 62 ->
  Forall line_ok lines -> Forall2 (fun l e => line_meaning p w l = Some e) lines fields ->
  forall c s, cursor_live c -> cursor_view c = concat (line_bytes <$> lines) ->
  scratch_ok s -> sb_used s + section_room lines <= zlen (sb_bytes s) ->
  exists fs c' s',
    section_fields (S (length lines)) (mk_section p (Some t) c (sb_used s)) (sb_bytes s) =
      (fs, Some (WT_ERR_CLOSED, None), mk_section p (Some t) c' (sb_used s'), sb_bytes s') /\
    sb_used s' = sb_used s + section_room lines /\ scratch_extends s s' /\ Forall2 (resolves t s') fields fs.
Proof.
  intros Hr Hb Hok Hm. revert Hok. induction Hm as [|l e lines fields He Hm IH]; intros Hok c s Hl Hv Hs Hroom.
  - exists [], c, s. cbn [length section_fields]. unfold wt_qpack_field_section_decoder_next, wt_qpack_field_section_next.
    cbn [sd_cursor sd_prefix sd_table sd_scratch_used]. rewrite (cursor_live_at_end c Hl), Hv. cbn [fmap list_fmap concat sb_used sb_bytes].
    split_and!; [done|unfold section_room; rewrite zsum_nil; lia|done|constructor].
  - apply Forall_cons in Hok as [Hok Hoks]. unfold section_room in *. rewrite zsum_cons in *.
    cbn [fmap list_fmap concat] in Hv.
    assert (Hrest : 0 <= zsum line_room lines) by (apply zsum_nonneg, Forall_true; apply line_room_nonneg).
    destruct (next_line p t w l e c _ s Hok Hr Hb He Hs ltac:(lia) Hl Hv) as (f & s1 & E & U1 & O1 & X1 & R1).
    destruct (cursor_advance_prefix c _ _ Hl Hv) as [Hl' Hv'].
    destruct (IH Hoks _ s1 Hl' Hv' O1) as (fs & c' & s2 & E2 & U2 & X2 & R2).
    { destruct X1 as (_ & -> & _). lia. }
    exists (f :: fs), c', s2. cbn [length]. change (S (S (length lines))) with (S (S (length lines))).
    remember (S (length lines)) as fuel. cbn [section_fields]. unfold wt_qpack_field_section_decoder_next at 1.
    cbn [sd_cursor sd_prefix sd_table sd_scratch_used].
    destruct s as [bytes used]; cbn [sb_used sb_bytes] in *. rewrite E, E2. split_and!; [done|lia|by trans s1|].
    constructor; [|done]. destruct R1. split; by eapply stays_extends.
Qed.

(** ** Any bytes *)

Definition line_read (l : wt_qpack_field_line) : Prop :=
  varint_ok (ln_index l) /\ bytes_ok (ln_name l) /\ bytes_ok (ln_value l).

Lemma field_line_body_safe : parser_safe line_read field_line_body.
Proof.
  assert (Hint : forall bits (k : Z -> parser wt_qpack_field_line), 1 <= bits <= 8 ->
            (forall n, varint_ok n -> parser_safe line_read (k n)) ->
            parser_safe line_read (n <- wt_qpack_integer_decode bits;; k n)).
  { intros bits k Hb Hk. eapply parser_safe_bind; [by apply integer_decode_safe|]. auto. }
  assert (Hstr : forall (k : list Z * bool -> parser wt_qpack_field_line),
            (forall v, bytes_ok v.1 -> parser_safe line_read (k v)) ->
            parser_safe line_read (v <- wt_qpack_string_decode;; k v)).
  { intros k Hk. eapply parser_safe_bind; [apply string_decode_safe|]. intros v [Hv _]. auto. }
  assert (H0 : varint_ok 0) by (unfold varint_ok, WT_QUIC_VARINT_MAX; lia).
  assert (Hnil : bytes_ok []) by constructor.
  apply with_peek_safe. intros b _. repeat case_match; apply Hint; try lia; intros n Hn; try (by apply parser_safe_ret).
  all: try (apply Hstr; intros v Hv; by apply parser_safe_ret).
  unfold wt_checked_narrow_u64_to_size. destruct (SIZE_MAX <? n); [apply parser_safe_fail|].
  eapply parser_safe_bind; [apply bytes_or_truncated_safe; apply u64_is_u64|].
  intros name [_ Hok]. apply Hstr. intros v Hv. by apply parser_safe_ret.
Qed.

Lemma field_line_decode_safe : parser_safe line_read wt_qpack_field_line_decode.
Proof.
  intros c Hi. pose proof (field_line_body_safe c Hi) as H. unfold wt_qpack_field_line_decode.
  destruct (field_line_body c) as [[l|st e] c']; [|done]. exact H.
Qed.

(** Where a view of a section may point. *)
Definition view_ok (p : wt_qpack_header_prefix) (t : wt_qpack_dynamic_table) (w : window) (s : scratch_buffer)
    (v : field_view) : Prop :=
  match v with
  | Inline bytes => bytes_ok bytes
  | FromTable a =>
      exists i e, 0 <= i < hp_required_insert_count p /\ window_entry w i = Some e /\
        (arg_read t a = e.1 \/ arg_read t a = e.2)
  | FromScratch offset length => 0 <= offset /\ 0 <= length /\ offset + length <= sb_used s
  end.

Lemma view_ok_extends p t w s s' v : scratch_extends s s' -> view_ok p t w s v -> view_ok p t w s' v.
Proof. intros (U & _). destruct v; cbn; [done|done|lia]. Qed.

Lemma materialise_safe p t w bytes h s :
  bytes_ok bytes -> scratch_ok s ->
  let r := materialise bytes h s in
  scratch_ok r.2 /\ scratch_extends s r.2 /\
  match r.1 with
  | Ok v => view_ok p t w r.2 v
  | Fail st _ => st = WT_ERR_PROTOCOL \/ st = WT_ERR_LIMIT
  end.
Proof.
  intros Hb [Hu Hz]. unfold materialise. destruct h; cbn [negb]; [|done]. ztest.
  rewrite u64_small by (unfold is_u64; lia).
  destruct (huffman_decode_spec bytes (zlen (sb_bytes s) - sb_used s) Hb ltac:(lia)) as (o & -> & Hok & Hfail).
  destruct o as [d|st e]; cbn [fst snd].
  2: { split_and!; [done|done|]. by destruct (Hfail st e eq_refl). }
  destruct (proj1 (Hok d) eq_refl) as (_ & Hd & _). pose proof (zlen_nonneg d). rewrite u64_small by (unfold is_u64; lia).
  unfold scratch_ok, scratch_extends; cbn [sb_used sb_bytes view_ok]. rewrite zlen_write_at by lia. split_and!; try lia.
  rewrite <- (ztake_ztake _ (sb_used s + zlen d)), ztake_write_at by lia. apply ztake_app_exact. rewrite zlen_ztake; lia.
Qed.

(** How a section stops. *)
Definition section_failure (st : wt_status) (e : option Z) : Prop :=
  ((st = WT_ERR_CLOSED \/ st = WT_ERR_TRUNCATED \/ st = WT_ERR_LIMIT) /\ e = None) \/
  (st = WT_ERR_PROTOCOL /\ e = Some WT_QPACK_ERROR_DECOMPRESSION_FAILED).

Lemma string_failure_ok {A} st : st = WT_ERR_PROTOCOL \/ st = WT_ERR_LIMIT ->
  exists st' e, @string_failure A st = Fail st' e /\ section_failure st' e.
Proof. unfold string_failure, section_failure. intros [-> | ->]; eexists _, _; (split; [reflexivity|]); cbn; auto. Qed.

(** An answer that is safe to hand on. *)
Definition answer_ok p t w s (o : outcome (field_view * field_view)) : Prop :=
  match o with
  | Ok f => view_ok p t w s f.1 /\ view_ok p t w s f.2
  | Fail st e => section_failure st e
  end.

Lemma decompression_failed_ok p t w s : answer_ok p t w s decompression_failed.
Proof. right. done. Qed.

Lemma dynamic_index_permitted p post index absolute :
  0 <= hp_base p < 2 ^ 64 -> varint_ok index ->
  dynamic_index p post index = Some absolute -> 0 <= absolute < hp_required_insert_count p.
Proof.
  unfold varint_ok, WT_QUIC_VARINT_MAX, dynamic_index, U64_MAX. intros Hb Hi.
  assert (H64 : forall z, 0 <= u64 z) by (intros z; apply u64_is_u64).
  destruct post.
  - destruct (_ <? index); [done|]. destruct (Z.leb_spec (hp_required_insert_count p) (u64 (hp_base p + index))); [done|].
    intros [= <-]. specialize (H64 (hp_base p + index)). lia.
  - destruct (hp_base p <=? index); [done|].
    destruct (Z.leb_spec (hp_required_insert_count p) (u64 (u64 (hp_base p - index) - 1))); [done|].
    intros [= <-]. specialize (H64 (u64 (hp_base p - index) - 1)). lia.
Qed.

Lemma dynamic_field_safe p t w post index value s :
  represents t w -> 0 <= hp_base p < 2 ^ 64 -> varint_ok index ->
  match value with Some v => view_ok p t w s v | None => True end ->
  answer_ok p t w s (dynamic_field p (Some t) post index value).
Proof.
  intros Hr Hb Hi Hv. unfold dynamic_field. destruct (dynamic_index p post index) as [absolute|] eqn:E; [|by right].
  pose proof (dynamic_index_permitted p post index absolute Hb Hi E) as Ha. unfold dynamic_lookup.
  pose proof (represents_entry t w absolute Hr ltac:(lia)) as Hent. destruct (window_entry w absolute) as [e|] eqn:Ew.
  - destruct Hent as (off & -> & H1 & H2). split; [by exists absolute, e; auto|].
    destruct value as [v|]; [done|]. by exists absolute, e; auto.
  - rewrite Hent. by right.
Qed.

Lemma static_safe p t w s index (k : table_entry -> field_view) :
  (forall e, bytes_ok e.2 -> view_ok p t w s (k e)) ->
  answer_ok p t w s (match wt_qpack_static_entry index with Ok e => Ok (Inline e.1, k e) | Fail _ _ => decompression_failed end).
Proof.
  intros Hk. destruct (static_view_ok index) as (H1 & H2 & _ & _).
  unfold wt_qpack_static_entry. destruct (_ <=? index); [by right|]. split; [done|]. by apply Hk.
Qed.

(** ** Progress *)

Lemma field_line_decode_consumes : parser_consumes wt_qpack_field_line_decode.
Proof.
  assert (Hint : forall bits (k : Z -> parser wt_qpack_field_line), 1 <= bits <= 8 ->
            (forall n, varint_ok n -> parser_safe (fun _ => True) (k n)) ->
            parser_consumes (n <- wt_qpack_integer_decode bits;; k n)).
  { intros bits k Hb Hk. eapply parser_consumes_bind; [by apply integer_decode_safe|by apply integer_decode_consumes|exact Hk]. }
  assert (Hstr : forall (k : list Z * bool -> parser wt_qpack_field_line),
            (forall v, parser_safe (fun _ => True) (k v)) -> parser_safe (fun _ => True) (v <- wt_qpack_string_decode;; k v)).
  { intros k Hk. eapply parser_safe_bind; [apply string_decode_safe|]. auto. }
  assert (Hbody : parser_consumes field_line_body).
  { apply with_peek_consumes. intros b. repeat case_match; apply Hint; try lia; intros n Hn; try (by apply parser_safe_ret).
    all: try (apply Hstr; intros v; by apply parser_safe_ret).
    unfold wt_checked_narrow_u64_to_size. destruct (SIZE_MAX <? n); [apply parser_safe_fail|].
    eapply parser_safe_bind; [apply bytes_or_truncated_safe, u64_is_u64|]. intros name _. apply Hstr. intros v. by apply parser_safe_ret. }
  intros c Hi. specialize (Hbody c Hi). unfold wt_qpack_field_line_decode. destruct (field_line_body c) as [[l|st e] c']; done.
Qed.

(** The cursor stays in the section, and a field costs at least a byte of it. *)
Lemma next_progress p t c s :
  cursor_inv c ->
  let r := wt_qpack_field_section_next p t c s in
  cursor_inv r.1.2 /\ cur_len r.1.2 = cur_len c /\
  match r.1.1 with Ok _ => cur_offset c < cur_offset r.1.2 | Fail _ _ => True end.
Proof.
  intros Hc. unfold wt_qpack_field_section_next. destruct (wt_cursor_at_end c); [done|].
  pose proof (or_qpack_error_safe _ WT_QPACK_ERROR_DECOMPRESSION_FAILED _ field_line_decode_safe c Hc) as (Hi & _ & Hl & _ & _).
  pose proof (or_qpack_error_consumes WT_QPACK_ERROR_DECOMPRESSION_FAILED _ field_line_decode_consumes c Hc) as Hcons.
  destruct (or_qpack_error _ _ c) as [[l|st e] c']; cbn [fst snd] in *; [|done].
  assert (Hgen : forall (x : outcome (field_view * field_view)) (s' : scratch_buffer), let r := (x, c', s') in
            cursor_inv r.1.2 /\ cur_len r.1.2 = cur_len c /\ match r.1.1 with Ok _ => cur_offset c < cur_offset r.1.2 | Fail _ _ => True end).
  { intros [f|st e] s'; cbn; split_and!; done. }
  destruct (if is_indexed (ln_kind l) then _ else _) as [[v|st e] s']; [|apply Hgen].
  destruct (resolve_line p t l v s') as [o s'']. apply Hgen.
Qed.

Lemma header_prefix_safe max_entries known :
  parser_safe (fun _ => True) (wt_qpack_header_prefix_decode max_entries known).
Proof.
  assert (Hint : forall bits, 1 <= bits <= 8 -> parser_safe varint_ok (or_qpack_error WT_QPACK_ERROR_DECOMPRESSION_FAILED (wt_qpack_integer_decode bits)))
    by (intros bits Hb; by apply or_qpack_error_safe, integer_decode_safe).
  unfold wt_qpack_header_prefix_decode. destruct (_ && _); [apply parser_safe_fail|].
  eapply parser_safe_bind; [by apply Hint|]. intros e _. apply with_peek_safe. intros b _.
  eapply parser_safe_bind; [by apply Hint|]. intros d _.
  destruct (required_count _ _ _); [|apply parser_safe_fail]. destruct (section_base _ _ _); [by apply parser_safe_ret|apply parser_safe_fail].
Qed.

Lemma section_begin_cursor t max_entries bytes known d :
  bytes_ok bytes -> zlen bytes < 2 ^ 64 ->
  wt_qpack_field_section_begin t max_entries bytes known = Ok d ->
  cursor_inv (sd_cursor d) /\ cur_len (sd_cursor d) = zlen bytes /\ sd_table d = t /\ sd_scratch_used d = 0.
Proof.
  intros Hb Hz. unfold wt_qpack_field_section_begin.
  destruct (header_prefix_safe max_entries known _ (cursor_init_inv bytes Hz Hb)) as (Hi & _ & Hl & _).
  destruct (wt_qpack_header_prefix_decode _ _ _) as [[p|st e] c]; [|done]. cbn [fst snd] in *.
  destruct (known <? _); [done|]. intros [= <-]. done.
Qed.

(** ** Theorems *)


(** C12. A field section of any lines, of the six kinds, with plain or Huffman-coded strings
    and references into the static and the dynamic table before and after the Base, is
    written in full and read back by the decoder against a table that represents the same
    entries: the fields read are exactly the ones the lines mean, in order, then the section
    reports its end, having used exactly the scratch the coded strings need. *)
Theorem field_section_roundtrip max_entries known p t w lines fields capacity scratch wr :
  prefix_ok max_entries known p -> hp_required_insert_count p <= known -> represents t w ->
  Forall (fun l => line_ok l /\ codable l capacity) lines ->
  Forall2 (fun l e => line_meaning p w l = Some e) lines fields ->
  section_room lines <= zlen scratch -> zlen scratch < 2 ^ 63 ->
  writer_inv wr -> w_overflow wr = false -> w_copy wr = true ->
  zlen (section_bytes max_entries p lines) <= writer_room wr ->
  let r := wt_qpack_field_section_encode p max_entries lines capacity wr in
  (r.1 = WT_OK /\ writer_bytes r.2 = writer_bytes wr ++ section_bytes max_entries p lines) /\
  exists d fs d' scratch',
    wt_qpack_field_section_begin (Some t) max_entries (section_bytes max_entries p lines) known = Ok d /\
    section_fields (S (length lines)) d scratch = (fs, Some (WT_ERR_CLOSED, None), d', scratch') /\
    field_read t (mk_scratch scratch' (sd_scratch_used d')) <$> fs = fields /\
    sd_scratch_used d' = section_room lines.
Proof.
  intros Hp Hknown Hr Hl Hm Hroom Hz Hi Hov Hcp Hw r.
  assert (Hok : Forall line_ok lines) by (eapply Forall_impl; [exact Hl|by intros l []]).
  pose proof (section_bytes_ok max_entries known p lines Hp Hok) as Hbs.
  assert (Hsz : zlen (section_bytes max_entries p lines) < 2 ^ 64) by (destruct Hi as (? & ? & _); unfold writer_room in Hw; lia).
  pose proof (encodes_seq _ _ _ _ (encodes_prefix max_entries known p Hp) (encodes_lines lines capacity Hl)) as He.
  split; [by destruct (encodes_bytes _ _ wr He Hi Hov Hcp Hw)|].
  pose proof (cursor_init_live _ Hsz Hbs) as Hlive. pose proof (cursor_init_view (section_bytes max_entries p lines)) as Hview.
  unfold section_bytes in Hview at 3.
  destruct (cursor_advance_prefix _ _ _ Hlive Hview) as [Hl' Hv'].
  destruct (section_fields_read p t w lines fields Hr ltac:(apply Hp) Hok Hm _ (mk_scratch scratch 0) Hl' Hv')
    as (fs & c' & s' & E & U & X & R); [split; cbn; pose proof (zlen_nonneg scratch); lia|cbn; lia|].
  eexists _, fs, _, _. split_and!; [|exact E| |exact U].
  - unfold wt_qpack_field_section_begin. rewrite (decodes_prefix max_entries known p Hp _ _ Hlive Hview).
    by rewrite (proj2 (Z.ltb_ge known _)) by lia.
  - cbn [sd_scratch_used]. destruct s' as [bytes' used']. cbn [sb_used sb_bytes].
    clear -R. induction R as [|e f fields fs [H1 H2] _ IH]; [done|]. cbn. f_equal; [|exact IH].
    unfold field_read. rewrite H1, H2 by done. by destruct e.
Qed.

(** A section whose Required Insert Count exceeds the insertions known is reported as blocked, and any other well-formed one is opened at the first line. *)
Lemma section_begin_exact max_entries known p table tl :
  prefix_ok max_entries known p -> bytes_ok (prefix_bytes max_entries p ++ tl) ->
  zlen (prefix_bytes max_entries p ++ tl) < 2 ^ 64 ->
  wt_qpack_field_section_begin table max_entries (prefix_bytes max_entries p ++ tl) known =
    if known <? hp_required_insert_count p then Fail WT_ERR_AGAIN None
    else Ok (mk_section p table
               (cursor_advance (wt_cursor_init (Some (prefix_bytes max_entries p ++ tl)) (zlen (prefix_bytes max_entries p ++ tl)))
                               (zlen (prefix_bytes max_entries p))) 0).
Proof.
  intros Hp Hb Hz. unfold wt_qpack_field_section_begin.
  by rewrite (decodes_prefix max_entries known p Hp _ tl (cursor_init_live _ Hz Hb)) by apply cursor_init_view.
Qed.

(** A table holding one entry, and what it represents. *)
Definition one_entry_table : wt_qpack_dynamic_table :=
  (wt_qpack_dynamic_insert (wt_qpack_dynamic_init 100) (External [97]) (External [98])).2.

Definition one_entry_window : window := mk_window [([97], [98])] 0 100.

Lemma one_entry_represents : represents one_entry_table one_entry_window.
Proof.
  apply (represents_insert (wt_qpack_dynamic_init 100) (mk_window [] 0 100) (External [97]) (External [98]) [97] [98]);
    [apply represents_init|done|done|cbn; rewrite zlen_nil; lia].
Qed.


(** A table entry by reference, its name with a coded value, a static entry, a coded literal. *)
Definition sample_lines : list wt_qpack_field_line :=
  [mk_line WT_QPACK_FIELD_INDEXED_DYNAMIC false 0 false [] [] false 0;
   mk_line WT_QPACK_FIELD_LITERAL_NAME_REF_DYNAMIC true 0 false [] [47] true 0;
   mk_line WT_QPACK_FIELD_INDEXED_STATIC false 1 false [] [] false 0;
   mk_line WT_QPACK_FIELD_LITERAL_LITERAL_NAME false 0 true [97; 98] [99] true 0].

Lemma field_section_roundtrip_witness :
  let wr := wt_writer_init (Some (replicate 24 0)) 24 in
  let fields := [([97], [98]); ([97], [47]); static_view 1; ([97; 98], [99])] in
  let r := wt_qpack_field_section_encode (mk_prefix 1 1) 3 sample_lines 8 wr in
  (r.1 = WT_OK /\ writer_bytes r.2 = writer_bytes wr ++ section_bytes 3 (mk_prefix 1 1) sample_lines) /\
  exists d fs d' scratch',
    wt_qpack_field_section_begin (Some one_entry_table) 3 (section_bytes 3 (mk_prefix 1 1) sample_lines) 1 = Ok d /\
    section_fields (S (length sample_lines)) d (replicate 4 0) = (fs, Some (WT_ERR_CLOSED, None), d', scratch') /\
    field_read one_entry_table (mk_scratch scratch' (sd_scratch_used d')) <$> fs = fields /\
    sd_scratch_used d' = section_room sample_lines.
Proof.
  apply (field_section_roundtrip 3 1 (mk_prefix 1 1) one_entry_table one_entry_window sample_lines
           [([97], [98]); ([97], [47]); static_view 1; ([97; 98], [99])] 8 (replicate 4 0)
           (wt_writer_init (Some (replicate 24 0)) 24)).
  - unfold prefix_ok, prefix_in_window; cbn. lia.
  - cbn; lia.
  - apply one_entry_represents.
  - repeat constructor; cbn; try done; intros; unfold varint_ok, WT_QUIC_VARINT_MAX, is_u8; try lia; by vm_compute.
  - repeat constructor.
  - by vm_compute.
  - done.
  - by apply writer_init_inv.
  - done.
  - done.
  - by vm_compute.
Defined.

Lemma section_begin_exact_witness :
  let bytes := prefix_bytes 3 (mk_prefix 1 1) ++ [0x80] in
  wt_qpack_field_section_begin (Some one_entry_table) 3 bytes 0 = Fail WT_ERR_AGAIN None.
Proof.
  apply (section_begin_exact 3 0 (mk_prefix 1 1) (Some one_entry_table) [0x80]).
  - unfold prefix_ok, prefix_in_window; cbn. lia.
  - by apply bytes_okb_spec.
  - done.
Defined.
