(* ===== verification/QpackEncoder.v ===== *)
(** * The QPACK encoder's record of unacknowledged sections: [src/http3/qpack_encoder_state.c]

    Sixteen slots, one per stream whose section references the dynamic table and has
    not been acknowledged.  The table behind the state's pointer is shared with the
    insertions; what the operations read of it, its insert count, is an argument.
    The theorem refines the slots to a finite map from streams to counts. *)

From stdpp Require Import gmap.
From S2P Require Export QpackField.
#[local] Open Scope Z_scope.

Definition WT_QPACK_MAX_OUTSTANDING_SECTIONS : nat := 16.

Record wt_qpack_outstanding_section := mk_outstanding {
  os_in_use : bool;
  os_stream_id : Z;
  os_required_insert_count : Z }.

Record wt_qpack_encoder_state := mk_encoder_state {
  es_known_received_count : Z;
  es_outstanding : list wt_qpack_outstanding_section;
  es_outstanding_count : Z }.

Definition free_section : wt_qpack_outstanding_section := mk_outstanding false 0 0.

Definition wt_qpack_encoder_state_init : wt_qpack_encoder_state :=
  mk_encoder_state 0 (replicate WT_QPACK_MAX_OUTSTANDING_SECTIONS free_section) 0.

(** The index of the first slot that satisfies [p]. *)
Fixpoint first_slot (p : wt_qpack_outstanding_section -> bool) (l : list wt_qpack_outstanding_section) : option nat :=
  match l with
  | [] => None
  | x :: l => if p x then Some O else S <$> first_slot p l
  end.

Definition find_section (s : wt_qpack_encoder_state) (stream_id : Z) : option nat :=
  first_slot (fun x => os_in_use x && (os_stream_id x =? stream_id)) (es_outstanding s).

Definition forget (s : wt_qpack_encoder_state) (slot : nat) : wt_qpack_encoder_state :=
  mk_encoder_state (es_known_received_count s) (<[slot := free_section]> (es_outstanding s))
                   (u64 (es_outstanding_count s - 1)).

(** [insert_count] is the table's, when the state has a table. *)
Definition wt_qpack_encoder_state_begin_section (s : wt_qpack_encoder_state) (insert_count : option Z) (stream_id : Z)
    (references_dynamic : bool) : outcome wt_qpack_header_prefix * wt_qpack_encoder_state :=
  match insert_count with
  | None => (Fail WT_ERR_STATE None, s)
  | Some n =>
      if negb references_dynamic then (Ok (mk_prefix 0 0), s)
      else
        let s := match find_section s stream_id with Some slot => forget s slot | None => s end in
        match first_slot (fun x => negb (os_in_use x)) (es_outstanding s) with
        | Some slot =>
            (Ok (mk_prefix n n),
             mk_encoder_state (es_known_received_count s) (<[slot := mk_outstanding true stream_id n]> (es_outstanding s))
                              (u64 (es_outstanding_count s + 1)))
        | None => (Fail WT_ERR_LIMIT None, s)
        end
  end.

Definition wt_qpack_encoder_state_section_acknowledged (s : wt_qpack_encoder_state) (stream_id : Z) :
    wt_status * wt_qpack_encoder_state :=
  match find_section s stream_id with
  | None => (WT_ERR_CLOSED, s)
  | Some slot => (WT_OK, forget s slot)
  end.

Definition wt_qpack_encoder_state_stream_cancelled (s : wt_qpack_encoder_state) (stream_id : Z) :
    wt_status * wt_qpack_encoder_state :=
  match find_section s stream_id with
  | None => (WT_OK, s)
  | Some slot => (WT_OK, forget s slot)
  end.

Definition wt_qpack_encoder_state_on_insert_count_increment (s : wt_qpack_encoder_state) (insert_count : option Z)
    (increment : Z) : wt_status * option Z * wt_qpack_encoder_state :=
  let refused := (WT_ERR_PROTOCOL, Some WT_QPACK_ERROR_DECODER_STREAM, s) in
  if increment =? 0 then refused
  else if u64 (U64_MAX - increment) <? es_known_received_count s then refused
  else if match insert_count with
          | Some n => n <? u64 (es_known_received_count s + increment)
          | None => false
          end
  then refused
  else (WT_OK, None, mk_encoder_state (u64 (es_known_received_count s + increment)) (es_outstanding s) (es_outstanding_count s)).

(** One turn of the loop over the slots. *)
Definition lower_bound (below : Z) (x : wt_qpack_outstanding_section) : Z :=
  if negb (os_in_use x) then below
  else if os_required_insert_count x <? below then os_required_insert_count x else below.

Definition wt_qpack_encoder_state_evictable_below (s : wt_qpack_encoder_state) (insert_count : option Z) : Z :=
  match insert_count with
  | None => 0
  | Some n => fold_left lower_bound (es_outstanding s) n
  end.

(** ** The specification: a map from streams to counts *)

(** The slots in use. *)
Definition recorded (l : list wt_qpack_outstanding_section) : list (Z * Z) :=
  omap (fun x => if os_in_use x then Some (os_stream_id x, os_required_insert_count x) else None) l.

Record tracks (s : wt_qpack_encoder_state) (m : gmap Z Z) : Prop := {
  tr_slots : length (es_outstanding s) = WT_QPACK_MAX_OUTSTANDING_SECTIONS;
  tr_once : NoDup (recorded (es_outstanding s)).*1;
  tr_map : m = list_to_map (recorded (es_outstanding s));
  tr_count : es_outstanding_count s = Z.of_nat (size m) }.

Inductive section_event :=
  | BeginSection (stream_id : Z) (references_dynamic : bool)
  | Acknowledged (stream_id : Z)
  | Cancelled (stream_id : Z).

(** An event with the table's insert count at that moment. *)
Definition section_step (s : wt_qpack_encoder_state) (e : Z * section_event) : wt_status * wt_qpack_encoder_state :=
  match e.2 with
  | BeginSection stream_id references =>
      match wt_qpack_encoder_state_begin_section s (Some e.1) stream_id references with
      | (Ok _, s') => (WT_OK, s')
      | (Fail st _, s') => (st, s')
      end
  | Acknowledged stream_id => wt_qpack_encoder_state_section_acknowledged s stream_id
  | Cancelled stream_id => wt_qpack_encoder_state_stream_cancelled s stream_id
  end.

Definition map_step (m : gmap Z Z) (e : Z * section_event) : wt_status * gmap Z Z :=
  match e.2 with
  | BeginSection stream_id references =>
      if negb references then (WT_OK, m)
      else if (size (delete stream_id m) <? WT_QPACK_MAX_OUTSTANDING_SECTIONS)%nat
      then (WT_OK, <[stream_id := e.1]> m) else (WT_ERR_LIMIT, m)
  | Acknowledged stream_id =>
      match m !! stream_id with Some _ => (WT_OK, delete stream_id m) | None => (WT_ERR_CLOSED, m) end
  | Cancelled stream_id => (WT_OK, delete stream_id m)
  end.

Fixpoint run_sections {S} (step : S -> Z * section_event -> wt_status * S) (es : list (Z * section_event)) (s : S) :
    list wt_status * S :=
  match es with
  | [] => ([], s)
  | e :: es => let '(o, s) := step s e in let '(os, s) := run_sections step es s in (o :: os, s)
  end.

(** ** Slots *)

Lemma first_slot_Some p l i :
  first_slot p l = Some i -> exists x, l !! i = Some x /\ p x = true.
Proof.
  revert i. induction l as [|x l IH]; intros i; cbn [first_slot]; [done|]. destruct (p x) eqn:E.
  - intros [= <-]. by exists x.
  - destruct (first_slot p l) as [j|]; [|done]. intros [= <-]. by apply IH.
Qed.

Lemma first_slot_None p l : first_slot p l = None -> Forall (fun x => p x = false) l.
Proof.
  induction l as [|x l IH]; cbn [first_slot]; [constructor|]. destruct (p x) eqn:E; [done|].
  destruct (first_slot p l); [done|]. constructor; auto.
Qed.

Lemma recorded_insert l i x y :
  l !! i = Some x ->
  exists a b, recorded l = a ++ recorded [x] ++ b /\ recorded (<[i := y]> l) = a ++ recorded [y] ++ b.
Proof.
  intros H. exists (recorded (take i l)), (recorded (drop (S i) l)). unfold recorded. rewrite <- !omap_app. split.
  - change ([x] ++ drop (S i) l) with (x :: drop (S i) l). by rewrite (take_drop_middle _ _ _ H).
  - rewrite insert_take_drop by by eapply lookup_lt_Some. done.
Qed.

Lemma recorded_free l i : l !! i = Some free_section \/ (exists x, l !! i = Some x /\ os_in_use x = false) ->
  forall sid n, recorded (<[i := mk_outstanding true sid n]> l) ≡ₚ (sid, n) :: recorded l.
Proof.
  intros H sid n. assert (exists x, l !! i = Some x /\ os_in_use x = false) as (x & Hx & Hu)
    by (destruct H as [H|H]; [by eexists|done]).
  destruct (recorded_insert l i x (mk_outstanding true sid n) Hx) as (a & b & -> & ->).
  unfold recorded; cbn [omap list_omap os_in_use]. rewrite Hu. cbn [app]. by rewrite Permutation_middle.
Qed.

Lemma recorded_forget l i x :
  l !! i = Some x -> os_in_use x = true ->
  recorded l ≡ₚ (os_stream_id x, os_required_insert_count x) :: recorded (<[i := free_section]> l).
Proof.
  intros Hx Hu. destruct (recorded_insert l i x free_section Hx) as (a & b & -> & ->).
  unfold recorded; cbn [omap list_omap os_in_use free_section]. rewrite Hu. cbn [app]. by rewrite Permutation_middle.
Qed.

Lemma recorded_length l : (length (recorded l) <= length l)%nat.
Proof. induction l as [|x l IH]; [done|]. unfold recorded in *. cbn. destruct (os_in_use x); cbn; lia. Qed.

Lemma recorded_full l : Forall (fun x => negb (os_in_use x) = false) l -> length (recorded l) = length l.
Proof.
  induction 1 as [|x l Hx _ IH]; [done|]. unfold recorded in *. cbn. apply negb_false_iff in Hx. rewrite Hx. cbn. lia.
Qed.

Lemma recorded_not_full l i x : l !! i = Some x -> os_in_use x = false -> (length (recorded l) < length l)%nat.
Proof.
  intros Hx Hu. pose proof (recorded_free l i (or_intror (ex_intro _ x (conj Hx Hu))) 0 0) as Hp.
  apply Permutation_length in Hp. cbn in Hp. pose proof (recorded_length (<[i:=mk_outstanding true 0 0]> l)) as Hl.
  rewrite length_insert in Hl. lia.
Qed.

Lemma size_recorded l : NoDup (recorded l).*1 -> size (list_to_map (recorded l) : gmap Z Z) = length (recorded l).
Proof.
  intros Hnd. rewrite <- (length_map_to_list (list_to_map (recorded l) : gmap Z Z)).
  by rewrite map_to_list_to_map.
Qed.

(** What looking a stream up finds. *)
Lemma find_section_spec s m sid :
  tracks s m ->
  match find_section s sid with
  | Some i => exists x, es_outstanding s !! i = Some x /\ os_in_use x = true /\ os_stream_id x = sid /\
                m !! sid = Some (os_required_insert_count x)
  | None => m !! sid = None
  end.
Proof.
  intros [Hl Hnd -> Hc]. unfold find_section. destruct (first_slot _ _) as [i|] eqn:E.
  - apply first_slot_Some in E as (x & Hx & Hp). apply andb_true_iff in Hp as [Hu Hs%Z.eqb_eq].
    exists x. split_and!; try done. subst sid. apply elem_of_list_to_map_1; [done|].
    unfold recorded. apply list_elem_of_omap. exists x. split; [by eapply list_elem_of_lookup_2|by rewrite Hu].
  - apply not_elem_of_list_to_map_1. intros Hin. apply list_elem_of_fmap in Hin as ([sid' n] & -> & Hin).
    apply list_elem_of_omap in Hin as (x & Hx & Hf). destruct (os_in_use x) eqn:Hu; [|done]. injection Hf as <- <-.
    apply first_slot_None in E. rewrite Forall_forall in E. specialize (E x Hx). cbn in E. by rewrite Hu, Z.eqb_refl in E.
Qed.

Lemma tracks_forget s m sid i x :
  tracks s m -> es_outstanding s !! i = Some x -> os_in_use x = true -> os_stream_id x = sid ->
  tracks (forget s i) (delete sid m).
Proof.
  intros [Hl Hnd -> Hc] Hx Hu Hs. pose proof (recorded_forget _ i x Hx Hu) as Hp. subst sid.
  pose proof Hnd as Hnd0. rewrite Hp in Hnd. cbn in Hnd. apply NoDup_cons in Hnd as [Hnot Hnd'].
  assert (Hm : (list_to_map (recorded (es_outstanding s)) : gmap Z Z) =
               <[os_stream_id x := os_required_insert_count x]> (list_to_map (recorded (<[i := free_section]> (es_outstanding s))))).
  { by rewrite (list_to_map_proper _ _ Hnd0 Hp). }
  assert (Hdel : delete (os_stream_id x) (list_to_map (recorded (es_outstanding s)) : gmap Z Z) =
                 list_to_map (recorded (<[i := free_section]> (es_outstanding s)))).
  { rewrite Hm, delete_insert_eq. apply delete_id. by apply not_elem_of_list_to_map_1. }
  split; unfold forget; cbn [es_outstanding es_outstanding_count].
  - by rewrite length_insert.
  - done.
  - done.
  - rewrite Hc, Hdel, !size_recorded by done. apply Permutation_length in Hp. cbn in Hp.
    pose proof (recorded_length (es_outstanding s)). unfold WT_QPACK_MAX_OUTSTANDING_SECTIONS in Hl.
    rewrite u64_small by (unfold is_u64; lia). lia.
Qed.

(** Where there is a free slot, a stream without a record gets it. *)
Lemma tracks_record s m sid n :
  tracks s m -> m !! sid = None ->
  match first_slot (fun x => negb (os_in_use x)) (es_outstanding s) with
  | Some i =>
      (size m < WT_QPACK_MAX_OUTSTANDING_SECTIONS)%nat /\
      tracks (mk_encoder_state (es_known_received_count s) (<[i := mk_outstanding true sid n]> (es_outstanding s))
                               (u64 (es_outstanding_count s + 1))) (<[sid := n]> m)
  | None => size m = WT_QPACK_MAX_OUTSTANDING_SECTIONS
  end.
Proof.
  intros [Hl Hnd -> Hc] Hno. destruct (first_slot _ _) as [i|] eqn:E.
  - apply first_slot_Some in E as (x & Hx & Hu). apply negb_true_iff in Hu.
    pose proof (recorded_not_full _ i x Hx Hu) as Hlt. rewrite size_recorded by done. split; [lia|].
    pose proof (recorded_free _ i (or_intror (ex_intro _ x (conj Hx Hu))) sid n) as Hp.
    apply not_elem_of_list_to_map_2 in Hno.
    assert (Hnd' : NoDup (recorded (<[i := mk_outstanding true sid n]> (es_outstanding s))).*1)
      by (rewrite Hp; cbn; by apply NoDup_cons).
    split; cbn [es_outstanding es_outstanding_count].
    + by rewrite length_insert.
    + done.
    + by rewrite (list_to_map_proper _ _ Hnd' Hp).
    + rewrite map_size_insert_None by by apply not_elem_of_list_to_map_1.
      rewrite Hc, size_recorded by done. unfold WT_QPACK_MAX_OUTSTANDING_SECTIONS in Hl.
      rewrite u64_small by (unfold is_u64; lia). lia.
  - apply first_slot_None, recorded_full in E. rewrite size_recorded by done. by rewrite E.
Qed.

Lemma tracks_step s m e :
  tracks s m -> (section_step s e).1 = (map_step m e).1 /\ tracks (section_step s e).2 (map_step m e).2.
Proof.
  intros Ht. destruct e as [n e]. unfold section_step, map_step; cbn [fst snd].
  assert (Hfind : forall sid, match find_section s sid with
            | Some i => (exists r, m !! sid = Some r) /\ tracks (forget s i) (delete sid m)
            | None => m !! sid = None
            end).
  { intros sid. pose proof (find_section_spec s m sid Ht) as H. destruct (find_section s sid) as [i|]; [|done].
    destruct H as (x & Hx & Hu & Hs & Hm). split; [eauto|]. by eapply tracks_forget. }
  destruct e as [sid refs|sid|sid]; specialize (Hfind sid).
  - unfold wt_qpack_encoder_state_begin_section. destruct refs; cbn [negb]; [|done].
    set (s1 := match find_section s sid with Some slot => forget s slot | None => s end).
    assert (Ht1 : tracks s1 (delete sid m)).
    { unfold s1. destruct (find_section s sid) as [i|]; [apply Hfind|]. by rewrite delete_id. }
    pose proof (tracks_record s1 (delete sid m) sid n Ht1 (lookup_delete_eq _ _)) as Hrec.
    destruct (first_slot _ (es_outstanding s1)) as [i|] eqn:E.
    + destruct Hrec as [Hlt Htr]. apply Nat.ltb_lt in Hlt. rewrite Hlt. cbn [fst snd]. rewrite insert_delete_eq in Htr. done.
    + assert (Hfull : (size (delete sid m) <? WT_QPACK_MAX_OUTSTANDING_SECTIONS)%nat = false) by (apply Nat.ltb_ge; lia).
      rewrite Hfull. cbn [fst snd]. split; [done|]. unfold s1 in *. destruct (find_section s sid) as [i|] eqn:Ef; [|done].
      exfalso. destruct Hfind as [[r Hr] _].
      pose proof (find_section_spec s m sid Ht) as H. rewrite Ef in H. destruct H as (x & Hx & Hu & Hs & _).
      apply first_slot_None in E. cbn [forget es_outstanding] in E. rewrite Forall_lookup in E.
      specialize (E i free_section). cbn in E. discriminate E. rewrite list_lookup_insert_eq; [done|]. by eapply lookup_lt_Some.
  - unfold wt_qpack_encoder_state_section_acknowledged. destruct (find_section s sid) as [i|].
    + destruct Hfind as [[r ->] Htr]. done.
    + by rewrite Hfind.
  - unfold wt_qpack_encoder_state_stream_cancelled. destruct (find_section s sid) as [i|].
    + by destruct Hfind as [_ Htr].
    + by rewrite delete_id.
Qed.

Lemma tracks_init : tracks wt_qpack_encoder_state_init ∅.
Proof. split; try done. cbn. constructor. Qed.

(** The bound the loop computes. *)
Lemma fold_lower_bound l n :
  let below := fold_left lower_bound l n in
  below <= n /\ (forall sid r, (sid, r) ∈ recorded l -> below <= r) /\
  (below = n \/ exists sid, (sid, below) ∈ recorded l).
Proof.
  revert n. induction l as [|x l IH]; intros n; cbn [fold_left].
  - split_and!; [lia| |by left]. intros sid r H. by apply not_elem_of_nil in H.
  - destruct (IH (lower_bound n x)) as (H1 & H2 & H3). unfold lower_bound in *.
    assert (Hrec : recorded (x :: l) = if os_in_use x then (os_stream_id x, os_required_insert_count x) :: recorded l else recorded l)
      by (unfold recorded; cbn; by destruct (os_in_use x)).
    rewrite Hrec. destruct (os_in_use x); cbn [negb] in *; [|done].
    destruct (Z.ltb_spec (os_required_insert_count x) n); split_and!; try lia.
    + intros sid r [[= -> ->]|Hin]%elem_of_cons; [lia|eauto].
    + right. destruct H3 as [-> | [sid Hin]]; [exists (os_stream_id x); by left|exists sid; by right].
    + intros sid r [[= -> ->]|Hin]%elem_of_cons; [lia|eauto].
    + destruct H3 as [-> | [sid Hin]]; [by left|right; exists sid; by right].
Qed.

(** ** Theorems *)

(** The sixteen slots of outstanding sections refine a finite map from stream to Required Insert Count: over any sequence of sections begun, acknowledged and cancelled the statuses agree and the count is the size of the map; the eviction bound is the smallest Required Insert Count in it, or the number of insertions when it is empty. *)
Lemma outstanding_sections_tracked es n :
  let concrete := run_sections section_step es wt_qpack_encoder_state_init in
  let abstract := run_sections map_step es ∅ in
  concrete.1 = abstract.1 /\ es_outstanding_count concrete.2 = Z.of_nat (size abstract.2) /\
  let below := wt_qpack_encoder_state_evictable_below concrete.2 (Some n) in
  below <= n /\ (forall sid r, abstract.2 !! sid = Some r -> below <= r) /\
  (below = n \/ exists sid, abstract.2 !! sid = Some below).
Proof.
  assert (H : forall es s m, tracks s m ->
            (run_sections section_step es s).1 = (run_sections map_step es m).1 /\
            tracks (run_sections section_step es s).2 (run_sections map_step es m).2).
  { clear. intros es. induction es as [|e es IH]; intros s m Ht; [done|]. cbn [run_sections].
    destruct (tracks_step s m e Ht) as [Ho Ht']. destruct (section_step s e) as [o s'], (map_step m e) as [o' m'].
    cbn [fst snd] in *. subst o'. destruct (IH s' m' Ht') as [Hos Hts].
    destruct (run_sections section_step es s') as [os s2], (run_sections map_step es m') as [os' m2]. cbn [fst snd] in *.
    by rewrite Hos. }
  destruct (H es _ _ tracks_init) as [Hos Ht]. cbv zeta. split_and!; [done|apply Ht|..].
  all: destruct (fold_lower_bound (es_outstanding (run_sections section_step es wt_qpack_encoder_state_init).2) n) as (B1 & B2 & B3).
  - done.
  - intros sid r Hm. apply (B2 sid). rewrite (tr_map _ _ Ht) in Hm. by apply elem_of_list_to_map_2.
  - destruct B3 as [B3|[sid B3]]; [by left|right]. exists sid. rewrite (tr_map _ _ Ht). apply elem_of_list_to_map_1; [apply Ht|done].
Qed.

(** What the bound really says: while a section with Required Insert Count n is outstanding, every dynamic entry the section can refer to before its Base lies below the bound that evictable_below answers, so evicting below it drops entries the section still needs. *)
Lemma evictable_entries_are_referenced n stream_id index absolute :
  0 < n < 2 ^ 64 -> varint_ok index ->
  let r := wt_qpack_encoder_state_begin_section wt_qpack_encoder_state_init (Some n) stream_id true in
  r.1 = Ok (mk_prefix n n) /\
  (dynamic_index (mk_prefix n n) false index = Some absolute ->
   absolute < wt_qpack_encoder_state_evictable_below r.2 (Some n)).
Proof.
  intros Hn Hi r. split; [done|]. intros Hd.
  pose proof (dynamic_index_permitted (mk_prefix n n) false index absolute ltac:(cbn; lia) Hi Hd) as H. cbn in H.
  unfold r, wt_qpack_encoder_state_begin_section. cbn. unfold lower_bound; cbn. rewrite Z.ltb_irrefl. lia.
Qed.

Lemma evictable_entries_are_referenced_witness :
  let r := wt_qpack_encoder_state_begin_section wt_qpack_encoder_state_init (Some 3) 4 true in
  r.1 = Ok (mk_prefix 3 3) /\ 2 < wt_qpack_encoder_state_evictable_below r.2 (Some 3).
Proof.
  destruct (evictable_entries_are_referenced 3 4 0 2) as [H1 H2].
  - lia.
  - unfold varint_ok, WT_QUIC_VARINT_MAX. lia.
  - split; [exact H1|]. apply H2. reflexivity.
Defined.
