(* ===== verification/Http3Message.v ===== *)
(** * HTTP/3 messages: [src/http3/headers.c], [message.c], [request.c]

    The rules a header section obeys, checked field by field; a section decoded
    into a message and a message encoded as one; and the frames of a request
    stream, in order.  A decoded message holds views ([QpackField]); a message to
    encode holds the caller's bytes: the record is over both. *)

From stdpp Require Import strings.
From S2P Require Export QpackField Http3Frame.
#[local] Open Scope Z_scope.

Definition WT_HTTP3_REQUEST_INCOMPLETE : Z := 0x010d.

(** ** Header sections *)

Inductive wt_http3_header_message := WT_HTTP3_HEADER_REQUEST | WT_HTTP3_HEADER_RESPONSE.

#[export] Instance wt_http3_header_message_eq_dec : EqDecision wt_http3_header_message.
Proof. solve_decision. Defined.

Definition WT_HTTP3_PSEUDO_METHOD : Z := Z.shiftl 1 0.
Definition WT_HTTP3_PSEUDO_SCHEME : Z := Z.shiftl 1 1.
Definition WT_HTTP3_PSEUDO_PATH : Z := Z.shiftl 1 2.
Definition WT_HTTP3_PSEUDO_AUTHORITY : Z := Z.shiftl 1 3.
Definition WT_HTTP3_PSEUDO_STATUS : Z := Z.shiftl 1 4.
Definition WT_HTTP3_PSEUDO_PROTOCOL : Z := Z.shiftl 1 5.

Record wt_http3_header_validation := mk_validation {
  hv_message : wt_http3_header_message;
  hv_saw_regular : bool;
  hv_pseudo_seen : Z;
  hv_is_connect : bool }.

Definition wt_http3_header_validation_init (message : wt_http3_header_message) : wt_http3_header_validation :=
  mk_validation message false 0 false.

(** A length and [memcmp] against a literal. *)
Definition equals (bytes : list Z) (text : string) : bool := same_bytes bytes (literal text).

Definition in_range (lo hi c : Z) : bool := (lo <=? c) && (c <=? hi).

Definition name_byte (c : Z) : bool :=
  in_range 0x61 0x7a c || in_range 0x30 0x39 c ||
  bool_decide (c ∈ [0x21; 0x23; 0x24; 0x25; 0x26; 0x27; 0x2a; 0x2b; 0x2d; 0x2e; 0x5e; 0x5f; 0x60; 0x7c; 0x7e]).

Definition field_name_is_valid (name : list Z) : bool := negb (zlen name =? 0) && forallb name_byte name.

Definition value_byte (c : Z) : bool :=
  (c =? 0x09) || (c =? 0x20) || negb ((c <? 0x21) || (c =? 0x7f)).

Definition field_value_is_valid (value : list Z) : bool := forallb value_byte value.

Definition is_connection_specific (name : list Z) : bool :=
  equals name "connection" || equals name "transfer-encoding" || equals name "keep-alive" || equals name "upgrade" ||
  equals name "proxy-connection".

(** The bit of a pseudo-header this message type defines; 0 for any other name. *)
Definition pseudo_bit (message : wt_http3_header_message) (name : list Z) : Z :=
  match message with
  | WT_HTTP3_HEADER_REQUEST =>
      if equals name ":method" then WT_HTTP3_PSEUDO_METHOD
      else if equals name ":scheme" then WT_HTTP3_PSEUDO_SCHEME
      else if equals name ":path" then WT_HTTP3_PSEUDO_PATH
      else if equals name ":authority" then WT_HTTP3_PSEUDO_AUTHORITY
      else if equals name ":protocol" then WT_HTTP3_PSEUDO_PROTOCOL
      else 0
  | WT_HTTP3_HEADER_RESPONSE => if equals name ":status" then WT_HTTP3_PSEUDO_STATUS else 0
  end.

(** A status, an HTTP/3 code and the validation. *)
Definition refuse_field (v : wt_http3_header_validation) : wt_status * option Z * wt_http3_header_validation :=
  (WT_ERR_PROTOCOL, Some WT_HTTP3_MESSAGE_ERROR, v).

Definition validate_pseudo (v : wt_http3_header_validation) (name value : list Z) :
    wt_status * option Z * wt_http3_header_validation :=
  if hv_saw_regular v then refuse_field v
  else
    let bit := pseudo_bit (hv_message v) name in
    let v :=
      match hv_message v with
      | WT_HTTP3_HEADER_REQUEST =>
          if (bit =? WT_HTTP3_PSEUDO_METHOD) && equals value "CONNECT"
          then mk_validation (hv_message v) (hv_saw_regular v) (hv_pseudo_seen v) true else v
      | WT_HTTP3_HEADER_RESPONSE => v
      end in
    if bit =? 0 then refuse_field v
    else if negb (Z.land (hv_pseudo_seen v) bit =? 0) then refuse_field v
    else if negb (field_value_is_valid value) then refuse_field v
    else (WT_OK, None, mk_validation (hv_message v) (hv_saw_regular v) (Z.lor (hv_pseudo_seen v) bit) (hv_is_connect v)).

Definition validate_regular (v : wt_http3_header_validation) (name value : list Z) :
    wt_status * option Z * wt_http3_header_validation :=
  if negb (field_name_is_valid name) || negb (field_value_is_valid value) then refuse_field v
  else if is_connection_specific name then refuse_field v
  else if equals name "te" && negb (equals value "trailers") then refuse_field v
  else (WT_OK, None, mk_validation (hv_message v) true (hv_pseudo_seen v) (hv_is_connect v)).

(** [name_length != 0 && name[0] == ':']. *)
Definition is_pseudo (name : list Z) : bool := match name with c :: _ => c =? 0x3a | [] => false end.

Definition wt_http3_header_validate (v : wt_http3_header_validation) (name value : list Z) :
    wt_status * option Z * wt_http3_header_validation :=
  if is_pseudo name then validate_pseudo v name value else validate_regular v name value.

Definition wt_http3_header_finish (v : wt_http3_header_validation) : wt_status * option Z :=
  let missing := (WT_ERR_PROTOCOL, Some WT_HTTP3_MESSAGE_ERROR) in
  match hv_message v with
  | WT_HTTP3_HEADER_RESPONSE =>
      if Z.land (hv_pseudo_seen v) WT_HTTP3_PSEUDO_STATUS =? 0 then missing else (WT_OK, None)
  | WT_HTTP3_HEADER_REQUEST =>
      if Z.land (hv_pseudo_seen v) WT_HTTP3_PSEUDO_METHOD =? 0 then missing
      else if hv_is_connect v then
        if Z.land (hv_pseudo_seen v) WT_HTTP3_PSEUDO_AUTHORITY =? 0 then missing else (WT_OK, None)
      else
        let target := Z.lor WT_HTTP3_PSEUDO_SCHEME WT_HTTP3_PSEUDO_PATH in
        if negb (Z.land (hv_pseudo_seen v) target =? target) then missing else (WT_OK, None)
  end.

(** ** Walking a section *)

(** How a walk over the fields of a section ends. *)
Inductive walk_end (S R : Type) :=
  | Finished (s : S)
  | Stopped (r : R)
  | Refused (st : wt_status) (e : option Z).
Arguments Finished {S R}.
Arguments Stopped {S R}.
Arguments Refused {S R}.

(** What a field reads where the walk stands. *)
Definition walk_read (d : wt_qpack_field_section_decoder) (scratch : list Z) (v : field_view) : list Z :=
  view_read (default (wt_qpack_dynamic_init 0) (sd_table d)) (mk_scratch scratch (sd_scratch_used d)) v.

(** The loop of [wt_http3_message_decode] and of [wt_http3_message_field]: the next
    field, then the step for it.  [None] is fuel run out. *)
Fixpoint walk_fields {S R} (step : S -> list Z -> list Z -> field_view -> S + walk_end S R) (fuel : nat)
    (d : wt_qpack_field_section_decoder) (scratch : list Z) (s : S) : option (walk_end S R) * list Z :=
  match fuel with
  | O => (None, scratch)
  | Datatypes.S fuel =>
      match wt_qpack_field_section_decoder_next d scratch with
      | (Fail WT_ERR_CLOSED _, _, scratch) => (Some (Finished s), scratch)
      | (Fail WT_ERR_TRUNCATED _, _, scratch) => (Some (Refused WT_ERR_TRUNCATED None), scratch)
      | (Fail st e, _, scratch) => (Some (Refused st e), scratch)
      | (Ok f, d, scratch) =>
          match step s (walk_read d scratch f.1) (walk_read d scratch f.2) f.2 with
          | inl s => walk_fields step fuel d scratch s
          | inr r => (Some r, scratch)
          end
      end
  end.

(** ** Messages *)

(** [V] is what a pointer and a length are: a view, or the caller's bytes. [None] is NULL. *)
Record wt_http3_message (V : Type) := mk_message {
  mg_type : wt_http3_header_message;
  mg_method : option V;
  mg_scheme : option V;
  mg_path : option V;
  mg_authority : option V;
  mg_protocol : option V;
  mg_status : Z;
  mg_has_status : bool;
  mg_validation : wt_http3_header_validation }.
Arguments mk_message {V}.
Arguments mg_type {V}.
Arguments mg_method {V}.
Arguments mg_scheme {V}.
Arguments mg_path {V}.
Arguments mg_authority {V}.
Arguments mg_protocol {V}.
Arguments mg_status {V}.
Arguments mg_has_status {V}.
Arguments mg_validation {V}.

Definition empty_message {V} (type : wt_http3_header_message) : wt_http3_message V :=
  mk_message type None None None None None 0 false (wt_http3_header_validation_init type).

Definition parse_digit (c : Z) : option Z := if (c <? 0x30) || (0x39 <? c) then None else Some (c - 0x30).

Definition parse_status (value : list Z) : option Z :=
  match value with
  | [a; b; c] =>
      match parse_digit a, parse_digit b, parse_digit c with
      | Some a, Some b, Some c =>
          let status := (a * 10 + b) * 10 + c in
          if (status <? 100) || (599 <? status) then None else Some status
      | _, _, _ => None
      end
  | _ => None
  end.

Definition set_validation {V} (m : wt_http3_message V) (v : wt_http3_header_validation) : wt_http3_message V :=
  mk_message (mg_type m) (mg_method m) (mg_scheme m) (mg_path m) (mg_authority m) (mg_protocol m) (mg_status m)
             (mg_has_status m) v.

(** Keeping the values the rest of the stack needs; [inr] is a status that is not one. *)
Definition keep_field {V} (m : wt_http3_message V) (name value : list Z) (view : V) : wt_http3_message V + unit :=
  let '(mk_message type method scheme path authority protocol status has_status v) := m in
  if equals name ":method" then inl (mk_message type (Some view) scheme path authority protocol status has_status v)
  else if equals name ":scheme" then inl (mk_message type method (Some view) path authority protocol status has_status v)
  else if equals name ":path" then inl (mk_message type method scheme (Some view) authority protocol status has_status v)
  else if equals name ":authority" then inl (mk_message type method scheme path (Some view) protocol status has_status v)
  else if equals name ":protocol" then inl (mk_message type method scheme path authority (Some view) status has_status v)
  else if equals name ":status" then
    match parse_status value with
    | Some status => inl (mk_message type method scheme path authority protocol status true v)
    | None => inr tt
    end
  else inl m.

Definition decode_step (m : wt_http3_message field_view) (name value : list Z) (view : field_view) :
    wt_http3_message field_view + walk_end (wt_http3_message field_view) Empty_set :=
  match wt_http3_header_validate (mg_validation m) name value with
  | (WT_OK, _, v) =>
      match keep_field (set_validation m v) name value view with
      | inl m => inl m
      | inr tt => inr (Refused WT_ERR_PROTOCOL (Some WT_HTTP3_MESSAGE_ERROR))
      end
  | (st, e, _) => inr (Refused st e)
  end.

Definition view_length (v : field_view) : Z :=
  match v with Inline bytes => zlen bytes | FromTable a => arg_length a | FromScratch _ length => length end.

(** A NULL has length 0. *)
Definition value_length (v : option field_view) : Z := match v with Some v => view_length v | None => 0 end.

(** The values a request has to have, once every field is in. *)
Definition request_complete (read : field_view -> list Z) (m : wt_http3_message field_view) : bool :=
  let is_connect := (value_length (mg_method m) =? 7) && (equals (match mg_method m with Some v => read v | None => [] end) "CONNECT") in
  if value_length (mg_method m) =? 0 then false
  else negb ((negb is_connect || negb (value_length (mg_protocol m) =? 0)) &&
             ((value_length (mg_scheme m) =? 0) || (value_length (mg_path m) =? 0))).

Definition message_error {A} : outcome A := Fail WT_ERR_PROTOCOL (Some WT_HTTP3_MESSAGE_ERROR).

(** The answer and the scratch.  What a refused decode leaves in the message is not modelled. *)
Definition wt_http3_message_decode (type : wt_http3_header_message) (payload : list Z)
    (table : option wt_qpack_dynamic_table) (max_entries known_insert_count : Z) (scratch : list Z) :
    option (outcome (wt_http3_message field_view)) * list Z :=
  match wt_qpack_field_section_begin table max_entries payload known_insert_count with
  | Fail st e => (Some (Fail st e), scratch)
  | Ok d =>
      match walk_fields decode_step (S (length payload)) d scratch (empty_message type) with
      | (None, scratch) => (None, scratch)
      | (Some (Refused st e), scratch) => (Some (Fail st e), scratch)
      | (Some (Stopped r), scratch) => match r with end
      | (Some (Finished m), scratch) =>
          (Some (match wt_http3_header_finish (mg_validation m) with
                 | (WT_OK, _) =>
                     match type with
                     | WT_HTTP3_HEADER_REQUEST =>
                         if request_complete (walk_read d scratch) m then Ok m else message_error
                     | WT_HTTP3_HEADER_RESPONSE => Ok m
                     end
                 | (st, e) => Fail st e
                 end), scratch)
      end
  end.

(** [field_name_is]: a caller's name, NULL being [None]. *)
Definition field_name_is (field_name : list Z) (name : option (list Z)) : bool :=
  match name with None => false | Some name => same_bytes field_name name end.

Definition field_step (name : option (list Z)) (v : wt_http3_header_validation) (field_name value : list Z)
    (view : field_view) : wt_http3_header_validation + walk_end wt_http3_header_validation field_view :=
  match wt_http3_header_validate v field_name value with
  | (WT_OK, _, v) => if field_name_is field_name name then inr (Stopped view) else inl v
  | (st, e, _) => inr (Refused st e)
  end.

Definition wt_http3_message_field (name : option (list Z)) (payload : list Z) (table : option wt_qpack_dynamic_table)
    (max_entries known_insert_count : Z) (scratch : list Z) : option (outcome field_view) * list Z :=
  match wt_qpack_field_section_begin table max_entries payload known_insert_count with
  | Fail st e => (Some (Fail st e), scratch)
  | Ok d =>
      match walk_fields (field_step name) (S (length payload)) d scratch
              (wt_http3_header_validation_init WT_HTTP3_HEADER_REQUEST) with
      | (None, scratch) => (None, scratch)
      | (Some (Refused st e), scratch) => (Some (Fail st e), scratch)
      | (Some (Stopped view), scratch) => (Some (Ok view), scratch)
      | (Some (Finished _), scratch) => (Some (Fail WT_ERR_STATE None), scratch)
      end
  end.

(** ** Encoding *)

Definition set_line (name : string) (value : list Z) : wt_qpack_field_line :=
  mk_line WT_QPACK_FIELD_LITERAL_LITERAL_NAME false 0 false (literal name) value false 0.

Definition add_pseudo (lines : list wt_qpack_field_line) (name : string) (value : option (list Z)) : list wt_qpack_field_line :=
  match value with None => lines | Some value => lines ++ [set_line name value] end.

Definition status_text (status : Z) : list Z :=
  [0x30 + status / 100 mod 10; 0x30 + status / 10 mod 10; 0x30 + status mod 10].

(** The lines, or the status of the refusal: H3_MESSAGE_ERROR goes with it. *)
Definition message_lines (m : wt_http3_message (list Z)) : wt_status + list wt_qpack_field_line :=
  match mg_type m with
  | WT_HTTP3_HEADER_REQUEST =>
      match mg_method m with
      | None => inl WT_ERR_INVALID_ARGUMENT
      | Some _ =>
          let lines := add_pseudo [] ":method" (mg_method m) in
          let lines := add_pseudo lines ":scheme" (mg_scheme m) in
          let lines := add_pseudo lines ":authority" (mg_authority m) in
          let lines := add_pseudo lines ":path" (mg_path m) in
          inr (add_pseudo lines ":protocol" (mg_protocol m))
      end
  | WT_HTTP3_HEADER_RESPONSE =>
      if negb (mg_has_status m) then inl WT_ERR_INVALID_ARGUMENT
      else if (mg_status m <? 100) || (599 <? mg_status m) then inl WT_ERR_LIMIT
      else inr (add_pseudo [] ":status" (Some (status_text (mg_status m))))
  end.

Definition wt_http3_message_encode (m : wt_http3_message (list Z)) (max_entries : Z) (w : wt_writer) :
    wt_status * option Z * wt_writer :=
  match message_lines m with
  | inl st => (st, Some WT_HTTP3_MESSAGE_ERROR, w)
  | inr lines => let '(st, w') := wt_qpack_field_section_encode (mk_prefix 0 0) max_entries lines 1 w in (st, None, w')
  end.

(** ** The frames of a request stream *)

Inductive wt_http3_request_state :=
  | WT_HTTP3_REQUEST_EXPECT_HEADERS
  | WT_HTTP3_REQUEST_BODY
  | WT_HTTP3_REQUEST_COMPLETE.

#[export] Instance wt_http3_request_state_eq_dec : EqDecision wt_http3_request_state.
Proof. solve_decision. Defined.

Record wt_http3_request_stream := mk_request { rq_state : wt_http3_request_state; rq_ended : bool }.

Definition wt_http3_request_init : wt_http3_request_stream := mk_request WT_HTTP3_REQUEST_EXPECT_HEADERS false.

Definition wt_http3_request_on_frame (r : wt_http3_request_stream) (type : Z) :
    wt_status * option Z * wt_http3_request_stream :=
  let unexpected := (WT_ERR_PROTOCOL, Some WT_HTTP3_FRAME_UNEXPECTED, r) in
  if rq_ended r then (WT_ERR_STATE, None, r)
  else
    match rq_state r with
    | WT_HTTP3_REQUEST_EXPECT_HEADERS =>
        if type =? WT_HTTP3_FRAME_HEADERS then (WT_OK, None, mk_request WT_HTTP3_REQUEST_BODY (rq_ended r)) else unexpected
    | WT_HTTP3_REQUEST_BODY =>
        if type =? WT_HTTP3_FRAME_DATA then (WT_OK, None, r)
        else if type =? WT_HTTP3_FRAME_HEADERS then (WT_OK, None, mk_request WT_HTTP3_REQUEST_COMPLETE (rq_ended r))
        else unexpected
    | WT_HTTP3_REQUEST_COMPLETE => unexpected
    end.

Definition wt_http3_request_on_end (r : wt_http3_request_stream) : wt_status * option Z * wt_http3_request_stream :=
  if rq_ended r then (WT_ERR_STATE, None, r)
  else
    let r := mk_request (rq_state r) true in
    if bool_decide (rq_state r = WT_HTTP3_REQUEST_EXPECT_HEADERS)
    then (WT_ERR_PROTOCOL, Some WT_HTTP3_REQUEST_INCOMPLETE, r) else (WT_OK, None, r).

Definition wt_http3_request_on_reset (r : wt_http3_request_stream) : wt_status * wt_http3_request_stream :=
  (WT_OK, mk_request (rq_state r) true).

(** ** What a valid section is *)

(** The pseudo-headers a message type defines, with the bits that record them. *)
Definition pseudo_headers (type : wt_http3_header_message) : list (list Z * Z) :=
  match type with
  | WT_HTTP3_HEADER_REQUEST =>
      [(literal ":method", WT_HTTP3_PSEUDO_METHOD); (literal ":scheme", WT_HTTP3_PSEUDO_SCHEME);
       (literal ":path", WT_HTTP3_PSEUDO_PATH); (literal ":authority", WT_HTTP3_PSEUDO_AUTHORITY);
       (literal ":protocol", WT_HTTP3_PSEUDO_PROTOCOL)]
  | WT_HTTP3_HEADER_RESPONSE => [(literal ":status", WT_HTTP3_PSEUDO_STATUS)]
  end.

Definition pseudo_field_ok (type : wt_http3_header_message) (f : table_entry) : Prop :=
  f.1 ∈ (pseudo_headers type).*1 /\ Forall (fun c => value_byte c = true) f.2.

Definition regular_field_ok (f : table_entry) : Prop :=
  (f.1 <> [] /\ Forall (fun c => name_byte c = true) f.1) /\ Forall (fun c => value_byte c = true) f.2 /\
  (f.1 ∉ (literal <$> ["connection"; "transfer-encoding"; "keep-alive"; "upgrade"; "proxy-connection"]%string)) /\
  (f.1 = literal "te" -> f.2 = literal "trailers").

Definition pseudo_part (fields : list table_entry) : list table_entry := filter (fun f => is_pseudo f.1 = true) fields.
Definition regular_part (fields : list table_entry) : list table_entry := filter (fun f => is_pseudo f.1 = false) fields.

(** The pseudo-headers first, none twice; then the regular fields. *)
Record fields_ok (type : wt_http3_header_message) (fields : list table_entry) : Prop := {
  fo_order : fields = pseudo_part fields ++ regular_part fields;
  fo_once : NoDup (pseudo_part fields).*1;
  fo_pseudo : Forall (pseudo_field_ok type) (pseudo_part fields);
  fo_regular : Forall regular_field_ok (regular_part fields) }.

(** What the section must carry. *)
Definition fields_complete (type : wt_http3_header_message) (fields : list table_entry) : Prop :=
  let has name := literal name ∈ (pseudo_part fields).*1 in
  match type with
  | WT_HTTP3_HEADER_RESPONSE => has ":status"%string
  | WT_HTTP3_HEADER_REQUEST =>
      has ":method"%string /\
      if decide ((literal ":method", literal "CONNECT") ∈ fields) then has ":authority"%string
      else has ":scheme"%string /\ has ":path"%string
  end.

(** The fields of a section through the validator. *)
Fixpoint validate_fields (v : wt_http3_header_validation) (fields : list table_entry) :
    wt_status * option Z * wt_http3_header_validation :=
  match fields with
  | [] => (WT_OK, None, v)
  | f :: fields =>
      match wt_http3_header_validate v f.1 f.2 with
      | (WT_OK, _, v) => validate_fields v fields
      | r => r
      end
  end.

Definition validate_section (type : wt_http3_header_message) (fields : list table_entry) : wt_status * option Z :=
  match validate_fields (wt_http3_header_validation_init type) fields with
  | (WT_OK, _, v) => wt_http3_header_finish v
  | (st, e, _) => (st, e)
  end.

(** ** The validator *)

Lemma equals_true bytes text : equals bytes text = true <-> bytes = literal text.
Proof. apply same_bytes_true. Qed.

Lemma equals_false bytes text : equals bytes text = false <-> bytes <> literal text.
Proof. rewrite <- not_true_iff_false, equals_true. done. Qed.

(** A nonzero bit names its pseudo-header. *)
Lemma pseudo_bit_spec type name :
  if pseudo_bit type name =? 0 then name ∉ (pseudo_headers type).*1
  else (name, pseudo_bit type name) ∈ pseudo_headers type.
Proof.
  unfold pseudo_bit. destruct type; cbn [pseudo_headers fmap list_fmap fst].
  - repeat match goal with |- context [if equals name ?t then _ else _] =>
      destruct (equals name t) eqn:?; [match goal with H : equals _ _ = true |- _ => apply equals_true in H; subst end;
        vm_compute; repeat first [apply list_elem_of_here | apply list_elem_of_further]|] end.
    cbn. rewrite equals_false in *. set_solver.
  - destruct (equals name ":status") eqn:E; [apply equals_true in E; subst; vm_compute; apply list_elem_of_here|].
    cbn. rewrite equals_false in *. set_solver.
Qed.

Lemma pseudo_headers_table type : forallb (fun x => is_pseudo x.1 && negb (x.2 =? 0) &&
  forallb (fun y => Bool.eqb (Z.land x.2 y.2 =? 0) (negb (same_bytes x.1 y.1)) &&
                    Bool.eqb (x.2 =? WT_HTTP3_PSEUDO_METHOD) (same_bytes x.1 (literal ":method"))) (pseudo_headers type)) (pseudo_headers type) = true.
Proof. destruct type; vm_compute; reflexivity. Qed.

Lemma pseudo_headers_bits type x y :
  x ∈ pseudo_headers type -> y ∈ pseudo_headers type ->
  is_pseudo x.1 = true /\ x.2 <> 0 /\ (Z.land x.2 y.2 = 0 <-> x.1 <> y.1) /\
  (x.2 =? WT_HTTP3_PSEUDO_METHOD) = same_bytes x.1 (literal ":method").
Proof.
  intros Hx Hy. pose proof (pseudo_headers_table type) as H. rewrite forallb_forall in H.
  apply list_elem_of_In in Hx, Hy. specialize (H x Hx). apply andb_true_iff in H as [[H1 H2]%andb_true_iff H].
  rewrite forallb_forall in H. specialize (H y Hy). apply andb_true_iff in H as [H3%eqb_prop H4%eqb_prop].
  apply negb_true_iff, Z.eqb_neq in H2. split_and!; try done.
  rewrite <- Z.eqb_eq, H3, negb_true_iff, <- not_true_iff_false, same_bytes_true. done.
Qed.

Lemma pseudo_names_pseudo type name : name ∈ (pseudo_headers type).*1 -> is_pseudo name = true.
Proof. intros ([n b] & -> & H)%list_elem_of_fmap. by apply (pseudo_headers_bits type (n, b) (n, b)). Qed.

Lemma regular_field_okb (f : table_entry) :
  is_pseudo f.1 = false ->
  (validate_regular (mk_validation WT_HTTP3_HEADER_REQUEST false 0 false) f.1 f.2).1.1 = WT_OK <-> regular_field_ok f.
Proof.
  intros Hp. unfold validate_regular, regular_field_ok, field_name_is_valid, field_value_is_valid.
  assert (Hz : (zlen f.1 =? 0) = true <-> f.1 = []).
  { rewrite Z.eqb_eq. split; [apply zlen_0_nil|by intros ->]. }
  assert (Hn : forallb name_byte f.1 = true <-> Forall (fun c => name_byte c = true) f.1)
    by (rewrite forallb_forall, Forall_forall; by setoid_rewrite list_elem_of_In).
  assert (Hv : forallb value_byte f.2 = true <-> Forall (fun c => value_byte c = true) f.2)
    by (rewrite forallb_forall, Forall_forall; by setoid_rewrite list_elem_of_In).
  assert (Hc : is_connection_specific f.1 = true <->
    f.1 ∈ (literal <$> ["connection"; "transfer-encoding"; "keep-alive"; "upgrade"; "proxy-connection"]%string)).
  { unfold is_connection_specific. rewrite !orb_true_iff, !equals_true. set_solver. }
  assert (Ht : equals f.1 "te" && negb (equals f.2 "trailers") = true <-> ~ (f.1 = literal "te" -> f.2 = literal "trailers")).
  { rewrite andb_true_iff, negb_true_iff, equals_true, equals_false.
    destruct (decide (f.1 = literal "te")), (decide (f.2 = literal "trailers")); naive_solver. }
  destruct (zlen f.1 =? 0) eqn:E1, (forallb name_byte f.1) eqn:E2, (forallb value_byte f.2) eqn:E3; cbn [negb andb orb];
    try (split; [done|]; intros ((? & ?) & ? & ?); exfalso; naive_solver).
  destruct (is_connection_specific f.1) eqn:E4; [split; [done|]; intros (_ & _ & ? & _); exfalso; naive_solver|].
  destruct (equals f.1 "te" && _) eqn:E5; [split; [done|]; intros (_ & _ & _ & ?); exfalso; naive_solver|].
  split; [|done]. intros _. destruct (decide (f.1 = literal "te")), (decide (f.2 = literal "trailers")); naive_solver.
Qed.

(** What the validation records of the fields it has accepted. *)
Record validated (v : wt_http3_header_validation) (done_ : list table_entry) : Prop := {
  va_ok : fields_ok (hv_message v) done_;
  va_regular : hv_saw_regular v = true <-> regular_part done_ <> [];
  va_seen : forall x, x ∈ pseudo_headers (hv_message v) ->
    (Z.land (hv_pseudo_seen v) x.2 = 0 <-> x.1 ∉ (pseudo_part done_).*1);
  va_connect : hv_message v = WT_HTTP3_HEADER_REQUEST ->
    (hv_is_connect v = true <-> (literal ":method", literal "CONNECT") ∈ done_) }.

Lemma validated_init type : validated (wt_http3_header_validation_init type) [].
Proof.
  split; cbn.
  - split; cbn; constructor.
  - naive_solver.
  - intros x _. split; [|done]. intros _. apply not_elem_of_nil.
  - intros _. split; [done|]. intros H. by apply not_elem_of_nil in H.
Qed.

Lemma pseudo_part_app a b : pseudo_part (a ++ b) = pseudo_part a ++ pseudo_part b.
Proof. apply filter_app. Qed.

Lemma regular_part_app a b : regular_part (a ++ b) = regular_part a ++ regular_part b.
Proof. apply filter_app. Qed.

Lemma part_singleton (f : table_entry) :
  pseudo_part [f] = (if is_pseudo f.1 then [f] else []) /\ regular_part [f] = (if is_pseudo f.1 then [] else [f]).
Proof. unfold pseudo_part, regular_part. rewrite !filter_cons, !filter_nil. by destruct (is_pseudo f.1). Qed.

(** A pseudo-header comes after pseudo-headers only. *)
Lemma pseudo_first type a (f : table_entry) b :
  fields_ok type (a ++ f :: b) -> is_pseudo f.1 = true -> regular_part a = [].
Proof.
  intros [Ho _ _ _] Hp. remember (a ++ f :: b) as l eqn:El. rewrite El in Ho at 1.
  apply app_eq_inv in Ho as [(k & _ & Hk)|(k & Hk & _)].
  - exfalso. assert (Hin : f ∈ regular_part l) by (rewrite Hk; set_solver).
    apply list_elem_of_filter in Hin as [Hin _]. congruence.
  - assert (HP : forall x, x ∈ a -> is_pseudo x.1 = true).
    { intros x Hx. assert (Hin : x ∈ pseudo_part l) by (rewrite Hk; set_solver). by apply list_elem_of_filter in Hin as [Hin _]. }
    clear -HP. unfold regular_part. induction a as [|x a IH]; [done|].
    rewrite filter_cons, HP by set_solver. apply IH. set_solver.
Qed.

Lemma forallb_Forall {A} (p : A -> bool) l : forallb p l = true <-> Forall (fun x => p x = true) l.
Proof. rewrite forallb_forall, Forall_forall. by setoid_rewrite list_elem_of_In. Qed.

(** A refused field spoils every section it would be part of. *)
Definition spoils (type : wt_http3_header_message) (pre : list table_entry) (f : table_entry) : Prop :=
  forall rest, ~ fields_ok type (pre ++ f :: rest).

(** Whether the field is accepted, and what the validation then records. *)
Definition field_verdict (v : wt_http3_header_validation) (pre : list table_entry) (f : table_entry)
    (r : wt_status * option Z * wt_http3_header_validation) : Prop :=
  (r.1 = (WT_OK, None) /\ validated r.2 (pre ++ [f]) /\ hv_message r.2 = hv_message v) \/
  (r.1 = (WT_ERR_PROTOCOL, Some WT_HTTP3_MESSAGE_ERROR) /\ spoils (hv_message v) pre f).

Lemma refused_verdict v v' pre (f : table_entry) : spoils (hv_message v) pre f -> field_verdict v pre f (refuse_field v').
Proof. by right. Qed.

Lemma spoils_pseudo type pre (f : table_entry) : is_pseudo f.1 = true -> ~ pseudo_field_ok type f -> spoils type pre f.
Proof.
  intros Hp Hn rest [_ _ HF _]. rewrite pseudo_part_app in HF. apply Forall_app in HF as [_ HF].
  unfold pseudo_part in HF. rewrite filter_cons, Hp in HF. cbn in HF. apply Forall_cons in HF as [HF _]. done.
Qed.

Lemma spoils_regular type pre (f : table_entry) : is_pseudo f.1 = false -> ~ regular_field_ok f -> spoils type pre f.
Proof.
  intros Hp Hn rest [_ _ _ HF]. rewrite regular_part_app in HF. apply Forall_app in HF as [_ HF].
  unfold regular_part in HF. rewrite filter_cons, Hp in HF. cbn in HF. apply Forall_cons in HF as [HF _]. done.
Qed.

Lemma spoils_twice type pre (f : table_entry) : is_pseudo f.1 = true -> f.1 ∈ (pseudo_part pre).*1 -> spoils type pre f.
Proof.
  intros Hp Hin rest [_ Hnd _ _]. rewrite pseudo_part_app, fmap_app in Hnd. apply NoDup_app in Hnd as (_ & Hnd & _).
  apply (Hnd f.1 Hin). unfold pseudo_part. rewrite filter_cons, Hp. cbn. left.
Qed.

(** What an accepted pseudo-header adds. *)
Lemma validated_pseudo v pre (f : table_entry) bit connect :
  validated v pre -> is_pseudo f.1 = true -> regular_part pre = [] -> pseudo_field_ok (hv_message v) f ->
  (f.1, bit) ∈ pseudo_headers (hv_message v) -> Z.land (hv_pseudo_seen v) bit = 0 ->
  (hv_message v = WT_HTTP3_HEADER_REQUEST ->
     (connect = true <-> hv_is_connect v = true \/ f = (literal ":method", literal "CONNECT"))) ->
  validated (mk_validation (hv_message v) (hv_saw_regular v) (Z.lor (hv_pseudo_seen v) bit) connect) (pre ++ [f]).
Proof.
  intros [[Ho Hnd HP HR] Hreg Hseen Hconn] Hp Hr Hok Hin Hland Hc. destruct (part_singleton f) as [Hf1 Hf2]. rewrite Hp in Hf1, Hf2.
  assert (Hnew : f.1 ∉ (pseudo_part pre).*1) by by apply (Hseen (f.1, bit)).
  split; cbn [hv_message hv_saw_regular hv_pseudo_seen hv_is_connect].
  - split; rewrite ?pseudo_part_app, ?regular_part_app, ?Hf1, ?Hf2.
    + rewrite Hr, app_nil_r in Ho. rewrite Hr, ?app_nil_r. by rewrite <- Ho.
    + rewrite fmap_app. apply NoDup_app. split_and!; [done| |apply NoDup_singleton]. set_solver.
    + apply Forall_app. split; [done|by apply Forall_singleton].
    + by rewrite Hr.
  - rewrite regular_part_app, Hf2, app_nil_r. done.
  - intros x Hx. rewrite pseudo_part_app, Hf1, fmap_app, Z.land_lor_distr_l. cbn [fmap list_fmap].
    destruct (pseudo_headers_bits _ _ _ Hin Hx) as (_ & _ & Hd & _). cbn [fst snd] in Hd.
    rewrite Z.lor_eq_0_iff, Hseen, Hd by done. set_solver.
  - intros Ht. rewrite Hc, Hconn by done. set_solver.
Qed.

Lemma validate_pseudo_verdict v pre (f : table_entry) :
  validated v pre -> is_pseudo f.1 = true -> field_verdict v pre f (validate_pseudo v f.1 f.2).
Proof.
  intros Hv Hp. unfold validate_pseudo.
  destruct (hv_saw_regular v) eqn:Hs.
  { apply refused_verdict. intros rest Hok. apply (va_regular _ _ Hv) in Hs. by apply Hs, (pseudo_first _ _ _ _ Hok). }
  assert (Hr : regular_part pre = []).
  { destruct (regular_part pre) eqn:E; [done|]. assert (hv_saw_regular v = true) by (apply (va_regular _ _ Hv); by rewrite E). congruence. }
  pose proof (pseudo_bit_spec (hv_message v) f.1) as Hbit. set (bit := pseudo_bit (hv_message v) f.1) in *.
  set (v1 := match hv_message v with WT_HTTP3_HEADER_REQUEST => _ | WT_HTTP3_HEADER_RESPONSE => v end).
  assert (Hm1 : hv_message v1 = hv_message v) by (unfold v1; destruct (hv_message v) eqn:E; [destruct (_ && _); [cbn|]|]; congruence).
  assert (Hp1 : hv_pseudo_seen v1 = hv_pseudo_seen v) by (unfold v1; destruct (hv_message v); [destruct (_ && _)|]; done).
  assert (Hs1 : hv_saw_regular v1 = hv_saw_regular v) by (unfold v1; destruct (hv_message v); [destruct (_ && _); [cbn|]|]; congruence).
  destruct (bit =? 0) eqn:Eb.
  { apply refused_verdict, spoils_pseudo; [done|]. by intros [? _]. }
  apply Z.eqb_neq in Eb. rewrite Hp1. pose proof (va_seen _ _ Hv _ Hbit) as Hseen. cbn [fst snd] in Hseen.
  destruct (Z.land (hv_pseudo_seen v) bit =? 0) eqn:El; cbn [negb].
  2: { apply refused_verdict, spoils_twice; [done|]. apply Z.eqb_neq in El.
       destruct (decide (f.1 ∈ (pseudo_part pre).*1)); [done|]. exfalso. tauto. }
  apply Z.eqb_eq in El.
  destruct (field_value_is_valid f.2) eqn:Ev; cbn [negb].
  2: { apply refused_verdict, spoils_pseudo; [done|]. intros [_ Hval]. apply forallb_Forall in Hval. unfold field_value_is_valid in Ev. congruence. }
  left. split; [done|]. split; [|cbn; done]. cbn [snd]. rewrite Hm1, Hs1. apply validated_pseudo; try done.
  - split; [|by apply forallb_Forall]. apply list_elem_of_fmap. by exists (f.1, bit).
  - intros Ht. unfold v1. rewrite Ht.
    destruct (pseudo_headers_bits _ _ _ Hbit Hbit) as (_ & _ & _ & Hmeth). cbn [fst snd] in Hmeth. rewrite Hmeth.
    destruct (same_bytes f.1 (literal ":method") && equals f.2 "CONNECT") eqn:E; cbn [hv_is_connect].
    + apply andb_true_iff in E as [E1%same_bytes_true E2%equals_true]. split; [|done]. intros _. right. destruct f; cbn in *. congruence.
    + split; [by left|]. intros [?| ->]; [done|]. by vm_compute in E.
Qed.

Lemma validate_regular_verdict v pre (f : table_entry) :
  validated v pre -> is_pseudo f.1 = false -> field_verdict v pre f (validate_regular v f.1 f.2).
Proof.
  intros Hv Hp. pose proof (regular_field_okb f Hp) as Hok. unfold validate_regular in *.
  repeat case_match; cbn [fst snd] in Hok;
    try (apply refused_verdict, spoils_regular; [done|]; intros H'; apply Hok in H'; done).
  left. cbn [fst snd]. split; [done|]. split; [|done]. pose proof (proj1 Hok eq_refl) as Hf.
  destruct Hv as [[Ho Hnd HP HR] Hreg Hseen Hconn]. destruct (part_singleton f) as [Hf1 Hf2]. rewrite Hp in Hf1, Hf2.
  split; cbn [hv_message hv_saw_regular hv_pseudo_seen hv_is_connect].
  - split; rewrite ?pseudo_part_app, ?regular_part_app, ?Hf1, ?Hf2, ?app_nil_r; try done.
    + by rewrite app_assoc, <- Ho.
    + apply Forall_app. split; [done|by apply Forall_singleton].
  - rewrite regular_part_app, Hf2. split; [|done]. intros _ H'. by apply app_eq_nil in H' as [_ H'].
  - intros x Hx. by rewrite pseudo_part_app, Hf1, app_nil_r, Hseen.
  - intros Ht. rewrite Hconn by done. split; [set_solver|]. intros [?|Hin]%elem_of_app; [done|].
    apply list_elem_of_singleton in Hin. subst f. by vm_compute in Hp.
Qed.

Lemma validate_verdict v pre (f : table_entry) : validated v pre -> field_verdict v pre f (wt_http3_header_validate v f.1 f.2).
Proof.
  intros Hv. unfold wt_http3_header_validate. destruct (is_pseudo f.1) eqn:Hp;
    [by apply validate_pseudo_verdict|by apply validate_regular_verdict].
Qed.

Lemma validate_fields_spec type fields : forall v pre,
  validated v pre -> hv_message v = type ->
  match validate_fields v fields with
  | (WT_OK, e, v') => e = None /\ validated v' (pre ++ fields) /\ hv_message v' = type
  | (st, e, _) => st = WT_ERR_PROTOCOL /\ e = Some WT_HTTP3_MESSAGE_ERROR /\ ~ fields_ok type (pre ++ fields)
  end.
Proof.
  induction fields as [|f fields IH]; intros v pre Hv Ht; cbn [validate_fields]; [by rewrite app_nil_r|].
  destruct (validate_verdict v pre f Hv) as [(E & Hv' & Hm)|(E & Hsp)].
  - destruct (wt_http3_header_validate v f.1 f.2) as [[st e] v']. cbn [fst snd] in *. injection E as -> ->.
    specialize (IH v' (pre ++ [f]) Hv' ltac:(congruence)). by rewrite <- app_assoc in IH.
  - destruct (wt_http3_header_validate v f.1 f.2) as [[st e] v']. cbn [fst snd] in *. injection E as -> ->.
    subst type. split_and!; [done|done|apply Hsp].
Qed.

(** What the last check asks. *)
Lemma finish_spec v fields :
  validated v fields ->
  wt_http3_header_finish v = (WT_OK, None) /\ fields_complete (hv_message v) fields \/
  wt_http3_header_finish v = (WT_ERR_PROTOCOL, Some WT_HTTP3_MESSAGE_ERROR) /\ ~ fields_complete (hv_message v) fields.
Proof.
  intros [_ _ Hseen Hconn]. unfold wt_http3_header_finish, fields_complete. destruct (hv_message v) eqn:Ht; cbn [pseudo_headers] in Hseen.
  - assert (Hbit : forall name bit, (name, bit) ∈ pseudo_headers WT_HTTP3_HEADER_REQUEST ->
              (Z.land (hv_pseudo_seen v) bit =? 0) = false <-> name ∈ (pseudo_part fields).*1).
    { intros name bit Hx. specialize (Hseen _ Hx). cbn [fst snd] in Hseen. rewrite Z.eqb_neq.
      destruct (decide (name ∈ (pseudo_part fields).*1)); tauto. }
    specialize (Hconn eq_refl).
    assert (Htarget : (Z.land (hv_pseudo_seen v) (Z.lor WT_HTTP3_PSEUDO_SCHEME WT_HTTP3_PSEUDO_PATH) =?
                       Z.lor WT_HTTP3_PSEUDO_SCHEME WT_HTTP3_PSEUDO_PATH) =
                      negb (Z.land (hv_pseudo_seen v) WT_HTTP3_PSEUDO_SCHEME =? 0) && negb (Z.land (hv_pseudo_seen v) WT_HTTP3_PSEUDO_PATH =? 0)).
    { change WT_HTTP3_PSEUDO_SCHEME with (2 ^ 1). change WT_HTTP3_PSEUDO_PATH with (2 ^ 2). clear. generalize (hv_pseudo_seen v). intros z.
      assert (Hpow : forall n, 0 <= n -> Z.land z (2 ^ n) = if Z.testbit z n then 2 ^ n else 0).
      { intros n Hn. apply Z.bits_inj'. intros i Hi. rewrite Z.land_spec, Z.pow2_bits_eqb by lia.
        destruct (Z.testbit z n) eqn:E, (Z.eqb_spec n i); subst; rewrite ?Z.pow2_bits_eqb, ?Z.bits_0, ?andb_true_r, ?andb_false_r by lia;
          rewrite ?Z.eqb_refl, ?E; try done; symmetry; by apply Z.eqb_neq. }
      rewrite Z.land_lor_distr_r, !Hpow by lia. by destruct (Z.testbit z 1), (Z.testbit z 2). }
    rewrite Htarget.
    pose proof (Hbit (literal ":method") _ ltac:(repeat constructor)) as B1.
    pose proof (Hbit (literal ":scheme") _ ltac:(repeat constructor)) as B2.
    pose proof (Hbit (literal ":path") _ ltac:(repeat constructor)) as B3.
    pose proof (Hbit (literal ":authority") _ ltac:(repeat constructor)) as B4.
    cbv zeta. clear Hbit Hseen Htarget.
    destruct (decide ((literal ":method", literal "CONNECT") ∈ fields)) as [Hin|Hin];
      destruct (Z.land _ WT_HTTP3_PSEUDO_METHOD =? 0); try (right; split; [done|]; intros [H _]; apply B1 in H; done).
    + apply Hconn in Hin. rewrite Hin. destruct (Z.land _ WT_HTTP3_PSEUDO_AUTHORITY =? 0); [right|left]; naive_solver.
    + destruct (hv_is_connect v); [by destruct Hin; apply Hconn|].
      destruct (Z.land _ WT_HTTP3_PSEUDO_SCHEME =? 0), (Z.land _ WT_HTTP3_PSEUDO_PATH =? 0); cbn [negb andb]; [right|right|right|left]; naive_solver.
  - specialize (Hseen (literal ":status", WT_HTTP3_PSEUDO_STATUS) ltac:(constructor)). cbn [fst snd] in Hseen.
    destruct (Z.eqb_spec (Z.land (hv_pseudo_seen v) WT_HTTP3_PSEUDO_STATUS) 0) as [H|H]; [right|left]; (split; [done|]).
    + by apply Hseen.
    + destruct (decide (literal ":status" ∈ (pseudo_part fields).*1)); tauto.
Qed.

(** ** Plain sections *)

(** A field as this encoder writes it: a literal name and a plain value. *)
Definition plain (f : table_entry) : wt_qpack_field_line :=
  mk_line WT_QPACK_FIELD_LITERAL_LITERAL_NAME false 0 false f.1 f.2 false 0.

Definition plain_ok (f : table_entry) : Prop := string_ok f.1 /\ string_ok f.2.

Lemma plain_line_ok f : plain_ok f -> line_ok (plain f).
Proof. intros [Hn Hv]. by split_and!. Qed.

Lemma plain_codable f capacity : codable (plain f) capacity.
Proof. by split. Qed.

Lemma next_plain p t c s f tl :
  plain_ok f -> cursor_live c -> cursor_view c = line_bytes (plain f) ++ tl ->
  wt_qpack_field_section_next p t c s = (Ok (Inline f.1, Inline f.2), cursor_advance c (zlen (line_bytes (plain f))), s).
Proof.
  intros Hok Hl Hv. apply plain_line_ok in Hok. destruct (line_bytes_cons (plain f) Hok) as (b & r & Eb).
  unfold wt_qpack_field_section_next. rewrite (cursor_live_at_end c Hl), Hv.
  replace (match line_bytes (plain f) ++ tl with [] => true | _ => false end) with false by by rewrite Eb.
  by rewrite (or_qpack_error_decodes _ _ _ _ (decodes_line (plain f) Hok) c tl Hl Hv).
Qed.

(** The walk over plain fields. *)
Fixpoint fold_fields {S R} (step : S -> list Z -> list Z -> field_view -> S + walk_end S R) (s : S) (fields : list table_entry) :
    walk_end S R :=
  match fields with
  | [] => Finished s
  | f :: fields =>
      match step s f.1 f.2 (Inline f.2) with
      | inl s => fold_fields step s fields
      | inr r => r
      end
  end.

Lemma walk_plain {S R} (step : S -> list Z -> list Z -> field_view -> S + walk_end S R) p t u fields :
  forall fuel c scratch s,
  Forall plain_ok fields -> cursor_live c -> cursor_view c = concat (line_bytes <$> (plain <$> fields)) ->
  (length fields < fuel)%nat ->
  walk_fields step fuel (mk_section p t c u) scratch s = (Some (fold_fields step s fields), scratch).
Proof.
  induction fields as [|f fields IH]; intros fuel c scratch s Hok Hl Hv Hfuel; (destruct fuel as [|fuel]; [cbn in Hfuel; lia|]);
    cbn [walk_fields fold_fields]; unfold wt_qpack_field_section_decoder_next; cbn [sd_prefix sd_table sd_cursor sd_scratch_used].
  - unfold wt_qpack_field_section_next. rewrite (cursor_live_at_end c Hl), Hv. done.
  - apply Forall_cons in Hok as [Hf Hok]. cbn [fmap list_fmap concat] in Hv. cbn [length] in Hfuel.
    rewrite (next_plain p t c _ f _ Hf Hl Hv). cbn [sb_used sb_bytes walk_read view_read fst snd].
    change (walk_read _ _ (Inline f.1)) with f.1. change (walk_read _ _ (Inline f.2)) with f.2.
    destruct (cursor_advance_prefix c _ _ Hl Hv) as [Hl' Hv'].
    destruct (step s f.1 f.2 (Inline f.2)); [|done]. apply IH; try done. lia.
Qed.

Definition no_references : wt_qpack_header_prefix := mk_prefix 0 0.

Definition plain_section (max_entries : Z) (fields : list table_entry) : list Z :=
  section_bytes max_entries no_references (plain <$> fields).

(** What a walk over a plain section sees, its prefix read. *)
Lemma begin_plain max_entries known t fields :
  0 <= max_entries < 2 ^ 60 -> 0 <= known < 2 ^ 61 -> Forall plain_ok fields ->
  zlen (plain_section max_entries fields) < 2 ^ 64 ->
  exists c, wt_qpack_field_section_begin t max_entries (plain_section max_entries fields) known = Ok (mk_section no_references t c 0) /\
    cursor_live c /\ cursor_view c = concat (line_bytes <$> (plain <$> fields)) /\
    (length fields < S (length (plain_section max_entries fields)))%nat.
Proof.
  intros Hm Hk Hok Hz. assert (Hp : prefix_ok max_entries known no_references).
  { unfold prefix_ok, prefix_in_window; cbn. lia. }
  assert (Hl : Forall line_ok (plain <$> fields)) by (apply Forall_fmap; eapply Forall_impl; [exact Hok|apply plain_line_ok]).
  pose proof (section_bytes_ok max_entries known no_references (plain <$> fields) Hp Hl) as Hb.
  pose proof (cursor_init_live _ Hz Hb) as Hlive.
  pose proof (cursor_init_view (plain_section max_entries fields) :
    cursor_view _ = prefix_bytes max_entries no_references ++ concat (line_bytes <$> (plain <$> fields))) as Hview.
  destruct (cursor_advance_prefix _ _ _ Hlive Hview) as [Hl' Hv'].
  eexists. split_and!; [|exact Hl'|exact Hv'|].
  - unfold wt_qpack_field_section_begin. rewrite (decodes_prefix max_entries known no_references Hp _ _ Hlive Hview).
    cbn [hp_required_insert_count no_references]. by rewrite (proj2 (Z.ltb_ge known 0)) by lia.
  - unfold plain_section, section_bytes. rewrite length_app.
    assert (length fields <= length (concat (line_bytes <$> (plain <$> fields))))%nat; [|lia].
    clear -Hok. induction Hok as [|f fields Hf _ IH]; [done|]. cbn [fmap list_fmap concat length]. rewrite length_app.
    destruct (line_bytes_cons (plain f) (plain_line_ok f Hf)) as (b & r & ->). cbn [length]. lia.
Qed.

Lemma encodes_plain max_entries fields :
  0 <= max_entries < 2 ^ 60 -> Forall plain_ok fields ->
  encodes (wt_qpack_field_section_encode no_references max_entries (plain <$> fields) 1) (plain_section max_entries fields).
Proof.
  intros Hm Hok. apply encodes_seq.
  - apply (encodes_prefix max_entries 0 no_references). unfold prefix_ok, prefix_in_window; cbn. lia.
  - apply encodes_lines. apply Forall_fmap. eapply Forall_impl; [exact Hok|].
    intros f Hf. split; [by apply plain_line_ok|apply plain_codable].
Qed.

(** The value a name has after these fields. *)
Fixpoint value_of (name : string) (fields : list table_entry) (v : option (list Z)) : option (list Z) :=
  match fields with
  | [] => v
  | f :: fields => value_of name fields (if equals f.1 name then Some f.2 else v)
  end.

Definition request_of (fields : list table_entry) (m : wt_http3_message (list Z)) (v : wt_http3_header_validation) :
    wt_http3_message field_view :=
  mk_message (mg_type m) (Inline <$> value_of ":method" fields (mg_method m)) (Inline <$> value_of ":scheme" fields (mg_scheme m))
    (Inline <$> value_of ":path" fields (mg_path m)) (Inline <$> value_of ":authority" fields (mg_authority m))
    (Inline <$> value_of ":protocol" fields (mg_protocol m)) (mg_status m) (mg_has_status m) v.

Definition inlined (m : wt_http3_message (list Z)) : wt_http3_message field_view := request_of [] m (mg_validation m).

(** The request's fields go through the validator, and their values into the message. *)
Lemma decode_request_fields fields : forall m,
  hv_message (mg_validation m) = WT_HTTP3_HEADER_REQUEST ->
  fold_fields decode_step (inlined m) fields =
    match validate_fields (mg_validation m) fields with
    | (WT_OK, _, v) => Finished (request_of fields m v)
    | (st, e, _) => Refused st e
    end.
Proof.
  induction fields as [|f fields IH]; intros m Hm; [done|]. cbn [fold_fields validate_fields].
  unfold decode_step. change (mg_validation (inlined m)) with (mg_validation m).
  destruct (wt_http3_header_validate (mg_validation m) f.1 f.2) as [[st e] v] eqn:E.
  destruct st; try done.
  assert (Hv : hv_message v = WT_HTTP3_HEADER_REQUEST /\ equals f.1 ":status" = false).
  { unfold wt_http3_header_validate, validate_pseudo, validate_regular in E. rewrite Hm in E.
    destruct (equals f.1 ":status") eqn:Es.
    - apply equals_true in Es. exfalso. rewrite Es in E. cbn in E. by destruct (hv_saw_regular (mg_validation m)).
    - split; [|done]. repeat case_match; try discriminate; injection E as <- <-; cbn; congruence. }
  destruct Hv as [Hv Hs].
  destruct m as [type method scheme path authority protocol status has_status v0]; cbn [mg_validation] in *.
  unfold inlined, request_of, set_validation, keep_field;
    cbn [mg_type mg_method mg_scheme mg_path mg_authority mg_protocol mg_status mg_has_status value_of].
  assert (Hexcl : forall a b, literal a <> literal b -> equals f.1 a = true -> equals f.1 b = false).
  { intros a b Hab Ha. apply equals_true in Ha. apply equals_false. congruence. }
  repeat match goal with |- context [if equals f.1 ?a then inl _ else _] =>
    destruct (equals f.1 a) eqn:?; [match goal with H : equals f.1 a = true |- _ =>
      repeat match goal with |- context [equals f.1 ?b] => rewrite (Hexcl a b ltac:(by vm_compute) H) end end|] end;
    rewrite ?Hs.
  - exact (IH (mk_message type (Some f.2) scheme path authority protocol status has_status v) Hv).
  - exact (IH (mk_message type method (Some f.2) path authority protocol status has_status v) Hv).
  - exact (IH (mk_message type method scheme (Some f.2) authority protocol status has_status v) Hv).
  - exact (IH (mk_message type method scheme path (Some f.2) protocol status has_status v) Hv).
  - exact (IH (mk_message type method scheme path authority (Some f.2) status has_status v) Hv).
  - exact (IH (mk_message type method scheme path authority protocol status has_status v) Hv).
Qed.

(** ** Requests and responses *)

Definition optional (name : string) (v : option (list Z)) : list table_entry :=
  match v with Some v => [(literal name, v)] | None => [] end.

(** The fields of a request, in the order they are written. *)
Definition request_fields (m : wt_http3_message (list Z)) : list table_entry :=
  optional ":method" (mg_method m) ++ optional ":scheme" (mg_scheme m) ++ optional ":authority" (mg_authority m) ++
  optional ":path" (mg_path m) ++ optional ":protocol" (mg_protocol m).

Definition present (v : option (list Z)) : Prop := default [] v <> [].

#[export] Instance present_dec v : Decision (present v) := _.

(** A request its reader accepts. *)
Record request_ok (m : wt_http3_message (list Z)) : Prop := {
  ro_values : Forall (fun f : table_entry => Forall (fun c => value_byte c = true) f.2) (request_fields m);
  ro_method : present (mg_method m);
  ro_authority : mg_method m = Some (literal "CONNECT") -> mg_authority m <> None;
  ro_target : mg_method m <> Some (literal "CONNECT") \/ present (mg_protocol m) ->
    present (mg_scheme m) /\ present (mg_path m) }.

Lemma request_lines m :
  mg_type m = WT_HTTP3_HEADER_REQUEST -> mg_method m <> None -> message_lines m = inr (plain <$> request_fields m).
Proof.
  intros Ht Hm. unfold message_lines, request_fields, optional. rewrite Ht.
  destruct (mg_method m), (mg_scheme m), (mg_authority m), (mg_path m), (mg_protocol m); done.
Qed.

Lemma request_values m :
  value_of ":method" (request_fields m) None = mg_method m /\ value_of ":scheme" (request_fields m) None = mg_scheme m /\
  value_of ":path" (request_fields m) None = mg_path m /\ value_of ":authority" (request_fields m) None = mg_authority m /\
  value_of ":protocol" (request_fields m) None = mg_protocol m.
Proof.
  unfold request_fields, optional.
  destruct (mg_method m), (mg_scheme m), (mg_authority m), (mg_path m), (mg_protocol m); split_and!; reflexivity.
Qed.

Lemma request_pseudo m : pseudo_part (request_fields m) = request_fields m /\ regular_part (request_fields m) = [].
Proof.
  unfold request_fields, optional.
  destruct (mg_method m), (mg_scheme m), (mg_authority m), (mg_path m), (mg_protocol m); split; reflexivity.
Qed.

Lemma request_names m :
  NoDup (request_fields m).*1 /\ Forall (fun f : table_entry => f.1 ∈ (pseudo_headers WT_HTTP3_HEADER_REQUEST).*1) (request_fields m).
Proof.
  unfold request_fields, optional. split.
  - destruct (mg_method m), (mg_scheme m), (mg_authority m), (mg_path m), (mg_protocol m);
      cbn [fmap list_fmap app fst]; apply (bool_decide_unpack _); vm_compute; exact I.
  - repeat (apply Forall_app; split); destruct (_ : option _); constructor; try constructor; cbn [fst];
      apply (bool_decide_unpack _); vm_compute; exact I.
Qed.

Lemma request_fields_ok m :
  fields_ok WT_HTTP3_HEADER_REQUEST (request_fields m) <->
  Forall (fun f : table_entry => Forall (fun c => value_byte c = true) f.2) (request_fields m).
Proof.
  destruct (request_pseudo m) as [Hp Hr], (request_names m) as [Hnd Hn]. split.
  - intros [_ _ H _]. rewrite Hp in H. eapply Forall_impl; [exact H|]. by intros f [_ ?].
  - intros Hv. split; rewrite ?Hp, ?Hr, ?app_nil_r; try done.
    rewrite Forall_forall in *. intros f Hf. split; auto.
Qed.

(** Which names a request carries, and whether it is a CONNECT. *)
Lemma request_has m :
  (literal ":method" ∈ (request_fields m).*1 <-> mg_method m <> None) /\
  (literal ":scheme" ∈ (request_fields m).*1 <-> mg_scheme m <> None) /\
  (literal ":authority" ∈ (request_fields m).*1 <-> mg_authority m <> None) /\
  (literal ":path" ∈ (request_fields m).*1 <-> mg_path m <> None) /\
  ((literal ":method", literal "CONNECT") ∈ request_fields m <-> mg_method m = Some (literal "CONNECT")).
Proof.
  assert (Hopt : forall name v a, a ∈ optional name v <-> exists x, v = Some x /\ a = (literal name, x)).
  { intros name [x|] a; cbn; [rewrite list_elem_of_singleton|]; [|split; [by intros ?%not_elem_of_nil|naive_solver]]. naive_solver. }
  assert (Hin : forall a, a ∈ request_fields m <->
    (exists x, mg_method m = Some x /\ a = (literal ":method", x)) \/ (exists x, mg_scheme m = Some x /\ a = (literal ":scheme", x)) \/
    (exists x, mg_authority m = Some x /\ a = (literal ":authority", x)) \/ (exists x, mg_path m = Some x /\ a = (literal ":path", x)) \/
    (exists x, mg_protocol m = Some x /\ a = (literal ":protocol", x))).
  { intros a. unfold request_fields. rewrite !elem_of_app, !Hopt. done. }
  assert (Hname : forall n, n ∈ (request_fields m).*1 <-> exists x, (n, x) ∈ request_fields m).
  { intros n. rewrite list_elem_of_fmap. split; [intros ([n' x] & -> & ?); eauto|intros [x ?]; exists (n, x); done]. }
  assert (Hm : forall x, (literal ":method", x) ∈ request_fields m <-> mg_method m = Some x).
  { intros x. rewrite Hin. split; [|by left; eauto]. intros [(y & ? & [= ->])|H]; [done|]. repeat destruct H as [H|H]; destruct H as (y & _ & E); vm_compute in E; discriminate. }
  assert (Hother : forall name, (name = ":scheme"%string \/ name = ":authority"%string \/ name = ":path"%string) -> forall x,
            (literal name, x) ∈ request_fields m <->
            (if String.eqb name ":scheme" then mg_scheme m else if String.eqb name ":authority" then mg_authority m else mg_path m) = Some x).
  { intros name Hname' x. rewrite Hin. split.
    - intros H. repeat destruct H as [H|H]; destruct H as (y & Hy & E);
        (destruct Hname' as [-> | [-> | ->]]; cbn [String.eqb Ascii.eqb Bool.eqb] in *; try (vm_compute in E; discriminate); injection E as <-; done).
    - destruct Hname' as [-> | [-> | ->]]; cbn [String.eqb Ascii.eqb Bool.eqb]; intros; eauto 10. }
  split_and!.
  - rewrite Hname. setoid_rewrite Hm. destruct (mg_method m); naive_solver.
  - rewrite Hname. setoid_rewrite (Hother ":scheme"%string); [|by auto]. cbn. destruct (mg_scheme m); naive_solver.
  - rewrite Hname. setoid_rewrite (Hother ":authority"%string); [|by auto]. cbn. destruct (mg_authority m); naive_solver.
  - rewrite Hname. setoid_rewrite (Hother ":path"%string); [|by auto]. cbn. destruct (mg_path m); naive_solver.
  - apply Hm.
Qed.

Lemma request_complete_spec m v d scratch :
  request_complete (walk_read d scratch) (request_of [] m v) = true <->
  present (mg_method m) /\
  (mg_method m <> Some (literal "CONNECT") \/ present (mg_protocol m) -> present (mg_scheme m) /\ present (mg_path m)).
Proof.
  assert (Hlen : forall x, value_length (Inline <$> x) = zlen (default [] x)) by by intros [|].
  assert (Hz : forall x, (zlen (default [] x) =? 0) = true <-> ~ present x).
  { intros x. unfold present. rewrite Z.eqb_eq. split; [intros H%zlen_0_nil; naive_solver|].
    intros H. destruct (default [] x); [done|]. by destruct H. }
  assert (Hc : (zlen (default [] (mg_method m)) =? 7) &&
               equals (match Inline <$> mg_method m with Some v0 => walk_read d scratch v0 | None => [] end) "CONNECT" = true <->
               mg_method m = Some (literal "CONNECT")).
  { destruct (mg_method m) as [x|]; cbn [fmap option_fmap option_map default]; [|by vm_compute].
    change (walk_read d scratch (Inline x)) with x. rewrite andb_true_iff, equals_true, Z.eqb_eq.
    split; [by intros [_ ->]|]. intros [= ->]. by vm_compute. }
  unfold request_complete, request_of. cbn [mg_method mg_scheme mg_path mg_protocol value_of]. rewrite !Hlen.
  destruct (zlen (default [] (mg_method m)) =? 0) eqn:E0; [split; [done|]; intros [H _]; by apply Hz in E0|].
  assert (present (mg_method m)) by (destruct (decide (present (mg_method m))) as [|Hn]; [done|]; apply Hz in Hn; congruence).
  rewrite negb_true_iff, andb_false_iff, !orb_false_iff, !negb_false_iff, <- !not_true_iff_false, !Hz, Hc. 
  destruct (decide (present (mg_protocol m))), (decide (present (mg_scheme m))), (decide (present (mg_path m)));
    destruct (decide (mg_method m = Some (literal "CONNECT"))); tauto.
Qed.

Lemma request_complete_fields m :
  fields_complete WT_HTTP3_HEADER_REQUEST (request_fields m) <->
  mg_method m <> None /\
  (mg_method m = Some (literal "CONNECT") -> mg_authority m <> None) /\
  (mg_method m <> Some (literal "CONNECT") -> mg_scheme m <> None /\ mg_path m <> None).
Proof.
  destruct (request_has m) as (H1 & H2 & H3 & H4 & H5). unfold fields_complete. cbv zeta. rewrite (proj1 (request_pseudo m)), H1.
  destruct (decide _) as [Hd|Hd]; rewrite H5 in Hd; rewrite ?H2, ?H3, ?H4; tauto.
Qed.

Lemma present_some v : present v -> v <> None.
Proof. by intros H ->. Qed.

(** ** Theorems *)


(** A request message that is encoded is decoded to the same method, scheme, path, authority and protocol when it meets the rules for requests (extended CONNECT included), and is refused with H3_MESSAGE_ERROR exactly when it does not; no scratch is used. *)
Lemma request_roundtrip m max_entries known t scratch w :
  mg_type m = WT_HTTP3_HEADER_REQUEST -> mg_method m <> None -> Forall plain_ok (request_fields m) ->
  0 <= max_entries < 2 ^ 60 -> 0 <= known < 2 ^ 61 ->
  writer_inv w -> w_overflow w = false -> w_copy w = true ->
  zlen (plain_section max_entries (request_fields m)) <= writer_room w ->
  let r := wt_http3_message_encode m max_entries w in
  let section := plain_section max_entries (request_fields m) in
  (r.1 = (WT_OK, None) /\ writer_bytes r.2 = writer_bytes w ++ section) /\
  exists o, wt_http3_message_decode WT_HTTP3_HEADER_REQUEST section t max_entries known scratch = (Some o, scratch) /\
  ((request_ok m /\ exists v,
      o = Ok (mk_message WT_HTTP3_HEADER_REQUEST (Inline <$> mg_method m) (Inline <$> mg_scheme m) (Inline <$> mg_path m)
                (Inline <$> mg_authority m) (Inline <$> mg_protocol m) 0 false v)) \/
   (~ request_ok m /\ o = message_error)).
Proof.
  intros Ht Hmeth Hok Hm Hk Hi Hov Hcp Hroom r section. split.
  { unfold r, wt_http3_message_encode. rewrite (request_lines m Ht Hmeth).
    destruct (encodes_bytes _ _ w (encodes_plain max_entries _ Hm Hok) Hi Hov Hcp Hroom) as [E1 E2].
    change (mk_prefix 0 0) with no_references. destruct (wt_qpack_field_section_encode _ _ _ _ w) as [st w']. cbn [fst snd] in *. by subst st. }
  assert (Hz : zlen section < 2 ^ 64) by (destruct Hi as (? & ? & _); unfold writer_room in Hroom; unfold section; lia).
  destruct (begin_plain max_entries known t (request_fields m) Hm Hk Hok Hz) as (c & Eb & Hl & Hv & Hlen).
  unfold wt_http3_message_decode, section. rewrite Eb. rewrite (walk_plain decode_step _ _ _ _ _ c scratch _ Hok Hl Hv Hlen).
  set (m0 := empty_message WT_HTTP3_HEADER_REQUEST : wt_http3_message (list Z)).
  change (empty_message WT_HTTP3_HEADER_REQUEST) with (inlined m0). rewrite (decode_request_fields _ m0 eq_refl).
  pose proof (validate_fields_spec WT_HTTP3_HEADER_REQUEST (request_fields m) (mg_validation m0) [] (validated_init _) eq_refl) as H. cbn [app] in H.
  destruct (validate_fields (mg_validation m0) (request_fields m)) as [[st e] v].
  assert (Hst : st = WT_OK \/ st <> WT_OK) by (destruct st; auto). destruct Hst as [->|Hst].
  2: { assert (H' : st = WT_ERR_PROTOCOL /\ e = Some WT_HTTP3_MESSAGE_ERROR /\ ~ fields_ok WT_HTTP3_HEADER_REQUEST (request_fields m)) by (by destruct st).
       destruct H' as (-> & -> & Hn). eexists. split; [reflexivity|]. right. split; [|done]. intros [Hvals _ _ _]. by apply Hn, request_fields_ok. }
  destruct H as (_ & Hva & Hmsg). pose proof (va_ok _ _ Hva) as Hfo. rewrite Hmsg in Hfo. apply request_fields_ok in Hfo.
  assert (Ereq : request_of (request_fields m) m0 v = request_of [] (mk_message WT_HTTP3_HEADER_REQUEST (mg_method m) (mg_scheme m)
            (mg_path m) (mg_authority m) (mg_protocol m) 0 false v) v).
  { unfold request_of. cbn [mg_method mg_scheme mg_path mg_authority mg_protocol mg_type mg_status mg_has_status value_of m0 empty_message].
    destruct (request_values m) as (-> & -> & -> & -> & ->). done. }
  rewrite Ereq. set (m1 := mk_message _ (mg_method m) _ _ _ _ _ _ _).
  change (mg_validation (request_of [] m1 v)) with v.
  pose proof (request_complete_fields m) as Hcf.
  destruct (finish_spec v _ Hva) as [[-> Hc]|[-> Hc]]; rewrite Hmsg, Hcf in Hc.
  2: { eexists. split; [reflexivity|]. right. split; [|done]. intros [_ H1 H2 H3]. apply Hc. split_and!; [done|done|].
       intros Hn. destruct (H3 (or_introl Hn)). split; by apply present_some. }
  eexists. split; [reflexivity|].
  pose proof (request_complete_spec m1 v (mk_section no_references t c 0) scratch) as Hrc.
  cbn [mg_method mg_scheme mg_path mg_authority mg_protocol m1] in Hrc.
  destruct (request_complete _ _).
  - left. split; [|by exists v]. destruct (proj1 Hrc eq_refl) as [H1 H2]. split; [done|done|tauto|done].
  - right. split; [|done]. intros [_ H1 H2 H3]. assert (false = true); [|done]. by apply Hrc.
Qed.

(** A CONNECT for a WebTransport session. *)
Definition session_request : wt_http3_message (list Z) :=
  mk_message WT_HTTP3_HEADER_REQUEST (Some (literal "CONNECT")) (Some (literal "https")) (Some (literal "/"))
    (Some (literal "a")) (Some (literal "webtransport")) 0 false (wt_http3_header_validation_init WT_HTTP3_HEADER_REQUEST).

Lemma session_request_ok : request_ok session_request.
Proof.
  split.
  - repeat constructor.
  - discriminate.
  - intros _. discriminate.
  - intros _. split; discriminate.
Qed.

Lemma request_roundtrip_witness :
  let w := wt_writer_init (Some (replicate 100 0)) 100 in
  let r := wt_http3_message_encode session_request 0 w in
  let section := plain_section 0 (request_fields session_request) in
  (r.1 = (WT_OK, None) /\ writer_bytes r.2 = writer_bytes w ++ section) /\
  exists v, wt_http3_message_decode WT_HTTP3_HEADER_REQUEST section None 0 0 [] =
    (Some (Ok (mk_message WT_HTTP3_HEADER_REQUEST (Inline <$> mg_method session_request) (Inline <$> mg_scheme session_request)
       (Inline <$> mg_path session_request) (Inline <$> mg_authority session_request) (Inline <$> mg_protocol session_request) 0 false v)), []).
Proof.
  destruct (request_roundtrip session_request 0 0 None [] (wt_writer_init (Some (replicate 100 0)) 100)) as (H1 & o & Ho & H2).
  - done.
  - done.
  - repeat constructor; cbn; unfold is_u8; try lia; by vm_compute.
  - lia.
  - lia.
  - by apply writer_init_inv.
  - done.
  - done.
  - by vm_compute.
  - split; [exact H1|]. destruct H2 as [[_ [v ->]]|[Hn _]]; [by exists v|]. exfalso. exact (Hn session_request_ok).
Defined.

(** ** Every decode answers *)

Lemma walk_fields_total {S R} (step : S -> list Z -> list Z -> field_view -> S + walk_end S R) : forall fuel d scratch s,
  cursor_inv (sd_cursor d) -> (Z.to_nat (cur_len (sd_cursor d) - cur_offset (sd_cursor d)) < fuel)%nat ->
  exists e, (walk_fields step fuel d scratch s).1 = Some e.
Proof.
  induction fuel as [|fuel IH]; intros [p t c u] scratch s Hc Hf; [lia|]. cbn [sd_cursor] in *. cbn [walk_fields].
  unfold wt_qpack_field_section_decoder_next. cbn [sd_prefix sd_table sd_cursor sd_scratch_used].
  pose proof (next_progress p t c (mk_scratch scratch u) Hc) as H.
  destruct (wt_qpack_field_section_next p t c (mk_scratch scratch u)) as [[[f|st e] c'] s']; cbn [fst snd] in H.
  - destruct H as (Hc' & Hl & Ho). destruct (step _ _ _ _); [|by eexists].
    apply IH; cbn [sd_cursor]; [done|]. rewrite Hl. assert (cur_offset c' <= cur_len c') by apply Hc'. lia.
  - destruct st; eexists; reflexivity.
Qed.

(** C31. Decoding a message, and looking for one field of it, end on every payload and every
    table: each field costs at least a byte of the section, so a number of steps one above
    its length is enough. *)
Theorem message_decode_terminates type payload t max_entries known name scratch :
  bytes_ok payload -> zlen payload < 2 ^ 64 ->
  (exists o, (wt_http3_message_decode type payload t max_entries known scratch).1 = Some o) /\
  (exists o, (wt_http3_message_field name payload t max_entries known scratch).1 = Some o).
Proof.
  intros Hb Hz. unfold wt_http3_message_decode, wt_http3_message_field.
  destruct (wt_qpack_field_section_begin t max_entries payload known) as [d|st e] eqn:E; [|by split; eexists].
  destruct (section_begin_cursor _ _ _ _ _ Hb Hz E) as (Hi & Hl & _ & _).
  assert (Hf : (Z.to_nat (cur_len (sd_cursor d) - cur_offset (sd_cursor d)) < S (length payload))%nat).
  { rewrite Hl. destruct Hi as (? & _). unfold zlen. lia. }
  split.
  - destruct (walk_fields_total decode_step _ d scratch (empty_message type) Hi Hf) as [e He].
    destruct (walk_fields _ _ _ _ _) as [[[m|[]|st e']|] s]; [..|done]; eexists; reflexivity.
  - destruct (walk_fields_total (field_step name) _ d scratch (wt_http3_header_validation_init WT_HTTP3_HEADER_REQUEST) Hi Hf) as [e He].
    destruct (walk_fields _ _ _ _ _) as [[[m|v|st e']|] s]; [..|done]; eexists; reflexivity.
Qed.

Lemma message_decode_terminates_witness :
  (exists o, (wt_http3_message_decode WT_HTTP3_HEADER_RESPONSE [0; 0; 0xd9] None 0 0 []).1 = Some o) /\
  (exists o, (wt_http3_message_field (Some [97]) [0; 0; 0xd9] None 0 0 []).1 = Some o).
Proof.
  apply (message_decode_terminates WT_HTTP3_HEADER_RESPONSE [0; 0; 0xd9] None 0 0 (Some [97]) []).
  - by apply bytes_okb_spec.
  - done.
Defined.

(** ** Responses *)

Lemma parse_status_text status : 100 <= status <= 599 -> parse_status (status_text status) = Some status.
Proof.
  intros H. unfold parse_status, status_text, parse_digit.
  assert (Hd : forall x, (0x30 + x mod 10 <? 0x30) || (0x39 <? 0x30 + x mod 10) = false).
  { intros x. pose proof (Z.mod_pos_bound x 10 ltac:(lia)). apply orb_false_iff. rewrite !Z.ltb_ge. lia. }
  rewrite !Hd.
  assert (Hv : ((0x30 + status / 100 mod 10 - 0x30) * 10 + (0x30 + status / 10 mod 10 - 0x30)) * 10 + (0x30 + status mod 10 - 0x30) = status) by zdm.
  rewrite Hv. ztest. done.
Qed.

Lemma status_text_ok status : 100 <= status <= 599 ->
  string_ok (status_text status) /\ Forall (fun c => value_byte c = true) (status_text status).
Proof.
  intros H. assert (Hd : forall x, 0x30 <= 0x30 + x mod 10 <= 0x39) by (intros x; pose proof (Z.mod_pos_bound x 10 ltac:(lia)); lia).
  split.
  - split; [|done]. repeat constructor; unfold is_u8; pose proof (Hd (status / 100)); pose proof (Hd (status / 10)); pose proof (Hd status); lia.
  - unfold status_text. assert (Hb : forall c, 0x30 <= c <= 0x39 -> value_byte c = true) by (intros c Hc; unfold value_byte; ztest; lia || done).
    repeat constructor; apply Hb; auto.
Qed.

(** A response with any status from 100 to 599 is encoded to a section that is decoded to that status. *)
Lemma response_roundtrip m max_entries known t scratch w :
  mg_type m = WT_HTTP3_HEADER_RESPONSE -> mg_has_status m = true -> 100 <= mg_status m <= 599 ->
  0 <= max_entries < 2 ^ 60 -> 0 <= known < 2 ^ 61 ->
  writer_inv w -> w_overflow w = false -> w_copy w = true ->
  let fields := [(literal ":status", status_text (mg_status m))] in
  let section := plain_section max_entries fields in
  zlen section <= writer_room w ->
  let r := wt_http3_message_encode m max_entries w in
  (r.1 = (WT_OK, None) /\ writer_bytes r.2 = writer_bytes w ++ section) /\
  exists m' v, wt_http3_message_decode WT_HTTP3_HEADER_RESPONSE section t max_entries known scratch = (Some (Ok m'), scratch) /\
    m' = mk_message WT_HTTP3_HEADER_RESPONSE None None None None None (mg_status m) true v.
Proof.
  intros Ht Hs Hr Hm Hk Hi Hov Hcp fields section Hroom r. destruct (status_text_ok _ Hr) as [Htext Hvals].
  assert (Hok : Forall plain_ok fields).
  { constructor; [|constructor]. split; [|exact Htext]. split; [apply literal_ok|done]. }
  split.
  { unfold r, wt_http3_message_encode, message_lines. rewrite Ht, Hs. cbn [negb]. ztest.
    destruct (encodes_bytes _ _ w (encodes_plain max_entries fields Hm Hok) Hi Hov Hcp Hroom) as [E1 E2].
    change (add_pseudo [] _ _) with (plain <$> fields). change (mk_prefix 0 0) with no_references.
    destruct (wt_qpack_field_section_encode _ _ _ _ w) as [st w']. cbn [fst snd] in *. by subst st. }
  assert (Hz : zlen section < 2 ^ 64) by (destruct Hi as (? & ? & _); unfold writer_room in Hroom; lia).
  destruct (begin_plain max_entries known t fields Hm Hk Hok Hz) as (c & Eb & Hl & Hv & Hlen).
  unfold wt_http3_message_decode, section. rewrite Eb, (walk_plain decode_step _ _ _ _ _ c scratch _ Hok Hl Hv Hlen).
  unfold fields. cbn [fold_fields fst snd]. unfold decode_step, wt_http3_header_validate.
  change (is_pseudo (literal ":status")) with true. cbv iota. unfold validate_pseudo, field_value_is_valid.
  rewrite (proj2 (forallb_Forall _ _) Hvals).
  change (mg_validation (empty_message WT_HTTP3_HEADER_RESPONSE)) with (wt_http3_header_validation_init WT_HTTP3_HEADER_RESPONSE).
  cbn [hv_saw_regular wt_http3_header_validation_init hv_message hv_pseudo_seen hv_is_connect negb].
  change (pseudo_bit WT_HTTP3_HEADER_RESPONSE (literal ":status")) with WT_HTTP3_PSEUDO_STATUS.
  change (WT_HTTP3_PSEUDO_STATUS =? 0) with false. change (Z.land 0 WT_HTTP3_PSEUDO_STATUS =? 0) with true. cbn [negb].
  unfold keep_field, set_validation, empty_message. change (equals (literal ":status") ":status") with true.
  cbn [mg_type mg_method mg_scheme mg_path mg_authority mg_protocol mg_status mg_has_status].
  repeat match goal with |- context [equals (literal ":status") ?b] => change (equals (literal ":status") b) with false end.
  rewrite (parse_status_text _ Hr). cbn [mg_validation].
  eexists _, _. split; reflexivity.
Qed.

Lemma response_roundtrip_witness :
  let m := mk_message WT_HTTP3_HEADER_RESPONSE None None None None None 200 true (wt_http3_header_validation_init WT_HTTP3_HEADER_RESPONSE) in
  let w := wt_writer_init (Some (replicate 30 0)) 30 in
  let section := plain_section 4 [(literal ":status", status_text 200)] in
  let r := wt_http3_message_encode m 4 w in
  (r.1 = (WT_OK, None) /\ writer_bytes r.2 = writer_bytes w ++ section) /\
  exists m' v, wt_http3_message_decode WT_HTTP3_HEADER_RESPONSE section None 4 7 [] = (Some (Ok m'), []) /\
    m' = mk_message WT_HTTP3_HEADER_RESPONSE None None None None None 200 true v.
Proof.
  apply (response_roundtrip
    (mk_message WT_HTTP3_HEADER_RESPONSE None None None None None 200 true (wt_http3_header_validation_init WT_HTTP3_HEADER_RESPONSE))
    4 7 None [] (wt_writer_init (Some (replicate 30 0)) 30)).
  - done.
  - done.
  - cbn; lia.
  - lia.
  - lia.
  - by apply writer_init_inv.
  - done.
  - done.
  - by vm_compute.
Defined.

(** A field of a response cannot be read: the walk holds every section to the rules of a
    request, so the response's own [:status] is refused.  The decoder reads the section. *)
Example response_field_refused :
  let section := plain_section 0 [(literal ":status", literal "200"); (literal "wt-protocol", literal "a")] in
  (wt_http3_message_field (Some (literal "wt-protocol")) section None 0 0 []).1 = Some message_error /\
  exists m, (wt_http3_message_decode WT_HTTP3_HEADER_RESPONSE section None 0 0 []).1 = Some (Ok m) /\ mg_status m = 200.
Proof. vm_compute. split; [reflexivity|]. eexists. split; reflexivity. Qed.

(** A path that came Huffman-coded is a view of the scratch, which the next use of the scratch overwrites. *)
Example message_holds_scratch_views :
  exists m, (wt_http3_message_decode WT_HTTP3_HEADER_REQUEST [0; 0; 0xd1; 0xd7; 0x50; 1; 97; 0x51; 0x81; 0x63] None 0 0 [0; 0]).1 = Some (Ok m) /\
    mg_path m = Some (FromScratch 0 1).
Proof. vm_compute. eexists. split; reflexivity. Qed.

(** ** The request stream *)

(** The frames of a stream, through the machine, until one is refused. *)
Fixpoint request_frames (r : wt_http3_request_stream) (types : list Z) : wt_status * option Z * wt_http3_request_stream :=
  match types with
  | [] => (WT_OK, None, r)
  | type :: types =>
      match wt_http3_request_on_frame r type with
      | (WT_OK, _, r) => request_frames r types
      | other => other
      end
  end.

(** A request: its HEADERS, any number of DATA, at most one trailing HEADERS. *)
Definition request_shape (types : list Z) : Prop :=
  types = [] \/ exists n trailer,
    types = WT_HTTP3_FRAME_HEADERS :: replicate n WT_HTTP3_FRAME_DATA ++ trailer /\ (trailer = [] \/ trailer = [WT_HTTP3_FRAME_HEADERS]).

Lemma body_frames types : 
  let r := request_frames (mk_request WT_HTTP3_REQUEST_BODY false) types in
  (r.1.1 = WT_OK <-> exists n trailer, types = replicate n WT_HTTP3_FRAME_DATA ++ trailer /\ (trailer = [] \/ trailer = [WT_HTTP3_FRAME_HEADERS])) /\
  (r.1.1 = WT_OK -> rq_ended r.2 = false /\ rq_state r.2 <> WT_HTTP3_REQUEST_EXPECT_HEADERS) /\
  (r.1 = (WT_OK, None) \/ r.1 = (WT_ERR_PROTOCOL, Some WT_HTTP3_FRAME_UNEXPECTED)).
Proof.
  induction types as [|type types IH]; cbn [request_frames].
  - cbn. split_and!; auto. split; [|done]. intros _. exists 0%nat, []. auto.
  - unfold wt_http3_request_on_frame; cbn [rq_ended rq_state]. destruct (Z.eqb_spec type WT_HTTP3_FRAME_DATA) as [->|Hd].
    + destruct IH as (IH1 & IH2 & IH3). split_and!; try done. rewrite IH1. split.
      * intros (n & tr & -> & Htr). by exists (S n), tr.
      * intros ([|n] & tr & E & Htr); cbn in E; [destruct Htr as [-> | ->]; discriminate|]. injection E as E. eauto.
    + destruct (Z.eqb_spec type WT_HTTP3_FRAME_HEADERS) as [->|Hh].
      * destruct types as [|t2 types]; cbn; split_and!; auto; try done.
        -- split; [|done]. intros _. exists 0%nat, [WT_HTTP3_FRAME_HEADERS]. auto.
        -- split; [done|]. intros ([|n] & tr & E & Htr); cbn in E; [|discriminate]. destruct Htr as [-> | ->]; discriminate.
      * cbn. split_and!; auto; try done. split; [done|].
        intros ([|n] & tr & E & Htr); cbn in E; [destruct Htr as [-> | ->]; [discriminate|injection E; congruence]|injection E; congruence].
Qed.

(** The frames a request stream accepts are exactly HEADERS, any number of DATA, and at most one more HEADERS; anything else is H3_FRAME_UNEXPECTED; the end of the stream is H3_REQUEST_INCOMPLETE exactly when nothing was received; after the end or a reset no frame is accepted. *)
Lemma request_stream_grammar types :
  let r := request_frames wt_http3_request_init types in
  (r.1.1 = WT_OK <-> request_shape types) /\
  (r.1 = (WT_OK, None) \/ r.1 = (WT_ERR_PROTOCOL, Some WT_HTTP3_FRAME_UNEXPECTED)) /\
  (request_shape types ->
    (wt_http3_request_on_end r.2).1 = if bool_decide (types = []) then (WT_ERR_PROTOCOL, Some WT_HTTP3_REQUEST_INCOMPLETE) else (WT_OK, None)) /\
  (forall type, (request_frames (wt_http3_request_on_end r.2).2 [type]).1 = (WT_ERR_STATE, None) /\
                (request_frames (wt_http3_request_on_reset r.2).2 [type]).1 = (WT_ERR_STATE, None)).
Proof.
  assert (Hended : forall r0, let e := (wt_http3_request_on_end r0).2 in forall type,
    (request_frames e [type]).1 = (WT_ERR_STATE, None) /\ (request_frames (wt_http3_request_on_reset r0).2 [type]).1 = (WT_ERR_STATE, None)).
  { intros [st en] e type. unfold e, wt_http3_request_on_end. cbn [rq_ended rq_state]. destruct en, st; done. }
  destruct types as [|type types]; cbv zeta.
  - cbn [request_frames fst snd]. split_and!; [split; [by left|done]|by left|done|apply Hended].
  - cbn [request_frames]. unfold wt_http3_request_on_frame. cbn [rq_ended rq_state wt_http3_request_init].
    destruct (Z.eqb_spec type WT_HTTP3_FRAME_HEADERS) as [->|Hne].
    + destruct (body_frames types) as (B1 & B2 & B3). cbv zeta in *.
      assert (Hshape : request_shape (WT_HTTP3_FRAME_HEADERS :: types) <->
        exists n trailer, types = replicate n WT_HTTP3_FRAME_DATA ++ trailer /\ (trailer = [] \/ trailer = [WT_HTTP3_FRAME_HEADERS])).
      { unfold request_shape. split; [intros [?|(n & tr & [= ->] & Htr)]; [done|eauto]|intros (n & tr & -> & Htr); right; eauto]. }
      split_and!; [by rewrite B1, Hshape|done| |apply Hended].
      intros Hs. apply Hshape, B1, B2 in Hs as [He Hst]. unfold wt_http3_request_on_end. rewrite He. cbn [rq_state].
      by rewrite !bool_decide_false by done.
    + cbn [fst snd]. split_and!; [|by right| |apply Hended].
      * split; [done|]. intros [?|(n & tr & [= ? _] & _)]; done.
      * intros [?|(n & tr & [= ? _] & _)]; done.
Qed.
