(* ===== verification/Http3Endpoint.v ===== *)
(** * The HTTP/3 endpoint: [src/http3/endpoint.c]

    One connection's HTTP/3 state: the peer's control stream, the streams of the
    peer that are alive, the request streams with their ordering machines, and the
    QPACK decoder state.  The tables are the arrays up to their counts. *)

From S2P Require Export Http3Control Http3Message Framing.
#[local] Open Scope Z_scope.

Definition WT_HTTP3_ENDPOINT_STREAMS_MAX : Z := 32.
Definition WT_HTTP3_ENDPOINT_REQUESTS_MAX : Z := 8.
Definition WT_QPACK_ENCODER_STREAM_ERROR : Z := 0x0201.

Inductive wt_http3_endpoint_stream_kind :=
  | WT_HTTP3_ENDPOINT_STREAM_CONTROL
  | WT_HTTP3_ENDPOINT_STREAM_PUSH
  | WT_HTTP3_ENDPOINT_STREAM_QPACK_ENCODER
  | WT_HTTP3_ENDPOINT_STREAM_QPACK_DECODER
  | WT_HTTP3_ENDPOINT_STREAM_WEBTRANSPORT
  | WT_HTTP3_ENDPOINT_STREAM_UNKNOWN.

#[export] Instance wt_http3_endpoint_stream_kind_eq_dec : EqDecision wt_http3_endpoint_stream_kind.
Proof. solve_decision. Defined.

Record wt_http3_endpoint_stream := mk_ep_stream {
  es_id : Z;
  es_kind : wt_http3_endpoint_stream_kind;
  es_type : Z }.

Record wt_http3_endpoint_request := mk_ep_request {
  er_id : Z;
  er_locally_opened : bool;
  er_response_seen : bool;
  er_request : wt_http3_request_stream }.

Record wt_http3_endpoint := mk_endpoint {
  ep_role : wt_http3_role;
  ep_peer_control : wt_http3_control_stream;
  ep_encoder_seen : bool;
  ep_decoder_seen : bool;
  ep_webtransport_seen : bool;
  ep_control_sent : bool;
  ep_encoder_sent : bool;
  ep_decoder_sent : bool;
  ep_streams : list wt_http3_endpoint_stream;
  ep_requests : list wt_http3_endpoint_request;
  ep_table : wt_qpack_dynamic_table;
  ep_insert_count : Z;
  ep_acked_insert_count : Z;
  ep_capacity_set : bool }.

(** [decoder_acked_insert_count] is left as the caller's memory had it. *)
Definition wt_http3_endpoint_init (role : wt_http3_role) (uninitialised : Z) : wt_http3_endpoint :=
  mk_endpoint role wt_http3_control_init false false false false false false [] [] (wt_qpack_dynamic_init 0) 0
              uninitialised false.

Definition set_control (e : wt_http3_endpoint) (c : wt_http3_control_stream) : wt_http3_endpoint :=
  mk_endpoint (ep_role e) c (ep_encoder_seen e) (ep_decoder_seen e) (ep_webtransport_seen e) (ep_control_sent e)
    (ep_encoder_sent e) (ep_decoder_sent e) (ep_streams e) (ep_requests e) (ep_table e) (ep_insert_count e)
    (ep_acked_insert_count e) (ep_capacity_set e).

Definition set_seen (e : wt_http3_endpoint) (encoder decoder webtransport : bool) : wt_http3_endpoint :=
  mk_endpoint (ep_role e) (ep_peer_control e) encoder decoder webtransport (ep_control_sent e)
    (ep_encoder_sent e) (ep_decoder_sent e) (ep_streams e) (ep_requests e) (ep_table e) (ep_insert_count e)
    (ep_acked_insert_count e) (ep_capacity_set e).

Definition set_sent (e : wt_http3_endpoint) (control encoder decoder : bool) : wt_http3_endpoint :=
  mk_endpoint (ep_role e) (ep_peer_control e) (ep_encoder_seen e) (ep_decoder_seen e) (ep_webtransport_seen e) control
    encoder decoder (ep_streams e) (ep_requests e) (ep_table e) (ep_insert_count e)
    (ep_acked_insert_count e) (ep_capacity_set e).

Definition set_ep_streams (e : wt_http3_endpoint) (l : list wt_http3_endpoint_stream) : wt_http3_endpoint :=
  mk_endpoint (ep_role e) (ep_peer_control e) (ep_encoder_seen e) (ep_decoder_seen e) (ep_webtransport_seen e)
    (ep_control_sent e) (ep_encoder_sent e) (ep_decoder_sent e) l (ep_requests e) (ep_table e) (ep_insert_count e)
    (ep_acked_insert_count e) (ep_capacity_set e).

Definition set_requests (e : wt_http3_endpoint) (l : list wt_http3_endpoint_request) : wt_http3_endpoint :=
  mk_endpoint (ep_role e) (ep_peer_control e) (ep_encoder_seen e) (ep_decoder_seen e) (ep_webtransport_seen e)
    (ep_control_sent e) (ep_encoder_sent e) (ep_decoder_sent e) (ep_streams e) l (ep_table e) (ep_insert_count e)
    (ep_acked_insert_count e) (ep_capacity_set e).

Definition set_decoder (e : wt_http3_endpoint) (t : wt_qpack_dynamic_table) (inserted acked : Z) (set_ : bool) : wt_http3_endpoint :=
  mk_endpoint (ep_role e) (ep_peer_control e) (ep_encoder_seen e) (ep_decoder_seen e) (ep_webtransport_seen e)
    (ep_control_sent e) (ep_encoder_sent e) (ep_decoder_sent e) (ep_streams e) (ep_requests e) t inserted acked set_.

(** [l[i] = l[count - 1]; count--]. *)
Definition swap_remove {A} (i : nat) (l : list A) : list A :=
  match last l with
  | Some x => take (length l - 1) (<[i := x]> l)
  | None => l
  end.

(** ** Request streams *)

Definition find_request (e : wt_http3_endpoint) (stream_id : Z) : option nat :=
  first_index (fun r => er_id r =? stream_id) (ep_requests e).

Definition forget_request (e : wt_http3_endpoint) (stream_id : Z) : wt_http3_endpoint :=
  match find_request e stream_id with
  | Some i => set_requests e (swap_remove i (ep_requests e))
  | None => e
  end.

Definition track_request (e : wt_http3_endpoint) (stream_id : Z) (locally_opened : bool) : wt_status * wt_http3_endpoint :=
  match find_request e stream_id with
  | Some _ => (WT_ERR_STATE, e)
  | None =>
      if WT_HTTP3_ENDPOINT_REQUESTS_MAX <=? zlen (ep_requests e) then (WT_ERR_LIMIT, e)
      else (WT_OK, set_requests e (ep_requests e ++ [mk_ep_request stream_id locally_opened false wt_http3_request_init]))
  end.

(** A status, an HTTP/3 code and the endpoint. *)
Definition ep_result : Type := wt_status * option Z * wt_http3_endpoint.

Definition no_code (r : wt_status * wt_http3_endpoint) : ep_result := (r.1, None, r.2).

Definition wt_http3_endpoint_open_request (e : wt_http3_endpoint) (stream_id : Z) : ep_result :=
  if negb (bool_decide (ep_role e = WT_HTTP3_ROLE_CLIENT)) then (WT_ERR_STATE, None, e)
  else no_code (track_request e stream_id true).

Definition wt_http3_endpoint_on_request_stream (e : wt_http3_endpoint) (stream_id : Z) : ep_result :=
  if bool_decide (ep_role e = WT_HTTP3_ROLE_CLIENT) then (WT_ERR_PROTOCOL, Some WT_HTTP3_STREAM_CREATION_ERROR, e)
  else no_code (track_request e stream_id false).

Definition wt_http3_endpoint_set_decoder_capacity (e : wt_http3_endpoint) (capacity : Z) : wt_status * wt_http3_endpoint :=
  if ep_capacity_set e then ((if dt_capacity (ep_table e) =? capacity then WT_OK else WT_ERR_STATE), e)
  else (WT_OK, set_decoder e (wt_qpack_dynamic_init capacity) 0 0 true).

(** Applying a machine to the request at an index. *)
Definition update_request (e : wt_http3_endpoint) (i : nat) (f : wt_http3_endpoint_request -> wt_http3_endpoint_request) :
    wt_http3_endpoint :=
  set_requests e (alter f i (ep_requests e)).

Definition set_request_stream (s : wt_http3_request_stream) (r : wt_http3_endpoint_request) : wt_http3_endpoint_request :=
  mk_ep_request (er_id r) (er_locally_opened r) (er_response_seen r) s.

Definition request_at (e : wt_http3_endpoint) (i : nat) : wt_http3_request_stream :=
  default wt_http3_request_init (er_request <$> ep_requests e !! i).

Definition wt_http3_endpoint_on_request_frame (e : wt_http3_endpoint) (stream_id type : Z) : ep_result :=
  match find_request e stream_id with
  | None => (WT_ERR_STATE, None, e)
  | Some i =>
      let '(st, code, s) := wt_http3_request_on_frame (request_at e i) type in
      (st, code, update_request e i (set_request_stream s))
  end.

Definition wt_http3_endpoint_on_request_end (e : wt_http3_endpoint) (stream_id : Z) : ep_result :=
  match find_request e stream_id with
  | None => (WT_ERR_STATE, None, e)
  | Some i =>
      let '(st, code, s) := wt_http3_request_on_end (request_at e i) in
      (st, code, forget_request (update_request e i (set_request_stream s)) stream_id)
  end.

Definition wt_http3_endpoint_on_request_reset (e : wt_http3_endpoint) (stream_id : Z) : wt_status * wt_http3_endpoint :=
  match find_request e stream_id with
  | None => (WT_ERR_STATE, e)
  | Some i =>
      let s := (wt_http3_request_on_reset (request_at e i)).2 in
      (WT_OK, forget_request (update_request e i (set_request_stream s)) stream_id)
  end.

Definition wt_http3_endpoint_request_state (e : wt_http3_endpoint) (stream_id : Z) : outcome wt_http3_request_state :=
  match find_request e stream_id with
  | None => Fail WT_ERR_STATE None
  | Some i => Ok (rq_state (request_at e i))
  end.

Definition wt_http3_endpoint_request_count (e : wt_http3_endpoint) : Z := zlen (ep_requests e).

(** ** HEADERS *)

Definition decode_headers (e : wt_http3_endpoint) (type : wt_http3_header_message) (payload scratch : list Z) :
    option (outcome (wt_http3_message field_view)) * list Z :=
  wt_http3_message_decode type payload (Some (ep_table e)) (wt_qpack_max_entries (dt_capacity (ep_table e)))
    (ep_insert_count e) scratch.

(** The machine's state before the frame: the loop keeps the last match. *)
Definition state_before (e : wt_http3_endpoint) (stream_id : Z) : wt_http3_request_state :=
  match last (filter (fun r => er_id r = stream_id) (ep_requests e)) with
  | Some r => rq_state (er_request r)
  | None => WT_HTTP3_REQUEST_EXPECT_HEADERS
  end.

(** What a trailer may not carry. *)
Definition has_pseudo (m : wt_http3_message field_view) : bool :=
  negb (value_length (mg_method m) =? 0) || negb (value_length (mg_scheme m) =? 0) ||
  negb (value_length (mg_path m) =? 0) || negb (value_length (mg_authority m) =? 0) ||
  negb (value_length (mg_protocol m) =? 0).

(** The answer, the endpoint and the scratch; [None] is fuel run out. *)
Definition wt_http3_endpoint_on_request_headers (e : wt_http3_endpoint) (stream_id : Z) (payload scratch : list Z) :
    option (outcome (wt_http3_message field_view)) * wt_http3_endpoint * list Z :=
  let before := state_before e stream_id in
  match wt_http3_endpoint_on_request_frame e stream_id WT_HTTP3_FRAME_HEADERS with
  | (WT_OK, _, e) =>
      match decode_headers e WT_HTTP3_HEADER_REQUEST payload scratch with
      | (Some (Ok m), scratch) =>
          (Some (if negb (bool_decide (before = WT_HTTP3_REQUEST_EXPECT_HEADERS)) && has_pseudo m
                 then message_error else Ok m), e, scratch)
      | (o, scratch) => (o, e, scratch)
      end
  | (st, code, e) => (Some (Fail st code), e, scratch)
  end.

Definition wt_http3_endpoint_on_response_headers (e : wt_http3_endpoint) (stream_id : Z) (payload scratch : list Z) :
    option (outcome (wt_http3_message field_view)) * wt_http3_endpoint * list Z :=
  match find_request e stream_id with
  | None => (Some (Fail WT_ERR_STATE None), e, scratch)
  | Some i =>
      if rq_ended (request_at e i) then (Some (Fail WT_ERR_STATE None), e, scratch)
      else if default false (er_response_seen <$> ep_requests e !! i) then (Some (Fail WT_ERR_STATE None), e, scratch)
      else
        let e := update_request e i (fun r => mk_ep_request (er_id r) (er_locally_opened r) true (er_request r)) in
        let '(o, scratch) := decode_headers e WT_HTTP3_HEADER_RESPONSE payload scratch in (o, e, scratch)
  end.

(** The section is built in the caller's scratch, then framed. *)
Definition wt_http3_endpoint_write_headers (m : wt_http3_message (list Z)) (peer_max_entries : Z) (scratch : list Z)
    (w : wt_writer) : wt_status * option Z * wt_writer :=
  match wt_http3_message_encode m peer_max_entries (wt_writer_init (Some scratch) (zlen scratch)) with
  | (WT_OK, _, section) =>
      if negb (wt_writer_ok section) then (WT_ERR_LIMIT, None, w)
      else
        match wt_http3_frame_encode (mk_h3_frame WT_HTTP3_FRAME_HEADERS (writer_bytes section)) w with
        | (WT_OK, w) => (WT_OK, None, w)
        | (st, w) => (st, Some WT_HTTP3_FRAME_ERROR, w)
        end
  | (st, code, _) => (st, code, w)
  end.

(** ** This endpoint's own streams *)

Definition write_type_prefix (type : Z) (w : wt_writer) : wt_status * wt_writer :=
  let '(length, encoded) := wt_quic_varint_encode type 8 in
  if length =? 0 then (WT_ERR_LIMIT, w) else writer_status (wt_writer_bytes encoded w).

Definition wt_http3_endpoint_write_prefix (e : wt_http3_endpoint) (kind : wt_http3_endpoint_stream_kind) (w : wt_writer) :
    wt_status * wt_http3_endpoint * wt_writer :=
  let once (sent : bool) (type : Z) (opened : wt_http3_endpoint) :=
    if sent then (WT_ERR_STATE, e, w)
    else match write_type_prefix type w with (WT_OK, w) => (WT_OK, opened, w) | (st, w) => (st, e, w) end in
  match kind with
  | WT_HTTP3_ENDPOINT_STREAM_CONTROL =>
      once (ep_control_sent e) WT_HTTP3_STREAM_CONTROL (set_sent e true (ep_encoder_sent e) (ep_decoder_sent e))
  | WT_HTTP3_ENDPOINT_STREAM_QPACK_ENCODER =>
      once (ep_encoder_sent e) WT_HTTP3_STREAM_QPACK_ENCODER (set_sent e (ep_control_sent e) true (ep_decoder_sent e))
  | WT_HTTP3_ENDPOINT_STREAM_QPACK_DECODER =>
      once (ep_decoder_sent e) WT_HTTP3_STREAM_QPACK_DECODER (set_sent e (ep_control_sent e) (ep_encoder_sent e) true)
  | _ => (WT_ERR_INVALID_ARGUMENT, e, w)
  end.

(** ** The peer's streams *)

Definition find_stream (e : wt_http3_endpoint) (stream_id : Z) : option nat :=
  first_index (fun s => es_id s =? stream_id) (ep_streams e).

Definition forget_stream (e : wt_http3_endpoint) (stream_id : Z) : wt_http3_endpoint :=
  match find_stream e stream_id with
  | Some i => set_ep_streams e (swap_remove i (ep_streams e))
  | None => e
  end.

Definition wt_http3_endpoint_stream_count (e : wt_http3_endpoint) : Z := zlen (ep_streams e).

Definition wt_http3_endpoint_stream_kind_of (e : wt_http3_endpoint) (stream_id : Z) : wt_http3_endpoint_stream_kind :=
  match find_stream e stream_id ≫= (fun i => ep_streams e !! i) with
  | Some s => es_kind s
  | None => WT_HTTP3_ENDPOINT_STREAM_UNKNOWN
  end.

(** What the type prefix makes of the stream: its kind and the endpoint, or a refusal. *)
Definition classify_stream (e : wt_http3_endpoint) (type : Z) : outcome wt_http3_endpoint_stream_kind * wt_http3_endpoint :=
  if type =? WT_WEBTRANSPORT_STREAM_UNI then
    (Ok WT_HTTP3_ENDPOINT_STREAM_WEBTRANSPORT, set_seen e (ep_encoder_seen e) (ep_decoder_seen e) true)
  else if type =? WT_HTTP3_STREAM_CONTROL then
    match wt_http3_control_peer_opened (ep_peer_control e) with
    | (WT_OK, _, c) => (Ok WT_HTTP3_ENDPOINT_STREAM_CONTROL, set_control e c)
    | (st, code, c) => (Fail st code, set_control e c)
    end
  else if type =? WT_HTTP3_STREAM_QPACK_ENCODER then
    if ep_encoder_seen e then (Fail WT_ERR_PROTOCOL (Some WT_HTTP3_STREAM_CREATION_ERROR), e)
    else (Ok WT_HTTP3_ENDPOINT_STREAM_QPACK_ENCODER, set_seen e true (ep_decoder_seen e) (ep_webtransport_seen e))
  else if type =? WT_HTTP3_STREAM_QPACK_DECODER then
    if ep_decoder_seen e then (Fail WT_ERR_PROTOCOL (Some WT_HTTP3_STREAM_CREATION_ERROR), e)
    else (Ok WT_HTTP3_ENDPOINT_STREAM_QPACK_DECODER, set_seen e (ep_encoder_seen e) true (ep_webtransport_seen e))
  else if type =? WT_HTTP3_STREAM_PUSH then
    (Fail WT_ERR_PROTOCOL
       (Some (if bool_decide (ep_role e = WT_HTTP3_ROLE_CLIENT) then WT_HTTP3_ID_ERROR else WT_HTTP3_STREAM_CREATION_ERROR)), e)
  else (Ok WT_HTTP3_ENDPOINT_STREAM_UNKNOWN, e).

(** A status, a code, the bytes consumed, the kind and the endpoint. *)
Definition wt_http3_endpoint_on_uni_stream (e : wt_http3_endpoint) (stream_id : Z) (bytes : list Z) :
    wt_status * option Z * Z * wt_http3_endpoint_stream_kind * wt_http3_endpoint :=
  match find_stream e stream_id with
  | Some _ => (WT_ERR_STATE, None, 0, WT_HTTP3_ENDPOINT_STREAM_UNKNOWN, e)
  | None =>
      match wt_quic_varint_decode (wt_cursor_init (Some bytes) (zlen bytes)) with
      | (Fail _ _, _) => (WT_ERR_TRUNCATED, None, 0, WT_HTTP3_ENDPOINT_STREAM_UNKNOWN, e)
      | (Ok type, c) =>
          let consumed := u64 (zlen bytes - wt_cursor_remaining c) in
          match classify_stream e type with
          | (Fail st code, e) => (st, code, consumed, WT_HTTP3_ENDPOINT_STREAM_UNKNOWN, e)
          | (Ok kind, e) =>
              if bool_decide (kind = WT_HTTP3_ENDPOINT_STREAM_UNKNOWN) then (WT_OK, None, consumed, kind, e)
              else if WT_HTTP3_ENDPOINT_STREAMS_MAX <=? zlen (ep_streams e)
              then (WT_ERR_LIMIT, None, consumed, WT_HTTP3_ENDPOINT_STREAM_UNKNOWN, e)
              else (WT_OK, None, consumed, kind, set_ep_streams e (ep_streams e ++ [mk_ep_stream stream_id kind type]))
          end
      end
  end.

Definition wt_http3_endpoint_on_control_frame (e : wt_http3_endpoint) (type : Z) : ep_result :=
  if (type =? WT_HTTP3_FRAME_MAX_PUSH_ID) && bool_decide (ep_role e = WT_HTTP3_ROLE_CLIENT)
  then (WT_ERR_PROTOCOL, Some WT_HTTP3_FRAME_UNEXPECTED, e)
  else let '(st, code, c) := wt_http3_control_on_frame (ep_peer_control e) type in (st, code, set_control e c).

Definition wt_http3_endpoint_on_control_payload (e : wt_http3_endpoint) (type : Z) (payload : list Z) (last : bool) : ep_result :=
  let '(st, code, c) := wt_http3_control_on_frame_payload (ep_peer_control e) type payload last in (st, code, set_control e c).

Definition wt_http3_endpoint_on_uni_stream_end (e : wt_http3_endpoint) (stream_id : Z) : ep_result :=
  match wt_http3_endpoint_stream_kind_of e stream_id with
  | WT_HTTP3_ENDPOINT_STREAM_UNKNOWN => (WT_OK, None, e)
  | WT_HTTP3_ENDPOINT_STREAM_CONTROL =>
      let '(st, code, c) := wt_http3_control_on_closed (ep_peer_control e) in
      (st, code, forget_stream (set_control e c) stream_id)
  | WT_HTTP3_ENDPOINT_STREAM_QPACK_ENCODER | WT_HTTP3_ENDPOINT_STREAM_QPACK_DECODER =>
      (WT_ERR_PROTOCOL, Some WT_HTTP3_CLOSED_CRITICAL_STREAM, forget_stream e stream_id)
  | _ => (WT_OK, None, forget_stream e stream_id)
  end.

(** ** QPACK's streams *)

(** How the loop over a chunk of the encoder stream ends. *)
Inductive chunk_end :=
  | ChunkRead        (** every byte, or a tail that is not yet a whole instruction *)
  | ChunkRefused
  | ChunkOutOfFuel.

(** [while (available > 0)]: an instruction costs at least a byte. *)
Fixpoint encoder_bytes_loop (fuel : nat) (max_capacity : Z) (t : wt_qpack_dynamic_table) (c : wt_cursor)
    (available consumed : Z) : chunk_end * wt_qpack_dynamic_table * Z :=
  match fuel with
  | O => (ChunkOutOfFuel, t, consumed)
  | S fuel =>
      if negb (0 <? available) then (ChunkRead, t, consumed)
      else
        match wt_qpack_encoder_stream_apply max_capacity t c with
        | ((WT_ERR_TRUNCATED, _, t), _) => (ChunkRead, t, consumed)
        | ((WT_OK, _, t), c) =>
            let after := (wt_cursor_rest c).2 in
            encoder_bytes_loop fuel max_capacity t c after (u64 (consumed + u64 (available - after)))
        | ((_, _, t), _) => (ChunkRefused, t, consumed)
        end
  end.

(** A status, a code, the bytes consumed, the insert count reported and the endpoint; [None] is fuel run out. *)
Definition wt_http3_endpoint_on_qpack_encoder_bytes (e : wt_http3_endpoint) (bytes : list Z) :
    option (wt_status * option Z * Z * Z * wt_http3_endpoint) :=
  if negb (ep_encoder_seen e) then Some (WT_ERR_PROTOCOL, Some WT_HTTP3_STREAM_CREATION_ERROR, 0, 0, e)
  else if negb (ep_capacity_set e) then Some (WT_ERR_PROTOCOL, Some WT_QPACK_ENCODER_STREAM_ERROR, 0, 0, e)
  else
    let c := wt_cursor_init (Some bytes) (zlen bytes) in
    match encoder_bytes_loop (S (length bytes)) (dt_capacity (ep_table e)) (ep_table e) c (wt_cursor_rest c).2 0 with
    | (ChunkOutOfFuel, _, _) => None
    | (ChunkRefused, t, consumed) =>
        Some (WT_ERR_PROTOCOL, Some WT_QPACK_ENCODER_STREAM_ERROR, consumed, 0,
              set_decoder e t (ep_insert_count e) (ep_acked_insert_count e) (ep_capacity_set e))
    | (ChunkRead, t, consumed) =>
        Some (WT_OK, None, consumed, dt_insert_count t,
              set_decoder e t (dt_insert_count t) (ep_acked_insert_count e) (ep_capacity_set e))
    end.

Definition wt_http3_endpoint_write_qpack_decoder_acks (e : wt_http3_endpoint) (section_stream_id : Z)
    (acknowledge_section : bool) (w : wt_writer) : wt_status * wt_http3_endpoint * wt_writer :=
  if negb (ep_capacity_set e) then (WT_ERR_STATE, e, w)
  else
    let acknowledge (e : wt_http3_endpoint) (w : wt_writer) :=
      if acknowledge_section then
        let '(st, w) := wt_qpack_decoder_stream_write_section_acknowledgement section_stream_id w in (st, e, w)
      else (WT_OK, e, w) in
    if ep_acked_insert_count e <? ep_insert_count e then
      match wt_qpack_decoder_stream_write_insert_count_increment (u64 (ep_insert_count e - ep_acked_insert_count e)) w with
      | (WT_OK, w) => acknowledge (set_decoder e (ep_table e) (ep_insert_count e) (ep_insert_count e) (ep_capacity_set e)) w
      | (st, w) => (st, e, w)
      end
    else acknowledge e w.

(** ** The tables *)

Lemma swap_remove_perm {A} (l : list A) i x : l !! i = Some x -> l ≡ₚ x :: swap_remove i l.
Proof.
  destruct l as [|y k] using rev_ind; [done|]. clear IHk. intros Hx. unfold swap_remove. rewrite last_snoc, length_app. cbn [length].
  replace (length k + 1 - 1)%nat with (length k) by lia.
  destruct (decide (i < length k)%nat) as [Hi|Hi].
  - rewrite lookup_app_l in Hx by done. rewrite insert_app_l by done.
    rewrite take_app_length' by by rewrite length_insert.
    rewrite <- (take_drop_middle k i x Hx) at 1. rewrite insert_take_drop by done.
    rewrite <- app_assoc. cbn [app]. rewrite <- Permutation_middle. constructor. f_equiv.
    by rewrite Permutation_app_comm.
  - assert (i = length k) as -> by (apply lookup_lt_Some in Hx; rewrite length_app in Hx; cbn in Hx; lia).
    rewrite list_lookup_middle in Hx by done. injection Hx as ->.
    replace (<[length k:=x]> (k ++ [x])) with (k ++ [x]) by (symmetry; apply list_insert_id; by rewrite list_lookup_middle).
    rewrite take_app_length. by rewrite Permutation_app_comm.
Qed.

(** Removing an element after changing it removes it. *)
Lemma swap_remove_alter {A} (l : list A) i f x : l !! i = Some x -> l ≡ₚ x :: swap_remove i (alter f i l).
Proof.
  intros Hx. assert (Hi : (i < length l)%nat) by by eapply lookup_lt_Some.
  assert (Ha : alter f i l = <[i := f x]> l).
  { apply list_eq. intros j. destruct (decide (i = j)) as [<-|?].
    - by rewrite list_lookup_alter_eq, Hx, list_lookup_insert_eq.
    - by rewrite list_lookup_alter_ne, list_lookup_insert_ne. }
  assert (Hp : alter f i l ≡ₚ f x :: swap_remove i (alter f i l)) by (apply swap_remove_perm; by rewrite list_lookup_alter_eq, Hx).
  rewrite Ha in Hp at 1. rewrite insert_take_drop, <- Permutation_middle in Hp by done. apply Permutation_cons_inv in Hp.
  rewrite <- (take_drop_middle l i x Hx) at 1. rewrite <- Permutation_middle. by constructor.
Qed.

Definition request_ids (e : wt_http3_endpoint) : list Z := er_id <$> ep_requests e.
Definition stream_ids (e : wt_http3_endpoint) : list Z := es_id <$> ep_streams e.

(** The streams of a kind. *)
Definition streams_of (k : wt_http3_endpoint_stream_kind) (l : list wt_http3_endpoint_stream) : list wt_http3_endpoint_stream :=
  filter (fun s => es_kind s = k) l.

(** One stream of each critical kind, and none before it was announced. *)
Definition at_most_one (k : wt_http3_endpoint_stream_kind) (announced : bool) (l : list wt_http3_endpoint_stream) : Prop :=
  (length (streams_of k l) <= if announced then 1 else 0)%nat.

Record endpoint_inv (e : wt_http3_endpoint) : Prop := {
  ei_requests : NoDup (request_ids e);
  ei_request_count : zlen (ep_requests e) <= WT_HTTP3_ENDPOINT_REQUESTS_MAX;
  ei_live : Forall (fun r => rq_ended (er_request r) = false) (ep_requests e);
  ei_initiator : Forall (fun r => er_locally_opened r = bool_decide (ep_role e = WT_HTTP3_ROLE_CLIENT)) (ep_requests e);
  ei_streams : NoDup (stream_ids e);
  ei_stream_count : zlen (ep_streams e) <= WT_HTTP3_ENDPOINT_STREAMS_MAX;
  ei_control : at_most_one WT_HTTP3_ENDPOINT_STREAM_CONTROL (ctl_opened (ep_peer_control e)) (ep_streams e);
  ei_encoder : at_most_one WT_HTTP3_ENDPOINT_STREAM_QPACK_ENCODER (ep_encoder_seen e) (ep_streams e);
  ei_decoder : at_most_one WT_HTTP3_ENDPOINT_STREAM_QPACK_DECODER (ep_decoder_seen e) (ep_streams e);
  ei_known : Forall (fun s => es_kind s <> WT_HTTP3_ENDPOINT_STREAM_PUSH /\ es_kind s <> WT_HTTP3_ENDPOINT_STREAM_UNKNOWN) (ep_streams e) }.

Lemma endpoint_init_inv role garbage : endpoint_inv (wt_http3_endpoint_init role garbage).
Proof. split; cbn; try constructor; try done; unfold at_most_one; cbn; lia. Qed.

Lemma find_request_spec e id :
  match find_request e id with
  | Some i => exists r, ep_requests e !! i = Some r /\ er_id r = id
  | None => id ∉ request_ids e
  end.
Proof.
  unfold find_request, request_ids. destruct (first_index _ _) as [i|] eqn:E.
  - apply first_index_Some in E as [(r & Hr & Hid%Z.eqb_eq) _]. eauto.
  - apply first_index_None in E. intros (r & -> & Hin)%list_elem_of_fmap. rewrite Forall_forall in E.
    specialize (E r Hin). cbn in E. by rewrite Z.eqb_refl in E.
Qed.

Lemma find_stream_spec e id :
  match find_stream e id with
  | Some i => exists s, ep_streams e !! i = Some s /\ es_id s = id
  | None => id ∉ stream_ids e
  end.
Proof.
  unfold find_stream, stream_ids. destruct (first_index _ _) as [i|] eqn:E.
  - apply first_index_Some in E as [(r & Hr & Hid%Z.eqb_eq) _]. eauto.
  - apply first_index_None in E. intros (r & -> & Hin)%list_elem_of_fmap. rewrite Forall_forall in E.
    specialize (E r Hin). cbn in E. by rewrite Z.eqb_refl in E.
Qed.

Lemma at_most_one_sub k b l x : at_most_one k b (x :: l) -> at_most_one k b l.
Proof. unfold at_most_one, streams_of. rewrite filter_cons. case_decide; cbn; lia. Qed.

Lemma at_most_one_perm k b l l' : l ≡ₚ l' -> at_most_one k b l -> at_most_one k b l'.
Proof. unfold at_most_one, streams_of. intros Hp. by rewrite Hp. Qed.

Lemma at_most_one_announce k b l : at_most_one k b l -> at_most_one k true l.
Proof. unfold at_most_one. destruct b; lia. Qed.

Lemma at_most_one_snoc k b s l :
  at_most_one k b l -> (es_kind s = k -> b = false) -> at_most_one k (b || bool_decide (es_kind s = k)) (l ++ [s]).
Proof.
  unfold at_most_one, streams_of. rewrite filter_app, length_app, filter_cons, filter_nil. intros H Hb.
  destruct (decide (es_kind s = k)); [rewrite Hb in * by done|]; rewrite ?bool_decide_true, ?bool_decide_false by done; destruct b; cbn in *; lia.
Qed.

(** Replacing the requests by a part of them. *)
Lemma endpoint_inv_requests e l :
  endpoint_inv e -> NoDup (er_id <$> l) -> zlen l <= WT_HTTP3_ENDPOINT_REQUESTS_MAX ->
  Forall (fun r => rq_ended (er_request r) = false) l ->
  Forall (fun r => er_locally_opened r = bool_decide (ep_role e = WT_HTTP3_ROLE_CLIENT)) l -> endpoint_inv (set_requests e l).
Proof. intros [] ? ? ? ?. by split. Qed.

Lemma find_request_update e i f id :
  (forall r, er_id (f r) = er_id r) -> find_request (update_request e i f) id = find_request e id.
Proof.
  intros Hid. unfold find_request, update_request. cbn [set_requests ep_requests]. revert i.
  induction (ep_requests e) as [|r l IH]; intros i; [done|]. destruct i as [|i]; cbn; [by rewrite Hid|]. by rewrite <- (IH i).
Qed.

Lemma endpoint_inv_forget_request e id i f :
  endpoint_inv e -> find_request e id = Some i -> (forall r, er_id (f r) = er_id r) ->
  endpoint_inv (forget_request (update_request e i f) id).
Proof.
  intros He Hf Hid. pose proof (find_request_spec e id) as Hs. rewrite Hf in Hs. destruct Hs as (r & Hr & Hrid).
  assert (Hf' : find_request (update_request e i f) id = Some i) by by rewrite find_request_update.
  unfold forget_request. rewrite Hf'. cbn [update_request set_requests ep_requests].
  pose proof (swap_remove_alter _ _ f _ Hr) as Hperm.
  change (set_requests (set_requests e (alter f i (ep_requests e)))) with (set_requests e).
  set (l := swap_remove i _) in *. destruct He as [H1 H2 H3 H4 H5 H6 H7 H8 H9 H10]. unfold request_ids in H1.
  split; cbn [set_requests ep_requests ep_streams ep_role ep_peer_control ep_encoder_seen ep_decoder_seen]; unfold request_ids, stream_ids in *; cbn [ep_requests ep_streams set_requests]; try done.
  - rewrite Hperm in H1. cbn in H1. by apply NoDup_cons in H1 as [_ ?].
  - unfold zlen in *. rewrite Hperm in H2. cbn [length] in H2. lia.
  - rewrite Hperm in H3. by apply Forall_cons in H3 as [_ ?].
  - rewrite Hperm in H4. by apply Forall_cons in H4 as [_ ?].
Qed.

Lemma endpoint_inv_update_request e i f :
  endpoint_inv e -> (forall r, er_id (f r) = er_id r) -> (forall r, er_locally_opened (f r) = er_locally_opened r) ->
  (forall r, ep_requests e !! i = Some r -> rq_ended (er_request (f r)) = false) ->
  endpoint_inv (update_request e i f).
Proof.
  intros He Hid Hlo Hend. apply endpoint_inv_requests; [done|..].
  - assert (E : er_id <$> alter f i (ep_requests e) = request_ids e); [|rewrite E; apply He].
    unfold request_ids. apply list_eq. intros j. rewrite !list_lookup_fmap. destruct (decide (i = j)) as [->|Hj].
    + rewrite list_lookup_alter_eq. destruct (ep_requests e !! j); cbn; [by rewrite Hid|done].
    + by rewrite list_lookup_alter_ne.
  - unfold zlen. rewrite length_alter. apply He.
  - apply Forall_alter; [apply He|]. eauto.
  - apply Forall_alter; [apply He|]. intros r Hr _. rewrite Hlo.
    pose proof (ei_initiator _ He) as H. rewrite Forall_lookup in H. eauto.
Qed.

Lemma endpoint_inv_forget_stream e id : endpoint_inv e -> endpoint_inv (forget_stream e id).
Proof.
  intros He. unfold forget_stream. pose proof (find_stream_spec e id) as Hs. destruct (find_stream e id) as [i|]; [|done].
  destruct Hs as (s & Hs & _). pose proof (swap_remove_perm _ _ _ Hs) as Hp. set (l := swap_remove i (ep_streams e)) in *.
  destruct He as [H1 H2 H3 H4 H5 H6 H7 H8 H9 H10].
  split; unfold request_ids, stream_ids in *; cbn [set_ep_streams ep_requests ep_streams ep_role ep_peer_control ep_encoder_seen ep_decoder_seen]; try done.
  - rewrite Hp in H5. cbn in H5. by apply NoDup_cons in H5 as [_ ?].
  - unfold zlen in *. rewrite Hp in H6. cbn [length] in H6. lia.
  - eapply at_most_one_sub, at_most_one_perm; [exact Hp|done].
  - eapply at_most_one_sub, at_most_one_perm; [exact Hp|done].
  - eapply at_most_one_sub, at_most_one_perm; [exact Hp|done].
  - rewrite Hp in H10. by apply Forall_cons in H10 as [_ ?].
Qed.

Lemma endpoint_inv_frame e e' :
  endpoint_inv e -> ep_role e' = ep_role e -> ep_requests e' = ep_requests e -> ep_streams e' = ep_streams e ->
  (ctl_opened (ep_peer_control e) = true -> ctl_opened (ep_peer_control e') = true) ->
  (ep_encoder_seen e = true -> ep_encoder_seen e' = true) -> (ep_decoder_seen e = true -> ep_decoder_seen e' = true) ->
  endpoint_inv e'.
Proof.
  intros [H1 H2 H3 H4 H5 H6 H7 H8 H9 H10] Hr Hq Hs Hc He Hd.
  assert (Hm : forall k b b' l, at_most_one k b l -> (b = true -> b' = true) -> at_most_one k b' l)
    by (intros k [] b' l H Hb; [by rewrite Hb|destruct b'; [by eapply at_most_one_announce|done]]).
  split; unfold request_ids, stream_ids in *; rewrite ?Hr, ?Hq, ?Hs; try done; by eapply Hm.
Qed.

Lemma request_frame_live r type : rq_ended r = false -> rq_ended (wt_http3_request_on_frame r type).2 = false.
Proof. intros H. unfold wt_http3_request_on_frame. rewrite H. by repeat case_goal. Qed.

Lemma track_request_inv e id mine :
  endpoint_inv e -> mine = bool_decide (ep_role e = WT_HTTP3_ROLE_CLIENT) -> endpoint_inv (track_request e id mine).2.
Proof.
  intros He ->. unfold track_request. pose proof (find_request_spec e id) as Hf. destruct (find_request e id); [done|].
  destruct (Z.leb_spec WT_HTTP3_ENDPOINT_REQUESTS_MAX (zlen (ep_requests e))); [done|]. cbn [snd].
  apply endpoint_inv_requests; [done|..].
  - rewrite fmap_app. apply NoDup_app. split_and!; [apply He| |by apply NoDup_singleton].
    intros x Hx ->%list_elem_of_singleton. done.
  - unfold zlen in *. rewrite length_app. cbn [length]. lia.
  - apply Forall_app. split; [apply He|by constructor].
  - apply Forall_app. split; [apply He|by constructor].
Qed.

Lemma request_frame_inv e id type : endpoint_inv e -> endpoint_inv (wt_http3_endpoint_on_request_frame e id type).2.
Proof.
  intros He. unfold wt_http3_endpoint_on_request_frame. destruct (find_request e id) as [i|]; [|done].
  destruct (wt_http3_request_on_frame _ _) as [[st code] s] eqn:E. cbn [snd]. apply endpoint_inv_update_request; [done..|].
  intros r Hr. cbn. change s with (st, code, s).2. rewrite <- E. apply request_frame_live.
  unfold request_at. rewrite Hr. cbn. pose proof (ei_live _ He) as H. rewrite Forall_lookup in H. eauto.
Qed.

Lemma request_headers_inv e id payload scratch :
  endpoint_inv e -> endpoint_inv (wt_http3_endpoint_on_request_headers e id payload scratch).1.2.
Proof.
  intros He. unfold wt_http3_endpoint_on_request_headers.
  pose proof (request_frame_inv e id WT_HTTP3_FRAME_HEADERS He) as H.
  destruct (wt_http3_endpoint_on_request_frame _ _ _) as [[st code] e']. cbn [snd] in H. by repeat case_goal.
Qed.

Lemma response_headers_inv e id payload scratch :
  endpoint_inv e -> endpoint_inv (wt_http3_endpoint_on_response_headers e id payload scratch).1.2.
Proof.
  intros He. unfold wt_http3_endpoint_on_response_headers. destruct (find_request e id) as [i|]; [|done].
  repeat (case_goal; [done|]). case_goal. cbn [fst snd]. apply endpoint_inv_update_request; [done..|].
  intros r Hr. cbn. pose proof (ei_live _ He) as H. rewrite Forall_lookup in H. eauto.
Qed.

Lemma streams_snoc_inv e s :
  endpoint_inv e -> es_id s ∉ stream_ids e -> zlen (ep_streams e) < WT_HTTP3_ENDPOINT_STREAMS_MAX ->
  es_kind s <> WT_HTTP3_ENDPOINT_STREAM_PUSH -> es_kind s <> WT_HTTP3_ENDPOINT_STREAM_UNKNOWN ->
  (es_kind s = WT_HTTP3_ENDPOINT_STREAM_CONTROL -> streams_of WT_HTTP3_ENDPOINT_STREAM_CONTROL (ep_streams e) = [] /\ ctl_opened (ep_peer_control e) = true) ->
  (es_kind s = WT_HTTP3_ENDPOINT_STREAM_QPACK_ENCODER -> streams_of WT_HTTP3_ENDPOINT_STREAM_QPACK_ENCODER (ep_streams e) = [] /\ ep_encoder_seen e = true) ->
  (es_kind s = WT_HTTP3_ENDPOINT_STREAM_QPACK_DECODER -> streams_of WT_HTTP3_ENDPOINT_STREAM_QPACK_DECODER (ep_streams e) = [] /\ ep_decoder_seen e = true) ->
  endpoint_inv (set_ep_streams e (ep_streams e ++ [s])).
Proof.
  intros [H1 H2 H3 H4 H5 H6 H7 H8 H9 H10] Hn Hc Hp Hu Hctl Henc Hdec.
  assert (Hm : forall k b, at_most_one k b (ep_streams e) -> (es_kind s = k -> streams_of k (ep_streams e) = [] /\ b = true) ->
                 at_most_one k b (ep_streams e ++ [s])).
  { intros k b H Hk. unfold at_most_one, streams_of in *. rewrite filter_app, length_app, filter_cons, filter_nil.
    destruct (decide (es_kind s = k)) as [Ek|]; cbn [length]; [|lia]. destruct (Hk Ek) as [-> ->]. cbn. lia. }
  split; unfold request_ids, stream_ids in *; cbn [set_ep_streams ep_requests ep_streams ep_role ep_peer_control ep_encoder_seen ep_decoder_seen]; auto.
  - rewrite fmap_app. apply NoDup_app. split_and!; [done| |by apply NoDup_singleton].
    intros x Hx ->%list_elem_of_singleton. done.
  - unfold zlen in *. rewrite length_app. cbn [length]. lia.
  - apply Forall_app. split; [done|]. by constructor.
Qed.

Lemma at_most_one_none k l : at_most_one k false l -> streams_of k l = [].
Proof. unfold at_most_one. intros H. destruct (streams_of k l); [done|cbn in H; lia]. Qed.

(** A stream that was classified may be recorded. *)
Lemma classify_inv e type :
  endpoint_inv e ->
  let '(o, e') := classify_stream e type in
  endpoint_inv e' /\ ep_streams e' = ep_streams e /\
  forall k, o = Ok k -> k <> WT_HTTP3_ENDPOINT_STREAM_PUSH /\
    (k = WT_HTTP3_ENDPOINT_STREAM_CONTROL -> streams_of k (ep_streams e) = [] /\ ctl_opened (ep_peer_control e') = true) /\
    (k = WT_HTTP3_ENDPOINT_STREAM_QPACK_ENCODER -> streams_of k (ep_streams e) = [] /\ ep_encoder_seen e' = true) /\
    (k = WT_HTTP3_ENDPOINT_STREAM_QPACK_DECODER -> streams_of k (ep_streams e) = [] /\ ep_decoder_seen e' = true).
Proof.
  intros He. unfold classify_stream, wt_http3_control_peer_opened.
  assert (Hset : forall a b c, (ep_encoder_seen e = true -> a = true) -> (ep_decoder_seen e = true -> b = true) -> endpoint_inv (set_seen e a b c))
    by (intros; by apply (endpoint_inv_frame e)).
  destruct (type =? WT_WEBTRANSPORT_STREAM_UNI); [|destruct (type =? WT_HTTP3_STREAM_CONTROL); [destruct (ctl_opened (ep_peer_control e)) eqn:?|
    destruct (type =? WT_HTTP3_STREAM_QPACK_ENCODER); [destruct (ep_encoder_seen e) eqn:?|
    destruct (type =? WT_HTTP3_STREAM_QPACK_DECODER); [destruct (ep_decoder_seen e) eqn:?|destruct (type =? WT_HTTP3_STREAM_PUSH)]]]].
  all: split_and!; try done; try (by apply Hset); try (by apply (endpoint_inv_frame e)); intros k Hk; simplify_eq.
  all: split_and!; try done; intros _; split; try done; apply at_most_one_none.
  all: match goal with H : ?b = false |- at_most_one _ false _ => rewrite <- H; apply He end.
Qed.

Lemma uni_stream_inv e id bytes : endpoint_inv e -> endpoint_inv (wt_http3_endpoint_on_uni_stream e id bytes).2.
Proof.
  intros He. unfold wt_http3_endpoint_on_uni_stream. pose proof (find_stream_spec e id) as Hf.
  destruct (find_stream e id); [done|]. destruct (wt_quic_varint_decode _) as [[type|] c]; [|done]. cbv zeta.
  pose proof (classify_inv e type He) as H. destruct (classify_stream e type) as [o e'].
  destruct H as (He' & Hs & Hk). destruct o as [k|]; [|done]. case_bool_decide as Hu; [done|].
  destruct (Z.leb_spec WT_HTTP3_ENDPOINT_STREAMS_MAX (zlen (ep_streams e'))); [done|]. cbn [snd].
  destruct (Hk k eq_refl) as (? & ? & ? & ?). rewrite <- Hs in *. apply streams_snoc_inv; try done; cbn [es_kind es_id].
  - unfold stream_ids in *. by rewrite Hs.
  - intros ->. auto.
  - intros ->. auto.
  - intros ->. auto.
Qed.

(** ** Every call on an endpoint *)

Inductive endpoint_event :=
  | OpenRequest (id : Z)
  | RequestStream (id : Z)
  | SetDecoderCapacity (capacity : Z)
  | RequestFrame (id type : Z)
  | RequestEnd (id : Z)
  | RequestReset (id : Z)
  | RequestHeaders (id : Z) (payload scratch : list Z)
  | ResponseHeaders (id : Z) (payload scratch : list Z)
  | WritePrefix (kind : wt_http3_endpoint_stream_kind) (w : wt_writer)
  | UniStream (id : Z) (bytes : list Z)
  | UniStreamEnd (id : Z)
  | ControlFrame (type : Z)
  | ControlPayload (type : Z) (payload : list Z) (final : bool)
  | EncoderBytes (bytes : list Z)
  | DecoderAcks (id : Z) (acknowledge : bool) (w : wt_writer).

Definition endpoint_step (e : wt_http3_endpoint) (ev : endpoint_event) : wt_http3_endpoint :=
  match ev with
  | OpenRequest id => (wt_http3_endpoint_open_request e id).2
  | RequestStream id => (wt_http3_endpoint_on_request_stream e id).2
  | SetDecoderCapacity capacity => (wt_http3_endpoint_set_decoder_capacity e capacity).2
  | RequestFrame id type => (wt_http3_endpoint_on_request_frame e id type).2
  | RequestEnd id => (wt_http3_endpoint_on_request_end e id).2
  | RequestReset id => (wt_http3_endpoint_on_request_reset e id).2
  | RequestHeaders id payload scratch => (wt_http3_endpoint_on_request_headers e id payload scratch).1.2
  | ResponseHeaders id payload scratch => (wt_http3_endpoint_on_response_headers e id payload scratch).1.2
  | WritePrefix kind w => (wt_http3_endpoint_write_prefix e kind w).1.2
  | UniStream id bytes => (wt_http3_endpoint_on_uni_stream e id bytes).2
  | UniStreamEnd id => (wt_http3_endpoint_on_uni_stream_end e id).2
  | ControlFrame type => (wt_http3_endpoint_on_control_frame e type).2
  | ControlPayload type payload last => (wt_http3_endpoint_on_control_payload e type payload last).2
  | EncoderBytes bytes => match wt_http3_endpoint_on_qpack_encoder_bytes e bytes with Some r => r.2 | None => e end
  | DecoderAcks id acknowledge w => (wt_http3_endpoint_write_qpack_decoder_acks e id acknowledge w).1.2
  end.

Definition run_endpoint (e : wt_http3_endpoint) (events : list endpoint_event) : wt_http3_endpoint :=
  fold_left endpoint_step events e.

(** What the QPACK side and the writers leave alone: the request and stream tables. *)
Definition same_tables (e e' : wt_http3_endpoint) : Prop :=
  ep_role e' = ep_role e /\ ep_requests e' = ep_requests e /\ ep_streams e' = ep_streams e /\
  ep_peer_control e' = ep_peer_control e /\ ep_encoder_seen e' = ep_encoder_seen e /\ ep_decoder_seen e' = ep_decoder_seen e.

Lemma same_tables_inv e e' : same_tables e e' -> endpoint_inv e -> endpoint_inv e'.
Proof.
  intros (Hr & Hq & Hs & Hc & He & Hd) H. by apply (endpoint_inv_frame e); rewrite ?Hc, ?He, ?Hd.
Qed.

Lemma set_capacity_tables e capacity : same_tables e (wt_http3_endpoint_set_decoder_capacity e capacity).2.
Proof. unfold wt_http3_endpoint_set_decoder_capacity. by case_goal. Qed.

Lemma write_prefix_tables e kind w : same_tables e (wt_http3_endpoint_write_prefix e kind w).1.2.
Proof. unfold wt_http3_endpoint_write_prefix. destruct kind; try done; (case_goal; [done|]); destruct (write_type_prefix _ _) as [[]]; done. Qed.

Lemma encoder_bytes_tables e bytes :
  same_tables e (match wt_http3_endpoint_on_qpack_encoder_bytes e bytes with Some r => r.2 | None => e end).
Proof.
  unfold wt_http3_endpoint_on_qpack_encoder_bytes. destruct (negb (ep_encoder_seen e)); [done|]. destruct (negb (ep_capacity_set e)); [done|]. cbv zeta.
  destruct (encoder_bytes_loop _ _ _ _ _ _) as [[[] t] consumed]; done.
Qed.

Lemma decoder_acks_tables e id ack w : same_tables e (wt_http3_endpoint_write_qpack_decoder_acks e id ack w).1.2.
Proof.
  unfold wt_http3_endpoint_write_qpack_decoder_acks. cbv zeta. destruct (ep_capacity_set e); [|done]. cbn [negb].
  destruct (_ <? _); [destruct (wt_qpack_decoder_stream_write_insert_count_increment _ _) as [[] w']; try done|];
    (destruct ack; [|done]); by destruct (wt_qpack_decoder_stream_write_section_acknowledgement _ _).
Qed.

Lemma uni_stream_end_inv e id : endpoint_inv e -> endpoint_inv (wt_http3_endpoint_on_uni_stream_end e id).2.
Proof.
  intros He. unfold wt_http3_endpoint_on_uni_stream_end.
  destruct (wt_http3_endpoint_stream_kind_of e id); try done; try (by apply endpoint_inv_forget_stream).
  unfold wt_http3_control_on_closed. destruct (_ || _); apply endpoint_inv_forget_stream; by apply (endpoint_inv_frame e).
Qed.

Lemma control_frame_opened c type : ctl_opened (wt_http3_control_on_frame c type).2 = ctl_opened c.
Proof. unfold wt_http3_control_on_frame. by repeat case_goal. Qed.

Lemma control_payload_opened c type payload last : ctl_opened (wt_http3_control_on_frame_payload c type payload last).2 = ctl_opened c.
Proof. unfold wt_http3_control_on_frame_payload. cbv zeta. by repeat case_goal. Qed.

Lemma endpoint_step_inv e ev : endpoint_inv e -> endpoint_inv (endpoint_step e ev).
Proof.
  intros He. destruct ev; cbn [endpoint_step].
  - unfold wt_http3_endpoint_open_request. case_bool_decide as Hr; [|done]. cbn. apply track_request_inv; [done|]. by rewrite bool_decide_true.
  - unfold wt_http3_endpoint_on_request_stream. case_bool_decide as Hr; [done|]. cbn. apply track_request_inv; [done|]. by rewrite bool_decide_false.
  - eapply same_tables_inv; [apply set_capacity_tables|done].
  - by apply request_frame_inv.
  - unfold wt_http3_endpoint_on_request_end. destruct (find_request e id) as [i|] eqn:Hf; [|done].
    destruct (wt_http3_request_on_end _) as [[st code] s]. by apply endpoint_inv_forget_request.
  - unfold wt_http3_endpoint_on_request_reset. destruct (find_request e id) as [i|] eqn:Hf; [|done]. by apply endpoint_inv_forget_request.
  - by apply request_headers_inv.
  - by apply response_headers_inv.
  - eapply same_tables_inv; [apply write_prefix_tables|done].
  - by apply uni_stream_inv.
  - by apply uni_stream_end_inv.
  - unfold wt_http3_endpoint_on_control_frame. case_goal; [done|].
    pose proof (control_frame_opened (ep_peer_control e) type) as H. destruct (wt_http3_control_on_frame _ _) as [[st code] c].
    apply (endpoint_inv_frame e); try done. cbn in *. by rewrite H.
  - unfold wt_http3_endpoint_on_control_payload.
    pose proof (control_payload_opened (ep_peer_control e) type payload final) as H. destruct (wt_http3_control_on_frame_payload _ _ _ _) as [[st code] c].
    apply (endpoint_inv_frame e); try done. cbn in *. by rewrite H.
  - eapply same_tables_inv; [apply encoder_bytes_tables|done].
  - eapply same_tables_inv; [apply decoder_acks_tables|done].
Qed.

Lemma run_endpoint_inv events : forall e, endpoint_inv e -> endpoint_inv (run_endpoint e events).
Proof.
  unfold run_endpoint. induction events as [|ev events IH]; intros e He; [done|]. cbn [fold_left]. by apply IH, endpoint_step_inv.
Qed.


(** ** The encoder stream as a relation *)

(** Reading an instruction from the front of some bytes. *)
Definition front (v : list Z) : outcome instruction := (read_instruction (wt_cursor_init (Some v) (zlen v))).1.

(** What the bytes of the encoder stream do to a table: how the reading ends, the
    table it leaves and the bytes it has not consumed. *)
Inductive stream_reads (max_capacity : Z) : wt_qpack_dynamic_table -> list Z -> chunk_end -> wt_qpack_dynamic_table -> list Z -> Prop :=
  | reads_partial t v s e : front v = Fail s e -> s = WT_ERR_TRUNCATED -> stream_reads max_capacity t v ChunkRead t v
  | reads_malformed t v s e : front v = Fail s e -> s <> WT_ERR_TRUNCATED -> stream_reads max_capacity t v ChunkRefused t v
  | reads_refused t bs v i s e t' :
      decodes read_instruction bs i -> bs <> [] -> apply_instruction max_capacity t i = (s, e, t') -> s <> WT_OK ->
      stream_reads max_capacity t (bs ++ v) ChunkRefused t' (bs ++ v)
  | reads_applied t bs v i e t' r t'' rest :
      decodes read_instruction bs i -> bs <> [] -> apply_instruction max_capacity t i = (WT_OK, e, t') ->
      stream_reads max_capacity t' v r t'' rest -> stream_reads max_capacity t (bs ++ v) r t'' rest.

#[export] Hint Constructors stream_reads : wt.

Lemma stream_reads_chunk max_capacity t a t1 rest b r t2 rest2 :
  stream_reads max_capacity t a ChunkRead t1 rest -> stream_reads max_capacity t1 (rest ++ b) r t2 rest2 ->
  stream_reads max_capacity t (a ++ b) r t2 rest2.
Proof.
  intros H. remember ChunkRead as ended eqn:E. revert E. induction H; intros E; simplify_eq; [done|].
  intros Hnext. rewrite <- app_assoc. eauto with wt.
Qed.

Lemma stream_reads_suffix max_capacity t v r t' rest : stream_reads max_capacity t v r t' rest -> exists pre, v = pre ++ rest.
Proof.
  induction 1 as [| | |t bs v i e t' r t'' rest _ _ _ _ [pre ->]]; try by exists []. exists (bs ++ pre). by rewrite app_assoc.
Qed.

Lemma front_decodes bs i v : decodes read_instruction bs i -> block_ok (bs ++ v) -> front (bs ++ v) = Ok i.
Proof. intros Hd Hb. unfold front. by rewrite (Hd _ v (block_ok_live _ Hb) (cursor_init_view _)). Qed.

(** Two ways to read an instruction at the front are one. *)
Lemma decodes_front_unique bs i v bs' i' v' :
  decodes read_instruction bs i -> decodes read_instruction bs' i' -> block_ok (bs ++ v) -> bs ++ v = bs' ++ v' ->
  i = i' /\ bs = bs' /\ v = v'.
Proof.
  intros Hd Hd' Hb E. pose proof (block_ok_live _ Hb) as Hl.
  pose proof (Hd _ v Hl (cursor_init_view _)) as H1. pose proof (Hd' _ v' Hl) as H2. rewrite H2 in H1 by by rewrite cursor_init_view.
  injection H1 as <- Hz. unfold cursor_advance in Hz. cbn in Hz. split; [done|]. apply app_inj_1; [|done]. unfold zlen in Hz. lia.
Qed.

(** The first instruction decides what follows. *)
Lemma stream_reads_first max_capacity t bs v i r t2 rest2 :
  block_ok (bs ++ v) -> decodes read_instruction bs i -> stream_reads max_capacity t (bs ++ v) r t2 rest2 ->
  match apply_instruction max_capacity t i with
  | (WT_OK, _, t') => stream_reads max_capacity t' v r t2 rest2
  | (_, _, t') => r = ChunkRefused /\ t2 = t' /\ rest2 = bs ++ v
  end.
Proof.
  intros Hb Hdec Hreads. inversion Hreads; subst; try (by rewrite (front_decodes bs i v) in * by done);
    match goal with Hd : decodes _ ?bs' ?i', Hv : ?bs' ++ ?v' = bs ++ v |- _ =>
      destruct (decodes_front_unique bs i v bs' i' v' Hdec Hd Hb (eq_sym Hv)) as (<- & <- & <-) end.
  - match goal with Ha : apply_instruction _ _ _ = (?s, _, _) |- _ => rewrite Ha; by destruct s end.
  - match goal with Ha : apply_instruction _ _ _ = _ |- _ => by rewrite Ha end.
Qed.

Lemma stream_reads_det max_capacity t v r t' rest r2 t2 rest2 :
  block_ok v -> stream_reads max_capacity t v r t' rest -> stream_reads max_capacity t v r2 t2 rest2 ->
  r = r2 /\ t' = t2 /\ rest = rest2.
Proof.
  intros Hb H. revert r2 t2 rest2 Hb.
  induction H as [| |t bs v i s e t' Hdec ? Happ|t bs v i e t' r t'' rest Hdec ? Happ Hrest IH]; intros r2 t2 rest2 Hb Hreads.
  1-2: inversion Hreads; subst; try congruence; try done; match goal with Hd : decodes _ _ _ |- _ => by rewrite (front_decodes _ _ _ Hd) in * by done end.
  - apply (stream_reads_first _ _ _ _ i) in Hreads; [|done..]. rewrite Happ in Hreads. destruct s; naive_solver.
  - apply (stream_reads_first _ _ _ _ i) in Hreads; [|done..]. rewrite Happ in Hreads. apply IH; [by eapply block_ok_suffix|done].
Qed.

Lemma apply_instruction_not_truncated max_capacity t i : (apply_instruction max_capacity t i).1.1 <> WT_ERR_TRUNCATED.
Proof.
  assert (H : forall t n v, (apply_insert t n v).1.1 <> WT_ERR_TRUNCATED)
    by (intros; unfold apply_insert; destruct (wt_qpack_dynamic_insert _ _ _) as [[?|[] ?] ?]; done).
  unfold apply_instruction. repeat case_goal; try done; apply H.
Qed.

(** The loop follows the relation: it ends, having consumed what the relation has. *)
Lemma encoder_loop_reads max_capacity : forall fuel t c consumed,
  cursor_live c -> (length (cursor_view c) < fuel)%nat -> 0 <= consumed -> consumed + zlen (cursor_view c) < 2 ^ 64 ->
  exists r t' pre rest,
    encoder_bytes_loop fuel max_capacity t c (zlen (cursor_view c)) consumed = (r, t', consumed + zlen pre) /\
    cursor_view c = pre ++ rest /\ stream_reads max_capacity t (cursor_view c) r t' rest /\ r <> ChunkOutOfFuel.
Proof.
  induction fuel as [|fuel IH]; intros t c consumed Hl Hf Hc0 Hc; [lia|]. cbn [encoder_bytes_loop].
  assert (Hfr : front (cursor_view c) = (read_instruction c).1).
  { pose proof (read_instruction_local c Hl) as H. unfold front.
    destruct (read_instruction c) as [[i|s e] c'] eqn:E.
    - destruct H as (bs & Hv & _ & Hd). rewrite Hv. rewrite (Hd _ (cursor_view c')); [done| |done].
      apply block_ok_live. rewrite <- Hv. by apply live_block_ok.
    - cbn. apply H; [apply block_ok_live; by apply live_block_ok|]. by left. }
  assert (Hend : forall r t', stream_reads max_capacity t (cursor_view c) r t' (cursor_view c) -> r <> ChunkOutOfFuel ->
    exists r2 t2 pre rest, (r, t', consumed) = (r2, t2, consumed + zlen pre) /\
      cursor_view c = pre ++ rest /\ stream_reads max_capacity t (cursor_view c) r2 t2 rest /\ r2 <> ChunkOutOfFuel).
  { intros r t' Hr Hn. exists r, t', [], (cursor_view c). rewrite zlen_nil, Z.add_0_r. done. }
  destruct (Z.ltb_spec 0 (zlen (cursor_view c))) as [Hz|Hz]; cbn [negb].
  2:{ apply Hend; [|done]. destruct (cursor_view c) as [|b tl] eqn:Hv; [|rewrite zlen_cons in Hz; pose proof (zlen_nonneg tl); lia].
      eapply reads_partial; [|done]. unfold front, read_instruction, with_peek.
      by rewrite peek_first_end by (done || apply block_ok_live; by split; [constructor|]). }
  unfold wt_qpack_encoder_stream_apply. pose proof (read_instruction_consumes c (proj1 Hl)) as Hcons.
  pose proof (read_instruction_local c Hl) as Hloc.
  destruct (read_instruction c) as [[i|s e] c'] eqn:E; cbn in Hfr, Hcons.
  2:{ destruct (decide (s = WT_ERR_TRUNCATED)) as [->|Hs]; [by apply Hend; [eapply reads_partial|]|].
      assert (Hr : stream_reads max_capacity t (cursor_view c) ChunkRefused t (cursor_view c)) by by eapply reads_malformed.
      apply Hend in Hr; [|done]. pose proof (read_instruction_fails c (proj1 Hl)) as Hok. rewrite E in Hok. by destruct s. }
  destruct (parser_local_ok _ c i c' read_instruction_local Hl E) as (bs & Hv & Hc' & Hd & Hl').
  assert (Hne : bs <> []) by (intros ->; rewrite Hc', zlen_nil in Hcons; cbn in Hcons; lia).
  pose proof (apply_instruction_not_truncated max_capacity t i) as Hnt.
  destruct (apply_instruction max_capacity t i) as [[s e] t'] eqn:Ea; cbn in Hnt.
  destruct (decide (s = WT_OK)) as [->|Hs].
  2:{ assert (Hr : stream_reads max_capacity t (cursor_view c) ChunkRefused t' (cursor_view c)) by (rewrite Hv; by eapply reads_refused).
      apply Hend in Hr; [|done]. by destruct s. }
  rewrite cursor_rest_live by done. cbn [snd]. assert (Hlen : zlen (cursor_view c) = zlen bs + zlen (cursor_view c')) by by rewrite Hv, zlen_app.
  pose proof (zlen_nonneg bs). pose proof (zlen_nonneg (cursor_view c')). no_wrap.
  replace (zlen (cursor_view c) - zlen (cursor_view c')) with (zlen bs) by lia.
  destruct (IH t' c' (consumed + zlen bs)) as (r & t'' & pre & rest & -> & Hv' & Hr & Hn); try done; try lia.
  { rewrite Hv, length_app in Hf. destruct bs as [|b bs]; [done|]. cbn [length app] in Hf. lia. }
  exists r, t'', (bs ++ pre), rest. split_and!; try done.
  - by rewrite zlen_app, Z.add_assoc.
  - by rewrite <- app_assoc, <- Hv'.
  - rewrite Hv. by eapply reads_applied.
Qed.

(** What the encoder bytes do, through the relation. *)
Lemma encoder_bytes_reads e bytes :
  ep_encoder_seen e = true -> ep_capacity_set e = true -> block_ok bytes ->
  exists r t pre rest,
    bytes = pre ++ rest /\ stream_reads (dt_capacity (ep_table e)) (ep_table e) bytes r t rest /\
    wt_http3_endpoint_on_qpack_encoder_bytes e bytes =
      match r with
      | ChunkRead => Some (WT_OK, None, zlen pre, dt_insert_count t, set_decoder e t (dt_insert_count t) (ep_acked_insert_count e) true)
      | _ => Some (WT_ERR_PROTOCOL, Some WT_QPACK_ENCODER_STREAM_ERROR, zlen pre, 0, set_decoder e t (ep_insert_count e) (ep_acked_insert_count e) true)
      end.
Proof.
  intros Hs Hc Hb. unfold wt_http3_endpoint_on_qpack_encoder_bytes. rewrite Hs, Hc. cbn [negb].
  destruct (encoder_loop_reads (dt_capacity (ep_table e)) (S (length bytes)) (ep_table e) _ 0 (block_ok_live _ Hb))
    as (r & t & pre & rest & Hloop & Hv & Hr & Hn); try (rewrite cursor_init_view); try lia; try apply Hb.
  rewrite cursor_init_view in *. exists r, t, pre, rest. split_and!; [done|done|].
  rewrite cursor_rest_live by by apply block_ok_live. cbn [snd]. rewrite cursor_init_view, Hloop. by destruct r.
Qed.

(** C15. The QPACK encoder stream may be delivered in pieces. When a first piece is accepted
    and leaves the capacity of the table as it was, giving back the unconsumed tail with the
    next piece has the same verdict, error code, insert count and table as delivering both
    pieces at once, and consumes the same bytes in total. (Without the condition on the
    capacity this fails: see the findings.) *)
Theorem encoder_stream_chunks e a b k inserted e1 :
  block_ok (a ++ b) ->
  wt_http3_endpoint_on_qpack_encoder_bytes e a = Some (WT_OK, None, k, inserted, e1) ->
  dt_capacity (ep_table e1) = dt_capacity (ep_table e) ->
  exists st code k2 inserted2 e2 e2',
    wt_http3_endpoint_on_qpack_encoder_bytes e1 (zdrop k a ++ b) = Some (st, code, k2, inserted2, e2) /\
    wt_http3_endpoint_on_qpack_encoder_bytes e (a ++ b) = Some (st, code, k + k2, inserted2, e2') /\
    ep_table e2' = ep_table e2 /\ (st = WT_OK -> e2' = e2) /\ 0 <= k <= zlen a.
Proof.
  intros Hb H1 Hcap.
  assert (Hon : ep_encoder_seen e = true /\ ep_capacity_set e = true)
    by (unfold wt_http3_endpoint_on_qpack_encoder_bytes in H1; destruct (ep_encoder_seen e), (ep_capacity_set e); done).
  destruct Hon as [Hs Hc]. assert (Ha : block_ok a).
  { destruct Hb as [Hok Hz]. apply Forall_app in Hok as [? _]. rewrite zlen_app in Hz. pose proof (zlen_nonneg b). split; [done|lia]. }
  destruct (encoder_bytes_reads e a Hs Hc Ha) as (r & t & pre & rest & -> & Hr & E). rewrite H1 in E.
  destruct r; simplify_eq; try done.
  assert (Hd : zdrop (zlen pre) (pre ++ rest) = rest) by by apply zdrop_app_exact. rewrite Hd.
  rewrite <- app_assoc in Hb. pose proof (block_ok_suffix _ _ Hb) as Hb2.
  destruct (encoder_bytes_reads (set_decoder e t (dt_insert_count t) (ep_acked_insert_count e) true) (rest ++ b) Hs eq_refl Hb2)
    as (r2 & t2 & pre2 & rest2 & Hv2 & Hr2 & E2).
  destruct (encoder_bytes_reads e (pre ++ rest ++ b) Hs Hc Hb) as (r3 & t3 & pre3 & rest3 & Hv3 & Hr3 & E3).
  cbn [set_decoder ep_table] in *. rewrite Hcap in Hr2.
  pose proof (stream_reads_chunk _ _ _ _ _ _ _ _ _ Hr Hr2) as Hr4. rewrite <- app_assoc in Hr4.
  destruct (stream_reads_det _ _ _ _ _ _ _ _ _ Hb Hr4 Hr3) as (-> & -> & ->).
  assert (pre3 = pre ++ pre2) as -> by (rewrite Hv2, app_assoc in Hv3; by apply app_inv_tail in Hv3).
  rewrite <- app_assoc, E2, E3, zlen_app. pose proof (zlen_nonneg pre). pose proof (zlen_nonneg rest).
  assert (Hk : 0 <= zlen pre <= zlen (pre ++ rest)) by (rewrite zlen_app; lia).
  destruct r3; eexists _, _, _, _, _, _; split_and!; done || apply Hk.
Qed.

(** A server that granted a table of [capacity] bytes and whose peer has opened its encoder stream. *)
Definition granted (capacity : Z) : wt_http3_endpoint :=
  run_endpoint (wt_http3_endpoint_init WT_HTTP3_ROLE_SERVER 0) [SetDecoderCapacity capacity; UniStream 2 [0x02]].

(** An insertion of [a: b] and the first byte of another, then the rest of that one. *)
Definition first_chunk : list Z := [0x41; 0x61; 0x01; 0x62; 0x41].
Definition second_chunk : list Z := [0x61; 0x01; 0x62].

Lemma encoder_stream_chunks_witness :
  exists st code k2 inserted2 e2 e2',
    wt_http3_endpoint_on_qpack_encoder_bytes (endpoint_step (granted 128) (EncoderBytes first_chunk)) (zdrop 4 first_chunk ++ second_chunk) =
      Some (st, code, k2, inserted2, e2) /\
    wt_http3_endpoint_on_qpack_encoder_bytes (granted 128) (first_chunk ++ second_chunk) = Some (st, code, 4 + k2, inserted2, e2') /\
    ep_table e2' = ep_table e2 /\ (st = WT_OK -> e2' = e2) /\ 0 <= 4 <= zlen first_chunk.
Proof.
  apply (encoder_stream_chunks (granted 128) first_chunk second_chunk 4 1 (endpoint_step (granted 128) (EncoderBytes first_chunk))).
  - split; [by apply bytes_okb_spec|by vm_compute].
  - by vm_compute.
  - by vm_compute.
Defined.

(** Without the hypothesis on the capacity the verdict depends on the cut: the peer sets the capacity to
    0 and back to the granted 64.  In one chunk that is accepted; cut after the first instruction, the
    ceiling of the second call is the lowered capacity, and the connection is refused. *)
Example capacity_restored_in_one_chunk :
  option_map (fun r => r.1.1.1.1) (wt_http3_endpoint_on_qpack_encoder_bytes (granted 64) [0x20; 0x3f; 0x21]) = Some WT_OK.
Proof. by vm_compute. Qed.

Example capacity_restored_in_two_chunks :
  option_map (fun r => r.1.1) (wt_http3_endpoint_on_qpack_encoder_bytes (endpoint_step (granted 64) (EncoderBytes [0x20])) [0x3f; 0x21]) =
  Some (WT_ERR_PROTOCOL, Some WT_QPACK_ENCODER_STREAM_ERROR, 0).
Proof. by vm_compute. Qed.

(** ** HEADERS after the first *)

Lemma filter_unique {A} (f : A -> Z) (l : list A) r : NoDup (f <$> l) -> r ∈ l -> filter (fun x => f x = f r) l = [r].
Proof.
  induction l as [|x l IH]; intros Hn Hr; [by apply not_elem_of_nil in Hr|]. cbn in Hn. apply NoDup_cons in Hn as [Hx Hn].
  rewrite filter_cons. apply elem_of_cons in Hr as [->|Hr].
  - rewrite decide_True by done. f_equal. destruct (filter _ l) as [|y k] eqn:E; [done|].
    assert (Hy : y ∈ filter (fun z => f z = f x) l) by (rewrite E; left). apply list_elem_of_filter in Hy as [Hfy Hy].
    destruct Hx. apply list_elem_of_fmap. by exists y.
  - rewrite decide_False, IH; [done|done|done|]. intros E. apply Hx. apply list_elem_of_fmap. by exists r.
Qed.

Lemma state_before_lookup e id r :
  endpoint_inv e -> r ∈ ep_requests e -> er_id r = id -> state_before e id = rq_state (er_request r).
Proof. intros He Hr <-. unfold state_before. rewrite (filter_unique er_id); [done|apply He|done]. Qed.

(** A HEADERS frame the machine accepts leaves the stream past its first HEADERS. *)
Lemma accepted_headers_advance e id code e' :
  endpoint_inv e -> wt_http3_endpoint_on_request_frame e id WT_HTTP3_FRAME_HEADERS = (WT_OK, code, e') ->
  state_before e' id <> WT_HTTP3_REQUEST_EXPECT_HEADERS.
Proof.
  intros He E. pose proof (request_frame_inv e id WT_HTTP3_FRAME_HEADERS He) as He'. rewrite E in He'. cbn [snd] in He'.
  unfold wt_http3_endpoint_on_request_frame in E. pose proof (find_request_spec e id) as Hf.
  destruct (find_request e id) as [i|]; [|done]. destruct Hf as (r & Hr & Hid).
  assert (Hat : request_at e i = er_request r) by (unfold request_at; by rewrite Hr). rewrite Hat in E.
  destruct (wt_http3_request_on_frame (er_request r) WT_HTTP3_FRAME_HEADERS) as [[st c] s] eqn:Es. simplify_eq.
  rewrite (state_before_lookup _ _ (set_request_stream s r)); [|done| |done].
  - cbn. unfold wt_http3_request_on_frame in Es. destruct (rq_ended (er_request r)); [done|].
    by destruct (rq_state (er_request r)); cbn in Es; simplify_eq.
  - apply list_elem_of_lookup. exists i. unfold update_request. cbn [set_requests ep_requests]. by rewrite list_lookup_alter_eq, Hr.
Qed.

(** A request that decodes has a method, which is a pseudo-header. *)
Lemma decoded_request_has_pseudo e payload scratch m scratch' :
  decode_headers e WT_HTTP3_HEADER_REQUEST payload scratch = (Some (Ok m), scratch') -> has_pseudo m = true.
Proof.
  unfold decode_headers, wt_http3_message_decode, has_pseudo. destruct (wt_qpack_field_section_begin _ _ _ _) as [d|]; [|done].
  destruct (walk_fields _ _ _ _ _) as [[[m'|[]|]|] s']; try done.
  destruct (wt_http3_header_finish (mg_validation m')) as [[] c]; try done.
  destruct (request_complete _ m') eqn:Ec; [|done]. intros [= -> ->]. unfold request_complete in Ec.
  destruct (value_length (mg_method m) =? 0); [done|]. done.
Qed.

Lemma later_headers_refused e id payload scratch m :
  state_before e id <> WT_HTTP3_REQUEST_EXPECT_HEADERS ->
  (wt_http3_endpoint_on_request_headers e id payload scratch).1.1 <> Some (Ok m).
Proof.
  intros Hb. unfold wt_http3_endpoint_on_request_headers. cbv zeta.
  destruct (wt_http3_endpoint_on_request_frame _ _ _) as [[st code] e']. destruct st; try done.
  destruct (decode_headers e' _ _ _) as [[[m'|]|] s'] eqn:Ed; try done. apply decoded_request_has_pseudo in Ed.
  rewrite Ed, bool_decide_false by done. done.
Qed.

Lemma encoder_chunks_tables chunks : forall e, same_tables e (run_endpoint e (EncoderBytes <$> chunks)).
Proof.
  unfold run_endpoint. induction chunks as [|c chunks IH]; intros e; [done|]. cbn [fmap list_fmap fold_left endpoint_step].
  pose proof (encoder_bytes_tables e c) as H. set (e1 := match _ with Some r => _ | None => e end) in *. specialize (IH e1).
  unfold same_tables in *. intuition congruence.
Qed.

(** Once a HEADERS frame of a request has been accepted by the frame order, whatever its section came to, no later HEADERS section on that stream is ever delivered: not a trailer, because it is decoded with the rules of a request and a request has pseudo-headers, and not the same section tried again after it was blocked on the dynamic table, however many encoder instructions have arrived meanwhile. *)
Lemma only_first_headers_read e id payload scratch e' scratch' o chunks payload2 scratch2 m :
  endpoint_inv e ->
  wt_http3_endpoint_on_request_headers e id payload scratch = (o, e', scratch') ->
  o <> Some (Fail WT_ERR_STATE None) -> o <> Some (Fail WT_ERR_PROTOCOL (Some WT_HTTP3_FRAME_UNEXPECTED)) ->
  (wt_http3_endpoint_on_request_headers (run_endpoint e' (EncoderBytes <$> chunks)) id payload2 scratch2).1.1 <> Some (Ok m).
Proof.
  intros He E Hn1 Hn2. apply later_headers_refused.
  assert (Hadv : state_before e' id <> WT_HTTP3_REQUEST_EXPECT_HEADERS).
  { unfold wt_http3_endpoint_on_request_headers in E. cbv zeta in E.
    destruct (wt_http3_endpoint_on_request_frame _ _ _) as [[st code] e1] eqn:Ef.
    destruct (decide (st = WT_OK)) as [->|Hst].
    - apply accepted_headers_advance in Ef; [|done]. by destruct (decode_headers e1 _ _ _) as [[[]|] ?]; simplify_eq.
    - exfalso. assert (o = Some (Fail st code)) as -> by by destruct st; simplify_eq.
      unfold wt_http3_endpoint_on_request_frame, wt_http3_request_on_frame in Ef.
      destruct (find_request e id) as [i|]; [|by simplify_eq].
      destruct (rq_ended _); [by simplify_eq|]. destruct (rq_state _); cbn in Ef; simplify_eq; try done. }
  destruct (encoder_chunks_tables chunks e') as (_ & Hq & _). unfold state_before in *. by rewrite Hq.
Qed.

(** A request whose only field is the first entry of a table that is still empty. *)
Definition waiting : wt_http3_endpoint := run_endpoint (granted 128) [RequestStream 0].
Definition blocked_section : list Z := [0x02; 0x00; 0x80].
Definition one_insertion : list Z := [0x41; 0x61; 0x01; 0x62].

Lemma waiting_inv : endpoint_inv waiting.
Proof. apply run_endpoint_inv, run_endpoint_inv, endpoint_init_inv. Qed.

Lemma only_first_headers_read_witness :
  (wt_http3_endpoint_on_request_headers
     (run_endpoint (endpoint_step waiting (RequestHeaders 0 blocked_section [])) (EncoderBytes <$> [one_insertion])) 0 blocked_section []).1.1
  <> Some (Ok (empty_message WT_HTTP3_HEADER_REQUEST)).
Proof.
  apply (only_first_headers_read waiting 0 blocked_section [] (endpoint_step waiting (RequestHeaders 0 blocked_section [])) []
           (Some (Fail WT_ERR_AGAIN None)) [one_insertion]).
  - exact waiting_inv.
  - by vm_compute.
  - done.
  - done.
Defined.

(** The blocked section waits, and is refused once what it waits for has arrived. *)
Example blocked_section_waits : (wt_http3_endpoint_on_request_headers waiting 0 blocked_section []).1.1 = Some (Fail WT_ERR_AGAIN None).
Proof. by vm_compute. Qed.

(** ** What the decoder stream acknowledges *)

(** The bytes the encoder is owed. *)
Definition owed_bytes (e : wt_http3_endpoint) (section_stream_id : Z) (acknowledge : bool) : list Z :=
  (if ep_acked_insert_count e <? ep_insert_count e
   then decoder_instruction_bytes (InsertCountIncrement (ep_insert_count e - ep_acked_insert_count e)) else []) ++
  (if acknowledge then decoder_instruction_bytes (SectionAcknowledgement section_stream_id) else []).

Definition write_acks (e : wt_http3_endpoint) (id : Z) (acknowledge : bool) (w : wt_writer) : wt_status * wt_writer :=
  let r := wt_http3_endpoint_write_qpack_decoder_acks e id acknowledge w in (r.1.1, r.2).

Definition all_acknowledged (e : wt_http3_endpoint) : wt_http3_endpoint :=
  set_decoder e (ep_table e) (ep_insert_count e) (Z.max (ep_acked_insert_count e) (ep_insert_count e)) (ep_capacity_set e).

Lemma all_acknowledged_id e : ep_insert_count e <= ep_acked_insert_count e -> all_acknowledged e = e.
Proof. intros H. destruct e; unfold all_acknowledged, set_decoder; cbn in *. by rewrite Z.max_l. Qed.

Section Acknowledgements.
Context (e : wt_http3_endpoint) (id : Z).
Context (Hset : ep_capacity_set e = true) (Ha : 0 <= ep_acked_insert_count e) (Hi : varint_ok (ep_insert_count e)) (Hid : varint_ok id).

Lemma section_ack_encodes : encodes (wt_qpack_decoder_stream_write_section_acknowledgement id) (decoder_instruction_bytes (SectionAcknowledgement id)).
Proof. by apply (encodes_decoder_instruction (SectionAcknowledgement id)). Qed.

Lemma increment_encodes : ep_acked_insert_count e < ep_insert_count e ->
  encodes (wt_qpack_decoder_stream_write_insert_count_increment (u64 (ep_insert_count e - ep_acked_insert_count e)))
          (decoder_instruction_bytes (InsertCountIncrement (ep_insert_count e - ep_acked_insert_count e))).
Proof.
  intros H. unfold varint_ok, WT_QUIC_VARINT_MAX in Hi. no_wrap. apply (encodes_decoder_instruction (InsertCountIncrement _)).
  unfold decoder_instruction_ok, varint_ok, WT_QUIC_VARINT_MAX. lia.
Qed.

Lemma acks_encode acknowledge : encodes (write_acks e id acknowledge) (owed_bytes e id acknowledge).
Proof.
  pose proof section_ack_encodes as Hs. pose proof increment_encodes as Hinc.
  unfold write_acks, wt_http3_endpoint_write_qpack_decoder_acks, owed_bytes. rewrite Hset. cbn [negb].
  destruct (Z.ltb_spec (ep_acked_insert_count e) (ep_insert_count e)) as [Hlt|Hge]; [|destruct acknowledge].
  - specialize (Hinc Hlt). intros w Hw Hov. pose proof (Hinc w Hw Hov) as H1.
    set (bs1 := decoder_instruction_bytes (InsertCountIncrement _)) in *.
    destruct (wt_qpack_decoder_stream_write_insert_count_increment _ w) as [st w1] eqn:E1.
    pose proof (zlen_nonneg bs1). set (bs2 := if acknowledge then _ else _) in *. pose proof (zlen_nonneg bs2). rewrite zlen_app.
    destruct (Z.leb_spec (zlen bs1) (writer_room w)) as [Hfit|Hfit]; [injection H1 as -> ->|destruct H1 as [H1 H2]; cbn in H1, H2; subst st; ztest; by split].
    destruct acknowledge; cbn [fst snd].
    + pose proof (encodes_seq _ _ _ _ Hinc Hs w Hw Hov) as Hseq. unfold or_limit in Hseq. rewrite E1 in Hseq. rewrite zlen_app in Hseq.
      subst bs2. by destruct (wt_qpack_decoder_stream_write_section_acknowledgement id _) as [st2 w2].
    + subst bs2. rewrite app_nil_r, zlen_nil, Z.add_0_r. by ztest.
  - intros w Hw Hov. specialize (Hs w Hw Hov). cbn [app fst snd].
    destruct (wt_qpack_decoder_stream_write_section_acknowledgement id w) as [st2 w2]. exact Hs.
  - intros w Hw Hov. cbn. rewrite zlen_nil. pose proof Hw as (Ho & _). unfold writer_room.
    destruct (Z.leb_spec 0 (w_cap w - w_offset w)); [|lia]. by rewrite writer_put_nil.
Qed.
End Acknowledgements.

(** What the endpoint owes the peer's encoder is written exactly: an Insert Count Increment of the insertions not yet acknowledged, when there are any, and the Section Acknowledgement that was asked for; afterwards nothing more is owed. *)
Lemma decoder_acknowledgements e id acknowledge w :
  ep_capacity_set e = true -> 0 <= ep_acked_insert_count e -> varint_ok (ep_insert_count e) -> varint_ok id ->
  writer_inv w -> w_overflow w = false -> w_copy w = true ->
  zlen (owed_bytes e id acknowledge) <= writer_room w ->
  let r := wt_http3_endpoint_write_qpack_decoder_acks e id acknowledge w in
  r.1.1 = WT_OK /\ writer_bytes r.2 = writer_bytes w ++ owed_bytes e id acknowledge /\
  r.1.2 = all_acknowledged e /\ owed_bytes r.1.2 id false = [].
Proof.
  intros Hset Ha Hi Hid Hw Hov Hcp Hroom r.
  destruct (encodes_bytes _ _ w (acks_encode e id Hset Ha Hi Hid acknowledge) Hw Hov Hcp Hroom) as [H1 H2].
  fold r in H1, H2. cbn [fst snd write_acks] in H1, H2. assert (He : r.1.2 = all_acknowledged e).
  { subst r. unfold wt_http3_endpoint_write_qpack_decoder_acks in *. rewrite Hset in *. cbn [negb] in *.
    destruct (Z.ltb_spec (ep_acked_insert_count e) (ep_insert_count e)).
    - unfold all_acknowledged. rewrite Z.max_r by lia.
      destruct (wt_qpack_decoder_stream_write_insert_count_increment _ w) as [[] w1]; try done.
      destruct acknowledge; [|by rewrite Hset]. destruct (wt_qpack_decoder_stream_write_section_acknowledgement id w1); by rewrite Hset.
    - rewrite all_acknowledged_id by lia. destruct acknowledge; [|done].
      by destruct (wt_qpack_decoder_stream_write_section_acknowledgement id w). }
  split_and!; [done|done|done|]. rewrite He. unfold owed_bytes, all_acknowledged. cbn [set_decoder ep_acked_insert_count ep_insert_count].
  by destruct (Z.ltb_spec (Z.max (ep_acked_insert_count e) (ep_insert_count e)) (ep_insert_count e)); [lia|].
Qed.

Lemma decoder_acknowledgements_witness :
  let e := endpoint_step waiting (EncoderBytes one_insertion) in
  let w := wt_writer_init (Some [0; 0; 0]) 3 in
  let r := wt_http3_endpoint_write_qpack_decoder_acks e 0 true w in
  r.1.1 = WT_OK /\ writer_bytes r.2 = writer_bytes w ++ owed_bytes e 0 true /\
  r.1.2 = all_acknowledged e /\ owed_bytes r.1.2 0 false = [].
Proof.
  apply (decoder_acknowledgements (endpoint_step waiting (EncoderBytes one_insertion)) 0 true (wt_writer_init (Some [0; 0; 0]) 3)).
  - by vm_compute.
  - by vm_compute.
  - by vm_compute.
  - by vm_compute.
  - by apply writer_init_inv.
  - done.
  - done.
  - by vm_compute.
Defined.
