(* ===== verification/Protocol.v ===== *)
(** * Application protocol negotiation: [src/webtransport/protocol.c]

    Tokens, the Structured Fields strings and lists that carry them, and the choice
    both endpoints compute.  A token is a view into the caller's bytes: here, the
    bytes.  The array of a list is the list up to its count. *)

From stdpp Require Import strings.
From S2P Require Export Http3Message.
#[local] Open Scope Z_scope.

Definition WT_WEBTRANSPORT_PROTOCOL_HEADER : string := "wt-protocol".
Definition WT_WEBTRANSPORT_PROTOCOL_MAX : Z := 16.
Definition WT_WEBTRANSPORT_PROTOCOL_TOKEN_MAX : Z := 64.

Definition quote : Z := 34.
Definition comma : Z := 44.
Definition backslash : Z := 92.

Definition token_byte (byte : Z) : bool :=
  negb ((byte <? 0x21) || (0x7e <? byte) || (byte =? quote) || (byte =? comma) || (byte =? backslash)).

Definition wt_webtransport_protocol_token_valid (token : list Z) : bool :=
  if (zlen token =? 0) || (WT_WEBTRANSPORT_PROTOCOL_TOKEN_MAX <? zlen token) then false
  else forallb token_byte token.

(** The outer loop of [wt_webtransport_protocol_validate], the inner one over what came [earlier]. *)
Fixpoint validate_tokens (earlier tokens : list (list Z)) : wt_status :=
  match tokens with
  | [] => WT_OK
  | token :: rest =>
      if negb (wt_webtransport_protocol_token_valid token) then WT_ERR_PROTOCOL
      else if existsb (fun other => same_bytes other token) earlier then WT_ERR_PROTOCOL
      else validate_tokens (earlier ++ [token]) rest
  end.

Definition wt_webtransport_protocol_validate (tokens : list (list Z)) : wt_status :=
  if WT_WEBTRANSPORT_PROTOCOL_MAX <? zlen tokens then WT_ERR_LIMIT else validate_tokens [] tokens.

(** ** Encoding *)

Definition wt_webtransport_protocol_encode_item (token : list Z) (w : wt_writer) : wt_status * wt_writer :=
  if negb (wt_webtransport_protocol_token_valid token) then (WT_ERR_PROTOCOL, w)
  else writer_status (wt_writer_u8 quote (wt_writer_bytes token (wt_writer_u8 quote w))).

Fixpoint encode_items (first : bool) (tokens : list (list Z)) (w : wt_writer) : wt_status * wt_writer :=
  match tokens with
  | [] => (WT_OK, w)
  | token :: rest =>
      match wt_webtransport_protocol_encode_item token (if first then w else wt_writer_bytes (literal ", ") w) with
      | (WT_OK, w) => encode_items false rest w
      | refused => refused
      end
  end.

Definition wt_webtransport_protocol_encode_list (tokens : list (list Z)) (w : wt_writer) : wt_status * wt_writer :=
  match wt_webtransport_protocol_validate tokens with
  | WT_OK => encode_items true tokens w
  | status => (status, w)
  end.

(** ** Decoding *)

Definition malformed {A} : outcome A := Fail WT_ERR_PROTOCOL None.

Definition wt_webtransport_protocol_decode_item (value : list Z) : outcome (list Z) :=
  let length := zlen value in
  if (length <? 2) || negb (byte_at value 0 =? quote) || negb (byte_at value (Z.to_nat (length - 1)) =? quote) then malformed
  else if WT_WEBTRANSPORT_PROTOCOL_TOKEN_MAX <? length - 2 then Fail WT_ERR_LIMIT None
  else
    let token := zslice 1 (length - 2) value in
    if existsb (Z.eqb backslash) token then malformed
    else if existsb (Z.eqb quote) token then malformed
    else if negb (wt_webtransport_protocol_token_valid token) then malformed
    else Ok token.

Definition is_blank (byte : Z) : bool := (byte =? 0x20) || (byte =? 0x09).

Fixpoint skip_blanks (v : list Z) : list Z :=
  match v with
  | byte :: rest => if is_blank byte then skip_blanks rest else v
  | [] => []
  end.

(** From after an opening quote to the closing one: what is between them, and the rest after it. *)
Fixpoint string_end (v : list Z) : option (list Z * list Z) :=
  match v with
  | [] => None
  | byte :: rest =>
      if byte =? quote then Some ([], rest)
      else if byte =? backslash then None
      else match string_end rest with Some (content, rest) => Some (byte :: content, rest) | None => None end
  end.

(** The loop of [wt_webtransport_protocol_decode_list]; [v] is the value from [position].
    Each turn reads two quotes at least; [None] is fuel run out. *)
Fixpoint decode_list_loop (fuel : nat) (v : list Z) (out : list (list Z)) : option (outcome (list (list Z))) :=
  match fuel with
  | O => None
  | S fuel =>
      match skip_blanks v with
      | [] => Some malformed
      | byte :: v =>
          if negb (byte =? quote) then Some malformed
          else
            match string_end v with
            | None => Some malformed
            | Some (content, rest) =>
                if WT_WEBTRANSPORT_PROTOCOL_MAX <=? zlen out then Some (Fail WT_ERR_LIMIT None)
                else if WT_WEBTRANSPORT_PROTOCOL_TOKEN_MAX + 2 <? zlen content + 2 then Some (Fail WT_ERR_LIMIT None)
                else
                  match wt_webtransport_protocol_decode_item (quote :: content ++ [quote]) with
                  | Fail st e => Some (Fail st e)
                  | Ok token =>
                      let out := out ++ [token] in
                      match skip_blanks rest with
                      | [] => Some (match wt_webtransport_protocol_validate out with
                                    | WT_OK => Ok out
                                    | st => Fail st None
                                    end)
                      | byte :: v => if negb (byte =? comma) then Some malformed else decode_list_loop fuel v out
                      end
                  end
            end
      end
  end.

Definition wt_webtransport_protocol_decode_list (value : list Z) : option (outcome (list (list Z))) :=
  decode_list_loop (S (length value)) value [].

(** ** Selection *)

Definition listed (token : list Z) (tokens : list (list Z)) : bool :=
  existsb (fun other => same_bytes token other) tokens.

Fixpoint wt_webtransport_protocol_select (requested supported : list (list Z)) : option (list Z) :=
  match requested with
  | [] => None
  | token :: rest => if listed token supported then Some token else wt_webtransport_protocol_select rest supported
  end.

(** A NULL among the strings is [None]. *)
Fixpoint list_from_loop (protocols : list (option (list Z))) (out : list (list Z)) : outcome (list (list Z)) :=
  match protocols with
  | [] => Ok out
  | None :: _ => Fail WT_ERR_INVALID_ARGUMENT None
  | Some p :: rest =>
      if negb (wt_webtransport_protocol_token_valid p) then Fail WT_ERR_PROTOCOL None
      else list_from_loop rest (out ++ [p])
  end.

Definition wt_webtransport_protocol_list_from_strings (protocols : list (option (list Z))) : outcome (list (list Z)) :=
  if WT_WEBTRANSPORT_PROTOCOL_MAX <? zlen protocols then Fail WT_ERR_LIMIT None else list_from_loop protocols [].

(** The local buffer's bytes do not matter: only what is written to it is read. *)
Definition wt_webtransport_protocol_write_field (token : list Z) (w : wt_writer) : wt_status * wt_writer :=
  let size := WT_WEBTRANSPORT_PROTOCOL_TOKEN_MAX + 2 in
  match wt_webtransport_protocol_encode_item token (wt_writer_init (Some (replicate (Z.to_nat size) 0)) size) with
  | (WT_OK, value) =>
      wt_qpack_field_line_encode
        (mk_line WT_QPACK_FIELD_LITERAL_LITERAL_NAME false 0 false (literal WT_WEBTRANSPORT_PROTOCOL_HEADER) (writer_bytes value) false 0) w
  | (status, _) => (status, w)
  end.

(** ** The grammar *)

Definition blanks (v : list Z) : Prop := Forall (fun byte => is_blank byte = true) v.

Definition quoted (token : list Z) : list Z := quote :: token ++ [quote].

(** The texts of a list of strings: items between commas, blanks around them. *)
Inductive list_text : list (list Z) -> list Z -> Prop :=
  | text_last token a b : blanks a -> blanks b -> list_text [token] (a ++ quoted token ++ b)
  | text_more token tokens a b v :
      blanks a -> blanks b -> list_text tokens v -> list_text (token :: tokens) (a ++ quoted token ++ b ++ comma :: v).

Definition tokens_ok (tokens : list (list Z)) : Prop :=
  zlen tokens <= WT_WEBTRANSPORT_PROTOCOL_MAX /\
  Forall (fun t => wt_webtransport_protocol_token_valid t = true) tokens /\ NoDup tokens.

(** ** Lemmas *)

Lemma listed_spec token tokens : listed token tokens = true <-> token ∈ tokens.
Proof.
  unfold listed. rewrite existsb_exists. setoid_rewrite same_bytes_true.
  setoid_rewrite <- list_elem_of_In. naive_solver.
Qed.

Lemma validate_tokens_spec tokens : forall earlier, NoDup earlier ->
  (validate_tokens earlier tokens = WT_OK /\ Forall (fun t => wt_webtransport_protocol_token_valid t = true) tokens /\ NoDup (earlier ++ tokens)) \/
  (validate_tokens earlier tokens = WT_ERR_PROTOCOL /\
   ~ (Forall (fun t => wt_webtransport_protocol_token_valid t = true) tokens /\ NoDup (earlier ++ tokens))).
Proof.
  induction tokens as [|t tokens IH]; intros earlier He; cbn [validate_tokens].
  { left. rewrite app_nil_r. by split_and!. }
  destruct (wt_webtransport_protocol_token_valid t) eqn:Hv; cbn [negb].
  2:{ right. split; [done|]. intros [H _]. apply Forall_cons in H as [H _]. congruence. }
  assert (Hl : existsb (fun other => same_bytes other t) earlier = true <-> t ∈ earlier).
  { rewrite existsb_exists. setoid_rewrite same_bytes_true. setoid_rewrite <- list_elem_of_In. naive_solver. }
  destruct (existsb _ earlier).
  - right. split; [done|]. intros [_ Hn]. apply NoDup_app in Hn as (_ & Hn & _). apply (Hn t); [by apply Hl|left].
  - assert (Hne : NoDup (earlier ++ [t])).
    { apply NoDup_app. split_and!; [done| |by apply NoDup_singleton]. intros x Hx ->%list_elem_of_singleton. by apply Hl in Hx. }
    destruct (IH _ Hne) as [(-> & Hf & Hn)|(-> & Hn)]; rewrite <- app_assoc in Hn; cbn in Hn.
    + left. split_and!; [done|by constructor|done].
    + right. split; [done|]. intros [Hf Hn2]. apply Hn. apply Forall_cons in Hf as [_ ?]. done.
Qed.

Lemma validate_spec tokens :
  (wt_webtransport_protocol_validate tokens = WT_OK /\ tokens_ok tokens) \/
  ((wt_webtransport_protocol_validate tokens = WT_ERR_LIMIT \/ wt_webtransport_protocol_validate tokens = WT_ERR_PROTOCOL) /\ ~ tokens_ok tokens).
Proof.
  unfold wt_webtransport_protocol_validate, tokens_ok.
  destruct (Z.ltb_spec WT_WEBTRANSPORT_PROTOCOL_MAX (zlen tokens)); [right; split; [by left|lia]|].
  destruct (validate_tokens_spec tokens [] (NoDup_nil_2)) as [(-> & Hf & Hn)|(-> & Hn)]; cbn in Hn.
  - left. split_and!; done || lia.
  - right. split; [by right|]. tauto.
Qed.

Lemma token_byte_spec c : token_byte c = true -> c <> quote /\ c <> backslash /\ c <> comma /\ is_blank c = false /\ 0x21 <= c <= 0x7e.
Proof. unfold token_byte, is_blank, quote, backslash, comma. lia. Qed.

Lemma token_valid_spec t : wt_webtransport_protocol_token_valid t = true ->
  1 <= zlen t <= WT_WEBTRANSPORT_PROTOCOL_TOKEN_MAX /\ Forall (fun c => token_byte c = true) t.
Proof.
  unfold wt_webtransport_protocol_token_valid. pose proof (zlen_nonneg t). destruct (_ || _) eqn:E; [done|].
  intros Hf. split; [lia|]. by apply forallb_Forall.
Qed.

Lemma token_valid_no t c : wt_webtransport_protocol_token_valid t = true -> (c = quote \/ c = backslash) -> existsb (Z.eqb c) t = false.
Proof.
  intros [_ Hf]%token_valid_spec Hc. apply not_true_iff_false. intros (x & Hin%list_elem_of_In & Hx%Z.eqb_eq)%existsb_exists. subst x.
  rewrite Forall_forall in Hf. specialize (Hf c Hin). apply token_byte_spec in Hf. naive_solver.
Qed.

Lemma decode_item_quoted t :
  wt_webtransport_protocol_decode_item (quoted t) =
    if WT_WEBTRANSPORT_PROTOCOL_TOKEN_MAX <? zlen t then Fail WT_ERR_LIMIT None
    else if wt_webtransport_protocol_token_valid t then Ok t else malformed.
Proof.
  unfold wt_webtransport_protocol_decode_item. assert (Hz : zlen (quoted t) = zlen t + 2)
    by (unfold quoted; rewrite zlen_cons, zlen_app, zlen_cons, zlen_nil; lia).
  pose proof (zlen_nonneg t). rewrite Hz. replace (zlen t + 2 - 2) with (zlen t) by lia.
  assert (H0 : byte_at (quoted t) 0 = quote) by done.
  assert (H1 : byte_at (quoted t) (Z.to_nat (zlen t + 2 - 1)) = quote).
  { unfold byte_at, quoted, zlen. replace (Z.to_nat (Z.of_nat (length t) + 2 - 1)) with (S (length t)) by lia.
    change (default 0 ((t ++ [quote]) !! length t) = quote). by rewrite list_lookup_middle. }
  rewrite H0, H1, Z.eqb_refl. rewrite (proj2 (Z.ltb_ge _ 2)) by lia. cbn [orb negb].
  assert (Hs : zslice 1 (zlen t) (quoted t) = t).
  { unfold quoted, zslice. change (quote :: t ++ [quote]) with ([quote] ++ t ++ [quote]). rewrite zdrop_app_exact by done. by apply ztake_app_exact. }
  rewrite Hs. destruct (_ <? _); [done|].
  destruct (wt_webtransport_protocol_token_valid t) eqn:Hv; [|by destruct (existsb (Z.eqb backslash) t), (existsb (Z.eqb quote) t)].
  rewrite !(token_valid_no t) by auto. done.
Qed.

Lemma decode_item_exact v t :
  wt_webtransport_protocol_decode_item v = Ok t <-> v = quoted t /\ wt_webtransport_protocol_token_valid t = true.
Proof.
  split.
  - intros H. assert (Hv : exists t', v = quoted t').
    { unfold wt_webtransport_protocol_decode_item in H. destruct (_ || _) eqn:E; [done|].
      apply orb_false_iff in E as [[E1 E2%negb_false_iff%Z.eqb_eq]%orb_false_iff E3%negb_false_iff%Z.eqb_eq]. apply Z.ltb_ge in E1.
      destruct v as [|x v]; [rewrite zlen_nil in E1; lia|]. change (byte_at (x :: v) 0) with x in E2. subst x.
      destruct v as [|y v _] using rev_ind; [rewrite zlen_cons, zlen_nil in E1; lia|].
      exists v. unfold quoted. do 2 f_equal.
      replace (Z.to_nat (zlen (quote :: v ++ [y]) - 1)) with (S (length v)) in E3 by (rewrite zlen_cons, zlen_app, zlen_cons, zlen_nil; unfold zlen; lia).
      change (default 0 ((v ++ [y]) !! length v) = quote) in E3. rewrite list_lookup_middle in E3 by done. by rewrite <- E3. }
    destruct Hv as [t' ->]. rewrite decode_item_quoted in H. destruct (_ <? _); [done|].
    destruct (wt_webtransport_protocol_token_valid t') eqn:Hv; [|done]. by injection H as ->.
  - intros [-> Hv]. rewrite decode_item_quoted, Hv. apply token_valid_spec in Hv as [Hz _]. by rewrite (proj2 (Z.ltb_ge _ _)) by lia.
Qed.

Lemma skip_blanks_spec v : exists a, blanks a /\ v = a ++ skip_blanks v /\
  match skip_blanks v with [] => True | c :: _ => is_blank c = false end.
Proof.
  induction v as [|c v (a & Ha & Hv & Hc)]; [by exists []; split_and!; [constructor|..]|]. cbn [skip_blanks]. destruct (is_blank c) eqn:E.
  - exists (c :: a). split_and!; [by constructor|by cbn; rewrite <- Hv|done].
  - exists []. split_and!; [constructor|done|done].
Qed.

Lemma skip_blanks_app a v : blanks a -> skip_blanks (a ++ v) = skip_blanks v.
Proof. induction 1 as [|c a Hc Ha IH]; [done|]. cbn. by rewrite Hc. Qed.

Lemma string_end_spec v : match string_end v with
  | Some (content, rest) => v = content ++ quote :: rest
  | None => True end.
Proof.
  induction v as [|c v IH]; cbn [string_end]; [done|]. destruct (Z.eqb_spec c quote) as [->|]; [done|].
  destruct (c =? backslash); [done|]. destruct (string_end v) as [[content rest]|]; [|done]. by rewrite IH.
Qed.

Lemma string_end_token t rest : Forall (fun c => token_byte c = true) t -> string_end (t ++ quote :: rest) = Some (t, rest).
Proof.
  induction 1 as [|c t Hc Ht IH]; [done|]. apply token_byte_spec in Hc as (H1 & H2 & _). cbn [app string_end].
  rewrite (proj2 (Z.eqb_neq c quote) H1), (proj2 (Z.eqb_neq c backslash) H2). by rewrite IH.
Qed.

Lemma list_text_nonempty tokens v : list_text tokens v -> tokens <> [].
Proof. by destruct 1. Qed.

Lemma quote_not_blank : is_blank quote = false. Proof. done. Qed.
Lemma comma_not_blank : is_blank comma = false. Proof. done. Qed.

(** The front of a text of the grammar, as the loop reads it. *)
Lemma text_front tokens v :
  list_text tokens v -> Forall (fun t => wt_webtransport_protocol_token_valid t = true) tokens ->
  exists token tokens' rest, tokens = token :: tokens' /\ skip_blanks v = quote :: token ++ quote :: rest /\
    string_end (token ++ quote :: rest) = Some (token, rest) /\
    match skip_blanks rest with [] => tokens' = [] | c :: v2 => c = comma /\ list_text tokens' v2 end.
Proof.
  assert (Hq : forall a t rest, blanks a -> skip_blanks (a ++ quoted t ++ rest) = quote :: t ++ quote :: rest).
  { intros a t rest Ha. rewrite skip_blanks_app by done. unfold quoted. cbn [app skip_blanks]. rewrite quote_not_blank. by rewrite <- app_assoc. }
  intros H Hval. destruct H as [token a b Ha Hb|token tokens a b v Ha Hb Ht]; apply Forall_cons in Hval as [Hval _];
    apply token_valid_spec in Hval as [_ Hbytes].
  - exists token, [], b. split_and!; [done|by apply Hq|by apply string_end_token|].
    rewrite <- (app_nil_r b). by rewrite skip_blanks_app.
  - exists token, tokens, (b ++ comma :: v). split_and!; [done|by apply Hq|by apply string_end_token|].
    rewrite skip_blanks_app by done. cbn [skip_blanks]. by rewrite comma_not_blank.
Qed.

Lemma text_build v content rest :
  skip_blanks v = quote :: content ++ quote :: rest ->
  (skip_blanks rest = [] -> list_text [content] v) /\
  (forall tokens v2, skip_blanks rest = comma :: v2 -> list_text tokens v2 -> list_text (content :: tokens) v).
Proof.
  intros Hv. destruct (skip_blanks_spec v) as (a & Ha & Ea & _). destruct (skip_blanks_spec rest) as (b & Hb & Eb & _).
  rewrite Hv in Ea. split; [intros Hr|intros tokens v2 Hr Ht]; rewrite Hr in Eb; rewrite Ea, Eb.
  - rewrite app_nil_r. replace (a ++ quote :: content ++ quote :: b) with (a ++ quoted content ++ b); [by constructor|].
    unfold quoted. cbn. by rewrite <- app_assoc.
  - replace (a ++ quote :: content ++ quote :: b ++ comma :: v2) with (a ++ quoted content ++ b ++ comma :: v2); [by constructor|].
    unfold quoted. cbn. by rewrite <- app_assoc.
Qed.

Lemma skip_blanks_length v : (length (skip_blanks v) <= length v)%nat.
Proof. induction v as [|c v IH]; cbn; [done|]. destruct (is_blank c); cbn; lia. Qed.

(** The verdict on the rest [v] of a list whose first items are [out]. *)
Definition list_verdict (v : list Z) (out : list (list Z)) (o : outcome (list (list Z))) : Prop :=
  (forall l, o = Ok l <-> exists tokens, l = out ++ tokens /\ list_text tokens v /\ tokens_ok l) /\
  match o with Ok _ => True | Fail st e => (st = WT_ERR_PROTOCOL \/ st = WT_ERR_LIMIT) /\ e = None end.

Lemma list_refused v out st :
  (st = WT_ERR_PROTOCOL \/ st = WT_ERR_LIMIT) ->
  (forall tokens, list_text tokens v -> tokens_ok (out ++ tokens) -> False) -> list_verdict v out (Fail st None).
Proof. intros Hst H. split; [|done]. intros l. split; [done|]. intros (tokens & -> & Ht & Hok). by destruct (H tokens). Qed.

(** The loop reads every text of the grammar and nothing else. *)
Lemma decode_list_loop_exact fuel : forall v out, (length v < fuel)%nat ->
  exists o, decode_list_loop fuel v out = Some o /\ list_verdict v out o.
Proof.
  induction fuel as [|fuel IH]; intros v out Hf; [lia|]. cbn [decode_list_loop].
  assert (Hno : forall st, (st = WT_ERR_PROTOCOL \/ st = WT_ERR_LIMIT) ->
    (forall token tokens' rest, skip_blanks v = quote :: token ++ quote :: rest -> string_end (token ++ quote :: rest) = Some (token, rest) ->
       match skip_blanks rest with [] => tokens' = [] | c :: v2 => c = comma /\ list_text tokens' v2 end ->
       tokens_ok (out ++ token :: tokens') -> False) ->
    exists o, Some (Fail st None) = Some o /\ list_verdict v out o).
  { intros st Hst H. eexists. split; [done|]. apply list_refused; [done|]. intros tokens Ht Hok.
    destruct (text_front tokens v Ht) as (token & tokens' & rest & -> & ? & ? & ?); [|by eapply H].
    destruct Hok as (_ & Hval & _). by apply Forall_app in Hval as [_ ?]. }
  assert (Hlen := skip_blanks_length v).
  destruct (skip_blanks v) as [|c v1] eqn:Ev; [apply Hno; [by left|by intros]|].
  destruct (Z.eqb_spec c quote) as [->|Hc]; cbn [negb]; [|apply Hno; [by left|by intros ? ? ? [= -> _]]].
  pose proof (string_end_spec v1) as Hse. destruct (string_end v1) as [[content rest]|] eqn:Es;
    [|apply Hno; [by left|]; intros token tokens' rest [= ->] Hs _ _; congruence]. subst v1.
  assert (Hsame : forall token rest', quote :: content ++ quote :: rest = quote :: token ++ quote :: rest' ->
            string_end (token ++ quote :: rest') = Some (token, rest') -> token = content /\ rest' = rest).
  { intros token rest' [= <-] Hs. rewrite Es in Hs. by injection Hs as <- <-. }
  destruct (Z.leb_spec WT_WEBTRANSPORT_PROTOCOL_MAX (zlen out)) as [Hmax|Hmax].
  { apply Hno; [by right|]. intros token tokens' rest' _ _ _ (Hz & _). rewrite zlen_app, zlen_cons in Hz. pose proof (zlen_nonneg tokens'). lia. }
  destruct (Z.ltb_spec (WT_WEBTRANSPORT_PROTOCOL_TOKEN_MAX + 2) (zlen content + 2)) as [Hlong|Hlong].
  { apply Hno; [by right|]. intros token tokens' rest' He Hs _ (_ & Hval & _). destruct (Hsame _ _ He Hs) as [-> ->].
    apply Forall_app in Hval as [_ [Hv _]%Forall_cons]. apply token_valid_spec in Hv as [? _]. lia. }
  change (quote :: content ++ [quote]) with (quoted content). rewrite decode_item_quoted. rewrite (proj2 (Z.ltb_ge _ (zlen content))) by lia.
  destruct (wt_webtransport_protocol_token_valid content) eqn:Hval.
  2:{ apply Hno; [by left|]. intros token tokens' rest' He Hs _ (_ & Hv & _). destruct (Hsame _ _ He Hs) as [-> ->].
      apply Forall_app in Hv as [_ [Hv _]%Forall_cons]. congruence. }
  destruct (text_build v content rest Ev) as [Hb1 Hb2]. assert (Hlen2 := skip_blanks_length rest).
  destruct (skip_blanks rest) as [|c v2] eqn:Er.
  - eexists. split; [done|]. destruct (validate_spec (out ++ [content])) as [(Hok & Ht)|(Hbad & Ht)].
    + rewrite Hok. split; [|done]. intros l. split.
      * intros [= <-]. exists [content]. auto.
      * intros (tokens & -> & Htext & Hl). destruct (text_front tokens v Htext) as (token & tokens' & rest' & -> & He & Hs & Hr);
          [by destruct Hl as (_ & [_ ?]%Forall_app & _)|].
        rewrite Ev in He. destruct (Hsame _ _ He Hs) as [-> ->]. rewrite Er in Hr. by subst tokens'.
    + assert (Hv2 : list_verdict v out (Fail (wt_webtransport_protocol_validate (out ++ [content])) None)).
      { apply list_refused; [tauto|]. intros tokens Htext Hl.
        destruct (text_front tokens v Htext) as (token & tokens' & rest' & -> & He & Hs & Hr); [by destruct Hl as (_ & [_ ?]%Forall_app & _)|].
        rewrite Ev in He. destruct (Hsame _ _ He Hs) as [-> ->]. rewrite Er in Hr. by subst tokens'. }
      destruct Hbad as [Hbad|Hbad]; by rewrite Hbad in *.
  - destruct (Z.eqb_spec c comma) as [->|Hcc]; cbn [negb].
    2:{ apply Hno; [by left|]. intros token tokens' rest' He Hs Hr _. destruct (Hsame _ _ He Hs) as [-> ->]. rewrite Er in Hr. by destruct Hr. }
    destruct (IH v2 (out ++ [content])) as (o & -> & Hv1 & Hv3).
    { cbn [length] in *. rewrite length_app in Hlen. cbn [length] in Hlen. lia. }
    exists o. split; [done|]. split; [|done]. intros l. rewrite Hv1. split.
    + intros (tokens & -> & Ht & Hl). exists (content :: tokens). rewrite <- app_assoc in *. split_and!; [done|by apply (Hb2 tokens v2)|done].
    + intros (tokens & -> & Ht & Hl). destruct (text_front tokens v Ht) as (token & tokens' & rest' & -> & He & Hs & Hr);
        [by destruct Hl as (_ & [_ ?]%Forall_app & _)|].
      rewrite Ev in He. destruct (Hsame _ _ He Hs) as [-> ->]. rewrite Er in Hr. destruct Hr as [_ Hr].
      exists tokens'. rewrite <- app_assoc. cbn [app]. auto.
Qed.

(** ** What the encoder writes *)

Fixpoint items_text (first : bool) (tokens : list (list Z)) : list Z :=
  match tokens with
  | [] => []
  | t :: rest => (if first then [] else literal ", ") ++ quoted t ++ items_text false rest
  end.

Lemma text_leading_blank tokens v : list_text tokens v -> list_text tokens (0x20 :: v).
Proof.
  destruct 1 as [t a b Ha Hb|t ts a b v Ha Hb Ht].
  - apply (text_last t (0x20 :: a) b); [by constructor|done].
  - apply (text_more t ts (0x20 :: a) b v); [by constructor|done..].
Qed.

Lemma items_text_grammar t tokens : list_text (t :: tokens) (items_text true (t :: tokens)).
Proof.
  revert t. induction tokens as [|t2 tokens IH]; intros t; cbn [items_text app].
  - rewrite app_nil_r. rewrite <- (app_nil_r (quoted t)). apply (text_last t [] []); constructor.
  - apply (text_more t (t2 :: tokens) [] [] (0x20 :: quoted t2 ++ items_text false tokens)); [constructor..|].
    apply text_leading_blank. exact (IH t2).
Qed.

Lemma encodes_item t : wt_webtransport_protocol_token_valid t = true -> encodes (wt_webtransport_protocol_encode_item t) (quoted t).
Proof.
  intros Hv. apply encodes_ext with (fun w => writer_status (wt_writer_u8 quote (wt_writer_bytes t (wt_writer_u8 quote w)))).
  { intros w. unfold wt_webtransport_protocol_encode_item. by rewrite Hv. }
  apply encodes_status.
  apply (appends_seq (wt_writer_u8 quote) (fun w => wt_writer_u8 quote (wt_writer_bytes t w)) [quote]); [apply appends_u8|].
  apply (appends_seq (wt_writer_bytes t) (wt_writer_u8 quote) t); [apply appends_bytes|apply appends_u8].
Qed.

Lemma encodes_sep_item (first : bool) t : wt_webtransport_protocol_token_valid t = true ->
  encodes (fun w => wt_webtransport_protocol_encode_item t (if first then w else wt_writer_bytes (literal ", ") w))
          ((if first then [] else literal ", ") ++ quoted t).
Proof.
  intros Hv. destruct first; [by apply encodes_item|].
  apply encodes_ext with (fun w => writer_status (wt_writer_u8 quote (wt_writer_bytes t (wt_writer_u8 quote (wt_writer_bytes (literal ", ") w))))).
  { intros w. unfold wt_webtransport_protocol_encode_item. by rewrite Hv. }
  apply encodes_status.
  apply (appends_seq (wt_writer_bytes (literal ", ")) (fun w => wt_writer_u8 quote (wt_writer_bytes t (wt_writer_u8 quote w)))); [apply appends_bytes|].
  apply (appends_seq (wt_writer_u8 quote) (fun w => wt_writer_u8 quote (wt_writer_bytes t w)) [quote]); [apply appends_u8|].
  apply (appends_seq (wt_writer_bytes t) (wt_writer_u8 quote) t); [apply appends_bytes|apply appends_u8].
Qed.

Lemma encodes_items tokens : forall first,
  Forall (fun t => wt_webtransport_protocol_token_valid t = true) tokens -> encodes (encode_items first tokens) (items_text first tokens).
Proof.
  induction tokens as [|t tokens IH]; intros first Hv.
  - intros w Hi Ho. cbn. rewrite zlen_nil. assert (0 <= writer_room w) by (destruct Hi; unfold writer_room; lia). ztest. by rewrite writer_put_nil.
  - apply Forall_cons in Hv as [Ht Hv]. cbn [items_text]. rewrite app_assoc.
    exact (encodes_then _ _ _ _ (encodes_sep_item first t Ht) (IH false Hv)).
Qed.

Lemma encodes_list tokens : tokens_ok tokens -> encodes (wt_webtransport_protocol_encode_list tokens) (items_text true tokens).
Proof.
  intros Hok. apply encodes_ext with (encode_items true tokens); [|apply encodes_items, Hok].
  intros w. unfold wt_webtransport_protocol_encode_list. by destruct (validate_spec tokens) as [[-> _]|[_ ?]].
Qed.

Lemma decode_list_text tokens : tokens <> [] -> tokens_ok tokens ->
  wt_webtransport_protocol_decode_list (items_text true tokens) = Some (Ok tokens).
Proof.
  intros Hne Hok. destruct (decode_list_loop_exact (S (length (items_text true tokens))) (items_text true tokens) []) as (o & Ho & Hv & _); [lia|].
  unfold wt_webtransport_protocol_decode_list. rewrite Ho. f_equal. apply Hv. exists tokens. split_and!; [done| |done].
  destruct tokens as [|t tokens]; [done|]. apply items_text_grammar.
Qed.

(** ** Selection *)

Lemma select_spec requested supported :
  match wt_webtransport_protocol_select requested supported with
  | Some t => t ∈ supported /\ exists before after, requested = before ++ t :: after /\ Forall (fun x => x ∉ supported) before
  | None => Forall (fun x => x ∉ supported) requested
  end.
Proof.
  induction requested as [|t requested IH]; cbn; [constructor|]. destruct (listed t supported) eqn:E.
  - split; [by apply listed_spec|]. by exists [], requested.
  - assert (Hn : t ∉ supported) by (rewrite <- listed_spec; congruence). destruct (wt_webtransport_protocol_select requested supported).
    + destruct IH as (? & before & after & -> & ?). split; [done|]. exists (t :: before), after. split; [done|by constructor].
    + by constructor.
Qed.

(** The field line the response carries. *)
Definition field_line (token : list Z) : wt_qpack_field_line := set_line WT_WEBTRANSPORT_PROTOCOL_HEADER (quoted token).

Lemma write_field_line token w : wt_webtransport_protocol_token_valid token = true ->
  wt_webtransport_protocol_write_field token w = wt_qpack_field_line_encode (field_line token) w.
Proof.
  intros Hv. unfold wt_webtransport_protocol_write_field. pose proof (token_valid_spec _ Hv) as [Hz _].
  set (buf := replicate _ 0). assert (Hb : zlen buf = WT_WEBTRANSPORT_PROTOCOL_TOKEN_MAX + 2) by done. rewrite <- Hb.
  assert (Hq : zlen (quoted token) = zlen token + 2) by (unfold quoted; rewrite zlen_cons, zlen_app, zlen_cons, zlen_nil; lia).
  destruct (encodes_bytes _ _ (wt_writer_init (Some buf) (zlen buf)) (encodes_item token Hv)) as [H1 H2];
    [by apply writer_init_inv|done|done|unfold writer_room; cbn [wt_writer_init w_cap w_offset]; lia|].
  destruct (wt_webtransport_protocol_encode_item token _) as [st value]; cbn [fst snd] in *. subst st. by rewrite H2.
Qed.

(** ** Theorems *)

(** C36. The parser of the list of sub-protocols, a loop over positions, always ends and
    accepts a field value exactly when it is a list of quoted tokens separated by commas and
    optional blanks, of at most 16 valid tokens of at most 64 bytes with none repeated; it
    then returns those tokens in order, and every other value is a refusal. *)
Theorem protocol_list_exact value :
  exists o, wt_webtransport_protocol_decode_list value = Some o /\
  (forall tokens, o = Ok tokens <-> list_text tokens value /\ tokens_ok tokens) /\
  match o with Ok _ => True | Fail st e => (st = WT_ERR_PROTOCOL \/ st = WT_ERR_LIMIT) /\ e = None end.
Proof.
  destruct (decode_list_loop_exact (S (length value)) value []) as (o & Ho & Hv & He); [lia|]. exists o. split_and!; [done| |done].
  intros tokens. rewrite Hv. cbn. naive_solver.
Qed.
