(* ===== verification/SessionRequest.v ===== *)
(** * The request that opens a session: [src/webtransport/session_request.c]

    What an endpoint advertises, the decision on a decoded request, and the
    application protocol the two ends agree on.  The message is one whose values
    have been read: a NULL is [None]. *)

From stdpp Require Import strings.
From S2P Require Export Http3Settings Protocol.
#[local] Open Scope Z_scope.

Definition WT_WEBTRANSPORT_PROTOCOL_TOKEN : string := "webtransport-h3".
Definition WT_WEBTRANSPORT_PROTOCOL_TOKEN_LEGACY : string := "webtransport".

Inductive wt_webtransport_upgrade_token :=
  | WT_WEBTRANSPORT_UPGRADE_TOKEN_DRAFT16
  | WT_WEBTRANSPORT_UPGRADE_TOKEN_LEGACY.

Definition wt_webtransport_upgrade_token_value (token : wt_webtransport_upgrade_token) : string :=
  match token with
  | WT_WEBTRANSPORT_UPGRADE_TOKEN_LEGACY => WT_WEBTRANSPORT_PROTOCOL_TOKEN_LEGACY
  | WT_WEBTRANSPORT_UPGRADE_TOKEN_DRAFT16 => WT_WEBTRANSPORT_PROTOCOL_TOKEN
  end.

Definition WT_HTTP3_SETTING_WT_ENABLED : Z := 0x2c7cf000.
Definition WT_HTTP3_SETTING_WT_MAX_SESSIONS : Z := 0xc671706a.
Definition WT_HTTP3_SETTING_WT_ENABLE_DEPRECATED : Z := 0x2b603742.
Definition WT_HTTP3_SETTING_WT_MAX_SESSIONS_DEPRECATED : Z := 0x2b603743.
Definition WT_HTTP3_SETTING_WT_INITIAL_MAX_DATA : Z := 0x2b61.
Definition WT_HTTP3_SETTING_WT_INITIAL_MAX_STREAMS_UNI : Z := 0x2b64.
Definition WT_HTTP3_SETTING_WT_INITIAL_MAX_STREAMS_BIDI : Z := 0x2b65.

Definition WT_WEBTRANSPORT_REJECT_NOT_FOUND : Z := 404.
Definition WT_WEBTRANSPORT_REJECT_NOT_IMPLEMENTED : Z := 501.
Definition WT_WEBTRANSPORT_REJECT_PROTOCOL_REQUIRED : Z := 400.

(** ** Comparisons *)

Definition token_is (bytes text : list Z) : bool := same_bytes bytes text.

Definition ascii_lower (byte : Z) : Z := if (0x41 <=? byte) && (byte <=? 0x5a) then byte + 32 else byte.

Definition scheme_is_https (bytes : list Z) : bool :=
  if negb (zlen bytes =? 5) then false
  else forallb (fun i => ascii_lower (byte_at bytes i) =? byte_at (literal "https") i) (seq 0 5).

(** [for (i = from; i > 0U; i--) if (bytes[i - 1U] == c)]. *)
Fixpoint last_byte (from : nat) (c : Z) (bytes : list Z) : option nat :=
  match from with
  | O => None
  | S i => if byte_at bytes i =? c then Some i else last_byte i c bytes
  end.

Definition host_length (bytes : list Z) : nat :=
  let bracket := last_byte (length bytes) 93 bytes in
  match last_byte (length bytes) 58 bytes with
  | None => length bytes
  | Some i =>
      match bracket with
      | None => i
      | Some b => if Nat.ltb b i then i else length bytes
      end
  end.

Definition authority_matches (bytes : list Z) (expected : option (list Z)) : bool :=
  match expected with
  | None | Some [] => true
  | Some expected => token_is (take (host_length bytes) bytes) expected
  end.

(** ** Settings *)

(** A run of [status = wt_http3_settings_set(...); if (status != WT_OK) return status;]. *)
Fixpoint settings_set_each (pairs : list (Z * Z)) (s : wt_http3_settings) : wt_status * wt_http3_settings :=
  match pairs with
  | [] => (WT_OK, s)
  | (identifier, value) :: pairs =>
      match wt_http3_settings_set s identifier value with
      | (WT_OK, s) => settings_set_each pairs s
      | refused => refused
      end
  end.

Definition advertised (is_server : bool) : list (Z * Z) :=
  [(WT_HTTP3_SETTING_H3_DATAGRAM, 1); (WT_HTTP3_SETTING_WT_ENABLED, 1);
   (WT_HTTP3_SETTING_WT_INITIAL_MAX_DATA, 100000); (WT_HTTP3_SETTING_WT_INITIAL_MAX_STREAMS_BIDI, 8);
   (WT_HTTP3_SETTING_WT_INITIAL_MAX_STREAMS_UNI, 8); (WT_HTTP3_SETTING_WT_MAX_SESSIONS, 1);
   (WT_HTTP3_SETTING_WT_ENABLE_DEPRECATED, 1)] ++
  (if is_server then [(WT_HTTP3_SETTING_WT_MAX_SESSIONS_DEPRECATED, 1); (WT_HTTP3_SETTING_ENABLE_CONNECT_PROTOCOL, 1)] else []).

Definition wt_webtransport_settings_apply (s : wt_http3_settings) (is_server : bool) : wt_status * wt_http3_settings :=
  settings_set_each (advertised is_server) s.

(** ** The decision *)

Inductive wt_webtransport_request_outcome :=
  | WT_WEBTRANSPORT_REQUEST_ACCEPT
  | WT_WEBTRANSPORT_REQUEST_NOT_WEBTRANSPORT
  | WT_WEBTRANSPORT_REQUEST_REJECT.

#[export] Instance wt_webtransport_request_outcome_eq_dec : EqDecision wt_webtransport_request_outcome.
Proof. solve_decision. Defined.

Record wt_webtransport_request_policy := mk_policy {
  rp_authority : option (list Z);
  rp_path : option (list Z);
  rp_wt_enabled : bool }.

Record wt_webtransport_session_request := mk_session_request {
  sr_outcome : wt_webtransport_request_outcome;
  sr_authority : option (list Z);
  sr_path : option (list Z);
  sr_status : Z;
  sr_selected_protocol : option (list Z) }.

Definition decided (outcome : wt_webtransport_request_outcome) (status : Z) : wt_webtransport_session_request :=
  mk_session_request outcome None None status None.

Definition field_length (v : option (list Z)) : Z := zlen (default [] v).

Definition path_matches (path : list Z) (expected : option (list Z)) : bool :=
  match expected with
  | None | Some [] => true
  | Some expected => token_is path expected
  end.

(** The status of the C function is WT_OK on every path here. *)
Definition wt_webtransport_session_request_validate (m : wt_http3_message (list Z)) (policy : wt_webtransport_request_policy) :
    wt_webtransport_session_request :=
  let protocol := default [] (mg_protocol m) in
  if negb (bool_decide (mg_type m = WT_HTTP3_HEADER_REQUEST)) || negb (token_is (default [] (mg_method m)) (literal "CONNECT"))
  then decided WT_WEBTRANSPORT_REQUEST_NOT_WEBTRANSPORT WT_WEBTRANSPORT_REJECT_NOT_FOUND
  else if (zlen protocol =? 0) || negb (token_is protocol (literal WT_WEBTRANSPORT_PROTOCOL_TOKEN) ||
                                        token_is protocol (literal WT_WEBTRANSPORT_PROTOCOL_TOKEN_LEGACY))
  then decided WT_WEBTRANSPORT_REQUEST_NOT_WEBTRANSPORT WT_WEBTRANSPORT_REJECT_NOT_FOUND
  else if (field_length (mg_scheme m) =? 0) || (field_length (mg_authority m) =? 0) || (field_length (mg_path m) =? 0)
  then decided WT_WEBTRANSPORT_REQUEST_REJECT WT_WEBTRANSPORT_REJECT_NOT_FOUND
  else if negb (scheme_is_https (default [] (mg_scheme m)))
  then decided WT_WEBTRANSPORT_REQUEST_REJECT WT_WEBTRANSPORT_REJECT_NOT_FOUND
  else if negb (rp_wt_enabled policy)
  then decided WT_WEBTRANSPORT_REQUEST_REJECT WT_WEBTRANSPORT_REJECT_NOT_IMPLEMENTED
  else if negb (authority_matches (default [] (mg_authority m)) (rp_authority policy)) ||
          negb (path_matches (default [] (mg_path m)) (rp_path policy))
  then decided WT_WEBTRANSPORT_REQUEST_REJECT WT_WEBTRANSPORT_REJECT_NOT_FOUND
  else mk_session_request WT_WEBTRANSPORT_REQUEST_ACCEPT (mg_authority m) (mg_path m) WT_WEBTRANSPORT_REJECT_NOT_FOUND None.

(** ** The application protocol *)

Definition wt_webtransport_session_request_negotiate (decision : wt_webtransport_session_request)
    (offered supported : list (list Z)) (require_selection : bool) : wt_status * wt_webtransport_session_request :=
  match wt_webtransport_protocol_validate offered with
  | WT_OK =>
      match wt_webtransport_protocol_validate supported with
      | WT_OK =>
          if negb (bool_decide (sr_outcome decision = WT_WEBTRANSPORT_REQUEST_ACCEPT)) then (WT_OK, decision)
          else
            match wt_webtransport_protocol_select offered supported with
            | Some selected =>
                (WT_OK, mk_session_request (sr_outcome decision) (sr_authority decision) (sr_path decision) (sr_status decision) (Some selected))
            | None =>
                (WT_OK, if require_selection
                        then mk_session_request WT_WEBTRANSPORT_REQUEST_REJECT (sr_authority decision) (sr_path decision)
                               WT_WEBTRANSPORT_REJECT_PROTOCOL_REQUIRED None
                        else decision)
            end
      | st => (st, decision)
      end
  | st => (st, decision)
  end.

Definition wt_webtransport_session_response_selected_protocol (value : list Z) (offered : list (list Z)) : outcome (list Z) :=
  match wt_webtransport_protocol_decode_item value with
  | Ok selected => if listed selected offered then Ok selected else Fail WT_ERR_PROTOCOL None
  | Fail st e => Fail st e
  end.

(** ** What the decision says *)

(** A trailing port: a colon with neither a colon nor a closing bracket after it. *)
Definition ends_in_port (authority host : list Z) : Prop :=
  exists port, authority = host ++ 58 :: port /\ 58 ∉ port /\ 93 ∉ port.

(** The host an authority names: what is left of its port, or all of it. *)
Definition names_host (authority host : list Z) : Prop :=
  ends_in_port authority host \/ (authority = host /\ forall h, ~ ends_in_port authority h).

Definition serves_authority (policy : wt_webtransport_request_policy) (authority : list Z) : Prop :=
  match rp_authority policy with None | Some [] => True | Some host => names_host authority host end.

Definition serves_path (policy : wt_webtransport_request_policy) (path : list Z) : Prop :=
  match rp_path policy with None | Some [] => True | Some p => path = p end.

Definition is_webtransport (m : wt_http3_message (list Z)) : Prop :=
  mg_type m = WT_HTTP3_HEADER_REQUEST /\ mg_method m = Some (literal "CONNECT") /\
  (mg_protocol m = Some (literal "webtransport-h3") \/ mg_protocol m = Some (literal "webtransport")).

Definition targets_https (m : wt_http3_message (list Z)) : Prop :=
  present (mg_authority m) /\ present (mg_path m) /\
  ascii_lower <$> default [] (mg_scheme m) = literal "https".

(** ** Lemmas *)

Lemma last_byte_spec c bytes : forall from, (from <= length bytes)%nat ->
  match last_byte from c bytes with
  | Some i => (i < from)%nat /\ bytes !! i = Some c /\ forall j, (i < j < from)%nat -> bytes !! j <> Some c
  | None => forall j, (j < from)%nat -> bytes !! j <> Some c
  end.
Proof.
  induction from as [|i IH]; intros Hf; cbn [last_byte]; [lia|].
  destruct (lookup_lt_is_Some_2 bytes i) as [x Hx]; [lia|]. unfold byte_at. rewrite Hx. change (default 0 (Some x)) with x.
  destruct (Z.eqb_spec x c) as [->|Hne]; [split_and!; [lia|done|lia]|].
  specialize (IH ltac:(lia)). destruct (last_byte i c bytes) as [k|].
  - destruct IH as (? & ? & Hj). split_and!; [lia|done|]. intros j Hjr. destruct (decide (j = i)) as [->|]; [congruence|]. apply Hj. lia.
  - intros j Hj. destruct (decide (j = i)) as [->|]; [congruence|]. apply IH. lia.
Qed.

Lemma ends_in_port_at bytes host :
  ends_in_port bytes host <->
  exists i, bytes !! i = Some 58 /\ host = take i bytes /\ forall j, (i < j)%nat -> bytes !! j <> Some 58 /\ bytes !! j <> Some 93.
Proof.
  split.
  - intros (port & -> & Hc & Hb). exists (length host). split_and!; [by rewrite list_lookup_middle|by rewrite take_app_length|].
    intros j Hj. rewrite lookup_app_r by lia. destruct (j - length host)%nat as [|k] eqn:E; [lia|]. cbn.
    split; intros H%list_elem_of_lookup_2; contradiction.
  - intros (i & Hi & -> & Hj). exists (drop (S i) bytes). split_and!.
    + by rewrite take_drop_middle.
    + intros (k & Hk)%list_elem_of_lookup. rewrite lookup_drop in Hk. destruct (Hj (S i + k)%nat ltac:(lia)). congruence.
    + intros (k & Hk)%list_elem_of_lookup. rewrite lookup_drop in Hk. destruct (Hj (S i + k)%nat ltac:(lia)). congruence.
Qed.

Lemma host_length_spec bytes : forall host, names_host bytes host <-> host = take (host_length bytes) bytes.
Proof.
  assert (Hall : forall i c, bytes !! i = Some c -> (i < length bytes)%nat) by (intros i c; apply lookup_lt_Some).
  assert (Hport : forall i, bytes !! i = Some 58 -> (forall j, (i < j)%nat -> bytes !! j <> Some 58 /\ bytes !! j <> Some 93) ->
            forall host, names_host bytes host <-> host = take i bytes).
  { intros i Hi Hj host. split.
    - intros [H|[_ H]]; [|by destruct (H (take i bytes)); apply ends_in_port_at; eauto].
      apply ends_in_port_at in H as (k & Hk & -> & Hkj). assert (k = i) as ->; [|done].
      destruct (decide (k = i)); [done|]. destruct (decide (k < i)%nat); [by destruct (proj1 (Hkj i ltac:(lia)))|].
      by destruct (proj1 (Hj k ltac:(lia))).
    - intros ->. left. apply ends_in_port_at. eauto. }
  assert (Hnone : (forall h, ~ ends_in_port bytes h) -> forall host, names_host bytes host <-> host = take (length bytes) bytes).
  { intros H host. rewrite take_ge by lia. unfold names_host. split; [intros [Hp|[-> _]]; [by apply H in Hp|done]|]. intros ->. by right. }
  unfold host_length. pose proof (last_byte_spec 58 bytes (length bytes) ltac:(lia)) as Hc.
  pose proof (last_byte_spec 93 bytes (length bytes) ltac:(lia)) as Hb.
  destruct (last_byte (length bytes) 58 bytes) as [i|].
  2:{ apply Hnone. intros h (k & Hk & _)%ends_in_port_at. by apply (Hc k); [eauto|]. }
  destruct Hc as (Hi & Hic & Hj). assert (Hafter : forall j, (i < j)%nat -> bytes !! j <> Some 58) by (intros j ? E; by apply (Hj j); [eauto|]).
  destruct (last_byte (length bytes) 93 bytes) as [b|].
  2:{ apply Hport; [done|]. intros j Hij. split; [by apply Hafter|]. intros E. by apply (Hb j); [eauto|]. }
  destruct Hb as (Hbl & Hbb & Hbj). destruct (Nat.ltb_spec b i) as [Hlt|Hge].
  - apply Hport; [done|]. intros j Hij. split; [by apply Hafter|]. intros E. by apply (Hbj j); [eauto with lia|].
  - apply Hnone. intros h (k & Hk & _ & Hkj)%ends_in_port_at. destruct (decide (b = i)); [congruence|].
    destruct (decide (k < b)%nat); [by destruct (proj2 (Hkj b ltac:(lia)))|]. destruct (decide (k = i)) as [->|]; [lia|].
    by apply (Hafter k); [lia|].
Qed.

Lemma authority_matches_spec policy bytes :
  authority_matches bytes (rp_authority policy) = true <-> serves_authority policy bytes.
Proof.
  unfold authority_matches, serves_authority. destruct (rp_authority policy) as [[|c host]|]; [done| |done].
  rewrite host_length_spec. unfold token_is. rewrite same_bytes_true. naive_solver.
Qed.

Lemma path_matches_spec policy path : path_matches path (rp_path policy) = true <-> serves_path policy path.
Proof. unfold path_matches, serves_path, token_is. destruct (rp_path policy) as [[|c p]|]; rewrite ?same_bytes_true; done. Qed.

Lemma scheme_is_https_spec bytes : scheme_is_https bytes = true <-> ascii_lower <$> bytes = literal "https".
Proof.
  unfold scheme_is_https, zlen. change (literal "https") with [104; 116; 116; 112; 115].
  destruct bytes as [|a [|b [|c [|d [|e [|f bytes]]]]]]; try done; [|].
  - cbn. change (Z.of_nat 5 =? 5) with true. cbn [negb]. rewrite !andb_true_iff, !Z.eqb_eq. split; [by intros (-> & -> & -> & -> & -> & _)|]. intros H. by simplify_eq.
  - destruct (Z.eqb_spec (Z.of_nat (length (a :: b :: c :: d :: e :: f :: bytes))) 5) as [E|E]; [cbn in E; lia|]. done.
Qed.

Lemma is_webtransport_spec m :
  bool_decide (mg_type m = WT_HTTP3_HEADER_REQUEST) && token_is (default [] (mg_method m)) (literal "CONNECT") &&
  (negb (zlen (default [] (mg_protocol m)) =? 0) &&
   (token_is (default [] (mg_protocol m)) (literal WT_WEBTRANSPORT_PROTOCOL_TOKEN) ||
    token_is (default [] (mg_protocol m)) (literal WT_WEBTRANSPORT_PROTOCOL_TOKEN_LEGACY))) = true <-> is_webtransport m.
Proof.
  unfold is_webtransport, token_is. rewrite !andb_true_iff, orb_true_iff, !same_bytes_true, bool_decide_eq_true, negb_true_iff, Z.eqb_neq.
  change (literal WT_WEBTRANSPORT_PROTOCOL_TOKEN) with (literal "webtransport-h3"). change (literal WT_WEBTRANSPORT_PROTOCOL_TOKEN_LEGACY) with (literal "webtransport").
  assert (Hd : forall (v : option (list Z)) s, s <> [] -> default [] v = s <-> v = Some s) by (intros [v|] s Hs; cbn; naive_solver).
  rewrite !Hd by done. split; [tauto|]. intros (? & ? & Hp). split_and!; try done.
  by destruct Hp as [-> | ->].
Qed.

Lemma present_length v : negb (field_length v =? 0) = true <-> present v.
Proof.
  unfold field_length, present. rewrite negb_true_iff, Z.eqb_neq. split; [intros H E; apply H; by rewrite E|]. intros H Hz. apply H. by apply zlen_0_nil.
Qed.

(** ** Theorems *)


Lemma response_selected_exact value offered t :
  wt_webtransport_session_response_selected_protocol value offered = Ok t <->
  value = quoted t /\ wt_webtransport_protocol_token_valid t = true /\ t ∈ offered.
Proof.
  unfold wt_webtransport_session_response_selected_protocol. pose proof (decode_item_exact value) as Hd.
  destruct (wt_webtransport_protocol_decode_item value) as [t'|st e].
  - destruct (proj1 (Hd t') eq_refl) as [-> Hv]. pose proof (listed_spec t' offered) as Hl.
    assert (Hq : quoted t' = quoted t -> t' = t) by (unfold quoted; intros [= H]; by apply app_inj_tail in H as [? _]).
    destruct (listed t' offered); split; try done.
    + intros [= <-]. by split_and!; [..|apply Hl].
    + intros (H & _ & _). by rewrite (Hq H).
    + intros (H & _ & Hin). rewrite <- (Hq H) in Hin. by apply Hl in Hin.
  - split; [done|]. intros (-> & Hv & _). by assert (Fail st e = Ok t) by by apply Hd.
Qed.

(** C38. Both ends of the sub-protocol negotiation agree: the list a client writes is read
    by the server as the same list; the server selects the first token offered that it
    supports, and the field it writes for it is accepted by the client as that token; when
    none is supported the request is refused with 400 if a selection is required and left
    alone otherwise. *)
Theorem both_ends_agree decision offered supported required w :
  sr_outcome decision = WT_WEBTRANSPORT_REQUEST_ACCEPT -> sr_selected_protocol decision = None ->
  tokens_ok offered -> offered <> [] -> tokens_ok supported ->
  writer_inv w -> w_overflow w = false -> w_copy w = true -> zlen (items_text true offered) <= writer_room w ->
  let field := wt_webtransport_protocol_encode_list offered w in
  (field.1 = WT_OK /\ writer_bytes field.2 = writer_bytes w ++ items_text true offered /\
   wt_webtransport_protocol_decode_list (items_text true offered) = Some (Ok offered)) /\
  let answer := wt_webtransport_session_request_negotiate decision offered supported required in
  answer.1 = WT_OK /\
  match sr_selected_protocol answer.2 with
  | Some t =>
      sr_outcome answer.2 = WT_WEBTRANSPORT_REQUEST_ACCEPT /\ t ∈ supported /\
      (exists before after, offered = before ++ t :: after /\ Forall (fun x => x ∉ supported) before) /\
      (forall w, wt_webtransport_protocol_write_field t w = wt_qpack_field_line_encode (field_line t) w) /\
      wt_webtransport_session_response_selected_protocol (ln_value (field_line t)) offered = Ok t
  | None =>
      Forall (fun x => x ∉ supported) offered /\
      if required then sr_outcome answer.2 = WT_WEBTRANSPORT_REQUEST_REJECT /\ sr_status answer.2 = WT_WEBTRANSPORT_REJECT_PROTOCOL_REQUIRED
      else answer.2 = decision
  end.
Proof.
  intros Hacc Hnone Hoff Hne Hsup Hw Hov Hcp Hroom field. split.
  { destruct (encodes_bytes _ _ w (encodes_list offered Hoff) Hw Hov Hcp Hroom). split_and!; [done|done|]. by apply decode_list_text. }
  intros answer. subst answer. unfold wt_webtransport_session_request_negotiate.
  destruct (validate_spec offered) as [[-> _]|[_ ?]]; [|done]. destruct (validate_spec supported) as [[-> _]|[_ ?]]; [|done].
  rewrite bool_decide_true by done. cbn [negb]. pose proof (select_spec offered supported) as Hsel.
  destruct (wt_webtransport_protocol_select offered supported) as [t|]; cbn [fst snd sr_selected_protocol sr_outcome].
  - destruct Hsel as (Hin & before & after & Ho & Hb). split; [done|].
    assert (Hv : wt_webtransport_protocol_token_valid t = true /\ t ∈ offered).
    { destruct Hoff as (_ & Hf & _). rewrite Forall_forall in Hf. assert (t ∈ offered) by (rewrite Ho; apply elem_of_app; right; left). auto. }
    split_and!; [done|done|by exists before, after|by intros; apply write_field_line; apply Hv|].
    apply response_selected_exact. by split_and!; [|apply Hv..].
  - split; [done|]. destruct required; cbn [sr_selected_protocol]; [by split_and!|]. by rewrite Hnone.
Qed.

Definition accepted : wt_webtransport_session_request :=
  wt_webtransport_session_request_validate session_request (mk_policy None None true).

Lemma both_ends_agree_witness :
  let offered := [literal "chat.v2"; literal "chat.v1"] in
  let supported := [literal "echo"; literal "chat.v1"] in
  let w := wt_writer_init (Some (replicate 32 0)) 32 in
  let field := wt_webtransport_protocol_encode_list offered w in
  (field.1 = WT_OK /\ writer_bytes field.2 = writer_bytes w ++ items_text true offered /\
   wt_webtransport_protocol_decode_list (items_text true offered) = Some (Ok offered)) /\
  let answer := wt_webtransport_session_request_negotiate accepted offered supported true in
  answer.1 = WT_OK /\
  match sr_selected_protocol answer.2 with
  | Some t =>
      sr_outcome answer.2 = WT_WEBTRANSPORT_REQUEST_ACCEPT /\ t ∈ supported /\
      (exists before after, offered = before ++ t :: after /\ Forall (fun x => x ∉ supported) before) /\
      (forall w, wt_webtransport_protocol_write_field t w = wt_qpack_field_line_encode (field_line t) w) /\
      wt_webtransport_session_response_selected_protocol (ln_value (field_line t)) offered = Ok t
  | None =>
      Forall (fun x => x ∉ supported) offered /\
      if true then sr_outcome answer.2 = WT_WEBTRANSPORT_REQUEST_REJECT /\ sr_status answer.2 = WT_WEBTRANSPORT_REJECT_PROTOCOL_REQUIRED
      else answer.2 = accepted
  end.
Proof.
  apply (both_ends_agree accepted [literal "chat.v2"; literal "chat.v1"] [literal "echo"; literal "chat.v1"] true (wt_writer_init (Some (replicate 32 0)) 32)).
  - by vm_compute.
  - by vm_compute.
  - split_and!; [by vm_compute| |by apply (bool_decide_unpack _); vm_compute]. by repeat constructor.
  - done.
  - split_and!; [by vm_compute| |by apply (bool_decide_unpack _); vm_compute]. by repeat constructor.
  - by apply (writer_init_inv (replicate 32 0)).
  - done.
  - done.
  - by vm_compute.
Defined.

(** The choice the witness makes. *)
Example chosen : sr_selected_protocol
  (wt_webtransport_session_request_negotiate accepted [literal "chat.v2"; literal "chat.v1"] [literal "echo"; literal "chat.v1"] true).2 =
  Some (literal "chat.v1").
Proof. by vm_compute. Qed.

(** ** What an endpoint advertises *)

Lemma settings_set_each_spec pairs : forall s,
  Forall (fun e => wt_http3_settings_set [] e.1 e.2 = (WT_OK, [e])) pairs -> NoDup (s.*1 ++ pairs.*1) ->
  (length s + length pairs <= WT_HTTP3_SETTINGS_MAX_ENTRIES)%nat ->
  settings_set_each pairs s = (WT_OK, s ++ pairs).
Proof.
  induction pairs as [|[id v] pairs IH]; intros s Hok Hn Hl; cbn [settings_set_each]; [by rewrite app_nil_r|].
  apply Forall_cons in Hok as [H Hok]. cbn [fst snd] in H.
  assert (Hset : wt_http3_settings_set s id v = (WT_OK, s ++ [(id, v)])).
  { unfold wt_http3_settings_set in *. destruct (_ || _); [done|]. destruct (wt_http3_setting_is_reserved_http2 id); [done|].
    destruct (_ && _); [done|]. destruct (_ && _); [done|]. destruct (existsb (fun e => e.1 =? id) s) eqn:E.
    - apply settings_present in E. cbn [fmap list_fmap fst] in Hn. apply NoDup_app in Hn as (_ & Hn & _). destruct (Hn id E). by left.
    - cbn [length] in Hl. by rewrite (proj2 (Nat.leb_gt _ _)) by lia. }
  rewrite Hset, IH; [by rewrite <- app_assoc|done| |rewrite length_app; cbn [length] in *; lia].
  rewrite fmap_app, <- app_assoc. exact Hn.
Qed.

(** Applied to settings that name none of its identifiers and leave room, it adds exactly what it advertises. *)
Lemma settings_apply_spec s is_server :
  NoDup (s.*1 ++ (advertised is_server).*1) -> (length s + length (advertised is_server) <= WT_HTTP3_SETTINGS_MAX_ENTRIES)%nat ->
  wt_webtransport_settings_apply s is_server = (WT_OK, s ++ advertised is_server).
Proof. intros Hn Hl. apply settings_set_each_spec; [|done|done]. destruct is_server; repeat constructor. Qed.
