(* ===== verification/Driver.v ===== *)
(** * The HTTP/3 driver: [src/http3/driver.c], with [driver.h]

    Its tables, what changes them, and the prefixes of this endpoint's own control
    and QPACK streams.  The endpoint the driver points to is a field of it; what is
    on the other side of its pointers - the connection it may be bound to, the
    transport it sends through, the layer above its sink - is a state [S] that
    holds the driver, behind the interface [Host].  Tables are the arrays up to
    their counts; [dr_frames] is the whole array, because the code keeps a pointer
    into it across calls that move its entries. *)

From S2P Require Import Prelude Core Writer Connection Update.
From S2P Require Export Http3Endpoint SessionRequest.

Definition WT_HTTP3_DRIVER_PREFIX_MAX : Z := 16.
Definition WT_HTTP3_DRIVER_PENDING_MAX : Z := 8.
Definition WT_HTTP3_DRIVER_DATA_STREAMS_MAX : Z := 32.
Definition WT_HTTP3_DRIVER_CAPSULE_STREAMS_MAX : Z := 8.
Definition WT_HTTP3_DRIVER_FRAME_HEADER_MAX : Z := 16.
Definition WT_HTTP3_DRIVER_FRAMES_MAX : nat := 8.
Definition WT_HTTP3_DRIVER_SCRATCH : Z := 1024.
Definition WT_HTTP3_NO_ERROR : Z := 0x0100.
Definition WT_WEBTRANSPORT_ERROR_SESSION_GONE : Z := 0x170d7b68.

(** A remembered WebTransport stream; the session is the one its prefix named. *)
Record wt_http3_driver_data_stream := mk_data_stream {
  ds_stream_id : Z;
  ds_prefix_length : Z;
  ds_session_id : option Z }.

(** An opening stream whose prefix is incomplete; [pe_bytes] is [bytes[0 .. length)]. *)
Record wt_http3_driver_pending := mk_pending {
  pe_stream_id : Z;
  pe_bytes : list Z }.

Record wt_http3_driver_capsule_stream := mk_capsule_stream {
  cp_stream_id : Z;
  cp_headers_pending : bool }.

(** A stream part way through a frame; [fs_header] is [header[0 .. header_length)]. *)
Record wt_http3_driver_frame_state := mk_frame_state {
  fs_stream_id : Z;
  fs_header : list Z;
  fs_in_frame : bool;
  fs_type : Z;
  fs_payload_length : Z;
  fs_payload_received : Z }.

(** [dr_request] is the retained request: its stream and its length in the scratch.
    [section], which every message is measured into before it is read, is left out. *)
Record wt_http3_driver := mk_driver {
  dr_endpoint : wt_http3_endpoint;
  dr_pending : list wt_http3_driver_pending;
  dr_frames : list wt_http3_driver_frame_state;
  dr_frame_count : nat;
  dr_scratch : list Z;
  dr_session_id : option Z;
  dr_upgrade_token : wt_webtransport_upgrade_token;
  dr_request : option (Z * Z);
  dr_data_streams : list wt_http3_driver_data_stream;
  dr_capsule_streams : list wt_http3_driver_capsule_stream;
  dr_last_error : Z;
  dr_bound : bool;
  dr_session_ended : bool }.

#[export] Instance eta_frame_state : Eta wt_http3_driver_frame_state := fun f =>
  mk_frame_state (fs_stream_id f) (fs_header f) (fs_in_frame f) (fs_type f) (fs_payload_length f) (fs_payload_received f).
#[export] Instance eta_driver : Eta wt_http3_driver := fun d =>
  mk_driver (dr_endpoint d) (dr_pending d) (dr_frames d) (dr_frame_count d) (dr_scratch d) (dr_session_id d) (dr_upgrade_token d)
    (dr_request d) (dr_data_streams d) (dr_capsule_streams d) (dr_last_error d) (dr_bound d) (dr_session_ended d).
#[export] Instance eta_capsule_stream : Eta wt_http3_driver_capsule_stream := fun f =>
  mk_capsule_stream (cp_stream_id f) (cp_headers_pending f).

Definition zeroed_frame_state : wt_http3_driver_frame_state := mk_frame_state 0 [] false 0 0 0.

Definition wt_http3_driver_init (endpoint : wt_http3_endpoint) : wt_http3_driver :=
  mk_driver endpoint [] (replicate WT_HTTP3_DRIVER_FRAMES_MAX zeroed_frame_state) 0 (replicate (Z.to_nat WT_HTTP3_DRIVER_SCRATCH) 0)
    None WT_WEBTRANSPORT_UPGRADE_TOKEN_DRAFT16 None [] [] WT_HTTP3_NO_ERROR false false.

(** ** The tables *)

Definition remember_data_stream (stream_id our_prefix_length : Z) (session_id : option Z) (d : wt_http3_driver)
    : wt_status * wt_http3_driver :=
  if WT_HTTP3_DRIVER_DATA_STREAMS_MAX <=? zlen (dr_data_streams d) then (WT_ERR_LIMIT, d)
  else (WT_OK, d <| dr_data_streams ::= (fun l => l ++ [mk_data_stream stream_id our_prefix_length session_id]) |>).

Definition wt_http3_driver_set_session_id (session_id : Z) (d : wt_http3_driver) : wt_http3_driver :=
  d <| dr_session_id := Some session_id |>.

Definition wt_http3_driver_set_upgrade_token (token : wt_webtransport_upgrade_token) (d : wt_http3_driver) : wt_http3_driver :=
  d <| dr_upgrade_token := token |>.

Definition wt_http3_driver_bind_connection (bound : bool) (d : wt_http3_driver) : wt_http3_driver := d <| dr_bound := bound |>.

Definition wt_http3_driver_pending_count (d : wt_http3_driver) : Z := zlen (dr_pending d).

Definition find_pending (stream_id : Z) (d : wt_http3_driver) : option wt_http3_driver_pending :=
  first_index (fun p => pe_stream_id p =? stream_id) (dr_pending d) ≫= (fun i => dr_pending d !! i).

Definition forget_pending (stream_id : Z) (d : wt_http3_driver) : wt_http3_driver :=
  match first_index (fun p => pe_stream_id p =? stream_id) (dr_pending d) with
  | Some i => d <| dr_pending ::= swap_remove i |>
  | None => d
  end.

(** The end of both prefix assemblies: the bytes wait for the rest. *)
Definition hold_pending (stream_id : Z) (bytes : list Z) (d : wt_http3_driver) : wt_status * wt_http3_driver :=
  match first_index (fun p => pe_stream_id p =? stream_id) (dr_pending d) with
  | Some i => (WT_OK, d <| dr_pending ::= <[i := mk_pending stream_id bytes]> |>)
  | None =>
      if WT_HTTP3_DRIVER_PENDING_MAX <=? zlen (dr_pending d) then (WT_ERR_LIMIT, d)
      else (WT_OK, d <| dr_pending ::= (fun l => l ++ [mk_pending stream_id bytes]) |>)
  end.

Definition find_data_stream (stream_id : Z) (d : wt_http3_driver) : option nat :=
  first_index (fun s => ds_stream_id s =? stream_id) (dr_data_streams d).

Definition wt_http3_driver_is_data_stream (stream_id : Z) (d : wt_http3_driver) : bool :=
  bool_decide (is_Some (find_data_stream stream_id d)).

Definition wt_http3_driver_data_stream_session_id (stream_id : Z) (d : wt_http3_driver) : outcome Z :=
  match find_data_stream stream_id d ≫= (fun i => dr_data_streams d !! i) with
  | None => Fail WT_ERR_CLOSED None
  | Some s => match ds_session_id s with None => Fail WT_ERR_STATE None | Some id => Ok id end
  end.

Definition forget_data_stream (index : nat) (d : wt_http3_driver) : wt_http3_driver := d <| dr_data_streams ::= swap_remove index |>.

Definition find_capsule_stream (stream_id : Z) (d : wt_http3_driver) : option nat :=
  first_index (fun s => cp_stream_id s =? stream_id) (dr_capsule_streams d).

Definition wt_http3_driver_mark_capsule_stream (stream_id : Z) (headers_pending : bool) (d : wt_http3_driver)
    : wt_status * wt_http3_driver :=
  match find_capsule_stream stream_id d with
  | Some _ => (WT_OK, d)
  | None =>
      if WT_HTTP3_DRIVER_CAPSULE_STREAMS_MAX <=? zlen (dr_capsule_streams d) then (WT_ERR_LIMIT, d)
      else (WT_OK, d <| dr_capsule_streams ::= (fun l => l ++ [mk_capsule_stream stream_id headers_pending]) |>)
  end.

(** The mark of a stream: whether its HEADERS frame is still to come. *)
Definition capsule_mark (stream_id : Z) (d : wt_http3_driver) : option bool :=
  cp_headers_pending <$> (find_capsule_stream stream_id d ≫= (fun i => dr_capsule_streams d !! i)).

Definition wt_http3_driver_is_capsule_stream (stream_id : Z) (d : wt_http3_driver) : bool :=
  match capsule_mark stream_id d with Some headers_pending => negb headers_pending | None => false end.

(** ** Frame states *)

(** The index is the code's pointer into the array. *)
Definition find_frame_state (stream_id : Z) (d : wt_http3_driver) : option nat :=
  first_index (fun f => fs_stream_id f =? stream_id) (take (dr_frame_count d) (dr_frames d)).

(** [frames[i] = frames[count - 1]; count--]: the entries of the array beyond the
    count keep what they held. *)
Definition release_frame_state (i : nat) (d : wt_http3_driver) : wt_http3_driver :=
  match dr_frames d !! (dr_frame_count d - 1)%nat with
  | Some f => d <| dr_frames ::= <[i := f]> |> <| dr_frame_count ::= Nat.pred |>
  | None => d   (* the count is at least 1 and at most 8 *)
  end.

(** Whether a frame was in progress. *)
Definition wt_http3_driver_forget_frame (stream_id : Z) (d : wt_http3_driver) : bool * wt_http3_driver :=
  match find_frame_state stream_id d with
  | Some i => (match dr_frames d !! i with Some f => fs_in_frame f | None => false end, release_frame_state i d)
  | None => (false, d)
  end.

Definition settle_capsule_stream (stream_id : Z) (d : wt_http3_driver) : wt_http3_driver :=
  match find_capsule_stream stream_id d with
  | Some i =>
      if match dr_capsule_streams d !! i with Some s => cp_headers_pending s | None => false end
      then (wt_http3_driver_forget_frame stream_id
              (d <| dr_capsule_streams ::= alter (fun s => s <| cp_headers_pending := false |>) i |>)).2
      else d
  | None => d
  end.

(** ** The other side of the driver's pointers

    [S] is the state of everything: the driver, the connection, the layer above.
    [open_stream], [send_stream] and [send_datagram] are the transport; the rest is
    what the driver asks of the connection it is bound to. *)
Class Host (S : Type) := {
  driver_of : S -> wt_http3_driver;
  put_driver : wt_http3_driver -> S -> S;
  open_stream : bool -> Z -> S -> outcome Z * S;
  send_stream : Z -> list Z -> bool -> Z -> S -> wt_status * S;
  send_datagram : list Z -> S -> wt_status * S;
  connection_role : S -> wt_quic_role;
  stream_of : Z -> S -> option wt_quic_stream;
  stream_send_offset : Z -> S -> outcome Z;
  reset_stream_at : Z -> Z -> Z -> Z -> S -> wt_status * S;
  stop_sending : Z -> Z -> Z -> S -> wt_status * S;
  refuse_application : Z -> Z -> S -> S }.

Class HostLaws (S : Type) `{Host S} := {
  driver_of_put d s : driver_of (put_driver d s) = d;
  put_driver_of s : put_driver (driver_of s) s = s;
  put_put d d' s : put_driver d (put_driver d' s) = put_driver d s }.

Section Host.
Context {S : Type} `{Host S}.
Implicit Types s : S.

Definition on_driver (f : wt_http3_driver -> wt_http3_driver) (s : S) : S := put_driver (f (driver_of s)) s.

(** A function of the driver that may refuse. *)
Definition with_driver (f : wt_http3_driver -> wt_status * wt_http3_driver) (s : S) : wt_status * S :=
  let r := f (driver_of s) in (r.1, put_driver r.2 s).

Definition from_this_end (s : S) (stream_id : Z) : bool :=
  eqb (wt_quic_stream_id_from_client stream_id) (bool_decide (connection_role s = WT_QUIC_ROLE_CLIENT)).

Definition has_send_half (s : S) (stream_id : Z) : bool := wt_quic_stream_id_is_bidirectional stream_id || from_this_end s stream_id.
Definition has_receive_half (s : S) (stream_id : Z) : bool :=
  wt_quic_stream_id_is_bidirectional stream_id || negb (from_this_end s stream_id).

(** What a reset may commit to: the prefix of this endpoint, as far as it was sent. *)
Definition reliable_size_of (s : S) (stream_id prefix_length : Z) : Z :=
  match stream_send_offset stream_id s with
  | Ok sent => if sent <? prefix_length then sent else prefix_length
  | Fail _ _ => prefix_length
  end.

Definition wt_http3_driver_reject_data_stream (stream_id error_code now : Z) (s : S) : wt_status * S :=
  if negb (dr_bound (driver_of s)) then (WT_ERR_STATE, s)
  else
    match find_data_stream stream_id (driver_of s) with
    | None => (WT_ERR_CLOSED, s)
    | Some index =>
        let prefix_length := default 0 (ds_prefix_length <$> dr_data_streams (driver_of s) !! index) in
        let r := if has_send_half s stream_id
                 then reset_stream_at stream_id error_code (reliable_size_of s stream_id prefix_length) now s
                 else (WT_OK, s) in
        let s := if has_receive_half r.2 stream_id then (stop_sending stream_id error_code now r.2).2 else r.2 in
        (r.1, on_driver (forget_data_stream index) s)
    end.

(** The send half of a stream has nothing left to abort. *)
Definition send_half_over (stream_id : Z) (s : S) : bool :=
  match stream_of stream_id s with Some st => send_finished_state (send_state (tx st)) | None => false end.

(** The turn of one remembered stream: what was refused, whether it was ended. *)
Definition end_session_stream (index : nat) (now : Z) (s : S) : wt_status * bool * S :=
  match dr_data_streams (driver_of s) !! index with
  | None => (WT_OK, false, s)
  | Some e =>
      let id := ds_stream_id e in
      let skip_reset := send_half_over id s in
      let r := if skip_reset || negb (has_send_half s id) then (WT_OK, s)
               else reset_stream_at id WT_WEBTRANSPORT_ERROR_SESSION_GONE (reliable_size_of s id (ds_prefix_length e)) now s in
      let s := if has_receive_half r.2 id then (stop_sending id WT_WEBTRANSPORT_ERROR_SESSION_GONE now r.2).2 else r.2 in
      (r.1, bool_decide (r.1 = WT_OK) && negb skip_reset,
       on_driver (fun d => d <| dr_data_streams ::= alter (fun e => mk_data_stream 0 0 (ds_session_id e)) index |>) s)
  end.

(** [for (index = 0; index < driver->data_stream_count; index++)]; the count is at
    most the size of the table, which is the fuel. *)
Fixpoint end_session_loop (fuel index : nat) (now : Z) (first_refusal : wt_status) (ended : Z) (s : S) : wt_status * Z * S :=
  match fuel with
  | O => (first_refusal, ended, s)
  | Datatypes.S fuel =>
      if Nat.leb (length (dr_data_streams (driver_of s))) index then (first_refusal, ended, s)
      else
        let r := end_session_stream index now s in
        end_session_loop fuel (Datatypes.S index) now
          (if bool_decide (first_refusal = WT_OK) then r.1.1 else first_refusal) (if r.1.2 then ended + 1 else ended) r.2
  end.

(** The status, how many streams were ended and the state. *)
Definition wt_http3_driver_end_session_streams (now : Z) (s : S) : wt_status * Z * S :=
  if negb (dr_bound (driver_of s)) then (WT_ERR_STATE, 0, s)
  else
    let s := on_driver (fun d => d <| dr_session_ended := true |>) s in
    let r := end_session_loop (Z.to_nat WT_HTTP3_DRIVER_DATA_STREAMS_MAX) 0 now WT_OK 0 s in
    (r.1, on_driver (fun d => d <| dr_data_streams := [] |>) r.2).
End Host.

(** ** This endpoint's control and QPACK streams *)

(** The bytes a call leaves in its scratch are the third component. *)
Definition wt_http3_driver_start_control (settings : wt_http3_settings) (scratch : list Z) (w : wt_writer) (d : wt_http3_driver)
    : wt_status * wt_writer * list Z * wt_http3_driver :=
  match wt_http3_endpoint_write_prefix (dr_endpoint d) WT_HTTP3_ENDPOINT_STREAM_CONTROL w with
  | (WT_OK, e, w) =>
      let d := d <| dr_endpoint := e |> in
      match wt_http3_settings_encode_payload settings (wt_writer_init (Some scratch) (zlen scratch)) with
      | (WT_OK, payload) =>
          if negb (wt_writer_ok payload) then (WT_ERR_LIMIT, w, w_data payload, d)
          else
            let r := wt_http3_frame_encode (mk_h3_frame WT_HTTP3_FRAME_SETTINGS (writer_bytes payload)) w in
            (r.1, r.2, w_data payload, d)
      | (st, payload) => (st, w, w_data payload, d)
      end
  | (st, e, w) => (st, w, scratch, d <| dr_endpoint := e |>)
  end.

Definition wt_http3_driver_start_qpack_stream (encoder : bool) (w : wt_writer) (d : wt_http3_driver) : wt_status * wt_writer * wt_http3_driver :=
  let r := wt_http3_endpoint_write_prefix (dr_endpoint d)
             (if encoder then WT_HTTP3_ENDPOINT_STREAM_QPACK_ENCODER else WT_HTTP3_ENDPOINT_STREAM_QPACK_DECODER) w in
  (r.1.1, r.2, d <| dr_endpoint := r.1.2 |>).
