(* ===== verification/DriverStream.v ===== *)
(** * Stream prefixes and frame boundaries: [src/http3/driver_stream.c], with
    [wt_http3_driver_classify_bidi_start] of [driver_send.c] *)

From S2P Require Import Prelude Core Cursor Varint Update.
From S2P Require Export Driver.

(** ** Prefixes *)

(** The width the first byte of a varint announces. *)
Definition prefix_needed (bytes : list Z) : Z := Z.shiftl 1 (Z.shiftr (byte_at bytes 0) 6).

Definition varint_of (bytes : list Z) : outcome Z * wt_cursor := wt_quic_varint_decode (wt_cursor_init (Some bytes) (zlen bytes)).

Definition uni_prefix_length (bytes : list Z) : Z :=
  let have := zlen bytes in
  if have =? 0 then 1
  else
    let type_width := prefix_needed bytes in
    if have <? type_width then type_width
    else
      match (varint_of (ztake type_width bytes)).1 with
      | Fail _ _ => type_width
      | Ok type =>
          if negb (type =? WT_WEBTRANSPORT_STREAM_UNI) then type_width
          else if have =? type_width then type_width + 1
          else type_width + prefix_needed (zdrop type_width bytes)
      end.

(** The bytes assembled and how many of [data] were taken.  Each turn but the last
    adds a byte, and there is room for sixteen. *)
Fixpoint assemble_prefix (fuel : nat) (prefix data : list Z) (taken : Z) : list Z * Z :=
  match fuel with
  | O => (prefix, taken)
  | S fuel =>
      let needed := uni_prefix_length prefix in
      if needed <=? zlen prefix then (prefix, taken)
      else
        let want := Z.min (needed - zlen prefix) (zlen data - taken) in
        let prefix := prefix ++ zslice taken want data in
        if want =? 0 then (prefix, taken) else assemble_prefix fuel prefix data (taken + want)
  end.

Definition prefix_fuel : nat := Z.to_nat WT_HTTP3_DRIVER_PREFIX_MAX + 1.

(** What one STREAM frame of an opening unidirectional stream comes to: the kind,
    the bytes behind the prefix and how many went to the prefix. *)
Definition uni_result : Type := wt_status * option Z * wt_http3_endpoint_stream_kind * list Z * Z * wt_http3_driver.

Definition uni_refused (st : wt_status) (code : option Z) (d : wt_http3_driver) : uni_result :=
  (st, code, WT_HTTP3_ENDPOINT_STREAM_UNKNOWN, [], 0, d).

(** The prefix is complete. *)
Definition classify_uni (stream_id : Z) (prefix payload : list Z) (taken : Z) (d : wt_http3_driver) : uni_result :=
  match varint_of prefix with
  | (Fail _ _, _) => uni_refused WT_ERR_TRUNCATED None d
  | (Ok type, c) =>
      let type_bytes := zlen prefix - wt_cursor_remaining c in
      let session :=
        if type =? WT_WEBTRANSPORT_STREAM_UNI then
          match (varint_of (zdrop type_bytes prefix)).1 with
          | Fail _ _ => Fail WT_ERR_TRUNCATED None
          | Ok session_id =>
              match dr_session_id d with
              | Some served => if negb (session_id =? served) then Fail WT_ERR_PROTOCOL (Some WT_HTTP3_ID_ERROR) else Ok (Some session_id)
              | None => Ok (Some session_id)
              end
          end
        else Ok None in
      match session with
      | Fail st code => uni_refused st code d
      | Ok session =>
          match wt_http3_endpoint_on_uni_stream (dr_endpoint d) stream_id prefix with
          | (WT_OK, code, _, kind, e) =>
              let d := d <| dr_endpoint := e |> in
              match session with
              | None => (WT_OK, code, kind, payload, taken, d)
              | Some session_id =>
                  match remember_data_stream stream_id 0 (Some session_id) d with
                  | (WT_OK, d) => (WT_OK, code, kind, payload, taken, d)
                  | (st, d) => uni_refused st code d
                  end
              end
          | (st, code, _, _, e) => uni_refused st code (d <| dr_endpoint := e |>)
          end
      end
  end.

Definition wt_http3_driver_on_uni_stream_data (stream_id offset : Z) (data : list Z) (d : wt_http3_driver) : uni_result :=
  let held := find_pending stream_id d in
  let have := match held with Some p => pe_bytes p | None => [] end in
  if negb (offset =? zlen have) then uni_refused WT_ERR_STATE None d
  else if zlen data =? 0 then uni_refused WT_OK None d
  else
    let r := assemble_prefix prefix_fuel have data 0 in
    if zlen r.1 <? uni_prefix_length r.1 then
      let h := hold_pending stream_id r.1 d in uni_refused h.1 None h.2
    else classify_uni stream_id r.1 (zdrop r.2 data) r.2 (match held with Some _ => forget_pending stream_id d | None => d end).

Definition wt_http3_driver_on_uni_stream_end (stream_id : Z) (d : wt_http3_driver) : wt_status * option Z * wt_http3_driver :=
  match find_pending stream_id d with
  | Some _ => (WT_OK, None, (wt_http3_driver_forget_frame stream_id (forget_pending stream_id d)).2)
  | None =>
      let r := wt_http3_endpoint_on_uni_stream_end (dr_endpoint d) stream_id in
      (r.1.1, r.1.2, (wt_http3_driver_forget_frame stream_id (d <| dr_endpoint := r.2 |>)).2)
  end.

(** [None] is [WT_HTTP3_BIDI_START_REQUEST]; otherwise the session and the bytes consumed. *)
Definition wt_http3_driver_classify_bidi_start (bytes : list Z) : outcome (option (Z * Z)) :=
  match varint_of bytes with
  | (Fail _ _, _) => Fail WT_ERR_TRUNCATED None
  | (Ok type, c) =>
      if negb (type =? WT_WEBTRANSPORT_STREAM_BIDI) then Ok None
      else
        match wt_quic_varint_decode c with
        | (Fail _ _, _) => Fail WT_ERR_TRUNCATED None
        | (Ok session_id, c) => Ok (Some (session_id, zlen bytes - wt_cursor_remaining c))
        end
  end.

(** ** Frames *)

(** What the driver delivers to; [None] is a NULL sink or a NULL callback. *)
Record wt_http3_driver_sink (S : Type) := mk_sink {
  on_frame_payload : option (Z -> Z -> list Z -> bool -> S -> wt_status * S);
  on_stream_data : option (Z -> list Z -> bool -> S -> wt_status * S);
  on_datagram : option (list Z -> S -> wt_status * S) }.
Arguments mk_sink {S}.
Arguments on_frame_payload {S}.
Arguments on_stream_data {S}.
Arguments on_datagram {S}.

Section Frames.
Context {S : Type} `{Host S} (sink : wt_http3_driver_sink S).
Implicit Types s : S.

(** A status, the HTTP/3 code of a refusal and the state. *)
Definition result : Type := wt_status * option Z * S.

Definition plain (r : wt_status * S) : result := (r.1, None, r.2).

Definition sink_stream_data (stream_id : Z) (data : list Z) (fin : bool) (s : S) : wt_status * S :=
  match on_stream_data sink with None => (WT_OK, s) | Some f => f stream_id data fin s end.
Definition sink_frame_payload (stream_id type : Z) (payload : list Z) (last : bool) (s : S) : wt_status * S :=
  match on_frame_payload sink with None => (WT_OK, s) | Some f => f stream_id type payload last s end.

(** A function of the endpoint. *)
Definition on_endpoint (f : wt_http3_endpoint -> ep_result) (s : S) : result :=
  let r := f (dr_endpoint (driver_of s)) in (r.1, on_driver (fun d => d <| dr_endpoint := r.2 |>) s).

Definition deliver_frame_payload (stream_id : Z) (is_control : bool) (type : Z) (payload : list Z) (last : bool) (s : S) : result :=
  let r := if is_control then on_endpoint (fun e => wt_http3_endpoint_on_control_payload e type payload last) s else (WT_OK, None, s) in
  if negb (bool_decide (r.1.1 = WT_OK)) then r
  else if wt_http3_driver_is_capsule_stream stream_id (driver_of r.2) then
    if negb (type =? WT_HTTP3_FRAME_DATA) then
      if wt_http3_frame_type_is_known type || wt_http3_frame_type_is_reserved type
      then (WT_ERR_PROTOCOL, Some WT_HTTP3_FRAME_UNEXPECTED, r.2)
      else (WT_OK, None, r.2)
    else plain (sink_stream_data stream_id payload false r.2)
  else plain (sink_frame_payload stream_id type payload last r.2).

(** [*state]: the entry of the array the pointer names, in the table or not. *)
Definition frame_at (i : nat) (s : S) : wt_http3_driver_frame_state := default zeroed_frame_state (dr_frames (driver_of s) !! i).
Definition set_frame (i : nat) (f : wt_http3_driver_frame_state -> wt_http3_driver_frame_state) : S -> S :=
  on_driver (fun d => d <| dr_frames ::= alter f i |>).

(** A frame header of two varints, and whether it is whole. *)
Definition parse_header (header : list Z) : option (Z * Z) :=
  match varint_of header with
  | (Fail _ _, _) => None
  | (Ok type, c) => match wt_quic_varint_decode c with (Fail _ _, _) => None | (Ok length, _) => Some (type, length) end
  end.

(** The inner loop, until the header is whole or the bytes are used up. *)
Fixpoint fill_header (i : nat) (is_control : bool) (max_frame_bytes : Z) (data : list Z) (s : S) : result * list Z :=
  match data with
  | [] => (WT_OK, None, s, [])
  | b :: rest =>
      if WT_HTTP3_DRIVER_FRAME_HEADER_MAX <=? zlen (fs_header (frame_at i s)) then (WT_OK, None, s, data)
      else
        let header := fs_header (frame_at i s) ++ [b] in
        let s := set_frame i (fun f => f <| fs_header := header |>) s in
        match parse_header header with
        | None => fill_header i is_control max_frame_bytes rest s
        | Some (type, length) =>
            if max_frame_bytes <? length
            then (WT_ERR_LIMIT, Some WT_HTTP3_EXCESSIVE_LOAD, set_frame i (fun f => f <| fs_header := [] |>) s, rest)
            else
              let s := set_frame i (fun f => mk_frame_state (fs_stream_id f) [] true type length 0) s in
              if is_control then
                let r := on_endpoint (fun e => wt_http3_endpoint_on_control_frame e type) s in
                if bool_decide (r.1.1 = WT_OK) then (r, rest)
                else (r.1, set_frame i (fun f => f <| fs_in_frame := false |>) r.2, rest)
              else (WT_OK, None, s, rest)
        end
  end.

(** The frame of the entry is over. *)
Definition frame_over (i : nat) (stream_id : Z) (s : S) : S :=
  let s := set_frame i (fun f => f <| fs_in_frame := false |>) s in
  if fs_type (frame_at i s) =? WT_HTTP3_FRAME_HEADERS then on_driver (settle_capsule_stream stream_id) s else s.

Definition payload_taken (i : nat) (n : Z) : S -> S := set_frame i (fun f => f <| fs_payload_received ::= (fun r => u64 (r + n)) |>).
Definition payload_left (i : nat) (s : S) : Z := u64 (fs_payload_length (frame_at i s) - fs_payload_received (frame_at i s)).

Definition on_ok_result (r : result) (k : S -> result) : result := if bool_decide (r.1.1 = WT_OK) then k r.2 else r.

(** Inside a frame: the payload of what has arrived; the second component is what
    is left of [data]. *)
Definition frame_payload_bytes (i : nat) (stream_id : Z) (is_control : bool) (data : list Z) (s : S) : result * list Z :=
  let remaining := payload_left i s in
  let take := Z.min (zlen data) remaining in
  let delivered :=
    if 0 <? take then
      on_ok_result (deliver_frame_payload stream_id is_control (fs_type (frame_at i s)) (ztake take data) (take =? remaining) s)
        (fun s => (WT_OK, None, payload_taken i take s))
    else (WT_OK, None, s) in
  (on_ok_result delivered (fun s =>
     let f := frame_at i s in
     if fs_payload_received f =? fs_payload_length f then
       on_ok_result (if fs_payload_length f =? 0 then deliver_frame_payload stream_id is_control (fs_type f) [] true s else (WT_OK, None, s))
         (fun s => (WT_OK, None, frame_over i stream_id s))
     else (WT_OK, None, s)),
   zdrop take data).

(** [while (position < length)].  Each turn uses up a byte, but one that
    only reports again an empty frame the layer above refused before.  The branch of
    the code for payload bytes that arrived with the header is left out: the
    header is emptied when the frame begins. *)
Fixpoint frame_loop (fuel i : nat) (stream_id : Z) (is_control : bool) (max_frame_bytes : Z) (data : list Z) (s : S) : result :=
  match fuel, data with
  | O, _ | _, [] => (WT_OK, None, s)
  | Datatypes.S fuel, _ =>
      let h := if fs_in_frame (frame_at i s) then (WT_OK, None, s, data) else fill_header i is_control max_frame_bytes data s in
      on_ok_result h.1 (fun s =>
        if negb (fs_in_frame (frame_at i s)) then frame_loop fuel i stream_id is_control max_frame_bytes h.2 s
        else
          let p := frame_payload_bytes i stream_id is_control h.2 s in
          on_ok_result p.1 (frame_loop fuel i stream_id is_control max_frame_bytes p.2))
  end.

(** The entry of a stream, taken if it has none; [None] when the table is full. *)
Definition frame_entry (stream_id : Z) (s : S) : option (nat * S) :=
  match find_frame_state stream_id (driver_of s) with
  | Some i => Some (i, s)
  | None =>
      let i := dr_frame_count (driver_of s) in
      if Nat.leb WT_HTTP3_DRIVER_FRAMES_MAX i then None
      else Some (i, on_driver (fun d => d <| dr_frames ::= alter (fun f => mk_frame_state stream_id [] false (fs_type f) (fs_payload_length f) (fs_payload_received f)) i |>
                                          <| dr_frame_count ::= Datatypes.S |>) s)
  end.

(** The end of the stream. *)
Definition stream_finished (i : nat) (stream_id : Z) (s : S) : result :=
  let f := frame_at i s in
  let incomplete := fs_in_frame f || (0 <? zlen (fs_header f)) in
  let was_capsule := wt_http3_driver_is_capsule_stream stream_id (driver_of s) in
  let s := on_driver (fun d => (wt_http3_driver_forget_frame stream_id d).2) s in
  if incomplete then (WT_ERR_TRUNCATED, Some WT_HTTP3_FRAME_ERROR, s)
  else if was_capsule then plain (sink_stream_data stream_id [] true s)
  else (WT_OK, None, s).

Definition wt_http3_driver_on_stream_bytes (stream_id : Z) (data : list Z) (fin : bool) (max_frame_bytes : Z) (s : S) : result :=
  match frame_entry stream_id s with
  | None => (WT_ERR_LIMIT, None, s)
  | Some (i, s) =>
      let is_control := bool_decide (wt_http3_endpoint_stream_kind_of (dr_endpoint (driver_of s)) stream_id = WT_HTTP3_ENDPOINT_STREAM_CONTROL) in
      on_ok_result (frame_loop (2 * length data + 1) i stream_id is_control max_frame_bytes data s)
        (fun s => if fin then stream_finished i stream_id s else (WT_OK, None, s))
  end.
End Frames.
