(* ===== verification/DriverRoute.v ===== *)
(** * Routing a connection's frames: [src/http3/driver_route.c]

    A STREAM frame goes by what its stream is - a WebTransport stream whose prefix
    is settled, a request stream, an opening stream, a stream of HTTP/3's own - and
    a DATAGRAM to the layer above.  The diagnostic log is left out. *)

From S2P Require Import Prelude Core Frame Stream Update.
From S2P Require Export DriverStream.

Section Route.
Context {S : Type} `{Host S} (sink : wt_http3_driver_sink S).
Implicit Types s : S.

Definition stream_is_ours (e : wt_http3_endpoint) (stream_id : Z) : bool :=
  let from_client := wt_quic_stream_id_from_client stream_id in
  if bool_decide (ep_role e = WT_HTTP3_ROLE_CLIENT) then from_client else negb from_client.

(** A WebTransport stream whose prefix is whole: what follows the prefix goes to
    the layer above, in one piece or, when it did not all fit, in two. *)
Definition bidi_settled (stream_id session_id : Z) (rest beyond : list Z) (fin : bool) (s : S) : result (S := S) :=
  if match dr_session_id (driver_of s) with Some served => negb (session_id =? served) | None => false end
  then (WT_ERR_PROTOCOL, None, s)
  else
    plain (s <-! with_driver (remember_data_stream stream_id 0 (Some session_id)) s;;
           match on_stream_data sink with
           | None => (WT_OK, s)
           | Some deliver =>
               s <-! (if 0 <? zlen rest then deliver stream_id rest (if 0 <? zlen beyond then false else fin) s else (WT_OK, s));;
               if 0 <? zlen beyond then deliver stream_id beyond fin s else (WT_OK, s)
           end).

(** The opening bytes of a bidirectional stream: [None] when they are a request's,
    with the bytes that were held to be read first. *)
Definition bidi_opening (stream_id : Z) (data : list Z) (fin : bool) (s : S) : option (result (S := S)) * list Z * S :=
  let held := find_pending stream_id (driver_of s) in
  let have := match held with Some p => pe_bytes p | None => [] end in
  let copied := Z.min (zlen data) (WT_HTTP3_DRIVER_PREFIX_MAX - zlen have) in
  let assembled := have ++ ztake copied data in
  match wt_http3_driver_classify_bidi_start assembled with
  | Fail _ _ => (Some (plain (with_driver (hold_pending stream_id assembled) s)), [], s)
  | Ok start =>
      let s := match held with Some _ => on_driver (forget_pending stream_id) s | None => s end in
      match start with
      | Some (session_id, consumed) => (Some (bidi_settled stream_id session_id (zdrop consumed assembled) (zdrop copied data) fin s), [], s)
      | None => (None, have, s)
      end
  end.

(** A request stream, this endpoint's or the peer's. *)
Definition request_bytes (stream_id : Z) (tracked : bool) (data : list Z) (fin : bool) (max_frame_bytes : Z) (s : S) : result (S := S) :=
  on_ok_result (if tracked then (WT_OK, None, s) else on_endpoint (fun e => wt_http3_endpoint_on_request_stream e stream_id) s)
    (wt_http3_driver_on_stream_bytes sink stream_id data fin max_frame_bytes).

Definition route_bidi (f : wt_quic_stream_fields) (max_frame_bytes : Z) (s : S) : result (S := S) :=
  let id := sf_id f in
  let tracked := match wt_http3_endpoint_request_state (dr_endpoint (driver_of s)) id with Ok _ => true | Fail _ _ => false end in
  let opening := negb tracked && (bool_decide (is_Some (find_pending id (driver_of s))) || ((sf_offset f =? 0) && (0 <? zlen (sf_data f)))) in
  if negb opening then request_bytes id tracked (sf_data f) (sf_fin f) max_frame_bytes s
  else
    match bidi_opening id (sf_data f) (sf_fin f) s with
    | (Some r, _, _) => r
    | (None, held, s) =>
        let replayed := if 0 <? zlen held then wt_http3_driver_on_stream_bytes sink id held false max_frame_bytes s else (WT_OK, None, s) in
        if bool_decide (replayed.1.1 = WT_OK) then request_bytes id tracked (sf_data f) (sf_fin f) max_frame_bytes replayed.2
        else (replayed.1.1, None, replayed.2)
    end.

(** A peer's unidirectional stream of this kind, behind its prefix. *)
Definition uni_payload (kind : wt_http3_endpoint_stream_kind) (stream_id : Z) (payload : list Z) (fin : bool) (max_frame_bytes : Z) (s : S)
    : result (S := S) :=
  if bool_decide (kind = WT_HTTP3_ENDPOINT_STREAM_WEBTRANSPORT) then
    if 0 <? zlen payload then plain (sink_stream_data sink stream_id payload fin s) else (WT_OK, None, s)
  else
    on_ok_result
      (if (0 <? zlen payload) || fin then wt_http3_driver_on_stream_bytes sink stream_id payload fin max_frame_bytes s else (WT_OK, None, s))
      (fun s =>
         if fin then let r := wt_http3_driver_on_uni_stream_end stream_id (driver_of s) in (r.1, put_driver r.2 s)
         else (WT_OK, None, s)).

Definition route_uni (f : wt_quic_stream_fields) (max_frame_bytes : Z) (s : S) : result (S := S) :=
  let id := sf_id f in
  let kind := wt_http3_endpoint_stream_kind_of (dr_endpoint (driver_of s)) id in
  if negb (bool_decide (kind = WT_HTTP3_ENDPOINT_STREAM_UNKNOWN)) then uni_payload kind id (sf_data f) (sf_fin f) max_frame_bytes s
  else
    match wt_http3_driver_on_uni_stream_data id (sf_offset f) (sf_data f) (driver_of s) with
    | (WT_OK, code, kind, payload, _, d) =>
        if bool_decide (kind = WT_HTTP3_ENDPOINT_STREAM_UNKNOWN) then (WT_OK, code, put_driver d s)
        else uni_payload kind id payload (sf_fin f) max_frame_bytes (put_driver d s)
    | (st, code, _, _, _, d) => (st, code, put_driver d s)
    end.

Definition route_quic_frame (frame : wt_quic_frame) (max_frame_bytes : Z) (s : S) : result (S := S) :=
  match frame with
  | FRAME_STREAM f =>
      let id := sf_id f in
      if wt_http3_driver_is_data_stream id (driver_of s) then plain (sink_stream_data sink id (sf_data f) (sf_fin f) s)
      else if stream_is_ours (dr_endpoint (driver_of s)) id && negb (wt_quic_stream_id_is_bidirectional id) then (WT_OK, None, s)
      else if wt_quic_stream_id_is_bidirectional id then route_bidi f max_frame_bytes s
      else route_uni f max_frame_bytes s
  | FRAME_DATAGRAM data => plain (match on_datagram sink with None => (WT_OK, s) | Some deliver => deliver data s end)
  | _ => (WT_OK, None, s)
  end.

(** The code of the refusal is kept, and told to the connection when there is one
    (the layer above is taken not to read it while it is being delivered to). *)
Definition wt_http3_driver_on_quic_frame (frame : wt_quic_frame) (max_frame_bytes : Z) (s : S) : wt_status * S :=
  let s := on_driver (fun d => d <| dr_last_error := WT_HTTP3_NO_ERROR |>) s in
  let r := route_quic_frame frame max_frame_bytes s in
  let code := default WT_HTTP3_NO_ERROR r.1.2 in
  let s := on_driver (fun d => d <| dr_last_error := code |>) r.2 in
  (r.1.1,
   if negb (bool_decide (r.1.1 = WT_OK)) && dr_bound (driver_of s) && negb (code =? WT_HTTP3_NO_ERROR)
   then refuse_application code 0 s else s).
End Route.
