(* ===== verification/DriverSend.v ===== *)
(** * The driver's outbound half: [src/http3/driver_send.c] *)

From stdpp Require Import strings.
From S2P Require Import Prelude Core Writer Stream Update.
From S2P Require Export DriverStream.

Section Send.
Context {S : Type} `{Host S}.
Implicit Types s : S.

(** Opens a unidirectional stream and sends what was built in the first half of the scratch. *)
Definition send_own_stream (bytes : list Z) (now : Z) (s : S) : wt_status * S :=
  match open_stream false now s with
  | (Fail st _, s) => (st, s)
  | (Ok stream_id, s) => send_stream stream_id bytes false now s
  end.

Definition half_scratch : Z := WT_HTTP3_DRIVER_SCRATCH / 2.

Definition start_own_control (settings : wt_http3_settings) (now : Z) (s : S) : wt_status * S :=
  let d := driver_of s in
  match wt_http3_driver_start_control settings (zdrop half_scratch (dr_scratch d))
          (wt_writer_init (Some (ztake half_scratch (dr_scratch d))) half_scratch) d with
  | (st, w, payload, d) =>
      let s := put_driver (d <| dr_scratch := (w_data w ++ payload) |>) s in
      if bool_decide (st = WT_OK) then send_own_stream (writer_bytes w) now s else (st, s)
  end.

Definition start_own_qpack (encoder : bool) (now : Z) (s : S) : wt_status * S :=
  let d := driver_of s in
  match wt_http3_driver_start_qpack_stream encoder (wt_writer_init (Some (ztake half_scratch (dr_scratch d))) half_scratch) d with
  | (st, w, d) =>
      let s := put_driver (d <| dr_scratch := (w_data w ++ zdrop half_scratch (dr_scratch d)) |>) s in
      if bool_decide (st = WT_OK) then send_own_stream (writer_bytes w) now s else (st, s)
  end.

Definition wt_http3_driver_start_own_streams (settings : wt_http3_settings) (now : Z) (s : S) : wt_status * S :=
  s <-! start_own_control settings now s;;
  s <-! start_own_qpack true now s;;
  start_own_qpack false now s.

(** The stream that was opened. *)
Definition wt_http3_driver_open_request (now : Z) (s : S) : outcome Z * S :=
  match open_stream true now s with
  | (Fail st code, s) => (Fail st code, s)
  | (Ok stream_id, s) =>
      let r := on_endpoint (fun e => wt_http3_endpoint_open_request e stream_id) s in
      (if bool_decide (r.1.1 = WT_OK) then Ok stream_id else Fail r.1.1 r.1.2, r.2)
  end.

(** The section is measured in a buffer of the scratch's size that nothing reads afterwards. *)
Definition wt_http3_driver_send_message (stream_id : Z) (message : wt_http3_message (list Z)) (peer_max_entries : Z) (fin : bool) (now : Z) (s : S)
    : wt_status * S :=
  let d := driver_of s in
  let section := replicate (Z.to_nat WT_HTTP3_DRIVER_SCRATCH) 0 in
  let r := wt_http3_endpoint_write_headers message peer_max_entries section (wt_writer_init (Some (dr_scratch d)) WT_HTTP3_DRIVER_SCRATCH) in
  let s := put_driver (d <| dr_scratch := w_data r.2 |>) s in
  if negb (bool_decide (r.1.1 = WT_OK)) then (r.1.1, s)
  else
    send_stream stream_id (writer_bytes r.2) fin now (on_driver (fun d => d <| dr_request := Some (stream_id, w_offset r.2) |>) s).

Definition wt_http3_driver_open_data_stream (unidirectional : bool) (data : list Z) (fin : bool) (now : Z) (s : S) : outcome Z * S :=
  if WT_HTTP3_DRIVER_SCRATCH <? zlen data then (Fail WT_ERR_LIMIT None, s)
  else
    match dr_session_id (driver_of s) with
    | None => (Fail WT_ERR_STATE None, s)
    | Some session_id =>
        if dr_session_ended (driver_of s) then (Fail WT_ERR_STATE None, s)
        else if WT_HTTP3_DRIVER_DATA_STREAMS_MAX <=? zlen (dr_data_streams (driver_of s)) then (Fail WT_ERR_LIMIT None, s)
        else
          let framed := WT_HTTP3_DRIVER_PREFIX_MAX + WT_HTTP3_DRIVER_SCRATCH in
          let p := wt_webtransport_stream_prefix_write unidirectional session_id (wt_writer_init (Some (replicate (Z.to_nat framed) 0)) framed) in
          if negb (bool_decide (p.1 = WT_OK)) then (Fail WT_ERR_LIMIT None, s)
          else
            let w := wt_writer_bytes data p.2 in
            if negb (wt_writer_ok w) then (Fail WT_ERR_LIMIT None, s)
            else
              match open_stream (negb unidirectional) now s with
              | (Fail st code, s) => (Fail st code, s)
              | (Ok stream_id, s) =>
                  if negb (eqb (wt_quic_stream_id_is_bidirectional stream_id) (negb unidirectional)) then (Fail WT_ERR_STATE None, s)
                  else
                    let r := s <-! send_stream stream_id (writer_bytes w) fin now s;;
                             with_driver (fun d => remember_data_stream stream_id (w_offset p.2) (dr_session_id d) d) s in
                    (if bool_decide (r.1 = WT_OK) then Ok stream_id else Fail r.1 None, r.2)
              end
    end.

Definition wt_http3_driver_resend_request (now : Z) (s : S) : wt_status * S :=
  match dr_request (driver_of s) with
  | None => (WT_ERR_STATE, s)
  | Some (stream_id, length) =>
      if length =? 0 then (WT_ERR_STATE, s) else send_stream stream_id (ztake length (dr_scratch (driver_of s))) false now s
  end.

Definition wt_http3_driver_open_session_stream (settings : wt_http3_settings) (now : Z) (s : S) : outcome Z * S :=
  match wt_http3_driver_start_own_streams settings now s with
  | (WT_OK, s) =>
      match wt_http3_driver_open_request now s with
      | (Fail st code, s) => (Fail st code, s)
      | (Ok stream_id, s) =>
          let r := with_driver (fun d => wt_http3_driver_mark_capsule_stream stream_id true (wt_http3_driver_set_session_id stream_id d)) s in
          (if bool_decide (r.1 = WT_OK) then Ok stream_id else Fail r.1 None, r.2)
      end
  | (st, s) => (Fail st None, s)
  end.

(** The extended CONNECT; [authority] and [path] are the bytes of the two C strings. *)
Definition session_request (token : wt_webtransport_upgrade_token) (authority path : list Z) : wt_http3_message (list Z) :=
  mk_message WT_HTTP3_HEADER_REQUEST (Some (literal "CONNECT")) (Some (literal "https")) (Some path) (Some authority)
    (Some (literal (wt_webtransport_upgrade_token_value token))) 0 false (wt_http3_header_validation_init WT_HTTP3_HEADER_REQUEST).

Definition wt_http3_driver_send_session_request (stream_id : Z) (authority path : list Z) (peer_max_entries now : Z) (s : S) : wt_status * S :=
  wt_http3_driver_send_message stream_id (session_request (dr_upgrade_token (driver_of s)) authority path) peer_max_entries false now s.

Definition wt_http3_driver_start_session (settings : wt_http3_settings) (authority path : list Z) (peer_max_entries now : Z) (s : S) : outcome Z * S :=
  match wt_http3_driver_open_session_stream settings now s with
  | (Fail st code, s) => (Fail st code, s)
  | (Ok stream_id, s) =>
      let r := wt_http3_driver_send_session_request stream_id authority path peer_max_entries now s in
      (if bool_decide (r.1 = WT_OK) then Ok stream_id else Fail r.1 None, r.2)
  end.

Definition session_response (status : Z) : wt_http3_message (list Z) :=
  mk_message WT_HTTP3_HEADER_RESPONSE None None None None None status true (wt_http3_header_validation_init WT_HTTP3_HEADER_RESPONSE).

Definition wt_http3_driver_send_response (stream_id status peer_max_entries : Z) (fin : bool) (now : Z) (s : S) : wt_status * S :=
  wt_http3_driver_send_message stream_id (session_response status) peer_max_entries fin now (on_driver (wt_http3_driver_set_session_id stream_id) s).

Definition wt_http3_driver_send_datagram (data : list Z) (s : S) : wt_status * S :=
  if dr_session_ended (driver_of s) then (WT_ERR_STATE, s) else send_datagram data s.
End Send.
