(* ===== verification/DriverQuic.v ===== *)
(** * The driver on a QUIC connection: [src/http3/quic_transport.c]

    The transport's three adapters and what the driver asks of the connection it is
    bound to, over the connection of [Connection]: the state of the layer above it
    is the driver with whatever is above that. *)

From S2P Require Import Prelude Core Crypto Frame Stream Update Connection ConnectionSend ConnectionStream.
From S2P Require Export DriverRoute DriverSend.

Section Quic.
Context {A : Type} {C : Crypto}.
Notation connection := (wt_quic_connection (wt_http3_driver * A)).
Context (udp_send : list sent_datagram -> option wt_udp_address -> list Z -> wt_status).
Context (lost_handler : option (wt_quic_tx_frame -> connection -> connection)).
Context (levels : nat).

Definition quic_open_stream (bidirectional : bool) (now : Z) (c : connection) : outcome Z * connection :=
  wt_quic_connection_open_stream bidirectional c.

(** A function of a stream that may refuse, through the pointer to it. *)
Definition record_on_stream (stream_id : Z) (f : wt_quic_stream -> wt_status * wt_quic_stream) (c : connection) : wt_status * connection :=
  match wt_quic_connection_stream c stream_id with
  | None => (WT_ERR_STATE, c)   (* the pointer is that of a stream in the table *)
  | Some st => let r := f st in (r.1, on_stream stream_id (fun _ => r.2) c)
  end.

(** The frame goes out at the stream's own offset, and the stream is told what was sent. *)
Definition quic_send_stream (stream_id : Z) (data : list Z) (fin : bool) (now : Z) (c : connection) : wt_status * connection :=
  match wt_quic_connection_stream c stream_id with
  | None => (WT_ERR_STATE, c)
  | Some st =>
      c <-! wt_quic_connection_send_stream udp_send lost_handler levels stream_id (send_offset (tx st)) data fin now c;;
      c <-! record_on_stream stream_id (fun st => wt_quic_stream_on_data_sent st (zlen data)) c;;
      if fin then record_on_stream stream_id wt_quic_stream_on_fin_sent c else (WT_OK, c)
  end.

(** The time of the call is not known here and 0 is given instead. *)
Definition quic_send_datagram (data : list Z) (c : connection) : wt_status * connection :=
  wt_quic_connection_send_datagram udp_send lost_handler levels data 0 c.

Definition wt_http3_driver_quic_transport : Host connection := {|
  driver_of c := (cn_context c).1;
  put_driver d c := c <| cn_context ::= (fun x => (d, x.2)) |>;
  open_stream := quic_open_stream;
  send_stream := quic_send_stream;
  send_datagram := quic_send_datagram;
  connection_role c := cf_role (cn_config c);
  stream_of id c := wt_quic_connection_stream c id;
  stream_send_offset id c := wt_quic_connection_stream_send_offset c id;
  reset_stream_at := wt_quic_connection_reset_stream_at udp_send lost_handler levels;
  stop_sending := wt_quic_connection_stop_sending udp_send lost_handler levels;
  refuse_application := wt_quic_connection_refuse_application |}.
#[export] Existing Instance wt_http3_driver_quic_transport.

#[export] Instance quic_host_laws : HostLaws connection.
Proof. split; [done| |done]. intros c. destruct c as [? ? ? ? ? ? ? ? ? ? ? ? ? ? ? ? ? ? ? ? ? ? ? ? ? ? ? ? ? ? ? ? ? ? ? ? ? ? ? ? ? ? ? ? [] ? ? ?]. done. Qed.
End Quic.
