(* ===== verification/DriverFrames.v ===== *)
(** * What the driver makes of a stream that arrives in pieces

    Frame boundaries do not depend on how a stream is cut: the state and the
    deliveries after two calls of [wt_http3_driver_on_stream_bytes] are those after
    one call with all the bytes, as long as the layer above treats payload in
    pieces like payload at once and the stream is not a CONNECT stream that waits
    for its response. *)

From S2P Require Import Prelude Core Cursor Varint Locality Connection Update.
From S2P Require Export DriverStream.

(** ** The varint at the front of some bytes *)

Lemma prefix_needed_cons b l : is_u8 b -> exists k : nat, (k <= 3)%nat /\ b / 64 = Z.of_nat k /\ prefix_needed (b :: l) = 2 ^ Z.of_nat k.
Proof.
  unfold is_u8. intros Hb. exists (Z.to_nat (b / 64)). assert (0 <= b / 64 <= 3) as Hq by (split; [apply Z.div_pos|apply Z.lt_succ_r, Z.div_lt_upper_bound]; lia).
  split; [lia|]. rewrite Z2Nat.id by lia. split; [done|]. unfold prefix_needed. change (byte_at (b :: l) 0) with b.
  rewrite Z.shiftl_1_l, Z.shiftr_div_pow2 by lia. done.
Qed.

Lemma prefix_needed_bounds l : bytes_ok l -> l <> [] -> 1 <= prefix_needed l <= 8.
Proof.
  intros Hl Hne. destruct l as [|b l]; [done|]. apply Forall_cons in Hl as [Hb _]. destruct (prefix_needed_cons b l Hb) as (k & Hk & _ & ->).
  do 4 (destruct k as [|k]; [by cbn|]). lia.
Qed.

Lemma varint_wire_head k v : (k <= 3)%nat -> 0 <= v < 2 ^ varint_bits k ->
  exists b l, varint_wire k v = b :: l /\ is_u8 b /\ prefix_needed (varint_wire k v) = 2 ^ Z.of_nat k /\ zlen (varint_wire k v) = 2 ^ Z.of_nat k.
Proof.
  intros Hk Hv. destruct (varint_wire_cons k v Hk Hv) as [Hw Hq]. rewrite Hw. set (q := v / _) in *. eexists _, _. split; [done|].
  assert (is_u8 (Z.of_nat k * 64 + q)) as Hb by (unfold is_u8; lia). split; [done|]. destruct (prefix_needed_cons _ (be_bytes (2 ^ k - 1) v) Hb) as (k' & _ & Hd & ->).
  assert (k' = k) as -> by (rewrite Z.div_add_l, Z.div_small in Hd by lia; lia). split; [done|]. rewrite zlen_cons, zlen_be_bytes.
  do 4 (destruct k as [|k]; [done|]). lia.
Qed.

Lemma prefix_needed_app l l' : l <> [] -> prefix_needed (l ++ l') = prefix_needed l.
Proof. by destruct l. Qed.

Lemma ztake_cons {A} n (x : A) l : 1 <= n -> ztake n (x :: l) = x :: ztake (n - 1) l.
Proof. intros Hn. unfold ztake. replace (Z.to_nat n) with (S (Z.to_nat (n - 1))) by lia. done. Qed.

Lemma zdrop_cons {A} n (x : A) l : 1 <= n -> zdrop n (x :: l) = zdrop (n - 1) l.
Proof. intros Hn. unfold zdrop. replace (Z.to_nat n) with (S (Z.to_nat (n - 1))) by lia. done. Qed.

(** Without all the bytes the first one announces, the decoder waits. *)
Lemma varint_short c :
  cursor_inv c -> (cursor_view c <> [] -> zlen (cursor_view c) < prefix_needed (cursor_view c)) ->
  exists c', wt_quic_varint_decode c = (Fail WT_ERR_TRUNCATED None, c').
Proof.
  intros Hc Hw. unfold wt_quic_varint_decode, pbind. destruct (wt_quic_varint_decode_sized c) as [[[v size]|s e] c'] eqn:E; cbn.
  - exfalso. destruct (varint_decode_sized_inv _ _ _ _ Hc E) as (k & Hk & Hv & _ & Hview & _).
    destruct (varint_wire_head k v Hk Hv) as (b & l' & Hw' & _ & Hp & Hz'). rewrite Hview, prefix_needed_app, zlen_app, Hz', Hp in Hw by (by rewrite Hw').
    rewrite Hw' in Hw. pose proof (zlen_nonneg (cursor_view c')). specialize (Hw ltac:(done)). lia.
  - destruct (varint_decode_sized_fail _ _ _ _ Hc E) as (-> & -> & _). by eexists.
Qed.

(** Either the whole varint is there, or the decoder waits. *)
Lemma varint_front l :
  bytes_ok l -> zlen l < 2 ^ 62 -> l <> [] ->
  if prefix_needed l <=? zlen l
  then exists v, varint_ok v /\ decodes wt_quic_varint_decode (ztake (prefix_needed l) l) v /\
         varint_of l = (Ok v, cursor_advance (wt_cursor_init (Some l) (zlen l)) (prefix_needed l))
  else exists c, varint_of l = (Fail WT_ERR_TRUNCATED None, c).
Proof.
  intros Hl Hz Hne. assert (cursor_live (wt_cursor_init (Some l) (zlen l))) as Hlive by (apply cursor_init_live; [lia|done]).
  pose proof (prefix_needed_bounds l Hl Hne) as Hb. unfold varint_of. destruct (Z.leb_spec (prefix_needed l) (zlen l)) as [Hw|Hw].
  - destruct l as [|b l]; [done|]. pose proof Hl as [Hb8 Hl']%Forall_cons. destruct (prefix_needed_cons b l Hb8) as (k & Hk & Hq & E). rewrite E in *.
    set (rest := ztake (2 ^ Z.of_nat k - 1) l). assert (ztake (2 ^ Z.of_nat k) (b :: l) = b :: rest) as Et by (by rewrite ztake_cons by lia).
    assert (zlen rest = 2 ^ Z.of_nat k - 1) as Hr by (unfold rest; rewrite zlen_cons in Hw; apply zlen_ztake; lia).
    destruct (varint_wire_of_parts k (b mod 64) rest Hk) as [Hv Hwire]; [apply Z.mod_pos_bound; lia|by apply Forall_ztake| |].
    { unfold zlen in Hr. do 4 (destruct k as [|k]; [cbn in Hr |- *; lia|]). lia. }
    set (v := _ + be_value rest) in *. replace (Z.of_nat k * 64 + b mod 64) with b in Hwire by (rewrite <- Hq; pose proof (Z.div_mod b 64); lia).
    exists v. rewrite Et, <- Hwire. assert (decodes wt_quic_varint_decode (varint_wire k v) v) as Hd.
    { unfold wt_quic_varint_decode. rewrite <- (app_nil_r (varint_wire k v)). apply (decodes_bind _ _ _ _ (v, 2 ^ Z.of_nat k)); [by apply decodes_varint_sized|cbn; apply decodes_ret]. }
    split; [unfold varint_ok, WT_QUIC_VARINT_MAX; pose proof (varint_bits_max k Hk); lia|]. split; [done|].
    rewrite (Hd _ (zdrop (2 ^ Z.of_nat k) (b :: l)) Hlive) by (rewrite cursor_init_view, Hwire, <- Et; by rewrite ztake_zdrop).
    destruct (varint_wire_head k v Hk Hv) as (? & ? & _ & _ & _ & ->). done.
  - apply varint_short; [apply Hlive|]. by rewrite cursor_init_view.
Qed.

(** ** The header of a frame *)

Lemma second_varint h :
  bytes_ok h -> zlen h < 2 ^ 62 -> h <> [] -> prefix_needed h <= zlen h ->
  let c := cursor_advance (wt_cursor_init (Some h) (zlen h)) (prefix_needed h) in
  cursor_live c /\ cursor_view c = zdrop (prefix_needed h) h.
Proof.
  intros Hb Hz Hne Hw c. pose proof (prefix_needed_bounds h Hb Hne).
  assert (cursor_live (wt_cursor_init (Some h) (zlen h))) as Hlive by (apply cursor_init_live; [lia|done]).
  pose proof (cursor_advance_prefix _ (ztake (prefix_needed h) h) (zdrop (prefix_needed h) h) Hlive) as H'.
  rewrite zlen_ztake in H' by lia. apply H'. by rewrite cursor_init_view, ztake_zdrop.
Qed.

Lemma parse_header_short h : bytes_ok h -> zlen h < 2 ^ 62 -> parse_header h = None -> zlen h < 16.
Proof.
  intros Hb Hz Hp. destruct (Z.lt_ge_cases (zlen h) 16) as [|Hge]; [done|]. exfalso. assert (h <> []) as Hne by (intros ->; by vm_compute in Hge).
  pose proof (prefix_needed_bounds h Hb Hne) as Hw. pose proof (varint_front h Hb Hz Hne) as Hf.
  rewrite (proj2 (Z.leb_le (prefix_needed h) (zlen h)) ltac:(lia)) in Hf. destruct Hf as (t & _ & _ & Et). unfold parse_header in Hp. rewrite Et in Hp.
  destruct (second_varint h Hb Hz Hne ltac:(lia)) as [Hl Hv]. set (r := zdrop (prefix_needed h) h) in *.
  assert (zlen r = zlen h - prefix_needed h) as Hr by (apply zlen_zdrop; lia). assert (bytes_ok r) as Hrb by (by apply Forall_zdrop).
  assert (r <> []) as Hrn by (intros Er; rewrite Er, zlen_nil in Hr; lia). pose proof (prefix_needed_bounds r Hrb Hrn).
  pose proof (varint_front r Hrb ltac:(lia) Hrn) as Hf. rewrite (proj2 (Z.leb_le (prefix_needed r) (zlen r)) ltac:(lia)) in Hf. destruct Hf as (l & _ & Hd & _).
  rewrite (Hd _ (zdrop (prefix_needed r) r) Hl) in Hp by (by rewrite Hv, ztake_zdrop). done.
Qed.

Lemma parse_header_length h t l : bytes_ok h -> zlen h < 2 ^ 62 -> parse_header h = Some (t, l) -> varint_ok l.
Proof.
  intros Hb Hz. unfold parse_header, varint_of. assert (cursor_inv (wt_cursor_init (Some h) (zlen h))) as Hi by (apply cursor_init_live; [lia|done]).
  destruct (varint_decode_safe _ Hi) as (Hi1 & _). destruct (wt_quic_varint_decode (wt_cursor_init _ _)) as [[t'|] c1]; [|done]. cbn [snd] in Hi1.
  destruct (varint_decode_safe _ Hi1) as (_ & _ & _ & _ & Hq). destruct (wt_quic_varint_decode c1) as [[l'|] c2]; [|done]. intros [= _ <-]. exact Hq.
Qed.

Lemma parse_header_nil : parse_header [] = None.
Proof. done. Qed.

(** *** The header of a frame, byte by byte *)

Lemma prefix_needed_varint v : varint_ok v -> prefix_needed (varint_bytes v) = zlen (varint_bytes v) /\ varint_bytes v <> [].
Proof.
  intros Hv. destruct (varint_wire_head _ _ (varint_class_le v) (varint_class_fits v Hv)) as (b & l & E & _ & Hp & Hz).
  unfold varint_bytes. by rewrite Hp, Hz, E.
Qed.

Lemma prefix_waits h h2 v : h ++ h2 = varint_bytes v -> varint_ok v -> h2 <> [] -> h <> [] -> zlen h < prefix_needed h.
Proof.
  intros E Hv Hne Hh. destruct (prefix_needed_varint v Hv) as [Hp _]. rewrite <- E, prefix_needed_app, zlen_app in Hp by done.
  rewrite Hp. assert (0 < zlen h2); [|lia]. destruct h2; [done|]. rewrite zlen_cons. pose proof (zlen_nonneg h2). lia.
Qed.

Lemma parse_second t h' c h2 l :
  varint_ok l -> cursor_live c -> cursor_view c = h' -> varint_bytes l = h' ++ h2 ->
  match wt_quic_varint_decode c with (Fail _ _, _) => None | (Ok length, _) => Some (t, length) end = if h2 is [] then Some (t : Z, l) else None.
Proof.
  intros Hl Hlive Hv E. destruct h2 as [|b h2].
  - rewrite app_nil_r in E. by rewrite (decodes_varint l Hl c []) by (rewrite ?app_nil_r; congruence || done).
  - destruct (varint_short c) as [c' ->]; [apply Hlive| |done]. rewrite Hv. intros Hne. by eapply prefix_waits.
Qed.

Lemma parse_header_wire h h2 t l :
  varint_ok t -> varint_ok l -> h ++ h2 = varint_bytes t ++ varint_bytes l -> parse_header h = if h2 is [] then Some (t, l) else None.
Proof.
  intros Ht Hl E. assert (bytes_ok (h ++ h2)) as Hb by (rewrite E; apply Forall_app; split; apply varint_bytes_ok).
  apply Forall_app in Hb as [Hb _]. assert (zlen h < 2 ^ 64) as Hz.
  { apply (f_equal zlen) in E. rewrite !zlen_app in E. pose proof (varint_bytes_le t Ht). pose proof (varint_bytes_le l Hl). pose proof (zlen_nonneg h2). lia. }
  pose proof (cursor_init_live h Hz Hb) as Hlive. pose proof (cursor_init_view h) as Hview. unfold parse_header, varint_of.
  set (c := wt_cursor_init _ _) in *. clearbody c. apply app_eq_inv in E as [(h' & -> & El)|([|b k] & Et & ->)].
  - rewrite (decodes_varint t Ht c h' Hlive Hview). destruct (cursor_advance_prefix c _ h' Hlive Hview). by eapply parse_second.
  - rewrite app_nil_r in Et. subst h. cbn [app] in *. rewrite (decodes_varint t Ht c [] Hlive) by (by rewrite app_nil_r).
    destruct (cursor_advance_prefix c (varint_bytes t) [] Hlive) as [Hl' Hv']; [by rewrite app_nil_r|]. by eapply parse_second.
  - destruct (varint_short c) as [c' ->]; [apply Hlive| |done]. rewrite Hview. intros Hne. by eapply prefix_waits.
Qed.

(** ** Results that say the same

    After a refusal only the status and the code count: the connection closes. *)

Section Agree.
Context {S : Type}.
Implicit Types (r : result (S:=S)) (k : S -> result (S:=S)).

Definition agree r r' : Prop := r.1 = r'.1 /\ (r.1.1 = WT_OK -> r.2 = r'.2).

#[export] Instance agree_equivalence : Equivalence agree.
Proof.
  split.
  - by intros r.
  - intros r r' [E Es]. split; [done|]. rewrite <- E. intros Ho. by rewrite Es.
  - intros r1 r2 r3 [E Es] [E' Es']. split; [congruence|]. intros Ho. rewrite Es by done. apply Es'. by rewrite <- E.
Qed.

Lemma on_ok_result_ok c s k : on_ok_result (WT_OK, c, s) k = k s.
Proof. done. Qed.

Lemma on_ok_result_fail r k : r.1.1 <> WT_OK -> on_ok_result r k = r.
Proof. intros Hr. unfold on_ok_result. by rewrite bool_decide_false. Qed.

Lemma on_ok_result_is_ok r k : r.1.1 = WT_OK -> on_ok_result r k = k r.2.
Proof. intros Hr. unfold on_ok_result. by rewrite bool_decide_true. Qed.

Lemma on_ok_result_assoc r k k' : on_ok_result (on_ok_result r k) k' = on_ok_result r (fun s => on_ok_result (k s) k').
Proof. unfold on_ok_result. by destruct (bool_decide (r.1.1 = WT_OK)) eqn:E; rewrite ?E. Qed.

Lemma on_ok_result_agree r r' k k' :
  agree r r' -> (r.1.1 = WT_OK -> agree (k r.2) (k' r.2)) -> agree (on_ok_result r k) (on_ok_result r' k').
Proof.
  intros [E Es] Hk. destruct (decide (r.1.1 = WT_OK)) as [Ho|Ho].
  - rewrite !on_ok_result_is_ok by congruence. rewrite <- Es by done. by apply Hk.
  - rewrite !on_ok_result_fail by congruence. done.
Qed.
Lemma on_ok_result_agree_l r r' k : agree r r' -> agree (on_ok_result r k) (on_ok_result r' k).
Proof. intros Hr. by apply on_ok_result_agree. Qed.
End Agree.

(** ** The entry of the stream *)

Section Entry.
Context {S : Type} `{HostLaws S}.
Implicit Types s : S.

Lemma driver_of_on_driver f s : driver_of (on_driver f s) = f (driver_of s).
Proof. unfold on_driver. apply driver_of_put. Qed.

Lemma on_driver_on_driver f g s : on_driver f (on_driver g s) = on_driver (fun d => f (g d)) s.
Proof. unfold on_driver. by rewrite driver_of_put, put_put. Qed.

Lemma on_driver_ext f g s : f (driver_of s) = g (driver_of s) -> on_driver f s = on_driver g s.
Proof. unfold on_driver. by intros ->. Qed.

Lemma on_driver_id f s : f (driver_of s) = driver_of s -> on_driver f s = s.
Proof. unfold on_driver. intros ->. apply put_driver_of. Qed.

Lemma frame_at_set i f s : (i < length (dr_frames (driver_of s)))%nat -> frame_at i (set_frame i f s) = f (frame_at i s).
Proof.
  intros Hi. unfold frame_at, set_frame. rewrite driver_of_on_driver. upd_simpl. rewrite list_lookup_alter, decide_True by done.
  by destruct (lookup_lt_is_Some_2 _ _ Hi) as [x ->].
Qed.

Lemma alter_twice {A} (f g : A -> A) (l : list A) (i : nat) : alter f i (alter g i l) = alter (fun x => f (g x)) i l.
Proof. revert i. induction l as [|x l IH]; intros [|i]; [done..|]. cbn. f_equal. apply IH. Qed.

Lemma set_frame_set_frame i f g s : set_frame i f (set_frame i g s) = set_frame i (fun x => f (g x)) s.
Proof. unfold set_frame. rewrite on_driver_on_driver. apply on_driver_ext. unfold upd. cbn. f_equal. apply alter_twice. Qed.

Lemma set_frame_ext i f g s : f (frame_at i s) = g (frame_at i s) -> set_frame i f s = set_frame i g s.
Proof.
  intros E. unfold set_frame. apply on_driver_ext. unfold upd. cbn. f_equal. unfold frame_at in E. apply list_alter_ext; [|done].
  intros x Hx. by rewrite Hx in E.
Qed.

Lemma set_frame_id i f s : f (frame_at i s) = frame_at i s -> set_frame i f s = s.
Proof.
  intros E. unfold set_frame. apply on_driver_id. unfold upd, frame_at in *. cbn in *. destruct (driver_of s). cbn in *. f_equal. apply list_eq. intros j.
  rewrite list_lookup_alter. destruct (decide (i = j)) as [->|]; [|done]. destruct (_ !! j); [|done]. cbn in *. by rewrite E.
Qed.

Lemma dr_frames_length_set i f s : length (dr_frames (driver_of (set_frame i f s))) = length (dr_frames (driver_of s)).
Proof. unfold set_frame. rewrite driver_of_on_driver. upd_simpl. apply length_alter. Qed.
End Entry.

(** ** The layer above

    What is asked of a callback: it leaves the driver's half-read frames and the
    stream's kind alone, does not look at them, takes payload in pieces like payload
    at once, and decides that a stream carries capsules when a frame ends, if
    ever. *)

Section Pieces.
Context {S : Type} `{HostLaws S} (sink : wt_http3_driver_sink S) (id : Z) (is_control : bool).
Implicit Types s : S.

Definition capsules s : bool := wt_http3_driver_is_capsule_stream id (driver_of s).
Definition kind_of s : wt_http3_endpoint_stream_kind := wt_http3_endpoint_stream_kind_of (dr_endpoint (driver_of s)) id.
Definition control_settings s : list Z := ctl_settings (ep_peer_control (dr_endpoint (driver_of s))).

Record steady (f : list Z -> bool -> S -> wt_status * S) : Prop := {
  st_frames p final s : dr_frames (driver_of (f p final s).2) = dr_frames (driver_of s);
  st_frame_count p final s : dr_frame_count (driver_of (f p final s).2) = dr_frame_count (driver_of s);
  st_kind p final s : kind_of (f p final s).2 = kind_of s;
  st_mark p final s : capsule_mark id (driver_of s) <> Some true -> capsule_mark id (driver_of (f p final s).2) <> Some true;
  st_capsules p s : capsules (f p false s).2 = capsules s;
  st_entry i g p final s : f p final (set_frame i g s) = ((f p final s).1, set_frame i g (f p final s).2);
  st_pieces p q final s : p <> [] -> q <> [] ->
    (f (p ++ q) final s).1 = (on_ok (f p false s) (f q final)).1 /\
    ((f (p ++ q) final s).1 = WT_OK -> (f (p ++ q) final s).2 = (on_ok (f p false s) (f q final)).2) }.

(** The control stream is read by the endpoint, not by the layer above. *)
Record steady_sink : Prop := {
  sk_payload t : steady (sink_frame_payload sink id t);
  sk_data : steady (fun p _ => sink_stream_data sink id p false);
  sk_control t p final s : is_control = true -> sink_frame_payload sink id t p final s = (WT_OK, s) }.

(** What holds of the state between two frames' bytes. *)
Record settled s : Prop := {
  sd_mark : capsule_mark id (driver_of s) <> Some true;
  sd_control : is_control = true -> capsules s = false /\ zlen (control_settings s) <= WT_HTTP3_CONTROL_SETTINGS_MAX }.

Definition same_entries s s' : Prop :=
  dr_frames (driver_of s') = dr_frames (driver_of s) /\ dr_frame_count (driver_of s') = dr_frame_count (driver_of s) /\ kind_of s' = kind_of s.

Lemma same_entries_trans s1 s2 s3 : same_entries s1 s2 -> same_entries s2 s3 -> same_entries s1 s3.
Proof. unfold same_entries. intros (-> & -> & ->) (-> & -> & ->). done. Qed.

Lemma same_entries_frame i s s' : same_entries s s' -> frame_at i s' = frame_at i s.
Proof. unfold frame_at. by intros (-> & _). Qed.

Lemma settled_set i g s : settled s -> settled (set_frame i g s).
Proof. intros [Hm Hc]. unfold set_frame, on_driver. split; unfold capsules, control_settings in *; by rewrite driver_of_put. Qed.

Lemma capsules_set i g s : capsules (set_frame i g s) = capsules s.
Proof. unfold capsules, set_frame. by rewrite driver_of_on_driver. Qed.

(** *** The endpoint's control stream *)

Lemma control_on_frame_settings c t :
  zlen (ctl_settings c) <= WT_HTTP3_CONTROL_SETTINGS_MAX -> zlen (ctl_settings (wt_http3_control_on_frame c t).2) <= WT_HTTP3_CONTROL_SETTINGS_MAX.
Proof. intros Hl. unfold wt_http3_control_on_frame. repeat (case_goal; try done). Qed.

Lemma control_on_payload_settings c t p final :
  zlen (ctl_settings c) <= WT_HTTP3_CONTROL_SETTINGS_MAX ->
  zlen (ctl_settings (wt_http3_control_on_frame_payload c t p final).2) <= WT_HTTP3_CONTROL_SETTINGS_MAX.
Proof.
  intros Hl. pose proof (zlen_nonneg (ctl_settings c)). unfold wt_http3_control_on_frame_payload. repeat (case_goal; try done); cbn [snd set_settings ctl_settings].
  rewrite zlen_app. unfold WT_HTTP3_CONTROL_SETTINGS_MAX in *. rewrite u64_small in * by (unfold is_u64; lia). lia.
Qed.

(** A call on the endpoint that changes its control stream only. *)
Definition control_call (f : wt_http3_control_stream -> wt_status * option Z * wt_http3_control_stream) (e : wt_http3_endpoint) : ep_result :=
  let r := f (ep_peer_control e) in (r.1, set_control e r.2).

Lemma on_control_call f s :
  on_endpoint (control_call f) s = ((f (ep_peer_control (dr_endpoint (driver_of s)))).1, (on_endpoint (control_call f) s).2) /\
  same_entries s (on_endpoint (control_call f) s).2 /\
  capsule_mark id (driver_of (on_endpoint (control_call f) s).2) = capsule_mark id (driver_of s) /\
  capsules (on_endpoint (control_call f) s).2 = capsules s /\
  ep_peer_control (dr_endpoint (driver_of (on_endpoint (control_call f) s).2)) = (f (ep_peer_control (dr_endpoint (driver_of s)))).2.
Proof.
  unfold on_endpoint, control_call, same_entries, kind_of, capsules. cbn [fst snd]. rewrite driver_of_on_driver. upd_simpl. by split_and!.
Qed.

Lemma on_control_call_entry f i g s :
  on_endpoint (control_call f) (set_frame i g s) = ((on_endpoint (control_call f) s).1, set_frame i g (on_endpoint (control_call f) s).2).
Proof.
  unfold on_endpoint, set_frame, control_call. cbn [fst snd]. rewrite !driver_of_on_driver, !on_driver_on_driver. upd_simpl. apply (f_equal2 pair); [done|]. by apply on_driver_ext.
Qed.

Lemma control_payload_call e t p final :
  wt_http3_endpoint_on_control_payload e t p final = control_call (fun c => wt_http3_control_on_frame_payload c t p final) e.
Proof. unfold wt_http3_endpoint_on_control_payload, control_call. by destruct (wt_http3_control_on_frame_payload _ _ _ _) as [[]]. Qed.

(** *** A delivery *)

Definition deliver (t : Z) (p : list Z) (final : bool) (s : S) : result := deliver_frame_payload sink id is_control t p final s.

(** What follows the control stream's own reading. *)
Definition hand_up (t : Z) (p : list Z) (final : bool) (s : S) : result :=
  if capsules s then
    if negb (t =? WT_HTTP3_FRAME_DATA) then
      if wt_http3_frame_type_is_known t || wt_http3_frame_type_is_reserved t
      then (WT_ERR_PROTOCOL, Some WT_HTTP3_FRAME_UNEXPECTED, s)
      else (WT_OK, None, s)
    else plain (sink_stream_data sink id p false s)
  else plain (sink_frame_payload sink id t p final s).

Lemma deliver_hand_up t p final s :
  deliver t p final s =
  if is_control then on_ok_result (on_endpoint (control_call (fun c => wt_http3_control_on_frame_payload c t p final)) s) (hand_up t p final)
  else hand_up t p final s.
Proof.
  unfold deliver, deliver_frame_payload. destruct is_control; [|done]. cbv zeta.
  assert (on_endpoint (fun e => wt_http3_endpoint_on_control_payload e t p final) s =
          on_endpoint (control_call (fun c => wt_http3_control_on_frame_payload c t p final)) s) as -> by (unfold on_endpoint; by rewrite control_payload_call).
  unfold on_ok_result. by destruct (bool_decide _).
Qed.

Context (Hsink : steady_sink).

Lemma hand_up_keeps t p final s : settled s -> same_entries s (hand_up t p final s).2 /\ (is_control = false -> settled (hand_up t p final s).2) /\
  (is_control = true -> hand_up t p final s = (WT_OK, None, s)).
Proof.
  destruct Hsink as [Hp Hd Hc]. intros [Hm Hs]. unfold hand_up. split_and!.
  - repeat case_goal; try done; unfold plain, same_entries; cbn [snd]; split_and!;
      first [apply (st_frames _ Hd p false)|apply (st_frames _ (Hp t))|apply (st_frame_count _ Hd p false)|apply (st_frame_count _ (Hp t))|apply (st_kind _ Hd p false)|apply (st_kind _ (Hp t))].
  - intros Hk. split; [|congruence]. repeat case_goal; try done; unfold plain; cbn [snd]; [by apply (st_mark _ Hd p false)|by apply (st_mark _ (Hp t))].
  - intros Hk. destruct (Hs Hk) as [-> _]. by rewrite Hc.
Qed.

Lemma hand_up_entry t i g p final s :
  hand_up t p final (set_frame i g s) = ((hand_up t p final s).1, set_frame i g (hand_up t p final s).2).
Proof.
  destruct Hsink as [Hp Hd _]. unfold hand_up. rewrite capsules_set. repeat case_goal; try done; unfold plain.
  - by rewrite (st_entry _ Hd i g p final).
  - by rewrite (st_entry _ (Hp t)).
Qed.

(** The callback's laws in terms of results. *)
Lemma steady_pieces f p q final s :
  steady f -> p <> [] -> q <> [] ->
  agree (plain (f (p ++ q) final s)) (on_ok_result (plain (f p false s)) (fun s => plain (f q final s))).
Proof.
  intros Hf Hp Hq. destruct (st_pieces _ Hf p q final s Hp Hq) as [H1 H2]. unfold agree, plain, on_ok_result, on_ok in *. cbn [fst snd] in *.
  destruct (bool_decide _); cbn [fst snd]; (split; [congruence|done]).
Qed.

Lemma hand_up_pieces t p q final s :
  p <> [] -> q <> [] -> agree (hand_up t (p ++ q) final s) (on_ok_result (hand_up t p false s) (hand_up t q final)).
Proof.
  intros Hp Hq. destruct Hsink as [Hpay Hd _]. unfold hand_up at 1 2. destruct (capsules s) eqn:Ec.
  - destruct (negb (t =? WT_HTTP3_FRAME_DATA)) eqn:Et; [destruct (_ || _) eqn:Ek; [done|]; rewrite on_ok_result_ok; unfold hand_up; by rewrite Ec, Et, Ek|].
    etransitivity; [exact (steady_pieces _ p q final s Hd Hp Hq)|]. apply on_ok_result_agree; [done|]. intros _. unfold hand_up, plain. cbn [snd].
    pose proof (st_capsules _ Hd p s) as E. cbn beta in E. by rewrite E, Ec, Et.
  - etransitivity; [exact (steady_pieces _ p q final s (Hpay t) Hp Hq)|]. apply on_ok_result_agree; [done|]. intros _. unfold hand_up, plain. cbn [snd].
    by rewrite (st_capsules _ (Hpay t) p s), Ec.
Qed.

Lemma on_control_call_ext f g s :
  f (ep_peer_control (dr_endpoint (driver_of s))) = g (ep_peer_control (dr_endpoint (driver_of s))) ->
  on_endpoint (control_call f) s = on_endpoint (control_call g) s.
Proof. intros E. unfold on_endpoint, control_call. by rewrite E. Qed.

Lemma on_control_call_seq f g s :
  on_endpoint (control_call g) (on_endpoint (control_call f) s).2 = on_endpoint (control_call (fun c => g (f c).2)) s.
Proof. unfold on_endpoint, control_call. cbn [fst snd]. by rewrite on_driver_on_driver, driver_of_on_driver. Qed.

Lemma control_call_settled f s :
  (forall c, zlen (ctl_settings c) <= WT_HTTP3_CONTROL_SETTINGS_MAX -> zlen (ctl_settings (f c).2) <= WT_HTTP3_CONTROL_SETTINGS_MAX) ->
  settled s -> settled (on_endpoint (control_call f) s).2.
Proof.
  intros Hf [Hm Hc]. destruct (on_control_call f s) as (_ & _ & Em & Ec & Ep). split; [by rewrite Em|].
  intros Hk. destruct (Hc Hk) as [Hcap Hz]. rewrite Ec. split; [done|]. unfold control_settings. rewrite Ep. by apply Hf.
Qed.

Lemma control_deliver t p final s :
  is_control = true -> settled s ->
  deliver t p final s = on_ok_result (on_endpoint (control_call (fun c => wt_http3_control_on_frame_payload c t p final)) s) (fun s => (WT_OK, None, s)).
Proof.
  intros Hk Hs. rewrite deliver_hand_up, Hk. unfold on_ok_result. destruct (bool_decide _) eqn:Eo; [|done].
  apply hand_up_keeps; [|done]. apply control_call_settled; [|done]. intros c. apply control_on_payload_settings.
Qed.

Lemma deliver_keeps t p final s : settled s -> same_entries s (deliver t p final s).2 /\ settled (deliver t p final s).2.
Proof.
  intros Hs. destruct is_control eqn:Hk.
  - rewrite control_deliver by done. set (f := fun c => wt_http3_control_on_frame_payload c t p final). destruct (on_control_call f s) as (_ & He & _).
    assert (settled (on_endpoint (control_call f) s).2) by (apply control_call_settled; [intros c; apply control_on_payload_settings|done]).
    unfold on_ok_result. by destruct (bool_decide _).
  - rewrite deliver_hand_up, Hk. destruct (hand_up_keeps t p final s Hs) as (He & Hset & _). auto.
Qed.

Lemma deliver_entry t i g p final s :
  deliver t p final (set_frame i g s) = ((deliver t p final s).1, set_frame i g (deliver t p final s).2).
Proof.
  rewrite !deliver_hand_up. destruct is_control; [|apply hand_up_entry]. rewrite on_control_call_entry. unfold on_ok_result. cbn [fst snd].
  destruct (bool_decide _); [apply hand_up_entry|done].
Qed.

(** Payload in two pieces, control stream or not. *)
Lemma deliver_in_pieces t p q final s :
  p <> [] -> q <> [] -> settled s -> agree (deliver t (p ++ q) final s) (on_ok_result (deliver t p false s) (deliver t q final)).
Proof.
  intros Hp Hq Hs. destruct is_control eqn:Hk.
  2:{ rewrite !deliver_hand_up, Hk. etransitivity; [exact (hand_up_pieces t p q final s Hp Hq)|].
      apply on_ok_result_agree; [done|]. intros _. by rewrite deliver_hand_up, Hk. }
  rewrite !control_deliver, on_ok_result_assoc by done. set (whole := fun c => wt_http3_control_on_frame_payload c t (p ++ q) final).
  set (first := fun c => wt_http3_control_on_frame_payload c t p false). destruct (sd_control _ Hs Hk) as [_ Hz].
  pose proof (control_payload_pieces (ep_peer_control (dr_endpoint (driver_of s))) t p q final Hz) as Hpq. cbv zeta in Hpq.
  change (wt_http3_control_on_frame_payload _ _ (p ++ q) final) with (whole (ep_peer_control (dr_endpoint (driver_of s)))) in Hpq.
  change (wt_http3_control_on_frame_payload _ _ p false) with (first (ep_peer_control (dr_endpoint (driver_of s)))) in Hpq.
  assert (settled (on_endpoint (control_call first) s).2) as Hs' by (apply control_call_settled; [intros c; apply control_on_payload_settings|done]).
  destruct (decide ((first (ep_peer_control (dr_endpoint (driver_of s)))).1.1 = WT_OK)) as [Ho|Ho].
  - rewrite bool_decide_true in Hpq by done. destruct Hpq as [Ew _]. rewrite (on_ok_result_is_ok (on_endpoint (control_call first) s)) by done.
    rewrite on_ok_result_ok, control_deliver, on_control_call_seq by done. by rewrite (on_control_call_ext whole (fun c => wt_http3_control_on_frame_payload (first c).2 t q final)) by exact Ew.
  - rewrite bool_decide_false in Hpq by done. rewrite (on_ok_result_fail (on_endpoint (control_call first) s)) by done.
    assert ((on_endpoint (control_call whole) s).1 = (on_endpoint (control_call first) s).1) as E by (exact Hpq).
    rewrite on_ok_result_fail by (by rewrite E). split; [done|]. rewrite E. intros Ho'. by destruct Ho.
Qed.

(** *** The entry between calls *)

Context (i : nat) (max : Z).

(** A header that is not yet whole, or a frame with payload to come. *)
Definition slot_ok (f : wt_http3_driver_frame_state) : Prop :=
  (bytes_ok (fs_header f) /\ zlen (fs_header f) < WT_HTTP3_DRIVER_FRAME_HEADER_MAX) /\
  if fs_in_frame f then fs_header f = [] /\ 0 <= fs_payload_received f < fs_payload_length f /\ fs_payload_length f < 2 ^ 64
  else parse_header (fs_header f) = None.

(** Where the stream's entry is, and what the endpoint takes the stream for. *)
Definition placed s : Prop :=
  find_frame_state id (driver_of s) = Some i /\ (i < length (dr_frames (driver_of s)))%nat /\
  bool_decide (kind_of s = WT_HTTP3_ENDPOINT_STREAM_CONTROL) = is_control.

Record ready s : Prop := {
  rd_settled : settled s;
  rd_placed : placed s;
  rd_slot : slot_ok (frame_at i s) }.

Lemma rd_index s : placed s -> (i < length (dr_frames (driver_of s)))%nat.
Proof. by intros (_ & Hi & _). Qed.

Lemma first_index_alter (g : wt_http3_driver_frame_state -> wt_http3_driver_frame_state) j n l :
  (forall f, fs_stream_id (g f) = fs_stream_id f) ->
  first_index (fun f => fs_stream_id f =? id) (take n (alter g j l)) = first_index (fun f => fs_stream_id f =? id) (take n l).
Proof.
  intros Hg. revert j n. induction l as [|x l IH]; intros j n; [done|]. destruct n as [|n]; [done|]. destruct j as [|j]; cbn; [by rewrite Hg|].
  change (list_alter g j l) with (alter g j l). by rewrite IH.
Qed.

Lemma placed_set g s : (forall f, fs_stream_id (g f) = fs_stream_id f) -> placed s -> placed (set_frame i g s).
Proof.
  intros Hg (Hf & Hi & Hk). split_and!; [|by rewrite dr_frames_length_set|]; unfold set_frame, find_frame_state, kind_of in *;
    rewrite driver_of_on_driver; upd_simpl; [by rewrite first_index_alter|done].
Qed.

Lemma placed_kept s s' : same_entries s s' -> placed s -> placed s'.
Proof. unfold placed, find_frame_state. by intros (-> & -> & ->). Qed.

Lemma ready_set g s : (forall f, fs_stream_id (g f) = fs_stream_id f) -> ready s -> slot_ok (g (frame_at i s)) -> ready (set_frame i g s).
Proof.
  intros Hi [Hs Hp _] Hg. split; [by apply settled_set|by apply placed_set|by rewrite frame_at_set by apply rd_index, Hp].
Qed.

Lemma same_entries_index s s' : same_entries s s' -> placed s -> (i < length (dr_frames (driver_of s')))%nat.
Proof. intros He Hp. by eapply rd_index, placed_kept. Qed.

Lemma ready_kept s s' : ready s -> same_entries s s' -> settled s' -> ready s'.
Proof.
  intros [_ Hp Hf] He Hs. split; [done|by eapply placed_kept|by rewrite (same_entries_frame _ _ _ He)].
Qed.

Lemma settle_settled d : capsule_mark id d <> Some true -> settle_capsule_stream id d = d.
Proof.
  unfold settle_capsule_stream, capsule_mark. intros Hm. destruct (find_capsule_stream id d) as [j|]; [|done].
  cbn in Hm. destruct (dr_capsule_streams d !! j) as [c|]; [|done]. cbn in Hm. by destruct (cp_headers_pending c).
Qed.

Lemma frame_over_set s : settled s -> frame_over i id s = set_frame i (fun f => f <| fs_in_frame := false |>) s.
Proof.
  intros [Hm _]. unfold frame_over. cbv zeta. destruct (fs_type _ =? _); [|done]. apply on_driver_id, settle_settled.
  unfold set_frame. rewrite driver_of_on_driver. exact Hm.
Qed.

(** [n] more bytes of payload have been taken. *)
Definition consumed (n : Z) : S -> S :=
  set_frame i (fun f => f <| fs_payload_received := u64 (fs_payload_received f + n) |>
                          <| fs_in_frame := negb (u64 (fs_payload_received f + n) =? fs_payload_length f) |>).

Definition left_of s : Z := fs_payload_length (frame_at i s) - fs_payload_received (frame_at i s).

Lemma on_ok_result_ext (r : result (S:=S)) k k' : (r.1.1 = WT_OK -> k r.2 = k' r.2) -> on_ok_result r k = on_ok_result r k'.
Proof.
  intros E. destruct (decide (r.1.1 = WT_OK)); [rewrite !on_ok_result_is_ok by done; auto|by rewrite !on_ok_result_fail].
Qed.

Lemma payload_bytes_ready data s :
  ready s -> fs_in_frame (frame_at i s) = true -> data <> [] ->
  let n := Z.min (zlen data) (left_of s) in
  frame_payload_bytes sink i id is_control data s =
    (on_ok_result (deliver (fs_type (frame_at i s)) (ztake n data) (n =? left_of s) s) (fun s => (WT_OK, None, consumed n s)), zdrop n data).
Proof.
  intros Hr Hin Hne n. destruct Hr as [Hs Hi [_ Hf]]. rewrite Hin in Hf. destruct Hf as (_ & Hrcv & Hlen).
  assert (0 < zlen data) as Hz by (destruct data; [done|]; rewrite zlen_cons; pose proof (zlen_nonneg data); lia).
  unfold frame_payload_bytes. cbv zeta. assert (payload_left i s = left_of s) as -> by (unfold payload_left, left_of; rewrite u64_small; [done|unfold is_u64; lia]).
  change (Z.min (zlen data) (left_of s)) with n. rewrite (proj2 (Z.ltb_lt 0 n)) by (unfold n, left_of; lia). f_equal. rewrite on_ok_result_assoc.
  unfold deliver. apply on_ok_result_ext. intros _. rewrite on_ok_result_ok. set (s' := snd _).
  destruct (deliver_keeps (fs_type (frame_at i s)) (ztake n data) (n =? left_of s) s Hs) as [He Hs']. fold s' in He, Hs'.
  assert (frame_at i s' = frame_at i s) as Ef by (by apply same_entries_frame). pose proof (same_entries_index _ _ He Hi) as Hi'.
  unfold payload_taken. rewrite frame_at_set by done. upd_simpl. rewrite Ef. unfold consumed.
  destruct (Z.eqb_spec (u64 (fs_payload_received (frame_at i s) + n)) (fs_payload_length (frame_at i s))) as [E|E].
  - rewrite (proj2 (Z.eqb_neq _ 0)) by lia. rewrite on_ok_result_ok. rewrite frame_over_set by (by apply settled_set). rewrite set_frame_set_frame.
    f_equal. apply set_frame_ext. rewrite Ef. unfold upd. cbn. by rewrite E, Z.eqb_refl.
  - f_equal. apply set_frame_ext. rewrite Ef. rewrite (proj2 (Z.eqb_neq _ _)) by done. unfold upd. cbn. by rewrite Hin.
Qed.

(** *** One turn of the loop *)

Definition loop (n : nat) (data : list Z) (s : S) : result := frame_loop sink n i id is_control max data s.

Lemma loop_nil n s : loop n [] s = (WT_OK, None, s).
Proof. by destruct n. Qed.

(** The frame whose header has just been read. *)
Definition begun (t l : Z) (s : S) : result :=
  let s := set_frame i (fun f => mk_frame_state (fs_stream_id f) [] true t l 0) s in
  if is_control then
    let r := on_endpoint (fun e => wt_http3_endpoint_on_control_frame e t) s in
    if bool_decide (r.1.1 = WT_OK) then r else (r.1, set_frame i (fun f => f <| fs_in_frame := false |>) r.2)
  else (WT_OK, None, s).

Definition one_more (b : Z) (s : S) : list Z := fs_header (frame_at i s) ++ [b].
Definition with_header (h : list Z) : S -> S := set_frame i (fun f => f <| fs_header := h |>).

Lemma loop_in_frame n data s :
  ready s -> fs_in_frame (frame_at i s) = true -> data <> [] ->
  let k := Z.min (zlen data) (left_of s) in
  loop (Datatypes.S n) data s =
    on_ok_result (deliver (fs_type (frame_at i s)) (ztake k data) (k =? left_of s) s) (fun s' => loop n (zdrop k data) (consumed k s')).
Proof.
  intros Hr Hin Hne k. unfold loop at 1. destruct data as [|b data]; [done|]. cbn [frame_loop]. rewrite Hin. cbn [fst snd].
  rewrite on_ok_result_ok, Hin. cbn [negb]. rewrite payload_bytes_ready by done. cbn [fst snd]. by rewrite on_ok_result_assoc.
Qed.

Lemma fill_header_step b rest s :
  ready s -> fs_in_frame (frame_at i s) = false ->
  fill_header i is_control max (b :: rest) s =
    match parse_header (one_more b s) with
    | None => fill_header i is_control max rest (with_header (one_more b s) s)
    | Some (t, l) =>
        if max <? l then (WT_ERR_LIMIT, Some WT_HTTP3_EXCESSIVE_LOAD, with_header [] (with_header (one_more b s) s), rest)
        else (begun t l s, rest)
    end.
Proof.
  intros [_ Hi [[_ Hh] _]] Hin. cbn [fill_header]. rewrite (proj2 (Z.leb_gt _ _)) by done. cbv zeta.
  change (fs_header (frame_at i s) ++ [b]) with (one_more b s). destruct (parse_header (one_more b s)) as [[t l]|]; [|done].
  destruct (max <? l); [done|]. unfold begun, with_header. rewrite set_frame_set_frame. destruct is_control; [|done]. cbv zeta. by destruct (bool_decide _).
Qed.

(** *** A frame begins *)

Definition role_call (role : wt_http3_role) (t : Z) (c : wt_http3_control_stream) : wt_status * option Z * wt_http3_control_stream :=
  if (t =? WT_HTTP3_FRAME_MAX_PUSH_ID) && bool_decide (role = WT_HTTP3_ROLE_CLIENT) then (WT_ERR_PROTOCOL, Some WT_HTTP3_FRAME_UNEXPECTED, c)
  else wt_http3_control_on_frame c t.

Lemma on_control_frame_call t s :
  on_endpoint (fun e => wt_http3_endpoint_on_control_frame e t) s = on_endpoint (control_call (role_call (ep_role (dr_endpoint (driver_of s))) t)) s.
Proof.
  unfold on_endpoint, wt_http3_endpoint_on_control_frame, control_call, role_call. destruct (_ && _); [|by destruct (wt_http3_control_on_frame _ _) as [[]]].
  cbn [fst snd]. by destruct (dr_endpoint (driver_of s)).
Qed.

Lemma begun_ok t l s :
  ready s -> (begun t l s).1.1 = WT_OK ->
  settled (begun t l s).2 /\ placed (begun t l s).2 /\
  frame_at i (begun t l s).2 = mk_frame_state (fs_stream_id (frame_at i s)) [] true t l 0.
Proof.
  intros [Hs Hi _]. unfold begun. set (f := fun f => mk_frame_state (fs_stream_id f) [] true t l 0). pose proof (settled_set i f s Hs) as Hs'. pose proof (frame_at_set i f s (rd_index _ Hi)) as Ef.
  apply (placed_set f) in Hi; [|done]. set (s' := set_frame i f s) in *. destruct is_control eqn:Hk; [|done].
  cbv zeta. rewrite on_control_frame_call. set (g := role_call _ t). destruct (on_control_call g s') as (_ & He & _).
  assert (settled (on_endpoint (control_call g) s').2) as Hg
    by (apply control_call_settled; [intros c Hc; unfold g, role_call; destruct (_ && _); [done|by apply control_on_frame_settings]|done]).
  destruct (bool_decide _) eqn:Eo; [|cbn [fst]; intros Ho; by rewrite bool_decide_true in Eo].
  intros _. split_and!; [done|by eapply placed_kept|by rewrite (same_entries_frame _ _ _ He)].
Qed.

Lemma loop_header n b rest s :
  ready s -> fs_in_frame (frame_at i s) = false ->
  loop (Datatypes.S n) (b :: rest) s =
    match parse_header (one_more b s) with
    | None => loop (Datatypes.S n) rest (with_header (one_more b s) s)
    | Some (t, l) =>
        if max <? l then (WT_ERR_LIMIT, Some WT_HTTP3_EXCESSIVE_LOAD, with_header [] (with_header (one_more b s) s))
        else on_ok_result (begun t l s) (fun s => 
          if l =? 0 then on_ok_result (deliver t [] true s) (fun s => loop n rest (frame_over i id s)) else loop (Datatypes.S n) rest s)
    end.
Proof.
  intros Hr Hin. unfold loop at 1. cbn [frame_loop]. rewrite Hin, fill_header_step by done.
  destruct (parse_header (one_more b s)) as [[t l]|].
  - destruct (max <? l) eqn:El; [done|]. cbn [fst snd]. apply on_ok_result_ext. intros Ho.
    destruct (begun_ok t l s Hr Ho) as (Hs & Hi & Ef). set (s2 := (begun t l s).2) in *. rewrite Ef. cbn [fs_in_frame negb].
    destruct (Z.eqb_spec l 0) as [->|Hl].
    + unfold frame_payload_bytes. unfold payload_left. rewrite Ef. cbn [fs_payload_length fs_payload_received fs_type]. change (u64 (0 - 0)) with 0.
      rewrite Z.min_r by apply zlen_nonneg. change (0 <? 0) with false. cbv zeta. cbn [fst snd]. rewrite on_ok_result_ok, Ef. cbn [fs_payload_received fs_payload_length fs_type]. change (0 =? 0) with true. cbv iota. rewrite on_ok_result_assoc. done.
    + unfold loop. destruct rest as [|b' rest]; [|cbn [frame_loop]; rewrite Ef; cbn [fs_in_frame fst snd]; by rewrite on_ok_result_ok, Ef].
      unfold frame_payload_bytes. rewrite Z.min_l by (unfold payload_left; apply Z.mod_pos_bound; lia). change (0 <? zlen []) with false.
      cbv zeta. cbn [fst snd]. rewrite on_ok_result_ok, Ef. cbn [fs_payload_received fs_payload_length]. rewrite (proj2 (Z.eqb_neq 0 l)) by done.
      rewrite on_ok_result_ok. by destruct n.
  - assert (fs_in_frame (frame_at i (with_header (one_more b s) s)) = false) as Hin'
      by (unfold with_header; rewrite frame_at_set by apply rd_index, Hr; exact Hin).
    unfold loop. destruct rest as [|b' rest].
    + cbn [fill_header fst snd]. rewrite on_ok_result_ok, Hin'. by destruct n.
    + cbn [frame_loop]. by rewrite Hin'.
Qed.

(** ** The stream a byte at a time *)

Fixpoint frame_bytes (data : list Z) (s : S) : result :=
  match data with
  | [] => (WT_OK, None, s)
  | b :: data => on_ok_result (loop 1 [b] s) (frame_bytes data)
  end.

Lemma frame_bytes_app a b s : frame_bytes (a ++ b) s = on_ok_result (frame_bytes a s) (frame_bytes b).
Proof.
  revert s. induction a as [|x a IH]; intros s; [done|]. cbn [app frame_bytes]. rewrite on_ok_result_assoc. apply on_ok_result_ext. intros _. apply IH.
Qed.

Lemma slot_ok_over f : fs_header f = [] -> slot_ok (f <| fs_in_frame := false |>).
Proof. intros E. unfold slot_ok. upd_simpl. rewrite E. split; [split; [constructor|done]|done]. Qed.

Lemma ready_header b s :
  ready s -> is_u8 b -> fs_in_frame (frame_at i s) = false -> parse_header (one_more b s) = None -> ready (with_header (one_more b s) s).
Proof.
  intros Hr Hb Hin Hp. apply ready_set; [done..|]. destruct Hr as [_ _ [[Hh Hz] _]]. unfold slot_ok. upd_simpl. rewrite Hin.
  assert (bytes_ok (one_more b s)) by (by apply Forall_app; split; [|constructor]). unfold WT_HTTP3_DRIVER_FRAME_HEADER_MAX in *.
  assert (zlen (one_more b s) <= 16) by (unfold one_more; rewrite zlen_app; change (zlen [b]) with 1; lia).
  split_and!; [done| |done]. apply parse_header_short; [done|lia|done].
Qed.

Lemma ready_begun b t l s :
  ready s -> is_u8 b -> parse_header (one_more b s) = Some (t, l) -> (begun t l s).1.1 = WT_OK -> l <> 0 -> ready (begun t l s).2.
Proof.
  intros Hr Hb Hp Ho Hl. destruct (begun_ok t l s Hr Ho) as (Hs & Hi & Ef). split; [done..|]. rewrite Ef. unfold slot_ok. cbn.
  destruct Hr as [_ _ [[Hh Hz] _]]. unfold WT_HTTP3_DRIVER_FRAME_HEADER_MAX in *.
  assert (varint_ok l) as Hv.
  { eapply parse_header_length; [| |exact Hp]; [by apply Forall_app; split; [|constructor]|]. unfold one_more. rewrite zlen_app. change (zlen [b]) with 1. lia. }
  unfold varint_ok, WT_QUIC_VARINT_MAX in Hv. split_and!; try done; try lia. constructor.
Qed.

Lemma ready_over t s s2 :
  settled s2 -> placed s2 -> fs_header (frame_at i s2) = [] -> s = (deliver t [] true s2).2 ->
  ready (frame_over i id s).
Proof.
  intros Hs Hi Hh ->. destruct (deliver_keeps t [] true s2 Hs) as [He Hs']. rewrite frame_over_set by done.
  split; [by apply settled_set|by apply placed_set; [|by eapply placed_kept]|].
  rewrite frame_at_set by (by eapply same_entries_index). apply slot_ok_over. by rewrite (same_entries_frame _ _ _ He).
Qed.

Lemma ready_consumed t p final k s :
  ready s -> fs_in_frame (frame_at i s) = true -> 0 < k <= left_of s -> ready (consumed k (deliver t p final s).2).
Proof.
  intros Hr Hin Hk. destruct (deliver_keeps t p final s (rd_settled _ Hr)) as [He Hs]. pose proof (ready_kept _ _ Hr He Hs) as Hr'. apply ready_set; [done..|].
  rewrite (same_entries_frame _ _ _ He). destruct Hr as [_ _ [_ Hf]]. rewrite Hin in Hf. destruct Hf as (Hh & Hrcv & Hlen). unfold left_of in Hk.
  unfold slot_ok. upd_simpl. rewrite Hh, (u64_small (_ + _)) by (unfold is_u64; lia). destruct (Z.eqb_spec (fs_payload_received (frame_at i s) + k) (fs_payload_length (frame_at i s))); cbn [negb]; split_and!; try done; try lia; constructor.
Qed.

Lemma consumed_frame s k : (i < length (dr_frames (driver_of s)))%nat ->
  frame_at i (consumed k s) = frame_at i s <| fs_payload_received := u64 (fs_payload_received (frame_at i s) + k) |>
                                          <| fs_in_frame := negb (u64 (fs_payload_received (frame_at i s) + k) =? fs_payload_length (frame_at i s)) |>.
Proof. intros Hi. unfold consumed. by rewrite frame_at_set. Qed.

Lemma consumed_consumed j k s : consumed k (consumed j s) = consumed (j + k) s.
Proof.
  unfold consumed. rewrite set_frame_set_frame. apply set_frame_ext. unfold upd. cbn. unfold u64. rewrite Z.add_mod_idemp_l, Z.add_assoc by lia. done.
Qed.

(** Inside a frame: the turn of one byte, and the turn of the rest after it. *)
Lemma loop_one_byte b s :
  ready s -> fs_in_frame (frame_at i s) = true ->
  loop 1 [b] s = on_ok_result (deliver (fs_type (frame_at i s)) [b] (1 =? left_of s) s) (fun s => (WT_OK, None, consumed 1 s)).
Proof.
  intros Hr Hin. rewrite loop_in_frame by done. destruct Hr as [_ _ [_ Hf]]. rewrite Hin in Hf. change (zlen [b]) with 1.
  rewrite Z.min_l by (unfold left_of; lia). apply on_ok_result_ext. intros _. by rewrite loop_nil.
Qed.

Lemma loop_rest_of_frame n t b rest s :
  ready s -> fs_in_frame (frame_at i s) = true -> t = fs_type (frame_at i s) -> 1 < left_of s -> rest <> [] ->
  let k := Z.min (zlen rest) (left_of s - 1) in let s' := (deliver t [b] false s).2 in
  agree (loop (Datatypes.S n) rest (consumed 1 s'))
    (on_ok_result (deliver t (ztake k rest) (1 + k =? left_of s) s') (fun s => loop n (zdrop k rest) (consumed (1 + k) s))).
Proof.
  intros Hr Hin Et Hl Hne k s'. destruct (deliver_keeps t [b] false s (rd_settled _ Hr)) as [He Hs]. fold s' in He, Hs.
  pose proof (same_entries_index _ _ He (rd_placed _ Hr)) as Hi. assert (ready (consumed 1 s')) as Hr1 by (apply ready_consumed; [done..|lia]).
  pose proof (consumed_frame s' 1 Hi) as Ef. rewrite (same_entries_frame _ _ _ He) in Ef. destruct Hr as [_ _ [_ Hf]]. rewrite Hin in Hf. unfold left_of in *.
  rewrite u64_small in Ef by (unfold is_u64; lia). assert (left_of (consumed 1 s') = left_of s - 1) as El by (unfold left_of; rewrite Ef; upd_simpl; lia).
  rewrite loop_in_frame; [|done|by rewrite Ef; upd_simpl; rewrite (proj2 (Z.eqb_neq _ _)) by lia|done]. rewrite El. unfold left_of. fold k.
  assert (fs_type (frame_at i (consumed 1 s')) = t) as -> by (rewrite Ef; by upd_simpl).
  replace (k =? _ - _ - 1) with (1 + k =? fs_payload_length (frame_at i s) - fs_payload_received (frame_at i s))
    by (destruct (Z.eqb_spec (1 + k) (fs_payload_length (frame_at i s) - fs_payload_received (frame_at i s))); destruct (Z.eqb_spec k (fs_payload_length (frame_at i s) - fs_payload_received (frame_at i s) - 1)); lia).
  unfold consumed at 1. rewrite deliver_entry. unfold on_ok_result. cbn [fst snd]. fold (consumed 1 (deliver t (ztake k rest) (1 + k =? fs_payload_length (frame_at i s) - fs_payload_received (frame_at i s)) s').2).
  rewrite consumed_consumed. destruct (bool_decide _) eqn:Eo; [done|]. split; [done|]. cbn [fst]. intros Ho. by rewrite bool_decide_true in Eo.
Qed.

Lemma ready_byte b s : ready s -> is_u8 b -> (loop 1 [b] s).1.1 = WT_OK -> ready (loop 1 [b] s).2.
Proof.
  intros Hr Hb. destruct (fs_in_frame (frame_at i s)) eqn:Hin.
  - rewrite loop_one_byte by done. pose proof (rd_slot _ Hr) as [_ Hf]. rewrite Hin in Hf.
    destruct (decide ((deliver (fs_type (frame_at i s)) [b] (1 =? left_of s) s).1.1 = WT_OK)) as [Ho|Ho].
    + rewrite on_ok_result_is_ok by done. intros _. apply ready_consumed; [done..|unfold left_of; lia].
    + rewrite on_ok_result_fail by done. done.
  - rewrite loop_header by done. destruct (parse_header _) as [[t l]|] eqn:Ep; [|intros _; by apply ready_header]. case_goal; [done|].
    destruct (decide ((begun t l s).1.1 = WT_OK)) as [Ho|Ho]; [|by rewrite on_ok_result_fail by done]. rewrite on_ok_result_is_ok by done.
    destruct (Z.eqb_spec l 0) as [->|Hl]; [|intros _; by eapply ready_begun]. destruct (begun_ok t 0 s Hr Ho) as (Hs2 & Hi2 & Ef).
    destruct (decide ((deliver t [] true (begun t 0 s).2).1.1 = WT_OK)) as [Hd|Hd]; [|by rewrite on_ok_result_fail by done].
    rewrite on_ok_result_is_ok by done. intros _. cbn [snd loop frame_loop]. eapply ready_over; [exact Hs2|done|by rewrite Ef|done].
Qed.

(** A turn inside a frame. *)
Lemma loop_bytes_in_frame n b rest s :
  ready s -> is_u8 b -> fs_in_frame (frame_at i s) = true -> (length rest <= n)%nat ->
  (forall m data s, (length data <= length rest)%nat -> bytes_ok data -> (length data <= m)%nat -> ready s -> agree (loop m data s) (frame_bytes data s)) ->
  bytes_ok rest -> agree (loop (Datatypes.S n) (b :: rest) s) (frame_bytes (b :: rest) s).
Proof.
  intros Hr Hb Hin Hn IH Hrest. pose proof (rd_slot _ Hr) as [_ Hf]. rewrite Hin in Hf. assert (0 < left_of s) as Hl by (unfold left_of; lia).
  cbn [frame_bytes]. rewrite loop_in_frame, loop_one_byte, on_ok_result_assoc by done. pose proof (zlen_nonneg rest). rewrite zlen_cons.
  destruct (decide (rest <> [] /\ 1 < left_of s)) as [[Hne Hl1]|Hlast].
  - set (k := Z.min (zlen rest) (left_of s - 1)). assert (0 < k) as Hk.
    { unfold k. destruct rest; [done|]. rewrite zlen_cons. pose proof (zlen_nonneg rest). lia. }
    replace (Z.min (1 + zlen rest) (left_of s)) with (1 + k) by lia. rewrite ztake_cons, zdrop_cons by lia. replace (1 + k - 1) with k by lia.
    rewrite (proj2 (Z.eqb_neq 1 _)) by lia. etransitivity.
    { eapply on_ok_result_agree_l. apply (deliver_in_pieces _ [b] (ztake k rest)); [done| |by apply Hr].
      intros E. apply (f_equal zlen) in E. rewrite zlen_ztake in E by lia. rewrite zlen_nil in E. lia. }
    rewrite on_ok_result_assoc. apply on_ok_result_agree; [reflexivity|]. intros Ho. rewrite on_ok_result_ok.
    etransitivity; [symmetry; by apply loop_rest_of_frame|]. apply IH; [lia|done| |].
    + destruct rest; [done|cbn in *; lia].
    + apply ready_consumed; [done..|lia].
  - replace (Z.min (1 + zlen rest) (left_of s)) with 1 by (destruct rest; [rewrite zlen_nil; lia|destruct (decide (1 < left_of s)); [by destruct Hlast|lia]]).
    rewrite ztake_cons, zdrop_cons by lia. change (1 - 1) with 0. change (ztake 0 rest) with (@nil Z). change (zdrop 0 rest) with rest.
    apply on_ok_result_agree; [reflexivity|]. intros _. rewrite on_ok_result_ok. apply IH; [done..|]. apply ready_consumed; [done..|lia].
Qed.

Lemma loop_bytes_out_of_frame n b rest s :
  ready s -> is_u8 b -> fs_in_frame (frame_at i s) = false -> (length rest <= n)%nat ->
  (forall m data s, (length data <= length rest)%nat -> bytes_ok data -> (length data <= m)%nat -> ready s -> agree (loop m data s) (frame_bytes data s)) ->
  bytes_ok rest -> agree (loop (Datatypes.S n) (b :: rest) s) (frame_bytes (b :: rest) s).
Proof.
  intros Hr Hb Hin Hn IH Hrest. cbn [frame_bytes]. rewrite !loop_header by done. destruct (parse_header _) as [[t l]|] eqn:Ep.
  - case_goal; [done|]. rewrite on_ok_result_assoc. apply on_ok_result_agree; [reflexivity|]. intros Ho.
    destruct (Z.eqb_spec l 0) as [->|Hl].
    + rewrite on_ok_result_assoc. apply on_ok_result_agree; [reflexivity|]. intros Hd. rewrite loop_nil, on_ok_result_ok. apply IH; [done..|].
      destruct (begun_ok t 0 s Hr Ho) as (Hs2 & Hi2 & Ef). eapply ready_over; [exact Hs2|done|by rewrite Ef|done].
    + rewrite loop_nil, on_ok_result_ok. apply IH; [done..|lia|]. by eapply ready_begun.
  - rewrite loop_nil, on_ok_result_ok. apply IH; [done..|lia|]. by apply ready_header.
Qed.

(** With fuel for every byte the loop does what its bytes do one after the other. *)
Lemma loop_bytes data : forall n s, bytes_ok data -> (length data <= n)%nat -> ready s -> agree (loop n data s) (frame_bytes data s).
Proof.
  induction data as [data IH] using (induction_ltof1 _ (@length Z)). unfold ltof in IH. intros n s Hd Hn Hr.
  destruct data as [|b rest]; [by rewrite loop_nil|]. destruct n as [|n]; [cbn in Hn; lia|]. apply Forall_cons in Hd as [Hb Hd]. cbn [length] in *.
  destruct (fs_in_frame (frame_at i s)) eqn:Hin; [apply loop_bytes_in_frame|apply loop_bytes_out_of_frame]; try done; try lia; intros; apply IH; done || lia.
Qed.

Lemma ready_bytes data : forall s, bytes_ok data -> ready s -> (frame_bytes data s).1.1 = WT_OK -> ready (frame_bytes data s).2.
Proof.
  induction data as [|b data IH]; intros s Hd Hr; [done|]. apply Forall_cons in Hd as [Hb Hd]. cbn [frame_bytes].
  destruct (decide ((loop 1 [b] s).1.1 = WT_OK)) as [Ho|Ho]; [|by rewrite on_ok_result_fail by done].
  rewrite on_ok_result_is_ok by done. apply IH; [done|]. by apply ready_byte.
Qed.

(** ** Whole frames *)

Definition idle s : Prop := ready s /\ fs_in_frame (frame_at i s) = false /\ fs_header (frame_at i s) = [].

(** What a whole frame does: it begins, its payload is delivered once, it is over. *)
Definition frame_read (f : wt_http3_frame) (s : S) : result :=
  on_ok_result (begun (h3_type f) (zlen (h3_payload f)) s) (fun s =>
    on_ok_result (deliver (h3_type f) (h3_payload f) true s) (fun s =>
      (WT_OK, None, set_frame i (fun e => e <| fs_payload_received := zlen (h3_payload f) |> <| fs_in_frame := false |>) s))).

Fixpoint frames_read (frames : list wt_http3_frame) (s : S) : result :=
  match frames with
  | [] => (WT_OK, None, s)
  | f :: frames => on_ok_result (frame_read f s) (frames_read frames)
  end.

Lemma begun_with_header h t l s : begun t l (with_header h s) = begun t l s.
Proof. unfold begun, with_header. by rewrite set_frame_set_frame. Qed.

Lemma loop_header_bytes t l n rest h2 : forall s,
  varint_ok t -> varint_ok l -> l <= max -> bytes_ok h2 -> h2 <> [] -> ready s -> fs_in_frame (frame_at i s) = false ->
  fs_header (frame_at i s) ++ h2 = varint_bytes t ++ varint_bytes l ->
  loop (Datatypes.S n) (h2 ++ rest) s = on_ok_result (begun t l s) (fun s =>
    if l =? 0 then on_ok_result (deliver t [] true s) (fun s => loop n rest (frame_over i id s)) else loop (Datatypes.S n) rest s).
Proof.
  induction h2 as [|b h2 IH]; intros s Ht Hl Hm Hb Hne Hr Hin E; [done|]. apply Forall_cons in Hb as [Hb Hb2]. cbn [app].
  change (b :: h2) with ([b] ++ h2) in E. rewrite app_assoc in E. change (_ ++ [b]) with (one_more b s) in E.
  pose proof (parse_header_wire _ _ t l Ht Hl E) as Hp. rewrite loop_header, Hp by done. destruct h2 as [|b' h2].
  - rewrite (proj2 (Z.ltb_ge max l)) by lia. done.
  - assert (fs_header (frame_at i (with_header (one_more b s) s)) = one_more b s /\ fs_in_frame (frame_at i (with_header (one_more b s) s)) = false) as [Eh Ein]
      by (unfold with_header; by rewrite frame_at_set by apply rd_index, Hr).
    rewrite IH; [by rewrite begun_with_header|done..|by apply ready_header|done|by rewrite Eh].
Qed.

Lemma frame_read_idle f s : h3_frame_ok f -> idle s -> (frame_read f s).1.1 = WT_OK -> idle (frame_read f s).2.
Proof.
  intros _ (Hr & Hin & Hh). unfold frame_read. destruct (decide ((begun (h3_type f) (zlen (h3_payload f)) s).1.1 = WT_OK)) as [Ho|Ho];
    [|by rewrite on_ok_result_fail by done]. rewrite on_ok_result_is_ok by done. destruct (begun_ok _ _ s Hr Ho) as (Hs & Hp & Ef). set (s2 := (begun _ _ s).2) in *.
  destruct (decide ((deliver (h3_type f) (h3_payload f) true s2).1.1 = WT_OK)) as [Hd|Hd]; [|by rewrite on_ok_result_fail by done].
  rewrite on_ok_result_is_ok by done. intros _. cbn [snd]. destruct (deliver_keeps (h3_type f) (h3_payload f) true s2 Hs) as [He Hs'].
  pose proof (placed_kept _ _ He Hp) as Hp'. set (s3 := (deliver _ _ _ s2).2) in *. unfold idle. rewrite !frame_at_set by (by apply rd_index).
  rewrite (same_entries_frame _ _ _ He), Ef. upd_simpl. cbn [fs_header]. split_and!; [|done..]. split; [by apply settled_set|by apply placed_set|].
  rewrite frame_at_set by (by apply rd_index). rewrite (same_entries_frame _ _ _ He), Ef. unfold slot_ok. upd_simpl. cbn. split; [split; [constructor|done]|done].
Qed.

Lemma loop_frame f n rest s :
  h3_frame_ok f -> zlen (h3_payload f) <= max -> idle s ->
  loop (Datatypes.S n) (h3_frame_bytes f ++ rest) s = on_ok_result (frame_read f s) (loop n rest).
Proof.
  intros (Ht & Hl & Hp) Hm (Hr & Hin & Hh). destruct f as [t p]. cbn [h3_type h3_payload] in *. unfold h3_frame_bytes, tlv_bytes. cbn [h3_type h3_payload].
  rewrite <- !app_assoc, app_assoc. pose proof (zlen_nonneg p). assert (varint_ok (zlen p)) as Hl' by done.
  rewrite (loop_header_bytes t (zlen p)); try done; [| | |by rewrite Hh].
  2:{ apply Forall_app; split; apply varint_bytes_ok. }
  2:{ intros E. apply app_eq_nil in E as [E _]. by apply (proj2 (prefix_needed_varint t Ht)). }
  unfold frame_read. cbn [h3_type h3_payload]. rewrite on_ok_result_assoc. apply on_ok_result_ext. intros Ho.
  destruct (begun_ok _ _ s Hr Ho) as (Hs & Hpl & Ef). set (s2 := (begun _ _ s).2) in *. rewrite on_ok_result_assoc.
  destruct (deliver_keeps t p true s2 Hs) as [He Hs']. destruct (Z.eqb_spec (zlen p) 0) as [E0|E0].
  - destruct p; [|rewrite zlen_cons in E0; pose proof (zlen_nonneg p); lia]. apply on_ok_result_ext. intros _. rewrite on_ok_result_ok. cbn [app].
    f_equal. rewrite frame_over_set by done. apply set_frame_ext. rewrite (same_entries_frame _ _ _ He), Ef. done.
  - assert (ready s2) as Hr2.
    { split; [done..|]. rewrite Ef. unfold slot_ok. cbn. unfold varint_ok, WT_QUIC_VARINT_MAX in Hl'. split_and!; try done; try lia. constructor. }
    assert (left_of s2 = zlen p) as El by (unfold left_of; rewrite Ef; cbn; lia).
    rewrite loop_in_frame; [|done|by rewrite Ef|by destruct p]. rewrite El, zlen_app, Ef. cbn [fs_type]. pose proof (zlen_nonneg rest).
    rewrite Z.min_r, Z.eqb_refl by lia. unfold ztake, zdrop, zlen. rewrite Nat2Z.id, take_app_length, drop_app_length.
    apply on_ok_result_ext. intros _. rewrite on_ok_result_ok. f_equal. unfold consumed. apply set_frame_ext. rewrite (same_entries_frame _ _ _ He), Ef. unfold upd. cbn.
    unfold varint_ok, WT_QUIC_VARINT_MAX, zlen in *. rewrite u64_small by (unfold is_u64; lia). by rewrite Z.eqb_refl.
Qed.

Lemma loop_frames frames : forall n s,
  Forall h3_frame_ok frames -> Forall (fun f => zlen (h3_payload f) <= max) frames -> idle s -> (length frames <= n)%nat ->
  loop n (concat (map h3_frame_bytes frames)) s = frames_read frames s.
Proof.
  induction frames as [|f frames IH]; intros n s Hf Hm Hi Hn; [apply loop_nil|]. apply Forall_cons in Hf as [Hf Hfs]. apply Forall_cons in Hm as [Hm Hms].
  destruct n as [|n]; [cbn in Hn; lia|]. cbn [map concat frames_read length] in *. rewrite loop_frame by done. apply on_ok_result_ext. intros Ho.
  apply IH; [done..|by apply frame_read_idle|lia].
Qed.
End Pieces.

(** ** A stream in pieces *)

Section Stream.
Context {S : Type} `{HostLaws S} (sink : wt_http3_driver_sink S) (id max : Z).
Implicit Types s : S.

Definition reads_control s : bool := bool_decide (kind_of id s = WT_HTTP3_ENDPOINT_STREAM_CONTROL).

(** The stream has an entry between calls, or none and the table is whole. *)
Definition entry_ok (d : wt_http3_driver) : Prop :=
  match find_frame_state id d with
  | Some i => slot_ok (default zeroed_frame_state (dr_frames d !! i))
  | None => length (dr_frames d) = WT_HTTP3_DRIVER_FRAMES_MAX
  end.

(** The driver is called with one piece after the other. *)
Fixpoint stream_pieces (pieces : list (list Z)) (fin : bool) (s : S) : result :=
  match pieces with
  | [] => (WT_OK, None, s)
  | [p] => wt_http3_driver_on_stream_bytes sink id p fin max s
  | p :: pieces => on_ok_result (wt_http3_driver_on_stream_bytes sink id p false max s) (stream_pieces pieces fin)
  end.

Definition ended (i : nat) (fin : bool) (s : S) : result := if fin then stream_finished sink i id s else (WT_OK, None, s).

Lemma first_index_snoc {A} (p : A -> bool) l x : first_index p l = None -> p x = true -> first_index p (l ++ [x]) = Some (length l).
Proof.
  induction l as [|y l IH]; cbn; [by intros _ ->|]. destruct (p y); [done|]. intros Hl Hx.
  destruct (first_index p l); [done|]. by rewrite IH.
Qed.

Lemma find_frame_lt d j : find_frame_state id d = Some j -> (j < length (dr_frames d))%nat.
Proof. intros Hj%first_index_lt. rewrite length_take in Hj. lia. Qed.

(** Taking an entry does not change what the call does. *)
Lemma frame_entry_ready i s s' ctl :
  settled id ctl s -> entry_ok (driver_of s) -> reads_control s = ctl -> frame_entry id s = Some (i, s') ->
  ready id ctl i s' /\ frame_entry id s' = Some (i, s').
Proof.
  intros Hs He Hc. unfold entry_ok in He. unfold frame_entry at 1. destruct (find_frame_state id (driver_of s)) as [j|] eqn:Ej.
  - intros [= <- <-]. split; [|by unfold frame_entry; rewrite Ej]. split; [done|split_and!; [done|by apply find_frame_lt|done]|exact He].
  - case_goal; [done|]. intros [= <- <-]. set (n := dr_frame_count _) in *. apply Nat.leb_gt in Heqb. set (g := fun f => mk_frame_state _ _ _ _ _ _).
    set (d' := driver_of s <| dr_frames ::= alter g n |> <| dr_frame_count ::= Datatypes.S |>).
    assert (exists x, dr_frames (driver_of s) !! n = Some x) as [x Hx] by (apply lookup_lt_is_Some_2; lia).
    assert (find_frame_state id d' = Some n) as Hf.
    { unfold find_frame_state, d'. upd_simpl. fold n. rewrite (take_S_r _ n (g x)) by (rewrite list_lookup_alter, decide_True by done; by rewrite Hx).
      rewrite take_alter, decide_False by lia. rewrite first_index_snoc; [f_equal; rewrite length_take; lia|exact Ej|by apply Z.eqb_refl]. }
    set (s' := on_driver _ s). assert (driver_of s' = d') as Ed by (unfold s'; by rewrite driver_of_on_driver). clearbody s'.
    unfold frame_entry. rewrite Ed, Hf. split; [|done]. split.
    + destruct Hs as [Hm Hcs]. split; unfold capsules, control_settings in *; by rewrite Ed.
    + split_and!; [by rewrite Ed|rewrite Ed; unfold d'; upd_simpl; rewrite length_alter; lia|by unfold kind_of in *; rewrite Ed].
    + unfold frame_at. rewrite Ed. unfold d'. upd_simpl. rewrite list_lookup_alter, decide_True, Hx by done. split; [split; [constructor|done]|done].
Qed.

Context (ctl : bool) (Hsink : steady_sink sink id ctl).

(** From an entry: the bytes one after the other, then the end. *)
Lemma on_stream_ready i data fin s :
  ready id ctl i s -> bytes_ok data ->
  agree (wt_http3_driver_on_stream_bytes sink id data fin max s) (on_ok_result (frame_bytes sink id ctl i max data s) (ended i fin)).
Proof.
  intros Hr Hd. pose proof (rd_placed _ _ _ _ Hr) as (Hf & _ & Hk). unfold wt_http3_driver_on_stream_bytes, frame_entry. rewrite Hf.
  unfold kind_of in Hk. rewrite Hk. apply on_ok_result_agree; [|done]. apply loop_bytes; [done..|lia|done].
Qed.

Lemma stream_pieces_ready i pieces fin : forall s,
  ready id ctl i s -> Forall bytes_ok pieces -> pieces <> [] ->
  agree (stream_pieces pieces fin s) (on_ok_result (frame_bytes sink id ctl i max (concat pieces) s) (ended i fin)).
Proof.
  induction pieces as [|p pieces IH]; intros s Hr Hp Hne; [done|]. apply Forall_cons in Hp as [Hp Hps]. cbn [concat]. rewrite frame_bytes_app, on_ok_result_assoc.
  destruct pieces as [|p' pieces].
  - cbn [stream_pieces concat]. etransitivity; [by apply on_stream_ready|]. apply on_ok_result_agree; [done|]. intros _. by cbn [frame_bytes].
  - change (stream_pieces (p :: p' :: pieces) fin s) with (on_ok_result (wt_http3_driver_on_stream_bytes sink id p false max s) (stream_pieces (p' :: pieces) fin)).
    etransitivity; [exact (on_ok_result_agree_l _ _ (stream_pieces (p' :: pieces) fin) (on_stream_ready i p false s Hr Hp))|].
    rewrite on_ok_result_assoc. apply on_ok_result_agree; [done|]. intros Ho. unfold ended at 1. rewrite on_ok_result_ok.
    apply IH; [by apply ready_bytes|done|done].
Qed.
End Stream.

(** C5. How a stream is cut does not matter to the frame reader, for arbitrary bytes:
    calling wt_http3_driver_on_stream_bytes with any pieces, one after the other until one
    is refused, gives the status and HTTP/3 code of one call with their concatenation and,
    when nothing is refused, the same state. This holds on the control stream, where the
    endpoint collects SETTINGS, and on every other stream, for a layer above that takes
    payload in pieces like payload at once and does not turn the stream into one that waits
    for its CONNECT response. *)
Theorem stream_bytes_in_pieces {S} `{HostLaws S} (sink : wt_http3_driver_sink S) id max ctl pieces fin s :
  steady_sink sink id ctl -> settled id ctl s -> entry_ok id (driver_of s) -> reads_control id s = ctl ->
  Forall bytes_ok pieces -> pieces <> [] ->
  agree (stream_pieces sink id max pieces fin s) (wt_http3_driver_on_stream_bytes sink id (concat pieces) fin max s).
Proof.
  intros Hsink Hs He Hc Hp Hne. destruct (frame_entry id s) as [[i s']|] eqn:Ef.
  - destruct (frame_entry_ready id i s s' ctl Hs He Hc Ef) as [Hr Ef'].
    assert (forall data fin, wt_http3_driver_on_stream_bytes sink id data fin max s = wt_http3_driver_on_stream_bytes sink id data fin max s') as Esame
      by (intros data fin'; unfold wt_http3_driver_on_stream_bytes; by rewrite Ef, Ef').
    assert (stream_pieces sink id max pieces fin s = stream_pieces sink id max pieces fin s') as ->.
    { destruct pieces as [|p [|p' pieces]]; [done|..]; cbn [stream_pieces]; by rewrite Esame. }
    rewrite Esame. etransitivity; [by apply stream_pieces_ready|]. symmetry. apply on_stream_ready; [done..|by apply Forall_concat].
  - assert (forall data fin, wt_http3_driver_on_stream_bytes sink id data fin max s = (WT_ERR_LIMIT, None, s)) as Esame
      by (intros data fin'; unfold wt_http3_driver_on_stream_bytes; by rewrite Ef).
    destruct pieces as [|p [|p' pieces]]; [done|..]; cbn [stream_pieces]; by rewrite !Esame.
Qed.

(** A driver and what the layer above was told, newest last: a host with no transport. *)
Definition reader : Type := wt_http3_driver * list (Z * Z * list Z * bool).

#[export] Instance reader_host : Host reader := {
  driver_of := fst;
  put_driver d s := (d, s.2);
  open_stream _ _ s := (Fail WT_ERR_STATE None, s);
  send_stream _ _ _ _ s := (WT_ERR_STATE, s);
  send_datagram _ s := (WT_ERR_STATE, s);
  connection_role _ := WT_QUIC_ROLE_SERVER;
  stream_of _ _ := None;
  stream_send_offset _ _ := Fail WT_ERR_CLOSED None;
  reset_stream_at _ _ _ _ s := (WT_ERR_STATE, s);
  stop_sending _ _ _ s := (WT_ERR_STATE, s);
  refuse_application _ _ s := s }.

#[export] Instance reader_laws : HostLaws reader.
Proof. split; [done|by intros []|done]. Qed.

(** A layer above that collects the payload of each frame and looks at nothing else. *)
Definition collect (id t : Z) (p : list Z) (s : reader) : reader :=
  (s.1, match s.2 with
        | (id', t', q, false) :: l => (id', t', q ++ p, false) :: l
        | l => (id, t, p, false) :: l
        end).
Definition close_frame (s : reader) : reader := (s.1, match s.2 with (id, t, q, _) :: l => (id, t, q, true) :: l | l => l end).

Definition reading_sink : wt_http3_driver_sink reader :=
  mk_sink (Some (fun id t p final s => (WT_OK, if final : bool then close_frame (collect id t p s) else collect id t p s)))
    (Some (fun id p _ s => (WT_OK, collect id WT_HTTP3_FRAME_DATA p s))) None.

Lemma collect_pieces id t p q s : collect id t (p ++ q) s = collect id t q (collect id t p s).
Proof. destruct s as [d [|[[[id' t'] p'] []] l]]; unfold collect; cbn; by rewrite ?app_assoc. Qed.

Lemma reading_sink_steady id : steady_sink reading_sink id false.
Proof.
  split; [intros t| |done]; split; try done; try (intros p [] [d l]; done); try (intros i g p [] [d l]; done).
  - intros p q [] s _ _; unfold on_ok; cbn; by rewrite collect_pieces.
  - intros p q final s _ _; unfold on_ok; cbn; by rewrite collect_pieces.
Qed.


(** *** Where they hold *)

Definition reader_start : reader := (wt_http3_driver_init (wt_http3_endpoint_init WT_HTTP3_ROLE_SERVER 0), []).
Definition three_frames : list wt_http3_frame := [mk_h3_frame WT_HTTP3_FRAME_HEADERS [7; 8]; mk_h3_frame 0x4021 []; mk_h3_frame WT_HTTP3_FRAME_DATA [1; 2; 3]].
Definition three_pieces : list (list Z) := [[1]; [2; 7]; []; [8; 0x80; 0; 0x40]; [0x21; 0; 0; 3; 1]; [2; 3]].

Lemma reader_start_ok : settled 0 false reader_start /\ entry_ok 0 (driver_of reader_start) /\ reads_control 0 reader_start = false.
Proof. split_and!; [split; done|done|by vm_compute]. Qed.

Lemma three_pieces_ok : Forall bytes_ok three_pieces.
Proof. unfold three_pieces. repeat (apply Forall_cons; split; [by apply bytes_okb_spec|]). constructor. Qed.

Lemma three_frames_ok : Forall h3_frame_ok three_frames.
Proof. unfold three_frames. repeat (apply Forall_cons; split; [split_and!; [done..|by apply bytes_okb_spec]|]). constructor. Qed.

Lemma three_frames_short : Forall (fun f => zlen (h3_payload f) <= 100) three_frames.
Proof. by apply Forall_forall; intros f [<-|[<-|[<-|[]]]]%list_elem_of_In. Qed.

Lemma stream_bytes_in_pieces_witness :
  agree (stream_pieces reading_sink 0 100 three_pieces true reader_start)
    (wt_http3_driver_on_stream_bytes reading_sink 0 [1; 2; 7; 8; 0x80; 0; 0x40; 0x21; 0; 0; 3; 1; 2; 3] true 100 reader_start) /\
  (stream_pieces reading_sink 0 100 three_pieces true reader_start).2.2 = [(0, 0, [1; 2; 3], true); (0, 0x4021, [], true); (0, 1, [7; 8], true)].
Proof.
  split; [|by vm_compute]. destruct reader_start_ok as (H1 & H2 & H3).
  exact (stream_bytes_in_pieces reading_sink 0 100 false three_pieces true reader_start (reading_sink_steady 0) H1 H2 H3 three_pieces_ok ltac:(done)).
Defined.

