(* ===== verification/DriverEdges.v ===== *)
(** * What the driver does that its comments do not say: runs of [Driver] and
    [DriverRoute] on concrete streams. *)

From S2P Require Import Prelude Core Crypto Protection Frame Stream Update Connection ConnectionKeys ConnectionSend ConnectionLoss ConnectionStream ConnectionSample.
From S2P Require Import DriverQuic DriverFrames.

(** A layer above that notes each delivery as it is made. *)
Definition noting_sink : wt_http3_driver_sink reader :=
  mk_sink (Some (fun id t p final s => (WT_OK, (s.1, s.2 ++ [(id, t, p, final)]))))
    (Some (fun id p fin s => (WT_OK, (s.1, s.2 ++ [(id, WT_HTTP3_FRAME_DATA, p, fin)])))) None.

Definition server_reader : reader := reader_start.
Definition client_reader : reader := (wt_http3_driver_init (wt_http3_endpoint_init WT_HTTP3_ROLE_CLIENT 0), []).

(** A STREAM frame arrives. *)
Definition arrives (id offset : Z) (data : list Z) (fin : bool) (s : reader) : wt_status * reader :=
  wt_http3_driver_on_quic_frame noting_sink (FRAME_STREAM (mk_stream_frame id offset true fin true data)) 1000 s.
Definition bytes_arrive (id : Z) (data : list Z) (fin : bool) (s : reader) : wt_status * reader :=
  let r := wt_http3_driver_on_stream_bytes noting_sink id data fin 1000 s in (r.1.1, r.2).

(** ** A frame half read when the CONNECT response settles *)

(** The client waits for the response on stream 0; the HEADERS frame and the
    start of a DATA frame come in one STREAM frame. *)
Definition waiting_client : reader := on_driver (fun d => (wt_http3_driver_mark_capsule_stream 0 true d).2) client_reader.

(** The whole HEADERS frame gives the stream's slot back, and what follows it in the
    same call is read into a slot nobody holds: the DATA frame's rest is lost. *)
Lemma half_read_frame_lost :
  let at_once := (bytes_arrive 0 [2; 3] false (bytes_arrive 0 [1; 1; 7; 0; 3; 1] false waiting_client).2).2 in
  let apart := (bytes_arrive 0 [2; 3] false (bytes_arrive 0 [0; 3; 1] false (bytes_arrive 0 [1; 1; 7] false waiting_client).2).2).2 in
  at_once.2 = [(0, WT_HTTP3_FRAME_HEADERS, [7], true); (0, WT_HTTP3_FRAME_DATA, [1], false)] /\
  apart.2 = at_once.2 ++ [(0, WT_HTTP3_FRAME_DATA, [2; 3], false)].
Proof. by vm_compute. Qed.

(** With another stream in the table the slot is that stream's from then on: the
    header of stream 0's DATA frame is delivered as payload, and stream 4's frame
    misses as many bytes. *)
Lemma released_slot_is_another_streams :
  let both := (bytes_arrive 4 [0; 5; 9] false (bytes_arrive 0 [] false waiting_client).2).2 in
  let after := (bytes_arrive 4 [9; 9; 9; 9] false (bytes_arrive 0 [1; 1; 7; 0; 2; 1; 2] false both).2).2 in
  after.2 = [(4, WT_HTTP3_FRAME_DATA, [9], false); (0, WT_HTTP3_FRAME_HEADERS, [7], true);
             (0, WT_HTTP3_FRAME_DATA, [0; 2; 1; 2], false); (4, 9, [9; 9], false)].
Proof. by vm_compute. Qed.

(** ** The table of slots *)

(** Eight streams between frames fill it. *)
Lemma idle_streams_fill_the_table :
  let s := fold_left (fun s id => (bytes_arrive id [0; 1; 5] false s).2) [0; 4; 8; 12; 16; 20; 24; 28] server_reader in
  forallb (fun f => negb (fs_in_frame f) && bool_decide (fs_header f = [])) (dr_frames (driver_of s)) = true /\
  (bytes_arrive 32 [0; 1; 5] false s).1 = WT_ERR_LIMIT.
Proof. by vm_compute. Qed.

(** ** The end of a stream *)

(** A FIN that comes with nothing behind the prefix is not delivered; with a byte it is. *)
Lemma fin_with_prefix_lost :
  (arrives 0 0 [0x40; 0x41; 0] true server_reader).2.2 = [] /\ (arrives 2 0 [0x40; 0x54; 0] true server_reader).2.2 = [] /\
  (arrives 0 0 [0x40; 0x41; 0; 9] true server_reader).2.2 = [(0, WT_HTTP3_FRAME_DATA, [9], true)].
Proof. by vm_compute. Qed.

(** A unidirectional stream that ends inside its prefix keeps its place: eight fill
    the table for the life of the connection. *)
Lemma ended_prefix_never_released :
  let s := fold_left (fun s id => (arrives id 0 [0x40] true s).2) [2; 6; 10; 14; 18; 22; 26; 30] server_reader in
  (arrives 2 0 [0x40] true server_reader).1 = WT_OK /\ (arrives 34 0 [0x40] false s).1 = WT_ERR_LIMIT.
Proof. by vm_compute. Qed.

(** ** Streams of HTTP/3's own *)

(** The second STREAM frame of a stream whose type is unknown is refused. *)
Lemma unknown_stream_continued_refused :
  let first := arrives 2 0 [0x21; 5] false server_reader in first.1 = WT_OK /\ (arrives 2 2 [6] false first.2).1 = WT_ERR_STATE.
Proof. by vm_compute. Qed.

(** The instruction Set Dynamic Table Capacity to 220 on the QPACK encoder stream: the
    endpoint reads it, the driver takes it for the header of a frame that is too long. *)
Lemma encoder_stream_read_as_frames :
  let instruction := [0x3f; 0xbd; 0x01] in
  let s := on_driver (fun d => d <| dr_endpoint := (wt_http3_endpoint_set_decoder_capacity (dr_endpoint d) 220).2 |>) server_reader in
  let opened := (arrives 2 0 [2] false s).2 in
  let routed := (arrives 2 4 [0; 0] false (arrives 2 1 instruction false opened).2) in
  (match wt_http3_endpoint_on_qpack_encoder_bytes (dr_endpoint (driver_of opened)) instruction with Some r => Some r.1.1.1.1 | None => None end = Some WT_OK) /\
  routed.1 = WT_ERR_LIMIT /\ dr_last_error (driver_of routed.2) = WT_HTTP3_EXCESSIVE_LOAD.
Proof. by vm_compute. Qed.

(** ** Order *)

(** The offset of a STREAM frame is not looked at: what arrives first is read first,
    and what arrives twice is read twice. *)
Lemma stream_frames_not_reordered :
  let s := (arrives 0 0 [0x40; 0x41; 0] false server_reader).2 in
  (arrives 0 3 [1; 2] false (arrives 0 5 [3; 4] false s).2).2.2 = [(0, WT_HTTP3_FRAME_DATA, [3; 4], false); (0, WT_HTTP3_FRAME_DATA, [1; 2], false)] /\
  (arrives 0 3 [1; 2] false (arrives 0 3 [1; 2] false s).2).2.2 = [(0, WT_HTTP3_FRAME_DATA, [1; 2], false); (0, WT_HTTP3_FRAME_DATA, [1; 2], false)].
Proof. by vm_compute. Qed.

(** ** The time of a datagram *)

Definition bound_driver : wt_http3_driver := wt_http3_driver_bind_connection true (wt_http3_driver_init (wt_http3_endpoint_init WT_HTTP3_ROLE_CLIENT 0)).

Definition driver_client : wt_quic_connection (wt_http3_driver * unit) :=
  match (wt_quic_connection_init (sample_config WT_QUIC_ROLE_CLIENT [1; 2; 3; 4] [5; 6; 7; 8]) (bound_driver, ())).2 as o return is_Some o -> wt_quic_connection (wt_http3_driver * unit) with
  | Some c => fun _ => 
      let c := established (sample_keys 2) (sample_keys 1) (sample_address 1) c in
      c <| cn_peer_limits ::= (fun l => l <| pl_max_idle_timeout := 30000000 |>) |>
  | None => fun H => is_Some_proj H
  end ltac:(by eexists).

(** A datagram sent through the transport is sent at time 0: the connection, active at
    40 s, then takes its idle timeout of 30 s for over a microsecond later. *)
Lemma datagram_restarts_the_clock :
  let c := driver_client <| cn_last_activity := 40000000 |> in
  let sent := quic_send_datagram sample_socket None 1 [9] c in
  let idle c := wt_quic_connection_is_closed (wt_quic_connection_on_timeout sample_socket None sample_random 1 40000001 c).2 in
  sent.1 = WT_OK /\ cn_last_activity sent.2 = 0 /\ pk_time_sent <$> ls_sent (cn_loss sent.2) = [0] /\ idle c = false /\ idle sent.2 = true.
Proof. by vm_compute. Qed.

(** ** What is counted as ended *)

#[local] Instance driver_host : Host (wt_quic_connection (wt_http3_driver * unit)) := wt_http3_driver_quic_transport sample_socket None 1.

(** A stream of the server's that this client can only read from is counted as reset. *)
Lemma unread_stream_counted_as_reset :
  let c := on_driver (fun d => (remember_data_stream 3 0 (Some 0) d).2) driver_client in
  let r := wt_http3_driver_end_session_streams 1000 c in
  (r.1.1, r.1.2) = (WT_OK, 1) /\ has_send_half c 3 = false.
Proof. by vm_compute. Qed.
